(* ===== verification/_CoqProject ===== *)
-Q . S2P
Prelude.v
Gcd.v
GcdMap.v
GcdWalk.v
GcdFacts.v
GcdAlloc.v
GcdTheorems.v
GcdInit.v
GcdSpaceMap.v
Event.v
EventInv.v
EventOps.v
EventDispatch.v
EventTheorems.v
EventTimers.v
Depex.v
SafeInt.v
LinkedList.v
RbTree.v
RbShape.v
RbWalk.v
RbValid.v
RbInsert.v
RbDelete.v
RbTheorems.v
Handle.v
HandleSet.v
HandleInv.v
HandleRules.v
HandleInstall.v
HandleOpen.v
HandleUninstall.v
HandleSafe.v
HandleReach.v
HandleSpec.v
HandleTheorems.v
HandleLocate.v
StateMonad.v
MemoryBin.v
Page.v
PageSample.v
PageMap.v
PageOps.v
PageFind.v
PageInv.v
PageSteps.v
PageStack.v
PageTotal.v
PageServices.v
PageReach.v
PageTheorems.v
PageGetMap.v
PageDescriptors.v
PageSplit.v
PageReport.v
Pool.v
PoolLayout.v
PoolRules.v
PoolCarve.v
PoolTake.v
PoolPages.v
PoolFresh.v
PoolAllocate.v
PoolReturn.v
PoolWalk.v
PoolFree.v
PoolTheorems.v
Dispatcher.v
DispatchInv.v
DispatchQueue.v
DispatchRun.v
DispatchFv.v
DispatchOrder.v
DispatchSample.v
DispatchTheorems.v
FvImage.v
Connect.v
ConnectReach.v
ConnectOrder.v
ConnectTheorems.v
