(* ===== verification/Prelude.v ===== *)
(** * mu_basecore: a verification library for the DXE Foundation

    mu_basecore is the core of a UEFI firmware.  Its centre is the DXE
    Foundation ([src/MdeModulePkg/Core/Dxe]), which owns the address space, the
    events, timers and task priority levels, and decides which drivers may run;
    it stands on the base libraries of [src/MdePkg/Library].  This library
    models the parts of it listed below as executable Rocq functions, one per C
    function and under its name, and proves what makes them correct.

    ** Conventions

    A UINTN or UINT64 is a [Z]; arithmetic that can wrap is written with
    [add64], [sub64], [not64] (this file) or [Cast] (SafeInt.v), so that
    overflow behaves as in C on a 64-bit platform.  A fallible or looping
    function returns an [Outcome]: [Done], [Asserted] for a failed ASSERT (also
    used where the code would follow a dangling pointer or overrun a buffer),
    or [OutOfFuel].  State is passed explicitly as a record with the C
    globals as fields.  DEBUG output is left out.

    ** Parts

    - The Global Coherency Domain services ([Core/Dxe/Gcd/Gcd.c]).
      Gcd.v is the model: the maps as lists of entries in link order, the
      workers [CoreSearchGcdMapEntry], [CoreInsertGcdMapEntry],
      [CoreMergeGcdMapEntry], [CoreCleanupGcdMapEntry], and the services
      [CoreConvertSpace], [CoreAllocateSpace] and their wrappers, with locks,
      error paths, pool accounting and calls to the memory services recorded.
      GcdMap.v gives the abstract view, a partition of the address space into
      properties per address; GcdWalk.v, GcdFacts.v and GcdAlloc.v show what
      each worker does to it.  GcdTheorems.v has the theorems: conversion
      changes exactly the given range and succeeds exactly when it may;
      allocation is sound, and first fit and complete bottom-up; freeing undoes
      allocating; every reachable state tiles the address space with fully
      merged entries and leaks no pool block.  GcdInit.v treats descriptors,
      the choice of the initial memory region, and inputs the services do not
      handle.  GcdSpaceMap.v treats the snapshots of the maps, taken while
      the lock is dropped for an allocation.

    - Events, timers and task priority levels ([Core/Dxe/Event/Event.c],
      [Tpl.c], [Timer.c], and the locks of [Core/Dxe/Library/Library.c]).
      Event.v is the model.  [CoreRestoreTpl] runs the notification functions,
      which are arbitrary programs that may call every service, so services and
      [CoreRestoreTpl] are mutually recursive: the services are defined over a
      function [Restore], and [CoreRestoreTpl] ties the knot with fuel.
      EventInv.v states the invariant of the event database; EventOps.v proves
      that each service keeps it against the interface [RestoreSpec] of
      [CoreRestoreTpl], which EventDispatch.v discharges.  EventTheorems.v:
      the invariant holds in all reachable states; lowering the level leaves no
      higher notification queued; the order of dispatch; signal and check.
      EventTimers.v: what one run of the timer check does, and when it hangs.

    - Dependency expressions of the dispatcher
      ([Core/Dxe/Dispatcher/Dependency.c]).  Depex.v: the stack in pool memory,
      the evaluator with its in-place rewriting; evaluation agrees with the
      Boolean value of the expression over any growing set of protocols, or is FALSE
      when the stack cannot grow, and malformed input is handled except for a read
      past the end.

    - BaseSafeIntLib ([src/MdePkg/Library/BaseSafeIntLib/SafeIntLib.c] and
      [SafeIntLib64.c]).  SafeInt.v: all 72 conversions and 33 arithmetic
      functions are exact.

    - Linked lists ([src/MdePkg/Library/BaseLib/LinkedList.c]).  LinkedList.v:
      the functions on links in memory implement sequences of nodes, which is
      the view of a LIST_ENTRY list that Gcd.v, Event.v and Handle.v take.

    - Ordered collections
      ([src/MdePkg/Library/BaseOrderedCollectionRedBlackTreeLib]).  RbTree.v is
      the model, on a heap of nodes with parent, child and color fields.
      RbShape.v relates a heap to a tree; RbWalk.v treats minimum, maximum and
      neighbours, RbValid.v order, lookup and the validation of the tree,
      RbInsert.v and RbDelete.v the rebalancing.  RbTheorems.v: insertion and
      deletion refine those of an ordered sequence and keep the red-black
      properties in all reachable states, lookups agree with the sequence and
      take logarithmic time, and the validation passes exactly for valid trees.

    - The handle database ([Core/Dxe/Hand/Handle.c], [Notify.c], [Locate.c]).
      Handle.v is the model, programs of a state monad over maps from addresses
      to IHANDLE, PROTOCOL_ENTRY, PROTOCOL_INTERFACE and PROTOCOL_NOTIFY.  It
      uses the set of handles through the class [HandleSetOps], whose laws
      [HandleSetOk] the red-black tree discharges in HandleSet.v.  HandleInv.v
      states the invariant, HandleRules.v a logic of triples for the programs,
      and HandleInstall.v, HandleOpen.v, HandleUninstall.v and HandleSafe.v show
      that each service keeps the invariant although the lock is dropped in the
      middle of some.  HandleReach.v: it holds in all reachable states, with
      notification functions and drivers that call the services again.
      HandleSpec.v has the abstract services and HandleTheorems.v that the code
      refines them, with drivers that give up an interface or refuse to, a round
      trip, the decision of [CoreOpenProtocol], and runs in which the code departs
      from its documentation or reads freed memory.  HandleLocate.v:
      searches by protocol, and registrations report each interface once.

    - The driver connection services ([Core/Dxe/Hand/DriverSupport.c]).  Connect.v
      is the model, programs over the state of the handle database; what drivers
      provide is in the class [Drivers].  ConnectReach.v closes the circle between the
      database, which calls the connection services, and drivers, which use all of them:
      the invariant of the database holds in all reachable states; there are runs in
      which the code reads or writes outside of its arrays.  ConnectOrder.v treats
      lookups in a database that nothing else uses, and the array of drivers and its
      order.  ConnectTheorems.v: drivers are started in the order of precedence until none
      is left that supports the controller, and disconnecting all drivers or a given one
      stops those that can stop.

    - The page allocator ([Core/Dxe/Mem/Page.c], [MemoryBin.c], and the aligned
      pages of [src/MdeModulePkg/Library/DxeCoreMemoryAllocationLib]).
      StateMonad.v has the programs over a state that it is written in.
      MemoryBin.v and Page.v are the model: the map as the sequence of its
      descriptors, which are elements of the array mMapStack until they move
      into pages that the allocator takes from the map itself.
      PageSample.v is a small machine for examples.  PageMap.v gives the
      abstract view, a type and attributes per address; PageOps.v shows what
      adding a range and taking one out of its descriptor do to it, PageFind.v
      that the search finds the highest place.  PageInv.v states the invariant
      and the relation [Grows] of states between which only pages for
      descriptors were taken; PageSteps.v treats conversions against an
      interface ([Grow], [Empties]) of [CoreFreeMemoryMapStack], which
      PageStack.v discharges, with promotion of untested memory; PageTotal.v
      shows that it all returns.  PageServices.v and PageReach.v treat the
      services, and PageTheorems.v has the theorems: allocation takes the
      pages that the search order prescribes and nothing else, before or after the
      promotion of untested memory, freeing undoes it, allocated pages are not handed out again, and the invariant holds in
      all reachable states.  PageGetMap.v is the model of [CoreGetMemoryMap] with
      [MergeMemoryMap] of [Core/Dxe/Misc/MemoryAttributesTable.c].
      PageDescriptors.v treats merging, PageSplit.v the copy of the map and the
      splits at the bins, and PageReport.v the GCD map and the service: the map
      for the caller says about every address what the allocator and the GCD
      say, and fits the size that was asked for.

    - The pool ([Core/Dxe/Mem/Pool.c]).  Pool.v is the model, with the heads and
      tails of blocks as words of memory.  PoolLayout.v describes how pages are cut
      into blocks, PoolRules.v states the invariant that ties lists, counts and
      memory to such a layout, and a logic ([wp]) for programs whose calls of the
      page allocator may not return.  PoolPages.v is the interface of the page
      allocator ([PageServer]) with its two instances.  PoolCarve.v, PoolTake.v
      and PoolFresh.v treat cutting and taking blocks, PoolAllocate.v allocation
      up to [CoreAllocatePool]; PoolReturn.v and PoolWalk.v the return of a block
      and of its page, PoolFree.v freeing up to [CoreFreePool] with the pools of
      OEM types.  PoolTheorems.v: live buffers are separate and backed by memory
      of their type in all reachable states, allocation and freeing return and
      leave the contents of other buffers alone, no page without a buffer is kept;
      and sizes near 2^64 wrap around.

    - The dispatcher ([Core/Dxe/Dispatcher/Dispatcher.c]).  Dispatcher.v is the
      model: the list of discovered drivers, with the dependency expressions of
      Depex.v, and the queue as a sequence of their numbers.  DispatchInv.v has
      the states of a driver and their transitions, the invariant, and the laws
      ([DispatchLaws]) of the programs that run in between: they may call all
      services of the dispatcher.  DispatchQueue.v treats Schedule, Trust and the
      recursive insertion of a driver, DispatchRun.v the rounds of [CoreDispatcher]
      with a measure of the steps that are left, DispatchFv.v the discovery of
      drivers in firmware volumes and the a priori file, DispatchOrder.v the order
      of drivers that are to run before or after others.  DispatchSample.v is an
      environment for examples.  DispatchTheorems.v: the invariant holds for the
      services in any order, insertion respects the order, [CoreDispatcher] returns
      and leaves no driver that could run; and runs with duplicate names, an a
      priori driver that is started twice, and a failure that blocks the dispatcher.
      FvImage.v has [CoreProcessFvImageFile], which gives the firmware volumes inside
      a file memory with the alignment that they ask for: it keeps exactly the memory
      of the volumes that it has produced.

    ** Fuel

    The fuel of the loops over GCD entries is the length of the list walked
    plus one, and the theorems show that it never runs out.
    [CoreRestoreTpl] takes fuel from its caller, because notification functions
    may recurse without bound; for functions that return at once 31 levels and
    one round per event are enough ([CoreRestoreTpl_dispatch_order]).
    [CoreCheckTimers] needs one round per expiry ([TotalRounds]); with a period
    near 2^64 no fuel is enough ([CoreCheckTimers_hangs]).  [EvaluateLoop]
    needs one round per byte, [IsNodeInList] one per node.  The loops over a
    red-black tree get one round more than it has nodes (the one that repairs
    a deletion two more), which is shown to be enough.  In the handle database the
    loops over lists are structural; [Fuel] bounds those during which the lock
    is dropped, whose number of rounds drivers determine, and the depth of
    [Nested] how far services and notifications are nested; the invariant is
    proved for every depth and every [Fuel].  The connection services start drivers in
    at most one round more than there are drivers; [Fuel] bounds the reports of override
    protocols and the restarts, and the fuel of [CoreConnectController] the depth of the
    tree of controllers.  In the page allocator
    [ConvertLoop] gets one round per page of the range and each round converts
    one at least; [FreeStackLoop] gets twice the size of the stack, enough for
    five descriptors and as many for the page that may be allocated for them;
    [CoreFreeMemoryMapStack] is called inside itself only once, when it returns
    at once, so that its fuel is 2 ([CoreFreeMemoryMapStack_total]).  The loop of
    [CoreGetMemoryMap] over a bin gets one round more than there are descriptors;
    each round leaves one free descriptor less in the bin.  In the pool
    [SameSizeLoop] gets the number of blocks that fit, and the walks over a page
    ([WalkFuel]) one round per smallest block.  In the dispatcher [LoopFuel] bounds
    the loops during which drivers may be added; for at most n drivers more than 6n
    is enough ([CoreDispatcher_returns]).  [CoreProcessFvImageFile] needs one round
    more than the file has sections, and [EntryFuel] is for the walk over an
    extension header, of whose entries there are at most as many.

    ** Parameters

    Pool allocation ([PoolAvailable], [AllocatePool]), the CPU and timer
    protocols, the SMM communication protocol, the protocol database seen by
    the dependency evaluator, the PCDs, memory contents outside the objects in
    play, the comparison functions of ordered collections, and the drivers'
    notification functions are arguments of the definitions.  The handle
    database takes the event dispatch on dropping its lock, the driver connection
    services and device paths from the class [Environment].  The connection services
    take the functions of drivers, the override protocols and the security protocol from
    the class [Drivers]; the theorems on what they do assume that nothing else uses the
    database, that there is memory ([EnoughMemory]), and what the interfaces of drivers
    promise ([DriversReturn], [OverridesReport], [StopContract]).  For the refinement
    theorems of the database [QuietEnvironment] says that notifications do not use it and
    that a driver that is asked to disconnect refuses or closes its interfaces; that the
    modelled CoreDisconnectController does so when the drivers' Stop functions do is
    ConnectTheorems.CoreDisconnectController_lets_go.
    The page allocator takes the heap guard, the profile, the protection policy, the memory
    attribute protocol and what runs when its lock is released from the class
    [PageEnvironment], and [CoreGetMemoryMap] also the bitmap of the heap guard,
    which is not read without it; its theorems are for platforms without heap guard
    ([GuardOff]) whose hooks leave the map alone ([Quiet]), on which page sizes
    and granularities are those of X64.  The pool takes the heap guard for pools
    and what runs when its lock is released from the class [PoolEnvironment],
    with the same assumptions ([PoolQuiet]); requests of 2^64 - 8192 bytes up to
    [MAX_POOL_SIZE], whose block size wraps around, are left out of its theorems.  The dispatcher takes images, firmware
    volumes, events and what runs when its lock is released from the class
    [DispatchEnvironment]; its theorems assume of them that they change the drivers
    only through the services, that file names are unique, that an a priori file
    names drivers without SOR once each, and that expressions are well formed
    and that there is memory ([DispatchLaws], where all assumptions are listed).
    [CoreProcessFvImageFile] takes sections, allocators and the security protocol from
    the class [FvImageEnvironment]; its theorem assumes that buffers are new and separate
    ([FvImageLaws]), and of the bytes of a volume that its extension header is well
    formed and that the used size in it is right ([WellFormedVolume]).  The theorems on
    the GCD are for ranges that do not wrap around.  Every theorem states its conditions
    in its comment, with the run that shows what happens without them.

    ** Not modelled

    Heap guard, memory profile, memory attributes table and protection
    policy, image loading, firmware volumes, the HOB
    walks that initialize the GCD and the bins, the PEI and MM cores, variables,
    and all drivers, applications and build tools.

    This file holds what the others share: statuses, the [Outcome] monad,
    64-bit arithmetic, alignment lemmas, the hint database [uefi] and the
    tactics. *)
From Stdlib Require Import ZArith Lia.
From stdpp Require Import base option list.

(** ** Scopes and notation *)

Declare Scope uefi_scope.
Delimit Scope uefi_scope with uefi.
#[global] Open Scope Z_scope.

(** ** Statuses *)

(** The EFI_STATUS codes the modelled services return. *)
Inductive EFI_STATUS :=
| EFI_SUCCESS
| EFI_INVALID_PARAMETER
| EFI_UNSUPPORTED
| EFI_ACCESS_DENIED
| EFI_NOT_FOUND
| EFI_OUT_OF_RESOURCES
| EFI_NOT_AVAILABLE_YET
| EFI_NOT_READY
| EFI_ALREADY_STARTED
| EFI_BUFFER_TOO_SMALL
| EFI_DEVICE_ERROR
| EFI_PROTOCOL_ERROR
| EFI_SECURITY_VIOLATION.

#[export] Instance EFI_STATUS_eq_dec : EqDecision EFI_STATUS.
Proof. solve_decision. Defined.

(** The macro [EFI_ERROR]. *)
Definition EFI_ERROR (Status : EFI_STATUS) : bool :=
  match Status with EFI_SUCCESS => false | _ => true end.

Lemma EFI_ERROR_false Status : EFI_ERROR Status = false <-> Status = EFI_SUCCESS.
Proof. by destruct Status. Qed.

(** ** Outcomes *)

(** A run of C code either returns a value, stops in a failed [ASSERT]
    (a dead loop in the builds where assertions are enabled), or has used
    up the fuel given to a loop that is not structural. *)
Inductive Outcome (A : Type) :=
| Done (a : A)
| Asserted
| OutOfFuel.
Arguments Done {A} a.
Arguments Asserted {A}.
Arguments OutOfFuel {A}.

#[export] Instance Outcome_ret : MRet Outcome := fun A a => Done a.
#[export] Instance Outcome_bind : MBind Outcome :=
  fun A B f m =>
    match m with Done a => f a | Asserted => Asserted | OutOfFuel => OutOfFuel end.

(** The macro [ASSERT]. *)
Definition ASSERT (b : bool) : Outcome unit := if b then Done tt else Asserted.

Lemma Outcome_bind_Done {A B} (m : Outcome A) (f : A -> Outcome B) b :
  (m ≫= f) = Done b <-> exists a, m = Done a /\ f a = Done b.
Proof.
  split.
  - destruct m; simpl; [eauto | discriminate | discriminate].
  - intros (a & -> & H). exact H.
Qed.

Lemma ASSERT_Done b u : ASSERT b = Done u <-> b = true.
Proof. destruct b, u; simpl; split; done. Qed.

(** ** Machine integers *)

(** UINT64 arithmetic: the mathematical result reduced modulo 2^64. *)
Definition MAX_UINT64 : Z := 2 ^ 64 - 1.
Definition u64 (x : Z) : Z := x mod 2 ^ 64.
Definition add64 (a b : Z) : Z := u64 (a + b).
Definition sub64 (a b : Z) : Z := u64 (a - b).
Definition not64 (a : Z) : Z := u64 (Z.lnot a).
Definition is_u64 (x : Z) : Prop := 0 <= x < 2 ^ 64.

(** [(X & Mask) != 0] *)
Definition HasFlag (X Mask : Z) : bool := negb (Z.land X Mask =? 0).

Lemma HasFlag_lor x a b : HasFlag x (Z.lor a b) = HasFlag x a || HasFlag x b.
Proof.
  unfold HasFlag. rewrite Z.land_lor_distr_r.
  destruct (Z.eqb_spec (Z.land x a) 0) as [->|Ha]; [done|].
  destruct (Z.eqb_spec (Z.lor (Z.land x a) (Z.land x b)) 0) as [H|H]; [|done].
  by apply Z.lor_eq_0_iff in H as [? ?].
Qed.

Lemma u64_small x : 0 <= x < 2 ^ 64 -> u64 x = x.
Proof. apply Z.mod_small. Qed.

Lemma u64_range x : is_u64 (u64 x).
Proof. apply Z.mod_pos_bound. lia. Qed.

Lemma add64_small a b : 0 <= a + b < 2 ^ 64 -> add64 a b = a + b.
Proof. apply u64_small. Qed.

Lemma sub64_small a b : 0 <= a - b < 2 ^ 64 -> sub64 a b = a - b.
Proof. apply u64_small. Qed.

Lemma add64_last a n : 0 <= a -> 0 < n -> a + n <= 2 ^ 64 -> sub64 (add64 a n) 1 = a + n - 1.
Proof.
  intros Ha Hn Hb. unfold sub64, add64, u64.
  rewrite Zminus_mod_idemp_l. apply Z.mod_small. lia.
Qed.

(** ** Proof automation *)

Create HintDb uefi.
#[export] Hint Resolve u64_range : uefi.

(** Turns boolean comparisons in the context and the goal into
    propositions over [Z]. *)
Ltac bool_to_Z :=
  repeat match goal with
  | H : andb _ _ = true |- _ => apply andb_true_iff in H as [? ?]
  | H : andb _ _ = false |- _ => apply andb_false_iff in H
  | H : orb _ _ = true |- _ => apply orb_true_iff in H
  | H : orb _ _ = false |- _ => apply orb_false_iff in H as [? ?]
  | H : negb _ = true |- _ => apply negb_true_iff in H
  | H : negb _ = false |- _ => apply negb_false_iff in H
  | H : (_ =? _) = true |- _ => apply Z.eqb_eq in H
  | H : (_ =? _) = false |- _ => apply Z.eqb_neq in H
  | H : (_ <? _) = true |- _ => apply Z.ltb_lt in H
  | H : (_ <? _) = false |- _ => apply Z.ltb_ge in H
  | H : (_ <=? _) = true |- _ => apply Z.leb_le in H
  | H : (_ <=? _) = false |- _ => apply Z.leb_gt in H
  end.

(** Splits the runs in the context into their steps. *)
Ltac outcome_inv :=
  repeat match goal with
  | H : (_ ≫= _) = Done _ |- _ => apply Outcome_bind_Done in H as (? & ? & ?)
  | H : ASSERT _ = Done _ |- _ => apply ASSERT_Done in H
  | H : Done _ = Done _ |- _ => injection H as H
  | H : Asserted = Done _ |- _ => discriminate H
  | H : OutOfFuel = Done _ |- _ => discriminate H
  | H : mret _ = Done _ |- _ => unfold mret, Outcome_ret in H
  end; simplify_eq.

(** Equality of tuples and options whose components are equal by [lia]. *)
Ltac pair_lia :=
  repeat match goal with
  | |- (_, _) = (_, _) => f_equal
  | |- Some _ = Some _ => f_equal
  end; first [done | lia].

(** ** Power-of-two alignment *)

Lemma u64_land x : u64 x = Z.land x (Z.ones 64).
Proof. unfold u64. by rewrite Z.land_ones by lia. Qed.

Lemma pow2_pos k : 0 <= k -> 0 < 2 ^ k.
Proof. intros. by apply Z.pow_pos_nonneg. Qed.

Lemma pow2_le_mono j k : 0 <= j <= k -> 2 ^ j <= 2 ^ k.
Proof. intros. by apply Z.pow_le_mono_r; lia. Qed.

(** Masking with the complement of [2^k - 1] rounds down to a multiple of [2^k]. *)
Lemma mask_align_down v k :
  0 <= v < 2 ^ 64 -> 0 <= k -> Z.land v (not64 (2 ^ k - 1)) = v / 2 ^ k * 2 ^ k.
Proof.
  intros Hv Hk. unfold not64. rewrite u64_land.
  rewrite (Z.land_comm (Z.lnot _)), Z.land_assoc, <- u64_land, u64_small by done.
  rewrite <- Z.ldiff_land. replace (2 ^ k - 1) with (Z.ones k) by (rewrite Z.ones_equiv; lia).
  rewrite Z.ldiff_ones_r by done. by rewrite Z.shiftl_mul_pow2, Z.shiftr_div_pow2 by done.
Qed.

Lemma mask_aligned v k : 0 <= k -> HasFlag v (2 ^ k - 1) = false <-> (2 ^ k | v).
Proof.
  intros Hk. unfold HasFlag. replace (2 ^ k - 1) with (Z.ones k) by (rewrite Z.ones_equiv; lia).
  rewrite Z.land_ones, negb_false_iff, Z.eqb_eq by done.
  apply Z.mod_divide. pose proof (pow2_pos k Hk). lia.
Qed.

Lemma align_down_bounds v m : 0 < m -> v - m < v / m * m <= v.
Proof. intros. pose proof (Z.div_mod v m). pose proof (Z.mod_pos_bound v m). lia. Qed.

Lemma align_up_least v m b : 0 < m -> (m | b) -> v <= b -> (v + (m - 1)) / m * m <= b.
Proof.
  intros Hm [q ->] Hv. apply Z.mul_le_mono_nonneg_r; [lia|].
  apply Z.lt_succ_r. apply Z.div_lt_upper_bound; lia.
Qed.

Lemma filter_none {A} (P : A -> Prop) `{forall x, Decision (P x)} (l : list A) :
  (forall x, x ∈ l -> ~ P x) -> filter P l = [].
Proof.
  induction l as [|x l IH]; intros Hl; [done|]. rewrite filter_cons_False by (apply Hl; by left).
  apply IH. intros y Hy. apply Hl. by right.
Qed.
