(* ===== verification/Gcd.v ===== *)
(** * Global Coherency Domain services (model)

    The GCD memory and I/O space maps of
    [src/MdeModulePkg/Core/Dxe/Gcd/Gcd.c]: the worker functions that search,
    split, merge and convert the entries of a map, and the services built on
    them.

    A map is the list of its entries in link order.  The links the code walks
    with are positions of that list, and the loops from [StartLink] to
    [EndLink] work on the four stretches they cut the list into:

      [rev Below ++ rev Walked ++ Run ++ Above]

    where [Run] is the part from the current [Link] to [EndLink], [Walked] the
    part from [StartLink] up to [Link] (nearest first), and [Below], [Above]
    the entries outside (nearest first).  [InsertTailList (Link, _)] adds an
    entry just before the current one, [InsertHeadList (Link, _)] just after
    it, whichever stretch that is.

    Pool blocks are counted, so that allocating, linking and freeing entries
    is visible.  Pool allocation succeeds or fails as [PoolAvailable] says, an
    arbitrary function of the number of live blocks; the CPU architectural
    protocol [gCpu] is either absent or an arbitrary function. *)
From Stdlib Require Import ZArith Lia.
From stdpp Require Import base option list.
From S2P Require Import Prelude.

(** ** Constants *)

Definition EFI_PAGE_SHIFT : Z := 12.
Definition EFI_PAGE_SIZE : Z := 4096.
Definition EFI_PAGE_MASK : Z := 4095.

Definition EFI_MEMORY_UC : Z := 0x1.
Definition EFI_MEMORY_WC : Z := 0x2.
Definition EFI_MEMORY_WT : Z := 0x4.
Definition EFI_MEMORY_WB : Z := 0x8.
Definition EFI_MEMORY_UCE : Z := 0x10.
Definition EFI_MEMORY_WP : Z := 0x1000.
Definition EFI_MEMORY_RP : Z := 0x2000.
Definition EFI_MEMORY_XP : Z := 0x4000.
Definition EFI_MEMORY_RO : Z := 0x20000.
Definition EFI_MEMORY_RUNTIME : Z := 0x8000000000000000.
Definition EFI_MEMORY_PORT_IO : Z := 0x4000000000000000.
Definition EFI_CACHE_ATTRIBUTE_MASK : Z :=
  Z.lor EFI_MEMORY_UC (Z.lor EFI_MEMORY_WC (Z.lor EFI_MEMORY_WT
    (Z.lor EFI_MEMORY_WB (Z.lor EFI_MEMORY_UCE EFI_MEMORY_WP)))).
Definition EFI_MEMORY_ACCESS_MASK : Z :=
  Z.lor EFI_MEMORY_RP (Z.lor EFI_MEMORY_XP EFI_MEMORY_RO).

Definition EfiGcdMemoryTypeNonExistent : Z := 0.
Definition EfiGcdMemoryTypeReserved : Z := 1.
Definition EfiGcdMemoryTypeSystemMemory : Z := 2.
Definition EfiGcdMemoryTypeMemoryMappedIo : Z := 3.
Definition EfiGcdMemoryTypePersistent : Z := 4.
Definition EfiGcdMemoryTypeMoreReliable : Z := 5.
Definition EfiGcdMemoryTypeUnaccepted : Z := 6.
Definition EfiGcdMemoryTypeMaximum : Z := 7.

Definition EfiGcdIoTypeNonExistent : Z := 0.
Definition EfiGcdIoTypeReserved : Z := 1.
Definition EfiGcdIoTypeIo : Z := 2.
Definition EfiGcdIoTypeMaximum : Z := 3.

Definition EfiGcdAllocateAnySearchBottomUp : Z := 0.
Definition EfiGcdAllocateMaxAddressSearchBottomUp : Z := 1.
Definition EfiGcdAllocateAddress : Z := 2.
Definition EfiGcdAllocateAnySearchTopDown : Z := 3.
Definition EfiGcdAllocateMaxAddressSearchTopDown : Z := 4.
Definition EfiGcdMaxAllocateType : Z := 5.

Definition EfiConventionalMemory : Z := 7.

(** The GCD operations of Gcd.h. *)
Definition GCD_MEMORY_SPACE_OPERATION : Z := 0x20.
Definition GCD_IO_SPACE_OPERATION : Z := 0x40.
Definition GCD_ADD_MEMORY_OPERATION : Z := Z.lor GCD_MEMORY_SPACE_OPERATION 0.
Definition GCD_ALLOCATE_MEMORY_OPERATION : Z := Z.lor GCD_MEMORY_SPACE_OPERATION 1.
Definition GCD_FREE_MEMORY_OPERATION : Z := Z.lor GCD_MEMORY_SPACE_OPERATION 2.
Definition GCD_REMOVE_MEMORY_OPERATION : Z := Z.lor GCD_MEMORY_SPACE_OPERATION 3.
Definition GCD_SET_ATTRIBUTES_MEMORY_OPERATION : Z := Z.lor GCD_MEMORY_SPACE_OPERATION 4.
Definition GCD_SET_CAPABILITIES_MEMORY_OPERATION : Z := Z.lor GCD_MEMORY_SPACE_OPERATION 5.
Definition GCD_ADD_IO_OPERATION : Z := Z.lor GCD_IO_SPACE_OPERATION 0.
Definition GCD_ALLOCATE_IO_OPERATION : Z := Z.lor GCD_IO_SPACE_OPERATION 1.
Definition GCD_FREE_IO_OPERATION : Z := Z.lor GCD_IO_SPACE_OPERATION 2.
Definition GCD_REMOVE_IO_OPERATION : Z := Z.lor GCD_IO_SPACE_OPERATION 3.

(** ** State *)

(** [EFI_GCD_MAP_ENTRY]; handles are 0 when NULL. *)
Record EFI_GCD_MAP_ENTRY := MkEntry {
  e_BaseAddress : Z;
  e_EndAddress : Z;
  e_Capabilities : Z;
  e_Attributes : Z;
  e_GcdMemoryType : Z;
  e_GcdIoType : Z;
  e_ImageHandle : Z;
  e_DeviceHandle : Z
}.

#[export] Instance EFI_GCD_MAP_ENTRY_eq_dec : EqDecision EFI_GCD_MAP_ENTRY.
Proof. solve_decision. Defined.

Definition set_BaseAddress (e : EFI_GCD_MAP_ENTRY) (x : Z) : EFI_GCD_MAP_ENTRY :=
  MkEntry x (e_EndAddress e) (e_Capabilities e) (e_Attributes e)
    (e_GcdMemoryType e) (e_GcdIoType e) (e_ImageHandle e) (e_DeviceHandle e).
Definition set_EndAddress (e : EFI_GCD_MAP_ENTRY) (x : Z) : EFI_GCD_MAP_ENTRY :=
  MkEntry (e_BaseAddress e) x (e_Capabilities e) (e_Attributes e)
    (e_GcdMemoryType e) (e_GcdIoType e) (e_ImageHandle e) (e_DeviceHandle e).
Definition set_Capabilities (e : EFI_GCD_MAP_ENTRY) (x : Z) : EFI_GCD_MAP_ENTRY :=
  MkEntry (e_BaseAddress e) (e_EndAddress e) x (e_Attributes e)
    (e_GcdMemoryType e) (e_GcdIoType e) (e_ImageHandle e) (e_DeviceHandle e).
Definition set_Attributes (e : EFI_GCD_MAP_ENTRY) (x : Z) : EFI_GCD_MAP_ENTRY :=
  MkEntry (e_BaseAddress e) (e_EndAddress e) (e_Capabilities e) x
    (e_GcdMemoryType e) (e_GcdIoType e) (e_ImageHandle e) (e_DeviceHandle e).
Definition set_GcdMemoryType (e : EFI_GCD_MAP_ENTRY) (x : Z) : EFI_GCD_MAP_ENTRY :=
  MkEntry (e_BaseAddress e) (e_EndAddress e) (e_Capabilities e) (e_Attributes e)
    x (e_GcdIoType e) (e_ImageHandle e) (e_DeviceHandle e).
Definition set_GcdIoType (e : EFI_GCD_MAP_ENTRY) (x : Z) : EFI_GCD_MAP_ENTRY :=
  MkEntry (e_BaseAddress e) (e_EndAddress e) (e_Capabilities e) (e_Attributes e)
    (e_GcdMemoryType e) x (e_ImageHandle e) (e_DeviceHandle e).
Definition set_Handles (e : EFI_GCD_MAP_ENTRY) (Image Device : Z) : EFI_GCD_MAP_ENTRY :=
  MkEntry (e_BaseAddress e) (e_EndAddress e) (e_Capabilities e) (e_Attributes e)
    (e_GcdMemoryType e) (e_GcdIoType e) Image Device.

(** Calls the GCD makes into the memory services of Mem/Page.c. *)
Inductive MemoryServiceCall :=
| CallUpdateMemoryAttributes (Start NumberOfPages NewAttributes : Z)
| CallAddMemoryDescriptor (Type_ Start NumberOfPages Attribute : Z).

(** The module variables, the pool blocks that hold map entries, and the
    calls made into the memory services, oldest first. *)
Record GcdState := MkGcd {
  mGcdMemorySpaceMap : list EFI_GCD_MAP_ENTRY;
  mGcdIoSpaceMap : list EFI_GCD_MAP_ENTRY;
  mGcdMemorySpaceLock : bool;
  mGcdIoSpaceLock : bool;
  PoolBlocks : Z;
  MemoryCalls : list MemoryServiceCall
}.

Definition GetMap (Io : bool) (st : GcdState) : list EFI_GCD_MAP_ENTRY :=
  if Io then mGcdIoSpaceMap st else mGcdMemorySpaceMap st.

Definition SetMap (Io : bool) (Map : list EFI_GCD_MAP_ENTRY) (st : GcdState) : GcdState :=
  if Io
  then MkGcd (mGcdMemorySpaceMap st) Map (mGcdMemorySpaceLock st) (mGcdIoSpaceLock st)
         (PoolBlocks st) (MemoryCalls st)
  else MkGcd Map (mGcdIoSpaceMap st) (mGcdMemorySpaceLock st) (mGcdIoSpaceLock st)
         (PoolBlocks st) (MemoryCalls st).

Definition AddPool (n : Z) (st : GcdState) : GcdState :=
  MkGcd (mGcdMemorySpaceMap st) (mGcdIoSpaceMap st) (mGcdMemorySpaceLock st)
    (mGcdIoSpaceLock st) (PoolBlocks st + n) (MemoryCalls st).

Definition EmitCalls (cs : list MemoryServiceCall) (st : GcdState) : GcdState :=
  MkGcd (mGcdMemorySpaceMap st) (mGcdIoSpaceMap st) (mGcdMemorySpaceLock st)
    (mGcdIoSpaceLock st) (PoolBlocks st) (MemoryCalls st ++ cs).

Definition GetLock (Io : bool) (st : GcdState) : bool :=
  if Io then mGcdIoSpaceLock st else mGcdMemorySpaceLock st.

Definition SetLock (Io : bool) (b : bool) (st : GcdState) : GcdState :=
  if Io
  then MkGcd (mGcdMemorySpaceMap st) (mGcdIoSpaceMap st) (mGcdMemorySpaceLock st) b
         (PoolBlocks st) (MemoryCalls st)
  else MkGcd (mGcdMemorySpaceMap st) (mGcdIoSpaceMap st) b (mGcdIoSpaceLock st)
         (PoolBlocks st) (MemoryCalls st).

(** [CoreAcquireGcdMemoryLock] and [CoreAcquireGcdIoLock]: a lock that is held
    fails the assertion of [CoreAcquireLock]. *)
Definition CoreAcquireGcdLock (Io : bool) (st : GcdState) : Outcome GcdState :=
  ASSERT (negb (GetLock Io st)) ;; Done (SetLock Io true st).

(** [CoreReleaseGcdMemoryLock] and [CoreReleaseGcdIoLock]. *)
Definition CoreReleaseGcdLock (Io : bool) (st : GcdState) : Outcome GcdState :=
  ASSERT (GetLock Io st) ;; Done (SetLock Io false st).

(** ** Alignment *)

Definition LShiftU64 (x n : Z) : Z := u64 (Z.shiftl x n).
Definition RShiftU64 (x n : Z) : Z := Z.shiftr x n.

Definition AlignValue (Value Alignment : Z) (RoundUp : bool) : Z :=
  let AlignmentMask := sub64 (LShiftU64 1 Alignment) 1 in
  let Value := if RoundUp then add64 Value AlignmentMask else Value in
  Z.land Value (not64 AlignmentMask).

Definition PageAlignAddress (Value : Z) : Z := AlignValue Value EFI_PAGE_SHIFT true.
Definition PageAlignLength (Value : Z) : Z := AlignValue Value EFI_PAGE_SHIFT false.

(** ** Worker functions on one map *)

(** The two work entries of [CoreAllocateGcdMapEntry]; a flag is set once the
    entry has been filled in and linked ([Signature != 0]). *)
Record Work := MkWork { TopUsed : bool; BottomUsed : bool }.

(** [CoreInsertGcdMapEntry]: clips [Entry] to the range, returning the entries
    linked just before and just after it. *)
Definition CoreInsertGcdMapEntry (Entry : EFI_GCD_MAP_ENTRY) (BaseAddress Length : Z) (w : Work)
  : Outcome (list EFI_GCD_MAP_ENTRY * EFI_GCD_MAP_ENTRY * list EFI_GCD_MAP_ENTRY * Work) :=
  ASSERT (negb (Length =? 0)) ;;
  '(Bottom, Entry, w) ←
    (if e_BaseAddress Entry <? BaseAddress then
       ASSERT (negb (BottomUsed w)) ;;
       Done ([set_EndAddress Entry (sub64 BaseAddress 1)],
             set_BaseAddress Entry BaseAddress,
             MkWork (TopUsed w) true)
     else Done ([], Entry, w));
  '(Top, Entry, w) ←
    (if sub64 (add64 BaseAddress Length) 1 <? e_EndAddress Entry then
       ASSERT (negb (TopUsed w)) ;;
       Done ([set_BaseAddress Entry (add64 BaseAddress Length)],
             set_EndAddress Entry (sub64 (add64 BaseAddress Length) 1),
             MkWork true (BottomUsed w))
     else Done ([], Entry, w));
  Done (Bottom, Entry, Top, w).

(** [CoreMergeGcdMapEntry]: [Adjacent] are the entries next to [Entry] in the
    given direction, nearest first (empty when the neighbour is the list
    head).  Also returns the number of pool blocks freed. *)
Definition CoreMergeGcdMapEntry (Entry : EFI_GCD_MAP_ENTRY) (Forward : bool)
    (Adjacent : list EFI_GCD_MAP_ENTRY)
  : EFI_STATUS * EFI_GCD_MAP_ENTRY * list EFI_GCD_MAP_ENTRY * Z :=
  match Adjacent with
  | [] => (EFI_SUCCESS, Entry, Adjacent, 0)
  | AdjacentEntry :: Adjacent' =>
    if negb (e_Capabilities Entry =? e_Capabilities AdjacentEntry)
    then (EFI_UNSUPPORTED, Entry, Adjacent, 0)
    else if negb (e_Attributes Entry =? e_Attributes AdjacentEntry)
    then (EFI_UNSUPPORTED, Entry, Adjacent, 0)
    else if negb (e_GcdMemoryType Entry =? e_GcdMemoryType AdjacentEntry)
    then (EFI_UNSUPPORTED, Entry, Adjacent, 0)
    else if negb (e_GcdIoType Entry =? e_GcdIoType AdjacentEntry)
    then (EFI_UNSUPPORTED, Entry, Adjacent, 0)
    else if negb (e_ImageHandle Entry =? e_ImageHandle AdjacentEntry)
    then (EFI_UNSUPPORTED, Entry, Adjacent, 0)
    else if negb (e_DeviceHandle Entry =? e_DeviceHandle AdjacentEntry)
    then (EFI_UNSUPPORTED, Entry, Adjacent, 0)
    else
      let Entry := if Forward then set_EndAddress Entry (e_EndAddress AdjacentEntry)
                   else set_BaseAddress Entry (e_BaseAddress AdjacentEntry) in
      (EFI_SUCCESS, Entry, Adjacent', 1)
  end.

(** The stretches a walk from [StartLink] to [EndLink] cuts a map into. *)
Record Cut := MkCut {
  Below : list EFI_GCD_MAP_ENTRY;
  Walked : list EFI_GCD_MAP_ENTRY;
  Run : list EFI_GCD_MAP_ENTRY;
  Above : list EFI_GCD_MAP_ENTRY
}.

Definition CutAt (Map : list EFI_GCD_MAP_ENTRY) (StartLink EndLink : nat) : Cut :=
  MkCut (rev (take StartLink Map)) []
    (take (S EndLink - StartLink) (drop StartLink Map)) (drop (S EndLink) Map).

(** The [while (Link != EndLink->ForwardLink)] loop of [CoreConvertSpace] and
    [CoreAllocateSpace]: clip each entry to the range, then update it with
    [Update], which threads [Acc]. *)
Fixpoint InsertRun {Acc : Type} (fuel : nat) (BaseAddress Length : Z)
    (Update : Acc -> EFI_GCD_MAP_ENTRY -> EFI_GCD_MAP_ENTRY * Acc)
    (w : Work) (a : Acc) (c : Cut) : Outcome (Work * Acc * Cut) :=
  match Run c with
  | [] => Done (w, a, c)
  | Entry :: Rest =>
    match fuel with
    | O => OutOfFuel
    | S fuel =>
      '(Bottom, Entry, Top, w) ← CoreInsertGcdMapEntry Entry BaseAddress Length w;
      let '(Entry, a) := Update a Entry in
      let '(Below', Walked') :=
        match Walked c with
        | [] => (Bottom ++ Below c, [])
        | _ :: _ => (Below c, Bottom ++ Walked c)
        end in
      let '(Rest, Above') :=
        match Rest with
        | [] => ([], Top ++ Above c)
        | _ :: _ => (Top ++ Rest, Above c)
        end in
      InsertRun fuel BaseAddress Length Update w a (MkCut Below' (Entry :: Walked') Rest Above')
    end
  end.

(** The backward merges of [CoreCleanupGcdMapEntry]: [Stack] are the entries
    before the current link, nearest first. *)
Fixpoint CleanupRun (Stack Run : list EFI_GCD_MAP_ENTRY) (Freed : Z)
  : list EFI_GCD_MAP_ENTRY * Z :=
  match Run with
  | [] => (Stack, Freed)
  | Entry :: Run =>
    let '(_, Entry, Stack, n) := CoreMergeGcdMapEntry Entry false Stack in
    CleanupRun (Entry :: Stack) Run (Freed + n)
  end.

(** [CoreCleanupGcdMapEntry]: the new map and the number of blocks freed. *)
Definition CoreCleanupGcdMapEntry (w : Work) (c : Cut) : EFI_STATUS * list EFI_GCD_MAP_ENTRY * Z :=
  let Freed := (if TopUsed w then 0 else 1) + (if BottomUsed w then 0 else 1) in
  let '(Stack, Freed) := CleanupRun (Below c) (rev (Walked c)) Freed in
  match Stack with
  | [] => (EFI_SUCCESS, Above c, Freed)
  | EndEntry :: Stack =>
    let '(_, EndEntry, Above', n) := CoreMergeGcdMapEntry EndEntry true (Above c) in
    (EFI_SUCCESS, rev Stack ++ EndEntry :: Above', Freed + n)
  end.

(** [CoreSearchGcdMapEntry]: the loop over the map, [Link] the position of the
    first entry of [Rest]. *)
Fixpoint SearchLoop (BaseAddress Length : Z) (Rest : list EFI_GCD_MAP_ENTRY) (Link : nat)
    (StartLink : option nat) : EFI_STATUS * option nat * option nat :=
  match Rest with
  | [] => (EFI_NOT_FOUND, StartLink, None)
  | Entry :: Rest =>
    let StartLink :=
      if (e_BaseAddress Entry <=? BaseAddress) && (BaseAddress <=? e_EndAddress Entry)
      then Some Link else StartLink in
    if (if StartLink is Some _ then
          (e_BaseAddress Entry <=? sub64 (add64 BaseAddress Length) 1) &&
          (sub64 (add64 BaseAddress Length) 1 <=? e_EndAddress Entry)
        else false)
    then (EFI_SUCCESS, StartLink, Some Link)
    else SearchLoop BaseAddress Length Rest (S Link) StartLink
  end.

Definition CoreSearchGcdMapEntry (BaseAddress Length : Z) (Map : list EFI_GCD_MAP_ENTRY)
  : Outcome (EFI_STATUS * option nat * option nat) :=
  ASSERT (negb (Length =? 0)) ;; Done (SearchLoop BaseAddress Length Map 0 None).

Definition CoreCountGcdMapEntry (Map : list EFI_GCD_MAP_ENTRY) : Z :=
  foldl (fun Count _ => Count + 1) 0 Map.

Definition ConverToCpuArchAttributes (Attributes : Z) : Z :=
  let CpuArchAttributes := Z.land Attributes EFI_MEMORY_ACCESS_MASK in
  let Has x := Z.land Attributes x =? x in
  if Has EFI_MEMORY_UC then Z.lor CpuArchAttributes EFI_MEMORY_UC
  else if Has EFI_MEMORY_WC then Z.lor CpuArchAttributes EFI_MEMORY_WC
  else if Has EFI_MEMORY_WT then Z.lor CpuArchAttributes EFI_MEMORY_WT
  else if Has EFI_MEMORY_WB then Z.lor CpuArchAttributes EFI_MEMORY_WB
  else if Has EFI_MEMORY_UCE then Z.lor CpuArchAttributes EFI_MEMORY_UCE
  else if Has EFI_MEMORY_WP then Z.lor CpuArchAttributes EFI_MEMORY_WP
  else CpuArchAttributes.

(** The verification loop of [CoreConvertSpace] on one entry. *)
Definition ConvertSpaceCheckEntry (Operation BaseAddress Length Capabilities Attributes : Z)
    (Entry : EFI_GCD_MAP_ENTRY) : EFI_STATUS :=
  if Operation =? GCD_ADD_MEMORY_OPERATION then
    if negb (e_GcdMemoryType Entry =? EfiGcdMemoryTypeNonExistent) || negb (e_ImageHandle Entry =? 0)
    then EFI_ACCESS_DENIED else EFI_SUCCESS
  else if Operation =? GCD_ADD_IO_OPERATION then
    if negb (e_GcdIoType Entry =? EfiGcdIoTypeNonExistent) || negb (e_ImageHandle Entry =? 0)
    then EFI_ACCESS_DENIED else EFI_SUCCESS
  else if (Operation =? GCD_FREE_MEMORY_OPERATION) || (Operation =? GCD_FREE_IO_OPERATION) then
    if e_ImageHandle Entry =? 0 then EFI_NOT_FOUND else EFI_SUCCESS
  else if Operation =? GCD_REMOVE_MEMORY_OPERATION then
    if e_GcdMemoryType Entry =? EfiGcdMemoryTypeNonExistent then EFI_NOT_FOUND
    else if negb (e_ImageHandle Entry =? 0) then EFI_ACCESS_DENIED else EFI_SUCCESS
  else if Operation =? GCD_REMOVE_IO_OPERATION then
    if e_GcdIoType Entry =? EfiGcdIoTypeNonExistent then EFI_NOT_FOUND
    else if negb (e_ImageHandle Entry =? 0) then EFI_ACCESS_DENIED else EFI_SUCCESS
  else if Operation =? GCD_SET_ATTRIBUTES_MEMORY_OPERATION then
    if HasFlag Attributes EFI_MEMORY_RUNTIME &&
       (HasFlag BaseAddress EFI_PAGE_MASK || HasFlag Length EFI_PAGE_MASK)
    then EFI_INVALID_PARAMETER
    else if negb (Z.land (e_Capabilities Entry) Attributes =? Attributes)
    then EFI_UNSUPPORTED else EFI_SUCCESS
  else if Operation =? GCD_SET_CAPABILITIES_MEMORY_OPERATION then
    if HasFlag BaseAddress EFI_PAGE_MASK || HasFlag Length EFI_PAGE_MASK
    then EFI_INVALID_PARAMETER
    else if negb (Z.land Capabilities (e_Attributes Entry) =? e_Attributes Entry)
    then EFI_UNSUPPORTED else EFI_SUCCESS
  else EFI_SUCCESS.

Fixpoint ConvertSpaceCheckRun (Operation BaseAddress Length Capabilities Attributes : Z)
    (Entries : list EFI_GCD_MAP_ENTRY) : EFI_STATUS :=
  match Entries with
  | [] => EFI_SUCCESS
  | Entry :: Entries =>
    let Status := ConvertSpaceCheckEntry Operation BaseAddress Length Capabilities Attributes Entry in
    if EFI_ERROR Status then Status
    else ConvertSpaceCheckRun Operation BaseAddress Length Capabilities Attributes Entries
  end.

(** The [switch] of the conversion loop on one entry.  The accumulator is the
    variable [Attributes], which the set-attributes case updates, and the
    calls made to [CoreUpdateMemoryAttributes]. *)
Definition ConvertSpaceEntry
    (Operation GcdMemoryType GcdIoType BaseAddress Length Capabilities CpuArchAttributes : Z)
    (Acc : Z * list MemoryServiceCall) (Entry : EFI_GCD_MAP_ENTRY)
  : EFI_GCD_MAP_ENTRY * (Z * list MemoryServiceCall) :=
  let '(Attributes, Calls) := Acc in
  if Operation =? GCD_ADD_MEMORY_OPERATION then
    let Entry := set_GcdMemoryType Entry GcdMemoryType in
    if GcdMemoryType =? EfiGcdMemoryTypeMemoryMappedIo
    then (set_Capabilities Entry
            (Z.lor (Z.lor Capabilities EFI_MEMORY_RUNTIME) EFI_MEMORY_PORT_IO), (Attributes, Calls))
    else (set_Capabilities Entry (Z.lor Capabilities EFI_MEMORY_RUNTIME), (Attributes, Calls))
  else if Operation =? GCD_ADD_IO_OPERATION then
    (set_GcdIoType Entry GcdIoType, (Attributes, Calls))
  else if (Operation =? GCD_FREE_MEMORY_OPERATION) || (Operation =? GCD_FREE_IO_OPERATION) then
    (set_Handles Entry 0 0, (Attributes, Calls))
  else if Operation =? GCD_REMOVE_MEMORY_OPERATION then
    (set_Capabilities (set_GcdMemoryType Entry EfiGcdMemoryTypeNonExistent) 0, (Attributes, Calls))
  else if Operation =? GCD_REMOVE_IO_OPERATION then
    (set_GcdIoType Entry EfiGcdIoTypeNonExistent, (Attributes, Calls))
  else if Operation =? GCD_SET_ATTRIBUTES_MEMORY_OPERATION then
    let Attributes :=
      if (CpuArchAttributes =? 0) && negb (Attributes =? 0)
      then Z.lor Attributes (Z.land (e_Attributes Entry)
             (Z.lor EFI_CACHE_ATTRIBUTE_MASK EFI_MEMORY_ACCESS_MASK))
      else Attributes in
    (set_Attributes Entry Attributes, (Attributes, Calls))
  else if Operation =? GCD_SET_CAPABILITIES_MEMORY_OPERATION then
    let Entry := set_Capabilities Entry Capabilities in
    if (e_GcdMemoryType Entry =? EfiGcdMemoryTypeSystemMemory) ||
       (e_GcdMemoryType Entry =? EfiGcdMemoryTypeMoreReliable)
    then (Entry, (Attributes, Calls ++ [CallUpdateMemoryAttributes BaseAddress
                   (RShiftU64 Length EFI_PAGE_SHIFT) (Z.land Capabilities (not64 EFI_MEMORY_RUNTIME))]))
    else (Entry, (Attributes, Calls))
  else (Entry, Acc).

(** [CoreAllocateSpaceCheckEntry] *)
Definition CoreAllocateSpaceCheckEntry (Operation : Z) (Entry : EFI_GCD_MAP_ENTRY)
    (GcdMemoryType GcdIoType : Z) : EFI_STATUS :=
  if negb (e_ImageHandle Entry =? 0) then EFI_NOT_FOUND
  else if Operation =? GCD_ALLOCATE_MEMORY_OPERATION then
    if negb (e_GcdMemoryType Entry =? GcdMemoryType) then EFI_NOT_FOUND else EFI_SUCCESS
  else if Operation =? GCD_ALLOCATE_IO_OPERATION then
    if negb (e_GcdIoType Entry =? GcdIoType) then EFI_NOT_FOUND else EFI_SUCCESS
  else EFI_UNSUPPORTED.

(** ** Services *)

Section Services.

(** Whether a pool allocation succeeds when so many entry blocks are live. *)
Variable PoolAvailable : Z -> bool.
(** [gCpu]: NULL, or the protocol's [SetMemoryAttributes]. *)
Variable gCpu : option (Z -> Z -> Z -> EFI_STATUS).

(** [CoreAllocateGcdMapEntry] *)
Definition CoreAllocateGcdMapEntry (st : GcdState) : EFI_STATUS * GcdState :=
  if negb (PoolAvailable (PoolBlocks st)) then (EFI_OUT_OF_RESOURCES, st)
  else
    let st := AddPool 1 st in
    if negb (PoolAvailable (PoolBlocks st)) then (EFI_OUT_OF_RESOURCES, AddPool (-1) st)
    else (EFI_SUCCESS, AddPool 1 st).

(** [CoreConvertSpace] between acquiring and releasing the lock of the map. *)
Definition ConvertSpaceLocked
    (Io : bool) (Operation GcdMemoryType GcdIoType BaseAddress Length Capabilities Attributes : Z)
    (st : GcdState) : Outcome (EFI_STATUS * GcdState) :=
  let Map := GetMap Io st in
  '(Status, StartLink, EndLink) ← CoreSearchGcdMapEntry BaseAddress Length Map;
  match EFI_ERROR Status, StartLink, EndLink with
  | false, Some StartLink, Some EndLink =>
    let c := CutAt Map StartLink EndLink in
    let Status := ConvertSpaceCheckRun Operation BaseAddress Length Capabilities Attributes (Run c) in
    if EFI_ERROR Status then Done (Status, st)
    else
      let '(Status, st) := CoreAllocateGcdMapEntry st in
      if EFI_ERROR Status then Done (EFI_OUT_OF_RESOURCES, st)
      else
        let CpuArchAttributes :=
          if Operation =? GCD_SET_ATTRIBUTES_MEMORY_OPERATION
          then ConverToCpuArchAttributes Attributes else 0 in
        let Status :=
          if negb (CpuArchAttributes =? 0) then
            match gCpu with
            | None => EFI_NOT_AVAILABLE_YET
            | Some SetMemoryAttributes => SetMemoryAttributes BaseAddress Length CpuArchAttributes
            end
          else EFI_SUCCESS in
        if EFI_ERROR Status then Done (Status, AddPool (-2) st)
        else
          '(w, (_, Calls), c) ←
            InsertRun (S (length (Run c))) BaseAddress Length
              (ConvertSpaceEntry Operation GcdMemoryType GcdIoType BaseAddress Length Capabilities
                 CpuArchAttributes)
              (MkWork false false) (Attributes, []) c;
          let '(Status, Map, Freed) := CoreCleanupGcdMapEntry w c in
          Done (Status, EmitCalls Calls (AddPool (- Freed) (SetMap Io Map st)))
  | _, _, _ => Done (EFI_UNSUPPORTED, st)
  end.

(** [CoreConvertSpace] *)
Definition CoreConvertSpace
    (Operation GcdMemoryType GcdIoType BaseAddress Length Capabilities Attributes : Z)
    (st : GcdState) : Outcome (EFI_STATUS * GcdState) :=
  if Length =? 0 then Done (EFI_INVALID_PARAMETER, st)
  else if HasFlag Operation GCD_MEMORY_SPACE_OPERATION || HasFlag Operation GCD_IO_SPACE_OPERATION
  then
    let Io := negb (HasFlag Operation GCD_MEMORY_SPACE_OPERATION) in
    st ← CoreAcquireGcdLock Io st;
    '(Status, st) ← ConvertSpaceLocked Io Operation GcdMemoryType GcdIoType BaseAddress Length
                      Capabilities Attributes st;
    st ← CoreReleaseGcdLock Io st;
    Done (Status, st)
  else Asserted.

(** The first link of [Entries] that [CoreAllocateSpaceCheckEntry] refuses,
    [SubLink] being the position of the head of [Entries]. *)
Fixpoint FirstRefused (Operation GcdMemoryType GcdIoType : Z)
    (Entries : list EFI_GCD_MAP_ENTRY) (SubLink : nat) : option nat :=
  match Entries with
  | [] => None
  | Entry :: Entries =>
    if EFI_ERROR (CoreAllocateSpaceCheckEntry Operation Entry GcdMemoryType GcdIoType)
    then Some SubLink
    else FirstRefused Operation GcdMemoryType GcdIoType Entries (S SubLink)
  end.

(** The search loop of [CoreAllocateSpace].  [Link] is [None] at the list
    head.  Returns the links found, if any, and the value left in
    [*BaseAddress]. *)
Fixpoint AllocateSearch (fuel : nat) (Operation GcdMemoryType GcdIoType : Z) (TopDown : bool)
    (AlignmentMask Length MaxAddress : Z) (Map : list EFI_GCD_MAP_ENTRY)
    (Link : option nat) (BaseAddress : Z) : Outcome (option (nat * nat) * Z) :=
  match Link with
  | None => Done (None, BaseAddress)
  | Some Here =>
    match fuel, Map !! Here with
    | O, _ => OutOfFuel
    | S _, None => Done (None, BaseAddress)
    | S fuel, Some Entry =>
      let Next :=
        if TopDown then match Here with O => None | S p => Some p end
        else if (S Here <? length Map)%nat then Some (S Here) else None in
      let Continue BaseAddress Link :=
        AllocateSearch fuel Operation GcdMemoryType GcdIoType TopDown AlignmentMask Length
          MaxAddress Map Link BaseAddress in
      let Attempt BaseAddress :=
        '(Status, StartLink, EndLink) ← CoreSearchGcdMapEntry BaseAddress Length Map;
        match EFI_ERROR Status, StartLink, EndLink with
        | true, _, _ => Done (None, BaseAddress)
        | false, Some StartLink, Some EndLink =>
          match FirstRefused Operation GcdMemoryType GcdIoType
                  (take (S EndLink - StartLink) (drop StartLink Map)) StartLink with
          | Some SubLink => Continue BaseAddress (Some SubLink)
          | None => Done (Some (StartLink, EndLink), BaseAddress)
          end
        | false, _, _ => Asserted
        end in
      if EFI_ERROR (CoreAllocateSpaceCheckEntry Operation Entry GcdMemoryType GcdIoType)
      then Continue BaseAddress Next
      else if TopDown then
        if MaxAddress <? add64 (e_BaseAddress Entry) Length then Continue BaseAddress Next
        else if add64 (e_EndAddress Entry) 1 <? Length then Done (None, BaseAddress)
        else
          let BaseAddress :=
            if MaxAddress <? e_EndAddress Entry then MaxAddress else e_EndAddress Entry in
          Attempt (Z.land (sub64 (add64 BaseAddress 1) Length) (not64 AlignmentMask))
      else
        let BaseAddress :=
          Z.land (add64 (e_BaseAddress Entry) AlignmentMask) (not64 AlignmentMask) in
        if MaxAddress <? sub64 (add64 BaseAddress Length) 1 then Done (None, BaseAddress)
        else Attempt BaseAddress
    end
  end.

(** The first half of [CoreAllocateSpace]: the links of the entries to
    allocate, or the error status, and the value left in [*BaseAddress]. *)
Definition AllocateFind (Operation GcdAllocateType GcdMemoryType GcdIoType Alignment Length : Z)
    (BaseAddress : Z) (Map : list EFI_GCD_MAP_ENTRY)
  : Outcome ((EFI_STATUS + nat * nat) * Z) :=
  let AlignmentMask := sub64 (LShiftU64 1 Alignment) 1 in
  if GcdAllocateType =? EfiGcdAllocateAddress then
    if HasFlag BaseAddress AlignmentMask then Done (inl EFI_NOT_FOUND, BaseAddress)
    else
      '(Status, StartLink, EndLink) ← CoreSearchGcdMapEntry BaseAddress Length Map;
      match EFI_ERROR Status, StartLink, EndLink with
      | true, _, _ => Done (inl EFI_NOT_FOUND, BaseAddress)
      | false, Some StartLink, Some EndLink =>
        match FirstRefused Operation GcdMemoryType GcdIoType
                (take (S EndLink - StartLink) (drop StartLink Map)) StartLink with
        | Some SubLink =>
          match Map !! SubLink with
          | Some Entry =>
            Done (inl (CoreAllocateSpaceCheckEntry Operation Entry GcdMemoryType GcdIoType), BaseAddress)
          | None => Asserted
          end
        | None => Done (inr (StartLink, EndLink), BaseAddress)
        end
      | false, _, _ => Asserted
      end
  else
    match last Map with
    | None => Asserted
    | Some LastEntry =>
      let MaxAddress :=
        if (GcdAllocateType =? EfiGcdAllocateMaxAddressSearchBottomUp) ||
           (GcdAllocateType =? EfiGcdAllocateMaxAddressSearchTopDown)
        then BaseAddress else e_EndAddress LastEntry in
      let TopDown := (GcdAllocateType =? EfiGcdAllocateMaxAddressSearchTopDown) ||
                     (GcdAllocateType =? EfiGcdAllocateAnySearchTopDown) in
      let Link := if TopDown then Some (pred (length Map)) else Some O in
      '(Found, BaseAddress) ←
        AllocateSearch (S (length Map)) Operation GcdMemoryType GcdIoType TopDown AlignmentMask
          Length MaxAddress Map Link BaseAddress;
      match Found with
      | None => Done (inl EFI_NOT_FOUND, BaseAddress)
      | Some Links => Done (inr Links, BaseAddress)
      end
    end.

(** [CoreAllocateSpace] between acquiring and releasing the lock of the map. *)
Definition AllocateSpaceLocked
    (Io : bool) (Operation GcdAllocateType GcdMemoryType GcdIoType Alignment Length : Z)
    (BaseAddress ImageHandle DeviceHandle : Z) (st : GcdState)
  : Outcome (EFI_STATUS * Z * GcdState) :=
  let Map := GetMap Io st in
  '(Found, BaseAddress) ← AllocateFind Operation GcdAllocateType GcdMemoryType GcdIoType Alignment
                            Length BaseAddress Map;
  match Found with
  | inl Status => Done (Status, BaseAddress, st)
  | inr (StartLink, EndLink) =>
    let '(Status, st) := CoreAllocateGcdMapEntry st in
    if EFI_ERROR Status then Done (EFI_OUT_OF_RESOURCES, BaseAddress, st)
    else
      let c := CutAt Map StartLink EndLink in
      '(w, _, c) ←
        InsertRun (S (length (Run c))) BaseAddress Length
          (fun (_ : unit) Entry => (set_Handles Entry ImageHandle DeviceHandle, tt))
          (MkWork false false) tt c;
      let '(Status, Map, Freed) := CoreCleanupGcdMapEntry w c in
      Done (Status, BaseAddress, AddPool (- Freed) (SetMap Io Map st))
  end.

(** [CoreAllocateSpace]; [BaseAddress] is [None] for a NULL pointer, and the
    result carries the value left behind it. *)
Definition CoreAllocateSpace
    (Operation GcdAllocateType GcdMemoryType GcdIoType Alignment Length : Z)
    (BaseAddress : option Z) (ImageHandle DeviceHandle : Z) (st : GcdState)
  : Outcome (EFI_STATUS * option Z * GcdState) :=
  if EfiGcdMaxAllocateType <=? GcdAllocateType then Done (EFI_INVALID_PARAMETER, BaseAddress, st)
  else if EfiGcdMemoryTypeMaximum <=? GcdMemoryType then Done (EFI_INVALID_PARAMETER, BaseAddress, st)
  else if EfiGcdIoTypeMaximum <=? GcdIoType then Done (EFI_INVALID_PARAMETER, BaseAddress, st)
  else match BaseAddress with
  | None => Done (EFI_INVALID_PARAMETER, BaseAddress, st)
  | Some Base =>
    if ImageHandle =? 0 then Done (EFI_INVALID_PARAMETER, BaseAddress, st)
    else if 64 <=? Alignment then Done (EFI_NOT_FOUND, BaseAddress, st)
    else if Length =? 0 then Done (EFI_INVALID_PARAMETER, BaseAddress, st)
    else if HasFlag Operation GCD_MEMORY_SPACE_OPERATION || HasFlag Operation GCD_IO_SPACE_OPERATION
    then
      let Io := negb (HasFlag Operation GCD_MEMORY_SPACE_OPERATION) in
      st ← CoreAcquireGcdLock Io st;
      '(Status, Base, st) ←
        AllocateSpaceLocked Io Operation GcdAllocateType GcdMemoryType GcdIoType Alignment Length
          Base ImageHandle DeviceHandle st;
      st ← CoreReleaseGcdLock Io st;
      Done (Status, Some Base, st)
    else Asserted
  end.

(** [CoreInternalAddMemorySpace] *)
Definition CoreInternalAddMemorySpace (GcdMemoryType BaseAddress Length Capabilities : Z)
    (st : GcdState) : Outcome (EFI_STATUS * GcdState) :=
  if (GcdMemoryType <=? EfiGcdMemoryTypeNonExistent) || (EfiGcdMemoryTypeMaximum <=? GcdMemoryType)
  then Done (EFI_INVALID_PARAMETER, st)
  else CoreConvertSpace GCD_ADD_MEMORY_OPERATION GcdMemoryType 0 BaseAddress Length Capabilities 0 st.

(** [CoreAllocateMemorySpace] *)
Definition CoreAllocateMemorySpace (GcdAllocateType GcdMemoryType Alignment Length : Z)
    (BaseAddress : option Z) (ImageHandle DeviceHandle : Z) (st : GcdState)
  : Outcome (EFI_STATUS * option Z * GcdState) :=
  CoreAllocateSpace GCD_ALLOCATE_MEMORY_OPERATION GcdAllocateType GcdMemoryType 0 Alignment Length
    BaseAddress ImageHandle DeviceHandle st.

(** The page-by-page loop at the end of [CoreAddMemorySpace]. *)
Fixpoint AddPagesLoop (fuel : nat) (GcdMemoryType Capabilities gDxeCoreImageHandle : Z)
    (PageBaseAddress PageLength : Z) (Status : EFI_STATUS) (st : GcdState)
  : Outcome (EFI_STATUS * GcdState) :=
  if PageLength =? 0 then Done (Status, st)
  else match fuel with
  | O => OutOfFuel
  | S fuel =>
    '(Status, Base, st) ← CoreAllocateMemorySpace EfiGcdAllocateAddress GcdMemoryType EFI_PAGE_SHIFT
                            EFI_PAGE_SIZE (Some PageBaseAddress) gDxeCoreImageHandle 0 st;
    let PageBaseAddress := default PageBaseAddress Base in
    let st := if EFI_ERROR Status then st
              else EmitCalls [CallAddMemoryDescriptor EfiConventionalMemory PageBaseAddress 1 Capabilities] st in
    AddPagesLoop fuel GcdMemoryType Capabilities gDxeCoreImageHandle
      (add64 PageBaseAddress EFI_PAGE_SIZE) (sub64 PageLength EFI_PAGE_SIZE) Status st
  end.

(** [CoreAddMemorySpace] *)
Definition CoreAddMemorySpace (gDxeCoreImageHandle GcdMemoryType BaseAddress Length Capabilities : Z)
    (st : GcdState) : Outcome (EFI_STATUS * GcdState) :=
  '(Status, st) ← CoreInternalAddMemorySpace GcdMemoryType BaseAddress Length Capabilities st;
  if negb (EFI_ERROR Status) &&
     ((GcdMemoryType =? EfiGcdMemoryTypeSystemMemory) || (GcdMemoryType =? EfiGcdMemoryTypeMoreReliable))
  then
    let PageBaseAddress := PageAlignAddress BaseAddress in
    let PageLength := PageAlignLength (sub64 (add64 BaseAddress Length) PageBaseAddress) in
    '(Status, Base, st) ← CoreAllocateMemorySpace EfiGcdAllocateAddress GcdMemoryType EFI_PAGE_SHIFT
                            PageLength (Some PageBaseAddress) gDxeCoreImageHandle 0 st;
    let PageBaseAddress := default PageBaseAddress Base in
    if negb (EFI_ERROR Status)
    then Done (Status, EmitCalls [CallAddMemoryDescriptor EfiConventionalMemory PageBaseAddress
                                    (RShiftU64 PageLength EFI_PAGE_SHIFT) Capabilities] st)
    else AddPagesLoop (Z.to_nat (PageLength / EFI_PAGE_SIZE)) GcdMemoryType Capabilities
           gDxeCoreImageHandle PageBaseAddress PageLength Status st
  else Done (Status, st).

(** [CoreFreeMemorySpace], [CoreRemoveMemorySpace], [CoreSetMemorySpaceAttributes]
    and [CoreSetMemorySpaceCapabilities] *)
Definition CoreFreeMemorySpace (BaseAddress Length : Z) (st : GcdState) :=
  CoreConvertSpace GCD_FREE_MEMORY_OPERATION 0 0 BaseAddress Length 0 0 st.
Definition CoreRemoveMemorySpace (BaseAddress Length : Z) (st : GcdState) :=
  CoreConvertSpace GCD_REMOVE_MEMORY_OPERATION 0 0 BaseAddress Length 0 0 st.
Definition CoreSetMemorySpaceAttributes (BaseAddress Length Attributes : Z) (st : GcdState) :=
  CoreConvertSpace GCD_SET_ATTRIBUTES_MEMORY_OPERATION 0 0 BaseAddress Length 0 Attributes st.
Definition CoreSetMemorySpaceCapabilities (BaseAddress Length Capabilities : Z) (st : GcdState) :=
  CoreConvertSpace GCD_SET_CAPABILITIES_MEMORY_OPERATION 0 0 BaseAddress Length Capabilities 0 st.

(** [CoreAddIoSpace], [CoreAllocateIoSpace], [CoreFreeIoSpace], [CoreRemoveIoSpace] *)
Definition CoreAddIoSpace (GcdIoType BaseAddress Length : Z) (st : GcdState)
  : Outcome (EFI_STATUS * GcdState) :=
  if (GcdIoType <=? EfiGcdIoTypeNonExistent) || (EfiGcdIoTypeMaximum <=? GcdIoType)
  then Done (EFI_INVALID_PARAMETER, st)
  else CoreConvertSpace GCD_ADD_IO_OPERATION 0 GcdIoType BaseAddress Length 0 0 st.
Definition CoreAllocateIoSpace (GcdAllocateType GcdIoType Alignment Length : Z)
    (BaseAddress : option Z) (ImageHandle DeviceHandle : Z) (st : GcdState)
  : Outcome (EFI_STATUS * option Z * GcdState) :=
  CoreAllocateSpace GCD_ALLOCATE_IO_OPERATION GcdAllocateType 0 GcdIoType Alignment Length
    BaseAddress ImageHandle DeviceHandle st.
Definition CoreFreeIoSpace (BaseAddress Length : Z) (st : GcdState) :=
  CoreConvertSpace GCD_FREE_IO_OPERATION 0 0 BaseAddress Length 0 0 st.
Definition CoreRemoveIoSpace (BaseAddress Length : Z) (st : GcdState) :=
  CoreConvertSpace GCD_REMOVE_IO_OPERATION 0 0 BaseAddress Length 0 0 st.

End Services.

(** ** Descriptors *)

Record EFI_GCD_MEMORY_SPACE_DESCRIPTOR := MkMemoryDescriptor {
  d_BaseAddress : Z;
  d_Length : Z;
  d_Capabilities : Z;
  d_Attributes : Z;
  d_GcdMemoryType : Z;
  d_ImageHandle : Z;
  d_DeviceHandle : Z
}.

Definition BuildMemoryDescriptor (Entry : EFI_GCD_MAP_ENTRY) : EFI_GCD_MEMORY_SPACE_DESCRIPTOR :=
  MkMemoryDescriptor (e_BaseAddress Entry)
    (add64 (sub64 (e_EndAddress Entry) (e_BaseAddress Entry)) 1)
    (e_Capabilities Entry) (e_Attributes Entry) (e_GcdMemoryType Entry)
    (e_ImageHandle Entry) (e_DeviceHandle Entry).

Record EFI_GCD_IO_SPACE_DESCRIPTOR := MkIoDescriptor {
  io_BaseAddress : Z;
  io_Length : Z;
  io_GcdIoType : Z;
  io_ImageHandle : Z;
  io_DeviceHandle : Z
}.

Definition BuildIoDescriptor (Entry : EFI_GCD_MAP_ENTRY) : EFI_GCD_IO_SPACE_DESCRIPTOR :=
  MkIoDescriptor (e_BaseAddress Entry)
    (add64 (sub64 (e_EndAddress Entry) (e_BaseAddress Entry)) 1)
    (e_GcdIoType Entry) (e_ImageHandle Entry) (e_DeviceHandle Entry).

(** [CoreGetMemorySpaceDescriptor] and [CoreGetIoSpaceDescriptor]; the
    descriptor is only written on success.  The calls with a NULL descriptor
    pointer return before the lock is taken. *)
Definition GetSpaceDescriptor {D : Type} (Io : bool) (Build : EFI_GCD_MAP_ENTRY -> D)
    (DescriptorIsNull : bool) (BaseAddress : Z) (st : GcdState)
  : Outcome (EFI_STATUS * option D * GcdState) :=
  if DescriptorIsNull then Done (EFI_INVALID_PARAMETER, None, st)
  else
    st ← CoreAcquireGcdLock Io st;
    '(Status, StartLink, EndLink) ← CoreSearchGcdMapEntry BaseAddress 1 (GetMap Io st);
    '(Status, Descriptor) ←
      (if EFI_ERROR Status then Done (EFI_NOT_FOUND, None)
       else match StartLink, EndLink with
            | Some StartLink, Some _ =>
              match GetMap Io st !! StartLink with
              | Some Entry => Done (Status, Some (Build Entry))
              | None => Asserted
              end
            | _, _ => Asserted
            end);
    st ← CoreReleaseGcdLock Io st;
    Done (Status, Descriptor, st).

Definition CoreGetMemorySpaceDescriptor := GetSpaceDescriptor false BuildMemoryDescriptor.
Definition CoreGetIoSpaceDescriptor := GetSpaceDescriptor true BuildIoDescriptor.

(** ** Initialization helpers *)

Definition EFI_RESOURCE_ATTRIBUTE_PRESENT : Z := 0x1.
Definition EFI_RESOURCE_ATTRIBUTE_INITIALIZED : Z := 0x2.
Definition EFI_RESOURCE_ATTRIBUTE_TESTED : Z := 0x4.
Definition EFI_RESOURCE_ATTRIBUTE_UNCACHEABLE : Z := 0x400.
Definition EFI_RESOURCE_ATTRIBUTE_WRITE_COMBINEABLE : Z := 0x800.
Definition EFI_RESOURCE_ATTRIBUTE_WRITE_THROUGH_CACHEABLE : Z := 0x1000.
Definition EFI_RESOURCE_ATTRIBUTE_WRITE_BACK_CACHEABLE : Z := 0x2000.
Definition EFI_RESOURCE_ATTRIBUTE_UNCACHED_EXPORTED : Z := 0x20000.
Definition EFI_RESOURCE_ATTRIBUTE_READ_ONLY_PROTECTABLE : Z := 0x80000.
Definition EFI_RESOURCE_ATTRIBUTE_READ_PROTECTABLE : Z := 0x100000.
Definition EFI_RESOURCE_ATTRIBUTE_WRITE_PROTECTABLE : Z := 0x200000.
Definition EFI_RESOURCE_ATTRIBUTE_EXECUTION_PROTECTABLE : Z := 0x400000.
Definition EFI_RESOURCE_ATTRIBUTE_PERSISTABLE : Z := 0x1000000.
Definition EFI_RESOURCE_ATTRIBUTE_MORE_RELIABLE : Z := 0x2000000.
Definition EFI_RESOURCE_ATTRIBUTE_SPECIAL_PURPOSE : Z := 0x8000000.
Definition EFI_RESOURCE_ATTRIBUTE_HOT_PLUGGABLE : Z := 0x10000000.
Definition EFI_MEMORY_PRESENT : Z := 0x0100000000000000.
Definition EFI_MEMORY_INITIALIZED : Z := 0x0200000000000000.
Definition EFI_MEMORY_TESTED : Z := 0x0400000000000000.
Definition EFI_MEMORY_NV : Z := 0x8000.
Definition EFI_MEMORY_MORE_RELIABLE : Z := 0x10000.
Definition EFI_MEMORY_SP : Z := 0x40000.
Definition EFI_MEMORY_HOT_PLUGGABLE : Z := 0x100000.

(** [mAttributeConversionTable] without its terminator: attribute,
    capability, memory. *)
Definition mAttributeConversionTable : list (Z * Z * bool) :=
  [ (EFI_RESOURCE_ATTRIBUTE_UNCACHEABLE, EFI_MEMORY_UC, true);
    (EFI_RESOURCE_ATTRIBUTE_UNCACHED_EXPORTED, EFI_MEMORY_UCE, true);
    (EFI_RESOURCE_ATTRIBUTE_WRITE_COMBINEABLE, EFI_MEMORY_WC, true);
    (EFI_RESOURCE_ATTRIBUTE_WRITE_THROUGH_CACHEABLE, EFI_MEMORY_WT, true);
    (EFI_RESOURCE_ATTRIBUTE_WRITE_BACK_CACHEABLE, EFI_MEMORY_WB, true);
    (EFI_RESOURCE_ATTRIBUTE_READ_PROTECTABLE, EFI_MEMORY_RP, true);
    (EFI_RESOURCE_ATTRIBUTE_WRITE_PROTECTABLE, EFI_MEMORY_WP, true);
    (EFI_RESOURCE_ATTRIBUTE_EXECUTION_PROTECTABLE, EFI_MEMORY_XP, true);
    (EFI_RESOURCE_ATTRIBUTE_READ_ONLY_PROTECTABLE, EFI_MEMORY_RO, true);
    (EFI_RESOURCE_ATTRIBUTE_PRESENT, EFI_MEMORY_PRESENT, false);
    (EFI_RESOURCE_ATTRIBUTE_INITIALIZED, EFI_MEMORY_INITIALIZED, false);
    (EFI_RESOURCE_ATTRIBUTE_TESTED, EFI_MEMORY_TESTED, false);
    (EFI_RESOURCE_ATTRIBUTE_PERSISTABLE, EFI_MEMORY_NV, true);
    (EFI_RESOURCE_ATTRIBUTE_MORE_RELIABLE, EFI_MEMORY_MORE_RELIABLE, true);
    (EFI_RESOURCE_ATTRIBUTE_SPECIAL_PURPOSE, EFI_MEMORY_SP, true);
    (EFI_RESOURCE_ATTRIBUTE_HOT_PLUGGABLE, EFI_MEMORY_HOT_PLUGGABLE, true) ].

(** [CoreConvertResourceDescriptorHobAttributesToCapabilities] *)
Definition CoreConvertResourceDescriptorHobAttributesToCapabilities
    (GcdMemoryType Attributes : Z) : Z :=
  foldl (fun Capabilities '(Attribute, Capability, Memory) =>
    if Memory || (negb (GcdMemoryType =? EfiGcdMemoryTypeSystemMemory) &&
                  negb (GcdMemoryType =? EfiGcdMemoryTypeMoreReliable))
    then if HasFlag Attributes Attribute then Z.lor Capabilities Capability else Capabilities
    else Capabilities) 0 mAttributeConversionTable.

(** [FindLargestFreeRegion]: the memory allocation HOBs, in list order, as
    pairs of base address and length. *)
Fixpoint FindLargestFreeRegion (BaseAddress Length : Z) (MemoryHobs : list (Z * Z)) : Z * Z :=
  match MemoryHobs with
  | [] => (BaseAddress, Length)
  | (MemoryBaseAddress, MemoryLength) :: Next =>
    let TopAddress := add64 BaseAddress Length in
    let AllocatedTop := add64 MemoryBaseAddress MemoryLength in
    if (BaseAddress <=? MemoryBaseAddress) && (AllocatedTop <=? TopAddress) then
      let LowerBase := BaseAddress in
      let LowerSize := sub64 MemoryBaseAddress BaseAddress in
      let UpperBase := AllocatedTop in
      let UpperSize := sub64 TopAddress AllocatedTop in
      let '(LowerBase, LowerSize) :=
        if negb (LowerSize =? 0) then FindLargestFreeRegion LowerBase LowerSize Next
        else (LowerBase, LowerSize) in
      let '(UpperBase, UpperSize) :=
        if negb (UpperSize =? 0) then FindLargestFreeRegion UpperBase UpperSize Next
        else (UpperBase, UpperSize) in
      if LowerSize <=? UpperSize then (UpperBase, UpperSize) else (LowerBase, LowerSize)
    else FindLargestFreeRegion BaseAddress Length Next
  end.

(** The first part of [CoreInitializeGcdServices]: both maps hold one entry,
    the non-existent space of the CPU's address width. *)
Definition InitialEntry (SizeOfSpace : Z) : EFI_GCD_MAP_ENTRY :=
  MkEntry 0 (sub64 (LShiftU64 1 SizeOfSpace) 1) 0 0
    EfiGcdMemoryTypeNonExistent EfiGcdIoTypeNonExistent 0 0.

Definition InitialGcd (SizeOfMemorySpace SizeOfIoSpace : Z) : GcdState :=
  MkGcd [InitialEntry SizeOfMemorySpace] [InitialEntry SizeOfIoSpace] false false 2 [].
