(* ===== verification/GcdMap.v ===== *)
(** * The GCD map as a partition of the address space

    The abstract view of a GCD map: [Chain] says that the entries tile an
    address interval, [PropsAt] reads off the properties of one address, and
    [Canonical] says that no two neighbours could be merged.  A canonical
    chain is determined by its [PropsAt] ([chain_canonical_unique]), so the
    services can be specified by what they do to each address. *)
From Stdlib Require Import ZArith Lia.
From stdpp Require Import base option list.
From S2P Require Import Prelude Gcd.

(** Everything an entry says about its addresses: capabilities, attributes,
    memory type, I/O type, image handle, device handle. *)
Definition Props : Type := Z * Z * Z * Z * Z * Z.

Definition props (e : EFI_GCD_MAP_ENTRY) : Props :=
  (e_Capabilities e, e_Attributes e, e_GcdMemoryType e, e_GcdIoType e,
   e_ImageHandle e, e_DeviceHandle e).

(** The entries of [Map] tile the interval from [lo] up to but excluding [hi]. *)
Fixpoint Chain (lo : Z) (Map : list EFI_GCD_MAP_ENTRY) (hi : Z) : Prop :=
  match Map with
  | [] => lo = hi
  | e :: Map => e_BaseAddress e = lo /\ lo <= e_EndAddress e /\ Chain (e_EndAddress e + 1) Map hi
  end.

Definition covers (a : Z) (e : EFI_GCD_MAP_ENTRY) : bool :=
  (e_BaseAddress e <=? a) && (a <=? e_EndAddress e).

Fixpoint PropsAt (Map : list EFI_GCD_MAP_ENTRY) (a : Z) : option Props :=
  match Map with
  | [] => None
  | e :: Map => if covers a e then Some (props e) else PropsAt Map a
  end.

(** No entry has the same properties as the next one. *)
Fixpoint Canonical (Map : list EFI_GCD_MAP_ENTRY) : Prop :=
  match Map with
  | e1 :: ((e2 :: _) as Map) => props e1 <> props e2 /\ Canonical Map
  | _ => True
  end.

(** ** Chains *)

Lemma covers_spec a e : covers a e = true <-> e_BaseAddress e <= a <= e_EndAddress e.
Proof. unfold covers. rewrite andb_true_iff, !Z.leb_le. lia. Qed.

Lemma covers_false a e : covers a e = false <-> a < e_BaseAddress e \/ e_EndAddress e < a.
Proof. unfold covers. rewrite andb_false_iff, !Z.leb_gt. lia. Qed.

Lemma Chain_le lo Map hi : Chain lo Map hi -> lo <= hi.
Proof. revert lo. induction Map as [|e Map IH]; simpl; intros lo H; [lia|]. destruct H as (? & ? & ?%IH). lia. Qed.

Lemma Chain_app lo l1 l2 hi :
  Chain lo (l1 ++ l2) hi <-> exists mid, Chain lo l1 mid /\ Chain mid l2 hi.
Proof.
  revert lo. induction l1 as [|e l1 IH]; simpl; intros lo.
  - split; [eauto | intros (? & -> & ?); done].
  - setoid_rewrite IH. split.
    + intros (? & ? & mid & ? & ?). eauto 6.
    + intros (mid & (? & ? & ?) & ?). eauto 6.
Qed.

Lemma Chain_In lo Map hi e :
  Chain lo Map hi -> e ∈ Map ->
  lo <= e_BaseAddress e /\ e_BaseAddress e <= e_EndAddress e /\ e_EndAddress e < hi.
Proof.
  revert lo. induction Map as [|x Map IH]; simpl; intros lo H Hin; [by apply elem_of_nil in Hin|].
  destruct H as (Hb & Hle & Hc). pose proof (Chain_le _ _ _ Hc).
  apply elem_of_cons in Hin as [->|Hin]; [lia|].
  destruct (IH _ Hc Hin) as (? & ? & ?). lia.
Qed.

Lemma PropsAt_app l1 l2 a :
  PropsAt (l1 ++ l2) a = match PropsAt l1 a with Some p => Some p | None => PropsAt l2 a end.
Proof. induction l1 as [|e l1 IH]; simpl; [done|]. by destruct (covers a e). Qed.

Lemma PropsAt_out lo Map hi a : Chain lo Map hi -> a < lo \/ hi <= a -> PropsAt Map a = None.
Proof.
  revert lo. induction Map as [|e Map IH]; simpl; intros lo H Ha; [done|].
  destruct H as (Hb & Hle & Hc). pose proof (Chain_le _ _ _ Hc).
  rewrite (proj2 (covers_false a e)) by lia. apply (IH _ Hc). lia.
Qed.

Lemma PropsAt_in lo Map hi a : Chain lo Map hi -> lo <= a < hi -> is_Some (PropsAt Map a).
Proof.
  revert lo. induction Map as [|e Map IH]; simpl; intros lo H Ha; [lia|].
  destruct H as (Hb & Hle & Hc).
  destruct (covers a e) eqn:E; [eauto|]. apply covers_false in E. apply (IH _ Hc). lia.
Qed.

(** With the cut point known, a chain is read off the stretch the address is in. *)
Lemma PropsAt_chain_app lo l1 mid l2 hi a :
  Chain lo l1 mid -> Chain mid l2 hi ->
  PropsAt (l1 ++ l2) a = if a <? mid then PropsAt l1 a else PropsAt l2 a.
Proof.
  intros H1 H2. rewrite PropsAt_app. pose proof (Chain_le _ _ _ H1).
  destruct (a <? mid) eqn:E; bool_to_Z.
  - destruct (PropsAt l1 a) eqn:E1; [done|]. rewrite (PropsAt_out _ _ _ a H2) by lia. done.
  - rewrite (PropsAt_out _ _ _ a H1) by lia. done.
Qed.

(** ** Canonical lists *)

Lemma Canonical_cons e1 e2 l : Canonical (e1 :: e2 :: l) <-> props e1 <> props e2 /\ Canonical (e2 :: l).
Proof. done. Qed.

Lemma Canonical_tail e l : Canonical (e :: l) -> Canonical l.
Proof. destruct l; simpl; [done|]. by intros [_ ?]. Qed.

Lemma Canonical_app l1 l2 :
  Canonical (l1 ++ l2) <->
  Canonical l1 /\ Canonical l2 /\
  (forall x y, last l1 = Some x -> head l2 = Some y -> props x <> props y).
Proof.
  induction l1 as [|e l1 IH].
  - simpl. split; [intros; split_and!; [done|done|intros; simplify_eq] | tauto].
  - destruct l1 as [|e2 l1].
    + destruct l2 as [|y l2]; simpl.
      * split; [intros; split_and!; [done|done|intros; simplify_eq] | done].
      * split.
        -- intros [? ?]. split_and!; [done|done|intros; by simplify_eq].
        -- intros (_ & ? & H). split; [by apply H | done].
    + change ((e :: e2 :: l1) ++ l2) with (e :: e2 :: (l1 ++ l2)).
      rewrite !Canonical_cons. change (e2 :: l1 ++ l2) with ((e2 :: l1) ++ l2).
      rewrite IH, last_cons_cons. tauto.
Qed.

Lemma Canonical_rev_cons x l :
  Canonical (rev (x :: l)) <->
  Canonical (rev l) /\ (forall y, head l = Some y -> props y <> props x).
Proof.
  simpl. rewrite Canonical_app. split.
  - intros (? & _ & H). split; [done|]. intros y Hy. apply (H y x); [|done].
    destruct l as [|z l]; simplify_eq/=. by rewrite last_snoc.
  - intros (? & H). split_and!; [done|done|]. intros a b Ha Hb. simplify_eq/=.
    apply H. destruct l as [|z l]; simplify_eq/=. rewrite last_snoc in Ha. done.
Qed.

Lemma entry_eq e1 e2 :
  e_BaseAddress e1 = e_BaseAddress e2 -> e_EndAddress e1 = e_EndAddress e2 ->
  props e1 = props e2 -> e1 = e2.
Proof. destruct e1, e2; unfold props; simpl. intros. by simplify_eq. Qed.

(** In a canonical chain the entry after [e] starts exactly where the
    properties change. *)
Lemma chain_canonical_end_le lo e1 l1 e2 l2 hi :
  Chain lo (e1 :: l1) hi -> Chain lo (e2 :: l2) hi ->
  Canonical (e1 :: l1) ->
  (forall a, lo <= a -> PropsAt (e1 :: l1) a = PropsAt (e2 :: l2) a) ->
  e_EndAddress e2 <= e_EndAddress e1.
Proof.
  intros H1 H2 C1 HP. destruct (Z.le_gt_cases (e_EndAddress e2) (e_EndAddress e1)) as [|Hlt]; [done|].
  exfalso. destruct H1 as (B1 & L1 & T1). destruct H2 as (B2 & L2 & T2).
  pose proof (Chain_le _ _ _ T2).
  destruct l1 as [|e1' l1]; [simpl in T1; lia|].
  destruct T1 as (B1' & L1' & T1').
  assert (P0 := HP lo ltac:(lia)). assert (P1 := HP (e_EndAddress e1 + 1) ltac:(lia)).
  simpl in P0, P1.
  rewrite (proj2 (covers_spec lo e1)), (proj2 (covers_spec lo e2)) in P0 by lia.
  rewrite (proj2 (covers_false (e_EndAddress e1 + 1) e1)) in P1 by lia.
  rewrite (proj2 (covers_spec (e_EndAddress e1 + 1) e1')) in P1 by lia.
  rewrite (proj2 (covers_spec (e_EndAddress e1 + 1) e2)) in P1 by lia.
  destruct C1 as [C1 _]. congruence.
Qed.

(** Two canonical chains over the same interval that give every address the
    same properties are the same list of entries. *)
Lemma chain_canonical_unique lo hi l1 l2 :
  Chain lo l1 hi -> Chain lo l2 hi -> Canonical l1 -> Canonical l2 ->
  (forall a, lo <= a -> PropsAt l1 a = PropsAt l2 a) -> l1 = l2.
Proof.
  revert lo l2. induction l1 as [|e1 l1 IH]; intros lo l2 H1 H2 C1 C2 HP.
  - destruct l2 as [|e2 l2]; [done|]. simpl in H1. destruct H2 as (_ & ? & Hc).
    apply Chain_le in Hc. lia.
  - destruct l2 as [|e2 l2].
    { simpl in H2. destruct H1 as (_ & ? & Hc). apply Chain_le in Hc. lia. }
    assert (E : e_EndAddress e1 = e_EndAddress e2).
    { assert (e_EndAddress e2 <= e_EndAddress e1) by (eapply chain_canonical_end_le; eauto).
      assert (e_EndAddress e1 <= e_EndAddress e2)
        by (eapply chain_canonical_end_le; [exact H2|exact H1|done|]; intros; symmetry; eauto).
      lia. }
    destruct H1 as (B1 & L1 & T1), H2 as (B2 & L2 & T2).
    assert (e1 = e2) as ->.
    { apply entry_eq; [lia|lia|]. assert (P := HP lo ltac:(lia)). simpl in P.
      rewrite (proj2 (covers_spec lo e1)), (proj2 (covers_spec lo e2)) in P by lia. congruence. }
    f_equal. eapply (IH (e_EndAddress e2 + 1)); eauto using Canonical_tail.
    intros a Ha. assert (P := HP a ltac:(lia)). simpl in P.
    by rewrite (proj2 (covers_false a e2)) in P by lia.
Qed.

(** ** Entries and addresses *)

Lemma PropsAt_elem lo Map hi e a :
  Chain lo Map hi -> e ∈ Map -> covers a e = true -> PropsAt Map a = Some (props e).
Proof.
  revert lo. induction Map as [|x Map IH]; simpl; intros lo H Hin Hc; [by apply elem_of_nil in Hin|].
  destruct H as (Hb & Hle & Hch). apply elem_of_cons in Hin as [->|Hin]; [by rewrite Hc|].
  pose proof (Chain_In _ _ _ _ Hch Hin). apply covers_spec in Hc.
  rewrite (proj2 (covers_false a x)) by lia. apply (IH (e_EndAddress x + 1)); [done|done|].
  by apply covers_spec.
Qed.

Lemma PropsAt_Some Map a p :
  PropsAt Map a = Some p -> exists e, e ∈ Map /\ covers a e = true /\ props e = p.
Proof.
  induction Map as [|x Map IH]; simpl; intros H; [done|].
  destruct (covers a x) eqn:C.
  - exists x. split_and!; [apply elem_of_cons; by left|done|congruence].
  - destruct (IH H) as (e & ? & ? & ?). exists e. split_and!; [apply elem_of_cons; by right|done|done].
Qed.

(** ** Positions *)

Lemma Chain_lookup lo Map hi i e :
  Chain lo Map hi -> Map !! i = Some e ->
  lo <= e_BaseAddress e /\ e_BaseAddress e <= e_EndAddress e /\ e_EndAddress e < hi.
Proof. intros H Hi. eapply Chain_In; [done|]. by eapply list_elem_of_lookup_2. Qed.

Lemma Chain_lookup_lt lo Map hi i j e1 e2 :
  Chain lo Map hi -> Map !! i = Some e1 -> Map !! j = Some e2 -> (i < j)%nat ->
  e_EndAddress e1 < e_BaseAddress e2.
Proof.
  revert lo i j. induction Map as [|e Map IH]; intros lo i j H Hi Hj Hij; [done|].
  destruct H as (Hb & Hle & Hc). destruct j as [|j]; [lia|]. simpl in Hj. destruct i as [|i].
  - simpl in Hi. simplify_eq. pose proof (Chain_lookup _ _ _ _ _ Hc Hj). lia.
  - simpl in Hi. eapply IH; eauto. lia.
Qed.

Lemma Chain_lookup_next lo Map hi i e e' :
  Chain lo Map hi -> Map !! i = Some e -> Map !! S i = Some e' ->
  e_BaseAddress e' = e_EndAddress e + 1.
Proof.
  revert lo i. induction Map as [|x Map IH]; intros lo i H Hi Hj; [done|].
  destruct H as (Hb & Hle & Hc). destruct i as [|i]; [|by eapply IH].
  simpl in Hi, Hj. simplify_eq. destruct Map as [|y Map]; [done|]. simpl in Hj. simplify_eq.
  by destruct Hc.
Qed.

Lemma Chain_lookup_last lo Map hi i e :
  Chain lo Map hi -> Map !! i = Some e -> Map !! S i = None -> e_EndAddress e + 1 = hi.
Proof.
  revert lo i. induction Map as [|x Map IH]; intros lo i H Hi Hj; [done|].
  destruct H as (Hb & Hle & Hc). destruct i as [|i]; [|by eapply IH].
  simpl in Hi, Hj. simplify_eq. destruct Map as [|y Map]; [done|]. done.
Qed.
