(* ===== verification/GcdWalk.v ===== *)
(** * The GCD worker functions on a chain

    What searching, clipping, updating and merging do to the tiling and to the
    properties of each address. *)
From Stdlib Require Import ZArith Lia.
From stdpp Require Import base option list.
From S2P Require Import Prelude Gcd GcdMap.

#[export] Instance Props_eq_dec : EqDecision Props.
Proof. unfold Props. apply _. Defined.

(** ** Merging *)

Lemma merge_spec Entry Forward x Adj :
  CoreMergeGcdMapEntry Entry Forward (x :: Adj) =
  if decide (props Entry = props x)
  then (EFI_SUCCESS,
        if Forward then set_EndAddress Entry (e_EndAddress x)
        else set_BaseAddress Entry (e_BaseAddress x), Adj, 1)
  else (EFI_UNSUPPORTED, Entry, x :: Adj, 0).
Proof.
  unfold CoreMergeGcdMapEntry, props.
  repeat (match goal with |- context [negb (?a =? ?b)] =>
    destruct (Z.eqb_spec a b) as [->|?]; simpl end);
    case_decide as D; first [done | simplify_eq].
Qed.

(** Replacing two neighbours with equal properties by their union changes
    neither the tiling nor any address. *)
Lemma chain_merge_two lo pre x y m post hi :
  Chain lo (pre ++ x :: y :: post) hi ->
  e_BaseAddress m = e_BaseAddress x -> e_EndAddress m = e_EndAddress y ->
  props m = props x -> props x = props y ->
  Chain lo (pre ++ m :: post) hi /\
  forall a, PropsAt (pre ++ m :: post) a = PropsAt (pre ++ x :: y :: post) a.
Proof.
  intros H Hb He Hm Hxy. apply Chain_app in H as (mid & Hpre & Bx & Lx & By & Ly & Hpost).
  split.
  - apply Chain_app. exists mid. split; [done|]. simpl. rewrite He. split_and!; [lia|lia|done].
  - intros a. rewrite !PropsAt_app. destruct (PropsAt pre a); [done|]. simpl.
    destruct (covers a x) eqn:Cx.
    { apply covers_spec in Cx. rewrite (proj2 (covers_spec a m)) by lia. congruence. }
    apply covers_false in Cx. destruct (covers a y) eqn:Cy.
    { apply covers_spec in Cy. rewrite (proj2 (covers_spec a m)) by lia. congruence. }
    apply covers_false in Cy. by rewrite (proj2 (covers_false a m)) by lia.
Qed.

(** What the backward merges of [CoreCleanupGcdMapEntry] establish. *)
Record CleanupOk (lo hi : Z) (Stack Run : list EFI_GCD_MAP_ENTRY) (Freed : Z)
    (Stack' : list EFI_GCD_MAP_ENTRY) (Freed' : Z) : Prop := {
  co_chain : Chain lo (rev Stack') hi;
  co_props : forall a, PropsAt (rev Stack') a = PropsAt (rev Stack ++ Run) a;
  co_count : Freed' + Z.of_nat (length Stack') = Freed + Z.of_nat (length Stack + length Run);
  co_canonical : Canonical (rev Stack) -> Canonical (rev Stack')
}.

Lemma CleanupRun_ok lo hi Run : forall Stack Freed Stack' Freed',
  CleanupRun Stack Run Freed = (Stack', Freed') ->
  Chain lo (rev Stack ++ Run) hi ->
  CleanupOk lo hi Stack Run Freed Stack' Freed'.
Proof.
  induction Run as [|e Run IH]; intros Stack Freed Stack' Freed' HC Hch.
  { simpl in HC. simplify_eq. rewrite app_nil_r in Hch.
    split; [done| by rewrite app_nil_r | simpl; lia | done]. }
  destruct Stack as [|x Stack].
  - simpl in HC. apply IH in HC; [|done]. destruct HC as [c1 c2 c3 c4].
    split; [done|done|simpl in c3 |- *; lia|intros _; by apply c4].
  - cbn [CleanupRun] in HC. rewrite merge_spec in HC. simpl rev in Hch.
    rewrite <- app_assoc in Hch. simpl in Hch. case_decide as D.
    + destruct (chain_merge_two lo (rev Stack) x e (set_BaseAddress e (e_BaseAddress x)) Run hi)
        as [Hch2 HP]; [done..|].
      apply IH in HC; [|simpl; rewrite <- app_assoc; done].
      destruct HC as [c1 c2 c3 c4]. split; [done| |simpl in c3 |- *; lia|].
      * intros a. rewrite c2. simpl. rewrite <- !app_assoc. simpl. apply HP.
      * intros C. apply c4. apply Canonical_rev_cons in C as [C1 C2]. apply Canonical_rev_cons.
        split; [done|]. intros y Hy. change (props (set_BaseAddress e _)) with (props e).
        rewrite D. by apply C2.
    + apply IH in HC; [|simpl; rewrite <- !app_assoc; done].
      destruct HC as [c1 c2 c3 c4]. split; [done| |simpl in c3 |- *; lia|].
      * intros a. rewrite c2. simpl. by rewrite <- !app_assoc.
      * intros C. apply c4. apply Canonical_rev_cons. split; [done|].
        intros y Hy. simplify_eq/=. congruence.
Qed.

Lemma merge_props Entry Forward Adj Status Entry' Adj' n :
  CoreMergeGcdMapEntry Entry Forward Adj = (Status, Entry', Adj', n) -> props Entry' = props Entry.
Proof.
  destruct Adj as [|x Adj]; [simpl; intros; by simplify_eq|]. rewrite merge_spec.
  case_decide; intros; simplify_eq; by destruct Forward.
Qed.

Lemma CleanupRun_last Run : forall Stack Freed Stack' Freed' e,
  CleanupRun Stack Run Freed = (Stack', Freed') -> last Run = Some e ->
  exists e' Stack'', Stack' = e' :: Stack'' /\ props e' = props e.
Proof.
  induction Run as [|e0 Run IH]; intros Stack Freed Stack' Freed' e HC HL; [done|].
  cbn [CleanupRun] in HC.
  destruct (CoreMergeGcdMapEntry e0 false Stack) as [[[st E] Stk] n] eqn:HM.
  destruct Run as [|r0 Run]; [|by eapply IH].
  simpl in HC, HL. simplify_eq. eexists _, _. split; [done|]. by eapply merge_props.
Qed.

(** What [CoreCleanupGcdMapEntry] establishes from a cut whose walk is over. *)
Lemma cleanup_ok lo hi w c Status Map Freed :
  CoreCleanupGcdMapEntry w c = (Status, Map, Freed) ->
  Walked c <> [] ->
  Chain lo (rev (Below c) ++ rev (Walked c) ++ Above c) hi ->
  Status = EFI_SUCCESS /\
  Chain lo Map hi /\
  (forall a, PropsAt Map a = PropsAt (rev (Below c) ++ rev (Walked c) ++ Above c) a) /\
  Freed + Z.of_nat (length Map) =
    (if TopUsed w then 0 else 1) + (if BottomUsed w then 0 else 1) +
    Z.of_nat (length (Below c) + length (Walked c) + length (Above c)) /\
  (Canonical (rev (Below c)) -> Canonical (Above c) -> Canonical Map).
Proof.
  intros H Hw Hch. unfold CoreCleanupGcdMapEntry in H.
  destruct (CleanupRun _ _ _) as [Stack F] eqn:HC.
  rewrite app_assoc in Hch. apply Chain_app in Hch as (mid & Hch1 & Hch2).
  destruct (last (rev (Walked c))) as [e|] eqn:HL;
    [|apply last_None, (f_equal (@length _)) in HL; rewrite length_rev in HL; by destruct (Walked c)].
  destruct (CleanupRun_last _ _ _ _ _ _ HC HL) as (e' & Stack' & -> & He').
  destruct (CleanupRun_ok lo mid _ _ _ _ _ HC Hch1) as [c1 c2 c3 c4].
  rewrite length_rev in c3. simpl in c1, c2, c3.
  assert (Hall : Chain lo (rev Stack' ++ e' :: Above c) hi).
  { change (e' :: Above c) with ([e'] ++ Above c). rewrite app_assoc. apply Chain_app. eauto. }
  assert (Hprops : forall a, PropsAt (rev Stack' ++ e' :: Above c) a =
                             PropsAt (rev (Below c) ++ rev (Walked c) ++ Above c) a).
  { intros a. change (e' :: Above c) with ([e'] ++ Above c). rewrite !app_assoc.
    rewrite (PropsAt_app _ (Above c)), c2, <- PropsAt_app. done. }
  assert (Hcan : Canonical (rev (Below c)) -> Canonical (rev Stack') /\
            forall y, head Stack' = Some y -> props y <> props e').
  { intros Hb. specialize (c4 Hb). change (rev Stack' ++ [e']) with (rev (e' :: Stack')) in c4.
    by apply Canonical_rev_cons in c4. }
  assert (Hlast : forall x, last (rev Stack') = Some x -> head Stack' = Some x).
  { intros x Hx. destruct Stack'; simpl in Hx; [done|]. by rewrite last_snoc in Hx. }
  remember (Above c) as Ab eqn:EA. clear EA. destruct Ab as [|y A].
  - simpl in H. simplify_eq. split_and!; try done.
    + rewrite length_app, length_rev. simpl. lia.
    + intros Hb _. destruct (Hcan Hb) as [? Hd]. apply Canonical_app. split_and!; [done|done|].
      intros x z Hx Hz. simplify_eq/=. by apply Hd, Hlast.
  - rewrite merge_spec in H. case_decide as D; injection H as <- <- <-.
    + destruct (chain_merge_two lo (rev Stack') e' y (set_EndAddress e' (e_EndAddress y)) A hi)
        as [M1 M2]; [done..|].
      split_and!; [done|done| |rewrite length_app, length_rev; simpl; lia|].
      * intros a. rewrite M2. apply Hprops.
      * intros Hb Ha. destruct (Hcan Hb) as [? Hd]. apply Canonical_app. split_and!; [done| |].
        -- destruct A as [|z A]; [done|]. destruct Ha as [Ha ?]. split; [|done].
           change (props e' <> props z). congruence.
        -- intros x z Hx Hz. simplify_eq/=. change (props x <> props e'). by apply Hd, Hlast.
    + split_and!; [done|done|done|rewrite length_app, length_rev; simpl; lia|].
      intros Hb Ha. destruct (Hcan Hb) as [? Hd]. apply Canonical_app. split_and!; [done|done|].
      intros x z Hx Hz. simplify_eq/=. by apply Hd, Hlast.
Qed.

(** ** Searching *)

(** The stretch of a chain that meets a range: [Run] starts with the entry
    that holds the first address and ends with the one that holds the last. *)
Record Found (lo hi Base Last : Z) (Map pre Run post : list EFI_GCD_MAP_ENTRY) (x z : Z) : Prop := {
  fd_map : Map = pre ++ Run ++ post;
  fd_pre : Chain lo pre x;
  fd_run : Chain x Run z;
  fd_post : Chain z post hi;
  fd_nonempty : Run <> [];
  fd_start : x <= Base;
  fd_first : forall e, head Run = Some e -> Base <= e_EndAddress e;
  fd_last : forall e, last Run = Some e -> e_BaseAddress e <= Last;
  fd_end : Last < z
}.

Section Search.
Context (Base Len Last : Z) (HB : 0 <= Base) (HL : 0 < Len) (HW : Base + Len <= 2 ^ 64).
Context (HLast : Last = Base + Len - 1).

Lemma search_second hi Rest : forall x Link s,
  Chain x Rest hi -> Base < x -> x <= Last -> Last < hi ->
  exists Run post z,
    SearchLoop Base Len Rest Link (Some s) = (EFI_SUCCESS, Some s, Some (Link + length Run - 1)%nat) /\
    Found x hi x Last Rest [] Run post x z.
Proof.
  induction Rest as [|e Rest IH]; intros x Link s Hch Hx HxL HLh; [simpl in Hch; lia|].
  destruct Hch as (Be & Le & Hch). cbn [SearchLoop]. rewrite add64_last by lia.
  replace ((e_BaseAddress e <=? Base) && (Base <=? e_EndAddress e)) with false
    by (symmetry; apply andb_false_iff; left; apply Z.leb_gt; lia).
  destruct (Z.le_gt_cases Last (e_EndAddress e)).
  - replace ((e_BaseAddress e <=? Base + Len - 1) && (Base + Len - 1 <=? e_EndAddress e)) with true
      by (symmetry; apply andb_true_iff; rewrite !Z.leb_le; lia).
    exists [e], Rest, (e_EndAddress e + 1). split; [simpl; pair_lia|].
    split; simpl; try done; try lia; intros; simplify_eq; lia.
  - replace ((e_BaseAddress e <=? Base + Len - 1) && (Base + Len - 1 <=? e_EndAddress e)) with false
      by (symmetry; apply andb_false_iff; right; apply Z.leb_gt; lia).
    destruct (IH (e_EndAddress e + 1) (S Link) s) as (Run & post & z & HS & F); [done|lia..|].
    exists (e :: Run), post, z. split; [rewrite HS; simpl; pair_lia|].
    destruct F as [F1 F2 F3 F4 F5 F6 F7 F8 F9]. split; simpl in *; try done; try lia.
    + by rewrite F1.
    + intros; simplify_eq; lia.
    + destruct Run; [done|]. done.
Qed.

Lemma search_first hi Map : forall x Link,
  Chain x Map hi -> x <= Base -> Last < hi ->
  exists pre Run post y z,
    SearchLoop Base Len Map Link None =
      (EFI_SUCCESS, Some (Link + length pre)%nat, Some (Link + length pre + length Run - 1)%nat) /\
    Found x hi Base Last Map pre Run post y z.
Proof.
  induction Map as [|e Map IH]; intros x Link Hch Hx HLh; [simpl in Hch; lia|].
  destruct Hch as (Be & Le & Hch). cbn [SearchLoop]. rewrite add64_last by lia.
  destruct (Z.le_gt_cases Base (e_EndAddress e)).
  - replace ((e_BaseAddress e <=? Base) && (Base <=? e_EndAddress e)) with true
      by (symmetry; apply andb_true_iff; rewrite !Z.leb_le; lia).
    destruct (Z.le_gt_cases Last (e_EndAddress e)).
    + replace ((e_BaseAddress e <=? Base + Len - 1) && (Base + Len - 1 <=? e_EndAddress e)) with true
        by (symmetry; apply andb_true_iff; rewrite !Z.leb_le; lia).
      exists [], [e], Map, x, (e_EndAddress e + 1). split; [simpl; pair_lia|].
      split; simpl; try done; try lia; intros; simplify_eq; lia.
    + replace ((e_BaseAddress e <=? Base + Len - 1) && (Base + Len - 1 <=? e_EndAddress e)) with false
        by (symmetry; apply andb_false_iff; right; apply Z.leb_gt; lia).
      destruct (search_second hi Map (e_EndAddress e + 1) (S Link) Link)
        as (Run & post & z & HS & F); [done|lia..|].
      exists [], (e :: Run), post, x, z. split; [rewrite HS; simpl; pair_lia|].
      destruct F as [F1 F2 F3 F4 F5 F6 F7 F8 F9]. split; simpl in *; try done; try lia.
      * by rewrite F1.
      * intros; simplify_eq; lia.
      * destruct Run; [done|]. done.
  - replace ((e_BaseAddress e <=? Base) && (Base <=? e_EndAddress e)) with false
      by (symmetry; apply andb_false_iff; right; apply Z.leb_gt; lia).
    destruct (IH (e_EndAddress e + 1) (S Link)) as (pre & Run & post & y & z & HS & F); [done|lia..|].
    exists (e :: pre), Run, post, y, z. split; [rewrite HS; simpl; pair_lia|].
    destruct F as [F1 F2 F3 F4 F5 F6 F7 F8 F9]. split; simpl in *; try done. by rewrite F1.
Qed.

Lemma search_out Map hi : forall x Link StartLink,
  Chain x Map hi -> (Base < x /\ StartLink = None) \/ hi <= Last ->
  exists s, SearchLoop Base Len Map Link StartLink = (EFI_NOT_FOUND, s, None).
Proof.
  induction Map as [|e Map IH]; intros x Link s Hch Hor; [simpl; eauto|].
  destruct Hch as (Be & Le & Hch). pose proof (Chain_le _ _ _ Hch).
  cbn [SearchLoop]. rewrite add64_last by lia. destruct Hor as [[Hx ->]|Hx].
  - replace ((e_BaseAddress e <=? Base) && (Base <=? e_EndAddress e)) with false
      by (symmetry; apply andb_false_iff; left; apply Z.leb_gt; lia).
    apply (IH (e_EndAddress e + 1)); [done|]. left. split; [lia|done].
  - replace ((e_BaseAddress e <=? Base + Len - 1) && (Base + Len - 1 <=? e_EndAddress e)) with false
      by (symmetry; apply andb_false_iff; right; apply Z.leb_gt; lia).
    destruct ((e_BaseAddress e <=? Base) && (Base <=? e_EndAddress e)).
    + apply (IH (e_EndAddress e + 1)); [done|]. by right.
    + destruct s; apply (IH (e_EndAddress e + 1)); first [done | by right].
Qed.

End Search.

Lemma CutAt_found pre Run post :
  Run <> [] ->
  CutAt (pre ++ Run ++ post) (length pre) (length pre + length Run - 1) = MkCut (rev pre) [] Run post.
Proof.
  intros HR. unfold CutAt. destruct Run as [|e Run]; [done|]. f_equal.
  - by rewrite take_app_length.
  - rewrite drop_app_length. simpl length.
    replace (S (length pre + S (length Run) - 1) - length pre)%nat with (length (e :: Run)) by (simpl; lia).
    by rewrite take_app_length.
  - rewrite app_assoc.
    replace (S (length pre + length (e :: Run) - 1))%nat with (length (pre ++ e :: Run))
      by (rewrite length_app; simpl; lia).
    by rewrite drop_app_length.
Qed.

(** ** Clipping and updating *)

Definition clip (Base Last : Z) (e : EFI_GCD_MAP_ENTRY) : EFI_GCD_MAP_ENTRY :=
  set_EndAddress (set_BaseAddress e (Z.max Base (e_BaseAddress e))) (Z.min Last (e_EndAddress e)).

(** The entries of a run after the loop: clipped, then updated in order. *)
Fixpoint UpdateRun {Acc : Type} (Base Last : Z)
    (Update : Acc -> EFI_GCD_MAP_ENTRY -> EFI_GCD_MAP_ENTRY * Acc) (a : Acc)
    (Run : list EFI_GCD_MAP_ENTRY) : list EFI_GCD_MAP_ENTRY * Acc :=
  match Run with
  | [] => ([], a)
  | e :: Run =>
    let '(e', a') := Update a (clip Base Last e) in
    let '(Run', a'') := UpdateRun Base Last Update a' Run in
    (e' :: Run', a'')
  end.

(** The pieces of the first and last entries that lie outside the range. *)
Definition BottomPiece (Base : Z) (e : EFI_GCD_MAP_ENTRY) : list EFI_GCD_MAP_ENTRY :=
  if e_BaseAddress e <? Base then [set_EndAddress e (Base - 1)] else [].
Definition TopPiece (Last : Z) (e : EFI_GCD_MAP_ENTRY) : list EFI_GCD_MAP_ENTRY :=
  if Last <? e_EndAddress e then [set_BaseAddress e (Last + 1)] else [].

Section Insert.
Context (Base Len Last : Z) (HL : 0 < Len) (HW : Base + Len <= 2 ^ 64).
Context (HLast : Last = Base + Len - 1).

Lemma insert_entry e w :
  0 <= e_BaseAddress e -> e_EndAddress e < 2 ^ 64 -> 0 <= Base ->
  (e_BaseAddress e < Base -> BottomUsed w = false) ->
  (Last < e_EndAddress e -> TopUsed w = false) ->
  CoreInsertGcdMapEntry e Base Len w =
  Done (BottomPiece Base e, clip Base Last e, TopPiece Last e,
        MkWork (TopUsed w || (Last <? e_EndAddress e)) (BottomUsed w || (e_BaseAddress e <? Base))).
Proof.
  intros He0 He1 HB Hbot Htop. unfold CoreInsertGcdMapEntry, BottomPiece, TopPiece, clip.
  rewrite add64_last by lia. rewrite <- HLast.
  rewrite (proj2 (Z.eqb_neq Len 0)) by lia. simpl.
  destruct (e_BaseAddress e <? Base) eqn:Eb; bool_to_Z.
  - rewrite Hbot by lia. simpl. rewrite sub64_small by lia.
    destruct (Last <? e_EndAddress e) eqn:Et; bool_to_Z; simpl.
    + rewrite Htop by lia. simpl. rewrite add64_small by lia.
      rewrite (Z.max_l Base), (Z.min_l Last) by lia.
      replace (Base + Len) with (Last + 1) by lia. done.
    + rewrite (Z.max_l Base), (Z.min_r Last) by lia. destruct w as [[] ?]; done.
  - simpl. destruct (Last <? e_EndAddress e) eqn:Et; bool_to_Z; simpl.
    + rewrite Htop by lia. simpl. rewrite add64_small by lia.
      rewrite (Z.max_r Base), (Z.min_l Last) by lia.
      replace (Base + Len) with (Last + 1) by lia. destruct e, w as [? []]; done.
    + rewrite (Z.max_r Base), (Z.min_r Last) by lia. destruct e, w as [[] []]; done.
Qed.

Context {Acc : Type} (Update : Acc -> EFI_GCD_MAP_ENTRY -> EFI_GCD_MAP_ENTRY * Acc).

(** The loop neither asserts nor runs out of fuel, and its effect is
    [UpdateRun] with at most one piece split off at either end. *)
Lemma InsertRun_ok Run : forall fuel w a Bel W Abv x z e0 en,
  0 <= x -> z <= 2 ^ 64 -> 0 <= Base ->
  Chain x Run z -> head Run = Some e0 -> last Run = Some en ->
  (length Run <= fuel)%nat ->
  (x < Base -> W = [] /\ BottomUsed w = false) ->
  Base <= e_EndAddress e0 -> e_BaseAddress en <= Last -> Last < z -> TopUsed w = false ->
  InsertRun fuel Base Len Update w a (MkCut Bel W Run Abv) =
  let '(Run', a') := UpdateRun Base Last Update a Run in
  Done (MkWork (Last <? e_EndAddress en) (BottomUsed w || (e_BaseAddress e0 <? Base)), a',
        MkCut (BottomPiece Base e0 ++ Bel) (rev Run' ++ W) [] (TopPiece Last en ++ Abv)).
Proof.
  induction Run as [|e Run IH]; intros fuel w a Bel W Abv x z e0 en Hx Hz HB Hch Hh Hl Hf Hbot H0 Hn Hend Htop;
    [done|].
  destruct fuel as [|fuel]; [simpl in Hf; lia|]. simpl in Hh. injection Hh as <-.
  destruct Hch as (Be & Le & Hch). pose proof (Chain_le _ _ _ Hch) as Hez.
  cbn [InsertRun Gcd.Run Gcd.Below Gcd.Walked Gcd.Above].
  rewrite insert_entry; [|lia|lia|lia|intros; apply Hbot; lia|done].
  cbn [mbind Outcome_bind UpdateRun]. destruct (Update a (clip Base Last e)) as [e' a'] eqn:HU.
  rewrite Htop. cbn [orb].
  assert (HW' : (match W with
                 | [] => (BottomPiece Base e ++ Bel, [])
                 | _ :: _ => (Bel, BottomPiece Base e ++ W)
                 end) = (BottomPiece Base e ++ Bel, W)).
  { destruct W as [|w0 W]; [done|]. unfold BottomPiece.
    destruct (e_BaseAddress e <? Base) eqn:E; [bool_to_Z; destruct Hbot as [? _]; [lia|done]|done]. }
  rewrite HW'. clear HW'.
  destruct Run as [|e2 Run].
  - simpl in Hch, Hl. simplify_eq. cbn [UpdateRun]. destruct fuel; done.
  - cbn [last] in Hl.
    assert (Hlast2 : e_EndAddress e < Last).
    { destruct Hch as (B2 & L2 & Hch2). destruct Run as [|e3 Run]; [simpl in Hl; simplify_eq; lia|].
      assert (In : en ∈ e3 :: Run) by (by apply last_Some_elem_of).
      destruct (Chain_In _ _ _ _ Hch2 In). lia. }
    assert (TopPiece Last e = []) as -> by (unfold TopPiece; by rewrite (proj2 (Z.ltb_ge _ _)) by lia).
    rewrite (proj2 (Z.ltb_ge Last (e_EndAddress e))) by lia. cbn [app].
    destruct Hch as (B2 & L2 & Hch2) eqn:Ech. clear Ech.
    erewrite (IH fuel _ _ _ _ _ (e_EndAddress e + 1) z e2 en);
      [|lia|lia|lia|done|done|done|simpl in *; lia|lia|lia|lia|lia|done].
    assert (BottomPiece Base e2 = []) as -> by (unfold BottomPiece; by rewrite (proj2 (Z.ltb_ge _ _)) by lia).
    destruct (UpdateRun Base Last Update a' (e2 :: Run)) as [R' a''].
    simpl. rewrite (proj2 (Z.ltb_ge (e_BaseAddress e2) Base)) by lia.
    rewrite orb_false_r, <- app_assoc. done.
Qed.

End Insert.

(** ** A whole walk *)

(** An update of the walk changes the properties of an entry, never its
    bounds. *)
Definition KeepsBounds {Acc} (Update : Acc -> EFI_GCD_MAP_ENTRY -> EFI_GCD_MAP_ENTRY * Acc) : Prop :=
  forall a e, e_BaseAddress (fst (Update a e)) = e_BaseAddress e /\
              e_EndAddress (fst (Update a e)) = e_EndAddress e.

(** The update acts on the properties as the function [f] as long as the
    accumulator satisfies [I], which the update keeps. *)
Definition ActsAs {Acc} (Update : Acc -> EFI_GCD_MAP_ENTRY -> EFI_GCD_MAP_ENTRY * Acc)
    (I : Acc -> Prop) (f : Props -> Props) : Prop :=
  forall a e, I a -> I (snd (Update a e)) /\ props (fst (Update a e)) = f (props e).

Section Walk.
Context (Base Len Last : Z) (HB : 0 <= Base) (HL : 0 < Len) (HW : Base + Len <= 2 ^ 64).
Context (HLast : Last = Base + Len - 1).
Context {Acc : Type} (Update : Acc -> EFI_GCD_MAP_ENTRY -> EFI_GCD_MAP_ENTRY * Acc).
Context (HK : KeepsBounds Update).

Lemma UpdateRun_chain Run : forall a x z e0 en,
  Chain x Run z -> head Run = Some e0 -> last Run = Some en ->
  Base <= e_EndAddress e0 -> e_BaseAddress en <= Last -> Last < z ->
  Chain (Z.max Base x) (fst (UpdateRun Base Last Update a Run)) (Last + 1).
Proof.
  induction Run as [|e Run IH]; intros a x z e0 en Hch Hh Hl H0 Hn Hz; [done|].
  simpl in Hh. injection Hh as <-. destruct Hch as (Be & Le & Hch). cbn [UpdateRun].
  pose proof (HK a (clip Base Last e)) as [K1 K2].
  destruct (Update a (clip Base Last e)) as [e' a']. simpl in K1, K2.
  destruct Run as [|e2 Run].
  - simpl in Hch, Hl. simplify_eq. simpl. lia.
  - cbn [last] in Hl.
    assert (He2 : e_BaseAddress e2 <= Last).
    { destruct Hch as (B2 & L2 & Hch2). destruct Run as [|e3 Run]; [simpl in Hl; simplify_eq; lia|].
      assert (In : en ∈ e3 :: Run) by (by apply last_Some_elem_of).
      destruct (Chain_In _ _ _ _ Hch2 In). lia. }
    destruct Hch as (B2 & L2 & Hch2).
    specialize (IH a' (e_EndAddress e + 1) z e2 en). 
    destruct (UpdateRun Base Last Update a' (e2 :: Run)) as [R' a''] eqn:HU.
    simpl. split_and!; [lia|lia|]. rewrite K2, Z.min_r by lia.
    rewrite (Z.max_r Base) in IH by lia. apply IH; try done; lia.
Qed.

Lemma UpdateRun_length Run : forall a, length (fst (UpdateRun Base Last Update a Run)) = length Run.
Proof.
  induction Run as [|e Run IH]; intros a; [done|]. cbn [UpdateRun].
  destruct (Update a (clip Base Last e)) as [e' a']. specialize (IH a').
  destruct (UpdateRun Base Last Update a' Run). simpl in *. by rewrite IH.
Qed.

Lemma UpdateRun_props I f Run : ActsAs Update I f -> forall acc a,
  I acc -> Base <= a <= Last ->
  PropsAt (fst (UpdateRun Base Last Update acc Run)) a = f <$> PropsAt Run a.
Proof.
  intros HA. induction Run as [|e Run IH]; intros acc a Hacc Ha; [done|]. cbn [UpdateRun].
  pose proof (HK acc (clip Base Last e)) as [K1 K2].
  pose proof (HA acc (clip Base Last e) Hacc) as [K0 K3].
  destruct (Update acc (clip Base Last e)) as [e' acc']. simpl in K0, K1, K2, K3.
  specialize (IH acc' a K0 Ha). destruct (UpdateRun Base Last Update acc' Run). simpl in *.
  assert (covers a e' = covers a e) as ->.
  { apply eq_bool_prop_intro. rewrite !Is_true_true, !covers_spec. lia. }
  destruct (covers a e); [simpl; by rewrite K3 | done].
Qed.

Lemma bottom_chain e x : e_BaseAddress e = x -> x <= Base -> Base <= e_EndAddress e ->
  Chain x (BottomPiece Base e) Base.
Proof. intros. unfold BottomPiece. destruct (_ <? _) eqn:E; bool_to_Z; simpl; lia. Qed.

Lemma top_chain e z : e_EndAddress e + 1 = z -> e_BaseAddress e <= Last -> Last < z ->
  Chain (Last + 1) (TopPiece Last e) z.
Proof. intros. unfold TopPiece. destruct (_ <? _) eqn:E; bool_to_Z; simpl; lia. Qed.

Lemma bottom_props e a : a < Base -> Base <= e_EndAddress e ->
  PropsAt (BottomPiece Base e) a = PropsAt [e] a.
Proof.
  intros Ha He. unfold BottomPiece. simpl. destruct (_ <? _) eqn:E; bool_to_Z; simpl.
  - assert (covers a (set_EndAddress e (Base - 1)) = covers a e) as ->; [|done].
    apply eq_bool_prop_intro. rewrite !Is_true_true, !covers_spec. simpl. lia.
  - by rewrite (proj2 (covers_false a e)) by lia.
Qed.

Lemma top_props e a : Last < a -> e_BaseAddress e <= Last ->
  PropsAt (TopPiece Last e) a = PropsAt [e] a.
Proof.
  intros Ha He. unfold TopPiece. simpl. destruct (_ <? _) eqn:E; bool_to_Z; simpl.
  - assert (covers a (set_BaseAddress e (Last + 1)) = covers a e) as ->; [|done].
    apply eq_bool_prop_intro. rewrite !Is_true_true, !covers_spec. simpl. lia.
  - by rewrite (proj2 (covers_false a e)) by lia.
Qed.


(** Below the range the clipped stretch reads like the original one. *)
Lemma below_props lo hi Map pre Run post x z e0 a :
  Found lo hi Base Last Map pre Run post x z -> head Run = Some e0 -> a < Base ->
  PropsAt (pre ++ BottomPiece Base e0) a = PropsAt Map a.
Proof.
  intros [-> F2 F3 F4 F5 F6 F7 F8 F9] Hh Ha. specialize (F7 _ Hh).
  rewrite !(PropsAt_app pre). destruct (PropsAt pre a); [done|].
  rewrite bottom_props by lia. destruct Run as [|e Run]; [done|]. simpl in Hh. simplify_eq. simpl.
  destruct (covers a e0) eqn:C; [done|]. destruct F3 as (_ & _ & F3).
  rewrite (PropsAt_out (e_EndAddress e0 + 1) (Run ++ post) hi a); [done| |lia].
  apply Chain_app. eauto.
Qed.

(** So does the stretch above it. *)
Lemma above_props lo hi Map pre Run post x z en a :
  Found lo hi Base Last Map pre Run post x z -> last Run = Some en -> Last < a ->
  PropsAt (TopPiece Last en ++ post) a = PropsAt Map a.
Proof.
  intros [-> F2 F3 F4 F5 F6 F7 F8 F9] Hl Ha. specialize (F8 _ Hl).
  apply last_Some in Hl as [Run0 ->]. apply Chain_app in F3 as (y & F3 & By & Ly & Fz).
  rewrite (PropsAt_app (TopPiece _ _)), top_props by lia.
  rewrite <- app_assoc, app_assoc, (PropsAt_app (pre ++ Run0)).
  rewrite (PropsAt_out lo (pre ++ Run0) y a); [|apply Chain_app; eauto|lia].
  simpl in Fz |- *. by destruct (covers a en).
Qed.

(** Three consecutive stretches, read off the one the address is in. *)
Lemma three_props lo hi B R A a :
  Chain lo B Base -> Chain Base R (Last + 1) -> Chain (Last + 1) A hi ->
  PropsAt (B ++ R ++ A) a =
  if (Base <=? a) && (a <=? Last) then PropsAt R a
  else if a <? Base then PropsAt B a else PropsAt A a.
Proof.
  intros H1 H2 H3.
  assert (H23 : Chain Base (R ++ A) hi) by (apply Chain_app; eauto).
  rewrite (PropsAt_chain_app lo _ Base _ hi a H1 H23).
  rewrite (PropsAt_chain_app Base _ (Last + 1) _ hi a H2 H3).
  destruct (a <? Base) eqn:Ea; bool_to_Z.
  - by rewrite (proj2 (Z.leb_gt Base a)) by lia.
  - rewrite (proj2 (Z.leb_le Base a)) by lia. simpl.
    destruct (a <? Last + 1) eqn:Eb; bool_to_Z.
    + by rewrite (proj2 (Z.leb_le a Last)) by lia.
    + by rewrite (proj2 (Z.leb_gt a Last)) by lia.
Qed.

Lemma pieces_rev_bottom e : rev (BottomPiece Base e) = BottomPiece Base e.
Proof. unfold BottomPiece. by destruct (_ <? _). Qed.

Lemma piece_lengths e0 en :
  (if Last <? e_EndAddress en then 0 else 1) + (if e_BaseAddress e0 <? Base then 0 else 1) +
  Z.of_nat (length (BottomPiece Base e0)) + Z.of_nat (length (TopPiece Last en)) = 2.
Proof. unfold BottomPiece, TopPiece. by destruct (_ <? _), (_ <? _). Qed.

(** The properties of the pieces are those of the entries they come from, so
    they cannot be merged with the neighbours outside the range. *)
Lemma below_canonical Map pre Run post e0 :
  Map = pre ++ Run ++ post -> head Run = Some e0 -> Canonical Map -> Canonical (pre ++ BottomPiece Base e0).
Proof.
  intros -> Hh C. apply Canonical_app in C as (C1 & C2 & C3). apply Canonical_app.
  unfold BottomPiece. destruct (_ <? _); split_and!; try done.
  intros u v Hu Hv. simpl in Hv. injection Hv as <-. apply (C3 u e0); [done|].
  destruct Run; simplify_eq/=. done.
Qed.

Lemma above_canonical Map pre Run post en :
  Map = pre ++ Run ++ post -> last Run = Some en -> Canonical Map -> Canonical (TopPiece Last en ++ post).
Proof.
  intros -> Hl C. apply Canonical_app in C as (_ & C2 & _). apply Canonical_app in C2 as (_ & C2 & C3).
  unfold TopPiece. destruct (_ <? _); [|done].
  destruct post as [|p post]; [done|]. simpl. split; [|done]. by apply (C3 en p).
Qed.

(** The loop and the cleanup together: the run is replaced by its updated
    entries, no address outside the range changes, and two work entries are
    accounted for. *)
Lemma walk_ok lo hi Map pre Run post x z acc :
  0 <= lo -> hi <= 2 ^ 64 -> Found lo hi Base Last Map pre Run post x z ->
  exists w c Map' Freed,
    let '(Run', acc') := UpdateRun Base Last Update acc Run in
    InsertRun (S (length Run)) Base Len Update (MkWork false false) acc (MkCut (rev pre) [] Run post)
      = Done (w, acc', c) /\
    CoreCleanupGcdMapEntry w c = (EFI_SUCCESS, Map', Freed) /\
    Chain lo Map' hi /\
    (forall a, PropsAt Map' a =
       if (Base <=? a) && (a <=? Last) then PropsAt Run' a else PropsAt Map a) /\
    Freed + Z.of_nat (length Map') = 2 + Z.of_nat (length Map) /\
    (Canonical Map -> Canonical Map').
Proof.
  intros Hlo Hhi F. pose proof F as [F1 F2 F3 F4 F5 F6 F7 F8 F9].
  pose proof (Chain_le _ _ _ F2). pose proof (Chain_le _ _ _ F4).
  destruct (head Run) as [e0|] eqn:Hh; [|by destruct Run].
  destruct (last Run) as [en|] eqn:Hl; [|by apply last_None in Hl].
  specialize (F7 e0 eq_refl). specialize (F8 en eq_refl).
  pose proof (InsertRun_ok Base Len Last HL HW HLast Update Run (S (length Run)) (MkWork false false)
    acc (rev pre) [] post x z e0 en) as HI.
  pose proof (UpdateRun_chain Run acc x z e0 en F3 Hh Hl F7 F8 F9) as HR.
  pose proof (UpdateRun_length Run acc) as HRl.
  destruct (UpdateRun Base Last Update acc Run) as [Run' acc'] eqn:HU. simpl in HR, HRl.
  rewrite Z.max_l in HR by lia.
  assert (B0 : e_BaseAddress e0 = x) by (destruct Run; simplify_eq/=; by destruct F3).
  assert (Bn : e_EndAddress en + 1 = z).
  { pose proof Hl as Hl'. apply last_Some in Hl' as [R0 ->]. apply Chain_app in F3 as (y & _ & _ & _ & ?). done. }
  assert (HBel : Chain lo (pre ++ BottomPiece Base e0) Base).
  { apply Chain_app. exists x. split; [done|]. by apply bottom_chain. }
  assert (HAbv : Chain (Last + 1) (TopPiece Last en ++ post) hi).
  { apply Chain_app. exists z. split; [|done]. by apply top_chain. }
  assert (HRun' : Run' <> []) by (destruct Run, Run'; simplify_eq/=; done).
  set (c := MkCut (BottomPiece Base e0 ++ rev pre) (rev Run' ++ []) [] (TopPiece Last en ++ post)).
  set (w := MkWork (Last <? e_EndAddress en) (false || (e_BaseAddress e0 <? Base))).
  assert (HcB : rev (Below c) = pre ++ BottomPiece Base e0).
  { simpl. by rewrite rev_app_distr, rev_involutive, pieces_rev_bottom. }
  assert (HcW : rev (Walked c) = Run') by (simpl; by rewrite app_nil_r, rev_involutive).
  destruct (CoreCleanupGcdMapEntry w c) as [[Status Map'] Freed] eqn:HC.
  apply (cleanup_ok lo hi) in HC as HC'.
  2:{ simpl. rewrite app_nil_r. destruct Run'; [done|]. simpl. by destruct (rev Run'). }
  2:{ rewrite HcB, HcW. apply Chain_app. exists Base. split; [done|].
      apply Chain_app. exists (Last + 1). done. }
  destruct HC' as (-> & HCh & HPr & Hcnt & Hcan). exists w, c, Map', Freed.
  split_and!; [apply HI; try done; lia|done|done| | |].
  - intros a. rewrite HPr, HcB, HcW. change (Above c) with (TopPiece Last en ++ post).
    rewrite (three_props lo hi _ _ _ a HBel HR HAbv).
    destruct ((Base <=? a) && (a <=? Last)) eqn:Ea; [done|]. bool_to_Z.
    destruct (a <? Base) eqn:Eb; bool_to_Z; [by eapply below_props|].
    eapply above_props; [done|done|]. destruct Ea; bool_to_Z; lia.
  - subst c w. simpl in Hcnt. rewrite F1, !length_app. rewrite ?length_app, ?length_rev in Hcnt. simpl in Hcnt.
    pose proof (piece_lengths e0 en). lia.
  - intros Cm. apply Hcan; [rewrite HcB; by eapply below_canonical|by eapply above_canonical].
Qed.

End Walk.
