(* ===== verification/GcdFacts.v ===== *)
(** * Correctness of the GCD services

    The invariant [GcdOk] of the GCD state, what a conversion means for one
    address, and the proof that the body of [CoreConvertSpace] does that to
    every address of the range. *)
From Stdlib Require Import ZArith Lia.
From stdpp Require Import base option list.
From S2P Require Import Prelude Gcd GcdMap GcdWalk.

(** ** The invariant *)

(** A map tiles the address space from 0 up to [hi], which fits 64 bits, and
    no two neighbours could be merged. *)
Record MapOk (hi : Z) (Map : list EFI_GCD_MAP_ENTRY) : Prop := {
  mo_chain : Chain 0 Map hi;
  mo_size : 0 < hi <= 2 ^ 64;
  mo_canonical : Canonical Map
}.

(** Both maps are well formed, both locks are free, and the live pool blocks
    are exactly the linked entries. *)
Record GcdOk (mhi ihi : Z) (st : GcdState) : Prop := {
  go_memory : MapOk mhi (mGcdMemorySpaceMap st);
  go_io : MapOk ihi (mGcdIoSpaceMap st);
  go_memory_lock : mGcdMemorySpaceLock st = false;
  go_io_lock : mGcdIoSpaceLock st = false;
  go_pool : PoolBlocks st =
    Z.of_nat (length (mGcdMemorySpaceMap st)) + Z.of_nat (length (mGcdIoSpaceMap st))
}.

Definition Size (Io : bool) (mhi ihi : Z) : Z := if Io then ihi else mhi.

Lemma GcdOk_map mhi ihi st Io : GcdOk mhi ihi st -> MapOk (Size Io mhi ihi) (GetMap Io st).
Proof. intros [? ? ? ? ?]. by destruct Io. Qed.

Lemma GcdOk_lock mhi ihi st Io : GcdOk mhi ihi st -> GetLock Io st = false.
Proof. intros [? ? ? ? ?]. by destruct Io. Qed.

(** ** What a conversion means for one address *)

(** The properties an address of the range has after a successful
    conversion. *)
Definition ConvertedProps (Operation GcdMemoryType GcdIoType Capabilities Attributes : Z)
    (p : Props) : Props :=
  let '(cap, att, mt, it, ih, dh) := p in
  if Operation =? GCD_ADD_MEMORY_OPERATION then
    (Z.lor (Z.lor Capabilities EFI_MEMORY_RUNTIME)
       (if GcdMemoryType =? EfiGcdMemoryTypeMemoryMappedIo then EFI_MEMORY_PORT_IO else 0),
     att, GcdMemoryType, it, ih, dh)
  else if Operation =? GCD_ADD_IO_OPERATION then (cap, att, mt, GcdIoType, ih, dh)
  else if (Operation =? GCD_FREE_MEMORY_OPERATION) || (Operation =? GCD_FREE_IO_OPERATION)
  then (cap, att, mt, it, 0, 0)
  else if Operation =? GCD_REMOVE_MEMORY_OPERATION
  then (0, att, EfiGcdMemoryTypeNonExistent, it, ih, dh)
  else if Operation =? GCD_REMOVE_IO_OPERATION
  then (cap, att, mt, EfiGcdIoTypeNonExistent, ih, dh)
  else if Operation =? GCD_SET_ATTRIBUTES_MEMORY_OPERATION then (cap, Attributes, mt, it, ih, dh)
  else if Operation =? GCD_SET_CAPABILITIES_MEMORY_OPERATION
  then (Capabilities, att, mt, it, ih, dh)
  else p.

(** Whether the conversion is allowed on an address with these properties. *)
Definition ConvertAllowed (Operation BaseAddress Length Capabilities Attributes : Z) (p : Props) : bool :=
  let '(cap, att, mt, it, ih, dh) := p in
  let PageAligned := negb (HasFlag BaseAddress EFI_PAGE_MASK) && negb (HasFlag Length EFI_PAGE_MASK) in
  if Operation =? GCD_ADD_MEMORY_OPERATION then (mt =? EfiGcdMemoryTypeNonExistent) && (ih =? 0)
  else if Operation =? GCD_ADD_IO_OPERATION then (it =? EfiGcdIoTypeNonExistent) && (ih =? 0)
  else if (Operation =? GCD_FREE_MEMORY_OPERATION) || (Operation =? GCD_FREE_IO_OPERATION)
  then negb (ih =? 0)
  else if Operation =? GCD_REMOVE_MEMORY_OPERATION
  then negb (mt =? EfiGcdMemoryTypeNonExistent) && (ih =? 0)
  else if Operation =? GCD_REMOVE_IO_OPERATION
  then negb (it =? EfiGcdIoTypeNonExistent) && (ih =? 0)
  else if Operation =? GCD_SET_ATTRIBUTES_MEMORY_OPERATION
  then (negb (HasFlag Attributes EFI_MEMORY_RUNTIME) || PageAligned) &&
       (Z.land cap Attributes =? Attributes)
  else if Operation =? GCD_SET_CAPABILITIES_MEMORY_OPERATION
  then PageAligned && (Z.land Capabilities att =? att)
  else true.

(** The set-attributes conversion rewrites the variable [Attributes] from one
    entry to the next when no CPU attribute is asked for; every other
    conversion treats the entries alike. *)
Definition Uniform (Operation Attributes : Z) : Prop :=
  Operation = GCD_SET_ATTRIBUTES_MEMORY_OPERATION ->
  ConverToCpuArchAttributes Attributes <> 0 \/ Attributes = 0.

Definition CpuAttributes (Operation Attributes : Z) : Z :=
  if Operation =? GCD_SET_ATTRIBUTES_MEMORY_OPERATION then ConverToCpuArchAttributes Attributes else 0.

Lemma ConvertSpaceEntry_bounds Op mt it b l cap cpu :
  KeepsBounds (ConvertSpaceEntry Op mt it b l cap cpu).
Proof.
  intros [att calls] e. unfold ConvertSpaceEntry. repeat case_match; done.
Qed.

Lemma ConvertSpaceEntry_props Op mt it b l cap att :
  Uniform Op att ->
  ActsAs (ConvertSpaceEntry Op mt it b l cap (CpuAttributes Op att)) (fun acc => fst acc = att)
    (ConvertedProps Op mt it cap att).
Proof.
  intros HU [att' calls] e Hacc. simpl in Hacc. subst att'.
  unfold ConvertSpaceEntry, ConvertedProps, props, CpuAttributes, Uniform in *.
  destruct e as [b0 e0 c0 a0 m0 i0 ih0 dh0]; simpl.
  repeat case_match; simplify_eq/=; try done; bool_to_Z; simplify_eq.
  - by rewrite Z.lor_0_r.
  - exfalso. destruct HU; [done|congruence|congruence].
Qed.

Lemma ConvertSpaceCheckEntry_props Op b l cap att e :
  ConvertSpaceCheckEntry Op b l cap att e = EFI_SUCCESS <->
  ConvertAllowed Op b l cap att (props e) = true.
Proof.
  unfold ConvertSpaceCheckEntry, ConvertAllowed, props.
  repeat (match goal with
  | |- context [Op =? ?k] => destruct (Op =? k); simpl
  end);
  repeat (match goal with
  | |- context [HasFlag ?x ?y] => destruct (HasFlag x y); simpl
  | |- context [?x =? ?y] => destruct (x =? y); simpl
  end); done.
Qed.

(** ** Runs and addresses *)

Section Found.
Context (lo hi b last_ : Z) (Map pre Run post : list EFI_GCD_MAP_ENTRY) (x z : Z).
Context (F : Found lo hi b last_ Map pre Run post x z).

Lemma found_props a : b <= a <= last_ -> PropsAt Map a = PropsAt Run a.
Proof using F.
  intros Ha. destruct F as [-> F2 F3 F4 F5 F6 F7 F8 F9].
  rewrite PropsAt_app, (PropsAt_out _ _ _ a F2) by lia.
  rewrite PropsAt_app. destruct (PropsAt Run a) eqn:E; [done|].
  apply (PropsAt_out _ _ _ a F4). lia.
Qed.

Lemma found_cut :
  CutAt Map (length pre) (length pre + length Run - 1) = MkCut (rev pre) [] Run post.
Proof using F. rewrite (fd_map _ _ _ _ _ _ _ _ _ _ F). apply CutAt_found, F. Qed.

Lemma found_elem e : e ∈ Run -> e_BaseAddress e <= last_ /\ b <= e_EndAddress e.
Proof using F.
  intros He. destruct F as [-> F2 F3 F4 F5 F6 F7 F8 F9]. split.
  - destruct (last Run) as [en|] eqn:HL; [|by apply last_None in HL].
    specialize (F8 _ eq_refl). apply last_Some in HL as [R0 ->].
    apply Chain_app in F3 as (y & F3 & By & Ly & _). apply elem_of_app in He as [He|He].
    + pose proof (Chain_In _ _ _ _ F3 He). lia.
    + apply list_elem_of_singleton in He as ->. lia.
  - destruct Run as [|e0 R0]; [done|]. specialize (F7 _ eq_refl). destruct F3 as (B0 & L0 & F3).
    apply elem_of_cons in He as [->|He]; [lia|]. pose proof (Chain_In _ _ _ _ F3 He). lia.
Qed.

Lemma found_forall (P : Props -> bool) :
  b <= last_ ->
  Forall (fun e => P (props e) = true) Run <->
  forall a, b <= a <= last_ -> exists p, PropsAt Map a = Some p /\ P p = true.
Proof using F.
  intros Hb. pose proof F as [_ F2 F3 F4 F5 F6 F7 F8 F9]. rewrite Forall_forall. split.
  - intros H a Ha. rewrite found_props by done.
    destruct (PropsAt_in _ _ _ a F3) as [p Hp]; [lia|].
    destruct (PropsAt_Some _ _ _ Hp) as (e & He & _ & <-). eauto.
  - intros H e He. destruct (found_elem e He) as [E1 E2].
    pose proof (Chain_In _ _ _ _ F3 He).
    destruct (H (Z.max b (e_BaseAddress e))) as (p & Hp & HP); [lia|].
    rewrite found_props in Hp by lia.
    rewrite (PropsAt_elem _ _ _ _ _ F3 He) in Hp; [congruence|]. apply covers_spec. lia.
Qed.

End Found.

Lemma CheckRun_success Op b l cap att Run :
  ConvertSpaceCheckRun Op b l cap att Run = EFI_SUCCESS <->
  Forall (fun e => ConvertAllowed Op b l cap att (props e) = true) Run.
Proof.
  induction Run as [|e Run IH]; [split; [by constructor|done]|]. cbn [ConvertSpaceCheckRun].
  rewrite Forall_cons, <- IH. cbv beta. rewrite <- ConvertSpaceCheckEntry_props.
  destruct (ConvertSpaceCheckEntry _ _ _ _ _ e); simpl; intuition done.
Qed.

(** ** Conversion *)

(** The relation between the states before and after a successful change of
    one map: address [a] of the range now has the properties [g a]. *)
Record MapChanged (Io : bool) (hi b l : Z) (g : Z -> option Props) (st st' : GcdState) : Prop := {
  mc_map : MapOk hi (GetMap Io st');
  mc_props : forall a, PropsAt (GetMap Io st') a =
    if (b <=? a) && (a <? b + l) then g a else PropsAt (GetMap Io st) a;
  mc_other : GetMap (negb Io) st' = GetMap (negb Io) st;
  mc_locks : GetLock Io st' = GetLock Io st /\ GetLock (negb Io) st' = GetLock (negb Io) st;
  mc_pool : PoolBlocks st' - Z.of_nat (length (GetMap Io st')) =
            PoolBlocks st - Z.of_nat (length (GetMap Io st))
}.

Lemma AddPool_add n m st : AddPool n (AddPool m st) = AddPool (m + n) st.
Proof. unfold AddPool. simpl. by rewrite Z.add_assoc. Qed.

Lemma AddPool_0 st : AddPool 0 st = st.
Proof. destruct st. unfold AddPool. simpl. by rewrite Z.add_0_r. Qed.

(** [CoreAllocateGcdMapEntry] allocates both work entries or neither. *)
Lemma allocate_work PoolAvailable st :
  CoreAllocateGcdMapEntry PoolAvailable st =
  if PoolAvailable (PoolBlocks st) && PoolAvailable (PoolBlocks st + 1)
  then (EFI_SUCCESS, AddPool 2 st) else (EFI_OUT_OF_RESOURCES, st).
Proof.
  unfold CoreAllocateGcdMapEntry. change (PoolBlocks (AddPool 1 st)) with (PoolBlocks st + 1).
  destruct (PoolAvailable (PoolBlocks st)); simpl; [|done].
  destruct (PoolAvailable (PoolBlocks st + 1)); simpl; rewrite AddPool_add; [done|].
  by rewrite AddPool_0.
Qed.

(** The walk and cleanup of a service that changes one map, from the state
    in which the two work entries have been allocated. *)
Lemma change_map_ok {Acc} (Update : Acc -> EFI_GCD_MAP_ENTRY -> EFI_GCD_MAP_ENTRY * Acc) acc
    Io hi b l st pre Run post x z :
  KeepsBounds Update ->
  0 <= b -> 0 < l -> b + l <= 2 ^ 64 ->
  MapOk hi (GetMap Io st) -> Found 0 hi b (b + l - 1) (GetMap Io st) pre Run post x z ->
  exists w c acc' Map' Freed,
    InsertRun (S (length Run)) b l Update (MkWork false false) acc (MkCut (rev pre) [] Run post)
      = Done (w, acc', c) /\
    CoreCleanupGcdMapEntry w c = (EFI_SUCCESS, Map', Freed) /\
    forall calls,
      MapChanged Io hi b l (PropsAt (fst (UpdateRun b (b + l - 1) Update acc Run))) st
        (EmitCalls calls (AddPool (- Freed) (SetMap Io Map' (AddPool 2 st)))).
Proof.
  intros HK Hb Hl Hw [M1 M2 M3] F.
  destruct (walk_ok b l (b + l - 1) Hb Hl Hw eq_refl Update HK 0 hi (GetMap Io st) pre Run post x z acc)
    as (w & c & Map' & Freed & HWk); [lia|lia|done|].
  destruct (UpdateRun b (b + l - 1) Update acc Run) as [Run' acc'].
  destruct HWk as (W1 & W2 & W3 & W4 & W5 & W6).
  exists w, c, acc', Map', Freed. split_and!; [done|done|]. intros calls.
  split; [|  |by destruct Io|by destruct Io|].
  - destruct Io; (split; [done|done|by apply W6]).
  - intros a. assert (GetMap Io (EmitCalls calls (AddPool (- Freed) (SetMap Io Map' (AddPool 2 st)))) = Map')
      as -> by (by destruct Io).
    rewrite W4. replace (a <=? b + l - 1) with (a <? b + l); [done|].
    apply Bool.eq_iff_eq_true. rewrite Z.ltb_lt, Z.leb_le. lia.
  - destruct Io; simpl in *; lia.
Qed.

(** A uniform update rewrites the properties of each address of the run. *)
Lemma changed_uniform {Acc} (Update : Acc -> EFI_GCD_MAP_ENTRY -> EFI_GCD_MAP_ENTRY * Acc) I f acc
    hi b l Map pre Run post x z a :
  KeepsBounds Update -> ActsAs Update I f -> I acc ->
  Found 0 hi b (b + l - 1) Map pre Run post x z -> b <= a < b + l ->
  PropsAt (fst (UpdateRun b (b + l - 1) Update acc Run)) a = f <$> PropsAt Map a.
Proof.
  intros HK HA HI F Ha. rewrite (UpdateRun_props b (b + l - 1) Update HK I f) by (done || lia).
  by rewrite (found_props _ _ _ _ _ _ _ _ _ _ F) by lia.
Qed.

(** The CPU architectural protocol accepts the new attributes of the range. *)
Definition CpuAccepts (gCpu : option (Z -> Z -> Z -> EFI_STATUS)) (b l cpu : Z) : Prop :=
  cpu = 0 \/ exists SetMemoryAttributes, gCpu = Some SetMemoryAttributes /\
             SetMemoryAttributes b l cpu = EFI_SUCCESS.

(** When a conversion goes through: the range is inside the map, every address
    of it allows the operation, the two work entries can be allocated and the
    CPU accepts the attributes. *)
Definition ConvertPossible (PoolAvailable : Z -> bool) gCpu (Map : list EFI_GCD_MAP_ENTRY)
    (Pool hi Op b l cap att : Z) : Prop :=
  b + l <= hi /\
  (forall a, b <= a < b + l -> exists p, PropsAt Map a = Some p /\ ConvertAllowed Op b l cap att p = true) /\
  PoolAvailable Pool = true /\ PoolAvailable (Pool + 1) = true /\
  CpuAccepts gCpu b l (CpuAttributes Op att).

Section Convert.
Context (PoolAvailable : Z -> bool) (gCpu : option (Z -> Z -> Z -> EFI_STATUS)).

(** [CoreSearchGcdMapEntry] on a chain. *)
Lemma search_spec hi Map b l :
  0 <= b -> 0 < l -> b + l <= 2 ^ 64 -> Chain 0 Map hi ->
  if b + l <=? hi
  then exists pre Run post x z,
    CoreSearchGcdMapEntry b l Map =
      Done (EFI_SUCCESS, Some (length pre), Some (length pre + length Run - 1)%nat) /\
    Found 0 hi b (b + l - 1) Map pre Run post x z
  else exists s, CoreSearchGcdMapEntry b l Map = Done (EFI_NOT_FOUND, s, None).
Proof.
  intros Hb Hl Hw Hch. unfold CoreSearchGcdMapEntry. rewrite (proj2 (Z.eqb_neq l 0)) by lia. simpl.
  destruct (b + l <=? hi) eqn:E; bool_to_Z.
  - destruct (search_first b l (b + l - 1) Hb Hl Hw eq_refl hi Map 0 0)
      as (pre & Run & post & x & z & HS & F); [done|lia|lia|].
    exists pre, Run, post, x, z. by rewrite HS.
  - destruct (search_out b l (b + l - 1) Hb Hl Hw eq_refl Map hi 0 0 None) as [s Hs]; [done|right; lia|].
    exists s. by rewrite Hs.
Qed.

(** The status [CoreConvertSpace] computes from the CPU protocol. *)
Lemma cpu_status b l cpu :
  (if negb (cpu =? 0) then
     match gCpu with
     | None => EFI_NOT_AVAILABLE_YET
     | Some SetMemoryAttributes => SetMemoryAttributes b l cpu
     end
   else EFI_SUCCESS) = EFI_SUCCESS <-> CpuAccepts gCpu b l cpu.
Proof.
  unfold CpuAccepts. destruct (Z.eqb_spec cpu 0); simpl; [intuition done|].
  destruct gCpu as [f|]; split; intros H; try done.
  - right. eauto.
  - destruct H as [?|(g & ? & ?)]; [done|]. by simplify_eq.
  - destruct H as [?|(g & ? & ?)]; done.
Qed.

Lemma convert_locked_ok Io Op mt it b l cap att hi st :
  0 <= b -> 0 < l -> b + l <= 2 ^ 64 -> MapOk hi (GetMap Io st) ->
  exists Status st' g,
    ConvertSpaceLocked PoolAvailable gCpu Io Op mt it b l cap att st = Done (Status, st') /\
    (Status = EFI_SUCCESS <->
     ConvertPossible PoolAvailable gCpu (GetMap Io st) (PoolBlocks st) hi Op b l cap att) /\
    (if EFI_ERROR Status then st' = st else MapChanged Io hi b l g st st') /\
    (Uniform Op att -> EFI_ERROR Status = false -> forall a, b <= a < b + l ->
       g a = ConvertedProps Op mt it cap att <$> PropsAt (GetMap Io st) a).
Proof.
  intros Hb Hl Hw HM. unfold ConvertSpaceLocked, ConvertPossible.
  pose proof (search_spec hi (GetMap Io st) b l Hb Hl Hw (mo_chain _ _ HM)) as HS.
  destruct (b + l <=? hi) eqn:E; bool_to_Z.
  2:{ destruct HS as [s ->]. eexists _, _, (fun _ => None). split_and!; [done| |done|done].
      split; [done|]. intros (? & _). lia. }
  destruct HS as (pre & Run & post & x & z & -> & F).
  cbn [mbind Outcome_bind EFI_ERROR]. rewrite (found_cut _ _ _ _ _ _ _ _ _ _ F). cbn [Gcd.Run].
  assert (HA : ConvertSpaceCheckRun Op b l cap att Run = EFI_SUCCESS <->
    forall a, b <= a < b + l -> exists p, PropsAt (GetMap Io st) a = Some p /\ ConvertAllowed Op b l cap att p = true).
  { rewrite CheckRun_success, (found_forall _ _ _ _ _ _ _ _ _ _ F) by lia.
    split; intros H a Ha; apply H; lia. }
  destruct (EFI_ERROR (ConvertSpaceCheckRun Op b l cap att Run)) eqn:EC.
  { eexists _, _, (fun _ => None). split_and!; [done| |by rewrite EC|by rewrite EC].
    split; [intros HH; by rewrite HH in EC|]. intros (_ & ? & _). by apply HA. }
  apply EFI_ERROR_false in EC. pose proof (proj1 HA EC) as HAll. rewrite allocate_work.
  destruct (PoolAvailable (PoolBlocks st)) eqn:P1, (PoolAvailable (PoolBlocks st + 1)) eqn:P2;
    cbn [andb EFI_ERROR];
    [|eexists _, _, (fun _ => None); split_and!; [done|split; [done|by intros (_ & _ & ? & ? & _)]|done|done]..].
  fold (CpuAttributes Op att). pose proof (cpu_status b l (CpuAttributes Op att)) as HS0.
  destruct (EFI_ERROR (if negb (CpuAttributes Op att =? 0) then _ else _)) eqn:ES.
  { eexists _, _, (fun _ => None). split_and!; [done| |rewrite ES, AddPool_add; apply AddPool_0|by rewrite ES].
    split; [intros HH; by rewrite HH in ES|]. intros (_ & _ & _ & _ & ?). by apply HS0. }
  apply EFI_ERROR_false in ES.
  destruct (change_map_ok (ConvertSpaceEntry Op mt it b l cap (CpuAttributes Op att)) (att, [])
     Io hi b l st pre Run post x z)
    as (w & c & [att' calls] & Map' & Freed & -> & HC & HMC);
    [apply ConvertSpaceEntry_bounds|done..|].
  cbn [mbind Outcome_bind]. rewrite HC. eexists _, _, _. split_and!; [done| |apply HMC|].
  - split; [|done]. intros _. split_and!; try done. by apply HS0.
  - intros HU _ a Ha. apply (changed_uniform _ (fun acc => fst acc = att) _ _ hi _ _ _ pre _ post x z); try done.
    + apply ConvertSpaceEntry_bounds.
    + by apply ConvertSpaceEntry_props.
Qed.

End Convert.
