(* ===== verification/GcdAlloc.v ===== *)
(** * The GCD allocator

    [CoreAllocateSpace]: the search loop always ends within its fuel, what it
    finds is free, aligned and in bounds, and the bottom-up searches return
    the lowest such range. *)
From Stdlib Require Import ZArith Lia.
From stdpp Require Import base option list.
From S2P Require Import Prelude Gcd GcdMap GcdWalk GcdFacts.

(** The address is unallocated and has the type asked for. *)
Definition Allocatable (Operation GcdMemoryType GcdIoType : Z) (p : Props) : bool :=
  let '(cap, att, mt, it, ih, dh) := p in
  (ih =? 0) &&
  (if Operation =? GCD_ALLOCATE_MEMORY_OPERATION then mt =? GcdMemoryType
   else if Operation =? GCD_ALLOCATE_IO_OPERATION then it =? GcdIoType else false).

Lemma CheckEntry_allocatable Op e mt it :
  EFI_ERROR (CoreAllocateSpaceCheckEntry Op e mt it) = negb (Allocatable Op mt it (props e)).
Proof.
  unfold CoreAllocateSpaceCheckEntry, Allocatable, props.
  repeat (match goal with |- context [?x =? ?y] => destruct (x =? y); simpl end); done.
Qed.

(** A range that may be allocated: every address of it exists in the map and
    is allocatable. *)
Definition FreeRange (Op mt it : Z) (Map : list EFI_GCD_MAP_ENTRY) (b l : Z) : Prop :=
  forall a, b <= a < b + l -> exists p, PropsAt Map a = Some p /\ Allocatable Op mt it p = true.

Section Refused.
Context (Op mt it : Z).

Lemma FirstRefused_None Run : forall s,
  FirstRefused Op mt it Run s = None <-> Forall (fun e => Allocatable Op mt it (props e) = true) Run.
Proof.
  induction Run as [|e Run IH]; intros s; [split; [by constructor|done]|]. cbn [FirstRefused].
  rewrite CheckEntry_allocatable, Forall_cons. destruct (Allocatable Op mt it (props e)); cbn [negb].
  - rewrite IH. intuition done.
  - split; [done|]. intros [? _]. done.
Qed.

Lemma FirstRefused_Some Run : forall s j,
  FirstRefused Op mt it Run s = Some j ->
  exists e, (s <= j)%nat /\ Run !! (j - s)%nat = Some e /\ Allocatable Op mt it (props e) = false.
Proof.
  induction Run as [|e Run IH]; intros s j H; [done|]. cbn [FirstRefused] in H.
  rewrite CheckEntry_allocatable in H. destruct (Allocatable Op mt it (props e)) eqn:A; cbn [negb] in H.
  - destruct (IH _ _ H) as (e' & ? & He & ?). exists e'. split_and!; [lia| |done].
    replace (j - s)%nat with (S (j - S s)) by lia. done.
  - injection H as <-. exists e. rewrite Nat.sub_diag. split_and!; [lia|done|done].
Qed.

End Refused.

Section Search.
Context (Op mt it : Z) (Map : list EFI_GCD_MAP_ENTRY) (hi l k Max : Z).
Context (HM : MapOk hi Map) (Hhi : hi <= 2 ^ 63) (Hl : 0 < l <= 2 ^ 63) (Hk : 0 <= k < 64).

Abbreviation alloc e := (Allocatable Op mt it (props e)).

(** The links of a range found by the search. *)
Definition GoodLinks (StartLink EndLink : nat) (b : Z) : Prop :=
  exists pre Run post x z, Found 0 hi b (b + l - 1) Map pre Run post x z /\
    StartLink = length pre /\ EndLink = (length pre + length Run - 1)%nat /\
    Forall (fun e => alloc e = true) Run.

(** A range the caller could be given. *)
Definition Feasible (b : Z) : Prop :=
  0 <= b /\ (2 ^ k | b) /\ b + l - 1 <= Max /\ FreeRange Op mt it Map b l.

(** The three ways an attempt at [b] can end. *)
Inductive AttemptCase (b : Z) : Outcome (EFI_STATUS * option nat * option nat) -> Prop :=
| AttemptOutside s : hi < b + l -> AttemptCase b (Done (EFI_NOT_FOUND, s, None))
| AttemptGood s e :
    GoodLinks s e b -> FirstRefused Op mt it (take (S e - s) (drop s Map)) s = None ->
    AttemptCase b (Done (EFI_SUCCESS, Some s, Some e))
| AttemptRefused s e j ej :
    FirstRefused Op mt it (take (S e - s) (drop s Map)) s = Some j ->
    Map !! j = Some ej -> alloc ej = false ->
    e_BaseAddress ej <= b + l - 1 -> b <= e_EndAddress ej ->
    AttemptCase b (Done (EFI_SUCCESS, Some s, Some e)).

Lemma attempt_cases b :
  0 <= b -> b + l <= 2 ^ 64 -> AttemptCase b (CoreSearchGcdMapEntry b l Map).
Proof using HM Hl.
  intros Hb Hw. pose proof (search_spec hi Map b l Hb ltac:(lia) Hw (mo_chain _ _ HM)) as HS.
  destruct (b + l <=? hi) eqn:E; bool_to_Z.
  2:{ destruct HS as [s ->]. by apply AttemptOutside. }
  destruct HS as (pre & Run & post & x & z & -> & F).
  pose proof (f_equal Gcd.Run (found_cut _ _ _ _ _ _ _ _ _ _ F)) as HC. simpl Gcd.Run in HC.
  destruct (FirstRefused Op mt it Run (length pre)) as [j|] eqn:HF.
  - destruct (FirstRefused_Some _ _ _ _ _ _ HF) as (ej & Hj & Hl' & Ha).
    destruct (found_elem _ _ _ _ _ _ _ _ _ _ F ej) as [E1 E2]; [by eapply list_elem_of_lookup_2|].
    eapply (AttemptRefused b _ _ j ej); [by unfold CutAt in HC; simpl in HC; rewrite HC| |done|done|done].
    rewrite (fd_map _ _ _ _ _ _ _ _ _ _ F), lookup_app_r, lookup_app_l; [done| |lia].
    by eapply lookup_lt_Some.
  - apply AttemptGood; [|by rewrite HC].
    exists pre, Run, post, x, z. split_and!; [done|done|done|]. by eapply FirstRefused_None.
Qed.

(** No range can be placed on an entry that is not allocatable. *)
Lemma free_range_avoids b i e :
  FreeRange Op mt it Map b l -> Map !! i = Some e -> alloc e = false ->
  e_EndAddress e < b \/ b + l - 1 < e_BaseAddress e.
Proof using HM Hl.
  intros HF Hi Ha. destruct (Z.lt_ge_cases (e_EndAddress e) b) as [|H1]; [by left|].
  destruct (Z.lt_ge_cases (b + l - 1) (e_BaseAddress e)) as [|H2]; [by right|]. exfalso.
  pose proof (Chain_lookup _ _ _ _ _ (mo_chain _ _ HM) Hi).
  destruct (HF (Z.max b (e_BaseAddress e))) as (p & Hp & HA); [lia|].
  rewrite (PropsAt_elem 0 Map hi e) in Hp; [congruence|apply HM|by eapply list_elem_of_lookup_2|].
  apply covers_spec. lia.
Qed.

Lemma feasible_bounds b : Feasible b -> 0 <= b /\ b + l <= hi.
Proof using HM Hl.
  intros (Hb & _ & _ & HF). split; [done|].
  destruct (HF (b + l - 1)) as (p & Hp & _); [lia|].
  destruct (Z.le_gt_cases (b + l) hi) as [|H]; [done|].
  rewrite (PropsAt_out 0 Map hi) in Hp; [done|apply HM|lia].
Qed.

Lemma align_up_bounds v : 0 <= v <= 2 ^ 63 ->
  let r := Z.land (add64 v (2 ^ k - 1)) (not64 (2 ^ k - 1)) in
  v <= r <= 2 ^ 63 /\ (2 ^ k | r) /\ (forall b, (2 ^ k | b) -> v <= b -> r <= b).
Proof using Hk.
  intros Hv r. pose proof (pow2_pos k) as Hp. pose proof (pow2_le_mono k 63) as Hp63.
  assert (Hr : r = (v + (2 ^ k - 1)) / 2 ^ k * 2 ^ k).
  { unfold r. rewrite add64_small, mask_align_down by lia. done. }
  pose proof (align_down_bounds (v + (2 ^ k - 1)) (2 ^ k)).
  assert (Hleast : forall b, (2 ^ k | b) -> v <= b -> r <= b).
  { intros b Hb Hvb. rewrite Hr. apply align_up_least; [lia|done|done]. }
  split_and!; [lia| |rewrite Hr; by exists ((v + (2 ^ k - 1)) / 2 ^ k)|done].
  apply Hleast; [|lia]. exists (2 ^ (63 - k)). rewrite <- Z.pow_add_r by lia. f_equal. lia.
Qed.

(** The bottom-up search: it ends, and it returns the lowest feasible base
    address, or nothing when there is none. *)
Lemma bottom_up_ok fuel : forall Here e b0,
  Map !! Here = Some e -> (length Map - Here < fuel)%nat ->
  (forall b, Feasible b -> e_BaseAddress e <= b) ->
  exists r b, AllocateSearch fuel Op mt it false (2 ^ k - 1) l Max Map (Some Here) b0 = Done (r, b) /\
    match r with
    | Some (s, e) => GoodLinks s e b /\ Feasible b /\ forall b', Feasible b' -> b <= b'
    | None => forall b', ~ Feasible b'
    end.
Proof using HM Hhi Hl Hk.
  induction fuel as [|fuel IH]; intros Here e b0 Hhere Hfuel Hinv; [lia|].
  pose proof (lookup_lt_Some _ _ _ Hhere) as Hlt.
  pose proof (Chain_lookup _ _ _ _ _ (mo_chain _ _ HM) Hhere) as Hb.
  cbn [AllocateSearch]. rewrite Hhere, CheckEntry_allocatable.
  destruct (alloc e) eqn:Ha; cbn [negb].
  2:{ assert (Hskip : forall b, Feasible b -> e_EndAddress e + 1 <= b).
      { intros b Hf. pose proof (Hinv b Hf). destruct Hf as (_ & _ & _ & HF).
        destruct (free_range_avoids b _ e HF Hhere Ha); lia. }
      destruct (S Here <? length Map)%nat eqn:E.
      - apply Nat.ltb_lt in E. destruct (lookup_lt_is_Some_2 Map (S Here) E) as [e' He'].
        apply (IH (S Here) e' b0 He'); [lia|].
        by rewrite (Chain_lookup_next _ _ _ _ _ _ (mo_chain _ _ HM) Hhere He').
      - apply Nat.ltb_ge in E. exists None, b0. split; [by destruct fuel|].
        intros b Hf. specialize (Hskip b Hf). apply feasible_bounds in Hf.
        rewrite (Chain_lookup_last _ _ _ _ _ (mo_chain _ _ HM) Hhere) in Hskip
          by (apply lookup_ge_None_2; lia). lia. }
  destruct (align_up_bounds (e_BaseAddress e)) as (Hr & Hdiv & Hleast); [lia|].
  set (r := Z.land (add64 (e_BaseAddress e) (2 ^ k - 1)) (not64 (2 ^ k - 1))) in *.
  assert (Hmin : forall b', Feasible b' -> r <= b').
  { intros b' Hf. apply Hleast; [apply Hf|by apply Hinv]. }
  rewrite add64_last by lia. destruct (Max <? r + l - 1) eqn:EM; bool_to_Z.
  { exists None, r. split; [done|]. intros b' Hf. specialize (Hmin b' Hf).
    destruct Hf as (_ & _ & ? & _). lia. }
  destruct (attempt_cases r) as [s Hout|s en Hgood HF|s en j ej HF Hj Haj E1 E2]; [lia|lia|..];
    cbn [mbind Outcome_bind EFI_ERROR].
  - exists None, r. split; [done|]. intros b' Hf. specialize (Hmin b' Hf).
    apply feasible_bounds in Hf. lia.
  - rewrite HF. exists (Some (s, en)), r. split_and!; [done|done| |done].
    destruct Hgood as (pre & Run & post & x & z & F & _ & _ & Hall).
    split_and!; [lia|done|lia|].
    intros a Haa. eapply (found_forall _ _ _ _ _ _ _ _ _ _ F (Allocatable Op mt it)); [lia|done|lia].
  - rewrite HF.
    assert (Here < j)%nat.
    { destruct (Nat.lt_trichotomy Here j) as [|[->|Hgt]]; [done|congruence|].
      pose proof (Chain_lookup_lt _ _ _ _ _ _ _ (mo_chain _ _ HM) Hj Hhere Hgt). lia. }
    apply (IH j ej r Hj); [lia|]. intros b' Hf. specialize (Hmin b' Hf).
    destruct Hf as (_ & _ & _ & HFr). destruct (free_range_avoids b' _ ej HFr Hj Haj); [|lia].
    pose proof (Chain_lookup _ _ _ _ _ (mo_chain _ _ HM) Hj). lia.
Qed.

(** The top-down search: it ends, and what it returns is feasible. *)
Lemma top_down_ok fuel : forall Here e b0,
  Map !! Here = Some e -> (Here < fuel)%nat -> Max < 2 ^ 64 ->
  exists r b, AllocateSearch fuel Op mt it true (2 ^ k - 1) l Max Map (Some Here) b0 = Done (r, b) /\
    match r with
    | Some (s, e) => GoodLinks s e b /\ Feasible b
    | None => True
    end.
Proof using HM Hhi Hl Hk.
  induction fuel as [|fuel IH]; intros Here e b0 Hhere Hfuel HMax; [lia|].
  pose proof (Chain_lookup _ _ _ _ _ (mo_chain _ _ HM) Hhere) as Hb.
  pose proof (lookup_lt_Some _ _ _ Hhere) as Hlt.
  cbn [AllocateSearch]. rewrite Hhere, CheckEntry_allocatable.
  assert (Hnext : exists r b,
    AllocateSearch fuel Op mt it true (2 ^ k - 1) l Max Map
      (match Here with O => None | S p => Some p end) b0 = Done (r, b) /\
    match r with Some (s, e) => GoodLinks s e b /\ Feasible b | None => True end).
  { destruct Here as [|p]; [exists None, b0; by destruct fuel|].
    destruct (lookup_lt_is_Some_2 Map p) as [e' He']; [lia|]. apply (IH p e' b0 He'); [lia|done]. }
  destruct (alloc e) eqn:Ha; cbn [negb]; [|exact Hnext].
  rewrite add64_small by lia. destruct (Max <? e_BaseAddress e + l) eqn:E1; [exact Hnext|].
  bool_to_Z. rewrite add64_small by lia.
  destruct (e_EndAddress e + 1 <? l) eqn:E2; [exists None, b0; done|]. bool_to_Z.
  set (B := if Max <? e_EndAddress e then Max else e_EndAddress e).
  assert (HBd : l - 1 <= B /\ B <= Max /\ B <= e_EndAddress e).
  { unfold B. destruct (Max <? e_EndAddress e) eqn:EB; bool_to_Z; lia. }
  rewrite (add64_small B 1), sub64_small, mask_align_down by lia.
  pose proof (pow2_pos k ltac:(lia)) as Hp.
  pose proof (align_down_bounds (B + 1 - l) (2 ^ k) Hp) as Hdown.
  assert (Hr0 : 0 <= (B + 1 - l) / 2 ^ k * 2 ^ k) by (apply Z.mul_nonneg_nonneg; [apply Z.div_pos|]; lia).
  set (r := (B + 1 - l) / 2 ^ k * 2 ^ k) in *.
  destruct (attempt_cases r) as [s Hout|s en Hgood HF|s en j ej HF Hj Haj E3 E4]; [lia|lia|..];
    cbn [mbind Outcome_bind EFI_ERROR].
  - exists None, r. done.
  - rewrite HF. exists (Some (s, en)), r. split_and!; [done|done|].
    destruct Hgood as (pre & Run & post & x & z & F & _ & _ & Hall).
    split_and!; [lia|by exists ((B + 1 - l) / 2 ^ k)|lia|].
    intros a Haa. eapply (found_forall _ _ _ _ _ _ _ _ _ _ F (Allocatable Op mt it)); [lia|done|lia].
  - rewrite HF.
    assert (j < Here)%nat.
    { destruct (Nat.lt_trichotomy j Here) as [|[->|Hgt]]; [done|congruence|].
      pose proof (Chain_lookup_lt _ _ _ _ _ _ _ (mo_chain _ _ HM) Hhere Hj Hgt). lia. }
    apply (IH j ej r Hj); [lia|done].
Qed.

End Search.

(** ** The whole allocation *)

(** The highest address the caller allows. *)
Definition AllocationMax (GcdAllocateType b hi : Z) : Z :=
  if (GcdAllocateType =? EfiGcdAllocateMaxAddressSearchBottomUp) ||
     (GcdAllocateType =? EfiGcdAllocateMaxAddressSearchTopDown)
  then b else hi - 1.

Definition IsBottomUp (GcdAllocateType : Z) : bool :=
  (GcdAllocateType =? EfiGcdAllocateAnySearchBottomUp) ||
  (GcdAllocateType =? EfiGcdAllocateMaxAddressSearchBottomUp).

Lemma alignment_mask k : 0 <= k < 64 -> sub64 (LShiftU64 1 k) 1 = 2 ^ k - 1.
Proof.
  intros Hk. pose proof (pow2_pos k). pose proof (pow2_le_mono k 63).
  unfold LShiftU64. rewrite Z.shiftl_1_l, u64_small, sub64_small by lia. done.
Qed.

Lemma MapOk_last hi Map e : MapOk hi Map -> last Map = Some e -> e_EndAddress e + 1 = hi.
Proof.
  intros HM HL. eapply Chain_lookup_last; [apply HM| |].
  - by rewrite <- last_lookup.
  - apply lookup_ge_None_2. destruct Map; simpl; lia.
Qed.

Section Find.
Context (Op mt it : Z) (Map : list EFI_GCD_MAP_ENTRY) (hi l k b : Z).
Context (HM : MapOk hi Map) (Hhi : hi <= 2 ^ 63) (Hl : 0 < l <= 2 ^ 63) (Hk : 0 <= k < 64).
Context (Hb : 0 <= b < 2 ^ 64).

(** Allocation at a given address. *)
Lemma find_address_ok :
  b + l <= 2 ^ 64 ->
  exists r, AllocateFind Op EfiGcdAllocateAddress mt it k l b Map = Done (r, b) /\
    match r with
    | inr (s, e) => GoodLinks Op mt it Map hi l s e b /\ (2 ^ k | b)
    | inl Status => EFI_ERROR Status = true /\ ~ ((2 ^ k | b) /\ FreeRange Op mt it Map b l)
    end.
Proof using HM Hl Hk Hb.
  intros Hw. unfold AllocateFind. rewrite alignment_mask by done. cbn [Z.eqb Pos.eqb].
  destruct (HasFlag b (2 ^ k - 1)) eqn:E.
  { eexists. split; [done|]. split; [done|]. intros [Hd _]. apply mask_aligned in Hd; [congruence|lia]. }
  apply mask_aligned in E; [|lia].
  destruct (attempt_cases Op mt it Map hi l HM Hl b) as [s Hout|s en Hgood HF|s en j ej HF Hj Haj E1 E2];
    [lia|done|..]; cbn [mbind Outcome_bind EFI_ERROR].
  - eexists. split; [done|]. split; [done|]. intros [_ Hfr].
    destruct (Hfr (b + l - 1)) as (p & Hp & _); [lia|].
    rewrite (PropsAt_out 0 Map hi) in Hp; [done|apply HM|lia].
  - rewrite HF. eexists. split; [done|]. done.
  - rewrite HF, Hj. eexists. split; [done|]. split; [by rewrite CheckEntry_allocatable, Haj|].
    intros [_ Hfr]. destruct (free_range_avoids Op mt it Map hi l HM Hl b _ ej Hfr Hj Haj); lia.
Qed.

(** Searching allocation. *)
Lemma find_search_ok ty :
  0 <= ty < EfiGcdMaxAllocateType -> ty <> EfiGcdAllocateAddress ->
  exists r b', AllocateFind Op ty mt it k l b Map = Done (r, b') /\
    match r with
    | inr (s, e) => GoodLinks Op mt it Map hi l s e b' /\
        Feasible Op mt it Map l k (AllocationMax ty b hi) b' /\
        (IsBottomUp ty = true ->
         forall b2, Feasible Op mt it Map l k (AllocationMax ty b hi) b2 -> b' <= b2)
    | inl Status => EFI_ERROR Status = true /\
        (IsBottomUp ty = true -> forall b2, ~ Feasible Op mt it Map l k (AllocationMax ty b hi) b2)
    end.
Proof using HM Hhi Hl Hk Hb.
  intros Hty Hna. unfold AllocateFind. rewrite alignment_mask by done.
  rewrite (proj2 (Z.eqb_neq ty EfiGcdAllocateAddress)) by done.
  pose proof (mo_size _ _ HM) as Hsz. pose proof (mo_chain _ _ HM) as Hch.
  destruct (last Map) as [el|] eqn:HL.
  2:{ apply last_None in HL. rewrite HL in Hch. simpl in Hch. lia. }
  replace (e_EndAddress el) with (hi - 1) by (rewrite <- (MapOk_last _ _ _ HM HL); lia).
  fold (AllocationMax ty b hi).
  assert (HMax : AllocationMax ty b hi < 2 ^ 64) by (unfold AllocationMax; destruct (_ || _); lia).
  destruct (lookup_lt_is_Some_2 Map 0) as [e0 He0]; [destruct Map; [done|simpl; lia]|].
  destruct (lookup_lt_is_Some_2 Map (pred (length Map))) as [en Hen]; [destruct Map; [done|simpl; lia]|].
  destruct ((ty =? EfiGcdAllocateMaxAddressSearchTopDown) || (ty =? EfiGcdAllocateAnySearchTopDown)) eqn:ETD.
  - destruct (top_down_ok Op mt it Map hi l k (AllocationMax ty b hi) HM Hhi Hl Hk
      (S (length Map)) (pred (length Map)) en b Hen) as (r & b' & -> & HR); [lia|done|].
    assert (Hnb : IsBottomUp ty = true -> False).
    { unfold IsBottomUp. intros H. apply orb_true_iff in H, ETD. destruct H, ETD; bool_to_Z; simplify_eq. }
    cbn [mbind Outcome_bind].
    destruct r as [[s e]|]; eexists _, _; (split; [done|]); [|done].
    destruct HR. split_and!; [done|done|]. intros Hbu. destruct (Hnb Hbu).
  - destruct (bottom_up_ok Op mt it Map hi l k (AllocationMax ty b hi) HM Hhi Hl Hk
      (S (length Map)) 0 e0 b He0) as (r & b' & -> & HR); [lia| |].
    { intros b2 Hf. destruct Hf as (? & _). destruct Map as [|e1 Map0]; [done|].
      simpl in He0. simplify_eq. destruct Hch as [-> _]. done. }
    cbn [mbind Outcome_bind].
    destruct r as [[s e]|]; eexists _, _; (split; [done|]).
    + destruct HR as (? & ? & ?). done.
    + split; [done|]. intros _. exact HR.
Qed.

End Find.

(** The properties of an allocated address. *)
Definition AllocatedProps (ImageHandle DeviceHandle : Z) (p : Props) : Props :=
  let '(cap, att, mt, it, _, _) := p in (cap, att, mt, it, ImageHandle, DeviceHandle).

(** The second half of [CoreAllocateSpace]: with good links, the range is
    allocated unless the pool is exhausted. *)
Lemma allocate_links_ok PoolAvailable Io Op mt it hi l b ih dh s e st :
  0 <= b -> 0 < l -> b + l <= 2 ^ 64 ->
  MapOk hi (GetMap Io st) -> GoodLinks Op mt it (GetMap Io st) hi l s e b ->
  exists Status st',
    (let '(Status, st1) := CoreAllocateGcdMapEntry PoolAvailable st in
     if EFI_ERROR Status then Done (EFI_OUT_OF_RESOURCES, b, st1)
     else
       let c := CutAt (GetMap Io st) s e in
       '(w, _, c) ←
         InsertRun (S (length (Run c))) b l
           (fun (_ : unit) Entry => (set_Handles Entry ih dh, tt)) (MkWork false false) tt c;
       let '(Status, Map, Freed) := CoreCleanupGcdMapEntry w c in
       Done (Status, b, AddPool (- Freed) (SetMap Io Map st1))) = Done (Status, b, st') /\
    (if EFI_ERROR Status then Status = EFI_OUT_OF_RESOURCES /\ st' = st
     else MapChanged Io hi b l (fun a => AllocatedProps ih dh <$> PropsAt (GetMap Io st) a) st st') /\
    (PoolAvailable (PoolBlocks st) = true -> PoolAvailable (PoolBlocks st + 1) = true -> Status = EFI_SUCCESS).
Proof.
  intros Hb Hl Hw HM (pre & Run & post & x & z & F & -> & -> & Hall). rewrite allocate_work.
  destruct (PoolAvailable (PoolBlocks st)) eqn:P1, (PoolAvailable (PoolBlocks st + 1)) eqn:P2;
    cbn [andb EFI_ERROR]; [|eexists _, _; split_and!; [done|done|done]..].
  rewrite (found_cut _ _ _ _ _ _ _ _ _ _ F). cbn [Gcd.Run].
  set (U := fun (_ : unit) Entry => (set_Handles Entry ih dh, tt)).
  assert (HK : KeepsBounds U) by (by intros [] ?).
  assert (HA : ActsAs U (fun _ => True) (AllocatedProps ih dh)) by (by intros [] ? _).
  destruct (change_map_ok U tt Io hi b l st pre Run post x z HK Hb Hl Hw HM F)
    as (w & c & [] & Map' & Freed & -> & HC & HMC).
  cbn [mbind Outcome_bind]. rewrite HC. eexists _, _. split_and!; [done| |done].
  cbn [EFI_ERROR]. specialize (HMC []).
  assert (EmitCalls [] (AddPool (- Freed) (SetMap Io Map' (AddPool 2 st))) =
          AddPool (- Freed) (SetMap Io Map' (AddPool 2 st))) as HE.
  { unfold EmitCalls. rewrite app_nil_r. by destruct Io. }
  rewrite HE in HMC. destruct HMC as [c1 c2 c3 c4 c5]. split; [done| |done|done|done].
  intros a. rewrite c2. destruct ((b <=? a) && (a <? b + l)) eqn:E; [|done]. bool_to_Z.
  by apply (changed_uniform U (fun _ => True) _ tt hi b l _ pre Run post x z).
Qed.

(** The other map and the locks survive a change, so the invariant does. *)
Lemma MapChanged_GcdOk mhi ihi Io b l g st st' :
  GcdOk mhi ihi (SetLock Io false st) -> GetLock Io st = true ->
  MapChanged Io (Size Io mhi ihi) b l g st st' ->
  GcdOk mhi ihi (SetLock Io false st').
Proof.
  intros [g1 g2 g3 g4 g5] HL [c1 c2 c3 [c4 c5] c6].
  destruct Io; simpl in *; split; simpl; try done; try congruence; rewrite c3; lia.
Qed.
