(* ===== verification/GcdTheorems.v ===== *)
(** * What the GCD services guarantee

    The theorems on [CoreConvertSpace] and [CoreAllocateSpace]: their effect on
    every address, when they succeed, first fit, the round trip of allocating
    and freeing, and the invariant of all reachable states. *)
From Stdlib Require Import ZArith Lia.
From stdpp Require Import base option list.
From S2P Require Import Prelude Gcd GcdMap GcdWalk GcdFacts GcdAlloc.

(** The operations are those on the memory map, or else those on the I/O map. *)
Definition IsIo (Operation : Z) : bool := negb (HasFlag Operation GCD_MEMORY_SPACE_OPERATION).
Definition ValidOperation (Operation : Z) : Prop :=
  HasFlag Operation GCD_MEMORY_SPACE_OPERATION || HasFlag Operation GCD_IO_SPACE_OPERATION = true.

Lemma SetLock_same mhi ihi Io st : GcdOk mhi ihi st -> SetLock Io false (SetLock Io true st) = st.
Proof. intros [? ? H1 H2 ?]. destruct st; simpl in *. subst. by destruct Io. Qed.

Lemma acquire_ok mhi ihi Io st :
  GcdOk mhi ihi st -> CoreAcquireGcdLock Io st = Done (SetLock Io true st).
Proof. intros H. unfold CoreAcquireGcdLock. by rewrite (GcdOk_lock _ _ _ Io H). Qed.

Lemma GetMap_SetLock Io Io' b st : GetMap Io (SetLock Io' b st) = GetMap Io st.
Proof. by destruct Io, Io'. Qed.

Lemma PoolBlocks_SetLock Io b st : PoolBlocks (SetLock Io b st) = PoolBlocks st.
Proof. by destruct Io. Qed.

(** [CoreConvertSpace] as a whole, from a well-formed state. *)
Lemma convert_ok PoolAvailable gCpu Op mt it b l cap att mhi ihi st :
  GcdOk mhi ihi st -> ValidOperation Op -> 0 <= b -> 0 < l -> b + l <= 2 ^ 64 ->
  exists Status st',
    CoreConvertSpace PoolAvailable gCpu Op mt it b l cap att st = Done (Status, st') /\
    GcdOk mhi ihi st' /\
    (Status = EFI_SUCCESS <->
     ConvertPossible PoolAvailable gCpu (GetMap (IsIo Op) st) (PoolBlocks st)
       (Size (IsIo Op) mhi ihi) Op b l cap att) /\
    GetMap (negb (IsIo Op)) st' = GetMap (negb (IsIo Op)) st /\
    (EFI_ERROR Status = true -> st' = st) /\
    (EFI_ERROR Status = false -> forall a, a < b \/ b + l <= a ->
       PropsAt (GetMap (IsIo Op) st') a = PropsAt (GetMap (IsIo Op) st) a) /\
    (EFI_ERROR Status = false -> Uniform Op att -> forall a, b <= a < b + l ->
       PropsAt (GetMap (IsIo Op) st') a =
       ConvertedProps Op mt it cap att <$> PropsAt (GetMap (IsIo Op) st) a).
Proof.
  intros HG HV Hb Hl Hw. unfold CoreConvertSpace. rewrite (proj2 (Z.eqb_neq l 0)) by lia.
  unfold ValidOperation in HV. rewrite HV. fold (IsIo Op). set (Io := IsIo Op).
  rewrite (acquire_ok _ _ _ _ HG). cbn [mbind Outcome_bind].
  set (st1 := SetLock Io true st).
  assert (HL1 : GetLock Io st1 = true) by (by destruct Io).
  pose proof (GcdOk_map _ _ _ Io HG) as HM.
  destruct (convert_locked_ok PoolAvailable gCpu Io Op mt it b l cap att (Size Io mhi ihi) st1)
    as (Status & st2 & g & -> & Hiff & Hres & Huni); [done..|unfold st1; by rewrite GetMap_SetLock|].
  cbn [mbind Outcome_bind]. unfold CoreReleaseGcdLock.
  assert (HL2 : GetLock Io st2 = true).
  { destruct (EFI_ERROR Status); [by subst|]. destruct Hres as [_ _ _ [-> _] _]. done. }
  rewrite HL2. cbn [ASSERT mbind Outcome_bind].
  unfold st1 in Hiff, Huni. rewrite GetMap_SetLock in Hiff, Huni. rewrite PoolBlocks_SetLock in Hiff.
  exists Status, (SetLock Io false st2). split; [done|].
  destruct (EFI_ERROR Status) eqn:ES.
  - subst st2. unfold st1. rewrite (SetLock_same _ _ _ _ HG). split_and!; try done.
  - assert (HG1 : GcdOk mhi ihi (SetLock Io false st1)) by (unfold st1; by rewrite (SetLock_same _ _ _ _ HG)).
    split_and!; try done.
    + by eapply MapChanged_GcdOk.
    + rewrite GetMap_SetLock. rewrite (mc_other _ _ _ _ _ _ _ Hres). apply GetMap_SetLock.
    + intros _ a Ha. rewrite GetMap_SetLock, (mc_props _ _ _ _ _ _ _ Hres). unfold st1.
      rewrite GetMap_SetLock. destruct ((b <=? a) && (a <? b + l)) eqn:E; [bool_to_Z; lia|done].
    + intros _ HU a Ha. rewrite GetMap_SetLock, (mc_props _ _ _ _ _ _ _ Hres).
      rewrite (proj2 (Z.leb_le b a)), (proj2 (Z.ltb_lt a (b + l))) by lia. by apply Huni.
Qed.

(** Arguments [CoreAllocateSpace] does not refuse outright, in the ranges
    their C types have, for a length of at most 2^63 and a fixed address whose
    range does not wrap around.  Longer lengths wrap around in the search
    ([CoreAllocateSpace_accepts_wraparound]). *)
Record AllocArgs (Op ty mt it k l b ih : Z) : Prop := {
  aa_op : Op = GCD_ALLOCATE_MEMORY_OPERATION \/ Op = GCD_ALLOCATE_IO_OPERATION;
  aa_type : 0 <= ty < EfiGcdMaxAllocateType;
  aa_memory : 0 <= mt < EfiGcdMemoryTypeMaximum;
  aa_io : 0 <= it < EfiGcdIoTypeMaximum;
  aa_alignment : 0 <= k < 64;
  aa_length : 0 < l <= 2 ^ 63;
  aa_base : 0 <= b < 2 ^ 64;
  aa_nowrap : ty = EfiGcdAllocateAddress -> b + l <= 2 ^ 64;
  aa_handle : ih <> 0
}.

(** The arguments within the same ranges, whether they are refused outright or
    not. *)
Record AllocModest (Op ty mt it k l b : Z) : Prop := {
  am_op : Op = GCD_ALLOCATE_MEMORY_OPERATION \/ Op = GCD_ALLOCATE_IO_OPERATION;
  am_types : 0 <= ty /\ 0 <= mt /\ 0 <= it;
  am_alignment : 0 <= k;
  am_length : 0 <= l <= 2 ^ 63;
  am_base : 0 <= b < 2 ^ 64;
  am_nowrap : ty = EfiGcdAllocateAddress -> b + l <= 2 ^ 64
}.

(** The base addresses an allocation may return. *)
Definition AllocCandidate (Op ty mt it k l b hi : Z) (Map : list EFI_GCD_MAP_ENTRY) (b' : Z) : Prop :=
  0 <= b' /\ (2 ^ k | b') /\ FreeRange Op mt it Map b' l /\
  (if ty =? EfiGcdAllocateAddress then b' = b else b' + l - 1 <= AllocationMax ty b hi).

(** What [AllocateFind] returns, for every kind of allocation. *)
Lemma find_ok Op ty mt it k l b ih hi Map :
  AllocArgs Op ty mt it k l b ih -> MapOk hi Map -> hi <= 2 ^ 63 ->
  exists r b', AllocateFind Op ty mt it k l b Map = Done (r, b') /\
    match r with
    | inr (s, e) => GoodLinks Op mt it Map hi l s e b' /\
        AllocCandidate Op ty mt it k l b hi Map b' /\
        (IsBottomUp ty || (ty =? EfiGcdAllocateAddress) = true ->
         forall b2, AllocCandidate Op ty mt it k l b hi Map b2 -> b' <= b2)
    | inl Status => EFI_ERROR Status = true /\
        (IsBottomUp ty || (ty =? EfiGcdAllocateAddress) = true ->
         forall b2, ~ AllocCandidate Op ty mt it k l b hi Map b2)
    end.
Proof.
  intros [A1 A2 A3 A4 A5 A6 A7 A8 A9] HM Hhi. unfold AllocCandidate.
  destruct (Z.eqb_spec ty EfiGcdAllocateAddress) as [->|Hne].
  - destruct (find_address_ok Op mt it Map hi l k b HM A6 A5 A7 (A8 eq_refl)) as (r & -> & HR).
    exists r, b. split; [done|]. destruct r as [Status|[s e]].
    + destruct HR as [H1 H2]. split; [done|]. intros _ b2 (_ & ? & ? & ->). by apply H2.
    + destruct HR as [H1 H2]. split_and!; [done|lia|done| |done|intros _ b2 (_ & _ & _ & ->); lia].
      destruct H1 as (pre & Run & post & x & z & F & _ & _ & Hall). intros a Ha.
      eapply (found_forall _ _ _ _ _ _ _ _ _ _ F (Allocatable Op mt it)); [lia|done|lia].
  - destruct (find_search_ok Op mt it Map hi l k b HM Hhi A6 A5 A7 ty A2 Hne) as (r & b' & -> & HR).
    exists r, b'. split; [done|]. rewrite orb_false_r. unfold Feasible in HR.
    destruct r as [Status|[s e]].
    + destruct HR as [H1 H2]. split; [done|]. intros Hbu b2 (? & ? & ? & ?). by apply (H2 Hbu b2).
    + destruct HR as (H1 & (? & ? & ? & ?) & H3). split_and!; [done..|].
      intros Hbu b2 (? & ? & ? & ?). by apply (H3 Hbu b2).
Qed.

(** [CoreAllocateSpace] as a whole, from a well-formed state. *)
Lemma allocate_ok PoolAvailable Op ty mt it k l b ih dh mhi ihi st :
  GcdOk mhi ihi st -> mhi <= 2 ^ 63 -> ihi <= 2 ^ 63 -> AllocArgs Op ty mt it k l b ih ->
  let Map := GetMap (IsIo Op) st in
  let Candidate := AllocCandidate Op ty mt it k l b (Size (IsIo Op) mhi ihi) Map in
  let FirstFit := IsBottomUp ty || (ty =? EfiGcdAllocateAddress) in
  exists Status b' st',
    CoreAllocateSpace PoolAvailable Op ty mt it k l (Some b) ih dh st = Done (Status, Some b', st') /\
    GcdOk mhi ihi st' /\
    (EFI_ERROR Status = true -> st' = st) /\
    (EFI_ERROR Status = false ->
       Candidate b' /\
       GetMap (negb (IsIo Op)) st' = GetMap (negb (IsIo Op)) st /\
       forall a, PropsAt (GetMap (IsIo Op) st') a =
         if (b' <=? a) && (a <? b' + l) then AllocatedProps ih dh <$> PropsAt Map a else PropsAt Map a) /\
    (FirstFit = true -> EFI_ERROR Status = false -> forall b2, Candidate b2 -> b' <= b2) /\
    (FirstFit = true -> PoolAvailable (PoolBlocks st) = true -> PoolAvailable (PoolBlocks st + 1) = true ->
     EFI_ERROR Status = true -> forall b2, ~ Candidate b2).
Proof.
  intros HG Hm Hi A Map Candidate FirstFit. pose proof A as [A1 A2 A3 A4 A5 A6 A7 A8 A9].
  unfold CoreAllocateSpace.
  rewrite !(proj2 (Z.leb_gt _ _)), (proj2 (Z.eqb_neq ih 0)), (proj2 (Z.eqb_neq l 0)) by (done || lia).
  assert (HV : HasFlag Op GCD_MEMORY_SPACE_OPERATION || HasFlag Op GCD_IO_SPACE_OPERATION = true)
    by (by destruct A1 as [-> | ->]).
  rewrite HV. fold (IsIo Op). set (Io := IsIo Op) in *. rewrite (acquire_ok _ _ _ _ HG). cbn [mbind Outcome_bind].
  set (st1 := SetLock Io true st). unfold AllocateSpaceLocked.
  assert (HM1 : GetMap Io st1 = Map) by apply GetMap_SetLock.
  pose proof (GcdOk_map _ _ _ Io HG) as HM. fold Map in HM.
  destruct (find_ok Op ty mt it k l b ih (Size Io mhi ihi) Map A HM) as (r & b' & HF & HR);
    [by destruct Io|]. rewrite HM1, HF. cbn [mbind Outcome_bind].
  assert (HL1 : GetLock Io st1 = true) by (by destruct Io).
  assert (HG1 : GcdOk mhi ihi (SetLock Io false st1)) by (unfold st1; by rewrite (SetLock_same _ _ _ _ HG)).
  destruct r as [Status|[s e]].
  { destruct HR as [HE HN]. cbn [mbind Outcome_bind]. unfold CoreReleaseGcdLock. rewrite HL1.
    cbn [ASSERT mbind Outcome_bind]. eexists _, _, _. split; [done|]. rewrite HE.
    split_and!; try done; [intros _; unfold st1; by rewrite (SetLock_same _ _ _ _ HG)|].
    intros HFF _ _ _. by apply HN. }
  destruct HR as (HGL & HC & HN). rewrite <- HM1.
  pose proof (pow2_le_mono 63 64 ltac:(lia)).
  assert (Hbw : 0 <= b' /\ b' + l <= 2 ^ 64).
  { destruct HC as (? & _ & HFr & _). destruct (HFr (b' + l - 1)) as (p & Hp & _); [lia|].
    destruct (Z.le_gt_cases (b' + l) (2 ^ 64)); [lia|].
    rewrite (PropsAt_out 0 Map (Size Io mhi ihi)) in Hp; [done|apply HM|]. pose proof (mo_size _ _ HM). lia. }
  destruct (allocate_links_ok PoolAvailable Io Op mt it (Size Io mhi ihi) l b' ih dh s e st1)
    as (Status & st2 & HA & Hres & Hpool); [lia|lia|lia|by rewrite HM1|by rewrite HM1|].
  cbn zeta in HA. rewrite HA. clear HA. cbn [mbind Outcome_bind].
  assert (HL2 : GetLock Io st2 = true).
  { destruct (EFI_ERROR Status); [by destruct Hres as [_ ->]|]. by destruct Hres as [_ _ _ [-> _] _]. }
  unfold CoreReleaseGcdLock. rewrite HL2. cbn [ASSERT mbind Outcome_bind].
  exists Status, b', (SetLock Io false st2). split; [done|]. rewrite HM1 in Hres.
  unfold st1 in Hpool. rewrite PoolBlocks_SetLock in Hpool.
  destruct (EFI_ERROR Status) eqn:ES.
  - destruct Hres as [HSt ->]. unfold st1. rewrite (SetLock_same _ _ _ _ HG). split_and!; try done.
    intros _ P1 P2. by rewrite Hpool in HSt.
  - split_and!; try done; [by eapply MapChanged_GcdOk| |intros HFF _; by apply HN].
    intros _. split_and!; [done| |].
    + rewrite GetMap_SetLock, (mc_other _ _ _ _ _ _ _ Hres). apply GetMap_SetLock.
    + intros a. rewrite GetMap_SetLock, (mc_props _ _ _ _ _ _ _ Hres). by rewrite HM1.
Qed.

(** Arguments in range are refused outright, or they are in order. *)
Lemma allocate_refused PoolAvailable Op ty mt it k l b ih dh st :
  AllocModest Op ty mt it k l b ->
  AllocArgs Op ty mt it k l b ih \/
  exists Status, EFI_ERROR Status = true /\
    CoreAllocateSpace PoolAvailable Op ty mt it k l (Some b) ih dh st = Done (Status, Some b, st).
Proof.
  intros [A1 (A2 & A3 & A4) A5 A6 A7 A8]. unfold CoreAllocateSpace.
  destruct (EfiGcdMaxAllocateType <=? ty) eqn:E1; [right; by exists EFI_INVALID_PARAMETER|].
  destruct (EfiGcdMemoryTypeMaximum <=? mt) eqn:E2; [right; by exists EFI_INVALID_PARAMETER|].
  destruct (EfiGcdIoTypeMaximum <=? it) eqn:E3; [right; by exists EFI_INVALID_PARAMETER|].
  destruct (ih =? 0) eqn:E4; [right; by exists EFI_INVALID_PARAMETER|].
  destruct (64 <=? k) eqn:E5; [right; by exists EFI_NOT_FOUND|].
  destruct (l =? 0) eqn:E6; [right; by exists EFI_INVALID_PARAMETER|]. left. bool_to_Z. split; try done; lia.
Qed.

(** [CoreConvertSpace] refuses an empty range. *)
Lemma convert_empty PoolAvailable gCpu Op mt it b cap att st :
  CoreConvertSpace PoolAvailable gCpu Op mt it b 0 cap att st = Done (EFI_INVALID_PARAMETER, st).
Proof. done. Qed.

(** The state [CoreInitializeGcdServices] sets up before it walks the HOB list. *)
Lemma InitialGcd_ok m i :
  0 <= m < 64 -> 0 <= i < 64 -> GcdOk (2 ^ m) (2 ^ i) (InitialGcd m i).
Proof.
  intros Hm Hi. pose proof (pow2_pos m). pose proof (pow2_le_mono m 64).
  pose proof (pow2_pos i). pose proof (pow2_le_mono i 64).
  split; [| |done|done|done]; (split; [|lia|done]); simpl; rewrite alignment_mask by lia; lia.
Qed.

(** C1: [CoreConvertSpace] (add, free, remove, set attributes, set capabilities)
    changes the map exactly on the given range.  From a well-formed state
    ([GcdOk]) and for a range that ends at or below 2^64 it always returns; on
    success every address of the range has the converted properties, every other
    address of the map and the whole other map are as before; on an error, an
    empty range included, nothing has changed at all.  Two cases are left out:
    ranges that wrap around, which the code accepts
    ([CoreConvertSpace_accepts_wraparound]), and setting attributes that are not 0
    but name neither a cache nor an access attribute ([Uniform]), where attributes
    leak from one entry into the next ([SetMemorySpaceAttributes_leaks]). *)
Theorem CoreConvertSpace_pointwise PoolAvailable gCpu Op mt it b l cap att mhi ihi st :
  GcdOk mhi ihi st -> ValidOperation Op -> 0 <= b -> 0 <= l -> b + l <= 2 ^ 64 -> Uniform Op att ->
  exists Status st',
    CoreConvertSpace PoolAvailable gCpu Op mt it b l cap att st = Done (Status, st') /\
    if EFI_ERROR Status then st' = st
    else
      GetMap (negb (IsIo Op)) st' = GetMap (negb (IsIo Op)) st /\
      forall a, PropsAt (GetMap (IsIo Op) st') a =
        if (b <=? a) && (a <? b + l)
        then ConvertedProps Op mt it cap att <$> PropsAt (GetMap (IsIo Op) st) a
        else PropsAt (GetMap (IsIo Op) st) a.
Proof.
  intros HG HV Hb Hl0 Hw HU. destruct (decide (l = 0)) as [->|Hne].
  { exists EFI_INVALID_PARAMETER, st. by rewrite convert_empty. }
  assert (Hl : 0 < l) by lia.
  destruct (convert_ok PoolAvailable gCpu Op mt it b l cap att mhi ihi st HG HV Hb Hl Hw)
    as (Status & st' & HC & _ & _ & HO & HE & Hout & Hin).
  exists Status, st'. split; [done|]. destruct (EFI_ERROR Status); [by apply HE|].
  split; [done|]. intros a. destruct ((b <=? a) && (a <? b + l)) eqn:E; bool_to_Z.
  - apply Hin; [done|done|lia].
  - apply Hout; [done|]. destruct E; bool_to_Z; lia.
Qed.

Lemma CoreConvertSpace_pointwise_witness :
  exists Status st',
    CoreConvertSpace (fun _ => true) None GCD_ADD_MEMORY_OPERATION 2 0 4096 8192 15 0 (InitialGcd 48 16)
      = Done (Status, st') /\
    if EFI_ERROR Status then st' = InitialGcd 48 16
    else
      GetMap true st' = GetMap true (InitialGcd 48 16) /\
      forall a, PropsAt (GetMap false st') a =
        if (4096 <=? a) && (a <? 4096 + 8192)
        then ConvertedProps GCD_ADD_MEMORY_OPERATION 2 0 15 0 <$> PropsAt (GetMap false (InitialGcd 48 16)) a
        else PropsAt (GetMap false (InitialGcd 48 16)) a.
Proof.
  apply (CoreConvertSpace_pointwise (fun _ => true) None GCD_ADD_MEMORY_OPERATION 2 0 4096 8192 15 0
    (2 ^ 48) (2 ^ 16) (InitialGcd 48 16)); [apply InitialGcd_ok; lia|reflexivity|lia|lia|lia|discriminate].
Defined.

(** C39: for a range that is not empty and ends at or below 2^64, from a
    well-formed state ([GcdOk]), [CoreConvertSpace] succeeds exactly when it
    should: the range lies in the map, every address of it allows the operation
    (non-existent and unowned for an addition, owned for a free, capabilities
    covering the attributes, ...), the two work entries can be allocated and the
    CPU protocol accepts the attributes.  A range that wraps around is outside
    this statement, and the code accepts it although it does not lie in the map
    ([CoreConvertSpace_accepts_wraparound]); an empty one is always refused. *)
Theorem CoreConvertSpace_succeeds_iff PoolAvailable gCpu Op mt it b l cap att mhi ihi st :
  GcdOk mhi ihi st -> ValidOperation Op -> 0 <= b -> 0 < l -> b + l <= 2 ^ 64 ->
  (exists st', CoreConvertSpace PoolAvailable gCpu Op mt it b l cap att st = Done (EFI_SUCCESS, st')) <->
  ConvertPossible PoolAvailable gCpu (GetMap (IsIo Op) st) (PoolBlocks st)
    (Size (IsIo Op) mhi ihi) Op b l cap att.
Proof.
  intros HG HV Hb Hl Hw.
  destruct (convert_ok PoolAvailable gCpu Op mt it b l cap att mhi ihi st HG HV Hb Hl Hw)
    as (Status & st' & HC & _ & Hiff & _). rewrite <- Hiff. split.
  - intros [st2 H2]. congruence.
  - intros ->. eauto.
Qed.

Lemma CoreConvertSpace_succeeds_iff_witness :
  (exists st', CoreConvertSpace (fun _ => true) None GCD_FREE_MEMORY_OPERATION 0 0 4096 8192 0 0
     (InitialGcd 48 16) = Done (EFI_SUCCESS, st')) <->
  ConvertPossible (fun _ => true) None (GetMap false (InitialGcd 48 16)) 2 (2 ^ 48)
    GCD_FREE_MEMORY_OPERATION 4096 8192 0 0.
Proof.
  apply (CoreConvertSpace_succeeds_iff (fun _ => true) None GCD_FREE_MEMORY_OPERATION 0 0 4096 8192 0 0
    (2 ^ 48) (2 ^ 16) (InitialGcd 48 16)); [apply InitialGcd_ok; lia|reflexivity|lia|lia|lia].
Defined.

(** The states the GCD can be in: the initial one, and whatever the
    conversion and allocation services make of a state, for ranges that do not
    wrap around and lengths of at most 2^63 of an allocation. *)
Inductive GcdReach (m i : Z) : GcdState -> Prop :=
| ReachInit : GcdReach m i (InitialGcd m i)
| ReachConvert PoolAvailable gCpu Op mt it b l cap att st Status st' :
    GcdReach m i st -> ValidOperation Op -> 0 <= b -> 0 <= l -> b + l <= 2 ^ 64 ->
    CoreConvertSpace PoolAvailable gCpu Op mt it b l cap att st = Done (Status, st') ->
    GcdReach m i st'
| ReachAllocate PoolAvailable Op ty mt it k l b ih dh st Status b' st' :
    GcdReach m i st -> AllocModest Op ty mt it k l b ->
    CoreAllocateSpace PoolAvailable Op ty mt it k l (Some b) ih dh st = Done (Status, b', st') ->
    GcdReach m i st'.

(** C34: in every state that conversions and allocations reach from the initial
    maps, both maps tile the whole address space without gaps or overlaps, no two
    neighbouring entries could be merged, both locks are free, and the live pool
    blocks are exactly the linked entries, so that no path through the services
    leaks or double frees an entry.  The addresses have less than 64 bits, and the
    requests are those that do not wrap around: conversions and allocations at a
    fixed address of a range that ends at or below 2^64, and allocations of at most
    2^63 bytes.  The services accept ranges that wrap around and damage the maps
    ([CoreConvertSpace_accepts_wraparound], [CoreAllocateSpace_accepts_wraparound]). *)
Theorem GcdReach_ok m i st :
  0 <= m < 64 -> 0 <= i < 64 -> GcdReach m i st -> GcdOk (2 ^ m) (2 ^ i) st.
Proof.
  intros Hm Hi HR. induction HR as
    [|PA gCpu Op mt it b l cap att st Status st' HR IH HV Hb Hl Hw HC
     |PA Op ty mt it k l b ih dh st Status b' st' HR IH HA HC].
  - by apply InitialGcd_ok.
  - destruct (decide (l = 0)) as [->|]; [rewrite convert_empty in HC; by injection HC as <- <-|].
    destruct (convert_ok PA gCpu Op mt it b l cap att _ _ st IH HV Hb ltac:(lia) Hw)
      as (Status' & st2 & HC' & HG & _). congruence.
  - destruct (allocate_refused PA Op ty mt it k l b ih dh st HA) as [HA'|(S & _ & HS)]; [|congruence].
    destruct (allocate_ok PA Op ty mt it k l b ih dh _ _ st IH) as (Status' & b2 & st2 & HC' & HG & _);
      [apply pow2_le_mono; lia|apply pow2_le_mono; lia|done|]. congruence.
Qed.

(** System memory from 4 KiB up to 64 KiB, added to the initial map. *)
Definition SampleGcd : GcdState :=
  match CoreConvertSpace (fun _ => true) None GCD_ADD_MEMORY_OPERATION EfiGcdMemoryTypeSystemMemory 0
          0x1000 0xF000 EFI_MEMORY_WB 0 (InitialGcd 48 16) with
  | Done (_, st) => st
  | _ => InitialGcd 48 16
  end.

Lemma SampleGcd_reach : GcdReach 48 16 SampleGcd.
Proof.
  eapply (ReachConvert 48 16 (fun _ => true) None GCD_ADD_MEMORY_OPERATION EfiGcdMemoryTypeSystemMemory 0
    0x1000 0xF000 EFI_MEMORY_WB 0 (InitialGcd 48 16) EFI_SUCCESS);
    [apply ReachInit|reflexivity|lia|lia|lia|vm_compute; reflexivity].
Qed.

Lemma GcdReach_ok_witness : GcdOk (2 ^ 48) (2 ^ 16) SampleGcd.
Proof. apply (GcdReach_ok 48 16 SampleGcd); [lia|lia|apply SampleGcd_reach]. Defined.

Lemma SampleGcd_ok : GcdOk (2 ^ 48) (2 ^ 16) SampleGcd.
Proof.
  destruct (convert_ok (fun _ => true) None GCD_ADD_MEMORY_OPERATION EfiGcdMemoryTypeSystemMemory 0
    0x1000 0xF000 EFI_MEMORY_WB 0 (2 ^ 48) (2 ^ 16) (InitialGcd 48 16)) as (Status & st' & HC & HG & _);
    [apply InitialGcd_ok; lia|reflexivity|lia|lia|lia|].
  unfold SampleGcd. by rewrite HC.
Qed.

(** C4: an allocation is sound, for a length of at most 2^63, maps of at most
    2^63 addresses, a fixed address whose range ends at or below 2^64, and from a
    well-formed state ([GcdOk]): [CoreAllocateSpace] always returns (its search
    loop ends), and when it succeeds the range it hands out is aligned, lies
    within the bound the caller gave (or at the address the caller asked for),
    consists only of unowned addresses of the type asked for, and afterwards is
    owned by the caller's handles while every other address is as before; when
    it fails, wrong types, alignments, an empty length and a NULL image handle
    included, nothing has changed.  Beyond these limits the code's additions wrap
    around and it hands out bad ranges ([CoreAllocateSpace_accepts_wraparound]). *)
Theorem CoreAllocateSpace_sound PoolAvailable Op ty mt it k l b ih dh mhi ihi st :
  GcdOk mhi ihi st -> mhi <= 2 ^ 63 -> ihi <= 2 ^ 63 -> AllocModest Op ty mt it k l b ->
  exists Status b' st',
    CoreAllocateSpace PoolAvailable Op ty mt it k l (Some b) ih dh st = Done (Status, Some b', st') /\
    GcdOk mhi ihi st' /\
    if EFI_ERROR Status then st' = st
    else
      ih <> 0 /\
      AllocCandidate Op ty mt it k l b (Size (IsIo Op) mhi ihi) (GetMap (IsIo Op) st) b' /\
      GetMap (negb (IsIo Op)) st' = GetMap (negb (IsIo Op)) st /\
      forall a, PropsAt (GetMap (IsIo Op) st') a =
        if (b' <=? a) && (a <? b' + l)
        then AllocatedProps ih dh <$> PropsAt (GetMap (IsIo Op) st) a
        else PropsAt (GetMap (IsIo Op) st) a.
Proof.
  intros HG Hm Hi HA.
  destruct (allocate_refused PoolAvailable Op ty mt it k l b ih dh st HA) as [A|(Status & HE & HS)].
  2: { exists Status, b, st. by rewrite HE. }
  destruct (allocate_ok PoolAvailable Op ty mt it k l b ih dh mhi ihi st HG Hm Hi A)
    as (Status & b' & st' & HC & HG' & HE & HS & _).
  exists Status, b', st'. split_and!; [done|done|].
  destruct (EFI_ERROR Status); [by apply HE|]. split; [apply A|by apply HS].
Qed.

(** The allocation of the samples, bottom up with 8 KiB alignment. *)
Definition SampleModest : AllocModest GCD_ALLOCATE_MEMORY_OPERATION EfiGcdAllocateAnySearchBottomUp
    EfiGcdMemoryTypeSystemMemory 0 13 0x2000 0.
Proof. split; vm_compute; try (split_and!; congruence); try congruence. by left. Qed.

Definition SampleArgs : AllocArgs GCD_ALLOCATE_MEMORY_OPERATION EfiGcdAllocateAnySearchBottomUp
    EfiGcdMemoryTypeSystemMemory 0 13 0x2000 0 7.
Proof. split; vm_compute; try (split; congruence); try congruence. by left. Qed.

Lemma CoreAllocateSpace_sound_witness :
  exists Status b' st',
    CoreAllocateSpace (fun _ => true) GCD_ALLOCATE_MEMORY_OPERATION EfiGcdAllocateAnySearchBottomUp
      EfiGcdMemoryTypeSystemMemory 0 13 0x2000 (Some 0) 7 0 SampleGcd = Done (Status, Some b', st') /\
    GcdOk (2 ^ 48) (2 ^ 16) st' /\
    if EFI_ERROR Status then st' = SampleGcd
    else
      7 <> 0 /\
      AllocCandidate GCD_ALLOCATE_MEMORY_OPERATION EfiGcdAllocateAnySearchBottomUp
        EfiGcdMemoryTypeSystemMemory 0 13 0x2000 0 (2 ^ 48) (GetMap false SampleGcd) b' /\
      GetMap true st' = GetMap true SampleGcd /\
      forall a, PropsAt (GetMap false st') a =
        if (b' <=? a) && (a <? b' + 0x2000)
        then AllocatedProps 7 0 <$> PropsAt (GetMap false SampleGcd) a
        else PropsAt (GetMap false SampleGcd) a.
Proof.
  apply (CoreAllocateSpace_sound (fun _ => true) GCD_ALLOCATE_MEMORY_OPERATION
    EfiGcdAllocateAnySearchBottomUp EfiGcdMemoryTypeSystemMemory 0 13 0x2000 0 7 0 (2 ^ 48) (2 ^ 16) SampleGcd);
    [apply SampleGcd_ok|lia|lia|apply SampleModest].
Defined.

(** C35: the bottom-up searches of [CoreAllocateSpace] are first fit and
    complete: a successful one returns the lowest aligned free range within the
    bound, and a failure means that no such range exists; allocation at a fixed
    address fails only if that address is misaligned or not free.  This is stated
    for a well-formed state ([GcdOk]) with maps of at most 2^63 addresses, pool
    memory for the two work entries, arguments that are not refused outright (valid
    types, an alignment below 64, an image handle), a length of at most 2^63 and, at
    a fixed address, a range that ends at or below 2^64 ([AllocArgs]; beyond,
    [CoreAllocateSpace_accepts_wraparound]).  The top-down searches are not complete
    ([CoreAllocateSpace_top_down_misses_exact_fit]). *)
Theorem CoreAllocateSpace_first_fit PoolAvailable Op ty mt it k l b ih dh mhi ihi st :
  GcdOk mhi ihi st -> mhi <= 2 ^ 63 -> ihi <= 2 ^ 63 -> AllocArgs Op ty mt it k l b ih ->
  IsBottomUp ty || (ty =? EfiGcdAllocateAddress) = true ->
  PoolAvailable (PoolBlocks st) = true -> PoolAvailable (PoolBlocks st + 1) = true ->
  let Candidate := AllocCandidate Op ty mt it k l b (Size (IsIo Op) mhi ihi) (GetMap (IsIo Op) st) in
  exists Status b' st',
    CoreAllocateSpace PoolAvailable Op ty mt it k l (Some b) ih dh st = Done (Status, Some b', st') /\
    if EFI_ERROR Status then forall b2, ~ Candidate b2
    else Candidate b' /\ forall b2, Candidate b2 -> b' <= b2.
Proof.
  intros HG Hm Hi A HF P1 P2 Candidate.
  destruct (allocate_ok PoolAvailable Op ty mt it k l b ih dh mhi ihi st HG Hm Hi A)
    as (Status & b' & st' & HC & _ & _ & HS & HL & HN).
  exists Status, b', st'. split; [done|]. destruct (EFI_ERROR Status).
  - by apply HN.
  - split; [by apply HS|by apply HL].
Qed.

Lemma CoreAllocateSpace_first_fit_witness :
  exists Status b' st',
    CoreAllocateSpace (fun _ => true) GCD_ALLOCATE_MEMORY_OPERATION EfiGcdAllocateAnySearchBottomUp
      EfiGcdMemoryTypeSystemMemory 0 13 0x2000 (Some 0) 7 0 SampleGcd = Done (Status, Some b', st') /\
    if EFI_ERROR Status
    then forall b2, ~ AllocCandidate GCD_ALLOCATE_MEMORY_OPERATION EfiGcdAllocateAnySearchBottomUp
        EfiGcdMemoryTypeSystemMemory 0 13 0x2000 0 (2 ^ 48) (GetMap false SampleGcd) b2
    else
      AllocCandidate GCD_ALLOCATE_MEMORY_OPERATION EfiGcdAllocateAnySearchBottomUp
        EfiGcdMemoryTypeSystemMemory 0 13 0x2000 0 (2 ^ 48) (GetMap false SampleGcd) b' /\
      forall b2, AllocCandidate GCD_ALLOCATE_MEMORY_OPERATION EfiGcdAllocateAnySearchBottomUp
        EfiGcdMemoryTypeSystemMemory 0 13 0x2000 0 (2 ^ 48) (GetMap false SampleGcd) b2 -> b' <= b2.
Proof.
  apply (CoreAllocateSpace_first_fit (fun _ => true) GCD_ALLOCATE_MEMORY_OPERATION
    EfiGcdAllocateAnySearchBottomUp EfiGcdMemoryTypeSystemMemory 0 13 0x2000 0 7 0 (2 ^ 48) (2 ^ 16) SampleGcd);
    [apply SampleGcd_ok|lia|lia|apply SampleArgs|reflexivity|reflexivity|reflexivity].
Defined.

(** The free operation that undoes an allocation operation. *)
Definition FreeOperation (Op : Z) : Z :=
  if Op =? GCD_ALLOCATE_MEMORY_OPERATION then GCD_FREE_MEMORY_OPERATION else GCD_FREE_IO_OPERATION.

Lemma FreeOperation_ok Op ty mt it k l b ih :
  AllocArgs Op ty mt it k l b ih ->
  IsIo (FreeOperation Op) = IsIo Op /\ ValidOperation (FreeOperation Op) /\
  (forall att, Uniform (FreeOperation Op) att) /\
  (forall att, CpuAttributes (FreeOperation Op) att = 0) /\
  (forall mt it c a cap att mt' it' ih' dh',
     ConvertedProps (FreeOperation Op) mt it c a (cap, att, mt', it', ih', dh') =
     (cap, att, mt', it', 0, 0)) /\
  (forall b l c a cap att mt' it' ih' dh',
     ConvertAllowed (FreeOperation Op) b l c a (cap, att, mt', it', ih', dh') = negb (ih' =? 0)).
Proof. intros A. by destruct (aa_op _ _ _ _ _ _ _ _ A) as [-> | ->]; split_and!. Qed.

(** Freeing what an allocation handed out restores the GCD: the free
    succeeds, both maps are again the very lists of entries they were before
    the allocation, and so is the number of live pool blocks.  (The range must
    not carry a device handle without an image handle, which no service
    creates.) *)
Theorem allocate_free_roundtrip PoolAvailable gCpu Op ty mt it k l b ih dh mhi ihi st b' st1 :
  GcdOk mhi ihi st -> mhi <= 2 ^ 63 -> ihi <= 2 ^ 63 -> AllocArgs Op ty mt it k l b ih ->
  CoreAllocateSpace PoolAvailable Op ty mt it k l (Some b) ih dh st = Done (EFI_SUCCESS, Some b', st1) ->
  (forall e, e ∈ GetMap (IsIo Op) st -> e_ImageHandle e = 0 -> e_DeviceHandle e = 0) ->
  PoolAvailable (PoolBlocks st1) = true -> PoolAvailable (PoolBlocks st1 + 1) = true ->
  exists st2,
    CoreConvertSpace PoolAvailable gCpu (FreeOperation Op) 0 0 b' l 0 0 st1 = Done (EFI_SUCCESS, st2) /\
    mGcdMemorySpaceMap st2 = mGcdMemorySpaceMap st /\ mGcdIoSpaceMap st2 = mGcdIoSpaceMap st /\
    PoolBlocks st2 = PoolBlocks st.
Proof.
  intros HG Hm Hi A HA HD P1 P2.
  destruct (allocate_ok PoolAvailable Op ty mt it k l b ih dh mhi ihi st HG Hm Hi A)
    as (Status & b2 & st1' & HA' & HG1 & _ & HS & _). rewrite HA in HA'. injection HA' as <- <- <-.
  destruct (HS eq_refl) as ((Hb & _ & HF & _) & HO1 & HP1). clear HS.
  destruct (FreeOperation_ok _ _ _ _ _ _ _ _ A) as (FI & FV & FU & FC & FP & FA).
  pose proof (aa_length _ _ _ _ _ _ _ _ A) as Hl. pose proof (aa_handle _ _ _ _ _ _ _ _ A) as Hih.
  pose proof (GcdOk_map _ _ _ (IsIo Op) HG) as HM. set (hi := Size (IsIo Op) mhi ihi) in *.
  assert (Hin : b' + l <= hi).
  { destruct (HF (b' + l - 1)) as (p & Hp & _); [lia|].
    destruct (Z.le_gt_cases (b' + l) hi); [done|].
    by rewrite (PropsAt_out 0 _ hi) in Hp by (apply HM || lia). }
  pose proof (mo_size _ _ HM) as Hhi.
  destruct (convert_ok PoolAvailable gCpu (FreeOperation Op) 0 0 b' l 0 0 mhi ihi st1 HG1 FV Hb)
    as (Status & st2 & HC & HG2 & Hiff & HO & _ & Hout & Hinr); [lia|lia|].
  rewrite FI in *.
  assert (HAt : forall a, b' <= a < b' + l ->
    PropsAt (GetMap (IsIo Op) st1) a = AllocatedProps ih dh <$> PropsAt (GetMap (IsIo Op) st) a).
  { intros a Ha. by rewrite HP1, (proj2 (Z.leb_le b' a)), (proj2 (Z.ltb_lt a (b' + l))) by lia. }
  assert (Status = EFI_SUCCESS) as ->.
  { apply Hiff. split_and!; [done| |done|done|left; apply FC]. intros a Ha. rewrite HAt by done.
    destruct (HF a Ha) as (p & -> & _). eexists. split; [done|].
    destruct p as [[[[[? ?] ?] ?] ?] ?]. cbn [AllocatedProps]. rewrite FA.
    by rewrite (proj2 (Z.eqb_neq ih 0)). }
  exists st2. split; [done|].
  assert (HSame : GetMap (IsIo Op) st2 = GetMap (IsIo Op) st).
  { destruct (GcdOk_map _ _ _ (IsIo Op) HG2) as [C2 _ N2]. destruct HM as [C0 _ N0].
    apply (chain_canonical_unique 0 hi); try done. intros a _.
    destruct (Z.le_gt_cases b' a) as [Ha|Ha]; [destruct (Z.lt_ge_cases a (b' + l)) as [Ha2|Ha2]|].
    - rewrite Hinr, HAt by (done || lia). destruct (HF a (conj Ha Ha2)) as (p & Hp & Hal). rewrite Hp.
      destruct (PropsAt_Some _ _ _ Hp) as (e & He & _ & <-).
      cbn [fmap option_fmap option_map AllocatedProps props]. rewrite FP.
      unfold Allocatable, props in Hal. bool_to_Z. unfold props. by rewrite H, (HD e He H).
    - rewrite Hout, HP1 by (done || lia). destruct ((b' <=? a) && (a <? b' + l)) eqn:E; [bool_to_Z; lia|done].
    - rewrite Hout, HP1 by (done || lia). destruct ((b' <=? a) && (a <? b' + l)) eqn:E; [bool_to_Z; lia|done]. }
  assert (HOther : GetMap (negb (IsIo Op)) st2 = GetMap (negb (IsIo Op)) st) by congruence.
  rewrite (go_pool _ _ _ HG2), (go_pool _ _ _ HG).
  destruct (IsIo Op); simpl in HSame, HOther; by rewrite HSame, HOther.
Qed.

(** The sample map after an allocation of its 8 KiB at 8 KiB. *)
Definition SampleAllocated : GcdState :=
  match CoreAllocateSpace (fun _ => true) GCD_ALLOCATE_MEMORY_OPERATION EfiGcdAllocateAnySearchBottomUp
      EfiGcdMemoryTypeSystemMemory 0 13 0x2000 (Some 0) 7 0 SampleGcd with
  | Done (_, _, st) => st
  | _ => SampleGcd
  end.

Lemma allocate_free_roundtrip_witness :
  exists st2,
    CoreConvertSpace (fun _ => true) None (FreeOperation GCD_ALLOCATE_MEMORY_OPERATION)
      0 0 0x2000 0x2000 0 0 SampleAllocated = Done (EFI_SUCCESS, st2) /\
    mGcdMemorySpaceMap st2 = mGcdMemorySpaceMap SampleGcd /\
    mGcdIoSpaceMap st2 = mGcdIoSpaceMap SampleGcd /\ PoolBlocks st2 = PoolBlocks SampleGcd.
Proof.
  apply (allocate_free_roundtrip (fun _ => true) None GCD_ALLOCATE_MEMORY_OPERATION
    EfiGcdAllocateAnySearchBottomUp EfiGcdMemoryTypeSystemMemory 0 13 0x2000 0 7 0 (2 ^ 48) (2 ^ 16)
    SampleGcd 0x2000 SampleAllocated);
    [apply SampleGcd_ok|lia|lia|apply SampleArgs|vm_compute; reflexivity| |reflexivity|reflexivity].
  refine (proj1 (Forall_forall (fun e => e_ImageHandle e = 0 -> e_DeviceHandle e = 0) _) _).
  vm_compute. repeat constructor.
Defined.
