(* ===== verification/GcdInit.v ===== *)
(** * The GCD at start-up, and where its services go wrong

    [FindLargestFreeRegion], which chooses the memory the DXE Foundation starts
    with; the descriptors read back from a map; and concrete runs that show
    inputs the services do not handle. *)
From Stdlib Require Import ZArith Lia.
From stdpp Require Import base option list.
From S2P Require Import Prelude Gcd GcdMap GcdWalk GcdFacts GcdAlloc GcdTheorems.

(** ** The largest free region *)

(** The range of length [l] at [b] does not meet the allocation [hob]. *)
Definition Clear (b l : Z) (hob : Z * Z) : Prop :=
  b + l <= fst hob \/ fst hob + snd hob <= b.

(** Memory allocation HOBs as the PEI phase builds them: non-empty, not
    wrapping, pairwise disjoint, none of them straddling the region. *)
Definition HobOk (hob : Z * Z) : Prop := 0 <= fst hob /\ 0 < snd hob /\ fst hob + snd hob < 2 ^ 64.
Definition HobFits (b l : Z) (hob : Z * Z) : Prop :=
  Clear b l hob \/ (b <= fst hob /\ fst hob + snd hob <= b + l).
Fixpoint HobsDisjoint (hobs : list (Z * Z)) : Prop :=
  match hobs with
  | [] => True
  | hob :: hobs => Forall (Clear (fst hob) (snd hob)) hobs /\ HobsDisjoint hobs
  end.

(** What [FindLargestFreeRegion] promises: a free part of the region than which
    none is longer. *)
Definition LargestFree (b l : Z) (hobs : list (Z * Z)) (r : Z * Z) : Prop :=
  b <= fst r /\ 0 <= snd r /\ fst r + snd r <= b + l /\ Forall (Clear (fst r) (snd r)) hobs /\
  forall b2 l2, b <= b2 -> 0 < l2 -> b2 + l2 <= b + l -> Forall (Clear b2 l2) hobs -> l2 <= snd r.

Lemma LargestFree_whole b l : 0 <= l -> LargestFree b l [] (b, l).
Proof. intros. split_and!; simpl; try lia. constructor. Qed.

Lemma LargestFree_skip b l hob hobs r :
  0 <= l -> Clear b l hob -> LargestFree b l hobs r -> LargestFree b l (hob :: hobs) r.
Proof.
  intros Hl HC (H1 & H2 & H3 & H4 & H5). split_and!; try done.
  - constructor; [|done]. unfold Clear in *. lia.
  - intros b2 l2 ? ? ? HF. apply Forall_cons in HF as [_ HF]. by apply (H5 b2 l2).
Qed.

(** The parts of the region below and above an allocation inside it. *)
Lemma LargestFree_split b l m n hobs r1 r2 :
  b <= m -> 0 < n -> m + n <= b + l ->
  LargestFree b (m - b) hobs r1 -> LargestFree (m + n) (b + l - (m + n)) hobs r2 ->
  LargestFree b l ((m, n) :: hobs) (if snd r1 <=? snd r2 then r2 else r1).
Proof.
  intros Hb Hn Ht (A1 & A2 & A3 & A4 & A5) (B1 & B2 & B3 & B4 & B5).
  assert (HM : forall b2 l2, b <= b2 -> 0 < l2 -> b2 + l2 <= b + l ->
    Forall (Clear b2 l2) ((m, n) :: hobs) -> l2 <= snd r1 \/ l2 <= snd r2).
  { intros b2 l2 ? ? ? HF. apply Forall_cons in HF as [[HF0|HF0] HF]; simpl in HF0.
    - left. apply (A5 b2 l2); try lia. done.
    - right. apply (B5 b2 l2); try lia. done. }
  destruct (snd r1 <=? snd r2) eqn:E; bool_to_Z; split_and!; try lia;
    try (intros b2 l2 G1 G2 G3 G4; specialize (HM b2 l2 G1 G2 G3 G4); lia);
    (constructor; [unfold Clear; simpl; lia|done]).
Qed.

Lemma fits_lower b l m n hob :
  HobOk hob -> 0 < n -> HobFits b l hob -> Clear m n hob -> b <= m -> m + n <= b + l ->
  HobFits b (m - b) hob /\ HobFits (m + n) (b + l - (m + n)) hob.
Proof. unfold HobOk, HobFits, Clear. lia. Qed.

Lemma find_largest hobs : forall b l,
  0 <= b -> 0 <= l -> b + l < 2 ^ 64 ->
  Forall HobOk hobs -> HobsDisjoint hobs -> Forall (HobFits b l) hobs ->
  LargestFree b l hobs (FindLargestFreeRegion b l hobs).
Proof.
  induction hobs as [|[m n] hobs IH]; intros b l Hb Hl Ht HO HD HF; [by apply LargestFree_whole|].
  apply Forall_cons in HO as [(O1 & O2 & O3) HO]. apply Forall_cons in HF as [HF0 HF].
  destruct HD as [HD0 HD]. cbn [FindLargestFreeRegion]. cbn [fst snd] in *.
  rewrite !add64_small by lia.
  destruct ((b <=? m) && (m + n <=? b + l)) eqn:E; bool_to_Z.
  - rewrite !sub64_small by lia.
    assert (HLU : Forall (HobFits b (m - b)) hobs /\ Forall (HobFits (m + n) (b + l - (m + n))) hobs).
    { rewrite !Forall_forall in *. split; intros hob Hh; by eapply fits_lower; eauto. }
    destruct HLU as [HL HU].
    assert (IL : LargestFree b (m - b) hobs
      (if negb (m - b =? 0) then FindLargestFreeRegion b (m - b) hobs else (b, m - b))).
    { destruct (m - b =? 0) eqn:E0; bool_to_Z; simpl; [|apply IH; (done || lia)].
      split_and!; simpl; try lia. rewrite Forall_forall in *. intros hob Hh.
      destruct (HD0 hob Hh), (HL hob Hh) as [[?|?]|?]; unfold Clear; lia. }
    assert (IU : LargestFree (m + n) (b + l - (m + n)) hobs
      (if negb (b + l - (m + n) =? 0) then FindLargestFreeRegion (m + n) (b + l - (m + n)) hobs
       else (m + n, b + l - (m + n)))).
    { destruct (b + l - (m + n) =? 0) eqn:E0; bool_to_Z; simpl; [|apply IH; (done || lia)].
      split_and!; simpl; try lia. rewrite Forall_forall in *. intros hob Hh.
      destruct (HD0 hob Hh), (HU hob Hh) as [[?|?]|?]; unfold Clear in *; lia. }
    destruct (if negb (m - b =? 0) then _ else _) as [lb ll].
    destruct (if negb (b + l - (m + n) =? 0) then _ else _) as [ub ul].
    pose proof (LargestFree_split b l m n hobs (lb, ll) (ub, ul)) as HS. simpl in HS.
    destruct (ll <=? ul); apply HS; (done || lia).
  - apply LargestFree_skip; [lia| |by apply IH].
    destruct HF0 as [?|[? ?]]; [done|]. simpl in *. destruct E; bool_to_Z; lia.
Qed.

(** [FindLargestFreeRegion] returns a longest part of the region that
    meets none of the memory allocation HOBs, whatever their order. *)
Theorem FindLargestFreeRegion_largest b l hobs :
  0 <= b -> 0 <= l -> b + l < 2 ^ 64 ->
  Forall HobOk hobs -> HobsDisjoint hobs -> Forall (HobFits b l) hobs ->
  LargestFree b l hobs (FindLargestFreeRegion b l hobs).
Proof. apply find_largest. Qed.

Lemma FindLargestFreeRegion_largest_witness :
  LargestFree 0x1000 0x9000 [(0x8000, 0x1000); (0x2000, 0x2000)]
    (FindLargestFreeRegion 0x1000 0x9000 [(0x8000, 0x1000); (0x2000, 0x2000)]).
Proof.
  apply (FindLargestFreeRegion_largest 0x1000 0x9000 [(0x8000, 0x1000); (0x2000, 0x2000)]);
    [lia|lia|lia| | |]; cbn; repeat constructor; unfold HobFits, Clear; cbn; lia.
Defined.

(** ** Descriptors *)

(** What a memory descriptor says of each address in it. *)
Definition DescriptorProps (d : EFI_GCD_MEMORY_SPACE_DESCRIPTOR) (p : Props) : Prop :=
  let '(cap, att, mt, _, ih, dh) := p in
  cap = d_Capabilities d /\ att = d_Attributes d /\ mt = d_GcdMemoryType d /\
  ih = d_ImageHandle d /\ dh = d_DeviceHandle d.

Lemma descriptor_found hi Map e :
  MapOk hi Map -> hi < 2 ^ 64 -> e ∈ Map ->
  forall a, d_BaseAddress (BuildMemoryDescriptor e) <= a <
            d_BaseAddress (BuildMemoryDescriptor e) + d_Length (BuildMemoryDescriptor e) <-> covers a e = true.
Proof.
  intros HM Hhi He a. pose proof (Chain_In _ _ _ _ (mo_chain _ _ HM) He) as (? & ? & ?). simpl.
  rewrite covers_spec, sub64_small, add64_small by lia. lia.
Qed.

(** [CoreGetMemorySpaceDescriptor] finds every address of the map and
    reports a range around it all of whose addresses have the properties in the
    descriptor; an address outside the map is not found; the state is as
    before, the lock released. *)
Theorem CoreGetMemorySpaceDescriptor_correct mhi ihi st a :
  GcdOk mhi ihi st -> mhi < 2 ^ 64 -> 0 <= a < 2 ^ 64 ->
  exists Status Descriptor,
    CoreGetMemorySpaceDescriptor false a st = Done (Status, Descriptor, st) /\
    match Descriptor with
    | None => Status = EFI_NOT_FOUND /\ mhi <= a
    | Some d => Status = EFI_SUCCESS /\ a < mhi /\
        d_BaseAddress d <= a < d_BaseAddress d + d_Length d /\
        forall a', d_BaseAddress d <= a' < d_BaseAddress d + d_Length d ->
          exists p, PropsAt (mGcdMemorySpaceMap st) a' = Some p /\ DescriptorProps d p
    end.
Proof.
  intros HG Hhi Ha. unfold CoreGetMemorySpaceDescriptor, GetSpaceDescriptor.
  rewrite (acquire_ok _ _ _ _ HG). cbn [mbind Outcome_bind]. rewrite GetMap_SetLock.
  pose proof (go_memory _ _ _ HG) as HM. cbn [GetMap].
  pose proof (search_spec mhi (mGcdMemorySpaceMap st) a 1 ltac:(lia) ltac:(lia) ltac:(lia) (mo_chain _ _ HM)) as HS.
  destruct (a + 1 <=? mhi) eqn:E; bool_to_Z.
  - destruct HS as (pre & Run & post & x & z & -> & F). cbn [mbind Outcome_bind EFI_ERROR].
    destruct F as [F1 F2 F3 F4 F5 F6 F7 F8 F9]. destruct Run as [|e Run]; [done|].
    assert (HL : mGcdMemorySpaceMap st !! length pre = Some e).
    { rewrite F1, lookup_app_r, Nat.sub_diag by lia. done. }
    rewrite HL. cbn [mbind Outcome_bind]. unfold CoreReleaseGcdLock.
    cbn [GetLock SetLock mGcdMemorySpaceLock ASSERT mbind Outcome_bind].
    eexists _, (Some (BuildMemoryDescriptor e)). split; [f_equal; f_equal; apply (SetLock_same _ _ false _ HG)|].
    apply list_elem_of_lookup_2 in HL. pose proof (descriptor_found _ _ _ HM Hhi HL) as HD.
    split; [done|]. split; [lia|]. split.
    + apply HD, covers_spec. specialize (F7 _ eq_refl). destruct F3 as (? & ? & _). lia.
    + intros a' Ha'. apply HD in Ha'. exists (props e).
      by rewrite (PropsAt_elem _ _ _ _ _ (mo_chain _ _ HM) HL Ha').
  - destruct HS as (s & ->). cbn [mbind Outcome_bind EFI_ERROR]. unfold CoreReleaseGcdLock.
    cbn [GetLock SetLock mGcdMemorySpaceLock ASSERT mbind Outcome_bind].
    eexists _, None. split; [f_equal; f_equal; apply (SetLock_same _ _ false _ HG)|]. split; [done|lia].
Qed.

Lemma CoreGetMemorySpaceDescriptor_correct_witness :
  exists Status Descriptor,
    CoreGetMemorySpaceDescriptor false 0x1234 SampleGcd = Done (Status, Descriptor, SampleGcd) /\
    match Descriptor with
    | None => Status = EFI_NOT_FOUND /\ 2 ^ 48 <= 0x1234
    | Some d => Status = EFI_SUCCESS /\ 0x1234 < 2 ^ 48 /\
        d_BaseAddress d <= 0x1234 < d_BaseAddress d + d_Length d /\
        forall a', d_BaseAddress d <= a' < d_BaseAddress d + d_Length d ->
          exists p, PropsAt (mGcdMemorySpaceMap SampleGcd) a' = Some p /\ DescriptorProps d p
    end.
Proof.
  apply (CoreGetMemorySpaceDescriptor_correct (2 ^ 48) (2 ^ 16) SampleGcd 0x1234);
    [apply SampleGcd_ok|lia|lia].
Defined.

(** ** Inputs the services do not handle *)

(** A pool that never runs out. *)
Definition PoolAlways (_ : Z) : bool := true.

(** Adding a range that wraps around the 64-bit address space is not
    refused: the search compares the wrapped last address only, so that the
    service reports success and leaves a map that no longer tiles the address
    space. *)
Theorem CoreConvertSpace_accepts_wraparound :
  exists st',
    CoreInternalAddMemorySpace PoolAlways None EfiGcdMemoryTypeSystemMemory 5 (2 ^ 64 - 2) 0
      (InitialGcd 48 16) = Done (EFI_SUCCESS, st') /\
    ~ Chain 0 (mGcdMemorySpaceMap st') (2 ^ 48).
Proof. eexists. split; [vm_compute; reflexivity|].
  intros (_ & _ & _ & H & _). by apply H. Qed.

(** A length near 2^64 makes the end of the range wrap around in the bottom-up
    search: with 60 KiB of system memory, a request for 2^64 - 0x800 bytes aligned to
    8 KiB succeeds, hands out the address 0x2000, although a range of that length
    fits nowhere, and leaves an entry that ends before it begins. *)
Theorem CoreAllocateSpace_accepts_wraparound :
  exists st',
    CoreAllocateMemorySpace PoolAlways EfiGcdAllocateAnySearchBottomUp EfiGcdMemoryTypeSystemMemory 13
      (2 ^ 64 - 0x800) (Some 0) 7 0 SampleGcd = Done (EFI_SUCCESS, Some 0x2000, st') /\
    ~ Chain 0 (mGcdMemorySpaceMap st') (2 ^ 48).
Proof. eexists. split; [vm_compute; reflexivity|].
  intros (_ & _ & _ & _ & _ & H & _). by apply H. Qed.

(** Two pages of system memory, the first of them read protected. *)
Definition TwoPages : GcdState :=
  MkGcd [MkEntry 0 0xFFF 0 0 0 0 0 0;
         MkEntry 0x1000 0x1FFF (Z.lor EFI_MEMORY_RUNTIME EFI_MEMORY_RP) EFI_MEMORY_RP 2 0 0 0;
         MkEntry 0x2000 0x2FFF (Z.lor EFI_MEMORY_RUNTIME EFI_MEMORY_RP) 0 2 0 0 0;
         MkEntry 0x3000 (2 ^ 48 - 1) 0 0 0 0 0 0]
    [InitialEntry 16] false false 5 [].

(** Setting an attribute that is neither a cache nor an access attribute is
    meant to leave those as they are, but an entry's access attributes leak
    into the entries after it: the second page becomes read protected although
    nobody asked for it. *)
Theorem SetMemorySpaceAttributes_leaks :
  GcdOk (2 ^ 48) (2 ^ 16) TwoPages /\
  exists st',
    CoreSetMemorySpaceAttributes PoolAlways None 0x1000 0x2000 EFI_MEMORY_RUNTIME TwoPages
      = Done (EFI_SUCCESS, st') /\
    PropsAt (mGcdMemorySpaceMap TwoPages) 0x2000 =
      Some (Z.lor EFI_MEMORY_RUNTIME EFI_MEMORY_RP, 0, 2, 0, 0, 0) /\
    PropsAt (mGcdMemorySpaceMap st') 0x2000 =
      Some (Z.lor EFI_MEMORY_RUNTIME EFI_MEMORY_RP, Z.lor EFI_MEMORY_RUNTIME EFI_MEMORY_RP, 2, 0, 0, 0).
Proof.
  split; [|eexists; split_and!; vm_compute; reflexivity].
  split; [| |done|done|done]; split; vm_compute; repeat split; congruence.
Qed.

(** The top-down search misses a range that ends exactly at the last
    address allowed, although the bottom-up search finds it. *)
Theorem CoreAllocateSpace_top_down_misses_exact_fit :
  CoreAllocateMemorySpace PoolAlways EfiGcdAllocateMaxAddressSearchTopDown
    EfiGcdMemoryTypeSystemMemory 12 0xF000 (Some 0xFFFF) 7 0 SampleGcd
    = Done (EFI_NOT_FOUND, Some 0xFFFF, SampleGcd) /\
  exists st', CoreAllocateMemorySpace PoolAlways EfiGcdAllocateMaxAddressSearchBottomUp
    EfiGcdMemoryTypeSystemMemory 12 0xF000 (Some 0xFFFF) 7 0 SampleGcd
    = Done (EFI_SUCCESS, Some 0x1000, st').
Proof. split; [vm_compute; reflexivity|]. eexists. vm_compute. reflexivity. Qed.

(** Adding a region of system memory that holds no whole page is not
    refused: the page length underflows to the whole address space but a page,
    and the service goes on to try its pages one by one. *)
Theorem CoreAddMemorySpace_page_length_underflows :
  PageAlignLength (sub64 (add64 0x1001 0x10) (PageAlignAddress 0x1001)) = 2 ^ 64 - 0x1000 /\
  exists st',
    CoreAddMemorySpace PoolAlways None 7 EfiGcdMemoryTypeSystemMemory 0x1001 0x10 0 (InitialGcd 48 16) =
    AddPagesLoop PoolAlways (Z.to_nat (2 ^ 52 - 1)) EfiGcdMemoryTypeSystemMemory 0 7
      0x2000 (2 ^ 64 - 0x1000) EFI_NOT_FOUND st'.
Proof.
  assert (HA : PageAlignAddress 0x1001 = 0x2000) by (vm_compute; reflexivity).
  assert (HL : PageAlignLength (sub64 (add64 0x1001 0x10) 0x2000) = 2 ^ 64 - 0x1000) by (vm_compute; reflexivity).
  assert (HN : (2 ^ 64 - 0x1000) / EFI_PAGE_SIZE = 2 ^ 52 - 1) by (vm_compute; reflexivity).
  unfold CoreAddMemorySpace. rewrite HA, HL, HN. split; [done|]. generalize (Z.to_nat (2 ^ 52 - 1)) as n.
  clear HN. intros n.
  destruct (CoreInternalAddMemorySpace _ _ _ _ _ _ _) as [[Status st]| |] eqn:E;
    vm_compute in E; try discriminate E. injection E as <- <-.
  cbn [mbind Outcome_bind EFI_ERROR].
  match goal with |- context [CoreAllocateMemorySpace ?a ?b ?c ?d ?e ?f ?g ?h ?s] =>
    destruct (CoreAllocateMemorySpace a b c d e f g h s) as [[[Status Base] st]| |] eqn:E end;
    vm_compute in E; try discriminate E. injection E as <- <- <-.
  eexists. reflexivity.
Qed.
