(* ===== verification/GcdSpaceMap.v ===== *)
(** * Snapshots of the GCD maps

    [CoreGetMemorySpaceMap] and [CoreGetIoSpaceMap] of
    [src/MdeModulePkg/Core/Dxe/Gcd/Gcd.c], which copy a map into a buffer of
    pool memory.  The memory services drop the lock to allocate the buffer,
    and the allocation may itself change the map: they then count again and,
    if the number of entries differs, start over.

    [AllocatePool] and [FreePool] are arbitrary functions on the GCD state;
    the buffer is represented by the number of descriptors it has room for,
    and writing more than that ends the run. *)
From Stdlib Require Import ZArith Lia.
From stdpp Require Import base option list.
From S2P Require Import Prelude Gcd GcdMap GcdWalk GcdFacts GcdAlloc GcdTheorems.

Section SpaceMaps.
(** The pool: [AllocatePool n] is asked for room for [n] descriptors, and
    returns NULL ([None]) or a buffer; it may run GCD services. *)
Variable AllocatePool : Z -> GcdState -> option GcdState.
Variable FreePool : GcdState -> GcdState.

(** The loop that fills in the buffer, [Room] being what is left of it. *)
Fixpoint FillMap {D : Type} (Build : EFI_GCD_MAP_ENTRY -> D) (Room : Z) (Map : list EFI_GCD_MAP_ENTRY) : Outcome (list D) :=
  match Map with
  | [] => Done []
  | Entry :: Map =>
    ASSERT (0 <? Room) ;;
    Rest ← FillMap Build (Room - 1) Map;
    Done (Build Entry :: Rest)
  end.

(** The [while (TRUE)] loop of [CoreGetMemorySpaceMap], entered with the lock
    held; [Buffer] is the size of the buffer at [*MemorySpaceMap], if any. *)
Fixpoint SpaceMapLoop (fuel : nat) (NumberOfDescriptors : Z) (Buffer : option Z) (st : GcdState)
  : Outcome (EFI_STATUS * Z * option (list EFI_GCD_MEMORY_SPACE_DESCRIPTOR) * GcdState) :=
  let DescriptorCount := CoreCountGcdMapEntry (mGcdMemorySpaceMap st) in
  match (if DescriptorCount =? NumberOfDescriptors then Buffer else None) with
  | Some Room =>
    Descriptors ← FillMap BuildMemoryDescriptor Room (mGcdMemorySpaceMap st);
    st ← CoreReleaseGcdLock false st;
    Done (EFI_SUCCESS, NumberOfDescriptors, Some Descriptors, st)
  | None =>
    match fuel with
    | O => OutOfFuel
    | S fuel =>
      st ← CoreReleaseGcdLock false st;
      let st := match Buffer with Some _ => FreePool st | None => st end in
      match AllocatePool DescriptorCount st with
      | None => Done (EFI_OUT_OF_RESOURCES, 0, None, st)
      | Some st =>
        st ← CoreAcquireGcdLock false st;
        SpaceMapLoop fuel DescriptorCount (Some DescriptorCount) st
      end
    end
  end.

(** The result: the status, [*NumberOfDescriptors], the descriptors in the
    buffer at [*MemorySpaceMap], and the state. *)
Definition CoreGetMemorySpaceMap (fuel : nat) (NumberIsNull MapIsNull : bool) (st : GcdState)
  : Outcome (EFI_STATUS * Z * option (list EFI_GCD_MEMORY_SPACE_DESCRIPTOR) * GcdState) :=
  if NumberIsNull then Done (EFI_INVALID_PARAMETER, 0, None, st)
  else if MapIsNull then Done (EFI_INVALID_PARAMETER, 0, None, st)
  else
    st ← CoreAcquireGcdLock false st;
    SpaceMapLoop fuel 0 None st.

Definition CoreGetIoSpaceMap (NumberIsNull MapIsNull : bool) (st : GcdState)
  : Outcome (EFI_STATUS * Z * option (list EFI_GCD_IO_SPACE_DESCRIPTOR) * GcdState) :=
  if NumberIsNull then Done (EFI_INVALID_PARAMETER, 0, None, st)
  else if MapIsNull then Done (EFI_INVALID_PARAMETER, 0, None, st)
  else
    st ← CoreAcquireGcdLock true st;
    let NumberOfDescriptors := CoreCountGcdMapEntry (mGcdIoSpaceMap st) in
    match AllocatePool NumberOfDescriptors st with
    | None =>
      st ← CoreReleaseGcdLock true st;
      Done (EFI_OUT_OF_RESOURCES, NumberOfDescriptors, None, st)
    | Some st =>
      Descriptors ← FillMap BuildIoDescriptor NumberOfDescriptors (mGcdIoSpaceMap st);
      st ← CoreReleaseGcdLock true st;
      Done (EFI_SUCCESS, NumberOfDescriptors, Some Descriptors, st)
    end.

(** ** Facts *)

(** The descriptors cover the addresses from [lo] up to [hi], one after the other. *)
Fixpoint Tiles (lo : Z) (ds : list EFI_GCD_MEMORY_SPACE_DESCRIPTOR) (hi : Z) : Prop :=
  match ds with
  | [] => lo = hi
  | d :: ds => d_BaseAddress d = lo /\ 0 < d_Length d /\ Tiles (lo + d_Length d) ds hi
  end.

Lemma count_length (l : list EFI_GCD_MAP_ENTRY) : CoreCountGcdMapEntry l = Z.of_nat (length l).
Proof.
  unfold CoreCountGcdMapEntry. change (Z.of_nat (length l)) with (0 + Z.of_nat (length l)). generalize 0 as n.
  induction l as [|e l IH]; intros n; cbn [foldl length]; [lia|]. rewrite IH. lia.
Qed.

Lemma fill_map {D} (Build : EFI_GCD_MAP_ENTRY -> D) Map : forall Room,
  Z.of_nat (length Map) <= Room -> FillMap Build Room Map = Done (Build <$> Map).
Proof.
  induction Map as [|e Map IH]; intros Room HR; [done|]. cbn [FillMap length] in *.
  rewrite (proj2 (Z.ltb_lt _ _)) by lia. cbn [ASSERT mbind Outcome_bind]. by rewrite IH by lia.
Qed.

Lemma chain_tiles lo Map hi :
  0 <= lo -> hi < 2 ^ 64 -> Chain lo Map hi -> Tiles lo (BuildMemoryDescriptor <$> Map) hi.
Proof.
  revert lo. induction Map as [|e Map IH]; intros lo Hlo Hhi HC; [done|]. destruct HC as (HB & HE & HC).
  pose proof (Chain_le _ _ _ HC). cbn [fmap list_fmap Tiles BuildMemoryDescriptor d_BaseAddress d_Length].
  assert (HL : add64 (sub64 (e_EndAddress e) (e_BaseAddress e)) 1 = e_EndAddress e + 1 - lo).
  { rewrite sub64_small by lia. rewrite add64_small by lia. lia. }
  rewrite HL. split_and!; [done|lia|]. replace (lo + (e_EndAddress e + 1 - lo)) with (e_EndAddress e + 1) by lia.
  apply IH; [lia|done|done].
Qed.

(** The pool leaves a well-formed GCD well formed. *)
Definition PoolKeeps (mhi ihi : Z) : Prop :=
  (forall n st st', GcdOk mhi ihi st -> AllocatePool n st = Some st' -> GcdOk mhi ihi st') /\
  (forall st, GcdOk mhi ihi st -> GcdOk mhi ihi (FreePool st)).

(** What a finished call has returned. *)
Definition Snapshot (mhi ihi : Z)
    (r : EFI_STATUS * Z * option (list EFI_GCD_MEMORY_SPACE_DESCRIPTOR) * GcdState) : Prop :=
  let '(Status, NumberOfDescriptors, Descriptors, st) := r in
  GcdOk mhi ihi st /\
  match Descriptors with
  | Some ds => Status = EFI_SUCCESS /\ NumberOfDescriptors = Z.of_nat (length ds) /\
      ds = BuildMemoryDescriptor <$> mGcdMemorySpaceMap st /\ Tiles 0 ds mhi
  | None => Status = EFI_OUT_OF_RESOURCES /\ NumberOfDescriptors = 0
  end.

Lemma locked_release mhi ihi st : GcdOk mhi ihi st -> CoreReleaseGcdLock false (SetLock false true st) = Done st.
Proof. intros HG. unfold CoreReleaseGcdLock. cbn [ASSERT mbind Outcome_bind]. by rewrite <- (SetLock_same _ _ false st HG) at 2. Qed.

(** One round of the loop. *)
Lemma loop_round mhi ihi fuel n (Buffer : option Z) st :
  GcdOk mhi ihi st -> (forall m, Buffer = Some m -> m = n) ->
  SpaceMapLoop fuel n Buffer (SetLock false true st) =
  if (Z.of_nat (length (mGcdMemorySpaceMap st)) =? n) && (if Buffer is Some _ then true else false)
  then Done (EFI_SUCCESS, n, Some (BuildMemoryDescriptor <$> mGcdMemorySpaceMap st), st)
  else match fuel with
  | O => OutOfFuel
  | S fuel =>
    let st1 := match Buffer with Some _ => FreePool st | None => st end in
    match AllocatePool (Z.of_nat (length (mGcdMemorySpaceMap st))) st1 with
    | None => Done (EFI_OUT_OF_RESOURCES, 0, None, st1)
    | Some st2 =>
      st3 ← CoreAcquireGcdLock false st2;
      SpaceMapLoop fuel (Z.of_nat (length (mGcdMemorySpaceMap st))) (Some (Z.of_nat (length (mGcdMemorySpaceMap st)))) st3
    end
  end.
Proof.
  intros HG HB. destruct fuel as [|fuel]; cbn [SpaceMapLoop]; change (mGcdMemorySpaceMap (SetLock false true st)) with (mGcdMemorySpaceMap st);
    rewrite count_length, (locked_release _ _ _ HG); cbn [mbind Outcome_bind];
    destruct (Z.eqb_spec (Z.of_nat (length (mGcdMemorySpaceMap st))) n) as [E|E]; cbn [andb]; try reflexivity;
    (destruct Buffer as [m|]; [|reflexivity]); rewrite (HB m eq_refl), fill_map by lia; reflexivity.
Qed.

Lemma loop_snapshot mhi ihi : mhi < 2 ^ 64 -> PoolKeeps mhi ihi ->
  forall fuel n Buffer st, GcdOk mhi ihi st -> (forall m, Buffer = Some m -> m = n) ->
  match SpaceMapLoop fuel n Buffer (SetLock false true st) with
  | Done r => Snapshot mhi ihi r
  | Asserted => False
  | OutOfFuel => True
  end.
Proof.
  intros Hhi [HA HFr]. induction fuel as [|fuel IH]; intros n Buffer st HG HB; rewrite (loop_round mhi ihi) by done.
  all: destruct (_ && _) eqn:E.
  1, 3: split; [done|]; apply andb_true_iff in E as [E _]; apply Z.eqb_eq in E; rewrite length_fmap;
    split_and!; [done|done|done|]; apply chain_tiles; [done|done|apply (mo_chain _ _ (go_memory _ _ _ HG))].
  - done.
  - cbv zeta. set (st1 := match Buffer with Some _ => FreePool st | None => st end).
    assert (HG1 : GcdOk mhi ihi st1) by (unfold st1; destruct Buffer; [by apply HFr|done]).
    destruct (AllocatePool _ st1) as [st2|] eqn:EA; [|done].
    apply HA in EA; [|done]. rewrite (acquire_ok _ _ _ _ EA). cbn [mbind Outcome_bind]. apply IH; [done|]. by intros m [= <-].
Qed.

(** A snapshot of the memory map is consistent although the lock is
    dropped while the buffer is allocated: whatever GCD services the allocation
    runs, the descriptors returned are those of the map as it is when the call
    returns, they cover the whole address space without gaps or overlaps, the
    buffer is never overrun, and an allocation failure leaves no descriptors;
    and the call returns as soon as an allocation leaves the number of
    entries unchanged. *)
Theorem CoreGetMemorySpaceMap_snapshot mhi ihi fuel st :
  GcdOk mhi ihi st -> mhi < 2 ^ 64 -> PoolKeeps mhi ihi ->
  match CoreGetMemorySpaceMap fuel false false st with
  | Done r => Snapshot mhi ihi r
  | Asserted => False
  | OutOfFuel => True
  end /\
  ((forall n st st', AllocatePool n st = Some st' -> length (mGcdMemorySpaceMap st') = length (mGcdMemorySpaceMap st)) ->
   (1 <= fuel)%nat -> exists r, CoreGetMemorySpaceMap fuel false false st = Done r).
Proof.
  intros HG Hhi HP. unfold CoreGetMemorySpaceMap. rewrite (acquire_ok _ _ _ _ HG). cbn [mbind Outcome_bind].
  split; [by apply loop_snapshot|]. intros Hsame Hf. destruct fuel as [|fuel]; [lia|].
  rewrite (loop_round mhi ihi) by done. rewrite andb_false_r. cbv zeta.
  destruct (AllocatePool _ st) as [st2|] eqn:EA; [|eauto]. pose proof (Hsame _ _ _ EA) as HL.
  apply (proj1 HP) in EA; [|done]. rewrite (acquire_ok _ _ _ _ EA). cbn [mbind Outcome_bind].
  rewrite (loop_round mhi ihi) by (try done; by intros m [= <-]). rewrite HL, Z.eqb_refl. cbn [andb]. eauto.
Qed.

(** [CoreGetIoSpaceMap] returns the descriptors of the I/O map, one per
    entry and no more than the buffer holds; when the buffer cannot be
    allocated it fails; in both cases the lock is released. *)
Theorem CoreGetIoSpaceMap_snapshot mhi ihi st :
  GcdOk mhi ihi st ->
  (forall n st1 st2, AllocatePool n st1 = Some st2 ->
     mGcdIoSpaceMap st2 = mGcdIoSpaceMap st1 /\ mGcdIoSpaceLock st2 = mGcdIoSpaceLock st1) ->
  exists Status n ds st', CoreGetIoSpaceMap false false st = Done (Status, n, ds, st') /\
    mGcdIoSpaceLock st' = false /\ mGcdIoSpaceMap st' = mGcdIoSpaceMap st /\
    n = Z.of_nat (length (mGcdIoSpaceMap st)) /\
    if EFI_ERROR Status then ds = None else ds = Some (BuildIoDescriptor <$> mGcdIoSpaceMap st).
Proof.
  intros HG HP. unfold CoreGetIoSpaceMap. rewrite (acquire_ok _ _ _ _ HG). cbn [mbind Outcome_bind].
  change (mGcdIoSpaceMap (SetLock true true st)) with (mGcdIoSpaceMap st). rewrite count_length.
  destruct (AllocatePool _ _) as [st2|] eqn:EA.
  - apply HP in EA as [HM HL]. cbn in HM, HL. rewrite HM, fill_map by lia. cbn [mbind Outcome_bind].
    unfold CoreReleaseGcdLock. cbn [GetLock]. rewrite HL. cbn [ASSERT mbind Outcome_bind].
    do 4 eexists. split; [reflexivity|]. cbn. by rewrite HM.
  - do 4 eexists. split; [reflexivity|]. done.
Qed.
End SpaceMaps.

(** ** A run *)

(** A pool whose first allocation takes a page from the GCD, which splits an
    entry of the memory map. *)
Definition SplittingPool (n : Z) (st : GcdState) : option GcdState :=
  if (length (mGcdMemorySpaceMap st) <=? 3)%nat then
    match CoreAllocateSpace (fun _ => true) GCD_ALLOCATE_MEMORY_OPERATION EfiGcdAllocateAnySearchBottomUp
            EfiGcdMemoryTypeSystemMemory 0 12 0x1000 (Some 0) 7 0 st with
    | Done (_, _, st') => Some st'
    | _ => None
    end
  else Some st.

Lemma SplittingPool_args : AllocArgs GCD_ALLOCATE_MEMORY_OPERATION EfiGcdAllocateAnySearchBottomUp
  EfiGcdMemoryTypeSystemMemory 0 12 0x1000 0 7.
Proof. split; try done; try (by left); vm_compute; split; congruence. Qed.

Lemma SplittingPool_keeps : PoolKeeps SplittingPool id (2 ^ 48) (2 ^ 16).
Proof.
  split; [|done]. intros n st st' HG. unfold SplittingPool. destruct (_ <=? _)%nat; [|by intros [= <-]].
  destruct (allocate_ok (fun _ => true) GCD_ALLOCATE_MEMORY_OPERATION EfiGcdAllocateAnySearchBottomUp
    EfiGcdMemoryTypeSystemMemory 0 12 0x1000 0 7 0 (2 ^ 48) (2 ^ 16) st HG) as (Status & b' & st2 & -> & HG2 & _);
    [lia|lia|apply SplittingPool_args|]. by intros [= <-].
Qed.

Lemma CoreGetMemorySpaceMap_snapshot_witness :
  match CoreGetMemorySpaceMap SplittingPool id 3 false false SampleGcd with
  | Done r => Snapshot (2 ^ 48) (2 ^ 16) r
  | Asserted => False
  | OutOfFuel => True
  end.
Proof.
  apply (CoreGetMemorySpaceMap_snapshot SplittingPool id (2 ^ 48) (2 ^ 16) 3 SampleGcd SampleGcd_ok); [lia|].
  apply SplittingPool_keeps.
Defined.

(** In that run the first round's count is out of date, and the second round
    allocates again. *)
Lemma SplittingPool_rounds :
  (exists n ds st, CoreGetMemorySpaceMap SplittingPool id 2 false false SampleGcd = Done (EFI_SUCCESS, n, Some ds, st)) /\
  CoreGetMemorySpaceMap SplittingPool id 1 false false SampleGcd = OutOfFuel.
Proof. split; [do 3 eexists|]; vm_compute; reflexivity. Qed.

Lemma CoreGetIoSpaceMap_snapshot_witness :
  exists Status n ds st', CoreGetIoSpaceMap (fun _ st => Some st) false false SampleGcd = Done (Status, n, ds, st') /\
    mGcdIoSpaceLock st' = false /\ mGcdIoSpaceMap st' = mGcdIoSpaceMap SampleGcd /\
    n = Z.of_nat (length (mGcdIoSpaceMap SampleGcd)) /\
    if EFI_ERROR Status then ds = None else ds = Some (BuildIoDescriptor <$> mGcdIoSpaceMap SampleGcd).
Proof.
  apply (CoreGetIoSpaceMap_snapshot (fun _ st => Some st) (2 ^ 48) (2 ^ 16) SampleGcd SampleGcd_ok).
  intros n st1 st2 [= <-]. split; reflexivity.
Defined.
