(* ===== verification/Event.v ===== *)
(** * Events, task priority levels and timers (model)

    [src/MdeModulePkg/Core/Dxe/Event/Event.c], [Tpl.c] and [Timer.c], and the
    locks of [src/MdeModulePkg/Core/Dxe/Library/Library.c].

    Lowering the task priority level dispatches the pending event
    notifications, whose functions may call any of these services again, and
    every service lowers the level again when it releases a lock.  The
    services are therefore defined over the function [Restore] that stands for
    [CoreRestoreTpl], and [CoreRestoreTpl] itself closes the loop, with fuel
    for the number of nested calls and loop rounds.

    A notification function is arbitrary code: a program [Prog] over the
    services that also reads and writes a world of its own, of the arbitrary
    type [W].  The timer interrupt is one of the calls a program can make, so
    that a tick may fall between any two calls.

    An event is named by the address of its IEVENT; [Events] holds those whose
    Signature is EVENT_SIGNATURE.  Reading a field of a closed event ends the
    run as a failed assertion does.  A [LIST_ENTRY] is the list of the events
    linked into it, and a flag of the event says whether its ForwardLink is
    not NULL. *)
From Stdlib Require Import ZArith Lia.
From stdpp Require Import base option gmap functions list.
From S2P Require Import Prelude.

Definition TPL_APPLICATION : Z := 4.
Definition TPL_CALLBACK : Z := 8.
Definition TPL_NOTIFY : Z := 16.
Definition TPL_HIGH_LEVEL : Z := 31.
Definition VALID_TPL (t : Z) : bool := t <=? TPL_HIGH_LEVEL.

Definition EVT_TIMER : Z := 0x80000000.
Definition EVT_RUNTIME : Z := 0x40000000.
Definition EVT_NOTIFY_WAIT : Z := 0x100.
Definition EVT_NOTIFY_SIGNAL : Z := 0x200.
Definition EVT_SIGNAL_EXIT_BOOT_SERVICES : Z := 0x201.
Definition EVT_SIGNAL_VIRTUAL_ADDRESS_CHANGE : Z := 0x60000202.
Definition EVT_EXFLAG_EVENT_GROUP : Z := 0x01.
Definition EVT_EXFLAG_EVENT_PROTOCOL_NOTIFICATION : Z := 0x02.

Definition TimerCancel : Z := 0.
Definition TimerPeriodic : Z := 1.
Definition TimerRelative : Z := 2.

(** GUIDs as 128-bit numbers, their fields from the most significant down. *)
Definition gEfiEventExitBootServicesGuid : Z := 0x27ABF055B1B84C268048748F37BAA2DF.
Definition gEfiEventVirtualAddressChangeGuid : Z := 0x13FA7698C83149C787EA8F43FCC25196.
Definition gIdleLoopEventGuid : Z := 0x3c8d294c5fc34451bb31c4c032295e6c.

(** The valid event types. *)
Definition mEventTable : list Z :=
  [ Z.lor EVT_TIMER EVT_NOTIFY_SIGNAL; EVT_TIMER; EVT_NOTIFY_WAIT; EVT_NOTIFY_SIGNAL;
    EVT_SIGNAL_EXIT_BOOT_SERVICES; EVT_SIGNAL_VIRTUAL_ADDRESS_CHANGE; 0;
    Z.lor EVT_TIMER EVT_NOTIFY_WAIT ].

(** ** State *)

(** A notification function: [CoreCheckTimers], [EfiEventEmptyFunction], or
    the function of a driver. *)
Inductive NotifyFunctionId :=
| FnCheckTimers
| FnEmpty
| FnDriver (n : Z).

Record IEVENT := MkEvent {
  ev_Type : Z;
  ev_SignalCount : Z;
  ev_SignalLinked : bool;
  ev_NotifyTpl : Z;
  ev_NotifyFunction : option NotifyFunctionId;
  ev_NotifyContext : Z;
  ev_EventGroup : Z;
  ev_NotifyLinked : bool;
  ev_ExFlag : Z;
  ev_RuntimeLinked : bool;
  ev_TimerLinked : bool;
  ev_TriggerTime : Z;
  ev_Period : Z
}.

Definition set_SignalCount (x : Z) (s : IEVENT) : IEVENT :=
  MkEvent (ev_Type s) x (ev_SignalLinked s) (ev_NotifyTpl s) (ev_NotifyFunction s)
    (ev_NotifyContext s) (ev_EventGroup s) (ev_NotifyLinked s) (ev_ExFlag s) (ev_RuntimeLinked
    s) (ev_TimerLinked s) (ev_TriggerTime s) (ev_Period s).
Definition set_NotifyLinked (x : bool) (s : IEVENT) : IEVENT :=
  MkEvent (ev_Type s) (ev_SignalCount s) (ev_SignalLinked s) (ev_NotifyTpl s) (ev_NotifyFunction
    s) (ev_NotifyContext s) (ev_EventGroup s) x (ev_ExFlag s) (ev_RuntimeLinked s)
    (ev_TimerLinked s) (ev_TriggerTime s) (ev_Period s).
Definition set_TimerLinked (x : bool) (s : IEVENT) : IEVENT :=
  MkEvent (ev_Type s) (ev_SignalCount s) (ev_SignalLinked s) (ev_NotifyTpl s) (ev_NotifyFunction
    s) (ev_NotifyContext s) (ev_EventGroup s) (ev_NotifyLinked s) (ev_ExFlag s)
    (ev_RuntimeLinked s) x (ev_TriggerTime s) (ev_Period s).
Definition set_TriggerTime (x : Z) (s : IEVENT) : IEVENT :=
  MkEvent (ev_Type s) (ev_SignalCount s) (ev_SignalLinked s) (ev_NotifyTpl s) (ev_NotifyFunction
    s) (ev_NotifyContext s) (ev_EventGroup s) (ev_NotifyLinked s) (ev_ExFlag s)
    (ev_RuntimeLinked s) (ev_TimerLinked s) x (ev_Period s).
Definition set_Period (x : Z) (s : IEVENT) : IEVENT :=
  MkEvent (ev_Type s) (ev_SignalCount s) (ev_SignalLinked s) (ev_NotifyTpl s) (ev_NotifyFunction
    s) (ev_NotifyContext s) (ev_EventGroup s) (ev_NotifyLinked s) (ev_ExFlag s)
    (ev_RuntimeLinked s) (ev_TimerLinked s) (ev_TriggerTime s) x.

(** The three locks, each with the level it raises to. *)
Inductive LockId := gEventQueueLock | mEfiTimerLock | mEfiSystemTimeLock.
#[export] Instance LockId_eq_dec : EqDecision LockId.
Proof. solve_decision. Defined.

Record EFI_LOCK := MkLock { lk_OwnerTpl : Z; lk_Acquired : bool }.

Definition LockTpl (l : LockId) : Z :=
  match l with
  | gEventQueueLock => TPL_HIGH_LEVEL
  | mEfiTimerLock => TPL_HIGH_LEVEL - 1
  | mEfiSystemTimeLock => TPL_HIGH_LEVEL
  end.

Section Events.

(** The state of the drivers' notification functions. *)
Context {W : Type}.

(** The module variables, the heap of events, and the world of the drivers;
    [NextEvent] is the next address the pool hands out, [UnregisterCalls] the
    events passed to [CoreUnregisterProtocolNotify]. *)
Record EventState := MkState {
  gEfiCurrentTpl : Z;
  gEventPending : Z;
  gEventQueue : Z -> list Z;
  gEventSignalQueue : list Z;
  RuntimeEventHead : list Z;
  mEfiTimerList : list Z;
  mEfiSystemTime : Z;
  mEfiCheckTimerEvent : Z;
  gIdleLoopEvent : Z;
  Locks : LockId -> EFI_LOCK;
  InterruptState : bool;
  Events : gmap Z IEVENT;
  NextEvent : Z;
  UnregisterCalls : list Z;
  World : W
}.

Definition set_Tpl (x : Z) (s : EventState) : EventState :=
  MkState x (gEventPending s) (gEventQueue s) (gEventSignalQueue s) (RuntimeEventHead s)
    (mEfiTimerList s) (mEfiSystemTime s) (mEfiCheckTimerEvent s) (gIdleLoopEvent s) (Locks s)
    (InterruptState s) (Events s) (NextEvent s) (UnregisterCalls s) (World s).
Definition set_Pending (x : Z) (s : EventState) : EventState :=
  MkState (gEfiCurrentTpl s) x (gEventQueue s) (gEventSignalQueue s) (RuntimeEventHead s)
    (mEfiTimerList s) (mEfiSystemTime s) (mEfiCheckTimerEvent s) (gIdleLoopEvent s) (Locks s)
    (InterruptState s) (Events s) (NextEvent s) (UnregisterCalls s) (World s).
Definition set_Queue (x : Z -> list Z) (s : EventState) : EventState :=
  MkState (gEfiCurrentTpl s) (gEventPending s) x (gEventSignalQueue s) (RuntimeEventHead s)
    (mEfiTimerList s) (mEfiSystemTime s) (mEfiCheckTimerEvent s) (gIdleLoopEvent s) (Locks s)
    (InterruptState s) (Events s) (NextEvent s) (UnregisterCalls s) (World s).
Definition set_SignalQueue (x : list Z) (s : EventState) : EventState :=
  MkState (gEfiCurrentTpl s) (gEventPending s) (gEventQueue s) x (RuntimeEventHead s)
    (mEfiTimerList s) (mEfiSystemTime s) (mEfiCheckTimerEvent s) (gIdleLoopEvent s) (Locks s)
    (InterruptState s) (Events s) (NextEvent s) (UnregisterCalls s) (World s).
Definition set_RuntimeHead (x : list Z) (s : EventState) : EventState :=
  MkState (gEfiCurrentTpl s) (gEventPending s) (gEventQueue s) (gEventSignalQueue s) x
    (mEfiTimerList s) (mEfiSystemTime s) (mEfiCheckTimerEvent s) (gIdleLoopEvent s) (Locks s)
    (InterruptState s) (Events s) (NextEvent s) (UnregisterCalls s) (World s).
Definition set_TimerList (x : list Z) (s : EventState) : EventState :=
  MkState (gEfiCurrentTpl s) (gEventPending s) (gEventQueue s) (gEventSignalQueue s)
    (RuntimeEventHead s) x (mEfiSystemTime s) (mEfiCheckTimerEvent s) (gIdleLoopEvent s) (Locks
    s) (InterruptState s) (Events s) (NextEvent s) (UnregisterCalls s) (World s).
Definition set_SystemTime (x : Z) (s : EventState) : EventState :=
  MkState (gEfiCurrentTpl s) (gEventPending s) (gEventQueue s) (gEventSignalQueue s)
    (RuntimeEventHead s) (mEfiTimerList s) x (mEfiCheckTimerEvent s) (gIdleLoopEvent s) (Locks
    s) (InterruptState s) (Events s) (NextEvent s) (UnregisterCalls s) (World s).
Definition set_CheckTimerEvent (x : Z) (s : EventState) : EventState :=
  MkState (gEfiCurrentTpl s) (gEventPending s) (gEventQueue s) (gEventSignalQueue s)
    (RuntimeEventHead s) (mEfiTimerList s) (mEfiSystemTime s) x (gIdleLoopEvent s) (Locks s)
    (InterruptState s) (Events s) (NextEvent s) (UnregisterCalls s) (World s).
Definition set_IdleLoopEvent (x : Z) (s : EventState) : EventState :=
  MkState (gEfiCurrentTpl s) (gEventPending s) (gEventQueue s) (gEventSignalQueue s)
    (RuntimeEventHead s) (mEfiTimerList s) (mEfiSystemTime s) (mEfiCheckTimerEvent s) x (Locks
    s) (InterruptState s) (Events s) (NextEvent s) (UnregisterCalls s) (World s).
Definition set_Locks (x : LockId -> EFI_LOCK) (s : EventState) : EventState :=
  MkState (gEfiCurrentTpl s) (gEventPending s) (gEventQueue s) (gEventSignalQueue s)
    (RuntimeEventHead s) (mEfiTimerList s) (mEfiSystemTime s) (mEfiCheckTimerEvent s)
    (gIdleLoopEvent s) x (InterruptState s) (Events s) (NextEvent s) (UnregisterCalls s) (World
    s).
Definition set_Interrupts (x : bool) (s : EventState) : EventState :=
  MkState (gEfiCurrentTpl s) (gEventPending s) (gEventQueue s) (gEventSignalQueue s)
    (RuntimeEventHead s) (mEfiTimerList s) (mEfiSystemTime s) (mEfiCheckTimerEvent s)
    (gIdleLoopEvent s) (Locks s) x (Events s) (NextEvent s) (UnregisterCalls s) (World s).
Definition set_Events (x : gmap Z IEVENT) (s : EventState) : EventState :=
  MkState (gEfiCurrentTpl s) (gEventPending s) (gEventQueue s) (gEventSignalQueue s)
    (RuntimeEventHead s) (mEfiTimerList s) (mEfiSystemTime s) (mEfiCheckTimerEvent s)
    (gIdleLoopEvent s) (Locks s) (InterruptState s) x (NextEvent s) (UnregisterCalls s) (World
    s).
Definition set_NextEvent (x : Z) (s : EventState) : EventState :=
  MkState (gEfiCurrentTpl s) (gEventPending s) (gEventQueue s) (gEventSignalQueue s)
    (RuntimeEventHead s) (mEfiTimerList s) (mEfiSystemTime s) (mEfiCheckTimerEvent s)
    (gIdleLoopEvent s) (Locks s) (InterruptState s) (Events s) x (UnregisterCalls s) (World s).
Definition set_UnregisterCalls (x : list Z) (s : EventState) : EventState :=
  MkState (gEfiCurrentTpl s) (gEventPending s) (gEventQueue s) (gEventSignalQueue s)
    (RuntimeEventHead s) (mEfiTimerList s) (mEfiSystemTime s) (mEfiCheckTimerEvent s)
    (gIdleLoopEvent s) (Locks s) (InterruptState s) (Events s) (NextEvent s) x (World s).
Definition set_World (x : W) (s : EventState) : EventState :=
  MkState (gEfiCurrentTpl s) (gEventPending s) (gEventQueue s) (gEventSignalQueue s)
    (RuntimeEventHead s) (mEfiTimerList s) (mEfiSystemTime s) (mEfiCheckTimerEvent s)
    (gIdleLoopEvent s) (Locks s) (InterruptState s) (Events s) (NextEvent s) (UnregisterCalls s)
    x.

(** Changes the event at [e]; the caller has looked it up. *)
Definition UpdateEvent (e : Z) (f : IEVENT -> IEVENT) (s : EventState) : EventState :=
  set_Events (alter f e (Events s)) s.

(** A field access through an IEVENT pointer. *)
Definition ReadEvent (e : Z) (s : EventState) : Outcome IEVENT :=
  match Events s !! e with Some ev => Done ev | None => Asserted end.

(** The initial values of the module variables. *)
Definition InitialEvents (w : W) : EventState :=
  MkState TPL_APPLICATION 0 (fun _ => []) [] [] [] 0 0 0 (fun _ => MkLock 0 false) false ∅ 1 [] w.

(** ** Task priority levels *)

Section Services.

(** [gCpu] is not NULL. *)
Variable gCpuPresent : bool.
(** [gSmmBase2]: NULL, or what its [InSmm] reports. *)
Variable gSmmBase2 : option (EFI_STATUS * bool).
(** Whether the pool has room for an event when so many have been created. *)
Variable PoolAvailable : Z -> bool.
(** The period [gTimer->GetTimerPeriod] reports. *)
Variable TimerPeriod : Z.

Definition CoreSetInterruptState (Enable : bool) (s : EventState) : EventState :=
  if negb gCpuPresent then s
  else if negb Enable then set_Interrupts false s
  else match gSmmBase2 with
  | None => set_Interrupts true s
  | Some (Status, InSmm) =>
    if negb (EFI_ERROR Status) && negb InSmm then set_Interrupts true s else s
  end.

Definition CoreRaiseTpl (NewTpl : Z) (s : EventState) : Outcome (Z * EventState) :=
  let OldTpl := gEfiCurrentTpl s in
  ASSERT (negb (NewTpl <? OldTpl)) ;;
  ASSERT (VALID_TPL NewTpl) ;;
  let s := if (TPL_HIGH_LEVEL <=? NewTpl) && (OldTpl <? TPL_HIGH_LEVEL)
           then CoreSetInterruptState false s else s in
  Done (OldTpl, set_Tpl NewTpl s).

Definition CoreAcquireLock (l : LockId) (s : EventState) : Outcome EventState :=
  ASSERT (negb (lk_Acquired (Locks s l))) ;;
  '(OwnerTpl, s) ← CoreRaiseTpl (LockTpl l) s;
  Done (set_Locks (<[l := MkLock OwnerTpl true]> (Locks s)) s).

Definition CoreAcquireLockOrFail (l : LockId) (s : EventState) : Outcome (EFI_STATUS * EventState) :=
  if lk_Acquired (Locks s l) then Done (EFI_ACCESS_DENIED, s)
  else
    '(OwnerTpl, s) ← CoreRaiseTpl (LockTpl l) s;
    Done (EFI_SUCCESS, set_Locks (<[l := MkLock OwnerTpl true]> (Locks s)) s).

(** [(UINTN)(1 << NotifyTpl)]: a 32-bit shift, sign extended. *)
Definition EventBit (NotifyTpl : Z) : Z :=
  u64 (if NotifyTpl <? 31 then Z.shiftl 1 NotifyTpl else - 2 ^ 31).

Definition HighBitSet64 (Operand : Z) : Z := if Operand =? 0 then -1 else Z.log2 Operand.

(** [RemoveEntryList] on a link of the event [e]. *)
Definition RemoveEntry (e : Z) (l : list Z) : list Z := filter (.≠ e) l.

(** ** Services, over [Restore] for [CoreRestoreTpl] *)

Section OpenRecursion.
Variable Restore : Z -> EventState -> Outcome EventState.

Definition CoreReleaseLock (l : LockId) (s : EventState) : Outcome EventState :=
  ASSERT (lk_Acquired (Locks s l)) ;;
  let Tpl := lk_OwnerTpl (Locks s l) in
  Restore Tpl (set_Locks (<[l := MkLock Tpl false]> (Locks s)) s).

Definition CoreAcquireEventLock := CoreAcquireLock gEventQueueLock.
Definition CoreReleaseEventLock := CoreReleaseLock gEventQueueLock.

Definition CoreNotifyEvent (e : Z) (s : EventState) : Outcome EventState :=
  ASSERT (lk_Acquired (Locks s gEventQueueLock)) ;;
  Event ← ReadEvent e s;
  let s := if ev_NotifyLinked Event
           then set_Queue (fun t => RemoveEntry e (gEventQueue s t)) s else s in
  let Tpl := ev_NotifyTpl Event in
  let s := set_Queue (<[Tpl := gEventQueue s Tpl ++ [e]]> (gEventQueue s))
             (UpdateEvent e (set_NotifyLinked true) s) in
  Done (set_Pending (Z.lor (gEventPending s) (EventBit Tpl)) s).

(** The loop of [CoreNotifySignalList] over the signal queue. *)
Fixpoint NotifySignalLoop (EventGroup : Z) (Link : list Z) (s : EventState) : Outcome EventState :=
  match Link with
  | [] => Done s
  | e :: Link =>
    Event ← ReadEvent e s;
    s ← (if ev_EventGroup Event =? EventGroup then CoreNotifyEvent e s else Done s);
    NotifySignalLoop EventGroup Link s
  end.

Definition CoreNotifySignalList (EventGroup : Z) (s : EventState) : Outcome EventState :=
  s ← CoreAcquireEventLock s;
  s ← NotifySignalLoop EventGroup (gEventSignalQueue s) s;
  CoreReleaseEventLock s.

Definition CoreSignalEvent (UserEvent : Z) (s : EventState) : Outcome (EFI_STATUS * EventState) :=
  if UserEvent =? 0 then Done (EFI_INVALID_PARAMETER, s)
  else match Events s !! UserEvent with
  | None => Done (EFI_INVALID_PARAMETER, s)
  | Some _ =>
    s ← CoreAcquireEventLock s;
    Event ← ReadEvent UserEvent s;
    s ← (if ev_SignalCount Event =? 0 then
           let s := UpdateEvent UserEvent (set_SignalCount (ev_SignalCount Event + 1)) s in
           if HasFlag (ev_Type Event) EVT_NOTIFY_SIGNAL then
             if HasFlag (ev_ExFlag Event) EVT_EXFLAG_EVENT_GROUP then
               s ← CoreReleaseEventLock s;
               s ← CoreNotifySignalList (ev_EventGroup Event) s;
               CoreAcquireEventLock s
             else CoreNotifyEvent UserEvent s
           else Done s
         else Done s);
    s ← CoreReleaseEventLock s;
    Done (EFI_SUCCESS, s)
  end.

Definition CoreCheckEvent (UserEvent : Z) (s : EventState) : Outcome (EFI_STATUS * EventState) :=
  if UserEvent =? 0 then Done (EFI_INVALID_PARAMETER, s)
  else match Events s !! UserEvent with
  | None => Done (EFI_INVALID_PARAMETER, s)
  | Some Event =>
    if HasFlag (ev_Type Event) EVT_NOTIFY_SIGNAL then Done (EFI_INVALID_PARAMETER, s)
    else
      s ← (if (ev_SignalCount Event =? 0) && HasFlag (ev_Type Event) EVT_NOTIFY_WAIT then
             s ← CoreAcquireEventLock s;
             Event ← ReadEvent UserEvent s;
             s ← (if ev_SignalCount Event =? 0 then CoreNotifyEvent UserEvent s else Done s);
             CoreReleaseEventLock s
           else Done s);
      Event ← ReadEvent UserEvent s;
      if negb (ev_SignalCount Event =? 0) then
        s ← CoreAcquireEventLock s;
        Event ← ReadEvent UserEvent s;
        let '(Status, s) :=
          if negb (ev_SignalCount Event =? 0)
          then (EFI_SUCCESS, UpdateEvent UserEvent (set_SignalCount 0) s)
          else (EFI_NOT_READY, s) in
        s ← CoreReleaseEventLock s;
        Done (Status, s)
      else Done (EFI_NOT_READY, s)
  end.

(** The event type and group the checks of [CoreCreateEventInternal] settle
    on; [EventGroup] is [None] for NULL. *)
Definition CreateEventConvert (Type_ : Z) (EventGroup : option Z) : option (Z * option Z) :=
  match EventGroup with
  | Some Group =>
    if (Type_ =? EVT_SIGNAL_EXIT_BOOT_SERVICES) || (Type_ =? EVT_SIGNAL_VIRTUAL_ADDRESS_CHANGE)
    then None
    else if Group =? gEfiEventExitBootServicesGuid
    then Some (EVT_SIGNAL_EXIT_BOOT_SERVICES, EventGroup)
    else if Group =? gEfiEventVirtualAddressChangeGuid
    then Some (EVT_SIGNAL_VIRTUAL_ADDRESS_CHANGE, EventGroup)
    else Some (Type_, EventGroup)
  | None =>
    if Type_ =? EVT_SIGNAL_EXIT_BOOT_SERVICES then Some (Type_, Some gEfiEventExitBootServicesGuid)
    else if Type_ =? EVT_SIGNAL_VIRTUAL_ADDRESS_CHANGE
    then Some (Type_, Some gEfiEventVirtualAddressChangeGuid)
    else Some (Type_, None)
  end.

Definition CoreCreateEventInternal (Type_ NotifyTpl : Z) (NotifyFunction : option NotifyFunctionId)
    (NotifyContext : Z) (EventGroup : option Z) (EventIsNull : bool) (s : EventState)
  : Outcome (EFI_STATUS * Z * EventState) :=
  if EventIsNull then Done (EFI_INVALID_PARAMETER, 0, s)
  else if negb (existsb (Z.eqb Type_) mEventTable) then Done (EFI_INVALID_PARAMETER, 0, s)
  else match CreateEventConvert Type_ EventGroup with
  | None => Done (EFI_INVALID_PARAMETER, 0, s)
  | Some (Type_, EventGroup) =>
    let Notifies := HasFlag Type_ (Z.lor EVT_NOTIFY_WAIT EVT_NOTIFY_SIGNAL) in
    if Notifies &&
       (bool_decide (NotifyFunction = None) || (NotifyTpl <=? TPL_APPLICATION) || (TPL_HIGH_LEVEL <=? NotifyTpl))
    then Done (EFI_INVALID_PARAMETER, 0, s)
    else
      let '(NotifyTpl, NotifyFunction, NotifyContext) :=
        if Notifies then (NotifyTpl, NotifyFunction, NotifyContext) else (0, None, 0) in
      if negb (PoolAvailable (NextEvent s)) then Done (EFI_OUT_OF_RESOURCES, 0, s)
      else
        let e := NextEvent s in
        let Runtime := HasFlag Type_ EVT_RUNTIME in
        let Signal := HasFlag Type_ EVT_NOTIFY_SIGNAL in
        let Event := MkEvent Type_ 0 Signal NotifyTpl NotifyFunction NotifyContext
                       (default 0 EventGroup) false
                       (if EventGroup is Some _ then EVT_EXFLAG_EVENT_GROUP else 0)
                       Runtime false 0 0 in
        let s := set_NextEvent (e + 1) (set_Events (<[e := Event]> (Events s)) s) in
        let s := if Runtime then set_RuntimeHead (RuntimeEventHead s ++ [e]) s else s in
        s ← (if Signal then
               s ← CoreAcquireEventLock s;
               CoreReleaseEventLock (set_SignalQueue (e :: gEventSignalQueue s) s)
             else Done s);
        Done (EFI_SUCCESS, e, s)
  end.

Definition CoreCreateEventEx := CoreCreateEventInternal.
Definition CoreCreateEvent (Type_ NotifyTpl : Z) (NotifyFunction : option NotifyFunctionId)
    (NotifyContext : Z) := CoreCreateEventEx Type_ NotifyTpl NotifyFunction NotifyContext None.

(** ** Timers *)

(** The position of [CoreInsertEventTimer]: before the first timer that is
    later than [TriggerTime]. *)
Fixpoint InsertTimer (TriggerTime : Z) (e : Z) (s : EventState) (Link : list Z) : Outcome (list Z) :=
  match Link with
  | [] => Done [e]
  | e2 :: Rest =>
    Event2 ← ReadEvent e2 s;
    if TriggerTime <? ev_TriggerTime Event2 then Done (e :: Link)
    else
      Rest ← InsertTimer TriggerTime e s Rest;
      Done (e2 :: Rest)
  end.

Definition CoreInsertEventTimer (e : Z) (s : EventState) : Outcome EventState :=
  ASSERT (lk_Acquired (Locks s mEfiTimerLock)) ;;
  Event ← ReadEvent e s;
  List ← InsertTimer (ev_TriggerTime Event) e s (mEfiTimerList s);
  Done (set_TimerList List (UpdateEvent e (set_TimerLinked true) s)).

Definition CoreCurrentSystemTime (s : EventState) : Outcome (Z * EventState) :=
  s ← CoreAcquireLock mEfiSystemTimeLock s;
  let SystemTime := mEfiSystemTime s in
  s ← CoreReleaseLock mEfiSystemTimeLock s;
  Done (SystemTime, s).

(** The loop of [CoreCheckTimers]. *)
Fixpoint CheckTimersLoop (fuel : nat) (SystemTime : Z) (s : EventState) : Outcome EventState :=
  match mEfiTimerList s with
  | [] => Done s
  | e :: Rest =>
    Event ← ReadEvent e s;
    if SystemTime <? ev_TriggerTime Event then Done s
    else match fuel with
    | O => OutOfFuel
    | S fuel =>
      let s := UpdateEvent e (set_TimerLinked false) (set_TimerList Rest s) in
      '(_, s) ← CoreSignalEvent e s;
      Event ← ReadEvent e s;
      s ← (if negb (ev_Period Event =? 0) then
             let TriggerTime := add64 (ev_TriggerTime Event) (ev_Period Event) in
             s ← (if TriggerTime <=? SystemTime then
                    let s := UpdateEvent e (set_TriggerTime SystemTime) s in
                    '(_, s) ← CoreSignalEvent (mEfiCheckTimerEvent s) s;
                    Done s
                  else Done (UpdateEvent e (set_TriggerTime TriggerTime) s));
             CoreInsertEventTimer e s
           else Done s);
      CheckTimersLoop fuel SystemTime s
    end
  end.

Definition CoreCheckTimers (fuel : nat) (s : EventState) : Outcome EventState :=
  s ← CoreAcquireLock mEfiTimerLock s;
  '(SystemTime, s) ← CoreCurrentSystemTime s;
  s ← CheckTimersLoop fuel SystemTime s;
  CoreReleaseLock mEfiTimerLock s.

Definition CoreTimerTick (Duration : Z) (s : EventState) : Outcome EventState :=
  s ← CoreAcquireLock mEfiSystemTimeLock s;
  let s := set_SystemTime (add64 (mEfiSystemTime s) Duration) s in
  s ← (match mEfiTimerList s with
       | [] => Done s
       | e :: _ =>
         Event ← ReadEvent e s;
         if ev_TriggerTime Event <=? mEfiSystemTime s then
           '(_, s) ← CoreSignalEvent (mEfiCheckTimerEvent s) s;
           Done s
         else Done s
       end);
  CoreReleaseLock mEfiSystemTimeLock s.

Definition CoreSetTimer (UserEvent Type_ TriggerTime : Z) (s : EventState)
  : Outcome (EFI_STATUS * EventState) :=
  if UserEvent =? 0 then Done (EFI_INVALID_PARAMETER, s)
  else match Events s !! UserEvent with
  | None => Done (EFI_INVALID_PARAMETER, s)
  | Some Event =>
    if (TimerRelative <? Type_) || negb (HasFlag (ev_Type Event) EVT_TIMER)
    then Done (EFI_INVALID_PARAMETER, s)
    else
      s ← CoreAcquireLock mEfiTimerLock s;
      Event ← ReadEvent UserEvent s;
      let s := if ev_TimerLinked Event
               then UpdateEvent UserEvent (set_TimerLinked false)
                      (set_TimerList (RemoveEntry UserEvent (mEfiTimerList s)) s) else s in
      let s := UpdateEvent UserEvent (fun ev => set_Period 0 (set_TriggerTime 0 ev)) s in
      s ← (if negb (Type_ =? TimerCancel) then
             let '(TriggerTime, s) :=
               if Type_ =? TimerPeriodic then
                 let TriggerTime := if TriggerTime =? 0 then TimerPeriod else TriggerTime in
                 (TriggerTime, UpdateEvent UserEvent (set_Period TriggerTime) s)
               else (TriggerTime, s) in
             '(Now, s) ← CoreCurrentSystemTime s;
             let s := UpdateEvent UserEvent (set_TriggerTime (add64 Now TriggerTime)) s in
             s ← CoreInsertEventTimer UserEvent s;
             if TriggerTime =? 0 then
               '(_, s) ← CoreSignalEvent (mEfiCheckTimerEvent s) s;
               Done s
             else Done s
           else Done s);
      s ← CoreReleaseLock mEfiTimerLock s;
      Done (EFI_SUCCESS, s)
  end.

Definition CoreCloseEvent (UserEvent : Z) (s : EventState) : Outcome (EFI_STATUS * EventState) :=
  if UserEvent =? 0 then Done (EFI_INVALID_PARAMETER, s)
  else match Events s !! UserEvent with
  | None => Done (EFI_INVALID_PARAMETER, s)
  | Some Event =>
    s ← (if HasFlag (ev_Type Event) EVT_TIMER then
           '(_, s) ← CoreSetTimer UserEvent TimerCancel 0 s; Done s
         else Done s);
    s ← CoreAcquireEventLock s;
    Event ← ReadEvent UserEvent s;
    let s := if ev_RuntimeLinked Event
             then set_RuntimeHead (RemoveEntry UserEvent (RuntimeEventHead s)) s else s in
    let s := if ev_NotifyLinked Event
             then set_Queue (fun t => RemoveEntry UserEvent (gEventQueue s t)) s else s in
    let s := if ev_SignalLinked Event
             then set_SignalQueue (RemoveEntry UserEvent (gEventSignalQueue s)) s else s in
    s ← CoreReleaseEventLock s;
    Event ← ReadEvent UserEvent s;
    let s := if HasFlag (ev_ExFlag Event) EVT_EXFLAG_EVENT_PROTOCOL_NOTIFICATION
             then set_UnregisterCalls (UnregisterCalls s ++ [UserEvent]) s else s in
    Done (EFI_SUCCESS, set_Events (delete UserEvent (Events s)) s)
  end.

(** ** Initialization *)

Definition CoreInitializeTimer (s : EventState) : Outcome EventState :=
  '(Status, e, s) ← CoreCreateEventInternal EVT_NOTIFY_SIGNAL (TPL_HIGH_LEVEL - 1)
                      (Some FnCheckTimers) 0 None false s;
  ASSERT (negb (EFI_ERROR Status)) ;;
  Done (set_CheckTimerEvent e s).

Definition CoreInitializeEventServices (s : EventState) : Outcome (EFI_STATUS * EventState) :=
  let s := set_Queue (fun _ => []) s in
  s ← CoreInitializeTimer s;
  '(Status, e, s) ← CoreCreateEventEx EVT_NOTIFY_SIGNAL TPL_NOTIFY (Some FnEmpty) 0
                      (Some gIdleLoopEventGuid) false s;
  Done (EFI_SUCCESS, if EFI_ERROR Status then s else set_IdleLoopEvent e s).

(** ** Calls from notification functions *)

(** The services a driver's notification function may call. *)
Inductive BootCall :=
| BsRaiseTpl (NewTpl : Z)
| BsRestoreTpl (NewTpl : Z)
| BsSignalEvent (Event : Z)
| BsCheckEvent (Event : Z)
| BsCreateEventEx (Type_ NotifyTpl : Z) (NotifyFunction : option NotifyFunctionId)
    (NotifyContext : Z) (EventGroup : option Z)
| BsCloseEvent (Event : Z)
| BsSetTimer (Event Type_ TriggerTime : Z)
| BsTimerTick (Duration : Z).

(** The status of a call and its output (a TPL or an event). *)
Definition Reply : Type := EFI_STATUS * Z.

Definition BootService (c : BootCall) (s : EventState) : Outcome (Reply * EventState) :=
  match c with
  | BsRaiseTpl NewTpl =>
    '(OldTpl, s) ← CoreRaiseTpl NewTpl s; Done ((EFI_SUCCESS, OldTpl), s)
  | BsRestoreTpl NewTpl => s ← Restore NewTpl s; Done ((EFI_SUCCESS, 0), s)
  | BsSignalEvent e => '(Status, s) ← CoreSignalEvent e s; Done ((Status, 0), s)
  | BsCheckEvent e => '(Status, s) ← CoreCheckEvent e s; Done ((Status, 0), s)
  | BsCreateEventEx Type_ NotifyTpl NotifyFunction NotifyContext EventGroup =>
    '(Status, e, s) ← CoreCreateEventEx Type_ NotifyTpl NotifyFunction NotifyContext EventGroup false s;
    Done ((Status, e), s)
  | BsCloseEvent e => '(Status, s) ← CoreCloseEvent e s; Done ((Status, 0), s)
  | BsSetTimer e Type_ TriggerTime =>
    '(Status, s) ← CoreSetTimer e Type_ TriggerTime s; Done ((Status, 0), s)
  | BsTimerTick Duration => s ← CoreTimerTick Duration s; Done ((EFI_SUCCESS, 0), s)
  end.

(** A notification function at work: it returns, leaving its world, or calls
    a service and goes on with the reply and with the world as the nested
    notifications have left it. *)
Inductive Prog :=
| Return (w : W)
| Call (w : W) (c : BootCall) (k : Reply -> W -> Prog).

Fixpoint RunProg (p : Prog) (s : EventState) : Outcome EventState :=
  match p with
  | Return w => Done (set_World w s)
  | Call w c k =>
    '(r, s) ← BootService c (set_World w s);
    RunProg (k r (World s)) s
  end.

(** The loop of [CoreWaitForEventInternal] over the events. *)
Fixpoint WaitIndexLoop (UserEvents : list Z) (Index : Z) (s : EventState)
  : Outcome (option (EFI_STATUS * Z) * EventState) :=
  match UserEvents with
  | [] => Done (None, s)
  | e :: UserEvents =>
    '(Status, s) ← CoreCheckEvent e s;
    if negb (bool_decide (Status = EFI_NOT_READY)) then Done (Some (Status, Index), s)
    else WaitIndexLoop UserEvents (Index + 1) s
  end.

(** [CoreWaitForEventInternal]; [Idle] is what happens between two rounds: the
    wait for an interrupt and the interrupts taken. *)
Fixpoint WaitLoop (Idle : EventState -> Outcome EventState) (fuel : nat) (UserEvents : list Z)
    (s : EventState) : Outcome (EFI_STATUS * Z * EventState) :=
  match fuel with
  | O => OutOfFuel
  | S fuel =>
    '(Found, s) ← WaitIndexLoop UserEvents 0 s;
    match Found with
    | Some (Status, Index) => Done (Status, Index, s)
    | None => s ← Idle s; WaitLoop Idle fuel UserEvents s
    end
  end.

Definition CoreWaitForEventInternal (Idle : EventState -> Outcome EventState) (fuel : nat)
    (UserEvents : list Z) (s : EventState) : Outcome (EFI_STATUS * Z * EventState) :=
  if bool_decide (UserEvents = []) then Done (EFI_INVALID_PARAMETER, 0, s)
  else WaitLoop Idle fuel UserEvents s.

Definition CoreWaitForEvent (Idle : EventState -> Outcome EventState) (fuel : nat)
    (UserEvents : list Z) (s : EventState) : Outcome (EFI_STATUS * Z * EventState) :=
  if negb (gEfiCurrentTpl s =? TPL_APPLICATION) then Done (EFI_UNSUPPORTED, 0, s)
  else CoreWaitForEventInternal Idle fuel UserEvents s.

End OpenRecursion.

(** ** Dispatch *)

(** The code of a driver's notification function, given the event, the
    context and its world. *)
Variable Driver : Z -> Z -> Z -> W -> Prog.

Definition RunNotify (fuel : nat) (Restore : Z -> EventState -> Outcome EventState)
    (fn : NotifyFunctionId) (e Context_ : Z) (s : EventState) : Outcome EventState :=
  match fn with
  | FnCheckTimers => CoreCheckTimers Restore fuel s
  | FnEmpty => Done s
  | FnDriver n => RunProg Restore (Driver n e Context_ (World s)) s
  end.

(** The loop of [CoreDispatchEventNotifies] and its end. *)
Fixpoint DispatchLoop (fuel : nat) (Restore : Z -> EventState -> Outcome EventState)
    (Priority : Z) (s : EventState) : Outcome EventState :=
  match gEventQueue s Priority with
  | [] =>
    CoreReleaseEventLock Restore
      (set_Pending (Z.land (gEventPending s) (not64 (EventBit Priority))) s)
  | e :: Rest =>
    match fuel with
    | O => OutOfFuel
    | S fuel =>
      Event ← ReadEvent e s;
      let s := set_Queue (<[Priority := Rest]> (gEventQueue s))
                 (UpdateEvent e (set_NotifyLinked false) s) in
      let s := if HasFlag (ev_Type Event) EVT_NOTIFY_SIGNAL
               then UpdateEvent e (set_SignalCount 0) s else s in
      s ← CoreReleaseEventLock Restore s;
      Event ← ReadEvent e s;
      match ev_NotifyFunction Event with
      | None => Asserted
      | Some fn =>
        ASSERT (gEfiCurrentTpl s =? ev_NotifyTpl Event) ;;
        s ← RunNotify fuel Restore fn e (ev_NotifyContext Event) s;
        s ← CoreAcquireEventLock s;
        DispatchLoop fuel Restore Priority s
      end
    end
  end.

Definition CoreDispatchEventNotifies (fuel : nat) (Restore : Z -> EventState -> Outcome EventState)
    (Priority : Z) (s : EventState) : Outcome EventState :=
  s ← CoreAcquireEventLock s;
  ASSERT (lk_OwnerTpl (Locks s gEventQueueLock) =? Priority) ;;
  DispatchLoop fuel Restore Priority s.

(** The loop of [CoreRestoreTpl]. *)
Fixpoint RestoreLoop (fuel : nat) (Dispatch : Z -> EventState -> Outcome EventState)
    (NewTpl : Z) (s : EventState) : Outcome EventState :=
  if gEventPending s =? 0 then Done s
  else
    let PendingTpl := HighBitSet64 (gEventPending s) in
    if PendingTpl <=? NewTpl then Done s
    else match fuel with
    | O => OutOfFuel
    | S fuel =>
      let s := set_Tpl PendingTpl s in
      let s := if gEfiCurrentTpl s <? TPL_HIGH_LEVEL then CoreSetInterruptState true s else s in
      s ← Dispatch (gEfiCurrentTpl s) s;
      RestoreLoop fuel Dispatch NewTpl s
    end.

(** [CoreRestoreTpl]: [fuel] bounds the depth of nested calls and, at each
    depth, the number of loop rounds. *)
Fixpoint CoreRestoreTpl (fuel : nat) (NewTpl : Z) (s : EventState) : Outcome EventState :=
  let OldTpl := gEfiCurrentTpl s in
  ASSERT (negb (OldTpl <? NewTpl)) ;;
  ASSERT (VALID_TPL NewTpl) ;;
  let s := if (TPL_HIGH_LEVEL <=? OldTpl) && (NewTpl <? TPL_HIGH_LEVEL)
           then set_Tpl TPL_HIGH_LEVEL s else s in
  s ← RestoreLoop fuel
        (fun Priority s =>
           match fuel with
           | O => OutOfFuel
           | S fuel => CoreDispatchEventNotifies fuel (CoreRestoreTpl fuel) Priority s
           end) NewTpl s;
  let s := set_Tpl NewTpl s in
  Done (if gEfiCurrentTpl s <? TPL_HIGH_LEVEL then CoreSetInterruptState true s else s).

End Services.
End Events.

Arguments EventState : clear implicits.
Arguments Prog : clear implicits.
