(* ===== verification/EventInv.v ===== *)
(** * The invariant of the event services

    The queues, the signal list, the runtime list and the timer list each hold
    exactly the events whose links say so, timers are sorted, and a queue that
    is not empty is marked in [gEventPending].  Every service keeps this,
    whatever the notification functions it ends up running do. *)
From Stdlib Require Import ZArith Lia Sorting.Sorted.
From stdpp Require Import base option gmap functions list.
From S2P Require Import Prelude Event.

(** ** Linked lists and their flags *)

(** [l] holds exactly the events whose [flag] is set, each once. *)
Definition Linked (flag : IEVENT -> bool) (evs : gmap Z IEVENT) (l : list Z) : Prop :=
  NoDup l /\ forall e, e ∈ l <-> exists ev, evs !! e = Some ev /\ flag ev = true.

Lemma elem_of_RemoveEntry x e l : x ∈ RemoveEntry e l <-> x <> e /\ x ∈ l.
Proof. unfold RemoveEntry. by rewrite list_elem_of_filter. Qed.

Lemma RemoveEntry_id e l : e ∉ l -> RemoveEntry e l = l.
Proof.
  unfold RemoveEntry. induction l as [|x l IH]; intros H; [done|]. apply not_elem_of_cons in H as [? ?].
  rewrite filter_cons_True by done. by rewrite IH.
Qed.

Lemma NoDup_RemoveEntry e l : NoDup l -> NoDup (RemoveEntry e l).
Proof. apply NoDup_filter. Qed.

Section Linked.
Context (flag : IEVENT -> bool) (evs : gmap Z IEVENT) (l : list Z).
Context (HL : Linked flag evs l).

Lemma linked_in e ev : evs !! e = Some ev -> e ∈ l <-> flag ev = true.
Proof using HL.
  intros He. rewrite (proj2 HL). split; [|eauto]. intros (ev' & He' & ?). congruence.
Qed.

Lemma linked_not e ev : evs !! e = Some ev -> flag ev = false -> e ∉ l.
Proof using HL. intros He Hf. rewrite (linked_in e ev He). congruence. Qed.

Lemma linked_alter_same e f :
  (forall ev, evs !! e = Some ev -> flag (f ev) = flag ev) -> Linked flag (alter f e evs) l.
Proof using HL.
  intros Hf. split; [apply HL|]. intros x. rewrite (proj2 HL x).
  destruct (decide (e = x)) as [->|Hne]; [|by rewrite lookup_alter_ne].
  rewrite lookup_alter_eq. split.
  - intros (ev & He & Hfl). exists (f ev). rewrite He. simpl. by rewrite Hf.
  - intros (ev' & He & Hfl). apply fmap_Some in He as (ev & He & ->). exists ev.
    by rewrite <- (Hf ev He).
Qed.

Lemma linked_add e ev f l' :
  evs !! e = Some ev -> flag ev = false -> flag (f ev) = true -> l' ≡ₚ e :: l ->
  Linked flag (alter f e evs) l'.
Proof using HL.
  intros He Hf Hf' HP. split.
  - rewrite HP. constructor; [by eapply linked_not|apply HL].
  - intros x. rewrite HP, elem_of_cons, (proj2 HL x).
    destruct (decide (e = x)) as [->|Hne].
    + rewrite lookup_alter_eq, He. simpl. split; [eauto|by left].
    + rewrite lookup_alter_ne by done. split; [intros [?|?]; [congruence|done] | by right].
Qed.

Lemma linked_remove e f :
  (forall ev, evs !! e = Some ev -> flag (f ev) = false) -> Linked flag (alter f e evs) (RemoveEntry e l).
Proof using HL.
  intros Hf. split; [apply NoDup_RemoveEntry, HL|]. intros x.
  rewrite elem_of_RemoveEntry, (proj2 HL x).
  destruct (decide (e = x)) as [->|Hne].
  - rewrite lookup_alter_eq. split; [by intros [? _]|]. intros (ev' & He & Hfl).
    apply fmap_Some in He as (ev & He & ->). rewrite (Hf ev He) in Hfl. done.
  - rewrite lookup_alter_ne by done. split; [by intros [_ ?]|]. split; [congruence|done].
Qed.

Lemma linked_delete e : Linked flag (delete e evs) (RemoveEntry e l).
Proof using HL.
  split; [apply NoDup_RemoveEntry, HL|]. intros x. rewrite elem_of_RemoveEntry, (proj2 HL x).
  setoid_rewrite lookup_delete_Some. split.
  - intros (? & ev & ? & ?). exists ev. split_and!; congruence.
  - intros (ev & (? & ?) & ?). split; [congruence|eauto].
Qed.

Lemma linked_insert e ev l' :
  evs !! e = None -> (if flag ev then l' ≡ₚ e :: l else l' = l) -> Linked flag (<[e := ev]> evs) l'.
Proof using HL.
  intros He HP.
  assert (Hin : e ∉ l) by (rewrite (proj2 HL e); intros (? & ? & _); congruence).
  assert (H : forall x, x ∈ l' <-> (x = e /\ flag ev = true) \/ (x <> e /\ x ∈ l)).
  { intros x. destruct (flag ev).
    - rewrite HP, elem_of_cons. split; [|intros [[? _]|[_ ?]]; [by left|by right]].
      intros [?|?]; [by left|]. destruct (decide (x = e)); [by left|by right].
    - subst l'. split; [|by intros [[_ ?]|[_ ?]]]. intros ?. right. split; [congruence|done]. }
  split.
  - destruct (flag ev); [rewrite HP; constructor; [done|apply HL]|subst; apply HL].
  - intros x. rewrite H, (proj2 HL x). destruct (decide (e = x)) as [->|Hne].
    + rewrite lookup_insert_eq. split.
      * intros [[_ ?]|[? _]]; [eauto|done].
      * intros (ev' & ? & ?). left. split; [done|congruence].
    + rewrite lookup_insert_ne by done. split.
      * intros [[? _]|[_ ?]]; [congruence|done].
      * intros ?. right. split; [congruence|done].
Qed.

End Linked.

(** ** The invariant *)

Definition Notifies (ev : IEVENT) : bool :=
  HasFlag (ev_Type ev) (Z.lor EVT_NOTIFY_WAIT EVT_NOTIFY_SIGNAL).

(** The event is queued for notification at level [t]. *)
Definition QueuedAt (t : Z) (ev : IEVENT) : bool := ev_NotifyLinked ev && (ev_NotifyTpl ev =? t).

(** An event that can be notified has a function and a level between
    TPL_APPLICATION and TPL_HIGH_LEVEL, and its links fit its type. *)
Record EventTyped (ev : IEVENT) : Prop := {
  et_notifies : Notifies ev = true -> 4 < ev_NotifyTpl ev < 31 /\ ev_NotifyFunction ev <> None;
  et_queued : ev_NotifyLinked ev = true -> Notifies ev = true;
  et_signal : ev_SignalLinked ev = true -> HasFlag (ev_Type ev) EVT_NOTIFY_SIGNAL = true;
  et_timer : ev_TimerLinked ev = true -> HasFlag (ev_Type ev) EVT_TIMER = true
}.

Definition TimeOf (evs : gmap Z IEVENT) (e : Z) : Z := default 0 (ev_TriggerTime <$> evs !! e).

Record EventCore {W} (s : EventState W) : Prop := {
  ec_queue : forall t, Linked (QueuedAt t) (Events s) (gEventQueue s t);
  ec_signal : Linked ev_SignalLinked (Events s) (gEventSignalQueue s);
  ec_runtime : Linked ev_RuntimeLinked (Events s) (RuntimeEventHead s);
  ec_timer : Linked ev_TimerLinked (Events s) (mEfiTimerList s);
  ec_sorted : StronglySorted Z.le (TimeOf (Events s) <$> mEfiTimerList s);
  ec_typed : map_Forall (fun _ ev => EventTyped ev) (Events s);
  ec_fresh : map_Forall (fun e _ => 0 < e < NextEvent s) (Events s) /\ 0 < NextEvent s;
  ec_pending : forall t, gEventQueue s t <> [] -> Z.testbit (gEventPending s) t = true;
  ec_bits : 0 <= gEventPending s /\ forall t, Z.testbit (gEventPending s) t = true -> 4 < t < 31
}.

(** No notification above the current level is waiting. *)
Definition Quiet {W} (s : EventState W) : Prop :=
  forall t, Z.testbit (gEventPending s) t = true -> t <= gEfiCurrentTpl s.

(** The parts of the state that raising and lowering the level change. *)
Definition Relevel {W} (t : Z) (b : bool) (L : LockId -> EFI_LOCK) (s : EventState W) : EventState W :=
  set_Tpl t (set_Interrupts b (set_Locks L s)).

Lemma EventCore_relevel {W} t b L (s : EventState W) : EventCore s -> EventCore (Relevel t b L s).
Proof. by intros []. Qed.

Lemma set_World_core {W} (w : W) s : EventCore s -> EventCore (set_World w s).
Proof. by intros []. Qed.

(** ** Steps on events that keep the invariant *)

Lemma TimeOf_alter (evs : gmap Z IEVENT) e f (l : list Z) :
  (forall ev, evs !! e = Some ev -> ev_TriggerTime (f ev) = ev_TriggerTime ev) \/ e ∉ l ->
  TimeOf (alter f e evs) <$> l = TimeOf evs <$> l.
Proof.
  intros H. apply list_fmap_ext. intros i x Hx. unfold TimeOf.
  destruct (decide (e = x)) as [->|Hne]; [|by rewrite lookup_alter_ne].
  destruct H as [H|H].
  - rewrite lookup_alter_eq. destruct (evs !! x) as [ev|] eqn:E; simpl; [by apply H|done].
  - by apply list_elem_of_lookup_2 in Hx.
Qed.

Section Steps.
Context {W : Type}.
Implicit Types s : EventState W.

(** A change of fields that no list and no typing condition looks at. *)
Lemma update_core e f s :
  (forall ev, ev_NotifyLinked (f ev) = ev_NotifyLinked ev /\ ev_NotifyTpl (f ev) = ev_NotifyTpl ev /\
     ev_SignalLinked (f ev) = ev_SignalLinked ev /\ ev_RuntimeLinked (f ev) = ev_RuntimeLinked ev /\
     ev_TimerLinked (f ev) = ev_TimerLinked ev /\ ev_Type (f ev) = ev_Type ev /\
     ev_NotifyFunction (f ev) = ev_NotifyFunction ev) ->
  (forall ev, ev_TriggerTime (f ev) = ev_TriggerTime ev) \/ e ∉ mEfiTimerList s ->
  EventCore s -> EventCore (UpdateEvent e f s).
Proof.
  intros Hf Ht [C1 C2 C3 C4 C5 C6 C7 C8 C9]. split; simpl; try done.
  - intros t. apply linked_alter_same; [done|]. intros ev _. unfold QueuedAt.
    by destruct (Hf ev) as (-> & -> & _).
  - apply linked_alter_same; [done|]. intros ev _. apply Hf.
  - apply linked_alter_same; [done|]. intros ev _. apply Hf.
  - apply linked_alter_same; [done|]. intros ev _. apply Hf.
  - rewrite TimeOf_alter; [done|]. destruct Ht; [by left|by right].
  - intros x ev Hx. apply lookup_alter_Some in Hx as [(<- & ev' & He & ->)|[? ?]]; [|by eapply C6].
    destruct (Hf ev') as (F1 & F2 & F3 & F4 & F5 & F6 & F7). destruct (C6 _ _ He) as [T1 T2 T3 T4].
    unfold Notifies in *. split; unfold Notifies; rewrite ?F1, ?F2, ?F3, ?F5, ?F6, ?F7; done.
  - split; [|apply C7]. intros x ev Hx. apply lookup_alter_Some in Hx as [(<- & ev' & He & ->)|[? ?]].
    + by eapply (proj1 C7).
    + by eapply (proj1 C7).
Qed.

Lemma EventBit_testbit t i : 0 <= t < 31 -> Z.testbit (EventBit t) i = (i =? t).
Proof.
  intros Ht. unfold EventBit. rewrite (proj2 (Z.ltb_lt t 31)) by lia.
  rewrite Z.shiftl_1_l, u64_small.
  - destruct (Z.eqb_spec i t) as [->|Hne]; [apply Z.pow2_bits_true; lia|apply Z.pow2_bits_false; lia].
  - pose proof (pow2_pos t). pose proof (Z.pow_lt_mono_r 2 t 64). lia.
Qed.

(** The queue after [CoreNotifyEvent], whether or not the event was queued. *)
Lemma notify_spec e s s' :
  EventCore s -> CoreNotifyEvent e s = Done s' ->
  exists ev, Events s !! e = Some ev /\
    s' = set_Pending (Z.lor (gEventPending s) (EventBit (ev_NotifyTpl ev)))
           (set_Queue (gEventQueue s') (UpdateEvent e (set_NotifyLinked true) s)) /\
    forall t, gEventQueue s' t =
      if t =? ev_NotifyTpl ev then RemoveEntry e (gEventQueue s t) ++ [e] else gEventQueue s t.
Proof.
  intros HC H. unfold CoreNotifyEvent, ReadEvent in H.
  apply Outcome_bind_Done in H as ([] & _ & H).
  destruct (Events s !! e) as [ev|] eqn:E; [|done]. simpl in H. injection H as <-.
  exists ev. split; [done|].
  assert (HR : forall t, t <> ev_NotifyTpl ev \/ ev_NotifyLinked ev = false ->
                 RemoveEntry e (gEventQueue s t) = gEventQueue s t).
  { intros t Ht. apply RemoveEntry_id. apply (linked_not _ _ _ (ec_queue s HC t) e ev E).
    unfold QueuedAt. apply andb_false_iff. destruct Ht; [right; by apply Z.eqb_neq; lia|by left]. }
  split; [by destruct (ev_NotifyLinked ev)|]. intros t. simpl.
  destruct (Z.eqb_spec t (ev_NotifyTpl ev)) as [->|Hne].
  - rewrite fn_lookup_insert. destruct (ev_NotifyLinked ev) eqn:EL; simpl; [done|].
    rewrite HR by auto. done.
  - rewrite fn_lookup_insert_ne by done. destruct (ev_NotifyLinked ev); simpl; [|done]. by rewrite HR by auto.
Qed.

Lemma notify_core e ev s s' :
  EventCore s -> Events s !! e = Some ev -> Notifies ev = true ->
  CoreNotifyEvent e s = Done s' -> EventCore s'.
Proof.
  intros HC He HN H. destruct (notify_spec e s s' HC H) as (ev' & He' & Hs & HQ).
  assert (ev' = ev) as -> by congruence. clear He' H.
  destruct HC as [C1 C2 C3 C4 C5 C6 C7 C8 C9]. destruct (C6 _ _ He) as [T1 T2 T3 T4].
  destruct (T1 HN) as [Htpl Hfn]. set (q := gEventQueue s') in *. rewrite Hs. split; simpl.
  - intros t. rewrite HQ. destruct (Z.eqb_spec t (ev_NotifyTpl ev)) as [->|Hne].
    + assert (HR : Linked (QueuedAt (ev_NotifyTpl ev)) (alter (set_NotifyLinked false) e (Events s))
                     (RemoveEntry e (gEventQueue s (ev_NotifyTpl ev)))).
      { apply linked_remove; [apply C1|]. done. }
      assert (HE : alter (set_NotifyLinked true) e (Events s) =
                   alter (set_NotifyLinked true) e (alter (set_NotifyLinked false) e (Events s))).
      { by rewrite alter_alter_eq. }
      rewrite HE. eapply (linked_add _ _ _ HR e (set_NotifyLinked false ev)).
      * by rewrite lookup_alter_eq, He.
      * done.
      * unfold QueuedAt. simpl. by apply Z.eqb_eq.
      * by rewrite Permutation_app_comm.
    + apply linked_alter_same; [apply C1|]. intros ev2 He2. assert (ev2 = ev) as -> by congruence.
      unfold QueuedAt. simpl. rewrite (proj2 (Z.eqb_neq (ev_NotifyTpl ev) t)) by lia.
      by rewrite andb_false_r.
  - by apply linked_alter_same.
  - by apply linked_alter_same.
  - by apply linked_alter_same.
  - rewrite TimeOf_alter; [done|by left].
  - intros x ev2 Hx. apply lookup_alter_Some in Hx as [(<- & ev3 & He3 & ->)|[? ?]]; [|by eapply C6].
    assert (ev3 = ev) as -> by congruence. by split.
  - split; [|apply C7]. intros x ev2 Hx.
    apply lookup_alter_Some in Hx as [(<- & ev3 & He3 & ->)|[? ?]]; by eapply (proj1 C7).
  - intros t Ht. rewrite Z.lor_spec, EventBit_testbit by lia.
    rewrite HQ in Ht. destruct (t =? ev_NotifyTpl ev); [by rewrite orb_true_r|].
    by rewrite C8.
  - destruct C9 as [B1 B2]. split.
    + apply Z.lor_nonneg. split; [done|]. unfold EventBit. apply u64_range.
    + intros t. rewrite Z.lor_spec, EventBit_testbit, orb_true_iff, Z.eqb_eq by lia.
      intros [?|?]; [by apply B2|lia].
Qed.

(** Everything that concerns timers is the same. *)
Definition TimerFrame s s' : Prop :=
  mEfiTimerList s' = mEfiTimerList s /\ mEfiCheckTimerEvent s' = mEfiCheckTimerEvent s /\
  mEfiSystemTime s' = mEfiSystemTime s /\
  forall e, (fun ev => (ev_Type ev, ev_TimerLinked ev, ev_TriggerTime ev, ev_Period ev)) <$> Events s' !! e =
            (fun ev => (ev_Type ev, ev_TimerLinked ev, ev_TriggerTime ev, ev_Period ev)) <$> Events s !! e.

#[global] Instance TimerFrame_preorder : PreOrder TimerFrame.
Proof.
  split; [by intros s|]. intros s1 s2 s3 (A1 & A2 & A3 & A4) (B1 & B2 & B3 & B4).
  split_and!; try congruence.
Qed.

Lemma update_frame e f s :
  (forall ev, (ev_Type (f ev), ev_TimerLinked (f ev), ev_TriggerTime (f ev), ev_Period (f ev)) =
              (ev_Type ev, ev_TimerLinked ev, ev_TriggerTime ev, ev_Period ev)) ->
  TimerFrame s (UpdateEvent e f s).
Proof.
  intros Hf. split_and!; try done. intros x. simpl.
  destruct (decide (e = x)) as [->|Hne]; [|by rewrite lookup_alter_ne].
  rewrite lookup_alter_eq. destruct (Events s !! x); simpl; [by rewrite Hf|done].
Qed.

Lemma notify_frame e s s' :
  EventCore s -> CoreNotifyEvent e s = Done s' -> TimerFrame s s'.
Proof.
  intros HC H. destruct (notify_spec e s s' HC H) as (ev & He & -> & _).
  apply (update_frame e (set_NotifyLinked true) s). done.
Qed.

End Steps.
