(* ===== verification/EventOps.v ===== *)
(** * Every event service keeps the invariant

    The services are proved against the interface [RestoreSpec] of
    [CoreRestoreTpl]; EventDispatch.v shows that [CoreRestoreTpl] implements
    it. *)
From Stdlib Require Import ZArith Lia Sorting.Sorted.
From stdpp Require Import base option gmap functions list.
From S2P Require Import Prelude Event EventInv.

(** What the services rely on when they lower the level: the invariant is kept
    whatever notification functions run, nothing above the new level is left
    pending, and if nothing was pending above it then nothing has run and the call returns. *)
Class RestoreSpec {W} (Restore : Z -> EventState W -> Outcome (EventState W)) : Prop := {
  restore_core : forall t s s', EventCore s -> Restore t s = Done s' ->
    EventCore s' /\ Quiet s' /\ gEfiCurrentTpl s' = t;
  restore_quiet : forall t s s', 0 <= gEventPending s ->
    (forall i, Z.testbit (gEventPending s) i = true -> i <= t) -> Restore t s = Done s' ->
    exists b, s' = Relevel t b (Locks s) s;
  restore_returns : forall t s, t <= gEfiCurrentTpl s -> t <= 31 -> 0 <= gEventPending s ->
    (forall i, Z.testbit (gEventPending s) i = true -> i <= t) -> exists s', Restore t s = Done s'
}.

Section Ops.
Context {W : Type}.
Implicit Types s : EventState W.
Context (gCpuPresent : bool) (gSmmBase2 : option (EFI_STATUS * bool)) (PoolAvailable : Z -> bool) (TimerPeriod : Z).
Abbreviation CoreSetInterruptState := (CoreSetInterruptState gCpuPresent gSmmBase2).
Abbreviation CoreAcquireLock := (CoreAcquireLock gCpuPresent gSmmBase2).

(** ** Locks *)

Lemma interrupt_spec b s : exists b', CoreSetInterruptState b s = set_Interrupts b' s.
Proof.
  assert (H : s = set_Interrupts (InterruptState s) s) by (by destruct s).
  unfold Event.CoreSetInterruptState. repeat case_match; eauto.
Qed.

Lemma raise_spec t s r s' :
  CoreRaiseTpl gCpuPresent gSmmBase2 t s = Done (r, s') ->
  r = gEfiCurrentTpl s /\ gEfiCurrentTpl s <= t <= 31 /\ exists b, s' = Relevel t b (Locks s) s.
Proof.
  unfold CoreRaiseTpl. intros H. apply Outcome_bind_Done in H as ([] & H1 & H).
  apply Outcome_bind_Done in H as ([] & H2 & H). apply ASSERT_Done in H1, H2. bool_to_Z.
  unfold VALID_TPL, TPL_HIGH_LEVEL in H2. bool_to_Z. injection H as <- <-.
  split; [done|]. split; [lia|]. destruct (interrupt_spec false s) as [b Hb].
  destruct ((TPL_HIGH_LEVEL <=? t) && _).
  - exists b. rewrite Hb. by destruct s.
  - exists (InterruptState s). by destruct s.
Qed.

Lemma acquire_spec l s s' :
  CoreAcquireLock l s = Done s' ->
  gEfiCurrentTpl s <= LockTpl l /\
  exists b, s' = Relevel (LockTpl l) b (<[l := MkLock (gEfiCurrentTpl s) true]> (Locks s)) s.
Proof.
  unfold Event.CoreAcquireLock. intros H. apply Outcome_bind_Done in H as ([] & _ & H).
  apply Outcome_bind_Done in H as ([r s1] & H1 & H).
  apply raise_spec in H1 as (-> & Ht & b & ->). injection H as <-. split; [lia|]. exists b. done.
Qed.

(** A lock taken from a state in which the invariant holds. *)
Lemma acquire_core l s s' :
  EventCore s -> CoreAcquireLock l s = Done s' ->
  EventCore s' /\ gEfiCurrentTpl s' = LockTpl l /\ lk_OwnerTpl (Locks s' l) = gEfiCurrentTpl s /\
  (forall l', l' <> l -> Locks s' l' = Locks s l') /\
  TimerFrame s s' /\ Events s' = Events s /\ gEfiCurrentTpl s <= LockTpl l /\
  gEventPending s' = gEventPending s.
Proof.
  intros HC H. apply acquire_spec in H as (Ht & b & ->). split_and!; try done.
  - by apply EventCore_relevel.
  - simpl. by rewrite fn_lookup_insert.
  - intros l' Hl. simpl. by rewrite fn_lookup_insert_ne.
Qed.

Lemma acquire_done l s :
  lk_Acquired (Locks s l) = false -> gEfiCurrentTpl s <= LockTpl l ->
  exists b, CoreAcquireLock l s =
    Done (Relevel (LockTpl l) b (<[l := MkLock (gEfiCurrentTpl s) true]> (Locks s)) s).
Proof.
  intros HL Ht. unfold Event.CoreAcquireLock, CoreRaiseTpl. rewrite HL. cbn [negb ASSERT mbind Outcome_bind].
  rewrite (proj2 (Z.ltb_ge (LockTpl l) (gEfiCurrentTpl s))) by lia. cbn [negb ASSERT mbind Outcome_bind].
  assert (VALID_TPL (LockTpl l) = true) as -> by (by destruct l). cbn [ASSERT mbind Outcome_bind].
  destruct (interrupt_spec false s) as [b ->].
  destruct ((TPL_HIGH_LEVEL <=? LockTpl l) && _); [by exists b|].
  exists (InterruptState s). by destruct s.
Qed.

Context (Restore : Z -> EventState W -> Outcome (EventState W)) {HR : RestoreSpec Restore}.

Lemma release_core l s s' :
  EventCore s -> CoreReleaseLock Restore l s = Done s' ->
  EventCore s' /\ Quiet s' /\ gEfiCurrentTpl s' = lk_OwnerTpl (Locks s l).
Proof using HR.
  intros HC H. unfold CoreReleaseLock in H. apply Outcome_bind_Done in H as ([] & _ & H).
  apply restore_core in H; [done|]. by destruct HC.
Qed.

(** Releasing a lock taken at a level above which nothing is pending. *)
Lemma release_quiet l s s' :
  0 <= gEventPending s -> (forall i, Z.testbit (gEventPending s) i = true -> i <= lk_OwnerTpl (Locks s l)) ->
  CoreReleaseLock Restore l s = Done s' ->
  exists b, s' = Relevel (lk_OwnerTpl (Locks s l)) b
    (<[l := MkLock (lk_OwnerTpl (Locks s l)) false]> (Locks s)) s.
Proof using HR.
  intros HP HQ H. unfold CoreReleaseLock in H. apply Outcome_bind_Done in H as ([] & _ & H).
  apply restore_quiet in H as (b & ->); [|done|done]. exists b. by destruct s.
Qed.

Lemma release_done l s :
  lk_Acquired (Locks s l) = true -> lk_OwnerTpl (Locks s l) <= gEfiCurrentTpl s -> gEfiCurrentTpl s <= 31 ->
  0 <= gEventPending s -> (forall i, Z.testbit (gEventPending s) i = true -> i <= lk_OwnerTpl (Locks s l)) ->
  exists b, CoreReleaseLock Restore l s =
    Done (Relevel (lk_OwnerTpl (Locks s l)) b (<[l := MkLock (lk_OwnerTpl (Locks s l)) false]> (Locks s)) s).
Proof using HR.
  intros HA HO H31 HP HQ. unfold CoreReleaseLock. rewrite HA. cbn [ASSERT mbind Outcome_bind]. cbn zeta.
  set (s1 := set_Locks _ s).
  destruct (restore_returns (lk_OwnerTpl (Locks s l)) s1) as [s' H]; simpl; [done|lia|done|done|].
  rewrite H. apply restore_quiet in H as [b ->]; [|done|done]. by exists b.
Qed.

(** Both, for a lock taken at level 30 or above. *)
Lemma release_high l s s' :
  EventCore s -> 30 <= lk_OwnerTpl (Locks s l) -> CoreReleaseLock Restore l s = Done s' ->
  TimerFrame s s' /\ Events s' = Events s /\ (forall l', l' <> l -> Locks s' l' = Locks s l').
Proof using HR.
  intros HC Ho H. apply release_quiet in H as (b & ->).
  - split_and!; try done. intros l' Hl. simpl. by rewrite fn_lookup_insert_ne.
  - apply HC.
  - intros i Hi. apply (proj2 (ec_bits s HC)) in Hi. lia.
Qed.

(** ** Signalling *)

Lemma notify_keeps e s s' :
  EventCore s -> CoreNotifyEvent e s = Done s' ->
  gEfiCurrentTpl s' = gEfiCurrentTpl s /\ Locks s' = Locks s /\ gEventSignalQueue s' = gEventSignalQueue s.
Proof. intros HC H. destruct (notify_spec e s s' HC H) as (ev & He & -> & _). done. Qed.

Lemma signal_type_notifies ev : HasFlag (ev_Type ev) EVT_NOTIFY_SIGNAL = true -> Notifies ev = true.
Proof. intros H. unfold Notifies. by rewrite HasFlag_lor, H, orb_true_r. Qed.

Lemma wait_type_notifies ev : HasFlag (ev_Type ev) EVT_NOTIFY_WAIT = true -> Notifies ev = true.
Proof. intros H. unfold Notifies. by rewrite HasFlag_lor, H. Qed.

Lemma signal_loop_core g Link : forall s s',
  EventCore s -> (forall e, e ∈ Link -> e ∈ gEventSignalQueue s) ->
  NotifySignalLoop g Link s = Done s' ->
  EventCore s' /\ gEfiCurrentTpl s' = gEfiCurrentTpl s /\ Locks s' = Locks s /\ TimerFrame s s'.
Proof.
  induction Link as [|e Link IH]; intros s s' HC HL H; cbn [NotifySignalLoop] in H.
  { injection H as <-. done. }
  apply Outcome_bind_Done in H as (ev & He & H). apply Outcome_bind_Done in H as (s1 & H1 & H).
  unfold ReadEvent in He. destruct (Events s !! e) as [ev'|] eqn:E; [|done]. injection He as ->.
  destruct (ev_EventGroup ev =? g).
  - assert (HN : Notifies ev = true).
    { apply signal_type_notifies, (et_signal _ (ec_typed s HC _ _ E)).
      apply (linked_in _ _ _ (ec_signal s HC) e ev E), HL, elem_of_cons. by left. }
    pose proof (notify_core _ _ _ _ HC E HN H1) as HC1.
    pose proof (notify_keeps _ _ _ HC H1) as (K1 & K2 & K3).
    apply IH in H as (? & ? & ? & ?); [|done|].
    + split_and!; try congruence. etrans; [by eapply notify_frame|done].
    + intros x Hx. rewrite K3. apply HL, elem_of_cons. by right.
  - injection H1 as <-. apply IH in H; [done|done|]. intros x Hx. apply HL, elem_of_cons. by right.
Qed.

Lemma signal_list_core g s s' :
  EventCore s -> CoreNotifySignalList gCpuPresent gSmmBase2 Restore g s = Done s' ->
  EventCore s' /\ Quiet s' /\ gEfiCurrentTpl s' = gEfiCurrentTpl s /\
  (30 <= gEfiCurrentTpl s -> TimerFrame s s').
Proof using HR.
  intros HC H. unfold CoreNotifySignalList in H. apply Outcome_bind_Done in H as (s1 & H1 & H).
  apply Outcome_bind_Done in H as (s2 & H2 & H).
  apply acquire_core in H1 as (C1 & T1 & O1 & _ & F1 & _); [|done].
  apply signal_loop_core in H2 as (C2 & T2 & L2 & F2); [|done|done].
  pose proof (release_core _ _ _ C2 H) as (C3 & Q3 & T3). split_and!; try done.
  - by rewrite T3, L2.
  - intros Ht. etrans; [done|]. etrans; [done|]. eapply release_high; [done| |done].
    unfold CoreAcquireEventLock in *. rewrite L2, O1. done.
Qed.

Lemma set_SignalCount_core e n s : EventCore s -> EventCore (UpdateEvent e (set_SignalCount n) s).
Proof. intros HC. apply update_core; [done|by left|done]. Qed.

(** [CoreSignalEvent]: the invariant is kept and the level is as before; from
    level 30 on nothing runs, so that the timers are as before. *)
Lemma signal_core e s r s' :
  EventCore s -> CoreSignalEvent gCpuPresent gSmmBase2 Restore e s = Done (r, s') ->
  EventCore s' /\ (Quiet s -> Quiet s') /\ gEfiCurrentTpl s' = gEfiCurrentTpl s /\
  (30 <= gEfiCurrentTpl s -> TimerFrame s s').
Proof using HR.
  intros HC H. unfold CoreSignalEvent in H. destruct (e =? 0); [by injection H as <- <-|].
  destruct (Events s !! e) as [ev|] eqn:E; [|by injection H as <- <-].
  apply Outcome_bind_Done in H as (s1 & H1 & H). apply Outcome_bind_Done in H as (ev1 & He & H).
  apply Outcome_bind_Done in H as (s2 & H2 & H). apply Outcome_bind_Done in H as (s3 & H3 & H).
  injection H as <- <-. apply acquire_core in H1 as (C1 & T1 & O1 & _ & F1 & E1 & _); [|done].
  unfold ReadEvent in He. rewrite E1, E in He. injection He as <-.
  assert (HX : EventCore s2 /\ lk_OwnerTpl (Locks s2 gEventQueueLock) = gEfiCurrentTpl s /\
               (30 <= gEfiCurrentTpl s -> TimerFrame s s2)).
  { destruct (ev_SignalCount ev =? 0); [|by injection H2 as <-].
    pose proof (set_SignalCount_core e (ev_SignalCount ev + 1) s1 C1) as CU.
    pose proof (update_frame e (set_SignalCount (ev_SignalCount ev + 1)) s1 ltac:(done)) as FU.
    cbn zeta in H2. destruct (HasFlag (ev_Type ev) EVT_NOTIFY_SIGNAL) eqn:ES.
    - destruct (HasFlag (ev_ExFlag ev) EVT_EXFLAG_EVENT_GROUP).
      + apply Outcome_bind_Done in H2 as (s4 & H4 & H2). apply Outcome_bind_Done in H2 as (s5 & H5 & H2).
        pose proof (release_core _ _ _ CU H4) as (C4 & _ & T4). simpl in T4. rewrite O1 in T4.
        apply signal_list_core in H5 as (C5 & _ & T5 & F5); [|done].
        apply acquire_core in H2 as (C6 & T6 & O6 & _ & F6 & _); [|done].
        split_and!; [done|congruence|]. intros Ht. etrans; [done|]. etrans; [done|].
        etrans; [eapply release_high; [exact CU|simpl; by rewrite O1|done]|].
        etrans; [apply F5; congruence|done].
      + pose proof (notify_keeps _ _ _ CU H2) as (K1 & K2 & K3). split_and!.
        * apply (notify_core e (set_SignalCount (ev_SignalCount ev + 1) ev) _ _ CU); [| |done].
          -- simpl. by rewrite lookup_alter_eq, E1, E.
          -- by apply (signal_type_notifies ev).
        * rewrite K2. simpl. done.
        * intros Ht. etrans; [done|]. etrans; [done|]. by eapply notify_frame.
    - injection H2 as <-. split_and!; [done|done|]. intros _. by etrans. }
  destruct HX as (C2 & O2 & F2). pose proof (release_core _ _ _ C2 H3) as (C3 & Q3 & T3).
  split_and!; [done|done|congruence|]. intros Ht. etrans; [by apply F2|].
  eapply release_high; [done| |done]. by rewrite O2.
Qed.

(** ** Checking and creating *)

Lemma check_core e s r s' :
  EventCore s -> CoreCheckEvent gCpuPresent gSmmBase2 Restore e s = Done (r, s') ->
  EventCore s' /\ (Quiet s -> Quiet s') /\ gEfiCurrentTpl s' = gEfiCurrentTpl s.
Proof using HR.
  intros HC H. unfold CoreCheckEvent in H. destruct (e =? 0); [by injection H as <- <-|].
  destruct (Events s !! e) as [ev|] eqn:E; [|by injection H as <- <-].
  destruct (HasFlag (ev_Type ev) EVT_NOTIFY_SIGNAL) eqn:ES; [by injection H as <- <-|].
  apply Outcome_bind_Done in H as (s1 & H1 & H). apply Outcome_bind_Done in H as (ev1 & He & H).
  assert (HX : EventCore s1 /\ (Quiet s -> Quiet s1) /\ gEfiCurrentTpl s1 = gEfiCurrentTpl s).
  { destruct ((ev_SignalCount ev =? 0) && HasFlag (ev_Type ev) EVT_NOTIFY_WAIT) eqn:EW;
      [|by injection H1 as <-]. apply andb_true_iff in EW as [_ EW].
    apply Outcome_bind_Done in H1 as (s2 & H2 & H1). apply Outcome_bind_Done in H1 as (ev2 & He2 & H1).
    apply Outcome_bind_Done in H1 as (s3 & H3 & H1).
    apply acquire_core in H2 as (C2 & T2 & O2 & _ & F2 & E2 & _); [|done].
    unfold ReadEvent in He2. rewrite E2, E in He2. injection He2 as <-.
    assert (C3 : EventCore s3 /\ Locks s3 = Locks s2).
    { destruct (ev_SignalCount ev =? 0); [|by injection H3 as <-]. split.
      - eapply (notify_core e ev); [done|by rewrite E2|by apply wait_type_notifies|done].
      - by apply (notify_keeps e). }
    destruct C3 as [C3 L3]. pose proof (release_core _ _ _ C3 H1) as (C4 & Q4 & T4).
    split_and!; [done|done|]. by rewrite T4, L3. }
  destruct HX as (C1 & Q1 & T1). destruct (negb (ev_SignalCount ev1 =? 0)).
  - apply Outcome_bind_Done in H as (s2 & H2 & H). apply Outcome_bind_Done in H as (ev2 & He2 & H).
    apply acquire_core in H2 as (C2 & T2 & O2 & _ & F2 & E2 & _); [|done].
    destruct (negb (ev_SignalCount ev2 =? 0)); apply Outcome_bind_Done in H as (s3 & H3 & H);
      injection H as <- <-.
    + pose proof (release_core _ _ _ (set_SignalCount_core e 0 _ C2) H3) as (C3 & Q3 & T3).
      split_and!; [done|done|]. rewrite T3. simpl. congruence.
    + pose proof (release_core _ _ _ C2 H3) as (C3 & Q3 & T3). split_and!; [done|done|congruence].
  - by injection H as <- <-.
Qed.

(** Linking a new event, its fields as [CoreCreateEventInternal] fills them in. *)
Lemma create_event_core ev s :
  EventCore s -> EventTyped ev -> ev_NotifyLinked ev = false -> ev_TimerLinked ev = false ->
  EventCore (set_SignalQueue (if ev_SignalLinked ev then NextEvent s :: gEventSignalQueue s else gEventSignalQueue s)
    (set_RuntimeHead (if ev_RuntimeLinked ev then RuntimeEventHead s ++ [NextEvent s] else RuntimeEventHead s)
      (set_NextEvent (NextEvent s + 1) (set_Events (<[NextEvent s := ev]> (Events s)) s)))).
Proof.
  intros [C1 C2 C3 C4 C5 C6 C7 C8 C9] HT HN HTi.
  assert (HF : Events s !! NextEvent s = None).
  { destruct (Events s !! NextEvent s) eqn:E; [|done]. pose proof (proj1 C7 _ _ E). cbv beta in *. lia. }
  split; simpl; try done.
  - intros t. apply linked_insert with (l := gEventQueue s t); [apply C1|done|].
    unfold QueuedAt. by rewrite HN.
  - eapply linked_insert; [done|done|]. by destruct (ev_SignalLinked ev).
  - eapply linked_insert; [done|done|]. destruct (ev_RuntimeLinked ev); [|done].
    by rewrite Permutation_app_comm.
  - eapply linked_insert; [done|done|]. by rewrite HTi.
  - replace (TimeOf (<[NextEvent s := ev]> (Events s)) <$> mEfiTimerList s) with
      (TimeOf (Events s) <$> mEfiTimerList s); [done|].
    apply list_fmap_ext. intros i x Hx. unfold TimeOf. rewrite lookup_insert_ne; [done|].
    apply list_elem_of_lookup_2, (proj2 C4) in Hx as (ev' & He & _). congruence.
  - by apply map_Forall_insert_2.
  - split; [|lia]. apply map_Forall_insert_2; [lia|]. intros x ev' Hx. pose proof (proj1 C7 _ _ Hx). cbv beta in *. lia.
Qed.

Lemma create_core ty tpl fn c g b s st e s' :
  EventCore s ->
  CoreCreateEventInternal gCpuPresent gSmmBase2 PoolAvailable Restore ty tpl fn c g b s = Done (st, e, s') ->
  EventCore s' /\ (Quiet s -> Quiet s') /\ gEfiCurrentTpl s' = gEfiCurrentTpl s.
Proof using HR.
  intros HC H. unfold CoreCreateEventInternal in H.
  destruct b; [by injection H as <- <- <-|].
  destruct (negb (existsb (Z.eqb ty) mEventTable)); [by injection H as <- <- <-|].
  destruct (CreateEventConvert ty g) as [[ty' g']|]; [|by injection H as <- <- <-].
  set (N := HasFlag ty' (Z.lor EVT_NOTIFY_WAIT EVT_NOTIFY_SIGNAL)) in *.
  destruct (N && (bool_decide (fn = None) || (tpl <=? TPL_APPLICATION) || (TPL_HIGH_LEVEL <=? tpl))) eqn:EN;
    [by injection H as <- <- <-|].
  destruct (if N then (tpl, fn, c) else (0, None, 0)) as [[tpl' fn'] c'] eqn:EP.
  destruct (negb (PoolAvailable (NextEvent s))); [by injection H as <- <- <-|]. cbn zeta in H.
  set (ev := MkEvent ty' 0 (HasFlag ty' EVT_NOTIFY_SIGNAL) tpl' fn' c' (default 0 g') false
         (match g' with Some _ => EVT_EXFLAG_EVENT_GROUP | None => 0 end)
         (HasFlag ty' EVT_RUNTIME) false 0 0) in H.
  assert (HT : EventTyped ev).
  { split; simpl; try done. unfold Notifies. simpl. fold N. intros HN. rewrite HN in EN, EP.
    injection EP as <- <- <-. simpl in EN. unfold TPL_APPLICATION, TPL_HIGH_LEVEL in EN. bool_to_Z.
    apply bool_decide_eq_false in H0. split; [lia|done]. }
  pose proof (create_event_core ev s HC HT eq_refl eq_refl) as HC'. simpl in HC'.
  apply Outcome_bind_Done in H as (s1 & H1 & H). injection H as <- <- <-.
  destruct (HasFlag ty' EVT_NOTIFY_SIGNAL) eqn:ES.
  - apply Outcome_bind_Done in H1 as (s2 & H2 & H1). apply acquire_spec in H2 as (Ht & b & ->).
    match type of H1 with CoreReleaseEventLock _ ?x = _ => assert (HCx : EventCore x) end.
    { destruct (HasFlag ty' EVT_RUNTIME); by destruct HC'. }
    pose proof (release_core _ _ _ HCx H1) as (C4 & Q4 & T4). split_and!; [done|done|].
    rewrite T4. by destruct (HasFlag ty' EVT_RUNTIME).
  - injection H1 as <-. split_and!; [|by destruct (HasFlag ty' EVT_RUNTIME)..].
    destruct (HasFlag ty' EVT_RUNTIME); by destruct HC'.
Qed.

(** ** Timers *)

Lemma sorted_filter (f : Z -> Z) (P : Z -> Prop) `{!forall x, Decision (P x)} (l : list Z) :
  StronglySorted Z.le (f <$> l) -> StronglySorted Z.le (f <$> filter P l).
Proof.
  induction l as [|x l IH]; [done|]. rewrite fmap_cons. intros HS.
  apply StronglySorted_inv in HS as [HS HF]. destruct (decide (P x)).
  - rewrite filter_cons_True, fmap_cons by done. constructor; [by apply IH|].
    rewrite Forall_fmap, Forall_forall in *. intros y Hy. apply HF. by apply list_elem_of_filter in Hy as [_ ?].
  - rewrite filter_cons_False by done. by apply IH.
Qed.

Lemma insert_timer_sorted e s l : forall l',
  InsertTimer (TimeOf (Events s) e) e s l = Done l' ->
  StronglySorted Z.le (TimeOf (Events s) <$> l) ->
  l' ≡ₚ e :: l /\ StronglySorted Z.le (TimeOf (Events s) <$> l').
Proof.
  induction l as [|e2 l IH]; intros l' H HS; cbn [InsertTimer] in H.
  { injection H as <-. split; [done|]. repeat constructor. }
  apply Outcome_bind_Done in H as (ev2 & He & H). unfold ReadEvent in He.
  destruct (Events s !! e2) as [ev2'|] eqn:E; [|done]. injection He as ->.
  assert (HT : TimeOf (Events s) e2 = ev_TriggerTime ev2) by (unfold TimeOf; by rewrite E).
  rewrite fmap_cons in HS. apply StronglySorted_inv in HS as [HS HF]. rewrite Forall_fmap in HF.
  destruct (TimeOf (Events s) e <? ev_TriggerTime ev2) eqn:EL; bool_to_Z.
  - injection H as <-. split; [done|]. rewrite !fmap_cons. constructor.
    + constructor; [done|]. by rewrite Forall_fmap.
    + constructor; [lia|]. rewrite Forall_fmap. eapply Forall_impl; [done|]. simpl. intros x ?. lia.
  - apply Outcome_bind_Done in H as (l1 & H1 & H). injection H as <-.
    destruct (IH _ H1 HS) as [HP HS']. split; [rewrite HP; by constructor|].
    rewrite fmap_cons. constructor; [done|]. rewrite Forall_fmap, HP. constructor; [simpl; lia|done].
Qed.

Lemma insert_event_core e ev s s' :
  EventCore s -> Events s !! e = Some ev -> ev_TimerLinked ev = false ->
  HasFlag (ev_Type ev) EVT_TIMER = true -> CoreInsertEventTimer e s = Done s' ->
  EventCore s' /\ s' = set_TimerList (mEfiTimerList s') (UpdateEvent e (set_TimerLinked true) s) /\
  mEfiTimerList s' ≡ₚ e :: mEfiTimerList s.
Proof.
  intros HC He HL HT H. unfold CoreInsertEventTimer, ReadEvent in H.
  apply Outcome_bind_Done in H as ([] & _ & H). rewrite He in H. cbn [mbind Outcome_bind] in H.
  apply Outcome_bind_Done in H as (l & Hl & H). injection H as <-.
  assert (HTi : ev_TriggerTime ev = TimeOf (Events s) e) by (unfold TimeOf; by rewrite He).
  rewrite HTi in Hl. destruct HC as [C1 C2 C3 C4 C5 C6 C7 C8 C9].
  apply insert_timer_sorted in Hl as [HP HS]; [|done]. split_and!; [|done|done].
  split; simpl; try done.
  - intros t. by apply linked_alter_same.
  - by apply linked_alter_same.
  - by apply linked_alter_same.
  - by eapply (linked_add _ _ _ C4 e ev).
  - rewrite TimeOf_alter; [done|by left].
  - intros x ev2 Hx. apply lookup_alter_Some in Hx as [(<- & ev3 & He3 & ->)|[? ?]]; [|by eapply C6].
    assert (ev3 = ev) as -> by congruence. destruct (C6 _ _ He) as [T1 T2 T3 T4]. by split.
  - split; [|apply C7]. intros x ev2 Hx.
    apply lookup_alter_Some in Hx as [(<- & ev3 & He3 & ->)|[? ?]]; by eapply (proj1 C7).
Qed.

Lemma unlink_timer_core e s :
  EventCore s ->
  EventCore (UpdateEvent e (set_TimerLinked false) (set_TimerList (RemoveEntry e (mEfiTimerList s)) s)).
Proof.
  intros [C1 C2 C3 C4 C5 C6 C7 C8 C9]. split; simpl; try done.
  - intros t. by apply linked_alter_same.
  - by apply linked_alter_same.
  - by apply linked_alter_same.
  - by apply linked_remove.
  - rewrite TimeOf_alter by (by left). by apply sorted_filter.
  - intros x ev2 Hx. apply lookup_alter_Some in Hx as [(<- & ev3 & He3 & ->)|[? ?]]; [|by eapply C6].
    destruct (C6 _ _ He3) as [T1 T2 T3 T4]. by split.
  - split; [|apply C7]. intros x ev2 Hx.
    apply lookup_alter_Some in Hx as [(<- & ev3 & He3 & ->)|[? ?]]; by eapply (proj1 C7).
Qed.

Lemma system_time_spec s t s' :
  EventCore s -> 30 <= gEfiCurrentTpl s ->
  CoreCurrentSystemTime gCpuPresent gSmmBase2 Restore s = Done (t, s') ->
  t = mEfiSystemTime s /\ exists b L, s' = Relevel (gEfiCurrentTpl s) b L s /\
    forall l, l <> mEfiSystemTimeLock -> L l = Locks s l.
Proof using HR.
  intros HC Ht H. unfold CoreCurrentSystemTime in H. apply Outcome_bind_Done in H as (s1 & H1 & H).
  apply Outcome_bind_Done in H as (s2 & H2 & H). injection H as <- <-.
  apply acquire_spec in H1 as (_ & b1 & ->). split; [done|].
  apply release_quiet in H2 as (b2 & ->); [| |].
  - eexists _, _. split; [reflexivity|]. intros l Hl. by destruct l.
  - apply HC.
  - intros i Hi. apply (proj2 (ec_bits s HC)) in Hi. change (i <= gEfiCurrentTpl s). lia.
Qed.

(** Changing the times of an event that is in no timer list. *)
Lemma set_times_core e f s :
  (exists g, f = set_TriggerTime g) \/ (exists p, f = set_Period p) \/
    f = (fun ev => set_Period 0 (set_TriggerTime 0 ev)) ->
  e ∉ mEfiTimerList s -> EventCore s -> EventCore (UpdateEvent e f s).
Proof.
  intros Hf He HC. apply update_core; [|by right|done].
  intros ev. by destruct Hf as [[g ->]|[[p ->]| ->]].
Qed.

Lemma head_removed e s Rest :
  EventCore s -> mEfiTimerList s = e :: Rest -> RemoveEntry e (mEfiTimerList s) = Rest /\ e ∉ Rest.
Proof.
  intros HC HL. pose proof (proj1 (ec_timer s HC)) as HN. rewrite HL in *.
  apply NoDup_cons in HN as [? ?]. split; [|done]. unfold RemoveEntry.
  rewrite filter_cons_False by (by intros []). by apply RemoveEntry_id.
Qed.

(** The part of a round of [CheckTimersLoop] that sets a periodic timer again. *)
Lemma check_rearm_core now e ev s s' :
  EventCore s -> e ∉ mEfiTimerList s -> Events s !! e = Some ev -> ev_TimerLinked ev = false ->
  HasFlag (ev_Type ev) EVT_TIMER = true -> 30 <= gEfiCurrentTpl s ->
  (if negb (ev_Period ev =? 0) then
     let TriggerTime := add64 (ev_TriggerTime ev) (ev_Period ev) in
     s ← (if TriggerTime <=? now then
            let s := UpdateEvent e (set_TriggerTime now) s in
            '(_, s) ← CoreSignalEvent gCpuPresent gSmmBase2 Restore (mEfiCheckTimerEvent s) s;
            Done s
          else Done (UpdateEvent e (set_TriggerTime TriggerTime) s));
     CoreInsertEventTimer e s
   else Done s) = Done s' ->
  EventCore s' /\ gEfiCurrentTpl s' = gEfiCurrentTpl s.
Proof using HR.
  intros HC He E HL HTy Ht H. destruct (negb (ev_Period ev =? 0)); [|by injection H as <-]. cbn zeta in H.
  apply Outcome_bind_Done in H as (s4 & H4 & H3).
  assert (X : exists ev4, EventCore s4 /\ Events s4 !! e = Some ev4 /\ ev_TimerLinked ev4 = false /\
    HasFlag (ev_Type ev4) EVT_TIMER = true /\ gEfiCurrentTpl s4 = gEfiCurrentTpl s).
  { destruct (add64 (ev_TriggerTime ev) (ev_Period ev) <=? now).
    - apply Outcome_bind_Done in H4 as ([r2 s5] & H5 & H4). injection H4 as <-.
      pose proof (set_times_core e (set_TriggerTime now) s ltac:(eauto) He HC) as C4.
      apply signal_core in H5 as (C5 & _ & T5 & F5); [|done]. destruct F5 as (F5 & _ & _ & F6); [done|]. specialize (F6 e).
      simpl in F6. rewrite lookup_alter_eq, E in F6. simpl in F6.
      destruct (Events s5 !! e) as [ev5|] eqn:E5; [|done]. simpl in F6. injection F6 as G1 G2 G3 G4.
      exists ev5. split_and!; [done|done|congruence|congruence|done].
    - injection H4 as <-. eexists. split_and!; [by apply set_times_core; [eauto|..]|simpl; by rewrite lookup_alter_eq, E|done..]. }
  destruct X as (ev4 & C4 & E4 & L4 & Y4 & T4). split; [by eapply (insert_event_core e ev4 s4 s' C4 E4)|].
  unfold CoreInsertEventTimer in H3. apply Outcome_bind_Done in H3 as ([] & _ & H3).
  apply Outcome_bind_Done in H3 as (? & _ & H3). apply Outcome_bind_Done in H3 as (? & _ & H3). injection H3 as <-. done.
Qed.

Lemma check_loop_core now fuel : forall s s',
  EventCore s -> 30 <= gEfiCurrentTpl s ->
  CheckTimersLoop gCpuPresent gSmmBase2 Restore fuel now s = Done s' -> EventCore s'.
Proof using HR.
  induction fuel as [|fuel IH]; intros s s' HC Ht H; cbn [CheckTimersLoop] in H;
    (destruct (mEfiTimerList s) as [|e Rest] eqn:EL; [by injection H as <-|]);
    apply Outcome_bind_Done in H as (ev & He & H); unfold ReadEvent in He;
    (destruct (Events s !! e) as [ev'|] eqn:E; [|done]); injection He as ->;
    (destruct (now <? ev_TriggerTime ev); [by injection H as <-|]); [done|]. cbn zeta in H.
  destruct (head_removed e s Rest HC EL) as [HR1 HR2].
  pose proof (unlink_timer_core e s HC) as C1. rewrite HR1 in C1.
  set (s1 := UpdateEvent e (set_TimerLinked false) (set_TimerList Rest s)) in *.
  apply Outcome_bind_Done in H as ([r s2] & H2 & H). apply Outcome_bind_Done in H as (ev2 & He2 & H).
  apply Outcome_bind_Done in H as (s3 & H3 & H).
  apply signal_core in H2 as (C2 & _ & T2 & F2); [|done]. specialize (F2 Ht).
  assert (HF : (e ∉ mEfiTimerList s2) /\ ev_TimerLinked ev2 = false /\ Events s2 !! e = Some ev2).
  { unfold ReadEvent in He2. destruct (Events s2 !! e) as [ev2'|] eqn:E2; [|done]. injection He2 as ->.
    destruct F2 as (F2 & _ & _ & F3). split; [by rewrite F2|]. split; [|done].
    specialize (F3 e). rewrite E2 in F3. simpl in F3. rewrite lookup_alter_eq, E in F3. simpl in F3. congruence. }
  destruct HF as (HF1 & HF2 & HF3).
  assert (HTy : HasFlag (ev_Type ev2) EVT_TIMER = true).
  { destruct F2 as (_ & _ & _ & F3). specialize (F3 e). rewrite HF3 in F3. simpl in F3.
    rewrite lookup_alter_eq, E in F3. simpl in F3. injection F3 as -> _ _ _.
    apply (et_timer _ (ec_typed s HC _ _ E)), (linked_in _ _ _ (ec_timer s HC) e ev E).
    rewrite EL. apply elem_of_cons. by left. }
  destruct (check_rearm_core now e ev2 s2 s3 C2 HF1 HF3 HF2 HTy) as [C3 T3]; [by rewrite T2|done|].
  eapply IH; [done| |exact H]. by rewrite T3, T2.
Qed.

Lemma check_timers_core fuel s s' :
  EventCore s -> CoreCheckTimers gCpuPresent gSmmBase2 Restore fuel s = Done s' -> EventCore s' /\ Quiet s'.
Proof using HR.
  intros HC H. unfold CoreCheckTimers in H. apply Outcome_bind_Done in H as (s1 & H1 & H).
  apply Outcome_bind_Done in H as ([now s2] & H2 & H). apply Outcome_bind_Done in H as (s3 & H3 & H).
  apply acquire_core in H1 as (C1 & T1 & _); [|done].
  apply system_time_spec in H2 as (-> & b & L & -> & _); [|done|by rewrite T1].
  apply check_loop_core in H3; [|by apply EventCore_relevel|simpl; by rewrite T1].
  by apply release_core in H as (? & ? & _).
Qed.

Lemma tick_core d s s' :
  EventCore s -> CoreTimerTick gCpuPresent gSmmBase2 Restore d s = Done s' ->
  EventCore s' /\ Quiet s'.
Proof using HR.
  intros HC H. unfold CoreTimerTick in H. apply Outcome_bind_Done in H as (s1 & H1 & H).
  apply Outcome_bind_Done in H as (s2 & H2 & H). apply acquire_core in H1 as (C1 & T1 & _); [|done].
  assert (C2 : EventCore (set_SystemTime (add64 (mEfiSystemTime s1) d) s1)) by (by destruct C1).
  assert (C3 : EventCore s2).
  { destruct (mEfiTimerList _) as [|e l]; [by injection H2 as <-|].
    apply Outcome_bind_Done in H2 as (ev & _ & H2).
    destruct (ev_TriggerTime ev <=? _); [|by injection H2 as <-].
    apply Outcome_bind_Done in H2 as ([r s3] & H3 & H2). injection H2 as <-.
    by apply signal_core in H3 as (? & _). }
  by apply release_core in H as (? & ? & _).
Qed.

(** The part of [CoreSetTimer] that takes the timer off the list. *)
Lemma reset_timer_core e ev s :
  EventCore s -> Events s !! e = Some ev ->
  let s1 := if ev_TimerLinked ev
            then UpdateEvent e (set_TimerLinked false) (set_TimerList (RemoveEntry e (mEfiTimerList s)) s) else s in
  let s2 := UpdateEvent e (fun ev => set_Period 0 (set_TriggerTime 0 ev)) s1 in
  EventCore s2 /\ (e ∉ mEfiTimerList s2) /\
  exists ev2, Events s2 !! e = Some ev2 /\ ev_TimerLinked ev2 = false /\ ev_Type ev2 = ev_Type ev.
Proof.
  intros HC He s1 s2.
  assert (H1 : EventCore s1 /\ (e ∉ mEfiTimerList s1) /\
    exists ev1, Events s1 !! e = Some ev1 /\ ev_TimerLinked ev1 = false /\ ev_Type ev1 = ev_Type ev).
  { unfold s1. destruct (ev_TimerLinked ev) eqn:EL.
    - split; [by apply unlink_timer_core|]. split.
      + simpl. rewrite elem_of_RemoveEntry. by intros [? _].
      + exists (set_TimerLinked false ev). split; [|done]. simpl. by rewrite lookup_alter_eq, He.
    - split; [done|]. split; [by eapply (linked_not _ _ _ (ec_timer s HC))|eauto]. }
  destruct H1 as (C1 & N1 & ev1 & E1 & L1 & Y1).
  split; [by apply set_times_core; [eauto|..]|]. split; [done|].
  exists (set_Period 0 (set_TriggerTime 0 ev1)). split; [|done]. simpl. by rewrite lookup_alter_eq, E1.
Qed.

(** The part of [CoreSetTimer] that arms the timer. *)
Lemma arm_timer_core e tt ev s s' :
  EventCore s -> 30 <= gEfiCurrentTpl s -> e ∉ mEfiTimerList s -> Events s !! e = Some ev ->
  ev_TimerLinked ev = false -> HasFlag (ev_Type ev) EVT_TIMER = true ->
  ('(Now, s) ← CoreCurrentSystemTime gCpuPresent gSmmBase2 Restore s;
   let s := UpdateEvent e (set_TriggerTime (add64 Now tt)) s in
   s ← CoreInsertEventTimer e s;
   if tt =? 0 then
     '(_, s) ← CoreSignalEvent gCpuPresent gSmmBase2 Restore (mEfiCheckTimerEvent s) s;
     Done s
   else Done s) = Done s' -> EventCore s'.
Proof using HR.
  intros HC Ht HN He HL HT H. apply Outcome_bind_Done in H as ([now s1] & H1 & H).
  apply system_time_spec in H1 as (-> & b & L & -> & _); [|done|done]. cbn zeta in H.
  apply Outcome_bind_Done in H as (s2 & H2 & H).
  apply (insert_event_core e (set_TriggerTime (add64 (mEfiSystemTime s) tt) ev)) in H2 as (C2 & _);
    [|apply set_times_core; [eauto|done|by apply EventCore_relevel]
     |simpl; by rewrite lookup_alter_eq, He|done|done].
  destruct (tt =? 0); [|by injection H as <-].
  apply Outcome_bind_Done in H as ([r s3] & H3 & H). injection H as <-.
  by apply signal_core in H3 as (? & _).
Qed.

Lemma set_timer_core e ty tt s r s' :
  EventCore s -> CoreSetTimer gCpuPresent gSmmBase2 TimerPeriod Restore e ty tt s = Done (r, s') ->
  EventCore s' /\ (Quiet s -> Quiet s').
Proof using HR.
  intros HC H. unfold CoreSetTimer in H. destruct (e =? 0); [by injection H as <- <-|].
  destruct (Events s !! e) as [ev|] eqn:E; [|by injection H as <- <-].
  destruct ((TimerRelative <? ty) || negb (HasFlag (ev_Type ev) EVT_TIMER)) eqn:EG;
    [by injection H as <- <-|]. apply orb_false_iff in EG as [_ EG%negb_false_iff].
  apply Outcome_bind_Done in H as (s1 & H1 & H). apply Outcome_bind_Done in H as (ev1 & He1 & H).
  apply acquire_core in H1 as (C1 & T1 & _ & _ & _ & E1 & _); [|done].
  unfold ReadEvent in He1. rewrite E1, E in He1. injection He1 as <-. cbn zeta in H.
  destruct (reset_timer_core e ev s1 C1) as (C2 & N2 & ev2 & E2 & L2 & Y2); [congruence|].
  match goal with HH : EventCore (UpdateEvent e _ ?x) |- _ => set (s2 := UpdateEvent e _ x) in * end.
  assert (T2 : gEfiCurrentTpl s2 = 30) by (unfold s2; by destruct (ev_TimerLinked ev)). clearbody s2.
  apply Outcome_bind_Done in H as (s3 & H3 & H). apply Outcome_bind_Done in H as (s4 & H4 & H).
  injection H as <- <-.
  assert (C3 : EventCore s3); [|apply release_core in H4 as (? & ? & _); done].
  destruct (negb (ty =? TimerCancel)); [|by injection H3 as <-].
  destruct (ty =? TimerPeriodic).
  - set (tt' := if tt =? 0 then TimerPeriod else tt) in *.
    apply (arm_timer_core e tt' (set_Period tt' ev2)) in H3; try done.
    + by apply set_times_core; [eauto|..].
    + simpl. lia.
    + simpl. by rewrite lookup_alter_eq, E2.
    + simpl. congruence.
  - apply (arm_timer_core e tt ev2) in H3; try done; [lia|congruence].
Qed.

(** Cancelling a timer runs nothing, so that the event is still there. *)
Lemma cancel_timer_core e ev s r s' :
  EventCore s -> Quiet s -> Events s !! e = Some ev -> HasFlag (ev_Type ev) EVT_TIMER = true ->
  CoreSetTimer gCpuPresent gSmmBase2 TimerPeriod Restore e TimerCancel 0 s = Done (r, s') ->
  EventCore s' /\ Quiet s' /\ (e ∉ mEfiTimerList s').
Proof using HR.
  intros HC HQ E HT H. pose proof (set_timer_core _ _ _ _ _ _ HC H) as [C' Q'].
  split_and!; [done|by apply Q'|]. unfold CoreSetTimer in H.
  destruct (e =? 0) eqn:E0; [bool_to_Z; subst; destruct (proj1 (ec_fresh s HC) _ _ E); done|].
  rewrite E, HT in H. cbn [negb orb] in H. destruct (TimerRelative <? TimerCancel) eqn:EX; [done|].
  cbn [orb] in H. apply Outcome_bind_Done in H as (s1 & H1 & H). apply Outcome_bind_Done in H as (ev1 & He1 & H).
  apply acquire_spec in H1 as (Ht & b & ->). unfold ReadEvent in He1. simpl in He1. rewrite E in He1.
  injection He1 as <-. set (s1 := Relevel _ _ _ s) in *.
  destruct (reset_timer_core e ev s1) as (C2 & N2 & _); [by apply EventCore_relevel|done|].
  cbn zeta in H. match goal with HH : EventCore (UpdateEvent e _ ?x) |- _ => set (s2 := UpdateEvent e _ x) in * end.
  apply Outcome_bind_Done in H as (s3 & H3 & H). injection H3 as <-.
  apply Outcome_bind_Done in H as (s4 & H4 & H). injection H as _ <-.
  apply release_quiet in H4 as (b' & ->); [done| |].
  - apply C2.
  - intros i Hi. replace (lk_OwnerTpl (Locks s2 mEfiTimerLock)) with (gEfiCurrentTpl s).
    + apply HQ. replace (gEventPending s) with (gEventPending s2); [done|].
      unfold s2. by destruct (ev_TimerLinked ev).
    + unfold s2. by destruct (ev_TimerLinked ev).
Qed.

(** ** Closing *)

Lemma EventCore_ext s s' :
  EventCore s -> Events s' = Events s -> (forall t, gEventQueue s' t = gEventQueue s t) ->
  gEventSignalQueue s' = gEventSignalQueue s -> RuntimeEventHead s' = RuntimeEventHead s ->
  mEfiTimerList s' = mEfiTimerList s -> NextEvent s' = NextEvent s -> gEventPending s' = gEventPending s ->
  EventCore s'.
Proof.
  intros [C1 C2 C3 C4 C5 C6 C7 C8 C9] E1 E2 E3 E4 E5 E6 E7.
  split; rewrite ?E1, ?E3, ?E4, ?E5, ?E6, ?E7; try done.
  - intros t. rewrite E2. apply C1.
  - intros t. rewrite E2. apply C8.
Qed.

Lemma delete_core e s :
  EventCore s -> e ∉ mEfiTimerList s ->
  EventCore (set_Events (delete e (Events s))
    (set_Queue (fun t => RemoveEntry e (gEventQueue s t))
      (set_SignalQueue (RemoveEntry e (gEventSignalQueue s))
        (set_RuntimeHead (RemoveEntry e (RuntimeEventHead s)) s)))).
Proof.
  intros [C1 C2 C3 C4 C5 C6 C7 C8 C9] He. split; simpl; try done.
  - intros t. by apply linked_delete.
  - by apply linked_delete.
  - by apply linked_delete.
  - rewrite <- (RemoveEntry_id e (mEfiTimerList s)) by done. by apply linked_delete.
  - replace (TimeOf (delete e (Events s)) <$> mEfiTimerList s) with (TimeOf (Events s) <$> mEfiTimerList s); [done|].
    apply list_fmap_ext. intros i x Hx. unfold TimeOf. rewrite lookup_delete_ne; [done|].
    apply list_elem_of_lookup_2 in Hx. congruence.
  - by apply map_Forall_delete.
  - split; [|apply C7]. by apply map_Forall_delete, C7.
  - intros t Ht. apply C8. intros E. by rewrite E in Ht.
Qed.

Lemma close_core e s r s' :
  EventCore s -> Quiet s ->
  CoreCloseEvent gCpuPresent gSmmBase2 TimerPeriod Restore e s = Done (r, s') -> EventCore s' /\ Quiet s'.
Proof using HR.
  intros HC HQ H. unfold CoreCloseEvent in H. destruct (e =? 0); [by injection H as <- <-|].
  destruct (Events s !! e) as [ev|] eqn:E; [|by injection H as <- <-].
  apply Outcome_bind_Done in H as (s1 & H1 & H).
  assert (HX : EventCore s1 /\ Quiet s1 /\ (e ∉ mEfiTimerList s1)).
  { destruct (HasFlag (ev_Type ev) EVT_TIMER) eqn:ET.
    - apply Outcome_bind_Done in H1 as ([r1 s2] & H2 & H1). injection H1 as <-.
      by eapply cancel_timer_core.
    - injection H1 as <-. split_and!; [done|done|]. apply (linked_not _ _ _ (ec_timer s HC) e ev E).
      destruct (ev_TimerLinked ev) eqn:EL; [|done].
      by rewrite (et_timer _ (ec_typed s HC _ _ E) EL) in ET. }
  destruct HX as (C1 & Q1 & N1). clear H1 HC HQ E ev.
  apply Outcome_bind_Done in H as (s2 & H2 & H). apply Outcome_bind_Done in H as (ev & He & H).
  apply acquire_spec in H2 as (Ht & b & ->). unfold ReadEvent in He. simpl in He.
  destruct (Events s1 !! e) as [ev'|] eqn:E; [|done]. injection He as ->. cbn zeta in H.
  apply Outcome_bind_Done in H as (s3 & H3 & H).
  assert (HS : forall flag l, Linked flag (Events s1) l -> flag ev = false -> l = RemoveEntry e l).
  { intros flag l HL Hf. symmetry. apply RemoveEntry_id. by eapply linked_not. }
  apply release_quiet in H3 as (b' & ->); cycle 1.
  { destruct (ev_RuntimeLinked ev), (ev_NotifyLinked ev), (ev_SignalLinked ev); apply C1. }
  { intros i Hi. assert (Z.testbit (gEventPending s1) i = true).
    { destruct (ev_RuntimeLinked ev), (ev_NotifyLinked ev), (ev_SignalLinked ev); done. }
    destruct (ev_RuntimeLinked ev), (ev_NotifyLinked ev), (ev_SignalLinked ev); by apply Q1. }
  apply Outcome_bind_Done in H as (ev2 & _ & H). injection H as _ <-. split.
  - apply (EventCore_ext _ _ (delete_core e s1 C1 N1)).
    all: destruct (HasFlag (ev_ExFlag ev2) EVT_EXFLAG_EVENT_PROTOCOL_NOTIFICATION);
      destruct (ev_RuntimeLinked ev) eqn:ER, (ev_NotifyLinked ev) eqn:EN, (ev_SignalLinked ev) eqn:EG;
      simpl; try done; try (by apply (HS ev_SignalLinked); [apply C1|]);
      try (by apply (HS ev_RuntimeLinked); [apply C1|]);
      (intros t; apply (HS (QueuedAt t)); [apply C1|unfold QueuedAt; by rewrite EN]).
  - intros t Hb.
    assert (HB : Z.testbit (gEventPending s1) t = true).
    { destruct (HasFlag (ev_ExFlag ev2) EVT_EXFLAG_EVENT_PROTOCOL_NOTIFICATION),
        (ev_RuntimeLinked ev), (ev_NotifyLinked ev), (ev_SignalLinked ev); done. }
    destruct (HasFlag (ev_ExFlag ev2) EVT_EXFLAG_EVENT_PROTOCOL_NOTIFICATION),
      (ev_RuntimeLinked ev), (ev_NotifyLinked ev), (ev_SignalLinked ev); by apply Q1.
Qed.

(** ** Notification functions *)

Lemma boot_service_core c s r s' :
  EventCore s -> Quiet s ->
  BootService gCpuPresent gSmmBase2 PoolAvailable TimerPeriod Restore c s = Done (r, s') ->
  EventCore s' /\ Quiet s'.
Proof using HR.
  intros HC HQ H. destruct c; cbn [BootService] in H.
  - apply Outcome_bind_Done in H as ([r1 s1] & H1 & H). injection H as <- <-.
    apply raise_spec in H1 as (_ & Ht & b & ->). split; [by apply EventCore_relevel|].
    intros t Hb. apply HQ in Hb. simpl. lia.
  - apply Outcome_bind_Done in H as (s1 & H1 & H). injection H as <- <-. by apply restore_core in H1 as (? & ? & _).
  - apply Outcome_bind_Done in H as ([r1 s1] & H1 & H). injection H as <- <-.
    apply signal_core in H1 as (? & ? & _); [auto|done].
  - apply Outcome_bind_Done in H as ([r1 s1] & H1 & H). injection H as <- <-.
    apply check_core in H1 as (? & ? & _); [auto|done].
  - apply Outcome_bind_Done in H as ([[r1 e1] s1] & H1 & H). injection H as <- <-.
    apply create_core in H1 as (? & ? & _); [auto|done].
  - apply Outcome_bind_Done in H as ([r1 s1] & H1 & H). injection H as <- <-. by apply close_core in H1.
  - apply Outcome_bind_Done in H as ([r1 s1] & H1 & H). injection H as <- <-.
    apply set_timer_core in H1 as (? & ?); [auto|done].
  - apply Outcome_bind_Done in H as (s1 & H1 & H). injection H as <- <-. by apply tick_core in H1.
Qed.

Lemma run_prog_core p : forall s s',
  EventCore s -> Quiet s ->
  RunProg gCpuPresent gSmmBase2 PoolAvailable TimerPeriod Restore p s = Done s' -> EventCore s' /\ Quiet s'.
Proof using HR.
  induction p as [w|w c k IH]; intros s s' HC HQ H; cbn [RunProg] in H.
  - injection H as <-. split; [by apply set_World_core|done].
  - apply Outcome_bind_Done in H as ([r s1] & H1 & H).
    apply boot_service_core in H1 as [C1 Q1]; [|by apply set_World_core|done]. by apply IH in H.
Qed.

End Ops.
