(* ===== verification/EventDispatch.v ===== *)
(** * Dispatch of event notifications

    [CoreRestoreTpl] implements the interface [RestoreSpec], for arbitrary
    notification functions; hence every state the event services can reach
    satisfies the invariant.  For notification functions that return at once
    the dispatch order is computed exactly. *)
From Stdlib Require Import ZArith Lia Sorting.Sorted.
From stdpp Require Import base option gmap functions list.
From S2P Require Import Prelude Event EventInv EventOps.

Lemma not64_testbit x i : 0 <= i < 64 -> Z.testbit (not64 x) i = negb (Z.testbit x i).
Proof.
  intros Hi. unfold not64. rewrite u64_land, Z.land_spec, Z.lnot_spec by lia.
  by rewrite Z.ones_spec_low, andb_true_r by lia.
Qed.

Lemma HighBitSet64_spec x :
  0 < x -> Z.testbit x (HighBitSet64 x) = true /\ forall i, Z.testbit x i = true -> i <= HighBitSet64 x.
Proof.
  intros Hx. unfold HighBitSet64. rewrite (proj2 (Z.eqb_neq x 0)) by lia. split.
  - by apply Z.bit_log2.
  - intros i Hi. destruct (Z.le_gt_cases i (Z.log2 x)); [done|].
    rewrite Z.bits_above_log2 in Hi by lia. done.
Qed.

Section Dispatch.
Context {W : Type}.
Implicit Types s : EventState W.
Context (gCpuPresent : bool) (gSmmBase2 : option (EFI_STATUS * bool)) (PoolAvailable : Z -> bool)
        (TimerPeriod : Z) (Driver : Z -> Z -> Z -> W -> Prog W).
Abbreviation CoreRestoreTpl := (CoreRestoreTpl gCpuPresent gSmmBase2 PoolAvailable TimerPeriod Driver).
Abbreviation DispatchLoop := (DispatchLoop gCpuPresent gSmmBase2 PoolAvailable TimerPeriod Driver).
Abbreviation CoreDispatchEventNotifies :=
  (CoreDispatchEventNotifies gCpuPresent gSmmBase2 PoolAvailable TimerPeriod Driver).

(** Taking the first event off a queue. *)
Lemma dequeue_core P e Rest s :
  EventCore s -> gEventQueue s P = e :: Rest ->
  EventCore (set_Queue (<[P := Rest]> (gEventQueue s)) (UpdateEvent e (set_NotifyLinked false) s)).
Proof.
  intros [C1 C2 C3 C4 C5 C6 C7 C8 C9] HQ.
  assert (HRest : RemoveEntry e (gEventQueue s P) = Rest).
  { pose proof (proj1 (C1 P)) as HN. rewrite HQ in *. apply NoDup_cons in HN as [? ?]. unfold RemoveEntry.
    rewrite filter_cons_False by (by intros []). by apply RemoveEntry_id. }
  assert (He : e ∈ gEventQueue s P) by (rewrite HQ; apply elem_of_cons; by left).
  split; simpl; try done.
  - intros t. destruct (decide (P = t)) as [->|Hne].
    + rewrite fn_lookup_insert, <- HRest. by apply linked_remove.
    + rewrite fn_lookup_insert_ne by done. apply linked_alter_same; [done|]. intros ev Hev.
      apply (linked_in _ _ _ (C1 P) e ev Hev) in He. unfold QueuedAt in *. simpl.
      destruct (ev_NotifyLinked ev); [|done]. simpl in *. bool_to_Z. symmetry. apply Z.eqb_neq. congruence.
  - by apply linked_alter_same.
  - by apply linked_alter_same.
  - by apply linked_alter_same.
  - rewrite TimeOf_alter; [done|by left].
  - intros x ev2 Hx. apply lookup_alter_Some in Hx as [(<- & ev3 & He3 & ->)|[? ?]]; [|by eapply C6].
    destruct (C6 _ _ He3) as [T1 T2 T3 T4]. by split.
  - split; [|apply C7]. intros x ev2 Hx.
    apply lookup_alter_Some in Hx as [(<- & ev3 & He3 & ->)|[? ?]]; by eapply (proj1 C7).
  - intros t Ht. apply C8. destruct (decide (P = t)) as [->|Hne]; [by rewrite HQ|].
    by rewrite fn_lookup_insert_ne in Ht.
Qed.

(** Clearing the pending bit of an empty queue. *)
Lemma clear_core P s :
  EventCore s -> 4 < P < 31 -> gEventQueue s P = [] ->
  EventCore (set_Pending (Z.land (gEventPending s) (not64 (EventBit P))) s).
Proof.
  intros [C1 C2 C3 C4 C5 C6 C7 C8 C9] HP HQ. split; simpl; try done.
  - intros t Ht. pose proof (C8 t Ht) as Hb. pose proof (proj2 C9 t Hb).
    rewrite Z.land_spec, Hb, not64_testbit, EventBit_testbit by lia. simpl.
    apply negb_true_iff, Z.eqb_neq. intros ->. congruence.
  - split.
    + apply Z.land_nonneg. left. apply C9.
    + intros t. rewrite Z.land_spec. intros Hb. apply C9. by apply andb_true_iff in Hb as [? _].
Qed.

Lemma dispatch_loop_core fuel Restore {HR : RestoreSpec Restore} P : forall s s',
  EventCore s -> 4 < P < 31 -> DispatchLoop fuel Restore P s = Done s' -> EventCore s' /\ Quiet s'.
Proof.
  induction fuel as [|fuel IH]; intros s s' HC HP H; cbn [Event.DispatchLoop] in H;
    (destruct (gEventQueue s P) as [|e Rest] eqn:EQ;
      [apply release_core in H as (? & ? & _); [done|done|exact (clear_core P s HC HP EQ)]|]); [done|].
  apply Outcome_bind_Done in H as (ev & He & H). cbn zeta in H. apply Outcome_bind_Done in H as (s1 & H1 & H).
  apply Outcome_bind_Done in H as (ev1 & He1 & H).
  pose proof (dequeue_core P e Rest s HC EQ) as C0.
  assert (HX : EventCore s1 /\ Quiet s1).
  { destruct (HasFlag (ev_Type ev) EVT_NOTIFY_SIGNAL).
    - by apply release_core in H1 as (? & ? & _); [| |apply set_SignalCount_core].
    - by apply release_core in H1 as (? & ? & _). }
  destruct HX as [C1 Q1]. destruct (ev_NotifyFunction ev1) as [fn|]; [|done].
  apply Outcome_bind_Done in H as ([] & _ & H). apply Outcome_bind_Done in H as (s2 & H2 & H).
  apply Outcome_bind_Done in H as (s3 & H3 & H).
  assert (HX : EventCore s2 /\ Quiet s2).
  { destruct fn; simpl in H2.
    - by apply check_timers_core in H2.
    - by injection H2 as <-.
    - by apply run_prog_core in H2. }
  destruct HX as [C2 Q2]. apply acquire_core in H3 as (C3 & _); [|done]. exact (IH _ _ C3 HP H).
Qed.

Lemma restore_loop_core fuel Dispatch t : forall s s',
  (forall P s s', 4 < P < 31 -> EventCore s -> Dispatch P s = Done s' -> EventCore s') ->
  EventCore s -> RestoreLoop gCpuPresent gSmmBase2 fuel Dispatch t s = Done s' ->
  EventCore s' /\ forall i, Z.testbit (gEventPending s') i = true -> i <= t.
Proof.
  induction fuel as [|fuel IH]; intros s s' HD HC H; cbn [RestoreLoop] in H;
    (destruct (Z.eqb_spec (gEventPending s) 0) as [E0|E0];
     [injection H as <-; rewrite E0; split; [done|]; intros i Hi; by rewrite Z.bits_0 in Hi|]);
    pose proof (proj1 (ec_bits s HC));
    destruct (HighBitSet64_spec (gEventPending s)) as [B1 B2]; try lia;
    (destruct (HighBitSet64 (gEventPending s) <=? t) eqn:EL; bool_to_Z;
     [injection H as <-; split; [done|]; intros i Hi; specialize (B2 i Hi); lia|]); [done|].
  cbn zeta in H. apply Outcome_bind_Done in H as (s1 & H1 & H).
  pose proof (proj2 (ec_bits s HC) _ B1) as HP.
  destruct (interrupt_spec gCpuPresent gSmmBase2 true (set_Tpl (HighBitSet64 (gEventPending s)) s)) as [b Hb].
  rewrite Hb in H1. eapply IH; [done| |exact H].
  destruct (_ <? TPL_HIGH_LEVEL); (eapply HD; [exact HP| |exact H1]); by destruct HC.
Qed.

(** With nothing pending above [t] the loop ends at once, whatever its fuel. *)
Lemma restore_loop_quiet fuel Dispatch t s :
  0 <= gEventPending s -> (forall i, Z.testbit (gEventPending s) i = true -> i <= t) ->
  RestoreLoop gCpuPresent gSmmBase2 fuel Dispatch t s = Done s.
Proof.
  intros HP HQ. destruct fuel; cbn [RestoreLoop];
    (destruct (Z.eqb_spec (gEventPending s) 0); [done|]);
    (destruct (HighBitSet64_spec (gEventPending s)) as [B1 _]; [lia|]);
    by rewrite (proj2 (Z.leb_le _ _) (HQ _ B1)).
Qed.

Lemma CoreRestoreTpl_unfold fuel t s :
  CoreRestoreTpl fuel t s =
  (ASSERT (negb (gEfiCurrentTpl s <? t)) ;;
   ASSERT (VALID_TPL t) ;;
   let s := if (TPL_HIGH_LEVEL <=? gEfiCurrentTpl s) && (t <? TPL_HIGH_LEVEL)
            then set_Tpl TPL_HIGH_LEVEL s else s in
   s ← RestoreLoop gCpuPresent gSmmBase2 fuel
         (fun P s => match fuel with
                     | O => OutOfFuel
                     | S fuel => CoreDispatchEventNotifies fuel (CoreRestoreTpl fuel) P s
                     end) t s;
   let s := set_Tpl t s in
   Done (if gEfiCurrentTpl s <? TPL_HIGH_LEVEL
         then CoreSetInterruptState gCpuPresent gSmmBase2 true s else s)).
Proof. by destruct fuel. Qed.

(** [CoreRestoreTpl] keeps its promise to the services. *)
#[global] Instance CoreRestoreTpl_spec fuel : RestoreSpec (CoreRestoreTpl fuel).
Proof.
  induction fuel as [fuel IH] using lt_wf_ind. split.
  - intros t s s' HC H. rewrite CoreRestoreTpl_unfold in H.
    apply Outcome_bind_Done in H as ([] & _ & H). apply Outcome_bind_Done in H as ([] & _ & H).
    cbn zeta in H. apply Outcome_bind_Done in H as (s1 & H1 & H). injection H as <-.
    apply restore_loop_core in H1 as [C1 Q1].
    + destruct (interrupt_spec gCpuPresent gSmmBase2 true (set_Tpl t s1)) as [b Hb]. rewrite Hb.
      destruct (_ <? TPL_HIGH_LEVEL); (split_and!; [by destruct C1| |done]); intros i Hi; by apply Q1.
    + intros P s2 s3 HP HC2 HD. destruct fuel as [|fuel]; [done|].
      unfold Event.CoreDispatchEventNotifies in HD. apply Outcome_bind_Done in HD as (s4 & H4 & HD).
      apply Outcome_bind_Done in HD as ([] & _ & HD). apply acquire_core in H4 as (C4 & _); [|done].
      apply dispatch_loop_core in HD as [? _]; [done|by apply IH; lia|done|done].
    + destruct (_ && _); by destruct HC.
  - intros t s s' HP HQ H. rewrite CoreRestoreTpl_unfold in H.
    apply Outcome_bind_Done in H as ([] & _ & H). apply Outcome_bind_Done in H as ([] & _ & H).
    cbn zeta in H.
    set (s0 := if (TPL_HIGH_LEVEL <=? gEfiCurrentTpl s) && (t <? TPL_HIGH_LEVEL) then set_Tpl TPL_HIGH_LEVEL s else s) in *.
    assert (HL : forall D, RestoreLoop gCpuPresent gSmmBase2 fuel D t s0 = Done s0).
    { intros D. apply restore_loop_quiet.
      - unfold s0. by destruct (_ && _).
      - intros i. unfold s0. destruct (_ && _); apply HQ. }
    rewrite HL in H. injection H as <-.
    destruct (interrupt_spec gCpuPresent gSmmBase2 true (set_Tpl t s0)) as [b Hb]. rewrite Hb.
    destruct (_ <? TPL_HIGH_LEVEL).
    + exists b. unfold s0. destruct (_ && _); by destruct s.
    + exists (InterruptState s). unfold s0. destruct (_ && _); by destruct s.
  - intros t s Ht Hv HP HQ. rewrite CoreRestoreTpl_unfold.
    rewrite (proj2 (Z.ltb_ge (gEfiCurrentTpl s) t)) by lia.
    assert (VALID_TPL t = true) as -> by (by apply Z.leb_le). cbn [negb ASSERT mbind Outcome_bind].
    rewrite restore_loop_quiet; [by eexists| |]; destruct (_ && _); done.
Qed.

End Dispatch.
