(* ===== verification/EventTheorems.v ===== *)
(** * What the event services guarantee

    Reachable states satisfy the invariant; lowering the task priority level
    leaves no higher notification queued and, for notification functions that
    return at once, runs them in order; an event without notification function
    is a latch. *)
From Stdlib Require Import ZArith Lia Sorting.Sorted.
From stdpp Require Import base option gmap functions list.
From S2P Require Import Prelude Event EventInv EventOps EventDispatch.

(** ** Reachable states *)

Section Reach.
Context {W : Type}.
Context (gCpuPresent : bool) (gSmmBase2 : option (EFI_STATUS * bool)) (PoolAvailable : Z -> bool)
        (TimerPeriod : Z) (Driver : Z -> Z -> Z -> W -> Prog W).

(** The states between the calls into the event services, from the
    initialization on: any service may be called, with any arguments, at any
    level, and any number of timer ticks may fall in between. *)
Inductive EventReach (w : W) : EventState W -> Prop :=
| ReachInitialize fuel Status s :
    CoreInitializeEventServices gCpuPresent gSmmBase2 PoolAvailable
      (CoreRestoreTpl gCpuPresent gSmmBase2 PoolAvailable TimerPeriod Driver fuel) (InitialEvents w)
      = Done (Status, s) -> EventReach w s
| ReachService fuel c s r s' :
    EventReach w s ->
    BootService gCpuPresent gSmmBase2 PoolAvailable TimerPeriod
      (CoreRestoreTpl gCpuPresent gSmmBase2 PoolAvailable TimerPeriod Driver fuel) c s = Done (r, s') ->
    EventReach w s'.

Lemma InitialEvents_core (w : W) : EventCore (InitialEvents w) /\ Quiet (InitialEvents w).
Proof.
  assert (HL : forall flag, Linked flag ∅ []).
  { intros flag. split; [constructor|]. intros e. split; [by intros ?%elem_of_nil|].
    intros (ev & H & _). by rewrite lookup_empty in H. }
  split.
  - split; simpl; try done; [constructor|]. split; [done|]. intros t Ht. by rewrite Z.bits_0 in Ht.
  - intros t Ht. simpl in Ht. by rewrite Z.bits_0 in Ht.
Qed.

Lemma initialize_core fuel w Status s :
  CoreInitializeEventServices gCpuPresent gSmmBase2 PoolAvailable
    (CoreRestoreTpl gCpuPresent gSmmBase2 PoolAvailable TimerPeriod Driver fuel) (InitialEvents w)
    = Done (Status, s) -> EventCore s /\ Quiet s.
Proof.
  intros H. destruct (InitialEvents_core w) as [C0 Q0]. unfold CoreInitializeEventServices in H. cbn zeta in H.
  apply Outcome_bind_Done in H as (s1 & H1 & H). apply Outcome_bind_Done in H as ([[r e] s2] & H2 & H).
  unfold CoreInitializeTimer in H1. apply Outcome_bind_Done in H1 as ([[r1 e1] s3] & H3 & H1).
  apply Outcome_bind_Done in H1 as ([] & _ & H1). injection H1 as <-. injection H as <- <-.
  apply create_core in H3 as (C3 & Q3 & _); [|apply CoreRestoreTpl_spec|by destruct C0].
  specialize (Q3 Q0).
  apply create_core in H2 as (C2 & Q2 & _); [|apply CoreRestoreTpl_spec|by destruct C3].
  specialize (Q2 Q3). destruct (EFI_ERROR r); [done|]. split; [by destruct C2|done].
Qed.

(** C2: in every state the event services can reach, whatever the drivers'
    notification functions do, each queue, the signal list, the runtime list
    and the timer list hold exactly the events linked into them, once each; no
    closed event is left in any of them; the timers are sorted by trigger
    time; a non-empty queue is marked in [gEventPending]; and no notification
    above the current task priority level is waiting. *)
Theorem EventReach_ok w s : EventReach w s -> EventCore s /\ Quiet s.
Proof.
  induction 1 as [fuel Status s H|fuel c s r s' _ [IH1 IH2] H].
  - by eapply initialize_core.
  - by apply boot_service_core in H; [|apply CoreRestoreTpl_spec|..].
Qed.

(** No notification above level [t] is queued. *)
Definition NothingAbove (t : Z) (s : EventState W) : Prop := forall p, t < p -> gEventQueue s p = [].

(** [CoreRestoreTpl] lowers the level to [NewTpl] and leaves no
    notification above it queued, whatever the notification functions it ran
    have done. *)
Theorem CoreRestoreTpl_leaves_nothing fuel t s s' :
  EventCore s ->
  CoreRestoreTpl gCpuPresent gSmmBase2 PoolAvailable TimerPeriod Driver fuel t s = Done s' ->
  gEfiCurrentTpl s' = t /\ NothingAbove t s'.
Proof.
  intros HC H. apply restore_core in H as (C' & Q' & T'); [|done].
  split; [done|]. intros p Hp. destruct (gEventQueue s' p) eqn:E; [done|].
  assert (Hb : Z.testbit (gEventPending s') p = true) by (apply (ec_pending s' C'); by rewrite E).
  apply Q' in Hb. lia.
Qed.

End Reach.

(** ** The order of dispatch *)

(** The events queued above level [t], from level [k - 1] down. *)
Fixpoint Order (q : Z -> list Z) (t : Z) (k : nat) : list Z :=
  match k with
  | O => []
  | S k => (if t <? Z.of_nat k then q (Z.of_nat k) else []) ++ Order q t k
  end.

Definition DispatchOrder {W} (s : EventState W) (t : Z) : list Z := Order (gEventQueue s) t 31.

Lemma Order_ext q q' t k :
  (forall p, t < p < Z.of_nat k -> q p = q' p) -> Order q t k = Order q' t k.
Proof.
  induction k as [|k IH]; intros H; [done|]. cbn [Order]. rewrite IH by (intros; apply H; lia).
  destruct (t <? Z.of_nat k) eqn:E; bool_to_Z; [|done]. by rewrite H by lia.
Qed.

Lemma Order_low q t k : Z.of_nat k <= t + 1 -> Order q t k = [].
Proof.
  induction k as [|k IH]; intros H; [done|]. cbn [Order].
  rewrite (proj2 (Z.ltb_ge t (Z.of_nat k))) by lia. apply IH. lia.
Qed.

Section DispatchOrder.
Context {W : Type}.
Implicit Types s : EventState W.
Context (gCpuPresent : bool) (gSmmBase2 : option (EFI_STATUS * bool)) (PoolAvailable : Z -> bool)
        (TimerPeriod : Z).

(** Notification functions that return at once, leaving the world as [g] says. *)
Context (g : Z -> Z -> Z -> W -> W).
Definition ReturnsAtOnce : Z -> Z -> Z -> W -> Prog W := fun n e c w => Return (g n e c w).
Abbreviation Restore := (CoreRestoreTpl gCpuPresent gSmmBase2 PoolAvailable TimerPeriod ReturnsAtOnce).
Abbreviation Dispatch := (DispatchLoop gCpuPresent gSmmBase2 PoolAvailable TimerPeriod ReturnsAtOnce).

(** The world after the notification function of the event [e] has run. *)
Definition RunNotified (evs : gmap Z IEVENT) (w : W) (e : Z) : W :=
  match evs !! e with
  | Some ev => match ev_NotifyFunction ev with
               | Some (FnDriver n) => g n e (ev_NotifyContext ev) w
               | _ => w
               end
  | None => w
  end.

(** The fields of an event that dispatching does not touch. *)
Definition SameFunctions (evs evs' : gmap Z IEVENT) : Prop :=
  forall e, (fun ev => (ev_NotifyFunction ev, ev_NotifyContext ev)) <$> evs' !! e =
            (fun ev => (ev_NotifyFunction ev, ev_NotifyContext ev)) <$> evs !! e.

Lemma SameFunctions_alter evs e f :
  (forall ev, (ev_NotifyFunction (f ev), ev_NotifyContext (f ev)) = (ev_NotifyFunction ev, ev_NotifyContext ev)) ->
  SameFunctions evs (alter f e evs).
Proof.
  intros Hf x. destruct (decide (e = x)) as [->|Hne]; [|by rewrite lookup_alter_ne].
  rewrite lookup_alter_eq. destruct (evs !! x) as [ev|]; simpl; [by rewrite Hf|done].
Qed.

Lemma RunNotified_same evs evs' w e : SameFunctions evs evs' -> RunNotified evs' w e = RunNotified evs w e.
Proof.
  intros H. specialize (H e). unfold RunNotified.
  destruct (evs !! e) as [ev|], (evs' !! e) as [ev'|]; simpl in H; try done.
  injection H as -> ->. done.
Qed.

Lemma foldl_same evs evs' l : SameFunctions evs evs' -> forall w,
  foldl (RunNotified evs') w l = foldl (RunNotified evs) w l.
Proof. intros H. induction l as [|e l IH]; intros w; [done|]. simpl. by rewrite IH, (RunNotified_same evs evs'). Qed.

Lemma SameFunctions_trans evs1 evs2 evs3 :
  SameFunctions evs1 evs2 -> SameFunctions evs2 evs3 -> SameFunctions evs1 evs3.
Proof. intros H1 H2 e. by rewrite H2, H1. Qed.

(** No event queued at level [p] runs [CoreCheckTimers]. *)
Definition DriversOnly s (p : Z) : Prop :=
  forall e ev, e ∈ gEventQueue s p -> Events s !! e = Some ev -> ev_NotifyFunction ev <> Some FnCheckTimers.

(** The state in which [DispatchLoop] works on level [P]: the queue lock is held
    and was taken at level [P], above which nothing is pending. *)
Record Dispatching (P : Z) s : Prop := {
  dp_core : EventCore s;
  dp_level : 4 < P < 31;
  dp_acquired : lk_Acquired (Locks s gEventQueueLock) = true;
  dp_owner : lk_OwnerTpl (Locks s gEventQueueLock) = P;
  dp_tpl : gEfiCurrentTpl s = 31;
  dp_quiet : forall i, Z.testbit (gEventPending s) i = true -> i <= P
}.

(** The event taken off the queue, and its signal count cleared. *)
Lemma dequeue_step P e Rest ev s :
  Dispatching P s -> gEventQueue s P = e :: Rest -> Events s !! e = Some ev ->
  let s1 := set_Queue (<[P := Rest]> (gEventQueue s)) (UpdateEvent e (set_NotifyLinked false) s) in
  let s2 := if HasFlag (ev_Type ev) EVT_NOTIFY_SIGNAL then UpdateEvent e (set_SignalCount 0) s1 else s1 in
  Dispatching P s2 /\ World s2 = World s /\ gEventQueue s2 = <[P := Rest]> (gEventQueue s) /\
  SameFunctions (Events s) (Events s2) /\
  (exists ev2, Events s2 !! e = Some ev2 /\ ev_NotifyTpl ev2 = ev_NotifyTpl ev /\
     ev_NotifyFunction ev2 = ev_NotifyFunction ev /\ ev_NotifyContext ev2 = ev_NotifyContext ev).
Proof.
  intros [HC HP HA HO HT HB] HQ He s1 s2.
  assert (C1 : EventCore s1) by (by apply dequeue_core). unfold s2.
  destruct (HasFlag _ _); (split; [split; try done; by apply set_SignalCount_core|]); (split_and!; try done).
  - eapply SameFunctions_trans; by apply SameFunctions_alter.
  - exists (set_SignalCount 0 (set_NotifyLinked false ev)). split; [|done]. simpl. by rewrite !lookup_alter_eq, He.
  - by apply SameFunctions_alter.
  - exists (set_NotifyLinked false ev). split; [|done]. simpl. by rewrite lookup_alter_eq, He.
Qed.

(** One round of the loop. *)
Lemma dispatch_round f P fuel e Rest s :
  Dispatching P s -> gEventQueue s P = e :: Rest -> DriversOnly s P ->
  exists s', Dispatch (S fuel) (Restore f) P s = Dispatch fuel (Restore f) P s' /\ Dispatching P s' /\
    World s' = RunNotified (Events s) (World s) e /\ gEventQueue s' = <[P := Rest]> (gEventQueue s) /\
    SameFunctions (Events s) (Events s').
Proof.
  intros HDp EQ HD. pose proof HDp as [HC HP HA HO HT HB].
  assert (He : e ∈ gEventQueue s P) by (rewrite EQ; apply elem_of_cons; by left).
  pose proof He as Hin. apply (proj2 (ec_queue s HC P)) in Hin as (ev & Hev & Hq).
  unfold QueuedAt in Hq. apply andb_true_iff in Hq as [Hq1 Hq2%Z.eqb_eq].
  destruct (dequeue_step P e Rest ev s HDp EQ Hev) as (D2 & XW & XQ & XF & ev2 & XE & XN & XFn & XC).
  cbn [DispatchLoop]. rewrite EQ. unfold ReadEvent. rewrite Hev. cbn [mbind Outcome_bind]. cbn zeta.
  match type of D2 with Dispatching P ?x => set (s2 := x) in * end. clearbody s2.
  destruct D2 as [C2 _ A2 O2 T2 B2].
  destruct (release_done (Restore f) gEventQueueLock s2) as [b Hb];
    [done|lia|lia|apply C2|by rewrite O2|].
  change (CoreReleaseEventLock (Restore f) s2) with (CoreReleaseLock (Restore f) gEventQueueLock s2).
  rewrite Hb, O2. cbn [mbind Outcome_bind]. set (s3 := Relevel P b _ s2).
  change (Events s3) with (Events s2). rewrite XE. cbn [mbind Outcome_bind].
  assert (HFn : exists fn, ev_NotifyFunction ev2 = Some fn /\ fn <> FnCheckTimers).
  { destruct (et_notifies _ (ec_typed s HC _ _ Hev)) as [_ HF]; [by apply (et_queued _ (ec_typed s HC _ _ Hev))|].
    rewrite XFn. destruct (ev_NotifyFunction ev) as [fn|] eqn:EF; [|done]. exists fn. split; [done|].
    intros ->. by apply (HD e ev). }
  destruct HFn as (fn & HFn & Hnt). rewrite HFn.
  rewrite (proj2 (Z.eqb_eq (gEfiCurrentTpl s3) (ev_NotifyTpl ev2))) by (simpl; congruence).
  cbn [ASSERT mbind Outcome_bind].
  assert (HRun : RunNotify gCpuPresent gSmmBase2 PoolAvailable TimerPeriod ReturnsAtOnce fuel (Restore f)
      fn e (ev_NotifyContext ev2) s3 = Done (set_World (RunNotified (Events s) (World s) e) s3)).
  { unfold RunNotified. rewrite Hev, <- XFn, HFn. destruct fn; simpl; [done| |].
    - f_equal. rewrite <- XW. by destruct s2.
    - unfold s3. simpl. by rewrite XC, XW. }
  rewrite HRun. cbn [mbind Outcome_bind]. set (s4 := set_World _ s3).
  destruct (acquire_done gCpuPresent gSmmBase2 gEventQueueLock s4) as [b2 Hb2]; [done|change (P <= 31); lia|].
  unfold CoreAcquireEventLock. rewrite Hb2. eexists. split; [reflexivity|]. split; [|done].
  split; try done. apply EventCore_relevel, set_World_core, EventCore_relevel, C2.
Qed.

(** The end of the loop. *)
Lemma dispatch_end f P fuel s :
  Dispatching P s -> gEventQueue s P = [] ->
  exists b L, Dispatch fuel (Restore f) P s =
    Done (Relevel P b L (set_Pending (Z.land (gEventPending s) (not64 (EventBit P))) s)) /\
    lk_Acquired (L gEventQueueLock) = false /\
    EventCore (set_Pending (Z.land (gEventPending s) (not64 (EventBit P))) s) /\
    (forall i, Z.testbit (Z.land (gEventPending s) (not64 (EventBit P))) i = true -> i < P).
Proof.
  intros [HC HP HA HO HT HB] HQ. pose proof (clear_core P s HC HP HQ) as C1.
  set (s1 := set_Pending _ s) in *.
  assert (B1 : forall i, Z.testbit (gEventPending s1) i = true -> i < P).
  { intros i Hi. simpl in Hi. rewrite Z.land_spec in Hi. apply andb_true_iff in Hi as [Hi Hn].
    pose proof (HB i Hi). pose proof (proj2 (ec_bits s HC) i Hi).
    rewrite not64_testbit, EventBit_testbit in Hn by lia. bool_to_Z. lia. }
  destruct (release_done (Restore f) gEventQueueLock s1) as [b Hb];
    [done|simpl; rewrite HO, HT; lia|simpl; rewrite HT; lia|apply C1
     |intros i Hi; specialize (B1 i Hi); simpl; rewrite HO; lia|].
  destruct fuel; cbn [DispatchLoop]; rewrite HQ; fold s1; unfold CoreReleaseEventLock; rewrite Hb;
    simpl lk_OwnerTpl; rewrite HO; eexists _, _; by split_and!.
Qed.

(** Dispatching one level: its queue runs in order, first come first served. *)
Lemma dispatch_level f P : forall fuel s,
  Dispatching P s -> DriversOnly s P -> (length (gEventQueue s P) <= fuel)%nat ->
  exists s', Dispatch fuel (Restore f) P s = Done s' /\ EventCore s' /\
    World s' = foldl (RunNotified (Events s)) (World s) (gEventQueue s P) /\
    gEventQueue s' P = [] /\ (forall p, p <> P -> gEventQueue s' p = gEventQueue s p) /\
    (forall i, Z.testbit (gEventPending s') i = true -> i < P) /\
    gEfiCurrentTpl s' = P /\ lk_Acquired (Locks s' gEventQueueLock) = false /\
    SameFunctions (Events s) (Events s').
Proof.
  intros fuel s. remember (gEventQueue s P) as q eqn:EQ. revert fuel s EQ.
  induction q as [|e Rest IH]; intros fuel s EQ HDp HD Hlen.
  - destruct (dispatch_end f P fuel s HDp (eq_sym EQ)) as (b & L & HD' & L' & C' & B').
    eexists. split; [exact HD'|]. split; [by apply EventCore_relevel|]. by split_and!.
  - destruct fuel as [|fuel]; simpl in Hlen; [lia|].
    destruct (dispatch_round f P fuel e Rest s HDp (eq_sym EQ) HD) as (s1 & -> & D1 & W1 & Q1 & F1).
    assert (QR : gEventQueue s1 P = Rest) by (by rewrite Q1, fn_lookup_insert).
    destruct (IH fuel s1 (eq_sym QR) D1) as (s' & HD' & C' & W' & QP' & QN' & B' & T' & L' & F'); [|lia|].
    + intros x evx Hx Hevx. rewrite QR in Hx. specialize (F1 x). rewrite Hevx in F1. simpl in F1.
      destruct (Events s !! x) as [evx'|] eqn:Ex; [|done]. simpl in F1. injection F1 as -> _.
      apply (HD x evx'); [rewrite <- EQ; apply elem_of_cons; by right|done].
    + exists s'. split_and!; try done.
      * rewrite W', W1. simpl. by apply foldl_same.
      * intros p Hp. rewrite QN', Q1 by done. by rewrite fn_lookup_insert_ne.
      * by eapply SameFunctions_trans.
Qed.

(** Dispatching one level from [CoreRestoreTpl]'s loop. *)
Lemma dispatch_done f fuel P s :
  4 < P < 31 -> EventCore s -> lk_Acquired (Locks s gEventQueueLock) = false -> gEfiCurrentTpl s = P ->
  (forall i, Z.testbit (gEventPending s) i = true -> i <= P) -> DriversOnly s P ->
  (length (gEventQueue s P) <= fuel)%nat ->
  exists s', CoreDispatchEventNotifies gCpuPresent gSmmBase2 PoolAvailable TimerPeriod ReturnsAtOnce
      fuel (Restore f) P s = Done s' /\ EventCore s' /\
    World s' = foldl (RunNotified (Events s)) (World s) (gEventQueue s P) /\
    gEventQueue s' P = [] /\ (forall p, p <> P -> gEventQueue s' p = gEventQueue s p) /\
    (forall i, Z.testbit (gEventPending s') i = true -> i < P) /\
    gEfiCurrentTpl s' = P /\ lk_Acquired (Locks s' gEventQueueLock) = false /\
    SameFunctions (Events s) (Events s').
Proof.
  intros HP HC HL HT HB HD Hlen. unfold CoreDispatchEventNotifies, CoreAcquireEventLock.
  destruct (acquire_done gCpuPresent gSmmBase2 gEventQueueLock s) as [b ->]; [done|rewrite HT; change (P <= 31); lia|].
  cbn [mbind Outcome_bind].
  match goal with |- context [Dispatch fuel (Restore f) P ?x] => set (s1 := x) end.
  assert (HO : lk_OwnerTpl (Locks s1 gEventQueueLock) = P) by done.
  rewrite HO, Z.eqb_refl. cbn [ASSERT mbind Outcome_bind].
  apply (dispatch_level f P fuel s1); [|done|done]. by split; [apply EventCore_relevel|..].
Qed.

Lemma DriversOnly_same s s' p :
  SameFunctions (Events s) (Events s') -> gEventQueue s' p = gEventQueue s p -> DriversOnly s p -> DriversOnly s' p.
Proof.
  intros HF HQ HD e ev He Hev. rewrite HQ in He. specialize (HF e). rewrite Hev in HF. simpl in HF.
  destruct (Events s !! e) as [ev'|] eqn:E; [|done]. simpl in HF. injection HF as -> _. by apply (HD e ev').
Qed.

(** The loop of [CoreRestoreTpl], when only levels below [k] are pending. *)
Lemma not_pending_empty s p : EventCore s -> Z.testbit (gEventPending s) p = false -> gEventQueue s p = [].
Proof. intros HC Hp. destruct (gEventQueue s p) eqn:E; [done|]. rewrite (ec_pending s HC) in Hp; [done|by rewrite E]. Qed.

Lemma above_empty s t p :
  EventCore s -> (forall i, Z.testbit (gEventPending s) i = true -> i <= t) -> t < p -> gEventQueue s p = [].
Proof.
  intros HC HB Hp. apply not_pending_empty; [done|]. destruct (Z.testbit (gEventPending s) p) eqn:E; [|done].
  specialize (HB p E). lia.
Qed.

Lemma highest_pending s k :
  EventCore s -> Z.testbit (gEventPending s) k = true -> (forall i, Z.testbit (gEventPending s) i = true -> i <= k) ->
  gEventPending s <> 0 /\ HighBitSet64 (gEventPending s) = k.
Proof.
  intros HC Hk HB. assert (H0 : gEventPending s <> 0) by (intros H0; by rewrite H0, Z.bits_0 in Hk). split; [done|].
  pose proof (proj1 (ec_bits s HC)). destruct (HighBitSet64_spec (gEventPending s)) as [B1 B2]; [lia|].
  specialize (B2 _ Hk). specialize (HB _ B1). lia.
Qed.

Lemma restore_loop_order f t : forall k fuel s,
  (k <= 31)%nat -> (k <= fuel)%nat ->
  EventCore s -> lk_Acquired (Locks s gEventQueueLock) = false ->
  (forall i, Z.testbit (gEventPending s) i = true -> i < Z.of_nat k) ->
  (forall p, t < p -> DriversOnly s p) -> (forall p, (length (gEventQueue s p) <= f)%nat) ->
  exists s', RestoreLoop gCpuPresent gSmmBase2 fuel
      (fun P s => CoreDispatchEventNotifies gCpuPresent gSmmBase2 PoolAvailable TimerPeriod ReturnsAtOnce
                    f (Restore f) P s) t s = Done s' /\
    EventCore s' /\
    World s' = foldl (RunNotified (Events s)) (World s) (Order (gEventQueue s) t k) /\
    forall p, gEventQueue s' p = if t <? p then [] else gEventQueue s p.
Proof.
  induction k as [|k IH]; intros fuel s Hk Hf HC HL HB HD Hlen.
  - assert (HE : forall p, gEventQueue s p = []).
    { intros p. apply not_pending_empty; [done|]. destruct (Z.testbit (gEventPending s) p) eqn:E; [|done].
      pose proof (HB p E). pose proof (proj2 (ec_bits s HC) p E). lia. }
    exists s. rewrite restore_loop_quiet; [|apply HC|intros i Hi; specialize (HB i Hi);
      pose proof (proj2 (ec_bits s HC) i Hi); lia].
    split_and!; try done. intros p. rewrite HE. by destruct (t <? p).
  - destruct (Z.testbit (gEventPending s) (Z.of_nat k)) eqn:Ek.
    2:{ destruct (IH fuel s) as (s' & H1 & H2 & H3 & H4); try done; [lia|lia| |].
        { intros i Hi. specialize (HB i Hi). destruct (Z.eq_dec i (Z.of_nat k)) as [->|]; [congruence|lia]. }
        exists s'. split_and!; try done. rewrite H3. cbn [Order].
        rewrite (not_pending_empty s (Z.of_nat k)) by done. by destruct (t <? Z.of_nat k). }
    destruct fuel as [|fuel]; [lia|]. cbn [RestoreLoop].
    destruct (highest_pending s (Z.of_nat k) HC Ek) as [H0 Hh]; [intros i Hi; specialize (HB i Hi); lia|].
    pose proof (proj2 (ec_bits s HC) _ Ek) as Hk4. rewrite (proj2 (Z.eqb_neq _ 0) H0), Hh.
    destruct (Z.of_nat k <=? t) eqn:ET; bool_to_Z.
    + exists s. split_and!; try done; [by rewrite Order_low by lia|].
      intros p. destruct (t <? p) eqn:EP; bool_to_Z; [|done]. apply (above_empty s t); [done| |done].
      intros i Hi. specialize (HB i Hi). lia.
    + cbn zeta. destruct (interrupt_spec gCpuPresent gSmmBase2 true (set_Tpl (Z.of_nat k) s)) as [b Hb].
      rewrite Hb. change (gEfiCurrentTpl (set_Tpl (Z.of_nat k) s)) with (Z.of_nat k).
      rewrite (proj2 (Z.ltb_lt (Z.of_nat k) TPL_HIGH_LEVEL)) by (unfold TPL_HIGH_LEVEL; lia).
      set (s1 := set_Interrupts b (set_Tpl (Z.of_nat k) s)).
      assert (C1 : EventCore s1) by (by destruct HC).
      destruct (dispatch_done f f (Z.of_nat k) s1) as (s2 & H2 & C2 & W2 & QP2 & QN2 & B2' & T2 & L2 & F2);
        try done; [intros i Hi; specialize (HB i Hi); lia|apply HD; lia|apply Hlen|].
      cbv beta iota. change (gEfiCurrentTpl s1) with (Z.of_nat k). rewrite H2. cbn [mbind Outcome_bind].
      destruct (IH fuel s2) as (s' & H3 & C3 & W3 & Q3); try done; [lia|lia| | |].
      { intros p Hp. destruct (Z.eq_dec p (Z.of_nat k)) as [->|Hne].
        - intros e ev He. rewrite QP2 in He. by apply elem_of_nil in He.
        - eapply (DriversOnly_same s1); [done|by apply QN2|by apply HD]. }
      { intros p. destruct (Z.eq_dec p (Z.of_nat k)) as [->|Hne]; [rewrite QP2; simpl; lia|].
        rewrite QN2 by done. apply Hlen. }
      exists s'. split_and!; try done.
      * rewrite W3, (foldl_same (Events s1)), W2 by done. cbn [Order].
        rewrite (proj2 (Z.ltb_lt t (Z.of_nat k))) by lia. rewrite foldl_app.
        rewrite (Order_ext (gEventQueue s2) (gEventQueue s)); [done|].
        intros p Hp. apply (QN2 p). lia.
      * intros p. rewrite Q3. destruct (t <? p) eqn:EP; bool_to_Z; [done|]. apply (QN2 p). lia.
Qed.

(** A queue is no longer than there are events. *)
Lemma queue_length s p : EventCore s -> (length (gEventQueue s p) <= size (Events s))%nat.
Proof.
  intros HC. destruct (ec_queue s HC p) as [HN HL].
  rewrite <- (size_list_to_set (C := gset Z)) by done. rewrite <- (size_dom (D := gset Z)).
  apply subseteq_size. intros e He. apply elem_of_list_to_set, HL in He as (ev & He & _).
  by apply elem_of_dom.
Qed.

(** C3: for notification functions that return at once, [CoreRestoreTpl]
    terminates without a failed assertion and runs exactly the notifications
    queued above the new level: from the highest level down and, within a
    level, in the order in which they were queued; their queues are empty
    afterwards and the others untouched. *)
Theorem CoreRestoreTpl_dispatch_order fuel t s :
  EventCore s -> lk_Acquired (Locks s gEventQueueLock) = false ->
  t <= gEfiCurrentTpl s -> t <= 31 -> (forall p, t < p -> DriversOnly s p) ->
  (31 <= fuel)%nat -> (size (Events s) < fuel)%nat ->
  exists s', Restore fuel t s = Done s' /\
    World s' = foldl (RunNotified (Events s)) (World s) (DispatchOrder s t) /\
    gEfiCurrentTpl s' = t /\
    forall p, gEventQueue s' p = if t <? p then [] else gEventQueue s p.
Proof.
  intros HC HL Ht H31 HD Hf Hsz. rewrite CoreRestoreTpl_unfold.
  rewrite (proj2 (Z.ltb_ge (gEfiCurrentTpl s) t)) by lia.
  assert (VALID_TPL t = true) as -> by (by apply Z.leb_le). cbn [negb ASSERT mbind Outcome_bind]. cbn zeta.
  destruct fuel as [|f]; [lia|].
  set (s0 := if (TPL_HIGH_LEVEL <=? gEfiCurrentTpl s) && (t <? TPL_HIGH_LEVEL) then set_Tpl TPL_HIGH_LEVEL s else s).
  assert (X : EventCore s0 /\ Locks s0 = Locks s /\ gEventPending s0 = gEventPending s /\
              gEventQueue s0 = gEventQueue s /\ Events s0 = Events s /\ World s0 = World s).
  { unfold s0. destruct (_ && _); [|done]. split_and!; try done. by destruct HC. }
  destruct X as (C0 & L0 & P0 & Q0 & E0 & W0). clearbody s0.
  destruct (restore_loop_order f t 31 (S f) s0) as (s' & HR & C' & HW & HQ); try done; try lia.
  - by rewrite L0.
  - rewrite P0. intros i Hi. pose proof (proj2 (ec_bits s HC) i Hi). lia.
  - intros p Hp. unfold DriversOnly. rewrite Q0, E0. by apply HD.
  - intros p. rewrite Q0. pose proof (queue_length s p HC). lia.
  - rewrite HR. cbn [mbind Outcome_bind]. eexists. split; [reflexivity|].
    destruct (interrupt_spec gCpuPresent gSmmBase2 true (set_Tpl t s')) as [b Hb].
    unfold DispatchOrder. rewrite Hb, <- Q0, <- E0, <- W0. by destruct (_ <? TPL_HIGH_LEVEL).
Qed.

End DispatchOrder.

(** ** Signalling and checking *)

Section SignalCheck.
Context {W : Type}.
Implicit Types s : EventState W.
Context (gCpuPresent : bool) (gSmmBase2 : option (EFI_STATUS * bool)).
Context (Restore : Z -> EventState W -> Outcome (EventState W)) {HR : RestoreSpec Restore}.

(** A state from which services are called: no lock is held. *)
Record Callable s : Prop := {
  ca_core : EventCore s;
  ca_quiet : Quiet s;
  ca_tpl : gEfiCurrentTpl s <= 31;
  ca_lock : lk_Acquired (Locks s gEventQueueLock) = false
}.

(** Setting the signal count of an event under the queue lock. *)
Lemma locked_count_done e n s :
  Callable s ->
  exists s', (s ← CoreAcquireEventLock gCpuPresent gSmmBase2 s;
              CoreReleaseEventLock Restore (UpdateEvent e (set_SignalCount n) s)) = Done s' /\
    Callable s' /\ Events s' = alter (set_SignalCount n) e (Events s).
Proof using HR.
  intros [HC HQ HT HA]. unfold CoreAcquireEventLock, CoreReleaseEventLock.
  destruct (acquire_done gCpuPresent gSmmBase2 gEventQueueLock s) as [b ->]; [done|done|].
  cbn [mbind Outcome_bind]. set (s1 := UpdateEvent _ _ _).
  destruct (release_done Restore gEventQueueLock s1) as [b' ->]; [done|done|done|apply HC|apply HQ|].
  eexists. split; [reflexivity|]. split; [|done]. split; try done.
  apply EventCore_relevel, set_SignalCount_core. by apply EventCore_relevel.
Qed.

(** An event without a notification function is a latch: signalling it
    makes the next check succeed, whatever its state before, and that check
    resets it, so that the one after reports that it is not ready. *)
Theorem signal_then_check e ev s :
  Callable s -> Events s !! e = Some ev -> Notifies ev = false ->
  exists s1 s2,
    CoreSignalEvent gCpuPresent gSmmBase2 Restore e s = Done (EFI_SUCCESS, s1) /\
    CoreCheckEvent gCpuPresent gSmmBase2 Restore e s1 = Done (EFI_SUCCESS, s2) /\
    CoreCheckEvent gCpuPresent gSmmBase2 Restore e s2 = Done (EFI_NOT_READY, s2).
Proof using HR.
  intros HS He HN. unfold Notifies in HN. rewrite HasFlag_lor in HN. apply orb_false_iff in HN as [HNW HNS].
  assert (He0 : (e =? 0) = false) by (apply Z.eqb_neq; intros ->; by destruct (proj1 (ec_fresh s (ca_core s HS)) _ _ He)).
  pose (n := if ev_SignalCount ev =? 0 then ev_SignalCount ev + 1 else ev_SignalCount ev).
  assert (Hn : (n =? 0) = false) by (unfold n; destruct (ev_SignalCount ev =? 0) eqn:E; bool_to_Z; apply Z.eqb_neq; lia).
  destruct (locked_count_done e n s HS) as (s1 & H1 & S1 & E1).
  destruct (locked_count_done e 0 s1 S1) as (s2 & H2 & S2 & E2).
  assert (G1 : Events s1 !! e = Some (set_SignalCount n ev)) by (by rewrite E1, lookup_alter_eq, He).
  assert (G2 : Events s2 !! e = Some (set_SignalCount 0 (set_SignalCount n ev))) by (by rewrite E2, lookup_alter_eq, G1).
  exists s1, s2. split_and!.
  - unfold CoreSignalEvent. rewrite He0, He. apply Outcome_bind_Done in H1 as (s0 & H0 & H1). rewrite H0.
    cbn [mbind Outcome_bind]. apply acquire_spec in H0 as (_ & b & ->). unfold ReadEvent. cbn [Events Relevel set_Tpl set_Interrupts set_Locks].
    rewrite He. cbn [mbind Outcome_bind]. rewrite HNS.
    destruct (ev_SignalCount ev =? 0) eqn:E0; cbn [mbind Outcome_bind].
    + unfold n in H1. by rewrite H1.
    + assert (HU : UpdateEvent e (set_SignalCount n) (Relevel (LockTpl gEventQueueLock) b
        (<[gEventQueueLock:=MkLock (gEfiCurrentTpl s) true]> (Locks s)) s) = Relevel (LockTpl gEventQueueLock) b
        (<[gEventQueueLock:=MkLock (gEfiCurrentTpl s) true]> (Locks s)) s).
      { unfold UpdateEvent. simpl. rewrite alter_id; [by destruct s|]. intros ev' Hev'.
        assert (ev' = ev) as -> by congruence. unfold n. by destruct ev. }
      rewrite HU in H1. by rewrite H1.
  - unfold CoreCheckEvent. rewrite He0, G1. cbn [ev_Type set_SignalCount]. rewrite HNS.
    cbn [ev_SignalCount set_SignalCount]. rewrite Hn. cbn [andb mbind Outcome_bind].
    assert (HRd : ReadEvent e s1 = Done (set_SignalCount n ev)) by (unfold ReadEvent; by rewrite G1).
    rewrite HRd. cbn [mbind Outcome_bind ev_SignalCount set_SignalCount]. rewrite Hn. cbn [negb].
    apply Outcome_bind_Done in H2 as (s0 & H0 & H2). rewrite H0. cbn [mbind Outcome_bind].
    apply acquire_spec in H0 as (_ & b & ->). unfold ReadEvent.
    cbn [Events Relevel set_Tpl set_Interrupts set_Locks]. rewrite G1.
    cbn [mbind Outcome_bind ev_SignalCount set_SignalCount]. rewrite Hn. cbn [negb]. by rewrite H2.
  - unfold CoreCheckEvent. rewrite He0, G2. cbn [ev_Type set_SignalCount ev_SignalCount]. rewrite HNS, HNW.
    cbn [andb Z.eqb mbind Outcome_bind]. unfold ReadEvent. rewrite G2. done.
Qed.

End SignalCheck.

(** ** A sample run *)

(** Calls made one after the other from the application. *)
Fixpoint RunCalls {W} (gCpuPresent : bool) gSmmBase2 PoolAvailable TimerPeriod
    (Driver : Z -> Z -> Z -> W -> Prog W) (fuel : nat) (cs : list BootCall) (s : EventState W)
  : Outcome (EventState W) :=
  match cs with
  | [] => Done s
  | c :: cs =>
    '(_, s) ← BootService gCpuPresent gSmmBase2 PoolAvailable TimerPeriod
                (CoreRestoreTpl gCpuPresent gSmmBase2 PoolAvailable TimerPeriod Driver fuel) c s;
    RunCalls gCpuPresent gSmmBase2 PoolAvailable TimerPeriod Driver fuel cs s
  end.

Lemma RunCalls_core {W} a b c d (Driver : Z -> Z -> Z -> W -> Prog W) fuel cs : forall s s',
  EventCore s -> Quiet s -> RunCalls a b c d Driver fuel cs s = Done s' -> EventCore s' /\ Quiet s'.
Proof.
  induction cs as [|x cs IH]; intros s s' HC HQ H; simpl in H; [by injection H as <-|].
  apply Outcome_bind_Done in H as ([r s1] & H1 & H).
  apply boot_service_core in H1 as [? ?]; [|apply CoreRestoreTpl_spec|done|done]. by eapply IH.
Qed.

(** Notification functions that append their event to a trace. *)
Definition Trace : Z -> Z -> Z -> list Z -> list Z := fun _ e _ w => w ++ [e].

Definition SampleInitialized : EventState (list Z) :=
  match CoreInitializeEventServices true None (fun _ => true)
          (CoreRestoreTpl true None (fun _ => true) 10000 (ReturnsAtOnce Trace) 40) (InitialEvents []) with
  | Done (_, s) => s
  | _ => InitialEvents []
  end.

(** Three events, two at TPL_CALLBACK and one at TPL_NOTIFY, signalled at
    TPL_HIGH_LEVEL, so that they are queued and nothing has run. *)
Definition SampleCalls : list BootCall :=
  [ BsCreateEventEx EVT_NOTIFY_SIGNAL TPL_CALLBACK (Some (FnDriver 1)) 0 None;
    BsCreateEventEx EVT_NOTIFY_SIGNAL TPL_NOTIFY (Some (FnDriver 2)) 0 None;
    BsCreateEventEx EVT_NOTIFY_SIGNAL TPL_CALLBACK (Some (FnDriver 3)) 0 None;
    BsRaiseTpl TPL_HIGH_LEVEL; BsSignalEvent 5; BsSignalEvent 4; BsSignalEvent 3 ].

Definition SampleQueued : EventState (list Z) :=
  match RunCalls true None (fun _ => true) 10000 (ReturnsAtOnce Trace) 40 SampleCalls SampleInitialized with
  | Done s => s
  | _ => SampleInitialized
  end.

Example SampleQueued_order : DispatchOrder SampleQueued TPL_APPLICATION = [4; 5; 3].
Proof. vm_compute. reflexivity. Qed.

Lemma SampleInitialized_core : EventCore SampleInitialized /\ Quiet SampleInitialized.
Proof.
  eapply (initialize_core true None (fun _ => true) 10000 (ReturnsAtOnce Trace) 40 [] EFI_SUCCESS).
  vm_compute. reflexivity.
Qed.

Lemma SampleQueued_core : EventCore SampleQueued /\ Quiet SampleQueued.
Proof.
  destruct SampleInitialized_core as [HC HQ].
  eapply (RunCalls_core true None (fun _ => true) 10000 (ReturnsAtOnce Trace) 40 SampleCalls); [exact HC|exact HQ|].
  vm_compute. reflexivity.
Qed.

Lemma EventReach_ok_witness : EventCore SampleInitialized /\ Quiet SampleInitialized.
Proof.
  apply (EventReach_ok true None (fun _ => true) 10000 (ReturnsAtOnce Trace) []).
  apply (ReachInitialize true None (fun _ => true) 10000 (ReturnsAtOnce Trace) [] 40 EFI_SUCCESS).
  vm_compute. reflexivity.
Defined.

Lemma SampleQueued_drivers p : TPL_APPLICATION < p -> DriversOnly SampleQueued p.
Proof.
  intros _ e ev He Hev. destruct SampleQueued_core as [HC _].
  apply (linked_in _ _ _ (ec_queue _ HC p) e ev Hev) in He. apply andb_true_iff in He as [He _].
  assert (HF : map_Forall (fun _ ev => ev_NotifyLinked ev = true ->
             match ev_NotifyFunction ev with Some FnCheckTimers => False | _ => True end) (Events SampleQueued)).
  { apply map_Forall_to_list. vm_compute. repeat constructor; by intros ?. }
  specialize (HF e ev Hev He). intros E. by rewrite E in HF.
Qed.

Definition SampleRestored : EventState (list Z) :=
  match CoreRestoreTpl true None (fun _ => true) 10000 (ReturnsAtOnce Trace) 40 TPL_APPLICATION SampleQueued with
  | Done s => s
  | _ => SampleQueued
  end.

Lemma CoreRestoreTpl_leaves_nothing_witness :
  gEfiCurrentTpl SampleRestored = TPL_APPLICATION /\
  forall p, TPL_APPLICATION < p -> gEventQueue SampleRestored p = [].
Proof.
  apply (CoreRestoreTpl_leaves_nothing true None (fun _ => true) 10000 (ReturnsAtOnce Trace) 40
    TPL_APPLICATION SampleQueued); [apply SampleQueued_core|]. vm_compute. reflexivity.
Defined.

Lemma CoreRestoreTpl_dispatch_order_witness :
  exists s', CoreRestoreTpl true None (fun _ => true) 10000 (ReturnsAtOnce Trace) 40 TPL_APPLICATION SampleQueued
      = Done s' /\
    World s' = foldl (RunNotified Trace (Events SampleQueued)) (World SampleQueued)
                 (DispatchOrder SampleQueued TPL_APPLICATION) /\
    gEfiCurrentTpl s' = TPL_APPLICATION /\
    forall p, gEventQueue s' p = if TPL_APPLICATION <? p then [] else gEventQueue SampleQueued p.
Proof.
  apply (CoreRestoreTpl_dispatch_order true None (fun _ => true) 10000 Trace 40 TPL_APPLICATION SampleQueued);
    [apply SampleQueued_core|reflexivity|vm_compute; discriminate|vm_compute; discriminate
     |apply SampleQueued_drivers|lia|vm_compute; lia].
Defined.

(** An event without a notification function. *)
Definition SamplePlain : EventState (list Z) :=
  match RunCalls true None (fun _ => true) 10000 (ReturnsAtOnce Trace) 40 [BsCreateEventEx 0 0 None 0 None]
          SampleInitialized with
  | Done s => s
  | _ => SampleInitialized
  end.

Lemma SamplePlain_callable : Callable SamplePlain.
Proof.
  assert (H : EventCore SamplePlain /\ Quiet SamplePlain).
  { destruct SampleInitialized_core as [HC HQ].
    eapply (RunCalls_core true None (fun _ => true) 10000 (ReturnsAtOnce Trace) 40 [BsCreateEventEx 0 0 None 0 None]);
      [exact HC|exact HQ|]. vm_compute. reflexivity. }
  split; [apply H|apply H|vm_compute; discriminate|vm_compute; reflexivity].
Qed.

Lemma signal_then_check_witness :
  let Restore := CoreRestoreTpl true None (fun _ => true) 10000 (ReturnsAtOnce Trace) 40 in
  exists s1 s2,
    CoreSignalEvent true None Restore 3 SamplePlain = Done (EFI_SUCCESS, s1) /\
    CoreCheckEvent true None Restore 3 s1 = Done (EFI_SUCCESS, s2) /\
    CoreCheckEvent true None Restore 3 s2 = Done (EFI_NOT_READY, s2).
Proof.
  apply (signal_then_check true None (CoreRestoreTpl true None (fun _ => true) 10000 (ReturnsAtOnce Trace) 40) 3
    (MkEvent 0 0 false 0 None 0 0 false 0 false false 0 0) SamplePlain);
    [apply SamplePlain_callable|vm_compute; reflexivity|reflexivity].
Defined.
