(* ===== verification/EventTimers.v ===== *)
(** * Timers

    What one run of [CoreCheckTimers] does: it terminates, signals exactly the
    timers that have expired, reschedules the periodic ones and leaves no
    expired timer behind, unless a period is so long that the next trigger
    time wraps around, in which case it never returns. *)
From Stdlib Require Import ZArith Lia Sorting.Sorted.
From stdpp Require Import base option gmap functions list.
From S2P Require Import Prelude Event EventInv EventOps EventDispatch EventTheorems.

Section Timers.
Context {W : Type}.
Implicit Types s : EventState W.
Context (gCpuPresent : bool) (gSmmBase2 : option (EFI_STATUS * bool)).
Context (Restore : Z -> EventState W -> Outcome (EventState W)) {HR : RestoreSpec Restore}.
Abbreviation CoreSignalEvent := (CoreSignalEvent gCpuPresent gSmmBase2 Restore).
Abbreviation CheckTimersLoop := (CheckTimersLoop gCpuPresent gSmmBase2 Restore).
Abbreviation CoreCheckTimers := (CoreCheckTimers gCpuPresent gSmmBase2 Restore).

(** ** Signalling at a high level returns *)

(** The signal counts only go up, and that of [e] is set. *)
Definition Signalled (e : Z) s s' : Prop :=
  forall x ev, Events s !! x = Some ev -> exists ev', Events s' !! x = Some ev' /\
    (ev_SignalCount ev <> 0 \/ x = e -> ev_SignalCount ev' <> 0).

(** No event disappears and no signal count is cleared. *)
Definition KeepsCounts s s' : Prop :=
  forall x ev, Events s !! x = Some ev -> exists ev', Events s' !! x = Some ev' /\
    (ev_SignalCount ev <> 0 -> ev_SignalCount ev' <> 0).

#[local] Instance KeepsCounts_preorder : PreOrder KeepsCounts.
Proof.
  split; [intros s x ev Hx; by exists ev|]. intros s1 s2 s3 H1 H2 x ev Hx.
  destruct (H1 x ev Hx) as (ev2 & Hx2 & HS). destruct (H2 x ev2 Hx2) as (ev3 & Hx3 & HS3).
  exists ev3. split; [done|]. intros H. by apply HS3, HS.
Qed.

Lemma Signalled_keeps e s s' : Signalled e s s' -> KeepsCounts s s'.
Proof. intros H x ev Hx. destruct (H x ev Hx) as (ev' & ? & HS). exists ev'. split; [done|]. intros ?. apply HS. by left. Qed.

Lemma Signalled_then e s1 s2 s3 : Signalled e s1 s2 -> KeepsCounts s2 s3 -> Signalled e s1 s3.
Proof.
  intros H1 H2 x ev Hx. destruct (H1 x ev Hx) as (ev2 & Hx2 & HS). destruct (H2 x ev2 Hx2) as (ev3 & Hx3 & HS3).
  exists ev3. split; [done|]. intros H. by apply HS3, HS.
Qed.

Lemma Signalled_after e s1 s2 s3 : KeepsCounts s1 s2 -> Signalled e s2 s3 -> Signalled e s1 s3.
Proof.
  intros H1 H2 x ev Hx. destruct (H1 x ev Hx) as (ev2 & Hx2 & HS). destruct (H2 x ev2 Hx2) as (ev3 & Hx3 & HS3).
  exists ev3. split; [done|]. intros [H|H]; apply HS3; [left; by apply HS|by right].
Qed.

Lemma update_keeps e f s :
  (forall ev, ev_SignalCount (f ev) = ev_SignalCount ev) -> KeepsCounts s (UpdateEvent e f s).
Proof.
  intros Hf x ev Hx. simpl. destruct (decide (e = x)) as [->|Hne].
  - exists (f ev). rewrite lookup_alter_eq, Hx. split; [done|]. by rewrite Hf.
  - exists ev. by rewrite lookup_alter_ne.
Qed.

(** The signal counts are the same. *)
Definition SameCounts s s' : Prop :=
  forall x, ev_SignalCount <$> Events s' !! x = ev_SignalCount <$> Events s !! x.

Lemma notify_done e s :
  EventCore s -> lk_Acquired (Locks s gEventQueueLock) = true -> is_Some (Events s !! e) ->
  exists s', CoreNotifyEvent e s = Done s' /\ SameCounts s s'.
Proof.
  intros HC HA [ev He]. unfold CoreNotifyEvent, ReadEvent. rewrite HA, He. cbn [ASSERT mbind Outcome_bind].
  eexists. split; [reflexivity|]. intros x. destruct (ev_NotifyLinked ev); simpl;
    (destruct (decide (e = x)) as [->|Hne]; [|by rewrite lookup_alter_ne]);
    rewrite lookup_alter_eq, He; done.
Qed.

Lemma signal_loop_done g Link : forall s,
  EventCore s -> lk_Acquired (Locks s gEventQueueLock) = true ->
  (forall e, e ∈ Link -> e ∈ gEventSignalQueue s) ->
  exists s', NotifySignalLoop g Link s = Done s' /\ SameCounts s s'.
Proof.
  induction Link as [|e Link IH]; intros s HC HA HL; cbn [NotifySignalLoop]; [by exists s|].
  assert (Hin : e ∈ gEventSignalQueue s) by (apply HL, elem_of_cons; by left).
  pose proof Hin as He. apply (proj2 (ec_signal s HC)) in He as (ev & He & Hs). unfold ReadEvent. rewrite He.
  cbn [mbind Outcome_bind].
  assert (HL' : forall x, x ∈ Link -> x ∈ gEventSignalQueue s) by (intros x Hx; apply HL, elem_of_cons; by right).
  destruct (ev_EventGroup ev =? g); cbn [mbind Outcome_bind]; [|by apply IH].
  destruct (notify_done e s HC HA) as (s1 & H1 & N1); [by rewrite He|]. rewrite H1. cbn [mbind Outcome_bind].
  pose proof (notify_keeps e s s1 HC H1) as (K1 & K2 & K3).
  assert (C1 : EventCore s1).
  { apply (notify_core e ev s s1 HC He); [|done]. by apply signal_type_notifies, (et_signal _ (ec_typed s HC _ _ He)). }
  destruct (IH s1 C1) as (s' & H' & N'); [by rewrite K2|by rewrite K3|]. exists s'. split; [done|].
  intros x. by rewrite N', N1.
Qed.

Lemma signal_list_done g s :
  EventCore s -> lk_Acquired (Locks s gEventQueueLock) = false -> 30 <= gEfiCurrentTpl s <= 31 ->
  exists s', CoreNotifySignalList gCpuPresent gSmmBase2 Restore g s = Done s' /\ SameCounts s s' /\
    lk_Acquired (Locks s' gEventQueueLock) = false /\ (forall l, l <> gEventQueueLock -> Locks s' l = Locks s l).
Proof using HR.
  intros HC HA Ht. unfold CoreNotifySignalList, CoreAcquireEventLock, CoreReleaseEventLock.
  destruct (acquire_done gCpuPresent gSmmBase2 gEventQueueLock s HA) as [b ->]; [change (gEfiCurrentTpl s <= 31); lia|].
  cbn [mbind Outcome_bind]. set (s1 := Relevel _ _ _ s).
  assert (C1 : EventCore s1) by (by apply EventCore_relevel).
  destruct (signal_loop_done g (gEventSignalQueue s1) s1) as (s2 & H2 & N2); [done|done|done|].
  rewrite H2. cbn [mbind Outcome_bind].
  destruct (signal_loop_core g _ _ _ C1 (fun e He => He) H2) as (C2 & T2 & L2 & _).
  destruct (release_done Restore gEventQueueLock s2) as [b' Hb'].
  - by rewrite L2.
  - rewrite L2, T2. change (gEfiCurrentTpl s <= 31). lia.
  - by rewrite T2.
  - apply C2.
  - intros i Hi. rewrite L2. change (i <= gEfiCurrentTpl s). pose proof (proj2 (ec_bits s2 C2) i Hi). lia.
  - rewrite Hb'. eexists. split; [reflexivity|]. split; [done|]. split; [done|].
    intros l Hl. simpl. rewrite fn_lookup_insert_ne by done. rewrite L2. simpl. by rewrite fn_lookup_insert_ne.
Qed.

(** The event lock is held, taken at level [t], and the other locks are as in [s]. *)
Record EventLocked (t : Z) (s s' : EventState W) : Prop := {
  el_core : EventCore s';
  el_tpl : gEfiCurrentTpl s' = 31;
  el_acquired : lk_Acquired (Locks s' gEventQueueLock) = true;
  el_owner : lk_OwnerTpl (Locks s' gEventQueueLock) = t;
  el_others : forall l, l <> gEventQueueLock -> Locks s' l = Locks s l
}.

Lemma locked_release_done t s s' :
  EventLocked t s s' -> 30 <= t <= 31 ->
  exists b L, CoreReleaseEventLock Restore s' = Done (Relevel t b L s') /\
    lk_Acquired (L gEventQueueLock) = false /\ (forall l, l <> gEventQueueLock -> L l = Locks s l).
Proof using HR.
  intros [C' T' A' O' L'] Ht. unfold CoreReleaseEventLock.
  destruct (release_done Restore gEventQueueLock s') as [b H]; [done|lia|lia|apply C'| |].
  { intros i Hi. rewrite O'. pose proof (proj2 (ec_bits s' C') i Hi). lia. }
  rewrite H, O'. do 2 eexists. split; [reflexivity|]. split; [by rewrite fn_lookup_insert|].
  intros l Hl. rewrite fn_lookup_insert_ne by done. by apply L'.
Qed.

Lemma locked_acquire_done s0 s :
  EventCore s -> lk_Acquired (Locks s gEventQueueLock) = false -> 30 <= gEfiCurrentTpl s <= 31 ->
  (forall l, l <> gEventQueueLock -> Locks s l = Locks s0 l) ->
  exists b L, CoreAcquireEventLock gCpuPresent gSmmBase2 s = Done (Relevel 31 b L s) /\
    EventLocked (gEfiCurrentTpl s) s0 (Relevel 31 b L s).
Proof.
  intros HC HA Ht HL. unfold CoreAcquireEventLock.
  destruct (acquire_done gCpuPresent gSmmBase2 gEventQueueLock s HA) as [b ->]; [change (gEfiCurrentTpl s <= 31); lia|].
  do 2 eexists. split; [reflexivity|]. split; try done; [by apply EventCore_relevel|].
  intros l Hl. simpl. rewrite fn_lookup_insert_ne by done. by apply HL.
Qed.

(** The group of an event is signalled with the lock released. *)
Lemma signal_group_done g t s0 s :
  EventLocked t s0 s -> 30 <= t <= 31 ->
  exists s', (s ← CoreReleaseEventLock Restore s;
              s ← CoreNotifySignalList gCpuPresent gSmmBase2 Restore g s;
              CoreAcquireEventLock gCpuPresent gSmmBase2 s) = Done s' /\ EventLocked t s0 s' /\ SameCounts s s'.
Proof using HR.
  intros HE Ht. destruct (locked_release_done t s0 s HE Ht) as (b & L & -> & HA & HL). cbn [mbind Outcome_bind].
  set (s1 := Relevel t b L s). assert (C1 : EventCore s1) by (by apply EventCore_relevel, (el_core _ _ _ HE)).
  destruct (signal_list_done g s1) as (s2 & H2 & N2 & A2 & L2); [done|done|done|]. rewrite H2. cbn [mbind Outcome_bind].
  pose proof (signal_list_core _ _ _ _ _ _ C1 H2) as (C2 & _ & T2 & _). change (gEfiCurrentTpl s1) with t in T2.
  destruct (locked_acquire_done s0 s2) as (b3 & L3 & H3 & E3); [done|done|by rewrite T2| |].
  { intros l Hl. rewrite L2 by done. by apply HL. }
  rewrite H3. eexists. split; [reflexivity|]. rewrite T2 in E3. done.
Qed.

Lemma signal_single_done e ev t s0 s :
  EventLocked t s0 s -> Events s !! e = Some ev -> HasFlag (ev_Type ev) EVT_NOTIFY_SIGNAL = true ->
  exists s', CoreNotifyEvent e s = Done s' /\ EventLocked t s0 s' /\ SameCounts s s'.
Proof.
  intros [C T A O L] He HS. destruct (notify_done e s C A) as (s' & H & N); [by rewrite He|].
  pose proof (notify_keeps e s s' C H) as (K1 & K2 & K3). exists s'. split_and!; [done| |done].
  split; rewrite ?K1, ?K2; try done. apply (notify_core e ev s s' C He); [by apply signal_type_notifies|done].
Qed.

Lemma count_signalled e ev s s1 s3 :
  Events s !! e = Some ev -> ev_SignalCount ev = 0 -> Events s1 = Events s ->
  SameCounts (UpdateEvent e (set_SignalCount (ev_SignalCount ev + 1)) s1) s3 -> Signalled e s s3.
Proof.
  intros E H0 E1 H3 x evx Hx. specialize (H3 x). simpl in H3. rewrite E1 in H3.
  destruct (decide (e = x)) as [->|Hex].
  - rewrite lookup_alter_eq, E in H3. destruct (Events s3 !! x) as [ev3|]; [|done]. exists ev3. split; [done|].
    injection H3 as ->. intros _. simpl. lia.
  - rewrite lookup_alter_ne, Hx in H3 by done. destruct (Events s3 !! x) as [ev3|]; [|done]. exists ev3. split; [done|].
    injection H3 as ->. intros [?| ->]; done.
Qed.

Lemma signal_done e s :
  EventCore s -> lk_Acquired (Locks s gEventQueueLock) = false -> 30 <= gEfiCurrentTpl s <= 31 ->
  exists r s', CoreSignalEvent e s = Done (r, s') /\ Signalled e s s' /\
    lk_Acquired (Locks s' gEventQueueLock) = false /\ (forall l, l <> gEventQueueLock -> Locks s' l = Locks s l).
Proof using HR.
  intros HC HA Ht. unfold Event.CoreSignalEvent.
  destruct (Z.eqb_spec e 0) as [->|Hne].
  { eexists _, s. split; [reflexivity|]. split_and!; try done. intros x ev Hx. exists ev. split; [done|].
    intros [?| ->]; [done|]. by destruct (proj1 (ec_fresh s HC) _ _ Hx). }
  destruct (Events s !! e) as [ev|] eqn:E; cycle 1.
  { eexists _, s. split; [reflexivity|]. split_and!; try done. intros x ev Hx. exists ev. split; [done|].
    intros [?| ->]; [done|congruence]. }
  destruct (locked_acquire_done s s HC HA Ht) as (b & L & -> & HE); [done|].
  cbn [mbind Outcome_bind]. set (s1 := Relevel 31 b L s) in *. unfold ReadEvent. change (Events s1) with (Events s).
  rewrite E. cbn [mbind Outcome_bind]. set (s2 := UpdateEvent e (set_SignalCount (ev_SignalCount ev + 1)) s1).
  assert (E2 : EventLocked (gEfiCurrentTpl s) s s2) by (destruct HE as [C T A O Lk]; split; try done; by apply set_SignalCount_core).
  (* the body between the locks *)
  match goal with |- context [if ev_SignalCount ev =? 0 then ?body else Done s1] =>
    assert (HB : exists s3, (if ev_SignalCount ev =? 0 then body else Done s1) = Done s3 /\
      EventLocked (gEfiCurrentTpl s) s s3 /\ Signalled e s s3) end.
  { destruct (Z.eqb_spec (ev_SignalCount ev) 0) as [H0|H0]; cycle 1.
    { exists s1. split_and!; try done. intros x evx Hx. exists evx. split; [done|]. intros [?| ->]; [done|congruence]. }
    assert (HX : exists s3, (if HasFlag (ev_Type ev) EVT_NOTIFY_SIGNAL then
        if HasFlag (ev_ExFlag ev) EVT_EXFLAG_EVENT_GROUP then
          s ← CoreReleaseEventLock Restore s2; s ← CoreNotifySignalList gCpuPresent gSmmBase2 Restore (ev_EventGroup ev) s;
          CoreAcquireEventLock gCpuPresent gSmmBase2 s
        else CoreNotifyEvent e s2 else Done s2) = Done s3 /\ EventLocked (gEfiCurrentTpl s) s s3 /\ SameCounts s2 s3).
    { destruct (HasFlag (ev_Type ev) EVT_NOTIFY_SIGNAL) eqn:ES; [|by exists s2].
      destruct (HasFlag (ev_ExFlag ev) EVT_EXFLAG_EVENT_GROUP); [by apply signal_group_done|].
      apply (signal_single_done e (set_SignalCount (ev_SignalCount ev + 1) ev)); [done|simpl; by rewrite lookup_alter_eq, E|done]. }
    destruct HX as (s3 & H3 & E3 & N3). exists s3. split_and!; [done|done|]. by apply (count_signalled e ev s s1). }
  destruct HB as (s3 & -> & E3 & S3). cbn [mbind Outcome_bind].
  destruct (locked_release_done _ s s3 E3 Ht) as (b4 & L4 & -> & A4 & O4). eexists _, _. split; [reflexivity|]. done.
Qed.

(** ** The timer list *)

(** Whether the timer of the event is set, its trigger time and its period. *)
Definition TimerInfo s (e : Z) : option (bool * Z * Z) :=
  (fun ev => (ev_TimerLinked ev, ev_TriggerTime ev, ev_Period ev)) <$> Events s !! e.

(** When the timer of the event is due. *)
Definition DueTime s (e : Z) : option Z :=
  match TimerInfo s e with Some (true, T, _) => Some T | _ => None end.

(** When it is due after the timers have been checked at the time [now]: a
    timer that has not expired stays, an expired one is removed or, if it is
    periodic, set one period later, counted from [now] if that is in the past. *)
Definition NextDueTime (now : Z) s (e : Z) : option Z :=
  match TimerInfo s e with
  | Some (true, T, P) =>
    if now <? T then Some T
    else if P =? 0 then None
    else Some (if T + P <=? now then now + P else T + P)
  | _ => None
  end.

Definition Expired (now : Z) s (e : Z) : Prop := exists T, DueTime s e = Some T /\ T <= now.

(** No set timer's next trigger time exceeds 64 bits. *)
Definition TimersBounded (now : Z) s : Prop :=
  forall e T P, TimerInfo s e = Some (true, T, P) -> 0 <= T /\ 0 <= P /\ now + P < 2 ^ 64.

(** The number of rounds the timer takes. *)
Definition Rounds (now : Z) s (e : Z) : nat :=
  match TimerInfo s e with
  | Some (true, T, P) => if now <? T then 0 else if P =? 0 then 1 else if T + P <=? now then 2 else 1
  | _ => 0
  end.

Lemma TimerFrame_info s s' e : TimerFrame s s' -> TimerInfo s' e = TimerInfo s e.
Proof.
  intros (_ & _ & _ & H). specialize (H e). unfold TimerInfo.
  destruct (Events s !! e), (Events s' !! e); simpl in *; try done. injection H as ? ? ? ?. congruence.
Qed.

Lemma insert_timer_done T e s l :
  (forall x, x ∈ l -> is_Some (Events s !! x)) -> exists l', InsertTimer T e s l = Done l'.
Proof.
  induction l as [|x l IH]; intros H; cbn [InsertTimer]; [by eexists|].
  destruct (H x) as [ev Hx]; [apply elem_of_cons; by left|]. unfold ReadEvent. rewrite Hx. cbn [mbind Outcome_bind].
  destruct (T <? ev_TriggerTime ev); [by eexists|].
  destruct IH as [l' ->]; [intros y Hy; apply H, elem_of_cons; by right|]. by eexists.
Qed.

(** Setting the timer of [e] again, at the time [T]. *)
Lemma rearm_done e ev T s :
  EventCore s -> lk_Acquired (Locks s mEfiTimerLock) = true -> Events s !! e = Some ev ->
  ev_TimerLinked ev = false -> ev_TriggerTime ev = T -> HasFlag (ev_Type ev) EVT_TIMER = true ->
  exists s', CoreInsertEventTimer e s = Done s' /\ EventCore s' /\
    mEfiTimerList s' ≡ₚ e :: mEfiTimerList s /\ TimerInfo s' e = Some (true, T, ev_Period ev) /\
    (forall x, x <> e -> TimerInfo s' x = TimerInfo s x) /\ KeepsCounts s s' /\
    gEfiCurrentTpl s' = gEfiCurrentTpl s /\ Locks s' = Locks s.
Proof.
  intros HC HA He HL HT HTy.
  assert (HD : exists s', CoreInsertEventTimer e s = Done s').
  { unfold CoreInsertEventTimer, ReadEvent. rewrite HA, He. cbn [ASSERT mbind Outcome_bind].
    destruct (insert_timer_done (ev_TriggerTime ev) e s (mEfiTimerList s)) as [l ->]; [|by eexists].
    intros x Hx. apply (proj2 (ec_timer s HC)) in Hx as (evx & -> & _). eauto. }
  destruct HD as [s' H]. exists s'. split; [done|].
  destruct (insert_event_core e ev s s' HC He HL HTy H) as (C' & Hs & HP).
  split_and!; try done.
  - rewrite Hs. unfold TimerInfo. simpl. rewrite lookup_alter_eq, He. simpl. by rewrite HT.
  - intros x Hx. rewrite Hs. unfold TimerInfo. simpl. by rewrite lookup_alter_ne.
  - rewrite Hs. by apply (update_keeps e (set_TimerLinked true) s).
  - by rewrite Hs.
  - by rewrite Hs.
Qed.

(** The state in which the loop of [CoreCheckTimers] works. *)
Record Checking s : Prop := {
  ck_core : EventCore s;
  ck_tpl : gEfiCurrentTpl s = 30;
  ck_event_lock : lk_Acquired (Locks s gEventQueueLock) = false;
  ck_timer_lock : Locks s mEfiTimerLock = MkLock 30 true
}.

Lemma signal_checking e s :
  Checking s -> exists r s', CoreSignalEvent e s = Done (r, s') /\ Checking s' /\ TimerFrame s s' /\ Signalled e s s'.
Proof using HR.
  intros [HC HT HE HL]. destruct (signal_done e s HC HE) as (r & s' & H & S' & A' & L'); [lia|].
  exists r, s'. split; [done|].
  destruct (signal_core gCpuPresent gSmmBase2 Restore e s r s' HC H) as (C' & _ & T' & F').
  split_and!; [|apply F'; lia|done]. split; [done|congruence|done|by rewrite L'].
Qed.

(** One round of the loop, for the first timer of the list, which has expired. *)
(** Putting a periodic timer back on the list. *)
Lemma rearm_round e ev2 T' P Rest s s2 s3 :
  Checking s3 -> Events s2 !! e = Some ev2 -> HasFlag (ev_Type ev2) EVT_TIMER = true -> ev_TimerLinked ev2 = false ->
  ev_Period ev2 = P -> mEfiTimerList s2 = Rest -> Signalled e s s2 ->
  (forall x, x <> e -> TimerInfo s2 x = TimerInfo s x) ->
  TimerFrame (UpdateEvent e (set_TriggerTime T') s2) s3 -> KeepsCounts s2 s3 ->
  exists s', CoreInsertEventTimer e s3 = Done s' /\ Checking s' /\ Signalled e s s' /\
    mEfiTimerList s' ≡ₚ e :: Rest /\ TimerInfo s' e = Some (true, T', P) /\
    forall x, x <> e -> TimerInfo s' x = TimerInfo s x.
Proof.
  intros K3 E2 Y2 L2 P2 M2 S2 O2 F3 N3. pose proof F3 as (G1 & _ & _ & G2). specialize (G2 e). simpl in G2.
  rewrite lookup_alter_eq, E2 in G2. simpl in G2. destruct (Events s3 !! e) as [ev3|] eqn:E3; [|done].
  injection G2 as Y3 L3 T3 P3. pose proof K3 as [C3 Tp3 El3 Tl3].
  destruct (rearm_done e ev3 T' s3) as (s' & H' & C' & P' & I' & O' & N' & Tp' & Lk');
    [done|by rewrite Tl3|done|congruence|congruence|congruence|].
  exists s'. split; [done|]. split_and!.
  - split; [done|congruence|by rewrite Lk'|by rewrite Lk'].
  - eapply Signalled_then; [done|]. by etrans.
  - rewrite P', G1. simpl. by rewrite M2.
  - by rewrite I', P3, P2.
  - intros x Hx. rewrite O', (TimerFrame_info _ _ _ F3), <- O2 by done.
    unfold TimerInfo. simpl. by rewrite lookup_alter_ne.
Qed.

Lemma check_round now fuel e Rest T P s :
  Checking s -> mEfiTimerList s = e :: Rest -> TimerInfo s e = Some (true, T, P) -> T <= now ->
  exists s', CheckTimersLoop (S fuel) now s = CheckTimersLoop fuel now s' /\ Checking s' /\ Signalled e s s' /\
    mEfiTimerList s' ≡ₚ (if P =? 0 then Rest else e :: Rest) /\
    TimerInfo s' e = Some (if P =? 0 then (false, T, P)
                           else (true, (if add64 T P <=? now then now else add64 T P), P)) /\
    (forall x, x <> e -> TimerInfo s' x = TimerInfo s x).
Proof using HR.
  intros HCk HLs HI HT. pose proof HCk as [HC HTp HEl HTl].
  unfold TimerInfo in HI. destruct (Events s !! e) as [ev|] eqn:E; [|done]. injection HI as I1 I2 I3.
  assert (HTy : HasFlag (ev_Type ev) EVT_TIMER = true) by (by apply (et_timer _ (ec_typed s HC _ _ E))).
  destruct (head_removed e s Rest HC HLs) as [HR1 HR2].
  pose proof (unlink_timer_core e s HC) as C1. rewrite HR1 in C1.
  set (s1 := UpdateEvent e (set_TimerLinked false) (set_TimerList Rest s)) in *.
  assert (K1 : Checking s1) by done. assert (N1 : KeepsCounts s s1) by (by apply (update_keeps e (set_TimerLinked false))).
  destruct (signal_checking e s1 K1) as (r & s2 & H2 & K2 & F2 & S2).
  assert (X2 : exists ev2, Events s2 !! e = Some ev2 /\ ev_Type ev2 = ev_Type ev /\ ev_TimerLinked ev2 = false /\
                 ev_TriggerTime ev2 = T /\ ev_Period ev2 = P).
  { destruct F2 as (_ & _ & _ & F2). specialize (F2 e). simpl in F2. rewrite lookup_alter_eq, E in F2. simpl in F2.
    destruct (Events s2 !! e) as [ev2|]; [|done]. exists ev2. injection F2 as -> -> -> ->. done. }
  destruct X2 as (ev2 & E2 & Y2 & L2 & T2 & P2).
  assert (O2 : forall x, x <> e -> TimerInfo s2 x = TimerInfo s x).
  { intros x Hx. rewrite (TimerFrame_info _ _ _ F2). unfold TimerInfo. simpl. by rewrite lookup_alter_ne. }
  cbn [Event.CheckTimersLoop]. rewrite HLs. unfold ReadEvent. rewrite E. cbn [mbind Outcome_bind].
  rewrite (proj2 (Z.ltb_ge now (ev_TriggerTime ev))) by lia. cbn zeta. fold s1. rewrite H2.
  cbn [mbind Outcome_bind]. rewrite E2. cbn [mbind Outcome_bind]. rewrite T2, P2.
  destruct (P =? 0); cbn [negb].
  { cbn [mbind Outcome_bind]. exists s2. split_and!; try done; [by eapply Signalled_after| |].
    - by rewrite (proj1 F2).
    - unfold TimerInfo. rewrite E2. simpl. by rewrite L2, T2, P2. }
  assert (HN2 : e ∉ mEfiTimerList s2) by (by rewrite (proj1 F2)).
  assert (HArm : forall s3 T', Checking s3 -> TimerFrame (UpdateEvent e (set_TriggerTime T') s2) s3 -> KeepsCounts s2 s3 ->
    exists s', CoreInsertEventTimer e s3 = Done s' /\ Checking s' /\ Signalled e s s' /\
      mEfiTimerList s' ≡ₚ e :: Rest /\ TimerInfo s' e = Some (true, T', P) /\
      forall x, x <> e -> TimerInfo s' x = TimerInfo s x).
  { intros s3 T' K3 F3 N3. apply (rearm_round e ev2 T' P Rest s s2 s3); try done; [by rewrite Y2|exact (proj1 F2)|].
    by eapply Signalled_after. }
  pose proof K2 as [C2 Tp2 El2 Tl2].
  destruct (add64 T P <=? now).
  - assert (C3 : EventCore (UpdateEvent e (set_TriggerTime now) s2)) by (by apply set_times_core; [eauto|..]).
    assert (K3 : Checking (UpdateEvent e (set_TriggerTime now) s2)) by done.
    destruct (signal_checking (mEfiCheckTimerEvent s2) _ K3) as (r3 & s4 & H4 & K4 & F4 & S4).
    cbn [mEfiCheckTimerEvent UpdateEvent set_Events]. fold (UpdateEvent e (set_TriggerTime now) s2).
    rewrite H4. cbn [mbind Outcome_bind].
    destruct (HArm s4 now K4 F4) as (s' & -> & ?); [|by exists s'].
    etrans; [by apply (update_keeps e (set_TriggerTime now))|by eapply Signalled_keeps].
  - assert (C3 : EventCore (UpdateEvent e (set_TriggerTime (add64 T P)) s2)) by (by apply set_times_core; [eauto|..]).
    cbn [mbind Outcome_bind].
    destruct (HArm (UpdateEvent e (set_TriggerTime (add64 T P)) s2) (add64 T P)) as (s' & -> & ?);
      [done|done|by apply (update_keeps e (set_TriggerTime (add64 T P)))|by exists s'].
Qed.

Definition TotalRounds (now : Z) s : nat := sum_list_with (Rounds now s) (mEfiTimerList s).

Lemma timer_listed s e : EventCore s -> e ∈ mEfiTimerList s -> exists T P, TimerInfo s e = Some (true, T, P).
Proof.
  intros HC He. apply (proj2 (ec_timer s HC)) in He as (ev & He & Hl).
  exists (ev_TriggerTime ev), (ev_Period ev). unfold TimerInfo. rewrite He. simpl. by rewrite Hl.
Qed.

Lemma info_listed s e T P : EventCore s -> TimerInfo s e = Some (true, T, P) -> e ∈ mEfiTimerList s.
Proof.
  intros HC H. apply (proj2 (ec_timer s HC)). unfold TimerInfo in H.
  destruct (Events s !! e) as [ev|]; [|done]. exists ev. split; [done|]. by injection H as -> _ _.
Qed.

(** The first timer of the list is the earliest. *)
Lemma head_earliest s e Rest T P x : EventCore s -> mEfiTimerList s = e :: Rest ->
  TimerInfo s e = Some (true, T, P) -> forall T', DueTime s x = Some T' -> T <= T'.
Proof.
  intros HC HL HI T' HD. unfold DueTime in HD.
  destruct (TimerInfo s x) as [[[[] Tx] Px]|] eqn:Ex; simplify_eq.
  assert (HT : forall y b Ty Py, TimerInfo s y = Some (b, Ty, Py) -> TimeOf (Events s) y = Ty).
  { intros y b Ty Py Hy. unfold TimerInfo in Hy. unfold TimeOf. destruct (Events s !! y); [|done].
    by injection Hy as <- <- <-. }
  pose proof (ec_sorted s HC) as HS. rewrite HL, fmap_cons in HS. apply StronglySorted_inv in HS as [_ HF].
  rewrite Forall_fmap, Forall_forall in HF.
  pose proof (info_listed s x T' Px HC Ex) as Hx.
  rewrite HL in Hx. apply elem_of_cons in Hx as [->|Hx]; [rewrite HI in Ex; injection Ex as -> ->; lia|].
  specialize (HF x Hx). simpl in HF. by rewrite (HT _ _ _ _ HI), (HT _ _ _ _ Ex) in HF.
Qed.

Lemma rounds_after_round now e T P s s' Rest :
  mEfiTimerList s = e :: Rest -> e ∉ Rest -> TimerInfo s e = Some (true, T, P) -> T <= now ->
  0 <= T -> 0 <= P -> now + P < 2 ^ 64 ->
  mEfiTimerList s' ≡ₚ (if P =? 0 then Rest else e :: Rest) ->
  TimerInfo s' e = Some (if P =? 0 then (false, T, P)
                         else (true, (if add64 T P <=? now then now else add64 T P), P)) ->
  (forall x, x <> e -> TimerInfo s' x = TimerInfo s x) ->
  (S (TotalRounds now s') <= TotalRounds now s)%nat /\ (forall x, NextDueTime now s' x = NextDueTime now s x) /\
  (TimersBounded now s -> TimersBounded now s').
Proof.
  intros HL HN HI HT H0 HP Hw HL' HI' HO. rewrite add64_small in HI' by lia.
  assert (HRest : sum_list_with (Rounds now s') Rest = sum_list_with (Rounds now s) Rest).
  { clear -HN HO. induction Rest as [|x Rest IH]; [done|]. apply not_elem_of_cons in HN as [? ?]. simpl.
    rewrite IH by done. unfold Rounds at 1 3. by rewrite HO. }
  split; [|split].
  - unfold TotalRounds. rewrite HL', HL. simpl. unfold Rounds at 2. rewrite HI.
    rewrite (proj2 (Z.ltb_ge now T)) by lia. destruct (P =? 0) eqn:EP; [rewrite HRest; lia|]. bool_to_Z.
    simpl. rewrite HRest. unfold Rounds at 1. rewrite HI'. destruct (T + P <=? now) eqn:ET; bool_to_Z.
    + rewrite Z.ltb_irrefl. rewrite (proj2 (Z.eqb_neq P 0)) by lia.
      rewrite (proj2 (Z.leb_gt (now + P) now)) by lia. lia.
    + rewrite (proj2 (Z.ltb_lt now (T + P))) by lia. lia.
  - intros x. destruct (Z.eq_dec x e) as [->|Hx]; [|unfold NextDueTime; by rewrite HO].
    unfold NextDueTime. rewrite HI, HI'. rewrite (proj2 (Z.ltb_ge now T)) by lia.
    destruct (P =? 0) eqn:EP; [done|]. bool_to_Z. destruct (T + P <=? now) eqn:ET; bool_to_Z.
    + rewrite Z.ltb_irrefl. rewrite (proj2 (Z.eqb_neq P 0)) by lia.
      by rewrite (proj2 (Z.leb_gt (now + P) now)) by lia.
    + by rewrite (proj2 (Z.ltb_lt now (T + P))) by lia.
  - intros HB x Tx Px Hx. destruct (Z.eq_dec x e) as [->|Hne]; [|apply (HB x); by rewrite <- HO].
    rewrite HI' in Hx. destruct (P =? 0); [done|]. injection Hx as <- <-.
    destruct (T + P <=? now) eqn:ET; bool_to_Z; lia.
Qed.

Lemma check_loop_done now : forall fuel s,
  Checking s -> TimersBounded now s -> (TotalRounds now s <= fuel)%nat ->
  exists s', CheckTimersLoop fuel now s = Done s' /\ Checking s' /\
    (forall e, DueTime s' e = NextDueTime now s e) /\ KeepsCounts s s' /\
    (forall e, Expired now s e -> exists ev', Events s' !! e = Some ev' /\ ev_SignalCount ev' <> 0).
Proof using HR.
  induction fuel as [|fuel IH]; intros s HK HB HF; pose proof HK as [HC _ _ _].
  all: destruct (mEfiTimerList s) as [|e Rest] eqn:HL.
  1,3: (exists s; split; [simpl; by rewrite HL|]; split; [done|]).
  1,2: (assert (HE : forall e, DueTime s e = None /\ NextDueTime now s e = None);
    [intros e; unfold DueTime, NextDueTime; destruct (TimerInfo s e) as [[[[] T] P]|] eqn:E; try done;
     apply (info_listed s e T P HC) in E; rewrite HL in E; by apply elem_of_nil in E
    |split_and!; [intros e; by destruct (HE e) as [-> ->]|done|]; intros e (T & HT & _); destruct (HE e); congruence]).
  all: destruct (timer_listed s e HC) as (T & P & HI); [rewrite HL; apply elem_of_cons; by left|].
  all: destruct (Z.lt_ge_cases now T) as [HTn|HTn].
  1,3: (exists s; split; [|split; [done|]]).
  1,3: (unfold TimerInfo in HI; destruct (Events s !! e) as [ev|] eqn:E; [|done]; injection HI as I1 I2 I3;
     simpl; rewrite HL; unfold ReadEvent; rewrite E; cbn [mbind Outcome_bind];
     by rewrite (proj2 (Z.ltb_lt now (ev_TriggerTime ev))) by lia).
  1,2: (assert (HE : forall x T', DueTime s x = Some T' -> now < T') by
         (intros x T' HT'; pose proof (head_earliest s e Rest T P x HC HL HI T' HT'); lia);
     split_and!; [|done|intros x (T' & HT' & ?); specialize (HE x T' HT'); lia];
     intros x; specialize (HE x); unfold DueTime, NextDueTime in *;
     destruct (TimerInfo s x) as [[[[] Tx] Px]|]; try done; specialize (HE Tx eq_refl);
     by rewrite (proj2 (Z.ltb_lt now Tx)) by lia).
  { exfalso. unfold TotalRounds in HF. rewrite HL in HF. simpl in HF. unfold Rounds at 1 in HF. rewrite HI in HF.
    rewrite (proj2 (Z.ltb_ge now T)) in HF by lia. destruct (P =? 0); [lia|]. destruct (T + P <=? now); lia. }
  destruct (HB e T P HI) as (HB1 & HB2 & HB3). destruct (head_removed e s Rest HC HL) as [_ HN].
  destruct (check_round now fuel e Rest T P s HK HL HI HTn) as (s1 & -> & K1 & S1 & L1 & I1 & O1).
  destruct (rounds_after_round now e T P s s1 Rest) as (R1 & R2 & R3); try done.
  destruct (IH s1 K1) as (s' & -> & K' & D' & N' & X'); [by apply R3|lia|].
  exists s'. split_and!; try done.
  - intros x. by rewrite D', R2.
  - etrans; [by eapply Signalled_keeps|done].
  - intros x (Tx & HTx & HTx2). destruct (Z.eq_dec x e) as [->|Hx].
    + unfold TimerInfo in HI. destruct (Events s !! e) as [ev|] eqn:E; [|done].
      destruct (Signalled_then _ _ _ _ S1 N' e ev E) as (ev' & ? & HS). exists ev'. split; [done|]. apply HS. by right.
    + apply X'. exists Tx. split; [|done]. unfold DueTime in *. by rewrite O1.
Qed.

(** The start of [CoreCheckTimers]: it takes the lock and reads the time. *)
Lemma check_timers_enter fuel s :
  EventCore s -> gEfiCurrentTpl s = 30 -> (forall l, lk_Acquired (Locks s l) = false) ->
  exists s3, Checking s3 /\ Events s3 = Events s /\ mEfiTimerList s3 = mEfiTimerList s /\
    CoreCheckTimers fuel s =
      (CheckTimersLoop fuel (mEfiSystemTime s) s3 ≫= CoreReleaseLock Restore mEfiTimerLock).
Proof using HR.
  intros HC HT HL. unfold Event.CoreCheckTimers.
  destruct (acquire_done gCpuPresent gSmmBase2 mEfiTimerLock s) as [b ->]; [done|rewrite HT; done|].
  cbn [mbind Outcome_bind]. set (s1 := Relevel _ _ _ s).
  assert (C1 : EventCore s1) by (by apply EventCore_relevel).
  assert (HS : exists t s2, CoreCurrentSystemTime gCpuPresent gSmmBase2 Restore s1 = Done (t, s2)).
  { unfold CoreCurrentSystemTime.
    destruct (acquire_done gCpuPresent gSmmBase2 mEfiSystemTimeLock s1) as [b1 ->]; [apply (HL mEfiSystemTimeLock)|done|].
    cbn [mbind Outcome_bind]. set (s2 := Relevel _ b1 _ s1).
    destruct (release_done Restore mEfiSystemTimeLock s2) as [b2 ->]; [done|done|done|apply C1| |].
    - intros i Hi. pose proof (proj2 (ec_bits s HC) i Hi). change (i <= 30). lia.
    - by eexists _, _. }
  destruct HS as (t & s2 & HS). rewrite HS. cbn [mbind Outcome_bind].
  apply system_time_spec in HS as (-> & b2 & L2 & -> & HL2); [|done|done|done].
  exists (Relevel (gEfiCurrentTpl s1) b2 L2 s1). split_and!; try done.
  split; [by apply EventCore_relevel|done| |].
  - simpl. rewrite HL2 by done. apply (HL gEventQueueLock).
  - simpl. rewrite HL2 by done. simpl. by rewrite HT.
Qed.

Lemma sum_list_with_ext (f g : Z -> nat) l :
  (forall x, f x = g x) -> sum_list_with f l = sum_list_with g l.
Proof. intros H. induction l as [|x l IH]; [done|]. simpl. by rewrite H, IH. Qed.

(** The functions of the timers depend on the events only. *)
Lemma TimerInfo_events s s' e : Events s' = Events s -> TimerInfo s' e = TimerInfo s e.
Proof. unfold TimerInfo. by intros ->. Qed.

(** C37: one run of [CoreCheckTimers] at the level of its event (30, with all locks
    free, from a state in order [EventCore]) returns within two rounds for each expired
    timer, provided that no set timer's period added to the current time exceeds 64
    bits ([TimersBounded]; otherwise the loop need not end, [CoreCheckTimers_hangs]).
    Afterwards every timer is set as it should be: timers that have not expired are as before, expired
    one-shot timers are off the list, and periodic ones are due one period
    later (counted from now if that would be in the past); in particular no
    expired timer is left.  Every event whose timer had expired has been
    signalled. *)
Theorem CoreCheckTimers_correct fuel s :
  EventCore s -> gEfiCurrentTpl s = 30 -> (forall l, lk_Acquired (Locks s l) = false) ->
  TimersBounded (mEfiSystemTime s) s -> (TotalRounds (mEfiSystemTime s) s <= fuel)%nat ->
  exists s', CoreCheckTimers fuel s = Done s' /\ EventCore s' /\
    (forall e, DueTime s' e = NextDueTime (mEfiSystemTime s) s e) /\
    (forall e, Expired (mEfiSystemTime s) s e ->
       exists ev', Events s' !! e = Some ev' /\ ev_SignalCount ev' <> 0).
Proof using HR.
  intros HC HT HL HB HF. destruct (check_timers_enter fuel s HC HT HL) as (s3 & K3 & E3 & L3 & ->).
  assert (HI : forall e, TimerInfo s3 e = TimerInfo s e) by (intros e; by apply TimerInfo_events).
  destruct (check_loop_done (mEfiSystemTime s) fuel s3 K3) as (s4 & H4 & K4 & D4 & _ & X4).
  { intros e T P H. apply (HB e). by rewrite <- HI. }
  { unfold TotalRounds in *. rewrite L3. rewrite (sum_list_with_ext _ (Rounds (mEfiSystemTime s) s)); [done|].
    intros e. unfold Rounds. by rewrite HI. }
  rewrite H4. cbn [mbind Outcome_bind]. destruct K4 as [C4 T4 E4 L4].
  destruct (release_done Restore mEfiTimerLock s4) as [b5 ->]; try (by rewrite ?L4, ?T4).
  - apply C4.
  - intros i Hi. pose proof (proj2 (ec_bits s4 C4) i Hi). rewrite L4. simpl. lia.
  - eexists. split; [reflexivity|]. split; [by apply EventCore_relevel|]. split.
    + intros e. change (DueTime s4 e = NextDueTime (mEfiSystemTime s) s e). rewrite D4. unfold NextDueTime.
      by rewrite HI.
    + intros e (T & HD & HT'). apply X4. exists T. split; [|done]. unfold DueTime in *. by rewrite HI.
Qed.

(** A periodic timer whose next trigger time exceeds 64 bits makes
    [CoreCheckTimers] loop forever at TPL_HIGH_LEVEL - 1: the trigger time
    wraps around to the past, is reset to the current time, and so has expired
    again. *)
Theorem CoreCheckTimers_hangs fuel s e T P :
  EventCore s -> gEfiCurrentTpl s = 30 -> (forall l, lk_Acquired (Locks s l) = false) ->
  mEfiTimerList s = [e] -> TimerInfo s e = Some (true, T, P) -> P <> 0 ->
  T <= mEfiSystemTime s -> add64 T P <= mEfiSystemTime s ->
  add64 (mEfiSystemTime s) P <= mEfiSystemTime s ->
  CoreCheckTimers fuel s = OutOfFuel.
Proof using HR.
  intros HC HT HL HTl HI HP HTn HTP HNP.
  destruct (check_timers_enter fuel s HC HT HL) as (s3 & K3 & E3 & L3 & ->).
  rewrite <- (TimerInfo_events s s3 e E3) in HI. rewrite <- L3 in HTl. 
  remember (mEfiSystemTime s) as now eqn:Enow. clear s Enow HC HT HL E3 L3.
  assert (H : CheckTimersLoop fuel now s3 = OutOfFuel); [|by rewrite H].
  revert s3 T K3 HTl HI HTn HTP. induction fuel as [|fuel IH]; intros s T HK HTl HI HTn HTP.
  - unfold TimerInfo in HI. destruct (Events s !! e) as [ev|] eqn:E; [|done]. injection HI as I1 I2 I3.
    simpl. rewrite HTl. unfold ReadEvent. rewrite E. cbn [mbind Outcome_bind].
    by rewrite (proj2 (Z.ltb_ge now (ev_TriggerTime ev))) by lia.
  - destruct (check_round now fuel e [] T P s HK HTl HI HTn) as (s1 & -> & K1 & _ & L1 & I1 & _).
    rewrite (proj2 (Z.eqb_neq P 0)) in L1, I1 by done. rewrite (proj2 (Z.leb_le _ _) HTP) in I1.
    apply Permutation_singleton_r in L1. by apply (IH s1 now).
Qed.

End Timers.

(** ** Sample timers *)

Abbreviation SampleRestore := (CoreRestoreTpl true None (fun _ => true) 10000 (ReturnsAtOnce Trace) 40).

Definition SampleRun (cs : list BootCall) : EventState (list Z) :=
  match RunCalls true None (fun _ => true) 10000 (ReturnsAtOnce Trace) 40 cs SampleInitialized with
  | Done s => s
  | _ => SampleInitialized
  end.

Lemma SampleRun_core cs : EventCore (SampleRun cs).
Proof.
  unfold SampleRun. destruct (RunCalls _ _ _ _ _ _ _ _) eqn:H; try apply SampleInitialized_core.
  apply RunCalls_core in H as [? _]; [done|apply SampleInitialized_core..].
Qed.

(** A periodic timer of 3 and a relative one of 5 units, at the time 7. *)
Definition SampleTimers : EventState (list Z) := SampleRun
  [ BsCreateEventEx (Z.lor EVT_TIMER EVT_NOTIFY_SIGNAL) TPL_CALLBACK (Some (FnDriver 1)) 0 None;
    BsCreateEventEx EVT_TIMER 0 None 0 None;
    BsRaiseTpl (TPL_HIGH_LEVEL - 1); BsSetTimer 3 TimerPeriodic 3; BsSetTimer 4 TimerRelative 5; BsTimerTick 7 ].

Lemma SampleTimers_core : EventCore SampleTimers.
Proof. apply SampleRun_core. Qed.

Lemma SampleTimers_bounded : TimersBounded 7 SampleTimers.
Proof.
  intros e T P H. pose proof (info_listed _ e T P SampleTimers_core H) as He.
  assert (HL : mEfiTimerList SampleTimers = [3; 4]) by (vm_compute; reflexivity).
  assert (H3 : TimerInfo SampleTimers 3 = Some (true, 3, 3)) by (vm_compute; reflexivity).
  assert (H4 : TimerInfo SampleTimers 4 = Some (true, 5, 0)) by (vm_compute; reflexivity).
  rewrite HL in He. apply elem_of_cons in He as [->|He]; [|apply list_elem_of_singleton in He as ->];
    rewrite ?H3, ?H4 in H; injection H as <- <-; lia.
Qed.

Lemma CoreCheckTimers_correct_witness :
  exists s', CoreCheckTimers true None SampleRestore 4 SampleTimers = Done s' /\ EventCore s' /\
    (forall e, DueTime s' e = NextDueTime (mEfiSystemTime SampleTimers) SampleTimers e) /\
    (forall e, Expired (mEfiSystemTime SampleTimers) SampleTimers e ->
       exists ev', Events s' !! e = Some ev' /\ ev_SignalCount ev' <> 0).
Proof.
  apply (CoreCheckTimers_correct true None SampleRestore 4 SampleTimers);
    [apply SampleTimers_core|reflexivity|intros []; reflexivity|apply SampleTimers_bounded|vm_compute; lia].
Defined.

(** A periodic timer with the longest period, set at the time 2. *)
Definition SampleHang : EventState (list Z) := SampleRun
  [ BsTimerTick 2; BsCreateEventEx EVT_TIMER 0 None 0 None;
    BsRaiseTpl (TPL_HIGH_LEVEL - 1); BsSetTimer 3 TimerPeriodic MAX_UINT64 ].

Lemma SampleHang_core : EventCore SampleHang.
Proof. apply SampleRun_core. Qed.

Lemma CoreCheckTimers_hangs_witness : CoreCheckTimers true None SampleRestore 1000 SampleHang = OutOfFuel.
Proof.
  apply (CoreCheckTimers_hangs true None SampleRestore 1000 SampleHang 3 1 MAX_UINT64);
    [apply SampleHang_core|reflexivity|intros []; reflexivity|vm_compute; reflexivity|vm_compute; reflexivity
     |discriminate|vm_compute; discriminate|vm_compute; discriminate|vm_compute; discriminate].
Defined.
