(* ===== verification/Depex.v ===== *)
(** * Dependency expressions of the DXE dispatcher

    [src/MdeModulePkg/Core/Dxe/Dispatcher/Dependency.c]: the evaluator that
    decides whether a driver may be scheduled.  A dependency expression is a
    byte string in postfix order, evaluated on a Boolean stack in pool memory
    that grows on demand; evaluation rewrites the PUSH of a protocol that has
    been found into REPLACE_TRUE, so that the protocol is not looked up again.

    Bytes are numbers; [Past] is whatever memory follows the expression.  The
    protocol database appears as the set of installed protocols. *)
From Stdlib Require Import ZArith Lia.
From stdpp Require Import base option list.
From S2P Require Import Prelude.

Definition EFI_DEP_BEFORE : Z := 0x00.
Definition EFI_DEP_AFTER : Z := 0x01.
Definition EFI_DEP_PUSH : Z := 0x02.
Definition EFI_DEP_AND : Z := 0x03.
Definition EFI_DEP_OR : Z := 0x04.
Definition EFI_DEP_NOT : Z := 0x05.
Definition EFI_DEP_TRUE : Z := 0x06.
Definition EFI_DEP_FALSE : Z := 0x07.
Definition EFI_DEP_END : Z := 0x08.
Definition EFI_DEP_SOR : Z := 0x09.
Definition EFI_DEP_REPLACE_TRUE : Z := 0xff.
Definition DEPEX_STACK_SIZE_INCREMENT : nat := 0x1000.

(** A GUID as its 16 bytes in memory. *)
Definition GUID : Type := list Z.

(** ** State *)

(** The evaluation stack: the buffer (empty for NULL) and the distance of
    [mDepexEvaluationStackPointer] from its start. *)
Record DepexStack := MkStack {
  mDepexEvaluationStack : list bool;
  mDepexEvaluationStackPointer : nat
}.

(** The fields of a driver entry that concern its dependency expression;
    [DepexSize] is the length of [Depex]. *)
Record EFI_CORE_DRIVER_ENTRY := MkDriverEntry {
  Depex : option (list Z);
  Dependent : bool;
  Unrequested : bool;
  Before : bool;
  After : bool;
  BeforeAfterGuid : GUID
}.

Definition set_Depex (d : list Z) (e : EFI_CORE_DRIVER_ENTRY) : EFI_CORE_DRIVER_ENTRY :=
  MkDriverEntry (Some d) (Dependent e) (Unrequested e) (Before e) (After e) (BeforeAfterGuid e).

Section Depex.

(** Whether the pool can provide a buffer of so many bytes, and what is in it. *)
Variable PoolAvailable : nat -> bool.
Variable Garbage : nat -> bool.
(** [CoreAllEfiServicesAvailable] succeeds. *)
Variable AllEfiServicesAvailable : bool.
(** The protocols [CoreLocateProtocol] finds. *)
Variable Installed : GUID -> bool.
(** The memory after the expression. *)
Variable Past : nat -> Z.

(** ** The stack *)

Definition GrowDepexStack (st : DepexStack) : EFI_STATUS * DepexStack :=
  let Old := mDepexEvaluationStack st in
  let Size := (DEPEX_STACK_SIZE_INCREMENT + length Old)%nat in
  if negb (PoolAvailable Size) then (EFI_OUT_OF_RESOURCES, st)
  else
    let NewStack := Old ++ (Garbage <$> seq (length Old) DEPEX_STACK_SIZE_INCREMENT) in
    (EFI_SUCCESS, MkStack NewStack (mDepexEvaluationStackPointer st)).

Definition PushBool (Value : bool) (st : DepexStack) : EFI_STATUS * DepexStack :=
  let '(Status, st) :=
    if (mDepexEvaluationStackPointer st =? length (mDepexEvaluationStack st))%nat
    then GrowDepexStack st else (EFI_SUCCESS, st) in
  if EFI_ERROR Status then (Status, st)
  else (EFI_SUCCESS,
        MkStack (<[mDepexEvaluationStackPointer st := Value]> (mDepexEvaluationStack st))
          (S (mDepexEvaluationStackPointer st))).

(** [PopBool]: the status and, on success, the value. *)
Definition PopBool (st : DepexStack) : EFI_STATUS * bool * DepexStack :=
  match mDepexEvaluationStackPointer st with
  | O => (EFI_ACCESS_DENIED, false, st)
  | S p => (EFI_SUCCESS, nth p (mDepexEvaluationStack st) false, MkStack (mDepexEvaluationStack st) p)
  end.

(** ** Evaluation *)

Definition ReadByte (d : list Z) (i : nat) : Z :=
  match d !! i with Some b => b | None => Past (i - length d) end.

Definition GuidAt (d : list Z) (i : nat) : GUID := ReadByte d <$> seq i 16.

Definition CorePreProcessDepex (e : EFI_CORE_DRIVER_ENTRY) (d : list Z) : EFI_STATUS * EFI_CORE_DRIVER_ENTRY :=
  let op := ReadByte d 0 in
  let Unrequested' := if op =? EFI_DEP_SOR then true else Unrequested e in
  let Dependent' := if op =? EFI_DEP_SOR then Dependent e else true in
  let Before' := if op =? EFI_DEP_BEFORE then true else Before e in
  let After' := if op =? EFI_DEP_BEFORE then After e
                else if op =? EFI_DEP_AFTER then true else After e in
  let Guid := if Before' || After' then GuidAt d 1 else BeforeAfterGuid e in
  (EFI_SUCCESS, MkDriverEntry (Depex e) Dependent' Unrequested' Before' After' Guid).

(** The binary operators: pop two operands, push the result. *)
Definition BinaryOp (f : bool -> bool -> bool) (st : DepexStack) : EFI_STATUS * DepexStack :=
  let '(Status, Operator, st) := PopBool st in
  if EFI_ERROR Status then (Status, st)
  else
    let '(Status, Operator2, st) := PopBool st in
    if EFI_ERROR Status then (Status, st) else PushBool (f Operator Operator2) st.

Definition NotOp (st : DepexStack) : EFI_STATUS * DepexStack :=
  let '(Status, Operator, st) := PopBool st in
  if EFI_ERROR Status then (Status, st) else PushBool (negb Operator) st.

(** The [while (TRUE)] loop of [CoreIsSchedulable] at the offset [i]: the
    result, the expression as rewritten, and the stack. *)
Fixpoint EvaluateLoop (fuel : nat) (i : nat) (d : list Z) (st : DepexStack)
  : Outcome (bool * list Z * DepexStack) :=
  if (length d <=? i)%nat then Done (false, d, st)
  else match fuel with
  | O => OutOfFuel
  | S fuel =>
    (* after a case that sets Status: return FALSE on an error, or go on *)
    let Next Skip d '(Status, st) :=
      if EFI_ERROR Status then Done (false, d, st) else EvaluateLoop fuel (S (i + Skip)) d st in
    let op := ReadByte d i in
    if (op =? EFI_DEP_BEFORE) || (op =? EFI_DEP_AFTER) then Asserted
    else if op =? EFI_DEP_SOR then
      if negb (i =? 0)%nat then Done (false, d, st) else EvaluateLoop fuel (S i) d st
    else if op =? EFI_DEP_PUSH then
      if Installed (GuidAt d (S i))
      then Next 16%nat (<[i := EFI_DEP_REPLACE_TRUE]> d) (PushBool true st)
      else Next 16%nat d (PushBool false st)
    else if op =? EFI_DEP_AND then Next 0%nat d (BinaryOp andb st)
    else if op =? EFI_DEP_OR then Next 0%nat d (BinaryOp orb st)
    else if op =? EFI_DEP_NOT then Next 0%nat d (NotOp st)
    else if op =? EFI_DEP_TRUE then Next 0%nat d (PushBool true st)
    else if op =? EFI_DEP_FALSE then Next 0%nat d (PushBool false st)
    else if op =? EFI_DEP_END then
      let '(Status, Operator, st) := PopBool st in
      if EFI_ERROR Status then Done (false, d, st) else Done (Operator, d, st)
    else if op =? EFI_DEP_REPLACE_TRUE then Next 16%nat d (PushBool true st)
    else Done (false, d, st)
  end.

Definition CoreIsSchedulable (e : EFI_CORE_DRIVER_ENTRY) (st : DepexStack)
  : Outcome (bool * EFI_CORE_DRIVER_ENTRY * DepexStack) :=
  if After e || Before e then Done (false, e, st)
  else match Depex e with
  | None => Done (AllEfiServicesAvailable, e, st)
  | Some d =>
    '(Result, d, st) ← EvaluateLoop (length d) 0 d (MkStack (mDepexEvaluationStack st) 0);
    Done (Result, set_Depex d e, st)
  end.

End Depex.

(** ** Expressions and their byte strings *)

Inductive Expr :=
| EPush (g : GUID)
| ETrue
| EFalse
| ENot (x : Expr)
| EAnd (x y : Expr)
| EOr (x y : Expr).

Fixpoint Evaluate (Installed : GUID -> bool) (x : Expr) : bool :=
  match x with
  | EPush g => Installed g
  | ETrue => true
  | EFalse => false
  | ENot x => negb (Evaluate Installed x)
  | EAnd x y => Evaluate Installed x && Evaluate Installed y
  | EOr x y => Evaluate Installed x || Evaluate Installed y
  end.

(** The highest the stack stands while the expression is evaluated. *)
Fixpoint Height (x : Expr) : nat :=
  match x with
  | EPush _ | ETrue | EFalse => 1
  | ENot x => Height x
  | EAnd x y | EOr x y => Nat.max (Height x) (S (Height y))
  end.

(** The byte strings that stand for an expression once the protocols in
    [Known] may have been found: a PUSH of one of them may have been replaced. *)
Inductive Encodes (Known : GUID -> bool) : Expr -> list Z -> Prop :=
| EncPush g : length g = 16%nat -> Encodes Known (EPush g) (EFI_DEP_PUSH :: g)
| EncReplaced g : length g = 16%nat -> Known g = true ->
    Encodes Known (EPush g) (EFI_DEP_REPLACE_TRUE :: g)
| EncTrue : Encodes Known ETrue [EFI_DEP_TRUE]
| EncFalse : Encodes Known EFalse [EFI_DEP_FALSE]
| EncNot x bx : Encodes Known x bx -> Encodes Known (ENot x) (bx ++ [EFI_DEP_NOT])
| EncAnd x y bx by_ : Encodes Known x bx -> Encodes Known y by_ ->
    Encodes Known (EAnd x y) (bx ++ by_ ++ [EFI_DEP_AND])
| EncOr x y bx by_ : Encodes Known x bx -> Encodes Known y by_ ->
    Encodes Known (EOr x y) (bx ++ by_ ++ [EFI_DEP_OR]).

(** A whole dependency expression: an optional SOR, the expression, END. *)
Definition EncodesDepex (Known : GUID -> bool) (x : Expr) (d : list Z) : Prop :=
  exists sor b, Encodes Known x b /\
    d = (if sor : bool then [EFI_DEP_SOR] else []) ++ b ++ [EFI_DEP_END].

(** ** The stack implements a stack *)

(** The buffer holds the values of [l], the top of the stack first. *)
Definition StackHolds (st : DepexStack) (l : list bool) : Prop :=
  exists rest, mDepexEvaluationStack st = rev l ++ rest /\ mDepexEvaluationStackPointer st = length l.

Section Stack.
Context (PoolAvailable : nat -> bool) (Garbage : nat -> bool).

Lemma PushBool_holds v st l :
  StackHolds st l ->
  let '(Status, st') := PushBool PoolAvailable Garbage v st in
  if EFI_ERROR Status then st' = st else StackHolds st' (v :: l).
Proof.
  intros (rest & HB & HP). unfold PushBool, GrowDepexStack.
  destruct (mDepexEvaluationStackPointer st =? length (mDepexEvaluationStack st))%nat eqn:E.
  - apply Nat.eqb_eq in E. rewrite HB, HP, length_app, length_rev in E.
    assert (rest = []) as -> by (apply nil_length_inv; lia). rewrite app_nil_r in HB.
    destruct (negb (PoolAvailable _)); [done|]. cbn [EFI_ERROR mDepexEvaluationStack mDepexEvaluationStackPointer].
    destruct (Garbage <$> seq _ _) as [|y fresh] eqn:EG.
    { apply (f_equal length) in EG. rewrite length_fmap, length_seq in EG. by unfold DEPEX_STACK_SIZE_INCREMENT in EG. }
    rewrite HB, HP. exists fresh. cbn [mDepexEvaluationStack mDepexEvaluationStackPointer rev length].
    rewrite insert_app_r_alt by (rewrite length_rev; lia).
    rewrite length_rev, Nat.sub_diag. simpl. by rewrite <- app_assoc.
  - apply Nat.eqb_neq in E. rewrite HB, HP, length_app, length_rev in E. cbn [EFI_ERROR].
    destruct rest as [|y rest]; [simpl in E; lia|]. exists rest. split; [|simpl; by rewrite HP].
    simpl. rewrite HB, HP, insert_app_r_alt by (rewrite length_rev; lia).
    rewrite length_rev, Nat.sub_diag. simpl. by rewrite <- app_assoc.
Qed.

(** A request of the evaluator for a larger stack, at a height below [h], that
    the pool refuses. *)
Definition Refused (st : DepexStack) (h : nat) : Prop :=
  exists n, (length (mDepexEvaluationStack st) <= n < h)%nat /\
    PoolAvailable (DEPEX_STACK_SIZE_INCREMENT + n)%nat = false.

Lemma Refused_weaken st st' h h' :
  (length (mDepexEvaluationStack st) <= length (mDepexEvaluationStack st'))%nat -> (h <= h')%nat ->
  Refused st' h -> Refused st h'.
Proof. intros H1 H2 (n & Hn & HP). exists n. split; [lia|done]. Qed.

(** A push succeeds, or the stack is full and the pool refuses to enlarge it. *)
Lemma PushBool_cases v st l :
  StackHolds st l ->
  let '(Status, st') := PushBool PoolAvailable Garbage v st in
  (length (mDepexEvaluationStack st) <= length (mDepexEvaluationStack st'))%nat /\
  if EFI_ERROR Status then Refused st (S (length l)) else StackHolds st' (v :: l).
Proof.
  intros HS. pose proof (PushBool_holds v st l HS) as H. destruct HS as (rest & HB & HP).
  unfold PushBool, GrowDepexStack in *.
  destruct (mDepexEvaluationStackPointer st =? length (mDepexEvaluationStack st))%nat eqn:E;
    [|split; [simpl; by rewrite length_insert|exact H]].
  apply Nat.eqb_eq in E. destruct (PoolAvailable _) eqn:EP; cbn [negb] in *;
    (split; [|try exact H]).
  - cbn [EFI_ERROR mDepexEvaluationStack]. rewrite length_insert, length_app. lia.
  - cbn [EFI_ERROR mDepexEvaluationStack]. done.
  - exists (length (mDepexEvaluationStack st)). split; [lia|done].
Qed.

(** With room left in the buffer a push succeeds. *)
Lemma PushBool_room v st l :
  (length l < length (mDepexEvaluationStack st))%nat -> StackHolds st l ->
  exists st', PushBool PoolAvailable Garbage v st = (EFI_SUCCESS, st') /\ StackHolds st' (v :: l) /\
    length (mDepexEvaluationStack st') = length (mDepexEvaluationStack st).
Proof.
  intros HR HS. pose proof (PushBool_holds v st l HS) as H. destruct HS as (rest & HB & HP).
  unfold PushBool, GrowDepexStack in *. rewrite HP in *.
  rewrite (proj2 (Nat.eqb_neq (length l) (length (mDepexEvaluationStack st)))) in * by lia.
  cbn [EFI_ERROR] in *. eexists. split; [done|]. split; [exact H|]. simpl. by rewrite length_insert.
Qed.

Lemma PopBool_holds v st l :
  StackHolds st (v :: l) ->
  exists st', PopBool st = (EFI_SUCCESS, v, st') /\ StackHolds st' l /\
    mDepexEvaluationStack st' = mDepexEvaluationStack st /\ (length l < length (mDepexEvaluationStack st))%nat.
Proof.
  intros (rest & HB & HP). unfold PopBool. rewrite HP. simpl.
  exists (MkStack (mDepexEvaluationStack st) (length l)). split; [|split; [|split; [done|]]].
  - rewrite HB. simpl. rewrite <- app_assoc, app_nth2 by (rewrite length_rev; lia).
    rewrite length_rev, Nat.sub_diag. done.
  - exists (v :: rest). split; [|done]. simpl. rewrite HB. simpl. by rewrite <- ?app_assoc.
  - rewrite HB, length_app, length_rev. simpl. lia.
Qed.

End Stack.

(** ** Evaluation of well-formed expressions *)

Lemma ReadByte_at Past p x q : ReadByte Past (p ++ x :: q) (length p) = x.
Proof. unfold ReadByte. by rewrite list_lookup_middle. Qed.

Lemma GuidAt_at Past p g q : length g = 16%nat -> GuidAt Past (p ++ g ++ q) (length p) = g.
Proof.
  intros Hg. unfold GuidAt. apply list_eq. intros k. rewrite list_lookup_fmap.
  destruct (decide (k < 16)%nat) as [Hk|Hk].
  - rewrite lookup_seq_lt by done. simpl. unfold ReadByte.
    rewrite lookup_app_r, lookup_app_l by lia. replace (length p + k - length p)%nat with k by lia.
    destruct (g !! k) eqn:E; [done|]. apply lookup_ge_None in E. lia.
  - rewrite lookup_seq_ge by lia. simpl. symmetry. apply lookup_ge_None. lia.
Qed.

Section Evaluation.
Context (PoolAvailable : nat -> bool) (Garbage : nat -> bool) (Installed : GUID -> bool) (Past : nat -> Z).
Abbreviation Loop := (EvaluateLoop PoolAvailable Garbage Installed Past).
Abbreviation PushBool := (PushBool PoolAvailable Garbage).
Abbreviation BinaryOp := (BinaryOp PoolAvailable Garbage).
Abbreviation NotOp := (NotOp PoolAvailable Garbage).
Abbreviation Buffer st := (length (mDepexEvaluationStack st)).

Lemma loop_head fuel p x q st :
  Loop (S fuel) (length p) (p ++ x :: q) st =
  let Next Skip d '(Status, st) :=
    if EFI_ERROR Status then Done (false, d, st) else Loop fuel (S (length p + Skip)) d st in
  if (x =? EFI_DEP_BEFORE) || (x =? EFI_DEP_AFTER) then Asserted
  else if x =? EFI_DEP_SOR then
    if negb (length p =? 0)%nat then Done (false, p ++ x :: q, st) else Loop fuel (S (length p)) (p ++ x :: q) st
  else if x =? EFI_DEP_PUSH then
    if Installed (GuidAt Past (p ++ x :: q) (S (length p)))
    then Next 16%nat (<[length p := EFI_DEP_REPLACE_TRUE]> (p ++ x :: q)) (PushBool true st)
    else Next 16%nat (p ++ x :: q) (PushBool false st)
  else if x =? EFI_DEP_AND then Next 0%nat (p ++ x :: q) (BinaryOp andb st)
  else if x =? EFI_DEP_OR then Next 0%nat (p ++ x :: q) (BinaryOp orb st)
  else if x =? EFI_DEP_NOT then Next 0%nat (p ++ x :: q) (NotOp st)
  else if x =? EFI_DEP_TRUE then Next 0%nat (p ++ x :: q) (PushBool true st)
  else if x =? EFI_DEP_FALSE then Next 0%nat (p ++ x :: q) (PushBool false st)
  else if x =? EFI_DEP_END then
    let '(Status, Operator, st) := PopBool st in
    if EFI_ERROR Status then Done (false, p ++ x :: q, st) else Done (Operator, p ++ x :: q, st)
  else if x =? EFI_DEP_REPLACE_TRUE then Next 16%nat (p ++ x :: q) (PushBool true st)
  else Done (false, p ++ x :: q, st).
Proof.
  cbn [EvaluateLoop]. rewrite (proj2 (Nat.leb_gt (length (p ++ x :: q)) (length p)))
    by (rewrite length_app; simpl; lia). by rewrite ReadByte_at.
Qed.

(** The operators pop what they push over, so that they need no memory. *)
Lemma BinaryOp_ok f st a b l :
  StackHolds st (a :: b :: l) ->
  exists st', BinaryOp f st = (EFI_SUCCESS, st') /\ StackHolds st' (f a b :: l) /\ Buffer st' = Buffer st.
Proof.
  intros H. unfold Depex.BinaryOp. destruct (PopBool_holds _ _ _ H) as (st1 & -> & H1 & E1 & _). cbn [EFI_ERROR].
  destruct (PopBool_holds _ _ _ H1) as (st2 & -> & H2 & E2 & HR). cbn [EFI_ERROR].
  rewrite <- E1, <- E2. apply PushBool_room; [by rewrite E2|done].
Qed.

Lemma NotOp_ok st a l :
  StackHolds st (a :: l) ->
  exists st', NotOp st = (EFI_SUCCESS, st') /\ StackHolds st' (negb a :: l) /\ Buffer st' = Buffer st.
Proof.
  intros H. unfold Depex.NotOp. destruct (PopBool_holds _ _ _ H) as (st1 & -> & H1 & E1 & HR). cbn [EFI_ERROR].
  rewrite <- E1. apply PushBool_room; [by rewrite E1|done].
Qed.

(** Running the code [b] of the expression [x], which starts after [p]: its
    value is pushed, or the answer is FALSE because the stack had to grow
    within the height of [x] and could not.  The code still stands for [x]. *)
Definition Runs (x : Expr) (b : list Z) : Prop :=
  forall p q st l, StackHolds st l ->
  exists n b' st', (n <= length b)%nat /\ length b' = length b /\ Encodes Installed x b' /\
    (Buffer st <= Buffer st')%nat /\
    (StackHolds st' (Evaluate Installed x :: l) /\
     (forall fuel, Loop (n + fuel) (length p) (p ++ b ++ q) st =
                   Loop fuel (length p + length b) (p ++ b' ++ q) st') \/
     Refused PoolAvailable st (length l + Height x) /\
     (forall fuel, Loop (n + fuel) (length p) (p ++ b ++ q) st = Done (false, p ++ b' ++ q, st'))).

(** An operator after its operands. *)
Lemma runs_operator p op q st st' r fuel :
  r = (EFI_SUCCESS, st') ->
  (forall Next : nat -> list Z -> EFI_STATUS * DepexStack -> Outcome (bool * list Z * DepexStack),
     Next = (fun Skip d '(Status, st) =>
       if EFI_ERROR Status then Done (false, d, st) else Loop fuel (S (length p + Skip)) d st) ->
     Loop (S fuel) (length p) (p ++ op :: q) st = Next 0%nat (p ++ op :: q) r) ->
  Loop (S fuel) (length p) (p ++ op :: q) st = Loop fuel (length p + 1) (p ++ op :: q) st'.
Proof.
  intros -> H. rewrite (H _ eq_refl). cbn [EFI_ERROR]. by replace (S (length p + 0)) with (length p + 1)%nat by lia.
Qed.

Lemma runs_push g x : length g = 16%nat ->
  (x = EFI_DEP_PUSH \/ x = EFI_DEP_REPLACE_TRUE /\ Installed g = true) -> Runs (EPush g) (x :: g).
Proof.
  intros Hg Hx p q st l HS.
  pose proof (PushBool_cases PoolAvailable Garbage (Installed g) st l HS) as HC.
  destruct (PushBool (Installed g) st) as [Status st'] eqn:HP. destruct HC as [HB HC].
  exists 1%nat, ((if Installed g then EFI_DEP_REPLACE_TRUE else EFI_DEP_PUSH) :: g), st'.
  split; [simpl; lia|]. split; [done|]. split; [destruct (Installed g) eqn:E; by constructor|].
  split; [done|].
  assert (HG : GuidAt Past (p ++ x :: g ++ q) (S (length p)) = g).
  { pose proof (GuidAt_at Past (p ++ [x]) g q Hg) as H.
    rewrite <- app_assoc, length_app, Nat.add_1_r in H. exact H. }
  assert (HL : forall fuel, Loop (1 + fuel) (length p) (p ++ (x :: g) ++ q) st =
    let d := p ++ ((if Installed g then EFI_DEP_REPLACE_TRUE else EFI_DEP_PUSH) :: g) ++ q in
    if EFI_ERROR Status then Done (false, d, st') else Loop fuel (S (length p + 16)) d st').
  { intros fuel. simpl app. cbn [Nat.add]. rewrite loop_head, HG. destruct Hx as [->|[-> Hi]].
    - destruct (Installed g); simpl; rewrite HP; [|done]. by rewrite insert_app_r_alt, Nat.sub_diag by lia.
    - rewrite Hi in *. simpl. rewrite HP. done. }
  destruct (EFI_ERROR Status); [right|left].
  - split; [|exact HL]. simpl. by rewrite Nat.add_1_r.
  - split; [exact HC|]. intros fuel. rewrite HL. f_equal. simpl. lia.
Qed.

Lemma runs_constant (v : bool) : Runs (if v then ETrue else EFalse) [if v then EFI_DEP_TRUE else EFI_DEP_FALSE].
Proof.
  intros p q st l HS.
  pose proof (PushBool_cases PoolAvailable Garbage v st l HS) as HC.
  destruct (PushBool v st) as [Status st'] eqn:HP. destruct HC as [HB HC].
  exists 1%nat, [if v then EFI_DEP_TRUE else EFI_DEP_FALSE], st'.
  split; [done|]. split; [done|]. split; [destruct v; constructor|]. split; [done|].
  assert (HL : forall fuel, Loop (1 + fuel) (length p) (p ++ [if v then EFI_DEP_TRUE else EFI_DEP_FALSE] ++ q) st =
    let d := p ++ [if v then EFI_DEP_TRUE else EFI_DEP_FALSE] ++ q in
    if EFI_ERROR Status then Done (false, d, st') else Loop fuel (S (length p + 0)) d st').
  { intros fuel. simpl app. cbn [Nat.add]. rewrite loop_head. destruct v; simpl; by rewrite HP. }
  destruct (EFI_ERROR Status); [right|left].
  - split; [|exact HL]. replace (Height _) with 1%nat by (by destruct v). by rewrite Nat.add_1_r.
  - split; [by destruct v|]. intros fuel. rewrite HL. f_equal. simpl. lia.
Qed.

Lemma runs_not x b : Runs x b -> Runs (ENot x) (b ++ [EFI_DEP_NOT]).
Proof.
  intros IH p q st l HS.
  destruct (IH p ([EFI_DEP_NOT] ++ q) st l HS) as (n & b' & st1 & Hn & Hl & HE & HB & [[HS1 HL]|[HR HL]]).
  - destruct (NotOp_ok _ _ _ HS1) as (st2 & HN & HS2 & HB2).
    exists (n + 1)%nat, (b' ++ [EFI_DEP_NOT]), st2. rewrite !length_app, Hl. simpl length.
    split; [lia|]. split; [done|]. split; [by constructor|]. split; [lia|]. left. split; [done|]. intros fuel.
    rewrite <- !app_assoc, <- Nat.add_assoc, HL, <- Hl, <- length_app, (app_assoc p b').
    rewrite Nat.add_assoc, <- length_app. apply (runs_operator _ _ _ _ _ (NotOp st1)); [done|].
    intros Next ->. by rewrite loop_head.
  - exists n, (b' ++ [EFI_DEP_NOT]), st1. rewrite !length_app, Hl.
    split; [lia|]. split; [done|]. split; [by constructor|]. split; [done|]. right. split; [done|].
    intros fuel. by rewrite <- !app_assoc, HL.
Qed.

Lemma runs_binary (f : bool -> bool -> bool) mk op x y bx by_ :
  (forall a b, f a b = f b a) ->
  (forall x y, Evaluate Installed (mk x y) = f (Evaluate Installed x) (Evaluate Installed y)) ->
  (forall x y, Height (mk x y) = Nat.max (Height x) (S (Height y))) ->
  (forall x y bx by_, Encodes Installed x bx -> Encodes Installed y by_ ->
     Encodes Installed (mk x y) (bx ++ by_ ++ [op])) ->
  (forall fuel p q st st' r, BinaryOp f st = r -> r = (EFI_SUCCESS, st') ->
     Loop (S fuel) (length p) (p ++ op :: q) st = Loop fuel (length p + 1) (p ++ op :: q) st') ->
  Encodes Installed y by_ -> Runs x bx -> Runs y by_ -> Runs (mk x y) (bx ++ by_ ++ [op]).
Proof.
  intros Hc HEv HHt HEn HStep HEy IHx IHy p q st l HS.
  destruct (IHx p (by_ ++ [op] ++ q) st l HS) as (n1 & bx' & st1 & Hn1 & Hl1 & HE1 & HB1 & [[HS1 HL1]|[HR HL1]]).
  2: { exists n1, (bx' ++ by_ ++ [op]), st1. rewrite !length_app, Hl1. split; [lia|]. split; [done|].
    split; [by apply HEn|]. split; [done|]. right. split; [|intros fuel; by rewrite <- !app_assoc, HL1].
    eapply Refused_weaken, HR; [done|rewrite HHt; lia]. }
  destruct (IHy (p ++ bx') ([op] ++ q) st1 _ HS1) as (n2 & by' & st2 & Hn2 & Hl2 & HE2 & HB2 & [[HS2 HL2]|[HR HL2]]).
  2: { exists (n1 + n2)%nat, (bx' ++ by' ++ [op]), st2. rewrite !length_app, Hl1, Hl2. split; [lia|]. split; [done|].
    split; [by apply HEn|]. split; [lia|]. right.
    split; [eapply Refused_weaken, HR; [done|rewrite HHt; simpl; lia]|]. intros fuel.
    by rewrite <- !app_assoc, <- Nat.add_assoc, HL1, <- Hl1, <- length_app, (app_assoc p bx'), HL2, <- !app_assoc. }
  destruct (BinaryOp_ok f st2 _ _ _ HS2) as (st3 & HB & HS3 & HB3).
  exists (n1 + n2 + 1)%nat, (bx' ++ by' ++ [op]), st3. rewrite !length_app, Hl1, Hl2. simpl length.
  split; [lia|]. split; [done|]. split; [by apply HEn|]. split; [lia|].
  left. split; [by rewrite HEv, Hc|]. intros fuel.
  replace (n1 + n2 + 1 + fuel)%nat with (n1 + (n2 + S fuel))%nat by lia.
  rewrite <- !app_assoc, HL1, <- Hl1, <- length_app, (app_assoc p bx'), HL2.
  rewrite <- Hl2, <- length_app, (app_assoc (p ++ bx') by').
  etrans; [apply (HStep fuel _ q _ _ _ eq_refl HB)|]. f_equal; [rewrite !length_app; lia|by rewrite <- !app_assoc].
Qed.

Lemma Encodes_grow Known x b :
  (forall g, Known g = true -> Installed g = true) -> Encodes Known x b -> Encodes Installed x b.
Proof. intros HK. induction 1; constructor; auto. Qed.

Lemma encodes_runs Known x b :
  (forall g, Known g = true -> Installed g = true) -> Encodes Known x b -> Runs x b.
Proof.
  intros HK. induction 1 as [g Hg|g Hg Hk| | |x b _ IH|x y bx by_ _ IHx HEy IHy|x y bx by_ _ IHx HEy IHy];
    try apply (Encodes_grow _ _ _ HK) in HEy.
  - apply runs_push; [done|by left].
  - apply runs_push; [done|right; split; [done|by apply HK]].
  - apply (runs_constant true).
  - apply (runs_constant false).
  - by apply runs_not.
  - apply (runs_binary andb); try done; [apply andb_comm|by constructor|].
    intros fuel p q st st' r Hr ->. apply (runs_operator _ _ _ _ _ (BinaryOp andb st)); [done|].
    intros Next ->. by rewrite loop_head.
  - apply (runs_binary orb); try done; [apply orb_comm|by constructor|].
    intros fuel p q st st' r Hr ->. apply (runs_operator _ _ _ _ _ (BinaryOp orb st)); [done|].
    intros Next ->. by rewrite loop_head.
Qed.

(** A whole expression, from an emptied stack. *)
Lemma depex_runs Known x d buf :
  (forall g, Known g = true -> Installed g = true) -> EncodesDepex Known x d ->
  exists Result d' st', Loop (length d) 0 d (MkStack buf 0) = Done (Result, d', st') /\
    EncodesDepex Installed x d' /\ (length buf <= Buffer st')%nat /\
    (Result = Evaluate Installed x \/ Result = false /\ Refused PoolAvailable (MkStack buf 0) (Height x)).
Proof.
  intros HK (sor & b & HE & ->).
  assert (HS : StackHolds (MkStack buf 0) []) by (by exists buf).
  set (p := if sor then [EFI_DEP_SOR] else []).
  assert (HRun : exists n Result b' st', (n <= length b + 1)%nat /\ Encodes Installed x b' /\
    (length buf <= Buffer st')%nat /\
    (Result = Evaluate Installed x \/ Result = false /\ Refused PoolAvailable (MkStack buf 0) (Height x)) /\
    forall fuel, Loop (n + fuel) (length p) (p ++ b ++ [EFI_DEP_END]) (MkStack buf 0) =
      Done (Result, p ++ b' ++ [EFI_DEP_END], st')).
  { destruct (encodes_runs Known x b HK HE p [EFI_DEP_END] _ _ HS)
      as (n & b' & st1 & Hn & Hl & HE' & HB & [[HS1 HL]|[HR HL]]).
    - destruct (PopBool_holds _ _ _ HS1) as (st2 & HP & _ & E2 & _).
      exists (n + 1)%nat, (Evaluate Installed x), b', st2. split; [lia|]. split; [done|].
      split; [by rewrite E2|]. split; [by left|]. intros fuel.
      rewrite <- Nat.add_assoc, HL, <- Hl, <- length_app, app_assoc. cbn [Nat.add]. rewrite loop_head. simpl.
      by rewrite HP.
    - exists n, false, b', st1. split; [lia|]. split; [done|]. split; [done|]. split; [by right|done]. }
  destruct HRun as (n & Result & b' & st' & Hn & HE' & HB & HRes & HL).
  exists Result, (p ++ b' ++ [EFI_DEP_END]), st'. split; [|split; [by exists sor, b'|done]].
  rewrite !length_app. replace (length [EFI_DEP_END]) with 1%nat by done.
  destruct sor; subst p.
  - replace (length [EFI_DEP_SOR] + (length b + 1))%nat with (S (n + (length b + 1 - n))) by (simpl length; lia).
    generalize (length b + 1 - n)%nat as k. intros k. change 0%nat with (length (@nil Z)) at 1.
    change ([EFI_DEP_SOR] ++ b ++ [EFI_DEP_END]) with ([] ++ EFI_DEP_SOR :: (b ++ [EFI_DEP_END])) at 1.
    rewrite loop_head. exact (HL k).
  - replace (length (@nil Z) + (length b + 1))%nat with (n + (length b + 1 - n))%nat by (simpl length; lia).
    exact (HL (length b + 1 - n)%nat).
Qed.

End Evaluation.

(** ** Repeated evaluation *)

(** What an evaluation finds: the requests that the pool can meet and the
    protocols that are installed. *)
Record Round := MkRound { RoundPool : nat -> bool; RoundInstalled : GUID -> bool }.

(** The dispatcher evaluates a driver's expression again and again; [Rounds]
    are the circumstances of each evaluation. *)
Fixpoint EvaluateRounds (Garbage : nat -> bool) (AllEfiServicesAvailable : bool)
    (Past : nat -> Z) (Rounds : list Round) (e : EFI_CORE_DRIVER_ENTRY) (st : DepexStack)
  : Outcome (list bool) :=
  match Rounds with
  | [] => Done []
  | R :: Rounds =>
    '(Result, e, st) ← CoreIsSchedulable (RoundPool R) Garbage AllEfiServicesAvailable (RoundInstalled R) Past e st;
    Results ← EvaluateRounds Garbage AllEfiServicesAvailable Past Rounds e st;
    Done (Result :: Results)
  end.

(** Protocols are only added: each round's set includes the one before. *)
Fixpoint Growing (Known : GUID -> bool) (Rounds : list Round) : Prop :=
  match Rounds with
  | [] => True
  | R :: Rounds => (forall g, Known g = true -> RoundInstalled R g = true) /\ Growing (RoundInstalled R) Rounds
  end.

(** The answer of one evaluation of [x] with a stack of [size] entries: the
    value of [x] under the protocols installed, or FALSE if the expression
    needs a higher stack and the pool has refused to enlarge it. *)
Definition Answers (x : Expr) (size : nat) (R : Round) (Result : bool) : Prop :=
  Result = Evaluate (RoundInstalled R) x \/
  Result = false /\
    exists n, (size <= n < Height x)%nat /\ RoundPool R (DEPEX_STACK_SIZE_INCREMENT + n)%nat = false.

(** C36: evaluating a well-formed dependency expression (an optional SOR, a
    postfix expression of PUSH, TRUE, FALSE, NOT, AND and OR, and END) of a
    driver that is not marked Before or After returns each time, although each
    evaluation rewrites the expression in place.  The answer is its value under
    the protocols installed at that time, as long as protocols are only added
    between the evaluations; the one exception is FALSE, when the stack is not
    as high as the expression needs and the pool refuses to enlarge it, and
    later evaluations with more memory give the value again. *)
Theorem CoreIsSchedulable_correct Garbage AllAvailable Past Rounds x : forall Known d e st,
  Growing Known Rounds -> EncodesDepex Known x d ->
  Depex e = Some d -> After e = false -> Before e = false ->
  exists Results, EvaluateRounds Garbage AllAvailable Past Rounds e st = Done Results /\
    Forall2 (Answers x (length (mDepexEvaluationStack st))) Rounds Results.
Proof.
  induction Rounds as [|R Rounds IH]; intros Known d e st HG HE HD HA HB; [by exists []|].
  destruct HG as [HK HG]. cbn [EvaluateRounds]. unfold CoreIsSchedulable. rewrite HA, HB, HD. cbn [orb].
  destruct (depex_runs (RoundPool R) Garbage (RoundInstalled R) Past Known x d (mDepexEvaluationStack st) HK HE)
    as (Result & d' & st' & -> & HE' & HS & HRes). cbn [mbind Outcome_bind].
  destruct (IH (RoundInstalled R) d' (set_Depex d' e) st' HG HE') as (Results & -> & HF); try done.
  exists (Result :: Results). split; [done|]. constructor; [exact HRes|].
  eapply Forall2_impl; [exact HF|]. intros R' r [->|(-> & n & Hn & HP)]; [by left|].
  right. split; [done|]. exists n. split; [lia|done].
Qed.

(** The expression "SOR (A or not B)" for two protocols. *)
Definition SampleGuidA : GUID := replicate 16 0x11.
Definition SampleGuidB : GUID := replicate 16 0x22.
Definition SampleExpr : Expr := EOr (EPush SampleGuidA) (ENot (EPush SampleGuidB)).
Definition SampleDepex : list Z :=
  [EFI_DEP_SOR] ++ (([EFI_DEP_PUSH] ++ SampleGuidA) ++ (([EFI_DEP_PUSH] ++ SampleGuidB) ++ [EFI_DEP_NOT]) ++ [EFI_DEP_OR])
  ++ [EFI_DEP_END].

Lemma SampleDepex_encodes Known : EncodesDepex Known SampleExpr SampleDepex.
Proof.
  exists true. eexists. split; [|reflexivity].
  apply EncOr; [by apply (EncPush Known SampleGuidA)|]. apply EncNot. by apply (EncPush Known SampleGuidB).
Qed.

(** Three evaluations: without memory for a stack, with only B installed, and
    with both installed and the memory gone again. *)
Definition SampleRounds : list Round :=
  [MkRound (fun _ => false) (fun _ => false);
   MkRound (fun _ => true) (fun g => bool_decide (g = SampleGuidB));
   MkRound (fun _ => false) (fun g => bool_decide (g = SampleGuidB) || bool_decide (g = SampleGuidA))].
Definition SampleEntry : EFI_CORE_DRIVER_ENTRY := MkDriverEntry (Some SampleDepex) true false false false [].

Lemma CoreIsSchedulable_correct_witness :
  EvaluateRounds (fun _ => false) true (fun _ => 0) SampleRounds SampleEntry (MkStack [] 0) = Done [false; false; true] /\
  exists Results, EvaluateRounds (fun _ => false) true (fun _ => 0) SampleRounds SampleEntry (MkStack [] 0) = Done Results /\
    Forall2 (Answers SampleExpr 0) SampleRounds Results.
Proof.
  split; [vm_compute; reflexivity|].
  apply (CoreIsSchedulable_correct (fun _ => false) true (fun _ => 0) SampleRounds SampleExpr
    (fun _ => false) SampleDepex SampleEntry (MkStack [] 0)); try reflexivity.
  - split; [discriminate|]. split; [discriminate|]. split; [|exact I]. intros g H. simpl in *. by rewrite H.
  - apply SampleDepex_encodes.
Defined.

(** ** Malformed expressions *)

Section Malformed.
Context (PoolAvailable : nat -> bool) (Garbage : nat -> bool) (Installed : GUID -> bool).
Abbreviation Loop := (EvaluateLoop PoolAvailable Garbage Installed).

(** The same result: both stop in an assertion, or both return the same answer
    with an expression of the same length. *)
Definition SameResult (a b : Outcome (bool * list Z * DepexStack)) (size : nat) : Prop :=
  match a, b with
  | Done (r1, d1, _), Done (r2, d2, _) => r1 = r2 /\ length d1 = size /\ length d2 = size
  | Asserted, Asserted => True
  | _, _ => False
  end.

Lemma loop_past Past fuel i d st : (length d <= i)%nat -> Loop Past fuel i d st = Done (false, d, st).
Proof. intros H. destruct fuel; cbn [EvaluateLoop]; by rewrite (proj2 (Nat.leb_le _ _) H). Qed.

Lemma GuidAt_inside Past1 Past2 d i : (i + 16 <= length d)%nat -> GuidAt Past1 d i = GuidAt Past2 d i.
Proof.
  intros H. unfold GuidAt. apply list_fmap_ext. intros k x Hx. apply lookup_seq in Hx as [-> Hk]. unfold ReadByte.
  destruct (d !! (i + k)%nat) eqn:E; [done|]. apply lookup_ge_None in E. lia.
Qed.

Lemma same_result_loop Past1 Past2 size : forall fuel i d st,
  length d = size -> (size - i <= fuel)%nat ->
  SameResult (Loop Past1 fuel i d st) (Loop Past2 fuel i d st) size.
Proof.
  induction fuel as [|fuel IH]; intros i d st Hd Hf.
  { rewrite !loop_past by lia. done. }
  cbn [EvaluateLoop]. destruct (length d <=? i)%nat eqn:EL; [done|]. apply Nat.leb_gt in EL.
  assert (HB : ReadByte Past1 d i = ReadByte Past2 d i).
  { unfold ReadByte. destruct (d !! i) eqn:E; [done|]. apply lookup_ge_None in E. lia. }
  assert (HN : forall skip d r, length d = size ->
    SameResult (let '(Status, st) := r in if EFI_ERROR Status then Done (false, d, st) else Loop Past1 fuel (S (i + skip)) d st)
               (let '(Status, st) := r in if EFI_ERROR Status then Done (false, d, st) else Loop Past2 fuel (S (i + skip)) d st) size).
  { intros skip d0 [Status st0] H0. destruct (EFI_ERROR Status); [done|]. apply IH; [done|lia]. }
  rewrite HB. set (op := ReadByte Past2 d i).
  destruct ((op =? EFI_DEP_BEFORE) || (op =? EFI_DEP_AFTER)); [done|].
  destruct (op =? EFI_DEP_SOR); [destruct (negb (i =? 0)%nat); [done|apply IH; [done|lia]]|].
  destruct (op =? EFI_DEP_PUSH); [|repeat (match goal with |- SameResult (if ?b then _ else _) _ _ => destruct b; [by apply HN|] end)].
  - destruct (decide (S i + 16 <= length d)%nat) as [Hin|Hout].
    + rewrite (GuidAt_inside Past1 Past2) by lia.
      destruct (Installed (GuidAt Past2 d (S i))); apply HN; by rewrite ?length_insert.
    + assert (HF : forall Past d r, length d = size ->
        exists st', (let '(Status, st) := r in if EFI_ERROR Status then Done (false, d, st)
                     else Loop Past fuel (S (i + 16)) d st) = Done (false, d, st')).
      { intros Past d0 [Status st0] H0. destruct (EFI_ERROR Status); [by eexists|].
        rewrite loop_past by lia. by eexists. }
      destruct (Installed (GuidAt Past1 d (S i))), (Installed (GuidAt Past2 d (S i)));
        match goal with |- SameResult (let '(_, _) := ?r1 in if _ then Done (_, ?d1, _) else _)
                                      (let '(_, _) := ?r2 in if _ then Done (_, ?d2, _) else _) _ =>
          destruct (HF Past1 d1 r1) as [st1 ->]; [by rewrite ?length_insert|];
          destruct (HF Past2 d2 r2) as [st2 ->]; [by rewrite ?length_insert|] end;
        simpl; by rewrite ?length_insert.
  - destruct (op =? EFI_DEP_END); [destruct (PopBool st) as [[Status v] st0]; by destruct (EFI_ERROR Status)|].
    destruct (op =? EFI_DEP_REPLACE_TRUE); [by apply HN|done].
Qed.

(** On any byte string whatever, the evaluator stops after at most one
    round per byte, never resizes the expression, and its answer does not
    depend on the memory after the expression, although a PUSH near the end
    makes it read there. *)
Theorem EvaluateLoop_malformed Past1 Past2 d st :
  SameResult (Loop Past1 (length d) 0 d st) (Loop Past2 (length d) 0 d st) (length d).
Proof. apply same_result_loop; lia. Qed.

End Malformed.

(** A PUSH in the last 16 bytes of an expression reads its GUID from the
    memory after the expression: what the evaluator stores back there depends
    on those bytes. *)
Theorem CoreIsSchedulable_reads_past_end :
  exists Installed Past1 Past2,
    CoreIsSchedulable (fun _ => true) (fun _ => false) true Installed Past1
      (MkDriverEntry (Some [EFI_DEP_PUSH]) true false false false []) (MkStack [] 0) <>
    CoreIsSchedulable (fun _ => true) (fun _ => false) true Installed Past2
      (MkDriverEntry (Some [EFI_DEP_PUSH]) true false false false []) (MkStack [] 0).
Proof.
  exists (fun g => bool_decide (g = replicate 16 7)), (fun _ => 7), (fun _ => 0).
  intros H. apply (f_equal (fun o => match o with Done (_, e, _) => Depex e | _ => None end)) in H.
  vm_compute in H. discriminate H.
Qed.
