(* ===== verification/SafeInt.v ===== *)
(** * Safe integer arithmetic

    [src/MdePkg/Library/BaseSafeIntLib/SafeIntLib.c] and [SafeIntLib64.c] (the
    variant for 64-bit UINTN): conversions between the integer types, addition,
    subtraction and multiplication that report overflow.  One definition per
    function; the last argument says whether the [Result] pointer is NULL, and
    the result is the status and the value stored through it.  The theorems
    are exact: each function succeeds if and only if the mathematical result
    is in the range of its type, and then stores it. *)
From Stdlib Require Import ZArith Lia.
From stdpp Require Import base option list.
From S2P Require Import Prelude.

(** ** The integer types *)

Inductive IntType := Int8 | Uint8 | Char8 | Int16 | Uint16 | Int32 | Uint32 | Intn | Uintn | Int64 | Uint64.

Definition Bits (t : IntType) : Z :=
  match t with
  | Int8 | Uint8 | Char8 => 8
  | Int16 | Uint16 => 16
  | Int32 | Uint32 => 32
  | Intn | Uintn | Int64 | Uint64 => 64
  end.

Definition Unsigned (t : IntType) : bool :=
  match t with Uint8 | Uint16 | Uint32 | Uintn | Uint64 => true | _ => false end.

(** The constants [MIN_INT8], [MAX_INT8] and so on. *)
Definition MIN (t : IntType) : Z := if Unsigned t then 0 else - 2 ^ (Bits t - 1).
Definition MAX (t : IntType) : Z := if Unsigned t then 2 ^ Bits t - 1 else 2 ^ (Bits t - 1) - 1.

(** The value stored on overflow, [INT8_ERROR] and so on. *)
Definition ERROR (t : IntType) : Z :=
  match t with Char8 => MAX Int8 | _ => if Unsigned t then MAX t else -1 end.

(** A cast, or the result of arithmetic in the type: the value modulo [2 ^ Bits].
    (CHAR8 is taken as signed; the functions only cast values to it that fit
    either way.) *)
Definition Cast (t : IntType) (x : Z) : Z :=
  if Unsigned t then x mod 2 ^ Bits t
  else (x + 2 ^ (Bits t - 1)) mod 2 ^ Bits t - 2 ^ (Bits t - 1).

Definition MIN_INT64_MAGNITUDE : Z := Cast Uint64 (- (MIN Int64 + 1)) + 1.

(** BaseLib's 64-bit arithmetic. *)
Definition MultU64x64 (x y : Z) : Z := Cast Uint64 (x * y).
Definition MultS64x64 (x y : Z) : Z := Cast Int64 (x * y).
Definition LShiftU64 (x n : Z) : Z := Cast Uint64 (Z.shiftl x n).

(** The shape shared by most functions: check the pointer, then store the
    value and succeed, or store the error value and fail. *)
Definition Convert (Fits : bool) (Value Error : Z) (ResultIsNull : bool) : EFI_STATUS * option Z :=
  if ResultIsNull then (EFI_INVALID_PARAMETER, None)
  else if Fits then (EFI_SUCCESS, Some Value)
  else (EFI_BUFFER_TOO_SMALL, Some Error).

(** ** SafeIntLib.c *)

Definition SafeInt8ToUint8 (Operand : Z) := Convert (Operand >=? 0) (Cast Uint8 Operand) (ERROR Uint8).
Definition SafeInt8ToChar8 (Operand : Z) := Convert (Operand >=? 0) (Cast Char8 Operand) (ERROR Char8).
Definition SafeInt8ToUint16 (Operand : Z) := Convert (Operand >=? 0) (Cast Uint16 Operand) (ERROR Uint16).
Definition SafeInt8ToUint32 (Operand : Z) := Convert (Operand >=? 0) (Cast Uint32 Operand) (ERROR Uint32).
Definition SafeInt8ToUintn (Operand : Z) := Convert (Operand >=? 0) (Cast Uintn Operand) (ERROR Uintn).
Definition SafeInt8ToUint64 (Operand : Z) := Convert (Operand >=? 0) (Cast Uint64 Operand) (ERROR Uint64).
Definition SafeUint8ToInt8 (Operand : Z) := Convert (Operand <=? MAX Int8) (Cast Int8 Operand) (ERROR Int8).
Definition SafeUint8ToChar8 (Operand : Z) := Convert (Operand <=? MAX Int8) (Cast Char8 Operand) (ERROR Char8).
Definition SafeInt16ToInt8 (Operand : Z) :=
  Convert ((Operand >=? MIN Int8) && (Operand <=? MAX Int8)) (Cast Int8 Operand) (ERROR Int8).
Definition SafeInt16ToChar8 (Operand : Z) :=
  Convert ((Operand >=? 0) && (Operand <=? MAX Int8)) (Cast Char8 Operand) (ERROR Char8).
Definition SafeInt16ToUint8 (Operand : Z) :=
  Convert ((Operand >=? 0) && (Operand <=? MAX Uint8)) (Cast Uint8 Operand) (ERROR Uint8).
Definition SafeInt16ToUint16 (Operand : Z) := Convert (Operand >=? 0) (Cast Uint16 Operand) (ERROR Uint16).
Definition SafeInt16ToUint32 (Operand : Z) := Convert (Operand >=? 0) (Cast Uint32 Operand) (ERROR Uint32).
Definition SafeInt16ToUintn (Operand : Z) := Convert (Operand >=? 0) (Cast Uintn Operand) (ERROR Uintn).
Definition SafeInt16ToUint64 (Operand : Z) := Convert (Operand >=? 0) (Cast Uint64 Operand) (ERROR Uint64).
Definition SafeUint16ToInt8 (Operand : Z) := Convert (Operand <=? MAX Int8) (Cast Int8 Operand) (ERROR Int8).
Definition SafeUint16ToChar8 (Operand : Z) := Convert (Operand <=? MAX Int8) (Cast Char8 (Cast Int8 Operand)) (ERROR Char8).
Definition SafeUint16ToUint8 (Operand : Z) := Convert (Operand <=? MAX Uint8) (Cast Uint8 Operand) (ERROR Uint8).
Definition SafeUint16ToInt16 (Operand : Z) := Convert (Operand <=? MAX Int16) (Cast Int16 Operand) (ERROR Int16).
Definition SafeInt32ToInt8 (Operand : Z) :=
  Convert ((Operand >=? MIN Int8) && (Operand <=? MAX Int8)) (Cast Int8 Operand) (ERROR Int8).
Definition SafeInt32ToChar8 (Operand : Z) :=
  Convert ((Operand >=? 0) && (Operand <=? MAX Int8)) (Cast Char8 Operand) (ERROR Char8).
Definition SafeInt32ToUint8 (Operand : Z) :=
  Convert ((Operand >=? 0) && (Operand <=? MAX Uint8)) (Cast Uint8 Operand) (ERROR Uint8).
Definition SafeInt32ToInt16 (Operand : Z) :=
  Convert ((Operand >=? MIN Int16) && (Operand <=? MAX Int16)) (Cast Int16 Operand) (ERROR Int16).
Definition SafeInt32ToUint16 (Operand : Z) :=
  Convert ((Operand >=? 0) && (Operand <=? MAX Uint16)) (Cast Uint16 Operand) (ERROR Uint16).
Definition SafeInt32ToUint32 (Operand : Z) := Convert (Operand >=? 0) (Cast Uint32 Operand) (ERROR Uint32).
Definition SafeInt32ToUint64 (Operand : Z) := Convert (Operand >=? 0) (Cast Uint64 Operand) (ERROR Uint64).
Definition SafeUint32ToInt8 (Operand : Z) := Convert (Operand <=? MAX Int8) (Cast Int8 Operand) (ERROR Int8).
Definition SafeUint32ToChar8 (Operand : Z) := Convert (Operand <=? MAX Int8) (Cast Char8 (Cast Int8 Operand)) (ERROR Char8).
Definition SafeUint32ToUint8 (Operand : Z) := Convert (Operand <=? MAX Uint8) (Cast Uint8 Operand) (ERROR Uint8).
Definition SafeUint32ToInt16 (Operand : Z) := Convert (Operand <=? MAX Int16) (Cast Int16 Operand) (ERROR Int16).
Definition SafeUint32ToUint16 (Operand : Z) := Convert (Operand <=? MAX Uint16) (Cast Uint16 Operand) (ERROR Uint16).
Definition SafeUint32ToInt32 (Operand : Z) := Convert (Operand <=? MAX Int32) (Cast Int32 Operand) (ERROR Int32).
Definition SafeIntnToInt8 (Operand : Z) :=
  Convert ((Operand >=? MIN Int8) && (Operand <=? MAX Int8)) (Cast Int8 Operand) (ERROR Int8).
Definition SafeIntnToChar8 (Operand : Z) :=
  Convert ((Operand >=? 0) && (Operand <=? MAX Int8)) (Cast Char8 Operand) (ERROR Char8).
Definition SafeIntnToUint8 (Operand : Z) :=
  Convert ((Operand >=? 0) && (Operand <=? MAX Uint8)) (Cast Uint8 Operand) (ERROR Uint8).
Definition SafeIntnToInt16 (Operand : Z) :=
  Convert ((Operand >=? MIN Int16) && (Operand <=? MAX Int16)) (Cast Int16 Operand) (ERROR Int16).
Definition SafeIntnToUint16 (Operand : Z) :=
  Convert ((Operand >=? 0) && (Operand <=? MAX Uint16)) (Cast Uint16 Operand) (ERROR Uint16).
Definition SafeIntnToUintn (Operand : Z) := Convert (Operand >=? 0) (Cast Uintn Operand) (ERROR Uintn).
Definition SafeIntnToUint64 (Operand : Z) := Convert (Operand >=? 0) (Cast Uint64 Operand) (ERROR Uint64).
Definition SafeUintnToInt8 (Operand : Z) := Convert (Operand <=? MAX Int8) (Cast Int8 Operand) (ERROR Int8).
Definition SafeUintnToChar8 (Operand : Z) := Convert (Operand <=? MAX Int8) (Cast Char8 (Cast Int8 Operand)) (ERROR Char8).
Definition SafeUintnToUint8 (Operand : Z) := Convert (Operand <=? MAX Uint8) (Cast Uint8 Operand) (ERROR Uint8).
Definition SafeUintnToInt16 (Operand : Z) := Convert (Operand <=? MAX Int16) (Cast Int16 Operand) (ERROR Int16).
Definition SafeUintnToUint16 (Operand : Z) := Convert (Operand <=? MAX Uint16) (Cast Uint16 Operand) (ERROR Uint16).
Definition SafeUintnToInt32 (Operand : Z) := Convert (Operand <=? MAX Int32) (Cast Int32 Operand) (ERROR Int32).
Definition SafeUintnToIntn (Operand : Z) := Convert (Operand <=? MAX Intn) (Cast Intn Operand) (ERROR Intn).
Definition SafeInt64ToInt8 (Operand : Z) :=
  Convert ((Operand >=? MIN Int8) && (Operand <=? MAX Int8)) (Cast Int8 Operand) (ERROR Int8).
Definition SafeInt64ToChar8 (Operand : Z) :=
  Convert ((Operand >=? 0) && (Operand <=? MAX Int8)) (Cast Char8 Operand) (ERROR Char8).
Definition SafeInt64ToUint8 (Operand : Z) :=
  Convert ((Operand >=? 0) && (Operand <=? MAX Uint8)) (Cast Uint8 Operand) (ERROR Uint8).
Definition SafeInt64ToInt16 (Operand : Z) :=
  Convert ((Operand >=? MIN Int16) && (Operand <=? MAX Int16)) (Cast Int16 Operand) (ERROR Int16).
Definition SafeInt64ToUint16 (Operand : Z) :=
  Convert ((Operand >=? 0) && (Operand <=? MAX Uint16)) (Cast Uint16 Operand) (ERROR Uint16).
Definition SafeInt64ToInt32 (Operand : Z) :=
  Convert ((Operand >=? MIN Int32) && (Operand <=? MAX Int32)) (Cast Int32 Operand) (ERROR Int32).
Definition SafeInt64ToUint32 (Operand : Z) :=
  Convert ((Operand >=? 0) && (Operand <=? MAX Uint32)) (Cast Uint32 Operand) (ERROR Uint32).
Definition SafeInt64ToUint64 (Operand : Z) := Convert (Operand >=? 0) (Cast Uint64 Operand) (ERROR Uint64).
Definition SafeUint64ToInt8 (Operand : Z) := Convert (Operand <=? MAX Int8) (Cast Int8 Operand) (ERROR Int8).
Definition SafeUint64ToChar8 (Operand : Z) := Convert (Operand <=? MAX Int8) (Cast Char8 (Cast Int8 Operand)) (ERROR Char8).
Definition SafeUint64ToUint8 (Operand : Z) := Convert (Operand <=? MAX Uint8) (Cast Uint8 Operand) (ERROR Uint8).
Definition SafeUint64ToInt16 (Operand : Z) := Convert (Operand <=? MAX Int16) (Cast Int16 Operand) (ERROR Int16).
Definition SafeUint64ToUint16 (Operand : Z) := Convert (Operand <=? MAX Uint16) (Cast Uint16 Operand) (ERROR Uint16).
Definition SafeUint64ToInt32 (Operand : Z) := Convert (Operand <=? MAX Int32) (Cast Int32 Operand) (ERROR Int32).
Definition SafeUint64ToUint32 (Operand : Z) := Convert (Operand <=? MAX Uint32) (Cast Uint32 Operand) (ERROR Uint32).
Definition SafeUint64ToIntn (Operand : Z) := Convert (Operand <=? MAX Intn) (Cast Intn Operand) (ERROR Intn).
Definition SafeUint64ToInt64 (Operand : Z) := Convert (Operand <=? MAX Int64) (Cast Int64 Operand) (ERROR Int64).
Definition SafeUint8Add (Augend Addend : Z) :=
  Convert (Cast Uint8 (Augend + Addend) >=? Augend) (Cast Uint8 (Augend + Addend)) (ERROR Uint8).
Definition SafeUint16Add (Augend Addend : Z) :=
  Convert (Cast Uint16 (Augend + Addend) >=? Augend) (Cast Uint16 (Augend + Addend)) (ERROR Uint16).
Definition SafeUint32Add (Augend Addend : Z) :=
  Convert (Cast Uint32 (Augend + Addend) >=? Augend) (Cast Uint32 (Augend + Addend)) (ERROR Uint32).
Definition SafeUint64Add (Augend Addend : Z) :=
  Convert (Cast Uint64 (Augend + Addend) >=? Augend) (Cast Uint64 (Augend + Addend)) (ERROR Uint64).
Definition SafeUint8Sub (Minuend Subtrahend : Z) :=
  Convert (Minuend >=? Subtrahend) (Cast Uint8 (Minuend - Subtrahend)) (ERROR Uint8).
Definition SafeUint16Sub (Minuend Subtrahend : Z) :=
  Convert (Minuend >=? Subtrahend) (Cast Uint16 (Minuend - Subtrahend)) (ERROR Uint16).
Definition SafeUint32Sub (Minuend Subtrahend : Z) :=
  Convert (Minuend >=? Subtrahend) (Cast Uint32 (Minuend - Subtrahend)) (ERROR Uint32).
Definition SafeUint64Sub (Minuend Subtrahend : Z) :=
  Convert (Minuend >=? Subtrahend) (Cast Uint64 (Minuend - Subtrahend)) (ERROR Uint64).
Definition SafeUint8Mult (Multiplicand Multiplier : Z) :=
  SafeUint32ToUint8 (Cast Uint32 (Cast Uint32 Multiplicand * Cast Uint32 Multiplier)).
Definition SafeUint16Mult (Multiplicand Multiplier : Z) :=
  SafeUint32ToUint16 (Cast Uint32 (Cast Uint32 Multiplicand * Cast Uint32 Multiplier)).
Definition SafeUint32Mult (Multiplicand Multiplier : Z) :=
  SafeUint64ToUint32 (Cast Uint64 (Cast Uint64 Multiplicand * Cast Uint64 Multiplier)).
(** The four 32-bit halves of the operands are multiplied separately. *)
Definition SafeUint64Mult (Multiplicand Multiplier : Z) (ResultIsNull : bool) : EFI_STATUS * option Z :=
  if ResultIsNull then (EFI_INVALID_PARAMETER, None)
  else
    let DwordA := Cast Uint32 (Z.shiftr Multiplicand 32) in
    let DwordC := Cast Uint32 (Z.shiftr Multiplier 32) in
    let DwordB := Cast Uint32 Multiplicand in
    let DwordD := Cast Uint32 Multiplier in
    let Failed := (EFI_BUFFER_TOO_SMALL, Some (ERROR Uint64)) in
    if (DwordA =? 0) && (DwordC =? 0) then (EFI_SUCCESS, Some (MultU64x64 DwordB DwordD))
    else if (DwordA =? 0) || (DwordC =? 0) then
      let ProductAD := MultU64x64 DwordA DwordD in
      if Z.land ProductAD 0xffffffff00000000 =? 0 then
        let ProductBC := MultU64x64 DwordB DwordC in
        if Z.land ProductBC 0xffffffff00000000 =? 0 then
          match SafeUint64Add (LShiftU64 ProductBC 32) (LShiftU64 ProductAD 32) false with
          | (EFI_SUCCESS, Some UnsignedResult) =>
            let ProductBD := MultU64x64 DwordB DwordD in
            match SafeUint64Add UnsignedResult ProductBD false with
            | (EFI_SUCCESS, Some UnsignedResult) => (EFI_SUCCESS, Some UnsignedResult)
            | _ => Failed
            end
          | _ => Failed
          end
        else Failed
      else Failed
    else Failed.
Definition SafeInt8Add (Augend Addend : Z) :=
  SafeInt32ToInt8 (Cast Int32 (Cast Int32 Augend + Cast Int32 Addend)).
Definition SafeChar8Add (Augend Addend : Z) (ResultIsNull : bool) : EFI_STATUS * option Z :=
  let Augend32 := Cast Int32 Augend in
  let Addend32 := Cast Int32 Addend in
  if ResultIsNull then (EFI_INVALID_PARAMETER, None)
  else if (Augend32 <? 0) || (Augend32 >? MAX Int8) then (EFI_BUFFER_TOO_SMALL, Some (ERROR Char8))
  else if (Addend32 <? 0) || (Addend32 >? MAX Int8) then (EFI_BUFFER_TOO_SMALL, Some (ERROR Char8))
  else SafeInt32ToChar8 (Cast Int32 (Augend32 + Addend32)) ResultIsNull.
Definition SafeInt16Add (Augend Addend : Z) :=
  SafeInt32ToInt16 (Cast Int32 (Cast Int32 Augend + Cast Int32 Addend)).
Definition SafeInt32Add (Augend Addend : Z) :=
  SafeInt64ToInt32 (Cast Int64 (Cast Int64 Augend + Cast Int64 Addend)).
Definition SafeInt64Add (Augend Addend : Z) :=
  Convert (negb (((Addend >? 0) && (Augend >? MAX Int64 - Addend)) ||
                 ((Addend <? 0) && (Augend <? MIN Int64 - Addend))))
    (Cast Int64 (Augend + Addend)) (ERROR Int64).
Definition SafeInt8Sub (Minuend Subtrahend : Z) :=
  SafeInt32ToInt8 (Cast Int32 (Cast Int32 Minuend - Cast Int32 Subtrahend)).
Definition SafeChar8Sub (Minuend Subtrahend : Z) (ResultIsNull : bool) : EFI_STATUS * option Z :=
  let Minuend32 := Cast Int32 Minuend in
  let Subtrahend32 := Cast Int32 Subtrahend in
  if ResultIsNull then (EFI_INVALID_PARAMETER, None)
  else if (Minuend32 <? 0) || (Minuend32 >? MAX Int8) then (EFI_BUFFER_TOO_SMALL, Some (ERROR Char8))
  else if (Subtrahend32 <? 0) || (Subtrahend32 >? MAX Int8) then (EFI_BUFFER_TOO_SMALL, Some (ERROR Char8))
  else SafeInt32ToChar8 (Cast Int32 (Minuend32 - Subtrahend32)) ResultIsNull.
Definition SafeInt16Sub (Minuend Subtrahend : Z) :=
  SafeInt32ToInt16 (Cast Int32 (Cast Int32 Minuend - Cast Int32 Subtrahend)).
Definition SafeInt32Sub (Minuend Subtrahend : Z) :=
  SafeInt64ToInt32 (Cast Int64 (Cast Int64 Minuend - Cast Int64 Subtrahend)).
Definition SafeInt64Sub (Minuend Subtrahend : Z) :=
  Convert (negb (((Subtrahend >? 0) && (Minuend <? MIN Int64 + Subtrahend)) ||
                 ((Subtrahend <? 0) && (Minuend >? MAX Int64 + Subtrahend))))
    (Cast Int64 (Minuend - Subtrahend)) (ERROR Int64).
Definition SafeInt8Mult (Multiplicand Multiplier : Z) :=
  SafeInt32ToInt8 (Cast Int32 (Cast Int32 Multiplier * Cast Int32 Multiplicand)).
Definition SafeChar8Mult (Multiplicand Multiplier : Z) (ResultIsNull : bool) : EFI_STATUS * option Z :=
  let Multiplicand32 := Cast Int32 Multiplicand in
  let Multiplier32 := Cast Int32 Multiplier in
  if ResultIsNull then (EFI_INVALID_PARAMETER, None)
  else if (Multiplicand32 <? 0) || (Multiplicand32 >? MAX Int8) then (EFI_BUFFER_TOO_SMALL, Some (ERROR Char8))
  else if (Multiplier32 <? 0) || (Multiplier32 >? MAX Int8) then (EFI_BUFFER_TOO_SMALL, Some (ERROR Char8))
  else SafeInt32ToChar8 (Cast Int32 (Multiplicand32 * Multiplier32)) ResultIsNull.
Definition SafeInt16Mult (Multiplicand Multiplier : Z) :=
  SafeInt32ToInt16 (Cast Int32 (Cast Int32 Multiplicand * Cast Int32 Multiplier)).
Definition SafeInt32Mult (Multiplicand Multiplier : Z) := SafeInt64ToInt32 (MultS64x64 Multiplicand Multiplier).
(** The magnitudes are multiplied as unsigned numbers. *)
Definition SafeInt64Mult (Multiplicand Multiplier : Z) (ResultIsNull : bool) : EFI_STATUS * option Z :=
  if ResultIsNull then (EFI_INVALID_PARAMETER, None)
  else
    let Magnitude x := if x <? 0 then Cast Uint64 (Cast Uint64 (- (x + 1)) + 1) else Cast Uint64 x in
    match SafeUint64Mult (Magnitude Multiplicand) (Magnitude Multiplier) false with
    | (EFI_SUCCESS, Some UnsignedResult) =>
      if negb (Bool.eqb (Multiplicand <? 0) (Multiplier <? 0)) then
        if UnsignedResult >? MIN_INT64_MAGNITUDE then (EFI_BUFFER_TOO_SMALL, Some (ERROR Int64))
        else if UnsignedResult =? MIN_INT64_MAGNITUDE then (EFI_SUCCESS, Some (MIN Int64))
        else (EFI_SUCCESS, Some (- Cast Int64 UnsignedResult))
      else
        if UnsignedResult >? MAX Int64 then (EFI_BUFFER_TOO_SMALL, Some (ERROR Int64))
        else (EFI_SUCCESS, Some (Cast Int64 UnsignedResult))
    | (Status, _) => (Status, Some (ERROR Int64))
    end.

(** ** SafeIntLib64.c *)

Definition SafeInt32ToUintn (Operand : Z) := SafeInt32ToUint64 Operand.
Definition SafeUint32ToIntn (Operand : Z) := Convert true (Cast Intn Operand) 0.
Definition SafeIntnToInt32 (Operand : Z) := SafeInt64ToInt32 (Cast Int64 Operand).
Definition SafeIntnToUint32 (Operand : Z) := SafeInt64ToUint32 (Cast Int64 Operand).
Definition SafeUintnToUint32 (Operand : Z) := SafeUint64ToUint32 (Cast Uint64 Operand).
Definition SafeUintnToInt64 (Operand : Z) := SafeUint64ToInt64 (Cast Uint64 Operand).
Definition SafeInt64ToIntn (Operand : Z) := Convert true (Cast Intn Operand) 0.
Definition SafeInt64ToUintn (Operand : Z) := SafeInt64ToUint64 Operand.
Definition SafeUint64ToUintn (Operand : Z) := Convert true (Cast Uintn Operand) 0.
Definition SafeUintnAdd (Augend Addend : Z) := SafeUint64Add (Cast Uint64 Augend) (Cast Uint64 Addend).
Definition SafeUintnSub (Minuend Subtrahend : Z) := SafeUint64Sub (Cast Uint64 Minuend) (Cast Uint64 Subtrahend).
Definition SafeUintnMult (Multiplicand Multiplier : Z) := SafeUint64Mult (Cast Uint64 Multiplicand) (Cast Uint64 Multiplier).
Definition SafeIntnAdd (Augend Addend : Z) := SafeInt64Add (Cast Int64 Augend) (Cast Int64 Addend).
Definition SafeIntnSub (Minuend Subtrahend : Z) := SafeInt64Sub (Cast Int64 Minuend) (Cast Int64 Subtrahend).
Definition SafeIntnMult (Multiplicand Multiplier : Z) := SafeInt64Mult (Cast Int64 Multiplicand) (Cast Int64 Multiplier).
(** ** What the functions promise *)

(** The values an operand of the type can have (CHAR8 may be signed or not). *)
Definition Operand (t : IntType) (x : Z) : Prop :=
  match t with Char8 => MIN Int8 <= x <= MAX Uint8 | _ => MIN t <= x <= MAX t end.

(** The values a result of the type may have; for CHAR8 only those that do not
    depend on its signedness. *)
Definition Fits (t : IntType) (x : Z) : bool :=
  match t with Char8 => (0 <=? x) && (x <=? MAX Int8) | _ => (MIN t <=? x) && (x <=? MAX t) end.

(** A function that stores [x] in a result of type [t]. *)
Definition Stores (t : IntType) (ok : bool) (x : Z) (f : bool -> EFI_STATUS * option Z) : Prop :=
  f true = (EFI_INVALID_PARAMETER, None) /\
  f false = if ok then (EFI_SUCCESS, Some x) else (EFI_BUFFER_TOO_SMALL, Some (ERROR t)).

(** All conversions, with the types they convert from and to. *)
Definition Conversions : list (IntType * IntType * (Z -> bool -> EFI_STATUS * option Z)) :=
  [ (Int8, Uint8, SafeInt8ToUint8);
    (Int8, Char8, SafeInt8ToChar8);
    (Int8, Uint16, SafeInt8ToUint16);
    (Int8, Uint32, SafeInt8ToUint32);
    (Int8, Uintn, SafeInt8ToUintn);
    (Int8, Uint64, SafeInt8ToUint64);
    (Uint8, Int8, SafeUint8ToInt8);
    (Uint8, Char8, SafeUint8ToChar8);
    (Int16, Int8, SafeInt16ToInt8);
    (Int16, Char8, SafeInt16ToChar8);
    (Int16, Uint8, SafeInt16ToUint8);
    (Int16, Uint16, SafeInt16ToUint16);
    (Int16, Uint32, SafeInt16ToUint32);
    (Int16, Uintn, SafeInt16ToUintn);
    (Int16, Uint64, SafeInt16ToUint64);
    (Uint16, Int8, SafeUint16ToInt8);
    (Uint16, Char8, SafeUint16ToChar8);
    (Uint16, Uint8, SafeUint16ToUint8);
    (Uint16, Int16, SafeUint16ToInt16);
    (Int32, Int8, SafeInt32ToInt8);
    (Int32, Char8, SafeInt32ToChar8);
    (Int32, Uint8, SafeInt32ToUint8);
    (Int32, Int16, SafeInt32ToInt16);
    (Int32, Uint16, SafeInt32ToUint16);
    (Int32, Uint32, SafeInt32ToUint32);
    (Int32, Uint64, SafeInt32ToUint64);
    (Uint32, Int8, SafeUint32ToInt8);
    (Uint32, Char8, SafeUint32ToChar8);
    (Uint32, Uint8, SafeUint32ToUint8);
    (Uint32, Int16, SafeUint32ToInt16);
    (Uint32, Uint16, SafeUint32ToUint16);
    (Uint32, Int32, SafeUint32ToInt32);
    (Intn, Int8, SafeIntnToInt8);
    (Intn, Char8, SafeIntnToChar8);
    (Intn, Uint8, SafeIntnToUint8);
    (Intn, Int16, SafeIntnToInt16);
    (Intn, Uint16, SafeIntnToUint16);
    (Intn, Uintn, SafeIntnToUintn);
    (Intn, Uint64, SafeIntnToUint64);
    (Uintn, Int8, SafeUintnToInt8);
    (Uintn, Char8, SafeUintnToChar8);
    (Uintn, Uint8, SafeUintnToUint8);
    (Uintn, Int16, SafeUintnToInt16);
    (Uintn, Uint16, SafeUintnToUint16);
    (Uintn, Int32, SafeUintnToInt32);
    (Uintn, Intn, SafeUintnToIntn);
    (Int64, Int8, SafeInt64ToInt8);
    (Int64, Char8, SafeInt64ToChar8);
    (Int64, Uint8, SafeInt64ToUint8);
    (Int64, Int16, SafeInt64ToInt16);
    (Int64, Uint16, SafeInt64ToUint16);
    (Int64, Int32, SafeInt64ToInt32);
    (Int64, Uint32, SafeInt64ToUint32);
    (Int64, Uint64, SafeInt64ToUint64);
    (Uint64, Int8, SafeUint64ToInt8);
    (Uint64, Char8, SafeUint64ToChar8);
    (Uint64, Uint8, SafeUint64ToUint8);
    (Uint64, Int16, SafeUint64ToInt16);
    (Uint64, Uint16, SafeUint64ToUint16);
    (Uint64, Int32, SafeUint64ToInt32);
    (Uint64, Uint32, SafeUint64ToUint32);
    (Uint64, Intn, SafeUint64ToIntn);
    (Uint64, Int64, SafeUint64ToInt64);
    (Int32, Uintn, SafeInt32ToUintn);
    (Uint32, Intn, SafeUint32ToIntn);
    (Intn, Int32, SafeIntnToInt32);
    (Intn, Uint32, SafeIntnToUint32);
    (Uintn, Uint32, SafeUintnToUint32);
    (Uintn, Int64, SafeUintnToInt64);
    (Int64, Intn, SafeInt64ToIntn);
    (Int64, Uintn, SafeInt64ToUintn);
    (Uint64, Uintn, SafeUint64ToUintn) ].

(** All arithmetic functions, with their type and what they compute. *)
Definition Arithmetic : list (IntType * (Z -> Z -> Z) * (Z -> Z -> bool -> EFI_STATUS * option Z)) :=
  [ (Uint8, Z.add, SafeUint8Add);
    (Uint16, Z.add, SafeUint16Add);
    (Uint32, Z.add, SafeUint32Add);
    (Uint64, Z.add, SafeUint64Add);
    (Uint8, Z.sub, SafeUint8Sub);
    (Uint16, Z.sub, SafeUint16Sub);
    (Uint32, Z.sub, SafeUint32Sub);
    (Uint64, Z.sub, SafeUint64Sub);
    (Uint8, Z.mul, SafeUint8Mult);
    (Uint16, Z.mul, SafeUint16Mult);
    (Uint32, Z.mul, SafeUint32Mult);
    (Uint64, Z.mul, SafeUint64Mult);
    (Int8, Z.add, SafeInt8Add);
    (Char8, Z.add, SafeChar8Add);
    (Int16, Z.add, SafeInt16Add);
    (Int32, Z.add, SafeInt32Add);
    (Int64, Z.add, SafeInt64Add);
    (Int8, Z.sub, SafeInt8Sub);
    (Char8, Z.sub, SafeChar8Sub);
    (Int16, Z.sub, SafeInt16Sub);
    (Int32, Z.sub, SafeInt32Sub);
    (Int64, Z.sub, SafeInt64Sub);
    (Int8, Z.mul, SafeInt8Mult);
    (Char8, Z.mul, SafeChar8Mult);
    (Int16, Z.mul, SafeInt16Mult);
    (Int32, Z.mul, SafeInt32Mult);
    (Int64, Z.mul, SafeInt64Mult);
    (Uintn, Z.add, SafeUintnAdd);
    (Uintn, Z.sub, SafeUintnSub);
    (Uintn, Z.mul, SafeUintnMult);
    (Intn, Z.add, SafeIntnAdd);
    (Intn, Z.sub, SafeIntnSub);
    (Intn, Z.mul, SafeIntnMult) ].

(** ** Proofs *)

(** Bounds of the types as numbers. *)
Ltac int_bounds :=
  unfold Operand, Fits, MIN, MAX, ERROR in *; cbn [Unsigned Bits] in *;
  change (2 ^ (8 - 1)) with 128 in *; change (2 ^ (16 - 1)) with 32768 in *;
  change (2 ^ (32 - 1)) with 2147483648 in *; change (2 ^ (64 - 1)) with 9223372036854775808 in *;
  change (2 ^ 8) with 256 in *; change (2 ^ 16) with 65536 in *; change (2 ^ 32) with 4294967296 in *;
  change (2 ^ 64) with 18446744073709551616 in *.

(** Equality of two Boolean range checks. *)
Ltac same_check :=
  apply Bool.eq_iff_eq_true;
  rewrite ?negb_true_iff, ?orb_false_iff, ?andb_false_iff, ?andb_true_iff, ?Z.geb_le, ?Z.leb_le, ?Z.gtb_ltb, ?Z.ltb_lt,
    ?Z.ltb_ge, ?Z.leb_gt;
  first [lia | split; [intros; lia | intros; repeat split; lia]].

Lemma Cast_id t x : MIN t <= x <= MAX t -> Cast t x = x.
Proof.
  intros H. unfold Cast. destruct t; int_bounds; rewrite Z.mod_small by lia; lia.
Qed.

Lemma Fits_range t x : Fits t x = true -> MIN t <= x <= MAX t.
Proof. destruct t; int_bounds; intros H; bool_to_Z; lia. Qed.

Lemma Cast_fits t x : Fits t x = true -> Cast t x = x.
Proof. intros H. by apply Cast_id, Fits_range. Qed.

Lemma Convert_stores t b v e x :
  b = Fits t x -> (Fits t x = true -> v = x) -> (Fits t x = false -> e = ERROR t) ->
  Stores t (Fits t x) x (Convert b v e).
Proof. intros -> H1 H2. split; [done|]. unfold Convert. destruct (Fits t x); [by rewrite H1|by rewrite H2]. Qed.

Definition ConversionExact (c : IntType * IntType * (Z -> bool -> EFI_STATUS * option Z)) : Prop :=
  let '(src, dst, f) := c in forall x, Operand src x -> Stores dst (Fits dst x) x (f x).

(** Casts whose operand is in range disappear, the innermost first. *)
Ltac in_range_casts :=
  repeat match goal with
  | |- context [Cast ?t ?x] =>
    lazymatch x with context [Cast _ _] => fail | _ => idtac end;
    rewrite (Cast_id t x) by (int_bounds; bool_to_Z; nia)
  end.

Ltac unfold_call :=
  repeat lazymatch goal with
  | |- Stores _ _ _ (Convert _ _ _) => fail
  | |- Stores _ _ _ (?f _ _) => unfold f
  | |- Stores _ _ _ (?f _) => unfold f
  end.

(** A function that is one range check and a cast. *)
Ltac converts :=
  unfold_call; unfold MultS64x64; apply Convert_stores;
  [ in_range_casts; int_bounds; same_check
  | intros; in_range_casts; lia
  | intros; int_bounds; bool_to_Z; first [reflexivity | exfalso; lia] ].

(** A range check before the operation, for every type but CHAR8 vacuous. *)
Definition ArithmeticExact (c : IntType * (Z -> Z -> Z) * (Z -> Z -> bool -> EFI_STATUS * option Z)) : Prop :=
  let '(t, op, f) := c in
  forall x y, Operand t x -> Operand t y ->
  Stores t (Fits t x && Fits t y && Fits t (op x y)) (op x y) (f x y).

Lemma Operand_fits t x : t <> Char8 -> Operand t x -> Fits t x = true.
Proof. destruct t; intros; try done; int_bounds; apply andb_true_iff; rewrite !Z.leb_le; lia. Qed.

Lemma ArithmeticExact_plain t op f :
  t <> Char8 ->
  (forall x y, Operand t x -> Operand t y -> Stores t (Fits t (op x y)) (op x y) (f x y)) ->
  ArithmeticExact (t, op, f).
Proof. intros Ht H x y Hx Hy. rewrite !Operand_fits by done. cbn [andb]. by apply H. Qed.

(** Unsigned addition wraps below the first operand exactly on overflow. *)
Lemma Cast_add_check t x y :
  Unsigned t = true -> Operand t x -> Operand t y ->
  (Cast t (x + y) >=? x) = Fits t (x + y).
Proof.
  intros Ht Hx Hy. destruct (Fits t (x + y)) eqn:Hf.
  - rewrite Cast_fits by done. destruct t; try done; int_bounds; bool_to_Z; rewrite Z.geb_leb; apply Z.leb_le; lia.
  - assert (Hc : Cast t (x + y) = x + y - 2 ^ Bits t).
    { unfold Cast. rewrite Ht. symmetry. apply (Z.mod_unique _ _ 1); [left|];
        destruct t; try done; int_bounds; apply andb_false_iff in Hf; rewrite !Z.leb_gt in Hf; lia. }
    rewrite Hc, Z.geb_leb. apply Z.leb_gt. destruct t; try done; int_bounds; lia.
Qed.

Lemma unsigned_add t x y :
  Unsigned t = true -> Operand t x -> Operand t y ->
  Stores t (Fits t (x + y)) (x + y) (Convert (Cast t (x + y) >=? x) (Cast t (x + y)) (ERROR t)).
Proof.
  intros Ht Hx Hy. apply Convert_stores; [by apply Cast_add_check|apply Cast_fits|done].
Qed.

Lemma unsigned_sub t x y :
  Unsigned t = true -> Operand t x -> Operand t y ->
  Stores t (Fits t (x - y)) (x - y) (Convert (x >=? y) (Cast t (x - y)) (ERROR t)).
Proof.
  intros Ht Hx Hy. apply Convert_stores; [|apply Cast_fits|done].
  destruct t; try done; int_bounds; same_check.
Qed.

(** CHAR8: the operands are checked first, and the operation is done in INT32. *)
Lemma char8_arithmetic op f :
  (forall x y, 0 <= x <= 127 -> 0 <= y <= 127 -> -16384 <= op x y <= 16384) ->
  (forall x y, f x y = fun ResultIsNull : bool =>
     let x32 := Cast Int32 x in let y32 := Cast Int32 y in
     if ResultIsNull then (EFI_INVALID_PARAMETER, None)
     else if (x32 <? 0) || (x32 >? MAX Int8) then (EFI_BUFFER_TOO_SMALL, Some (ERROR Char8))
     else if (y32 <? 0) || (y32 >? MAX Int8) then (EFI_BUFFER_TOO_SMALL, Some (ERROR Char8))
     else SafeInt32ToChar8 (Cast Int32 (op x32 y32)) ResultIsNull) ->
  ArithmeticExact (Char8, op, f).
Proof.
  intros Hop Hf x y Hx Hy. rewrite Hf.
  assert (Hc : forall z, Operand Char8 z -> (z <? 0) || (z >? MAX Int8) = negb (Fits Char8 z)).
  { intros z _. int_bounds. by rewrite Z.gtb_ltb, !Z.ltb_antisym, negb_andb. }
  rewrite !(Cast_id Int32) by (int_bounds; lia). split; [done|]. cbn zeta.
  rewrite !Hc by done. destruct (Fits Char8 x) eqn:Fx, (Fits Char8 y) eqn:Fy; try done.
  cbn [negb andb]. specialize (Hop x y). assert (-16384 <= op x y <= 16384) by (int_bounds; bool_to_Z; lia).
  assert (Hs : Stores Char8 (Fits Char8 (op x y)) (op x y) (SafeInt32ToChar8 (Cast Int32 (op x y)))).
  { rewrite Cast_id by (int_bounds; lia). generalize (op x y), H. intros z Hz. converts. }
  apply Hs.
Qed.

(** ** 64-bit multiplication *)

Lemma high_dword_mask P :
  0 <= P < 2 ^ 64 -> (Z.land P 0xffffffff00000000 =? 0) = (P <? 2 ^ 32).
Proof.
  intros HP. assert (Hl : Z.land P 0xffffffff00000000 = Z.shiftl (Z.land (Z.shiftr P 32) (Z.ones 32)) 32).
  { apply Z.bits_inj'. intros n Hn. change 0xffffffff00000000 with (Z.shiftl (Z.ones 32) 32).
    rewrite Z.land_spec, !Z.shiftl_spec by lia.
    destruct (Z.lt_ge_cases n 32); [by rewrite !(Z.testbit_neg_r _ (n - 32)), andb_false_r by lia|].
    rewrite Z.land_spec, Z.shiftr_spec by lia. by replace (n - 32 + 32) with n by lia. }
  rewrite Hl, Z.land_ones, Z.shiftl_mul_pow2, Z.shiftr_div_pow2 by lia.
  rewrite Z.mod_small by (split; [apply Z.div_pos; lia|apply Z.div_lt_upper_bound; lia]).
  apply Bool.eq_iff_eq_true. rewrite Z.eqb_eq, Z.ltb_lt. split; intros H.
  - pose proof (Z.div_mod P (2 ^ 32)). pose proof (Z.mod_pos_bound P (2 ^ 32)). lia.
  - rewrite Z.div_small by lia. lia.
Qed.

(** The value of an unsigned 64-bit addition that has somewhere to go. *)
Lemma SafeUint64Add_value x y :
  Operand Uint64 x -> Operand Uint64 y ->
  SafeUint64Add x y false =
  if Fits Uint64 (x + y) then (EFI_SUCCESS, Some (x + y)) else (EFI_BUFFER_TOO_SMALL, Some (ERROR Uint64)).
Proof. intros Hx Hy. exact (proj2 (unsigned_add Uint64 x y eq_refl Hx Hy)). Qed.

Lemma dword_product A B : 0 <= A < 2 ^ 32 -> 0 <= B < 2 ^ 32 -> MultU64x64 A B = A * B /\ 0 <= A * B < 2 ^ 64.
Proof. intros. unfold MultU64x64. rewrite Cast_id by (int_bounds; nia). split; [done|int_bounds; nia]. Qed.

Lemma LShiftU64_small P : 0 <= P < 2 ^ 32 -> LShiftU64 P 32 = P * 2 ^ 32.
Proof. intros. unfold LShiftU64. rewrite Z.shiftl_mul_pow2 by lia. apply Cast_id. int_bounds. lia. Qed.

Lemma Fits_uint64 x : Fits Uint64 x = (0 <=? x) && (x <? 2 ^ 64).
Proof. int_bounds. same_check. Qed.

Lemma high_dword x : Operand Uint64 x -> Cast Uint32 (Z.shiftr x 32) = x / 2 ^ 32 /\ 0 <= x / 2 ^ 32 < 2 ^ 32.
Proof.
  intros Hx. rewrite Z.shiftr_div_pow2 by lia.
  assert (0 <= x / 2 ^ 32 < 2 ^ 32) by (int_bounds; split; [apply Z.div_pos; lia|apply Z.div_lt_upper_bound; lia]).
  split; [|done]. apply Cast_id. int_bounds. lia.
Qed.

(** The arithmetic of the four products. *)
Section Dwords.
Variables A B C D : Z.
Hypotheses (HA : 0 <= A < 2 ^ 32) (HB : 0 <= B < 2 ^ 32) (HC : 0 <= C < 2 ^ 32) (HD : 0 <= D < 2 ^ 32).
Let product : Z := (A * 2 ^ 32 + B) * (C * 2 ^ 32 + D).

Lemma dwords_overflow :
  1 <= A /\ 1 <= C \/ 2 ^ 32 <= A * D \/ 2 ^ 32 <= B * C -> Fits Uint64 product = false.
Proof.
  intros H. rewrite Fits_uint64. apply andb_false_iff. right. apply Z.ltb_ge. subst product.
  assert (0 <= A * C /\ 0 <= A * D /\ 0 <= B * C /\ 0 <= B * D) by nia.
  assert (1 <= A * C \/ 2 ^ 32 <= A * D \/ 2 ^ 32 <= B * C) by (destruct H as [?|[?|?]]; [left; nia|lia..]). lia.
Qed.

Lemma dwords_sum : A = 0 \/ C = 0 -> product = B * C * 2 ^ 32 + A * D * 2 ^ 32 + B * D.
Proof. subst product. intros [-> | ->]; lia. Qed.

Lemma dwords_value :
  (if (A =? 0) && (C =? 0) then (EFI_SUCCESS, Some (MultU64x64 B D))
   else if (A =? 0) || (C =? 0) then
     if Z.land (MultU64x64 A D) 0xffffffff00000000 =? 0 then
       if Z.land (MultU64x64 B C) 0xffffffff00000000 =? 0 then
         match SafeUint64Add (LShiftU64 (MultU64x64 B C) 32) (LShiftU64 (MultU64x64 A D) 32) false with
         | (EFI_SUCCESS, Some UnsignedResult) =>
           match SafeUint64Add UnsignedResult (MultU64x64 B D) false with
           | (EFI_SUCCESS, Some UnsignedResult) => (EFI_SUCCESS, Some UnsignedResult)
           | _ => (EFI_BUFFER_TOO_SMALL, Some (ERROR Uint64))
           end
         | _ => (EFI_BUFFER_TOO_SMALL, Some (ERROR Uint64))
         end
       else (EFI_BUFFER_TOO_SMALL, Some (ERROR Uint64))
     else (EFI_BUFFER_TOO_SMALL, Some (ERROR Uint64))
   else (EFI_BUFFER_TOO_SMALL, Some (ERROR Uint64))) =
  if Fits Uint64 product then (EFI_SUCCESS, Some product) else (EFI_BUFFER_TOO_SMALL, Some (ERROR Uint64)).
Proof.
  destruct (dword_product A D HA HD) as [-> ?], (dword_product B C HB HC) as [-> ?], (dword_product B D HB HD) as [-> ?].
  rewrite !high_dword_mask by done.
  destruct (Z.eqb_spec A 0) as [HA0|HA0], (Z.eqb_spec C 0) as [HC0|HC0]; cbn [andb orb].
  { assert (Hp : product = B * D) by (subst product; subst A C; lia).
    rewrite Hp, Fits_uint64, (proj2 (Z.leb_le _ _)), (proj2 (Z.ltb_lt _ _)) by lia. done. }
  3: { rewrite dwords_overflow by lia. done. }
  all: destruct (Z.ltb_spec (A * D) (2 ^ 32)); [|rewrite dwords_overflow by lia; done];
    destruct (Z.ltb_spec (B * C) (2 ^ 32)); [|rewrite dwords_overflow by lia; done];
    rewrite !LShiftU64_small by lia; rewrite dwords_sum by lia;
    (rewrite SafeUint64Add_value by (int_bounds; lia));
    (rewrite Fits_uint64, (proj2 (Z.leb_le _ _)), (proj2 (Z.ltb_lt _ _)) by (subst; lia)); cbn [andb];
    (rewrite SafeUint64Add_value by (int_bounds; subst; lia)); by destruct (Fits _ _).
Qed.
End Dwords.

Lemma SafeUint64Mult_stores x y :
  Operand Uint64 x -> Operand Uint64 y -> Stores Uint64 (Fits Uint64 (x * y)) (x * y) (SafeUint64Mult x y).
Proof.
  intros Hx Hy. split; [done|]. unfold SafeUint64Mult.
  destruct (high_dword x Hx) as [-> HA], (high_dword y Hy) as [-> HC].
  change (Cast Uint32 x) with (x mod 2 ^ 32). change (Cast Uint32 y) with (y mod 2 ^ 32). cbv zeta.
  pose proof (Z.mod_pos_bound x (2 ^ 32) eq_refl) as HB. pose proof (Z.mod_pos_bound y (2 ^ 32) eq_refl) as HD.
  assert (Ex : x = x / 2 ^ 32 * 2 ^ 32 + x mod 2 ^ 32) by (rewrite Z.mul_comm; by apply Z.div_mod).
  assert (Ey : y = y / 2 ^ 32 * 2 ^ 32 + y mod 2 ^ 32) by (rewrite Z.mul_comm; by apply Z.div_mod).
  rewrite (dwords_value _ _ _ _ HA HB HC HD). by rewrite <- Ex, <- Ey.
Qed.

(** The magnitude of a signed operand. *)
Lemma magnitude x :
  Operand Int64 x ->
  (if x <? 0 then Cast Uint64 (Cast Uint64 (- (x + 1)) + 1) else Cast Uint64 x) = Z.abs x /\ Operand Uint64 (Z.abs x).
Proof.
  intros Hx. split; [|int_bounds; lia].
  destruct (Z.ltb_spec x 0); rewrite !Cast_id; try (int_bounds; lia). rewrite Cast_id; int_bounds; lia.
Qed.

(** Putting the sign back on a product. *)
Lemma apply_sign z (same : bool) :
  (if same then 0 <= z else z <= 0) ->
  match (if Fits Uint64 (Z.abs z) then (EFI_SUCCESS, Some (Z.abs z)) else (EFI_BUFFER_TOO_SMALL, Some (ERROR Uint64))) with
  | (EFI_SUCCESS, Some UnsignedResult) =>
    if negb same then
      if UnsignedResult >? MIN_INT64_MAGNITUDE then (EFI_BUFFER_TOO_SMALL, Some (ERROR Int64))
      else if UnsignedResult =? MIN_INT64_MAGNITUDE then (EFI_SUCCESS, Some (MIN Int64))
      else (EFI_SUCCESS, Some (- Cast Int64 UnsignedResult))
    else
      if UnsignedResult >? MAX Int64 then (EFI_BUFFER_TOO_SMALL, Some (ERROR Int64))
      else (EFI_SUCCESS, Some (Cast Int64 UnsignedResult))
  | (Status, _) => (Status, Some (ERROR Int64))
  end =
  if Fits Int64 z then (EFI_SUCCESS, Some z) else (EFI_BUFFER_TOO_SMALL, Some (ERROR Int64)).
Proof.
  intros Hs. assert (Hu : Fits Uint64 (Z.abs z) = false -> Fits Int64 z = false).
  { intros H. int_bounds. apply andb_false_iff in H. rewrite !Z.leb_gt in H.
    apply andb_false_iff. rewrite !Z.leb_gt. lia. }
  destruct (Fits Uint64 (Z.abs z)); [clear Hu|by rewrite Hu].
  change MIN_INT64_MAGNITUDE with (2 ^ 63). change (MIN Int64) with (- 2 ^ 63). change (MAX Int64) with (2 ^ 63 - 1).
  assert (Hf : Fits Int64 z = (- 2 ^ 63 <=? z) && (z <=? 2 ^ 63 - 1)) by done.
  destruct same; cbn [negb]; rewrite Hf, Z.gtb_ltb;
    destruct (Z.ltb_spec (2 ^ 63) (Z.abs z)), (Z.ltb_spec (2 ^ 63 - 1) (Z.abs z)), (Z.eqb_spec (Z.abs z) (2 ^ 63)),
      (Z.leb_spec (- 2 ^ 63) z), (Z.leb_spec z (2 ^ 63 - 1)); try lia; cbn [andb]; try done;
    rewrite ?Cast_id by (int_bounds; lia); do 2 f_equal; lia.
Qed.

Lemma SafeInt64Mult_stores x y :
  Operand Int64 x -> Operand Int64 y -> Stores Int64 (Fits Int64 (x * y)) (x * y) (SafeInt64Mult x y).
Proof.
  intros Hx Hy. split; [done|]. unfold SafeInt64Mult. cbv zeta beta.
  destruct (magnitude x Hx) as [-> Ha], (magnitude y Hy) as [-> Hb].
  rewrite (proj2 (SafeUint64Mult_stores _ _ Ha Hb)), <- Z.abs_mul.
  apply apply_sign. destruct (Z.ltb_spec x 0), (Z.ltb_spec y 0); cbn; nia.
Qed.

(** UINTN and INTN are the 64-bit types. *)
Lemma native_arithmetic t s op f :
  (t, s) = (Uintn, Uint64) \/ (t, s) = (Intn, Int64) ->
  ArithmeticExact (s, op, f) -> ArithmeticExact (t, op, fun x y => f (Cast s x) (Cast s y)).
Proof.
  intros Hts H x y Hx Hy. destruct Hts as [E|E]; injection E as -> ->; rewrite !Cast_id by done; exact (H x y Hx Hy).
Qed.

(** The proof of one arithmetic function, by its shape. *)
Ltac plain_arithmetic :=
  apply ArithmeticExact_plain; [done|];
  first [ apply SafeUint64Mult_stores | apply SafeInt64Mult_stores
        | intros; first [by apply unsigned_add | by apply unsigned_sub | converts] ].

Ltac arithmetic :=
  first [ apply native_arithmetic; [by left|plain_arithmetic]
        | apply native_arithmetic; [by right|plain_arithmetic]
        | apply char8_arithmetic; [intros; nia|reflexivity]
        | plain_arithmetic ].

(** ** The theorems *)

(** C40: Every conversion of BaseSafeIntLib (for a 64-bit UINTN) is exact.  For
    every value of the source type, a NULL [Result] gives
    EFI_INVALID_PARAMETER and stores nothing; otherwise the function succeeds
    if and only if the value is in the range of the destination type, and then
    stores the same number, and on failure it returns
    EFI_BUFFER_TOO_SMALL and stores the type's error value. *)
Theorem SafeInt_conversions_exact : Forall ConversionExact Conversions.
Proof. unfold Conversions. repeat (constructor; [intros x Hx; converts|]). constructor. Qed.

(** C38: Every addition, subtraction and multiplication of BaseSafeIntLib is
    exact.  For all operands of the type, the function succeeds if and only if
    the mathematical result (and for CHAR8 each operand) is in the range of
    the type, and then stores the mathematical result; otherwise it returns
    EFI_BUFFER_TOO_SMALL and stores the error value; a NULL [Result] gives
    EFI_INVALID_PARAMETER. *)
Theorem SafeInt_arithmetic_exact : Forall ArithmeticExact Arithmetic.
Proof. unfold Arithmetic. repeat (constructor; [arithmetic|]). constructor. Qed.
