(* ===== verification/LinkedList.v ===== *)
(** * Doubly linked lists in memory

    [src/MdePkg/Library/BaseLib/LinkedList.c], on the heap: a store maps the
    address of a LIST_ENTRY to its two links, and every function reads and
    writes links through it, as the C code does.  The other components treat a
    LIST_ENTRY list as the sequence of its nodes; here the functions are shown
    to implement exactly that view.  [Ring] says that the nodes of a sequence,
    list head included, are linked into a circle, and the theorems say that
    inserting, removing and swapping nodes of circles do to the sequence what
    they promise and leave all other circles alone.

    [PcdMaximumLinkedListLength] and [PcdVerifyNodeInList] are parameters, and
    so is the fuel of the only loop without a bound of its own
    ([IsNodeInList] when the maximum length is 0): a circle of [n] nodes needs
    [n] rounds. *)
From Stdlib Require Import ZArith Lia.
From stdpp Require Import base option functions list sets.
From S2P Require Import Prelude.

#[local] Set Warnings "-clear-no-such-hyp".

(** ** Memory *)

Record LIST_ENTRY := MkLink { ForwardLink : Z; BackLink : Z }.

(** Address 0 is NULL. *)
Definition Store : Type := Z -> LIST_ENTRY.

Definition SetForwardLink (Entry Value : Z) (h : Store) : Store :=
  <[Entry := MkLink Value (BackLink (h Entry))]> h.
Definition SetBackLink (Entry Value : Z) (h : Store) : Store :=
  <[Entry := MkLink (ForwardLink (h Entry)) Value]> h.

Section Functions.
Variable PcdMaximumLinkedListLength : Z.
Variable PcdVerifyNodeInList : bool.
Variable Fuel : nat.

(** ** Validation *)

(** The counting loop of [InternalBaseLibIsListValid]; [Rounds] is what is
    left until [Count] reaches the maximum. *)
Fixpoint CountLoop (Rounds : nat) (List Ptr Count : Z) (h : Store) : Z :=
  match Rounds with
  | O => Count
  | S Rounds =>
    let Ptr := ForwardLink (h Ptr) in
    if Ptr =? List then Count + 1 else CountLoop Rounds List Ptr (Count + 1) h
  end.

Definition InternalBaseLibIsListValid (List : Z) (h : Store) : Outcome bool :=
  ASSERT (negb (List =? 0)) ;;
  ASSERT (negb (ForwardLink (h List) =? 0)) ;;
  ASSERT (negb (BackLink (h List) =? 0)) ;;
  Done (if 0 <? PcdMaximumLinkedListLength
        then CountLoop (Z.to_nat PcdMaximumLinkedListLength) List List 0 h <? PcdMaximumLinkedListLength
        else true).

(** The loop of [IsNodeInList]. *)
Fixpoint NodeLoop (fuel : nat) (FirstEntry SecondEntry Ptr Count : Z) (h : Store) : Outcome bool :=
  match fuel with
  | O => OutOfFuel
  | S fuel =>
    let Ptr := ForwardLink (h Ptr) in
    let Count := if 0 <? PcdMaximumLinkedListLength then Count + 1 else Count in
    if (0 <? PcdMaximumLinkedListLength) && (Count =? PcdMaximumLinkedListLength) then Done (Ptr =? SecondEntry)
    else if Ptr =? SecondEntry then Done true
    else if negb (Ptr =? FirstEntry) then NodeLoop fuel FirstEntry SecondEntry Ptr Count h
    else Done false
  end.

Definition IsNodeInList (FirstEntry SecondEntry : Z) (h : Store) : Outcome bool :=
  Valid ← InternalBaseLibIsListValid FirstEntry h;
  ASSERT Valid ;;
  ASSERT (negb (SecondEntry =? 0)) ;;
  NodeLoop Fuel FirstEntry SecondEntry FirstEntry 0 h.

Definition ASSERT_VERIFY_NODE_IN_VALID_LIST (FirstEntry SecondEntry : Z) (InList : bool) (h : Store) : Outcome unit :=
  if PcdVerifyNodeInList then
    Found ← IsNodeInList FirstEntry SecondEntry h;
    ASSERT (Bool.eqb InList Found)
  else
    Valid ← InternalBaseLibIsListValid FirstEntry h;
    ASSERT Valid.

(** ** The list functions *)

Definition InitializeListHead (ListHead : Z) (h : Store) : Outcome (Z * Store) :=
  ASSERT (negb (ListHead =? 0)) ;;
  Done (ListHead, SetBackLink ListHead ListHead (SetForwardLink ListHead ListHead h)).

Definition InsertHeadList (ListHead Entry : Z) (h : Store) : Outcome (Z * Store) :=
  ASSERT_VERIFY_NODE_IN_VALID_LIST ListHead Entry false h ;;
  let h := SetForwardLink Entry (ForwardLink (h ListHead)) h in
  let h := SetBackLink Entry ListHead h in
  let h := SetBackLink (ForwardLink (h Entry)) Entry h in
  let h := SetForwardLink ListHead Entry h in
  Done (ListHead, h).

Definition InsertTailList (ListHead Entry : Z) (h : Store) : Outcome (Z * Store) :=
  ASSERT_VERIFY_NODE_IN_VALID_LIST ListHead Entry false h ;;
  let h := SetForwardLink Entry ListHead h in
  let h := SetBackLink Entry (BackLink (h ListHead)) h in
  let h := SetForwardLink (BackLink (h Entry)) Entry h in
  let h := SetBackLink ListHead Entry h in
  Done (ListHead, h).

Definition GetFirstNode (List : Z) (h : Store) : Outcome Z :=
  Valid ← InternalBaseLibIsListValid List h;
  ASSERT Valid ;;
  Done (ForwardLink (h List)).

Definition GetNextNode (List Node : Z) (h : Store) : Outcome Z :=
  ASSERT_VERIFY_NODE_IN_VALID_LIST List Node true h ;;
  Done (ForwardLink (h Node)).

Definition GetPreviousNode (List Node : Z) (h : Store) : Outcome Z :=
  ASSERT_VERIFY_NODE_IN_VALID_LIST List Node true h ;;
  Done (BackLink (h Node)).

Definition IsListEmpty (ListHead : Z) (h : Store) : Outcome bool :=
  Valid ← InternalBaseLibIsListValid ListHead h;
  ASSERT Valid ;;
  Done (ForwardLink (h ListHead) =? ListHead).

Definition IsNull (List Node : Z) (h : Store) : Outcome bool :=
  ASSERT_VERIFY_NODE_IN_VALID_LIST List Node true h ;;
  Done (Node =? List).

Definition IsNodeAtEnd (List Node : Z) (h : Store) : Outcome bool :=
  ASSERT_VERIFY_NODE_IN_VALID_LIST List Node true h ;;
  Null ← IsNull List Node h;
  Done (negb Null && (BackLink (h List) =? Node)).

Definition RemoveEntryList (Entry : Z) (h : Store) : Outcome (Z * Store) :=
  Empty ← IsListEmpty Entry h;
  ASSERT (negb Empty) ;;
  let h := SetBackLink (ForwardLink (h Entry)) (BackLink (h Entry)) h in
  let h := SetForwardLink (BackLink (h Entry)) (ForwardLink (h Entry)) h in
  Done (ForwardLink (h Entry), h).

Definition SwapListEntries (FirstEntry SecondEntry : Z) (h : Store) : Outcome (Z * Store) :=
  if FirstEntry =? SecondEntry then Done (SecondEntry, h)
  else
    ASSERT_VERIFY_NODE_IN_VALID_LIST FirstEntry SecondEntry true h ;;
    '(Ptr, h) ← RemoveEntryList FirstEntry h;
    if BackLink (h Ptr) =? SecondEntry then InsertTailList SecondEntry FirstEntry h
    else
      '(Head, h) ← InsertHeadList SecondEntry FirstEntry h;
      if Ptr =? Head then Done (Ptr, h)
      else
        '(_, h) ← RemoveEntryList SecondEntry h;
        '(_, h) ← InsertTailList Ptr SecondEntry h;
        Done (SecondEntry, h).

(** ** Sequences of list operations *)

Inductive ListOp :=
| OpInitialize (Head : Z)
| OpInsertHead (Link Entry : Z)
| OpInsertTail (Link Entry : Z)
| OpRemove (Entry : Z)
| OpSwap (First Second : Z).

Definition RunOp (op : ListOp) (h : Store) : Outcome (Z * Store) :=
  match op with
  | OpInitialize Head => InitializeListHead Head h
  | OpInsertHead Link Entry => InsertHeadList Link Entry h
  | OpInsertTail Link Entry => InsertTailList Link Entry h
  | OpRemove Entry => RemoveEntryList Entry h
  | OpSwap First Second => SwapListEntries First Second h
  end.

Fixpoint RunOps (ops : list ListOp) (h : Store) : Outcome Store :=
  match ops with
  | [] => Done h
  | op :: ops => '(_, h) ← RunOp op h; RunOps ops h
  end.

(** The length the validation accepts. *)
Definition ShortEnough (l : list Z) : Prop :=
  PcdMaximumLinkedListLength = 0 \/ Z.of_nat (length l) < PcdMaximumLinkedListLength.

(** What an operation does to a collection of lists, each written as its head
    followed by its nodes. *)
Inductive ListStep : ListOp -> list (list Z) -> list (list Z) -> Prop :=
| StepInitialize Head Ls :
    Head <> 0 -> Head ∉ concat Ls -> ListStep (OpInitialize Head) Ls ([Head] :: Ls)
| StepInsertHead x e l1 l2 A B :
    e <> 0 -> e ∉ concat (A ++ (l1 ++ x :: l2) :: B) -> ShortEnough (l1 ++ x :: l2) ->
    ListStep (OpInsertHead x e) (A ++ (l1 ++ x :: l2) :: B) (A ++ (l1 ++ x :: e :: l2) :: B)
| StepInsertLast x e l A B :
    e <> 0 -> e ∉ concat (A ++ (x :: l) :: B) -> ShortEnough (x :: l) ->
    ListStep (OpInsertTail x e) (A ++ (x :: l) :: B) (A ++ (x :: l ++ [e]) :: B)
| StepInsertBefore x e Head l1 l2 A B :
    e <> 0 -> e ∉ concat (A ++ (Head :: l1 ++ x :: l2) :: B) -> ShortEnough (Head :: l1 ++ x :: l2) ->
    ListStep (OpInsertTail x e) (A ++ (Head :: l1 ++ x :: l2) :: B) (A ++ (Head :: l1 ++ e :: x :: l2) :: B)
| StepRemove e Head l1 l2 A B :
    ShortEnough (Head :: l1 ++ e :: l2) ->
    ListStep (OpRemove e) (A ++ (Head :: l1 ++ e :: l2) :: B) (A ++ (Head :: l1 ++ l2) :: B)
| StepSwap x y Head l1 l2 l3 A B :
    ShortEnough (Head :: l1 ++ x :: l2 ++ y :: l3) ->
    ListStep (OpSwap x y) (A ++ (Head :: l1 ++ x :: l2 ++ y :: l3) :: B) (A ++ (Head :: l1 ++ y :: l2 ++ x :: l3) :: B)
| StepSwapBack x y Head l1 l2 l3 A B :
    ShortEnough (Head :: l1 ++ x :: l2 ++ y :: l3) ->
    ListStep (OpSwap y x) (A ++ (Head :: l1 ++ x :: l2 ++ y :: l3) :: B) (A ++ (Head :: l1 ++ y :: l2 ++ x :: l3) :: B).

Inductive ListSteps : list ListOp -> list (list Z) -> list (list Z) -> Prop :=
| StepsNone Ls : ListSteps [] Ls Ls
| StepsMore op ops Ls1 Ls2 Ls3 :
    ListStep op Ls1 Ls2 -> ListSteps ops Ls2 Ls3 -> ListSteps (op :: ops) Ls1 Ls3.

End Functions.

(** ** Circles of nodes *)

(** The last node of [l], or [p] if there is none. *)
Fixpoint EndOf (p : Z) (l : list Z) : Z :=
  match l with [] => p | x :: r => EndOf x r end.

(** The nodes [l] are linked one after the other, after [p] and before [n]. *)
Fixpoint Segment (h : Store) (p : Z) (l : list Z) (n : Z) : Prop :=
  match l with
  | [] => True
  | x :: r => h x = MkLink (hd n r) p /\ Segment h x r n
  end.

(** The nodes [l] form a circle. *)
Definition Ring (h : Store) (l : list Z) : Prop :=
  NoDup l /\ (0 ∉ l) /\ match l with [] => False | x :: r => Segment h (EndOf x r) l x end.

(** The lists [Ls] are disjoint circles. *)
Definition Rings (h : Store) (Ls : list (list Z)) : Prop := Forall (Ring h) Ls /\ NoDup (concat Ls).

Lemma EndOf_app p l1 l2 : EndOf p (l1 ++ l2) = EndOf (EndOf p l1) l2.
Proof. revert p. induction l1; intros; cbn; auto. Qed.

Lemma EndOf_in x r : EndOf x r ∈ x :: r.
Proof. revert x. induction r as [|y r IH]; intros x; cbn; [by constructor|]. right. apply IH. Qed.

Lemma EndOf_ne x r : NoDup (x :: r) -> r <> [] -> EndOf x r <> x.
Proof.
  destruct r as [|y r]; [done|]. cbn. intros HD _ He. apply NoDup_cons in HD as [HD _]. apply HD.
  rewrite <- He. apply EndOf_in.
Qed.

Lemma hd_in (x : Z) r : hd x r ∈ x :: r.
Proof. destruct r; cbn; [by constructor|]. right. by constructor. Qed.

Lemma Segment_app h p l1 l2 n :
  Segment h p (l1 ++ l2) n <-> Segment h p l1 (hd n l2) /\ Segment h (EndOf p l1) l2 n.
Proof.
  revert p. induction l1 as [|x l1 IH]; intros p; cbn; [tauto|]. rewrite IH.
  replace (hd n (l1 ++ l2)) with (hd (hd n l2) l1) by (by destruct l1). tauto.
Qed.

Lemma Segment_ext h h' p l n : (forall a, a ∈ l -> h' a = h a) -> Segment h p l n -> Segment h' p l n.
Proof.
  revert p. induction l as [|x l IH]; intros p He; cbn; [done|]. intros [H1 H2]. split.
  - rewrite He by set_solver. done.
  - apply IH; [|done]. intros. apply He. set_solver.
Qed.

Lemma Ring_cons h x r :
  Ring h (x :: r) <-> NoDup (x :: r) /\ (0 ∉ x :: r) /\ h x = MkLink (hd x r) (EndOf x r) /\ Segment h x r x.
Proof. unfold Ring. cbn. tauto. Qed.

Lemma Ring_rotate h l1 l2 : Ring h (l1 ++ l2) -> Ring h (l2 ++ l1).
Proof.
  destruct l1 as [|x r1]; [by rewrite app_nil_r|]. destruct l2 as [|y r2]; [by rewrite app_nil_r|].
  intros (HD & H0 & HS). split_and!; [by rewrite Permutation_app_comm|by rewrite Permutation_app_comm|].
  cbn [app] in *. change (x :: r1 ++ y :: r2) with ((x :: r1) ++ y :: r2) in HS.
  change (y :: r2 ++ x :: r1) with ((y :: r2) ++ x :: r1). rewrite Segment_app in HS |- *.
  rewrite EndOf_app in *. cbn [EndOf hd] in *. tauto.
Qed.

Lemma Ring_at h l1 x l2 : Ring h (l1 ++ x :: l2) -> Ring h (x :: l2 ++ l1).
Proof. apply (Ring_rotate h l1 (x :: l2)). Qed.

(** ** What the writes do *)

(** [Entry] has been linked between [x] and the node after it. *)
Record LinkedAfter (h h' : Store) (x n e : Z) : Prop := {
  la_entry : h' e = MkLink n x;
  la_forward : ForwardLink (h' x) = e;
  la_back : BackLink (h' n) = e;
  la_x : x <> n -> BackLink (h' x) = BackLink (h x);
  la_n : x <> n -> ForwardLink (h' n) = ForwardLink (h n);
  la_other : forall a, a <> e -> a <> x -> a <> n -> h' a = h a
}.

Lemma link_eta k f b : ForwardLink k = f -> BackLink k = b -> k = MkLink f b.
Proof. destruct k; cbn. congruence. Qed.

Lemma ring_insert h h' x e r :
  Ring h (x :: r) -> e <> 0 -> e ∉ x :: r -> LinkedAfter h h' x (hd x r) e -> Ring h' (x :: e :: r).
Proof.
  rewrite !Ring_cons. intros (HD & H0 & HX & HS) He0 Hex [L1 L2 L3 L4 L5 L6].
  apply not_elem_of_cons in Hex as [Hne Her]. split_and!.
  - apply NoDup_cons in HD as [? ?]. rewrite !NoDup_cons, not_elem_of_cons. done.
  - rewrite !not_elem_of_cons in *. destruct H0. split_and!; [done|congruence|done].
  - cbn [hd EndOf]. apply link_eta; [done|]. destruct r as [|y r]; [exact L3|]. cbn [hd EndOf] in *.
    rewrite L4; [by rewrite HX|]. intros ->. apply NoDup_cons in HD as [HD _]. apply HD. constructor.
  - destruct r as [|y r]; [done|]. cbn [hd Segment] in *. destruct HS as [HY HS].
    apply NoDup_cons in HD as [Hxy HD]. apply NoDup_cons in HD as [Hy HD].
    apply not_elem_of_cons in Her as [? ?]. apply not_elem_of_cons in Hxy as [? ?].
    split_and!; [done|apply link_eta; [rewrite L5; [by rewrite HY|done]|done]|].
    apply (Segment_ext h); [|done]. intros a Ha. apply L6; intros ->; done.
Qed.

(** [Entry], linked between [p] and [n], has been taken out. *)
Record Unlinked (h h' : Store) (p n : Z) : Prop := {
  ul_forward : ForwardLink (h' p) = n;
  ul_back : BackLink (h' n) = p;
  ul_p : p <> n -> BackLink (h' p) = BackLink (h p);
  ul_n : p <> n -> ForwardLink (h' n) = ForwardLink (h n);
  ul_other : forall a, a <> p -> a <> n -> h' a = h a
}.

Lemma Segment_end h h' q r n :
  NoDup (q :: r) -> Segment h q r n ->
  (forall a, a ∈ r -> a <> EndOf q r -> h' a = h a) ->
  (r <> [] -> BackLink (h' (EndOf q r)) = BackLink (h (EndOf q r))) ->
  forall n', (r <> [] -> ForwardLink (h' (EndOf q r)) = n') -> Segment h' q r n'.
Proof.
  revert q. induction r as [|y r IH]; intros q HD HS HO HB n' HF; [done|].
  destruct HS as [HY HS]. apply NoDup_cons in HD as [_ HD]. cbn [EndOf] in *.
  pose proof (EndOf_ne y r HD) as Hin.
  split.
  - destruct r as [|z r]; cbn [hd EndOf] in *.
    + apply link_eta; [by apply HF|by rewrite HB, HY].
    + rewrite HO; [done|by constructor|by apply not_eq_sym, Hin].
  - apply IH; [done|done|intros; apply HO; [by right|done]|intros; by apply HB|intros; by apply HF].
Qed.

Lemma ring_remove h h' x y r :
  Ring h (x :: y :: r) -> Unlinked h h' (EndOf y r) y -> Ring h' (y :: r).
Proof.
  rewrite !Ring_cons. intros (HD & H0 & HX & HY & HS) [U1 U2 U3 U4 U5].
  apply NoDup_cons in HD as [Hx HD]. apply not_elem_of_cons in H0 as [_ H0].
  pose proof (EndOf_ne y r HD) as Hne.
  split_and!; [done|done| |].
  - apply link_eta; [|done]. destruct r as [|z r]; [exact U1|]. rewrite U4; [by rewrite HY|by apply Hne].
  - apply (Segment_end h _ _ _ x); [done|done| |by intros; apply U3, Hne|by intros].
    intros a Ha Hna. apply U5; [done|]. intros ->. apply NoDup_cons in HD as [HD _]. done.
Qed.

(** Evaluates reads after writes. *)
Ltac links :=
  unfold SetForwardLink, SetBackLink, insert, fn_insert;
  repeat (case_decide; subst; cbn [ForwardLink BackLink]); try done; try congruence.

Lemma insert_head_writes h x e n :
  n = ForwardLink (h x) -> e <> x -> e <> n ->
  let h1 := SetForwardLink e (ForwardLink (h x)) h in
  let h2 := SetBackLink e x h1 in
  let h3 := SetBackLink (ForwardLink (h2 e)) e h2 in
  LinkedAfter h (SetForwardLink x e h3) x n e.
Proof.
  intros Hn H1 H2 h1 h2 h3. assert (E : ForwardLink (h2 e) = n) by (unfold h2, h1; links).
  unfold h3. rewrite E. unfold h2, h1. rewrite <- Hn. clear h1 h2 h3 E. split; intros; links.
Qed.

Lemma insert_tail_writes h x e p :
  p = BackLink (h x) -> e <> x -> e <> p ->
  let h1 := SetForwardLink e x h in
  let h2 := SetBackLink e (BackLink (h1 x)) h1 in
  let h3 := SetForwardLink (BackLink (h2 e)) e h2 in
  LinkedAfter h (SetBackLink x e h3) p x e.
Proof.
  intros Hn H1 H2 h1 h2 h3. assert (E1 : BackLink (h1 x) = p) by (unfold h1; links).
  assert (E : BackLink (h2 e) = p) by (unfold h2; rewrite E1; links).
  unfold h3. rewrite E. unfold h2. rewrite E1. unfold h1. clear h1 h2 h3 E E1. split; intros; links.
Qed.

Lemma remove_writes h x p n :
  p = BackLink (h x) -> n = ForwardLink (h x) -> x <> p -> x <> n ->
  let h1 := SetBackLink (ForwardLink (h x)) (BackLink (h x)) h in
  let h2 := SetForwardLink (BackLink (h1 x)) (ForwardLink (h1 x)) h1 in
  Unlinked h h2 p n /\ ForwardLink (h2 x) = n.
Proof.
  intros Hp Hn H1 H2 h1 h2. assert (E : h1 x = h x) by (unfold h1; rewrite <- Hp, <- Hn; links).
  unfold h2. rewrite E. unfold h1. rewrite <- Hp, <- Hn. clear h1 h2 E.
  split; [|links]. split; intros; links.
Qed.

(** ** Validation *)

Section Validation.
Variable PcdMaximumLinkedListLength : Z.
Variable PcdVerifyNodeInList : bool.
Variable Fuel : nat.

Lemma count_loop h x r : forall q k c,
  ForwardLink (h q) = hd x r -> Segment h q r x -> x ∉ r ->
  CountLoop k x q c h = c + Z.min (Z.of_nat k) (Z.of_nat (length r) + 1).
Proof.
  induction r as [|y r IH]; intros q k c HQ HS Hx; (destruct k as [|k]; [cbn; lia|]); cbn [CountLoop]; rewrite HQ; cbn [hd].
  - rewrite Z.eqb_refl. cbn. lia.
  - apply not_elem_of_cons in Hx as [? Hx]. destruct HS as [HY HS].
    rewrite (proj2 (Z.eqb_neq y x)) by congruence. rewrite IH by (try done; by rewrite HY). cbn. lia.
Qed.

Lemma list_valid h x r :
  Ring h (x :: r) ->
  InternalBaseLibIsListValid PcdMaximumLinkedListLength x h =
  Done (if 0 <? PcdMaximumLinkedListLength then Z.of_nat (length (x :: r)) <? PcdMaximumLinkedListLength else true).
Proof.
  rewrite Ring_cons. intros (HD & H0 & HX & HS). unfold InternalBaseLibIsListValid. rewrite HX. cbn [ForwardLink BackLink].
  assert (HN : forall a, a ∈ x :: r -> (a =? 0) = false) by (intros a Ha; apply Z.eqb_neq; by intros ->).
  rewrite !HN by (first [apply hd_in|apply EndOf_in|constructor]). cbn [negb ASSERT mbind Outcome_bind].
  destruct (Z.ltb_spec 0 PcdMaximumLinkedListLength); [|done]. f_equal.
  rewrite (count_loop h x r) by (first [by rewrite HX|done|by apply NoDup_cons in HD as [? _]]).
  apply Bool.eq_iff_eq_true. rewrite !Z.ltb_lt. cbn [length]. lia.
Qed.

Lemma list_valid_short h x r :
  Ring h (x :: r) -> ShortEnough PcdMaximumLinkedListLength (x :: r) ->
  InternalBaseLibIsListValid PcdMaximumLinkedListLength x h = Done true.
Proof.
  intros HR HS. rewrite (list_valid h x r HR). f_equal. destruct (Z.ltb_spec 0 PcdMaximumLinkedListLength); [|done].
  apply Z.ltb_lt. unfold ShortEnough in HS. lia.
Qed.

Lemma node_loop h x y r : forall q fuel c,
  ForwardLink (h q) = hd x r -> Segment h q r x -> x ∉ r -> (length r < fuel)%nat ->
  PcdMaximumLinkedListLength = 0 \/ c + Z.of_nat (length r) + 1 < PcdMaximumLinkedListLength ->
  NodeLoop PcdMaximumLinkedListLength fuel x y q c h = Done (bool_decide (y = x \/ y ∈ r)).
Proof.
  induction r as [|z r IH]; intros q fuel c HQ HS Hx Hf HM; (destruct fuel as [|fuel]; [lia|]); cbn [NodeLoop]; cbv zeta;
    rewrite HQ; cbn [hd].
  all: rewrite (proj2 (andb_false_iff _ _)) by (rewrite Z.ltb_ge, Z.eqb_neq; cbn [length] in HM;
    destruct (Z.ltb_spec 0 PcdMaximumLinkedListLength); lia).
  - destruct (Z.eqb_spec x y) as [->|Hxy]; [by rewrite bool_decide_eq_true_2 by tauto|].
    rewrite Z.eqb_refl. cbn [negb]. rewrite bool_decide_eq_false_2; [done|]. rewrite elem_of_nil. intros [?|?]; congruence.
  - apply not_elem_of_cons in Hx as [? Hx]. destruct HS as [HZ HS].
    destruct (Z.eqb_spec z y) as [->|Hzy]; [by rewrite bool_decide_eq_true_2 by (right; constructor)|].
    rewrite (proj2 (Z.eqb_neq z x)) by congruence. cbn [negb]. cbn [length] in *.
    rewrite IH; [|by rewrite HZ|done|done|lia|destruct (Z.ltb_spec 0 PcdMaximumLinkedListLength); lia].
    f_equal. apply bool_decide_ext. rewrite elem_of_cons. split; [intuition|]. intros [?|[?|?]]; [tauto|congruence|tauto].
Qed.

Lemma node_in_list h x y r :
  Ring h (x :: r) -> ShortEnough PcdMaximumLinkedListLength (x :: r) -> (length (x :: r) <= Fuel)%nat -> y <> 0 ->
  IsNodeInList PcdMaximumLinkedListLength Fuel x y h = Done (bool_decide (y ∈ x :: r)).
Proof.
  intros HR HS HF Hy. unfold IsNodeInList. rewrite (list_valid_short h x r HR HS). cbn [mbind Outcome_bind ASSERT].
  rewrite (proj2 (Z.eqb_neq y 0)) by done. cbn [negb mbind Outcome_bind ASSERT].
  apply Ring_cons in HR as (HD & H0 & HX & HG). unfold ShortEnough in HS. cbn [length] in *.
  rewrite (node_loop h x y r); [|by rewrite HX|done|by apply NoDup_cons in HD as [? _]|lia|lia].
  f_equal. apply bool_decide_ext. by rewrite elem_of_cons.
Qed.

Lemma verify_node h x y r b :
  Ring h (x :: r) -> ShortEnough PcdMaximumLinkedListLength (x :: r) -> (length (x :: r) <= Fuel)%nat -> y <> 0 ->
  b = bool_decide (y ∈ x :: r) ->
  ASSERT_VERIFY_NODE_IN_VALID_LIST PcdMaximumLinkedListLength PcdVerifyNodeInList Fuel x y b h = Done tt.
Proof.
  intros HR HS HF Hy ->. unfold ASSERT_VERIFY_NODE_IN_VALID_LIST. destruct PcdVerifyNodeInList.
  - rewrite (node_in_list h x y r HR HS HF Hy). cbn [mbind Outcome_bind]. by rewrite Bool.eqb_reflx.
  - by rewrite (list_valid_short h x r HR HS).
Qed.

End Validation.

(** ** The functions on circles *)

Section Operations.
Variable PcdMaximumLinkedListLength : Z.
Variable PcdVerifyNodeInList : bool.
Variable Fuel : nat.

Local Abbreviation Short := (ShortEnough PcdMaximumLinkedListLength).
Local Abbreviation InsertHead := (InsertHeadList PcdMaximumLinkedListLength PcdVerifyNodeInList Fuel).
Local Abbreviation InsertTail := (InsertTailList PcdMaximumLinkedListLength PcdVerifyNodeInList Fuel).
Local Abbreviation Remove := (RemoveEntryList PcdMaximumLinkedListLength).
Local Abbreviation Swap := (SwapListEntries PcdMaximumLinkedListLength PcdVerifyNodeInList Fuel).

(** The function returns [v], links [l] into a circle and changes nothing else. *)
Definition Makes (f : Outcome (Z * Store)) (v : Z) (h : Store) (l : list Z) : Prop :=
  exists h', f = Done (v, h') /\ Ring h' l /\ forall a, a ∉ l -> h' a = h a.

Lemma LinkedAfter_frame h h' x n e (l : list Z) :
  LinkedAfter h h' x n e -> e ∈ l -> x ∈ l -> n ∈ l -> forall a, a ∉ l -> h' a = h a.
Proof. intros [_ _ _ _ _ L] He Hx Hn a Ha. apply L; intros ->; done. Qed.

Lemma insert_head_ring h x e r :
  Ring h (x :: r) -> Short (x :: r) -> (length (x :: r) <= Fuel)%nat -> e <> 0 -> e ∉ x :: r ->
  Makes (InsertHead x e h) x h (x :: e :: r).
Proof.
  intros HR HS HF He Hex. unfold InsertHeadList.
  rewrite (verify_node _ _ _ h x e r false HR HS HF He) by (by rewrite bool_decide_eq_false_2).
  cbn [mbind Outcome_bind]. eexists. split; [reflexivity|].
  pose proof HR as (_ & _ & HX & _)%Ring_cons.
  assert (HN : e <> x /\ e <> hd x r) by (split; intros ->; [|pose proof (hd_in x r)]; set_solver).
  assert (L : LinkedAfter h _ x (hd x r) e) by (apply insert_head_writes; [by rewrite HX|apply HN|apply HN]).
  split; [by apply (ring_insert h)|]. apply (LinkedAfter_frame _ _ _ _ _ _ L); [set_solver|set_solver|].
  pose proof (hd_in x r). set_solver.
Qed.

Lemma insert_tail_ring h x e r :
  Ring h (x :: r) -> Short (x :: r) -> (length (x :: r) <= Fuel)%nat -> e <> 0 -> e ∉ x :: r ->
  Makes (InsertTail x e h) x h (x :: r ++ [e]).
Proof.
  intros HR HS HF He Hex. unfold InsertTailList.
  rewrite (verify_node _ _ _ h x e r false HR HS HF He) by (by rewrite bool_decide_eq_false_2).
  cbn [mbind Outcome_bind]. eexists. split; [reflexivity|].
  pose proof HR as (_ & _ & HX & _)%Ring_cons. pose proof (EndOf_in x r) as HE.
  match goal with |- Ring ?g _ /\ _ => assert (L : LinkedAfter h g (EndOf x r) x e) end.
  { apply insert_tail_writes; [by rewrite HX|intros ->; apply Hex; constructor|intros ->; done]. }
  split; [|apply (LinkedAfter_frame _ _ _ _ _ _ L); set_solver].
  destruct r as [|z r _] using rev_ind; [by apply (ring_insert h)|].
  rewrite EndOf_app in L, HE. cbn [EndOf] in L, HE. rewrite <- app_assoc.
  apply (Ring_rotate _ [z; e] (x :: r)). apply (ring_insert h _ z e (x :: r)); [|done|set_solver|exact L].
  by apply (Ring_rotate _ (x :: r) [z]).
Qed.

Lemma remove_ring h x y r :
  Ring h (x :: y :: r) -> Short (x :: y :: r) -> Makes (Remove x h) y h (y :: r).
Proof.
  intros HR HS. unfold RemoveEntryList, IsListEmpty. rewrite (list_valid_short _ h x (y :: r) HR HS).
  pose proof HR as (HD & _ & HX & _)%Ring_cons. cbn [mbind Outcome_bind ASSERT].
  apply NoDup_cons in HD as [Hx HD].
  assert (HN : x <> y /\ x <> EndOf y r) by (pose proof (EndOf_in y r); split; intros Heq; rewrite Heq in Hx at 1; set_solver).
  rewrite HX at 1. cbn [ForwardLink hd]. rewrite (proj2 (Z.eqb_neq y x)) by (destruct HN; congruence).
  cbn [negb mbind Outcome_bind ASSERT].
  destruct (remove_writes h x (EndOf y r) y) as [U E]; [by rewrite HX|by rewrite HX|apply HN|apply HN|].
  cbv zeta in *. rewrite E. eexists. split; [reflexivity|]. split; [by apply (ring_remove h _ x)|].
  intros a Ha. apply (ul_other _ _ _ _ U); intros ->; [apply Ha, EndOf_in|apply Ha; constructor].
Qed.

(** Where the walk stands after the first node has been taken out of [x a y b]:
    [y] comes last in the rest if and only if [b] is empty. *)
Lemma swap_last h1 a (y : Z) b p r :
  a ++ y :: b = p :: r -> NoDup (p :: r) -> h1 p = MkLink (hd p r) (EndOf p r) ->
  (BackLink (h1 p) =? y) = match b with [] => true | _ => false end.
Proof.
  intros E HD ->. cbn [BackLink]. replace (EndOf p r) with (EndOf y b).
  - destruct b as [|z b]; [apply Z.eqb_refl|]. apply Z.eqb_neq, EndOf_ne; [|done].
    rewrite <- E in HD. by apply NoDup_app in HD as (_ & _ & HD).
  - change (EndOf p r) with (EndOf p (p :: r)). by rewrite <- E, EndOf_app.
Qed.

Lemma swap_first a (y : Z) b p r :
  a ++ y :: b = p :: r -> NoDup (p :: r) -> (p =? y) = match a with [] => true | _ => false end.
Proof.
  intros E HD. destruct a as [|z a]; injection E as <- <-; [apply Z.eqb_refl|].
  apply Z.eqb_neq. intros ->. apply NoDup_cons in HD as [HD _]. set_solver.
Qed.

Lemma swap_ring h x y a b :
  Ring h (x :: a ++ y :: b) -> Short (x :: a ++ y :: b) -> (length (x :: a ++ y :: b) <= Fuel)%nat ->
  Makes (Swap x y h) y h (y :: a ++ x :: b).
Proof.
  intros HR HS HF. pose proof HR as (HD & H0 & _). apply NoDup_cons in HD as [Hx HD].
  apply not_elem_of_cons in H0 as [Hx0 H0].
  assert (Hxy : x <> y) by (intros ->; set_solver). assert (Hy0 : y <> 0) by (intros ->; set_solver).
  assert (HS' : forall l, (length l <= length (a ++ y :: b))%nat -> Short l /\ (length l <= Fuel)%nat).
  { intros l Hl. unfold ShortEnough in *. rewrite ?length_cons in *. lia. }
  unfold SwapListEntries. rewrite (proj2 (Z.eqb_neq x y)) by done.
  rewrite (verify_node _ _ _ h x y (a ++ y :: b) true HR HS HF Hy0) by (rewrite bool_decide_eq_true_2; [done|set_solver]).
  cbn [mbind Outcome_bind].
  destruct (a ++ y :: b) as [|p r] eqn:Er; [by destruct a|].
  destruct (remove_ring h x p r HR HS) as (h1 & -> & R1 & F1). cbn [mbind Outcome_bind].
  pose proof R1 as (_ & _ & HP & _)%Ring_cons.
  rewrite (swap_last h1 a y b p r Er HD HP). rewrite <- Er in Hx, HS, HS', R1, F1.
  assert (R2 : Ring h1 (y :: b ++ a)) by (by apply Ring_at).
  destruct (HS' (y :: b ++ a)) as [HS1 HF1]; [rewrite !length_cons, !length_app, length_cons; lia|].
  assert (Hx1 : x ∉ y :: b ++ a) by set_solver.
  assert (Hy1 : y ∉ a ++ x :: b).
  { destruct R2 as (HD2 & _). apply NoDup_cons in HD2 as [HD2 _]. clear -HD2 Hxy. set_solver. }
  destruct b as [|z b].
  - destruct (insert_tail_ring h1 y x ([] ++ a) R2 HS1 HF1) as (h2 & -> & R3 & F3); [done|done|].
    exists h2. split_and!; [done|done|]. intros c Hc. rewrite F3, F1 by set_solver. done.
  - destruct (insert_head_ring h1 y x ((z :: b) ++ a) R2 HS1 HF1) as (h2 & -> & R3 & F3); [done|done|].
    cbn [mbind Outcome_bind]. rewrite (swap_first a y (z :: b) p r Er HD). destruct a as [|q a].
    + injection Er as <- _. exists h2. rewrite app_nil_r in R3. split_and!; [done|done|].
      intros c Hc. rewrite F3, F1 by set_solver. done.
    + injection Er as <- _.
      assert (HL : (length (x :: (z :: b) ++ q :: a) <= length ((q :: a) ++ y :: z :: b))%nat)
        by (rewrite !length_cons, !length_app, !length_cons; lia).
      destruct (remove_ring h2 y x ((z :: b) ++ q :: a) R3) as (h3 & -> & R4 & F4).
      { unfold ShortEnough in *. rewrite ?length_cons, ?length_app, ?length_cons in *. lia. }
      cbn [mbind Outcome_bind]. destruct (HS' _ HL) as [HS4 HF4].
      apply (Ring_rotate _ (x :: z :: b) (q :: a)) in R4.
      destruct (insert_tail_ring h3 q y (a ++ x :: z :: b) R4) as (h4 & -> & R5 & F5);
        [unfold ShortEnough in *; rewrite ?length_cons, ?length_app, ?length_cons in *; lia
        |rewrite ?length_cons, ?length_app, ?length_cons in *; lia|done|exact Hy1|].
      cbn [mbind Outcome_bind]. exists h4. split; [done|]. split.
      * apply (Ring_rotate _ ((q :: a) ++ x :: z :: b) [y]). exact R5.
      * clear -F1 F3 F4 F5. intros c Hc. rewrite F5, F4, F3, F1 by set_solver. done.
Qed.


(** ** Collections of lists *)

(** The node an operation adds. *)
Definition Added (op : ListOp) : list Z :=
  match op with
  | OpInitialize e | OpInsertHead _ e | OpInsertTail _ e => [e]
  | OpRemove _ | OpSwap _ _ => []
  end.

Lemma rings_split h A l B :
  Rings h (A ++ l :: B) ->
  Ring h l /\ Forall (Ring h) A /\ Forall (Ring h) B /\ NoDup (concat A ++ l ++ concat B).
Proof.
  intros [HF HD]. rewrite concat_app in HD. cbn in HD. apply Forall_app in HF as [HA HB]. by apply Forall_cons in HB as [HL HB].
Qed.

Lemma Ring_ext h h' l : (forall a, a ∈ l -> h' a = h a) -> Ring h l -> Ring h' l.
Proof. intros He (HD & H0 & HS). split_and!; [done|done|]. destruct l; [done|]. by apply (Segment_ext h). Qed.

Lemma rings_ext h h' Ls : (forall a, a ∈ concat Ls -> h' a = h a) -> Forall (Ring h) Ls -> Forall (Ring h') Ls.
Proof.
  intros He. induction 1 as [|l Ls HR _ IH]; constructor.
  - apply (Ring_ext h); [|done]. intros a Ha. apply He. cbn. apply elem_of_app. by left.
  - apply IH. intros a Ha. apply He. cbn. apply elem_of_app. by right.
Qed.

(** Replacing one of the lists. *)
Lemma rings_replace f v h A l B l' :
  Rings h (A ++ l :: B) -> (Ring h l -> Makes f v h l') ->
  (forall a, a ∈ l' -> a ∈ l \/ a ∉ concat A ++ concat B) ->
  exists h', f = Done (v, h') /\ Rings h' (A ++ l' :: B) /\ forall a, a ∉ l' -> h' a = h a.
Proof.
  intros HRs HM Hin. apply rings_split in HRs as (HR & HA & HB & HD). destruct (HM HR) as (h' & -> & HR' & HF).
  exists h'. split; [done|]. split; [|done].
  assert (HDis : forall a, a ∈ concat A ++ concat B -> a ∉ l').
  { intros a Ha Hl. destruct (Hin a Hl) as [Hl'|?]; [|done].
    apply NoDup_app in HD as (_ & HD1 & HD2). apply NoDup_app in HD2 as (_ & HD2 & _). set_solver. }
  split.
  - apply Forall_app. split; [|constructor; [done|]]; (eapply rings_ext; [|done]; intros a Ha; apply HF, HDis; set_solver).
  - rewrite concat_app. cbn. destruct HR' as (HD' & _). apply NoDup_app in HD as (HDA & HDAB & HD).
    apply NoDup_app in HD as (_ & HDl & HDB). rewrite !NoDup_app. split_and!; [done| |done| |done]; set_solver.
Qed.

Definition Rotation (l l' : list Z) : Prop := exists l1 l2, l = l1 ++ l2 /\ l' = l2 ++ l1.

(** A circle may be read from any of its nodes. *)
Lemma on_rotation f v h l r r' l' :
  Rotation l r -> Rotation r' l' ->
  (Ring h r -> Short r -> (length r <= Fuel)%nat -> Makes f v h r') ->
  Short l -> (length l <= Fuel)%nat -> Ring h l -> Makes f v h l'.
Proof.
  intros (l1 & l2 & -> & ->) (r1 & r2 & -> & ->) HM HS HF HR.
  assert (HL : length (l1 ++ l2) = length (l2 ++ l1)) by (rewrite !length_app; lia).
  destruct HM as (h' & E & HR' & Ho); [by apply Ring_rotate|unfold ShortEnough in *; by rewrite <- HL|by rewrite <- HL|].
  exists h'. split_and!; [done|by apply Ring_rotate|]. intros a Ha. apply Ho. by rewrite Permutation_app_comm.
Qed.

Ltac rotation a b := exists a, b; split; cbn [app]; rewrite <- ?app_assoc, ?app_nil_r; reflexivity.

Lemma length_member (A : list (list Z)) l B : (length l <= length (concat (A ++ l :: B)))%nat.
Proof. rewrite concat_app. cbn. rewrite !length_app. lia. Qed.

(** An operation that works on the list [l] of a collection, read as [r], and
    makes it [l'], read as [r']. *)
Lemma step_one op v h A l B r r' l' :
  Rings h (A ++ l :: B) -> Short l -> (length (concat (A ++ l :: B)) <= Fuel)%nat ->
  (forall a, a ∈ Added op -> a ∉ concat (A ++ l :: B)) ->
  Rotation l r -> Rotation r' l' -> (forall a, a ∈ r' -> a ∈ r \/ a ∈ Added op) ->
  ((forall a, a ∈ Added op -> a ∉ r) -> Ring h r -> Short r -> (length r <= Fuel)%nat ->
   Makes (RunOp PcdMaximumLinkedListLength PcdVerifyNodeInList Fuel op h) v h r') ->
  exists v h', RunOp PcdMaximumLinkedListLength PcdVerifyNodeInList Fuel op h = Done (v, h') /\ Rings h' (A ++ l' :: B) /\
    forall a, a ∉ concat (A ++ l :: B) -> a ∉ Added op -> h' a = h a.
Proof.
  intros HRs HS HF Hadd Hr Hr' Hin HM. pose proof (length_member A l B).
  assert (Pl : l ≡ₚ r) by (destruct Hr as (? & ? & -> & ->); apply Permutation_app_comm).
  assert (Pl' : r' ≡ₚ l') by (destruct Hr' as (? & ? & -> & ->); apply Permutation_app_comm).
  rewrite concat_app in *. cbn in *.
  destruct (rings_replace (RunOp PcdMaximumLinkedListLength PcdVerifyNodeInList Fuel op h) v h A l B l' HRs) as (h' & E & HR & Ho).
  - intros HR. apply (on_rotation _ _ _ l r r' l' Hr Hr'); [|done|lia|done]. apply HM. intros a Ha. specialize (Hadd a Ha).
    rewrite <- Pl. set_solver.
  - intros a. rewrite <- Pl'. intros Ha. destruct (Hin a Ha) as [Ha'|Ha']; [left; by rewrite Pl|right].
    specialize (Hadd a Ha'). set_solver.
  - exists v, h'. split_and!; [done|done|]. intros a Ha1 Ha2. apply Ho. rewrite <- Pl'. intros Ha.
    destruct (Hin a Ha) as [Ha'|Ha']; [|done]. rewrite <- Pl in Ha'. set_solver.
Qed.

Lemma initialize_step h Head Ls :
  Rings h Ls -> Head <> 0 -> Head ∉ concat Ls ->
  exists h', InitializeListHead Head h = Done (Head, h') /\ Rings h' ([Head] :: Ls) /\ forall a, a <> Head -> h' a = h a.
Proof.
  intros [HF HD] H0 Hn. unfold InitializeListHead. rewrite (proj2 (Z.eqb_neq Head 0)) by done. cbn.
  eexists. split; [reflexivity|].
  assert (HE : forall a, a <> Head -> SetBackLink Head Head (SetForwardLink Head Head h) a = h a) by (intros; links).
  split_and!; [|done]. split; [|by constructor].
  constructor; [|apply (rings_ext h); [|done]; intros; apply HE; set_solver].
  apply Ring_cons. split_and!; [apply NoDup_singleton|set_solver|links|done].
Qed.

Lemma list_step op Ls Ls' h :
  Rings h Ls -> ListStep PcdMaximumLinkedListLength op Ls Ls' -> (length (concat Ls) <= Fuel)%nat ->
  exists v h', RunOp PcdMaximumLinkedListLength PcdVerifyNodeInList Fuel op h = Done (v, h') /\ Rings h' Ls' /\
    forall a, a ∉ concat Ls -> a ∉ Added op -> h' a = h a.
Proof.
  intros HRs HS HF. destruct HS as [Head Ls H0 Hn|x e l1 l2 A B He Hn HS|x e l A B He Hn HS|x e Head l1 l2 A B He Hn HS
    |e Head l1 l2 A B HS|x y Head l1 l2 l3 A B HS|x y Head l1 l2 l3 A B HS].
  - destruct (initialize_step h Head Ls HRs H0 Hn) as (h' & E & HR & Ho). exists Head, h'. split_and!; [done|done|].
    intros a _ Ha. apply Ho. set_solver.
  - apply (step_one _ x _ _ _ _ (x :: l2 ++ l1) (x :: e :: l2 ++ l1));
      [done|done|done|set_solver|rotation l1 (x :: l2)|rotation (x :: e :: l2) l1|set_solver|].
    intros Hr HR HS' HF'. apply insert_head_ring; [done|done|done|done|apply Hr; set_solver].
  - apply (step_one _ x _ _ _ _ (x :: l) (x :: l ++ [e]));
      [done|done|done|set_solver|rotation (@nil Z) (x :: l)|rotation (@nil Z) (x :: l ++ [e])|set_solver|].
    intros Hr HR HS' HF'. apply insert_tail_ring; [done|done|done|done|apply Hr; set_solver].
  - apply (step_one _ x _ _ _ _ (x :: l2 ++ Head :: l1) (x :: (l2 ++ Head :: l1) ++ [e]));
      [done|done|done|set_solver|rotation (Head :: l1) (x :: l2)|rotation (x :: l2) (Head :: l1 ++ [e])|set_solver|].
    intros Hr HR HS' HF'. apply insert_tail_ring; [done|done|done|done|apply Hr; set_solver].
  - apply (step_one _ (hd 0 (l2 ++ Head :: l1)) _ _ _ _ (e :: l2 ++ Head :: l1) (l2 ++ Head :: l1));
      [done|done|done|set_solver|rotation (Head :: l1) (e :: l2)|rotation l2 (Head :: l1)|set_solver|].
    intros Hr HR HS' HF'. destruct l2 as [|y l2]; by apply remove_ring.
  - apply (step_one _ y _ _ _ _ (x :: l2 ++ y :: l3 ++ Head :: l1) (y :: l2 ++ x :: l3 ++ Head :: l1));
      [done|done|done|set_solver|rotation (Head :: l1) (x :: l2 ++ y :: l3)|rotation (y :: l2 ++ x :: l3) (Head :: l1)
      |set_solver|].
    intros Hr HR HS' HF'. by apply swap_ring.
  - apply (step_one _ x _ _ _ _ (y :: (l3 ++ Head :: l1) ++ x :: l2) (x :: (l3 ++ Head :: l1) ++ y :: l2));
      [done|done|done|set_solver|rotation (Head :: l1 ++ x :: l2) (y :: l3)|rotation (x :: l3) (Head :: l1 ++ y :: l2)
      |set_solver|].
    intros Hr HR HS' HF'. by apply swap_ring.
Qed.

(** ** The theorems *)

Local Abbreviation Run := (RunOps PcdMaximumLinkedListLength PcdVerifyNodeInList Fuel).
Local Abbreviation Steps := (ListSteps PcdMaximumLinkedListLength).

Lemma step_length op Ls Ls' :
  ListStep PcdMaximumLinkedListLength op Ls Ls' -> (length (concat Ls') <= S (length (concat Ls)))%nat.
Proof.
  destruct 1; rewrite ?concat_app; cbn [concat]; rewrite ?length_app; cbn [length app]; rewrite ?length_app; cbn [length];
    rewrite ?length_app; cbn [length]; lia.
Qed.

Lemma step_members op Ls Ls' :
  ListStep PcdMaximumLinkedListLength op Ls Ls' -> forall a, a ∈ concat Ls' -> a ∈ concat Ls \/ a ∈ Added op.
Proof. destruct 1; intros a; rewrite ?concat_app; cbn [concat Added]; set_solver. Qed.

(** C5: the list functions implement lists.  Any sequence of initializations,
    insertions, removals and swaps that is meaningful for a collection of
    disjoint lists (nodes inserted are new, nodes removed or swapped are in a
    list, no list reaches the maximum length) runs without a failed assertion
    on the linked nodes in memory, whatever the PCDs are; the memory then holds
    exactly the lists the operations should give, linked in both directions
    and disjoint, and nothing else has been written. *)
Theorem list_operations_refine ops Ls Ls' h :
  Rings h Ls -> Steps ops Ls Ls' -> (length (concat Ls) + length ops <= Fuel)%nat ->
  exists h', Run ops h = Done h' /\ Rings h' Ls' /\
    forall a, a ∉ concat Ls -> (forall op, op ∈ ops -> a ∉ Added op) -> h' a = h a.
Proof.
  intros HR HS. revert h HR. induction HS as [Ls|op ops Ls1 Ls2 Ls3 Hop _ IH]; intros h HR HF; [by exists h|].
  pose proof (step_length _ _ _ Hop). cbn [length] in HF.
  destruct (list_step op Ls1 Ls2 h HR Hop ltac:(lia)) as (v & h1 & E1 & R1 & F1).
  destruct (IH h1 R1 ltac:(lia)) as (h2 & E2 & R2 & F2). exists h2. cbn [RunOps]. rewrite E1. cbn [mbind Outcome_bind].
  split_and!; [done|done|]. intros a Ha Hops.
  assert (Ha2 : a ∉ Added op) by (apply Hops; constructor).
  rewrite F2, F1; [done|done|done| |intros; apply Hops; by right].
  pose proof (step_members _ _ _ Hop a). tauto.
Qed.

(** The loops in which the functions are used:
    [for (Link = GetFirstNode (List); !IsNull (List, Link); Link = GetNextNode (List, Link))]
    and the same backwards.  The nodes visited, in order. *)
Fixpoint Visit (Next : Z -> Z -> Store -> Outcome Z) (fuel : nat) (List Link : Z) (h : Store) : Outcome (list Z) :=
  match fuel with
  | O => OutOfFuel
  | S fuel =>
    Null ← IsNull PcdMaximumLinkedListLength PcdVerifyNodeInList Fuel List Link h;
    if (Null : bool) then Done []
    else
      Link' ← Next List Link h;
      Rest ← Visit Next fuel List Link' h;
      Done (Link :: Rest)
  end.

Local Abbreviation Next := (GetNextNode PcdMaximumLinkedListLength PcdVerifyNodeInList Fuel).
Local Abbreviation Previous := (GetPreviousNode PcdMaximumLinkedListLength PcdVerifyNodeInList Fuel).

Lemma ring_node h Head l1 x l2 :
  Ring h (Head :: l1 ++ x :: l2) -> h x = MkLink (hd Head l2) (EndOf Head l1).
Proof. intros (_ & _ & _ & HS)%Ring_cons. by apply Segment_app in HS as [_ [-> _]]. Qed.

Section Traversal.
Variables (h : Store) (Head : Z) (l : list Z).
Hypotheses (HR : Ring h (Head :: l)) (HS : Short (Head :: l)) (HF : (length (Head :: l) <= Fuel)%nat).

Lemma verify_member x :
  x ∈ Head :: l -> ASSERT_VERIFY_NODE_IN_VALID_LIST PcdMaximumLinkedListLength PcdVerifyNodeInList Fuel Head x true h = Done tt.
Proof using HR HS HF.
  intros Hx. apply (verify_node _ _ _ h Head x l); [done..| |by rewrite bool_decide_eq_true_2].
  destruct HR as (_ & H0 & _). by intros ->.
Qed.

Lemma is_null x : x ∈ Head :: l -> IsNull PcdMaximumLinkedListLength PcdVerifyNodeInList Fuel Head x h = Done (x =? Head).
Proof using HR HS HF. intros Hx. unfold IsNull. by rewrite (verify_member x Hx). Qed.

Lemma next_node x : x ∈ Head :: l -> Next Head x h = Done (ForwardLink (h x)).
Proof using HR HS HF. intros Hx. unfold GetNextNode. by rewrite (verify_member x Hx). Qed.

Lemma previous_node x : x ∈ Head :: l -> Previous Head x h = Done (BackLink (h x)).
Proof using HR HS HF. intros Hx. unfold GetPreviousNode. by rewrite (verify_member x Hx). Qed.

Lemma node_not_head x : x ∈ l -> (x =? Head) = false.
Proof using HR. intros Hx. apply Z.eqb_neq. intros ->. destruct HR as (HD & _). by apply NoDup_cons in HD as [? _]. Qed.

Lemma visit_forward l2 : forall l1 fuel,
  l = l1 ++ l2 -> (length l2 < fuel)%nat -> Visit Next fuel Head (hd Head l2) h = Done l2.
Proof using HR HS HF.
  induction l2 as [|x l2 IH]; intros l1 fuel El Hf; (destruct fuel as [|fuel]; [lia|]); cbn [Visit hd].
  - rewrite is_null by constructor. by rewrite Z.eqb_refl.
  - assert (Hx : x ∈ l) by (rewrite El; set_solver). rewrite is_null by (by right). cbn [mbind Outcome_bind].
    rewrite (node_not_head x Hx), next_node by (by right). cbn [mbind Outcome_bind].
    rewrite (ring_node h Head l1 x l2) by (by rewrite <- El). cbn [ForwardLink]. cbn [length] in Hf.
    rewrite (IH (l1 ++ [x]) fuel); [done|by rewrite <- app_assoc|lia].
Qed.

Lemma visit_backward l1 : forall l2 fuel,
  l = l1 ++ l2 -> (length l1 < fuel)%nat -> Visit Previous fuel Head (EndOf Head l1) h = Done (rev l1).
Proof using HR HS HF.
  induction l1 as [|x l1 IH] using rev_ind; intros l2 fuel El Hf; (destruct fuel as [|fuel]; [lia|]); cbn [Visit].
  - cbn [EndOf]. rewrite is_null by constructor. by rewrite Z.eqb_refl.
  - assert (Hx : x ∈ l) by (rewrite El; set_solver). rewrite EndOf_app. cbn [EndOf].
    rewrite is_null by (by right). cbn [mbind Outcome_bind].
    rewrite (node_not_head x Hx), previous_node by (by right). cbn [mbind Outcome_bind].
    rewrite <- app_assoc in El. cbn [app] in El. rewrite (ring_node h Head l1 x l2) by (by rewrite <- El). cbn [BackLink].
    rewrite length_app in Hf. cbn [length] in Hf. rewrite (IH (x :: l2) fuel); [|done|lia]. by rewrite rev_app_distr.
Qed.

(** Walking a list with [GetFirstNode], [GetNextNode] and [IsNull] visits
    exactly its nodes, in order, and ends; walking it backwards from
    [GetPreviousNode] of the head visits them in reverse; [IsListEmpty] says
    whether there are none, and [IsNodeAtEnd] recognises exactly the last one. *)
Theorem list_traversal fuel :
  (length l < fuel)%nat ->
  GetFirstNode PcdMaximumLinkedListLength Head h ≫= (fun Link => Visit Next fuel Head Link h) = Done l /\
  Previous Head Head h ≫= (fun Link => Visit Previous fuel Head Link h) = Done (rev l) /\
  IsListEmpty PcdMaximumLinkedListLength Head h = Done (bool_decide (l = [])) /\
  forall x, x ∈ l ->
    IsNodeAtEnd PcdMaximumLinkedListLength PcdVerifyNodeInList Fuel Head x h = Done (bool_decide (x = EndOf Head l)).
Proof using HR HS HF.
  intros Hf. pose proof HR as (_ & _ & HX & _)%Ring_cons. split_and!.
  - unfold GetFirstNode. rewrite (list_valid_short _ h Head l HR HS). cbn [mbind Outcome_bind ASSERT].
    rewrite HX. by apply (visit_forward l []).
  - rewrite previous_node by constructor. cbn [mbind Outcome_bind].
    rewrite HX. apply (visit_backward l []); [by rewrite app_nil_r|done].
  - unfold IsListEmpty. rewrite (list_valid_short _ h Head l HR HS). cbn [mbind Outcome_bind ASSERT]. rewrite HX. f_equal.
    cbn [ForwardLink]. pose proof node_not_head as HN. clear -HN.
    destruct l as [|y r]; cbn [hd]; [apply Z.eqb_refl|]. apply HN. constructor.
  - intros x Hx. unfold IsNodeAtEnd. rewrite verify_member by (by right). cbn [mbind Outcome_bind].
    rewrite is_null by (by right). cbn [mbind Outcome_bind]. rewrite (node_not_head x Hx), HX. cbn [negb andb BackLink].
    f_equal. apply Bool.eq_iff_eq_true. rewrite Z.eqb_eq, bool_decide_eq_true. split; congruence.
Qed.

(** The validation is exact: a list of [PcdMaximumLinkedListLength] nodes or
    more, head included, fails the assertion of every function that is given
    its head, before any link is written; a shorter one, or any list if the
    maximum is 0, is accepted. *)
Theorem list_length_checked e :
  0 < PcdMaximumLinkedListLength <= Z.of_nat (length (Head :: l)) ->
  InsertHead Head e h = Asserted /\ InsertTail Head e h = Asserted /\ Remove Head h = Asserted /\
  Next Head e h = Asserted /\ IsListEmpty PcdMaximumLinkedListLength Head h = Asserted.
Proof using HR.
  clear HS HF. intros HM.
  assert (HV : InternalBaseLibIsListValid PcdMaximumLinkedListLength Head h = Done false).
  { rewrite (list_valid _ h Head l HR), (proj2 (Z.ltb_lt _ _)), (proj2 (Z.ltb_ge _ _)); [done|lia|lia]. }
  unfold InsertHeadList, InsertTailList, RemoveEntryList, GetNextNode, IsListEmpty, ASSERT_VERIFY_NODE_IN_VALID_LIST,
    IsNodeInList. rewrite HV. by destruct PcdVerifyNodeInList.
Qed.

End Traversal.
End Operations.

(** ** A run *)

(** One list, its head at 100, and three nodes that come and go. *)
Definition SampleStore : Store := fun _ => MkLink 0 0.
Definition SampleOps : list ListOp :=
  [OpInitialize 100; OpInsertTail 100 1; OpInsertTail 100 2; OpInsertHead 100 3; OpInsertTail 1 4; OpSwap 3 1; OpRemove 4].
Definition SampleListed : Store :=
  match RunOps 1000 true 20 SampleOps SampleStore with Done h => h | _ => SampleStore end.

Lemma SampleOps_steps : ListSteps 1000 SampleOps [] [[100; 1; 3; 2]].
Proof.
  unfold SampleOps.
  eapply StepsMore; [apply StepInitialize; [done|set_solver]|].
  eapply StepsMore; [apply (StepInsertLast _ 100 1 [] [] []); [done|set_solver|right; done]|].
  eapply StepsMore; [apply (StepInsertLast _ 100 2 [1] [] []); [done|set_solver|right; done]|].
  eapply StepsMore; [apply (StepInsertHead _ 100 3 [] [1; 2] [] []); [done|set_solver|right; done]|].
  eapply StepsMore; [apply (StepInsertBefore _ 1 4 100 [3] [2] [] []); [done|set_solver|right; done]|].
  eapply StepsMore; [apply (StepSwap _ 3 1 100 [] [4] [2] [] []); right; done|].
  eapply StepsMore; [apply (StepRemove _ 4 100 [1] [3; 2] [] []); right; done|].
  apply StepsNone.
Qed.

Lemma list_operations_refine_witness :
  exists h', RunOps 1000 true 20 SampleOps SampleStore = Done h' /\ Rings h' [[100; 1; 3; 2]].
Proof.
  destruct (list_operations_refine 1000 true 20 SampleOps [] [[100; 1; 3; 2]] SampleStore) as (h' & E & HR & _).
  - split; constructor.
  - apply SampleOps_steps.
  - cbn. lia.
  - exists h'. exact (conj E HR).
Defined.

Lemma SampleListed_ring : Ring SampleListed [100; 1; 3; 2].
Proof. apply Ring_cons. split_and!; [by apply (bool_decide_unpack _)|by apply (bool_decide_unpack _)|vm_compute; reflexivity|].
  cbn [Segment hd]. split_and!; vm_compute; reflexivity.
Qed.

Lemma list_traversal_witness :
  GetFirstNode 1000 100 SampleListed ≫= (fun Link => Visit 1000 true 4 (GetNextNode 1000 true 4) 4 100 Link SampleListed)
  = Done [1; 3; 2].
Proof.
  refine (proj1 (list_traversal 1000 true 4 SampleListed 100 [1; 3; 2] SampleListed_ring _ _ 4 _)).
  - right. reflexivity.
  - cbn. lia.
  - cbn. lia.
Defined.

Lemma list_length_checked_witness : InsertTailList 3 false 0 100 7 SampleListed = Asserted.
Proof.
  refine (proj1 (proj2 (list_length_checked 3 false 0 SampleListed 100 [1; 3; 2] SampleListed_ring 7 _))). cbn. lia.
Defined.
