(* ===== verification/RbTree.v ===== *)
(** * Ordered collections as red-black trees in memory: the model

    [src/MdePkg/Library/BaseOrderedCollectionRedBlackTreeLib/
    BaseOrderedCollectionRedBlackTreeLib.c], on the heap.  A heap maps the
    addresses of the allocated nodes to their contents, address 0 is NULL, and
    every function reads and writes fields through it as the C code does.
    Following NULL or a pointer to a freed node gives [Asserted].  The DXE core
    keeps its set of handles in such a collection.

    Where the C code has two branches that mirror each other, the model has one
    body with a [Side] as argument.  The loops take [S (size h)] as fuel, more
    than the length of any path.  [PcdValidateOrderedCollection] and the pool
    are parameters; a freshly allocated node has arbitrary contents. *)
From Stdlib Require Import ZArith Lia.
From stdpp Require Import base option gmap list.
From S2P Require Import Prelude.

(** ** Data *)

Inductive RED_BLACK_TREE_COLOR := RedBlackTreeRed | RedBlackTreeBlack.

#[export] Instance RED_BLACK_TREE_COLOR_eq_dec : EqDecision RED_BLACK_TREE_COLOR.
Proof. solve_decision. Defined.

Definition IsRed (c : RED_BLACK_TREE_COLOR) : bool :=
  match c with RedBlackTreeRed => true | RedBlackTreeBlack => false end.

Record RED_BLACK_TREE_NODE := MkNode {
  UserStruct : Z;
  Parent : Z;
  Left : Z;
  Right : Z;
  Color : RED_BLACK_TREE_COLOR }.

Abbreviation Heap := (gmap Z RED_BLACK_TREE_NODE).

(** The comparators get pointers and return an INTN. *)
Record ORDERED_COLLECTION := MkCollection {
  Root : Z;
  UserStructCompare : Z -> Z -> Z;
  KeyCompare : Z -> Z -> Z }.

Definition SetRoot (v : Z) (Tree : ORDERED_COLLECTION) : ORDERED_COLLECTION :=
  MkCollection v (UserStructCompare Tree) (KeyCompare Tree).

Definition SetUserStruct (v : Z) (n : RED_BLACK_TREE_NODE) := MkNode v (Parent n) (Left n) (Right n) (Color n).
Definition SetParent (v : Z) (n : RED_BLACK_TREE_NODE) := MkNode (UserStruct n) v (Left n) (Right n) (Color n).
Definition SetLeft (v : Z) (n : RED_BLACK_TREE_NODE) := MkNode (UserStruct n) (Parent n) v (Right n) (Color n).
Definition SetRight (v : Z) (n : RED_BLACK_TREE_NODE) := MkNode (UserStruct n) (Parent n) (Left n) v (Color n).
Definition SetColor (c : RED_BLACK_TREE_COLOR) (n : RED_BLACK_TREE_NODE) :=
  MkNode (UserStruct n) (Parent n) (Left n) (Right n) c.

(** The two directions in which the code is written out. *)
Inductive Side := LeftSide | RightSide.

#[export] Instance Side_eq_dec : EqDecision Side.
Proof. solve_decision. Defined.

Definition Opposite (s : Side) : Side := match s with LeftSide => RightSide | RightSide => LeftSide end.
Definition ChildOn (s : Side) (n : RED_BLACK_TREE_NODE) : Z :=
  match s with LeftSide => Left n | RightSide => Right n end.
Definition SetChild (s : Side) (v : Z) : RED_BLACK_TREE_NODE -> RED_BLACK_TREE_NODE :=
  match s with LeftSide => SetLeft v | RightSide => SetRight v end.

(** ** Memory access *)

Definition ReadNode (p : Z) (h : Heap) : Outcome RED_BLACK_TREE_NODE :=
  match h !! p with Some n => Done n | None => Asserted end.

Definition WriteNode (p : Z) (f : RED_BLACK_TREE_NODE -> RED_BLACK_TREE_NODE) (h : Heap) : Outcome Heap :=
  n ← ReadNode p h;
  Done (<[p := f n]> h).

(** [if (p != NULL) p->Parent = v;] *)
Definition SetParentOf (p v : Z) (h : Heap) : Outcome Heap :=
  if negb (p =? 0) then WriteNode p (SetParent v) h else Done h.

(** ** Lookups *)

Definition OrderedCollectionUserStruct (Node : Z) (h : Heap) : Outcome Z :=
  n ← ReadNode Node h;
  Done (UserStruct n).

Definition OrderedCollectionIsEmpty (Tree : ORDERED_COLLECTION) : bool := Root Tree =? 0.

(** [while (Node->Left != NULL) Node = Node->Left;], or the same with [Right]. *)
Fixpoint ExtremeLoop (s : Side) (fuel : nat) (Node : Z) (h : Heap) : Outcome Z :=
  match fuel with
  | O => OutOfFuel
  | S fuel =>
    n ← ReadNode Node h;
    if ChildOn s n =? 0 then Done Node else ExtremeLoop s fuel (ChildOn s n) h
  end.

Definition Extreme (s : Side) (Tree : ORDERED_COLLECTION) (h : Heap) : Outcome Z :=
  if Root Tree =? 0 then Done 0 else ExtremeLoop s (S (size h)) (Root Tree) h.

Definition OrderedCollectionMin := Extreme LeftSide.
Definition OrderedCollectionMax := Extreme RightSide.

(** Ascends while the node is the child of its parent on side [s]. *)
Fixpoint AscendLoop (s : Side) (fuel : nat) (Child Walk : Z) (h : Heap) : Outcome Z :=
  match fuel with
  | O => OutOfFuel
  | S fuel =>
    if Walk =? 0 then Done Walk else
    w ← ReadNode Walk h;
    if Child =? ChildOn s w then AscendLoop s fuel Walk (Parent w) h else Done Walk
  end.

(** The neighbour of a node in the direction [s]. *)
Definition Neighbour (s : Side) (Node : Z) (h : Heap) : Outcome Z :=
  if Node =? 0 then Done 0 else
  n ← ReadNode Node h;
  if negb (ChildOn s n =? 0)
  then ExtremeLoop (Opposite s) (S (size h)) (ChildOn s n) h
  else AscendLoop s (S (size h)) Node (Parent n) h.

Definition OrderedCollectionNext := Neighbour RightSide.
Definition OrderedCollectionPrev := Neighbour LeftSide.

Fixpoint FindLoop (KeyCompare : Z -> Z -> Z) (StandaloneKey : Z) (fuel : nat) (Node : Z) (h : Heap) : Outcome Z :=
  match fuel with
  | O => OutOfFuel
  | S fuel =>
    if Node =? 0 then Done Node else
    n ← ReadNode Node h;
    let Result := KeyCompare StandaloneKey (UserStruct n) in
    if Result =? 0 then Done Node
    else FindLoop KeyCompare StandaloneKey fuel (if Result <? 0 then Left n else Right n) h
  end.

Definition OrderedCollectionFind (Tree : ORDERED_COLLECTION) (StandaloneKey : Z) (h : Heap) : Outcome Z :=
  FindLoop (KeyCompare Tree) StandaloneKey (S (size h)) (Root Tree) h.

(** ** Rotations *)

(** [if (Par == NULL) *NewRoot = New; else if (Old == Par->Left) Par->Left = New;
    else Par->Right = New;] *)
Definition ReplaceChild (Par Old New NewRoot : Z) (h : Heap) : Outcome (Z * Heap) :=
  if Par =? 0 then Done (New, h) else
  p ← ReadNode Par h;
  h ← WriteNode Par (if Old =? Left p then SetLeft New else SetRight New) h;
  Done (NewRoot, h).

(** Lifts the child of [Pivot] on side [s] into the place of [Pivot]. *)
Definition Rotate (s : Side) (Pivot NewRoot : Z) (h : Heap) : Outcome (Z * Heap) :=
  pivot ← ReadNode Pivot h;
  let Par := Parent pivot in
  let Lifted := ChildOn s pivot in
  lifted ← ReadNode Lifted h;
  let Inner := ChildOn (Opposite s) lifted in
  h ← WriteNode Pivot (SetChild s Inner) h;
  h ← SetParentOf Inner Pivot h;
  h ← WriteNode Lifted (SetParent Par) h;
  '(NewRoot, h) ← ReplaceChild Par Pivot Lifted NewRoot h;
  h ← WriteNode Lifted (SetChild (Opposite s) Pivot) h;
  h ← WriteNode Pivot (SetParent Lifted) h;
  Done (NewRoot, h).

Definition RedBlackTreeRotateRight := Rotate LeftSide.
Definition RedBlackTreeRotateLeft := Rotate RightSide.

(** The rotation that moves [Pivot] down to side [s]. *)
Definition RotateTowards (s : Side) : Z -> Z -> Heap -> Outcome (Z * Heap) :=
  match s with LeftSide => RedBlackTreeRotateLeft | RightSide => RedBlackTreeRotateRight end.

(** ** Validation *)

Definition NodeIsNullOrBlack (Node : Z) (h : Heap) : Outcome bool :=
  if Node =? 0 then Done true else
  n ← ReadNode Node h;
  Done (negb (IsRed (Color n))).

(** The heights are UINT32.  The check of property #1 holds by typing. *)
Fixpoint RedBlackTreeRecursiveCheck (fuel : nat) (Node : Z) (h : Heap) : Outcome Z :=
  match fuel with
  | O => OutOfFuel
  | S fuel =>
    if Node =? 0 then Done 1 else
    n ← ReadNode Node h;
    (if IsRed (Color n) then
       LeftBlack ← NodeIsNullOrBlack (Left n) h;
       ASSERT LeftBlack ;;
       RightBlack ← NodeIsNullOrBlack (Right n) h;
       ASSERT RightBlack
     else Done tt) ;;
    LeftHeight ← RedBlackTreeRecursiveCheck fuel (Left n) h;
    RightHeight ← RedBlackTreeRecursiveCheck fuel (Right n) h;
    ASSERT (LeftHeight =? RightHeight) ;;
    Done (((if IsRed (Color n) then 0 else 1) + LeftHeight) mod 2 ^ 32)
  end.

(** One of the two ordering loops; [InOrder] is its assertion. *)
Fixpoint OrderLoop (s : Side) (InOrder : Z -> Z -> bool) (fuel : nat) (Last Count : Z) (h : Heap) : Outcome Z :=
  match fuel with
  | O => OutOfFuel
  | S fuel =>
    Node ← Neighbour s Last h;
    if Node =? 0 then Done Count else
    l ← ReadNode Last h;
    n ← ReadNode Node h;
    ASSERT (InOrder (UserStruct l) (UserStruct n)) ;;
    OrderLoop s InOrder fuel Node ((Count + 1) mod 2 ^ 32) h
  end.

Definition RedBlackTreeValidate (Tree : ORDERED_COLLECTION) (h : Heap) : Outcome unit :=
  RootBlack ← NodeIsNullOrBlack (Root Tree) h;
  ASSERT RootBlack ;;
  BlackHeight ← RedBlackTreeRecursiveCheck (S (size h)) (Root Tree) h;
  Last ← OrderedCollectionMin Tree h;
  ForwardCount ← OrderLoop RightSide (fun a b => UserStructCompare Tree a b <? 0)
                   (S (size h)) Last (if Last =? 0 then 0 else 1) h;
  Last ← OrderedCollectionMax Tree h;
  BackwardCount ← OrderLoop LeftSide (fun a b => 0 <? UserStructCompare Tree a b)
                    (S (size h)) Last (if Last =? 0 then 0 else 1) h;
  ASSERT (ForwardCount =? BackwardCount).

Section Operations.
Variable PcdValidateOrderedCollection : bool.

(** What [AllocatePool] returns when [h] is in use: nothing, or the address and
    the contents of a new block. *)
Variable AllocatePool : Heap -> option (Z * RED_BLACK_TREE_NODE).

Definition ValidateIfEnabled (Tree : ORDERED_COLLECTION) (h : Heap) : Outcome unit :=
  if PcdValidateOrderedCollection then RedBlackTreeValidate Tree h else Done tt.

(** [Available] is whether the pool has room for the ORDERED_COLLECTION. *)
Definition OrderedCollectionInit (Available : bool) (UserStructCompare KeyCompare : Z -> Z -> Z) (h : Heap)
  : Outcome (option ORDERED_COLLECTION) :=
  if negb Available then Done None else
  let Tree := MkCollection 0 UserStructCompare KeyCompare in
  ValidateIfEnabled Tree h ;;
  Done (Some Tree).

Definition OrderedCollectionUninit (Tree : ORDERED_COLLECTION) : Outcome unit :=
  ASSERT (OrderedCollectionIsEmpty Tree).

(** ** Insertion *)

(** The search loop: the colliding node or NULL, the last node examined and the
    last result of the comparison. *)
Fixpoint InsertSearch (Compare : Z -> Z -> Z) (User : Z) (fuel : nat) (Tmp Par Result : Z) (h : Heap)
  : Outcome (Z * Z * Z) :=
  match fuel with
  | O => OutOfFuel
  | S fuel =>
    if Tmp =? 0 then Done (Tmp, Par, Result) else
    n ← ReadNode Tmp h;
    let Result := Compare User (UserStruct n) in
    if Result =? 0 then Done (Tmp, Par, Result)
    else InsertSearch Compare User fuel (if Result <? 0 then Left n else Right n) Tmp Result h
  end.

(** One round of the loop that restores property #3, for a parent that is the
    child of the grandparent on side [s]. *)
Definition InsertFixupStep (s : Side) (Tmp Par GrandParent NewRoot : Z) (h : Heap)
  : Outcome (Z * Z * Z * Heap) :=
  g ← ReadNode GrandParent h;
  let Uncle := ChildOn (Opposite s) g in
  UncleBlack ← NodeIsNullOrBlack Uncle h;
  if negb UncleBlack then
    h ← WriteNode Par (SetColor RedBlackTreeBlack) h;
    h ← WriteNode Uncle (SetColor RedBlackTreeBlack) h;
    h ← WriteNode GrandParent (SetColor RedBlackTreeRed) h;
    g ← ReadNode GrandParent h;
    Done (GrandParent, Parent g, NewRoot, h)
  else
    p ← ReadNode Par h;
    '(Tmp, Par, NewRoot, h) ←
      (if Tmp =? ChildOn (Opposite s) p then
         '(NewRoot, h) ← RotateTowards s Par NewRoot h;
         t ← ReadNode Par h;
         p ← ReadNode (Parent t) h;
         ASSERT (GrandParent =? Parent p) ;;
         Done (Par, Parent t, NewRoot, h)
       else Done (Tmp, Par, NewRoot, h));
    h ← WriteNode Par (SetColor RedBlackTreeBlack) h;
    h ← WriteNode GrandParent (SetColor RedBlackTreeRed) h;
    '(NewRoot, h) ← RotateTowards (Opposite s) GrandParent NewRoot h;
    Done (Tmp, Par, NewRoot, h).

Fixpoint InsertFixup (fuel : nat) (Tmp Par NewRoot : Z) (h : Heap) : Outcome (Z * Heap) :=
  match fuel with
  | O => OutOfFuel
  | S fuel =>
    if Tmp =? NewRoot then Done (NewRoot, h) else
    p ← ReadNode Par h;
    if negb (IsRed (Color p)) then Done (NewRoot, h) else
    g ← ReadNode (Parent p) h;
    '(Tmp, Par, NewRoot, h) ←
      InsertFixupStep (if Par =? Left g then LeftSide else RightSide) Tmp Par (Parent p) NewRoot h;
    InsertFixup fuel Tmp Par NewRoot h
  end.

(** Links the new node below [Par] and restores the tree. *)
Definition InsertLink (Tree : ORDERED_COLLECTION) (Tmp Par Result User : Z) (h : Heap)
  : Outcome (ORDERED_COLLECTION * Heap) :=
  h ← WriteNode Tmp (SetUserStruct User) h;
  h ← WriteNode Tmp (SetParent Par) h;
  h ← WriteNode Tmp (SetLeft 0) h;
  h ← WriteNode Tmp (SetRight 0) h;
  if Par =? 0 then
    h ← WriteNode Tmp (SetColor RedBlackTreeBlack) h;
    Done (SetRoot Tmp Tree, h)
  else
    h ← WriteNode Par (SetChild (if Result <? 0 then LeftSide else RightSide) Tmp) h;
    h ← WriteNode Tmp (SetColor RedBlackTreeRed) h;
    '(NewRoot, h) ← InsertFixup (S (size h)) Tmp Par (Root Tree) h;
    h ← WriteNode NewRoot (SetColor RedBlackTreeBlack) h;
    Done (SetRoot NewRoot Tree, h).

(** The second component is what is stored through the optional [Node]
    argument, if anything. *)
Definition OrderedCollectionInsert (Tree : ORDERED_COLLECTION) (User : Z) (h : Heap)
  : Outcome (EFI_STATUS * option Z * ORDERED_COLLECTION * Heap) :=
  '(Tmp, Par, Result) ← InsertSearch (UserStructCompare Tree) User (S (size h)) (Root Tree) 0 0 h;
  '(Status, Node, Tree, h) ←
    (if negb (Tmp =? 0) then Done (EFI_ALREADY_STARTED, Some Tmp, Tree, h)
     else match AllocatePool h with
          | None => Done (EFI_OUT_OF_RESOURCES, None, Tree, h)
          | Some (Tmp, Contents) =>
            '(Tree, h) ← InsertLink Tree Tmp Par Result User (<[Tmp := Contents]> h);
            Done (EFI_SUCCESS, Some Tmp, Tree, h)
          end);
  ValidateIfEnabled Tree h ;;
  Done (Status, Node, Tree, h).

(** ** Deletion *)

(** Finds the successor of a node with two children, unlinks it from its place
    and makes it the parent of [OrigRightChild] (unless it is that node).  The
    results are [ToRelink], [Parent] and [Child]. *)
Definition UnlinkSuccessor (OrigRightChild : Z) (h : Heap) : Outcome (Z * Z * Z * Heap) :=
  r ← ReadNode OrigRightChild h;
  if Left r =? 0 then Done (OrigRightChild, OrigRightChild, Right r, h)
  else
    ToRelink ← ExtremeLoop LeftSide (S (size h)) (Left r) h;
    t ← ReadNode ToRelink h;
    let Par := Parent t in
    let Child := Right t in
    h ← WriteNode Par (SetLeft Child) h;
    h ← SetParentOf Child Par h;
    h ← WriteNode ToRelink (SetRight OrigRightChild) h;
    h ← WriteNode OrigRightChild (SetParent ToRelink) h;
    Done (ToRelink, Par, Child, h).

(** Links the successor [ToRelink] into the place of [Node].  The results are
    [NewRoot] and [ColorOfUnlinked]. *)
Definition LinkSuccessor (Node ToRelink OrigLeftChild OrigParent NewRoot : Z) (h : Heap)
  : Outcome (Z * RED_BLACK_TREE_COLOR * Heap) :=
  h ← WriteNode ToRelink (SetLeft OrigLeftChild) h;
  h ← WriteNode OrigLeftChild (SetParent ToRelink) h;
  t ← ReadNode ToRelink h;
  let ColorOfUnlinked := Color t in
  node ← ReadNode Node h;
  h ← WriteNode ToRelink (SetColor (Color node)) h;
  h ← WriteNode ToRelink (SetParent OrigParent) h;
  '(NewRoot, h) ← ReplaceChild OrigParent Node ToRelink NewRoot h;
  Done (NewRoot, ColorOfUnlinked, h).

(** The results are [NewRoot], [Child], [Parent] and [ColorOfUnlinked]. *)
Definition DeleteUnlink (Node NewRoot : Z) (node : RED_BLACK_TREE_NODE) (h : Heap)
  : Outcome (Z * Z * Z * RED_BLACK_TREE_COLOR * Heap) :=
  if (Left node =? 0) || (Right node =? 0) then
    let Par := Parent node in
    let Child := if negb (Left node =? 0) then Left node else Right node in
    h ← SetParentOf Child Par h;
    '(NewRoot, h) ← ReplaceChild Par Node Child NewRoot h;
    Done (NewRoot, Child, Par, Color node, h)
  else
    '(ToRelink, Par, Child, h) ← UnlinkSuccessor (Right node) h;
    '(NewRoot, ColorOfUnlinked, h) ← LinkSuccessor Node ToRelink (Left node) (Parent node) NewRoot h;
    Done (NewRoot, Child, Par, ColorOfUnlinked, h).

(** Finds a black sibling of the [Child] on side [s] of [Par]: a red one is
    rotated up first.  The results are [Sibling] and [NewRoot]. *)
Definition DeleteBlackSibling (s : Side) (Par NewRoot : Z) (h : Heap) : Outcome (Z * Z * Heap) :=
  p ← ReadNode Par h;
  let Sibling := ChildOn (Opposite s) p in
  ASSERT (negb (Sibling =? 0)) ;;
  sib ← ReadNode Sibling h;
  if IsRed (Color sib) then
    h ← WriteNode Sibling (SetColor RedBlackTreeBlack) h;
    h ← WriteNode Par (SetColor RedBlackTreeRed) h;
    '(NewRoot, h) ← RotateTowards s Par NewRoot h;
    p ← ReadNode Par h;
    let Sibling := ChildOn (Opposite s) p in
    ASSERT (negb (Sibling =? 0)) ;;
    Done (Sibling, NewRoot, h)
  else Done (Sibling, NewRoot, h).

(** Makes the nephew on the far side of [Child] red if only the near one is. The
    results are [Sibling], the far nephew and [NewRoot]. *)
Definition DeleteRedFarNephew (s : Side) (Par Sibling Near Far NewRoot : Z) (h : Heap)
  : Outcome (Z * Z * Z * Heap) :=
  FarBlack ← NodeIsNullOrBlack Far h;
  if FarBlack : bool then
    h ← WriteNode Near (SetColor RedBlackTreeBlack) h;
    h ← WriteNode Sibling (SetColor RedBlackTreeRed) h;
    '(NewRoot, h) ← RotateTowards (Opposite s) Sibling NewRoot h;
    p ← ReadNode Par h;
    let Sibling := ChildOn (Opposite s) p in
    sib ← ReadNode Sibling h;
    Done (Sibling, ChildOn (Opposite s) sib, NewRoot, h)
  else Done (Sibling, Far, NewRoot, h).

(** Flushes the black-increment into the red far nephew. *)
Definition DeleteFlush (s : Side) (Par Sibling Far NewRoot : Z) (h : Heap) : Outcome (Z * Z * Z * Heap) :=
  ASSERT (negb (Far =? 0)) ;;
  far ← ReadNode Far h;
  ASSERT (IsRed (Color far)) ;;
  ASSERT (negb (Sibling =? 0)) ;;
  sib ← ReadNode Sibling h;
  ASSERT (negb (IsRed (Color sib))) ;;
  p ← ReadNode Par h;
  h ← WriteNode Sibling (SetColor (Color p)) h;
  h ← WriteNode Par (SetColor RedBlackTreeBlack) h;
  h ← WriteNode Far (SetColor RedBlackTreeBlack) h;
  '(NewRoot, h) ← RotateTowards s Par NewRoot h;
  Done (NewRoot, Par, NewRoot, h).

(** One round of the loop that carries the black-increment up, for a [Child] on
    side [s] of its parent.  The results are [Child], [Parent], [NewRoot]. *)
Definition DeleteFixupStep (s : Side) (Par NewRoot : Z) (h : Heap) : Outcome (Z * Z * Z * Heap) :=
  '(Sibling, NewRoot, h) ← DeleteBlackSibling s Par NewRoot h;
  sib ← ReadNode Sibling h;
  ASSERT (negb (IsRed (Color sib))) ;;
  let Near := ChildOn s sib in
  let Far := ChildOn (Opposite s) sib in
  NearBlack ← NodeIsNullOrBlack Near h;
  BothBlack ← (if NearBlack : bool then NodeIsNullOrBlack Far h else Done false);
  if BothBlack : bool then
    h ← WriteNode Sibling (SetColor RedBlackTreeRed) h;
    p ← ReadNode Par h;
    Done (Par, Parent p, NewRoot, h)
  else
    '(Sibling, Far, NewRoot, h) ← DeleteRedFarNephew s Par Sibling Near Far NewRoot h;
    DeleteFlush s Par Sibling Far NewRoot h.

Fixpoint DeleteFixup (fuel : nat) (Child Par NewRoot : Z) (h : Heap) : Outcome (Z * Z * Heap) :=
  match fuel with
  | O => OutOfFuel
  | S fuel =>
    if Child =? NewRoot then Done (Child, NewRoot, h) else
    ChildBlack ← NodeIsNullOrBlack Child h;
    if negb ChildBlack then Done (Child, NewRoot, h) else
    p ← ReadNode Par h;
    '(Child, Par, NewRoot, h) ←
      DeleteFixupStep (if Child =? Left p then LeftSide else RightSide) Par NewRoot h;
    DeleteFixup fuel Child Par NewRoot h
  end.

(** The result has the user structure that the deleted node linked. *)
Definition OrderedCollectionDelete (Tree : ORDERED_COLLECTION) (Node : Z) (h : Heap)
  : Outcome (Z * ORDERED_COLLECTION * Heap) :=
  node ← ReadNode Node h;
  '(NewRoot, Child, Par, ColorOfUnlinked, h) ← DeleteUnlink Node (Root Tree) node h;
  let h := delete Node h in
  '(NewRoot, h) ←
    (if IsRed ColorOfUnlinked then Done (NewRoot, h)
     else
       '(Child, NewRoot, h) ← DeleteFixup (S (S (size h))) Child Par NewRoot h;
       h ← (if negb (Child =? 0) then WriteNode Child (SetColor RedBlackTreeBlack) h else Done h);
       Done (NewRoot, h));
  let Tree := SetRoot NewRoot Tree in
  ValidateIfEnabled Tree h ;;
  Done (UserStruct node, Tree, h).
End Operations.
