(* ===== verification/RbShape.v ===== *)
(** * Red-black trees in memory: shape

    The abstract view of the heap of RbTree.v: [tree] is a binary search tree
    whose nodes carry their address, [TreeAt h T] says that the nodes of [T]
    are linked in [h] as [T] prescribes, and a [ctx] (a zipper) is the part of a
    tree above one of its nodes.  [Moves] relates heaps that hold trees with
    the same entries in the same order; rotations and changes of color are
    such moves.  The walks ([OrderedCollectionMin], [OrderedCollectionNext],
    ...) are shown to follow the in-order sequence. *)
From Stdlib Require Import ZArith Lia.
From stdpp Require Import base option gmap list sets.
From S2P Require Import Prelude RbTree.

#[local] Set Warnings "-clear-no-such-hyp".

(** ** Trees *)

Inductive tree :=
| Leaf
| Node (c : RED_BLACK_TREE_COLOR) (l : tree) (a u : Z) (r : tree).

#[export] Instance tree_eq_dec : EqDecision tree.
Proof. solve_decision. Defined.

Definition addr (t : tree) : Z := match t with Leaf => 0 | Node _ _ a _ _ => a end.

(** The entries in order: address of the node, user structure. *)
Fixpoint entries (t : tree) : list (Z * Z) :=
  match t with Leaf => [] | Node _ l a u r => entries l ++ (a, u) :: entries r end.

Definition addrs (t : tree) : list Z := (entries t).*1.

Fixpoint height (t : tree) : nat :=
  match t with Leaf => 0 | Node _ l _ _ r => S (Nat.max (height l) (height r)) end.

(** [t] is linked in [h] below the node [par]. *)
Fixpoint Shape (h : Heap) (par : Z) (t : tree) : Prop :=
  match t with
  | Leaf => True
  | Node c l a u r =>
    a ≠ 0 /\ h !! a = Some (MkNode u par (addr l) (addr r) c) /\ Shape h a l /\ Shape h a r
  end.

Record TreeAt (h : Heap) (T : tree) : Prop := {
  TreeAt_shape : Shape h 0 T;
  TreeAt_nodup : NoDup (addrs T) }.

(** ** Contexts *)

(** One step up: the hole is on side [s] of the node [a], [sib] is its sibling. *)
Inductive frame := Frame (s : Side) (c : RED_BLACK_TREE_COLOR) (a u : Z) (sib : tree).

Abbreviation ctx := (list frame).

(** The tree with [x] on side [s] and [y] on the other side. *)
Definition Join (s : Side) (c : RED_BLACK_TREE_COLOR) (a u : Z) (x y : tree) : tree :=
  match s with LeftSide => Node c x a u y | RightSide => Node c y a u x end.

Definition NodeOn (s : Side) (u par x y : Z) (c : RED_BLACK_TREE_COLOR) : RED_BLACK_TREE_NODE :=
  match s with LeftSide => MkNode u par x y c | RightSide => MkNode u par y x c end.

Fixpoint plug (k : ctx) (t : tree) : tree :=
  match k with [] => t | Frame s c a u sib :: k => plug k (Join s c a u t sib) end.

(** The address of the node above the hole. *)
Definition top (k : ctx) : Z := match k with [] => 0 | Frame _ _ a _ _ :: _ => a end.

(** The entries to the left and to the right of the hole. *)
Fixpoint lefts (k : ctx) : list (Z * Z) :=
  match k with
  | [] => []
  | Frame LeftSide _ _ _ _ :: k => lefts k
  | Frame RightSide _ a u sib :: k => lefts k ++ entries sib ++ [(a, u)]
  end.
Fixpoint rights (k : ctx) : list (Z * Z) :=
  match k with
  | [] => []
  | Frame LeftSide _ a u sib :: k => (a, u) :: entries sib ++ rights k
  | Frame RightSide _ _ _ _ :: k => rights k
  end.

Definition caddrs (k : ctx) : list Z := (lefts k ++ rights k).*1.

(** [k] is linked in [h], with [x] as the pointer to the hole. *)
Fixpoint CtxShape (h : Heap) (k : ctx) (x : Z) : Prop :=
  match k with
  | [] => True
  | Frame s c a u sib :: k =>
    a ≠ 0 /\ h !! a = Some (NodeOn s u (top k) x (addr sib) c) /\ Shape h a sib /\ CtxShape h k a
  end.

(** ** Facts about trees and contexts *)

Lemma addr_Join s c a u x y : addr (Join s c a u x y) = a.
Proof. by destruct s. Qed.

Lemma Join_swap s c a u x y : Join (Opposite s) c a u x y = Join s c a u y x.
Proof. by destruct s. Qed.

Lemma Opposite_involutive s : Opposite (Opposite s) = s.
Proof. by destruct s. Qed.

(** Moving from a node to its sibling. *)
Lemma plug_swap s c a u sib k t :
  plug (Frame s c a u sib :: k) t = plug (Frame (Opposite s) c a u t :: k) sib.
Proof. by destruct s. Qed.

Lemma entries_plug k t : entries (plug k t) = lefts k ++ entries t ++ rights k.
Proof.
  revert t. induction k as [|[s c a u sib] k IH]; intros t; simpl; [by rewrite app_nil_r|].
  rewrite IH. destruct s; simpl; by rewrite <- !app_assoc.
Qed.

Lemma entries_plug_eq k t t' : entries t = entries t' -> entries (plug k t) = entries (plug k t').
Proof. intros H. by rewrite !entries_plug, H. Qed.

Lemma addr_plug k t t' : addr t = addr t' -> addr (plug k t) = addr (plug k t').
Proof.
  revert t t'. induction k as [|[s c a u sib] k IH]; intros t t' H; simpl; [done|].
  apply IH. by rewrite !addr_Join.
Qed.

Lemma addr_plug_cons f k t t' : addr (plug (f :: k) t) = addr (plug (f :: k) t').
Proof. destruct f as [s c a u sib]; simpl. apply addr_plug. by rewrite !addr_Join. Qed.

Lemma elem_of_plug (p : Z) k t : p ∈ addrs (plug k t) <-> p ∈ addrs t \/ p ∈ caddrs k.
Proof. unfold addrs, caddrs. rewrite entries_plug, !fmap_app, !elem_of_app. tauto. Qed.

Lemma NoDup_plug k t :
  NoDup (addrs (plug k t)) <->
  NoDup (addrs t) /\ NoDup (caddrs k) /\ (forall p : Z, p ∈ addrs t -> p ∉ caddrs k).
Proof.
  assert (addrs (plug k t) ≡ₚ addrs t ++ caddrs k) as ->.
  { unfold addrs, caddrs. rewrite entries_plug, !fmap_app. by rewrite Permutation_app_swap_app. }
  rewrite NoDup_app. tauto.
Qed.

Lemma elem_of_addrs_Join (p : Z) s c a u x y :
  p ∈ addrs (Join s c a u x y) <-> p = a \/ p ∈ addrs x \/ p ∈ addrs y.
Proof.
  destruct s; unfold addrs; simpl; rewrite fmap_app, elem_of_app; simpl; rewrite elem_of_cons; tauto.
Qed.

Lemma elem_of_addrs_Node (p : Z) c l a u r : p ∈ addrs (Node c l a u r) <-> p = a \/ p ∈ addrs l \/ p ∈ addrs r.
Proof. apply (elem_of_addrs_Join p LeftSide). Qed.

Lemma NoDup_Join s c a u x y :
  NoDup (addrs (Join s c a u x y)) <->
  NoDup (addrs x) /\ NoDup (addrs y) /\ (a ∉ addrs x) /\ (a ∉ addrs y) /\ (forall p : Z, p ∈ addrs x -> p ∉ addrs y).
Proof.
  assert (addrs (Join s c a u x y) ≡ₚ a :: addrs x ++ addrs y) as ->.
  { destruct s; unfold addrs; simpl; rewrite fmap_app; simpl; rewrite <- Permutation_middle; [done|].
    by rewrite (Permutation_app_comm (entries y).*1). }
  rewrite NoDup_cons, NoDup_app, elem_of_app. split; [tauto|]. intros (?&?&?&?&?); repeat split; tauto.
Qed.

Lemma elem_of_caddrs_cons (p : Z) s c a u sib k :
  p ∈ caddrs (Frame s c a u sib :: k) <-> p = a \/ p ∈ addrs sib \/ p ∈ caddrs k.
Proof.
  unfold caddrs, addrs. destruct s; simpl; repeat rewrite ?fmap_app, ?elem_of_app, ?fmap_cons, ?elem_of_cons, ?elem_of_nil;
    simpl; rewrite ?elem_of_nil; tauto.
Qed.

Lemma Shape_Join h par s c a u x y :
  Shape h par (Join s c a u x y) <->
  a ≠ 0 /\ h !! a = Some (NodeOn s u par (addr x) (addr y) c) /\ Shape h a x /\ Shape h a y.
Proof. destruct s; simpl; tauto. Qed.

Lemma Shape_plug h k t : Shape h 0 (plug k t) <-> Shape h (top k) t /\ CtxShape h k (addr t).
Proof.
  revert t. induction k as [|[s c a u sib] k IH]; intros t; simpl; [tauto|].
  rewrite IH, Shape_Join, addr_Join. tauto.
Qed.

Lemma Shape_addr h par t (p : Z) : Shape h par t -> p ∈ addrs t -> p ≠ 0 /\ is_Some (h !! p).
Proof.
  revert par. induction t as [|c l IHl a u r IHr]; intros par; unfold addrs; simpl; [by rewrite elem_of_nil|].
  rewrite fmap_app, elem_of_app; simpl. rewrite elem_of_cons.
  intros (Ha & Hn & Hl & Hr) [H|[->|H]]; eauto.
Qed.

Lemma TreeAt_size h T : TreeAt h T -> (length (entries T) <= size h)%nat.
Proof.
  intros [Hs Hn]. rewrite <- (size_dom (D := gset Z) h).
  rewrite <- (length_fmap fst). change ((entries T).*1) with (addrs T).
  rewrite <- (size_list_to_set (C := gset Z)) by done. apply subseteq_size.
  intros p Hp. apply elem_of_list_to_set in Hp. apply elem_of_dom. by eapply Shape_addr.
Qed.

Lemma height_entries t : (height t <= length (entries t))%nat.
Proof. induction t; simpl; rewrite ?length_app; simpl; lia. Qed.

Lemma height_plug k t : (height t + length k <= height (plug k t))%nat.
Proof.
  revert t. induction k as [|[s c a u sib] k IH]; intros t; simpl; [lia|].
  specialize (IH (Join s c a u t sib)). destruct s; simpl in *; lia.
Qed.

(** Every entry of a tree is the root of a subtree. *)
Lemma entries_focus T a u :
  (a, u) ∈ entries T -> exists k c l r, T = plug k (Node c l a u r).
Proof.
  induction T as [|c l IHl b v r IHr]; simpl; [by rewrite elem_of_nil|].
  rewrite elem_of_app, elem_of_cons. intros [H|[[= <- <-]|H]].
  - destruct (IHl H) as (k & c' & l' & r' & ->).
    exists (k ++ [Frame LeftSide c b v r]), c', l', r'.
    clear. generalize (Node c' l' a u r'). induction k as [|[] k IH]; intros t; simpl; [done|]. apply IH.
  - by exists [], c, l, r.
  - destruct (IHr H) as (k & c' & l' & r' & ->).
    exists (k ++ [Frame RightSide c b v l]), c', l', r'.
    clear. generalize (Node c' l' a u r'). induction k as [|[] k IH]; intros t; simpl; [done|]. apply IH.
Qed.

(** ** Fields of a node seen from a side *)

Lemma ChildOn_NodeOn s u par x y c : ChildOn s (NodeOn s u par x y c) = x.
Proof. by destruct s. Qed.
Lemma ChildOn_NodeOn_opposite s u par x y c : ChildOn (Opposite s) (NodeOn s u par x y c) = y.
Proof. by destruct s. Qed.
Lemma Parent_NodeOn s u par x y c : Parent (NodeOn s u par x y c) = par.
Proof. by destruct s. Qed.
Lemma Color_NodeOn s u par x y c : Color (NodeOn s u par x y c) = c.
Proof. by destruct s. Qed.
Lemma UserStruct_NodeOn s u par x y c : UserStruct (NodeOn s u par x y c) = u.
Proof. by destruct s. Qed.
Lemma SetChild_NodeOn s u par x y c v : SetChild s v (NodeOn s u par x y c) = NodeOn s u par v y c.
Proof. by destruct s. Qed.
Lemma SetChild_NodeOn_opposite s u par x y c v :
  SetChild (Opposite s) v (NodeOn s u par x y c) = NodeOn s u par x v c.
Proof. by destruct s. Qed.
Lemma SetParent_NodeOn s u par x y c v : SetParent v (NodeOn s u par x y c) = NodeOn s u v x y c.
Proof. by destruct s. Qed.
Lemma SetColor_NodeOn s u par x y c c' : SetColor c' (NodeOn s u par x y c) = NodeOn s u par x y c'.
Proof. by destruct s. Qed.
Lemma NodeOn_opposite s u par x y c : NodeOn (Opposite s) u par x y c = NodeOn s u par y x c.
Proof. by destruct s. Qed.

Create Rewrite HintDb rb.
#[export] Hint Rewrite ChildOn_NodeOn ChildOn_NodeOn_opposite Parent_NodeOn Color_NodeOn UserStruct_NodeOn
  SetChild_NodeOn SetChild_NodeOn_opposite SetParent_NodeOn SetColor_NodeOn addr_Join : rb.

(** ** Single steps *)

Lemma WriteNode_Done p n f h : h !! p = Some n -> WriteNode p f h = Done (<[p := f n]> h).
Proof. intros H. unfold WriteNode, ReadNode. by rewrite H. Qed.

Lemma ReadNode_Done p n h : h !! p = Some n -> ReadNode p h = Done n.
Proof. intros H. unfold ReadNode. by rewrite H. Qed.

Lemma Shape_agree h h' par t :
  Shape h par t -> (forall p : Z, p ∈ addrs t -> h' !! p = h !! p) -> Shape h' par t.
Proof.
  revert par. induction t as [|c l IHl a u r IHr]; intros par; [done|]. intros (Ha & Hn & Hl & Hr) H.
  setoid_rewrite elem_of_addrs_Node in H. split_and!; [done|rewrite H by tauto; done|..]; auto.
Qed.

Lemma CtxShape_agree h h' k x :
  CtxShape h k x -> (forall p : Z, p ∈ caddrs k -> h' !! p = h !! p) -> CtxShape h' k x.
Proof.
  revert x. induction k as [|[s c a u sib] k IH]; intros x; [done|]. intros (Ha & Hn & Hs & Hk) H.
  setoid_rewrite elem_of_caddrs_cons in H. split_and!; [done|rewrite H by tauto; done|..].
  - eapply Shape_agree; [done|auto].
  - apply IH; auto.
Qed.

Lemma NoDup_caddrs_cons s c a u sib k :
  NoDup (caddrs (Frame s c a u sib :: k)) <->
  NoDup (addrs sib) /\ NoDup (caddrs k) /\ (a ∉ addrs sib) /\ (a ∉ caddrs k) /\
  (forall p : Z, p ∈ addrs sib -> p ∉ caddrs k).
Proof.
  assert (caddrs (Frame s c a u sib :: k) = addrs (plug (Frame s c a u sib :: k) Leaf)) as ->.
  { unfold caddrs, addrs. by rewrite entries_plug. }
  change (plug (Frame s c a u sib :: k) Leaf) with (plug k (Join s c a u Leaf sib)).
  rewrite NoDup_plug, NoDup_Join. setoid_rewrite elem_of_addrs_Join. unfold addrs at 1 2 3 6; simpl.
  split.
  - intros ((_ & Hs & _ & Ha & _) & Hk & Hd). split_and!; auto.
  - intros (Hs & Hk & Ha & Hak & Hd). split_and!; auto using NoDup_nil_2, not_elem_of_nil.
    + intros p Hp. by apply elem_of_nil in Hp.
    + intros p [->|[Hp|Hp]]; [done| by apply elem_of_nil in Hp | auto].
Qed.

Lemma SetParentOf_Shape h par t v :
  Shape h par t -> NoDup (addrs t) ->
  exists h', SetParentOf (addr t) v h = Done h' /\ Shape h' v t /\
             (forall p : Z, p ∉ addrs t -> h' !! p = h !! p).
Proof.
  destruct t as [|c l a u r]; [by exists h|]. intros (Ha & Hn & Hl & Hr) Hd.
  apply (NoDup_Join LeftSide) in Hd as (_ & _ & Hal & Har & _).
  unfold SetParentOf. simpl addr. rewrite (proj2 (Z.eqb_neq _ _)) by done. simpl.
  rewrite (WriteNode_Done _ _ _ _ Hn). eexists. split; [done|]. split.
  - split_and!; [done|by rewrite lookup_insert_eq|..];
      (eapply Shape_agree; [done|]; intros p Hp; apply lookup_insert_ne; by intros ->).
  - intros p Hp. apply lookup_insert_ne. intros <-. apply Hp.
    apply elem_of_addrs_Node. auto.
Qed.

Lemma ReplaceChild_Ctx h k t t' :
  CtxShape h k (addr t) -> addr t ≠ 0 -> (addr t ∉ caddrs k) -> NoDup (caddrs k) ->
  exists h', ReplaceChild (top k) (addr t) (addr t') (addr (plug k t)) h = Done (addr (plug k t'), h') /\
             CtxShape h' k (addr t') /\ (forall p : Z, p ∉ caddrs k -> h' !! p = h !! p).
Proof.
  destruct k as [|[s c a u sib] k]; [by exists h|]. intros (Ha & Hn & Hs & Hk) Ht Htk Hd.
  apply NoDup_caddrs_cons in Hd as (_ & _ & Has & Hak & _).
  unfold ReplaceChild. simpl top. rewrite (proj2 (Z.eqb_neq _ _)) by done.
  rewrite (ReadNode_Done _ _ _ Hn). simpl.
  rewrite (WriteNode_Done _ _ _ _ Hn). simpl.
  eexists. split; [f_equal; f_equal; apply addr_plug; by rewrite !addr_Join|]. split_and!.
  - done.
  - rewrite lookup_insert_eq. f_equal. destruct s; simpl; [by rewrite Z.eqb_refl|].
    rewrite (proj2 (Z.eqb_neq _ _)); [done|]. intros Heq. apply Htk. apply elem_of_caddrs_cons.
    right; left. destruct sib as [|c' l' a' u' r']; [done|]. simpl in Heq. rewrite Heq.
    apply elem_of_addrs_Node. auto.
  - eapply Shape_agree; [done|]; intros p Hp; apply lookup_insert_ne; by intros ->.
  - eapply CtxShape_agree; [done|]; intros p Hp; apply lookup_insert_ne; by intros ->.
  - intros p Hp. apply lookup_insert_ne. intros <-. apply Hp. apply elem_of_caddrs_cons. auto.
Qed.

(** ** Moves *)

(** [h'] holds a tree with the entries of [T] in the same order, and nothing
    else has changed. *)
Record Moves (h : Heap) (T : tree) (h' : Heap) (T' : tree) : Prop := {
  Moves_tree : TreeAt h' T';
  Moves_entries : entries T' = entries T;
  Moves_frame : forall p : Z, p ∉ addrs T -> h' !! p = h !! p }.

Lemma Moves_trans h1 T1 h2 T2 h3 T3 : Moves h1 T1 h2 T2 -> Moves h2 T2 h3 T3 -> Moves h1 T1 h3 T3.
Proof.
  intros [A1 E1 F1] [A2 E2 F2]. split; [done|congruence|].
  intros p Hp. rewrite F2; [by apply F1|]. unfold addrs. by rewrite E1.
Qed.

Lemma Moves_refl h T : TreeAt h T -> Moves h T h T.
Proof. by split. Qed.

(** The node at the focus and the node above it. *)
Lemma TreeAt_focus h k s c a u x y :
  TreeAt h (plug k (Join s c a u x y)) ->
  a ≠ 0 /\ h !! a = Some (NodeOn s u (top k) (addr x) (addr y) c).
Proof. intros [Hs _]. apply Shape_plug in Hs as [(Ha & Hn & _)%Shape_Join _]. done. Qed.

Lemma ReadNode_focus h k s c a u x y :
  TreeAt h (plug k (Join s c a u x y)) ->
  ReadNode a h = Done (NodeOn s u (top k) (addr x) (addr y) c).
Proof. intros H. by apply ReadNode_Done, (TreeAt_focus _ _ _ _ _ _ _ _ H). Qed.

(** The tree with its root colored [c]. *)
Definition paint (c : RED_BLACK_TREE_COLOR) (t : tree) : tree :=
  match t with Leaf => Leaf | Node _ l a u r => Node c l a u r end.

Lemma paint_Join c s c' a u x y : paint c (Join s c' a u x y) = Join s c a u x y.
Proof. by destruct s. Qed.

Lemma addr_paint c t : addr (paint c t) = addr t.
Proof. by destruct t. Qed.

Lemma SetColor_focus h k t c :
  TreeAt h (plug k t) -> t ≠ Leaf ->
  exists h', WriteNode (addr t) (SetColor c) h = Done h' /\ Moves h (plug k t) h' (plug k (paint c t)).
Proof.
  destruct t as [|c0 x a u y]; [done|]. intros HT _.
  destruct (TreeAt_focus _ _ LeftSide _ _ _ _ _ HT) as [Ha Hn].
  rewrite (WriteNode_Done _ _ _ _ Hn). eexists. split; [done|].
  assert (entries (plug k (paint c (Node c0 x a u y))) = entries (plug k (Node c0 x a u y))) as HE
    by (apply entries_plug_eq; done).
  destruct HT as [Hs Hd]. apply Shape_plug in Hs as [(_ & _ & Hx & Hy) Hk].
  pose proof Hd as Hd'. apply NoDup_plug in Hd' as (Hj & _ & Hdk).
  apply (NoDup_Join LeftSide) in Hj as (_ & _ & Hax & Hay & _).
  assert (a ∉ caddrs k) as Hak by (apply Hdk, elem_of_addrs_Node; auto).
  split; [split|done|].
  - apply Shape_plug. cbn [paint Shape addr]. split_and!; [done|apply lookup_insert_eq|..].
    + eapply Shape_agree; [done|]. intros p Hp. apply lookup_insert_ne. by intros ->.
    + eapply Shape_agree; [done|]. intros p Hp. apply lookup_insert_ne. by intros ->.
    + eapply CtxShape_agree; [done|]. intros p Hp. apply lookup_insert_ne. by intros ->.
  - unfold addrs. by rewrite HE.
  - intros p Hp. apply lookup_insert_ne. intros <-. apply Hp, elem_of_plug. left.
    apply elem_of_addrs_Node. auto.
Qed.

(** ** Rotation *)

(** What a rotation does to the single nodes. *)
Lemma Rotate_run h k s c a u c' b v x y z :
  let t := Join s c a u (Join s c' b v x y) z in
  let t' := Join (Opposite s) c' b v (Join s c a u y z) x in
  TreeAt h (plug k t) ->
  exists h', Rotate s a (addr (plug k t)) h = Done (addr (plug k t'), h') /\
    h' !! a = Some (NodeOn s u b (addr y) (addr z) c) /\
    h' !! b = Some (NodeOn (Opposite s) v (top k) a (addr x) c') /\
    Shape h' a y /\ CtxShape h' k b /\
    (forall p : Z, p ≠ a -> p ≠ b -> (p ∉ addrs y) -> (p ∉ caddrs k) -> h' !! p = h !! p).
Proof.
  intros t t' HT. subst t t'. pose proof HT as [Hs Hd]. apply Shape_plug in Hs as [(Ha & Hna & Hb & Hz)%Shape_Join Hk].
  apply Shape_Join in Hb as (Hb & Hnb & Hx & Hy). rewrite addr_Join in Hna.
  apply NoDup_plug in Hd as (Hj & Hdk & Hjk). apply NoDup_Join in Hj as (Hj & _ & Hab & _ & _).
  apply NoDup_Join in Hj as (_ & Hdy & _ & Hby & _).
  setoid_rewrite elem_of_addrs_Join in Hjk. setoid_rewrite elem_of_addrs_Join in Hjk.
  rewrite elem_of_addrs_Join in Hab. assert (a ≠ b) as Hne by tauto.
  pose proof (fun p Hp Hc => Hjk p Hc Hp) as Hkj.
  unfold Rotate. rewrite (ReadNode_Done _ _ _ Hna). simpl. autorewrite with rb.
  rewrite (ReadNode_Done _ _ _ Hnb). simpl. autorewrite with rb.
  rewrite (WriteNode_Done _ _ _ _ Hna). simpl. autorewrite with rb.
  set (h1 := <[a := _]> h).
  assert (forall p : Z, p ≠ a -> h1 !! p = h !! p) as H1 by (intros; by apply lookup_insert_ne).
  assert (Shape h1 b y) as Hy1 by (eapply Shape_agree; [done|]; intros p Hp; apply H1; intros ->; tauto).
  destruct (SetParentOf_Shape _ _ _ a Hy1 Hdy) as (h2 & -> & Hy2 & H2). simpl.
  assert (h2 !! b = h !! b) as Hb2 by (rewrite H2, H1; [done|done|tauto]).
  rewrite Hnb in Hb2. rewrite (WriteNode_Done _ _ _ _ Hb2). simpl. autorewrite with rb.
  set (h3 := <[b := _]> h2).
  assert (CtxShape h3 k a) as Hk3.
  { rewrite addr_Join in Hk. eapply CtxShape_agree; [done|]. intros p Hp. specialize (Hkj p Hp).
    unfold h3. rewrite lookup_insert_ne, H2, H1; [done|tauto..|intros ->; tauto]. }
  destruct (ReplaceChild_Ctx h3 k (Join s c a u (Join s c' b v x y) z) (Join (Opposite s) c' b v (Join s c a u y z) x))
    as (h4 & HR & Hk4 & H4); rewrite ?addr_Join in *; [done..|auto|done|].
  rewrite HR. simpl.
  assert (h4 !! b = Some (NodeOn s v (top k) (addr x) (addr y) c')) as Hb4.
  { rewrite H4 by auto. apply lookup_insert_eq. }
  rewrite (WriteNode_Done _ _ _ _ Hb4). simpl. autorewrite with rb. set (h5 := <[b := _]> h4).
  assert (h5 !! a = Some (NodeOn s u (top k) (addr y) (addr z) c)) as Ha5.
  { unfold h5, h3 in *. rewrite lookup_insert_ne, H4, lookup_insert_ne, H2 by (auto || tauto). apply lookup_insert_eq. }
  rewrite (WriteNode_Done _ _ _ _ Ha5). simpl. autorewrite with rb. eexists. split; [done|].
  assert (forall p w : _, p ≠ a -> p ≠ b -> <[a := w]> h5 !! p = h4 !! p) as H6
    by (intros; unfold h5; by rewrite !lookup_insert_ne).
  split_and!.
  - apply lookup_insert_eq.
  - unfold h5. rewrite lookup_insert_ne, lookup_insert_eq by done. by rewrite NodeOn_opposite.
  - eapply Shape_agree; [exact Hy2|]. intros p Hp. rewrite H6, H4 by first [by apply Hjk; auto 10 | intros ->; tauto].
    apply lookup_insert_ne. intros ->; tauto.
  - eapply CtxShape_agree; [exact Hk4|]. intros p Hp. specialize (Hkj p Hp). apply H6; tauto.
  - intros p ? ? ? ?. rewrite H6, H4 by done. unfold h3. by rewrite lookup_insert_ne, H2, H1.
Qed.

Lemma Rotate_focus h k s c a u c' b v x y z :
  let T := plug k (Join s c a u (Join s c' b v x y) z) in
  let T' := plug k (Join (Opposite s) c' b v (Join s c a u y z) x) in
  TreeAt h T ->
  exists h', Rotate s a (addr T) h = Done (addr T', h') /\ Moves h T h' T'.
Proof.
  intros T T' HT. destruct (Rotate_run h k s c a u c' b v x y z HT) as (h' & HR & Ha' & Hb' & Hy' & Hk' & H').
  exists h'. split; [exact HR|].
  assert (entries T' = entries T) as HE.
  { apply entries_plug_eq. destruct s; simpl; by rewrite <- app_assoc. }
  pose proof HT as [Hs Hd]. apply Shape_plug in Hs as [(Ha & _ & Hb & Hz)%Shape_Join _].
  apply Shape_Join in Hb as (Hb & _ & Hx & _).
  apply NoDup_plug in Hd as (Hj & _ & Hjk). apply NoDup_Join in Hj as (Hj & _ & Hab & Haz & Hbz).
  apply NoDup_Join in Hj as (_ & _ & Hbx & _ & Hxy).
  setoid_rewrite elem_of_addrs_Join in Hjk. setoid_rewrite elem_of_addrs_Join in Hjk.
  setoid_rewrite elem_of_addrs_Join in Hbz. rewrite elem_of_addrs_Join in Hab.
  pose proof (fun p Hp Hc => Hbz p Hc Hp) as Hzb.
  split; [split|done|].
  - apply Shape_plug. rewrite Shape_Join, Shape_Join, !addr_Join. split_and!; try done.
    + eapply Shape_agree; [exact Hz|]. intros p Hp. specialize (Hzb p Hp).
      apply H'; [intros ->; tauto|tauto|tauto|by apply Hjk; auto].
    + eapply Shape_agree; [exact Hx|]. intros p Hp. apply H'; [intros ->; tauto|intros ->; tauto|by apply Hxy|by apply Hjk; auto].
  - unfold addrs. rewrite HE. apply HT.
  - intros p Hp. unfold T in Hp. rewrite elem_of_plug, !elem_of_addrs_Join in Hp. apply H'; tauto.
Qed.

(** The rotation that takes [a] down to side [s] and lifts its other child. *)
Lemma RotateTowards_focus h k s c a u c' b v x y z :
  let T := plug k (Join s c a u x (Join s c' b v y z)) in
  let T' := plug k (Join s c' b v (Join s c a u x y) z) in
  TreeAt h T ->
  exists h', RotateTowards s a (addr T) h = Done (addr T', h') /\ Moves h T h' T'.
Proof.
  intros T T' HT.
  assert (RotateTowards s = Rotate (Opposite s)) as -> by by destruct s.
  pose proof (Rotate_focus h k (Opposite s) c a u c' b v z y x) as H.
  rewrite Opposite_involutive, !Join_swap in H. by apply H.
Qed.
