(* ===== verification/RbWalk.v ===== *)
(** * Red-black trees in memory: walks, lookup and validation

    [OrderedCollectionMin], [Max], [Next] and [Prev] follow the in-order
    sequence of the tree, [OrderedCollectionFind] finds by key, and
    [RedBlackTreeValidate] accepts exactly the trees that satisfy the red-black
    properties ([RB]) and are ordered.  A direction is a [Side]: [walk
    RightSide] is the in-order sequence and [walk LeftSide] its reverse. *)
From Stdlib Require Import ZArith Lia Sorting.Sorted.
From stdpp Require Import base option gmap list sets.
From S2P Require Import Prelude RbTree RbShape.

(** ** The sequence of entries in a direction *)

Fixpoint walk (s : Side) (t : tree) : list (Z * Z) :=
  match t with
  | Leaf => []
  | Node _ l a u r =>
    match s with
    | RightSide => walk s l ++ (a, u) :: walk s r
    | LeftSide => walk s r ++ (a, u) :: walk s l
    end
  end.

(** What follows the hole of a context. *)
Fixpoint following (s : Side) (k : ctx) : list (Z * Z) :=
  match k with
  | [] => []
  | Frame s' _ a u sib :: k =>
    match s, s' with
    | LeftSide, LeftSide | RightSide, RightSide => following s k
    | _, _ => (a, u) :: walk s sib ++ following s k
    end
  end.

Lemma walk_entries t : walk RightSide t = entries t /\ walk LeftSide t = reverse (entries t).
Proof.
  induction t as [|c l [IHl1 IHl] a u r [IHr1 IHr]]; [done|]. simpl. split; [by rewrite IHl1, IHr1|].
  by rewrite IHl, IHr, reverse_app, reverse_cons, <- app_assoc.
Qed.

Lemma walk_Permutation s t : walk s t ≡ₚ entries t.
Proof. destruct s; [rewrite (proj2 (walk_entries t)); apply reverse_Permutation|by rewrite (proj1 (walk_entries t))]. Qed.

Lemma walk_Join s c a u x y : walk s (Join s c a u x y) = walk s y ++ (a, u) :: walk s x.
Proof. by destruct s. Qed.

Lemma walk_plug s k t : exists before, walk s (plug k t) = before ++ walk s t ++ following s k.
Proof.
  revert t. induction k as [|[s' c a u sib] k IH]; intros t; simpl.
  - exists []. by rewrite app_nil_r.
  - destruct (IH (Join s' c a u t sib)) as [before ->]. destruct s, s'; simpl; rewrite <- !app_assoc.
    + exists (before ++ walk LeftSide sib ++ [(a, u)]). by rewrite <- !app_assoc.
    + by exists before.
    + by exists before.
    + exists (before ++ walk RightSide sib ++ [(a, u)]). by rewrite <- !app_assoc.
Qed.

(** An element of a list without duplicates splits it in one way. *)
Lemma NoDup_split {A} (x : A) l1 l2 k1 k2 :
  NoDup (l1 ++ x :: l2) -> l1 ++ x :: l2 = k1 ++ x :: k2 -> l1 = k1 /\ l2 = k2.
Proof.
  revert k1. induction l1 as [|y l1 IH]; intros [|z k1]; simpl; rewrite ?NoDup_cons.
  - intros _ [= ->]. done.
  - intros [Hx _] [= -> ->]. destruct Hx. apply elem_of_app. right. by left.
  - intros [Hx _] [= -> <-]. destruct Hx. apply elem_of_app. right. by left.
  - intros [_ H] [= -> E]. by destruct (IH k1 H E) as [-> ->].
Qed.

Lemma entries_NoDup h T : TreeAt h T -> NoDup (entries T).
Proof. intros [_ H]. by apply NoDup_fmap_1 in H. Qed.

Lemma walk_focus h s T xs a u ys :
  TreeAt h T -> walk s T = xs ++ (a, u) :: ys ->
  exists k c x y, T = plug k (Join s c a u x y) /\ ys = walk s x ++ following s k.
Proof.
  intros HT Hw.
  assert ((a, u) ∈ entries T) as Hin.
  { rewrite <- (walk_Permutation s), Hw. apply elem_of_app. right. by left. }
  destruct (entries_focus _ _ _ Hin) as (k & c & l & r & ->).
  assert (exists x y, Node c l a u r = Join s c a u x y) as (x & y & E) by (destruct s; eauto).
  rewrite E in *. clear E. exists k, c, x, y. split; [done|].
  destruct (walk_plug s k (Join s c a u x y)) as [before Hb].
  rewrite walk_Join, <- app_assoc, app_assoc in Hb. simpl in Hb. rewrite Hb in Hw.
  apply NoDup_split in Hw as [_ <-]; [done|]. rewrite <- Hb, walk_Permutation. by eapply entries_NoDup.
Qed.

(** ** Minimum, maximum, successor and predecessor *)

(** The address of the first entry, or NULL. *)
Definition first (l : list (Z * Z)) : Z := default 0 (fst <$> head l).

Lemma first_app l k : l ≠ [] -> first (l ++ k) = first l.
Proof. by destruct l. Qed.

Lemma walk_nil s t : walk s t = [] -> t = Leaf.
Proof. destruct t; [done|]. destruct s; simpl; intros H; apply app_eq_nil in H as [_ H]; discriminate. Qed.

Lemma ExtremeLoop_first h par s t fuel :
  Shape h par t -> t ≠ Leaf -> (height t <= fuel)%nat ->
  ExtremeLoop (Opposite s) fuel (addr t) h = Done (first (walk s t)).
Proof.
  revert par t. induction fuel as [|fuel IH]; intros par t Hs Ht Hf; [by destruct t; simpl in Hf; try lia|].
  destruct t as [|c l a u r]; [done|].
  assert (exists x y, Node c l a u r = Join s c a u x y) as (x & y & E) by (destruct s; eauto).
  assert (height y <= fuel)%nat by (destruct s; simpl in Hf; injection E as -> ->; lia).
  rewrite E in *. clear E. apply Shape_Join in Hs as (Ha & Hn & _ & Hy). rewrite addr_Join, walk_Join. simpl.
  rewrite (ReadNode_Done _ _ _ Hn). simpl. autorewrite with rb.
  destruct y as [|c' l' b v r'] eqn:Ey; [done|]. rewrite <- Ey in *.
  assert (addr y ≠ 0) by (rewrite Ey in Hy |- *; by destruct Hy).
  rewrite (proj2 (Z.eqb_neq _ _)), first_app by (try done; intros E%walk_nil; congruence).
  eapply IH; [done|congruence|done].
Qed.

Lemma addr_in_addrs t : t ≠ Leaf -> addr t ∈ addrs t.
Proof. destruct t; [done|]. intros _. apply elem_of_addrs_Node. auto. Qed.

Lemma AscendLoop_following h k s x fuel :
  CtxShape h k x -> x ≠ 0 -> (x ∉ caddrs k) -> NoDup (caddrs k) -> (length k < fuel)%nat ->
  AscendLoop s fuel x (top k) h = Done (first (following s k)).
Proof.
  revert x fuel. induction k as [|[s' c a u sib] k IH]; intros x [|fuel]; simpl length; try lia; [done|].
  intros (Ha & Hn & Hs & Hk) Hx Hxk Hd Hf. simpl top. simpl AscendLoop.
  rewrite (proj2 (Z.eqb_neq _ _)) by done. rewrite (ReadNode_Done _ _ _ Hn). simpl.
  assert ((x =? addr sib) = false) as Hne.
  { apply Z.eqb_neq. intros ->. apply Hxk, elem_of_caddrs_cons. right; left.
    apply addr_in_addrs. by intros ->. }
  apply NoDup_caddrs_cons in Hd as (_ & Hdk & _ & Hak & _).
  destruct s, s'; simpl; rewrite ?Z.eqb_refl, ?Hne; try done; apply IH; (done || lia).
Qed.

Lemma Neighbour_walk h s T xs a u ys :
  TreeAt h T -> walk s T = xs ++ (a, u) :: ys -> Neighbour s a h = Done (first ys).
Proof.
  intros HT Hw. destruct (walk_focus _ _ _ _ _ _ _ HT Hw) as (k & c & x & y & -> & ->).
  pose proof (TreeAt_size _ _ HT) as Hsz. pose proof (height_entries (plug k (Join s c a u x y))) as He.
  pose proof (height_plug k (Join s c a u x y)) as Hp.
  assert (height x < height (Join s c a u x y))%nat by (destruct s; simpl; lia).
  destruct (TreeAt_focus _ _ _ _ _ _ _ _ HT) as [Ha Hn]. unfold Neighbour.
  rewrite (proj2 (Z.eqb_neq _ _)) by done. rewrite (ReadNode_Done _ _ _ Hn). cbn [mbind Outcome_bind]. autorewrite with rb.
  destruct HT as [Hs Hd]. apply Shape_plug in Hs as [(_ & _ & Hx & _)%Shape_Join Hk]. rewrite addr_Join in Hk.
  apply NoDup_plug in Hd as (_ & Hdk & Hdj).
  destruct (decide (x = Leaf)) as [->|Hxl]; cbn [negb addr Z.eqb].
  - apply AscendLoop_following; [done|done|apply Hdj, elem_of_addrs_Join; auto|done|lia].
  - rewrite (proj2 (Z.eqb_neq _ _)); [|by destruct x as [|]; [|destruct Hx]].
    rewrite first_app by (by intros ?%walk_nil). eapply ExtremeLoop_first; [done|done|lia].
Qed.

Lemma Extreme_walk h s T Tree :
  TreeAt h T -> Root Tree = addr T -> Extreme (Opposite s) Tree h = Done (first (walk s T)).
Proof.
  intros HT Hr. unfold Extreme. rewrite Hr. destruct (decide (T = Leaf)) as [->|Ht]; [done|].
  pose proof (TreeAt_size _ _ HT). pose proof (height_entries T). destruct HT as [Hs _].
  rewrite (proj2 (Z.eqb_neq _ _)); [|by destruct T as [|]; [|destruct Hs]].
  eapply ExtremeLoop_first; [done|done|lia].
Qed.
