(* ===== verification/RbValid.v ===== *)
(** * Red-black trees in memory: order, lookup by key and validation

    The laws of the comparators, the red-black properties, and the equivalence
    of [RedBlackTreeValidate] with them. *)
From Stdlib Require Import ZArith Lia Sorting.Sorted.
From stdpp Require Import base option gmap list sets sorting.
From S2P Require Import Prelude RbTree RbShape RbWalk.

(** ** Order *)

(** What the documentation of ORDERED_COLLECTION_USER_COMPARE asks for: the sign
    of the result orders the user structures. *)
Class OrderedBy (Compare : Z -> Z -> Z) : Prop := {
  Compare_sym : forall x y, Z.sgn (Compare y x) = - Z.sgn (Compare x y);
  Compare_trans : forall x y z, Compare x y <= 0 -> Compare y z <= 0 -> Compare x z <= 0 }.

(** ORDERED_COLLECTION_KEY_COMPARE places a key in the same order. *)
Class KeyOrderedBy (Compare KeyCompare : Z -> Z -> Z) : Prop := {
  KeyCompare_left : forall k x y, KeyCompare k x <= 0 -> Compare x y < 0 -> KeyCompare k y < 0;
  KeyCompare_right : forall k x y, 0 <= KeyCompare k y -> Compare x y < 0 -> 0 < KeyCompare k x }.

Lemma Compare_flip Compare x y : OrderedBy Compare -> 0 < Compare x y <-> Compare y x < 0.
Proof.
  intros HC. pose proof (Compare_sym x y).
  destruct (Z.sgn_spec (Compare y x)), (Z.sgn_spec (Compare x y)); lia.
Qed.

#[export] Instance OrderedBy_KeyOrderedBy Compare : OrderedBy Compare -> KeyOrderedBy Compare Compare.
Proof.
  intros HC. assert (forall k x y, Compare k x <= 0 -> Compare y k <= 0 -> Compare x y < 0 -> False) as H.
  { intros k x y H1 H2 H3%Compare_flip; [|done]. pose proof (Compare_trans y k x H2 H1). lia. }
  split; intros k x y H1 H2; apply Z.nle_gt; intros H3; apply (H k x y); try done.
  - pose proof (Compare_flip Compare y k HC). lia.
  - pose proof (Compare_flip Compare y k HC). lia.
Qed.

(** The entries are in strictly ascending order of their user structures. *)
Definition below (Compare : Z -> Z -> Z) (e f : Z * Z) : Prop := Compare e.2 f.2 < 0.
Definition Ascending (Compare : Z -> Z -> Z) (l : list (Z * Z)) : Prop := StronglySorted (below Compare) l.

#[export] Instance Ascending_dec Compare l : Decision (Ascending Compare l).
Proof. apply StronglySorted_dec. intros e f. apply Z_lt_dec. Defined.

Lemma Ascending_middle Compare l e r :
  Ascending Compare (l ++ e :: r) <->
  Ascending Compare l /\ Ascending Compare r /\ (forall f, f ∈ l -> below Compare f e) /\
  (forall f, f ∈ r -> below Compare e f) /\ (forall f g, f ∈ l -> g ∈ r -> below Compare f g).
Proof.
  unfold Ascending. rewrite StronglySorted_app, StronglySorted_cons, Forall_forall.
  setoid_rewrite elem_of_cons. split.
  - intros (H & ? & ? & ?). split_and!; auto.
  - intros (? & ? & ? & ? & ?). split_and!; auto. intros f g ? [->|?]; auto.
Qed.

Lemma Ascending_remove Compare l e r : Ascending Compare (l ++ e :: r) -> Ascending Compare (l ++ r).
Proof. intros (? & ? & _ & _ & ?)%Ascending_middle. by apply StronglySorted_app. Qed.

Section Ordered.
Context (Compare : Z -> Z -> Z) {HC : OrderedBy Compare}.

#[export] Instance below_transitive : Transitive (below Compare).
Proof using HC.
  intros [a x] [b y] [c z]; unfold below; simpl. intros H1 H2.
  destruct (OrderedBy_KeyOrderedBy Compare HC) as [Hl _]. apply (Hl x y z); [lia|done].
Qed.
End Ordered.

(** ** Lookup by key *)

Lemma FindLoop_first Compare Key h par t k fuel :
  KeyOrderedBy Compare Key -> Shape h par t -> Ascending Compare (entries t) -> (height t < fuel)%nat ->
  FindLoop Key k fuel (addr t) h = Done (first (filter (fun e => Key k e.2 = 0) (entries t))).
Proof.
  intros HK. revert par t. induction fuel as [|fuel IH]; intros par t Hs Ho Hf; [lia|].
  destruct t as [|c l a u r]; [done|]. destruct Hs as (Ha & Hn & Hl & Hr).
  simpl in Ho, Hf. apply Ascending_middle in Ho as (Hol & Hor & Hla & Har & _). simpl.
  rewrite (proj2 (Z.eqb_neq _ _)) by done. rewrite (ReadNode_Done _ _ _ Hn). simpl.
  rewrite filter_app, filter_cons. simpl.
  destruct (Z.eqb_spec (Key k u) 0) as [E|E].
  - rewrite decide_True by done. rewrite (filter_none _ (entries l)); [done|]. intros e He ?. specialize (Hla e He).
    pose proof (KeyCompare_right k _ _ (ltac:(lia) : 0 <= Key k u) Hla). lia.
  - rewrite decide_False by done. destruct (Z.ltb_spec (Key k u) 0).
    + rewrite (filter_none _ (entries r)), app_nil_r; [eapply IH; eauto; lia|]. intros e He ?. specialize (Har e He).
      pose proof (KeyCompare_left k _ _ (ltac:(lia) : Key k u <= 0) Har). lia.
    + rewrite (filter_none _ (entries l)); [eapply IH; eauto; lia|]. intros e He ?. specialize (Hla e He).
      pose proof (KeyCompare_right k _ _ (ltac:(lia) : 0 <= Key k u) Hla). lia.
Qed.

(** ** The red-black properties *)

(** The color of the root; leaves are black (property #2). *)
Definition hue (t : tree) : RED_BLACK_TREE_COLOR :=
  match t with Leaf => RedBlackTreeBlack | Node c _ _ _ _ => c end.

(** Properties #3 and #4: [n] is the number of black nodes on each path. *)
Fixpoint RB (t : tree) (n : nat) : Prop :=
  match t with
  | Leaf => n = 0%nat
  | Node RedBlackTreeRed l _ _ r =>
    hue l = RedBlackTreeBlack /\ hue r = RedBlackTreeBlack /\ RB l n /\ RB r n
  | Node RedBlackTreeBlack l _ _ r => exists m, n = S m /\ RB l m /\ RB r m
  end.

(** A valid collection: properties #3, #4 and #5, and the order. *)
Record ValidTree (Compare : Z -> Z -> Z) (T : tree) : Prop := {
  ValidTree_root : hue T = RedBlackTreeBlack;
  ValidTree_black : exists n, RB T n;
  ValidTree_order : Ascending Compare (entries T) }.

Lemma RB_Join s c a u x y n :
  RB (Join s c a u x y) n <->
  exists m, (c = RedBlackTreeRed -> hue x = RedBlackTreeBlack /\ hue y = RedBlackTreeBlack) /\
            RB x m /\ RB y m /\ n = (if IsRed c then m else S m).
Proof.
  destruct c; simpl.
  - destruct s; simpl; (split; [intros (? & ? & ? & ?); exists n; by split_and! | intros (m & H & ? & ? & ->); by destruct H]).
  - destruct s; simpl; (split; [intros (m & -> & ? & ?) | intros (m & _ & ? & ? & ->)]; exists m; by split_and!).
Qed.

Lemma RB_functional t n m : RB t n -> RB t m -> n = m.
Proof.
  revert n m. induction t as [|c l IHl a u r IHr]; intros n m; [simpl; congruence|].
  intros (n' & _ & H1 & _ & ->)%(RB_Join LeftSide) (m' & _ & H2 & _ & ->)%(RB_Join LeftSide).
  by rewrite (IHl n' m').
Qed.

Lemma RB_size t n : RB t n -> (n <= length (entries t))%nat.
Proof.
  revert n. induction t as [|[] l IHl a u r IHr]; simpl; intros n; [lia|..]; rewrite length_app; simpl.
  - intros (_ & _ & H & _). apply IHl in H. lia.
  - intros (m & -> & H & _). apply IHl in H. lia.
Qed.

Lemma IsRed_hue t : IsRed (hue t) = false <-> hue t = RedBlackTreeBlack.
Proof. unfold IsRed. by destruct (hue t). Qed.

(** ** [RedBlackTreeRecursiveCheck] *)

Lemma NodeIsNullOrBlack_Shape h par t : Shape h par t -> NodeIsNullOrBlack (addr t) h = Done (negb (IsRed (hue t))).
Proof.
  destruct t as [|c l a u r]; [done|]. intros (Ha & Hn & _). unfold NodeIsNullOrBlack. simpl.
  rewrite (proj2 (Z.eqb_neq _ _)) by done. by rewrite (ReadNode_Done _ _ _ Hn).
Qed.

Lemma NodeIsNullOrBlack_focus h k t :
  TreeAt h (plug k t) -> NodeIsNullOrBlack (addr t) h = Done (negb (IsRed (hue t))).
Proof. intros [[Hs _]%Shape_plug _]. by eapply NodeIsNullOrBlack_Shape. Qed.

(** The check returns the black height, or fails if there is none. *)
Lemma RecursiveCheck_spec h par t fuel :
  Shape h par t -> (height t < fuel)%nat -> Z.of_nat (length (entries t)) < 2 ^ 32 - 1 ->
  match RedBlackTreeRecursiveCheck fuel (addr t) h with
  | Done v => exists n, RB t n /\ v = Z.of_nat n + 1
  | Asserted => forall n, ~ RB t n
  | OutOfFuel => False
  end.
Proof.
  revert par fuel. induction t as [|c l IHl a u r IHr]; intros par [|fuel] Hs Hf Hz; try lia; [by exists 0%nat|].
  destruct Hs as (Ha & Hn & Hl & Hr). simpl in Hf, Hz. rewrite length_app in Hz. simpl in Hz.
  specialize (IHl a fuel Hl ltac:(lia) ltac:(lia)). specialize (IHr a fuel Hr ltac:(lia) ltac:(lia)).
  simpl. rewrite (proj2 (Z.eqb_neq _ _)) by done. rewrite (ReadNode_Done _ _ _ Hn). simpl.
  rewrite (NodeIsNullOrBlack_Shape _ _ _ Hl), (NodeIsNullOrBlack_Shape _ _ _ Hr).
  pose proof (fun n => RB_Join LeftSide c a u l r n) as HJ. simpl Join in HJ.
  destruct (decide (c = RedBlackTreeRed -> hue l = RedBlackTreeBlack /\ hue r = RedBlackTreeBlack)) as [Hred|Hred].
  - match goal with |- context [if IsRed c then ?X else Done tt] =>
      replace (if IsRed c then X else Done tt) with (Done tt)
        by (destruct c; [destruct (Hred eq_refl) as [-> ->]|]; done) end. simpl.
    destruct (RedBlackTreeRecursiveCheck fuel (addr l) h) as [vl| |]; simpl; [|by intros n (m & _ & H & _)%HJ; apply IHl in H|done].
    destruct (RedBlackTreeRecursiveCheck fuel (addr r) h) as [vr| |]; simpl; [|by intros n (m & _ & _ & H & _)%HJ; apply IHr in H|done].
    destruct IHl as (nl & Hnl & ->), IHr as (nr & Hnr & ->).
    apply RB_size in Hnl as ?, Hnr as ?. destruct (Z.eqb_spec (Z.of_nat nl + 1) (Z.of_nat nr + 1)) as [E|E]; simpl.
    + replace nr with nl in * by lia. exists (if IsRed c then nl else S nl). split; [apply HJ; eauto|].
      rewrite Z.mod_small; destruct (IsRed c); lia.
    + intros n (m & _ & H1 & H2 & _)%HJ. apply E. by rewrite (RB_functional _ _ _ Hnl H1), (RB_functional _ _ _ Hnr H2).
  - destruct c; [|by destruct Hred].
    destruct (hue l) eqn:?, (hue r) eqn:?; try (intros n (? & ? & _); congruence). by destruct Hred.
Qed.

Lemma RecursiveCheck_RB h par t n fuel :
  Shape h par t -> (height t < fuel)%nat -> RB t n ->
  RedBlackTreeRecursiveCheck fuel (addr t) h = Done ((Z.of_nat n + 1) mod 2 ^ 32).
Proof.
  revert par n fuel. induction t as [|c l IHl a u r IHr]; intros par n [|fuel] Hs Hf; try lia; [by simpl; intros ->|].
  intros (m & Hred & HRl & HRr & ->)%(RB_Join LeftSide). destruct Hs as (Ha & Hn & Hl & Hr). simpl in Hf |- *.
  rewrite (proj2 (Z.eqb_neq _ _)) by done. rewrite (ReadNode_Done _ _ _ Hn). simpl.
  rewrite (NodeIsNullOrBlack_Shape _ _ _ Hl), (NodeIsNullOrBlack_Shape _ _ _ Hr).
  rewrite (IHl a m fuel), (IHr a m fuel) by (done || lia).
  destruct c; [destruct (Hred eq_refl) as [-> ->]|]; simpl; rewrite Z.eqb_refl; simpl; rewrite Zplus_mod_idemp_r;
    f_equal; f_equal; lia.
Qed.

(** ** [RedBlackTreeValidate] *)

(** The assertions of an ordering loop, between neighbours. *)
Fixpoint chain (f : Z -> Z -> bool) (e : Z * Z) (l : list (Z * Z)) : bool :=
  match l with [] => true | e' :: l => f e.2 e'.2 && chain f e' l end.

Lemma chain_Sorted f (R : relation (Z * Z)) e l :
  (forall e e', f e.2 e'.2 = true <-> R e e') -> chain f e l = true <-> Sorted R (e :: l).
Proof.
  intros HR. revert e. induction l as [|e' l IH]; intros e; simpl; [by split; [repeat constructor|]|].
  rewrite andb_true_iff, IH, HR. split.
  - intros [H1 H2]. constructor; [done|by constructor].
  - intros [H1 H2]%Sorted_inv. by apply HdRel_inv in H2.
Qed.

Lemma ReadNode_walk h s T xs a u ys :
  TreeAt h T -> walk s T = xs ++ (a, u) :: ys -> exists n, ReadNode a h = Done n /\ UserStruct n = u /\ a ≠ 0.
Proof.
  intros HT Hw. destruct (walk_focus _ _ _ _ _ _ _ HT Hw) as (k & c & x & y & -> & _).
  eexists. split; [by eapply ReadNode_focus|]. autorewrite with rb. split; [done|].
  by apply (TreeAt_focus _ _ _ _ _ _ _ _ HT).
Qed.

Lemma OrderLoop_chain h s T f xs e ys fuel Count :
  TreeAt h T -> walk s T = xs ++ e :: ys -> (length ys < fuel)%nat ->
  OrderLoop s f fuel e.1 (Count mod 2 ^ 32) h =
  if chain f e ys then Done ((Count + Z.of_nat (length ys)) mod 2 ^ 32) else Asserted.
Proof.
  intros HT. revert xs e ys Count. induction fuel as [|fuel IH]; intros xs [a u] ys Count Hw Hf; [lia|].
  simpl. rewrite (Neighbour_walk _ _ _ _ _ _ _ HT Hw). destruct ys as [|[b v] ys]; [simpl; by rewrite Z.add_0_r|].
  assert (walk s T = (xs ++ [(a, u)]) ++ (b, v) :: ys) as Hw' by by rewrite <- app_assoc.
  destruct (ReadNode_walk _ _ _ _ _ _ _ HT Hw) as (na & Hna & Hua & _).
  destruct (ReadNode_walk _ _ _ _ _ _ _ HT Hw') as (nb & Hnb & Hub & Hb).
  change (first ((b, v) :: ys)) with b. cbn [mbind Outcome_bind].
  rewrite (proj2 (Z.eqb_neq _ _)) by done. rewrite Hna, Hnb. simpl. rewrite Hua, Hub.
  destruct (f u v); simpl; [|done]. rewrite Zplus_mod_idemp_l.
  simpl in Hf. pose proof (IH _ _ _ (Count + 1) Hw' ltac:(lia)) as E. cbn [fst] in E. rewrite E. destruct (chain f (b, v) ys); [|done].
  f_equal. f_equal. lia.
Qed.

(** One of the two ordering passes. *)
Lemma OrderPass_chain h s T f :
  TreeAt h T ->
  OrderLoop s f (S (size h)) (first (walk s T)) (if first (walk s T) =? 0 then 0 else 1) h =
  if match walk s T with [] => true | e :: l => chain f e l end
  then Done (Z.of_nat (length (entries T)) mod 2 ^ 32) else Asserted.
Proof.
  intros HT. pose proof (TreeAt_size _ _ HT) as Hsz. rewrite <- (walk_Permutation s) in Hsz |- *.
  destruct (walk s T) as [|[a u] l] eqn:Hw; [done|]. change (first ((a, u) :: l)) with a.
  destruct (ReadNode_walk h s T [] a u l HT Hw) as (_ & _ & _ & Ha).
  rewrite (proj2 (Z.eqb_neq _ _)) by done. simpl in Hsz. change 1 with (1 mod 2 ^ 32) at 1.
  pose proof (OrderLoop_chain h s T f [] (a, u) l (S (size h)) 1 HT Hw ltac:(lia)) as E. cbn [fst] in E.
  rewrite E. destruct (chain f (a, u) l); [|done].
  f_equal. f_equal. simpl length. lia.
Qed.

Section Validate.
Context (Tree : ORDERED_COLLECTION) {HC : OrderedBy (UserStructCompare Tree)}.

Lemma Ascending_Sorted l : Ascending (UserStructCompare Tree) l <-> Sorted (below (UserStructCompare Tree)) l.
Proof using HC. split; [apply StronglySorted_Sorted|apply Sorted_StronglySorted, _]. Qed.

(** Both passes check that the entries ascend. *)
Lemma forward_pass T :
  match walk RightSide T with [] => true | e :: l => chain (fun a b => UserStructCompare Tree a b <? 0) e l end = true <->
  Ascending (UserStructCompare Tree) (entries T).
Proof using HC.
  rewrite (proj1 (walk_entries T)), Ascending_Sorted. destruct (entries T) as [|e l]; [by split|].
  apply chain_Sorted. intros. apply Z.ltb_lt.
Qed.

Lemma backward_pass T :
  match walk LeftSide T with [] => true | e :: l => chain (fun a b => 0 <? UserStructCompare Tree a b) e l end = true <->
  Ascending (UserStructCompare Tree) (entries T).
Proof using HC.
  rewrite (proj2 (walk_entries T)), Ascending_Sorted.
  transitivity (Sorted (flip (below (UserStructCompare Tree))) (reverse (entries T))).
  - destruct (reverse (entries T)) as [|e l]; [by split|].
    apply chain_Sorted. intros. rewrite Z.ltb_lt. by apply Compare_flip.
  - split; intros H%Sorted_reverse; [by rewrite reverse_involutive in H|done].
Qed.

(** What remains of [RedBlackTreeValidate] after the check of the properties. *)
Lemma Validate_order h T :
  TreeAt h T -> Root Tree = addr T ->
  (Last ← OrderedCollectionMin Tree h;
   ForwardCount ← OrderLoop RightSide (fun a b => UserStructCompare Tree a b <? 0)
                    (S (size h)) Last (if Last =? 0 then 0 else 1) h;
   Last ← OrderedCollectionMax Tree h;
   BackwardCount ← OrderLoop LeftSide (fun a b => 0 <? UserStructCompare Tree a b)
                     (S (size h)) Last (if Last =? 0 then 0 else 1) h;
   ASSERT (ForwardCount =? BackwardCount)) =
  if decide (Ascending (UserStructCompare Tree) (entries T)) then Done tt else Asserted.
Proof using HC.
  intros HT Hr. unfold OrderedCollectionMin, OrderedCollectionMax.
  rewrite (Extreme_walk h RightSide T Tree HT Hr : Extreme LeftSide Tree h = _). cbn [mbind Outcome_bind].
  rewrite (OrderPass_chain _ _ _ _ HT).
  rewrite (Extreme_walk h LeftSide T Tree HT Hr : Extreme RightSide Tree h = _).
  pose proof (forward_pass T) as HF. pose proof (backward_pass T) as HB.
  destruct (match walk RightSide T with [] => true | e :: l => _ end).
  - cbn [mbind Outcome_bind]. rewrite (OrderPass_chain _ _ _ _ HT).
    destruct (match walk LeftSide T with [] => true | e :: l => _ end).
    + simpl. rewrite decide_True by by apply HF. by rewrite Z.eqb_refl.
    + rewrite decide_False; [done|]. intros H%HB. done.
  - rewrite decide_False; [done|]. intros H%HF. done.
Qed.

Lemma Validate_spec h T :
  TreeAt h T -> Root Tree = addr T -> Z.of_nat (size h) < 2 ^ 32 - 1 ->
  match RedBlackTreeValidate Tree h with
  | Done _ => ValidTree (UserStructCompare Tree) T
  | Asserted => ~ ValidTree (UserStructCompare Tree) T
  | OutOfFuel => False
  end.
Proof using HC.
  intros HT Hr Hz. unfold RedBlackTreeValidate. rewrite Hr.
  pose proof (TreeAt_size _ _ HT). pose proof (height_entries T). pose proof HT as [Hs _].
  rewrite (NodeIsNullOrBlack_Shape _ _ _ Hs).
  destruct (IsRed (hue T)) eqn:Eh; cbn [mbind Outcome_bind ASSERT negb].
  { intros [Hb _ _]. by rewrite Hb in Eh. }
  apply IsRed_hue in Eh. pose proof (RecursiveCheck_spec h 0 T (S (size h)) Hs ltac:(lia) ltac:(lia)) as HR.
  destruct (RedBlackTreeRecursiveCheck (S (size h)) (addr T) h); cbn [mbind Outcome_bind]; [|by intros [_ [n Hn] _]; apply HR in Hn|done].
  pose proof (Validate_order h T HT Hr) as HV. cbn [mbind Outcome_bind] in HV |- *. rewrite HV.
  case_decide; [|by intros [_ _ ?]]. destruct HR as (n & Hn & _). split; eauto.
Qed.

Lemma Validate_valid h T :
  TreeAt h T -> Root Tree = addr T -> ValidTree (UserStructCompare Tree) T -> RedBlackTreeValidate Tree h = Done tt.
Proof using HC.
  intros HT Hr [Hb [n Hn] Ho]. unfold RedBlackTreeValidate. rewrite Hr.
  pose proof (TreeAt_size _ _ HT). pose proof (height_entries T). pose proof HT as [Hs _].
  rewrite (NodeIsNullOrBlack_Shape _ _ _ Hs), Hb. cbn [mbind Outcome_bind ASSERT negb IsRed].
  rewrite (RecursiveCheck_RB h 0 T n (S (size h))) by (done || lia).
  pose proof (Validate_order h T HT Hr) as HV. cbn [mbind Outcome_bind] in HV |- *. rewrite HV.
  by rewrite decide_True.
Qed.
End Validate.

(** C8: RedBlackTreeValidate passes exactly for valid trees.  For any tree
    that is properly linked, with fewer than 2^32 - 1 nodes, it returns if the
    red-black properties #3, #4 and #5 hold and the user structures ascend
    strictly, and stops in one of its assertions otherwise. *)
Theorem RedBlackTreeValidate_iff h Tree T :
  OrderedBy (UserStructCompare Tree) -> TreeAt h T -> Root Tree = addr T -> Z.of_nat (size h) < 2 ^ 32 - 1 ->
  (RedBlackTreeValidate Tree h = Done tt <-> ValidTree (UserStructCompare Tree) T) /\
  (RedBlackTreeValidate Tree h = Asserted <-> ~ ValidTree (UserStructCompare Tree) T).
Proof.
  intros HC HT Hr Hz. pose proof (Validate_spec Tree h T HT Hr Hz) as HS.
  destruct (RedBlackTreeValidate Tree h) as [[]| |]; [| |done].
  - split; split; intros H; (done || by destruct H).
  - split; split; intros H; (done || by destruct H).
Qed.

(** ** The comparator of handles *)

(** The comparator that the DXE core gives to its set of handles, for both user
    structures and keys ([Core/Dxe/Hand/Handle.c]). *)
Definition PointerCompare (Pointer1 Pointer2 : Z) : Z :=
  if Pointer1 =? Pointer2 then 0 else if Pointer1 <? Pointer2 then -1 else 1.

Lemma PointerCompare_spec x y :
  (PointerCompare x y = 0 <-> x = y) /\ (PointerCompare x y < 0 <-> x < y) /\ (0 < PointerCompare x y <-> y < x).
Proof. unfold PointerCompare. destruct (Z.eqb_spec x y), (Z.ltb_spec x y); lia. Qed.

#[export] Instance PointerCompare_ordered : OrderedBy PointerCompare.
Proof.
  split.
  - intros x y. unfold PointerCompare. rewrite (Z.eqb_sym y x).
    destruct (Z.eqb_spec x y), (Z.ltb_spec x y), (Z.ltb_spec y x); simpl; lia.
  - intros x y z. pose proof (PointerCompare_spec x y). pose proof (PointerCompare_spec y z).
    pose proof (PointerCompare_spec x z). lia.
Qed.

(** Three nodes: the user structures 30, 50 and 80 at the addresses 10, 11, 12. *)
Definition SampleTree : tree :=
  Node RedBlackTreeBlack (Node RedBlackTreeRed Leaf 10 30 Leaf) 11 50 (Node RedBlackTreeRed Leaf 12 80 Leaf).
Definition SampleHeap : Heap :=
  {[ 10 := MkNode 30 11 0 0 RedBlackTreeRed; 11 := MkNode 50 0 10 12 RedBlackTreeBlack;
     12 := MkNode 80 11 0 0 RedBlackTreeRed ]}.
Definition SampleCollection : ORDERED_COLLECTION := MkCollection 11 PointerCompare PointerCompare.

Lemma Sample_ok : TreeAt SampleHeap SampleTree /\ ValidTree PointerCompare SampleTree.
Proof.
  split; [split|split].
  - by vm_compute.
  - apply (bool_decide_unpack _). by vm_compute.
  - done.
  - exists 1%nat. simpl. exists 0%nat. done.
  - apply (bool_decide_unpack _). by vm_compute.
Qed.

Lemma RedBlackTreeValidate_iff_witness : RedBlackTreeValidate SampleCollection SampleHeap = Done tt.
Proof.
  apply (RedBlackTreeValidate_iff SampleHeap SampleCollection SampleTree PointerCompare_ordered);
    [apply Sample_ok|reflexivity|vm_compute; reflexivity|apply Sample_ok].
Defined.
