(* ===== verification/RbInsert.v ===== *)
(** * Red-black trees in memory: insertion

    The search for the place of a new node, linking it, and the loop that
    restores the red-black properties. *)
From Stdlib Require Import ZArith Lia Sorting.Sorted.
From stdpp Require Import base option gmap list sets sorting.
From S2P Require Import Prelude RbTree RbShape RbWalk RbValid.

(** ** The red-black properties of a context *)

(** A tree of black height [n] whose root has color [c] fits into the hole. *)
Fixpoint RBCtx (k : ctx) (c : RED_BLACK_TREE_COLOR) (n : nat) : Prop :=
  match k with
  | [] => c = RedBlackTreeBlack
  | Frame _ RedBlackTreeBlack _ _ sib :: k => RB sib n /\ RBCtx k RedBlackTreeBlack (S n)
  | Frame _ RedBlackTreeRed _ _ sib :: k =>
    c = RedBlackTreeBlack /\ hue sib = RedBlackTreeBlack /\ RB sib n /\ RBCtx k RedBlackTreeRed n
  end.

Lemma hue_Join s c a u x y : hue (Join s c a u x y) = c.
Proof. by destruct s. Qed.

Lemma RB_paint_black t n : RB t n -> hue t = RedBlackTreeRed -> RB (paint RedBlackTreeBlack t) (S n).
Proof. destruct t as [|[] l a u r]; simpl; [done|..|done]. intros (_ & _ & ? & ?) _. by exists n. Qed.

Lemma RBCtx_cons s c a u sib k t n :
  RB t n -> RBCtx (Frame s c a u sib :: k) (hue t) n ->
  exists m, RB (Join s c a u t sib) m /\ RBCtx k c m.
Proof.
  intros Ht Hk. destruct c; simpl in Hk.
  - destruct Hk as (? & ? & ? & ?). exists n. split; [|done]. apply RB_Join. exists n. by split_and!.
  - destruct Hk as (? & ?). exists (S n). split; [|done]. apply RB_Join. exists n. by split_and!.
Qed.

Lemma RB_plug k t n :
  RB t n -> RBCtx k (hue t) n -> hue (plug k t) = RedBlackTreeBlack /\ exists m, RB (plug k t) m.
Proof.
  revert t n. induction k as [|[s c a u sib] k IH]; intros t n Ht Hk; [by eauto|].
  destruct (RBCtx_cons _ _ _ _ _ _ _ _ Ht Hk) as (m & Hm & Hkm). simpl.
  apply (IH _ m); [done|by rewrite hue_Join].
Qed.

Lemma RB_unplug k t m :
  RB (plug k t) m -> hue (plug k t) = RedBlackTreeBlack -> exists n, RB t n /\ RBCtx k (hue t) n.
Proof.
  revert t. induction k as [|[s c a u sib] k IH]; intros t HR Hb; [by eauto|].
  destruct (IH _ HR Hb) as (n & (n' & Hred & Ht & Hs & ->)%RB_Join & Hk). rewrite hue_Join in Hk.
  exists n'. split; [done|]. destruct c; simpl in *; [|done]. by destruct Hred.
Qed.

Lemma RBCtx_black k c n : RBCtx k c n -> RBCtx k RedBlackTreeBlack n.
Proof. destruct k as [|[s [] a u sib] k]; simpl; tauto. Qed.

(** The parent of a place for a red node below a red one: the grandparent
    exists and is black. *)
Lemma RBCtx_red k n :
  RBCtx k RedBlackTreeRed n ->
  exists s g u uncle k', k = Frame s RedBlackTreeBlack g u uncle :: k' /\ RB uncle n /\ RBCtx k' RedBlackTreeBlack (S n).
Proof.
  destruct k as [|[s [] a u sib] k]; simpl; [done|by intros [? _]|]. intros [? ?]. eauto 10.
Qed.

(** The root is in the context, if there is one. *)
Lemma addr_plug_elem f k t : addr (plug (f :: k) t) ∈ caddrs (f :: k).
Proof.
  revert f t. induction k as [|f' k IH]; intros [s c a u sib] t; simpl.
  - rewrite addr_Join. apply elem_of_caddrs_cons. auto.
  - change (plug (f' :: k) (Join s c a u t sib)) with (plug (f' :: k) (Join s c a u t sib)).
    apply elem_of_caddrs_cons. right; right. apply (IH f').
Qed.

Lemma addr_plug_ne h f k t : TreeAt h (plug (f :: k) t) -> t ≠ Leaf -> addr t ≠ addr (plug (f :: k) t).
Proof.
  intros [_ (_ & _ & Hd)%NoDup_plug] Ht E. apply (Hd (addr t)); [by apply addr_in_addrs|].
  rewrite E. apply addr_plug_elem.
Qed.

Lemma sibling_ne h k s c a u x y : TreeAt h (plug k (Join s c a u x y)) -> x ≠ Leaf -> addr x ≠ addr y.
Proof.
  intros [[(_ & _ & Hs & _)%Shape_Join _]%Shape_plug ((_ & _ & _ & _ & Hd)%NoDup_Join & _)%NoDup_plug] Hx E.
  apply (Hd (addr x)); [by apply addr_in_addrs|]. rewrite E. apply addr_in_addrs. intros ->.
  destruct x; [done|]. by destruct Hs.
Qed.

(** ** One round of the fixup loop *)

Lemma addr_plug_Join k s c a u x y s' c' x' y' :
  addr (plug k (Join s c a u x y)) = addr (plug k (Join s' c' a u x' y')).
Proof. apply addr_plug. by rewrite !addr_Join. Qed.

(** A step of the run is known and leads to a new tree. *)
Ltac run_step E := rewrite E; cbn [mbind Outcome_bind ASSERT negb IsRed]; autorewrite with rb; cbn [top].

Section Step.
Context (h : Heap) (s sp : Side) (p up g ug : Z) (t z uncle : tree) (k : ctx) (n : nat).

Let T := plug k (Join s RedBlackTreeBlack g ug (Join sp RedBlackTreeRed p up t z) uncle).

Hypothesis HT : TreeAt h T.
Hypothesis Hred : hue t = RedBlackTreeRed.
Hypothesis Ht : RB t n.
Hypothesis Hz : hue z = RedBlackTreeBlack.
Hypothesis Hzn : RB z n.
Hypothesis Hu : RB uncle n.
Hypothesis Hk : RBCtx k RedBlackTreeBlack (S n).

(** What a round achieves: a smaller problem of the same kind. *)
Definition StepDone (res : Outcome (Z * Z * Z * Heap)) : Prop :=
  exists h' k' t' n',
    res = Done (addr t', top k', addr (plug k' t'), h') /\ Moves h T h' (plug k' t') /\
    hue t' = RedBlackTreeRed /\ RB t' n' /\ RBCtx k' RedBlackTreeBlack n' /\ (length k' <= S (length k))%nat.

Lemma step_uncle :
  ReadNode g h = Done (NodeOn s ug (top k) p (addr uncle) RedBlackTreeBlack) /\
  NodeIsNullOrBlack (addr uncle) h = Done (negb (IsRed (hue uncle))).
Proof using HT.
  split.
  - rewrite (ReadNode_focus _ _ _ _ _ _ _ _ HT). by rewrite addr_Join.
  - pose proof HT as HT0. unfold T in HT0. rewrite <- Join_swap in HT0.
    exact (NodeIsNullOrBlack_focus h (Frame (Opposite s) RedBlackTreeBlack g ug _ :: k) uncle HT0).
Qed.

Lemma step_uncle_red :
  hue uncle = RedBlackTreeRed -> StepDone (InsertFixupStep s (addr t) p g (addr T) h).
Proof using HT Hred Ht Hz Hzn Hu Hk.
  intros Hur. destruct step_uncle as [Eg Eu]. unfold InsertFixupStep. run_step Eg. run_step Eu. run_step Hur.
  set (P := Join sp RedBlackTreeRed p up t z) in *.
  assert (uncle ≠ Leaf) as Hul by by intros ->.
  destruct (SetColor_focus h (Frame s RedBlackTreeBlack g ug uncle :: k) P RedBlackTreeBlack HT) as (h1 & E1 & M1); [by destruct sp|].
  unfold P in E1. rewrite addr_Join in E1. run_step E1. pose proof (Moves_tree _ _ _ _ M1) as HT1.
  rewrite plug_swap in HT1.
  destruct (SetColor_focus _ _ uncle RedBlackTreeBlack HT1 Hul) as (h2 & E2 & M2). run_step E2.
  pose proof (Moves_tree _ _ _ _ M2) as HT2. rewrite plug_swap, Opposite_involutive in HT2. cbn [plug] in HT2.
  destruct (SetColor_focus _ _ _ RedBlackTreeRed HT2) as (h3 & E3 & M3); [by destruct s|].
  rewrite addr_Join in E3. run_step E3. pose proof (Moves_tree _ _ _ _ M3) as HT3.
  unfold P in HT3, M1, M2, M3. rewrite !paint_Join in *. run_step (ReadNode_focus _ _ _ _ _ _ _ _ HT3).
  cbn [plug] in M1, M2, M3. rewrite !Join_swap in M2.
  eexists h3, k, _, (S n). split_and!; [|eapply Moves_trans; [exact M1|eapply Moves_trans; [exact M2|exact M3]]|..].
  - f_equal. rewrite addr_Join. do 2 f_equal. apply addr_plug_Join.
  - by rewrite hue_Join.
  - apply RB_Join. exists (S n). rewrite hue_Join. split_and!; [|apply RB_Join; by exists n|by apply RB_paint_black|done].
    intros _. by destruct uncle.
  - done.
  - lia.
Qed.

(** The writes and the rotation that end the loop, for [Tmp] and its parent on
    the same side. *)
Lemma step_rotate h1 q uq x y :
  TreeAt h1 (plug k (Join s RedBlackTreeBlack g ug (Join s RedBlackTreeRed q uq x y) uncle)) ->
  Moves h T h1 (plug k (Join s RedBlackTreeBlack g ug (Join s RedBlackTreeRed q uq x y) uncle)) ->
  hue uncle = RedBlackTreeBlack -> hue x = RedBlackTreeRed -> hue y = RedBlackTreeBlack -> RB x n -> RB y n ->
  StepDone
    (h ← WriteNode q (SetColor RedBlackTreeBlack) h1;
     h ← WriteNode g (SetColor RedBlackTreeRed) h;
     '(NewRoot, h) ← RotateTowards (Opposite s) g (addr T) h;
     Done (addr x, q, NewRoot, h)).
Proof using Hu Hk.
  clear HT. intros HT1 M1 Hub Hx Hy HRx HRy.
  destruct (SetColor_focus h1 (Frame s RedBlackTreeBlack g ug uncle :: k) _ RedBlackTreeBlack HT1) as (h2 & E2 & M2); [by destruct s|].
  rewrite addr_Join in E2. run_step E2. cbn [plug] in M2. rewrite paint_Join in M2.
  destruct (SetColor_focus h2 k _ RedBlackTreeRed (Moves_tree _ _ _ _ M2)) as (h3 & E3 & M3); [by destruct s|].
  rewrite addr_Join in E3. run_step E3. rewrite paint_Join in M3.
  pose proof (Moves_tree _ _ _ _ M3) as HT3. rewrite <- Join_swap, <- (Join_swap s _ q) in HT3.
  destruct (RotateTowards_focus _ _ _ _ _ _ _ _ _ _ _ _ HT3) as (h4 & E4 & M4).
  replace (addr T) with (addr (plug k (Join (Opposite s) RedBlackTreeRed g ug uncle (Join (Opposite s) RedBlackTreeBlack q uq y x))))
    by apply addr_plug_Join.
  run_step E4. repeat rewrite Join_swap in M4. repeat rewrite Join_swap.
  exists h4, (Frame s RedBlackTreeBlack q uq (Join s RedBlackTreeRed g ug y uncle) :: k), x, n.
  split_and!; [done| |done|done|split; [|done]|done].
  - eapply Moves_trans; [exact M1|]. eapply Moves_trans; [exact M2|]. eapply Moves_trans; [exact M3|exact M4].
  - apply RB_Join. exists n. by split_and!.
Qed.

Lemma step_uncle_black :
  hue uncle = RedBlackTreeBlack -> StepDone (InsertFixupStep s (addr t) p g (addr T) h).
Proof using HT Hred Ht Hz Hzn Hu Hk.
  intros Hub. destruct step_uncle as [Eg Eu]. unfold InsertFixupStep. run_step Eg. run_step Eu. run_step Hub.
  run_step (ReadNode_focus h (Frame s RedBlackTreeBlack g ug uncle :: k) sp RedBlackTreeRed p up t z HT).
  assert (t ≠ Leaf) as Htl by by intros ->.
  destruct (decide (sp = s)) as [Es|Es].
  - pose proof HT as HT0. unfold T in HT0. rewrite Es in HT0 |- *. autorewrite with rb.
    rewrite (proj2 (Z.eqb_neq _ _))
      by exact (sibling_ne h (Frame s RedBlackTreeBlack g ug uncle :: k) s _ p up t z HT0 Htl).
    apply (step_rotate h p up t z); auto. unfold T. rewrite Es. by apply Moves_refl.
  - assert (sp = Opposite s) as Esp by (destruct s, sp; done).
    assert (exists x a u y, t = Join s RedBlackTreeRed a u x y) as (x & a & u & y & Et).
    { destruct t as [|c l a u r]; [done|]. simpl in Hred. rewrite Hred. destruct s; [by exists l, a, u, r|by exists r, a, u, l]. }
    pose proof Ht as Ht'. rewrite Et in Ht'. apply RB_Join in Ht' as (n' & Hxy & Hx & Hy & En). simpl in En. rewrite <- En in Hx, Hy.
    destruct (Hxy eq_refl) as [Hxb Hyb].
    pose proof HT as HT0. unfold T in HT0. rewrite Esp, Et, Join_swap in HT0.
    destruct (RotateTowards_focus h (Frame s RedBlackTreeBlack g ug uncle :: k) s _ p up _ a u z x y HT0) as (h1 & E1 & M1).
    cbn [plug] in E1, M1. pose proof (Moves_tree _ _ _ _ M1) as HT1.
    rewrite Esp. autorewrite with rb. rewrite Z.eqb_refl.
    replace (addr T) with (addr (plug k (Join s RedBlackTreeBlack g ug (Join s RedBlackTreeRed p up z (Join s RedBlackTreeRed a u x y)) uncle)))
      by apply addr_plug_Join.
    run_step E1.
    run_step (ReadNode_focus h1 (Frame s RedBlackTreeRed a u y :: Frame s RedBlackTreeBlack g ug uncle :: k) s _ _ _ _ _ HT1).
    run_step (ReadNode_focus h1 (Frame s RedBlackTreeBlack g ug uncle :: k) s _ _ _ _ _ HT1).
    run_step (Z.eqb_refl g).
    replace (addr (plug k (Join s RedBlackTreeBlack g ug (Join s RedBlackTreeRed a u (Join s RedBlackTreeRed p up z x) y) uncle)))
      with (addr T) by apply addr_plug_Join.
    pose proof (step_rotate h1 a u (Join s RedBlackTreeRed p up z x) y HT1) as HS. rewrite addr_Join in HS.
    apply HS; [|done|by rewrite hue_Join|done| |done].
    + unfold T. by rewrite Esp, Et, Join_swap.
    + apply RB_Join. exists n. by split_and!.
Qed.
End Step.

(** ** The fixup loop *)

Lemma paint_hue c t : hue t = c -> paint c t = t.
Proof. destruct t; simpl; congruence. Qed.

Lemma plug_not_Leaf k t : t ≠ Leaf -> plug k t ≠ Leaf.
Proof.
  revert t. induction k as [|[s c a u sib] k IH]; intros t Ht; [done|]. simpl. apply IH. by destruct s.
Qed.

(** The parent looks up on which side of the grandparent it is. *)
Lemma side_of_child h k s c a u x y :
  TreeAt h (plug k (Join s c a u x y)) -> x ≠ Leaf ->
  (if addr x =? Left (NodeOn s u (top k) (addr x) (addr y) c) then LeftSide else RightSide) = s.
Proof.
  intros HT Hx. destruct s; simpl; [by rewrite Z.eqb_refl|].
  by rewrite (proj2 (Z.eqb_neq _ _)) by exact (sibling_ne _ _ _ _ _ _ _ _ HT Hx).
Qed.

Lemma InsertFixup_valid fuel h k t n :
  TreeAt h (plug k t) -> hue t = RedBlackTreeRed -> RB t n -> RBCtx k RedBlackTreeBlack n -> (length k < fuel)%nat ->
  exists h' T', InsertFixup fuel (addr t) (top k) (addr (plug k t)) h = Done (addr T', h') /\
    Moves h (plug k t) h' T' /\ T' ≠ Leaf /\ exists m, RB (paint RedBlackTreeBlack T') m.
Proof.
  revert h k t n. induction fuel as [|fuel IH]; intros h k t n HT Hred Ht Hk Hf; [lia|].
  assert (t ≠ Leaf) as Htl by by intros ->.
  destruct k as [|[sp cp p up z] k]; simpl InsertFixup.
  { rewrite Z.eqb_refl. exists h, t. split_and!; [done|by apply Moves_refl|done|].
    exists (S n). by apply RB_paint_black. }
  rewrite (proj2 (Z.eqb_neq _ _)) by exact (addr_plug_ne h _ k t HT Htl).
  run_step (ReadNode_focus h k sp cp p up t z HT). destruct cp; cbn [negb IsRed].
  - destruct Hk as (_ & Hzb & Hzn & (s & g & ug & uncle & k0 & -> & Hun & Hk0)%RBCtx_red). cbn [top plug] in *.
    pose proof (ReadNode_focus h k0 s RedBlackTreeBlack g ug (Join sp RedBlackTreeRed p up t z) uncle HT) as Eg.
    pose proof (side_of_child h k0 s _ g ug _ _ HT ltac:(by destruct sp)) as Es. rewrite addr_Join in Eg, Es.
    rewrite Eg. cbn [mbind Outcome_bind]. rewrite Es.
    assert (StepDone h s sp p up g ug t z uncle k0
              (InsertFixupStep s (addr t) p g (addr (plug k0 (Join s RedBlackTreeBlack g ug (Join sp RedBlackTreeRed p up t z) uncle))) h))
      as (h1 & k1 & t1 & n1 & -> & M1 & Hred1 & Ht1 & Hk1 & Hl1).
    { destruct (hue uncle) eqn:Eu; [eapply step_uncle_red|eapply step_uncle_black]; eauto. }
    cbn [mbind Outcome_bind]. simpl in Hf.
    destruct (IH h1 k1 t1 n1 (Moves_tree _ _ _ _ M1) Hred1 Ht1 Hk1) as (h' & T' & E' & M' & HT'); [lia|].
    exists h', T'. split_and!; [done|by eapply Moves_trans|apply HT'..].
  - exists h, (plug k (Join sp RedBlackTreeBlack p up t z)). split_and!; [done|by apply Moves_refl|by apply plug_not_Leaf; destruct sp|].
    destruct (RB_plug (Frame sp RedBlackTreeBlack p up z :: k) t n Ht Hk) as [Hb [m Hm]].
    exists m. by rewrite paint_hue.
Qed.

(** ** The search *)

(** Where the search ends: at a node that compares equal, or at the leaf where
    the new node belongs. *)
Definition SearchEnd (Compare : Z -> Z -> Z) (User : Z) (T : tree) (Tmp Par Result : Z) : Prop :=
  (exists u, (Tmp, u) ∈ entries T /\ Compare User u = 0) \/
  (Tmp = 0 /\ exists k, T = plug k Leaf /\ Par = top k /\
     (forall s c a u sib k', k = Frame s c a u sib :: k' -> s = if Result <? 0 then LeftSide else RightSide) /\
     (forall e, e ∈ lefts k -> 0 < Compare User e.2) /\ (forall e, e ∈ rights k -> Compare User e.2 < 0)).

Lemma InsertSearch_end Compare User h k t Result fuel :
  OrderedBy Compare -> TreeAt h (plug k t) -> Ascending Compare (entries (plug k t)) ->
  (forall s c a u sib k', k = Frame s c a u sib :: k' -> s = if Result <? 0 then LeftSide else RightSide) ->
  (forall e, e ∈ lefts k -> 0 < Compare User e.2) -> (forall e, e ∈ rights k -> Compare User e.2 < 0) ->
  (height t < fuel)%nat ->
  exists Tmp Par Result', InsertSearch Compare User fuel (addr t) (top k) Result h = Done (Tmp, Par, Result') /\
    (Tmp ≠ 0 -> Tmp ∈ addrs (plug k t)) /\ SearchEnd Compare User (plug k t) Tmp Par Result'.
Proof.
  intros HC. pose proof (OrderedBy_KeyOrderedBy Compare HC) as HK.
  revert k t Result. induction fuel as [|fuel IH]; intros k t Result HT Ho Hs Hl Hr Hf; [lia|].
  destruct t as [|c l a u r].
  { simpl. exists 0, (top k), Result. split_and!; [done|done|]. right. split; [done|]. exists k. by split_and!. }
  destruct (TreeAt_focus h k LeftSide c a u l r HT) as [Ha _]. simpl addr.
  simpl InsertSearch. rewrite (proj2 (Z.eqb_neq _ _)) by done.
  rewrite (ReadNode_focus h k LeftSide c a u l r HT). simpl. simpl in Hf.
  pose proof Ho as Ho'. rewrite entries_plug in Ho'. simpl in Ho'.
  rewrite <- app_assoc in Ho'. simpl in Ho'. rewrite app_assoc in Ho'.
  apply Ascending_middle in Ho' as (_ & _ & Hla & Har & _).
  destruct (Z.eqb_spec (Compare User u) 0) as [E|E].
  { exists a, (top k), (Compare User u). split; [done|]. rewrite E. 
    assert ((a, u) ∈ entries (plug k (Node c l a u r))) as Hin.
    { rewrite entries_plug, !elem_of_app. simpl. rewrite elem_of_app, elem_of_cons. tauto. }
    split; [intros _; apply list_elem_of_fmap; by exists (a, u)|left; eauto]. }
  destruct (Z.ltb_spec (Compare User u) 0).
  - apply (IH (Frame LeftSide c a u r :: k) l); [done|done| |done| |lia].
    + intros ? ? ? ? ? ? [= <- _ _ _ _ _]. by rewrite (proj2 (Z.ltb_lt _ _)).
    + intros e. simpl. rewrite elem_of_cons, elem_of_app. intros [->|[He|He]]; [done| |auto].
      apply (KeyCompare_left User u); [lia|]. apply (Har e). rewrite elem_of_app. auto.
  - apply (IH (Frame RightSide c a u l :: k) r); [done|done| | |done|lia].
    + intros ? ? ? ? ? ? [= <- _ _ _ _ _]. by rewrite (proj2 (Z.ltb_ge _ _)).
    + intros e. simpl. rewrite !elem_of_app, list_elem_of_singleton. intros [He|[He| ->]]; [auto| |simpl; lia].
      apply (KeyCompare_right User _ u); [lia|]. apply (Hla e). rewrite elem_of_app. auto.
Qed.

(** ** Linking the new node *)

Lemma plug_Leaf_link h s c a u sib k p User c' :
  TreeAt h (plug (Frame s c a u sib :: k) Leaf) -> p ≠ 0 -> h !! p = None ->
  exists h', (h ← WriteNode a (SetChild s p) (<[p := MkNode User a 0 0 c']> h);
              WriteNode p (SetColor RedBlackTreeRed) h) = Done h' /\
    TreeAt h' (plug (Frame s c a u sib :: k) (Node RedBlackTreeRed Leaf p User Leaf)) /\
    (forall q, q ≠ p -> q ≠ a -> h' !! q = h !! q).
Proof.
  intros HT Hp Hn. pose proof HT as [[_ (Ha & Hna & Hsib & Hk)]%Shape_plug (_ & Hd & _)%NoDup_plug].
  assert (forall q, q ∈ addrs (plug (Frame s c a u sib :: k) Leaf) -> q ≠ p) as Hq.
  { intros q Hq ->. apply (Shape_addr h 0 _ p) in Hq as [_ [? Hq]]; [congruence|apply HT]. }
  assert (a ≠ p) as Hap by (apply Hq, elem_of_plug; right; apply elem_of_caddrs_cons; auto).
  erewrite WriteNode_Done by (rewrite lookup_insert_ne by done; exact Hna). cbn [mbind Outcome_bind].
  erewrite WriteNode_Done by (rewrite lookup_insert_ne by done; apply lookup_insert_eq).
  eexists. split; [done|]. pose proof Hd as (_ & _ & Has & Hak & _)%NoDup_caddrs_cons.
  assert (forall q v w x, q ≠ p -> q ≠ a -> <[p := v]> (<[a := w]> (<[p := x]> h)) !! q = h !! q) as Hout
    by (intros; by rewrite !lookup_insert_ne).
  split; [split|by intros; apply Hout].
  - apply Shape_plug. split; [by split_and!; [|apply lookup_insert_eq|..]|]. split_and!.
    + done.
    + rewrite lookup_insert_ne, lookup_insert_eq by done. by autorewrite with rb.
    + eapply Shape_agree; [exact Hsib|]. intros q ?. apply Hout; [|by intros ->].
      apply Hq, elem_of_plug. right. apply elem_of_caddrs_cons. auto.
    + eapply CtxShape_agree; [exact Hk|]. intros q ?. apply Hout; [|by intros ->].
      apply Hq, elem_of_plug. right. apply elem_of_caddrs_cons. auto.
  - apply NoDup_plug. split_and!; [apply NoDup_singleton|done|].
    intros q Hq'%list_elem_of_singleton Hc. apply (Hq q); [|done]. apply elem_of_plug. auto.
Qed.

Lemma InsertLink_valid Tree h k p c Result User m :
  TreeAt h (plug k Leaf) -> Root Tree = addr (plug k Leaf) ->
  RB (plug k Leaf) m -> hue (plug k Leaf) = RedBlackTreeBlack -> p ≠ 0 -> h !! p = None ->
  (forall s c a u sib k', k = Frame s c a u sib :: k' -> s = if Result <? 0 then LeftSide else RightSide) ->
  exists h' T', InsertLink Tree p (top k) Result User (<[p := c]> h) = Done (SetRoot (addr T') Tree, h') /\
    TreeAt h' T' /\ entries T' = lefts k ++ (p, User) :: rights k /\ hue T' = RedBlackTreeBlack /\
    (exists m, RB T' m) /\ (forall q : Z, (q ∉ addrs (plug k Leaf)) -> q ≠ p -> h' !! q = h !! q).
Proof.
  intros HT Hr HR Hb Hp Hn Hside. unfold InsertLink.
  do 4 (erewrite WriteNode_Done by apply lookup_insert_eq; cbn [mbind Outcome_bind]; rewrite insert_insert_eq).
  change (SetRight 0 _) with (MkNode User (top k) 0 0 (Color c)).
  destruct k as [|[s cs a u sib] k]; cbn [top].
  - erewrite WriteNode_Done by apply lookup_insert_eq. cbn [mbind Outcome_bind Z.eqb].
    eexists _, (Node RedBlackTreeBlack Leaf p User Leaf). split; [done|]. rewrite insert_insert_eq.
    split_and!; [|done|done|by exists 1%nat, 0%nat|].
    + split; [|apply NoDup_singleton]. simpl. by rewrite lookup_insert_eq.
    + intros q _ Hq. by rewrite lookup_insert_ne.
  - pose proof HT as [[_ (Ha & _)]%Shape_plug _]. rewrite (proj2 (Z.eqb_neq _ _)) by done.
    rewrite <- (Hside _ _ _ _ _ _ eq_refl).
    destruct (plug_Leaf_link h s cs a u sib k p User (Color c) HT Hp Hn) as (h1 & (h0 & E0 & E1)%Outcome_bind_Done & HT1 & Hf1).
    rewrite E0. cbn [mbind Outcome_bind]. rewrite E1. cbn [mbind Outcome_bind].
    destruct (RB_unplug _ _ _ HR Hb) as (n & Hn0 & Hk). simpl in Hn0. subst n. apply RBCtx_black in Hk.
    pose proof (TreeAt_size _ _ HT1) as Hsz. pose proof (height_entries (plug (Frame s cs a u sib :: k) (Node RedBlackTreeRed Leaf p User Leaf))) as Hh.
    pose proof (height_plug (Frame s cs a u sib :: k) (Node RedBlackTreeRed Leaf p User Leaf)) as Hh'.
    destruct (InsertFixup_valid (S (size h1)) h1 (Frame s cs a u sib :: k) (Node RedBlackTreeRed Leaf p User Leaf) 0)
      as (h2 & T2 & E2 & M2 & HT2 & m2 & Hm2); [done..|lia|].
    rewrite Hr, (addr_plug_cons _ _ _ (Node RedBlackTreeRed Leaf p User Leaf)).
    cbn [addr top] in E2. rewrite E2. cbn [mbind Outcome_bind].
    destruct (SetColor_focus h2 [] T2 RedBlackTreeBlack (Moves_tree _ _ _ _ M2) HT2) as (h3 & -> & M3).
    cbn [mbind Outcome_bind]. cbn [plug] in M3.
    pose proof (Moves_trans _ _ _ _ _ _ M2 M3) as [HT3 He3 Hf3].
    exists h3, (paint RedBlackTreeBlack T2). rewrite addr_paint. split_and!; [done|done| |by destruct T2|eauto|].
    + rewrite He3. apply (entries_plug (Frame s cs a u sib :: k)).
    + intros q Hq1 Hq2. rewrite Hf3, Hf1; [done|done|..].
      * intros ->. apply Hq1, elem_of_plug. right. apply elem_of_caddrs_cons. auto.
      * change (q ∉ addrs (plug (Frame s cs a u sib :: k) (Node RedBlackTreeRed Leaf p User Leaf))).
        rewrite elem_of_plug. intros [H%list_elem_of_singleton|H]; [done|]. apply Hq1, elem_of_plug. auto.
Qed.
