(* ===== verification/RbDelete.v ===== *)
(** * Red-black trees in memory: deletion

    Unlinking a node (or its successor, which then takes its place), and the
    loop that carries the black-increment of an unlinked black node up to a
    place where it can be dropped. *)
From Stdlib Require Import ZArith Lia.
From stdpp Require Import base option gmap list sets.
From S2P Require Import Prelude RbTree RbShape RbWalk RbValid RbInsert.

(** ** The fixup loop *)

(** A child that lacks one black node: black of height [n], or red over two
    trees of height [n] (and then painting it black repairs it). *)
Definition Deficient (x : tree) (n : nat) : Prop :=
  match x with Node RedBlackTreeRed l _ _ r => RB l n /\ RB r n | _ => RB x n end.

Lemma Deficient_black x n : hue x = RedBlackTreeBlack -> Deficient x n <-> RB x n.
Proof. destruct x as [|[] l a u r]; simpl; (done || tauto). Qed.

Lemma Deficient_Join s c p u x y n :
  RB x n -> RB y n -> (c = RedBlackTreeBlack -> Deficient (Join s c p u x y) (S n)) /\
                      (c = RedBlackTreeRed -> Deficient (Join s c p u x y) n).
Proof. intros Hx Hy. destruct s, c; simpl; split; try done; intros _; eauto. Qed.

(** The height at which the parent of the hole fits. *)
Definition lifted (c : RED_BLACK_TREE_COLOR) (n : nat) : nat := if IsRed c then n else S n.

Lemma RBCtx_parent s c p u sib k n :
  RBCtx (Frame s c p u sib :: k) RedBlackTreeBlack n <->
  RB sib n /\ (c = RedBlackTreeRed -> hue sib = RedBlackTreeBlack) /\ RBCtx k c (lifted c n).
Proof. destruct c; simpl; intuition congruence. Qed.

Lemma RB_S_node x n s :
  RB x (S n) -> hue x = RedBlackTreeBlack -> exists q uq y z, x = Join s RedBlackTreeBlack q uq y z /\ RB y n /\ RB z n.
Proof.
  destruct x as [|[] l a u r]; simpl; [done|done|]. intros (m & [= <-] & Hl & Hr) _.
  destruct s; [by exists a, u, l, r|by exists a, u, r, l].
Qed.

Lemma RB_red_node x n s :
  RB x n -> hue x = RedBlackTreeRed ->
  exists q uq y z, x = Join s RedBlackTreeRed q uq y z /\ RB y n /\ RB z n /\
                   hue y = RedBlackTreeBlack /\ hue z = RedBlackTreeBlack.
Proof.
  destruct x as [|[] l a u r]; simpl; [done| |done]. intros (? & ? & ? & ?) _.
  destruct s; [by exists a, u, l, r|by exists a, u, r, l].
Qed.

(** The nodes that a round of the loop reads. *)
Lemma read_sibling h k s c p up x c' q uq y z :
  TreeAt h (plug k (Join s c p up x (Join s c' q uq y z))) ->
  ReadNode p h = Done (NodeOn s up (top k) (addr x) q c) /\
  ReadNode q h = Done (NodeOn s uq p (addr y) (addr z) c') /\
  NodeIsNullOrBlack (addr y) h = Done (negb (IsRed (hue y))) /\
  NodeIsNullOrBlack (addr z) h = Done (negb (IsRed (hue z))) /\ p ≠ 0 /\ q ≠ 0.
Proof.
  intros HT. pose proof HT as HT1. rewrite <- Join_swap in HT1.
  change (TreeAt h (plug (Frame (Opposite s) c p up x :: k) (Join s c' q uq y z))) in HT1.
  pose proof HT1 as HT2. rewrite <- (Join_swap s c') in HT2.
  split_and!.
  - rewrite (ReadNode_focus _ _ _ _ _ _ _ _ HT). by rewrite addr_Join.
  - by rewrite (ReadNode_focus _ _ _ _ _ _ _ _ HT1).
  - exact (NodeIsNullOrBlack_focus h (Frame s c' q uq z :: Frame (Opposite s) c p up x :: k) y HT1).
  - exact (NodeIsNullOrBlack_focus h (Frame (Opposite s) c' q uq y :: Frame (Opposite s) c p up x :: k) z HT2).
  - by apply (TreeAt_focus _ _ _ _ _ _ _ _ HT).
  - by apply (TreeAt_focus _ _ _ _ _ _ _ _ HT1).
Qed.

(** Painting the sibling, its children and the parent. *)
Section Paint.
Context (h : Heap) (k : ctx) (s : Side) (c : RED_BLACK_TREE_COLOR) (p up : Z) (x sib : tree).
Hypothesis HT : TreeAt h (plug k (Join s c p up x sib)).

Lemma paint_parent c' :
  exists h', WriteNode p (SetColor c') h = Done h' /\
    Moves h (plug k (Join s c p up x sib)) h' (plug k (Join s c' p up x sib)).
Proof using HT.
  destruct (SetColor_focus h k _ c' HT) as (h' & E & M); [by destruct s|].
  rewrite addr_Join in E. rewrite paint_Join in M. eauto.
Qed.

Lemma paint_sibling c' :
  sib ≠ Leaf ->
  exists h', WriteNode (addr sib) (SetColor c') h = Done h' /\
    Moves h (plug k (Join s c p up x sib)) h' (plug k (Join s c p up x (paint c' sib))).
Proof using HT.
  intros Hs. pose proof HT as HT1. rewrite <- Join_swap in HT1.
  destruct (SetColor_focus h (Frame (Opposite s) c p up x :: k) sib c' HT1 Hs) as (h' & E & M).
  exists h'. split; [done|]. cbn [plug] in M. by repeat rewrite Join_swap in M.
Qed.
End Paint.

(** A state of the loop: [x] lacks one black node in the context [k]. *)
Record Lacking (h : Heap) (k : ctx) (x : tree) (n : nat) : Prop := {
  Lacking_tree : TreeAt h (plug k x);
  Lacking_child : Deficient x n;
  Lacking_ctx : RBCtx k RedBlackTreeBlack (S n) }.

(** Painting the nephews. *)
Lemma paint_far h k s c p up x c' q uq y z c'' :
  TreeAt h (plug k (Join s c p up x (Join s c' q uq y z))) -> z ≠ Leaf ->
  exists h', WriteNode (addr z) (SetColor c'') h = Done h' /\
    Moves h (plug k (Join s c p up x (Join s c' q uq y z))) h' (plug k (Join s c p up x (Join s c' q uq y (paint c'' z)))).
Proof.
  intros HT Hz. rewrite <- Join_swap in HT.
  destruct (paint_sibling h (Frame (Opposite s) c p up x :: k) s c' q uq y z HT c'' Hz) as (h' & E & M).
  exists h'. split; [done|]. cbn [plug] in M. by repeat rewrite (Join_swap s c p) in M.
Qed.

Lemma paint_near h k s c p up x c' q uq y z c'' :
  TreeAt h (plug k (Join s c p up x (Join s c' q uq y z))) -> y ≠ Leaf ->
  exists h', WriteNode (addr y) (SetColor c'') h = Done h' /\
    Moves h (plug k (Join s c p up x (Join s c' q uq y z))) h' (plug k (Join s c p up x (Join s c' q uq (paint c'' y) z))).
Proof.
  intros HT Hy. rewrite <- Join_swap in HT.
  destruct (SetColor_focus h (Frame s c' q uq z :: Frame (Opposite s) c p up x :: k) y c'' HT Hy) as (h' & E & M).
  exists h'. split; [done|]. cbn [plug] in M. by repeat rewrite (Join_swap s c p) in M.
Qed.

Lemma read_far h k s c p up x c' q uq y z :
  TreeAt h (plug k (Join s c p up x (Join s c' q uq y z))) -> z ≠ Leaf ->
  addr z ≠ 0 /\ exists n, ReadNode (addr z) h = Done n /\ Color n = hue z.
Proof.
  intros HT Hz. rewrite <- (Join_swap s c), <- (Join_swap s c') in HT. destruct z as [|cz l a u r]; [done|].
  change (TreeAt h (plug (Frame (Opposite s) c' q uq y :: Frame (Opposite s) c p up x :: k) (Join LeftSide cz a u l r))) in HT.
  split; [by apply (TreeAt_focus _ _ _ _ _ _ _ _ HT)|]. eexists. split; [by apply (ReadNode_focus _ _ _ _ _ _ _ _ HT)|done].
Qed.

Lemma DeleteFlush_valid h k s c p up x q uq y z n :
  let T := plug k (Join s c p up x (Join s RedBlackTreeBlack q uq y z)) in
  TreeAt h T -> RB x n -> RB y n -> RB z n -> hue z = RedBlackTreeRed -> RBCtx k c (lifted c (S n)) ->
  exists h' T', DeleteFlush s p q (addr z) (addr T) h = Done (addr T', p, addr T', h') /\ Moves h T h' T' /\
    hue T' = RedBlackTreeBlack /\ exists m, RB T' m.
Proof.
  intros T HT Hx Hy Hz Hzr Hk. assert (z ≠ Leaf) as Hzl by by intros ->.
  destruct (read_sibling _ _ _ _ _ _ _ _ _ _ _ _ HT) as (Ep & Eq & _ & _ & Hp & Hq).
  destruct (read_far _ _ _ _ _ _ _ _ _ _ _ _ HT Hzl) as (Hza & nz & Ez & Cz). rewrite Hzr in Cz.
  unfold DeleteFlush. run_step (proj2 (Z.eqb_neq _ _) Hza). run_step Ez. run_step Cz. run_step (proj2 (Z.eqb_neq _ _) Hq).
  run_step Eq. run_step Ep.
  destruct (paint_sibling _ _ _ _ _ _ _ _ HT c) as (h1 & E1 & M1); [by destruct s|]. rewrite addr_Join in E1. run_step E1.
  rewrite paint_Join in M1.
  destruct (paint_parent _ _ _ _ _ _ _ _ (Moves_tree _ _ _ _ M1) RedBlackTreeBlack) as (h2 & E2 & M2). run_step E2.
  destruct (paint_far _ _ _ _ _ _ _ _ _ _ _ _ RedBlackTreeBlack (Moves_tree _ _ _ _ M2) Hzl) as (h3 & E3 & M3). run_step E3.
  destruct (RotateTowards_focus _ _ _ _ _ _ _ _ _ _ _ _ (Moves_tree _ _ _ _ M3)) as (h4 & E4 & M4).
  replace (addr T) with (addr (plug k (Join s RedBlackTreeBlack p up x (Join s c q uq y (paint RedBlackTreeBlack z)))))
    by apply addr_plug_Join.
  run_step E4. eexists h4, _. split; [done|]. split.
  { eapply Moves_trans; [exact M1|]. eapply Moves_trans; [exact M2|]. by eapply Moves_trans. }
  apply (RB_plug _ _ (lifted c (S n))); [|by rewrite hue_Join].
  apply RB_Join. exists (S n). split_and!; [by destruct s, z| |by apply RB_paint_black|done].
  apply RB_Join. exists n. by split_and!.
Qed.

(** After [DeleteRedFarNephew] the far nephew is red. *)
Lemma DeleteRedFarNephew_valid h k s c p up x q uq y z n :
  let T := plug k (Join s c p up x (Join s RedBlackTreeBlack q uq y z)) in
  TreeAt h T -> RB y n -> RB z n -> (hue y = RedBlackTreeRed \/ hue z = RedBlackTreeRed) ->
  exists h' q' uq' y' z',
    let T' := plug k (Join s c p up x (Join s RedBlackTreeBlack q' uq' y' z')) in
    DeleteRedFarNephew s p q (addr y) (addr z) (addr T) h = Done (q', addr z', addr T', h') /\
    Moves h T h' T' /\ RB y' n /\ RB z' n /\ hue z' = RedBlackTreeRed.
Proof.
  intros T HT Hy Hz Hor. destruct (read_sibling _ _ _ _ _ _ _ _ _ _ _ _ HT) as (Ep & Eq & Ey & Ez & Hp & Hq).
  unfold DeleteRedFarNephew. run_step Ez. destruct (hue z) eqn:Ehz; cbn [negb IsRed].
  { exists h, q, uq, y, z. split_and!; done. }
  assert (hue y = RedBlackTreeRed) as Hyr by by destruct Hor. assert (y ≠ Leaf) as Hyl by by intros ->.
  destruct (paint_near _ _ _ _ _ _ _ _ _ _ _ _ RedBlackTreeBlack HT Hyl) as (h1 & E1 & M1). run_step E1.
  destruct (paint_sibling _ _ _ _ _ _ _ _ (Moves_tree _ _ _ _ M1) RedBlackTreeRed) as (h2 & E2 & M2); [by destruct s|].
  rewrite addr_Join in E2. run_step E2. rewrite paint_Join in M2.
  destruct (RB_red_node y n s Hy Hyr) as (b & ub & y1 & y2 & -> & Hy1 & Hy2 & Hb1 & Hb2). rewrite paint_Join in M1, M2.
  pose proof (Moves_tree _ _ _ _ M2) as HT2. rewrite <- (Join_swap s c), <- (Join_swap s RedBlackTreeRed q), <- (Join_swap s _ b) in HT2.
  destruct (RotateTowards_focus h2 (Frame (Opposite s) c p up x :: k) (Opposite s) _ _ _ _ _ _ _ _ _ HT2) as (h3 & E3 & M3).
  cbn [plug] in E3, M3. repeat rewrite Join_swap in E3. repeat rewrite Join_swap in M3.
  replace (addr T) with (addr (plug k (Join s c p up x (Join s RedBlackTreeRed q uq (Join s RedBlackTreeBlack b ub y1 y2) z))))
    by apply addr_plug_Join.
  run_step E3. destruct (read_sibling _ _ _ _ _ _ _ _ _ _ _ _ (Moves_tree _ _ _ _ M3)) as (Ep3 & Eq3 & _).
  run_step Ep3. run_step Eq3.
  exists h3, b, ub, y1, (Join s RedBlackTreeRed q uq y2 z). rewrite addr_Join, hue_Join. split_and!; [done| |done| |done].
  - eapply Moves_trans; [exact M1|]. by eapply Moves_trans.
  - apply RB_Join. exists n. by split_and!.
Qed.

(** After [DeleteBlackSibling] the sibling is black; the context of the child
    may have grown by one node, but then its parent is red. *)
Lemma DeleteBlackSibling_valid h k s c p up x sib n :
  let T := plug k (Join s c p up x sib) in
  TreeAt h T -> RB sib (S n) -> (c = RedBlackTreeRed -> hue sib = RedBlackTreeBlack) ->
  RBCtx k c (lifted c (S n)) ->
  exists h' k' c' q uq y z,
    let T' := plug k' (Join s c' p up x (Join s RedBlackTreeBlack q uq y z)) in
    DeleteBlackSibling s p (addr T) h = Done (q, addr T', h') /\ Moves h T h' T' /\
    RB y n /\ RB z n /\ RBCtx k' c' (lifted c' (S n)) /\
    (length k' = length k \/ length k' = S (length k) /\ c' = RedBlackTreeRed).
Proof.
  intros T HT Hs Hcs Hk. destruct (hue sib) eqn:Eh.
  - destruct c; [specialize (Hcs eq_refl); congruence|]. simpl in Hk.
    destruct (RB_red_node _ _ s Hs Eh) as (q & uq & y & z & -> & Hy & Hz & Hby & Hbz).
    destruct (read_sibling _ _ _ _ _ _ _ _ _ _ _ _ HT) as (Ep & Eq & _ & _ & _ & Hq).
    unfold DeleteBlackSibling. run_step Ep. run_step (proj2 (Z.eqb_neq _ _) Hq). run_step Eq.
    destruct (paint_sibling _ _ _ _ _ _ _ _ HT RedBlackTreeBlack) as (h1 & E1 & M1); [by destruct s|].
    rewrite addr_Join in E1. run_step E1. rewrite paint_Join in M1.
    destruct (paint_parent _ _ _ _ _ _ _ _ (Moves_tree _ _ _ _ M1) RedBlackTreeRed) as (h2 & E2 & M2). run_step E2.
    destruct (RotateTowards_focus _ _ _ _ _ _ _ _ _ _ _ _ (Moves_tree _ _ _ _ M2)) as (h3 & E3 & M3).
    replace (addr T) with (addr (plug k (Join s RedBlackTreeRed p up x (Join s RedBlackTreeBlack q uq y z))))
      by apply addr_plug_Join.
    run_step E3. destruct (RB_S_node y n s Hy Hby) as (b & ub & y1 & y2 & -> & Hy1 & Hy2).
    destruct (read_sibling h3 (Frame s RedBlackTreeBlack q uq z :: k) _ _ _ _ _ _ _ _ _ _ (Moves_tree _ _ _ _ M3))
      as (Ep3 & _ & _ & _ & _ & Hb).
    run_step Ep3. run_step (proj2 (Z.eqb_neq _ _) Hb).
    exists h3, (Frame s RedBlackTreeBlack q uq z :: k), RedBlackTreeRed, b, ub, y1, y2.
    split_and!; [done| |done|done|by split|by right].
    eapply Moves_trans; [exact M1|]. eapply Moves_trans; [exact M2|exact M3].
  - destruct (RB_S_node sib n s Hs Eh) as (q & uq & y & z & -> & Hy & Hz).
    destruct (read_sibling _ _ _ _ _ _ _ _ _ _ _ _ HT) as (Ep & Eq & _ & _ & _ & Hq).
    unfold DeleteBlackSibling. run_step Ep. run_step (proj2 (Z.eqb_neq _ _) Hq). run_step Eq.
    exists h, k, c, q, uq, y, z. split_and!; [done|by apply Moves_refl|done|done|done|by left].
Qed.

(** One round: either the child is now a smaller problem, or all is repaired. *)
Lemma DeleteFixupStep_valid h k s c p up x sib n :
  let T := plug k (Join s c p up x sib) in
  TreeAt h T -> hue x = RedBlackTreeBlack -> RB x n -> RBCtx (Frame s c p up sib :: k) RedBlackTreeBlack (S n) ->
  exists h',
    (exists k' x' n', DeleteFixupStep s p (addr T) h = Done (addr x', top k', addr (plug k' x'), h') /\
       Moves h T h' (plug k' x') /\ Lacking h' k' x' n' /\
       (length k' = length k \/ length k' = S (length k) /\ hue x' = RedBlackTreeRed)) \/
    (exists T', DeleteFixupStep s p (addr T) h = Done (addr T', p, addr T', h') /\ Moves h T h' T' /\
       hue T' = RedBlackTreeBlack /\ exists m, RB T' m).
Proof.
  intros T HT Hxb Hx (Hs & Hcs & Hk)%RBCtx_parent. subst T.
  destruct (DeleteBlackSibling_valid h k s c p up x sib n HT Hs Hcs Hk)
    as (h1 & k1 & c1 & q & uq & y & z & E1 & M1 & Hy & Hz & Hk1 & Hl1).
  unfold DeleteFixupStep. run_step E1. pose proof (Moves_tree _ _ _ _ M1) as HT1.
  destruct (read_sibling _ _ _ _ _ _ _ _ _ _ _ _ HT1) as (Ep & Eq & Ey & Ez & _ & _).
  run_step Eq. run_step Ey.
  destruct (decide (hue y = RedBlackTreeBlack /\ hue z = RedBlackTreeBlack)) as [[Hyb Hzb]|Hred].
  - rewrite Hyb. cbn [negb IsRed]. run_step Ez. rewrite Hzb. cbn [negb IsRed].
    destruct (paint_sibling _ _ _ _ _ _ _ _ HT1 RedBlackTreeRed) as (h2 & E2 & M2); [by destruct s|].
    rewrite addr_Join in E2. run_step E2. rewrite paint_Join in M2. pose proof (Moves_tree _ _ _ _ M2) as HT2.
    run_step (ReadNode_focus _ _ _ _ _ _ _ _ HT2). exists h2. left.
    assert (RB (Join s RedBlackTreeRed q uq y z) n) as Hsib by (apply RB_Join; exists n; by split_and!).
    exists k1, (Join s c1 p up x (Join s RedBlackTreeRed q uq y z)), (if IsRed c1 then n else S n).
    rewrite addr_Join, hue_Join. split_and!.
    + do 2 f_equal. f_equal. apply addr_plug_Join.
    + by eapply Moves_trans.
    + split; [done|destruct c1; by apply (Deficient_Join s _ p up x _ n)|]. destruct c1; [by apply RBCtx_black in Hk1|done].
    + done.
  - assert (hue y = RedBlackTreeRed \/ hue z = RedBlackTreeRed) as Hor by (destruct (hue y), (hue z); tauto).
    assert ((if negb (IsRed (hue y)) then NodeIsNullOrBlack (addr z) h1 else Done false) = Done false) as EB
      by (destruct (hue y); cbn [negb IsRed]; [done|]; rewrite Ez; destruct Hor as [|Hzr]; [done|by rewrite Hzr]).
    run_step EB.
    destruct (DeleteRedFarNephew_valid h1 k1 s c1 p up x q uq y z n HT1 Hy Hz Hor) as (h2 & q' & uq' & y' & z' & E2 & M2 & Hy' & Hz' & Hzr).
    run_step E2.
    destruct (DeleteFlush_valid h2 k1 s c1 p up x q' uq' y' z' n (Moves_tree _ _ _ _ M2) Hx Hy' Hz' Hzr Hk1) as (h3 & T3 & E3 & M3 & HR).
    exists h3. right. exists T3. split_and!; [done| |apply HR..].
    eapply Moves_trans; [exact M1|]. by eapply Moves_trans.
Qed.

Lemma child_ne_root h f k x : TreeAt h (plug (f :: k) x) -> addr x ≠ addr (plug (f :: k) x).
Proof.
  intros HT. destruct (decide (x = Leaf)) as [->|Hx]; [|by eapply addr_plug_ne].
  pose proof HT as [Hs _]. intros E. apply (Shape_addr h 0 _ 0) in Hs as [? _]; [done|].
  apply elem_of_plug. right. change (addr Leaf) with 0 in E. rewrite E. apply addr_plug_elem.
Qed.

Lemma Deficient_paint x n : Deficient x n -> hue x = RedBlackTreeRed -> RB (paint RedBlackTreeBlack x) (S n).
Proof. destruct x as [|[] l a u r]; simpl; (done || eauto). Qed.

Lemma DeleteFixup_valid fuel h k x n :
  Lacking h k x n -> (length k + (if IsRed (hue x) then 0 else 1) < fuel)%nat ->
  exists h' k' x', DeleteFixup fuel (addr x) (top k) (addr (plug k x)) h = Done (addr x', addr (plug k' x'), h') /\
    Moves h (plug k x) h' (plug k' x') /\
    hue (plug k' (paint RedBlackTreeBlack x')) = RedBlackTreeBlack /\ exists m, RB (plug k' (paint RedBlackTreeBlack x')) m.
Proof.
  revert h k x n. induction fuel as [|fuel IH]; intros h k x n [HT Hx Hk] Hf; [lia|].
  assert (hue x = RedBlackTreeRed -> hue (plug k (paint RedBlackTreeBlack x)) = RedBlackTreeBlack /\
          exists m, RB (plug k (paint RedBlackTreeBlack x)) m) as Hend.
  { intros Hr. apply (RB_plug k _ (S n)); [by apply Deficient_paint|by destruct x]. }
  destruct k as [|[s c p up sib] k]; cbn [DeleteFixup].
  { rewrite Z.eqb_refl. exists h, [], x. split_and!; [done|by apply Moves_refl|..]; simpl; [by destruct x|].
    destruct (hue x) eqn:Eh; [by destruct (Hend eq_refl)|]. rewrite paint_hue by done.
    exists n. by apply Deficient_black. }
  rewrite (proj2 (Z.eqb_neq _ _)) by by eapply child_ne_root. rewrite (NodeIsNullOrBlack_focus _ _ _ HT).
  cbn [mbind Outcome_bind]. destruct (hue x) eqn:Eh; cbn [negb IsRed] in Hf |- *.
  { exists h, (Frame s c p up sib :: k), x. split_and!; [done|by apply Moves_refl|by apply Hend..]. }
  apply Deficient_black in Hx; [|done]. pose proof Hk as (Hs & _)%RBCtx_parent.
  assert (sib ≠ Leaf) as Hsl by by intros ->. cbn [top plug length] in *.
  rewrite (ReadNode_focus _ _ _ _ _ _ _ _ HT). cbn [mbind Outcome_bind].
  assert ((if addr x =? Left (NodeOn s up (top k) (addr x) (addr sib) c) then LeftSide else RightSide) = s) as ->.
  { destruct s; simpl; [by rewrite Z.eqb_refl|]. rewrite <- (Join_swap RightSide) in HT.
    pose proof (sibling_ne _ _ _ _ _ _ _ _ HT Hsl). by rewrite (proj2 (Z.eqb_neq _ _)). }
  destruct (DeleteFixupStep_valid h k s c p up x sib n HT Eh Hx Hk)
    as (h1 & [(k1 & x1 & n1 & -> & M1 & HL1 & Hl1)|(T1 & -> & M1 & Hb1 & Hm1)]); cbn [mbind Outcome_bind].
  - destruct (IH h1 k1 x1 n1 HL1) as (h2 & k2 & x2 & E2 & M2 & HR2).
    { destruct Hl1 as [->|[-> ->]]; [destruct (IsRed (hue x1))|]; simpl; lia. }
    exists h2, k2, x2. split_and!; [done|by eapply Moves_trans|apply HR2..].
  - destruct fuel as [|fuel]; [lia|]. cbn [DeleteFixup]. rewrite Z.eqb_refl.
    exists h1, [], T1. split_and!; [done|done|..]; simpl; by rewrite paint_hue.
Qed.

(** The loop and the color of the last child. *)
Lemma DeleteFixup_painted fuel h k x n :
  Lacking h k x n -> (S (length k) < fuel)%nat ->
  exists h' T',
    ('(Child, NewRoot, h) ← DeleteFixup fuel (addr x) (top k) (addr (plug k x)) h;
     h ← (if negb (Child =? 0) then WriteNode Child (SetColor RedBlackTreeBlack) h else Done h);
     Done (NewRoot, h)) = Done (addr T', h') /\
    Moves h (plug k x) h' T' /\ hue T' = RedBlackTreeBlack /\ exists m, RB T' m.
Proof.
  intros HL Hf. destruct (DeleteFixup_valid fuel h k x n HL) as (h1 & k1 & x1 & -> & M1 & HR1); [destruct (IsRed _); lia|].
  cbn [mbind Outcome_bind]. destruct (decide (x1 = Leaf)) as [->|Hl1].
  - exists h1, (plug k1 Leaf). split_and!; [done|done|apply HR1..].
  - pose proof (Moves_tree _ _ _ _ M1) as HT1. destruct (SetColor_focus h1 k1 x1 RedBlackTreeBlack HT1 Hl1) as (h2 & E2 & M2).
    assert (addr x1 ≠ 0) as Ha.
    { destruct x1 as [|c l a u r]; [done|]. by apply (TreeAt_focus h1 k1 LeftSide c a u l r HT1). }
    rewrite (proj2 (Z.eqb_neq _ _)) by done. cbn [negb]. rewrite E2. cbn [mbind Outcome_bind].
    exists h2, (plug k1 (paint RedBlackTreeBlack x1)). split_and!; [|by eapply Moves_trans|apply HR1..].
    do 2 f_equal. apply addr_plug. by rewrite addr_paint.
Qed.

(** ** Unlinking *)

Lemma TreeAt_delete h T (a : Z) : Shape h 0 T -> NoDup (addrs T) -> (a ∉ addrs T) -> TreeAt (delete a h) T.
Proof.
  intros Hs Hd Ha. split; [|done]. eapply Shape_agree; [done|].
  intros p Hp. apply lookup_delete_ne. by intros ->.
Qed.

(** What unlinking achieves: [x] fills the place of the unlinked node, whose
    color was [cu], and the entry of [a] is gone. *)
Record Unlinked (h : Heap) (T : tree) (a : Z) (k : ctx) (x : tree) (cu : RED_BLACK_TREE_COLOR) (h' : Heap) : Prop := {
  Unlinked_tree : TreeAt (delete a h') (plug k x);
  Unlinked_entries : exists l u r, entries T = l ++ (a, u) :: r /\ entries (plug k x) = l ++ r;
  Unlinked_frame : forall p : Z, p ∉ addrs T -> h' !! p = h !! p }.

(** A node with at most one child. *)
Lemma DeleteUnlink_one h k s c a u x :
  let T := plug k (Join s c a u x Leaf) in
  TreeAt h T ->
  exists h', DeleteUnlink a (addr T) (NodeOn s u (top k) (addr x) 0 c) h = Done (addr (plug k x), addr x, top k, c, h') /\
    Unlinked h T a k x c h'.
Proof.
  intros T HT. pose proof HT as [Hs Hd]. apply Shape_plug in Hs as [(Ha & Hna & Hx & _)%Shape_Join Hk].
  apply NoDup_plug in Hd as (Hj & Hdk & Hjk). apply NoDup_Join in Hj as (Hdx & _ & Hax & _).
  setoid_rewrite elem_of_addrs_Join in Hjk. rewrite addr_Join in Hk.
  assert (DeleteUnlink a (addr T) (NodeOn s u (top k) (addr x) 0 c) h =
    (h ← SetParentOf (addr x) (top k) h; '(NewRoot, h) ← ReplaceChild (top k) a (addr x) (addr T) h;
     Done (NewRoot, addr x, top k, c, h))) as ->.
  { unfold DeleteUnlink. destruct s; simpl; rewrite ?orb_true_r; simpl; [destruct (Z.eqb_spec (addr x) 0) as [E|E]; simpl; [by rewrite E|done]|done]. }
  destruct (SetParentOf_Shape _ _ _ (top k) Hx Hdx) as (h1 & -> & Hx1 & Hf1). cbn [mbind Outcome_bind].
  assert (CtxShape h1 k a) as Hk1.
  { eapply CtxShape_agree; [done|]. intros p Hp. apply Hf1. intros Hpx. apply (Hjk p); auto. }
  destruct (ReplaceChild_Ctx h1 k (Join s c a u x Leaf) x) as (h2 & E2 & Hk2 & Hf2);
    rewrite ?addr_Join in *; [done|done|apply Hjk; auto|done|]. fold T in E2. rewrite E2. cbn [mbind Outcome_bind].
  exists h2. split; [done|]. split.
  - apply TreeAt_delete.
    + apply Shape_plug. split; [|done]. eapply Shape_agree; [done|]. intros p Hp. apply Hf2, Hjk. auto.
    + apply NoDup_plug. split_and!; [done|done|]. intros p Hp. apply Hjk. auto.
    + rewrite elem_of_plug. intros [?|?]; [done|]. apply (Hjk a); auto.
  - exists (match s with LeftSide => lefts k ++ entries x | RightSide => lefts k end), u,
      (match s with LeftSide => rights k | RightSide => entries x ++ rights k end).
    unfold T. rewrite !entries_plug. destruct s; simpl; by rewrite <- ?app_assoc.
  - intros p Hp. unfold T in Hp. rewrite elem_of_plug, elem_of_addrs_Join in Hp. rewrite Hf2, Hf1; [done|tauto..].
Qed.

(** *** The successor takes the place of the node *)

Lemma plug_app k1 k2 t : plug (k1 ++ k2) t = plug k2 (plug k1 t).
Proof. revert t. induction k1 as [|[] k1 IH]; intros t; simpl; [done|apply IH]. Qed.

Lemma SetParentOf_WriteNode p v h : p ≠ 0 -> SetParentOf p v h = WriteNode p (SetParent v) h.
Proof. intros Hp. unfold SetParentOf. by rewrite (proj2 (Z.eqb_neq _ _)). Qed.

Lemma Shape_addr_ne h par t : Shape h par t -> t ≠ Leaf -> addr t ≠ 0.
Proof. destruct t; [done|]. by intros (? & _). Qed.

Lemma LinkSuccessor_valid h k c l a u b nb na r :
  Shape h a l -> l ≠ Leaf -> Shape h b r -> h !! b = Some nb -> Right nb = addr r ->
  h !! a = Some na -> Color na = c -> CtxShape h k a -> a ≠ 0 -> b ≠ 0 ->
  NoDup (a :: b :: addrs l ++ addrs r ++ caddrs k) ->
  let T := plug k (Node c l b (UserStruct nb) r) in
  exists h', LinkSuccessor a b (addr l) (top k) (addr (plug k (Node c l a u r))) h = Done (addr T, Color nb, h') /\
    Shape h' 0 T /\ (forall p : Z, (p ∉ b :: addrs l ++ caddrs k) -> h' !! p = h !! p).
Proof.
  intros Hl Hll Hr Hnb Hrb Hna Hca Hk Ha Hb Hd T.
  apply NoDup_cons in Hd as [Ha' (Hb' & (Hdl & Hlr & (Hdr & Hrk & Hdk)%NoDup_app)%NoDup_app)%NoDup_cons].
  rewrite elem_of_cons, !elem_of_app in Ha'. rewrite !elem_of_app in Hb'. setoid_rewrite elem_of_app in Hlr.
  unfold LinkSuccessor. rewrite (WriteNode_Done _ _ _ _ Hnb). cbn [mbind Outcome_bind].
  set (h1 := <[b := _]> h). assert (forall p, p ≠ b -> h1 !! p = h !! p) as H1 by (intros; by apply lookup_insert_ne).
  assert (Shape h1 a l) as Hl1 by (eapply Shape_agree; [exact Hl|]; intros p Hp; apply H1; intros ->; tauto).
  destruct (SetParentOf_Shape h1 a l b Hl1 Hdl) as (h2 & E2 & Hl2 & H2).
  rewrite SetParentOf_WriteNode in E2 by by eapply Shape_addr_ne. rewrite E2. cbn [mbind Outcome_bind].
  assert (h2 !! b = Some (SetLeft (addr l) nb)) as Hb2 by (rewrite H2 by tauto; apply lookup_insert_eq).
  assert (h2 !! a = Some na) as Ha2 by (rewrite H2, H1; [done|intros ->; tauto|tauto]).
  rewrite (ReadNode_Done _ _ _ Hb2), (ReadNode_Done _ _ _ Ha2). cbn [mbind Outcome_bind].
  rewrite (WriteNode_Done _ _ _ _ Hb2). cbn [mbind Outcome_bind].
  erewrite WriteNode_Done by apply lookup_insert_eq. cbn [mbind Outcome_bind]. rewrite insert_insert_eq, Hca.
  set (h3 := <[b := _]> h2). assert (forall p, p ≠ b -> h3 !! p = h2 !! p) as H3 by (intros; by apply lookup_insert_ne).
  assert (CtxShape h3 k a) as Hk3.
  { eapply CtxShape_agree; [exact Hk|]. intros p Hp.
    assert (p ≠ b) by (intros ->; tauto). rewrite H3, H2, H1; [done|done| |done]. intros Hpl. apply (Hlr p Hpl). auto. }
  destruct (ReplaceChild_Ctx h3 k (Node c l a u r) (Node c l b (UserStruct nb) r) Hk3) as (h4 & E4 & Hk4 & H4); [done|simpl; tauto|done|].
  simpl addr in E4. rewrite E4. cbn [mbind Outcome_bind]. exists h4. split; [done|]. split.
  - apply Shape_plug. split; [|done]. split_and!; [done|..].
    + rewrite H4 by tauto. unfold h3. rewrite lookup_insert_eq. unfold SetParent, SetColor, SetLeft; simpl. by rewrite Hrb.
    + eapply Shape_agree; [exact Hl2|]. intros p Hp. rewrite H4, H3; [done|intros ->; tauto|]. intros ?. apply (Hlr p Hp). auto.
    + eapply Shape_agree; [exact Hr|]. intros p Hp. assert (p ≠ b) by (intros ->; tauto).
      rewrite H4, H3, H2, H1; [done|done| |done|by apply Hrk]. intros Hpl. apply (Hlr p Hpl). auto.
  - intros p Hp. rewrite elem_of_cons, elem_of_app in Hp. rewrite H4, H3, H2, H1; [done|tauto..].
Qed.

(** The leftmost node of a tree; the nodes above it all have it on their left. *)
Lemma leftmost_focus t :
  t ≠ Leaf -> exists k c b u x, t = plug k (Node c Leaf b u x) /\ lefts k = [].
Proof.
  induction t as [|c l IH a u r _]; [done|]. intros _. destruct (decide (l = Leaf)) as [->|Hl].
  - by exists [], c, a, u, r.
  - destruct (IH Hl) as (k & c' & b & v & x & -> & Hk).
    exists (k ++ [Frame LeftSide c a u r]), c', b, v, x. split; [by rewrite plug_app|].
    clear - Hk. induction k as [|[[] c1 a1 u1 sib1] k IH]; simpl in *; [done|by apply IH|].
    by apply app_eq_nil in Hk as [_ [_ ?]%app_eq_nil].
Qed.

Lemma lefts_nil k1 s c a u sib k2 :
  lefts (k1 ++ Frame s c a u sib :: k2) = [] -> s = LeftSide /\ lefts k1 = [].
Proof.
  induction k1 as [|[[] c1 a1 u1 sib1] k1 IH]; simpl.
  - destruct s; [done|]. by intros [_ [_ ?]%app_eq_nil]%app_eq_nil.
  - done.
  - by intros [_ [_ ?]%app_eq_nil]%app_eq_nil.
Qed.

(** [Parent->Left = Child; if (Child != NULL) Child->Parent = Parent;] takes the
    leftmost node [b] out. *)
Lemma unlink_leftmost h c' p v sib k c b ub x :
  TreeAt h (plug (Frame LeftSide c' p v sib :: k) (Node c Leaf b ub x)) ->
  exists h1 h2, WriteNode p (SetLeft (addr x)) h = Done h1 /\ SetParentOf (addr x) p h1 = Done h2 /\
    TreeAt h2 (plug (Frame LeftSide c' p v sib :: k) x) /\ h2 !! b = h !! b /\
    (forall q : Z, q ≠ p -> (q ∉ addrs x) -> h2 !! q = h !! q).
Proof.
  intros HT. pose proof HT as [[(Hb & Hnb & _ & Hx) (Hp & Hnp & Hsib & Hk)]%Shape_plug (Hj & Hdk & Hjk)%NoDup_plug].
  apply (NoDup_Join LeftSide) in Hj as (_ & Hdx & _ & Hbx & _).
  assert (forall q : Z, q = b \/ q ∈ addrs x -> q ∉ caddrs (Frame LeftSide c' p v sib :: k)) as Hjk'.
  { intros q Hq. apply Hjk, elem_of_addrs_Node. tauto. }
  pose proof Hdk as (_ & _ & Hps & Hpk & _)%NoDup_caddrs_cons. setoid_rewrite elem_of_caddrs_cons in Hjk'.
  rewrite (WriteNode_Done _ _ _ _ Hnp). set (h1 := <[p := _]> h).
  assert (forall q, q ≠ p -> h1 !! q = h !! q) as H1 by (intros; by apply lookup_insert_ne).
  assert (Shape h1 b x) as Hx1.
  { eapply Shape_agree; [exact Hx|]. intros q Hq. apply H1. intros ->. apply (Hjk' p); auto. }
  destruct (SetParentOf_Shape h1 b x p Hx1 Hdx) as (h2 & E2 & Hx2 & H2).
  assert (forall q : Z, q ∈ caddrs (Frame LeftSide c' p v sib :: k) -> h2 !! q = h1 !! q) as Hc.
  { intros q Hq. apply H2. intros Hqx. apply (Hjk' q); [auto|]. by apply elem_of_caddrs_cons in Hq. }
  setoid_rewrite elem_of_caddrs_cons in Hc. exists h1, h2. split_and!; [done|done| | |].
  - split.
    + apply Shape_plug. split; [done|]. split_and!; [done|rewrite Hc by auto; apply lookup_insert_eq|..].
      * eapply Shape_agree; [exact Hsib|]. intros q Hq. rewrite Hc, H1; [done|by intros ->|auto].
      * eapply CtxShape_agree; [exact Hk|]. intros q Hq. rewrite Hc, H1; [done|by intros ->|auto].
    + apply NoDup_plug. split_and!; [done|done|]. intros q Hq. rewrite elem_of_caddrs_cons. apply Hjk'. auto.
  - rewrite H2, H1 by (done || intros ->; apply (Hjk' p); auto). done.
  - intros q Hq Hqx. by rewrite H2, H1.
Qed.

(** What [UnlinkSuccessor] leaves: the right subtree [r] without its leftmost
    node [b], below [b]; everything else is in place. *)
Record SuccessorOut (h : Heap) (T : tree) (k : ctx) (l : tree) (a : Z) (cu : RED_BLACK_TREE_COLOR) (b ub : Z) (r : tree)
    (h' : Heap) : Prop := {
  Out_right : Shape h' b r;
  Out_node : exists nb, h' !! b = Some nb /\ UserStruct nb = ub /\ Right nb = addr r /\ Color nb = cu;
  Out_left : Shape h' a l;
  Out_old : h' !! a = h !! a;
  Out_ctx : CtxShape h' k a;
  Out_frame : forall p : Z, p ∉ addrs T -> h' !! p = h !! p }.

(** The search of the successor below the left child of the right child. *)
Lemma find_successor h k c l a u kr c0 a0 u0 r0 cu b ub x :
  let T := plug k (Node c l a u (Node c0 (plug kr (Node cu Leaf b ub x)) a0 u0 r0)) in
  lefts kr = [] -> TreeAt h T ->
  exists n0, ReadNode a0 h = Done n0 /\ Left n0 ≠ 0 /\ ExtremeLoop LeftSide (S (size h)) (Left n0) h = Done b.
Proof.
  intros T Hk HT. pose proof HT as [[(_ & _ & _ & (_ & Hn0 & Hl0 & _)) _]%Shape_plug _].
  assert (plug kr (Node cu Leaf b ub x) ≠ Leaf) as Hne by by apply plug_not_Leaf.
  eexists. split; [by apply ReadNode_Done|]. split; [by eapply Shape_addr_ne|].
  cbn [Left]. change LeftSide with (Opposite RightSide).
  pose proof (TreeAt_size _ _ HT). pose proof (height_entries T).
  pose proof (height_plug k (Node c l a u (Node c0 (plug kr (Node cu Leaf b ub x)) a0 u0 r0))) as Hh. fold T in Hh. simpl in Hh.
  rewrite (ExtremeLoop_first h a0 RightSide _ (S (size h)) Hl0 Hne) by lia.
  by rewrite (proj1 (walk_entries _)), entries_plug, Hk.
Qed.

(** [ToRelink->Right = OrigRightChild; OrigRightChild->Parent = ToRelink;] *)
Lemma reparent_right h k c l a u R b nb :
  TreeAt h (plug k (Node c l a u R)) -> R ≠ Leaf -> (b ∉ addrs (plug k (Node c l a u R))) -> h !! b = Some nb ->
  exists h1 h2, WriteNode b (SetRight (addr R)) h = Done h1 /\ WriteNode (addr R) (SetParent b) h1 = Done h2 /\
    Shape h2 b R /\ h2 !! b = Some (SetRight (addr R) nb) /\ Shape h2 a l /\ h2 !! a = h !! a /\ CtxShape h2 k a /\
    (forall p : Z, p ≠ b -> (p ∉ addrs R) -> h2 !! p = h !! p).
Proof.
  intros HT HR Hb Hnb. pose proof HT as [[(Ha & Hna & Hl & Hr) Hk]%Shape_plug (Hj & _ & Hjk)%NoDup_plug].
  apply (NoDup_Join LeftSide) in Hj as (_ & Hdr & Hal & Har & Hlr).
  assert (forall p : Z, p = a \/ p ∈ addrs l \/ p ∈ addrs R -> p ∉ caddrs k) as Hjk'.
  { intros p Hp. apply Hjk, elem_of_addrs_Node, Hp. }
  assert (forall p : Z, p = a \/ p ∈ addrs l \/ p ∈ addrs R \/ p ∈ caddrs k -> p ≠ b) as Hnot.
  { intros p Hp ->. apply Hb, elem_of_plug. destruct (decide (b ∈ caddrs k)); [by right|left].
    apply elem_of_addrs_Node. tauto. }
  rewrite (WriteNode_Done _ _ _ _ Hnb). set (h1 := <[b := _]> h).
  assert (forall p, p ≠ b -> h1 !! p = h !! p) as H1 by (intros; by apply lookup_insert_ne).
  assert (Shape h1 a R) as Hr1 by (eapply Shape_agree; [exact Hr|]; intros p Hp; apply H1, Hnot; auto).
  destruct (SetParentOf_Shape h1 a R b Hr1 Hdr) as (h2 & E2 & Hr2 & H2).
  rewrite SetParentOf_WriteNode in E2 by by eapply Shape_addr_ne.
  exists h1, h2. split_and!; [done|done|done|..].
  - rewrite H2; [apply lookup_insert_eq|]. intros Hbr. by apply (Hnot b); auto.
  - eapply Shape_agree; [exact Hl|]. intros p Hp. rewrite H2, H1; [done|apply Hnot; auto|by apply Hlr].
  - rewrite H2, H1; [done|apply Hnot; auto|done].
  - eapply CtxShape_agree; [exact Hk|]. intros p Hp. rewrite H2, H1; [done|apply Hnot; auto|]. intros ?. apply (Hjk' p); auto.
  - intros p Hp HpR. by rewrite H2, H1.
Qed.

Lemma UnlinkSuccessor_deep h k c l a u kr c0 a0 u0 r0 cu b ub x :
  let T := plug k (Node c l a u (Node c0 (plug kr (Node cu Leaf b ub x)) a0 u0 r0)) in
  lefts kr = [] -> TreeAt h T ->
  exists h', UnlinkSuccessor a0 h = Done (b, top (kr ++ [Frame LeftSide c0 a0 u0 r0]), addr x, h') /\
    SuccessorOut h T k l a cu b ub (Node c0 (plug kr x) a0 u0 r0) h'.
Proof.
  intros T Hk HT. destruct (find_successor _ _ _ _ _ _ _ _ _ _ _ _ _ _ _ Hk HT) as (n0 & E0 & Hl0 & EL).
  unfold UnlinkSuccessor. rewrite E0. cbn [mbind Outcome_bind]. rewrite (proj2 (Z.eqb_neq _ _)) by done.
  rewrite EL. cbn [mbind Outcome_bind].
  set (k2 := kr ++ Frame LeftSide c0 a0 u0 r0 :: Frame RightSide c a u l :: k).
  assert (forall t, plug k (Node c l a u (Node c0 (plug kr t) a0 u0 r0)) = plug k2 t) as Hp2
    by (intros t; unfold k2; by rewrite plug_app).
  assert (exists c' p v sib k3, k2 = Frame LeftSide c' p v sib :: k3 /\ top (kr ++ [Frame LeftSide c0 a0 u0 r0]) = p)
    as (c' & p & v & sib & k3 & Ek & Ep).
  { destruct kr as [|[s c' p v sib] kr]; [by eexists _, _, _, _, _|].
    destruct (lefts_nil [] s c' p v sib kr Hk) as [-> _]. by eexists _, _, _, _, _. }
  assert (TreeAt h (plug (Frame LeftSide c' p v sib :: k3) (Node cu Leaf b ub x))) as HTb by (rewrite <- Ek, <- Hp2; exact HT).
  pose proof (TreeAt_focus _ _ LeftSide _ _ _ _ _ HTb) as [Hb Hnb].
  rewrite (ReadNode_Done _ _ _ Hnb). cbn [mbind Outcome_bind]. cbn [NodeOn Parent Right top].
  destruct (unlink_leftmost _ _ _ _ _ _ _ _ _ _ HTb) as (h1 & h2 & E1 & E2 & HT2 & Hb2 & H2).
  rewrite E1. cbn [mbind Outcome_bind]. rewrite E2. cbn [mbind Outcome_bind]. rewrite <- Hb2 in Hnb.
  assert (forall q : Z, q ∈ addrs T <-> q = b \/ q ∈ addrs (plug k2 x)) as HinT.
  { intros q. unfold T. rewrite Hp2, !elem_of_plug, elem_of_addrs_Node.
    change (addrs Leaf) with (@nil Z). rewrite elem_of_nil. tauto. }
  assert (b ∉ addrs (plug k2 x)) as Hbx.
  { rewrite elem_of_plug, Ek. destruct HTb as [_ (Hj & _ & Hjk)%NoDup_plug].
    apply (NoDup_Join LeftSide) in Hj as (_ & _ & _ & Hj & _). intros [?|Hin]; [done|].
    apply (Hjk b); [|done]. apply elem_of_addrs_Node. auto. }
  rewrite <- Ek, <- Hp2 in HT2. rewrite <- Hp2 in Hbx.
  destruct (reparent_right _ _ _ _ _ _ _ _ _ HT2 ltac:(done) Hbx Hnb) as (h3 & h4 & E3 & E4 & HR & Hb4 & Hl4 & Ha4 & Hk4 & H4).
  simpl addr in E3, E4, Hb4. rewrite E3. cbn [mbind Outcome_bind]. rewrite E4. cbn [mbind Outcome_bind].
  exists h4. rewrite Ep. split; [done|]. split; [done|by eexists|done| |done|].
  - destruct HT as [[(_ & Hna & _) _]%Shape_plug _]. destruct HT2 as [[(_ & Hna2 & _) _]%Shape_plug _]. by rewrite Ha4, Hna, Hna2.
  - intros q Hq. rewrite HinT in Hq. rewrite H4, H2; [done| | |tauto|].
    + intros ->. apply Hq. right. rewrite elem_of_plug, Ek, elem_of_caddrs_cons. auto.
    + intros ?. apply Hq. right. rewrite elem_of_plug. auto.
    + intros Hin. apply Hq. right. rewrite <- Hp2, elem_of_plug. left. apply elem_of_addrs_Node. auto.
Qed.

(** A node with two children. *)
Section Two.
Context (h : Heap) (k : ctx) (c : RED_BLACK_TREE_COLOR) (l : tree) (a u : Z) (kr : ctx)
  (cu : RED_BLACK_TREE_COLOR) (b ub : Z) (x : tree).

Let r := plug kr (Node cu Leaf b ub x).
Let T := plug k (Node c l a u r).
Let k1 := kr ++ Frame RightSide c b ub l :: k.

Hypothesis HT : TreeAt h T.
Hypothesis Hkr : lefts kr = [].
Hypothesis Hl : l ≠ Leaf.

Lemma UnlinkSuccessor_valid :
  exists h', UnlinkSuccessor (addr r) h = Done (b, top k1, addr x, h') /\
    SuccessorOut h T k l a cu b ub (plug kr x) h'.
Proof using HT Hkr.
  unfold T, r in *. unfold k1. destruct kr as [|[s0 c0 a0 u0 r0] kr' _] using rev_ind.
  - pose proof HT as [[(_ & _ & Hl' & (Hb & Hnb & _ & Hx)) Hk]%Shape_plug _].
    unfold UnlinkSuccessor. simpl. rewrite (ReadNode_Done _ _ _ Hnb). simpl.
    exists h. split; [done|]. split; try done. by eexists.
  - destruct (lefts_nil kr' s0 c0 a0 u0 r0 [] Hkr) as [-> Hkr']. rewrite !plug_app in *. cbn [plug Join addr] in *.
    destruct (UnlinkSuccessor_deep h k c l a u kr' c0 a0 u0 r0 cu b ub x Hkr' HT) as (h' & E & HS).
    exists h'. split; [|done]. rewrite E. do 4 f_equal. by destruct kr'.
Qed.

Lemma successor_entries :
  entries T = (lefts k ++ entries l) ++ (a, u) :: ((b, ub) :: entries x ++ rights kr) ++ rights k /\
  entries (plug k1 x) = (lefts k ++ entries l) ++ ((b, ub) :: entries x ++ rights kr) ++ rights k.
Proof using Hkr.
  unfold T, r, k1. rewrite plug_app. cbn [plug Join]. rewrite !entries_plug. simpl. rewrite !entries_plug, Hkr.
  simpl. split; rewrite <- !app_assoc; simpl; by rewrite <- !app_assoc.
Qed.

Lemma successor_NoDup : NoDup (a :: b :: addrs l ++ addrs (plug kr x) ++ caddrs k).
Proof using HT Hkr.
  pose proof HT as [_ Hd]. unfold addrs at 1 in Hd. rewrite (proj1 successor_entries) in Hd.
  eapply NoDup_Permutation_proper; [|exact Hd]. unfold addrs, caddrs. rewrite entries_plug, Hkr, !fmap_app. simpl. rewrite !fmap_app.
  solve_Permutation.
Qed.

Lemma DeleteUnlink_two :
  exists h', DeleteUnlink a (addr T) (MkNode u (top k) (addr l) (addr r) c) h =
      Done (addr (plug k1 x), addr x, top k1, cu, h') /\ Unlinked h T a k1 x cu h'.
Proof using HT Hkr Hl.
  pose proof HT as [[(Ha & Hna & Hsl & Hsr) Hk]%Shape_plug Hd]. fold r in Hsr.
  destruct UnlinkSuccessor_valid as (h1 & E1 & [HR (nb & Hnb & Hub & Hrb & Hcu) HL Hold HK HF]).
  assert (r ≠ Leaf) as Hr by by apply plug_not_Leaf.
  unfold DeleteUnlink. cbn [Left Right Parent].
  rewrite !(proj2 (Z.eqb_neq _ _)) by by eapply Shape_addr_ne. cbn [orb]. rewrite E1. cbn [mbind Outcome_bind].
  rewrite Hna in Hold.
  assert (b ≠ 0) as Hb0.
  { apply (Shape_addr h 0 T b (TreeAt_shape _ _ HT)). unfold addrs. rewrite (proj1 successor_entries).
    apply list_elem_of_fmap. exists (b, ub). split; [done|]. rewrite elem_of_app. right. right. by left. }
  destruct (LinkSuccessor_valid h1 k c l a u b nb _ (plug kr x) HL Hl HR Hnb Hrb Hold eq_refl HK Ha Hb0 successor_NoDup)
    as (h2 & E2 & HS2 & H2).
  replace (addr T) with (addr (plug k (Node c l a u (plug kr x)))) by by apply addr_plug.
  rewrite E2. cbn [mbind Outcome_bind]. rewrite Hub, Hcu in *.
  assert (plug k (Node c l b ub (plug kr x)) = plug k1 x) as EP by (unfold k1; by rewrite plug_app).
  rewrite EP in *. exists h2. split; [done|]. destruct successor_entries as [ET E'].
  pose proof successor_NoDup as (Han & Hn1)%NoDup_cons. split.
  - apply TreeAt_delete; [done|..].
    + unfold addrs. rewrite E'. pose proof Hd as Hd'. unfold addrs in Hd'. rewrite ET in Hd'.
      rewrite fmap_app in Hd' |- *. rewrite fmap_cons in Hd'. apply NoDup_app in Hd' as (? & Hd1 & (_ & ?)%NoDup_cons).
      apply NoDup_app. split_and!; [done| |done]. intros p Hp Hp'. apply (Hd1 p Hp). by right.
    + unfold addrs. rewrite E'. pose proof Hd as Hd'. unfold addrs in Hd'. rewrite ET in Hd'.
      rewrite fmap_app in Hd' |- *. rewrite fmap_cons in Hd'. apply NoDup_app in Hd' as (_ & Hd1 & (Hd2 & _)%NoDup_cons).
      rewrite elem_of_app. intros [Hp|Hp]; [|done]. apply (Hd1 a Hp). by left.
  - eexists _, u, _. by rewrite ET, E'.
  - intros p Hp. rewrite H2; [by apply HF|]. intros Hin. apply Hp.
    unfold addrs. rewrite ET, !fmap_app, !elem_of_app. rewrite elem_of_cons, elem_of_app in Hin.
    unfold addrs, caddrs in Hin. rewrite fmap_app, elem_of_app in Hin. simpl.
    rewrite fmap_app, !elem_of_cons, elem_of_app. tauto.
Qed.
End Two.

(** ** Deletion as a whole *)

(** The black-increment of the unlinked node: none if it was red; otherwise its
    only child lacks it. *)
Lemma unlinked_black h k s cu b ub x n :
  RB (Join s cu b ub x Leaf) n -> RBCtx k cu n -> TreeAt h (plug k x) ->
  if IsRed cu then hue (plug k x) = RedBlackTreeBlack /\ exists m, RB (plug k x) m else Lacking h k x 0.
Proof.
  intros (m & Hred & Hx & Hm & ->)%RB_Join Hk HT. simpl in Hm. subst m. destruct cu; cbn [IsRed] in *.
  - apply (RB_plug _ _ 0); [done|]. destruct (Hred eq_refl) as [-> _]. by apply RBCtx_black in Hk.
  - split; [done| |done]. destruct x as [|[] xl xa xu xr]; simpl in *; tauto.
Qed.

(** The properties do not depend on addresses and user structures. *)
Lemma RB_relabel k c l a u r b v m :
  RB (plug k (Node c l a u r)) m -> hue (plug k (Node c l a u r)) = RedBlackTreeBlack ->
  hue (plug k (Node c l b v r)) = RedBlackTreeBlack /\ exists m, RB (plug k (Node c l b v r)) m.
Proof. intros HR Hb. destruct (RB_unplug _ _ _ HR Hb) as (n & Hn & Hk). by apply (RB_plug _ _ n). Qed.

Lemma DeleteUnlink_valid h k c l a u r m :
  let T := plug k (Node c l a u r) in
  TreeAt h T -> RB T m -> hue T = RedBlackTreeBlack ->
  exists h' k' x cu,
    DeleteUnlink a (addr T) (MkNode u (top k) (addr l) (addr r) c) h = Done (addr (plug k' x), addr x, top k', cu, h') /\
    Unlinked h T a k' x cu h' /\
    if IsRed cu then hue (plug k' x) = RedBlackTreeBlack /\ exists m, RB (plug k' x) m else Lacking (delete a h') k' x 0.
Proof.
  intros T HT HR Hb.
  destruct (decide (r = Leaf)) as [->|Hr]; [|destruct (decide (l = Leaf)) as [->|Hl]].
  - destruct (DeleteUnlink_one h k LeftSide c a u l HT) as (h' & E & HU). exists h', k, l, c. split_and!; [done|done|].
    destruct (RB_unplug _ _ _ HR Hb) as (n & Hn & Hk). by apply (unlinked_black _ k LeftSide c a u l n Hn Hk), HU.
  - destruct (DeleteUnlink_one h k RightSide c a u r HT) as (h' & E & HU). exists h', k, r, c. split_and!; [done|done|].
    destruct (RB_unplug _ _ _ HR Hb) as (n & Hn & Hk). by apply (unlinked_black _ k RightSide c a u r n Hn Hk), HU.
  - destruct (leftmost_focus r Hr) as (kr & cu & b & ub & x & -> & Hkr).
    destruct (DeleteUnlink_two h k c l a u kr cu b ub x HT Hkr Hl) as (h' & E & HU).
    exists h', (kr ++ Frame RightSide c b ub l :: k), x, cu. split_and!; [done|done|].
    destruct (RB_relabel k c l a u _ b ub m HR Hb) as [Hb' [m' HR']].
    change (Node c l b ub (plug kr (Node cu Leaf b ub x))) with (Join RightSide c b ub (plug kr (Node cu Leaf b ub x)) l) in HR', Hb'.
    change (plug k (Join RightSide c b ub (plug kr (Node cu Leaf b ub x)) l))
      with (plug (Frame RightSide c b ub l :: k) (plug kr (Node cu Leaf b ub x))) in HR', Hb'.
    rewrite <- plug_app in HR', Hb'. destruct (RB_unplug _ _ _ HR' Hb') as (n & Hn & Hk).
    by apply (unlinked_black _ _ RightSide cu b ub x n Hn Hk), HU.
Qed.

(** The address of an entry determines where it is. *)
Lemma entries_split h T l a u r l' u' r' :
  TreeAt h T -> entries T = l ++ (a, u) :: r -> entries T = l' ++ (a, u') :: r' -> l = l' /\ u = u' /\ r = r'.
Proof.
  intros [_ Hd] E E'. unfold addrs in Hd. rewrite E in E', Hd. clear E. revert l' E'.
  induction l as [|e l IH]; intros [|e' l']; simpl in *; apply NoDup_cons in Hd as [Hn Hd].
  - by intros [= -> ->].
  - intros [= <- ->]. destruct Hn. rewrite fmap_app. apply elem_of_app. right. by left.
  - intros [= -> <-]. destruct Hn. rewrite fmap_app. apply elem_of_app. right. by left.
  - intros [= -> E]. by destruct (IH Hd l' E) as (-> & -> & ->).
Qed.

(** The end of [OrderedCollectionDelete], when the tree is valid again. *)
Lemma Delete_finish Pcd Tree h1 T1 h2 T2 l a u r :
  OrderedBy (UserStructCompare Tree) ->
  TreeAt h1 T1 -> Moves h1 T1 h2 T2 -> hue T2 = RedBlackTreeBlack -> (exists m, RB T2 m) ->
  entries T1 = l ++ r -> Ascending (UserStructCompare Tree) (l ++ (a, u) :: r) ->
  (ValidateIfEnabled Pcd (SetRoot (addr T2) Tree) h2 ;; Done (u, SetRoot (addr T2) Tree, h2)) =
    Done (u, SetRoot (addr T2) Tree, h2) /\
  ValidTree (UserStructCompare Tree) T2 /\ entries T2 = l ++ r.
Proof.
  intros HC HT1 [HT2 HE2 HF2] Hb HR HE1 Ho%Ascending_remove. rewrite HE1 in HE2.
  assert (ValidTree (UserStructCompare Tree) T2) as HV by (split; [done|done|by rewrite HE2]).
  split_and!; [|done|done]. unfold ValidateIfEnabled. destruct Pcd; [|done].
  by rewrite (Validate_valid (SetRoot (addr T2) Tree) h2 T2 HT2 eq_refl HV).
Qed.

Lemma Delete_valid Pcd Tree h T l a u r :
  OrderedBy (UserStructCompare Tree) ->
  TreeAt h T -> Root Tree = addr T -> ValidTree (UserStructCompare Tree) T -> entries T = l ++ (a, u) :: r ->
  exists h' T', OrderedCollectionDelete Pcd Tree a h = Done (u, SetRoot (addr T') Tree, h') /\
    TreeAt h' T' /\ ValidTree (UserStructCompare Tree) T' /\ entries T' = l ++ r /\ h' !! a = None /\
    (forall p : Z, (p ∉ addrs T) -> h' !! p = h !! p).
Proof.
  intros HC HT Hr [Hb [m Hm] Ho] HE.
  destruct (entries_focus T a u) as (k & c & tl & tr & ->); [rewrite HE; apply elem_of_app; right; by left|].
  destruct (DeleteUnlink_valid h k c tl a u tr m HT Hm Hb) as (h1 & k1 & x & cu & E1 & [HT1 (l' & u' & r' & HE' & HE1) HF1] & HU).
  destruct (entries_split _ _ _ _ _ _ _ _ _ HT HE HE') as (<- & <- & <-). rewrite HE in Ho.
  assert (a ∈ addrs (plug k (Node c tl a u tr))) as Hain by (apply elem_of_plug; left; apply elem_of_addrs_Node; auto).
  assert (a ∉ addrs (plug k1 x)) as Hax.
  { intros Hin. destruct HT1 as [Hs1 _]. apply (Shape_addr _ _ _ _ Hs1) in Hin as [_ [? Hn]]. by rewrite lookup_delete_eq in Hn. }
  assert (forall p : Z, (p ∉ addrs (plug k (Node c tl a u tr))) -> p ∉ addrs (plug k1 x)) as Hsub.
  { unfold addrs. rewrite HE, HE1, !fmap_app. intros p Hp. rewrite !elem_of_app in *. simpl in Hp. rewrite elem_of_cons in Hp. tauto. }
  unfold OrderedCollectionDelete. rewrite (ReadNode_focus h k LeftSide c a u tl tr HT). cbn [mbind Outcome_bind NodeOn UserStruct].
  rewrite Hr, E1. cbn [mbind Outcome_bind].
  assert (exists h2 T2, (if IsRed cu then Done (addr (plug k1 x), delete a h1)
      else '(Child, NewRoot, h) ← DeleteFixup (S (S (size (delete a h1)))) (addr x) (top k1) (addr (plug k1 x)) (delete a h1);
           h ← (if negb (Child =? 0) then WriteNode Child (SetColor RedBlackTreeBlack) h else Done h);
           Done (NewRoot, h)) = Done (addr T2, h2) /\ Moves (delete a h1) (plug k1 x) h2 T2 /\ hue T2 = RedBlackTreeBlack /\
      exists m, RB T2 m) as (h2 & T2 & E2 & M2 & Hb2 & HR2).
  { destruct (IsRed cu).
    - exists (delete a h1), (plug k1 x). split_and!; [done|by apply Moves_refl|apply HU..].
    - apply (DeleteFixup_painted _ _ _ _ 0 HU). pose proof (TreeAt_size _ _ HT1).
      pose proof (height_entries (plug k1 x)). pose proof (height_plug k1 x). lia. }
  rewrite E2. cbn [mbind Outcome_bind].
  destruct (Delete_finish Pcd Tree _ _ h2 T2 l a u r HC HT1 M2 Hb2 HR2 HE1 Ho) as (E3 & HV & HE2).
  exists h2, T2. split_and!; [exact E3|apply M2|done|done|..].
  - rewrite (Moves_frame _ _ _ _ M2) by done. apply lookup_delete_eq.
  - intros p Hp. rewrite (Moves_frame _ _ _ _ M2) by by apply Hsub. rewrite lookup_delete_ne by (by intros <-). by apply HF1.
Qed.
