(* ===== verification/RbTheorems.v ===== *)
(** * Ordered collections: correctness

    The library of RbTree.v implements ordered sequences of entries (node,
    user structure): [IsCollection h Tree l] says that [Tree] holds the sequence
    [l] in a valid red-black tree.  Each operation is shown to return and to do
    to the sequence what it promises; the nodes are iterators that stay valid.
    The laws of the comparators ([OrderedBy], [KeyOrderedBy]) and of the pool
    are the hypotheses. *)
From Stdlib Require Import ZArith Lia Sorting.Sorted.
From stdpp Require Import base option gmap list sets sorting.
From S2P Require Import Prelude RbTree RbShape RbWalk RbValid RbInsert RbDelete.

(** ** The abstract view *)

Definition IsCollection (h : Heap) (Tree : ORDERED_COLLECTION) (l : list (Z * Z)) : Prop :=
  exists T, TreeAt h T /\ Root Tree = addr T /\ ValidTree (UserStructCompare Tree) T /\ entries T = l.

(** The entry of a new node goes before the first greater one. *)
Fixpoint add_entry (Compare : Z -> Z -> Z) (e : Z * Z) (l : list (Z * Z)) : list (Z * Z) :=
  match l with
  | [] => [e]
  | f :: l => if Compare e.2 f.2 <? 0 then e :: f :: l else f :: add_entry Compare e l
  end.

(** The entries whose user structure compares equal to a key. *)
Definition matching (Compare : Z -> Z -> Z) (Key : Z) (l : list (Z * Z)) : list (Z * Z) :=
  filter (fun e => Compare Key e.2 = 0) l.

Lemma add_entry_split Compare e l r :
  (forall f, f ∈ l -> 0 < Compare e.2 f.2) -> (forall f, f ∈ r -> Compare e.2 f.2 < 0) ->
  add_entry Compare e (l ++ r) = l ++ e :: r.
Proof.
  intros Hl Hr. induction l as [|f l IH]; simpl.
  - destruct r as [|f r]; [done|]. simpl. rewrite (proj2 (Z.ltb_lt _ _)); [done|]. apply Hr. by left.
  - rewrite (proj2 (Z.ltb_ge _ _)); [|apply Z.lt_le_incl, Hl; by left].
    by rewrite IH by (intros; apply Hl; by right).
Qed.

Lemma elem_of_add_entry Compare (q p : Z) u l : q ∈ (add_entry Compare (p, u) l).*1 <-> q = p \/ q ∈ l.*1.
Proof.
  induction l as [|f l IH]; simpl; [by rewrite list_elem_of_singleton, elem_of_nil; tauto|].
  destruct (_ <? 0); simpl; rewrite !elem_of_cons, ?IH; tauto.
Qed.

Lemma entries_nonzero h T a u : TreeAt h T -> (a, u) ∈ entries T -> a ≠ 0.
Proof.
  intros [Hs _] Hin. apply (Shape_addr h 0 T a Hs). apply list_elem_of_fmap. by exists (a, u).
Qed.

(** The search of an insertion follows the path of a lookup. *)
Lemma InsertSearch_FindLoop Compare User fuel Tmp Par Result h Tmp' Par' Result' :
  InsertSearch Compare User fuel Tmp Par Result h = Done (Tmp', Par', Result') ->
  FindLoop Compare User fuel Tmp h = Done Tmp'.
Proof.
  revert Tmp Par Result. induction fuel as [|fuel IH]; intros Tmp Par Result; simpl; [done|].
  destruct (Tmp =? 0); [congruence|]. destruct (ReadNode Tmp h); simpl; [|done..].
  destruct (_ =? 0); [congruence|]. apply IH.
Qed.

Section Collections.
Variable PcdValidateOrderedCollection : bool.
Variable AllocatePool : Heap -> option (Z * RED_BLACK_TREE_NODE).

(** The pool hands out blocks that are not in use. *)
Hypothesis AllocatePool_fresh : forall h p c, AllocatePool h = Some (p, c) -> p ≠ 0 /\ h !! p = None.

Lemma Validate_collection h Tree l :
  OrderedBy (UserStructCompare Tree) -> IsCollection h Tree l ->
  ValidateIfEnabled PcdValidateOrderedCollection Tree h = Done tt.
Proof using.
  intros HC (T & HT & Hr & HV & _). unfold ValidateIfEnabled. destruct PcdValidateOrderedCollection; [|done].
  by apply (Validate_valid Tree h T).
Qed.

(** Searching for the place of a user structure. *)
Lemma search_place h Tree l T User :
  OrderedBy (UserStructCompare Tree) -> TreeAt h T -> Root Tree = addr T -> ValidTree (UserStructCompare Tree) T ->
  entries T = l ->
  exists Tmp Par Result,
    InsertSearch (UserStructCompare Tree) User (S (size h)) (Root Tree) 0 0 h = Done (Tmp, Par, Result) /\
    Tmp = first (matching (UserStructCompare Tree) User l) /\
    (matching (UserStructCompare Tree) User l = [] -> SearchEnd (UserStructCompare Tree) User T 0 Par Result) /\
    (matching (UserStructCompare Tree) User l ≠ [] -> Tmp ≠ 0).
Proof using.
  intros HC HT Hr HV <-. pose proof (TreeAt_size _ _ HT). pose proof (height_entries T).
  destruct (InsertSearch_end (UserStructCompare Tree) User h [] T 0 (S (size h)) HC HT (ValidTree_order _ _ HV))
    as (Tmp & Par & Result & E & _ & HE);
    [done|by intros e ?%elem_of_nil|by intros e ?%elem_of_nil|lia|].
  exists Tmp, Par, Result. rewrite Hr. split; [exact E|].
  apply InsertSearch_FindLoop in E.
  rewrite (FindLoop_first (UserStructCompare Tree) _ h 0 T User (S (size h)) _ (TreeAt_shape _ _ HT) (ValidTree_order _ _ HV)) in E by lia.
  injection E as <-. split; [done|]. fold (matching (UserStructCompare Tree) User (entries T)) in *. split.
  - intros Hm. by rewrite Hm in HE.
  - destruct (matching _ User (entries T)) as [|[a u] m] eqn:Em; [done|]. intros _. simpl.
    apply (entries_nonzero h T a u HT).
    assert ((a, u) ∈ matching (UserStructCompare Tree) User (entries T)) as Hin by (rewrite Em; by left).
    by apply list_elem_of_filter in Hin as [_ ?].
Qed.

Lemma insert_order Compare l r a User :
  OrderedBy Compare -> Ascending Compare (l ++ r) ->
  (forall f, f ∈ l -> 0 < Compare User f.2) -> (forall f, f ∈ r -> Compare User f.2 < 0) ->
  Ascending Compare (l ++ (a, User) :: r).
Proof using.
  intros HC Ho Hl Hr. unfold Ascending in Ho. apply StronglySorted_app in Ho as (Hlr & Hol & Hor).
  apply Ascending_middle. split_and!; [done|done| |done|done].
  intros f Hf. apply Compare_flip; [done|]. by apply Hl.
Qed.

Lemma OrderedCollectionInsert_core h Tree l User :
  OrderedBy (UserStructCompare Tree) -> IsCollection h Tree l ->
  let Insert := OrderedCollectionInsert PcdValidateOrderedCollection AllocatePool Tree User h in
  match matching (UserStructCompare Tree) User l, AllocatePool h with
  | (a, _) :: _, _ => Insert = Done (EFI_ALREADY_STARTED, Some a, Tree, h)
  | [], None => Insert = Done (EFI_OUT_OF_RESOURCES, None, Tree, h)
  | [], Some (a, _) =>
    exists r h', Insert = Done (EFI_SUCCESS, Some a, SetRoot r Tree, h') /\ (a ∉ l.*1) /\
      IsCollection h' (SetRoot r Tree) (add_entry (UserStructCompare Tree) (a, User) l) /\
      (forall p : Z, p ≠ a -> (p ∉ l.*1) -> h' !! p = h !! p)
  end.
Proof using AllocatePool_fresh.
  intros HC Hcoll Insert. pose proof Hcoll as (T & HT & Hr & HV & <-).
  pose proof (Validate_collection h Tree (entries T) HC Hcoll) as HVal.
  destruct (search_place h Tree (entries T) T User HC HT Hr HV eq_refl) as (Tmp & Par & Result & E & ETmp & Hnone & Hsome).
  subst Insert. unfold OrderedCollectionInsert. rewrite E. cbn [mbind Outcome_bind].
  destruct (matching (UserStructCompare Tree) User (entries T)) as [|[a u] m].
  - change (first []) with 0 in ETmp. subst Tmp. cbn [negb Z.eqb].
    destruct (AllocatePool h) as [[p c]|] eqn:EA; cbn [mbind Outcome_bind]; [|by rewrite HVal].
    destruct (AllocatePool_fresh h p c EA) as [Hp Hfree].
    assert (p ∉ addrs T) as Hpin.
    { intros Hin. apply (Shape_addr h 0 T p (TreeAt_shape _ _ HT)) in Hin as [_ [? ?]]. congruence. }
    destruct (Hnone eq_refl) as [(u & Hin & _)|(_ & k & -> & -> & Hside & Hl & Hr')].
    { by apply (entries_nonzero h T 0 u HT) in Hin. }
    destruct HV as [Hb [m Hm] Ho].
    destruct (InsertLink_valid Tree h k p c Result User m HT Hr Hm Hb Hp Hfree Hside)
      as (h' & T' & EL & HT' & HE' & Hb' & HR' & HF').
    rewrite EL. cbn [mbind Outcome_bind]. rewrite entries_plug in Ho |- *. simpl in Ho |- *.
    assert (IsCollection h' (SetRoot (addr T') Tree) (lefts k ++ (p, User) :: rights k)) as Hcoll'.
    { exists T'. split_and!; [done|done| |done]. split; [done|done|]. rewrite HE'. by apply insert_order. }
    rewrite (Validate_collection h' (SetRoot (addr T') Tree) _ HC Hcoll'). cbn [mbind Outcome_bind].
    unfold addrs in Hpin, HF'. rewrite entries_plug in Hpin, HF'.
    exists (addr T'), h'. rewrite add_entry_split by done. split_and!; [done|done|done|].
    intros q Hq Hqin. by apply HF'.
  - specialize (Hsome ltac:(done)). change (first ((a, u) :: m)) with a in ETmp. subst Tmp.
    rewrite (proj2 (Z.eqb_neq _ _)) by done. cbn [negb mbind Outcome_bind]. by rewrite HVal.
Qed.

(** C6: OrderedCollectionInsert implements insertion into an ordered sequence
    of entries.  It always returns, and none of its assertions (nor those of
    the validation, if enabled) fails.  If a user structure compares equal, it
    reports the node of that one and changes nothing; otherwise, if the pool
    has no memory it reports that and changes nothing; otherwise the new node
    links the user structure at its place in the order, the tree is again a
    valid red-black tree, all existing nodes keep their user structures, and
    no memory but that of the nodes changes. *)
Theorem OrderedCollectionInsert_correct h Tree l User :
  OrderedBy (UserStructCompare Tree) -> IsCollection h Tree l ->
  let Insert := OrderedCollectionInsert PcdValidateOrderedCollection AllocatePool Tree User h in
  match matching (UserStructCompare Tree) User l, AllocatePool h with
  | (a, _) :: _, _ => Insert = Done (EFI_ALREADY_STARTED, Some a, Tree, h)
  | [], None => Insert = Done (EFI_OUT_OF_RESOURCES, None, Tree, h)
  | [], Some (a, _) =>
    exists r h', Insert = Done (EFI_SUCCESS, Some a, SetRoot r Tree, h') /\ (a ∉ l.*1) /\
      IsCollection h' (SetRoot r Tree) (add_entry (UserStructCompare Tree) (a, User) l) /\
      (forall p : Z, p ≠ a -> (p ∉ l.*1) -> h' !! p = h !! p)
  end.
Proof using AllocatePool_fresh. exact (OrderedCollectionInsert_core h Tree l User). Qed.

Lemma OrderedCollectionDelete_core h Tree l a u r :
  OrderedBy (UserStructCompare Tree) -> IsCollection h Tree (l ++ (a, u) :: r) ->
  exists Root' h', OrderedCollectionDelete PcdValidateOrderedCollection Tree a h = Done (u, SetRoot Root' Tree, h') /\
    IsCollection h' (SetRoot Root' Tree) (l ++ r) /\ h' !! a = None /\
    (forall p : Z, (p ∉ (l ++ (a, u) :: r).*1) -> h' !! p = h !! p).
Proof using.
  intros HC (T & HT & Hr & HV & HE).
  destruct (Delete_valid PcdValidateOrderedCollection Tree h T l a u r HC HT Hr HV HE) as (h' & T' & E & HT' & HV' & HE' & Ha & HF).
  exists (addr T'), h'. split_and!; [done|by exists T'|done|]. intros p Hp. apply HF. unfold addrs. by rewrite HE.
Qed.

(** C7: OrderedCollectionDelete implements the removal of an entry.  For any
    node of the collection it returns (no assertion fails and no dangling
    pointer is followed) with the user structure that the node linked; the
    other nodes stay, in the same order and with the same user structures, in
    a valid red-black tree, the node is freed, and no other memory changes. *)
Theorem OrderedCollectionDelete_correct h Tree l a u r :
  OrderedBy (UserStructCompare Tree) -> IsCollection h Tree (l ++ (a, u) :: r) ->
  exists Root' h', OrderedCollectionDelete PcdValidateOrderedCollection Tree a h = Done (u, SetRoot Root' Tree, h') /\
    IsCollection h' (SetRoot Root' Tree) (l ++ r) /\ h' !! a = None /\
    (forall p : Z, (p ∉ (l ++ (a, u) :: r).*1) -> h' !! p = h !! p).
Proof using. exact (OrderedCollectionDelete_core h Tree l a u r). Qed.

(** ** All reachable collections *)

(** The states of a collection that is used through its functions only: nodes
    are deleted only while they are allocated. *)
Inductive CollectionReach (Compare Key : Z -> Z -> Z) : ORDERED_COLLECTION -> Heap -> Prop :=
| Reach_init Available Tree :
    OrderedCollectionInit PcdValidateOrderedCollection Available Compare Key ∅ = Done (Some Tree) ->
    CollectionReach Compare Key Tree ∅
| Reach_insert Tree h User Status Node Tree' h' :
    CollectionReach Compare Key Tree h ->
    OrderedCollectionInsert PcdValidateOrderedCollection AllocatePool Tree User h = Done (Status, Node, Tree', h') ->
    CollectionReach Compare Key Tree' h'
| Reach_delete Tree h a u Tree' h' :
    CollectionReach Compare Key Tree h -> is_Some (h !! a) ->
    OrderedCollectionDelete PcdValidateOrderedCollection Tree a h = Done (u, Tree', h') ->
    CollectionReach Compare Key Tree' h'.

(** The collection holds [l], and the allocated nodes are those of [l]. *)
Definition Owns (h : Heap) (Tree : ORDERED_COLLECTION) (l : list (Z * Z)) : Prop :=
  IsCollection h Tree l /\ forall p : Z, is_Some (h !! p) <-> p ∈ l.*1.

Lemma Insert_owns h Tree l User Status Node Tree' h' :
  OrderedBy (UserStructCompare Tree) -> Owns h Tree l ->
  OrderedCollectionInsert PcdValidateOrderedCollection AllocatePool Tree User h = Done (Status, Node, Tree', h') ->
  (exists r, Tree' = SetRoot r Tree) /\ exists l', Owns h' Tree' l'.
Proof using AllocatePool_fresh.
  intros HC [Hc Hd] E. pose proof (OrderedCollectionInsert_core h Tree l User HC Hc) as HI. cbv zeta in HI. rewrite E in HI.
  assert (Tree' = Tree /\ h' = h -> (exists r, Tree' = SetRoot r Tree) /\ exists l', Owns h' Tree' l') as Hsame.
  { intros [-> ->]. split; [by exists (Root Tree); destruct Tree|by exists l]. }
  destruct (matching (UserStructCompare Tree) User l) as [|[b v] m]; [|apply Hsame; by simplify_eq].
  destruct (AllocatePool h) as [[p c]|]; [|apply Hsame; by simplify_eq].
  destruct HI as (r & h1 & [= -> -> -> ->] & Hp & Hc' & HF). split; [by exists r|]. eexists. split; [done|]. intros q.
  pose proof (fun q => elem_of_add_entry (UserStructCompare Tree) q p User l) as Hin. rewrite Hin. destruct (decide (q = p)) as [->|Hq].
  - destruct Hc' as (T & HT & _ & _ & HE). split; [by left|intros _].
    apply (Shape_addr h1 0 T p (TreeAt_shape _ _ HT)). unfold addrs. rewrite HE. apply Hin. by left.
  - destruct (decide (q ∈ l.*1)) as [Hl|Hl].
    + split; [by right|intros _]. destruct Hc' as (T & HT & _ & _ & HE).
      apply (Shape_addr h1 0 T q (TreeAt_shape _ _ HT)). unfold addrs. rewrite HE. apply Hin. by right.
    + rewrite HF by done. rewrite Hd. tauto.
Qed.

Lemma Delete_owns h Tree l a u Tree' h' :
  OrderedBy (UserStructCompare Tree) -> Owns h Tree l -> is_Some (h !! a) ->
  OrderedCollectionDelete PcdValidateOrderedCollection Tree a h = Done (u, Tree', h') ->
  (exists r, Tree' = SetRoot r Tree) /\ exists l', Owns h' Tree' l'.
Proof using.
  intros HC [Hc Hd] Ha E. apply Hd, list_elem_of_fmap in Ha as ([a' v] & -> & (l1 & l2 & ->)%list_elem_of_split). simpl in E.
  destruct (OrderedCollectionDelete_core h Tree l1 a' v l2 HC Hc) as (r & h1 & E1 & Hc1 & Ha1 & HF).
  rewrite E in E1. injection E1 as -> -> ->. split; [by exists r|]. exists (l1 ++ l2). split; [done|]. intros q.
  destruct (decide (q = a')) as [->|Hq].
  - rewrite Ha1. split; [by intros [? ?]|]. intros Hin. destruct Hc as (T & HT & _ & _ & HE).
    pose proof (TreeAt_nodup _ _ HT) as Hn. unfold addrs in Hn. rewrite HE, fmap_app in Hn. simpl in Hn.
    rewrite fmap_app, elem_of_app in Hin. rewrite NoDup_app, NoDup_cons in Hn. destruct Hn as (_ & Hn1 & Hn2 & _).
    destruct Hin as [Hin|Hin]; [|done]. destruct (Hn1 a' Hin). by left.
  - destruct (decide (q ∈ (l1 ++ l2).*1)) as [Hl|Hl].
    + split; [done|intros _]. destruct Hc1 as (T & HT & _ & _ & HE).
      apply (Shape_addr h1 0 T q (TreeAt_shape _ _ HT)). unfold addrs. by rewrite HE.
    + assert (q ∉ (l1 ++ (a', v) :: l2).*1) as Hq'.
      { rewrite fmap_app, elem_of_app in Hl |- *. simpl. rewrite elem_of_cons. tauto. }
      rewrite HF by done. rewrite Hd. tauto.
Qed.

(** C9: Every collection that is created by OrderedCollectionInit and then only
    used through OrderedCollectionInsert and OrderedCollectionDelete is well
    formed at all times: it is a valid, ordered red-black tree over properly
    linked nodes, and the allocated nodes are exactly those that are in the
    tree, so that none is lost and none is used after it was freed. *)
Theorem CollectionReach_wf Compare Key Tree h :
  OrderedBy Compare -> CollectionReach Compare Key Tree h ->
  UserStructCompare Tree = Compare /\ KeyCompare Tree = Key /\ exists l, Owns h Tree l.
Proof using AllocatePool_fresh.
  intros HC. induction 1 as [Available Tree E|Tree h User Status Node Tree' h' _ (Ec & Ek & l & Ho) E
    |Tree h a u Tree' h' _ (Ec & Ek & l & Ho) Ha E].
  - unfold OrderedCollectionInit in E. destruct Available; simpl in E; [|done].
    destruct (ValidateIfEnabled _ _ _); simpl in E; [|done..]. injection E as <-. split_and!; [done|done|].
    exists []. split; [|intros p; simpl; rewrite lookup_empty, elem_of_nil; split; [by intros [? ?]|done]].
    exists Leaf. split_and!; [split; [done|apply NoDup_nil_2]|done| |done]. split; [done|by exists 0%nat|constructor].
  - rewrite <- Ec in HC. destruct (Insert_owns h Tree l User _ _ _ _ HC Ho E) as [[r ->] Hl]. done.
  - rewrite <- Ec in HC. destruct (Delete_owns h Tree l a u _ _ HC Ho Ha E) as [[r ->] Hl]. done.
Qed.
End Collections.

(** ** Lookups *)

(** The lookups agree with the sequence of entries.  OrderedCollectionMin
    and OrderedCollectionMax return its first and last node, or NULL if it is
    empty; OrderedCollectionFind returns the node whose user structure matches
    the key, or NULL if there is none; from each node OrderedCollectionNext and
    OrderedCollectionPrev lead to the node after and before it, or to NULL at
    the ends; and OrderedCollectionIsEmpty says whether it is empty. *)
Theorem OrderedCollection_lookups h Tree l :
  KeyOrderedBy (UserStructCompare Tree) (KeyCompare Tree) -> IsCollection h Tree l ->
  OrderedCollectionMin Tree h = Done (first l) /\ OrderedCollectionMax Tree h = Done (first (reverse l)) /\
  (forall Key, OrderedCollectionFind Tree Key h = Done (first (matching (KeyCompare Tree) Key l))) /\
  (forall l1 a u l2, l = l1 ++ (a, u) :: l2 ->
     OrderedCollectionNext a h = Done (first l2) /\ OrderedCollectionPrev a h = Done (first (reverse l1)) /\
     OrderedCollectionUserStruct a h = Done u) /\
  (OrderedCollectionIsEmpty Tree = true <-> l = []).
Proof.
  intros HK (T & HT & Hr & HV & <-). pose proof (walk_entries T) as [HwR HwL]. split_and!.
  - rewrite <- HwR. by apply (Extreme_walk h RightSide T Tree).
  - rewrite <- HwL. by apply (Extreme_walk h LeftSide T Tree).
  - intros Key. unfold OrderedCollectionFind. rewrite Hr. pose proof (TreeAt_size _ _ HT). pose proof (height_entries T).
    apply (FindLoop_first (UserStructCompare Tree) _ _ 0); [done|apply HT|apply HV|lia].
  - intros l1 a u l2 E. split_and!.
    + apply (Neighbour_walk h RightSide T l1 a u); [done|]. by rewrite HwR.
    + apply (Neighbour_walk h LeftSide T (reverse l2) a u); [done|].
      rewrite HwL, E, reverse_app, reverse_cons, <- app_assoc. done.
    + destruct (ReadNode_walk h RightSide T l1 a u l2 HT) as (n & Hn & Hu & _); [by rewrite HwR|].
      unfold OrderedCollectionUserStruct. rewrite Hn. simpl. by rewrite Hu.
  - unfold OrderedCollectionIsEmpty. rewrite Hr, Z.eqb_eq. destruct T as [|c tl a u tr]; [done|].
    destruct HT as [(Ha & _) _]. simpl. split; [done|]. intros E. by apply app_eq_nil in E as [_ ?].
Qed.

(** ** Height *)

Lemma RB_height t n : RB t n -> (height t <= 2 * n + (if IsRed (hue t) then 1 else 0))%nat.
Proof.
  revert n. induction t as [|c l IHl a u r IHr]; intros n; [simpl; lia|].
  intros (m & Hred & Hl & Hr & ->)%(RB_Join LeftSide). apply IHl in Hl. apply IHr in Hr. simpl.
  destruct c; simpl; [destruct (Hred eq_refl) as [El Er]; rewrite El in Hl; rewrite Er in Hr; simpl in Hl, Hr; lia|].
  destruct (IsRed (hue l)), (IsRed (hue r)); lia.
Qed.

Lemma RB_count t n : RB t n -> (2 ^ n <= S (length (entries t)))%nat.
Proof.
  revert n. induction t as [|c l IHl a u r IHr]; intros n; [by simpl; intros ->|].
  intros (m & _ & Hl & Hr & ->)%(RB_Join LeftSide). apply IHl in Hl. apply IHr in Hr. simpl. rewrite length_app. simpl.
  destruct (IsRed c); simpl; lia.
Qed.

Lemma ValidTree_height Compare T : ValidTree Compare T -> (height T <= 2 * Nat.log2 (S (length (entries T))))%nat.
Proof.
  intros [Hb [n Hn] _]. pose proof (RB_height _ _ Hn) as Hh. rewrite Hb in Hh. cbn [IsRed] in Hh.
  pose proof (Nat.log2_le_mono _ _ (RB_count _ _ Hn)) as Hl. rewrite Nat.log2_pow2 in Hl by lia. lia.
Qed.

(** Lookups take logarithmic time.  In a collection of n entries the loop
    of OrderedCollectionFind descends at most 2 * log2 (n + 1) times before it
    ends with its result. *)
Theorem OrderedCollectionFind_logarithmic h Tree l Key :
  KeyOrderedBy (UserStructCompare Tree) (KeyCompare Tree) -> IsCollection h Tree l ->
  FindLoop (KeyCompare Tree) Key (S (2 * Nat.log2 (S (length l)))) (Root Tree) h =
  Done (first (matching (KeyCompare Tree) Key l)).
Proof.
  intros HK (T & HT & Hr & HV & <-). rewrite Hr. pose proof (ValidTree_height _ _ HV).
  apply (FindLoop_first (UserStructCompare Tree) _ _ 0); [done|apply HT|apply HV|lia].
Qed.

(** ** Witnesses *)

(** A pool that never runs out and hands out blocks with arbitrary contents. *)
Definition NextAddress (h : Heap) : Z := 1 + foldr (fun e => Z.max e.1) 0 (map_to_list h).
Definition BumpPool (h : Heap) : option (Z * RED_BLACK_TREE_NODE) :=
  Some (NextAddress h, MkNode 7 7 7 7 RedBlackTreeRed).

Lemma BumpPool_fresh h p c : BumpPool h = Some (p, c) -> p ≠ 0 /\ h !! p = None.
Proof.
  intros [= <- _].
  assert (forall l : list (Z * RED_BLACK_TREE_NODE), 0 <= foldr (fun e => Z.max e.1) 0 l /\
            forall e, e ∈ l -> e.1 <= foldr (fun e => Z.max e.1) 0 l) as H.
  { induction l as [|e l [IH1 IH2]]; simpl; [by split; [lia|intros e ?%elem_of_nil]|]. split; [lia|].
    intros e' [->|He]%elem_of_cons; [lia|]. specialize (IH2 e' He). lia. }
  unfold NextAddress. specialize (H (map_to_list h)) as [H1 H2]. split; [lia|].
  apply eq_None_not_Some. intros [n Hn]. apply elem_of_map_to_list, H2 in Hn. simpl in Hn. lia.
Qed.

Lemma Sample_collection : IsCollection SampleHeap SampleCollection [(10, 30); (11, 50); (12, 80)].
Proof. exists SampleTree. destruct Sample_ok. by split_and!. Qed.

Lemma OrderedCollectionInsert_correct_witness :
  exists r h', OrderedCollectionInsert true BumpPool SampleCollection 60 SampleHeap =
      Done (EFI_SUCCESS, Some 13, SetRoot r SampleCollection, h') /\
    IsCollection h' (SetRoot r SampleCollection) [(10, 30); (11, 50); (13, 60); (12, 80)].
Proof.
  destruct (OrderedCollectionInsert_correct true BumpPool BumpPool_fresh SampleHeap SampleCollection _ 60
    PointerCompare_ordered Sample_collection) as (r & h' & E & _ & Hc & _).
  exists r, h'. split; [exact E|exact Hc].
Defined.

Lemma OrderedCollectionDelete_correct_witness :
  exists r h', OrderedCollectionDelete true SampleCollection 11 SampleHeap = Done (50, SetRoot r SampleCollection, h') /\
    IsCollection h' (SetRoot r SampleCollection) [(10, 30); (12, 80)].
Proof.
  destruct (OrderedCollectionDelete_correct true SampleHeap SampleCollection [(10, 30)] 11 50 [(12, 80)]
    PointerCompare_ordered Sample_collection) as (r & h' & E & Hc & _).
  exists r, h'. split; [exact E|exact Hc].
Defined.

Lemma CollectionReach_wf_witness : exists Tree h, h !! 1 ≠ None /\ exists l, Owns h Tree l.
Proof.
  eexists (MkCollection 1 PointerCompare PointerCompare), {[ 1 := MkNode 5 0 0 0 RedBlackTreeBlack ]}. split; [by vm_compute|].
  refine (proj2 (proj2 (CollectionReach_wf true BumpPool BumpPool_fresh PointerCompare PointerCompare _ _ PointerCompare_ordered _))).
  eapply (Reach_insert true BumpPool PointerCompare PointerCompare _ ∅ 5); [eapply (Reach_init _ _ _ _ true); by vm_compute|by vm_compute].
Defined.

Lemma OrderedCollection_lookups_witness :
  OrderedCollectionNext 10 SampleHeap = Done 11 /\ OrderedCollectionFind SampleCollection 80 SampleHeap = Done 12.
Proof.
  destruct (OrderedCollection_lookups SampleHeap SampleCollection _ (OrderedBy_KeyOrderedBy _ PointerCompare_ordered) Sample_collection)
    as (_ & _ & Hf & Hn & _).
  split; [apply (Hn [] 10 30 [(11, 50); (12, 80)]); reflexivity|exact (Hf 80)].
Defined.

Lemma OrderedCollectionFind_logarithmic_witness : FindLoop PointerCompare 80 5 11 SampleHeap = Done 12.
Proof.
  exact (OrderedCollectionFind_logarithmic SampleHeap SampleCollection _ 80
    (OrderedBy_KeyOrderedBy _ PointerCompare_ordered) Sample_collection).
Defined.
