(* ===== verification/Handle.v ===== *)
(** * The handle database: the model

    [src/MdeModulePkg/Core/Dxe/Hand/Handle.c], [Notify.c] and [Locate.c]:
    handles, protocol interfaces installed on them, who has opened them, the
    events registered for new interfaces, and searches for handles.

    The state has one map per kind of structure, from addresses to contents
    (address 0 is NULL, reading a freed or absent structure gives [Asserted],
    as the signature check of the macro CR does), and a LIST_ENTRY list is the
    sequence of the addresses of its nodes, which LinkedList.v justifies.  The
    OPEN_PROTOCOL_DATA records of an interface are kept in its list, since
    nothing else points to them.  The functions are programs of a state monad
    [HM].  A GUID is a number; a pointer to one that may be NULL is an option.

    What the code calls but does not own is in the class [Environment]: the
    event notifications that run when releasing the database lock lowers the
    task priority level, and the driver connection services, which call
    drivers, all of which may use the database again, the pool, and the memory
    that device paths are in.  The ordered set of handles is used through the
    interface [HandleSetOps]. *)
From Stdlib Require Import ZArith Lia.
From stdpp Require Import base option gmap list.
From S2P Require Import Prelude.

(** ** Data *)

Definition EFI_NATIVE_INTERFACE : Z := 0.

Definition EFI_OPEN_PROTOCOL_BY_HANDLE_PROTOCOL : Z := 0x00000001.
Definition EFI_OPEN_PROTOCOL_GET_PROTOCOL : Z := 0x00000002.
Definition EFI_OPEN_PROTOCOL_TEST_PROTOCOL : Z := 0x00000004.
Definition EFI_OPEN_PROTOCOL_BY_CHILD_CONTROLLER : Z := 0x00000008.
Definition EFI_OPEN_PROTOCOL_BY_DRIVER : Z := 0x00000010.
Definition EFI_OPEN_PROTOCOL_EXCLUSIVE : Z := 0x00000020.

Record OPEN_PROTOCOL_DATA := MkOpen {
  AgentHandle : Z;
  ControllerHandle : Z;
  Attributes : Z;
  OpenCount : Z }.

Record PROTOCOL_INTERFACE := MkInterface {
  ProtHandle : Z;
  ProtProtocol : Z;
  Interface : Z;
  OpenList : list OPEN_PROTOCOL_DATA;
  OpenListCount : Z }.

(** [Protocols] has the interfaces in the order of their [ByProtocol] links. *)
Record PROTOCOL_ENTRY := MkEntry {
  ProtocolID : Z;
  EntryProtocols : list Z;
  Notify : list Z }.

(** [Position] is the interface last reported, [None] for the list head. *)
Record PROTOCOL_NOTIFY := MkNotify {
  NotifyProtocol : Z;
  NotifyEvent : Z;
  Position : option Z }.

Record IHANDLE := MkHandle {
  Protocols : list Z;
  LocateRequest : Z;
  Key : Z }.

Record HandleState (HS : Type) := MkHandleState {
  gHandleList : list Z;
  Handles : gmap Z IHANDLE;
  mProtocolDatabase : list Z;
  Entries : gmap Z PROTOCOL_ENTRY;
  Interfaces : gmap Z PROTOCOL_INTERFACE;
  Notifies : gmap Z PROTOCOL_NOTIFY;
  gHandleDatabaseKey : Z;
  mEfiLocateHandleRequest : Z;
  gOrderedHandleList : HS;
  Locked : bool;          (* gProtocolDatabaseLock is held *)
  AtNotify : bool;        (* the task priority level is at least TPL_NOTIFY without the lock *)
  Signals : list Z        (* the events passed to CoreSignalEvent, in order *) }.
Arguments MkHandleState {HS}.
Arguments gHandleList {HS}.
Arguments Handles {HS}.
Arguments mProtocolDatabase {HS}.
Arguments Entries {HS}.
Arguments Interfaces {HS}.
Arguments Notifies {HS}.
Arguments gHandleDatabaseKey {HS}.
Arguments mEfiLocateHandleRequest {HS}.
Arguments gOrderedHandleList {HS}.
Arguments Locked {HS}.
Arguments AtNotify {HS}.
Arguments Signals {HS}.

(** ** Programs over the state *)

Definition HM (HS A : Type) : Type := HandleState HS -> Outcome (A * HandleState HS).

#[export] Instance HM_ret {HS} : MRet (HM HS) := fun A a st => Done (a, st).
#[export] Instance HM_bind {HS} : MBind (HM HS) :=
  fun A B f m st => match m st with Done (a, st') => f a st' | Asserted => Asserted | OutOfFuel => OutOfFuel end.

Section Primitives.
Context {HS : Type}.

Definition gets {A} (f : HandleState HS -> A) : HM HS A := fun st => Done (f st, st).
Definition modify (f : HandleState HS -> HandleState HS) : HM HS unit := fun st => Done (tt, f st).
Definition assert (b : bool) : HM HS unit := fun st => if b then Done (tt, st) else Asserted.

Definition lift {A} (m : Outcome A) : HM HS A :=
  fun st => match m with Done a => Done (a, st) | Asserted => Asserted | OutOfFuel => OutOfFuel end.

Definition SetHandleList (v : list Z) (st : HandleState HS) : HandleState HS :=
  MkHandleState v (Handles st) (mProtocolDatabase st) (Entries st) (Interfaces st) (Notifies st)
    (gHandleDatabaseKey st) (mEfiLocateHandleRequest st) (gOrderedHandleList st) (Locked st) (AtNotify st) (Signals st).
Definition SetHandles (v : gmap Z IHANDLE) (st : HandleState HS) : HandleState HS :=
  MkHandleState (gHandleList st) v (mProtocolDatabase st) (Entries st) (Interfaces st) (Notifies st)
    (gHandleDatabaseKey st) (mEfiLocateHandleRequest st) (gOrderedHandleList st) (Locked st) (AtNotify st) (Signals st).
Definition SetDatabase (v : list Z) (w : gmap Z PROTOCOL_ENTRY) (st : HandleState HS) : HandleState HS :=
  MkHandleState (gHandleList st) (Handles st) v w (Interfaces st) (Notifies st)
    (gHandleDatabaseKey st) (mEfiLocateHandleRequest st) (gOrderedHandleList st) (Locked st) (AtNotify st) (Signals st).
Definition SetInterfaces (v : gmap Z PROTOCOL_INTERFACE) (st : HandleState HS) : HandleState HS :=
  MkHandleState (gHandleList st) (Handles st) (mProtocolDatabase st) (Entries st) v (Notifies st)
    (gHandleDatabaseKey st) (mEfiLocateHandleRequest st) (gOrderedHandleList st) (Locked st) (AtNotify st) (Signals st).
Definition SetNotifies (v : gmap Z PROTOCOL_NOTIFY) (st : HandleState HS) : HandleState HS :=
  MkHandleState (gHandleList st) (Handles st) (mProtocolDatabase st) (Entries st) (Interfaces st) v
    (gHandleDatabaseKey st) (mEfiLocateHandleRequest st) (gOrderedHandleList st) (Locked st) (AtNotify st) (Signals st).
Definition SetDatabaseKey (v : Z) (st : HandleState HS) : HandleState HS :=
  MkHandleState (gHandleList st) (Handles st) (mProtocolDatabase st) (Entries st) (Interfaces st) (Notifies st)
    v (mEfiLocateHandleRequest st) (gOrderedHandleList st) (Locked st) (AtNotify st) (Signals st).
Definition SetLocateRequest (v : Z) (st : HandleState HS) : HandleState HS :=
  MkHandleState (gHandleList st) (Handles st) (mProtocolDatabase st) (Entries st) (Interfaces st) (Notifies st)
    (gHandleDatabaseKey st) v (gOrderedHandleList st) (Locked st) (AtNotify st) (Signals st).
Definition SetOrderedHandleList (v : HS) (st : HandleState HS) : HandleState HS :=
  MkHandleState (gHandleList st) (Handles st) (mProtocolDatabase st) (Entries st) (Interfaces st) (Notifies st)
    (gHandleDatabaseKey st) (mEfiLocateHandleRequest st) v (Locked st) (AtNotify st) (Signals st).
Definition SetLocked (v : bool) (st : HandleState HS) : HandleState HS :=
  MkHandleState (gHandleList st) (Handles st) (mProtocolDatabase st) (Entries st) (Interfaces st) (Notifies st)
    (gHandleDatabaseKey st) (mEfiLocateHandleRequest st) (gOrderedHandleList st) v (AtNotify st) (Signals st).
Definition SetAtNotify (v : bool) (st : HandleState HS) : HandleState HS :=
  MkHandleState (gHandleList st) (Handles st) (mProtocolDatabase st) (Entries st) (Interfaces st) (Notifies st)
    (gHandleDatabaseKey st) (mEfiLocateHandleRequest st) (gOrderedHandleList st) (Locked st) v (Signals st).
Definition AddSignal (v : Z) (st : HandleState HS) : HandleState HS :=
  MkHandleState (gHandleList st) (Handles st) (mProtocolDatabase st) (Entries st) (Interfaces st) (Notifies st)
    (gHandleDatabaseKey st) (mEfiLocateHandleRequest st) (gOrderedHandleList st) (Locked st) (AtNotify st) (Signals st ++ [v]).

(** Following a pointer. *)
Definition deref {A} (m : HandleState HS -> gmap Z A) (p : Z) : HM HS A :=
  fun st => match m st !! p with Some x => Done (x, st) | None => Asserted end.

Definition UpdateHandle (p : Z) (f : IHANDLE -> IHANDLE) : HM HS unit :=
  x ← deref Handles p;
  modify (fun st => SetHandles (<[p := f x]> (Handles st)) st).
Definition UpdateEntry (p : Z) (f : PROTOCOL_ENTRY -> PROTOCOL_ENTRY) : HM HS unit :=
  x ← deref Entries p;
  modify (fun st => SetDatabase (mProtocolDatabase st) (<[p := f x]> (Entries st)) st).
Definition UpdateInterface (p : Z) (f : PROTOCOL_INTERFACE -> PROTOCOL_INTERFACE) : HM HS unit :=
  x ← deref Interfaces p;
  modify (fun st => SetInterfaces (<[p := f x]> (Interfaces st)) st).
Definition UpdateNotify (p : Z) (f : PROTOCOL_NOTIFY -> PROTOCOL_NOTIFY) : HM HS unit :=
  x ← deref Notifies p;
  modify (fun st => SetNotifies (<[p := f x]> (Notifies st)) st).
End Primitives.

Definition SetProtocols (v : list Z) (H : IHANDLE) : IHANDLE := MkHandle v (LocateRequest H) (Key H).
Definition SetKey (v : Z) (H : IHANDLE) : IHANDLE := MkHandle (Protocols H) (LocateRequest H) v.
Definition SetRequest (v : Z) (H : IHANDLE) : IHANDLE := MkHandle (Protocols H) v (Key H).
Definition SetEntryProtocols (v : list Z) (E : PROTOCOL_ENTRY) : PROTOCOL_ENTRY := MkEntry (ProtocolID E) v (Notify E).
Definition SetNotify (v : list Z) (E : PROTOCOL_ENTRY) : PROTOCOL_ENTRY := MkEntry (ProtocolID E) (EntryProtocols E) v.
Definition SetPosition (v : option Z) (N : PROTOCOL_NOTIFY) : PROTOCOL_NOTIFY := MkNotify (NotifyProtocol N) (NotifyEvent N) v.
Definition SetOpenList (v : list OPEN_PROTOCOL_DATA) (c : Z) (P : PROTOCOL_INTERFACE) : PROTOCOL_INTERFACE :=
  MkInterface (ProtHandle P) (ProtProtocol P) (Interface P) v c.
Definition SetInterface (v : Z) (P : PROTOCOL_INTERFACE) : PROTOCOL_INTERFACE :=
  MkInterface (ProtHandle P) (ProtProtocol P) v (OpenList P) (OpenListCount P).
Definition SetOpenCount (v : Z) (O : OPEN_PROTOCOL_DATA) : OPEN_PROTOCOL_DATA :=
  MkOpen (AgentHandle O) (ControllerHandle O) (Attributes O) v.

(** [RemoveEntryList] on the sequence of a list. *)
Definition remove_link (p : Z) (l : list Z) : list Z := filter (fun q => q ≠ p) l.

(** The [BackLink] of [p]: the node before it, [None] if that is the head. *)
Fixpoint back_link (prev : option Z) (p : Z) (l : list Z) : option Z :=
  match l with
  | [] => prev
  | q :: l => if q =? p then prev else back_link (Some q) p l
  end.

(** ** Interfaces to other components *)

(** The ordered collection of handles: insertion, lookup (NULL if absent) and
    deletion of an entry. *)
Class HandleSetOps (HS : Type) := {
  CollectionInsert : Z -> HS -> Outcome (EFI_STATUS * HS);
  CollectionFind : Z -> HS -> Outcome Z;
  CollectionDelete : Z -> HS -> Outcome HS }.

(** What the database uses and does not own. *)
Class Environment (HS : Type) := MkEnvironment {
  (** the notifications that lowering the task priority level dispatches *)
  DispatchEvents : HM HS unit;
  (** [CoreDisconnectController (Controller, Driver, NULL)] *)
  CoreDisconnectController : Z -> Z -> HM HS EFI_STATUS;
  (** [CoreConnectController (Controller, NULL, NULL, TRUE)] *)
  CoreConnectController : Z -> HM HS EFI_STATUS;
  (** the pool: the address of a new structure, if there is memory for it,
      given the structures in use, which are those of the state and the blocks
      that the caller has not linked yet *)
  AllocatePool : HandleState HS -> list Z -> option Z;
  (** whether there is memory for a buffer of a size *)
  BufferAvailable : HandleState HS -> Z -> bool;
  (** the image handle of the DXE core *)
  gDxeCoreImageHandle : Z;
  (** the memory that device paths are in: their nodes, their sizes, and
      whether two ranges of bytes are equal *)
  gEfiDevicePathProtocolGuid : Z;
  IsDevicePathEnd : Z -> bool;
  IsDevicePathEndInstance : Z -> bool;
  NextDevicePathNode : Z -> Z;
  GetDevicePathSize : Z -> Z;
  SameBytes : Z -> Z -> Z -> bool;
  (** rounds of the loops that the database does not bound: those during which
      the lock is dropped, and the walk over a device path *)
  Fuel : nat }.

Section Services.
Context {HS : Type} {Ops : HandleSetOps HS} {Env : Environment HS}.

Definition Allocate (Blocks : list Z) : HM HS Z := gets (fun st => default 0 (AllocatePool st Blocks)).

(** ** Locking *)

Definition CoreAcquireProtocolLock : HM HS unit :=
  Held ← gets Locked;
  assert (negb Held) ;;
  modify (SetLocked true).

(** Lowers the task priority level again, which may dispatch events. *)
Definition CoreReleaseProtocolLock : HM HS unit :=
  Held ← gets Locked;
  assert Held ;;
  modify (SetLocked false) ;;
  High ← gets AtNotify;
  if High : bool then mret tt else DispatchEvents.

(** [CoreRaiseTpl (TPL_NOTIFY)], which returns whether the level was as high
    before, and [CoreRestoreTpl]. *)
Definition RaiseTplNotify : HM HS bool :=
  Old ← gets AtNotify;
  modify (SetAtNotify true) ;;
  mret Old.
Definition RestoreTpl (Old : bool) : HM HS unit :=
  modify (SetAtNotify Old) ;;
  if Old : bool then mret tt else DispatchEvents.

Definition ASSERT_LOCKED : HM HS unit :=
  Held ← gets Locked;
  assert Held.

(** ** Lookup in the database *)

Definition CoreValidateHandle (UserHandle : Z) : HM HS EFI_STATUS :=
  if UserHandle =? 0 then mret EFI_INVALID_PARAMETER else
  ASSERT_LOCKED ;;
  Set_ ← gets gOrderedHandleList;
  Entry ← lift (CollectionFind UserHandle Set_);
  if negb (Entry =? 0) then mret EFI_SUCCESS else mret EFI_INVALID_PARAMETER.

Fixpoint FindEntryLoop (Protocol : Z) (Links : list Z) : HM HS Z :=
  match Links with
  | [] => mret 0
  | Item :: Links =>
    item ← deref Entries Item;
    if ProtocolID item =? Protocol then mret Item else FindEntryLoop Protocol Links
  end.

Definition CoreFindProtocolEntry (Protocol : Z) (Create : bool) : HM HS Z :=
  ASSERT_LOCKED ;;
  Links ← gets mProtocolDatabase;
  ProtEntry ← FindEntryLoop Protocol Links;
  if (ProtEntry =? 0) && Create then
    ProtEntry ← Allocate [];
    if negb (ProtEntry =? 0) then
      modify (fun st => SetDatabase (mProtocolDatabase st ++ [ProtEntry])
                          (<[ProtEntry := MkEntry Protocol [] []]> (Entries st)) st) ;;
      mret ProtEntry
    else mret 0
  else mret ProtEntry.

Fixpoint FindInterfaceLoop (ProtEntry Interface_ : Z) (Links : list Z) : HM HS Z :=
  match Links with
  | [] => mret 0
  | Prot :: Links =>
    prot ← deref Interfaces Prot;
    if (Interface prot =? Interface_) && (ProtProtocol prot =? ProtEntry) then mret Prot
    else FindInterfaceLoop ProtEntry Interface_ Links
  end.

Definition CoreFindProtocolInterface (Handle : Z) (Protocol : Z) (Interface_ : Z) : HM HS Z :=
  ASSERT_LOCKED ;;
  ProtEntry ← CoreFindProtocolEntry Protocol false;
  if negb (ProtEntry =? 0) then
    handle ← deref Handles Handle;
    FindInterfaceLoop ProtEntry Interface_ (Protocols handle)
  else mret 0.

Fixpoint DevicePathLoop (DevicePath SourceSize : Z) (Links : list Z) : HM HS bool :=
  match Links with
  | [] => mret false
  | Prot :: Links =>
    prot ← deref Interfaces Prot;
    let Size := GetDevicePathSize (Interface prot) in
    assert (4 <=? Size) ;;
    if (Size =? SourceSize) && SameBytes DevicePath (Interface prot) (Size - 4) then mret true
    else DevicePathLoop DevicePath SourceSize Links
  end.

Definition IsDevicePathInstalled (DevicePath : Z) : HM HS bool :=
  if DevicePath =? 0 then mret false else
  let SourceSize := GetDevicePathSize DevicePath in
  assert (4 <=? SourceSize) ;;
  CoreAcquireProtocolLock ;;
  ProtEntry ← CoreFindProtocolEntry gEfiDevicePathProtocolGuid false;
  Found ← (if ProtEntry =? 0 then mret false
           else entry ← deref Entries ProtEntry; DevicePathLoop DevicePath SourceSize (EntryProtocols entry));
  CoreReleaseProtocolLock ;;
  mret Found.

Fixpoint GetInterfaceLoop (Protocol : Z) (Links : list Z) : HM HS Z :=
  match Links with
  | [] => mret 0
  | Prot :: Links =>
    prot ← deref Interfaces Prot;
    entry ← deref Entries (ProtProtocol prot);
    if ProtocolID entry =? Protocol then mret Prot else GetInterfaceLoop Protocol Links
  end.

Definition CoreGetProtocolInterface (UserHandle : Z) (Protocol : Z) : HM HS Z :=
  handle ← deref Handles UserHandle;
  GetInterfaceLoop Protocol (Protocols handle).

(** ** Notifications *)

Fixpoint SignalLoop (Links : list Z) : HM HS unit :=
  match Links with
  | [] => mret tt
  | ProtNotify :: Links =>
    notify ← deref Notifies ProtNotify;
    modify (AddSignal (NotifyEvent notify)) ;;
    SignalLoop Links
  end.

Definition CoreNotifyProtocolEntry (ProtEntry : Z) : HM HS unit :=
  ASSERT_LOCKED ;;
  entry ← deref Entries ProtEntry;
  SignalLoop (Notify entry).

Fixpoint BackUpLoop (Prot : Z) (BackLink : option Z) (Links : list Z) : HM HS unit :=
  match Links with
  | [] => mret tt
  | ProtNotify :: Links =>
    notify ← deref Notifies ProtNotify;
    (if bool_decide (Position notify = Some Prot) then UpdateNotify ProtNotify (SetPosition BackLink) else mret tt) ;;
    BackUpLoop Prot BackLink Links
  end.

Definition CoreRemoveInterfaceFromProtocol (Handle : Z) (Protocol : Z) (Interface_ : Z) : HM HS Z :=
  ASSERT_LOCKED ;;
  Prot ← CoreFindProtocolInterface Handle Protocol Interface_;
  if negb (Prot =? 0) then
    prot ← deref Interfaces Prot;
    let ProtEntry := ProtProtocol prot in
    entry ← deref Entries ProtEntry;
    BackUpLoop Prot (back_link None Prot (EntryProtocols entry)) (Notify entry) ;;
    UpdateEntry ProtEntry (SetEntryProtocols (remove_link Prot (EntryProtocols entry))) ;;
    mret Prot
  else mret Prot.

(** [Event] is [None] if it is NULL or has no valid signature. *)
Definition CoreRegisterProtocolNotify (Protocol : option Z) (Event : option Z) (Registration : bool)
  : HM HS (EFI_STATUS * Z) :=
  match Protocol, Event with
  | Some Protocol, Some Event =>
    if negb Registration then mret (EFI_INVALID_PARAMETER, 0) else
    CoreAcquireProtocolLock ;;
    ProtEntry ← CoreFindProtocolEntry Protocol true;
    ProtNotify ←
      (if negb (ProtEntry =? 0) then
         ProtNotify ← Allocate [];
         (if negb (ProtNotify =? 0) then
            modify (fun st => SetNotifies (<[ProtNotify := MkNotify ProtEntry Event None]> (Notifies st)) st) ;;
            entry ← deref Entries ProtEntry;
            UpdateEntry ProtEntry (SetNotify (Notify entry ++ [ProtNotify]))
          else mret tt) ;;
         mret ProtNotify
       else mret 0);
    CoreReleaseProtocolLock ;;
    if negb (ProtNotify =? 0) then mret (EFI_SUCCESS, ProtNotify) else mret (EFI_OUT_OF_RESOURCES, 0)
  | _, _ => mret (EFI_INVALID_PARAMETER, 0)
  end.

(** The first registration of [Event] in the entries, or NULL. *)
Fixpoint FindNotifyLoop (Event : Z) (Links : list Z) : HM HS Z :=
  match Links with
  | [] => mret 0
  | ProtNotify :: Links =>
    notify ← deref Notifies ProtNotify;
    if NotifyEvent notify =? Event then mret ProtNotify else FindNotifyLoop Event Links
  end.
Fixpoint UnregisterLoop (Event : Z) (Links : list Z) : HM HS EFI_STATUS :=
  match Links with
  | [] => mret EFI_NOT_FOUND
  | ProtEntry :: Links =>
    entry ← deref Entries ProtEntry;
    ProtNotify ← FindNotifyLoop Event (Notify entry);
    if negb (ProtNotify =? 0) then
      UpdateEntry ProtEntry (SetNotify (remove_link ProtNotify (Notify entry))) ;;
      modify (fun st => SetNotifies (delete ProtNotify (Notifies st)) st) ;;
      mret EFI_SUCCESS
    else UnregisterLoop Event Links
  end.

Definition CoreUnregisterProtocolNotifyEvent (Event : Z) : HM HS EFI_STATUS :=
  CoreAcquireProtocolLock ;;
  Links ← gets mProtocolDatabase;
  Status ← UnregisterLoop Event Links;
  CoreReleaseProtocolLock ;;
  mret Status.

Fixpoint UnregisterAll (fuel : nat) (Event : Z) : HM HS EFI_STATUS :=
  match fuel with
  | O => fun _ => OutOfFuel
  | S fuel =>
    Status ← CoreUnregisterProtocolNotifyEvent Event;
    if EFI_ERROR Status then mret EFI_SUCCESS else UnregisterAll fuel Event
  end.
Definition CoreUnregisterProtocolNotify (Event : Z) : HM HS EFI_STATUS := UnregisterAll Fuel Event.

(** ** Opening and closing *)

(** The check of [Attributes] and of the handles that they need. *)
Definition CheckOpenAttributes (UserHandle ImageHandle ControllerHandle Attrs : Z) : HM HS EFI_STATUS :=
  if Attrs =? EFI_OPEN_PROTOCOL_BY_CHILD_CONTROLLER then
    Status ← CoreValidateHandle ImageHandle;
    if EFI_ERROR Status then mret Status else
    Status ← CoreValidateHandle ControllerHandle;
    if EFI_ERROR Status then mret Status else
    if UserHandle =? ControllerHandle then mret EFI_INVALID_PARAMETER else mret Status
  else if (Attrs =? EFI_OPEN_PROTOCOL_BY_DRIVER) ||
          (Attrs =? Z.lor EFI_OPEN_PROTOCOL_BY_DRIVER EFI_OPEN_PROTOCOL_EXCLUSIVE) then
    Status ← CoreValidateHandle ImageHandle;
    if EFI_ERROR Status then mret Status else CoreValidateHandle ControllerHandle
  else if Attrs =? EFI_OPEN_PROTOCOL_EXCLUSIVE then CoreValidateHandle ImageHandle
  else if (Attrs =? EFI_OPEN_PROTOCOL_BY_HANDLE_PROTOCOL) || (Attrs =? EFI_OPEN_PROTOCOL_GET_PROTOCOL) ||
          (Attrs =? EFI_OPEN_PROTOCOL_TEST_PROTOCOL) then mret EFI_SUCCESS
  else mret EFI_INVALID_PARAMETER.

(** The scan of the open list: it stops with a status and the list to keep, or
    ends with [ByDriver] and [Exclusive]. *)
Inductive ScanResult :=
| ScanStop (Status : EFI_STATUS) (Opens : list OPEN_PROTOCOL_DATA)
| ScanEnd (ByDriver Exclusive : bool).

Fixpoint ScanOpenList (Image Controller Attrs : Z) (ByDriver Exclusive : bool)
  (Seen Opens : list OPEN_PROTOCOL_DATA) : ScanResult :=
  match Opens with
  | [] => ScanEnd ByDriver Exclusive
  | OpenData :: Rest =>
    let ExactMatch := (AgentHandle OpenData =? Image) && (Attributes OpenData =? Attrs) &&
                      (ControllerHandle OpenData =? Controller) in
    let DriverItem := HasFlag (Attributes OpenData) EFI_OPEN_PROTOCOL_BY_DRIVER in
    if DriverItem && ExactMatch then ScanStop EFI_ALREADY_STARTED (Seen ++ Opens)
    else if HasFlag (Attributes OpenData) EFI_OPEN_PROTOCOL_EXCLUSIVE then
      ScanOpenList Image Controller Attrs (ByDriver || DriverItem) true (Seen ++ [OpenData]) Rest
    else if ExactMatch then
      ScanStop EFI_SUCCESS (Seen ++ SetOpenCount ((OpenCount OpenData + 1) mod 2 ^ 32) OpenData :: Rest)
    else ScanOpenList Image Controller Attrs (ByDriver || DriverItem) Exclusive (Seen ++ [OpenData]) Rest
  end.

(** The first item of an open list that a driver has. *)
Fixpoint FindDriverItem (Opens : list OPEN_PROTOCOL_DATA) : option OPEN_PROTOCOL_DATA :=
  match Opens with
  | [] => None
  | OpenData :: Rest =>
    if HasFlag (Attributes OpenData) EFI_OPEN_PROTOCOL_BY_DRIVER then Some OpenData else FindDriverItem Rest
  end.

(** [OpenData->AgentHandle] as it is read for the call of
    CoreDisconnectController, after the lock has been released: the item may
    have been closed, and so freed, since it was found. *)
Definition ReadAgentHandle (Prot : Z) (OpenData : OPEN_PROTOCOL_DATA) : HM HS Z :=
  prot ← deref Interfaces Prot;
  assert (existsb (fun D => (AgentHandle D =? AgentHandle OpenData) && (ControllerHandle D =? ControllerHandle OpenData) &&
                            (Attributes D =? Attributes OpenData)) (OpenList prot)) ;;
  mret (AgentHandle OpenData).

(** The loop that disconnects the drivers for an exclusive open. *)
Fixpoint DisconnectDrivers (fuel : nat) (UserHandle Prot : Z) : HM HS EFI_STATUS :=
  match fuel with
  | O => fun _ => OutOfFuel
  | S fuel =>
    prot ← deref Interfaces Prot;
    match FindDriverItem (OpenList prot) with
    | None => mret EFI_SUCCESS
    | Some OpenData =>
      CoreReleaseProtocolLock ;;
      Status ← (Agent ← ReadAgentHandle Prot OpenData; CoreDisconnectController UserHandle Agent);
      CoreAcquireProtocolLock ;;
      if EFI_ERROR Status then mret EFI_ACCESS_DENIED else DisconnectDrivers fuel UserHandle Prot
    end
  end.

(** The rules for drivers and exclusive access. *)
Definition CheckOpenConflicts (UserHandle Prot Attrs : Z) (ByDriver Exclusive : bool) : HM HS EFI_STATUS :=
  if Attrs =? EFI_OPEN_PROTOCOL_BY_DRIVER then
    mret (if Exclusive || ByDriver then EFI_ACCESS_DENIED else EFI_SUCCESS)
  else if (Attrs =? Z.lor EFI_OPEN_PROTOCOL_BY_DRIVER EFI_OPEN_PROTOCOL_EXCLUSIVE) ||
          (Attrs =? EFI_OPEN_PROTOCOL_EXCLUSIVE) then
    if Exclusive then mret EFI_ACCESS_DENIED
    else if ByDriver then DisconnectDrivers Fuel UserHandle Prot else mret EFI_SUCCESS
  else mret EFI_SUCCESS.

(** From the scan of the open list to the label [Done]. *)
Definition OpenInterface (UserHandle Prot ImageHandle Controller Attrs : Z) : HM HS EFI_STATUS :=
  prot ← deref Interfaces Prot;
  match ScanOpenList ImageHandle Controller Attrs false false [] (OpenList prot) with
  | ScanStop Status Opens =>
    UpdateInterface Prot (SetOpenList Opens (OpenListCount prot)) ;;
    mret Status
  | ScanEnd ByDriver Exclusive =>
    Status ← CheckOpenConflicts UserHandle Prot Attrs ByDriver Exclusive;
    if EFI_ERROR Status then mret Status else
    if ImageHandle =? 0 then mret EFI_SUCCESS else
    OpenData ← Allocate [];
    if OpenData =? 0 then mret EFI_OUT_OF_RESOURCES else
    prot ← deref Interfaces Prot;
    UpdateInterface Prot (SetOpenList (OpenList prot ++ [MkOpen ImageHandle Controller Attrs 1])
                            (add64 (OpenListCount prot) 1)) ;;
    mret EFI_SUCCESS
  end.

(** [InterfaceGiven] says that the argument [Interface] is not NULL; the second
    result is what is stored through it, if anything. *)
Definition CoreOpenProtocol (UserHandle : Z) (Protocol : option Z) (InterfaceGiven : bool)
  (ImageHandle Controller Attrs : Z) : HM HS (EFI_STATUS * option Z) :=
  match Protocol with
  | None => mret (EFI_INVALID_PARAMETER, None)
  | Some Protocol =>
    if negb (Attrs =? EFI_OPEN_PROTOCOL_TEST_PROTOCOL) && negb InterfaceGiven
    then mret (EFI_INVALID_PARAMETER, None) else
    CoreAcquireProtocolLock ;;
    '(Status, Prot) ←
      (Status ← CoreValidateHandle UserHandle;
       if EFI_ERROR Status then mret (Status, 0) else
       Status ← CheckOpenAttributes UserHandle ImageHandle Controller Attrs;
       if EFI_ERROR Status then mret (Status, 0) else
       Prot ← CoreGetProtocolInterface UserHandle Protocol;
       if Prot =? 0 then mret (EFI_UNSUPPORTED, 0) else
       Status ← OpenInterface UserHandle Prot ImageHandle Controller Attrs;
       mret (Status, Prot));
    Out ←
      (if negb (Attrs =? EFI_OPEN_PROTOCOL_TEST_PROTOCOL) then
         if (negb (EFI_ERROR Status) || bool_decide (Status = EFI_ALREADY_STARTED)) && negb (Prot =? 0)
         then prot ← deref Interfaces Prot; mret (Some (Interface prot))
         else if bool_decide (Status = EFI_UNSUPPORTED) then mret (Some 0) else mret None
       else mret None);
    CoreReleaseProtocolLock ;;
    mret (Status, Out)
  end.

Definition CoreHandleProtocol (UserHandle : Z) (Protocol : option Z) (InterfaceGiven : bool)
  : HM HS (EFI_STATUS * option Z) :=
  CoreOpenProtocol UserHandle Protocol InterfaceGiven gDxeCoreImageHandle 0 EFI_OPEN_PROTOCOL_BY_HANDLE_PROTOCOL.

(** The removal of all items of an agent and controller. *)
Fixpoint CloseLoop (Agent Controller : Z) (Opens : list OPEN_PROTOCOL_DATA) (Count : Z)
  : list OPEN_PROTOCOL_DATA * Z * EFI_STATUS :=
  match Opens with
  | [] => ([], Count, EFI_NOT_FOUND)
  | OpenData :: Rest =>
    if (AgentHandle OpenData =? Agent) && (ControllerHandle OpenData =? Controller) then
      let '(Kept, Count, _) := CloseLoop Agent Controller Rest (sub64 Count 1) in (Kept, Count, EFI_SUCCESS)
    else
      let '(Kept, Count, Status) := CloseLoop Agent Controller Rest Count in (OpenData :: Kept, Count, Status)
  end.

Definition CoreCloseProtocol (UserHandle : Z) (Protocol : option Z) (Agent Controller : Z) : HM HS EFI_STATUS :=
  CoreAcquireProtocolLock ;;
  Status ←
    (Status ← CoreValidateHandle UserHandle;
     if EFI_ERROR Status then mret Status else
     Status ← CoreValidateHandle Agent;
     if EFI_ERROR Status then mret Status else
     Status ← (if negb (Controller =? 0) then CoreValidateHandle Controller else mret Status);
     if EFI_ERROR Status then mret Status else
     match Protocol with
     | None => mret EFI_INVALID_PARAMETER
     | Some Protocol =>
       Prot ← CoreGetProtocolInterface UserHandle Protocol;
       if Prot =? 0 then mret EFI_NOT_FOUND else
       prot ← deref Interfaces Prot;
       let '(Kept, Count, Status) := CloseLoop Agent Controller (OpenList prot) (OpenListCount prot) in
       UpdateInterface Prot (SetOpenList Kept Count) ;;
       mret Status
     end);
  CoreReleaseProtocolLock ;;
  mret Status.

(** The buffer holds a copy of the open list. *)
Definition CoreOpenProtocolInformation (UserHandle : Z) (Protocol : Z)
  : HM HS (EFI_STATUS * list OPEN_PROTOCOL_DATA) :=
  CoreAcquireProtocolLock ;;
  Result ←
    (Status ← CoreValidateHandle UserHandle;
     if EFI_ERROR Status then mret (EFI_NOT_FOUND, []) else
     Prot ← CoreGetProtocolInterface UserHandle Protocol;
     if Prot =? 0 then mret (EFI_NOT_FOUND, []) else
     prot ← deref Interfaces Prot;
     let Count := u64 (Z.of_nat (length (OpenList prot))) in
     assert (Count =? OpenListCount prot) ;;
     Available ← gets (fun st => BufferAvailable st (if Count =? 0 then 24 else u64 (Count * 24)));
     if negb Available then mret (EFI_OUT_OF_RESOURCES, []) else
     mret (EFI_SUCCESS, OpenList prot));
  CoreReleaseProtocolLock ;;
  mret Result.

(** ** Installation *)

Definition BumpKey (Handle : Z) : HM HS unit :=
  modify (fun st => SetDatabaseKey (add64 (gHandleDatabaseKey st) 1) st) ;;
  NewKey ← gets gHandleDatabaseKey;
  UpdateHandle Handle (SetKey NewKey).

(** The handle to install on: a new one, or the one given if it is valid.
    [Prot] has been allocated before. *)
Definition InstallHandle (UserHandle Prot : Z) : HM HS (EFI_STATUS * Z) :=
  if UserHandle =? 0 then
    Handle ← Allocate [Prot];
    if Handle =? 0 then mret (EFI_OUT_OF_RESOURCES, 0) else
    Set_ ← gets gOrderedHandleList;
    '(Status, Set_) ← lift (CollectionInsert Handle Set_);
    modify (SetOrderedHandleList Set_) ;;
    if EFI_ERROR Status then mret (Status, Handle) else
    modify (fun st => SetHandles (<[Handle := MkHandle [] 0 0]> (Handles st)) st) ;;
    modify (fun st => SetHandleList (gHandleList st ++ [Handle]) st) ;;
    mret (Status, Handle)
  else
    Status ← CoreValidateHandle UserHandle;
    mret (Status, UserHandle).

(** Links the new interface [Prot] of the handle and the entry. *)
Definition InstallLink (Handle ProtEntry Prot Protocol Interface_ : Z) (NotifyThem : bool) : HM HS unit :=
  BumpKey Handle ;;
  Existing ← CoreFindProtocolInterface Handle Protocol Interface_;
  assert (Existing =? 0) ;;
  modify (fun st => SetInterfaces (<[Prot := MkInterface Handle ProtEntry Interface_ [] 0]> (Interfaces st)) st) ;;
  handle ← deref Handles Handle;
  UpdateHandle Handle (SetProtocols (Prot :: Protocols handle)) ;;
  entry ← deref Entries ProtEntry;
  UpdateEntry ProtEntry (SetEntryProtocols (EntryProtocols entry ++ [Prot])) ;;
  if NotifyThem then CoreNotifyProtocolEntry ProtEntry else mret tt.

(** [UserHandle] is [None] if the pointer is NULL, else the handle it points to;
    the second result is the handle it points to afterwards. *)
Definition CoreInstallProtocolInterfaceNotify (UserHandle Protocol : option Z) (InterfaceType Interface_ : Z)
  (NotifyThem : bool) : HM HS (EFI_STATUS * option Z) :=
  match UserHandle, Protocol with
  | Some Given, Some Protocol =>
    if negb (InterfaceType =? EFI_NATIVE_INTERFACE) then mret (EFI_INVALID_PARAMETER, UserHandle) else
    Status ← (if negb (Given =? 0)
              then '(Status, _) ← CoreHandleProtocol Given (Some Protocol) true; mret Status
              else mret EFI_OUT_OF_RESOURCES);
    if negb (EFI_ERROR Status) then mret (EFI_INVALID_PARAMETER, UserHandle) else
    CoreAcquireProtocolLock ;;
    ProtEntry ← CoreFindProtocolEntry Protocol true;
    '(Status, Handle) ←
      (if ProtEntry =? 0 then mret (Status, 0) else
       Prot ← Allocate [];
       if Prot =? 0 then mret (EFI_OUT_OF_RESOURCES, 0) else
       '(Status, Handle) ← InstallHandle Given Prot;
       if EFI_ERROR Status then mret (Status, Handle) else
       InstallLink Handle ProtEntry Prot Protocol Interface_ NotifyThem ;;
       mret (EFI_SUCCESS, Handle));
    CoreReleaseProtocolLock ;;
    mret (Status, Some (if negb (EFI_ERROR Status) then Handle else Given))
  | _, _ => mret (EFI_INVALID_PARAMETER, UserHandle)
  end.

Definition CoreInstallProtocolInterface (UserHandle Protocol : option Z) (InterfaceType Interface_ : Z)
  : HM HS (EFI_STATUS * option Z) :=
  CoreInstallProtocolInterfaceNotify UserHandle Protocol InterfaceType Interface_ true.

(** ** Uninstallation *)

(** The loop that disconnects the drivers that use an interface. *)
Fixpoint DisconnectLoop (fuel : nat) (UserHandle Prot : Z) : HM HS EFI_STATUS :=
  match fuel with
  | O => fun _ => OutOfFuel
  | S fuel =>
    prot ← deref Interfaces Prot;
    match FindDriverItem (OpenList prot) with
    | None => mret EFI_SUCCESS
    | Some OpenData =>
      CoreReleaseProtocolLock ;;
      Status ← (Agent ← ReadAgentHandle Prot OpenData; CoreDisconnectController UserHandle Agent);
      CoreAcquireProtocolLock ;;
      if EFI_ERROR Status then mret Status else DisconnectLoop fuel UserHandle Prot
    end
  end.

(** The removal of the items that no driver has to release. *)
Fixpoint RemoveWeakItems (Opens : list OPEN_PROTOCOL_DATA) (Count : Z) : list OPEN_PROTOCOL_DATA * Z :=
  match Opens with
  | [] => ([], Count)
  | OpenData :: Rest =>
    if HasFlag (Attributes OpenData)
         (Z.lor EFI_OPEN_PROTOCOL_BY_HANDLE_PROTOCOL (Z.lor EFI_OPEN_PROTOCOL_GET_PROTOCOL EFI_OPEN_PROTOCOL_TEST_PROTOCOL))
    then RemoveWeakItems Rest (sub64 Count 1)
    else let '(Kept, Count) := RemoveWeakItems Rest Count in (OpenData :: Kept, Count)
  end.

Definition CoreDisconnectControllersUsingProtocolInterface (UserHandle Prot : Z) : HM HS EFI_STATUS :=
  Status ← DisconnectLoop Fuel UserHandle Prot;
  (if negb (EFI_ERROR Status) then
     prot ← deref Interfaces Prot;
     let '(Kept, Count) := RemoveWeakItems (OpenList prot) (OpenListCount prot) in
     UpdateInterface Prot (SetOpenList Kept Count)
   else mret tt) ;;
  prot ← deref Interfaces Prot;
  if EFI_ERROR Status || (0 <? OpenListCount prot) then
    CoreReleaseProtocolLock ;;
    _ ← CoreConnectController UserHandle;
    CoreAcquireProtocolLock ;;
    mret EFI_ACCESS_DENIED
  else mret Status.

(** Unlinks the interface from the handle, and frees the handle if it was the
    last one. *)
Definition RemoveFromHandle (Handle Prot : Z) : HM HS EFI_STATUS :=
  Status ←
    (if negb (Prot =? 0) then
       BumpKey Handle ;;
       handle ← deref Handles Handle;
       UpdateHandle Handle (SetProtocols (remove_link Prot (Protocols handle))) ;;
       modify (fun st => SetInterfaces (delete Prot (Interfaces st)) st) ;;
       mret EFI_SUCCESS
     else mret EFI_NOT_FOUND);
  handle ← deref Handles Handle;
  (if bool_decide (Protocols handle = []) then
     Set_ ← gets gOrderedHandleList;
     Entry ← lift (CollectionFind Handle Set_);
     Set_ ← lift (CollectionDelete Entry Set_);
     modify (SetOrderedHandleList Set_) ;;
     modify (fun st => SetHandleList (remove_link Handle (gHandleList st)) st) ;;
     modify (fun st => SetHandles (delete Handle (Handles st)) st)
   else mret tt) ;;
  mret Status.

Definition CoreUninstallProtocolInterface (UserHandle : Z) (Protocol : option Z) (Interface_ : Z) : HM HS EFI_STATUS :=
  match Protocol with
  | None => mret EFI_INVALID_PARAMETER
  | Some Protocol =>
    CoreAcquireProtocolLock ;;
    Status ←
      (Status ← CoreValidateHandle UserHandle;
       if EFI_ERROR Status then mret Status else
       Prot ← CoreFindProtocolInterface UserHandle Protocol Interface_;
       if Prot =? 0 then mret EFI_NOT_FOUND else
       Status ← CoreDisconnectControllersUsingProtocolInterface UserHandle Prot;
       if EFI_ERROR Status then mret Status else
       Prot ← CoreRemoveInterfaceFromProtocol UserHandle Protocol Interface_;
       RemoveFromHandle UserHandle Prot);
    CoreReleaseProtocolLock ;;
    mret Status
  end.

Definition CoreReinstallProtocolInterface (UserHandle : Z) (Protocol : option Z) (OldInterface NewInterface : Z)
  : HM HS EFI_STATUS :=
  match Protocol with
  | None => mret EFI_INVALID_PARAMETER
  | Some Protocol =>
    CoreAcquireProtocolLock ;;
    Status ←
      (Status ← CoreValidateHandle UserHandle;
       if EFI_ERROR Status then mret Status else
       Prot ← CoreFindProtocolInterface UserHandle Protocol OldInterface;
       if Prot =? 0 then mret EFI_NOT_FOUND else
       Status ← CoreDisconnectControllersUsingProtocolInterface UserHandle Prot;
       if EFI_ERROR Status then mret Status else
       Prot ← CoreRemoveInterfaceFromProtocol UserHandle Protocol OldInterface;
       if Prot =? 0 then mret EFI_NOT_FOUND else
       prot ← deref Interfaces Prot;
       let ProtEntry := ProtProtocol prot in
       UpdateInterface Prot (SetInterface NewInterface) ;;
       entry ← deref Entries ProtEntry;
       UpdateEntry ProtEntry (SetEntryProtocols (EntryProtocols entry ++ [Prot])) ;;
       BumpKey UserHandle ;;
       CoreReleaseProtocolLock ;;
       _ ← CoreConnectController UserHandle;
       CoreAcquireProtocolLock ;;
       CoreNotifyProtocolEntry ProtEntry ;;
       mret EFI_SUCCESS);
    CoreReleaseProtocolLock ;;
    mret Status
  end.

(** ** Several interfaces at once *)

(** The loop over the arguments, until one fails or the list ends.  The results
    are the status, the handle and [Index]. *)
Fixpoint InstallLoop (Handle : Z) (Args : list (Z * Z)) (Index : nat) : HM HS (EFI_STATUS * Z * nat) :=
  match Args with
  | [] => mret (EFI_SUCCESS, Handle, Index)
  | (Protocol, Interface_) :: Args =>
    Duplicate ← (if Protocol =? gEfiDevicePathProtocolGuid then IsDevicePathInstalled Interface_ else mret false);
    '(Status, Out) ←
      (if Duplicate : bool then mret (EFI_ALREADY_STARTED, Some Handle)
       else CoreInstallProtocolInterface (Some Handle) (Some Protocol) EFI_NATIVE_INTERFACE Interface_);
    let Handle := default Handle Out in
    if EFI_ERROR Status then mret (Status, Handle, S Index) else InstallLoop Handle Args (S Index)
  end.

Fixpoint UninstallEach (Handle : Z) (Args : list (Z * Z)) : HM HS unit :=
  match Args with
  | [] => mret tt
  | (Protocol, Interface_) :: Args =>
    _ ← CoreUninstallProtocolInterface Handle (Some Protocol) Interface_;
    UninstallEach Handle Args
  end.

(** [Args] are the pairs before the NULL that ends the argument list. *)
Definition CoreInstallMultipleProtocolInterfaces (Handle : option Z) (Args : list (Z * Z))
  : HM HS (EFI_STATUS * option Z) :=
  match Handle with
  | None => mret (EFI_INVALID_PARAMETER, None)
  | Some OldHandle =>
    OldTpl ← RaiseTplNotify;
    '(Status, NewHandle, Index) ← InstallLoop OldHandle Args 0;
    Result ←
      (if EFI_ERROR Status then
         UninstallEach NewHandle (take (Index - 1) Args) ;;
         mret OldHandle
       else mret NewHandle);
    RestoreTpl OldTpl ;;
    mret (Status, Some Result)
  end.

Fixpoint UninstallLoop (Handle : Z) (Args : list (Z * Z)) (Index : nat) : HM HS (EFI_STATUS * nat) :=
  match Args with
  | [] => mret (EFI_SUCCESS, Index)
  | (Protocol, Interface_) :: Args =>
    Status ← CoreUninstallProtocolInterface Handle (Some Protocol) Interface_;
    if EFI_ERROR Status then mret (Status, S Index) else UninstallLoop Handle Args (S Index)
  end.

Fixpoint ReinstallEach (Handle : Z) (Args : list (Z * Z)) : HM HS unit :=
  match Args with
  | [] => mret tt
  | (Protocol, Interface_) :: Args =>
    '(_, Out) ← CoreInstallProtocolInterface (Some Handle) (Some Protocol) EFI_NATIVE_INTERFACE Interface_;
    ReinstallEach (default Handle Out) Args
  end.

Definition CoreUninstallMultipleProtocolInterfaces (Handle : Z) (Args : list (Z * Z)) : HM HS EFI_STATUS :=
  '(Status, Index) ← UninstallLoop Handle Args 0;
  if EFI_ERROR Status then
    ReinstallEach Handle (take (Index - 1) Args) ;;
    mret EFI_INVALID_PARAMETER
  else mret Status.

(** ** Enumeration *)

Fixpoint ProtocolIdsLoop (Links : list Z) : HM HS (list Z) :=
  match Links with
  | [] => mret []
  | Prot :: Links =>
    prot ← deref Interfaces Prot;
    entry ← deref Entries (ProtProtocol prot);
    Rest ← ProtocolIdsLoop Links;
    mret (ProtocolID entry :: Rest)
  end.

(** The buffer of GUID pointers as the list of GUIDs. *)
Definition CoreProtocolsPerHandle (UserHandle : Z) (ProtocolBufferGiven CountGiven : bool)
  : HM HS (EFI_STATUS * list Z) :=
  if negb ProtocolBufferGiven then mret (EFI_INVALID_PARAMETER, []) else
  if negb CountGiven then mret (EFI_INVALID_PARAMETER, []) else
  CoreAcquireProtocolLock ;;
  Result ←
    (Status ← CoreValidateHandle UserHandle;
     if EFI_ERROR Status then mret (Status, []) else
     handle ← deref Handles UserHandle;
     let ProtocolCount := Z.of_nat (length (Protocols handle)) in
     if ProtocolCount =? 0 then mret (EFI_INVALID_PARAMETER, []) else
     Available ← gets (fun st => BufferAvailable st (8 * ProtocolCount));
     if negb Available then mret (EFI_OUT_OF_RESOURCES, []) else
     Buffer ← ProtocolIdsLoop (Protocols handle);
     mret (EFI_SUCCESS, Buffer));
  CoreReleaseProtocolLock ;;
  mret Result.

Definition CoreGetHandleDatabaseKey : HM HS Z := gets gHandleDatabaseKey.

Fixpoint NewHandlesLoop (Key_ : Z) (Links : list Z) : HM HS (list Z) :=
  match Links with
  | [] => mret []
  | Handle :: Links =>
    handle ← deref Handles Handle;
    Rest ← NewHandlesLoop Key_ Links;
    mret (if Key_ <? Key handle then Handle :: Rest else Rest)
  end.

Fixpoint ConnectEach (HandleBuffer : list Z) : HM HS unit :=
  match HandleBuffer with
  | [] => mret tt
  | Handle :: HandleBuffer =>
    _ ← CoreConnectController Handle;
    ConnectEach HandleBuffer
  end.

Definition CoreConnectHandlesByKey (Key_ : Z) : HM HS unit :=
  CoreAcquireProtocolLock ;;
  Links ← gets gHandleList;
  HandleBuffer ← NewHandlesLoop Key_ Links;
  Available ← gets (fun st => BufferAvailable st (Z.of_nat (length HandleBuffer) * 8));
  if negb Available then CoreReleaseProtocolLock else
  CoreReleaseProtocolLock ;;
  ConnectEach HandleBuffer.

(** ** Locating handles *)

Definition AllHandles : Z := 0.
Definition ByRegisterNotify : Z := 1.
Definition ByProtocol : Z := 2.

(** [Remaining] is what follows the link [Position] in its list. *)
Record LOCATE_POSITION := MkPosition {
  SearchKey : Z;
  Remaining : list Z }.

(** A result [(Handle, Interface, Position)], with handle 0 at the end. *)
Abbreviation CORE_GET_NEXT := (LOCATE_POSITION -> HM HS (Z * Z * LOCATE_POSITION)).

Definition CoreGetNextLocateAllHandles : CORE_GET_NEXT := fun Pos =>
  match Remaining Pos with
  | [] => mret (0, 0, Pos)
  | Handle :: Links =>
    _ ← deref Handles Handle;
    mret (Handle, 0, MkPosition (SearchKey Pos) Links)
  end.

(** The nodes after [p] in a list, or all of them for the head. *)
Fixpoint links_after (p : option Z) (l : list Z) : list Z :=
  match p, l with
  | None, _ => l
  | Some _, [] => []
  | Some p, q :: l => if q =? p then l else links_after (Some p) l
  end.

Definition CoreGetNextLocateByRegisterNotify : CORE_GET_NEXT := fun Pos =>
  if negb (SearchKey Pos =? 0) then
    notify ← deref Notifies (SearchKey Pos);
    let Pos := MkPosition 0 (Remaining Pos) in
    entry ← deref Entries (NotifyProtocol notify);
    match links_after (Position notify) (EntryProtocols entry) with
    | [] => mret (0, 0, Pos)
    | Prot :: _ =>
      prot ← deref Interfaces Prot;
      mret (ProtHandle prot, Interface prot, Pos)
    end
  else mret (0, 0, Pos).

(** [Interface_] is the interface of the last structure looked at. *)
Fixpoint ByProtocolLoop (Key_ Interface_ : Z) (Links : list Z) : HM HS (Z * Z * LOCATE_POSITION) :=
  match Links with
  | [] => mret (0, Interface_, MkPosition Key_ [])
  | Prot :: Links =>
    prot ← deref Interfaces Prot;
    handle ← deref Handles (ProtHandle prot);
    Request ← gets mEfiLocateHandleRequest;
    if negb (LocateRequest handle =? Request) then
      UpdateHandle (ProtHandle prot) (SetRequest Request) ;;
      mret (ProtHandle prot, Interface prot, MkPosition Key_ Links)
    else ByProtocolLoop Key_ (Interface prot) Links
  end.

Definition CoreGetNextLocateByProtocol : CORE_GET_NEXT := fun Pos => ByProtocolLoop (SearchKey Pos) 0 (Remaining Pos).

(** All handles that [GetNext] gives. *)
Fixpoint LocateLoop (fuel : nat) (GetNext : CORE_GET_NEXT) (Pos : LOCATE_POSITION) : HM HS (list Z) :=
  match fuel with
  | O => fun _ => OutOfFuel
  | S fuel =>
    '(Handle, _, Pos) ← GetNext Pos;
    if Handle =? 0 then mret [] else
    Rest ← LocateLoop fuel GetNext Pos;
    mret (Handle :: Rest)
  end.

(** The choice of the search function and of the initial position. *)
Definition LocateStart (SearchType : Z) (Protocol : option Z) (Key_ : Z)
  : HM HS (EFI_STATUS * CORE_GET_NEXT * LOCATE_POSITION) :=
  List_ ← gets gHandleList;
  if SearchType =? AllHandles then mret (EFI_SUCCESS, CoreGetNextLocateAllHandles, MkPosition Key_ List_)
  else if SearchType =? ByRegisterNotify then
    mret (if Key_ =? 0 then EFI_INVALID_PARAMETER else EFI_SUCCESS, CoreGetNextLocateByRegisterNotify, MkPosition Key_ List_)
  else if SearchType =? ByProtocol then
    match Protocol with
    | None => mret (EFI_INVALID_PARAMETER, CoreGetNextLocateByProtocol, MkPosition Key_ List_)
    | Some Protocol =>
      ProtEntry ← CoreFindProtocolEntry Protocol false;
      if ProtEntry =? 0 then mret (EFI_NOT_FOUND, CoreGetNextLocateByProtocol, MkPosition Key_ List_)
      else entry ← deref Entries ProtEntry;
           mret (EFI_SUCCESS, CoreGetNextLocateByProtocol, MkPosition Key_ (EntryProtocols entry))
    end
  else mret (EFI_INVALID_PARAMETER, CoreGetNextLocateAllHandles, MkPosition Key_ List_).

(** [ProtNotify->Position = ProtNotify->Position->ForwardLink], where the link
    after the last one is the head. *)
Definition AdvanceNotify (ProtNotify : Z) : HM HS unit :=
  notify ← deref Notifies ProtNotify;
  entry ← deref Entries (NotifyProtocol notify);
  UpdateNotify ProtNotify (SetPosition (head (links_after (Position notify) (EntryProtocols entry)))).

(** [BufferSize] and [Buffer] are given ([None] for NULL); the results are the
    status, the new [BufferSize] and the handles written into the buffer, which
    are those that fit, since [ResultSize], 8 bytes per handle, does not
    overflow with the handles that memory can hold. *)
Definition InternalCoreLocateHandle (SearchType : Z) (Protocol : option Z) (Key_ : Z) (BufferSize : option Z)
  (BufferGiven : bool) : HM HS (EFI_STATUS * Z * list Z) :=
  match BufferSize with
  | None => mret (EFI_INVALID_PARAMETER, 0, [])
  | Some Size =>
    if (0 <? Size) && negb BufferGiven then mret (EFI_INVALID_PARAMETER, Size, []) else
    '(Status, GetNext, Pos) ← LocateStart SearchType Protocol Key_;
    if EFI_ERROR Status then mret (Status, Size, []) else
    modify (fun st => SetLocateRequest (add64 (mEfiLocateHandleRequest st) 1) st) ;;
    Found ← LocateLoop (S (S (length (Remaining Pos)))) GetNext Pos;
    let ResultSize := 8 * Z.of_nat (length Found) in
    let Written := take (Z.to_nat (Size / 8)) Found in
    if ResultSize =? 0 then mret (EFI_NOT_FOUND, Size, []) else
    let Status := if Size <? ResultSize then EFI_BUFFER_TOO_SMALL else EFI_SUCCESS in
    (if (SearchType =? ByRegisterNotify) && negb (EFI_ERROR Status) then AdvanceNotify Key_ else mret tt) ;;
    mret (Status, ResultSize, Written)
  end.

Definition CoreLocateHandle (SearchType : Z) (Protocol : option Z) (Key_ : Z) (BufferSize : option Z)
  (BufferGiven : bool) : HM HS (EFI_STATUS * Z * list Z) :=
  CoreAcquireProtocolLock ;;
  Result ← InternalCoreLocateHandle SearchType Protocol Key_ BufferSize BufferGiven;
  CoreReleaseProtocolLock ;;
  mret Result.

(** The second result is what is stored through [Interface]. *)
Definition CoreLocateProtocol (Protocol : option Z) (Registration : Z) (InterfaceGiven : bool)
  : HM HS (EFI_STATUS * Z) :=
  match Protocol with
  | None => mret (EFI_INVALID_PARAMETER, 0)
  | Some Protocol =>
    if negb InterfaceGiven then mret (EFI_INVALID_PARAMETER, 0) else
    Held ← gets Locked;
    if Held : bool then mret (EFI_NOT_FOUND, 0) else
    CoreAcquireProtocolLock ;;
    modify (fun st => SetLocateRequest (add64 (mEfiLocateHandleRequest st) 1) st) ;;
    '(Status, Out) ←
      (if Registration =? 0 then
         ProtEntry ← CoreFindProtocolEntry Protocol false;
         if ProtEntry =? 0 then mret (EFI_NOT_FOUND, 0) else
         entry ← deref Entries ProtEntry;
         '(Handle, Out, _) ← CoreGetNextLocateByProtocol (MkPosition Registration (EntryProtocols entry));
         mret (if Handle =? 0 then EFI_NOT_FOUND else EFI_SUCCESS, Out)
       else
         '(Handle, Out, _) ← CoreGetNextLocateByRegisterNotify (MkPosition Registration []);
         if Handle =? 0 then mret (EFI_NOT_FOUND, Out) else
         AdvanceNotify Registration ;;
         mret (EFI_SUCCESS, Out));
    CoreReleaseProtocolLock ;;
    mret (Status, Out)
  end.

(** The results are the status, [NumberHandles] and the buffer. *)
Definition CoreLocateHandleBuffer (SearchType : Z) (Protocol : option Z) (Key_ : Z)
  (NumberGiven BufferGiven : bool) : HM HS (EFI_STATUS * Z * list Z) :=
  if negb NumberGiven then mret (EFI_INVALID_PARAMETER, 0, []) else
  if negb BufferGiven then mret (EFI_INVALID_PARAMETER, 0, []) else
  CoreAcquireProtocolLock ;;
  '(Status, BufferSize, _) ← InternalCoreLocateHandle SearchType Protocol Key_ (Some 0) false;
  if EFI_ERROR Status && negb (bool_decide (Status = EFI_BUFFER_TOO_SMALL)) then
    CoreReleaseProtocolLock ;;
    mret (if bool_decide (Status = EFI_INVALID_PARAMETER) then Status else EFI_NOT_FOUND, 0, [])
  else
    Available ← gets (fun st => BufferAvailable st BufferSize);
    if negb Available then CoreReleaseProtocolLock ;; mret (EFI_OUT_OF_RESOURCES, 0, []) else
    '(Status, BufferSize, Buffer) ← InternalCoreLocateHandle SearchType Protocol Key_ (Some BufferSize) true;
    CoreReleaseProtocolLock ;;
    if EFI_ERROR Status then mret (Status, 0, []) else mret (Status, BufferSize / 8, Buffer).

(** The end of the first instance of a device path. *)
Fixpoint FirstInstanceEnd (fuel : nat) (TmpDevicePath : Z) : HM HS Z :=
  match fuel with
  | O => fun _ => OutOfFuel
  | S fuel =>
    if negb (IsDevicePathEnd TmpDevicePath) then
      if IsDevicePathEndInstance TmpDevicePath then mret TmpDevicePath
      else FirstInstanceEnd fuel (NextDevicePathNode TmpDevicePath)
    else mret TmpDevicePath
  end.

(** The search for the handle with the longest device path that [SourcePath]
    starts with.  [OldPath] is the value of [TmpDevicePath], which a successful
    [CoreHandleProtocol] replaces. *)
Fixpoint BestMatchLoop (SourcePath SourceSize : Z) (Handles_ : list Z) (OldPath BestMatch BestDevice : Z)
  : HM HS (Z * Z) :=
  match Handles_ with
  | [] => mret (BestMatch, BestDevice)
  | Handle :: Handles_ =>
    '(Status, Out) ← CoreHandleProtocol Handle (Some gEfiDevicePathProtocolGuid) true;
    let TmpDevicePath := default OldPath Out in
    if EFI_ERROR Status then BestMatchLoop SourcePath SourceSize Handles_ TmpDevicePath BestMatch BestDevice else
    let Size := GetDevicePathSize TmpDevicePath - 4 in
    assert (0 <=? Size) ;;
    if (Size <=? SourceSize) && SameBytes SourcePath TmpDevicePath Size then
      assert (negb (Size =? BestMatch)) ;;
      if BestMatch <? Size then BestMatchLoop SourcePath SourceSize Handles_ TmpDevicePath Size Handle
      else BestMatchLoop SourcePath SourceSize Handles_ TmpDevicePath BestMatch BestDevice
    else BestMatchLoop SourcePath SourceSize Handles_ TmpDevicePath BestMatch BestDevice
  end.

(** [DevicePath] is [None] for NULL, else the path it points to.  The results
    are the status and what is stored through [DevicePath] and [Device]. *)
Definition CoreLocateDevicePath (Protocol DevicePath : option Z) (DeviceGiven : bool)
  : HM HS (EFI_STATUS * option (Z * Z)) :=
  match Protocol, DevicePath with
  | Some Protocol, Some SourcePath =>
    if SourcePath =? 0 then mret (EFI_INVALID_PARAMETER, None) else
    TmpDevicePath ← FirstInstanceEnd Fuel SourcePath;
    let SourceSize := TmpDevicePath - SourcePath in
    '(Status, HandleCount, Handles_) ← CoreLocateHandleBuffer ByProtocol (Some Protocol) 0 true true;
    if EFI_ERROR Status || (HandleCount =? 0) then mret (EFI_NOT_FOUND, None) else
    '(BestMatch, BestDevice) ← BestMatchLoop SourcePath SourceSize Handles_ TmpDevicePath (-1) 0;
    if BestMatch =? -1 then mret (EFI_NOT_FOUND, None) else
    if negb DeviceGiven then mret (EFI_INVALID_PARAMETER, None) else
    mret (EFI_SUCCESS, Some (SourcePath + BestMatch, BestDevice))
  | _, _ => mret (EFI_INVALID_PARAMETER, None)
  end.
End Services.
