(* ===== verification/HandleSet.v ===== *)
(** * The ordered set of handles

    What the handle database needs from [gOrderedHandleList] is the class
    [HandleSetOk]; the red-black tree library provides it, with the comparison
    of pointers that [src/MdeModulePkg/Core/Dxe/Hand/Handle.c] passes to it. *)
From Stdlib Require Import ZArith Lia.
From stdpp Require Import base option gmap list sets.
From S2P Require Import Prelude RbTree RbShape RbWalk RbValid RbInsert RbDelete RbTheorems Handle.

(** [SetOf s X]: the collection [s] is in order and holds the handles [X]. *)
Class HandleSetOk (HS : Type) `{HandleSetOps HS} := {
  SetOf : HS -> gset Z -> Prop;
  SetOf_insert s X h : SetOf s X ->
    exists Status s', CollectionInsert h s = Done (Status, s') /\
      (Status = EFI_SUCCESS /\ (h ∉ X) /\ SetOf s' ({[h]} ∪ X) \/ Status = EFI_ALREADY_STARTED /\ h ∈ X /\ SetOf s' X \/
       Status = EFI_OUT_OF_RESOURCES /\ SetOf s' X);
  SetOf_find s X h : SetOf s X ->
    exists Entry, CollectionFind h s = Done Entry /\ (Entry = 0 <-> h ∉ X);
  SetOf_delete s X h Entry : SetOf s X -> h ∈ X -> CollectionFind h s = Done Entry ->
    exists s', CollectionDelete Entry s = Done s' /\ SetOf s' (X ∖ {[h]}) }.

Section RedBlackTree.
Variable PcdValidateOrderedCollection : bool.
Variable AllocateNode : Heap -> option (Z * RED_BLACK_TREE_NODE).

(** The tree and the memory of its nodes. *)
Definition RbSet : Type := ORDERED_COLLECTION * Heap.

Definition RbSetOps : HandleSetOps RbSet := {|
  CollectionInsert := fun h s =>
    '(Status, _, Tree, Nodes) ← OrderedCollectionInsert PcdValidateOrderedCollection AllocateNode s.1 h s.2;
    mret (Status, (Tree, Nodes));
  CollectionFind := fun h s => OrderedCollectionFind s.1 h s.2;
  CollectionDelete := fun Entry s =>
    '(_, Tree, Nodes) ← OrderedCollectionDelete PcdValidateOrderedCollection s.1 Entry s.2;
    mret (Tree, Nodes) |}.

(** The first result is the new [gOrderedHandleList], if there is one. *)
Definition CoreInitializeHandleServices (Available : bool) : Outcome (option RbSet * EFI_STATUS) :=
  Tree ← OrderedCollectionInit PcdValidateOrderedCollection Available PointerCompare PointerCompare ∅;
  match Tree with
  | None => mret (None, EFI_OUT_OF_RESOURCES)
  | Some Tree => mret (Some (Tree, ∅), EFI_SUCCESS)
  end.

(** The collection orders by pointers and its user structures are [X]. *)
Definition RbSetOf (s : RbSet) (X : gset Z) : Prop :=
  UserStructCompare s.1 = PointerCompare /\ KeyCompare s.1 = PointerCompare /\
  exists l, IsCollection s.2 s.1 l /\ forall h, h ∈ X <-> h ∈ l.*2.

Hypothesis AllocateNode_fresh : forall h p c, AllocateNode h = Some (p, c) -> p ≠ 0 /\ h !! p = None.

Lemma matching_pointer h (l : list (Z * Z)) : matching PointerCompare h l = [] <-> h ∉ l.*2.
Proof using.
  unfold matching. induction l as [|[a u] l IH]; simpl; [by split; [intros _ ?%elem_of_nil|]|].
  rewrite filter_cons, not_elem_of_cons, <- IH. simpl. pose proof (PointerCompare_spec h u) as [Hc _].
  destruct (decide (PointerCompare h u = 0)) as [E|E]; [|by rewrite Hc in E; tauto].
  split; [done|]. intros [Hn _]. by apply Hc in E.
Qed.

Lemma elem_of_add_user Compare (h p u : Z) l : h ∈ (add_entry Compare (p, u) l).*2 <-> h = u \/ h ∈ l.*2.
Proof using.
  induction l as [|f l IH]; simpl; [by rewrite list_elem_of_singleton, elem_of_nil; tauto|].
  destruct (_ <? 0); simpl; rewrite !elem_of_cons, ?IH; tauto.
Qed.

Lemma RbFind s h l :
  UserStructCompare s.1 = PointerCompare -> KeyCompare s.1 = PointerCompare -> IsCollection s.2 s.1 l ->
  OrderedCollectionFind s.1 h s.2 = Done (first (matching PointerCompare h l)) /\
  (first (matching PointerCompare h l) = 0 <-> h ∉ l.*2).
Proof using.
  intros Ec Ek (T & HT & Hr & HV & <-). rewrite Ec in HV. split.
  - unfold OrderedCollectionFind. rewrite Hr, Ek. pose proof (TreeAt_size _ _ HT). pose proof (height_entries T).
    apply (FindLoop_first PointerCompare _ _ 0);
      [apply OrderedBy_KeyOrderedBy, PointerCompare_ordered|apply HT|apply HV|lia].
  - rewrite <- matching_pointer. destruct (matching PointerCompare h (entries T)) as [|[a u] m] eqn:Em; [done|].
    split; [|done]. intros Ha. change (a = 0) in Ha.
    assert ((a, u) ∈ matching PointerCompare h (entries T)) as Hin by (rewrite Em; by left).
    apply list_elem_of_filter in Hin as [_ Hin]. by apply entries_nonzero with (1 := HT) in Hin.
Qed.

(** A pointer is at most once in the collection. *)
Lemma users_nodup s l :
  UserStructCompare s.1 = PointerCompare -> IsCollection s.2 s.1 l -> NoDup l.*2.
Proof using.
  intros Ec (T & _ & _ & [_ _ Ho] & <-). rewrite Ec in Ho. unfold Ascending in Ho. revert Ho. generalize (entries T). intros l Ho.
  induction Ho as [|e l Ho IH Hall]; simpl; [constructor|]. apply NoDup_cons. split; [|done].
  intros (f & Ef & Hf)%list_elem_of_fmap. rewrite Forall_forall in Hall. specialize (Hall f Hf).
  unfold below in Hall. pose proof (PointerCompare_spec e.2 f.2). lia.
Qed.

Lemma RbSet_insert s X h :
  RbSetOf s X ->
  exists Status s', @CollectionInsert _ RbSetOps h s = Done (Status, s') /\
    (Status = EFI_SUCCESS /\ (h ∉ X) /\ RbSetOf s' ({[h]} ∪ X) \/ Status = EFI_ALREADY_STARTED /\ h ∈ X /\ RbSetOf s' X \/
     Status = EFI_OUT_OF_RESOURCES /\ RbSetOf s' X).
Proof using AllocateNode_fresh.
  intros HX. pose proof HX as (Ec & Ek & l & Hl & Hm).
  pose proof (OrderedCollectionInsert_core PcdValidateOrderedCollection AllocateNode AllocateNode_fresh s.2 s.1 l h) as HI.
  cbv zeta in HI. rewrite Ec in HI. specialize (HI PointerCompare_ordered Hl). simpl.
  destruct (matching PointerCompare h l) as [|[a u] m] eqn:Em.
  - destruct (AllocateNode s.2) as [[p c]|].
    + destruct HI as (r & h' & -> & _ & Hc & _). exists EFI_SUCCESS, (SetRoot r s.1, h'). split; [done|]. left.
      split_and!; [done|rewrite Hm; by apply matching_pointer|]. split_and!; [done|done|]. eexists. split; [exact Hc|].
      intros q. rewrite elem_of_union, elem_of_singleton, Hm. by rewrite elem_of_add_user.
    + rewrite HI. exists EFI_OUT_OF_RESOURCES, s. destruct s. split; [done|]. by do 2 right.
  - rewrite HI. exists EFI_ALREADY_STARTED, s. assert (h ∈ l.*2) as Hh.
    { destruct (decide (h ∈ l.*2)) as [|Hh]; [done|]. apply matching_pointer in Hh. by rewrite Hh in Em. }
    apply Hm in Hh. destruct s. split; [done|]. right. by left.
Qed.

Lemma RbSet_delete s X h Entry :
  RbSetOf s X -> h ∈ X -> @CollectionFind _ RbSetOps h s = Done Entry ->
  exists s', @CollectionDelete _ RbSetOps Entry s = Done s' /\ RbSetOf s' (X ∖ {[h]}).
Proof using.
  intros (Ec & Ek & l & Hl & Hm) Hh E. destruct (RbFind s h l Ec Ek Hl) as [Ef _]. simpl in E. rewrite E in Ef.
  injection Ef as ->. pose proof (users_nodup s l Ec Hl) as Hn.
  destruct (matching PointerCompare h l) as [|[a u] m] eqn:Em.
  { apply matching_pointer in Em. by apply Hm in Hh. }
  assert ((a, u) ∈ matching PointerCompare h l) as Hin by (rewrite Em; by left).
  apply list_elem_of_filter in Hin as [Hau (l1 & l2 & ->)%list_elem_of_split]. simpl in Hau.
  apply PointerCompare_spec in Hau as <-. change (first ((a, h) :: m)) with a. simpl.
  destruct (OrderedCollectionDelete_core PcdValidateOrderedCollection s.2 s.1 l1 a h l2) as (r & h' & -> & Hc & _);
    [by rewrite Ec; apply PointerCompare_ordered|done|].
  eexists. split; [done|]. split_and!; [done|done|]. exists (l1 ++ l2). split; [done|]. intros q.
  rewrite elem_of_difference, elem_of_singleton, Hm, !fmap_app, !elem_of_app. simpl. rewrite elem_of_cons.
  rewrite fmap_app in Hn. simpl in Hn. apply NoDup_app in Hn as (_ & Hn1 & [Hn2 _]%NoDup_cons).
  split; [tauto|]. intros Hq. split; [tauto|]. intros ->. destruct Hq as [Hq|Hq]; [|done].
  apply (Hn1 h Hq). by left.
Qed.

#[global] Program Instance RbSetOk : @HandleSetOk RbSet RbSetOps := {| SetOf := RbSetOf |}.
Next Obligation. exact RbSet_insert. Qed.
Next Obligation.
  intros s X h (Ec & Ek & l & Hl & Hm). destruct (RbFind s h l Ec Ek Hl) as [Ef Hz]. eexists. split; [exact Ef|].
  by rewrite Hz, Hm.
Qed.
Next Obligation. exact RbSet_delete. Qed.

(** The new collection is empty. *)
Lemma CoreInitializeHandleServices_empty s :
  CoreInitializeHandleServices true = Done (Some s, EFI_SUCCESS) -> RbSetOf s ∅.
Proof using.
  unfold CoreInitializeHandleServices, OrderedCollectionInit. simpl. intros E.
  destruct (ValidateIfEnabled _ _ _); simpl in E; [|done..]. injection E as <-.
  split_and!; [done|done|]. exists [].
  split; [|intros h; simpl; rewrite elem_of_empty, elem_of_nil; tauto].
  exists Leaf. split_and!; [split; [done|apply NoDup_nil_2]|done| |done]. split; [done|by exists 0%nat|constructor].
Qed.
End RedBlackTree.
