(* ===== verification/HandleInv.v ===== *)
(** * The handle database: the invariant

    What links the structures of the database to each other, stated over the
    lists and maps of the state ([LinkedDb]), the ways in which the operations
    change them, and the rules to reason about programs of [HM]. *)
From Stdlib Require Import ZArith Lia.
From stdpp Require Import base option gmap list sets fin_maps.
From S2P Require Import Prelude Handle HandleSet.

(** ** The data structure *)

Definition is_driver (O : OPEN_PROTOCOL_DATA) : bool := HasFlag (Attributes O) EFI_OPEN_PROTOCOL_BY_DRIVER.

(** The number of items of an open list that drivers have. *)
Definition drivers (l : list OPEN_PROTOCOL_DATA) : nat := length (filter is_driver l).

(** The list of opens is counted, and at most one driver has the interface. *)
Definition OpensOk (P : PROTOCOL_INTERFACE) : Prop :=
  OpenListCount P = u64 (Z.of_nat (length (OpenList P))) /\ (drivers (OpenList P) <= 1)%nat.

Definition links (H : gmap Z (list Z)) (h : Z) : list Z := default [] (H !! h).
Definition entry_links (E : gmap Z PROTOCOL_ENTRY) (e : Z) : list Z := from_option EntryProtocols [] (E !! e).
Definition notify_links (E : gmap Z PROTOCOL_ENTRY) (e : Z) : list Z := from_option Notify [] (E !! e).

(** The lists of handles, of protocol entries, of the interfaces of a handle
    and of an entry and of the notifications of an entry have exactly the
    structures that exist and name that handle or entry; the ordered set has
    the handles; no two entries have the same protocol; the position of a
    notification is in the list of its entry. *)
Record LinkedDb {HS} {Ops : HandleSetOps HS} {SetOk : HandleSetOk HS} (hl : list Z) (s : HS) (H : gmap Z (list Z)) (db : list Z)
  (E : gmap Z PROTOCOL_ENTRY) (I : gmap Z PROTOCOL_INTERFACE) (N : gmap Z PROTOCOL_NOTIFY) : Prop := {
  linked_null : H !! 0 = None /\ E !! 0 = None /\ I !! 0 = None /\ N !! 0 = None;
  linked_handles : NoDup hl /\ (forall h, h ∈ hl <-> is_Some (H !! h)) /\ SetOf s (dom H);
  linked_entries : NoDup db /\ (forall e, e ∈ db <-> is_Some (E !! e));
  linked_ids e1 e2 x : ProtocolID <$> E !! e1 = Some x -> ProtocolID <$> E !! e2 = Some x -> e1 = e2;
  linked_by_handle h : NoDup (links H h) /\ forall p, p ∈ links H h <-> ProtHandle <$> I !! p = Some h;
  linked_by_entry e : NoDup (entry_links E e) /\ forall p, p ∈ entry_links E e <-> ProtProtocol <$> I !! p = Some e;
  linked_notifies e : NoDup (notify_links E e) /\ forall n, n ∈ notify_links E e <-> NotifyProtocol <$> N !! n = Some e;
  linked_position n x p : N !! n = Some x -> Position x = Some p -> p ∈ entry_links E (NotifyProtocol x);
  linked_opens p x : I !! p = Some x -> OpensOk x }.

(** The position of a notification when the interface [p] goes away. *)
Definition back_up (p : Z) (b : option Z) (x : PROTOCOL_NOTIFY) : PROTOCOL_NOTIFY :=
  if bool_decide (Position x = Some p) then SetPosition b x else x.

Section Updates.
Context {HS : Type} {Ops : HandleSetOps HS} {SetOk : HandleSetOk HS}.
Implicit Types (hl db : list Z) (s : HS) (H : gmap Z (list Z)) (E : gmap Z PROTOCOL_ENTRY)
  (I : gmap Z PROTOCOL_INTERFACE) (N : gmap Z PROTOCOL_NOTIFY).

Lemma links_insert H h l q : links (<[h := l]> H) q = if decide (q = h) then l else links H q.
Proof using. unfold links. rewrite lookup_insert. by destruct (decide (h = q)) as [->|]; [rewrite decide_True|rewrite decide_False]. Qed.
Lemma entry_links_insert E e x q :
  entry_links (<[e := x]> E) q = if decide (q = e) then EntryProtocols x else entry_links E q.
Proof using. unfold entry_links. rewrite lookup_insert. by destruct (decide (e = q)) as [->|]; [rewrite decide_True|rewrite decide_False]. Qed.
Lemma notify_links_insert E e x q :
  notify_links (<[e := x]> E) q = if decide (q = e) then Notify x else notify_links E q.
Proof using. unfold notify_links. rewrite lookup_insert. by destruct (decide (e = q)) as [->|]; [rewrite decide_True|rewrite decide_False]. Qed.

Lemma elem_of_remove_link p q l : q ∈ remove_link p l <-> q ≠ p /\ q ∈ l.
Proof using. unfold remove_link. by rewrite list_elem_of_filter. Qed.
Lemma NoDup_remove_link p l : NoDup l -> NoDup (remove_link p l).
Proof using. apply NoDup_filter. Qed.

Lemma NoDup_snoc (x : Z) l : NoDup l -> x ∉ l -> NoDup (l ++ [x]).
Proof using. intros Hl Hx. apply NoDup_app. split_and!; [done|by intros y Hy ->%list_elem_of_singleton|apply NoDup_singleton]. Qed.

Lemma elem_of_dom_list (l : list Z) {A} (m : gmap Z A) x a :
  (forall y, y ∈ l <-> is_Some (m !! y)) -> forall y, y ∈ l ++ [x] <-> is_Some (<[x := a]> m !! y).
Proof using.
  intros Hl y. rewrite elem_of_app, list_elem_of_singleton, Hl, lookup_insert_is_Some'. naive_solver.
Qed.

Lemma elem_of_dom_remove (l : list Z) {A} (m : gmap Z A) x :
  (forall y, y ∈ l <-> is_Some (m !! y)) -> forall y, y ∈ remove_link x l <-> is_Some (delete x m !! y).
Proof using. intros Hl y. rewrite elem_of_remove_link, Hl, lookup_delete_is_Some. naive_solver. Qed.

Lemma Linked_add_handle hl s s' H db E I N h :
  LinkedDb hl s H db E I N -> h ≠ 0 -> H !! h = None -> SetOf s' ({[h]} ∪ dom H) ->
  LinkedDb (hl ++ [h]) s' (<[h := []]> H) db E I N.
Proof using.
  intros [(H0 & E0 & I0 & N0) (Hn & Hd & _) ? ? Hp ? ? ? ?] Hh Hf Hs'. split; [| | | | |done..].
  - by rewrite lookup_insert_ne.
  - split_and!; [|by apply elem_of_dom_list|by rewrite dom_insert_L].
    apply NoDup_snoc; [done|]. rewrite Hd, Hf. by intros [? ?].
  - done.
  - done.
  - intros q. specialize (Hp q). rewrite links_insert. destruct (decide (q = h)) as [->|]; [|done].
    unfold links in Hp. by rewrite Hf in Hp.
Qed.

Lemma Linked_add_entry hl s H db E I N e x :
  LinkedDb hl s H db E I N -> e ≠ 0 -> E !! e = None -> (forall e', ProtocolID <$> E !! e' ≠ Some x) ->
  LinkedDb hl s H (db ++ [e]) (<[e := MkEntry x [] []]> E) I N.
Proof using.
  intros [(H0 & E0 & I0 & N0) ? [Hn Hd] Hid Hh He Hno Hpos ?] Hz Hf Hx. split; [| | | | | | | |done].
  - by rewrite lookup_insert_ne.
  - done.
  - split; [|by apply elem_of_dom_list]. apply NoDup_snoc; [done|]. rewrite Hd, Hf. by intros [? ?].
  - intros e1 e2 y. destruct (decide (e1 = e)) as [->|H1], (decide (e2 = e)) as [->|H2];
      rewrite ?lookup_insert_eq, ?lookup_insert_ne by done; simpl; [done|..|by apply Hid].
    + intros [= <-] H3. by destruct (Hx e2).
    + intros H3 [= <-]. by destruct (Hx e1).
  - done.
  - intros q. specialize (He q). rewrite entry_links_insert. destruct (decide (q = e)) as [->|]; [|done].
    unfold entry_links in He. by rewrite Hf in He.
  - intros q. specialize (Hno q). rewrite notify_links_insert. destruct (decide (q = e)) as [->|]; [|done].
    unfold notify_links in Hno. by rewrite Hf in Hno.
  - intros n y p Hn' Hp. specialize (Hpos n y p Hn' Hp). rewrite entry_links_insert. destruct (decide _) as [Hd'|]; [|done].
    rewrite Hd' in Hpos. unfold entry_links in Hpos. rewrite Hf in Hpos. by apply elem_of_nil in Hpos.
Qed.

(** A new entry in the place of one with the same protocol. *)
Lemma entry_update_ids E e x y :
  (forall e1 e2 i, ProtocolID <$> E !! e1 = Some i -> ProtocolID <$> E !! e2 = Some i -> e1 = e2) ->
  E !! e = Some x -> ProtocolID y = ProtocolID x ->
  forall e1 e2 i, ProtocolID <$> <[e := y]> E !! e1 = Some i -> ProtocolID <$> <[e := y]> E !! e2 = Some i -> e1 = e2.
Proof using.
  intros Hid Hx Hy e1 e2 i. assert (forall q, ProtocolID <$> <[e := y]> E !! q = ProtocolID <$> E !! q) as Hq.
  { intros q. destruct (decide (q = e)) as [->|Hq]; [|by rewrite lookup_insert_ne].
    rewrite lookup_insert_eq, Hx. simpl. by f_equal. }
  rewrite !Hq. apply Hid.
Qed.

Lemma entry_update_dom db E e (x y : PROTOCOL_ENTRY) :
  NoDup db /\ (forall q, q ∈ db <-> is_Some (E !! q)) -> E !! e = Some x ->
  NoDup db /\ (forall q, q ∈ db <-> is_Some (<[e := y]> E !! q)).
Proof using.
  intros [Hn Hd] Hx. split; [done|]. intros q. rewrite Hd, lookup_insert_is_Some'. split; [by right|].
  intros [<-|?]; [by rewrite Hx|done].
Qed.

Lemma entry_links_Some E e x : E !! e = Some x -> entry_links E e = EntryProtocols x.
Proof using. intros Hx. unfold entry_links. by rewrite Hx. Qed.
Lemma notify_links_Some E e x : E !! e = Some x -> notify_links E e = Notify x.
Proof using. intros Hx. unfold notify_links. by rewrite Hx. Qed.
Lemma links_Some H h l : H !! h = Some l -> links H h = l.
Proof using. intros Hx. unfold links. by rewrite Hx. Qed.

(** The lists of one kind of an entry, when those of the other kind change. *)
Lemma notify_links_same E e x y q : E !! e = Some x -> Notify y = Notify x -> notify_links (<[e := y]> E) q = notify_links E q.
Proof using.
  intros Hx Hy. rewrite notify_links_insert. destruct (decide (q = e)) as [->|]; [|done].
  by rewrite (notify_links_Some _ _ _ Hx).
Qed.
Lemma entry_links_same E e x y q :
  E !! e = Some x -> EntryProtocols y = EntryProtocols x -> entry_links (<[e := y]> E) q = entry_links E q.
Proof using.
  intros Hx Hy. rewrite entry_links_insert. destruct (decide (q = e)) as [->|]; [|done].
  by rewrite (entry_links_Some _ _ _ Hx).
Qed.

Lemma Linked_add_interface hl s H db E I N h l e x p i :
  LinkedDb hl s H db E I N -> p ≠ 0 -> I !! p = None -> H !! h = Some l -> E !! e = Some x ->
  LinkedDb hl s (<[h := p :: l]> H) db (<[e := SetEntryProtocols (EntryProtocols x ++ [p]) x]> E)
    (<[p := MkInterface h e i [] 0]> I) N.
Proof using.
  intros [(H0 & E0 & I0 & N0) (Hn & Hd & Hs) Hdb Hid Hh He Hno Hpos Hop] Hp Hf Hl Hx.
  assert (h ≠ 0) by congruence. assert (e ≠ 0) by congruence. split.
  - by rewrite !lookup_insert_ne.
  - split_and!; [done| |rewrite dom_insert_lookup_L; [done|by exists l]].
    intros q. rewrite Hd, lookup_insert_is_Some'. split; [by right|]. intros [<-|?]; [by exists l|done].
  - by apply (entry_update_dom db E e x).
  - by apply (entry_update_ids E e x).
  - intros q. destruct (Hh q) as [Hq1 Hq2]. rewrite links_insert. destruct (decide (q = h)) as [->|Hqh].
    + rewrite (links_Some _ _ _ Hl) in Hq1, Hq2. split.
      * apply NoDup_cons. split; [|done]. rewrite Hq2, Hf. done.
      * intros p'. rewrite elem_of_cons, Hq2, lookup_insert. destruct (decide (p = p')) as [->|]; [|naive_solver].
        simpl. naive_solver.
    + split; [done|]. intros p'. rewrite Hq2, lookup_insert. destruct (decide (p = p')) as [->|]; [|done].
      rewrite Hf. simpl. naive_solver.
  - intros q. destruct (He q) as [Hq1 Hq2]. rewrite entry_links_insert. destruct (decide (q = e)) as [->|Hqe].
    + rewrite (entry_links_Some _ _ _ Hx) in Hq1, Hq2. simpl. split.
      * apply NoDup_snoc; [done|]. rewrite Hq2, Hf. done.
      * intros p'. rewrite elem_of_app, list_elem_of_singleton, Hq2, lookup_insert.
        destruct (decide (p = p')) as [->|]; simpl; naive_solver.
    + split; [done|]. intros p'. rewrite Hq2, lookup_insert. destruct (decide (p = p')) as [->|]; [|done].
      rewrite Hf. simpl. naive_solver.
  - intros q. by rewrite (notify_links_same _ _ x).
  - intros n y p' Hn' Hp'. specialize (Hpos n y p' Hn' Hp'). rewrite entry_links_insert.
    destruct (decide _) as [Hd'|]; [|done]. rewrite Hd', (entry_links_Some _ _ _ Hx) in Hpos. simpl. apply elem_of_app. by left.
  - intros p' y. rewrite lookup_insert. destruct (decide (p = p')) as [->|]; [|by apply Hop]. intros [= <-]. split; [done|apply Nat.le_0_1].
Qed.

Lemma Linked_add_notify hl s H db E I N e x n ev :
  LinkedDb hl s H db E I N -> n ≠ 0 -> N !! n = None -> E !! e = Some x ->
  LinkedDb hl s H db (<[e := SetNotify (Notify x ++ [n]) x]> E) I (<[n := MkNotify e ev None]> N).
Proof using.
  intros [(H0 & E0 & I0 & N0) ? Hdb Hid ? He Hno Hpos ?] Hn Hf Hx. assert (e ≠ 0) by congruence. split.
  - by rewrite !lookup_insert_ne.
  - done.
  - by apply (entry_update_dom db E e x).
  - by apply (entry_update_ids E e x).
  - done.
  - intros q. by rewrite (entry_links_same _ _ x).
  - intros q. destruct (Hno q) as [Hq1 Hq2]. rewrite notify_links_insert. destruct (decide (q = e)) as [->|Hqe].
    + rewrite (notify_links_Some _ _ _ Hx) in Hq1, Hq2. simpl. split.
      * apply NoDup_snoc; [done|]. rewrite Hq2, Hf. done.
      * intros n'. rewrite elem_of_app, list_elem_of_singleton, Hq2, lookup_insert.
        destruct (decide (n = n')) as [->|]; simpl; naive_solver.
    + split; [done|]. intros n'. rewrite Hq2, lookup_insert. destruct (decide (n = n')) as [->|]; [|done].
      rewrite Hf. simpl. naive_solver.
  - intros m y p. rewrite (entry_links_same _ _ x) by done. rewrite lookup_insert.
    destruct (decide (n = m)) as [->|]; [|by apply Hpos]. by intros [= <-].
  - done.
Qed.

Lemma Linked_remove_notify hl s H db E I N e x n :
  LinkedDb hl s H db E I N -> E !! e = Some x -> n ∈ Notify x ->
  LinkedDb hl s H db (<[e := SetNotify (remove_link n (Notify x)) x]> E) I (delete n N).
Proof using.
  intros [(H0 & E0 & I0 & N0) ? Hdb Hid ? He Hno Hpos ?] Hx Hin. assert (e ≠ 0) by congruence.
  assert (NotifyProtocol <$> N !! n = Some e) as Hn by (apply Hno; by rewrite (notify_links_Some _ _ _ Hx)). split.
  - rewrite lookup_insert_ne, lookup_delete_None by done. naive_solver.
  - done.
  - by apply (entry_update_dom db E e x).
  - by apply (entry_update_ids E e x).
  - done.
  - intros q. by rewrite (entry_links_same _ _ x).
  - intros q. destruct (Hno q) as [Hq1 Hq2]. rewrite notify_links_insert. destruct (decide (q = e)) as [->|Hqe].
    + rewrite (notify_links_Some _ _ _ Hx) in Hq1, Hq2. simpl. split; [by apply NoDup_remove_link|].
      intros m. rewrite elem_of_remove_link, Hq2, lookup_delete. destruct (decide (n = m)); simpl; naive_solver.
    + split; [done|]. intros m. rewrite Hq2, lookup_delete. destruct (decide (n = m)) as [->|]; [|done].
      rewrite Hn. simpl. naive_solver.
  - intros m y p. rewrite (entry_links_same _ _ x) by done. intros [_ Hm]%lookup_delete_Some. by apply (Hpos m).
  - done.
Qed.

Lemma Linked_set_position hl s H db E I N n x v :
  LinkedDb hl s H db E I N -> N !! n = Some x -> (forall p, v = Some p -> p ∈ entry_links E (NotifyProtocol x)) ->
  LinkedDb hl s H db E I (<[n := SetPosition v x]> N).
Proof using.
  intros [(H0 & E0 & I0 & N0) ? ? ? ? ? Hno Hpos ?] Hn Hv. split; [|done..| | |done].
  - rewrite lookup_insert_ne by congruence. done.
  - intros e. destruct (Hno e) as [He1 He2]. split; [done|]. intros m. rewrite He2, lookup_insert.
    destruct (decide (n = m)) as [->|]; [|done]. by rewrite Hn.
  - intros m y p. rewrite lookup_insert. destruct (decide (n = m)) as [->|]; [|by apply Hpos].
    intros [= <-] Hp. by apply Hv.
Qed.

(** An interface keeps its handle and entry. *)
Lemma Linked_set_interface hl s H db E I N p x y :
  LinkedDb hl s H db E I N -> I !! p = Some x -> ProtHandle y = ProtHandle x -> ProtProtocol y = ProtProtocol x ->
  OpensOk y -> LinkedDb hl s H db E (<[p := y]> I) N.
Proof using.
  intros [(H0 & E0 & I0 & N0) ? ? ? Hh He ? ? Hop] Hp Hxh Hxe Ho. split; [|done..| | |done|done|].
  - rewrite lookup_insert_ne by congruence. done.
  - intros h. destruct (Hh h) as [Hh1 Hh2]. split; [done|]. intros q. rewrite Hh2, lookup_insert.
    destruct (decide (p = q)) as [->|]; [|done]. rewrite Hp. simpl. by rewrite Hxh.
  - intros e. destruct (He e) as [He1 He2]. split; [done|]. intros q. rewrite He2, lookup_insert.
    destruct (decide (p = q)) as [->|]; [|done]. rewrite Hp. simpl. by rewrite Hxe.
  - intros q z. rewrite lookup_insert. destruct (decide (p = q)) as [->|]; [by intros [= <-]|by apply Hop].
Qed.

(** The interfaces of an entry in another order. *)
Lemma Linked_permute hl s H db E I N e x l :
  LinkedDb hl s H db E I N -> E !! e = Some x -> l ≡ₚ EntryProtocols x ->
  LinkedDb hl s H db (<[e := SetEntryProtocols l x]> E) I N.
Proof using.
  intros [(H0 & E0 & I0 & N0) ? Hdb Hid ? He Hno Hpos ?] Hx Hl. assert (e ≠ 0) by congruence.
  assert (forall q, entry_links (<[e := SetEntryProtocols l x]> E) q ≡ₚ entry_links E q) as Hq.
  { intros q. rewrite entry_links_insert. destruct (decide (q = e)) as [->|]; [|done]. by rewrite (entry_links_Some _ _ _ Hx). }
  split; [|done|by apply (entry_update_dom db E e x)|by apply (entry_update_ids E e x)|done| | | |done].
  - by rewrite lookup_insert_ne.
  - intros q. by setoid_rewrite Hq.
  - intros q. by rewrite (notify_links_same _ _ x).
  - intros n y p Hn Hp. rewrite Hq. by apply (Hpos n).
Qed.

Lemma Linked_remove_interface hl s H db E I N h l e x p y :
  LinkedDb hl s H db E I N -> I !! p = Some y -> ProtHandle y = h -> ProtProtocol y = e ->
  H !! h = Some l -> E !! e = Some x -> (forall n z, N !! n = Some z -> Position z ≠ Some p) ->
  LinkedDb hl s (<[h := remove_link p l]> H) db
    (<[e := SetEntryProtocols (remove_link p (EntryProtocols x)) x]> E) (delete p I) N.
Proof using.
  intros [(H0 & E0 & I0 & N0) (Hn & Hd & Hs) Hdb Hid Hh He Hno Hpos Hop] Hp Hyh Hye Hl Hx Hfree.
  assert (h ≠ 0) by congruence. assert (e ≠ 0) by congruence. split.
  - rewrite !lookup_insert_ne, lookup_delete_None by done. naive_solver.
  - split_and!; [done| |rewrite dom_insert_lookup_L; [done|by exists l]].
    intros q. rewrite Hd, lookup_insert_is_Some'. split; [by right|]. intros [<-|?]; [by exists l|done].
  - by apply (entry_update_dom db E e x).
  - by apply (entry_update_ids E e x).
  - intros q. destruct (Hh q) as [Hq1 Hq2]. rewrite links_insert. destruct (decide (q = h)) as [->|Hqh].
    + rewrite (links_Some _ _ _ Hl) in Hq1, Hq2. split; [by apply NoDup_remove_link|].
      intros p'. rewrite elem_of_remove_link, Hq2, lookup_delete. destruct (decide (p = p')); simpl; naive_solver.
    + split; [done|]. intros p'. rewrite Hq2, lookup_delete. destruct (decide (p = p')) as [->|]; [|done].
      rewrite Hp. simpl. naive_solver.
  - intros q. destruct (He q) as [Hq1 Hq2]. rewrite entry_links_insert. destruct (decide (q = e)) as [->|Hqe].
    + rewrite (entry_links_Some _ _ _ Hx) in Hq1, Hq2. simpl. split; [by apply NoDup_remove_link|].
      intros p'. rewrite elem_of_remove_link, Hq2, lookup_delete. destruct (decide (p = p')); simpl; naive_solver.
    + split; [done|]. intros p'. rewrite Hq2, lookup_delete. destruct (decide (p = p')) as [->|]; [|done].
      rewrite Hp. simpl. naive_solver.
  - intros q. by rewrite (notify_links_same _ _ x).
  - intros n z p' Hn' Hp'. specialize (Hpos n z p' Hn' Hp'). rewrite entry_links_insert.
    destruct (decide _) as [Hd'|]; [|done]. rewrite Hd', (entry_links_Some _ _ _ Hx) in Hpos.
    simpl. apply elem_of_remove_link. split; [|done]. intros ->. by apply (Hfree n z).
  - intros p' z [_ Hp']%lookup_delete_Some. by apply Hop in Hp'.
Qed.

Lemma Linked_remove_handle hl s s' H db E I N h :
  LinkedDb hl s H db E I N -> H !! h = Some [] -> SetOf s' (dom H ∖ {[h]}) ->
  LinkedDb (remove_link h hl) s' (delete h H) db E I N.
Proof using.
  intros [(H0 & E0 & I0 & N0) (Hn & Hd & _) ? ? Hp ? ? ? ?] Hh Hs'. split; [| | | | |done..].
  - rewrite lookup_delete_None. naive_solver.
  - split_and!; [by apply NoDup_remove_link|by apply elem_of_dom_remove|by rewrite dom_delete_L].
  - done.
  - done.
  - intros q. specialize (Hp q). unfold links in *. rewrite lookup_delete. destruct (decide (h = q)) as [->|]; [|done].
    by rewrite Hh in Hp.
Qed.

Lemma Linked_back_up hl s H db E I N e p b :
  LinkedDb hl s H db E I N -> p ∈ entry_links E e -> (forall q, b = Some q -> q ∈ entry_links E e) ->
  LinkedDb hl s H db E I (back_up p b <$> N).
Proof using.
  intros [(H0 & E0 & I0 & N0) ? ? ? ? He Hno Hpos ?] Hp Hb. split; [|done..| | |done].
  - by rewrite lookup_fmap, N0.
  - intros q. destruct (Hno q) as [Hq1 Hq2]. split; [done|]. intros n. rewrite Hq2, lookup_fmap.
    destruct (N !! n) as [x|]; [|done]. simpl. unfold back_up. by destruct (bool_decide _).
  - intros n y q (x & <- & Hx)%lookup_fmap_Some. unfold back_up. destruct (bool_decide_reflect (Position x = Some p)) as [Ep|Ep].
    + simpl. intros Hq. assert (NotifyProtocol x = e) as ->; [|by apply Hb].
      specialize (Hpos n x p Hx Ep). apply He in Hpos, Hp. congruence.
    + apply Hpos with (1 := Hx).
Qed.
End Updates.

(** The link before one in a list. *)
Lemma back_link_elem p l : forall prev, p ∈ l -> NoDup l -> forall q, back_link prev p l = Some q -> prev = Some q \/ q ∈ l /\ q ≠ p.
Proof.
  induction l as [|r l IH]; intros prev Hp Hl q; [by apply elem_of_nil in Hp|]. apply NoDup_cons in Hl as [Hr Hl]. simpl.
  destruct (Z.eqb_spec r p) as [->|Hne]; [by left|]. apply elem_of_cons in Hp as [->|Hp]; [done|]. intros Hq. right.
  destruct (IH (Some r) Hp Hl q Hq) as [[= <-]|[Hin ?]]; [split; [by left|done]|split; [by right|done]].
Qed.

(** The links after one in a list. *)
Lemma links_after_elem v l : forall p, p ∈ links_after v l -> p ∈ l.
Proof.
  induction l as [|q l IH]; intros p; destruct v as [v|]; simpl; try done. destruct (q =? v); [by right|].
  intros Hp. right. by apply IH.
Qed.
