(* ===== verification/HandleRules.v ===== *)
(** * The handle database: reasoning about its programs

    The invariant on states, the rules for the monad [HM], what the database
    relies on in its environment ([EnvironmentOk]), the lock, and the lookups,
    which always return and do not change the state. *)
From Stdlib Require Import ZArith Lia.
From stdpp Require Import base option gmap list sets fin_maps.
From S2P Require Import Prelude Handle HandleSet HandleInv.

(** ** Runs *)

Section Runs.
Context {HS : Type}.
Implicit Types st : HandleState HS.

Lemma HM_bind_Done {A B} (m : HM HS A) (f : A -> HM HS B) st r :
  (m ≫= f) st = Done r <-> exists a st', m st = Done (a, st') /\ f a st' = Done r.
Proof using.
  unfold mbind, HM_bind. destruct (m st) as [[a st']| |]; split; [by eauto| |done| |done|];
    intros (a' & st'' & [= -> ->] & Hf) || intros (? & ? & [=] & _); done.
Qed.

Lemma HM_bind_run {A B} (m : HM HS A) (f : A -> HM HS B) st a st' :
  m st = Done (a, st') -> (m ≫= f) st = f a st'.
Proof using. unfold mbind, HM_bind. by intros ->. Qed.

Lemma mret_Done {A} (a b : A) st st' : mret (M:=HM HS) a st = Done (b, st') <-> b = a /\ st' = st.
Proof using. unfold mret, HM_ret. split; [by intros [= -> ->]|by intros [-> ->]]. Qed.
Lemma gets_Done {A} (f : HandleState HS -> A) a st st' : gets f st = Done (a, st') <-> a = f st /\ st' = st.
Proof using. unfold gets. split; [by intros [= -> ->]|by intros [-> ->]]. Qed.
Lemma modify_Done (f : HandleState HS -> HandleState HS) u st st' : modify f st = Done (u, st') <-> st' = f st.
Proof using. unfold modify. destruct u. split; [by intros [= ->]|by intros ->]. Qed.
Lemma assert_Done b u st st' : assert (HS:=HS) b st = Done (u, st') <-> b = true /\ st' = st.
Proof using. unfold assert. destruct b, u; split; [by intros [= ->]|by intros [_ ->]|done|by intros [? _]]. Qed.
Lemma lift_Done {A} (m : Outcome A) a st st' : lift (HS:=HS) m st = Done (a, st') <-> m = Done a /\ st' = st.
Proof using. unfold lift. destruct m; split; [by intros [= -> ->]|by intros [[= ->] ->]|done|by intros [? _]|done|by intros [? _]]. Qed.
Lemma deref_Done {A} (m : HandleState HS -> gmap Z A) p x st st' :
  deref m p st = Done (x, st') <-> m st !! p = Some x /\ st' = st.
Proof using. unfold deref. destruct (m st !! p); split; [by intros [= -> ->]|by intros [[= ->] ->]|done|by intros [? _]]. Qed.

(** Steps of a run whose outcome is known. *)
Lemma gets_run {A B} (f : HandleState HS -> A) (k : A -> HM HS B) st : (gets f ≫= k) st = k (f st) st.
Proof using. done. Qed.
Lemma modify_run {B} (f : HandleState HS -> HandleState HS) (k : unit -> HM HS B) st : (modify f ≫= k) st = k tt (f st).
Proof using. done. Qed.
Lemma mret_run {A B} (a : A) (k : A -> HM HS B) st : (mret a ≫= k) st = k a st.
Proof using. done. Qed.
Lemma bind_run {A B C} (m : HM HS A) (f : A -> HM HS B) (k : B -> HM HS C) st :
  ((m ≫= f) ≫= k) st = (m ≫= (fun a => f a ≫= k)) st.
Proof using. unfold mbind, HM_bind. by destruct (m st) as [[a st']| |]. Qed.
Lemma deref_run {A B} (m : HandleState HS -> gmap Z A) p x (k : A -> HM HS B) st :
  m st !! p = Some x -> (deref m p ≫= k) st = k x st.
Proof using. unfold deref, mbind, HM_bind. by intros ->. Qed.
End Runs.

(** Splits the runs in the context into their steps. *)
Ltac hm_step H :=
  lazymatch type of H with
  | (_ ≫= _) _ = Done _ => apply HM_bind_Done in H as (? & ? & ? & H)
  | mret _ _ = Done _ => apply mret_Done in H as [? ?]
  | gets _ _ = Done _ => apply gets_Done in H as [? ?]
  | modify _ _ = Done _ => apply modify_Done in H
  | assert _ _ = Done _ => apply assert_Done in H as [? ?]
  | lift _ _ = Done _ => apply lift_Done in H as [? ?]
  | deref _ _ _ = Done _ => apply deref_Done in H as [? ?]
  | (if ?b then _ else _) _ = Done _ => let E := fresh "E" in destruct b eqn:E
  | (let '(_, _) := ?x in _) _ = Done _ => destruct x
  | match ?x with _ => _ end _ = Done _ => let E := fresh "E" in destruct x eqn:E
  | Asserted = Done _ => discriminate H
  | OutOfFuel = Done _ => discriminate H
  end.
Ltac hm_run :=
  repeat first [rewrite gets_run | rewrite modify_run | rewrite mret_run | rewrite bind_run
    | erewrite deref_run by (cbn; first [eassumption | apply lookup_insert_eq | by rewrite lookup_insert_ne])].
Ltac hm_inv := repeat match goal with H : _ = Done _ |- _ => hm_step H; simplify_eq end.

(** ** Triples *)

(** [Triple P m Q]: a run of [m] that returns leads from [P] to [Q]. *)
Definition Triple {HS A} (P : HandleState HS -> Prop) (m : HM HS A) (Q : A -> HandleState HS -> Prop) : Prop :=
  forall st a st', P st -> m st = Done (a, st') -> Q a st'.

Section Triples.
Context {HS : Type}.
Implicit Types P : HandleState HS -> Prop.

Lemma Triple_bind {A B} P (m : HM HS A) (R : A -> HandleState HS -> Prop) (f : A -> HM HS B) Q :
  Triple P m R -> (forall a, Triple (R a) (f a) Q) -> Triple P (m ≫= f) Q.
Proof using. intros Hm Hf st b st' HP (a & st1 & Ha & Hb)%HM_bind_Done. eapply Hf; [|done]. by eapply Hm. Qed.

Lemma Triple_ret {A} P (a : A) : Triple P (mret a) (fun _ => P).
Proof using. by intros st b st' HP [-> ->]%mret_Done. Qed.

Lemma Triple_gets {A} P (f : HandleState HS -> A) : Triple P (gets f) (fun _ => P).
Proof using. by intros st b st' HP [-> ->]%gets_Done. Qed.

Lemma Triple_deref {A} P (m : HandleState HS -> gmap Z A) p :
  Triple P (deref m p) (fun x st => P st /\ m st !! p = Some x).
Proof using. by intros st b st' HP [? ->]%deref_Done. Qed.

Lemma Triple_pre {A} P (P' : HandleState HS -> Prop) (m : HM HS A) Q :
  (forall st, P st -> P' st) -> Triple P' m Q -> Triple P m Q.
Proof using. intros HP Hm st a st' Hst. by apply Hm, HP. Qed.

Lemma Triple_post {A} P (m : HM HS A) (Q Q' : A -> HandleState HS -> Prop) :
  (forall a st, Q a st -> Q' a st) -> Triple P m Q -> Triple P m Q'.
Proof using. intros HQ Hm st a st' Hst E. by eapply HQ, Hm. Qed.

Lemma Triple_assert P b : Triple P (assert b) (fun _ => P).
Proof using. by intros st u st' HP [_ ->]%assert_Done. Qed.

Lemma Triple_pure {A} P (F : Prop) (m : HM HS A) Q : (F -> Triple P m Q) -> Triple (fun st => P st /\ F) m Q.
Proof using. intros Hm st a st' [HP HF]. by apply Hm. Qed.

Lemma Triple_no_fuel {A} P Q : Triple P (fun _ => @OutOfFuel (A * HandleState HS)) Q.
Proof using. done. Qed.
End Triples.

(** ** The invariant *)

Section Invariant.
Context {HS : Type} {Ops : HandleSetOps HS} {SetOk : HandleSetOk HS}.
Implicit Types st : HandleState HS.

Definition Linked st : Prop :=
  LinkedDb (gHandleList st) (gOrderedHandleList st) (Protocols <$> Handles st) (mProtocolDatabase st)
    (Entries st) (Interfaces st) (Notifies st).

(** A handle without interfaces is freed. *)
Definition NoEmpty st : Prop := forall h, (Protocols <$> Handles st) !! h ≠ Some [].

Definition Inv st : Prop := Linked st /\ NoEmpty st.

(** The state inside and outside of the lock, at a task priority level. *)
Definition Held (High : bool) st : Prop := Inv st /\ Locked st = true /\ AtNotify st = High.
Definition Ready (High : bool) st : Prop := Inv st /\ Locked st = false /\ AtNotify st = High.

(** Programs that run inside of the lock, and programs that take it. *)
Definition LockSafe {A} (m : HM HS A) : Prop := forall High, Triple (Held High) m (fun _ => Held High).
Definition Safe {A} (m : HM HS A) : Prop := forall High, Triple (Ready High) m (fun _ => Ready High).

(** Programs that release the lock, and programs that take it and keep it. *)
Definition Releases {A} (m : HM HS A) : Prop := forall High, Triple (Held High) m (fun _ => Ready High).
Definition Acquires {A} (m : HM HS A) : Prop := forall High, Triple (Ready High) m (fun _ => Held High).

(** What the invariant depends on. *)
Definition view st :=
  (gHandleList st, gOrderedHandleList st, Protocols <$> Handles st, mProtocolDatabase st, Entries st, Interfaces st, Notifies st).

Lemma Inv_view st st' : view st' = view st -> Inv st -> Inv st'.
Proof using. unfold view, Inv, Linked, NoEmpty. by intros [= -> -> -> -> -> -> ->]. Qed.

Lemma Held_view High st st' :
  view st' = view st -> Locked st' = Locked st -> AtNotify st' = AtNotify st -> Held High st -> Held High st'.
Proof using. intros Hv Hl Ha (Hi & ? & ?). split_and!; [by apply (Inv_view st)|congruence..]. Qed.

Lemma Protocols_same (H : gmap Z IHANDLE) h x y :
  H !! h = Some x -> Protocols y = Protocols x -> Protocols <$> <[h := y]> H = Protocols <$> H.
Proof using.
  intros Hx Hy. rewrite fmap_insert, Hy. apply insert_id. by rewrite lookup_fmap, Hx.
Qed.

Lemma LockSafe_bind {A B} (m : HM HS A) (f : A -> HM HS B) : LockSafe m -> (forall a, LockSafe (f a)) -> LockSafe (m ≫= f).
Proof using. intros Hm Hf High. eapply Triple_bind; [apply Hm|]. intros a. apply Hf. Qed.
Lemma Safe_bind {A B} (m : HM HS A) (f : A -> HM HS B) : Safe m -> (forall a, Safe (f a)) -> Safe (m ≫= f).
Proof using. intros Hm Hf High. eapply Triple_bind; [apply Hm|]. intros a. apply Hf. Qed.
Lemma Releases_bind {A B} (m : HM HS A) (f : A -> HM HS B) : LockSafe m -> (forall a, Releases (f a)) -> Releases (m ≫= f).
Proof using. intros Hm Hf High. eapply Triple_bind; [apply Hm|]. intros a. apply Hf. Qed.
Lemma Acquires_bind {A B} (m : HM HS A) (f : A -> HM HS B) : Safe m -> (forall a, Acquires (f a)) -> Acquires (m ≫= f).
Proof using. intros Hm Hf High. eapply Triple_bind; [apply Hm|]. intros a. apply Hf. Qed.
Lemma LockSafe_ret {A} (a : A) : LockSafe (mret a).
Proof using. intros High. apply Triple_ret. Qed.
Lemma Safe_ret {A} (a : A) : Safe (mret a).
Proof using. intros High. apply Triple_ret. Qed.
Lemma LockSafe_gets {A} (f : HandleState HS -> A) : LockSafe (gets f).
Proof using. intros High. apply Triple_gets. Qed.
Lemma Safe_gets {A} (f : HandleState HS -> A) : Safe (gets f).
Proof using. intros High. apply Triple_gets. Qed.
Lemma LockSafe_deref {A} (m : HandleState HS -> gmap Z A) p : LockSafe (deref m p).
Proof using. intros High. eapply Triple_post; [|apply Triple_deref]. by intros ? ? [? _]. Qed.
Lemma LockSafe_assert b : LockSafe (assert b).
Proof using. intros High. apply Triple_assert. Qed.
Lemma Safe_assert b : Safe (assert b).
Proof using. intros High. apply Triple_assert. Qed.
Lemma LockSafe_lift {A} (m : Outcome A) : LockSafe (lift m).
Proof using. by intros High st a st' Hst [_ ->]%lift_Done. Qed.
Lemma LockSafe_no_fuel {A} : LockSafe (fun _ => @OutOfFuel (A * HandleState HS)).
Proof using. intros High. apply Triple_no_fuel. Qed.
Lemma Safe_no_fuel {A} : Safe (fun _ => @OutOfFuel (A * HandleState HS)).
Proof using. intros High. apply Triple_no_fuel. Qed.

Lemma LockSafe_modify (f : HandleState HS -> HandleState HS) :
  (forall st, view (f st) = view st /\ Locked (f st) = Locked st /\ AtNotify (f st) = AtNotify st) -> LockSafe (modify f).
Proof using. intros Hf High st u st' Hst ->%modify_Done. destruct (Hf st) as (? & ? & ?). by apply (Held_view High st). Qed.
End Invariant.

Create HintDb handle.
#[export] Hint Resolve LockSafe_ret Safe_ret LockSafe_gets Safe_gets LockSafe_deref LockSafe_assert Safe_assert
  LockSafe_lift LockSafe_no_fuel Safe_no_fuel : handle.
#[export] Hint Extern 1 (LockSafe (modify _)) => apply LockSafe_modify; intros ?; done : handle.

(** ** The environment *)

(** An address that nothing uses. *)
Definition Unused {HS} (p : Z) (Blocks : list Z) (st : HandleState HS) : Prop :=
  p ≠ 0 /\ (p ∉ Blocks) /\ Handles st !! p = None /\ Entries st !! p = None /\ Interfaces st !! p = None /\ Notifies st !! p = None.

(** The pool hands out memory that is not in use.  Notifications and drivers
    get the database in order and without the lock and leave it so. *)
Class EnvironmentOk (HS : Type) {Ops : HandleSetOps HS} {SetOk : HandleSetOk HS} {Env : Environment HS} : Prop := {
  AllocatePool_unused (st : HandleState HS) Blocks p : AllocatePool st Blocks = Some p -> Unused p Blocks st;
  DispatchEvents_safe : Safe DispatchEvents;
  CoreDisconnectController_safe Controller Driver : Safe (CoreDisconnectController Controller Driver);
  CoreConnectController_safe Controller : Safe (CoreConnectController Controller) }.

Section Locking.
Context {HS : Type} {Ops : HandleSetOps HS} {SetOk : HandleSetOk HS} {Env : Environment HS} {EnvOk : EnvironmentOk HS}.
Implicit Types st : HandleState HS.

Lemma Acquire_held High : Triple (Ready High) CoreAcquireProtocolLock (fun _ => Held High).
Proof using.
  intros st u st' (Hi & Hl & Ha) E. unfold CoreAcquireProtocolLock in E. hm_inv.
  split_and!; [by apply (Inv_view st)|done|done].
Qed.

Lemma Release_ready High : Triple (Held High) CoreReleaseProtocolLock (fun _ => Ready High).
Proof using EnvOk.
  intros st u st' (Hi & Hl & Ha) E. unfold CoreReleaseProtocolLock in E. hm_inv.
  - split_and!; [by apply (Inv_view st)|done|done].
  - eapply DispatchEvents_safe; [|done]. split_and!; [by apply (Inv_view st)|done|done].
Qed.

Lemma Safe_acquire {A} (f : unit -> HM HS A) : (forall a, Releases (f a)) -> Safe (CoreAcquireProtocolLock ≫= f).
Proof using. intros Hf High. eapply Triple_bind; [apply Acquire_held|]. intros a. apply Hf. Qed.
Lemma Acquires_acquire {A} (f : unit -> HM HS A) : (forall a, LockSafe (f a)) -> Acquires (CoreAcquireProtocolLock ≫= f).
Proof using. intros Hf High. eapply Triple_bind; [apply Acquire_held|]. intros a. apply Hf. Qed.
Lemma Releases_release {A} (f : unit -> HM HS A) : (forall a, Safe (f a)) -> Releases (CoreReleaseProtocolLock ≫= f).
Proof using EnvOk. intros Hf High. eapply Triple_bind; [apply Release_ready|]. intros a. apply Hf. Qed.
Lemma LockSafe_release {A} (f : unit -> HM HS A) : (forall a, Acquires (f a)) -> LockSafe (CoreReleaseProtocolLock ≫= f).
Proof using EnvOk. intros Hf High. eapply Triple_bind; [apply Release_ready|]. intros a. apply Hf. Qed.

(** Code under the lock that drops it in between. *)
Lemma LockSafe_dropped_triple High {A B} (m : HM HS A) (f : A -> HM HS B) Q :
  Safe m -> (forall a, Triple (Held High) (f a) Q) ->
  Triple (Held High) (CoreReleaseProtocolLock ;; a ← m; CoreAcquireProtocolLock ;; f a) Q.
Proof using EnvOk.
  intros Hm Hf. eapply Triple_bind; [apply Release_ready|intros []]. eapply Triple_bind; [apply Hm|intros a].
  eapply Triple_bind; [apply Acquire_held|intros []]. apply Hf.
Qed.

Lemma LockSafe_Allocate Blocks : LockSafe (Allocate Blocks).
Proof using. apply LockSafe_gets. Qed.

Lemma LockSafe_ASSERT_LOCKED : LockSafe ASSERT_LOCKED.
Proof using. unfold ASSERT_LOCKED. apply LockSafe_bind; [apply LockSafe_gets|intros b; apply LockSafe_assert]. Qed.

Lemma ASSERT_LOCKED_run st : Locked st = true -> ASSERT_LOCKED st = Done (tt, st).
Proof using. intros Hl. unfold ASSERT_LOCKED. rewrite (HM_bind_run _ _ st (Locked st) st) by done. by rewrite Hl. Qed.

Lemma Allocate_Done st Blocks p st' :
  Allocate Blocks st = Done (p, st') -> st' = st /\ (p = 0 \/ AllocatePool st Blocks = Some p /\ Unused p Blocks st).
Proof using EnvOk.
  unfold Allocate. intros [-> ->]%gets_Done. split; [done|].
  destruct (AllocatePool st Blocks) as [p|] eqn:Ep; simpl; [right|by left]. split; [done|]. by apply AllocatePool_unused.
Qed.

(** ** Lookups *)

(** What an interface structure offers: a protocol and an interface. *)
Definition offer st (p : Z) : option (Z * Z) :=
  prot ← Interfaces st !! p;
  entry ← Entries st !! ProtProtocol prot;
  mret (ProtocolID entry, Interface prot).

(** What each handle offers, in the order of its list: the abstract view of
    the database. *)
Definition offers st : gmap Z (list (Z * Z)) := (fun hd => omap (offer st) (Protocols hd)) <$> Handles st.

(** The first structure of a handle that offers a protocol and an interface. *)
Definition offering st (hd : IHANDLE) (o : Z * Z) : option Z := head (filter (fun q => offer st q = Some o) (Protocols hd)).

(** Nobody has opened it. *)
Definition unopened st (h : Z) (o : Z * Z) : Prop :=
  exists hd p prot, Handles st !! h = Some hd /\ offering st hd o = Some p /\ Interfaces st !! p = Some prot /\ OpenList prot = [].

(** [e] is the entry of a protocol, or NULL if there is none. *)
Definition EntryOf st (Protocol e : Z) : Prop :=
  e = 0 /\ (forall q, ProtocolID <$> Entries st !! q ≠ Some Protocol) \/ e ≠ 0 /\ ProtocolID <$> Entries st !! e = Some Protocol.

Lemma CoreValidateHandle_run st h :
  Linked st -> Locked st = true ->
  CoreValidateHandle h st = Done (if bool_decide (is_Some (Handles st !! h)) then EFI_SUCCESS else EFI_INVALID_PARAMETER, st).
Proof using.
  intros L Hl. unfold CoreValidateHandle. destruct (Z.eqb_spec h 0) as [->|Hh].
  { destruct (linked_null _ _ _ _ _ _ _ L) as [H0 _]. rewrite lookup_fmap, fmap_None in H0. by rewrite H0. }
  rewrite (HM_bind_run _ _ st tt st) by (by apply ASSERT_LOCKED_run).
  rewrite (HM_bind_run _ _ st (gOrderedHandleList st) st) by done.
  destruct (linked_handles _ _ _ _ _ _ _ L) as (_ & _ & Hs).
  destruct (SetOf_find _ _ h Hs) as (Entry & E & HE).
  rewrite (HM_bind_run _ _ st Entry st) by (unfold lift; by rewrite E).
  rewrite dom_fmap_L, not_elem_of_dom, eq_None_not_Some in HE.
  destruct (Z.eqb_spec Entry 0) as [->|Hn]; simpl; [rewrite bool_decide_eq_false_2|rewrite bool_decide_eq_true_2]; [done|by apply HE|done|].
  apply dec_stable. intros Hs'. by apply Hn, HE.
Qed.

Lemma FindEntryLoop_run st Protocol l :
  (forall q, q ∈ l -> q ≠ 0 /\ is_Some (Entries st !! q)) ->
  exists e, FindEntryLoop Protocol l st = Done (e, st) /\
    (e = 0 /\ (forall q, q ∈ l -> ProtocolID <$> Entries st !! q ≠ Some Protocol) \/
     e ≠ 0 /\ ProtocolID <$> Entries st !! e = Some Protocol).
Proof using.
  induction l as [|q l IH]; intros Hl; simpl; [by exists 0; split; [|left; split; [|intros q ?%elem_of_nil]]|].
  destruct (Hl q) as (Hq & x & Hx); [by left|].
  rewrite (HM_bind_run _ _ st x st) by (unfold deref; by rewrite Hx).
  destruct (Z.eqb_spec (ProtocolID x) Protocol) as [Ex|Ex].
  - exists q. split; [done|]. right. split; [done|]. rewrite Hx. simpl. by rewrite Ex.
  - destruct IH as (e & E & He); [intros q' Hq'; apply Hl; by right|]. exists e. split; [done|].
    destruct He as [[-> He]|He]; [left|by right]. split; [done|]. intros q' [->|Hq']%elem_of_cons; [|by apply He].
    rewrite Hx. simpl. congruence.
Qed.

Lemma Linked_database st q : Linked st -> q ∈ mProtocolDatabase st <-> is_Some (Entries st !! q).
Proof using. intros L. destruct (linked_entries _ _ _ _ _ _ _ L) as [_ Hd]. apply Hd. Qed.

Lemma Linked_nonzero st : Linked st -> Handles st !! 0 = None /\ Entries st !! 0 = None /\ Interfaces st !! 0 = None /\ Notifies st !! 0 = None.
Proof using. intros L. destruct (linked_null _ _ _ _ _ _ _ L) as [H0 ?]. by rewrite lookup_fmap, fmap_None in H0. Qed.

Lemma FindEntry_run st Protocol :
  Linked st -> exists e, FindEntryLoop Protocol (mProtocolDatabase st) st = Done (e, st) /\ EntryOf st Protocol e.
Proof using.
  intros L. destruct (FindEntryLoop_run st Protocol (mProtocolDatabase st)) as (e & E & He).
  { intros q Hq. apply Linked_database in Hq; [|done]. split; [|done]. intros ->.
    destruct (Linked_nonzero st L) as (_ & H0 & _). rewrite H0 in Hq. by destruct Hq. }
  exists e. split; [done|]. destruct He as [[-> He]|He]; [left|by right]. split; [done|].
  intros q Hq. apply (He q); [|done]. apply Linked_database; [done|]. by destruct (Entries st !! q).
Qed.

Lemma CoreFindProtocolEntry_run st Protocol :
  Linked st -> Locked st = true ->
  exists e, CoreFindProtocolEntry Protocol false st = Done (e, st) /\ EntryOf st Protocol e.
Proof using.
  intros L Hl. unfold CoreFindProtocolEntry. destruct (FindEntry_run st Protocol L) as (e & E & He).
  exists e. rewrite (HM_bind_run _ _ st tt st) by (by apply ASSERT_LOCKED_run). hm_run.
  rewrite (HM_bind_run _ _ st e st) by done. by rewrite andb_false_r.
Qed.

(** The structures that a link of a handle leads to. *)
Lemma Linked_interface st h hd p :
  Linked st -> Handles st !! h = Some hd -> p ∈ Protocols hd ->
  p ≠ 0 /\ exists prot entry, Interfaces st !! p = Some prot /\ ProtHandle prot = h /\
    Entries st !! ProtProtocol prot = Some entry /\ p ∈ EntryProtocols entry.
Proof using.
  intros L Hh Hp. destruct (linked_by_handle _ _ _ _ _ _ _ L h) as [_ Hl].
  unfold links in Hl. rewrite lookup_fmap, Hh in Hl. apply Hl, fmap_Some in Hp as (prot & Hp & ->).
  destruct (linked_by_entry _ _ _ _ _ _ _ L (ProtProtocol prot)) as [_ He].
  assert (p ∈ entry_links (Entries st) (ProtProtocol prot)) as Hin by (apply He; by rewrite Hp).
  split; [intros ->; destruct (Linked_nonzero st L) as (_ & _ & H0 & _); congruence|].
  unfold entry_links in Hin. destruct (Entries st !! ProtProtocol prot) as [entry|] eqn:Ee; [|by apply elem_of_nil in Hin].
  by exists prot, entry.
Qed.

Lemma GetInterfaceLoop_run st Protocol l :
  (forall q, q ∈ l -> is_Some (offer st q)) ->
  GetInterfaceLoop Protocol l st = Done (default 0 (head (filter (fun q => fst <$> offer st q = Some Protocol) l)), st).
Proof using.
  induction l as [|q l IH]; intros Hl; simpl; [done|].
  destruct (Hl q) as [o Ho]; [by left|]. rewrite filter_cons, Ho. simpl. unfold offer in Ho.
  apply bind_Some in Ho as (prot & Ep & (entry & Ee & [= <-])%bind_Some).
  rewrite (HM_bind_run _ _ st prot st) by (unfold deref; by rewrite Ep).
  rewrite (HM_bind_run _ _ st entry st) by (unfold deref; by rewrite Ee).
  destruct (Z.eqb_spec (ProtocolID entry) Protocol) as [E|E]; [rewrite decide_True|rewrite decide_False]; [done|by rewrite E| |by intros [= ?]].
  apply IH. intros q' Hq'. apply Hl. by right.
Qed.

Lemma FindInterfaceLoop_run st Protocol e Interface_ l :
  (forall q, q ∈ l -> exists prot entry, Interfaces st !! q = Some prot /\ Entries st !! ProtProtocol prot = Some entry) ->
  (forall q, ProtocolID <$> Entries st !! q = Some Protocol <-> q = e) ->
  FindInterfaceLoop e Interface_ l st =
    Done (default 0 (head (filter (fun q => offer st q = Some (Protocol, Interface_)) l)), st).
Proof using.
  intros Hl He. induction l as [|q l IH]; simpl; [done|].
  destruct (Hl q) as (prot & entry & Ep & Ee); [by left|].
  rewrite (HM_bind_run _ _ st prot st) by (unfold deref; by rewrite Ep). rewrite filter_cons.
  assert (offer st q = Some (Protocol, Interface_) <-> Interface prot = Interface_ /\ ProtProtocol prot = e) as Hq.
  { unfold offer. rewrite Ep. simpl. rewrite Ee. simpl. rewrite <- He, Ee. simpl.
    split; [by intros [= -> ->]|by intros [-> [= ->]]]. }
  destruct (Z.eqb_spec (Interface prot) Interface_), (Z.eqb_spec (ProtProtocol prot) e);
    [rewrite decide_True by tauto; done|rewrite decide_False by tauto..]; apply IH; intros q' Hq'; apply Hl; by right.
Qed.

Lemma Linked_offers st h hd : Linked st -> Handles st !! h = Some hd -> forall q, q ∈ Protocols hd -> is_Some (offer st q).
Proof using.
  intros L Hh q Hq. destruct (Linked_interface st h hd q L Hh Hq) as (_ & prot & entry & Ep & _ & Ee & _).
  unfold offer. rewrite Ep. simpl. rewrite Ee. by eexists.
Qed.

Lemma CoreGetProtocolInterface_run st h hd Protocol :
  Linked st -> Handles st !! h = Some hd ->
  CoreGetProtocolInterface h Protocol st =
    Done (default 0 (head (filter (fun q => fst <$> offer st q = Some Protocol) (Protocols hd))), st).
Proof using.
  intros L Hh. unfold CoreGetProtocolInterface. rewrite (HM_bind_run _ _ st hd st) by (unfold deref; by rewrite Hh).
  apply GetInterfaceLoop_run. by apply (Linked_offers st h).
Qed.

Lemma EntryOf_unique st Protocol e :
  Linked st -> EntryOf st Protocol e -> e ≠ 0 -> forall q, ProtocolID <$> Entries st !! q = Some Protocol <-> q = e.
Proof using.
  intros L [[? _]|[_ He]] Hn q; [done|]. split; [|by intros ->]. intros Hq. by apply (linked_ids _ _ _ _ _ _ _ L _ _ Protocol).
Qed.

Lemma CoreFindProtocolInterface_run st h hd Protocol Interface_ :
  Linked st -> Locked st = true -> Handles st !! h = Some hd ->
  CoreFindProtocolInterface h Protocol Interface_ st =
    Done (default 0 (head (filter (fun q => offer st q = Some (Protocol, Interface_)) (Protocols hd))), st).
Proof using.
  intros L Hl Hh. unfold CoreFindProtocolInterface. rewrite (HM_bind_run _ _ st tt st) by (by apply ASSERT_LOCKED_run).
  destruct (CoreFindProtocolEntry_run st Protocol L Hl) as (e & E & He). rewrite (HM_bind_run _ _ st e st) by done.
  destruct (Z.eqb_spec e 0) as [->|Hn]; simpl.
  - destruct He as [[_ He]|[? _]]; [|done]. replace (filter _ (Protocols hd)) with (@nil Z); [done|]. symmetry.
    apply filter_none. intros q _ Ho.
    unfold offer in Ho. apply bind_Some in Ho as (prot & Ep & (entry & Ee & [= Hi _])%bind_Some).
    apply (He (ProtProtocol prot)). rewrite Ee. simpl. by rewrite Hi.
  - rewrite (HM_bind_run _ _ st hd st) by (unfold deref; by rewrite Hh). apply FindInterfaceLoop_run; [|by apply EntryOf_unique].
    intros q Hq. destruct (Linked_interface st h hd q L Hh Hq) as (_ & prot & entry & Ep & _ & Ee & _). by exists prot, entry.
Qed.

End Locking.

#[export] Hint Resolve DispatchEvents_safe CoreDisconnectController_safe CoreConnectController_safe LockSafe_Allocate
  LockSafe_ASSERT_LOCKED : handle.
#[export] Hint Extern 1 (Releases CoreReleaseProtocolLock) => exact Release_ready : handle.

(** Proves that a program is safe from the safety of its parts, following the
    state of the lock. *)
Ltac safe_step :=
  lazymatch goal with
  | |- Safe (CoreAcquireProtocolLock ≫= _) => apply Safe_acquire; intros ?
  | |- Acquires (CoreAcquireProtocolLock ≫= _) => apply Acquires_acquire; intros ?
  | |- Releases (CoreReleaseProtocolLock ≫= _) => apply Releases_release; intros ?
  | |- LockSafe (CoreReleaseProtocolLock ≫= _) => apply LockSafe_release; intros ?
  | |- LockSafe (mret ?a ≫= ?f) => change (LockSafe (f a)); cbn [EFI_ERROR]
  | |- LockSafe (_ ≫= _) => apply LockSafe_bind; [|intros ?]
  | |- Safe (_ ≫= _) => apply Safe_bind; [|intros ?]
  | |- Releases (_ ≫= _) => apply Releases_bind; [|intros ?]
  | |- Acquires (_ ≫= _) => apply Acquires_bind; [|intros ?]
  | |- _ (if ?b then _ else _) => destruct b
  | |- _ (let '(_, _) := ?x in _) => destruct x
  | |- _ (match ?x with _ => _ end) => destruct x
  end.
Ltac safe := repeat (first [solve [auto with handle nocore] | safe_step | progress cbv zeta]).
