(* ===== verification/HandleInstall.v ===== *)
(** * The handle database: installation

    The parts of the services that look up and install: each keeps the database
    in order ([LockSafe]), and installing an interface adds it to what the
    handle offers ([Installed]). *)
From Stdlib Require Import ZArith Lia.
From stdpp Require Import base option gmap list sets fin_maps.
From S2P Require Import Prelude Handle HandleSet HandleInv HandleRules.

Section Steps.
Context {HS : Type} {Ops : HandleSetOps HS} {SetOk : HandleSetOk HS} {Env : Environment HS} {EnvOk : EnvironmentOk HS}.
Implicit Types st : HandleState HS.

(** ** Lookups *)

Lemma FindEntryLoop_safe Protocol l : LockSafe (FindEntryLoop (HS:=HS) Protocol l).
Proof using. induction l; simpl; safe. Qed.
Lemma FindInterfaceLoop_safe e i l : LockSafe (FindInterfaceLoop (HS:=HS) e i l).
Proof using. induction l; simpl; safe. Qed.
Lemma GetInterfaceLoop_safe Protocol l : LockSafe (GetInterfaceLoop (HS:=HS) Protocol l).
Proof using. induction l; simpl; safe. Qed.
Lemma DevicePathLoop_safe d n l : LockSafe (DevicePathLoop (HS:=HS) d n l).
Proof using. induction l; simpl; safe. Qed.
Lemma SignalLoop_safe l : LockSafe (SignalLoop (HS:=HS) l).
Proof using. induction l; simpl; safe. Qed.
Lemma FindNotifyLoop_safe ev l : LockSafe (FindNotifyLoop (HS:=HS) ev l).
Proof using. induction l; simpl; safe. Qed.
Lemma ProtocolIdsLoop_safe l : LockSafe (ProtocolIdsLoop (HS:=HS) l).
Proof using. induction l; simpl; safe. Qed.
Lemma NewHandlesLoop_safe k l : LockSafe (NewHandlesLoop (HS:=HS) k l).
Proof using. induction l; simpl; safe. Qed.

Definition NewEntry (e Protocol : Z) st : HandleState HS :=
  SetDatabase (mProtocolDatabase st ++ [e]) (<[e := MkEntry Protocol [] []]> (Entries st)) st.

(** There is no memory for a new handle next to the structure [Prot], or none
    for its entry in the ordered set. *)
Definition NoHandleMemory st (Prot : Z) : Prop :=
  AllocatePool st [Prot] = None \/
  exists h s, AllocatePool st [Prot] = Some h /\ CollectionInsert h (gOrderedHandleList st) = Done (EFI_OUT_OF_RESOURCES, s).

(** There is no memory for the structure of an interface, or, if no handle was
    given, for the handle. *)
Definition NoStructures st (Given : Z) : Prop :=
  AllocatePool st [] = None \/ Given = 0 /\ exists p, AllocatePool st [] = Some p /\ NoHandleMemory st p.

(** The two ways in which an installation runs out of memory, and its status:
    for the entry of a protocol that has none it is the status [Status0] that
    was there before, for any other structure EFI_OUT_OF_RESOURCES. *)
Definition NoMemory st (Given Protocol : Z) (Status0 Status : EFI_STATUS) : Prop :=
  Status = Status0 /\ EntryOf st Protocol 0 /\ AllocatePool st [] = None \/
  Status = EFI_OUT_OF_RESOURCES /\ (exists e, e ≠ 0 /\ EntryOf st Protocol e) /\ NoStructures st Given \/
  Status = EFI_OUT_OF_RESOURCES /\ EntryOf st Protocol 0 /\
    exists e, AllocatePool st [] = Some e /\ NoStructures (NewEntry e Protocol st) Given.

Lemma CoreFindProtocolEntry_create st Protocol :
  Linked st -> Locked st = true ->
  exists e st', CoreFindProtocolEntry Protocol true st = Done (e, st') /\ Linked st' /\
    (st' = st /\ EntryOf st Protocol e /\ (e = 0 -> AllocatePool st [] = None) \/
     st' = NewEntry e Protocol st /\ Unused e [] st /\ AllocatePool st [] = Some e /\ EntryOf st Protocol 0).
Proof using EnvOk.
  intros L Hl. unfold CoreFindProtocolEntry. destruct (FindEntry_run st Protocol L) as (e & E & He).
  rewrite (HM_bind_run _ _ st tt st) by (by apply ASSERT_LOCKED_run). hm_run. rewrite (HM_bind_run _ _ st e st) by done.
  rewrite andb_true_r. destruct (Z.eqb_spec e 0) as [->|Hn]; [|exists e, st; split_and!; [done|done|by left]].
  unfold Allocate. hm_run. destruct (AllocatePool st []) as [p|] eqn:Ep; simpl; [|exists 0, st; split_and!; [done|done|by left]].
  pose proof (AllocatePool_unused st [] p Ep) as Hu. pose proof Hu as (Hp & _ & _ & Hpe & _).
  rewrite (proj2 (Z.eqb_neq p 0)) by done. simpl. exists p, (NewEntry p Protocol st). split_and!; [done| |by right].
  destruct He as [[_ He]|[? _]]; [|done]. by apply Linked_add_entry.
Qed.

Lemma CoreFindProtocolEntry_safe Protocol Create : LockSafe (CoreFindProtocolEntry Protocol Create).
Proof using EnvOk.
  intros High st e st' ((L & Hn) & Hl & Ha) E. destruct Create.
  - destruct (CoreFindProtocolEntry_create st Protocol L Hl) as (e1 & st1 & E1 & L1 & H1). rewrite E1 in E. injection E as -> ->.
    destruct H1 as [(-> & _)|(-> & _)]; (split_and!; [split|..]; done).
  - destruct (CoreFindProtocolEntry_run st Protocol L Hl) as (e1 & E1 & _). rewrite E1 in E. by injection E as -> <-.
Qed.

(** Changes of a handle that keep its interfaces. *)
Lemma UpdateHandle_safe h f : (forall x, Protocols (f x) = Protocols x) -> LockSafe (UpdateHandle h f).
Proof using.
  intros Hf High st u st' Hst E. unfold UpdateHandle in E. hm_inv. apply (Held_view High st); [|done..|done].
  unfold view. simpl. by rewrite (Protocols_same _ h x (f x)).
Qed.

Lemma BumpKey_safe h : LockSafe (BumpKey (HS:=HS) h).
Proof using. unfold BumpKey. safe. by apply UpdateHandle_safe. Qed.

(** A change of an interface that keeps its handle and entry. *)
Lemma UpdateInterface_held High st p prot f u st' :
  Held High st -> Interfaces st !! p = Some prot -> ProtHandle (f prot) = ProtHandle prot ->
  ProtProtocol (f prot) = ProtProtocol prot -> OpensOk (f prot) ->
  UpdateInterface p f st = Done (u, st') -> Held High st'.
Proof using.
  intros ((L & Hn) & Hl & Ha) Hp Hh He Ho E. unfold UpdateInterface in E. hm_inv.
  split_and!; [split; [|done]|done|done]. by apply (Linked_set_interface _ _ _ _ _ _ _ p prot).
Qed.

(** ** Installation *)

(** The state after an interface [p] has been linked to a handle and an entry. *)
Definition LinkInterface (h : Z) (hd : IHANDLE) (e : Z) (en : PROTOCOL_ENTRY) (p i : Z) st : HandleState HS :=
  SetDatabase (mProtocolDatabase st) (<[e := SetEntryProtocols (EntryProtocols en ++ [p]) en]> (Entries st))
    (SetHandles (<[h := MkHandle (p :: Protocols hd) (LocateRequest hd) (add64 (gHandleDatabaseKey st) 1)]> (Handles st))
      (SetInterfaces (<[p := MkInterface h e i [] 0]> (Interfaces st))
        (SetDatabaseKey (add64 (gHandleDatabaseKey st) 1) st))).

(** Signalling the events of a list of notifications. *)
Definition SignalAll (l : list Z) st : HandleState HS :=
  foldl (fun st n => from_option (fun x => AddSignal (NotifyEvent x) st) st (Notifies st !! n)) st l.

Lemma SignalLoop_run l st : (forall n, n ∈ l -> is_Some (Notifies st !! n)) -> SignalLoop l st = Done (tt, SignalAll l st).
Proof using.
  unfold SignalAll. revert st. induction l as [|n l IH]; intros st Hl; [done|].
  destruct (Hl n) as [x Hx]; [by left|]. simpl. hm_run. rewrite Hx. simpl. apply IH. intros m Hm. apply Hl. by right.
Qed.

Lemma SignalAll_same l st :
  view (SignalAll l st) = view st /\ Handles (SignalAll l st) = Handles st /\
  Locked (SignalAll l st) = Locked st /\ AtNotify (SignalAll l st) = AtNotify st.
Proof using.
  unfold SignalAll. revert st. induction l as [|n l IH]; intros st; [done|]. simpl.
  destruct (Notifies st !! n); simpl; [|apply IH]. by destruct (IH (AddSignal (NotifyEvent p) st)) as (-> & -> & -> & ->).
Qed.

Lemma Linked_notifies st e en n : Linked st -> Entries st !! e = Some en -> n ∈ Notify en -> is_Some (Notifies st !! n).
Proof using.
  intros L He Hn. destruct (linked_notifies _ _ _ _ _ _ _ L e) as [_ Hl]. rewrite (notify_links_Some _ _ _ He) in Hl.
  apply Hl in Hn. by destruct (Notifies st !! n).
Qed.

Lemma LinkInterface_unopened st h hd e en p i : unopened (LinkInterface h hd e en p i st) h (ProtocolID en, i).
Proof using.
  eexists _, p, _. simpl. rewrite !lookup_insert_eq. split_and!; [done| |done|done]. unfold offering. cbn [Protocols].
  rewrite filter_cons_True; [done|]. unfold offer. simpl. rewrite lookup_insert_eq. simpl. by rewrite lookup_insert_eq.
Qed.

(** Parts of the state that do not matter for it. *)
Lemma unopened_view st st' h o :
  Handles st' = Handles st -> Entries st' = Entries st -> Interfaces st' = Interfaces st -> unopened st h o -> unopened st' h o.
Proof using. unfold unopened, offering, offer. by intros -> -> ->. Qed.

Lemma InstallLink_linked st h hd e en p i :
  Linked st -> Handles st !! h = Some hd -> Entries st !! e = Some en -> p ≠ 0 -> Interfaces st !! p = None ->
  Linked (LinkInterface h hd e en p i st).
Proof using.
  intros L Hh He Hp Hpi. unfold Linked. simpl. rewrite fmap_insert. simpl.
  apply Linked_add_interface; [done|done|done| |done]. by rewrite lookup_fmap, Hh.
Qed.

Lemma InstallLink_run st h hd e en p Protocol i (NotifyThem : bool) :
  Linked st -> Locked st = true -> Handles st !! h = Some hd -> Entries st !! e = Some en -> p ≠ 0 ->
  Interfaces st !! p = None ->
  InstallLink h e p Protocol i NotifyThem st =
    if decide (head (filter (fun q => offer st q = Some (Protocol, i)) (Protocols hd)) = None)
    then Done (tt, (if NotifyThem then SignalAll (Notify en) else id) (LinkInterface h hd e en p i st)) else Asserted.
Proof using.
  intros L Hl Hh He Hp Hpi. unfold InstallLink, BumpKey, UpdateHandle. hm_run. cbn [gHandleDatabaseKey SetDatabaseKey].
  set (st1 := SetHandles _ _).
  assert (Linked st1) as L1. { unfold Linked, st1. simpl. by rewrite (Protocols_same _ h hd). }
  rewrite (HM_bind_run _ _ _ _ _ (CoreFindProtocolInterface_run st1 h _ Protocol i L1 Hl ltac:(apply lookup_insert_eq))).
  change (offer st1) with (offer st). cbn [Protocols SetKey].
  destruct (head _) as [q|] eqn:Eq; cbn [from_option id].
  { assert (q ∈ filter (λ q, offer st q = Some (Protocol, i)) (Protocols hd)) as Hq.
    { destruct (filter _ _); [done|]. injection Eq as ->. by left. }
    apply list_elem_of_filter in Hq as [_ Hq]. destruct (Linked_interface st h hd q L Hh Hq) as [Hq0 _].
    rewrite decide_False by done. unfold assert. by rewrite (proj2 (Z.eqb_neq q 0)) by done. }
  rewrite decide_True by done. rewrite (HM_bind_run _ _ st1 tt st1) by done. unfold st1. hm_run.
  unfold UpdateEntry. hm_run. cbn. rewrite !insert_insert_eq. unfold SetProtocols. simpl.
  destruct NotifyThem; [|done]. unfold CoreNotifyProtocolEntry.
  rewrite (HM_bind_run _ _ _ tt _) by (by apply ASSERT_LOCKED_run). hm_run. rewrite SignalLoop_run; [done|].
  intros n Hn. by apply (Linked_notifies st e en n L He).
Qed.

(** The state with a new handle without interfaces. *)
Definition NewHandle (h : Z) (s : HS) st : HandleState HS :=
  SetHandleList (gHandleList st ++ [h])
    (SetHandles (<[h := MkHandle [] 0 0]> (Handles st)) (SetOrderedHandleList s st)).

Lemma InstallHandle_run st Given Prot :
  Linked st -> Locked st = true ->
  exists Status h st', InstallHandle Given Prot st = Done ((Status, h), st') /\ Linked st' /\
    ((Status = if Given =? 0 then EFI_OUT_OF_RESOURCES else EFI_INVALID_PARAMETER) /\ (exists s, st' = SetOrderedHandleList s st) /\
       (if Given =? 0 then NoHandleMemory st Prot else Handles st !! Given = None) \/
     Status = EFI_SUCCESS /\ Given ≠ 0 /\ h = Given /\ st' = st /\ is_Some (Handles st !! Given) \/
     Status = EFI_SUCCESS /\ Given = 0 /\ Unused h [Prot] st /\ exists s, st' = NewHandle h s st).
Proof using EnvOk.
  intros L Hl. unfold InstallHandle. destruct (Z.eqb_spec Given 0) as [->|Hg].
  - assert (SetOrderedHandleList (gOrderedHandleList st) st = st) as Hsame by (by destruct st).
    unfold Allocate. hm_run. destruct (AllocatePool st [Prot]) as [h|] eqn:Eh; simpl.
    2:{ exists EFI_OUT_OF_RESOURCES, 0, st. split_and!; [done|done|]. left. split_and!; [done|by eexists|]. by left. }
    pose proof (AllocatePool_unused st [Prot] h Eh) as Hu. pose proof Hu as (Hh & _ & Hf & _).
    rewrite (proj2 (Z.eqb_neq h 0)) by done. hm_run.
    destruct (SetOf_insert _ _ h (proj2 (proj2 (linked_handles _ _ _ _ _ _ _ L)))) as (Status & s & Es & Hs).
    rewrite (HM_bind_run _ _ st (Status, s) st) by (unfold lift; by rewrite Es). hm_run.
    rewrite dom_fmap_L in Hs. destruct Hs as [(-> & _ & Hs)|[(_ & Hin & _)|(-> & Hs)]].
    + exists EFI_SUCCESS, h, (NewHandle h s st). split_and!; [done| |right; right; split_and!; [done|done|done|by exists s]].
      unfold Linked. simpl. rewrite fmap_insert. simpl. apply Linked_add_handle with (1 := L); [done|by rewrite lookup_fmap, Hf|by rewrite dom_fmap_L].
    + apply elem_of_dom in Hin as [? ?]. congruence.
    + exists EFI_OUT_OF_RESOURCES, h, (SetOrderedHandleList s st). split_and!; [done| |left; split_and!; [done|by exists s|right; by exists h, s]].
      destruct L as [? (? & ? & _)]. split; [done| |done..]. split_and!; [done|done|by rewrite dom_fmap_L].
  - rewrite (HM_bind_run _ _ _ _ _ (CoreValidateHandle_run st Given L Hl)).
    destruct (bool_decide_reflect (is_Some (Handles st !! Given))) as [Hs|Hs].
    + exists EFI_SUCCESS, Given, st. split_and!; [done|done|]. right. left. done.
    + exists EFI_INVALID_PARAMETER, Given, st. split_and!; [done|done|]. left. split_and!; [done|by exists (gOrderedHandleList st); destruct st|].
      by apply eq_None_not_Some.
Qed.

Lemma NoEmpty_link st h hd e en p i :
  (forall q, q ≠ h -> (Protocols <$> Handles st) !! q ≠ Some []) -> NoEmpty (LinkInterface h hd e en p i st).
Proof using.
  intros Hq q. simpl. rewrite fmap_insert, lookup_insert. destruct (decide (h = q)); [done|]. by apply Hq.
Qed.

Lemma NoEmpty_signal l st : Inv st -> Inv (SignalAll l st).
Proof using. destruct (SignalAll_same l st) as (Hv & _). by apply Inv_view. Qed.

(** The part of [CoreInstallProtocolInterfaceNotify] after its first check. *)
Definition InstallBody (Given Protocol Interface_ : Z) (NotifyThem : bool) (Status : EFI_STATUS) : HM HS (EFI_STATUS * Z) :=
  ProtEntry ← CoreFindProtocolEntry Protocol true;
  if ProtEntry =? 0 then mret (Status, 0) else
  Prot ← Allocate [];
  if Prot =? 0 then mret (EFI_OUT_OF_RESOURCES, 0) else
  '(Status, Handle) ← InstallHandle Given Prot;
  if EFI_ERROR Status then mret (Status, Handle) else
  InstallLink Handle ProtEntry Prot Protocol Interface_ NotifyThem ;;
  mret (EFI_SUCCESS, Handle).

Lemma omap_same {A B} (f g : A -> option B) (l : list A) : (forall x, x ∈ l -> f x = g x) -> omap f l = omap g l.
Proof using.
  induction l as [|x l IH]; intros Hl; [done|]. csimpl. rewrite (Hl x) by (by left).
  by rewrite IH by (intros y Hy; apply Hl; by right).
Qed.

(** The view of the database after each step. *)
Lemma offers_ext st st' :
  Handles st' = Handles st ->
  (forall h hd p, Handles st !! h = Some hd -> p ∈ Protocols hd -> offer st' p = offer st p) -> offers st' = offers st.
Proof using.
  intros Hh Ho. unfold offers. rewrite Hh. apply map_eq. intros h. rewrite !lookup_fmap.
  destruct (Handles st !! h) as [hd|] eqn:E; [|done]. simpl. f_equal. apply omap_same. intros p. by apply (Ho h).
Qed.

Lemma offers_NewEntry st e Protocol : Linked st -> Entries st !! e = None -> offers (NewEntry e Protocol st) = offers st.
Proof using.
  intros L He. apply offers_ext; [done|]. intros h hd p Hh Hp.
  destruct (Linked_interface st h hd p L Hh Hp) as (_ & prot & entry & Ep & _ & Ee & _).
  unfold offer. simpl. rewrite Ep. simpl. rewrite lookup_insert_ne by congruence. done.
Qed.

Lemma offers_SignalAll l st : offers (SignalAll l st) = offers st.
Proof using.
  unfold offers, offer. destruct (SignalAll_same l st) as (Hv & -> & _). unfold view in Hv. injection Hv as _ _ _ _ -> -> _. done.
Qed.

Lemma offers_LinkInterface st h hd e en p i :
  Linked st -> Handles st !! h = Some hd -> Entries st !! e = Some en -> Interfaces st !! p = None ->
  offers (LinkInterface h hd e en p i st) = <[h := (ProtocolID en, i) :: omap (offer st) (Protocols hd)]> (offers st).
Proof using.
  intros L Hh He Hp. set (st' := LinkInterface h hd e en p i st).
  assert (forall q, q ≠ p -> offer st' q = offer st q) as Hq.
  { intros q Hqp. unfold offer, st'. simpl. rewrite lookup_insert_ne by done. destruct (Interfaces st !! q) as [x|]; [|done]. simpl.
    destruct (decide (e = ProtProtocol x)) as [<-|]; [rewrite lookup_insert_eq, He; done|by rewrite lookup_insert_ne]. }
  assert (offer st' p = Some (ProtocolID en, i)) as Hop.
  { unfold offer, st'. simpl. rewrite lookup_insert_eq. simpl. rewrite lookup_insert_eq. done. }
  assert (forall q x, Handles st !! q = Some x -> omap (offer st') (Protocols x) = omap (offer st) (Protocols x)) as Hl.
  { intros q x Hx. apply omap_same. intros r Hr. apply Hq. intros ->.
    destruct (Linked_interface st q x p L Hx Hr) as (_ & prot & _ & Ep & _). congruence. }
  unfold offers. subst st'. apply map_eq. intros q. simpl. rewrite !lookup_fmap. destruct (decide (h = q)) as [<-|Hne].
  - rewrite !lookup_insert_eq. simpl. rewrite Hop. f_equal. f_equal. by apply (Hl h).
  - rewrite !lookup_insert_ne, lookup_fmap by done. destruct (Handles st !! q) as [x|] eqn:Ex; [|done]. simpl. f_equal. by apply (Hl q).
Qed.

(** The results of an installation when there is memory: what is offered
    changes only on success. *)
Definition Placed (Given Protocol Interface_ : Z) st (Status : EFI_STATUS) (h : Z) st' : Prop :=
  offers st' = offers st /\ Status = EFI_INVALID_PARAMETER /\ Given ≠ 0 /\ offers st !! Given = None \/
  Status = EFI_SUCCESS /\ h ≠ 0 /\
    (Given ≠ 0 /\ h = Given /\ is_Some (offers st !! Given) \/ Given = 0 /\ offers st !! h = None) /\
    offers st' = <[h := (Protocol, Interface_) :: default [] (offers st !! h)]> (offers st) /\ unopened st' h (Protocol, Interface_).

Definition Installed (Given Protocol Interface_ : Z) (Status0 : EFI_STATUS) st (Status : EFI_STATUS) (h : Z) st' : Prop :=
  offers st' = offers st /\ NoMemory st Given Protocol Status0 Status \/ Placed Given Protocol Interface_ st Status h st'.

Lemma offers_None st h : offers st !! h = None <-> Handles st !! h = None.
Proof using. unfold offers. by rewrite lookup_fmap, fmap_None. Qed.

Lemma offers_Some st h hd : Handles st !! h = Some hd -> offers st !! h = Some (omap (offer st) (Protocols hd)).
Proof using. intros Hh. unfold offers. by rewrite lookup_fmap, Hh. Qed.

(** Linking the interface once the handle and the entry exist. *)
Lemma InstallLink_installed st h hd e en p Protocol i (NotifyThem : bool) :
  Linked st -> Locked st = true -> (forall q, q ≠ h -> (Protocols <$> Handles st) !! q ≠ Some []) ->
  Handles st !! h = Some hd -> Entries st !! e = Some en -> ProtocolID en = Protocol -> p ≠ 0 -> Interfaces st !! p = None ->
  InstallLink h e p Protocol i NotifyThem st = Asserted /\ (Protocol, i) ∈ default [] (offers st !! h) \/
  exists st', InstallLink h e p Protocol i NotifyThem st = Done (tt, st') /\ Inv st' /\
    Locked st' = true /\ AtNotify st' = AtNotify st /\
    offers st' = <[h := (Protocol, i) :: default [] (offers st !! h)]> (offers st) /\ unopened st' h (Protocol, i).
Proof using.
  intros L Hl Hq Hh He <- Hp Hpi. rewrite (InstallLink_run st h hd e en) by done. rewrite (offers_Some st h hd Hh). simpl.
  destruct (head _) as [q|] eqn:Eq.
  - left. split; [done|]. apply list_elem_of_omap. exists q.
    assert (q ∈ filter (λ q, offer st q = Some (ProtocolID en, i)) (Protocols hd)) as Hin.
    { destruct (filter _ _); [done|]. injection Eq as ->. by left. }
    apply list_elem_of_filter in Hin. tauto.
  - right. eexists. split; [done|]. pose proof (InstallLink_linked st h hd e en p i L Hh He Hp Hpi) as L'.
    pose proof (NoEmpty_link st h hd e en p i Hq) as N'. pose proof (offers_LinkInterface st h hd e en p i L Hh He Hpi) as O'.
    pose proof (LinkInterface_unopened st h hd e en p i) as U'. destruct NotifyThem; [|by split_and!].
    destruct (SignalAll_same (Notify en) (LinkInterface h hd e en p i st)) as (Hv & Hh' & Hl' & Ha').
    split_and!; [by apply NoEmpty_signal|by rewrite Hl'|by rewrite Ha'|by rewrite offers_SignalAll|].
    unfold view in Hv. injection Hv as _ _ _ _ HE HI _. by apply unopened_view with (4 := U').
Qed.

(** After the entry and the interface structure have been allocated. *)
Lemma InstallRest_run st Given e en p Protocol i (NotifyThem : bool) :
  Inv st -> Locked st = true -> Entries st !! e = Some en -> ProtocolID en = Protocol -> Unused p [] st ->
  let run := '(Status, Handle) ← InstallHandle Given p;
             if EFI_ERROR Status then mret (Status, Handle) else
             InstallLink Handle e p Protocol i NotifyThem ;; mret (EFI_SUCCESS, Handle) in
  run st = Asserted /\ Given ≠ 0 /\ (Protocol, i) ∈ default [] (offers st !! Given) \/
  exists Status h st', run st = Done ((Status, h), st') /\ Inv st' /\ Locked st' = true /\ AtNotify st' = AtNotify st /\
    (Given = 0 /\ NoHandleMemory st p /\ Status = EFI_OUT_OF_RESOURCES /\ offers st' = offers st \/
     Placed Given Protocol i st Status h st').
Proof using EnvOk.
  intros [L N] Hl He Hid (Hp & _ & _ & _ & Hpi & _) run. subst run.
  destruct (InstallHandle_run st Given p L Hl) as (Status & h & st' & E & L' & Hcase). rewrite (HM_bind_run _ _ _ _ _ E). clear E.
  destruct Hcase as [(-> & (s & ->) & Hg)|[(-> & Hg & -> & -> & [hd Hh])|(-> & -> & Hu & s & ->)]].
  - right. destruct (Z.eqb_spec Given 0) as [->|Hg0]; eexists _, h, _; (split; [done|]);
      (split_and!; [split; done|done|done|]); [by left|].
    right. left. split_and!; [done|done|done|]. by apply offers_None.
  - cbn [EFI_ERROR]. assert (is_Some (offers st !! Given)) as Hsome by (eexists; by apply (offers_Some st Given hd)).
    destruct (InstallLink_installed st Given hd e en p Protocol i NotifyThem L Hl (fun q _ => N q) Hh He Hid Hp Hpi)
      as [[E Hin]|(st' & E & HI & Hl' & Ha' & Ho & HU)].
    + left. split; [|done]. unfold mbind, HM_bind. by rewrite E.
    + right. exists EFI_SUCCESS, Given, st'. rewrite (HM_bind_run _ _ _ _ _ E). split_and!; [done|done|done|done|].
      right. right. split_and!; [done|done|by left|done|done].
  - cbn [EFI_ERROR]. set (st1 := NewHandle h s st) in *. destruct Hu as (Hh0 & Hhp & Hh & _ & Hhi & _).
    assert (offers st1 = <[h := []]> (offers st)) as Ho1.
    { unfold offers, st1. simpl. by rewrite fmap_insert. }
    destruct (InstallLink_installed st1 h (MkHandle [] 0 0) e en p Protocol i NotifyThem L' Hl) as [[_ Hin]|(st' & E & HI & Hl' & Ha' & Ho & HU)].
    { intros q Hq. unfold st1. simpl. rewrite fmap_insert, lookup_insert_ne by done. apply N. }
    { unfold st1. simpl. by rewrite lookup_insert_eq. }
    { done. } { done. } { done. } { done. }
    { rewrite Ho1, lookup_insert_eq in Hin. by apply elem_of_nil in Hin. }
    right. exists EFI_SUCCESS, h, st'. rewrite (HM_bind_run _ _ _ _ _ E). split_and!; [done|done|done|done|].
    apply offers_None in Hh. right. right. split_and!; [done|done|by right| |done]. rewrite Ho, Ho1, lookup_insert_eq, insert_insert_eq, Hh. done.
Qed.

Lemma InstallBody_run st Given Protocol i (NotifyThem : bool) Status0 :
  Inv st -> Locked st = true ->
  InstallBody Given Protocol i NotifyThem Status0 st = Asserted /\ Given ≠ 0 /\ (Protocol, i) ∈ default [] (offers st !! Given) \/
  exists Status h st', InstallBody Given Protocol i NotifyThem Status0 st = Done ((Status, h), st') /\
    Inv st' /\ Locked st' = true /\ AtNotify st' = AtNotify st /\ Installed Given Protocol i Status0 st Status h st'.
Proof using EnvOk.
  intros [L N] Hl. unfold InstallBody. destruct (CoreFindProtocolEntry_create st Protocol L Hl) as (e & st1 & E & L1 & Hcase).
  rewrite (HM_bind_run _ _ _ _ _ E). clear E.
  assert (offers st1 = offers st /\ Inv st1 /\ Locked st1 = true /\ AtNotify st1 = AtNotify st /\
          (e ≠ 0 -> exists en, Entries st1 !! e = Some en /\ ProtocolID en = Protocol)) as (Ho & I1 & Hl1 & Ha1 & He1).
  { destruct Hcase as [(-> & He & _)|(-> & (He & _ & _ & Hf & _) & _)].
    - split_and!; [done|done|done|done|]. intros He0. destruct He as [[? _]|[_ He]]; [done|].
      by apply fmap_Some in He as (en & ? & ->); eauto.
    - split_and!; [by apply offers_NewEntry|done|done|done|]. intros _. eexists. simpl. by rewrite lookup_insert_eq. }
  destruct (Z.eqb_spec e 0) as [->|He0].
  { right. exists Status0, 0, st1. split_and!; [done|done|done|done|]. left. split; [done|]. left.
    destruct Hcase as [(-> & He & Hnone)|(-> & (? & _) & _)]; [|done]. split_and!; [done|done|by apply Hnone]. }
  assert (NoStructures st1 Given -> NoMemory st Given Protocol Status0 EFI_OUT_OF_RESOURCES) as Hmem.
  { intros Hns. right. destruct Hcase as [(-> & He & _)|(-> & _ & Ha & He)]; [left|right].
    - split_and!; [done|by exists e|done].
    - split_and!; [done|done|by exists e]. }
  destruct (He1 He0) as (en & He & Hid). unfold Allocate. hm_run. destruct (AllocatePool st1 []) as [p|] eqn:Ep; simpl.
  2:{ right. exists EFI_OUT_OF_RESOURCES, 0, st1. split_and!; [done|done|done|done|]. left. split; [done|]. apply Hmem. by left. }
  pose proof (AllocatePool_unused st1 [] p Ep) as Hu. rewrite (proj2 (Z.eqb_neq p 0)) by apply Hu.
  pose proof (InstallRest_run st1 Given e en p Protocol i NotifyThem I1 Hl1 He Hid Hu) as HR. cbv zeta in HR.
  destruct HR as [(ER & Hg & Hin)|(Status & h & st' & ER & HI & Hl' & Ha' & HX)]; [left|right].
  { split_and!; [exact ER|done|by rewrite <- Ho]. }
  exists Status, h, st'. split_and!; [exact ER|done|done|congruence|]. destruct HX as [(-> & Hnh & -> & HO)|HX].
  - left. split; [congruence|]. apply Hmem. right. split; [done|]. by exists p.
  - right. unfold Placed in *. by rewrite Ho in HX.
Qed.
End Steps.

#[export] Hint Resolve FindEntryLoop_safe FindInterfaceLoop_safe GetInterfaceLoop_safe DevicePathLoop_safe SignalLoop_safe
  FindNotifyLoop_safe ProtocolIdsLoop_safe NewHandlesLoop_safe CoreFindProtocolEntry_safe BumpKey_safe : handle.
