(* ===== verification/HandleOpen.v ===== *)
(** * The handle database: opening and closing protocols

    The rules by which CoreOpenProtocol decides, as a reference definition, and
    the parts of the services that change the open list of an interface. *)
From Stdlib Require Import ZArith Lia.
From stdpp Require Import base option gmap list sets fin_maps.
From S2P Require Import Prelude Handle HandleSet HandleInv HandleRules HandleInstall.

(** ** Open lists *)

Definition is_exclusive (D : OPEN_PROTOCOL_DATA) : bool := HasFlag (Attributes D) EFI_OPEN_PROTOCOL_EXCLUSIVE.
Definition is_weak (D : OPEN_PROTOCOL_DATA) : bool :=
  HasFlag (Attributes D)
    (Z.lor EFI_OPEN_PROTOCOL_BY_HANDLE_PROTOCOL (Z.lor EFI_OPEN_PROTOCOL_GET_PROTOCOL EFI_OPEN_PROTOCOL_TEST_PROTOCOL)).

(** The item of the same agent, controller and attributes. *)
Definition is_exact (Image Controller Attrs : Z) (D : OPEN_PROTOCOL_DATA) : bool :=
  (AgentHandle D =? Image) && (Attributes D =? Attrs) && (ControllerHandle D =? Controller).

(** The count of the first item of a kind goes up. *)
Fixpoint count_first (P : OPEN_PROTOCOL_DATA -> bool) (l : list OPEN_PROTOCOL_DATA) : list OPEN_PROTOCOL_DATA :=
  match l with
  | [] => []
  | D :: l => if P D then SetOpenCount ((OpenCount D + 1) mod 2 ^ 32) D :: l else D :: count_first P l
  end.

(** The scan in one expression. *)
Lemma ScanOpenList_spec Image Controller Attrs l :
  forall ByDriver Exclusive Seen,
  ScanOpenList Image Controller Attrs ByDriver Exclusive Seen l =
  if existsb (is_exact Image Controller Attrs) l && HasFlag Attrs EFI_OPEN_PROTOCOL_BY_DRIVER
  then ScanStop EFI_ALREADY_STARTED (Seen ++ l)
  else if existsb (is_exact Image Controller Attrs) l && negb (HasFlag Attrs EFI_OPEN_PROTOCOL_EXCLUSIVE)
  then ScanStop EFI_SUCCESS (Seen ++ count_first (is_exact Image Controller Attrs) l)
  else ScanEnd (ByDriver || existsb is_driver l) (Exclusive || existsb is_exclusive l).
Proof.
  induction l as [|D l IH]; intros ByDriver Exclusive Seen; simpl; [by rewrite !orb_false_r|].
  fold (is_exact Image Controller Attrs D) (is_driver D) (is_exclusive D). rewrite !IH, <- !app_assoc. simpl.
  destruct (is_exact Image Controller Attrs D) eqn:Ex; simpl.
  - assert (Attributes D = Attrs) as HA by (unfold is_exact in Ex; bool_to_Z; done).
    unfold is_driver, is_exclusive. rewrite HA.
    destruct (HasFlag Attrs EFI_OPEN_PROTOCOL_BY_DRIVER), (HasFlag Attrs EFI_OPEN_PROTOCOL_EXCLUSIVE); simpl; try done.
    rewrite andb_false_r, !orb_false_r. simpl. by destruct (existsb (is_exact _ _ _) l), Exclusive.
  - rewrite andb_false_r. simpl. by destruct (is_exclusive D), Exclusive; simpl; rewrite ?orb_assoc, ?orb_true_r.
Qed.

Lemma drivers_app l k : drivers (l ++ k) = (drivers l + drivers k)%nat.
Proof. unfold drivers. by rewrite filter_app, length_app. Qed.
Lemma drivers_cons D l : drivers (D :: l) = ((if is_driver D then 1 else 0) + drivers l)%nat.
Proof. unfold drivers. rewrite filter_cons. by destruct (is_driver D). Qed.
Lemma drivers_none l : existsb is_driver l = false -> drivers l = 0%nat.
Proof. induction l as [|D l IH]; [done|]. rewrite drivers_cons. simpl. by destruct (is_driver D). Qed.
Lemma drivers_zero l : drivers l = 0%nat -> existsb is_driver l = false.
Proof. induction l as [|D l IH]; [done|]. rewrite drivers_cons. simpl. by destruct (is_driver D). Qed.
Lemma drivers_filter (P : OPEN_PROTOCOL_DATA -> Prop) `{!forall D, Decision (P D)} l : (drivers (filter P l) <= drivers l)%nat.
Proof.
  induction l as [|D l IH]; [done|]. rewrite filter_cons, drivers_cons. destruct (decide (P D)); [rewrite drivers_cons|]; lia.
Qed.

Lemma count_first_length P l : length (count_first P l) = length l.
Proof. induction l as [|D l IH]; [done|]. simpl. destruct (P D); simpl; by rewrite ?IH. Qed.
Lemma count_first_drivers P l : drivers (count_first P l) = drivers l.
Proof. induction l as [|D l IH]; [done|]. simpl. destruct (P D); by rewrite !drivers_cons, ?IH. Qed.

Lemma FindDriverItem_None l : FindDriverItem l = None <-> existsb is_driver l = false.
Proof. induction l as [|D l IH]; [done|]. simpl. fold (is_driver D). by destruct (is_driver D). Qed.

(** The counter follows the removal of items. *)
Lemma sub64_count n k : sub64 (u64 (n + Z.of_nat (S k))) 1 = u64 (n + Z.of_nat k).
Proof. unfold sub64, u64. rewrite Zminus_mod_idemp_l. f_equal. lia. Qed.

Definition closes (Agent Controller : Z) (D : OPEN_PROTOCOL_DATA) : bool :=
  (AgentHandle D =? Agent) && (ControllerHandle D =? Controller).

Lemma CloseLoop_spec Agent Controller l : forall n,
  CloseLoop Agent Controller l (u64 (n + Z.of_nat (length l))) =
  (filter (fun D => closes Agent Controller D = false) l,
   u64 (n + Z.of_nat (length (filter (fun D => closes Agent Controller D = false) l))),
   if existsb (closes Agent Controller) l then EFI_SUCCESS else EFI_NOT_FOUND).
Proof.
  induction l as [|D l IH]; intros n; [done|]. cbn [CloseLoop length]. rewrite filter_cons. cbn [existsb].
  fold (closes Agent Controller D). destruct (closes Agent Controller D); simpl.
  - by rewrite sub64_count, IH.
  - replace (n + Z.of_nat (S (length l))) with ((n + 1) + Z.of_nat (length l)) by lia. rewrite IH.
    simpl. do 3 f_equal. lia.
Qed.

(** The items that are not removed with an interface. *)
Definition strong_items (l : list OPEN_PROTOCOL_DATA) : list OPEN_PROTOCOL_DATA := filter (fun D => is_weak D = false) l.

Lemma RemoveWeakItems_spec l : forall n,
  RemoveWeakItems l (u64 (n + Z.of_nat (length l))) = (strong_items l, u64 (n + Z.of_nat (length (strong_items l)))).
Proof.
  unfold strong_items. induction l as [|D l IH]; intros n; [done|]. cbn [RemoveWeakItems length]. rewrite filter_cons.
  fold (is_weak D). destruct (is_weak D); simpl.
  - by rewrite sub64_count, IH.
  - replace (n + Z.of_nat (S (length l))) with ((n + 1) + Z.of_nat (length l)) by lia. rewrite IH.
    simpl. do 2 f_equal. lia.
Qed.

(** The values of [Attributes] that CoreOpenProtocol accepts. *)
Definition ValidAttributes (Attrs : Z) : bool :=
  (Attrs =? EFI_OPEN_PROTOCOL_BY_CHILD_CONTROLLER) || (Attrs =? EFI_OPEN_PROTOCOL_BY_DRIVER) ||
  (Attrs =? Z.lor EFI_OPEN_PROTOCOL_BY_DRIVER EFI_OPEN_PROTOCOL_EXCLUSIVE) || (Attrs =? EFI_OPEN_PROTOCOL_EXCLUSIVE) ||
  (Attrs =? EFI_OPEN_PROTOCOL_BY_HANDLE_PROTOCOL) || (Attrs =? EFI_OPEN_PROTOCOL_GET_PROTOCOL) ||
  (Attrs =? EFI_OPEN_PROTOCOL_TEST_PROTOCOL).

(** Accepted attributes with the flag for drivers. *)
Lemma driver_attributes Attrs :
  ValidAttributes Attrs = true -> HasFlag Attrs EFI_OPEN_PROTOCOL_BY_DRIVER = true ->
  (Attrs =? EFI_OPEN_PROTOCOL_BY_DRIVER) = true \/
  (Attrs =? EFI_OPEN_PROTOCOL_BY_DRIVER) = false /\ (Attrs =? Z.lor EFI_OPEN_PROTOCOL_BY_DRIVER EFI_OPEN_PROTOCOL_EXCLUSIVE) = true.
Proof.
  unfold ValidAttributes. intros HV HF. repeat (apply orb_true_iff in HV as [HV|HV]); apply Z.eqb_eq in HV; subst Attrs;
    first [done|by left|by right].
Qed.

Section Opening.
Context {HS : Type} {Ops : HandleSetOps HS} {SetOk : HandleSetOk HS} {Env : Environment HS} {EnvOk : EnvironmentOk HS}.
Implicit Types st : HandleState HS.

Lemma CoreValidateHandle_safe h : LockSafe (CoreValidateHandle h).
Proof using. unfold CoreValidateHandle. safe. Qed.

Lemma CheckOpenAttributes_safe u i c a : LockSafe (CheckOpenAttributes u i c a).
Proof using. unfold CheckOpenAttributes. pose proof CoreValidateHandle_safe. safe. Qed.

Lemma CheckOpenAttributes_invalid u i c a :
  ValidAttributes a = false -> CheckOpenAttributes u i c a = mret EFI_INVALID_PARAMETER.
Proof using.
  unfold ValidAttributes, CheckOpenAttributes. intros Hv. repeat (apply orb_false_iff in Hv as [Hv ?]).
  by repeat match goal with H : (_ =? _) = false |- _ => rewrite H; clear H end.
Qed.

(** Asking the driver of an item that was found before the lock was dropped. *)
Lemma AskDriver_safe u p D : Safe (Agent ← ReadAgentHandle p D; CoreDisconnectController u Agent).
Proof using EnvOk.
  apply Safe_bind; [|intros Agent; apply CoreDisconnectController_safe]. unfold ReadAgentHandle.
  apply Safe_bind; [|intros prot; apply Safe_bind; [apply Safe_assert|intros _; apply Safe_ret]].
  by intros High st prot st' Hst [_ ->]%deref_Done.
Qed.
#[local] Hint Resolve AskDriver_safe : handle.

(** The list after the drivers have been disconnected has no driver left. *)
Lemma DisconnectDrivers_spec fuel u p High :
  Triple (Held High) (DisconnectDrivers fuel u p) (fun Status st' => Held High st' /\
    (Status = EFI_SUCCESS -> forall prot, Interfaces st' !! p = Some prot -> drivers (OpenList prot) = 0%nat)).
Proof using EnvOk.
  induction fuel as [|fuel IH]; cbn [DisconnectDrivers]; [done|].
  eapply Triple_bind; [apply Triple_deref|]. intros prot. destruct (FindDriverItem (OpenList prot)) as [D|] eqn:ED.
  - eapply Triple_pre; [by intros st [? _]|]. apply LockSafe_dropped_triple; [apply AskDriver_safe|].
    intros Status1. destruct (EFI_ERROR Status1); [|exact IH]. by intros st2 s st3 H2 [-> ->]%mret_Done.
  - intros st Status st' [Hst Hp] [-> ->]%mret_Done. split; [done|]. intros _ prot' Hp'. rewrite Hp in Hp'. injection Hp' as <-.
    by apply drivers_none, FindDriverItem_None.
Qed.

Lemma CheckOpenConflicts_spec u p a High prot :
  ValidAttributes a = true ->
  Triple (fun st => Held High st /\ Interfaces st !! p = Some prot)
    (CheckOpenConflicts u p a (existsb is_driver (OpenList prot)) (existsb is_exclusive (OpenList prot)))
    (fun Status st' => Held High st' /\ (Status = EFI_SUCCESS -> HasFlag a EFI_OPEN_PROTOCOL_BY_DRIVER = true ->
       forall prot', Interfaces st' !! p = Some prot' -> drivers (OpenList prot') = 0%nat)).
Proof using EnvOk.
  intros Hv. unfold CheckOpenConflicts.
  assert (forall (s : EFI_STATUS), (s = EFI_SUCCESS -> HasFlag a EFI_OPEN_PROTOCOL_BY_DRIVER = true -> existsb is_driver (OpenList prot) = false) ->
    Triple (fun st => Held High st /\ Interfaces st !! p = Some prot) (mret s)
     (fun Status st' => Held High st' /\ (Status = EFI_SUCCESS -> HasFlag a EFI_OPEN_PROTOCOL_BY_DRIVER = true ->
       forall prot', Interfaces st' !! p = Some prot' -> drivers (OpenList prot') = 0%nat))) as Hret.
  { intros s Hs st Status st' [Hst Hp] [-> ->]%mret_Done. split; [done|]. intros Hs1 Hf prot' Hp'.
    rewrite Hp in Hp'. injection Hp' as <-. apply drivers_none. by apply Hs. }
  destruct (Z.eqb_spec a EFI_OPEN_PROTOCOL_BY_DRIVER) as [Ea|Ea].
  { apply Hret. destruct (existsb is_driver _); [|done]. by rewrite orb_true_r. }
  destruct (_ || _) eqn:Eo.
  - destruct (existsb is_exclusive _); [by apply Hret|]. destruct (existsb is_driver _) eqn:Ed; [|by apply Hret].
    eapply Triple_pre; [by intros st [? _]|]. eapply Triple_post; [|apply DisconnectDrivers_spec]. simpl. intros s st [? Hs]. auto.
  - apply Hret. intros _ Hf. destruct (driver_attributes a Hv Hf) as [E|[_ E]]; [bool_to_Z; done|by rewrite E in Eo].
Qed.

Lemma OpenInterface_safe u p Image Controller a : ValidAttributes a = true -> LockSafe (OpenInterface u p Image Controller a).
Proof using EnvOk.
  intros Hv High. unfold OpenInterface. eapply Triple_bind; [apply Triple_deref|]. intros prot. rewrite ScanOpenList_spec. simpl.
  assert (forall l, length l = length (OpenList prot) -> drivers l = drivers (OpenList prot) -> forall s : EFI_STATUS,
    Triple (fun st => Held High st /\ Interfaces st !! p = Some prot)
      (UpdateInterface p (SetOpenList l (OpenListCount prot)) ;; mret s) (fun _ => Held High)) as Hupd.
  { intros l Hlen Hdr s st r st' [Hst Hp] ([] & st1 & E & [-> ->]%mret_Done)%HM_bind_Done.
    eapply UpdateInterface_held with (6 := E); [exact Hst|exact Hp|done|done|].
    destruct Hst as [[L _] _]. destruct (linked_opens _ _ _ _ _ _ _ L p prot Hp) as [Hc Hd]. split; simpl; [by rewrite Hlen|by rewrite Hdr]. }
  destruct (_ && _); [by apply Hupd|]. destruct (_ && _); [apply Hupd; [apply count_first_length|apply count_first_drivers]|].
  eapply Triple_bind; [by apply CheckOpenConflicts_spec|]. intros Status st r st' [Hst Hd] E.
  destruct (EFI_ERROR Status) eqn:Es; [by apply mret_Done in E as [_ ->]|]. apply EFI_ERROR_false in Es. specialize (Hd Es).
  destruct (Image =? 0); [by apply mret_Done in E as [_ ->]|]. apply HM_bind_Done in E as (o & st1 & [_ ->]%gets_Done & E).
  destruct (o =? 0); [by apply mret_Done in E as [_ ->]|]. apply HM_bind_Done in E as (prot' & st1 & [Hp ->]%deref_Done & E).
  apply HM_bind_Done in E as ([] & st1 & E & [-> ->]%mret_Done).
  eapply UpdateInterface_held with (6 := E); [exact Hst|exact Hp|done|done|].
  destruct Hst as [[L _] _]. destruct (linked_opens _ _ _ _ _ _ _ L p prot' Hp) as [Hc Hd']. split; simpl.
  - rewrite Hc, length_app. unfold add64, u64. rewrite Zplus_mod_idemp_l. f_equal. simpl. lia.
  - rewrite drivers_app, drivers_cons. change (drivers []) with 0%nat. unfold is_driver. simpl. destruct (HasFlag a EFI_OPEN_PROTOCOL_BY_DRIVER); [|simpl; lia].
    rewrite (Hd eq_refl prot' Hp). simpl. lia.
Qed.

Lemma CoreGetProtocolInterface_safe u Protocol : LockSafe (CoreGetProtocolInterface (HS:=HS) u Protocol).
Proof using. unfold CoreGetProtocolInterface. safe. Qed.

#[local] Hint Resolve CoreValidateHandle_safe CheckOpenAttributes_safe CoreGetProtocolInterface_safe : handle.

Lemma CoreOpenProtocol_safe u Protocol given Image Controller a : Safe (CoreOpenProtocol u Protocol given Image Controller a).
Proof using EnvOk.
  unfold CoreOpenProtocol. destruct (ValidAttributes a) eqn:Hv.
  - pose proof (fun p => OpenInterface_safe u p Image Controller a Hv). safe.
  - rewrite (CheckOpenAttributes_invalid u Image Controller a Hv). safe.
Qed.

(** Removing items from an open list. *)
Lemma filter_open_held High st p prot (P : OPEN_PROTOCOL_DATA -> Prop) `{!forall D, Decision (P D)} u st' :
  Held High st -> Interfaces st !! p = Some prot ->
  UpdateInterface p (SetOpenList (filter P (OpenList prot)) (u64 (Z.of_nat (length (filter P (OpenList prot)))))) st = Done (u, st') ->
  Held High st'.
Proof using.
  intros Hst Hp E. eapply UpdateInterface_held with (6 := E); [exact Hst|exact Hp|done|done|]. split; [done|].
  destruct Hst as [[L _] _]. destruct (linked_opens _ _ _ _ _ _ _ L p prot Hp) as [_ Hd]. simpl.
  pose proof (drivers_filter P (OpenList prot)). lia.
Qed.

Lemma Held_count High st p prot : Held High st -> Interfaces st !! p = Some prot ->
  OpenListCount prot = u64 (0 + Z.of_nat (length (OpenList prot))).
Proof using. intros [[L _] _] Hp. by destruct (linked_opens _ _ _ _ _ _ _ L p prot Hp) as [-> _]. Qed.

Lemma CloseStep_safe Agent Controller p :
  LockSafe (prot ← deref (HS:=HS) Interfaces p;
            let '(Kept, Count, Status) := CloseLoop Agent Controller (OpenList prot) (OpenListCount prot) in
            UpdateInterface p (SetOpenList Kept Count) ;; mret Status).
Proof using.
  intros High st s st' Hst (prot & st1 & [Hp ->]%deref_Done & E)%HM_bind_Done.
  rewrite (Held_count High st p prot Hst Hp), CloseLoop_spec in E. apply HM_bind_Done in E as (v & st1 & E & [-> ->]%mret_Done).
  by apply (filter_open_held High st p prot _ v st1 Hst Hp E).
Qed.

Lemma WeakStep_safe p :
  LockSafe (prot ← deref (HS:=HS) Interfaces p;
            let '(Kept, Count) := RemoveWeakItems (OpenList prot) (OpenListCount prot) in
            UpdateInterface p (SetOpenList Kept Count)).
Proof using.
  intros High st s st' Hst (prot & st1 & [Hp ->]%deref_Done & E)%HM_bind_Done.
  rewrite (Held_count High st p prot Hst Hp), RemoveWeakItems_spec in E.
  by apply (filter_open_held High st p prot _ s st' Hst Hp E).
Qed.

#[local] Hint Resolve CloseStep_safe WeakStep_safe : handle.

Lemma CoreCloseProtocol_safe u Protocol Agent Controller : Safe (CoreCloseProtocol u Protocol Agent Controller).
Proof using EnvOk. unfold CoreCloseProtocol. safe. Qed.

Lemma CoreOpenProtocolInformation_safe u Protocol : Safe (CoreOpenProtocolInformation u Protocol).
Proof using EnvOk. unfold CoreOpenProtocolInformation. safe. Qed.

Lemma DisconnectLoop_safe fuel u p : LockSafe (DisconnectLoop fuel u p).
Proof using EnvOk. induction fuel as [|fuel IH]; cbn [DisconnectLoop]; safe. Qed.
#[local] Hint Resolve DisconnectLoop_safe : handle.

Lemma CoreDisconnectControllersUsingProtocolInterface_safe u p : LockSafe (CoreDisconnectControllersUsingProtocolInterface u p).
Proof using EnvOk. unfold CoreDisconnectControllersUsingProtocolInterface. safe. Qed.
End Opening.

#[export] Hint Resolve CoreValidateHandle_safe CoreGetProtocolInterface_safe CoreOpenProtocol_safe CoreCloseProtocol_safe
  CoreOpenProtocolInformation_safe CoreDisconnectControllersUsingProtocolInterface_safe : handle.
