(* ===== verification/HandleUninstall.v ===== *)
(** * The handle database: removal

    Removing an interface from its protocol and its handle, and replacing it:
    the database stays in order, and exactly that interface is withdrawn. *)
From Stdlib Require Import ZArith Lia.
From stdpp Require Import base option gmap list sets fin_maps.
From S2P Require Import Prelude Handle HandleSet HandleInv HandleRules HandleInstall HandleOpen.

(** ** The abstract operations *)

(** The list without the first occurrence of an element. *)
Fixpoint remove_one (o : Z * Z) (l : list (Z * Z)) : list (Z * Z) :=
  match l with
  | [] => []
  | x :: l => if decide (x = o) then l else x :: remove_one o l
  end.

(** A handle stops to offer an interface; if it was the last, it goes away. *)
Definition withdraw (h : Z) (o : Z * Z) (D : gmap Z (list (Z * Z))) : gmap Z (list (Z * Z)) :=
  match remove_one o (default [] (D !! h)) with
  | [] => delete h D
  | l => <[h := l]> D
  end.

(** A handle offers an interface in the place of another. *)
Fixpoint replace_one (o n : Z * Z) (l : list (Z * Z)) : list (Z * Z) :=
  match l with
  | [] => []
  | x :: l => if decide (x = o) then n :: l else x :: replace_one o n l
  end.
Definition replace_offer (h : Z) (o n : Z * Z) (D : gmap Z (list (Z * Z))) : gmap Z (list (Z * Z)) :=
  <[h := replace_one o n (default [] (D !! h))]> D.

Lemma omap_replace (f g : Z -> option (Z * Z)) o n l p :
  NoDup l -> (forall q, q ∈ l -> is_Some (f q)) -> head (filter (fun q => f q = Some o) l) = Some p ->
  g p = Some n -> (forall q, q ≠ p -> g q = f q) -> omap g l = replace_one o n (omap f l).
Proof.
  intros Hn Hf Hh Hgp Hg. induction l as [|q l IH]; [done|]. apply NoDup_cons in Hn as [Hq Hn].
  destruct (Hf q) as [x Hx]; [by left|]. rewrite filter_cons in Hh. csimpl. rewrite Hx in Hh |- *. csimpl.
  destruct (decide (Some x = Some o)) as [[= ->]|Hne].
  - injection Hh as ->. rewrite Hgp. rewrite decide_True by done. f_equal. apply omap_same. intros r Hr. apply Hg. by intros ->.
  - assert (p ∈ l) as Hp.
    { assert (p ∈ filter (λ q, f q = Some o) l) as Hin by (destruct (filter _ l); [done|]; injection Hh as ->; by left).
      apply list_elem_of_filter in Hin. tauto. }
    rewrite Hg by congruence. rewrite Hx, decide_False by congruence. f_equal.
    apply IH; [done| |done]. intros r Hr. apply Hf. by right.
Qed.

Lemma omap_remove_link (f : Z -> option (Z * Z)) o l p :
  NoDup l -> (forall q, q ∈ l -> is_Some (f q)) -> head (filter (fun q => f q = Some o) l) = Some p ->
  omap f (remove_link p l) = remove_one o (omap f l).
Proof.
  intros Hn Hf. induction l as [|q l IH]; [done|]. rewrite filter_cons. apply NoDup_cons in Hn as [Hq Hn].
  destruct (Hf q) as [x Hx]; [by left|]. unfold remove_link in *. rewrite filter_cons. csimpl. rewrite Hx. csimpl.
  destruct (decide (Some x = Some o)) as [[= ->]|Hne].
  - intros [= ->]. rewrite (decide_False (P := p ≠ p)) by tauto. rewrite decide_True by done. f_equal. clear -Hq.
    induction l as [|r l IH]; [done|]. apply not_elem_of_cons in Hq as [Hr Hq]. rewrite filter_cons_True by done. by rewrite IH.
  - intros Hh. assert (p ∈ l) as Hp.
    { assert (p ∈ filter (λ q, f q = Some o) l) as Hin by (destruct (filter _ l); [done|]; injection Hh as ->; by left).
      apply list_elem_of_filter in Hin. tauto. }
    rewrite decide_True by congruence. csimpl. rewrite Hx. rewrite decide_False by congruence. f_equal.
    apply IH; [done| |done]. intros r Hr. apply Hf. by right.
Qed.

Section Removal.
Context {HS : Type} {Ops : HandleSetOps HS} {SetOk : HandleSetOk HS} {Env : Environment HS} {EnvOk : EnvironmentOk HS}.
Implicit Types st : HandleState HS.

(** The notifications of a list are moved back. *)
Definition back_up_in (l : list Z) (p : Z) (b : option Z) (N : gmap Z PROTOCOL_NOTIFY) : gmap Z PROTOCOL_NOTIFY :=
  map_imap (fun n x => Some (if decide (n ∈ l) then back_up p b x else x)) N.

Lemma BackUpLoop_in p b l st :
  NoDup l -> (forall n, n ∈ l -> is_Some (Notifies st !! n)) ->
  BackUpLoop p b l st = Done (tt, SetNotifies (back_up_in l p b (Notifies st)) st).
Proof using.
  revert st. induction l as [|n l IH]; intros st Hn Hl.
  { simpl. unfold mret, HM_ret. do 2 f_equal. unfold back_up_in.
    assert (map_imap (fun n x => Some (if decide (n ∈ []) then back_up p b x else x)) (Notifies st) = Notifies st) as ->;
      [|by destruct st].
    apply map_eq. intros m. rewrite map_lookup_imap. by destruct (Notifies st !! m). }
  apply NoDup_cons in Hn as [Hn Hn']. destruct (Hl n) as [x Hx]; [by left|]. simpl. hm_run.
  assert (exists st1, (if bool_decide (Position x = Some p) then UpdateNotify n (SetPosition b) else mret tt) st = Done (tt, st1) /\
    st1 = SetNotifies (<[n := back_up p b x]> (Notifies st)) st) as (st1 & E & ->).
  { unfold back_up, UpdateNotify. destruct (bool_decide _); [eexists; hm_run; done|]. eexists. split; [done|].
    rewrite insert_id by done. by destruct st. }
  rewrite (HM_bind_run _ _ _ _ _ E). rewrite IH; [|done|].
  - do 2 f_equal. simpl. assert (back_up_in l p b (<[n := back_up p b x]> (Notifies st)) = back_up_in (n :: l) p b (Notifies st)) as ->; [|done].
    unfold back_up_in. apply map_eq. intros m. rewrite !map_lookup_imap, lookup_insert. destruct (decide (n = m)) as [<-|Hm].
    + rewrite Hx. simpl. rewrite decide_False by done. by rewrite decide_True by (by left).
    + destruct (Notifies st !! m); [|done]. simpl. f_equal. destruct (decide (m ∈ l)); [rewrite decide_True by (by right)|rewrite decide_False]; [done|done|].
      by intros [?|?]%elem_of_cons.
  - intros m Hm. simpl. rewrite lookup_insert_ne by congruence. apply Hl. by right.
Qed.

Lemma BackUpLoop_run st e en p b :
  Linked st -> Entries st !! e = Some en -> p ∈ EntryProtocols en ->
  BackUpLoop p b (Notify en) st = Done (tt, SetNotifies (back_up p b <$> Notifies st) st).
Proof using.
  intros L He Hp. destruct (linked_notifies _ _ _ _ _ _ _ L e) as [Hn Hin]. rewrite (notify_links_Some _ _ _ He) in Hn, Hin.
  rewrite BackUpLoop_in; [|done|intros n; by apply (Linked_notifies st e en)]. do 2 f_equal.
  assert (back_up_in (Notify en) p b (Notifies st) = back_up p b <$> Notifies st) as ->; [|done].
  apply map_eq. intros n. unfold back_up_in. rewrite map_lookup_imap, lookup_fmap. destruct (Notifies st !! n) as [x|] eqn:Ex; [|done].
  simpl. f_equal. destruct (decide (n ∈ Notify en)) as [|Hnot]; [done|]. unfold back_up. rewrite bool_decide_eq_false_2; [done|].
  intros Hx. apply Hnot, Hin. rewrite Ex. simpl. f_equal. pose proof (linked_position _ _ _ _ _ _ _ L n x p Ex Hx) as Hpos.
  destruct (linked_by_entry _ _ _ _ _ _ _ L (NotifyProtocol x)) as [_ H1]. destruct (linked_by_entry _ _ _ _ _ _ _ L e) as [_ H2].
  rewrite (entry_links_Some _ _ _ He) in H2. apply H1 in Hpos. apply H2 in Hp. congruence.
Qed.

(** The state after the interface [p] was taken off its entry. *)
Definition UnlinkEntry (e : Z) (en : PROTOCOL_ENTRY) (p : Z) st : HandleState HS :=
  SetDatabase (mProtocolDatabase st) (<[e := SetEntryProtocols (remove_link p (EntryProtocols en)) en]> (Entries st))
    (SetNotifies (back_up p (back_link None p (EntryProtocols en)) <$> Notifies st) st).

Lemma offering_Some st h hd o p :
  Linked st -> Handles st !! h = Some hd -> offering st hd o = Some p ->
  p ≠ 0 /\ p ∈ Protocols hd /\ offer st p = Some o /\
  exists prot en, Interfaces st !! p = Some prot /\ ProtHandle prot = h /\ Entries st !! ProtProtocol prot = Some en /\ p ∈ EntryProtocols en.
Proof using.
  intros L Hh Ho. unfold offering in Ho. assert (p ∈ filter (λ q, offer st q = Some o) (Protocols hd)) as Hin.
  { destruct (filter _ _); [done|]. injection Ho as ->. by left. }
  apply list_elem_of_filter in Hin as [Hp Hin]. destruct (Linked_interface st h hd p L Hh Hin) as (Hp0 & Hs). done.
Qed.

Lemma CoreRemoveInterfaceFromProtocol_run st h hd Protocol i p prot en :
  Linked st -> Locked st = true -> Handles st !! h = Some hd -> offering st hd (Protocol, i) = Some p ->
  Interfaces st !! p = Some prot -> Entries st !! ProtProtocol prot = Some en -> p ∈ EntryProtocols en ->
  CoreRemoveInterfaceFromProtocol h Protocol i st = Done (p, UnlinkEntry (ProtProtocol prot) en p st).
Proof using.
  intros L Hl Hh Ho Hp He Hin. unfold CoreRemoveInterfaceFromProtocol.
  rewrite (HM_bind_run _ _ st tt st) by (by apply ASSERT_LOCKED_run).
  rewrite (HM_bind_run _ _ _ _ _ (CoreFindProtocolInterface_run st h hd Protocol i L Hl Hh)).
  destruct (offering_Some st h hd _ p L Hh Ho) as (Hp0 & _). unfold offering in Ho. rewrite Ho. cbn [from_option id].
  rewrite (proj2 (Z.eqb_neq p 0)) by done. cbn [negb]. hm_run.
  rewrite (HM_bind_run _ _ _ _ _ (BackUpLoop_run st _ en p _ L He Hin)). unfold UpdateEntry. by hm_run.
Qed.

Lemma CoreRemoveInterfaceFromProtocol_none st h hd Protocol i :
  Linked st -> Locked st = true -> Handles st !! h = Some hd -> offering st hd (Protocol, i) = None ->
  CoreRemoveInterfaceFromProtocol h Protocol i st = Done (0, st).
Proof using.
  intros L Hl Hh Ho. unfold CoreRemoveInterfaceFromProtocol.
  rewrite (HM_bind_run _ _ st tt st) by (by apply ASSERT_LOCKED_run).
  rewrite (HM_bind_run _ _ _ _ _ (CoreFindProtocolInterface_run st h hd Protocol i L Hl Hh)).
  unfold offering in Ho. by rewrite Ho.
Qed.

(** The state after the interface was taken off its handle too. *)
Definition UnlinkHandle (h : Z) (hd : IHANDLE) (p : Z) st : HandleState HS :=
  SetInterfaces (delete p (Interfaces st))
    (SetHandles (<[h := MkHandle (remove_link p (Protocols hd)) (LocateRequest hd) (add64 (gHandleDatabaseKey st) 1)]> (Handles st))
      (SetDatabaseKey (add64 (gHandleDatabaseKey st) 1) st)).

Lemma Unlink_linked st h hd p prot e en :
  Linked st -> Handles st !! h = Some hd -> Interfaces st !! p = Some prot -> ProtHandle prot = h -> ProtProtocol prot = e ->
  Entries st !! e = Some en -> p ∈ EntryProtocols en ->
  Linked (UnlinkHandle h hd p (UnlinkEntry e en p st)).
Proof using.
  intros L Hh Hp Hph Hpe He Hin. destruct (linked_by_entry _ _ _ _ _ _ _ L e) as [Hn _]. rewrite (entry_links_Some _ _ _ He) in Hn.
  unfold Linked. simpl. rewrite fmap_insert. simpl. apply Linked_remove_interface with (y := prot); [|done..|by rewrite lookup_fmap, Hh|done|].
  - apply Linked_back_up with (e := e); [exact L|by rewrite (entry_links_Some _ _ _ He)|].
    intros q Hq. rewrite (entry_links_Some _ _ _ He). by destruct (back_link_elem p _ None Hin Hn q Hq) as [|[? _]].
  - intros n z (x & <- & _)%lookup_fmap_Some. unfold back_up. destruct (bool_decide_reflect (Position x = Some p)) as [Ep|Ep]; [|done].
    simpl. intros Hb. by destruct (back_link_elem p _ None Hin Hn p Hb) as [|[_ ?]].
Qed.

Lemma RemoveFromHandle_run st h hd p :
  Handles st !! h = Some hd -> p ≠ 0 -> Linked (UnlinkHandle h hd p st) ->
  exists st', RemoveFromHandle h p st = Done (EFI_SUCCESS, st') /\ Linked st' /\
    Entries st' = Entries st /\ Interfaces st' = delete p (Interfaces st) /\ Locked st' = Locked st /\ AtNotify st' = AtNotify st /\
    Handles st' = (if decide (remove_link p (Protocols hd) = []) then delete h (Handles st) else Handles (UnlinkHandle h hd p st)).
Proof using.
  intros Hh Hp L. unfold RemoveFromHandle. rewrite (proj2 (Z.eqb_neq p 0)) by done. cbn [negb].
  unfold BumpKey, UpdateHandle. hm_run. cbn. rewrite insert_insert_eq. unfold SetProtocols, SetKey. cbn [LocateRequest Key Protocols].
  change (SetInterfaces _ _) with (UnlinkHandle h hd p st).
  fold (remove_link p (Protocols hd)).
  destruct (decide (remove_link p (Protocols hd) = [])) as [Enil|Enil];
    [rewrite bool_decide_eq_true_2 by done|rewrite bool_decide_eq_false_2 by done].
  2:{ exists (UnlinkHandle h hd p st). by split_and!. }
  hm_run. pose proof (linked_handles _ _ _ _ _ _ _ L) as (_ & _ & Hs).
  assert (h ∈ dom (Protocols <$> Handles (UnlinkHandle h hd p st))) as Hin.
  { simpl. rewrite fmap_insert. apply elem_of_dom. by rewrite lookup_insert_eq. }
  destruct (SetOf_find _ _ h Hs) as (Entry & Ef & _). rewrite (HM_bind_run _ _ _ Entry _) by (unfold lift; by rewrite Ef).
  destruct (SetOf_delete _ _ h Entry Hs Hin Ef) as (s' & Ed & Hs'). hm_run.
  rewrite (HM_bind_run _ _ _ s' _) by (unfold lift; by rewrite Ed).
  hm_run. eexists. split; [done|]. split; [|simpl; by rewrite delete_insert_eq]. unfold Linked. simpl. rewrite fmap_delete.
  apply Linked_remove_handle with (1 := L); [|done]. simpl. by rewrite lookup_fmap, lookup_insert_eq, <- Enil.
Qed.

Lemma offering_None st h hd o : Handles st !! h = Some hd -> offering st hd o = None <-> o ∉ default [] (offers st !! h).
Proof using.
  intros Hh. rewrite (offers_Some st h hd Hh). simpl. unfold offering. rewrite list_elem_of_omap. split.
  - intros Hn (q & Hq & Ho). assert (q ∈ filter (λ q, offer st q = Some o) (Protocols hd)) as Hin by (by apply list_elem_of_filter).
    destruct (filter _ _); [by apply elem_of_nil in Hin|done].
  - intros Hn. destruct (filter _ _) as [|q l] eqn:E; [done|]. destruct Hn.
    assert (q ∈ filter (λ q, offer st q = Some o) (Protocols hd)) as Hin by (rewrite E; by left).
    apply list_elem_of_filter in Hin as [? ?]. by exists q.
Qed.

(** What the handles offer after an interface was removed. *)
Lemma offers_removed st st' h hd p prot e en o :
  Linked st -> Handles st !! h = Some hd -> offering st hd o = Some p -> Interfaces st !! p = Some prot -> ProtHandle prot = h ->
  Entries st !! e = Some en -> Entries st' = <[e := SetEntryProtocols (remove_link p (EntryProtocols en)) en]> (Entries st) ->
  Interfaces st' = delete p (Interfaces st) ->
  Handles st' = (if decide (remove_link p (Protocols hd) = []) then delete h (Handles st)
                 else <[h := MkHandle (remove_link p (Protocols hd)) (LocateRequest hd) (add64 (gHandleDatabaseKey st) 1)]> (Handles st)) ->
  offers st' = withdraw h o (offers st).
Proof using.
  intros L Hh Ho Hp Hph He HE HI HH.
  assert (forall q, q ≠ p -> offer st' q = offer st q) as Hq.
  { intros q Hne. unfold offer. rewrite HE, HI, lookup_delete_ne by done. destruct (Interfaces st !! q) as [x|]; [|done]. simpl.
    destruct (decide (e = ProtProtocol x)) as [<-|]; [by rewrite lookup_insert_eq, He|by rewrite lookup_insert_ne]. }
  assert (omap (offer st') (remove_link p (Protocols hd)) = remove_one o (omap (offer st) (Protocols hd))) as Hrem.
  { rewrite <- (omap_remove_link (offer st) o (Protocols hd) p); [|  |by apply (Linked_offers st h)|exact Ho].
    - apply omap_same. intros q [? _]%elem_of_remove_link. by apply Hq.
    - destruct (linked_by_handle _ _ _ _ _ _ _ L h) as [Hn _]. unfold links in Hn. by rewrite lookup_fmap, Hh in Hn. }
  unfold withdraw. rewrite (offers_Some st h hd Hh). simpl. rewrite <- Hrem.
  assert (forall q x, q ≠ h -> Handles st !! q = Some x -> omap (offer st') (Protocols x) = omap (offer st) (Protocols x)) as Hl.
  { intros q x Hqh Hx. apply omap_same. intros r Hr. apply Hq. intros ->.
    destruct (Linked_interface st q x p L Hx Hr) as (_ & prot' & _ & Ep & Eh & _). congruence. }
  assert (forall q, q ∈ remove_link p (Protocols hd) -> is_Some (offer st' q)) as Hsome.
  { intros q [Hne Hin]%elem_of_remove_link. rewrite Hq by done. by apply (Linked_offers st h hd L Hh). }
  unfold offers. rewrite HH. destruct (remove_link p (Protocols hd)) as [|r l] eqn:Er.
  - rewrite decide_True by done. simpl. apply map_eq. intros q. destruct (decide (h = q)) as [<-|Hne].
    + by rewrite lookup_fmap, !lookup_delete_eq.
    + rewrite lookup_fmap, !lookup_delete_ne, lookup_fmap by done. destruct (Handles st !! q) as [x|] eqn:Ex; [|done].
      simpl. f_equal. by apply (Hl q).
  - rewrite decide_False by done. destruct (omap (offer st') (r :: l)) as [|x y] eqn:Eo.
    { destruct (Hsome r) as [x Hx]; [by left|]. csimpl in Eo. by rewrite Hx in Eo. }
    apply map_eq. intros q. destruct (decide (h = q)) as [<-|Hne].
    + rewrite lookup_fmap, !lookup_insert_eq. simpl. by rewrite <- Eo.
    + rewrite lookup_fmap, !lookup_insert_ne, lookup_fmap by done. destruct (Handles st !! q) as [z|] eqn:Ez; [|done].
      simpl. f_equal. by apply (Hl q).
Qed.

Lemma offers_replaced st st' h hd p o n :
  Linked st -> Protocols <$> Handles st' = Protocols <$> Handles st -> Handles st !! h = Some hd -> offering st hd o = Some p ->
  offer st' p = Some n -> (forall q, q ≠ p -> offer st' q = offer st q) -> offers st' = replace_offer h o n (offers st).
Proof using.
  intros L HH Hh Ho Hn Hq. unfold replace_offer. rewrite (offers_Some st h hd Hh). simpl.
  assert (forall D : HandleState HS, offers D = omap (offer D) <$> (Protocols <$> Handles D)) as Hoff.
  { intros D. unfold offers. by rewrite <- map_fmap_compose. }
  rewrite !Hoff, HH. apply map_eq. intros q. rewrite !lookup_fmap. destruct (decide (h = q)) as [<-|Hne].
  - rewrite Hh, lookup_insert_eq. simpl. f_equal.
    apply omap_replace with (p := p); [|by apply (Linked_offers st h)|done..].
    destruct (linked_by_handle _ _ _ _ _ _ _ L h) as [Hnd _]. unfold links in Hnd. by rewrite lookup_fmap, Hh in Hnd.
  - rewrite lookup_insert_ne, !lookup_fmap by done. destruct (Handles st !! q) as [x|] eqn:Ex; [|done]. simpl. f_equal.
    apply omap_same. intros r Hr. apply Hq. intros ->. destruct (Linked_interface st q x p L Ex Hr) as (_ & y & _ & Ey & Eq & _).
    destruct (offering_Some st h hd o p L Hh Ho) as (_ & _ & _ & z & _ & Ez & Eh & _). congruence.
Qed.

Lemma UninstallBody_run st h Protocol i :
  Inv st -> Locked st = true -> is_Some (Handles st !! h) ->
  exists Status st', (Prot ← CoreRemoveInterfaceFromProtocol h Protocol i; RemoveFromHandle h Prot) st = Done (Status, st') /\
    Inv st' /\ Locked st' = true /\ AtNotify st' = AtNotify st /\
    (if decide ((Protocol, i) ∈ default [] (offers st !! h))
     then Status = EFI_SUCCESS /\ offers st' = withdraw h (Protocol, i) (offers st) else Status = EFI_NOT_FOUND /\ st' = st).
Proof using.
  intros [L N] Hl [hd Hh]. destruct (offering st hd (Protocol, i)) as [p|] eqn:Ho.
  - destruct (offering_Some st h hd _ p L Hh Ho) as (Hp0 & Hin & Hof & prot & en & Hp & Hph & He & Hpe).
    rewrite (HM_bind_run _ _ _ _ _ (CoreRemoveInterfaceFromProtocol_run st h hd Protocol i p prot en L Hl Hh Ho Hp He Hpe)).
    destruct (RemoveFromHandle_run (UnlinkEntry (ProtProtocol prot) en p st) h hd p Hh Hp0) as (st' & E & L' & HE & HI & HL & HA & HH).
    { by apply (Unlink_linked st h hd p prot). }
    exists EFI_SUCCESS, st'. rewrite decide_True.
    2:{ rewrite (offers_Some st h hd Hh). simpl. apply list_elem_of_omap. by exists p. }
    split_and!; [done| |by rewrite HL|by rewrite HA|done|by apply (offers_removed st st' h hd p prot (ProtProtocol prot) en)].
    split; [done|]. intros q. rewrite lookup_fmap, HH. destruct (decide _) as [|Hn]; simpl.
    + rewrite lookup_delete. destruct (decide (h = q)); [done|]. rewrite <- lookup_fmap. apply N.
    + rewrite lookup_insert. destruct (decide (h = q)); [intros [= Hnil]; done|]. rewrite <- lookup_fmap. apply N.
  - rewrite (HM_bind_run _ _ _ _ _ (CoreRemoveInterfaceFromProtocol_none st h hd Protocol i L Hl Hh Ho)).
    exists EFI_NOT_FOUND, st. rewrite decide_False by (by apply (offering_None st h hd)). split_and!; [|done..].
    unfold RemoveFromHandle. simpl negb. cbn iota. hm_run. rewrite bool_decide_eq_false_2; [done|].
    intros Hnil. apply (N h). rewrite lookup_fmap, Hh. simpl. by rewrite Hnil.
Qed.

(** On a handle that was freed meanwhile nothing is removed. *)
Lemma CoreRemoveInterfaceFromProtocol_freed st h Protocol i p st' :
  Linked st -> Locked st = true -> Handles st !! h = None ->
  CoreRemoveInterfaceFromProtocol h Protocol i st = Done (p, st') -> p = 0 /\ st' = st.
Proof using.
  intros L Hl Hh E. unfold CoreRemoveInterfaceFromProtocol, CoreFindProtocolInterface in E.
  rewrite (HM_bind_run _ _ st tt st) in E by (by apply ASSERT_LOCKED_run).
  rewrite !bind_run, (HM_bind_run _ _ st tt st) in E by (by apply ASSERT_LOCKED_run).
  destruct (CoreFindProtocolEntry_run st Protocol L Hl) as (e & Ee & _).
  rewrite bind_run, (HM_bind_run _ _ st e st) in E by done. destruct (negb (e =? 0)).
  - rewrite bind_run in E. apply HM_bind_Done in E as (? & ? & [Hd ->]%deref_Done & _). congruence.
  - rewrite mret_run in E. by apply mret_Done in E as [-> ->].
Qed.

Lemma UninstallBody_safe h Protocol i : LockSafe (Prot ← CoreRemoveInterfaceFromProtocol h Protocol i; RemoveFromHandle h Prot).
Proof using.
  intros High st s st' (Hi & Hl & Ha) E. destruct (Handles st !! h) as [hd|] eqn:Hh.
  - destruct (UninstallBody_run st h Protocol i Hi Hl) as (s1 & st1 & E1 & I1 & L1 & A1 & _); [by rewrite Hh|].
    rewrite E1 in E. injection E as -> ->. split_and!; [done|done|congruence].
  - apply HM_bind_Done in E as (p & st1 & [-> ->]%(CoreRemoveInterfaceFromProtocol_freed st h Protocol i p st1 (proj1 Hi) Hl Hh) & E).
    unfold RemoveFromHandle in E. change (negb (0 =? 0)) with false in E. cbn iota in E. rewrite !mret_run in E.
    apply HM_bind_Done in E as (? & ? & [Hd ->]%deref_Done & _). congruence.
Qed.

(** ** Replacement *)

(** The body of CoreReinstallProtocolInterface up to the release of the lock. *)
Definition ReinstallBody {A} (h Protocol Old New : Z) (NotFound : A) (Rest : Z -> HM HS A) : HM HS A :=
  Prot ← CoreRemoveInterfaceFromProtocol h Protocol Old;
  if Prot =? 0 then mret NotFound else
  prot ← deref Interfaces Prot;
  let ProtEntry := ProtProtocol prot in
  UpdateInterface Prot (SetInterface New) ;;
  entry ← deref Entries ProtEntry;
  UpdateEntry ProtEntry (SetEntryProtocols (EntryProtocols entry ++ [Prot])) ;;
  BumpKey h ;;
  Rest ProtEntry.

(** What follows: the drivers are connected to the new interface, and then the
    notifications are signalled. *)
Definition ReinstallRest (h e : Z) : HM HS EFI_STATUS :=
  CoreReleaseProtocolLock ;;
  _ ← CoreConnectController h;
  CoreAcquireProtocolLock ;;
  CoreNotifyProtocolEntry e ;;
  mret EFI_SUCCESS.

Lemma remove_link_perm p l : NoDup l -> p ∈ l -> remove_link p l ++ [p] ≡ₚ l.
Proof using.
  intros Hn Hp. apply NoDup_Permutation; [|done|].
  - apply NoDup_snoc; [by apply NoDup_remove_link|]. rewrite elem_of_remove_link. tauto.
  - intros q. rewrite elem_of_app, elem_of_remove_link, list_elem_of_singleton. destruct (decide (q = p)) as [->|]; tauto.
Qed.

Lemma ReinstallBody_run {A} st h hd Protocol Old New p (NotFound : A) Rest :
  Inv st -> Locked st = true -> Handles st !! h = Some hd -> offering st hd (Protocol, Old) = Some p ->
  exists e st', ReinstallBody h Protocol Old New NotFound Rest st = Rest e st' /\ Inv st' /\ Locked st' = true /\
    AtNotify st' = AtNotify st /\ is_Some (Entries st' !! e) /\
    offers st' = replace_offer h (Protocol, Old) (Protocol, New) (offers st).
Proof using.
  intros [L N] Hl Hh Ho. destruct (offering_Some st h hd _ p L Hh Ho) as (Hp0 & Hin & Hof & prot & en & Hp & Hph & He & Hpe).
  unfold ReinstallBody.
  rewrite (HM_bind_run _ _ _ _ _ (CoreRemoveInterfaceFromProtocol_run st h hd Protocol Old p prot en L Hl Hh Ho Hp He Hpe)).
  rewrite (proj2 (Z.eqb_neq p 0)) by done. unfold UpdateInterface, UpdateEntry, BumpKey, UpdateHandle. hm_run. cbn.
  rewrite insert_insert_eq. cbn. eexists _, _. split; [done|].
  pose proof (entry_links_Some _ _ _ He) as Hel. destruct (linked_by_entry _ _ _ _ _ _ _ L (ProtProtocol prot)) as [Hn _]. rewrite Hel in Hn.
  split_and!; [split| | | |].
  - unfold Linked. simpl. rewrite (Protocols_same _ h hd) by done. change (SetEntryProtocols (remove_link p (EntryProtocols en) ++ [p])
      (SetEntryProtocols (remove_link p (EntryProtocols en)) en)) with (SetEntryProtocols (remove_link p (EntryProtocols en) ++ [p]) en).
    apply Linked_set_interface with (x := prot); [|done..|by apply (linked_opens _ _ _ _ _ _ _ L p prot)].
    apply Linked_permute; [|done|by apply remove_link_perm].
    apply Linked_back_up with (e := ProtProtocol prot); [exact L|by rewrite Hel|].
    intros q Hq. rewrite Hel. by destruct (back_link_elem p _ None Hpe Hn q Hq) as [|[? _]].
  - intros q. simpl. rewrite (Protocols_same _ h hd) by done. apply N.
  - done.
  - done.
  - simpl. by rewrite lookup_insert_eq.
  - set (st' := SetHandles _ _).
    assert (forall q, q ≠ p -> offer st' q = offer st q) as Hq.
    { intros q Hne. unfold offer, st'. simpl. rewrite lookup_insert_ne by done. destruct (Interfaces st !! q) as [x|]; [|done]. simpl.
      destruct (decide (ProtProtocol prot = ProtProtocol x)) as [<-|]; [by rewrite lookup_insert_eq, He|by rewrite lookup_insert_ne]. }
    assert (offer st' p = Some (Protocol, New)) as Hop.
    { unfold offer, st'. simpl. rewrite lookup_insert_eq. simpl. rewrite lookup_insert_eq. simpl.
      unfold offer in Hof. rewrite Hp in Hof. simpl in Hof. rewrite He in Hof. by injection Hof as -> _. }
    apply offers_replaced with (3 := Hh) (4 := Ho) (5 := Hop) (6 := Hq); [done|].
    apply Protocols_same with (x := hd); [done|done].
Qed.
End Removal.
