(* ===== verification/HandleSafe.v ===== *)
(** * The handle database: every service keeps it in order

    For each service: a run that returns leaves a database in order ([Inv]),
    whatever notifications and drivers do to it through the services while the
    lock is dropped. *)
From Stdlib Require Import ZArith Lia.
From stdpp Require Import base option gmap list sets fin_maps.
From S2P Require Import Prelude Handle HandleSet HandleInv HandleRules HandleInstall HandleOpen HandleUninstall.

Section Services.
Context {HS : Type} {Ops : HandleSetOps HS} {SetOk : HandleSetOk HS} {Env : Environment HS} {EnvOk : EnvironmentOk HS}.
Implicit Types st : HandleState HS.

Lemma Releases_assoc {A B C} (m : HM HS A) (f : A -> HM HS B) (k : B -> HM HS C) :
  Releases ((m ≫= f) ≫= k) -> Releases (m ≫= (fun a => f a ≫= k)).
Proof using. intros Hr High st r st' Hst E. rewrite <- bind_run in E. by apply (Hr High st r st'). Qed.

(** ** Installation and removal *)

Lemma InstallBody_safe Given Protocol i NotifyThem Status0 : LockSafe (InstallBody Given Protocol i NotifyThem Status0).
Proof using EnvOk.
  intros High st r st' (Hi & Hl & Ha) E.
  destruct (InstallBody_run st Given Protocol i NotifyThem Status0 Hi Hl) as [[E1 _]|(s & h & st1 & E1 & I1 & L1 & A1 & _)];
    rewrite E1 in E; [done|]. injection E as <- ->. split_and!; [done|done|congruence].
Qed.

Lemma CoreHandleProtocol_safe u Protocol given : Safe (CoreHandleProtocol u Protocol given).
Proof using EnvOk. apply CoreOpenProtocol_safe. Qed.
#[local] Hint Resolve CoreHandleProtocol_safe InstallBody_safe UninstallBody_safe : handle.

Lemma CoreInstallProtocolInterfaceNotify_safe u Protocol t i NotifyThem : Safe (CoreInstallProtocolInterfaceNotify u Protocol t i NotifyThem).
Proof using EnvOk.
  unfold CoreInstallProtocolInterfaceNotify. destruct u as [Given|], Protocol as [Protocol|]; [|safe..].
  safe_step; [safe|]. safe_step; [safe|]. safe_step; [safe|]. safe_step. apply Releases_assoc.
  apply Releases_bind; [apply InstallBody_safe|]. intros r. safe.
Qed.

Lemma CoreInstallProtocolInterface_safe u Protocol t i : Safe (CoreInstallProtocolInterface u Protocol t i).
Proof using EnvOk. apply CoreInstallProtocolInterfaceNotify_safe. Qed.

Lemma CoreFindProtocolInterface_safe h Protocol i : LockSafe (CoreFindProtocolInterface h Protocol i).
Proof using EnvOk. unfold CoreFindProtocolInterface. safe. Qed.
#[local] Hint Resolve CoreFindProtocolInterface_safe CoreInstallProtocolInterface_safe : handle.

Lemma CoreUninstallProtocolInterface_safe h Protocol i : Safe (CoreUninstallProtocolInterface h Protocol i).
Proof using EnvOk. unfold CoreUninstallProtocolInterface. safe. Qed.

Lemma CoreNotifyProtocolEntry_safe e : LockSafe (CoreNotifyProtocolEntry (HS:=HS) e).
Proof using. unfold CoreNotifyProtocolEntry. safe. Qed.
#[local] Hint Resolve CoreUninstallProtocolInterface_safe CoreNotifyProtocolEntry_safe : handle.

Lemma ReinstallBody_safe {A} h Protocol Old New (d : A) Rest :
  (forall e, LockSafe (Rest e)) -> LockSafe (ReinstallBody h Protocol Old New d Rest).
Proof using.
  intros HR High st r st' (Hi & Hl & Ha) E. destruct (Handles st !! h) as [hd|] eqn:Hh.
  - destruct (offering st hd (Protocol, Old)) as [p|] eqn:Ho.
    + destruct (ReinstallBody_run st h hd Protocol Old New p d Rest Hi Hl Hh Ho) as (e & st1 & E1 & I1 & L1 & A1 & _).
      rewrite E1 in E. apply (HR e High st1 r st'); [|done]. split_and!; [done|done|congruence].
    + unfold ReinstallBody in E. destruct Hi as [L N].
      rewrite (HM_bind_run _ _ _ _ _ (CoreRemoveInterfaceFromProtocol_none st h hd Protocol Old L Hl Hh Ho)) in E.
      by apply mret_Done in E as [_ ->].
  - apply HM_bind_Done in E as (p & st1 & [-> ->]%(CoreRemoveInterfaceFromProtocol_freed st h Protocol Old p st1 (proj1 Hi) Hl Hh) & E).
    by apply mret_Done in E as [_ ->].
Qed.

Lemma CoreReinstallProtocolInterface_safe h Protocol Old New : Safe (CoreReinstallProtocolInterface h Protocol Old New).
Proof using EnvOk.
  unfold CoreReinstallProtocolInterface. destruct Protocol as [Protocol|]; [|safe].
  safe_step. safe_step; [|safe]. do 2 (safe_step; [safe|]; safe_step; [safe|]). safe_step; [safe|]. safe_step; [safe|].
  apply (ReinstallBody_safe h Protocol Old New EFI_NOT_FOUND (ReinstallRest h)). intros e. unfold ReinstallRest. safe.
Qed.

(** ** Notifications *)

Lemma RegisterBody_safe Protocol Event :
  LockSafe (ProtEntry ← CoreFindProtocolEntry Protocol true;
            if negb (ProtEntry =? 0) then
              ProtNotify ← Allocate [];
              (if negb (ProtNotify =? 0) then
                 modify (fun st => SetNotifies (<[ProtNotify := MkNotify ProtEntry Event None]> (Notifies st)) st) ;;
                 entry ← deref Entries ProtEntry;
                 UpdateEntry ProtEntry (SetNotify (Notify entry ++ [ProtNotify]))
               else mret tt) ;;
              mret ProtNotify
            else mret 0).
Proof using EnvOk.
  intros High. eapply Triple_bind; [apply CoreFindProtocolEntry_safe|]. intros e st r st' Hst E.
  destruct (negb (e =? 0)); [|by apply mret_Done in E as [_ ->]].
  apply HM_bind_Done in E as (n & st1 & [-> Hn]%Allocate_Done & E). apply HM_bind_Done in E as (v & st1 & E & [_ ->]%mret_Done).
  destruct (Z.eqb_spec n 0) as [->|Hn0]; simpl in E; [by apply mret_Done in E as [_ ->]|].
  destruct Hn as [->|(_ & _ & _ & _ & _ & _ & Hf)]; [done|]. unfold UpdateEntry in E. hm_inv.
  destruct Hst as ((L & N) & Hl & Ha). split_and!; [split; [|done]|done|done]. by apply Linked_add_notify.
Qed.

Lemma CoreRegisterProtocolNotify_safe Protocol Event given : Safe (CoreRegisterProtocolNotify (HS:=HS) Protocol Event given).
Proof using EnvOk.
  unfold CoreRegisterProtocolNotify. destruct Protocol as [Protocol|], Event as [Event|]; [|safe..].
  safe_step; [safe|]. safe_step. apply Releases_assoc. apply Releases_bind; [apply RegisterBody_safe|]. intros n. safe.
Qed.

(** A registration that is found is one of the list. *)
Lemma FindNotifyLoop_elem Event l st n st' :
  FindNotifyLoop Event l st = Done (n, st') -> st' = st /\ (n = 0 \/ n ∈ l).
Proof using.
  induction l as [|m l IH]; simpl; intros E; [apply mret_Done in E as [-> ->]; by split; [|left]|].
  apply HM_bind_Done in E as (x & st1 & [_ ->]%deref_Done & E). destruct (_ =? _).
  - apply mret_Done in E as [-> ->]. split; [done|]. right. by left.
  - destruct (IH E) as [-> [->|Hn]]; (split; [done|]); [by left|right; by right].
Qed.

Lemma UnregisterLoop_safe Event l : LockSafe (UnregisterLoop (HS:=HS) Event l).
Proof using.
  intros High. induction l as [|e l IH]; [apply Triple_ret|]. intros st r st' Hst E. simpl in E.
  apply HM_bind_Done in E as (en & st1 & [He ->]%deref_Done & E).
  apply HM_bind_Done in E as (n & st1 & [-> Hn]%FindNotifyLoop_elem & E).
  destruct (Z.eqb_spec n 0) as [->|Hn0]; simpl in E; [by apply (IH st r)|]. destruct Hn as [->|Hn]; [done|].
  unfold UpdateEntry in E. hm_inv. destruct Hst as ((L & N) & Hl & Ha). split_and!; [split; [|done]|done|done].
  by apply Linked_remove_notify.
Qed.

Lemma CoreUnregisterProtocolNotifyEvent_safe Event : Safe (CoreUnregisterProtocolNotifyEvent Event).
Proof using EnvOk. unfold CoreUnregisterProtocolNotifyEvent. pose proof (UnregisterLoop_safe Event). safe. Qed.

Lemma CoreUnregisterProtocolNotify_safe Event : Safe (CoreUnregisterProtocolNotify Event).
Proof using EnvOk.
  unfold CoreUnregisterProtocolNotify. pose proof CoreUnregisterProtocolNotifyEvent_safe.
  induction Fuel as [|fuel IH]; cbn [UnregisterAll]; safe.
Qed.

(** ** Several interfaces at once *)

Lemma IsDevicePathInstalled_safe d : Safe (IsDevicePathInstalled d).
Proof using EnvOk. unfold IsDevicePathInstalled. safe. Qed.
#[local] Hint Resolve IsDevicePathInstalled_safe : handle.

Lemma InstallLoop_safe Args : forall h n, Safe (InstallLoop h Args n).
Proof using EnvOk. induction Args as [|[P i] Args IH]; intros h n; cbn [InstallLoop]; safe. Qed.
Lemma UninstallEach_safe h Args : Safe (UninstallEach h Args).
Proof using EnvOk. induction Args as [|[P i] Args IH]; cbn [UninstallEach]; safe. Qed.
Lemma UninstallLoop_safe h Args : forall n, Safe (UninstallLoop h Args n).
Proof using EnvOk. induction Args as [|[P i] Args IH]; intros n; cbn [UninstallLoop]; safe. Qed.
Lemma ReinstallEach_safe Args : forall h, Safe (ReinstallEach h Args).
Proof using EnvOk. induction Args as [|[P i] Args IH]; intros h; cbn [ReinstallEach]; safe. Qed.
#[local] Hint Resolve InstallLoop_safe UninstallEach_safe UninstallLoop_safe ReinstallEach_safe : handle.

Lemma CoreUninstallMultipleProtocolInterfaces_safe h Args : Safe (CoreUninstallMultipleProtocolInterfaces h Args).
Proof using EnvOk. unfold CoreUninstallMultipleProtocolInterfaces. safe. Qed.

(** Code at TPL_NOTIFY. *)
Lemma Safe_raised {A} (m : HM HS A) : Safe m -> Safe (Old ← RaiseTplNotify; r ← m; RestoreTpl Old ;; mret r).
Proof using EnvOk.
  intros Hm High st r st' (Hi & Hl & Ha) E.
  rewrite (HM_bind_run _ _ st (AtNotify st) (SetAtNotify true st)) in E by done.
  apply HM_bind_Done in E as (r1 & st1 & E1 & E). 
  assert (Ready true (SetAtNotify true st)) as H1 by (split_and!; [by apply (Inv_view st)|done|done]).
  destruct (Hm true _ _ _ H1 E1) as (I1 & L1 & A1).
  apply HM_bind_Done in E as (v & st2 & E2 & [_ ->]%mret_Done). unfold RestoreTpl in E2. hm_inv.
  - split_and!; [by apply (Inv_view st1)|done|done].
  - match goal with H : DispatchEvents _ = _ |- _ => eapply DispatchEvents_safe in H; [exact H|] end.
    split_and!; [by apply (Inv_view st1)|done|done].
Qed.

Lemma CoreInstallMultipleProtocolInterfaces_safe Handle Args : Safe (CoreInstallMultipleProtocolInterfaces Handle Args).
Proof using EnvOk.
  destruct Handle as [h|]; [|apply Safe_ret]. intros High st r st' Hst E.
  assert (Safe ('(Status, NewHandle, Index) ← InstallLoop h Args 0;
                Result ← (if EFI_ERROR Status then UninstallEach NewHandle (take (Index - 1) Args) ;; mret h else mret NewHandle);
                mret (Status, Some Result))) as Hm by safe.
  apply (Safe_raised _ Hm High st r st' Hst). rewrite <- E. unfold CoreInstallMultipleProtocolInterfaces.
  unfold mbind, HM_bind, mret, HM_ret, RaiseTplNotify. simpl.
  destruct (InstallLoop h Args 0 _) as [[[[Status New] Index] st1]| |]; [|done..].
  destruct (EFI_ERROR Status); [|done]. unfold mbind, HM_bind. by destruct (UninstallEach _ _ st1) as [[]| |].
Qed.

(** ** Enumeration *)

Lemma CoreProtocolsPerHandle_safe h b c : Safe (CoreProtocolsPerHandle h b c).
Proof using EnvOk. unfold CoreProtocolsPerHandle. safe. Qed.

Lemma ConnectEach_safe l : Safe (ConnectEach l).
Proof using EnvOk. induction l; simpl; safe. Qed.
#[local] Hint Resolve ConnectEach_safe : handle.

Lemma CoreConnectHandlesByKey_safe k : Safe (CoreConnectHandlesByKey k).
Proof using EnvOk. unfold CoreConnectHandlesByKey. safe. Qed.

(** ** Locating *)

Lemma ByProtocolLoop_safe k i l : LockSafe (ByProtocolLoop (HS:=HS) k i l).
Proof using. revert i. induction l as [|p l IH]; intros i; simpl; safe. by apply UpdateHandle_safe. Qed.

Lemma GetNext_safe Pos :
  LockSafe (CoreGetNextLocateAllHandles (HS:=HS) Pos) /\ LockSafe (CoreGetNextLocateByRegisterNotify (HS:=HS) Pos) /\
  LockSafe (CoreGetNextLocateByProtocol (HS:=HS) Pos).
Proof using.
  unfold CoreGetNextLocateAllHandles, CoreGetNextLocateByRegisterNotify, CoreGetNextLocateByProtocol.
  split_and!; [safe..|apply ByProtocolLoop_safe].
Qed.

Lemma LocateLoop_safe fuel GetNext : (forall Pos, LockSafe (GetNext Pos)) -> forall Pos, LockSafe (LocateLoop (HS:=HS) fuel GetNext Pos).
Proof using. intros HG. induction fuel as [|fuel IH]; intros Pos; simpl; safe. Qed.

(** The search function is one of the three. *)
Lemma LocateStart_safe High t Protocol k :
  Triple (Held High) (LocateStart (HS:=HS) t Protocol k)
    (fun r st => Held High st /\ forall Pos, LockSafe (r.1.2 Pos)).
Proof using EnvOk.
  intros st r st' Hst E. pose proof GetNext_safe as HG. unfold LocateStart in E. apply HM_bind_Done in E as (l & st1 & [-> ->]%gets_Done & E).
  destruct (t =? AllHandles). { apply mret_Done in E as [-> ->]. split; [done|]. apply HG. }
  destruct (t =? ByRegisterNotify). { apply mret_Done in E as [-> ->]. split; [done|]. apply HG. }
  destruct (t =? ByProtocol). 2:{ apply mret_Done in E as [-> ->]. split; [done|]. apply HG. }
  destruct Protocol as [Protocol|]; [|apply mret_Done in E as [-> ->]; split; [done|apply HG]].
  apply HM_bind_Done in E as (e & st1 & E1 & E). apply (CoreFindProtocolEntry_safe Protocol false High) in E1; [|done].
  hm_inv; (split; [done|apply HG]).
Qed.

Lemma AdvanceNotify_safe n : LockSafe (AdvanceNotify (HS:=HS) n).
Proof using.
  intros High st u st' Hst E. unfold AdvanceNotify, UpdateNotify in E.
  apply HM_bind_Done in E as (x & st1 & [Hx ->]%deref_Done & E). apply HM_bind_Done in E as (en & st1 & [He ->]%deref_Done & E).
  hm_inv. destruct Hst as ((L & N) & Hl & Ha).
  split_and!; [split; [|done]|done|done]. apply Linked_set_position; [exact L|done|]. intros p Hp.
  rewrite (entry_links_Some _ _ en) by done. apply (links_after_elem (Position x)).
  destruct (links_after _ _); [done|]. injection Hp as ->. by left.
Qed.

Lemma InternalCoreLocateHandle_safe t Protocol k n b : LockSafe (InternalCoreLocateHandle (HS:=HS) t Protocol k n b).
Proof using EnvOk.
  unfold InternalCoreLocateHandle. destruct n as [n|]; [|safe]. safe_step; [safe|]. intros High.
  eapply Triple_bind; [apply LocateStart_safe|]. intros [[Status GetNext] Pos]. cbn [fst snd].
  apply Triple_pure. intros HG. match goal with |- Triple _ ?m _ => cut (LockSafe m); [intros HL; apply HL|] end.
  pose proof (LocateLoop_safe (S (S (length (Remaining Pos)))) GetNext HG). pose proof AdvanceNotify_safe. safe.
Qed.
#[local] Hint Resolve InternalCoreLocateHandle_safe AdvanceNotify_safe : handle.

Lemma CoreLocateHandle_safe t Protocol k n b : Safe (CoreLocateHandle t Protocol k n b).
Proof using EnvOk. unfold CoreLocateHandle. safe. Qed.

Lemma CoreLocateProtocol_safe Protocol r b : Safe (CoreLocateProtocol Protocol r b).
Proof using EnvOk.
  unfold CoreLocateProtocol. pose proof (fun Pos => proj1 (proj2 (GetNext_safe Pos))). pose proof (fun Pos => proj2 (proj2 (GetNext_safe Pos))).
  safe.
Qed.

Lemma CoreLocateHandleBuffer_safe t Protocol k n b : Safe (CoreLocateHandleBuffer t Protocol k n b).
Proof using EnvOk. unfold CoreLocateHandleBuffer. safe. Qed.
#[local] Hint Resolve CoreLocateHandleBuffer_safe : handle.

Lemma FirstInstanceEnd_safe fuel p : Safe (FirstInstanceEnd fuel p).
Proof using. revert p. induction fuel as [|fuel IH]; intros p; cbn [FirstInstanceEnd]; safe. Qed.

Lemma BestMatchLoop_safe s n hs p m d : Safe (BestMatchLoop s n hs p m d).
Proof using EnvOk. revert p m d. induction hs as [|h hs IH]; intros p m d; cbn [BestMatchLoop]; safe. Qed.
#[local] Hint Resolve FirstInstanceEnd_safe BestMatchLoop_safe : handle.

Lemma CoreLocateDevicePath_safe Protocol d b : Safe (CoreLocateDevicePath Protocol d b).
Proof using EnvOk. unfold CoreLocateDevicePath. safe. Qed.
End Services.

#[export] Hint Resolve CoreHandleProtocol_safe CoreInstallProtocolInterfaceNotify_safe CoreInstallProtocolInterface_safe
  CoreUninstallProtocolInterface_safe CoreReinstallProtocolInterface_safe CoreInstallMultipleProtocolInterfaces_safe
  CoreUninstallMultipleProtocolInterfaces_safe CoreRegisterProtocolNotify_safe CoreUnregisterProtocolNotify_safe
  CoreProtocolsPerHandle_safe CoreConnectHandlesByKey_safe CoreLocateHandle_safe CoreLocateProtocol_safe
  CoreLocateHandleBuffer_safe CoreLocateDevicePath_safe : handle.
