(* ===== verification/HandleReach.v ===== *)
(** * The handle database: all reachable states

    Drivers and notification functions use the database through its services
    only.  [Perform] is one use, [Nested] an environment in which whatever runs
    while the lock is dropped uses the services again, to any depth, and
    [HandleReach] are the states that sequences of uses lead to. *)
From Stdlib Require Import ZArith Lia.
From stdpp Require Import base option gmap list sets fin_maps.
From S2P Require Import Prelude RbTree RbValid RbTheorems Handle HandleSet HandleInv HandleRules HandleInstall HandleOpen.
From S2P Require Import HandleUninstall HandleSafe.

(** A use of a service. *)
Inductive Call :=
| CallInstall (UserHandle Protocol : option Z) (InterfaceType Interface_ : Z) (NotifyThem : bool)
| CallUninstall (UserHandle : Z) (Protocol : option Z) (Interface_ : Z)
| CallReinstall (UserHandle : Z) (Protocol : option Z) (OldInterface NewInterface : Z)
| CallInstallMultiple (Handle : option Z) (Args : list (Z * Z))
| CallUninstallMultiple (Handle : Z) (Args : list (Z * Z))
| CallOpen (UserHandle : Z) (Protocol : option Z) (InterfaceGiven : bool) (ImageHandle Controller Attrs : Z)
| CallHandleProtocol (UserHandle : Z) (Protocol : option Z) (InterfaceGiven : bool)
| CallClose (UserHandle : Z) (Protocol : option Z) (Agent Controller : Z)
| CallOpenInformation (UserHandle Protocol : Z)
| CallProtocolsPerHandle (UserHandle : Z) (BufferGiven CountGiven : bool)
| CallRegister (Protocol Event : option Z) (Registration : bool)
| CallUnregister (Event : Z)
| CallConnectByKey (Key_ : Z)
| CallLocateHandle (SearchType : Z) (Protocol : option Z) (Key_ : Z) (BufferSize : option Z) (BufferGiven : bool)
| CallLocateProtocol (Protocol : option Z) (Registration : Z) (InterfaceGiven : bool)
| CallLocateHandleBuffer (SearchType : Z) (Protocol : option Z) (Key_ : Z) (NumberGiven BufferGiven : bool)
| CallLocateDevicePath (Protocol DevicePath : option Z) (DeviceGiven : bool).

Section Reach.
Context {HS : Type} {Ops : HandleSetOps HS} {SetOk : HandleSetOk HS}.
Implicit Types st : HandleState HS.

Definition ignore {A} (m : HM HS A) : HM HS unit := _ ← m; mret tt.

Definition Perform {Env : Environment HS} (c : Call) : HM HS unit :=
  match c with
  | CallInstall u p t i n => ignore (CoreInstallProtocolInterfaceNotify u p t i n)
  | CallUninstall u p i => ignore (CoreUninstallProtocolInterface u p i)
  | CallReinstall u p o n => ignore (CoreReinstallProtocolInterface u p o n)
  | CallInstallMultiple h l => ignore (CoreInstallMultipleProtocolInterfaces h l)
  | CallUninstallMultiple h l => ignore (CoreUninstallMultipleProtocolInterfaces h l)
  | CallOpen u p g i c a => ignore (CoreOpenProtocol u p g i c a)
  | CallHandleProtocol u p g => ignore (CoreHandleProtocol u p g)
  | CallClose u p a c => ignore (CoreCloseProtocol u p a c)
  | CallOpenInformation u p => ignore (CoreOpenProtocolInformation u p)
  | CallProtocolsPerHandle u b c => ignore (CoreProtocolsPerHandle u b c)
  | CallRegister p e r => ignore (CoreRegisterProtocolNotify p e r)
  | CallUnregister e => ignore (CoreUnregisterProtocolNotify e)
  | CallConnectByKey k => ignore (CoreConnectHandlesByKey k)
  | CallLocateHandle t p k n b => ignore (CoreLocateHandle t p k n b)
  | CallLocateProtocol p r g => ignore (CoreLocateProtocol p r g)
  | CallLocateHandleBuffer t p k n b => ignore (CoreLocateHandleBuffer t p k n b)
  | CallLocateDevicePath p d g => ignore (CoreLocateDevicePath p d g)
  end.

Fixpoint PerformAll {Env : Environment HS} (cs : list Call) : HM HS unit :=
  match cs with
  | [] => mret tt
  | c :: cs => Perform c ;; PerformAll cs
  end.

(** What runs when the lock is dropped, and the result of a driver. *)
Record Script := MkScript {
  OnDispatch : HandleState HS -> list Call;
  OnDisconnect : Z -> Z -> HandleState HS -> list Call * EFI_STATUS;
  OnConnect : Z -> HandleState HS -> list Call * EFI_STATUS }.

(** The environment in which that happens up to a depth of nesting. *)
Fixpoint Nested (Base : Environment HS) (S : Script) (depth : nat) : Environment HS :=
  match depth with
  | O => MkEnvironment HS (mret tt) (fun _ _ => mret EFI_NOT_FOUND) (fun _ => mret EFI_NOT_FOUND)
           (@AllocatePool _ Base) (@BufferAvailable _ Base) (@gDxeCoreImageHandle _ Base) (@gEfiDevicePathProtocolGuid _ Base)
           (@IsDevicePathEnd _ Base) (@IsDevicePathEndInstance _ Base) (@NextDevicePathNode _ Base) (@GetDevicePathSize _ Base) (@SameBytes _ Base) (@Fuel _ Base)
  | Datatypes.S depth =>
    let Env := Nested Base S depth in
    MkEnvironment HS
      (cs ← gets (OnDispatch S); PerformAll cs)
      (fun Controller Driver => '(cs, Status) ← gets (OnDisconnect S Controller Driver); PerformAll cs ;; mret Status)
      (fun Controller => '(cs, Status) ← gets (OnConnect S Controller); PerformAll cs ;; mret Status)
      (@AllocatePool _ Base) (@BufferAvailable _ Base) (@gDxeCoreImageHandle _ Base) (@gEfiDevicePathProtocolGuid _ Base)
      (@IsDevicePathEnd _ Base) (@IsDevicePathEndInstance _ Base) (@NextDevicePathNode _ Base) (@GetDevicePathSize _ Base) (@SameBytes _ Base) (@Fuel _ Base)
  end.

(** The database at the start, with an empty set of handles. *)
Definition InitialState (s : HS) : HandleState HS := MkHandleState [] ∅ [] ∅ ∅ ∅ 0 0 s false false [].

Inductive HandleReach (Base : Environment HS) : HandleState HS -> Prop :=
| HandleReach_start s : SetOf s ∅ -> HandleReach Base (InitialState s)
| HandleReach_call st S depth c st' :
    HandleReach Base st -> Perform (Env := Nested Base S depth) c st = Done (tt, st') -> HandleReach Base st'.

Lemma Perform_safe {Env : Environment HS} {EnvOk : EnvironmentOk HS} c : Safe (Perform c).
Proof using. destruct c; cbn [Perform]; unfold ignore; safe. Qed.

Lemma PerformAll_safe {Env : Environment HS} {EnvOk : EnvironmentOk HS} cs : Safe (PerformAll cs).
Proof using. pose proof Perform_safe. induction cs; cbn [PerformAll]; safe. Qed.

(** Such an environment keeps the database in order. *)
Lemma Nested_ok Base S depth :
  (forall st Blocks p, @AllocatePool _ Base st Blocks = Some p -> Unused p Blocks st) ->
  EnvironmentOk HS (Env := Nested Base S depth).
Proof using.
  intros HB. induction depth as [|depth IH]; [split; [done|..]; intros; apply Safe_ret|].
  pose proof (PerformAll_safe (Env := Nested Base S depth)). split; [done|..]; intros; cbn; safe.
Qed.

Lemma Initial_inv s : SetOf s ∅ -> Ready false (InitialState s).
Proof using.
  intros Hs. split_and!; [split|done|done].
  - split; simpl; rewrite ?fmap_empty.
    + done.
    + rewrite dom_empty_L. split_and!; [constructor| |done]. intros h. rewrite lookup_empty, elem_of_nil. by split; [|intros [? ?]].
    + split; [constructor|]. intros e. rewrite lookup_empty, elem_of_nil. by split; [|intros [? ?]].
    + done.
    + intros h. unfold links. rewrite lookup_empty. split; [constructor|]. intros p. by rewrite lookup_empty, elem_of_nil.
    + intros h. unfold entry_links. rewrite lookup_empty. split; [constructor|]. intros p. by rewrite lookup_empty, elem_of_nil.
    + intros h. unfold notify_links. rewrite lookup_empty. split; [constructor|]. intros p. by rewrite lookup_empty, elem_of_nil.
    + done.
    + done.
  - intros h. simpl. by rewrite fmap_empty, lookup_empty.
Qed.

Lemma HandleReach_ready Base st :
  (forall st Blocks p, @AllocatePool _ Base st Blocks = Some p -> Unused p Blocks st) ->
  HandleReach Base st -> Ready false st.
Proof using.
  intros HB. induction 1 as [s Hs|st S depth c st' _ IH E]; [by apply Initial_inv|].
  pose proof (Nested_ok Base S depth HB). by apply (Perform_safe (Env := Nested Base S depth) c false st tt st').
Qed.

(** The handle database is always in order.  Starting from the empty
    database, after any sequence of calls of its services, in which
    notification functions and drivers call the services again whenever the
    lock is dropped, to any depth and depending on the state in any way: the
    global list and the ordered set have exactly the allocated handles, each
    handle has interfaces, each interface is exactly once in the list of its
    handle and once in the list of its protocol, and those lists lead to no
    freed structure; no protocol has two entries; the registrations of each
    protocol are those in its list and their positions are in its list of
    interfaces; every open list is counted and has at most one item of a
    driver; and the lock is free. *)
Theorem HandleReach_inv Base st :
  (forall st Blocks p, @AllocatePool _ Base st Blocks = Some p -> Unused p Blocks st) ->
  HandleReach Base st -> Inv st /\ Locked st = false.
Proof using. intros HB HR. destruct (HandleReach_ready Base st HB HR) as (? & ? & _). done. Qed.
End Reach.

(** ** A concrete database *)

(** The red-black tree with a pool that never runs out. *)
#[export] Instance SampleOps : HandleSetOps RbSet := RbSetOps true BumpPool.
#[export] Instance SampleSetOk : HandleSetOk RbSet := RbSetOk true BumpPool BumpPool_fresh.

Definition max_key {A} (m : gmap Z A) : Z := foldr (fun e => Z.max e.1) 0 (map_to_list m).
Definition SamplePool (st : HandleState RbSet) (Blocks : list Z) : option Z :=
  Some (1 + foldr Z.max 0 (max_key (Handles st) :: max_key (Entries st) :: max_key (Interfaces st) :: max_key (Notifies st) :: Blocks)).
Definition SampleBase : Environment RbSet :=
  MkEnvironment RbSet (mret tt) (fun _ _ => mret EFI_NOT_FOUND) (fun _ => mret EFI_NOT_FOUND) SamplePool (fun _ _ => true)
    1 99 (fun _ => true) (fun _ => false) (fun p => p + 4) (fun _ => 4) (fun _ _ _ => false) 5.
Definition SampleSet : RbSet := (MkCollection 0 PointerCompare PointerCompare, ∅).

Lemma max_key_bound {A} (m : gmap Z A) p : max_key m < p -> m !! p = None.
Proof.
  intros Hp. apply eq_None_not_Some. intros [x Hx]. apply elem_of_map_to_list in Hx. unfold max_key in Hp.
  induction (map_to_list m) as [|e l IH]; [by apply elem_of_nil in Hx|]. simpl in Hp.
  apply elem_of_cons in Hx as [<-|Hx]; [simpl in Hp; lia|]. apply IH; [lia|done].
Qed.

Lemma max_list_bound (l : list Z) : 0 <= foldr Z.max 0 l /\ forall q, q ∈ l -> q <= foldr Z.max 0 l.
Proof.
  induction l as [|q l [IH1 IH2]]; simpl; [by split; [|intros q ?%elem_of_nil]|]. split; [lia|].
  intros r [->|Hr]%elem_of_cons; [lia|]. specialize (IH2 r Hr). lia.
Qed.

Lemma SamplePool_unused st Blocks p : SamplePool st Blocks = Some p -> Unused p Blocks st.
Proof.
  unfold SamplePool. intros [= <-]. destruct (max_list_bound Blocks) as [H0 Hl].
  split_and!; [lia|intros Hin%Hl; lia|apply max_key_bound; lia..].
Qed.

Lemma SampleSet_empty : SetOf SampleSet ∅.
Proof. apply (CoreInitializeHandleServices_empty true). by vm_compute. Qed.

(** A notification function that installs an interface of its own when the
    first handle appears. *)
Definition SampleScript : Script (HS := RbSet) :=
  MkScript (fun st => if bool_decide (length (gHandleList st) = 1%nat) then [CallInstall (Some 0) (Some 78) 0 2000 true] else [])
    (fun _ _ _ => ([], EFI_SUCCESS)) (fun _ _ => ([], EFI_SUCCESS)).

Lemma HandleReach_inv_witness :
  exists st : HandleState RbSet, length (gHandleList st) = 2%nat /\ Inv st /\ Locked st = false.
Proof.
  pose (st := match Perform (Env := Nested SampleBase SampleScript 1) (CallInstall (Some 0) (Some 77) 0 1000 true) (InitialState SampleSet) with
              | Done (_, st) => st | _ => InitialState SampleSet end).
  exists st. split; [by vm_compute|]. apply (HandleReach_inv SampleBase st SamplePool_unused).
  apply (HandleReach_call SampleBase (InitialState SampleSet) SampleScript 1 (CallInstall (Some 0) (Some 77) 0 1000 true));
    [apply HandleReach_start, SampleSet_empty|]. by vm_compute.
Defined.
