(* ===== verification/HandleSpec.v ===== *)
(** * The handle database: what the services do

    In an environment where nothing uses the database while the lock is dropped
    but drivers that are disconnected, which then close what they have open or
    refuse ([QuietEnvironment]), every service returns, and its effect is that
    of an operation on what the handles offer ([offers]) and on open lists. *)
From Stdlib Require Import ZArith Lia.
From stdpp Require Import base option gmap list sets fin_maps.
From S2P Require Import Prelude Handle HandleSet HandleInv HandleRules HandleInstall HandleOpen HandleUninstall.
From S2P Require Import HandleSafe HandleReach.

(** ** Drivers that give up their interfaces *)

(** The state with other open lists. *)
Definition Relist {HS} (f : Z -> list OPEN_PROTOCOL_DATA -> list OPEN_PROTOCOL_DATA) (st : HandleState HS) : HandleState HS :=
  SetInterfaces (map_imap (fun p prot => Some (SetOpenList (f p (OpenList prot)) (u64 (Z.of_nat (length (f p (OpenList prot))))) prot)) (Interfaces st)) st.

(** No driver and no exclusive user has come to an open list. *)
Definition NoneCame (l l' : list OPEN_PROTOCOL_DATA) : Prop :=
  (drivers l' <= drivers l)%nat /\ (forall D, D ∈ l' -> is_driver D = true \/ is_exclusive D = true -> D ∈ l) /\
  (Z.of_nat (length l) < 2 ^ 64 -> Z.of_nat (length l') < 2 ^ 64).

(** What disconnecting a driver from a controller does: only open lists change,
    in which no driver and no exclusive user comes; with an error the drivers that
    have interfaces keep them, and else the driver has none of the controller's. *)
Definition LetGo {HS} (Controller Driver : Z) (Status : EFI_STATUS) (st st' : HandleState HS) : Prop :=
  exists f, st' = Relist f st /\ forall p prot, Interfaces st !! p = Some prot ->
    NoneCame (OpenList prot) (f p (OpenList prot)) /\
    if EFI_ERROR Status then existsb is_driver (f p (OpenList prot)) = existsb is_driver (OpenList prot)
    else ProtHandle prot = Controller -> forall D, D ∈ f p (OpenList prot) -> is_driver D = true -> AgentHandle D ≠ Driver.

(** No notification uses the database, connecting binds no driver, and a driver
    that is disconnected from a controller refuses and keeps its interfaces, or
    closes them. [CoreDisconnectController_lets_go] of ConnectTheorems proves this of
    the service itself, from what the drivers' Stop functions do. *)
Class QuietEnvironment (HS : Type) {Ops : HandleSetOps HS} {SetOk : HandleSetOk HS} {Env : Environment HS} : Prop := {
  AllocatePool_fresh (st : HandleState HS) Blocks p : AllocatePool st Blocks = Some p -> Unused p Blocks st;
  quiet_dispatch (st : HandleState HS) : DispatchEvents st = Done (tt, st);
  quiet_disconnect High Controller Driver (st : HandleState HS) : Ready High st ->
    exists Status st', CoreDisconnectController Controller Driver st = Done (Status, st') /\ LetGo Controller Driver Status st st';
  quiet_connect Controller (st : HandleState HS) : exists Status, CoreConnectController Controller st = Done (Status, st);
  quiet_fuel : (1 < Fuel)%nat }.

(** The state after the first driver in an open list has been asked to let go. *)
Definition Asked {HS} {Env : Environment HS} (u : Z) (l : list OPEN_PROTOCOL_DATA) (st : HandleState HS) : HandleState HS :=
  match FindDriverItem l with
  | Some D => match CoreDisconnectController u (AgentHandle D) st with Done (_, st') => st' | _ => st end
  | None => st
  end.

(** ** The reference for CoreOpenProtocol *)

(** Whether [Attributes] and the handles given with it are accepted. *)
Definition AttributesStatus {HS} (st : HandleState HS) (u Image Controller Attrs : Z) : EFI_STATUS :=
  let valid h := bool_decide (is_Some (Handles st !! h)) in
  let ok :=
    if Attrs =? EFI_OPEN_PROTOCOL_BY_CHILD_CONTROLLER then valid Image && valid Controller && negb (u =? Controller)
    else if HasFlag Attrs EFI_OPEN_PROTOCOL_BY_DRIVER then valid Image && valid Controller
    else if HasFlag Attrs EFI_OPEN_PROTOCOL_EXCLUSIVE then valid Image
    else true in
  if ValidAttributes Attrs && ok then EFI_SUCCESS else EFI_INVALID_PARAMETER.

(** The decision on an open list, and the list afterwards. *)
Definition OpenRule (Memory : bool) (Image Controller Attrs : Z) (l : list OPEN_PROTOCOL_DATA) : EFI_STATUS * list OPEN_PROTOCOL_DATA :=
  let exact := existsb (is_exact Image Controller Attrs) l in
  let restricted := HasFlag Attrs EFI_OPEN_PROTOCOL_BY_DRIVER || HasFlag Attrs EFI_OPEN_PROTOCOL_EXCLUSIVE in
  if exact && HasFlag Attrs EFI_OPEN_PROTOCOL_BY_DRIVER then (EFI_ALREADY_STARTED, l)
  else if exact && negb restricted then (EFI_SUCCESS, count_first (is_exact Image Controller Attrs) l)
  else if restricted && (existsb is_driver l || existsb is_exclusive l) then (EFI_ACCESS_DENIED, l)
  else if Image =? 0 then (EFI_SUCCESS, l)
  else if Memory then (EFI_SUCCESS, l ++ [MkOpen Image Controller Attrs 1]) else (EFI_OUT_OF_RESOURCES, l).

(** Whether a driver has to be asked first: for an exclusive open, while a
    driver and no exclusive user has the interface. *)
Definition MustAsk (Image Controller Attrs : Z) (l : list OPEN_PROTOCOL_DATA) : bool :=
  negb (existsb (is_exact Image Controller Attrs) l && HasFlag Attrs EFI_OPEN_PROTOCOL_BY_DRIVER) &&
  HasFlag Attrs EFI_OPEN_PROTOCOL_EXCLUSIVE && existsb is_driver l && negb (existsb is_exclusive l).

(** Evaluates the tests of constants. *)
Ltac ground_bools :=
  repeat match goal with
  | |- context [?a =? ?b] => let v := eval vm_compute in (a =? b) in
      lazymatch v with true => idtac | false => idtac end; change (a =? b) with v
  | |- context [HasFlag ?a ?b] => let v := eval vm_compute in (HasFlag a b) in
      lazymatch v with true => idtac | false => idtac end; change (HasFlag a b) with v
  end.

Section Quiet.
Context {HS : Type} {Ops : HandleSetOps HS} {SetOk : HandleSetOk HS} {Env : Environment HS} {Q : QuietEnvironment HS}.
Implicit Types st : HandleState HS.

Lemma Relist_lookup f st p : Interfaces (Relist f st) !! p =
  (fun prot => SetOpenList (f p (OpenList prot)) (u64 (Z.of_nat (length (f p (OpenList prot))))) prot) <$> Interfaces st !! p.
Proof using. unfold Relist. simpl. rewrite map_lookup_imap. by destruct (Interfaces st !! p). Qed.

Lemma Relist_id st : Inv st -> Relist (fun _ l => l) st = st.
Proof using.
  intros [L _]. unfold Relist. destruct st as [? ? ? ? I ? ? ? ? ? ? ?]. unfold SetInterfaces. simpl. f_equal.
  apply map_eq. intros p. rewrite map_lookup_imap. destruct (I !! p) as [prot|] eqn:Ep; [|done]. simpl.
  destruct (linked_opens _ _ _ _ _ _ _ L p prot Ep) as [<- _]. by destruct prot.
Qed.

Lemma Linked_Relist f st : Linked st ->
  (forall p prot, Interfaces st !! p = Some prot -> NoneCame (OpenList prot) (f p (OpenList prot))) -> Linked (Relist f st).
Proof using.
  intros [(? & ? & H0 & ?) ? ? ? Hh He ? ? Ho] Hf. pose proof (Relist_lookup f st) as HL. split; [|done..| | |done|done|].
  - split_and!; [done|done| |done]. rewrite HL. by rewrite H0.
  - intros h. destruct (Hh h) as [Hd Hp]. split; [done|]. intros p. rewrite Hp, HL. by destruct (Interfaces st !! p).
  - intros e. destruct (He e) as [Hd Hp]. split; [done|]. intros p. rewrite Hp, HL. by destruct (Interfaces st !! p).
  - intros p x. rewrite HL. intros (y & Hy & ->)%fmap_Some. destruct (Hf p y Hy) as [Hd _]. destruct (Ho p y Hy) as [_ Hd']. split; simpl; [done|lia].
Qed.

Lemma LetGo_ready Controller Driver Status High st st' : LetGo Controller Driver Status st st' -> Ready High st -> Ready High st'.
Proof using.
  intros (f & -> & Hf) ([L N] & Hl & Ha). split_and!; [split; [|done]|done|done]. apply Linked_Relist; [done|]. intros p prot Hp. by apply Hf.
Qed.

#[export] Instance Quiet_ok : EnvironmentOk HS.
Proof using Q.
  split; [apply AllocatePool_fresh|..].
  - intros High st u st' Hst E. rewrite quiet_dispatch in E. by injection E as _ <-.
  - intros c d High st s st' Hst E. destruct (quiet_disconnect High c d st Hst) as (s1 & st1 & E1 & H1). rewrite E1 in E.
    injection E as <- <-. by apply (LetGo_ready c d s1 High st).
  - intros c High st s st' Hst E. destruct (quiet_connect c st) as (s1 & E1). rewrite E1 in E. by injection E as _ <-.
Qed.

Lemma Acquire_run {B} (k : unit -> HM HS B) st : Locked st = false -> (CoreAcquireProtocolLock ≫= k) st = k tt (SetLocked true st).
Proof using. intros Hl. unfold CoreAcquireProtocolLock. hm_run. by rewrite Hl. Qed.

Lemma Release_run {B} (k : unit -> HM HS B) st : Locked st = true -> (CoreReleaseProtocolLock ≫= k) st = k tt (SetLocked false st).
Proof using Q.
  intros Hl. unfold CoreReleaseProtocolLock. hm_run. rewrite Hl. unfold assert. rewrite (HM_bind_run _ _ st tt st) by done. hm_run.
  destruct (AtNotify _); [done|]. by rewrite (HM_bind_run _ _ _ _ _ (quiet_dispatch _)).
Qed.

(** The state does not show that the lock was taken. *)
Lemma SetLocked_back st : Locked st = false -> SetLocked false (SetLocked true st) = st.
Proof using. destruct st. simpl. by intros ->. Qed.

Lemma CheckOpenAttributes_run st u Image Controller Attrs :
  Linked st -> Locked st = true ->
  CheckOpenAttributes u Image Controller Attrs st = Done (AttributesStatus st u Image Controller Attrs, st).
Proof using.
  intros L Hl.
  pose proof (fun h => CoreValidateHandle_run st h L Hl) as HV.
  destruct (ValidAttributes Attrs) eqn:Hv.
  2:{ unfold AttributesStatus. rewrite Hv. simpl. by rewrite (CheckOpenAttributes_invalid u Image Controller Attrs Hv). }
  unfold AttributesStatus. rewrite Hv. simpl. unfold ValidAttributes in Hv.
  repeat (apply orb_true_iff in Hv as [Hv|Hv]); apply Z.eqb_eq in Hv; subst Attrs; unfold CheckOpenAttributes;
    ground_bools; cbn [andb orb negb]; cbn iota; try done.
  all: rewrite (HM_bind_run _ _ _ _ _ (HV Image)); destruct (bool_decide (is_Some (Handles st !! Image))); cbn [EFI_ERROR andb]; [|done].
  - rewrite (HM_bind_run _ _ _ _ _ (HV Controller)). destruct (bool_decide _); cbn [EFI_ERROR andb]; [|done].
    by destruct (u =? Controller).
  - apply HV.
  - apply HV.
Qed.

Lemma SetLocked_again st : Locked st = true -> SetLocked true (SetLocked false st) = st.
Proof using. destruct st. simpl. by intros ->. Qed.

(** What asking does to an interface of the controller: with an error a driver
    still has it, else no driver has. *)
Definition AskedList (Status : EFI_STATUS) (prot prot' : PROTOCOL_INTERFACE) : Prop :=
  EFI_ERROR Status = existsb is_driver (OpenList prot') /\ NoneCame (OpenList prot) (OpenList prot').

Lemma FindDriverItem_elem l D : FindDriverItem l = Some D -> D ∈ l /\ is_driver D = true.
Proof using.
  induction l as [|D' l IH]; [done|]. simpl. fold (is_driver D'). destruct (is_driver D') eqn:ED.
  - intros [= ->]. split; [by left|done].
  - intros HF. destruct (IH HF). split; [by right|done].
Qed.

(** A driver that refuses. *)
Lemma LetGo_refused Controller Driver Status st : Inv st -> EFI_ERROR Status = true -> LetGo Controller Driver Status st st.
Proof using. intros HI HE. exists (fun _ l => l). split; [by rewrite Relist_id|]. intros p prot Hp. rewrite HE. done. Qed.

(** At most one driver has an interface. *)
Lemma driver_only l D D' : (drivers l <= 1)%nat -> D ∈ l -> is_driver D = true -> D' ∈ l -> is_driver D' = true -> D' = D.
Proof using.
  unfold drivers. intros Hl HD Hd HD' Hd'.
  assert (D ∈ filter is_driver l) as H1 by (apply list_elem_of_filter; split; [by apply Is_true_true|done]).
  assert (D' ∈ filter is_driver l) as H2 by (apply list_elem_of_filter; split; [by apply Is_true_true|done]).
  destruct (filter is_driver l) as [|x [|y k]]; simpl in Hl; [by apply elem_of_nil in H1| |lia].
  apply list_elem_of_singleton in H1, H2. congruence.
Qed.

Lemma NoneCame_refl l : NoneCame l l.
Proof using. by split_and!. Qed.

Lemma existsb_elem (P : OPEN_PROTOCOL_DATA -> bool) l : existsb P l = true <-> exists D, D ∈ l /\ P D = true.
Proof using. rewrite existsb_exists. by setoid_rewrite list_elem_of_In. Qed.

(** A driver or exclusive user that is there was there. *)
Lemma NoneCame_existsb l l' (P : OPEN_PROTOCOL_DATA -> bool) :
  NoneCame l l' -> (forall D, P D = true -> is_driver D = true \/ is_exclusive D = true) -> existsb P l = false -> existsb P l' = false.
Proof using.
  intros (_ & Hin & _) HP Hl. apply not_true_is_false. intros (D & HD & HPD)%existsb_elem. apply not_true_iff_false in Hl.
  apply Hl, existsb_elem. exists D. split; [|done]. apply Hin; [done|by apply HP].
Qed.

Lemma SetLocked_Relist f st b : SetLocked b (Relist f st) = Relist f (SetLocked b st).
Proof using. done. Qed.

(** Asking the driver with the lock dropped in between. *)
Lemma AskDriver_run {B} High st u p prot D (k : EFI_STATUS -> HM HS B) :
  Held High st -> Interfaces st !! p = Some prot -> ProtHandle prot = u ->
  FindDriverItem (OpenList prot) = Some D ->
  let st' := SetLocked true (Asked u (OpenList prot) (SetLocked false st)) in
  exists Status prot',
    (CoreReleaseProtocolLock ;; Status ← (Agent ← ReadAgentHandle p D; CoreDisconnectController u Agent);
     CoreAcquireProtocolLock ;; k Status) st = k Status st' /\
    Held High st' /\ Interfaces st' !! p = Some prot' /\ AskedList Status prot prot'.
Proof using Q.
  intros ([L N] & Hl & Ha) Hp Hu HF st'. pose proof (linked_opens _ _ _ _ _ _ _ L p prot Hp) as [_ Hok].
  destruct (FindDriverItem_elem _ _ HF) as [HD Hdr]. rewrite Release_run by done. unfold ReadAgentHandle.
  assert (existsb (fun D0 => (AgentHandle D0 =? AgentHandle D) && (ControllerHandle D0 =? ControllerHandle D) && (Attributes D0 =? Attributes D))
    (OpenList prot) = true) as Hex by (apply existsb_elem; exists D; by rewrite !Z.eqb_refl).
  hm_run. rewrite Hex. unfold assert. rewrite (HM_bind_run _ _ _ tt (SetLocked false st)) by done. hm_run.
  assert (Ready High (SetLocked false st)) as HR by (by split_and!).
  destruct (quiet_disconnect High u (AgentHandle D) (SetLocked false st) HR) as (s & st1 & Es & f & -> & Hf).
  rewrite (HM_bind_run _ _ _ _ _ Es). subst st'. unfold Asked. rewrite HF, Es. rewrite Acquire_run by done.
  rewrite SetLocked_Relist, SetLocked_again by done. destruct (Hf p prot Hp) as [HC HS'].
  eexists s, _. split_and!; [done| |by rewrite Relist_lookup, Hp|].
  - split_and!; [split; [|done]|done|done]. apply Linked_Relist; [done|]. intros q x Hq. by apply (Hf q).
  - split; [|done]. cbn [SetOpenList OpenList]. destruct (EFI_ERROR s).
    + rewrite HS'. symmetry. apply existsb_elem. by exists D.
    + symmetry. apply not_true_is_false. intros (D' & HD' & Hd')%existsb_elem. apply (HS' Hu D' HD' Hd').
      f_equal. apply (driver_only (OpenList prot)); [done|done|done| |done]. apply HC; [done|by left].
Qed.

Lemma DisconnectDrivers_run High st u p prot :
  Held High st -> Interfaces st !! p = Some prot -> ProtHandle prot = u -> existsb is_driver (OpenList prot) = true ->
  let st' := SetLocked true (Asked u (OpenList prot) (SetLocked false st)) in
  exists Status prot', Held High st' /\ Interfaces st' !! p = Some prot' /\ AskedList Status prot prot' /\
    DisconnectDrivers Fuel u p st = Done (if existsb is_driver (OpenList prot') then EFI_ACCESS_DENIED else EFI_SUCCESS, st').
Proof using Q.
  intros HH Hp Hu Hd st'. pose proof quiet_fuel as Hf. destruct Fuel as [|[|fuel]]; [lia..|].
  destruct (FindDriverItem (OpenList prot)) as [D|] eqn:HF; [|apply FindDriverItem_None in HF; congruence].
  destruct (AskDriver_run High st u p prot D (fun Status => if EFI_ERROR Status then mret EFI_ACCESS_DENIED else DisconnectDrivers (S fuel) u p)
    HH Hp Hu HF) as (Status & prot' & E & H' & Hp' & HA). exists Status, prot'. split_and!; [done|done|done|].
  remember (S fuel) as fuel'. cbn [DisconnectDrivers]. hm_run. rewrite HF, E. fold st' in H', Hp' |- *. pose proof HA as [HE _]. rewrite HE.
  destruct (existsb is_driver (OpenList prot')) eqn:Hd'; [done|]. subst fuel'. cbn [DisconnectDrivers]. hm_run.
  by rewrite (proj2 (FindDriverItem_None _) Hd').
Qed.

Lemma CheckOpenConflicts_run High st u p prot Attrs :
  Held High st -> Interfaces st !! p = Some prot -> ProtHandle prot = u -> ValidAttributes Attrs = true ->
  let ask := HasFlag Attrs EFI_OPEN_PROTOCOL_EXCLUSIVE && existsb is_driver (OpenList prot) && negb (existsb is_exclusive (OpenList prot)) in
  let st' := SetLocked true (if ask then Asked u (OpenList prot) (SetLocked false st) else SetLocked false st) in
  exists prot', Held High st' /\ Interfaces st' !! p = Some prot' /\ NoneCame (OpenList prot) (OpenList prot') /\ (ask = false -> prot' = prot) /\
    CheckOpenConflicts u p Attrs (existsb is_driver (OpenList prot)) (existsb is_exclusive (OpenList prot)) st =
    Done (if (HasFlag Attrs EFI_OPEN_PROTOCOL_BY_DRIVER || HasFlag Attrs EFI_OPEN_PROTOCOL_EXCLUSIVE) &&
             (existsb is_driver (OpenList prot') || existsb is_exclusive (OpenList prot'))
          then EFI_ACCESS_DENIED else EFI_SUCCESS, st').
Proof using Q.
  intros HH Hp Hu Hv ask st'. pose proof (DisconnectDrivers_run High st u p prot HH Hp Hu) as HD.
  destruct ask eqn:Eask; subst ask st'.
  - apply andb_true_iff in Eask as [[Hx Hd]%andb_true_iff He%negb_true_iff]. destruct (HD Hd) as (Status & prot' & H' & Hp' & [_ HF] & E).
    exists prot'. split_and!; [done|done|done|done|]. pose proof (NoneCame_existsb _ _ is_exclusive HF (fun _ H => or_intror H) He) as He'.
    rewrite Hx, He', Hd, He, orb_true_r, orb_false_r, andb_true_l. unfold ValidAttributes in Hv.
    repeat (apply orb_true_iff in Hv as [Hv|Hv]); apply Z.eqb_eq in Hv; subst Attrs; [done|done| | |done..];
      unfold CheckOpenConflicts; ground_bools; cbn [andb orb]; cbn iota; exact E.
  - rewrite SetLocked_again by apply HH. exists prot. split_and!; [done|done|apply NoneCame_refl|done|]. unfold ValidAttributes in Hv.
    repeat (apply orb_true_iff in Hv as [Hv|Hv]); apply Z.eqb_eq in Hv; subst Attrs; unfold CheckOpenConflicts;
      revert Eask; ground_bools; cbn [andb orb]; cbn iota; try done;
      by destruct (existsb is_driver _), (existsb is_exclusive _).
Qed.

(** The state with another open list. *)
Definition WithOpens (p : Z) (prot : PROTOCOL_INTERFACE) (l : list OPEN_PROTOCOL_DATA) st : HandleState HS :=
  SetInterfaces (<[p := SetOpenList l (u64 (Z.of_nat (length l))) prot]> (Interfaces st)) st.

Lemma WithOpens_same st p prot :
  Interfaces st !! p = Some prot -> OpensOk prot -> WithOpens p prot (OpenList prot) st = st.
Proof using.
  intros Hp [Hc _]. unfold WithOpens. rewrite <- Hc. rewrite insert_id; [by destruct st|]. rewrite Hp. by destruct prot.
Qed.

Lemma Asked_Relist High u l st : Ready High st -> Ready High (Asked u l st) /\ exists f, Asked u l st = Relist f st.
Proof using Q.
  intros HR.
  unfold Asked. destruct (FindDriverItem l) as [D|].
  - destruct (quiet_disconnect High u (AgentHandle D) st HR) as (s & st' & -> & H). split; [by apply (LetGo_ready u (AgentHandle D) s High st)|].
    destruct H as (f & -> & _). by exists f.
  - split; [done|]. exists (fun _ l => l). symmetry. apply Relist_id, HR.
Qed.

Lemma Relist_offers f st : offers (Relist f st) = offers st.
Proof using.
  apply offers_ext; [done|]. intros h hd p _ _. unfold offer. rewrite Relist_lookup. by destruct (Interfaces st !! p).
Qed.

(** The state in which the open is decided. *)
Definition Prepared (u Image Controller Attrs : Z) (l : list OPEN_PROTOCOL_DATA) st : HandleState HS :=
  if MustAsk Image Controller Attrs l then Asked u l st else st.

Lemma Prepared_Relist High u Image Controller Attrs l st : Ready High st ->
  Ready High (Prepared u Image Controller Attrs l st) /\ offers (Prepared u Image Controller Attrs l st) = offers st /\
  forall p, is_Some (Interfaces st !! p) -> is_Some (Interfaces (Prepared u Image Controller Attrs l st) !! p).
Proof using Q.
  intros HR. unfold Prepared. destruct (MustAsk _ _ _ _); [|done]. destruct (Asked_Relist High u l st HR) as [HR' [f E]].
  split; [done|]. rewrite E. split; [apply Relist_offers|]. intros p Hp. rewrite Relist_lookup. by apply fmap_is_Some.
Qed.

(** Nobody is asked for a look at the interface. *)
Lemma Prepared_by_handle u Image Controller l st : Prepared u Image Controller EFI_OPEN_PROTOCOL_BY_HANDLE_PROTOCOL l st = st.
Proof using. unfold Prepared, MustAsk. ground_bools. by rewrite andb_false_r. Qed.

Lemma OpenInterface_run High st u p prot Image Controller Attrs :
  Held High st -> Interfaces st !! p = Some prot -> ProtHandle prot = u -> ValidAttributes Attrs = true ->
  let st' := SetLocked true (Prepared u Image Controller Attrs (OpenList prot) (SetLocked false st)) in
  exists prot', Interfaces st' !! p = Some prot' /\
    let r := OpenRule (bool_decide (is_Some (AllocatePool st' []))) Image Controller Attrs (OpenList prot') in
    OpenInterface u p Image Controller Attrs st = Done (r.1, WithOpens p prot' r.2 st').
Proof using Q.
  intros HH Hp Hu Hv st'. pose proof HH as ([L _] & Hl & _). pose proof (linked_opens _ _ _ _ _ _ _ L p prot Hp) as Hok.
  pose proof Hok as [Hc _]. subst st'. unfold OpenInterface, OpenRule, Prepared, MustAsk. erewrite deref_run by exact Hp.
  rewrite ScanOpenList_spec. cbn [app orb].
  set (B := HasFlag Attrs EFI_OPEN_PROTOCOL_BY_DRIVER). set (X := HasFlag Attrs EFI_OPEN_PROTOCOL_EXCLUSIVE).
  destruct (existsb (is_exact _ _ _) (OpenList prot) && B) eqn:E1; cbn [negb andb].
  { rewrite SetLocked_again by done. exists prot. split; [done|]. rewrite E1. unfold UpdateInterface. hm_run. cbn [fst snd].
    rewrite Hc. done. }
  assert (existsb (is_exact Image Controller Attrs) (OpenList prot) && negb X =
          existsb (is_exact Image Controller Attrs) (OpenList prot) && negb (B || X)) as HX.
  { revert E1. by destruct (existsb _ _), B. }
  rewrite HX. destruct (existsb (is_exact _ _ _) (OpenList prot) && negb (B || X)) eqn:E2.
  { assert (X = false) as Xf by (revert E2; by destruct (existsb _ _), B, X). rewrite Xf. cbn [andb].
    rewrite SetLocked_again by done. exists prot. split; [done|]. rewrite E1. rewrite Xf in E2. rewrite E2.
    unfold UpdateInterface. hm_run. cbn [fst snd]. unfold WithOpens. rewrite count_first_length, Hc. done. }
  destruct (CheckOpenConflicts_run High st u p prot Attrs HH Hp Hu Hv) as (prot' & H' & Hp' & HC & Hsame' & E). fold X B in H', Hp', Hsame', E |- *.
  rewrite (HM_bind_run _ _ _ _ _ E). clear E.
  assert (existsb (is_exact Image Controller Attrs) (OpenList prot') && B = false /\
          existsb (is_exact Image Controller Attrs) (OpenList prot') && negb (B || X) = false) as [F1 F2].
  { destruct (X && _ && _) eqn:Eask; [|by rewrite (Hsame' eq_refl)]. apply andb_true_iff in Eask as [[HX1 _]%andb_true_iff He%negb_true_iff].
    assert (existsb (is_exact Image Controller Attrs) (OpenList prot') = false) as ->; [|done].
    apply (NoneCame_existsb _ _ is_exclusive HC (fun _ H => or_intror H)) in He. apply not_true_is_false. intros (D & HD & Hex)%existsb_elem.
    apply not_true_iff_false in He. apply He, existsb_elem. exists D. split; [done|]. unfold is_exact in Hex. unfold is_exclusive.
    by assert (Attributes D = Attrs) as -> by (bool_to_Z; done). }
  set (st' := SetLocked true (if X && _ && _ then _ else _)) in *. exists prot'. split; [done|].
  pose proof (linked_opens _ _ _ _ _ _ _ (proj1 (proj1 H')) p prot' Hp') as Hok'. pose proof (WithOpens_same st' p prot' Hp' Hok') as Hsame.
  rewrite F1, F2. destruct Hok' as [Hc' _].
  destruct (_ && (_ || _)); cbn [EFI_ERROR fst snd]; [by rewrite Hsame|].
  destruct (Image =? 0); cbn [fst snd]; [by rewrite Hsame|]. unfold Allocate. hm_run.
  destruct (AllocatePool st' []) as [o|] eqn:Eo; simpl; [|by rewrite Hsame].
  rewrite (proj2 (Z.eqb_neq o 0)) by (by apply (AllocatePool_fresh st' [] o)). unfold UpdateInterface. hm_run. cbn [fst snd].
  unfold mret, HM_ret, WithOpens. do 5 f_equal. rewrite Hc', length_app. unfold add64, u64. rewrite Zplus_mod_idemp_l. f_equal. simpl. lia.
Qed.

(** The first interface of a handle for a protocol. *)
Definition provider st (hd : IHANDLE) (Protocol : Z) : option (Z * PROTOCOL_INTERFACE) :=
  p ← head (filter (fun q => fst <$> offer st q = Some Protocol) (Protocols hd));
  prot ← Interfaces st !! p;
  Some (p, prot).

(** The reference: status, the interface stored and the state.  Where a driver
    has to be asked first, the rule is applied to what it has left. *)
Definition OpenReference st (u Protocol Image Controller Attrs : Z) : EFI_STATUS * option Z * HandleState HS :=
  match Handles st !! u with
  | None => (EFI_INVALID_PARAMETER, None, st)
  | Some hd =>
    if EFI_ERROR (AttributesStatus st u Image Controller Attrs) then (EFI_INVALID_PARAMETER, None, st) else
    match provider st hd Protocol with
    | None => (EFI_UNSUPPORTED, if Attrs =? EFI_OPEN_PROTOCOL_TEST_PROTOCOL then None else Some 0, st)
    | Some (p, prot) =>
      let st1 := Prepared u Image Controller Attrs (OpenList prot) st in
      let prot := default prot (Interfaces st1 !! p) in
      let '(Status, l) :=
        OpenRule (bool_decide (is_Some (AllocatePool (SetLocked true st1) []))) Image Controller Attrs (OpenList prot) in
      (Status,
       if Attrs =? EFI_OPEN_PROTOCOL_TEST_PROTOCOL then None
       else if EFI_ERROR Status && negb (bool_decide (Status = EFI_ALREADY_STARTED)) then None else Some (Interface prot),
       WithOpens p prot l st1)
    end
  end.

Lemma provider_Some st hd Protocol p prot :
  provider st hd Protocol = Some (p, prot) <->
  head (filter (fun q => fst <$> offer st q = Some Protocol) (Protocols hd)) = Some p /\ Interfaces st !! p = Some prot.
Proof using.
  unfold provider. split.
  - intros (q & Eq & (x & Ex & [= -> ->])%bind_Some)%bind_Some. done.
  - intros [-> Hp]. simpl. by rewrite Hp.
Qed.

Lemma head_filter_elem (P : Z -> Prop) `{!forall q, Decision (P q)} (l : list Z) p : head (filter P l) = Some p -> p ∈ l /\ P p.
Proof using.
  intros Hh. assert (p ∈ filter P l) as Hin by (destruct (filter P l); [done|]; injection Hh as ->; by left).
  apply list_elem_of_filter in Hin. tauto.
Qed.

Lemma AttributesStatus_valid st u Image Controller Attrs :
  EFI_ERROR (AttributesStatus st u Image Controller Attrs) = false -> ValidAttributes Attrs = true.
Proof using. unfold AttributesStatus. by destruct (ValidAttributes Attrs). Qed.

Lemma OpenRule_supported Memory Image Controller Attrs l : (OpenRule Memory Image Controller Attrs l).1 ≠ EFI_UNSUPPORTED.
Proof using. unfold OpenRule. by repeat case_match. Qed.

(** The end of CoreOpenProtocol. *)
Lemma OpenStore_run st p prot l Attrs (Status : EFI_STATUS) :
  Locked st = false -> p ≠ 0 -> Status ≠ EFI_UNSUPPORTED ->
  (Out ← (if negb (Attrs =? EFI_OPEN_PROTOCOL_TEST_PROTOCOL) then
            if (negb (EFI_ERROR Status) || bool_decide (Status = EFI_ALREADY_STARTED)) && negb (p =? 0)
            then prot ← deref Interfaces p; mret (Some (Interface prot))
            else if bool_decide (Status = EFI_UNSUPPORTED) then mret (Some 0) else mret None
          else mret None);
   CoreReleaseProtocolLock ;; mret (Status, Out)) (WithOpens p prot l (SetLocked true st)) =
  Done (Status,
        if Attrs =? EFI_OPEN_PROTOCOL_TEST_PROTOCOL then None
        else if EFI_ERROR Status && negb (bool_decide (Status = EFI_ALREADY_STARTED)) then None else Some (Interface prot),
        WithOpens p prot l st).
Proof using Q.
  intros Hl Hp Hns. set (st2 := WithOpens p prot l (SetLocked true st)).
  assert (forall o : option Z, (CoreReleaseProtocolLock ;; mret (Status, o)) st2 = Done ((Status, o), WithOpens p prot l st)) as Hrel.
  { intros o. rewrite Release_run by done. unfold st2, WithOpens. destruct st; simpl in *; by subst. }
  rewrite (proj2 (Z.eqb_neq p 0)) by done. rewrite (bool_decide_eq_false_2 (Status = EFI_UNSUPPORTED)) by done.
  assert (forall k : _ -> HM HS (EFI_STATUS * option Z), ((prot ← deref Interfaces p; mret (Some (Interface prot))) ≫= k) st2 = k (Some (Interface prot)) st2) as Hst.
  { intros k. by hm_run. }
  destruct (Attrs =? _), (EFI_ERROR Status), (bool_decide _); cbn [negb orb andb]; rewrite ?Hst; hm_run; apply Hrel.
Qed.

Lemma CoreOpenProtocol_run High st u Protocol given Image Controller Attrs :
  Ready High st -> given || (Attrs =? EFI_OPEN_PROTOCOL_TEST_PROTOCOL) = true ->
  CoreOpenProtocol u (Some Protocol) given Image Controller Attrs st = Done (OpenReference st u Protocol Image Controller Attrs).
Proof using Q.
  intros ([L N] & Hl & Ha) Hg. set (st1 := SetLocked true st). assert (Linked st1) as L1 by done.
  assert (forall (s : EFI_STATUS) (o : option Z), (CoreReleaseProtocolLock ;; mret (s, o)) st1 = Done ((s, o), st)) as Hrel.
  { intros s o. rewrite Release_run by done. unfold st1. by rewrite SetLocked_back. }
  unfold CoreOpenProtocol. replace (negb (Attrs =? _) && negb given) with false by (by destruct given, (Attrs =? _)).
  rewrite Acquire_run by done. fold st1. rewrite bind_run, (HM_bind_run _ _ _ _ _ (CoreValidateHandle_run st1 u L1 eq_refl)).
  change (Handles st1) with (Handles st). unfold OpenReference. destruct (Handles st !! u) as [hd|] eqn:Hh.
  2:{ rewrite bool_decide_eq_false_2 by (by intros [? ?]). cbn [EFI_ERROR]. hm_run. destruct (negb (Attrs =? _)); hm_run; apply Hrel. }
  rewrite bool_decide_eq_true_2 by done. cbn [EFI_ERROR].
  rewrite bind_run, (HM_bind_run _ _ _ _ _ (CheckOpenAttributes_run st1 u Image Controller Attrs L1 eq_refl)).
  change (AttributesStatus st1) with (AttributesStatus st). destruct (EFI_ERROR (AttributesStatus st _ _ _ _)) eqn:Es.
  { assert (AttributesStatus st u Image Controller Attrs = EFI_INVALID_PARAMETER) as Ei
      by (revert Es; unfold AttributesStatus; by destruct (_ && _)).
    rewrite Ei. hm_run. destruct (negb (Attrs =? _)); cbn; hm_run; apply Hrel. }
  apply AttributesStatus_valid in Es as Hv. rewrite bind_run, (HM_bind_run _ _ _ _ _ (CoreGetProtocolInterface_run st1 u hd Protocol L1 Hh)).
  change (offer st1) with (offer st). destruct (head _) as [p|] eqn:Ep.
  2:{ assert (provider st hd Protocol = None) as -> by (unfold provider; by rewrite Ep). cbn [from_option]. cbn. hm_run.
      destruct (Attrs =? _); cbn; hm_run; apply Hrel. }
  destruct (head_filter_elem _ _ _ Ep) as [Hin _]. destruct (Linked_interface st u hd p L Hh Hin) as (Hp0 & prot & en & Hp & Hu & _).
  rewrite (proj2 (provider_Some st hd Protocol p prot)) by done. cbn [from_option id]. rewrite (proj2 (Z.eqb_neq p 0)) by done.
  destruct (OpenInterface_run High st1 u p prot Image Controller Attrs ltac:(by split_and!) Hp Hu Hv) as (prot' & Hp' & E).
  rewrite bind_run, (HM_bind_run _ _ _ _ _ E). clear E. unfold st1 in Hp' |- *. rewrite SetLocked_back in Hp' |- * by done.
  destruct (Prepared_Relist High u Image Controller Attrs (OpenList prot) st ltac:(by split_and!)) as [(_ & Hl2 & _) _]. cbv zeta.
  set (st2 := Prepared u Image Controller Attrs (OpenList prot) st) in *. change (Interfaces (SetLocked true st2)) with (Interfaces st2) in Hp'.
  rewrite Hp'. cbn [from_option id].
  pose proof (OpenRule_supported (bool_decide (is_Some (AllocatePool (SetLocked true st2) []))) Image Controller Attrs (OpenList prot')) as Hns.
  destruct (OpenRule _ _ _ _ _) as [Status l]. cbn [fst snd] in Hns |- *. hm_run. apply OpenStore_run; [congruence|done|done].
Qed.

(** ** Uninstallation *)

(** An open that keeps the interface from being removed. *)
Definition is_blocking (D : OPEN_PROTOCOL_DATA) : bool := is_driver D || negb (is_weak D).

Lemma DisconnectLoop_run High st u p prot :
  Held High st -> Interfaces st !! p = Some prot -> ProtHandle prot = u ->
  let st' := SetLocked true (Asked u (OpenList prot) (SetLocked false st)) in
  exists Status prot', Held High st' /\ Interfaces st' !! p = Some prot' /\ NoneCame (OpenList prot) (OpenList prot') /\
    DisconnectLoop Fuel u p st = Done (Status, st') /\ EFI_ERROR Status = existsb is_driver (OpenList prot').
Proof using Q.
  intros HH Hp Hu st'. pose proof quiet_fuel as Hf. destruct Fuel as [|[|fuel]]; [lia..|].
  destruct (FindDriverItem (OpenList prot)) as [D|] eqn:HF.
  - destruct (AskDriver_run High st u p prot D (fun Status => if EFI_ERROR Status then mret Status else DisconnectLoop (S fuel) u p)
      HH Hp Hu HF) as (Status & prot' & E & H' & Hp' & HE & HA). fold st' in E, H', Hp'.
    exists (if EFI_ERROR Status then Status else EFI_SUCCESS), prot'. split_and!; [done|done|done| |].
    + remember (S fuel) as fuel'. cbn [DisconnectLoop]. hm_run. rewrite HF, E. rewrite HE. destruct (existsb is_driver (OpenList prot')) eqn:Hd'; [done|].
      subst fuel'. cbn [DisconnectLoop]. hm_run. by rewrite (proj2 (FindDriverItem_None _) Hd').
    + rewrite <- HE. destruct (EFI_ERROR Status) eqn:X; by rewrite ?X.
  - subst st'. unfold Asked. rewrite HF, SetLocked_again by apply HH. exists EFI_SUCCESS, prot. split_and!; [done|done|apply NoneCame_refl| |].
    + cbn [DisconnectLoop]. hm_run. by rewrite HF.
    + apply FindDriverItem_None in HF. by rewrite HF.
Qed.

Lemma strong_items_nil l : existsb is_driver l = false -> strong_items l = [] <-> existsb is_blocking l = false.
Proof using.
  unfold strong_items. induction l as [|D l IH]; [done|]. simpl. intros [Hd Hl]%orb_false_iff. rewrite filter_cons. unfold is_blocking at 1.
  rewrite Hd. simpl. destruct (is_weak D); simpl; [by apply IH|done].
Qed.

(** Dropping the lock to connect drivers again. *)
Lemma Reconnect_run {A} (a : A) st u :
  Locked st = true ->
  (CoreReleaseProtocolLock ;; _ ← CoreConnectController u; CoreAcquireProtocolLock ;; mret a) st = Done (a, st).
Proof using Q.
  intros Hl. rewrite Release_run by done. destruct (quiet_connect u (SetLocked false st)) as (s & E).
  rewrite (HM_bind_run _ _ _ _ _ E), Acquire_run by done. by rewrite SetLocked_again.
Qed.

Lemma DisconnectUsing_run High st u p prot :
  Held High st -> Interfaces st !! p = Some prot -> ProtHandle prot = u -> Z.of_nat (length (OpenList prot)) < 2 ^ 64 ->
  let st' := SetLocked true (Asked u (OpenList prot) (SetLocked false st)) in
  exists prot' l, Held High st' /\ Interfaces st' !! p = Some prot' /\
    CoreDisconnectControllersUsingProtocolInterface u p st =
    Done (if existsb is_blocking (OpenList prot') then EFI_ACCESS_DENIED else EFI_SUCCESS, WithOpens p prot' l st') /\
    OpensOk (SetOpenList l (u64 (Z.of_nat (length l))) prot').
Proof using Q.
  intros HH Hp Hu Hlen st'. unfold CoreDisconnectControllersUsingProtocolInterface.
  destruct (DisconnectLoop_run High st u p prot HH Hp Hu) as (s & prot' & H' & Hp' & (_ & _ & HF) & Es & Hs). fold st' in H', Hp', Es.
  rewrite (HM_bind_run _ _ _ _ _ Es). pose proof (linked_opens _ _ _ _ _ _ _ (proj1 (proj1 H')) p prot' Hp') as Hok. pose proof Hok as [Hc Hdr].
  specialize (HF Hlen). exists prot'. destruct (EFI_ERROR s) eqn:EE; cbn [negb].
  - exists (OpenList prot'). rewrite WithOpens_same by done. split_and!; [done|done| |by split]. hm_run. cbn [orb]. rewrite Reconnect_run by done.
    assert (existsb is_blocking (OpenList prot') = true) as ->; [|done]. symmetry in Hs. apply existsb_exists in Hs as (D & HD & Hd).
    apply existsb_exists. exists D. split; [done|]. unfold is_blocking. by rewrite Hd.
  - symmetry in Hs. pose proof (strong_items_nil _ Hs) as Hnil. apply EFI_ERROR_false in EE as ->.
    assert (length (strong_items (OpenList prot')) <= length (OpenList prot'))%nat as Hle by apply length_filter.
    assert (drivers (strong_items (OpenList prot')) <= drivers (OpenList prot'))%nat as Hdle by apply drivers_filter.
    hm_run. replace (OpenListCount prot') with (u64 (0 + Z.of_nat (length (OpenList prot')))). rewrite RemoveWeakItems_spec.
    rewrite Z.add_0_l. unfold UpdateInterface. hm_run. cbn [SetOpenList OpenListCount orb].
    exists (strong_items (OpenList prot')). fold (WithOpens p prot' (strong_items (OpenList prot')) st').
    split_and!; [done|done| |split; simpl; [done|lia]].
    rewrite u64_small by lia. destruct (strong_items (OpenList prot')) as [|D l] eqn:El; [by rewrite (proj1 Hnil eq_refl)|].
    destruct (existsb is_blocking (OpenList prot')); [|by specialize (proj2 Hnil eq_refl)].
    replace (0 <? _) with true by (symmetry; apply Z.ltb_lt; simpl; lia). by rewrite Reconnect_run.
Qed.

(** Whether somebody keeps an offered interface from being removed, after its
    driver has been asked to let go. *)
Definition blocked st (h : Z) (o : Z * Z) : bool :=
  from_option (fun '(p, prot) => existsb is_blocking (OpenList (default prot (Interfaces (Asked h (OpenList prot) st) !! p)))) false
    (hd ← Handles st !! h; p ← offering st hd o; prot ← Interfaces st !! p; Some (p, prot)).

Definition RemovalStatus st (h : Z) (o : Z * Z) : EFI_STATUS :=
  match offers st !! h with
  | None => EFI_INVALID_PARAMETER
  | Some l => if bool_decide (o ∈ l) then if blocked st h o then EFI_ACCESS_DENIED else EFI_SUCCESS else EFI_NOT_FOUND
  end.

(** Open lists are shorter than the address space. *)
Definition OpensFit st : Prop := map_Forall (fun _ prot => Z.of_nat (length (OpenList prot)) < 2 ^ 64) (Interfaces st).

Lemma offers_WithOpens st p prot l : Interfaces st !! p = Some prot -> offers (WithOpens p prot l st) = offers st.
Proof using.
  intros Hp. apply offers_ext; [done|]. intros h hd q _ _. unfold offer. simpl. destruct (decide (p = q)) as [<-|Hq].
  - by rewrite lookup_insert_eq, Hp.
  - by rewrite lookup_insert_ne.
Qed.

Lemma Inv_WithOpens st p prot l :
  Inv st -> Interfaces st !! p = Some prot -> OpensOk (SetOpenList l (u64 (Z.of_nat (length l))) prot) -> Inv (WithOpens p prot l st).
Proof using. intros [L N] Hp Ho. split; [|done]. by apply (Linked_set_interface _ _ _ _ _ _ _ p prot). Qed.

(** The common beginning of the removal and the replacement of an interface:
    either they end with an error and offers do not change, or they go on. *)
Lemma Removal_run High st h Protocol i (Rest : HM HS EFI_STATUS) :
  Ready High st -> OpensFit st ->
  let run := Status ← CoreValidateHandle h;
             if EFI_ERROR Status then mret Status else
             Prot ← CoreFindProtocolInterface h Protocol i;
             if Prot =? 0 then mret EFI_NOT_FOUND else
             Status ← CoreDisconnectControllersUsingProtocolInterface h Prot;
             if EFI_ERROR Status then mret Status else Rest in
  exists st', Held High st' /\ offers st' = offers st /\
    run (SetLocked true st) =
      if EFI_ERROR (RemovalStatus st h (Protocol, i)) then Done (RemovalStatus st h (Protocol, i), st') else Rest st'.
Proof using Q.
  intros ([L N] & Hl & Ha) Hfit run. subst run. set (st1 := SetLocked true st). assert (Linked st1) as L1 by done.
  assert (Held High st1) as H1 by (split_and!; [by split|done|done]).
  rewrite (HM_bind_run _ _ _ _ _ (CoreValidateHandle_run st1 h L1 eq_refl)). change (Handles st1) with (Handles st).
  unfold RemovalStatus, blocked. destruct (Handles st !! h) as [hd|] eqn:Hh.
  2:{ rewrite bool_decide_eq_false_2 by (by intros [? ?]). rewrite (proj2 (offers_None st h) Hh). by exists st1. }
  rewrite bool_decide_eq_true_2 by done. rewrite (offers_Some st h hd Hh). cbn [EFI_ERROR].
  rewrite (HM_bind_run _ _ _ _ _ (CoreFindProtocolInterface_run st1 h hd Protocol i L1 eq_refl Hh)). change (offer st1) with (offer st).
  fold (offering st hd (Protocol, i)). destruct (offering st hd (Protocol, i)) as [p|] eqn:Ho.
  2:{ rewrite bool_decide_eq_false_2; [by exists st1|]. apply (offering_None st h hd) in Ho; [|done]. by rewrite (offers_Some st h hd Hh) in Ho. }
  destruct (offering_Some st h hd _ p L Hh Ho) as (Hp0 & Hin & Hof & prot & en & Hp & Hu & _). cbn [from_option id].
  rewrite (proj2 (Z.eqb_neq p 0)) by done. rewrite bool_decide_eq_true_2 by (apply list_elem_of_omap; by exists p).
  destruct (DisconnectUsing_run High st1 h p prot H1 Hp Hu (Hfit p prot Hp)) as (prot' & l & H' & Hp' & E & Hok).
  rewrite (HM_bind_run _ _ _ _ _ E). clear E. unfold st1 in H', Hp' |- *. rewrite SetLocked_back in H', Hp' |- * by done.
  destruct (Asked_Relist High h (OpenList prot) st ltac:(by split_and!)) as [_ [f Ef]].
  assert (offers (Asked h (OpenList prot) st) = offers st) as Ho2 by (rewrite Ef; apply Relist_offers).
  set (st2 := Asked h (OpenList prot) st) in *. cbn. rewrite Ho. cbn. rewrite Hp. cbn. fold st2.
  change (Interfaces (SetLocked true st2)) with (Interfaces st2) in Hp'. rewrite Hp'. cbn. destruct H' as (I' & Hl' & Ha').
  exists (WithOpens p prot' l (SetLocked true st2)). split; [|split; [|by destruct (existsb is_blocking _)]].
  - split_and!; [by apply Inv_WithOpens|done|done].
  - by rewrite (offers_WithOpens (SetLocked true st2)).
Qed.

Lemma Release_held High st (s : EFI_STATUS) :
  Held High st -> (CoreReleaseProtocolLock ;; mret s) st = Done (s, SetLocked false st) /\ Ready High (SetLocked false st).
Proof using Q. intros (Hi & Hl & Ha). split; [by rewrite Release_run|]. split_and!; [by apply (Inv_view st)|done|done]. Qed.

Lemma CoreUninstallProtocolInterface_run High st h Protocol i :
  Ready High st -> OpensFit st ->
  exists st', CoreUninstallProtocolInterface h (Some Protocol) i st = Done (RemovalStatus st h (Protocol, i), st') /\ Ready High st' /\
    offers st' = if EFI_ERROR (RemovalStatus st h (Protocol, i)) then offers st else withdraw h (Protocol, i) (offers st).
Proof using Q.
  intros HR Hfit. unfold CoreUninstallProtocolInterface. rewrite Acquire_run by apply HR.
  destruct (Removal_run High st h Protocol i (Prot ← CoreRemoveInterfaceFromProtocol h Protocol i; RemoveFromHandle h Prot) HR Hfit)
    as (st1 & H1 & Ho1 & E). unfold mbind at 1, HM_bind at 1. rewrite E. clear E.
  destruct (EFI_ERROR (RemovalStatus st h (Protocol, i))) eqn:EE.
  - destruct (Release_held High st1 (RemovalStatus st h (Protocol, i)) H1) as [-> HR']. eexists. split; [done|]. split; [done|]. exact Ho1.
  - apply EFI_ERROR_false in EE. rewrite EE. destruct H1 as (Hi & Hl1 & Ha1).
    unfold RemovalStatus in EE. destruct (offers st !! h) as [l|] eqn:El; [|done].
    destruct (bool_decide_reflect ((Protocol, i) ∈ l)) as [Hin|]; [|done].
    destruct (UninstallBody_run st1 h Protocol i Hi Hl1) as (s & st2 & -> & I2 & L2 & A2 & Hs).
    { destruct (Handles st1 !! h) eqn:Eh; [done|]. apply offers_None in Eh. rewrite Ho1 in Eh. congruence. }
    rewrite Ho1, El, decide_True in Hs by done. destruct Hs as [-> Ho2].
    destruct (Release_held High st2 EFI_SUCCESS) as [-> HR']; [split_and!; [done|done|congruence]|]. eexists. split; [done|]. by split.
Qed.

Lemma CoreNotifyProtocolEntry_run st e en :
  Linked st -> Locked st = true -> Entries st !! e = Some en ->
  CoreNotifyProtocolEntry e st = Done (tt, SignalAll (Notify en) st).
Proof using.
  intros L Hl He. unfold CoreNotifyProtocolEntry. rewrite (HM_bind_run _ _ st tt st) by (by apply ASSERT_LOCKED_run). hm_run.
  apply SignalLoop_run. intros n. by apply (Linked_notifies st e en).
Qed.

Lemma ReinstallRest_run st h e en :
  Linked st -> Locked st = true -> Entries st !! e = Some en ->
  ReinstallRest h e st = Done (EFI_SUCCESS, SignalAll (Notify en) st).
Proof using Q.
  intros L Hl He. unfold ReinstallRest. rewrite Release_run by done. destruct (quiet_connect h (SetLocked false st)) as (s & E).
  rewrite (HM_bind_run _ _ _ _ _ E), Acquire_run by done. rewrite SetLocked_again by done.
  by rewrite (HM_bind_run _ _ _ _ _ (CoreNotifyProtocolEntry_run st e en L Hl He)).
Qed.

Lemma CoreReinstallProtocolInterface_run High st h Protocol Old New :
  Ready High st -> OpensFit st ->
  exists st', CoreReinstallProtocolInterface h (Some Protocol) Old New st = Done (RemovalStatus st h (Protocol, Old), st') /\ Ready High st' /\
    offers st' = if EFI_ERROR (RemovalStatus st h (Protocol, Old)) then offers st
                 else replace_offer h (Protocol, Old) (Protocol, New) (offers st).
Proof using Q.
  intros HR Hfit. unfold CoreReinstallProtocolInterface. rewrite Acquire_run by apply HR.
  destruct (Removal_run High st h Protocol Old (ReinstallBody h Protocol Old New EFI_NOT_FOUND (ReinstallRest h)) HR Hfit)
    as (st1 & H1 & Ho1 & E). pose proof E as E'. unfold ReinstallBody in E' at 1. unfold ReinstallRest in E' at 1.
  unfold mbind at 1, HM_bind at 1. rewrite E'. clear E E'.
  destruct (EFI_ERROR (RemovalStatus st h (Protocol, Old))) eqn:EE.
  - destruct (Release_held High st1 (RemovalStatus st h (Protocol, Old)) H1) as [-> HR']. eexists. split; [done|]. split; [done|]. exact Ho1.
  - apply EFI_ERROR_false in EE. rewrite EE. destruct H1 as (Hi & Hl1 & Ha1).
    unfold RemovalStatus in EE. destruct (offers st !! h) as [l|] eqn:El; [|done].
    destruct (bool_decide_reflect ((Protocol, Old) ∈ l)) as [Hin|]; [|done].
    destruct (Handles st1 !! h) as [hd|] eqn:Eh; [|apply offers_None in Eh; rewrite Ho1 in Eh; congruence].
    destruct (offering st1 hd (Protocol, Old)) as [p|] eqn:Eo.
    2:{ apply (offering_None st1 h hd) in Eo; [|done]. by rewrite Ho1, El in Eo. }
    destruct (ReinstallBody_run st1 h hd Protocol Old New p EFI_NOT_FOUND (ReinstallRest h) Hi Hl1 Eh Eo) as (e & st2 & -> & I2 & L2 & A2 & [en He] & Ho2).
    rewrite (ReinstallRest_run st2 h e en (proj1 I2) L2 He).
    destruct (SignalAll_same (Notify en) st2) as (Hv & _ & HL & HA).
    destruct (Release_held High (SignalAll (Notify en) st2) EFI_SUCCESS) as [-> HR'].
    { split_and!; [by apply NoEmpty_signal|by rewrite HL|rewrite HA; congruence]. }
    eexists. split; [done|]. split; [done|]. change (offers (SetLocked false ?x)) with (offers x). rewrite offers_SignalAll, Ho2. by rewrite Ho1.
Qed.

(** ** Installation *)

(** The protocols that a handle supports. *)
Definition protocols_on st (h : Z) : list Z := (default [] (offers st !! h)).*1.

Lemma provider_None st h hd Protocol :
  Linked st -> Handles st !! h = Some hd -> provider st hd Protocol = None <-> Protocol ∉ protocols_on st h.
Proof using.
  intros L Hh. unfold provider, protocols_on. rewrite (offers_Some st h hd Hh). simpl. split.
  - intros Hn ([P i] & -> & (q & Hq & Ho)%list_elem_of_omap)%list_elem_of_fmap.
    destruct (head _) as [p|] eqn:Ep.
    + destruct (head_filter_elem _ _ _ Ep) as [Hin _]. destruct (Linked_interface st h hd p L Hh Hin) as (_ & prot & _ & Hp & _).
      simpl in Hn. by rewrite Hp in Hn.
    + assert (q ∈ filter (λ q, fst <$> offer st q = Some P) (Protocols hd)) as Hin by (apply list_elem_of_filter; by rewrite Ho).
      simpl in Ep. destruct (filter _ _); [by apply elem_of_nil in Hin|done].
  - intros Hn. destruct (head _) as [p|] eqn:Ep; [|done]. destruct Hn. destruct (head_filter_elem _ _ _ Ep) as [Hin Hp].
    apply fmap_Some in Hp as ([P i] & Ho & ->). apply list_elem_of_fmap. exists (P, i). split; [done|]. apply list_elem_of_omap. by exists p.
Qed.

Lemma OpenRule_by_handle Memory Image Controller l :
  let s := (OpenRule Memory Image Controller EFI_OPEN_PROTOCOL_BY_HANDLE_PROTOCOL l).1 in
  s = EFI_SUCCESS \/ Memory = false /\ s = EFI_OUT_OF_RESOURCES.
Proof using.
  unfold OpenRule. ground_bools. rewrite andb_false_r. cbn [orb andb negb]. cbn iota.
  destruct (existsb _ l); [by left|]. destruct (Image =? 0), Memory; [by left..|by right].
Qed.

Lemma offers_OpenReference High st u Protocol Image Controller Attrs : Ready High st ->
  offers (OpenReference st u Protocol Image Controller Attrs).2 = offers st.
Proof using Q.
  intros HR. unfold OpenReference. destruct (Handles st !! u) as [hd|]; [|done]. destruct (EFI_ERROR _); [done|].
  destruct (provider st hd Protocol) as [[p prot]|] eqn:Ep; [|done]. apply provider_Some in Ep as [_ Hp].
  destruct (Prepared_Relist High u Image Controller Attrs (OpenList prot) st HR) as (_ & Ho & Hp').
  destruct (Hp' p) as [prot1 Hp1]; [by eexists|]. clear Hp'. rename Hp1 into Hp', prot1 into prot'. cbv zeta. rewrite Hp'. cbn [from_option id].
  destruct (OpenRule _ _ _ _ _). simpl. by rewrite (offers_WithOpens _ p prot').
Qed.

(** The check that CoreInstallProtocolInterface makes with CoreHandleProtocol. *)
Lemma CoreHandleProtocol_status High st u Protocol :
  Ready High st ->
  exists Status o st', CoreHandleProtocol u (Some Protocol) true st = Done ((Status, o), st') /\ Ready High st' /\ offers st' = offers st /\
    (if decide (Protocol ∈ protocols_on st u)
     then (Status = EFI_OUT_OF_RESOURCES /\ AllocatePool (SetLocked true st) [] = None \/
           Status = EFI_SUCCESS /\ exists i, o = Some i /\ (Protocol, i) ∈ default [] (offers st !! u))
     else st' = st /\ Status = (if decide (is_Some (offers st !! u)) then EFI_UNSUPPORTED else EFI_INVALID_PARAMETER)).
Proof using Q.
  intros HR. pose proof HR as ([L N] & Hl & Ha). pose proof (CoreOpenProtocol_run High st u Protocol true gDxeCoreImageHandle 0 EFI_OPEN_PROTOCOL_BY_HANDLE_PROTOCOL HR eq_refl) as E.
  fold (CoreHandleProtocol u (Some Protocol) true) in E.
  pose proof (offers_OpenReference High st u Protocol gDxeCoreImageHandle 0 EFI_OPEN_PROTOCOL_BY_HANDLE_PROTOCOL HR) as Ho.
  destruct (OpenReference st u Protocol gDxeCoreImageHandle 0 EFI_OPEN_PROTOCOL_BY_HANDLE_PROTOCOL) as [[Status o] st'] eqn:ER.
  exists Status, o, st'. split; [done|]. split; [by apply (CoreOpenProtocol_safe u (Some Protocol) true gDxeCoreImageHandle 0 EFI_OPEN_PROTOCOL_BY_HANDLE_PROTOCOL High st (Status, o) st')|].
  split; [done|]. unfold OpenReference in ER. destruct (Handles st !! u) as [hd|] eqn:Hh.
  2:{ apply offers_None in Hh. unfold protocols_on. rewrite Hh. rewrite decide_False by apply not_elem_of_nil. rewrite decide_False by (by intros [? ?]).
      by injection ER as <- _ <-. }
  change (EFI_ERROR (AttributesStatus st u gDxeCoreImageHandle 0 EFI_OPEN_PROTOCOL_BY_HANDLE_PROTOCOL)) with false in ER. cbn iota in ER.
  destruct (provider st hd Protocol) as [[p prot]|] eqn:Ep.
  - rewrite decide_True.
    2:{ destruct (decide (Protocol ∈ protocols_on st u)) as [|Hn]; [done|]. apply (provider_None st u hd) in Hn; [congruence|done|done]. }
    apply provider_Some in Ep as [Eh Hp]. rewrite Prepared_by_handle, Hp in ER. cbv zeta in ER. cbn [from_option id] in ER.
    destruct (head_filter_elem _ _ _ Eh) as [Hin Hof]. apply fmap_Some in Hof as ([P i] & Hof & ->).
    assert (i = Interface prot) as ->.
    { unfold offer in Hof. rewrite Hp in Hof. simpl in Hof. apply bind_Some in Hof as (en & _ & Hof). by injection Hof. }
    assert ((P, Interface prot) ∈ default [] (offers st !! u)) as Hel.
    { rewrite (offers_Some st u hd Hh). apply list_elem_of_omap. by exists p. }
    pose proof (OpenRule_by_handle (bool_decide (is_Some (AllocatePool (SetLocked true st) []))) gDxeCoreImageHandle 0 (OpenList prot)) as Hr.
    destruct (OpenRule _ _ _ _ _) as [s l]. simpl in Hr. change (EFI_OPEN_PROTOCOL_BY_HANDLE_PROTOCOL =? _) with false in ER.
    destruct Hr as [->|[Hm ->]]; injection ER as <- <- _; [right; split; [done|]; by eexists|left].
    split; [done|]. apply bool_decide_eq_false_1 in Hm. by apply eq_None_not_Some.
  - rewrite decide_False by (by apply (provider_None st u hd)). rewrite decide_True by (eexists; by apply (offers_Some st u hd)).
    by injection ER as <- _ <-.
Qed.

(** The status of the check with CoreHandleProtocol when it does not find the
    protocol, or EFI_OUT_OF_RESOURCES where no handle is given. *)
Definition CheckStatus st (Given : Z) : EFI_STATUS :=
  if Given =? 0 then EFI_OUT_OF_RESOURCES
  else if decide (is_Some (offers st !! Given)) then EFI_UNSUPPORTED else EFI_INVALID_PARAMETER.

(** What an installation does to what is offered: with an error nothing, and
    the error says that the protocol is already there, that the handle is none,
    or that there is no memory; else the interface is the first of the handle,
    which is new if none was given. *)
Definition InstallSpec (Given Protocol i : Z) st (Status : EFI_STATUS) (h : Z) st' : Prop :=
  EFI_ERROR Status = true /\ h = Given /\ offers st' = offers st /\
    (Status = EFI_INVALID_PARAMETER /\ (Protocol ∈ protocols_on st Given \/ Given ≠ 0 /\ offers st !! Given = None) \/
     (Protocol ∉ protocols_on st Given) /\ NoMemory (SetLocked true st) Given Protocol (CheckStatus st Given) Status) \/
  Status = EFI_SUCCESS /\ h ≠ 0 /\ (Protocol ∉ protocols_on st h) /\
    (Given ≠ 0 /\ h = Given /\ is_Some (offers st !! Given) \/ Given = 0 /\ offers st !! h = None) /\
    offers st' = <[h := (Protocol, i) :: default [] (offers st !! h)]> (offers st).

Lemma CheckStatus_error st Given : EFI_ERROR (CheckStatus st Given) = true.
Proof using. unfold CheckStatus. destruct (_ =? _); [done|]. by destruct (decide _). Qed.

Lemma Installed_spec Given Protocol i st Status h st' :
  Protocol ∉ protocols_on st Given -> Installed Given Protocol i (CheckStatus st Given) (SetLocked true st) Status h st' ->
  InstallSpec Given Protocol i st Status (if negb (EFI_ERROR Status) then h else Given) st'.
Proof using.
  intros Hn [(Ho & HX)|[(Ho & -> & Hg & HN)|(-> & Hh & Hcase & Ho & _)]].
  - left. assert (EFI_ERROR Status = true) as HE by (destruct HX as [[-> _]|[[-> _]|[-> _]]]; [apply CheckStatus_error|done..]).
    rewrite HE. cbn [negb]. split_and!; [done|done|done|]. by right.
  - left. split_and!; [done|done|done|]. left. split; [done|]. by right.
  - right. cbn [EFI_ERROR negb]. split_and!; [done|done| |done|done]. destruct Hcase as [(_ & -> & _)|(_ & HN)]; [done|].
    unfold protocols_on. change (offers (SetLocked true st)) with (offers st) in HN. rewrite HN. apply not_elem_of_nil.
Qed.

Lemma CoreInstallProtocolInterface_run High st Given Protocol i NotifyThem :
  Ready High st -> (Protocol ∈ protocols_on st Given -> is_Some (AllocatePool (SetLocked true st) [])) ->
  exists Status h st',
    CoreInstallProtocolInterfaceNotify (Some Given) (Some Protocol) EFI_NATIVE_INTERFACE i NotifyThem st = Done ((Status, Some h), st') /\
    Ready High st' /\ InstallSpec Given Protocol i st Status h st' /\
    (Status = EFI_SUCCESS -> unopened st' h (Protocol, i)).
Proof using Q.
  intros HR Hmem. pose proof HR as ([L N] & Hl & Ha). unfold CoreInstallProtocolInterfaceNotify.
  assert (exists Status0 st1, (if negb (Given =? 0) then '(Status, _) ← CoreHandleProtocol Given (Some Protocol) true; mret Status
                               else mret EFI_OUT_OF_RESOURCES) st = Done (Status0, st1) /\ Ready High st1 /\ offers st1 = offers st /\
            (if decide (Protocol ∈ protocols_on st Given) then Status0 = EFI_SUCCESS else st1 = st /\ Status0 = CheckStatus st Given))
    as (Status0 & st1 & E & HR1 & Ho1 & Hs).
  { unfold CheckStatus. destruct (Z.eqb_spec Given 0) as [->|Hg]; cbn [negb].
    - exists EFI_OUT_OF_RESOURCES, st. split_and!; [done|done|done|]. rewrite decide_False; [done|]. unfold protocols_on.
      rewrite (proj2 (offers_None st 0)) by apply (Linked_nonzero st L). apply not_elem_of_nil.
    - destruct (CoreHandleProtocol_status High st Given Protocol HR) as (s & o & st1 & E & HR1 & Ho1 & Hs).
      exists s, st1. rewrite (HM_bind_run _ _ _ _ _ E). split_and!; [done|done|done|]. destruct (decide _) as [Hin|]; [|done].
      destruct Hs as [[_ Hna]|[-> _]]; [|done]. rewrite Hna in Hmem. by destruct (Hmem Hin). }
  change (negb (EFI_NATIVE_INTERFACE =? EFI_NATIVE_INTERFACE)) with false. cbn iota. rewrite (HM_bind_run _ _ _ _ _ E). clear E.
  destruct (decide (Protocol ∈ protocols_on st Given)) as [Hin|Hnin].
  { rewrite Hs. cbn [EFI_ERROR negb]. exists EFI_INVALID_PARAMETER, Given, st1. split_and!; [done|done| |done]. left.
    split_and!; [done|done|done|]. left. split; [done|]. by left. }
  destruct Hs as [-> ->]. rewrite CheckStatus_error. cbn [negb]. rewrite Acquire_run by apply HR1. rewrite <- bind_run.
  change (mbind (M:=HM HS) ?f (CoreFindProtocolEntry Protocol true)) with (InstallBody Given Protocol i NotifyThem (CheckStatus st Given)).
  assert (Inv (SetLocked true st)) as I1 by apply HR1.
  destruct (InstallBody_run (SetLocked true st) Given Protocol i NotifyThem (CheckStatus st Given) I1 eq_refl)
    as [(_ & Hg & Hin)|(Status & h & st2 & E & I2 & L2 & A2 & HI)].
  { destruct Hnin. apply list_elem_of_fmap. by exists (Protocol, i). }
  rewrite (HM_bind_run _ _ _ _ _ E), Release_run by done. eexists Status, _, _. split; [done|]. split_and!.
  - split_and!; [by apply (Inv_view st2)|done|]. simpl. rewrite A2. apply HR1.
  - clear E. by apply (Installed_spec _ _ _ _ Status h st2) in HI.
  - intros ->. destruct HI as [(_ & HI)|[(_ & HI & _)|(_ & _ & _ & _ & HU)]]; [|done|by apply unopened_view with (4 := HU)].
    destruct HI as [[HI _]|[[HI _]|[HI _]]]; [|done..]. pose proof (CheckStatus_error st Given) as HE. by rewrite <- HI in HE.
Qed.
End Quiet.

(** ** A concrete database *)

#[export] Existing Instance SampleBase.
#[export] Instance SampleQuiet : QuietEnvironment RbSet.
Proof.
  split; [apply SamplePool_unused|done| |by eexists|simpl; lia].
  intros High c d st HR. exists EFI_NOT_FOUND, st. split; [done|]. by apply LetGo_refused; [apply HR|].
Qed.

(** Performing a use of the services. *)
Definition SampleRun (c : Call) (st : HandleState RbSet) : HandleState RbSet :=
  match Perform c st with Done (_, st') => st' | _ => st end.

Lemma SampleRun_ready c st : Ready false st -> Ready false (SampleRun c st).
Proof.
  intros HR. unfold SampleRun. destruct (Perform c st) as [[[] st']| |] eqn:E; [|done..]. by apply (Perform_safe c false st tt).
Qed.

(** The handle 4 with the protocols 77 and 78, and the registration 2 for the
    protocol 77. *)
Definition SampleDatabase : HandleState RbSet :=
  SampleRun (CallInstall (Some 4) (Some 78) 0 1001 true)
    (SampleRun (CallInstall (Some 0) (Some 77) 0 1000 true)
      (SampleRun (CallRegister (Some 77) (Some 500) true) (InitialState SampleSet))).

Lemma SampleDatabase_ready : Ready false SampleDatabase.
Proof. do 3 apply SampleRun_ready. apply Initial_inv, SampleSet_empty. Qed.

Lemma SampleDatabase_fit : OpensFit SampleDatabase.
Proof. apply (bool_decide_unpack _). by vm_compute. Qed.
