(* ===== verification/HandleTheorems.v ===== *)
(** * The handle database: correctness of the services

    The services refine operations on what the handles offer; a round trip of
    installation, lookup and removal; the decision of CoreOpenProtocol; and runs
    that show where the code does not do what it says. *)
From Stdlib Require Import ZArith Lia.
From stdpp Require Import base option gmap list sets fin_maps.
From S2P Require Import Prelude RbTree RbValid RbTheorems Handle HandleSet HandleInv HandleRules HandleInstall HandleOpen.
From S2P Require Import HandleUninstall HandleSafe HandleReach HandleSpec.

Section Quiet.
Context {HS : Type} {Ops : HandleSetOps HS} {SetOk : HandleSetOk HS} {Env : Environment HS} {Q : QuietEnvironment HS}.
Implicit Types st : HandleState HS.


(** There is memory for one more structure while the lock is held. *)
Definition MemoryFor st : Prop := is_Some (AllocatePool (SetLocked true st) []).

(** CoreOpenProtocol for all arguments, NULL pointers included. *)
Definition OpenProtocolReference st (u : Z) (Protocol : option Z) (given : bool) (Image Controller Attrs : Z)
  : (EFI_STATUS * option Z) * HandleState HS :=
  match Protocol with
  | Some Protocol =>
    if given || (Attrs =? EFI_OPEN_PROTOCOL_TEST_PROTOCOL) then OpenReference st u Protocol Image Controller Attrs
    else ((EFI_INVALID_PARAMETER, None), st)
  | None => ((EFI_INVALID_PARAMETER, None), st)
  end.


(** C12: CoreOpenProtocol decides as the rules say: from any database in order
    with the lock free, and in a quiet environment as for the services above, it
    equals the reference [OpenProtocolReference], which refuses NULL pointers,
    unless [Interface] is one for a test, and then looks at the handles, at
    [Attributes] and at which kinds of opens are in the list of the interface.
    An open by the same driver again reports EFI_ALREADY_STARTED; any other open
    that is there already is counted; a driver is refused with
    EFI_ACCESS_DENIED while another driver or an exclusive user has the
    interface; for an exclusive open a driver that has the interface is asked
    to let go ([Asked]), and the open is refused if it does not, or if somebody
    has the interface for exclusive use; other opens succeed and are recorded,
    if there is an agent, and with memory.  The interface is stored on success
    and with EFI_ALREADY_STARTED, NULL with EFI_UNSUPPORTED, and nothing with
    other errors or for a test.  Nothing changes but that open list and the
    opens that the driver closed. *)
Theorem CoreOpenProtocol_decides High st u Protocol given Image Controller Attrs :
  Ready High st ->
  CoreOpenProtocol u Protocol given Image Controller Attrs st = Done (OpenProtocolReference st u Protocol given Image Controller Attrs).
Proof using Q.
  intros HR. unfold OpenProtocolReference. destruct Protocol as [Protocol|]; [|done]. destruct (given || _) eqn:Hg.
  - by apply (CoreOpenProtocol_run High).
  - apply orb_false_iff in Hg as [-> Ha]. unfold CoreOpenProtocol. by rewrite Ha.
Qed.

(** ** Round trip *)

Lemma provider_first st h hd p prot Protocol i :
  Linked st -> Handles st !! h = Some hd -> offering st hd (Protocol, i) = Some p -> Interfaces st !! p = Some prot ->
  (exists old, offers st !! h = Some ((Protocol, i) :: old)) -> provider st hd Protocol = Some (p, prot).
Proof using.
  intros L Hh Hp Hprot [old Hoff]. apply provider_Some. split; [|done]. rewrite (offers_Some st h hd Hh) in Hoff. injection Hoff as Hoff.
  unfold offering in Hp. pose proof (Linked_offers st h hd L Hh) as Hall. destruct (Protocols hd) as [|q l]; [done|].
  destruct (Hall q) as [x Hx]; [by left|]. csimpl in Hoff. rewrite Hx in Hoff. injection Hoff as -> _.
  rewrite filter_cons_True in Hp by done. rewrite filter_cons_True by (by rewrite Hx). done.
Qed.

(** Looking up an interface that nobody has opened. *)
Lemma CoreHandleProtocol_unblocked High st h Protocol i old :
  Ready High st -> unopened st h (Protocol, i) -> offers st !! h = Some ((Protocol, i) :: old) ->
  MemoryFor st ->
  exists st', CoreHandleProtocol h (Some Protocol) true st = Done ((EFI_SUCCESS, Some i), st') /\ Ready High st' /\
    offers st' = offers st /\ blocked st' h (Protocol, i) = false /\ (OpensFit st -> OpensFit st').
Proof using Q.
  intros HR (hd & p & prot & Hh & Hp & Hprot & Hnil) Hoff Hmem. pose proof HR as ([L N] & _).
  pose proof (CoreOpenProtocol_run High st h Protocol true gDxeCoreImageHandle 0 EFI_OPEN_PROTOCOL_BY_HANDLE_PROTOCOL HR eq_refl) as E.
  unfold OpenReference in E. rewrite Hh in E.
  change (EFI_ERROR (AttributesStatus st h gDxeCoreImageHandle 0 EFI_OPEN_PROTOCOL_BY_HANDLE_PROTOCOL)) with false in E. cbn iota in E.
  rewrite (provider_first st h hd p prot Protocol i L Hh Hp Hprot (ex_intro _ old Hoff)), Prepared_by_handle, Hprot in E.
  cbv zeta in E. change (default prot (Some prot)) with prot in E. rewrite Hnil, (bool_decide_eq_true_2 _ Hmem) in E.
  assert (Interface prot = i) as Hi.
  { destruct (offering_Some st h hd _ p L Hh Hp) as (_ & _ & Ho & _). unfold offer in Ho. rewrite Hprot in Ho. simpl in Ho.
    apply bind_Some in Ho as (en & _ & Ho). by injection Ho. }
  set (l := if gDxeCoreImageHandle =? 0 then [] else [MkOpen gDxeCoreImageHandle 0 EFI_OPEN_PROTOCOL_BY_HANDLE_PROTOCOL 1]).
  replace (OpenRule true gDxeCoreImageHandle 0 EFI_OPEN_PROTOCOL_BY_HANDLE_PROTOCOL []) with (EFI_SUCCESS, l) in E
    by (unfold l, OpenRule; simpl; by destruct (gDxeCoreImageHandle =? 0)). rewrite Hi in E.
  exists (WithOpens p prot l st). split; [exact E|]. split; [by apply (CoreOpenProtocol_safe _ _ _ _ _ _ High) in E|].
  split; [by apply offers_WithOpens|]. split.
  - unfold blocked. simpl. rewrite Hh. simpl. assert (offering (WithOpens p prot l st) hd (Protocol, i) = offering st hd (Protocol, i)) as ->.
    { unfold offering. f_equal. apply list_filter_iff. intros q. unfold offer. simpl. destruct (decide (p = q)) as [<-|Hq].
      - rewrite lookup_insert_eq, Hprot. done.
      - by rewrite lookup_insert_ne. }
    rewrite Hp. simpl. rewrite lookup_insert_eq. simpl.
    assert (Asked h l (WithOpens p prot l st) = WithOpens p prot l st) as -> by (unfold l; by destruct (gDxeCoreImageHandle =? 0)).
    simpl. rewrite lookup_insert_eq. simpl. unfold l. by destruct (gDxeCoreImageHandle =? 0).
  - intros Hfit q x. simpl. rewrite lookup_insert. destruct (decide (p = q)); [|by apply Hfit]. intros [= <-]. simpl. unfold l.
    by destruct (gDxeCoreImageHandle =? 0).
Qed.

Lemma offers_nonempty st h : Inv st -> offers st !! h ≠ Some [].
Proof using.
  intros [L N] Ho. destruct (Handles st !! h) as [hd|] eqn:Hh; [|apply offers_None in Hh; congruence].
  rewrite (offers_Some st h hd Hh) in Ho. injection Ho as Ho. pose proof (N h) as Hn. rewrite lookup_fmap, Hh in Hn. simpl in Hn.
  pose proof (Linked_offers st h hd L Hh) as Hall. destruct (Protocols hd) as [|q l]; [done|].
  destruct (Hall q) as [x Hx]; [by left|]. csimpl in Ho. by rewrite Hx in Ho.
Qed.

Lemma withdraw_installed (D : gmap Z (list (Z * Z))) h o :
  D !! h ≠ Some [] -> withdraw h o (<[h := o :: default [] (D !! h)]> D) = D.
Proof using.
  intros Hne. unfold withdraw. rewrite lookup_insert_eq. simpl. rewrite decide_True by done.
  destruct (D !! h) as [[|x l]|] eqn:E; simpl; [done| |].
  - by rewrite insert_insert_eq, insert_id.
  - by rewrite delete_insert_eq, delete_id.
Qed.

(** C13: Installing, looking up and removing an interface is a round trip.  When
    CoreInstallProtocolInterface has installed an interface on a handle, given
    or new, CoreHandleProtocol finds exactly that interface by its protocol,
    and CoreUninstallProtocolInterface then succeeds and restores what every
    handle offered before, including that a new handle is gone. *)
Theorem install_lookup_uninstall st Given Protocol i h st1 :
  Ready false st ->
  CoreInstallProtocolInterface (Some Given) (Some Protocol) EFI_NATIVE_INTERFACE i st = Done ((EFI_SUCCESS, Some h), st1) ->
  (Protocol ∈ protocols_on st Given -> MemoryFor st) ->
  MemoryFor st1 -> OpensFit st1 ->
  exists st2 st3, CoreHandleProtocol h (Some Protocol) true st1 = Done ((EFI_SUCCESS, Some i), st2) /\
    CoreUninstallProtocolInterface h (Some Protocol) i st2 = Done (EFI_SUCCESS, st3) /\
    Ready false st3 /\ offers st3 = offers st.
Proof using Q.
  intros HR E Hm Hm1 Hfit. destruct (CoreInstallProtocolInterface_run false st Given Protocol i true HR Hm)
    as (Status & h' & st1' & E' & HR1 & HI & HU). unfold CoreInstallProtocolInterface in E. rewrite E' in E. injection E as -> -> ->.
  specialize (HU eq_refl). destruct HI as [(HI & _)|(_ & Hh & Hnin & _ & Ho1)]; [done|].
  assert (offers st1 !! h = Some ((Protocol, i) :: default [] (offers st !! h))) as Hof by (by rewrite Ho1, lookup_insert_eq).
  destruct (CoreHandleProtocol_unblocked false st1 h Protocol i _ HR1 HU Hof Hm1) as (st2 & E2 & HR2 & Ho2 & Hb & Hfit2).
  destruct (CoreUninstallProtocolInterface_run false st2 h Protocol i HR2 (Hfit2 Hfit)) as (st3 & E3 & HR3 & Ho3).
  assert (RemovalStatus st2 h (Protocol, i) = EFI_SUCCESS) as Hs.
  { unfold RemovalStatus. rewrite Ho2, Hof, Hb. by rewrite bool_decide_eq_true_2 by (by left). }
  rewrite Hs in E3, Ho3. exists st2, st3. split_and!; [done|done|done|]. rewrite Ho3. cbn [EFI_ERROR]. rewrite Ho2, Ho1.
  apply withdraw_installed, offers_nonempty, HR.
Qed.
End Quiet.

(** ** Witnesses *)

(** An environment in which drivers give up what they have open. *)
Definition CloseAgent (Controller Driver : Z) (st : HandleState RbSet) : HandleState RbSet :=
  Relist (fun p l => filter (fun D => AgentHandle D ≠ Driver) l) st.
Definition GivingBase : Environment RbSet :=
  MkEnvironment RbSet (mret tt) (fun c d => modify (CloseAgent c d) ;; mret EFI_SUCCESS) (fun _ => mret EFI_NOT_FOUND)
    SamplePool (fun _ _ => true) 1 99 (fun _ => true) (fun _ => false) (fun p => p + 4) (fun _ => 4) (fun _ _ _ => false) 5.

Lemma GivingQuiet : QuietEnvironment RbSet (Env := GivingBase).
Proof.
  split; [apply SamplePool_unused|done| |by eexists|simpl; lia].
  intros High c d st HR. exists EFI_SUCCESS, (CloseAgent c d st). split; [done|]. eexists. split; [done|].
  intros p prot _. split.
  - split_and!; [apply drivers_filter|by intros D [_ HD]%list_elem_of_filter _|].
    pose proof (length_filter (fun D => AgentHandle D ≠ d) (OpenList prot)). lia.
  - intros _ D [HD _]%list_elem_of_filter _. done.
Qed.

(** The handles 4 and 9, and a driver that has the protocol 77 of the handle 4. *)
Definition SampleDriver : HandleState RbSet :=
  SampleRun (CallOpen 4 (Some 77) true 4 4 EFI_OPEN_PROTOCOL_BY_DRIVER)
    (SampleRun (CallInstall (Some 0) (Some 79) 0 3000 true) SampleDatabase).

Lemma SampleDriver_ready : Ready false SampleDriver.
Proof. do 2 apply SampleRun_ready. apply SampleDatabase_ready. Qed.


(** An exclusive open of an interface that a driver has: it depends on the
    driver.  And a driver opens what it has open already. *)
Lemma CoreOpenProtocol_decides_witness :
  (exists st', CoreOpenProtocol (Env := GivingBase) 4 (Some 77) true 9 0 EFI_OPEN_PROTOCOL_EXCLUSIVE SampleDriver =
     Done ((EFI_SUCCESS, Some 1000), st')) /\
  (exists st', CoreOpenProtocol 4 (Some 77) true 9 0 EFI_OPEN_PROTOCOL_EXCLUSIVE SampleDriver = Done ((EFI_ACCESS_DENIED, None), st')) /\
  (exists st', CoreOpenProtocol 4 (Some 77) true 4 4 EFI_OPEN_PROTOCOL_BY_DRIVER SampleDriver =
     Done ((EFI_ALREADY_STARTED, Some 1000), st')).
Proof.
  split_and!; eexists.
  - etransitivity; [apply (CoreOpenProtocol_decides (Q := GivingQuiet) false), SampleDriver_ready|]. vm_compute. reflexivity.
  - etransitivity; [apply (CoreOpenProtocol_decides false), SampleDriver_ready|]. vm_compute. reflexivity.
  - etransitivity; [apply (CoreOpenProtocol_decides false), SampleDriver_ready|]. vm_compute. reflexivity.
Defined.

Lemma install_lookup_uninstall_witness :
  exists st1 st2 st3, CoreInstallProtocolInterface (Some 0) (Some 77) EFI_NATIVE_INTERFACE 3000 SampleDatabase = Done ((EFI_SUCCESS, Some 8), st1) /\
    CoreHandleProtocol 8 (Some 77) true st1 = Done ((EFI_SUCCESS, Some 3000), st2) /\
    CoreUninstallProtocolInterface 8 (Some 77) 3000 st2 = Done (EFI_SUCCESS, st3) /\ offers st3 = offers SampleDatabase.
Proof.
  pose (st1 := SampleRun (CallInstall (Some 0) (Some 77) 0 3000 true) SampleDatabase).
  assert (CoreInstallProtocolInterface (Some 0) (Some 77) EFI_NATIVE_INTERFACE 3000 SampleDatabase = Done ((EFI_SUCCESS, Some 8), st1)) as E1
    by (by vm_compute).
  destruct (install_lookup_uninstall SampleDatabase 0 77 3000 8 st1 SampleDatabase_ready E1) as (st2 & st3 & E2 & E3 & _ & Ho);
    [by intros _; eexists|by eexists|apply (bool_decide_unpack _); by vm_compute|].
  exists st1, st2, st3. split; [exact E1|]. split; [exact E2|]. split; [exact E3|exact Ho].
Defined.

(** ** Where the code differs *)

(** CoreUninstallMultipleProtocolInterfaces says that after an error the
    interfaces that it has uninstalled are reinstalled.  When the last interface
    of the handle is among them, the handle has been freed and nothing is
    reinstalled: the status says that the call failed, but the handle and all
    its interfaces are gone. *)
Theorem CoreUninstallMultiple_not_restored :
  exists st', CoreUninstallMultipleProtocolInterfaces 4 [(77, 1000); (78, 1001); (79, 5)] SampleDatabase = Done (EFI_INVALID_PARAMETER, st') /\
    offers SampleDatabase = {[4 := [(78, 1001); (77, 1000)]]} /\ offers st' = ∅.
Proof. eexists. split; [vm_compute; reflexivity|]. split; [by vm_compute|by vm_compute]. Qed.

(** A pool without memory. *)
Definition SampleEmptyPool : Environment RbSet :=
  MkEnvironment RbSet (mret tt) (fun _ _ => mret EFI_NOT_FOUND) (fun _ => mret EFI_NOT_FOUND) (fun _ _ => None) (fun _ _ => true)
    1 99 (fun _ => true) (fun _ => false) (fun p => p + 4) (fun _ => 4) (fun _ _ _ => false) 5.

(** When there is no memory for the entry of a new protocol,
    CoreInstallProtocolInterface on an existing handle returns the status of its
    check with CoreHandleProtocol, not EFI_OUT_OF_RESOURCES. *)
Theorem CoreInstallProtocolInterface_no_memory :
  CoreInstallProtocolInterface (Env := SampleEmptyPool) (Some 4) (Some 79) EFI_NATIVE_INTERFACE 5 SampleDatabase =
  Done ((EFI_UNSUPPORTED, Some 4), SampleDatabase).
Proof. by vm_compute. Qed.

(** A notification function that installs the protocol 79 on the handle 4 if it
    is not there, and a driver that, when it is disconnected, closes its
    interface, which another agent then opens for exclusive use. *)
Definition RacingScript : Script (HS := RbSet) :=
  MkScript (fun st => if bool_decide (79 ∈ protocols_on st 4) then [] else [CallInstall (Some 4) (Some 79) 0 6000 true])
    (fun Controller Driver _ =>
       ([CallClose Controller (Some 77) Driver Controller; CallOpen Controller (Some 77) true 9 0 EFI_OPEN_PROTOCOL_EXCLUSIVE], EFI_SUCCESS))
    (fun _ _ => ([], EFI_SUCCESS)).

(** CoreInstallProtocolInterface checks that the handle does not have the
    protocol, and installs it after taking the lock again.  When a notification
    installs the protocol in between, it is on the handle twice, where the
    second installation should fail with EFI_INVALID_PARAMETER. *)
Theorem CoreInstallProtocolInterface_twice :
  exists st', CoreInstallProtocolInterface (Env := Nested SampleBase RacingScript 1) (Some 4) (Some 79) EFI_NATIVE_INTERFACE 5000 SampleDatabase =
      Done ((EFI_SUCCESS, Some 4), st') /\
    offers st' = {[4 := [(79, 5000); (79, 6000); (78, 1001); (77, 1000)]]}.
Proof. eexists. split; [vm_compute; reflexivity|by vm_compute]. Qed.

Definition exclusive_agents (st : HandleState RbSet) (h : Z) (o : Z * Z) : list Z :=
  from_option (fun prot => AgentHandle <$> filter is_exclusive (OpenList prot)) []
    (hd ← Handles st !! h; p ← offering st hd o; Interfaces st !! p).

(** For an exclusive open CoreOpenProtocol drops the lock to disconnect the
    driver, and afterwards looks for drivers again, but not for exclusive users:
    two agents can have the same interface open for exclusive use. *)
Theorem CoreOpenProtocol_two_exclusive :
  exists st', CoreOpenProtocol (Env := Nested SampleBase RacingScript 1) 4 (Some 77) true 4 0 EFI_OPEN_PROTOCOL_EXCLUSIVE SampleDriver =
      Done ((EFI_SUCCESS, Some 1000), st') /\
    exclusive_agents st' 4 (77, 1000) = [9; 4].
Proof. eexists. split; [vm_compute; reflexivity|by vm_compute]. Qed.

(** A notification function that closes the driver's open of the protocol 77. *)
Definition ClosingScript : Script (HS := RbSet) :=
  MkScript (fun st => [CallClose 4 (Some 77) 4 4]) (fun _ _ _ => ([], EFI_SUCCESS)) (fun _ _ => ([], EFI_SUCCESS)).

(** CoreOpenProtocol reads [OpenData->AgentHandle] for the call of
    CoreDisconnectController after it has released the lock.  When a
    notification that runs there closes the open of the driver, the structure
    has been freed: the read is of freed memory.  The removal of the interface
    does the same. *)
Theorem CoreOpenProtocol_reads_freed :
  CoreOpenProtocol (Env := Nested SampleBase ClosingScript 1) 4 (Some 77) true 9 0 EFI_OPEN_PROTOCOL_EXCLUSIVE SampleDriver = Asserted /\
  CoreUninstallProtocolInterface (Env := Nested SampleBase ClosingScript 1) 4 (Some 77) 1000 SampleDriver = Asserted.
Proof. split; by vm_compute. Qed.
