(* ===== verification/HandleLocate.v ===== *)
(** * The handle database: locating handles

    The search by protocol finds each supporting handle once, and the search by
    registration reports each new interface once. *)
From Stdlib Require Import ZArith Lia.
From stdpp Require Import base option gmap list sets fin_maps.
From S2P Require Import Prelude Handle HandleSet HandleInv HandleRules HandleInstall HandleOpen HandleUninstall HandleSafe.
From S2P Require Import HandleReach HandleSpec.

(** The elements of a list at their first occurrence, without some. *)
Fixpoint first_seen (seen l : list Z) : list Z :=
  match l with
  | [] => []
  | h :: l => if decide (h ∈ seen) then first_seen seen l else h :: first_seen (h :: seen) l
  end.

Lemma elem_of_first_seen l : forall seen h, h ∈ first_seen seen l <-> h ∈ l /\ h ∉ seen.
Proof.
  induction l as [|x l IH]; intros seen h; simpl; [rewrite elem_of_nil; tauto|]. destruct (decide (x ∈ seen)) as [Hx|Hx].
  - rewrite IH, elem_of_cons. naive_solver.
  - rewrite elem_of_cons, IH, !elem_of_cons. destruct (decide (h = x)) as [->|]; tauto.
Qed.

Lemma NoDup_first_seen l : forall seen, NoDup (first_seen seen l).
Proof.
  induction l as [|x l IH]; intros seen; simpl; [constructor|]. destruct (decide (x ∈ seen)); [apply IH|].
  apply NoDup_cons. split; [|apply IH]. rewrite elem_of_first_seen, elem_of_cons. tauto.
Qed.

(** ** Lists of links *)

Lemma links_after_split q l1 l2 : q ∉ l1 -> links_after (Some q) (l1 ++ q :: l2) = l2.
Proof.
  induction l1 as [|x l1 IH]; simpl; [by rewrite Z.eqb_refl|]. intros [Hx Hq]%not_elem_of_cons.
  rewrite (proj2 (Z.eqb_neq x q)) by congruence. by apply IH.
Qed.

Lemma links_after_None l : links_after None l = l.
Proof. by destruct l. Qed.

Lemma links_after_suffix v l : exists k, l = k ++ links_after v l.
Proof.
  destruct v as [q|]; [|by exists []; rewrite links_after_None]. induction l as [|x l [k IH]]; [by exists []|]. simpl.
  destruct (x =? q); [by exists [x]|]. exists (x :: k). simpl. by rewrite <- IH.
Qed.

Lemma links_after_step v l p r : NoDup l -> links_after v l = p :: r -> links_after (Some p) l = r.
Proof.
  intros Hn E. destruct (links_after_suffix v l) as [k Hk]. rewrite E in Hk. subst l. apply links_after_split.
  apply NoDup_app in Hn as (_ & Hn & _). intros Hin. apply (Hn p Hin). by left.
Qed.

Lemma links_after_snoc v l p : (forall q, v = Some q -> q ∈ l) -> NoDup l -> links_after v (l ++ [p]) = links_after v l ++ [p].
Proof.
  intros Hv Hn. destruct v as [q|]; [|by rewrite !links_after_None].
  destruct (list_elem_of_split l q (Hv q eq_refl)) as (l1 & l2 & ->). apply NoDup_app in Hn as (_ & Hn & _).
  assert (q ∉ l1) as Hq by (intros Hin; apply (Hn q Hin); by left).
  rewrite <- app_assoc. simpl. by rewrite !links_after_split.
Qed.

Lemma remove_link_app p l1 l2 : remove_link p (l1 ++ l2) = remove_link p l1 ++ remove_link p l2.
Proof. apply filter_app. Qed.
Lemma remove_link_cons_ne p x l : x ≠ p -> remove_link p (x :: l) = x :: remove_link p l.
Proof. intros Hx. unfold remove_link. by rewrite filter_cons_True. Qed.
Lemma remove_link_notin p l : p ∉ l -> remove_link p l = l.
Proof.
  induction l as [|x l IH]; [done|]. intros [Hx Hp]%not_elem_of_cons. rewrite remove_link_cons_ne by congruence. by rewrite IH.
Qed.

Lemma back_link_split prev p l1 l2 : p ∉ l1 -> back_link prev p (l1 ++ p :: l2) = match last l1 with Some q => Some q | None => prev end.
Proof.
  revert prev. induction l1 as [|x l1 IH]; intros prev; simpl; [by rewrite Z.eqb_refl|]. intros [Hx Hp]%not_elem_of_cons.
  rewrite (proj2 (Z.eqb_neq x p)) by congruence. rewrite IH by done. destruct l1; [done|]. by destruct (last _) eqn:E; [|rewrite last_None in E].
Qed.

(** After the removal of [p], the moved position has the same links after it,
    but for [p]. *)
Lemma links_after_remove v p l :
  NoDup l -> p ∈ l -> (forall q, v = Some q -> q ∈ l) ->
  links_after (if bool_decide (v = Some p) then back_link None p l else v) (remove_link p l) = remove_link p (links_after v l).
Proof.
  intros Hn Hp Hv. destruct (bool_decide_reflect (v = Some p)) as [->|Hne].
  - destruct (list_elem_of_split l p Hp) as (l1 & l2 & ->). apply NoDup_app in Hn as (Hn1 & Hn & [Hp2 _]%NoDup_cons).
    assert (p ∉ l1) as Hq by (intros Hin; apply (Hn p Hin); by left). rewrite back_link_split, links_after_split by done.
    rewrite remove_link_app. replace (remove_link p (p :: l2)) with (remove_link p l2) by (unfold remove_link; by rewrite filter_cons_False by tauto).
    rewrite !remove_link_notin by done. destruct (last l1) as [q|] eqn:El; [|apply last_None in El as ->; apply links_after_None].
    apply last_Some in El as (l3 & ->). rewrite <- app_assoc. simpl. apply links_after_split.
    apply NoDup_app in Hn1 as (_ & Hn1 & _). intros Hin. apply (Hn1 q Hin). by left.
  - cbn iota. destruct v as [q|]; [|by rewrite !links_after_None]. destruct (list_elem_of_split l q (Hv q eq_refl)) as (l1 & l2 & ->).
    apply NoDup_app in Hn as (_ & Hn & _). assert (q ∉ l1) as Hq by (intros Hin; apply (Hn q Hin); by left).
    rewrite remove_link_app, remove_link_cons_ne by congruence. rewrite !links_after_split; [done|done|].
    rewrite elem_of_remove_link. tauto.
Qed.

Section Locate.
Context {HS : Type} {Ops : HandleSetOps HS} {SetOk : HandleSetOk HS} {Env : Environment HS} {Q : QuietEnvironment HS}.
Implicit Types st : HandleState HS.

(** The handles of a list of interfaces. *)
Definition handles_of st (l : list Z) : list Z := omap (fun p => ProtHandle <$> Interfaces st !! p) l.

Lemma offers_view st st' : view st' = view st -> offers st' = offers st.
Proof using.
  unfold view. intros [= _ _ HH _ HE HI _]. assert (forall D : HandleState HS, offers D = omap (offer D) <$> (Protocols <$> Handles D)) as Ho.
  { intros D. unfold offers. by rewrite <- map_fmap_compose. }
  rewrite !Ho, HH. unfold offer. by rewrite HE, HI.
Qed.

(** What the search needs of the state, with the handles found so far. *)
Definition Searching st (seen l : list Z) : Prop :=
  (forall p, p ∈ l -> exists prot, Interfaces st !! p = Some prot /\ ProtHandle prot ≠ 0 /\ is_Some (Handles st !! ProtHandle prot)) /\
  (forall h hd, Handles st !! h = Some hd -> LocateRequest hd = mEfiLocateHandleRequest st <-> h ∈ seen).

Lemma Searching_tail st seen p l : Searching st seen (p :: l) -> Searching st seen l.
Proof using. intros [Hl Hs]. split; [|done]. intros q Hq. apply Hl. by right. Qed.

(** What follows the loop without using the interface does not depend on the
    one it starts with. *)
Lemma ByProtocolLoop_interface {B} k i j l (f : Z * Z * LOCATE_POSITION -> HM HS B) st :
  (forall h x y Pos, f (h, x, Pos) = f (h, y, Pos)) ->
  (ByProtocolLoop k i l ≫= f) st = (ByProtocolLoop k j l ≫= f) st.
Proof using. intros Hf. destruct l; [|done]. exact (f_equal (fun m => m st) (Hf 0 i j (MkPosition k []))). Qed.

Lemma LocateLoop_by_protocol l : forall k st seen fuel,
  (length l < fuel)%nat -> Searching st seen l ->
  exists st', LocateLoop fuel CoreGetNextLocateByProtocol (MkPosition k l) st = Done (first_seen seen (handles_of st l), st') /\
    view st' = view st /\ Locked st' = Locked st /\ AtNotify st' = AtNotify st.
Proof using.
  induction l as [|p l IH]; intros k st seen fuel Hf HS'; (destruct fuel as [|fuel]; [simpl in Hf; lia|]).
  { by exists st. }
  destruct HS' as [Hl Hs]. destruct (Hl p) as (prot & Hp & Hh0 & [hd Hh]); [by left|].
  pose proof (Searching_tail st seen p l (conj Hl Hs)) as HS1. specialize (Hs _ _ Hh).
  unfold handles_of. csimpl. rewrite Hp. csimpl. fold (handles_of st l).
  destruct (decide (ProtHandle prot ∈ seen)) as [Hin|Hnin].
  - destruct (IH k st seen (S fuel) ltac:(simpl in Hf; lia) HS1) as (st' & E & Hrest). exists st'. split; [|done]. rewrite <- E.
    cbn [LocateLoop]. unfold CoreGetNextLocateByProtocol. cbn [SearchKey Remaining ByProtocolLoop]. hm_run.
    rewrite (proj2 (Z.eqb_eq _ _)) by (by apply Hs). by apply ByProtocolLoop_interface.
  - cbn [LocateLoop]. change (CoreGetNextLocateByProtocol (MkPosition k (p :: l))) with (ByProtocolLoop (HS:=HS) k 0 (p :: l)).
    cbn [ByProtocolLoop]. hm_run.
    rewrite (proj2 (Z.eqb_neq (LocateRequest hd) _)) by (by rewrite Hs). cbn [negb]. unfold UpdateHandle. hm_run.
    rewrite (proj2 (Z.eqb_neq (ProtHandle prot) 0)) by done.
    set (st1 := SetHandles _ _).
    destruct (IH k st1 (ProtHandle prot :: seen) fuel) as (st' & E & Hv & Hl' & Ha'); [simpl in Hf; lia| |].
    { destruct HS1 as [Hl1 Hs1]. split.
      - intros q Hq. destruct (Hl1 q Hq) as (x & Hx & Hx0 & Hxh). exists x. split_and!; [done|done|]. simpl.
        rewrite lookup_insert_is_Some'. by right.
      - intros h x. simpl. rewrite lookup_insert, elem_of_cons. destruct (decide (ProtHandle prot = h)) as [<-|Hne].
        + intros [= <-]. simpl. tauto.
        + intros Hx. rewrite (Hs1 h x Hx). naive_solver. }
    rewrite (HM_bind_run _ _ _ _ _ E). exists st'. split; [done|]. rewrite Hv, Hl', Ha'. split_and!; [|done|done].
    unfold view. simpl. by rewrite (Protocols_same _ (ProtHandle prot) hd).
Qed.

(** The interfaces of a protocol, in the order of installation. *)
Definition interfaces_of st (Protocol : Z) : list Z :=
  match filter (fun e => ProtocolID <$> Entries st !! e = Some Protocol) (mProtocolDatabase st) with
  | e :: _ => entry_links (Entries st) e
  | [] => []
  end.

Lemma interfaces_of_entry st Protocol e :
  Linked st -> EntryOf st Protocol e -> interfaces_of st Protocol = entry_links (Entries st) e.
Proof using.
  intros L He. unfold interfaces_of. destruct (filter _ _) as [|q l] eqn:E.
  - destruct He as [[-> _]|[_ He]].
    + unfold entry_links. destruct (Linked_nonzero st L) as (_ & -> & _). done.
    + assert (e ∈ filter (λ e, ProtocolID <$> Entries st !! e = Some Protocol) (mProtocolDatabase st)) as Hin.
      { apply list_elem_of_filter. split; [done|]. apply Linked_database; [done|]. by destruct (Entries st !! e). }
      rewrite E in Hin. by apply elem_of_nil in Hin.
  - assert (q ∈ filter (λ e, ProtocolID <$> Entries st !! e = Some Protocol) (mProtocolDatabase st)) as Hin by (rewrite E; by left).
    apply list_elem_of_filter in Hin as [Hq _]. destruct He as [[_ He]|[_ He]]; [by destruct (He q)|].
    f_equal. by apply (linked_ids _ _ _ _ _ _ _ L _ _ Protocol).
Qed.

(** A handle has a protocol if it offers it with one of its interfaces. *)
Lemma protocols_on_elem st Protocol h :
  Linked st ->
  Protocol ∈ protocols_on st h <->
  exists p prot en, Interfaces st !! p = Some prot /\ ProtHandle prot = h /\ Entries st !! ProtProtocol prot = Some en /\ ProtocolID en = Protocol.
Proof using.
  intros L. unfold protocols_on. rewrite list_elem_of_fmap. split.
  - intros ([P i] & -> & Hin). destruct (Handles st !! h) as [hd|] eqn:Hh.
    2:{ apply offers_None in Hh. rewrite Hh in Hin. by apply elem_of_nil in Hin. }
    rewrite (offers_Some st h hd Hh) in Hin. apply list_elem_of_omap in Hin as (p & Hp & Ho).
    destruct (Linked_interface st h hd p L Hh Hp) as (_ & prot & en & Hprot & Heq & Hen & _).
    unfold offer in Ho. rewrite Hprot in Ho. simpl in Ho. rewrite Hen in Ho. injection Ho as Hid _. by exists p, prot, en.
  - intros (p & prot & en & Hprot & Hph & Hen & Hid). exists (Protocol, Interface prot). split; [done|].
    destruct (linked_by_handle _ _ _ _ _ _ _ L h) as [_ Hbh].
    assert (p ∈ links (Protocols <$> Handles st) h) as Hl by (apply Hbh; rewrite Hprot; simpl; by rewrite Hph). unfold links in Hl.
    rewrite lookup_fmap in Hl. destruct (Handles st !! h) as [hd|] eqn:Hh; [|by apply elem_of_nil in Hl].
    rewrite (offers_Some st h hd Hh). apply list_elem_of_omap. exists p. split; [done|]. unfold offer. rewrite Hprot. simpl.
    rewrite Hen. simpl. by rewrite Hid.
Qed.

Lemma handles_of_protocol st Protocol h :
  Linked st -> h ∈ handles_of st (interfaces_of st Protocol) <-> Protocol ∈ protocols_on st h.
Proof using.
  intros L. destruct (FindEntry_run st Protocol L) as (e & _ & He). rewrite (interfaces_of_entry st Protocol e L He).
  rewrite protocols_on_elem by done. unfold handles_of. rewrite list_elem_of_omap.
  destruct (linked_by_entry _ _ _ _ _ _ _ L e) as [_ Hbe]. split.
  - intros (p & Hp & (prot & Hprot & ->)%fmap_Some). pose proof Hp as Hpe. apply Hbe in Hpe. rewrite Hprot in Hpe. injection Hpe as Hpe.
    destruct He as [[-> _]|[_ He]]; [unfold entry_links in Hp; destruct (Linked_nonzero st L) as (_ & H0 & _); rewrite H0 in Hp; by apply elem_of_nil in Hp|].
    apply fmap_Some in He as (en & Hen & ->). exists p, prot, en. by rewrite Hpe.
  - intros (p & prot & en & Hprot & <- & Hen & Hid). exists p. rewrite Hprot. split; [|done]. apply Hbe. rewrite Hprot. simpl. f_equal.
    destruct He as [[_ He]|[_ He]]; [destruct (He (ProtProtocol prot)); rewrite Hen; simpl; by rewrite Hid|].
    apply (linked_ids _ _ _ _ _ _ _ L _ _ Protocol); [rewrite Hen; simpl; by rewrite Hid|done].
Qed.

(** The next number of a search is not on a handle. *)
Definition FreshRequest st : Prop :=
  map_Forall (fun _ hd => LocateRequest hd ≠ add64 (mEfiLocateHandleRequest st) 1) (Handles st).

(** The result of a search that finds the handles [Found]. *)
Definition LocateResult (Size : Z) (Found : list Z) : EFI_STATUS * Z * list Z :=
  match Found with
  | [] => (EFI_NOT_FOUND, Size, [])
  | _ => (if Size <? 8 * Z.of_nat (length Found) then EFI_BUFFER_TOO_SMALL else EFI_SUCCESS,
          8 * Z.of_nat (length Found), take (Z.to_nat (Size / 8)) Found)
  end.

(** The handles that a search for a protocol finds. *)
Definition supporting st (Protocol : Z) : list Z := first_seen [] (handles_of st (interfaces_of st Protocol)).

Lemma Searching_start st e en :
  Linked st -> FreshRequest st -> Entries st !! e = Some en ->
  Searching (SetLocateRequest (add64 (mEfiLocateHandleRequest st) 1) st) [] (EntryProtocols en).
Proof using.
  intros L Hf He. split.
  - intros p Hp. destruct (linked_by_entry _ _ _ _ _ _ _ L e) as [_ Hbe]. rewrite (entry_links_Some _ _ _ He) in Hbe.
    apply Hbe, fmap_Some in Hp as (prot & Hp & _). exists prot.
    destruct (linked_by_handle _ _ _ _ _ _ _ L (ProtHandle prot)) as [_ Hbh].
    assert (p ∈ links (Protocols <$> Handles st) (ProtHandle prot)) as Hl by (apply Hbh; by rewrite Hp). unfold links in Hl.
    rewrite lookup_fmap in Hl. destruct (Handles st !! ProtHandle prot) as [hd|] eqn:Hh; [|by apply elem_of_nil in Hl].
    split_and!; [done| |simpl; by rewrite Hh]. destruct (Linked_nonzero st L) as (H0 & _). congruence.
  - intros h hd Hh. simpl. split; [|by intros ?%elem_of_nil]. intros E. by destruct (Hf h hd Hh).
Qed.

Lemma InternalCoreLocateHandle_run High st Protocol k Size (given : bool) :
  Held High st -> FreshRequest st -> given || (Size =? 0) = true -> 0 <= Size ->
  exists st', InternalCoreLocateHandle ByProtocol (Some Protocol) k (Some Size) given st =
      Done (LocateResult Size (supporting st Protocol), st') /\ Held High st' /\ view st' = view st.
Proof using Q.
  intros (Hi & Hl & Ha) Hf Hg Hs. pose proof Hi as [L N]. unfold InternalCoreLocateHandle.
  replace ((0 <? Size) && negb given) with false.
  2:{ destruct given; [by rewrite andb_false_r|]. destruct (Z.ltb_spec 0 Size), (Z.eqb_spec Size 0); try done; lia. }
  unfold LocateStart. cbn [ByProtocol AllHandles ByRegisterNotify]. hm_run. ground_bools. cbn iota.
  destruct (CoreFindProtocolEntry_run st Protocol L Hl) as (e & Ee & He). rewrite bind_run, (HM_bind_run _ _ _ _ _ Ee).
  unfold supporting. rewrite (interfaces_of_entry st Protocol e L He). destruct (Z.eqb_spec e 0) as [->|He0].
  { hm_run. cbn [EFI_ERROR]. exists st. destruct He as [_|[? _]]; [|done]. unfold entry_links. destruct (Linked_nonzero st L) as (_ & -> & _).
    split_and!; done. }
  destruct He as [[? _]|[_ He]]; [done|]. apply fmap_Some in He as (en & Hen & _). rewrite (entry_links_Some _ _ _ Hen). hm_run. cbn [EFI_ERROR]. hm_run.
  set (st1 := SetLocateRequest _ st).
  destruct (LocateLoop_by_protocol (EntryProtocols en) k st1 [] (S (S (length (EntryProtocols en))))) as (st' & E & Hv & HL & HA);
    [lia|by apply (Searching_start st e)|]. cbn [Remaining]. rewrite (HM_bind_run _ _ _ _ _ E).
  change (handles_of st1) with (handles_of st). exists st'.
  assert (Held High st') as HH by (split_and!; [by apply (Inv_view st)|by rewrite HL|by rewrite HA]).
  split; [|done]. unfold LocateResult. destruct (first_seen [] _) as [|x l] eqn:Ef; [done|].
  replace (8 * Z.of_nat (length (x :: l)) =? 0) with false by (symmetry; apply Z.eqb_neq; simpl; lia). cbn [andb]. by hm_run.
Qed.

(** C15: CoreLocateHandle finds by protocol.  In any database in order in which
    the number of the search is new, it returns the handles that support the
    protocol, each exactly once, in the order in which the interfaces were
    installed: EFI_NOT_FOUND if there is none, else the needed size and as many
    handles as fit, with EFI_BUFFER_TOO_SMALL if these are not all.  What the
    handles offer does not change. *)
Theorem CoreLocateHandle_ByProtocol High st Protocol k Size (given : bool) :
  Ready High st -> FreshRequest st -> given || (Size =? 0) = true -> 0 <= Size ->
  exists Found st', CoreLocateHandle ByProtocol (Some Protocol) k (Some Size) given st = Done (LocateResult Size Found, st') /\
    NoDup Found /\ (forall h, h ∈ Found <-> Protocol ∈ protocols_on st h) /\ Ready High st' /\ offers st' = offers st.
Proof using Q.
  intros ([L N] & Hl & Ha) Hf Hg Hs. exists (supporting st Protocol). unfold CoreLocateHandle. rewrite Acquire_run by done.
  destruct (InternalCoreLocateHandle_run High (SetLocked true st) Protocol k Size given) as (st' & E & (Hi & HL & HA) & Hv); [|done..|].
  { split_and!; done. }
  rewrite (HM_bind_run _ _ _ _ _ E), Release_run by done. exists (SetLocked false st'). split_and!.
  - done.
  - apply NoDup_first_seen.
  - intros h. unfold supporting. rewrite elem_of_first_seen, handles_of_protocol, elem_of_nil by done. tauto.
  - split_and!; [by apply (Inv_view st')|done|done].
  - by apply offers_view.
Qed.

(** ** Registrations *)

(** The interfaces that a registration has not reported yet. *)
Definition pending st (n : Z) : list Z :=
  match Notifies st !! n with
  | Some x => links_after (Position x) (entry_links (Entries st) (NotifyProtocol x))
  | None => []
  end.

(** The structures of a registration. *)
Lemma Linked_registration st n x :
  Linked st -> Notifies st !! n = Some x ->
  n ≠ 0 /\ exists en, Entries st !! NotifyProtocol x = Some en /\ NoDup (EntryProtocols en) /\
    (forall q, Position x = Some q -> q ∈ EntryProtocols en).
Proof using.
  intros L Hx. split; [destruct (Linked_nonzero st L) as (_ & _ & _ & H0); congruence|].
  destruct (linked_notifies _ _ _ _ _ _ _ L (NotifyProtocol x)) as [_ Hn].
  assert (n ∈ notify_links (Entries st) (NotifyProtocol x)) as Hin by (apply Hn; by rewrite Hx). unfold notify_links in Hin.
  destruct (Entries st !! NotifyProtocol x) as [en|] eqn:He; [|by apply elem_of_nil in Hin]. exists en. split; [done|].
  destruct (linked_by_entry _ _ _ _ _ _ _ L (NotifyProtocol x)) as [Hnd _]. rewrite (entry_links_Some _ _ _ He) in Hnd. split; [done|].
  intros q Hq. pose proof (linked_position _ _ _ _ _ _ _ L n x q Hx Hq) as Hp. by rewrite (entry_links_Some _ _ _ He) in Hp.
Qed.

Lemma CoreLocateProtocol_run High st Protocol n x :
  Ready High st -> Notifies st !! n = Some x ->
  exists st', Ready High st' /\ pending st' n = tail (pending st n) /\ Interfaces st' = Interfaces st /\
    is_Some (Notifies st' !! n) /\
    CoreLocateProtocol (Some Protocol) n true st =
      Done (match pending st n with
            | [] => (EFI_NOT_FOUND, 0)
            | p :: _ => (EFI_SUCCESS, from_option Interface 0 (Interfaces st !! p))
            end, st').
Proof using Q.
  intros HR Hx. pose proof HR as ([L N] & Hl & Ha). destruct (Linked_registration st n x L Hx) as (Hn0 & en & He & Hnd & Hpos).
  assert (pending st n = links_after (Position x) (EntryProtocols en)) as Hpend by (unfold pending; by rewrite Hx, (entry_links_Some _ _ _ He)).
  unfold CoreLocateProtocol. cbn [negb]. cbn iota. hm_run. rewrite Hl. rewrite Acquire_run by done. hm_run. set (st1 := SetLocateRequest _ _).
  rewrite (proj2 (Z.eqb_neq n 0)) by done. rewrite !bind_run. unfold CoreGetNextLocateByRegisterNotify at 1. cbn [SearchKey].
  rewrite (proj2 (Z.eqb_neq n 0)) by done. cbn [negb]. rewrite bind_run. erewrite deref_run by exact Hx. rewrite bind_run. erewrite deref_run by exact He.
  rewrite Hpend. destruct (links_after (Position x) (EntryProtocols en)) as [|p l] eqn:El.
  - hm_run. cbn. hm_run. rewrite Release_run by done. eexists. split_and!; [| | | |done].
    + split_and!; [by apply (Inv_view st)|done|done].
    + unfold pending. simpl. rewrite Hx. by rewrite (entry_links_Some _ _ _ He).
    + done.
    + simpl. by rewrite Hx.
  - assert (p ∈ EntryProtocols en) as Hp by (apply (links_after_elem (Position x)); rewrite El; by left).
    destruct (linked_by_entry _ _ _ _ _ _ _ L (NotifyProtocol x)) as [_ Hbe]. rewrite (entry_links_Some _ _ _ He) in Hbe.
    apply Hbe, fmap_Some in Hp as (prot & Hp & _). rewrite Hp. hm_run.
    assert (ProtHandle prot ≠ 0) as Hh0.
    { intros Hz. destruct (linked_by_handle _ _ _ _ _ _ _ L 0) as [_ Hbh].
      assert (p ∈ links (Protocols <$> Handles st) 0) as Hin by (apply Hbh; rewrite Hp; simpl; by rewrite Hz).
      unfold links in Hin. rewrite lookup_fmap in Hin. destruct (Linked_nonzero st L) as (H0 & _). rewrite H0 in Hin. by apply elem_of_nil in Hin. }
    rewrite (proj2 (Z.eqb_neq (ProtHandle prot) 0)) by done. unfold AdvanceNotify, UpdateNotify. hm_run. cbn.
    rewrite El, Release_run by done. eexists. split_and!; [| | | |done].
    + split_and!; [split; [|done]|done|done]. apply Linked_set_position; [exact L|exact Hx|].
      intros q [= <-]. simpl. rewrite (entry_links_Some _ _ _ He). apply (links_after_elem (Position x)). rewrite El. by left.
    + unfold pending. simpl. rewrite lookup_insert_eq. simpl. rewrite (entry_links_Some _ _ _ He). by apply (links_after_step (Position x)).
    + done.
    + simpl. by rewrite lookup_insert_eq.
Qed.

(** Asking for the next new interface until there is none. *)
Fixpoint DrainRegistration (fuel : nat) (Protocol n : Z) : HM HS (list Z) :=
  match fuel with
  | O => mret []
  | S fuel =>
    '(Status, i) ← CoreLocateProtocol (Some Protocol) n true;
    if EFI_ERROR Status then mret [] else
    Rest ← DrainRegistration fuel Protocol n;
    mret (i :: Rest)
  end.

Lemma Drain_run High Protocol n fuel : forall st,
  Ready High st -> is_Some (Notifies st !! n) -> (length (pending st n) < fuel)%nat ->
  exists st', DrainRegistration fuel Protocol n st =
      Done ((fun p => from_option Interface 0 (Interfaces st !! p)) <$> pending st n, st') /\
    Ready High st' /\ pending st' n = [].
Proof using Q.
  induction fuel as [|fuel IH]; intros st HR [x Hx] Hf; [lia|]. cbn [DrainRegistration].
  destruct (CoreLocateProtocol_run High st Protocol n x HR Hx) as (st1 & HR1 & Hp1 & HI1 & Hn1 & E). rewrite (HM_bind_run _ _ _ _ _ E).
  destruct (pending st n) as [|p l] eqn:Ep; cbn [EFI_ERROR].
  - exists st1. split_and!; [done|done|]. by rewrite Hp1.
  - destruct (IH st1 HR1 Hn1) as (st2 & E2 & HR2 & Hp2); [rewrite Hp1; simpl in Hf |- *; lia|].
    rewrite (HM_bind_run _ _ _ _ _ E2). exists st2. split_and!; [|done|done]. by rewrite Hp1, HI1.
Qed.

Lemma pending_LinkInterface st h hd e en p i n x :
  Linked st -> Entries st !! e = Some en -> Notifies st !! n = Some x ->
  pending (LinkInterface h hd e en p i st) n = pending st n ++ (if decide (NotifyProtocol x = e) then [p] else []).
Proof using.
  intros L He Hx. destruct (Linked_registration st n x L Hx) as (_ & en' & He' & Hnd & Hpos). unfold pending. simpl. rewrite Hx.
  rewrite entry_links_insert, (entry_links_Some _ _ _ He'). destruct (decide (NotifyProtocol x = e)) as [<-|]; [|by rewrite app_nil_r].
  rewrite He in He'. injection He' as <-. simpl. by apply links_after_snoc.
Qed.

Lemma pending_SignalAll l st n : pending (SignalAll l st) n = pending st n.
Proof using. destruct (SignalAll_same l st) as (Hv & _). unfold view in Hv. injection Hv as _ _ _ _ HE _ HN. unfold pending. by rewrite HE, HN. Qed.

Lemma pending_UnlinkEntry st e en p n :
  Linked st -> Entries st !! e = Some en -> p ∈ EntryProtocols en ->
  pending (UnlinkEntry e en p st) n = remove_link p (pending st n).
Proof using.
  intros L He Hp. unfold pending. simpl. rewrite lookup_fmap. destruct (Notifies st !! n) as [x|] eqn:Hx; [|done]. simpl.
  destruct (Linked_registration st n x L Hx) as (_ & en' & He' & Hnd & Hpos).
  assert (NotifyProtocol (back_up p (back_link None p (EntryProtocols en)) x) = NotifyProtocol x) as ->
    by (unfold back_up; by destruct (bool_decide _)).
  rewrite entry_links_insert, (entry_links_Some _ _ _ He'). destruct (decide (NotifyProtocol x = e)) as [<-|Hne].
  - rewrite He in He'. injection He' as <-. simpl. rewrite <- links_after_remove by done. f_equal. unfold back_up. by destruct (bool_decide _).
  - assert (p ∉ EntryProtocols en') as Hnin.
    { intros Hin. destruct (linked_by_entry _ _ _ _ _ _ _ L (NotifyProtocol x)) as [_ H1]. destruct (linked_by_entry _ _ _ _ _ _ _ L e) as [_ H2].
      rewrite (entry_links_Some _ _ _ He') in H1. rewrite (entry_links_Some _ _ _ He) in H2. apply H1 in Hin. apply H2 in Hp. congruence. }
    rewrite remove_link_notin by (intros Hin; by apply Hnin, (links_after_elem (Position x))).
    unfold back_up. rewrite bool_decide_eq_false_2; [done|]. intros Hq. by apply Hnin, Hpos.
Qed.

(** C14: A registration reports each interface of its protocol exactly once.
    Asking CoreLocateProtocol with the registration until EFI_NOT_FOUND returns
    the interfaces that are pending, in order, after which none is.  Linking a
    new interface appends it to what is pending for the registrations of its
    protocol and changes nothing for others, and removing an interface takes
    exactly that one off, also where it was the one last reported. *)
Theorem registration_reports_once st Protocol n x :
  Ready false st -> Notifies st !! n = Some x ->
  (exists st', DrainRegistration (S (length (pending st n))) Protocol n st =
      Done ((fun p => from_option Interface 0 (Interfaces st !! p)) <$> pending st n, st') /\
    Ready false st' /\ pending st' n = []) /\
  (forall h hd e en p P i NotifyThem st',
     Handles st !! h = Some hd -> Entries st !! e = Some en -> p ≠ 0 -> Interfaces st !! p = None ->
     InstallLink h e p P i NotifyThem (SetLocked true st) = Done (tt, st') ->
     pending st' n = pending st n ++ (if decide (NotifyProtocol x = e) then [p] else [])) /\
  (forall h P i p st', is_Some (Handles st !! h) ->
     CoreRemoveInterfaceFromProtocol h P i (SetLocked true st) = Done (p, st') -> p ≠ 0 ->
     pending st' n = remove_link p (pending st n)).
Proof using Q.
  intros HR Hx. pose proof HR as ([L N] & Hl & Ha). assert (Linked (SetLocked true st)) as L1 by done. split_and!.
  - apply Drain_run; [done|by rewrite Hx|lia].
  - intros h hd e en p P i NotifyThem st' Hh He Hp Hpi E.
    rewrite (InstallLink_run (SetLocked true st) h hd e en p P i NotifyThem L1 eq_refl Hh He Hp Hpi) in E.
    destruct (decide _); [|done]. injection E as <-. pose proof (pending_LinkInterface (SetLocked true st) h hd e en p i n x L1 He Hx) as HP.
    destruct NotifyThem; [rewrite pending_SignalAll|]; exact HP.
  - intros h P i p st' [hd Hh] E Hp. destruct (offering (SetLocked true st) hd (P, i)) as [q|] eqn:Ho.
    + destruct (offering_Some (SetLocked true st) h hd _ q L1 Hh Ho) as (_ & _ & _ & prot & en & Hq & _ & He & Hin).
      rewrite (CoreRemoveInterfaceFromProtocol_run (SetLocked true st) h hd P i q prot en L1 eq_refl Hh Ho Hq He Hin) in E.
      injection E as <- <-. by apply (pending_UnlinkEntry (SetLocked true st)).
    + rewrite (CoreRemoveInterfaceFromProtocol_none (SetLocked true st) h hd P i L1 eq_refl Hh Ho) in E. by injection E as <- _.
Qed.
End Locate.

(** ** Witnesses *)

Lemma CoreLocateHandle_ByProtocol_witness :
  exists Found st', CoreLocateHandle ByProtocol (Some 77) 0 (Some 16) true SampleDatabase = Done (LocateResult 16 Found, st') /\
    NoDup Found /\ (4 ∈ Found <-> 77 ∈ protocols_on SampleDatabase 4).
Proof.
  destruct (CoreLocateHandle_ByProtocol false SampleDatabase 77 0 16 true SampleDatabase_ready
    ltac:(apply (bool_decide_unpack _); by vm_compute) eq_refl ltac:(lia)) as (Found & st' & E & Hn & Hin & _).
  exists Found, st'. split; [exact E|]. split; [exact Hn|exact (Hin 4)].
Defined.

Lemma registration_reports_once_witness :
  exists st', DrainRegistration 2 77 2 SampleDatabase = Done ([1000], st') /\ pending st' 2 = [].
Proof.
  destruct (registration_reports_once SampleDatabase 77 2 (MkNotify 1 500 None) SampleDatabase_ready ltac:(by vm_compute))
    as [(st' & E & _ & Hp) _]. exists st'. split; [|exact Hp]. etransitivity; [exact E|reflexivity].
Defined.
