(* ===== verification/StateMonad.v ===== *)
(** * Programs over a state

    A C function that changes global variables is a program [SM S A]: from a
    state to an outcome with a result and a new state.  The rules for runs that
    return, and a logic of triples for them. *)
From Stdlib Require Import ZArith Lia.
From stdpp Require Import base option list.
From S2P Require Import Prelude.

Definition SM (S A : Type) : Type := S -> Outcome (A * S).

#[export] Instance SM_ret {S} : MRet (SM S) := fun A a st => Done (a, st).
#[export] Instance SM_bind {S} : MBind (SM S) :=
  fun A B f m st => match m st with Done (a, st') => f a st' | Asserted => Asserted | OutOfFuel => OutOfFuel end.

Section Programs.
Context {S : Type}.

Definition Get {A} (f : S -> A) : SM S A := fun st => Done (f st, st).
Definition Change (f : S -> S) : SM S unit := fun st => Done (tt, f st).
Definition Assert (b : bool) : SM S unit := fun st => if b then Done (tt, st) else Asserted.
Definition NoFuel {A} : SM S A := fun _ => OutOfFuel.

(** A program on a part of the state. *)
Definition Within {T A} (get : S -> T) (set : T -> S -> S) (m : T -> Outcome (A * T)) : SM S A :=
  fun st => match m (get st) with Done (a, t) => Done (a, set t st) | Asserted => Asserted | OutOfFuel => OutOfFuel end.

(** ** Runs *)

Lemma SM_bind_run {A B} (m : SM S A) (f : A -> SM S B) st a st' : m st = Done (a, st') -> (m ≫= f) st = f a st'.
Proof. intros E. unfold mbind, SM_bind. by rewrite E. Qed.

(** The first step of a run. *)
Lemma Get_run {A B} (g : S -> A) (f : A -> SM S B) st : (Get g ≫= f) st = f (g st) st.
Proof. done. Qed.

Lemma Change_run {B} (g : S -> S) (f : unit -> SM S B) st : (Change g ≫= f) st = f tt (g st).
Proof. done. Qed.

Lemma Assert_run {B} b (f : unit -> SM S B) st : b = true -> (Assert b ≫= f) st = f tt st.
Proof. by intros ->. Qed.

Lemma ret_run {A B} (a : A) (f : A -> SM S B) st : (mret a ≫= f) st = f a st.
Proof. done. Qed.

Lemma SM_bind_Done {A B} (m : SM S A) (f : A -> SM S B) st b st' :
  (m ≫= f) st = Done (b, st') <-> exists a st1, m st = Done (a, st1) /\ f a st1 = Done (b, st').
Proof.
  unfold mbind, SM_bind. split.
  - destruct (m st) as [[a st1]| |]; [eauto|done..].
  - by intros (a & st1 & -> & ?).
Qed.

Lemma SM_ret_Done {A} (a b : A) (st st' : S) : (mret a : SM S A) st = Done (b, st') <-> b = a /\ st' = st.
Proof. unfold mret, SM_ret. naive_solver. Qed.

Lemma Get_Done {A} (f : S -> A) st b st' : Get f st = Done (b, st') <-> b = f st /\ st' = st.
Proof. unfold Get. naive_solver. Qed.

Lemma Change_Done (f : S -> S) st u st' : Change f st = Done (u, st') <-> st' = f st.
Proof. unfold Change. destruct u. naive_solver. Qed.

Lemma Assert_Done b st u st' : Assert b st = Done (u, st') <-> b = true /\ st' = st.
Proof. unfold Assert. destruct b, u; naive_solver. Qed.

(** A run that returns, and what holds then. *)
Definition Returns {A} (m : SM S A) (st : S) (Q : A -> S -> Prop) : Prop := exists a st', m st = Done (a, st') /\ Q a st'.

Lemma Returns_bind {A B} (m : SM S A) (f : A -> SM S B) st R Q :
  Returns m st R -> (forall a st', R a st' -> Returns (f a) st' Q) -> Returns (m ≫= f) st Q.
Proof.
  intros (a & st1 & E & HR) Hf. destruct (Hf a st1 HR) as (b & st2 & E2 & HQ). exists b, st2.
  by rewrite (SM_bind_run _ _ _ _ _ E).
Qed.

Lemma Returns_mono {A} (m : SM S A) st (Q Q' : A -> S -> Prop) :
  (forall a st', Q a st' -> Q' a st') -> Returns m st Q -> Returns m st Q'.
Proof. intros HQ (a & st' & E & H). exists a, st'. split; [done|by apply HQ]. Qed.

Lemma Returns_ret {A} (a : A) st (Q : A -> S -> Prop) : Q a st -> Returns (mret a) st Q.
Proof. intros H. by exists a, st. Qed.

Lemma Returns_step {A B} (m : SM S A) (f : A -> SM S B) st a st1 Q :
  m st = Done (a, st1) -> Returns (f a) st1 Q -> Returns (m ≫= f) st Q.
Proof. intros E (b & st2 & E2 & H). exists b, st2. by rewrite (SM_bind_run _ _ _ _ _ E). Qed.

(** ** Triples: what holds after a run, if it returns *)

Definition Keeps {A} (P : S -> Prop) (m : SM S A) (Q : A -> S -> Prop) : Prop :=
  forall st a st', P st -> m st = Done (a, st') -> Q a st'.

Lemma Keeps_bind {A B} P (m : SM S A) R (f : A -> SM S B) Q :
  Keeps P m R -> (forall a, Keeps (R a) (f a) Q) -> Keeps P (m ≫= f) Q.
Proof. intros Hm Hf st b st' HP (a & st1 & E1 & E2)%SM_bind_Done. by eapply (Hf a); [eapply Hm|]. Qed.

Lemma Keeps_ret {A} (P : S -> Prop) (a : A) : Keeps P (mret a) (fun _ => P).
Proof. by intros st b st' HP [_ ->]%SM_ret_Done. Qed.

Lemma Keeps_Get {A} (P : S -> Prop) (f : S -> A) : Keeps P (Get f) (fun _ => P).
Proof. by intros st b st' HP [_ ->]%Get_Done. Qed.

Lemma Keeps_Assert (P : S -> Prop) b : Keeps P (Assert b) (fun _ => P).
Proof. by intros st u st' HP [_ ->]%Assert_Done. Qed.

Lemma Keeps_NoFuel {A} (P : S -> Prop) (Q : A -> S -> Prop) : Keeps P NoFuel Q.
Proof. done. Qed.

Lemma Keeps_conseq {A} (P P' : S -> Prop) (m : SM S A) (Q Q' : A -> S -> Prop) :
  (forall st, P' st -> P st) -> (forall a st, Q a st -> Q' a st) -> Keeps P m Q -> Keeps P' m Q'.
Proof. intros HP HQ Hm st a st' Hst E. apply HQ. by eapply Hm; [apply HP|]. Qed.
End Programs.

(** Inverts the runs in the context step by step. *)
Ltac sm_inv :=
  repeat match goal with
  | H : (_ ≫= _) _ = Done _ |- _ => apply SM_bind_Done in H as (? & ? & ? & ?)
  | H : mret _ _ = Done _ |- _ => apply SM_ret_Done in H as [? ?]
  | H : Get _ _ = Done _ |- _ => apply Get_Done in H as [? ?]
  | H : Change _ _ = Done _ |- _ => apply Change_Done in H
  | H : Assert _ _ = Done _ |- _ => apply Assert_Done in H as [? ?]
  | H : NoFuel _ = Done _ |- _ => discriminate H
  end; simplify_eq.
