(* ===== verification/MemoryBin.v ===== *)
(** * Memory bins: the model

    [src/MdeModulePkg/Core/Dxe/Mem/MemoryBin.c]: the ranges in which memory of
    each type is preferably allocated, so that its addresses are the same at
    every boot, and the statistics that decide how large they should be.  The
    parts that read the HOB list are left out, and
    [AllocateMemoryTypeInformationBins] is in Page.v, since it allocates.  The
    arrays are lists; running over the end of one is [Asserted]. *)
From Stdlib Require Import ZArith Lia.
From stdpp Require Import base option list.
From S2P Require Import Prelude Gcd.

(** ** Memory types and sizes *)

Definition EfiReservedMemoryType : Z := 0.
Definition EfiBootServicesCode : Z := 3.
Definition EfiBootServicesData : Z := 4.
Definition EfiRuntimeServicesCode : Z := 5.
Definition EfiRuntimeServicesData : Z := 6.
Definition EfiACPIReclaimMemory : Z := 9.
Definition EfiACPIMemoryNVS : Z := 10.
Definition EfiPersistentMemory : Z := 14.
Definition EfiUnacceptedMemoryType : Z := 15.
Definition EfiMaxMemoryType : Z := 16.
Definition MEMORY_TYPE_OEM_RESERVED_MIN : Z := 0x70000000.

Definition MAX_ALLOC_ADDRESS : Z := 0xFFFFFFFFFFFFFFFF.
Definition DEFAULT_PAGE_ALLOCATION_GRANULARITY : Z := 0x1000.
Definition RUNTIME_PAGE_ALLOCATION_GRANULARITY : Z := 0x1000.

Definition EFI_SIZE_TO_PAGES (Size : Z) : Z := Z.shiftr Size EFI_PAGE_SHIFT + (if HasFlag Size EFI_PAGE_MASK then 1 else 0).
Definition EFI_PAGES_TO_SIZE (Pages : Z) : Z := u64 (Z.shiftl Pages EFI_PAGE_SHIFT).
(** [EFI_PAGES_TO_SIZE] of a UINT32, which C computes with 32 bits. *)
Definition EFI_PAGES_TO_SIZE32 (Pages : Z) : Z := Z.shiftl Pages EFI_PAGE_SHIFT mod 2 ^ 32.

(** The granularity of allocations of a type. *)
Definition GranularityOf (Type_ : Z) : Z :=
  if (Type_ =? EfiReservedMemoryType) || (Type_ =? EfiACPIMemoryNVS) ||
     (Type_ =? EfiRuntimeServicesCode) || (Type_ =? EfiRuntimeServicesData)
  then RUNTIME_PAGE_ALLOCATION_GRANULARITY else DEFAULT_PAGE_ALLOCATION_GRANULARITY.

(** ** State *)

Record EFI_MEMORY_TYPE_STATISTICS := MkStatistics {
  BaseAddress : Z;
  MaximumAddress : Z;
  CurrentNumberOfPages : Z;
  NumberOfPages : Z;
  InformationIndex : Z;
  Special : bool;
  Runtime : bool }.

Record EFI_MEMORY_TYPE_INFORMATION := MkInformation {
  InfoType : Z;
  InfoPages : Z }.

Record BinState := MkBins {
  mMemoryTypeInformationInitialized : bool;
  mMemoryTypeStatistics : list EFI_MEMORY_TYPE_STATISTICS;
  gMemoryTypeInformation : list EFI_MEMORY_TYPE_INFORMATION;
  mDefaultMaximumAddress : Z;
  mDefaultBaseAddress : Z }.

Definition SetRange (Base Max : Z) (s : EFI_MEMORY_TYPE_STATISTICS) : EFI_MEMORY_TYPE_STATISTICS :=
  MkStatistics Base Max (CurrentNumberOfPages s) (NumberOfPages s) (InformationIndex s) (Special s) (Runtime s).
Definition SetCurrentPages (n : Z) (s : EFI_MEMORY_TYPE_STATISTICS) : EFI_MEMORY_TYPE_STATISTICS :=
  MkStatistics (BaseAddress s) (MaximumAddress s) n (NumberOfPages s) (InformationIndex s) (Special s) (Runtime s).
Definition SetBinPages (n : Z) (s : EFI_MEMORY_TYPE_STATISTICS) : EFI_MEMORY_TYPE_STATISTICS :=
  MkStatistics (BaseAddress s) (MaximumAddress s) (CurrentNumberOfPages s) n (InformationIndex s) (Special s) (Runtime s).
Definition SetInformationIndex (i : Z) (s : EFI_MEMORY_TYPE_STATISTICS) : EFI_MEMORY_TYPE_STATISTICS :=
  MkStatistics (BaseAddress s) (MaximumAddress s) (CurrentNumberOfPages s) (NumberOfPages s) i (Special s) (Runtime s).

Definition SetStatistics (v : list EFI_MEMORY_TYPE_STATISTICS) (b : BinState) : BinState :=
  MkBins (mMemoryTypeInformationInitialized b) v (gMemoryTypeInformation b) (mDefaultMaximumAddress b) (mDefaultBaseAddress b).
Definition SetInformation (v : list EFI_MEMORY_TYPE_INFORMATION) (b : BinState) : BinState :=
  MkBins (mMemoryTypeInformationInitialized b) (mMemoryTypeStatistics b) v (mDefaultMaximumAddress b) (mDefaultBaseAddress b).
Definition SetInitialized (v : bool) (b : BinState) : BinState :=
  MkBins v (mMemoryTypeStatistics b) (gMemoryTypeInformation b) (mDefaultMaximumAddress b) (mDefaultBaseAddress b).
Definition SetDefaultMaximum (v : Z) (b : BinState) : BinState :=
  MkBins (mMemoryTypeInformationInitialized b) (mMemoryTypeStatistics b) (gMemoryTypeInformation b) v (mDefaultBaseAddress b).
Definition SetDefaultBase (v : Z) (b : BinState) : BinState :=
  MkBins (mMemoryTypeInformationInitialized b) (mMemoryTypeStatistics b) (gMemoryTypeInformation b) (mDefaultMaximumAddress b) v.

(** [MemoryTypeStatistics[Type]], and storing in it. *)
Definition StatisticsOf (Type_ : Z) (b : BinState) : Outcome EFI_MEMORY_TYPE_STATISTICS :=
  match mMemoryTypeStatistics b !! Z.to_nat Type_ with Some s => Done s | None => Asserted end.
Definition StoreStatistics (Type_ : Z) (s : EFI_MEMORY_TYPE_STATISTICS) (b : BinState) : BinState :=
  SetStatistics (<[Z.to_nat Type_ := s]> (mMemoryTypeStatistics b)) b.

(** ** Sizes of the bins *)

(** The loop over [MemoryTypeInformation]; [BinTop] is [None] for NULL. *)
Fixpoint BinSizeLoop (Info : list EFI_MEMORY_TYPE_INFORMATION) (BinTop : option Z) (TotalSize : Z) : Outcome (Z * option Z) :=
  match Info with
  | [] => Asserted
  | i :: Info =>
    if InfoType i =? EfiMaxMemoryType then Done (TotalSize, BinTop) else
    let Granularity := GranularityOf (InfoType i) in
    let TotalSize := add64 TotalSize (EFI_PAGES_TO_SIZE (InfoPages i)) in
    match BinTop with
    | None => BinSizeLoop Info None TotalSize
    | Some Top =>
      let Top := sub64 Top (EFI_PAGES_TO_SIZE (InfoPages i)) in
      BinSizeLoop Info (Some (Z.land Top (not64 (Granularity - 1)))) (add64 TotalSize (Z.land Top (Granularity - 1)))
    end
  end.

Definition CalculateTotalMemoryBinSizeNeeded (BinTop : option Z) (Info : list EFI_MEMORY_TYPE_INFORMATION)
  : Outcome (Z * option Z) :=
  '(TotalSize, BinTop) ← BinSizeLoop Info BinTop 0;
  Done (TotalSize, option_map (fun Top => add64 Top TotalSize) BinTop).

(** ** Setting up the statistics *)

(** The index of the last element of a type before the end of the array. *)
Fixpoint InformationIndexLoop (Type_ : Z) (Info : list EFI_MEMORY_TYPE_INFORMATION) (Index Found : Z) : Outcome Z :=
  match Info with
  | [] => Asserted
  | i :: Info =>
    if InfoType i =? EfiMaxMemoryType then Done Found
    else InformationIndexLoop Type_ Info (Index + 1) (if Type_ =? InfoType i then Index else Found)
  end.

Fixpoint InitializeLoop (Types : list Z) (b : BinState) : Outcome BinState :=
  match Types with
  | [] => Done b
  | Type_ :: Types =>
    s ← StatisticsOf Type_ b;
    Index ← InformationIndexLoop Type_ (gMemoryTypeInformation b) 0 (InformationIndex s);
    let s := SetCurrentPages 0 (SetInformationIndex Index s) in
    let s := if MaximumAddress s =? MAX_ALLOC_ADDRESS then SetRange (BaseAddress s) (mDefaultMaximumAddress b) s else s in
    InitializeLoop Types (StoreStatistics Type_ s b)
  end.

Definition InitializeBinStatisticsFromRange (b : BinState) : Outcome BinState :=
  InitializeLoop (Z.of_nat <$> seq 0 (Z.to_nat EfiMaxMemoryType)) b.

(** The loop that carves the bins out of the range below [Top]. *)
Fixpoint InheritLoop (Info Rest : list EFI_MEMORY_TYPE_INFORMATION) (Top : Z) (b : BinState) : Outcome BinState :=
  match Rest with
  | [] => Asserted
  | i :: Rest =>
    if InfoType i =? EfiMaxMemoryType then Done (SetInformation (Info ++ i :: Rest) b) else
    if (EfiMaxMemoryType <? InfoType i) || (InfoPages i =? 0) then InheritLoop (Info ++ [i]) Rest Top b else
    s ← StatisticsOf (InfoType i) b;
    let Base := sub64 Top (EFI_PAGES_TO_SIZE (InfoPages i)) in
    let b := if Base <? mDefaultMaximumAddress b then SetDefaultMaximum (sub64 Base 1) b else b in
    let b := StoreStatistics (InfoType i) (SetBinPages (InfoPages i) (SetRange Base (sub64 Top 1) s)) b in
    InheritLoop (Info ++ [MkInformation (InfoType i) 0]) Rest Base b
  end.

Definition CoreSetMemoryTypeInformationRange (Start Length : Z) (b : BinState) : Outcome BinState :=
  if mMemoryTypeInformationInitialized b then Done b else
  '(Size, Top) ← CalculateTotalMemoryBinSizeNeeded (Some (add64 Start Length)) (gMemoryTypeInformation b);
  if Length <? Size then Done b else
  b ← InheritLoop [] (gMemoryTypeInformation b) (default 0 Top) b;
  b ← InitializeBinStatisticsFromRange b;
  Done (SetInitialized true b).

(** ** Statistics of allocations *)

(** Whether [Start] counts for a type: it is in its bin or in the default one. *)
Definition Counted (Start : Z) (s : EFI_MEMORY_TYPE_STATISTICS) (b : BinState) : bool :=
  (BaseAddress s <=? Start) && (Start <=? MaximumAddress s) ||
  (mDefaultBaseAddress b <=? Start) && (Start <=? mDefaultMaximumAddress b).

Definition UpdateMemoryStatistics (OldType NewType Start NumberOfPages_ : Z) (b : BinState) : Outcome BinState :=
  if negb (mMemoryTypeInformationInitialized b) then Done b else
  b ← (if OldType <? EfiMaxMemoryType then
         s ← StatisticsOf OldType b;
         if Counted Start s b then
           let Current := if CurrentNumberOfPages s <? NumberOfPages_ then 0 else CurrentNumberOfPages s - NumberOfPages_ in
           Done (StoreStatistics OldType (SetCurrentPages Current s) b)
         else Done b
       else Done b);
  if NewType <? EfiMaxMemoryType then
    s ← StatisticsOf NewType b;
    if Counted Start s b then
      let Current := add64 (CurrentNumberOfPages s) NumberOfPages_ in
      let b := StoreStatistics NewType (SetCurrentPages Current s) b in
      if InformationIndex s <? EfiMaxMemoryType then
        match gMemoryTypeInformation b !! Z.to_nat (InformationIndex s) with
        | None => Asserted
        | Some i =>
          if InfoPages i <? Current
          then Done (SetInformation (<[Z.to_nat (InformationIndex s) := MkInformation (InfoType i) (Current mod 2 ^ 32)]>
                                       (gMemoryTypeInformation b)) b)
          else Done b
        end
      else Done b
    else Done b
  else Done b.
