(* ===== verification/Page.v ===== *)
(** * The page allocator: the model

    [src/MdeModulePkg/Core/Dxe/Mem/Page.c] without CoreGetMemoryMap, which is in
    PageGetMap.v: the memory
    map, which gives each range of memory a type and attributes, the allocation
    and release of pages, and the descriptors of the map itself, which are kept
    in pages that the allocator takes from the map.

    The list [gMemoryMap] is the sequence of its descriptors.  A descriptor is
    an element of the array mMapStack or one of those in pages, which is what
    the field [FromPages] tells, and is known by its node.  An element of
    mMapStack whose ForwardLink is NULL is one that is not in the list.  The
    field VirtualStart, which is 0 in all descriptors, and the contents of
    memory, which the code clears, are left out.

    CoreFreeMemoryMapStack may allocate a page, which changes the map and calls
    it again, when it returns at once.  The functions in between are defined
    over a program [FreeStack] for the call that closes the circle, and
    [CoreFreeMemoryMapStack] ties the knot with fuel. *)
From Stdlib Require Import ZArith Lia.
From stdpp Require Import base option list.
From S2P Require Import Prelude StateMonad Gcd MemoryBin.

(** ** Data *)

Definition AllocateAnyPages : Z := 0.
Definition AllocateMaxAddress : Z := 1.
Definition AllocateAddress : Z := 2.
Definition MaxAllocateType : Z := 3.

Definition MAX_MAP_DEPTH : nat := 6.

(** [&mMapStack[i]], or a descriptor at an address. *)
Inductive MapNode :=
| StackNode (i : nat)
| PageNode (p : Z).

#[export] Instance MapNode_eq_dec : EqDecision MapNode.
Proof. solve_decision. Defined.

Record MEMORY_MAP := MkMap {
  Node : MapNode;
  MType : Z;
  MStart : Z;
  MEnd : Z;
  MAttribute : Z }.

Definition FromPages (e : MEMORY_MAP) : bool := match Node e with PageNode _ => true | StackNode _ => false end.

Definition SetNode (v : MapNode) (e : MEMORY_MAP) : MEMORY_MAP := MkMap v (MType e) (MStart e) (MEnd e) (MAttribute e).
Definition SetStart (v : Z) (e : MEMORY_MAP) : MEMORY_MAP := MkMap (Node e) (MType e) v (MEnd e) (MAttribute e).
Definition SetEnd (v : Z) (e : MEMORY_MAP) : MEMORY_MAP := MkMap (Node e) (MType e) (MStart e) v (MAttribute e).

(** [MapSignals] counts the calls of
    CoreNotifySignalList (&gEfiEventMemoryMapChangeGuid). *)
Record PageState := MkPages {
  gMemoryMap : list MEMORY_MAP;
  mMapDepth : nat;
  mFreeMapStack : Z;
  mFreeMemoryMapEntryList : list Z;
  mMemoryMapKey : Z;
  MapSignals : Z;
  gMemoryLock : bool;
  gLoadFixedAddressCodeMemoryReady : bool;
  Bins : BinState;
  Gcd_ : GcdState }.

Definition PM : Type -> Type := SM PageState.

Definition SetMemoryMap (v : list MEMORY_MAP) (st : PageState) : PageState :=
  MkPages v (mMapDepth st) (mFreeMapStack st) (mFreeMemoryMapEntryList st) (mMemoryMapKey st) (MapSignals st)
    (gMemoryLock st) (gLoadFixedAddressCodeMemoryReady st) (Bins st) (Gcd_ st).
Definition SetMapDepth (v : nat) (st : PageState) : PageState :=
  MkPages (gMemoryMap st) v (mFreeMapStack st) (mFreeMemoryMapEntryList st) (mMemoryMapKey st) (MapSignals st)
    (gMemoryLock st) (gLoadFixedAddressCodeMemoryReady st) (Bins st) (Gcd_ st).
Definition SetFreeMapStack (v : Z) (st : PageState) : PageState :=
  MkPages (gMemoryMap st) (mMapDepth st) v (mFreeMemoryMapEntryList st) (mMemoryMapKey st) (MapSignals st)
    (gMemoryLock st) (gLoadFixedAddressCodeMemoryReady st) (Bins st) (Gcd_ st).
Definition SetFreeList (v : list Z) (st : PageState) : PageState :=
  MkPages (gMemoryMap st) (mMapDepth st) (mFreeMapStack st) v (mMemoryMapKey st) (MapSignals st)
    (gMemoryLock st) (gLoadFixedAddressCodeMemoryReady st) (Bins st) (Gcd_ st).
Definition SetMapKey (v s : Z) (st : PageState) : PageState :=
  MkPages (gMemoryMap st) (mMapDepth st) (mFreeMapStack st) (mFreeMemoryMapEntryList st) v s
    (gMemoryLock st) (gLoadFixedAddressCodeMemoryReady st) (Bins st) (Gcd_ st).
Definition SetMemoryLock (v : bool) (st : PageState) : PageState :=
  MkPages (gMemoryMap st) (mMapDepth st) (mFreeMapStack st) (mFreeMemoryMapEntryList st) (mMemoryMapKey st) (MapSignals st)
    v (gLoadFixedAddressCodeMemoryReady st) (Bins st) (Gcd_ st).
Definition SetCodeReady (v : bool) (st : PageState) : PageState :=
  MkPages (gMemoryMap st) (mMapDepth st) (mFreeMapStack st) (mFreeMemoryMapEntryList st) (mMemoryMapKey st) (MapSignals st)
    (gMemoryLock st) v (Bins st) (Gcd_ st).
Definition SetBins (v : BinState) (st : PageState) : PageState :=
  MkPages (gMemoryMap st) (mMapDepth st) (mFreeMapStack st) (mFreeMemoryMapEntryList st) (mMemoryMapKey st) (MapSignals st)
    (gMemoryLock st) (gLoadFixedAddressCodeMemoryReady st) v (Gcd_ st).
Definition SetGcd (v : GcdState) (st : PageState) : PageState :=
  MkPages (gMemoryMap st) (mMapDepth st) (mFreeMapStack st) (mFreeMemoryMapEntryList st) (mMemoryMapKey st) (MapSignals st)
    (gMemoryLock st) (gLoadFixedAddressCodeMemoryReady st) (Bins st) v.

(** Programs of the bins and of the GCD. *)
Definition OnBins (m : BinState -> Outcome BinState) : PM unit :=
  Within Bins SetBins (fun b => b ← m b; Done (tt, b)).
Definition OnGcd {A} (m : GcdState -> Outcome (A * GcdState)) : PM A := Within Gcd_ SetGcd m.

(** What the allocator uses and does not own: the heap guard, the profile, the
    protection policy, the memory attribute protocol, the PCDs for loading at
    fixed addresses, and the notifications that run when releasing the memory
    lock lowers the task priority level. *)
Class PageEnvironment := MkPageEnvironment {
  DropMemoryLock : PM unit;
  (** [IsHeapGuardEnabled (GUARD_HEAP_TYPE_FREED)] *)
  FreedMemoryGuard : bool;
  IsPageTypeToGuard : Z -> Z -> bool;
  mOnGuarding : bool;
  IsMemoryGuarded : Z -> PM bool;
  (** the result, [ProposedStart] and [ProposedSize] *)
  AdjustMemoryS : Z -> Z -> Z -> Z * Z * Z;
  CoreConvertPagesWithGuard : Z -> Z -> Z -> PM EFI_STATUS;
  SetGuardForMemory : Z -> Z -> PM unit;
  PromoteGuardedFreePages : PM (option (Z * Z));
  GuardFreedPagesChecked : Z -> Z -> PM unit;
  ApplyMemoryProtectionPolicy : Z -> Z -> Z -> Z -> PM unit;
  CoreUpdateProfile : Z -> Z -> Z -> PM unit;
  InstallMemoryAttributesTableOnMemoryAllocation : Z -> PM unit;
  (** [GetMemoryAttributes] of the protocol, if it is installed *)
  gMemoryAttributeProtocol : option (Z -> Z -> EFI_STATUS * Z);
  PcdLoadModuleAtFixAddressEnable : Z;
  PcdLoadFixAddressRuntimeCodePageNumber : Z;
  PcdLoadFixAddressBootTimeCodePageNumber : Z;
  DxeCodeTopAddress : Z;
  gDxeCoreImageHandle : Z }.

Section Allocator.
Context {Env : PageEnvironment}.

(** ** Locking *)

Definition CoreAcquireMemoryLock : PM unit :=
  Held ← Get gMemoryLock;
  Assert (negb Held) ;;
  Change (SetMemoryLock true).

Definition CoreReleaseMemoryLock : PM unit :=
  Held ← Get gMemoryLock;
  Assert Held ;;
  Change (SetMemoryLock false) ;;
  DropMemoryLock.

Definition ASSERT_LOCKED : PM unit :=
  Held ← Get gMemoryLock;
  Assert Held.

(** ** Descriptors *)

Definition RemoveMemoryMapEntry (Entry : MEMORY_MAP) : PM unit :=
  Change (fun st => SetMemoryMap (filter (fun e => Node e ≠ Node Entry) (gMemoryMap st)) st) ;;
  match Node Entry with
  | PageNode p => Change (fun st => SetFreeList (mFreeMemoryMapEntryList st ++ [p]) st)
  | StackNode _ => mret tt
  end.

(** Writes the fields of a descriptor that is in the list. *)
Definition StoreEntry (Entry : MEMORY_MAP) : PM unit :=
  Change (fun st => SetMemoryMap ((fun e => if decide (Node e = Node Entry) then Entry else e) <$> gMemoryMap st) st).

(** Fills [mMapStack[mMapDepth]] and links it at the end of the list. *)
Definition PushDescriptor (Type_ Start End_ Attribute : Z) : PM unit :=
  Depth ← Get mMapDepth;
  Change (fun st => SetMemoryMap (gMemoryMap st ++ [MkMap (StackNode Depth) Type_ Start End_ Attribute]) st) ;;
  Change (SetMapDepth (S Depth)) ;;
  Assert (bool_decide (S Depth < MAX_MAP_DEPTH)%nat).

(** The loop that merges the range with the descriptors it adjoins. *)
Fixpoint AddRangeLoop (Type_ Attribute : Z) (Links : list MEMORY_MAP) (Start End_ : Z) : PM (Z * Z) :=
  match Links with
  | [] => mret (Start, End_)
  | Entry :: Links =>
    if negb (MType Entry =? Type_) then AddRangeLoop Type_ Attribute Links Start End_
    else if negb (MAttribute Entry =? Attribute) then AddRangeLoop Type_ Attribute Links Start End_
    else if add64 (MEnd Entry) 1 =? Start then
      RemoveMemoryMapEntry Entry ;;
      AddRangeLoop Type_ Attribute Links (MStart Entry) End_
    else if MStart Entry =? add64 End_ 1 then
      RemoveMemoryMapEntry Entry ;;
      AddRangeLoop Type_ Attribute Links Start (MEnd Entry)
    else AddRangeLoop Type_ Attribute Links Start End_
  end.

Definition CoreAddRange (Type_ Start End_ Attribute : Z) : PM unit :=
  Assert (negb (HasFlag Start EFI_PAGE_MASK)) ;;
  Assert (Start <? End_) ;;
  ASSERT_LOCKED ;;
  Change (fun st => SetMapKey (add64 (mMemoryMapKey st) 1) (MapSignals st + 1) st) ;;
  Links ← Get gMemoryMap;
  '(Start, End_) ← AddRangeLoop Type_ Attribute Links Start End_;
  PushDescriptor Type_ Start End_ Attribute.

(** ** Conversion *)

(** The first descriptor that covers an address. *)
Fixpoint FindEntry (Start : Z) (Links : list MEMORY_MAP) : option MEMORY_MAP :=
  match Links with
  | [] => None
  | Entry :: Links => if (MStart Entry <=? Start) && (Start <? MEnd Entry) then Some Entry else FindEntry Start Links
  end.

(** Takes the range out of its descriptor; the result is what [Entry] points to
    afterwards. *)
Definition PullOut (Entry : MEMORY_MAP) (Start RangeEnd : Z) : PM MEMORY_MAP :=
  if MStart Entry =? Start then
    let Entry := SetStart (add64 RangeEnd 1) Entry in
    StoreEntry Entry ;;
    mret Entry
  else if MEnd Entry =? RangeEnd then
    let Entry := SetEnd (sub64 Start 1) Entry in
    StoreEntry Entry ;;
    mret Entry
  else
    let Clipped := SetEnd (sub64 Start 1) Entry in
    StoreEntry Clipped ;;
    Assert (MStart Clipped <? MEnd Clipped) ;;
    Depth ← Get mMapDepth;
    PushDescriptor (MType Entry) (add64 RangeEnd 1) (MEnd Entry) (MAttribute Entry) ;;
    mret (MkMap (StackNode Depth) (MType Entry) (add64 RangeEnd 1) (MEnd Entry) (MAttribute Entry)).

Section Knot.
Context (FreeStack : PM unit).

(** The loop that converts the range piece by piece. *)
Fixpoint ConvertLoop (fuel : nat) (Start End_ NumberOfPages_ : Z) (ChangingType : bool) (NewType : Z)
  (ChangingAttributes : bool) (NewAttributes : Z) : PM EFI_STATUS :=
  if negb (Start <? End_) then mret EFI_SUCCESS else
  match fuel with
  | O => NoFuel
  | S fuel =>
    Links ← Get gMemoryMap;
    match FindEntry Start Links with
    | None => mret EFI_NOT_FOUND
    | Some Entry =>
      if ChangingType && negb (NewType =? EfiConventionalMemory) && (MEnd Entry <? End_) then mret EFI_NOT_FOUND else
      let RangeEnd := if MEnd Entry <? End_ then MEnd Entry else End_ in
      if ChangingType && Bool.eqb (NewType =? EfiConventionalMemory) (MType Entry =? EfiConventionalMemory)
      then mret EFI_NOT_FOUND else
      (if ChangingType then OnBins (UpdateMemoryStatistics (MType Entry) NewType Start NumberOfPages_) else mret tt) ;;
      Entry ← PullOut Entry Start RangeEnd;
      let Attribute := if ChangingType then MAttribute Entry else NewAttributes in
      let MemType := if ChangingType then NewType else MType Entry in
      (if MStart Entry =? add64 (MEnd Entry) 1 then RemoveMemoryMapEntry Entry else mret tt) ;;
      (if negb FreedMemoryGuard || negb ChangingType || negb (MemType =? EfiConventionalMemory)
       then CoreAddRange MemType Start RangeEnd Attribute else mret tt) ;;
      FreeStack ;;
      ConvertLoop fuel (add64 RangeEnd 1) End_ NumberOfPages_ ChangingType NewType ChangingAttributes NewAttributes
    end
  end.

(** Each round converts a page at least, so that there are at most as many
    rounds as pages in the range. *)
Definition CoreConvertPagesEx (Start NumberOfPages_ : Z) (ChangingType : bool) (NewType : Z)
  (ChangingAttributes : bool) (NewAttributes : Z) : PM EFI_STATUS :=
  let NumberOfBytes := LShiftU64 NumberOfPages_ EFI_PAGE_SHIFT in
  let End_ := sub64 (add64 Start NumberOfBytes) 1 in
  Assert (negb (NumberOfPages_ =? 0)) ;;
  Assert (negb (HasFlag Start EFI_PAGE_MASK)) ;;
  Assert (Start <? End_) ;;
  ASSERT_LOCKED ;;
  Assert (negb ChangingType || negb ChangingAttributes) ;;
  if (NumberOfPages_ =? 0) || HasFlag Start EFI_PAGE_MASK || (End_ <=? Start) then mret EFI_INVALID_PARAMETER else
  ConvertLoop (Z.to_nat (RShiftU64 (sub64 End_ Start) EFI_PAGE_SHIFT + 1)) Start End_ NumberOfPages_ ChangingType NewType ChangingAttributes NewAttributes.

Definition CoreConvertPages (Start NumberOfPages_ NewType : Z) : PM EFI_STATUS :=
  CoreConvertPagesEx Start NumberOfPages_ true NewType false 0.

(** ** Search for free pages *)

(** The highest suitable last address, 0 if there is none. *)
Fixpoint FindFreeLoop (MaxAddress MinAddress NumberOfBytes Alignment : Z) (NeedGuard : bool)
  (Links : list MEMORY_MAP) (Target : Z) : Z :=
  match Links with
  | [] => Target
  | Entry :: Links =>
    let Continue := FindFreeLoop MaxAddress MinAddress NumberOfBytes Alignment NeedGuard Links in
    if negb (MType Entry =? EfiConventionalMemory) then Continue Target
    else if HasFlag (MAttribute Entry) EFI_MEMORY_SP then Continue Target
    else if (MaxAddress <=? MStart Entry) || (MEnd Entry <? MinAddress) then Continue Target
    else
      let DescEnd := if MaxAddress <=? MEnd Entry then MaxAddress else MEnd Entry in
      let DescEnd := sub64 (Z.land (add64 DescEnd 1) (not64 (Alignment - 1))) 1 in
      if DescEnd <? MStart Entry then Continue Target
      else
        let DescNumberOfBytes := add64 (sub64 DescEnd (MStart Entry)) 1 in
        if DescNumberOfBytes <? NumberOfBytes then Continue Target
        else if add64 (sub64 DescEnd NumberOfBytes) 1 <? MinAddress then Continue Target
        else if Target <? DescEnd then
          if NeedGuard then
            let '(DescEnd, ProposedStart, ProposedSize) :=
              AdjustMemoryS (sub64 (add64 DescEnd 1) DescNumberOfBytes) DescNumberOfBytes NumberOfBytes in
            if (DescEnd =? 0) || (ProposedStart <? MinAddress) ||
               (MaxAddress <? sub64 (add64 ProposedStart ProposedSize) 1)
            then Continue Target else Continue DescEnd
          else Continue DescEnd
        else Continue Target
  end.

Definition CoreFindFreePagesI (MaxAddress MinAddress NumberOfPages_ NewType Alignment : Z) (NeedGuard : bool)
  (Map : list MEMORY_MAP) : Z :=
  if (MaxAddress <? EFI_PAGE_MASK) || (NumberOfPages_ =? 0) then 0 else
  let MaxAddress :=
    if negb (Z.land MaxAddress EFI_PAGE_MASK =? EFI_PAGE_MASK)
    then Z.lor (Z.land (sub64 MaxAddress (EFI_PAGE_MASK + 1)) (not64 EFI_PAGE_MASK)) EFI_PAGE_MASK
    else MaxAddress in
  let NumberOfBytes := LShiftU64 NumberOfPages_ EFI_PAGE_SHIFT in
  let Target := FindFreeLoop MaxAddress MinAddress NumberOfBytes Alignment NeedGuard Map 0 in
  let Target := sub64 Target (sub64 NumberOfBytes 1) in
  if HasFlag Target EFI_PAGE_MASK then 0 else Target.

(** The untested memory that PromoteMemoryResource makes available. *)
Definition Promotable (Entry : EFI_GCD_MAP_ENTRY) : bool :=
  (e_GcdMemoryType Entry =? EfiGcdMemoryTypeReserved) && (e_EndAddress Entry <? MAX_ALLOC_ADDRESS) &&
  (Z.land (e_Capabilities Entry) (Z.lor EFI_MEMORY_PRESENT (Z.lor EFI_MEMORY_INITIALIZED EFI_MEMORY_TESTED)) =?
   Z.lor EFI_MEMORY_PRESENT EFI_MEMORY_INITIALIZED).

Definition Promote (Entry : EFI_GCD_MAP_ENTRY) : EFI_GCD_MAP_ENTRY :=
  let Type_ := if Z.land (e_Capabilities Entry) EFI_MEMORY_MORE_RELIABLE =? EFI_MEMORY_MORE_RELIABLE
               then EfiGcdMemoryTypeMoreReliable else EfiGcdMemoryTypeSystemMemory in
  set_Handles (set_Capabilities (set_GcdMemoryType Entry Type_) (Z.lor (e_Capabilities Entry) EFI_MEMORY_TESTED))
    gDxeCoreImageHandle 0.

(** The attributes of a descriptor for memory with the capabilities. *)
Definition DescriptorAttributes (Capabilities : Z) : Z :=
  Z.land Capabilities (not64 (Z.lor EFI_MEMORY_PRESENT (Z.lor EFI_MEMORY_INITIALIZED (Z.lor EFI_MEMORY_TESTED EFI_MEMORY_RUNTIME)))).

Fixpoint PromoteLoop (Links : list EFI_GCD_MAP_ENTRY) (i : nat) (Promoted : bool) : PM bool :=
  match Links with
  | [] => mret Promoted
  | Entry :: Links =>
    if Promotable Entry then
      let Entry := Promote Entry in
      Change (fun st => SetGcd (SetMap false (<[i := Entry]> (mGcdMemorySpaceMap (Gcd_ st))) (Gcd_ st)) st) ;;
      CoreAddRange EfiConventionalMemory (e_BaseAddress Entry) (e_EndAddress Entry) (DescriptorAttributes (e_Capabilities Entry)) ;;
      FreeStack ;;
      PromoteLoop Links (S i) true
    else PromoteLoop Links (S i) Promoted
  end.

Definition PromoteMemoryResource : PM bool :=
  OnGcd (fun g => g ← CoreAcquireGcdLock false g; Done (tt, g)) ;;
  Links ← Get (fun st => mGcdMemorySpaceMap (Gcd_ st));
  Promoted ← PromoteLoop Links 0 false;
  OnGcd (fun g => g ← CoreReleaseGcdLock false g; Done (tt, g)) ;;
  if negb Promoted then
    Guarded ← PromoteGuardedFreePages;
    match Guarded with
    | None => mret false
    | Some (StartAddress, EndAddress) =>
      '(Status, Descriptor) ← OnGcd (CoreGetMemorySpaceDescriptor false StartAddress);
      (if negb (EFI_ERROR Status) then
         match Descriptor with
         | Some d => CoreAddRange EfiConventionalMemory StartAddress EndAddress (DescriptorAttributes (d_Capabilities d))
         | None => Assert false
         end
       else mret tt) ;;
      mret true
    end
  else mret Promoted.

(** A promotion leaves fewer untested entries, which bounds the retries, unless
    the heap guard promotes pages. *)
Fixpoint FindFreePagesLoop (fuel : nat) (MaxAddress NoPages NewType Alignment : Z) (NeedGuard : bool) : PM Z :=
  match fuel with
  | O => NoFuel
  | S fuel =>
    Map ← Get gMemoryMap;
    Bins_ ← Get Bins;
    Preferred ←
      (if NewType <? EfiMaxMemoryType then
         match mMemoryTypeStatistics Bins_ !! Z.to_nat NewType with
         | None => Assert false ;; mret 0
         | Some s =>
           mret (if MaximumAddress s <=? MaxAddress
                 then CoreFindFreePagesI (MaximumAddress s) (BaseAddress s) NoPages NewType Alignment NeedGuard Map else 0)
         end
       else mret 0);
    if negb (Preferred =? 0) then mret Preferred else
    let Default :=
      if mDefaultMaximumAddress Bins_ <=? MaxAddress
      then CoreFindFreePagesI (mDefaultMaximumAddress Bins_) 0 NoPages NewType Alignment NeedGuard Map else 0 in
    if negb (Default =? 0) then
      (if Default <? mDefaultBaseAddress Bins_
       then Change (SetBins (SetDefaultBase (if NeedGuard then sub64 Default EFI_PAGE_SIZE else Default) Bins_))
       else mret tt) ;;
      mret Default
    else
    let Anywhere := CoreFindFreePagesI MaxAddress 0 NoPages NewType Alignment NeedGuard Map in
    if negb (Anywhere =? 0) then mret Anywhere else
    Promoted ← PromoteMemoryResource;
    if negb Promoted then mret 0 else
    FindFreePagesLoop fuel MaxAddress NoPages NewType Alignment NeedGuard
  end.

Definition FindFreePages (MaxAddress NoPages NewType Alignment : Z) (NeedGuard : bool) : PM Z :=
  Untested ← Get (fun st => length (filter (fun e => Promotable e = true) (mGcdMemorySpaceMap (Gcd_ st))));
  FindFreePagesLoop (S (S Untested)) MaxAddress NoPages NewType Alignment NeedGuard.

(** The address, or 0 for NULL. *)
Definition CoreAllocatePoolPages (PoolType NumberOfPages_ Alignment : Z) (NeedGuard : bool) : PM Z :=
  Start ← FindFreePages MAX_ALLOC_ADDRESS NumberOfPages_ PoolType Alignment NeedGuard;
  (if Start =? 0 then mret EFI_OUT_OF_RESOURCES
   else if NeedGuard then CoreConvertPagesWithGuard Start NumberOfPages_ PoolType
   else CoreConvertPages Start NumberOfPages_ PoolType) ;;
  mret Start.

(** [sizeof (MEMORY_MAP)] *)
Definition SizeOfMemoryMap : Z := 64.

Definition AllocateMemoryMapEntry : PM Z :=
  Free ← Get mFreeMemoryMapEntryList;
  Refueled ←
    (if bool_decide (Free = []) then
       FreeDescriptorEntries ←
         CoreAllocatePoolPages EfiBootServicesData (EFI_SIZE_TO_PAGES DEFAULT_PAGE_ALLOCATION_GRANULARITY)
           DEFAULT_PAGE_ALLOCATION_GRANULARITY false;
       if negb (FreeDescriptorEntries =? 0) then
         Change (fun st => SetFreeList (mFreeMemoryMapEntryList st ++
                   ((fun i => FreeDescriptorEntries + SizeOfMemoryMap * Z.of_nat i) <$>
                    seq 0 (Z.to_nat (DEFAULT_PAGE_ALLOCATION_GRANULARITY / SizeOfMemoryMap)))) st) ;;
         mret true
       else mret false
     else mret true);
  if negb Refueled then mret 0 else
  Free ← Get mFreeMemoryMapEntryList;
  match Free with
  | [] => Assert false ;; mret 0
  | Entry :: Free => Change (SetFreeList Free) ;; mret Entry
  end.

(** The list with [Entry] before the first descriptor from pages that starts
    higher. *)
Fixpoint InsertSorted (Entry : MEMORY_MAP) (Links : list MEMORY_MAP) : list MEMORY_MAP :=
  match Links with
  | [] => [Entry]
  | Entry2 :: Links =>
    if FromPages Entry2 && (MStart Entry <? MStart Entry2) then Entry :: Entry2 :: Links
    else Entry2 :: InsertSorted Entry Links
  end.

(** The loop that empties the stack.  At most five descriptors are on it, and a
    page of new descriptors, for which at most five can be there again, is
    needed at most once. *)
Fixpoint FreeStackLoop (fuel : nat) : PM unit :=
  Depth ← Get mMapDepth;
  match Depth with
  | O => mret tt
  | S _ =>
    match fuel with
    | O => NoFuel
    | S fuel =>
      Entry ← AllocateMemoryMapEntry;
      Assert (negb (Entry =? 0)) ;;
      Depth ← Get (fun st => Nat.pred (mMapDepth st));
      Change (SetMapDepth Depth) ;;
      Links ← Get gMemoryMap;
      match list_find (fun e => Node e = StackNode Depth) Links with
      | Some (_, Slot) =>
        Change (fun st => SetMemoryMap (InsertSorted (SetNode (PageNode Entry) Slot)
                  (filter (fun e => Node e ≠ StackNode Depth) (gMemoryMap st))) st)
      | None => Change (fun st => SetFreeList (mFreeMemoryMapEntryList st ++ [Entry]) st)
      end ;;
      FreeStackLoop fuel
    end
  end.
End Knot.

Fixpoint FreeMemoryMapStack (fuel : nat) : PM unit :=
  match fuel with
  | O => NoFuel
  | S fuel =>
    ASSERT_LOCKED ;;
    Busy ← Get mFreeMapStack;
    if negb (Busy =? 0) then mret tt else
    Change (SetFreeMapStack (Busy + 1)) ;;
    FreeStackLoop (FreeMemoryMapStack fuel) (2 * MAX_MAP_DEPTH) ;;
    Busy ← Get mFreeMapStack;
    Change (SetFreeMapStack (Busy - 1))
  end.

(** The nested calls return at once. *)
Definition CoreFreeMemoryMapStack : PM unit := FreeMemoryMapStack 2.

(** ** Services *)

Definition CoreUpdateMemoryAttributes (Start NumberOfPages_ NewAttributes : Z) : PM unit :=
  CoreAcquireMemoryLock ;;
  CoreConvertPagesEx CoreFreeMemoryMapStack Start NumberOfPages_ false 0 true NewAttributes ;;
  CoreReleaseMemoryLock.

(** A bin of another type, reserved for its pages, that the range touches. *)
Definition TouchesBin (MemoryType Start End_ : Z) (i : nat) (s : EFI_MEMORY_TYPE_STATISTICS) : bool :=
  negb (MemoryType =? Z.of_nat i) && Special s && (0 <? NumberOfPages s) &&
  ((BaseAddress s <=? Start) && (Start <=? MaximumAddress s) ||
   (BaseAddress s <=? End_) && (End_ <=? MaximumAddress s) ||
   (Start <? BaseAddress s) && (MaximumAddress s <? End_)).
Definition TouchesOtherBins (MemoryType Start End_ : Z) (Statistics : list EFI_MEMORY_TYPE_STATISTICS) : bool :=
  existsb (fun '(i, s) => TouchesBin MemoryType Start End_ i s)
    (imap pair (take (Z.to_nat EfiMaxMemoryType) Statistics)).

(** The checks of a request for a given address. *)
Definition CheckAddress (MemoryType Start NumberOfPages_ MaxAddress : Z) (Bins_ : BinState) : EFI_STATUS :=
  if Start =? 0 then EFI_NOT_FOUND else
  if (NumberOfPages_ =? 0) || (RShiftU64 MaxAddress EFI_PAGE_SHIFT <? NumberOfPages_) then EFI_NOT_FOUND else
  let NumberOfBytes := LShiftU64 NumberOfPages_ EFI_PAGE_SHIFT in
  let End_ := sub64 (add64 Start NumberOfBytes) 1 in
  if (End_ <=? Start) || (MaxAddress <? Start) || (MaxAddress <? End_) then EFI_NOT_FOUND else
  if TouchesOtherBins MemoryType Start End_ (mMemoryTypeStatistics Bins_) then EFI_NOT_FOUND else EFI_SUCCESS.

Definition InvalidAllocationType (MemoryType : Z) : bool :=
  (EfiMaxMemoryType <=? MemoryType) && (MemoryType <? MEMORY_TYPE_OEM_RESERVED_MIN) ||
  (MemoryType =? EfiConventionalMemory) || (MemoryType =? EfiPersistentMemory) || (MemoryType =? EfiUnacceptedMemoryType).

(** The number of pages rounded up to the granularity. *)
Definition RoundPages (NumberOfPages_ Alignment : Z) : Z :=
  Z.land (add64 NumberOfPages_ (EFI_SIZE_TO_PAGES Alignment - 1)) (not64 (EFI_SIZE_TO_PAGES Alignment - 1)).

(** From taking the memory lock to releasing it. *)
Definition AllocateLocked (Type_ MemoryType NumberOfPages_ Start MaxAddress Alignment : Z) (NeedGuard : bool)
  : PM (EFI_STATUS * Z) :=
  Start ← (if negb (Type_ =? AllocateAddress)
           then FindFreePages CoreFreeMemoryMapStack MaxAddress NumberOfPages_ MemoryType Alignment NeedGuard
           else mret Start);
  if negb (Type_ =? AllocateAddress) && (Start =? 0) then mret (EFI_OUT_OF_RESOURCES, Start) else
  let Convert := if NeedGuard then CoreConvertPagesWithGuard Start NumberOfPages_ MemoryType
                 else CoreConvertPages CoreFreeMemoryMapStack Start NumberOfPages_ MemoryType in
  Status ← Convert;
  if EFI_ERROR Status then
    Promoted ← PromoteMemoryResource CoreFreeMemoryMapStack;
    if Promoted : bool then Status ← Convert; mret (Status, Start) else mret (Status, Start)
  else mret (Status, Start).

(** [Memory] is [None] for NULL, else the value it points to; the second result
    is the value afterwards. *)
Definition CoreInternalAllocatePages (Type_ MemoryType NumberOfPages_ : Z) (Memory : option Z) (NeedGuard : bool)
  : PM (EFI_STATUS * option Z) :=
  if MaxAllocateType <=? Type_ then mret (EFI_INVALID_PARAMETER, Memory) else
  if InvalidAllocationType MemoryType then mret (EFI_INVALID_PARAMETER, Memory) else
  match Memory with
  | None => mret (EFI_INVALID_PARAMETER, Memory)
  | Some Start =>
    let Alignment := GranularityOf MemoryType in
    let NeedGuard := NeedGuard && (Alignment =? EFI_PAGE_SIZE) in
    if (Type_ =? AllocateAddress) && HasFlag Start (Alignment - 1) then mret (EFI_NOT_FOUND, Memory) else
    let NumberOfPages_ := RoundPages NumberOfPages_ Alignment in
    let MaxAddress := MAX_ALLOC_ADDRESS in
    Bins_ ← Get Bins;
    if (Type_ =? AllocateAddress) && EFI_ERROR (CheckAddress MemoryType Start NumberOfPages_ MaxAddress Bins_)
    then mret (EFI_NOT_FOUND, Memory) else
    let MaxAddress := if Type_ =? AllocateMaxAddress then Start else MaxAddress in
    CoreAcquireMemoryLock ;;
    '(Status, Start) ← AllocateLocked Type_ MemoryType NumberOfPages_ Start MaxAddress Alignment NeedGuard;
    CoreReleaseMemoryLock ;;
    if negb (EFI_ERROR Status) then
      (if NeedGuard then SetGuardForMemory Start NumberOfPages_ else mret tt) ;;
      mret (Status, Some Start)
    else mret (Status, Memory)
  end.

Definition CoreAllocatePages (Type_ MemoryType NumberOfPages_ : Z) (Memory : option Z) : PM (EFI_STATUS * option Z) :=
  let NeedGuard := IsPageTypeToGuard MemoryType Type_ && negb mOnGuarding in
  '(Status, Memory) ← CoreInternalAllocatePages Type_ MemoryType NumberOfPages_ Memory NeedGuard;
  (if negb (EFI_ERROR Status) then
     CoreUpdateProfile MemoryType (EFI_PAGES_TO_SIZE NumberOfPages_) (default 0 Memory) ;;
     InstallMemoryAttributesTableOnMemoryAllocation MemoryType ;;
     ApplyMemoryProtectionPolicy EfiConventionalMemory MemoryType (default 0 Memory) (EFI_PAGES_TO_SIZE NumberOfPages_)
   else mret tt) ;;
  mret (Status, Memory).

(** From taking the memory lock to releasing it; the second result is the type
    of the pages. *)
Definition FreeLocked (Memory NumberOfPages_ : Z) : PM (EFI_STATUS * Z) :=
  Links ← Get gMemoryMap;
  match FindEntry Memory Links with
  | None => mret (EFI_NOT_FOUND, 0)
  | Some Entry =>
    let Alignment := GranularityOf (MType Entry) in
    if HasFlag Memory (Alignment - 1) then mret (EFI_INVALID_PARAMETER, 0) else
    let NumberOfPages_ := RoundPages NumberOfPages_ Alignment in
    IsGuarded ← (if IsPageTypeToGuard (MType Entry) AllocateAnyPages then IsMemoryGuarded Memory else mret false);
    Status ← (if IsGuarded : bool then CoreConvertPagesWithGuard Memory NumberOfPages_ EfiConventionalMemory
              else CoreConvertPages CoreFreeMemoryMapStack Memory NumberOfPages_ EfiConventionalMemory);
    mret (Status, MType Entry)
  end.

Definition CoreInternalFreePages (Memory NumberOfPages_ : Z) : PM (EFI_STATUS * Z) :=
  CoreAcquireMemoryLock ;;
  Result ← FreeLocked Memory NumberOfPages_;
  CoreReleaseMemoryLock ;;
  mret Result.

(** The memory attribute protocol says that the pages can be handed on. *)
Definition Returnable (Memory NumberOfPages_ : Z) : bool :=
  match gMemoryAttributeProtocol with
  | None => true
  | Some GetMemoryAttributes =>
    let '(Status, Attributes) := GetMemoryAttributes Memory (EFI_PAGES_TO_SIZE NumberOfPages_) in
    negb (EFI_ERROR Status || HasFlag Attributes EFI_MEMORY_RO || HasFlag Attributes EFI_MEMORY_RP)
  end.

Definition CoreFreePages (Memory NumberOfPages_ : Z) : PM EFI_STATUS :=
  if negb (Returnable Memory NumberOfPages_) then mret EFI_SUCCESS else
  '(Status, MemoryType) ← CoreInternalFreePages Memory NumberOfPages_;
  (if negb (EFI_ERROR Status) then
     GuardFreedPagesChecked Memory NumberOfPages_ ;;
     CoreUpdateProfile MemoryType (EFI_PAGES_TO_SIZE NumberOfPages_) Memory ;;
     InstallMemoryAttributesTableOnMemoryAllocation MemoryType ;;
     ApplyMemoryProtectionPolicy MemoryType EfiConventionalMemory Memory (EFI_PAGES_TO_SIZE NumberOfPages_)
   else mret tt) ;;
  mret Status.

Definition CoreFreePoolPages (Memory NumberOfPages_ : Z) : PM unit :=
  CoreConvertPages CoreFreeMemoryMapStack Memory NumberOfPages_ EfiConventionalMemory ;;
  mret tt.

(** ** New memory *)

Definition CoreLoadingFixedAddressHook : PM unit :=
  Ready ← Get gLoadFixedAddressCodeMemoryReady;
  if negb Ready then
    let RuntimeCodePageNumber := PcdLoadFixAddressRuntimeCodePageNumber in
    let BootTimeCodePageNumber := PcdLoadFixAddressBootTimeCodePageNumber in
    let RuntimeCodeBase := sub64 DxeCodeTopAddress (EFI_PAGES_TO_SIZE RuntimeCodePageNumber) in
    let BootTimeCodeBase := sub64 RuntimeCodeBase (EFI_PAGES_TO_SIZE BootTimeCodePageNumber) in
    '(Status, Memory) ← CoreAllocatePages AllocateAddress EfiRuntimeServicesCode RuntimeCodePageNumber (Some RuntimeCodeBase);
    if EFI_ERROR Status then mret tt else
    let RuntimeCodeBase := default 0 Memory in
    '(Status, _) ← CoreAllocatePages AllocateAddress EfiBootServicesCode BootTimeCodePageNumber (Some BootTimeCodeBase);
    if EFI_ERROR Status then
      CoreFreePages RuntimeCodeBase RuntimeCodePageNumber ;;
      mret tt
    else Change (SetCodeReady true)
  else mret tt.

(** DxeCoreMemoryAllocationLib *)
Definition InternalAllocateAlignedPages (MemoryType Pages Alignment : Z) : PM Z :=
  Assert (Z.land Alignment (Alignment - 1) =? 0) ;;
  if Pages =? 0 then mret 0 else
  if EFI_PAGE_SIZE <? Alignment then
    let AlignmentMask := Alignment - 1 in
    let RealPages := add64 Pages (EFI_SIZE_TO_PAGES Alignment) in
    Assert (Pages <? RealPages) ;;
    '(Status, Memory) ← CoreAllocatePages AllocateAnyPages MemoryType RealPages (Some 0);
    if EFI_ERROR Status then mret 0 else
    let Memory := default 0 Memory in
    let AlignedMemory := Z.land (add64 Memory AlignmentMask) (not64 AlignmentMask) in
    let UnalignedPages := EFI_SIZE_TO_PAGES (sub64 AlignedMemory Memory) in
    (if 0 <? UnalignedPages then
       Status ← CoreFreePages Memory UnalignedPages;
       Assert (negb (EFI_ERROR Status))
     else mret tt) ;;
    let Memory := add64 AlignedMemory (EFI_PAGES_TO_SIZE Pages) in
    let UnalignedPages := sub64 (sub64 RealPages Pages) UnalignedPages in
    (if 0 <? UnalignedPages then
       Status ← CoreFreePages Memory UnalignedPages;
       Assert (negb (EFI_ERROR Status))
     else mret tt) ;;
    mret AlignedMemory
  else
    '(Status, Memory) ← CoreAllocatePages AllocateAnyPages MemoryType Pages (Some 0);
    if EFI_ERROR Status then mret 0 else mret (default 0 Memory).

Definition AllocateAlignedPages (Pages Alignment : Z) : PM Z :=
  InternalAllocateAlignedPages EfiBootServicesData Pages Alignment.

Definition FreeAlignedPages (Buffer Pages : Z) : PM unit :=
  Assert (negb (Pages =? 0)) ;;
  Status ← CoreFreePages Buffer Pages;
  Assert (negb (EFI_ERROR Status)).

(** The loop that gives the bins their ranges; the field NumberOfPages is not
    widened before the shift. *)
Fixpoint CarveLoop (Info : list EFI_MEMORY_TYPE_INFORMATION) (LastBinAddress : Z) (b : BinState) : Outcome BinState :=
  match Info with
  | [] => Asserted
  | i :: Info =>
    if InfoType i =? EfiMaxMemoryType then Done b else
    if (EfiMaxMemoryType <? InfoType i) || (InfoPages i =? 0) then CarveLoop Info LastBinAddress b else
    s ← StatisticsOf (InfoType i) b;
    let Base := sub64 LastBinAddress (EFI_PAGES_TO_SIZE32 (InfoPages i)) in
    CarveLoop Info Base (StoreStatistics (InfoType i) (SetRange Base (sub64 LastBinAddress 1) s) b)
  end.

(** The loop that moves the numbers of pages into the statistics. *)
Fixpoint MovePagesLoop (Info Rest : list EFI_MEMORY_TYPE_INFORMATION) (b : BinState) : Outcome BinState :=
  match Rest with
  | [] => Asserted
  | i :: Rest =>
    if InfoType i =? EfiMaxMemoryType then Done (SetInformation (Info ++ i :: Rest) b) else
    if (EfiMaxMemoryType <? InfoType i) || (InfoPages i =? 0) then MovePagesLoop (Info ++ [i]) Rest b else
    s ← StatisticsOf (InfoType i) b;
    MovePagesLoop (Info ++ [MkInformation (InfoType i) 0]) Rest (StoreStatistics (InfoType i) (SetBinPages (InfoPages i) s) b)
  end.

(** As the DXE core calls it, without [CreateHob]. *)
Definition AllocateMemoryTypeInformationBins : PM unit :=
  Bins_ ← Get Bins;
  if mMemoryTypeInformationInitialized Bins_ then mret tt else
  '(RequiredSize, _) ← Within Bins SetBins (fun b => Size ← CalculateTotalMemoryBinSizeNeeded None (gMemoryTypeInformation b); Done (Size, b));
  if RequiredSize =? 0 then OnBins (fun b => Done (SetInitialized true b)) else
  BaseAddress_ ← AllocateAlignedPages (EFI_SIZE_TO_PAGES RequiredSize) RUNTIME_PAGE_ALLOCATION_GRANULARITY;
  if BaseAddress_ =? 0 then mret tt else
  let LastBinAddress := add64 BaseAddress_ RequiredSize in
  OnBins (fun b => Done (SetDefaultMaximum (sub64 BaseAddress_ 1) b)) ;;
  OnBins (fun b => CarveLoop (gMemoryTypeInformation b) LastBinAddress b) ;;
  FreeAlignedPages BaseAddress_ (EFI_SIZE_TO_PAGES RequiredSize) ;;
  OnBins (fun b => MovePagesLoop [] (gMemoryTypeInformation b) b) ;;
  OnBins InitializeBinStatisticsFromRange ;;
  OnBins (fun b => Done (SetInitialized true b)).

Definition CoreAddMemoryDescriptor (Type_ Start NumberOfPages_ Attribute : Z) : PM unit :=
  if HasFlag Start EFI_PAGE_MASK then mret tt else
  if (EfiMaxMemoryType <=? Type_) && (Type_ <? MEMORY_TYPE_OEM_RESERVED_MIN) then mret tt else
  CoreAcquireMemoryLock ;;
  let End_ := sub64 (add64 Start (LShiftU64 NumberOfPages_ EFI_PAGE_SHIFT)) 1 in
  CoreAddRange Type_ Start End_ Attribute ;;
  CoreFreeMemoryMapStack ;;
  CoreReleaseMemoryLock ;;
  ApplyMemoryProtectionPolicy EfiMaxMemoryType Type_ Start (LShiftU64 NumberOfPages_ EFI_PAGE_SHIFT) ;;
  (if negb (PcdLoadModuleAtFixAddressEnable =? 0) then CoreLoadingFixedAddressHook else mret tt) ;;
  AllocateMemoryTypeInformationBins.

(** ** The check before the boot services end *)

Fixpoint TerminateLoop (Statistics : list EFI_MEMORY_TYPE_STATISTICS) (Links : list MEMORY_MAP) : Outcome EFI_STATUS :=
  match Links with
  | [] => Done EFI_SUCCESS
  | Entry :: Links =>
    if MType Entry <? EfiMaxMemoryType then
      match Statistics !! Z.to_nat (MType Entry) with
      | None => Asserted
      | Some s =>
        if Runtime s then
          ASSERT (negb (MType Entry =? EfiACPIReclaimMemory)) ;;
          ASSERT (negb (MType Entry =? EfiACPIMemoryNVS)) ;;
          if HasFlag (MStart Entry) (RUNTIME_PAGE_ALLOCATION_GRANULARITY - 1) then Done EFI_INVALID_PARAMETER
          else if HasFlag (add64 (MEnd Entry) 1) (RUNTIME_PAGE_ALLOCATION_GRANULARITY - 1) then Done EFI_INVALID_PARAMETER
          else TerminateLoop Statistics Links
        else TerminateLoop Statistics Links
      end
    else TerminateLoop Statistics Links
  end.

Definition CoreTerminateMemoryMap (MapKey : Z) : PM EFI_STATUS :=
  CoreAcquireMemoryLock ;;
  Key ← Get mMemoryMapKey;
  Status ← (if MapKey =? Key
            then fun st => match TerminateLoop (mMemoryTypeStatistics (Bins st)) (gMemoryMap st) with
                           | Done Status => Done (Status, st) | Asserted => Asserted | OutOfFuel => OutOfFuel end
            else mret EFI_INVALID_PARAMETER);
  CoreReleaseMemoryLock ;;
  mret Status.
End Allocator.
