(* ===== verification/PageSample.v ===== *)
(** * The page allocator: a small machine

    An environment without heap guard and profile, and a machine with 64 KiB of
    memory, on which the theorems are put to work. *)
From Stdlib Require Import ZArith Lia.
From stdpp Require Import base option list.
From S2P Require Import Prelude StateMonad Gcd MemoryBin Page.

#[export] Instance SampleEnv : PageEnvironment :=
  MkPageEnvironment (mret tt) false (fun _ _ => false) false (fun _ => mret false) (fun _ _ _ => (0, 0, 0))
    (fun _ _ _ => mret EFI_NOT_FOUND) (fun _ _ => mret tt) (mret None) (fun _ _ => mret tt) (fun _ _ _ _ => mret tt)
    (fun _ _ _ => mret tt) (fun _ => mret tt) None 0 0 0 0 1.

Definition SampleBins : BinState :=
  MkBins false (replicate 17 (MkStatistics 0 MAX_ALLOC_ADDRESS 0 0 16 false false))
    ((fun i => MkInformation (Z.of_nat i) 0) <$> seq 0 17) MAX_ALLOC_ADDRESS MAX_ALLOC_ADDRESS.

Definition SampleEmpty : PageState := MkPages [] 0 0 [] 0 0 false false SampleBins (MkGcd [] [] false false 0 []).

Definition after {A} (m : PM A) (st : PageState) : PageState := match m st with Done (_, st') => st' | _ => st end.

(** 16 pages from 1 MiB. *)
Definition SampleAdd : PM unit := CoreAddMemoryDescriptor EfiConventionalMemory 0x100000 16 0xF.
Definition SampleReady : PageState := after SampleAdd SampleEmpty.

Definition SampleData : PM (EFI_STATUS * option Z) := CoreAllocatePages AllocateAnyPages EfiBootServicesData 3 (Some 0).
Definition SampleUsed : PageState := after SampleData SampleReady.

Lemma SampleAdd_run : CoreAddMemoryDescriptor EfiConventionalMemory 0x100000 16 0xF SampleEmpty = Done (tt, SampleReady).
Proof. vm_compute. reflexivity. Qed.

Lemma SampleData_run : CoreAllocatePages AllocateAnyPages EfiBootServicesData 3 (Some 0) SampleReady = Done ((EFI_SUCCESS, Some 0x10C000), SampleUsed).
Proof. vm_compute. reflexivity. Qed.
