(* ===== verification/PageMap.v ===== *)
(** * The page allocator: the memory map as a function of the address

    A well-formed map is a set of disjoint, page-aligned ranges, in which
    adjoining ranges differ in type or attributes.  [look] is what it says
    about an address.  The order of the descriptors does not matter: all facts
    here are stable under permutation, and the changes of the map are removals
    and additions of descriptors. *)
From Stdlib Require Import ZArith Lia.
From stdpp Require Import base option list sorting.
From S2P Require Import Prelude StateMonad Gcd MemoryBin Page.

(** ** Ranges *)

Definition PageAligned (a : Z) : Prop := a mod 4096 = 0.

(** A range of whole pages below the last page of the address space. *)
Definition GoodRange (s e : Z) : Prop := PageAligned s /\ PageAligned (e + 1) /\ 0 <= s < e /\ e + 1 < 2 ^ 64.
Definition Good (d : MEMORY_MAP) : Prop := GoodRange (MStart d) (MEnd d).

Definition inside (a : Z) (d : MEMORY_MAP) : Prop := MStart d <= a <= MEnd d.
#[export] Instance inside_dec a d : Decision (inside a d).
Proof. unfold inside. apply _. Defined.

Definition apart_from (s e : Z) (d : MEMORY_MAP) : Prop := e < MStart d \/ MEnd d < s.
Definition apart (d1 d2 : MEMORY_MAP) : Prop := apart_from (MStart d1) (MEnd d1) d2.

Definition value (d : MEMORY_MAP) : Z * Z := (MType d, MAttribute d).

(** All pairs of descriptors are disjoint. *)
Fixpoint Separate (l : list MEMORY_MAP) : Prop :=
  match l with [] => True | d :: l => Forall (apart d) l /\ Separate l end.

(** Adjoining descriptors differ. *)
Definition Merged (l : list MEMORY_MAP) : Prop :=
  forall d1 d2, d1 ∈ l -> d2 ∈ l -> value d1 = value d2 -> MEnd d1 + 1 ≠ MStart d2.

Definition WfMap (l : list MEMORY_MAP) : Prop := Forall Good l /\ Separate l /\ Merged l.

(** What the map says about an address: type and attributes. *)
Definition look (l : list MEMORY_MAP) (a : Z) : option (Z * Z) := value <$> head (filter (inside a) l).

(** ** Permutations *)

#[export] Instance apart_sym : Symmetric apart.
Proof. intros d1 d2. unfold apart, apart_from. tauto. Qed.

#[export] Instance Separate_proper : Proper ((≡ₚ) ==> iff) Separate.
Proof.
  assert (forall l l', l ≡ₚ l' -> Separate l -> Separate l') as H.
  { induction 1 as [|d l l' Hp IH|d d' l|l l' l'' _ IH1 _ IH2]; simpl.
    - done.
    - intros [Hd Hl]. split; [by rewrite <- Hp|by apply IH].
    - intros (Hd & Hd' & Hl). inversion_clear Hd. split; [constructor; [by apply apart_sym|done]|done].
    - auto. }
  intros l l' Hp. split; apply H; [done|by symmetry].
Qed.

#[export] Instance Merged_proper : Proper ((≡ₚ) ==> iff) Merged.
Proof.
  assert (forall l l', l ≡ₚ l' -> Merged l -> Merged l') as H by (intros l l' Hp Hm d1 d2; rewrite <- Hp; apply Hm).
  intros l l' Hp. split; apply H; [done|by symmetry].
Qed.

#[export] Instance WfMap_proper : Proper ((≡ₚ) ==> iff) WfMap.
Proof. intros l l' Hp. unfold WfMap. by rewrite Hp. Qed.

Lemma Separate_inv l d1 d2 : Separate l -> d1 ∈ l -> d2 ∈ l -> d1 = d2 \/ apart d1 d2.
Proof.
  induction l as [|d l IH]; [by intros _ ?%elem_of_nil|]. intros [Hd Hl]. rewrite Forall_forall in Hd.
  intros [->|H1]%elem_of_cons [->|H2]%elem_of_cons; [by left|right; by apply Hd|right; by apply apart_sym, Hd|by apply IH].
Qed.

Lemma look_Some l a v : Separate l -> look l a = Some v <-> exists d, d ∈ l /\ inside a d /\ value d = v.
Proof.
  intros Hs. unfold look. split.
  - destruct (filter (inside a) l) as [|d m] eqn:E; [done|]. intros [= <-]. exists d.
    assert (d ∈ filter (inside a) l) as Hd by (rewrite E; by left). apply list_elem_of_filter in Hd. tauto.
  - intros (d & Hd & Ha & <-). destruct (filter (inside a) l) as [|d' m] eqn:E.
    + assert (d ∈ filter (inside a) l) as Hf by (by apply list_elem_of_filter). rewrite E in Hf. by apply elem_of_nil in Hf.
    + assert (d' ∈ filter (inside a) l) as Hf by (rewrite E; by left). apply list_elem_of_filter in Hf as [Ha' Hd'].
      destruct (Separate_inv l d d' Hs Hd Hd') as [->|Hap]; [done|]. unfold apart, apart_from, inside in *. lia.
Qed.

Lemma look_None l a : look l a = None <-> forall d, d ∈ l -> ~ inside a d.
Proof.
  unfold look. destruct (filter (inside a) l) as [|d' m] eqn:E; simpl; split; try done.
  - intros _ d Hd Ha. assert (d ∈ filter (inside a) l) as Hf by (by apply list_elem_of_filter). rewrite E in Hf.
    by apply elem_of_nil in Hf.
  - intros H. assert (d' ∈ filter (inside a) l) as Hf by (rewrite E; by left). apply list_elem_of_filter in Hf as [Ha Hd].
    by destruct (H d' Hd).
Qed.

Lemma option_ext {A} (o1 o2 : option A) : (forall v, o1 = Some v <-> o2 = Some v) -> o1 = o2.
Proof.
  intros H. destruct o1 as [x|]; [symmetry; by apply H|]. destruct o2 as [y|]; [|done]. by apply H.
Qed.

Lemma look_perm l l' a : Separate l -> l ≡ₚ l' -> look l a = look l' a.
Proof.
  intros Hs Hp. apply option_ext. intros v. rewrite !look_Some by (try rewrite <- Hp; done).
  split; intros (d & Hd & H); exists d; [by rewrite <- Hp|by rewrite Hp].
Qed.

Lemma look_app l1 l2 a : look (l1 ++ l2) a = match look l1 a with Some v => Some v | None => look l2 a end.
Proof. unfold look. rewrite filter_app. by destruct (filter (inside a) l1). Qed.

Lemma look_cons d l a : look (d :: l) a = if decide (inside a d) then Some (value d) else look l a.
Proof. unfold look. rewrite filter_cons. by destruct (decide (inside a d)). Qed.

Lemma Separate_app l1 l2 :
  Separate (l1 ++ l2) <-> Separate l1 /\ Separate l2 /\ forall d1 d2, d1 ∈ l1 -> d2 ∈ l2 -> apart d1 d2.
Proof.
  induction l1 as [|d l1 IH]; simpl.
  - split; [intros H; split_and!; [done|done|by intros ? ? ?%elem_of_nil]|tauto].
  - rewrite Forall_app, IH, !Forall_forall. split.
    + intros ([H1 H2] & H3 & H4 & H5). split_and!; [done|done|done|]. intros d1 d2 [->|Hd]%elem_of_cons H; [by apply H2|by apply H5].
    + intros ([H1 H2] & H3 & H4). split_and!; [done| |done|done|].
      * intros x Hx. apply H4; [by left|done].
      * intros d1 d2 Hd Hx. apply H4; [by right|done].
Qed.

Lemma WfMap_app_r l1 l2 : WfMap (l1 ++ l2) -> WfMap l2.
Proof.
  intros (HG & HS & HM). apply Forall_app in HG as [_ HG]. apply Separate_app in HS as (_ & HS & _).
  split_and!; [done|done|]. intros d1 d2 H1 H2. apply HM; apply elem_of_app; by right.
Qed.

(** A new descriptor. *)
Lemma WfMap_cons d l :
  Good d -> Forall (apart d) l -> (forall k, k ∈ l -> value k = value d -> MEnd k + 1 ≠ MStart d /\ MEnd d + 1 ≠ MStart k) ->
  WfMap l -> WfMap (d :: l).
Proof.
  intros Hd Ha Hm (HG & HS & HM). split_and!; [by constructor|done|].
  intros d1 d2 [->|H1]%elem_of_cons [->|H2]%elem_of_cons Hv.
  - destruct Hd as (_ & _ & ? & _). lia.
  - symmetry in Hv. by apply (Hm d2 H2).
  - by apply (Hm d1 H1).
  - by apply HM.
Qed.

(** ** Merging a range *)

(** What [AddRangeLoop] removes, and the range it ends with. *)
Fixpoint absorb (t x : Z) (l : list MEMORY_MAP) (s e : Z) : list MEMORY_MAP * Z * Z :=
  match l with
  | [] => ([], s, e)
  | k :: l =>
    if negb (MType k =? t) then absorb t x l s e
    else if negb (MAttribute k =? x) then absorb t x l s e
    else if add64 (MEnd k) 1 =? s then let '(r, s', e') := absorb t x l (MStart k) e in (k :: r, s', e')
    else if MStart k =? add64 e 1 then let '(r, s', e') := absorb t x l s (MEnd k) in (k :: r, s', e')
    else absorb t x l s e
  end.

(** Everything that holds after merging [s, e] with descriptors of [l]. *)
Record Absorbed (t x : Z) (l : list MEMORY_MAP) (s e : Z) (r : list MEMORY_MAP) (s' e' : Z) : Prop := {
  absorbed_sub : r `sublist_of` l;
  absorbed_value : Forall (fun k => value k = (t, x)) r;
  absorbed_range : GoodRange s' e' /\ s' <= s /\ e <= e';
  absorbed_inside : forall a, s' <= a <= e' <-> s <= a <= e \/ exists k, k ∈ r /\ inside a k;
  absorbed_low : s' = s \/ exists k, k ∈ r /\ MEnd k + 1 = s /\ s' = MStart k;
  absorbed_high : e' = e \/ exists k, k ∈ r /\ MStart k = e + 1 /\ e' = MEnd k;
  absorbed_rest : forall k, k ∈ l -> value k = (t, x) -> k ∈ r \/ MEnd k + 1 ≠ s' /\ e' + 1 ≠ MStart k }.

Lemma Absorbed_skip t x k l s e r s' e' :
  WfMap (k :: l) -> (value k = (t, x) -> MEnd k + 1 ≠ s /\ MStart k ≠ e + 1) ->
  Absorbed t x l s e r s' e' -> Absorbed t x (k :: l) s e r s' e'.
Proof.
  intros (_ & _ & HM) Hk [H1 H2 H3 H4 H5 H6 H7]. split; [by apply sublist_cons|done..|].
  intros d [->|Hd]%elem_of_cons Hv; [|by apply H7]. right. destruct (Hk Hv) as [Hs He].
  assert (forall d, d ∈ r -> d ∈ k :: l /\ value d = (t, x)) as Hr.
  { intros d Hd. rewrite Forall_forall in H2. split; [|by apply H2]. right. eapply elem_of_submseteq; [done|by apply sublist_submseteq]. }
  split.
  - destruct H5 as [->|(d & Hd & _ & ->)]; [done|]. destruct (Hr d Hd) as [Hdl Hdv]. apply HM; [by left|done|congruence].
  - destruct H6 as [->|(d & Hd & _ & ->)]; [lia|]. destruct (Hr d Hd) as [Hdl Hdv]. apply HM; [done|by left|congruence].
Qed.

Lemma Absorbed_low t x k l s e r s' e' :
  WfMap (k :: l) -> value k = (t, x) -> Good k -> MEnd k + 1 = s -> GoodRange s e ->
  Forall (fun d => apart_from s e d) l ->
  Absorbed t x l (MStart k) e r s' e' -> Absorbed t x (k :: l) s e (k :: r) s' e'.
Proof.
  intros (_ & HS & HM) Hv HG Hs Hse Hap [H1 H2 H3 H4 H5 H6 H7]. destruct HG as (? & ? & ? & ?). destruct Hse as (? & ? & ? & ?).
  assert (forall d, d ∈ r -> d ∈ l /\ value d = (t, x)) as Hr.
  { intros d Hd. rewrite Forall_forall in H2. split; [|by apply H2]. eapply elem_of_submseteq; [done|by apply sublist_submseteq]. }
  assert (s' = MStart k) as ->.
  { destruct H5 as [?|(d & Hd & Hdk & _)]; [done|]. destruct (Hr d Hd) as [Hdl Hdv]. exfalso.
    apply (HM d k); [by right|by left|congruence|done]. }
  split.
  - by apply sublist_skip.
  - by constructor.
  - destruct H3 as (? & ? & ?). split_and!; [done|lia|done].
  - intros a. rewrite H4. split.
    + intros [Ha|(d & Hd & Ha)]; [|right; exists d; split; [by right|done]].
      destruct (decide (s <= a)); [left; lia|right; exists k; split; [by left|unfold inside; lia]].
    + intros [Ha|(d & [->|Hd]%elem_of_cons & Ha)]; [left; lia|unfold inside in Ha; left; lia|right; by exists d].
  - right. exists k. split_and!; [by left|done|done].
  - destruct H6 as [->|(d & Hd & ? & ?)]; [by left|right]. exists d. split_and!; [by right|done|done].
  - intros d [->|Hd]%elem_of_cons Hdv; [left; by left|]. destruct (H7 d Hd Hdv) as [?|?]; [left; by right|by right].
Qed.

Lemma Absorbed_high t x k l s e r s' e' :
  WfMap (k :: l) -> value k = (t, x) -> Good k -> MStart k = e + 1 -> GoodRange s e ->
  Forall (fun d => apart_from s e d) l ->
  Absorbed t x l s (MEnd k) r s' e' -> Absorbed t x (k :: l) s e (k :: r) s' e'.
Proof.
  intros (_ & HS & HM) Hv HG Hs Hse Hap [H1 H2 H3 H4 H5 H6 H7]. destruct HG as (? & ? & ? & ?). destruct Hse as (? & ? & ? & ?).
  assert (forall d, d ∈ r -> d ∈ l /\ value d = (t, x)) as Hr.
  { intros d Hd. rewrite Forall_forall in H2. split; [|by apply H2]. eapply elem_of_submseteq; [done|by apply sublist_submseteq]. }
  assert (e' = MEnd k) as ->.
  { destruct H6 as [?|(d & Hd & Hdk & _)]; [done|]. destruct (Hr d Hd) as [Hdl Hdv]. exfalso.
    apply (HM k d); [by left|by right|congruence|done]. }
  split.
  - by apply sublist_skip.
  - by constructor.
  - destruct H3 as (? & ? & ?). split_and!; [done|done|lia].
  - intros a. rewrite H4. split.
    + intros [Ha|(d & Hd & Ha)]; [|right; exists d; split; [by right|done]].
      destruct (decide (a <= e)); [left; lia|right; exists k; split; [by left|unfold inside; lia]].
    + intros [Ha|(d & [->|Hd]%elem_of_cons & Ha)]; [left; lia|unfold inside in Ha; left; lia|right; by exists d].
  - destruct H5 as [->|(d & Hd & ? & ?)]; [by left|right]. exists d. split_and!; [by right|done|done].
  - right. exists k. split_and!; [by left|done|done].
  - intros d [->|Hd]%elem_of_cons Hdv; [left; by left|]. destruct (H7 d Hd Hdv) as [?|?]; [left; by right|by right].
Qed.

Lemma Good_next d : Good d -> add64 (MEnd d) 1 = MEnd d + 1.
Proof. intros (_ & _ & ? & ?). apply add64_small. lia. Qed.

(** The ranges of two adjoining descriptors form a range. *)
Lemma GoodRange_join s e e' : GoodRange s e -> GoodRange (e + 1) e' -> GoodRange s e'.
Proof. intros (? & ? & ? & ?) (? & ? & ? & ?). split_and!; [done|done|lia..]. Qed.

Lemma absorb_spec t x l s e :
  WfMap l -> GoodRange s e -> Forall (apart_from s e) l ->
  let '(r, s', e') := absorb t x l s e in Absorbed t x l s e r s' e'.
Proof.
  revert s e. induction l as [|k l IH]; intros s e Hw Hse Hap; cbn [absorb].
  { split; [constructor|constructor|split_and!; [done|lia|lia]| |by left|by left|by intros k ?%elem_of_nil].
    intros a. split; [by left|]. intros [?|(k & []%elem_of_nil & _)]; done. }
  inversion_clear Hap as [|? ? Hk Hap']. pose proof (WfMap_app_r [k] l Hw) as Hw'.
  assert (Good k) as HG by (destruct Hw as (HG & _); by inversion_clear HG).
  pose proof (proj1 Hw') as HGl.
  assert (Forall (apart k) l) as Hak by (destruct Hw as (_ & [? _] & _); done).
  assert (forall r s' e', (value k = (t, x) -> MEnd k + 1 ≠ s /\ MStart k ≠ e + 1) -> Absorbed t x l s e r s' e' ->
            Absorbed t x (k :: l) s e r s' e') as Hskip by (intros; by apply Absorbed_skip).
  specialize (IH s e Hw' Hse Hap') as IH0. pose proof Hse as (? & ? & ? & ?). pose proof HG as (? & ? & ? & ?).
  destruct (Z.eqb_spec (MType k) t) as [Ht|Ht]; cbn [negb].
  2: { destruct (absorb t x l s e) as [[r s'] e']. apply Hskip; [|done]. unfold value. naive_solver. }
  destruct (Z.eqb_spec (MAttribute k) x) as [Hx|Hx]; cbn [negb].
  2: { destruct (absorb t x l s e) as [[r s'] e']. apply Hskip; [|done]. unfold value. naive_solver. }
  assert (value k = (t, x)) as Hv by (unfold value; congruence). rewrite (Good_next k HG). rewrite add64_small by lia.
  destruct (Z.eqb_spec (MEnd k + 1) s) as [Hs|Hs].
  { specialize (IH (MStart k) e Hw'). destruct (absorb t x l (MStart k) e) as [[r s'] e'].
    apply Absorbed_low; [done..|]. apply IH; [apply (GoodRange_join _ (MEnd k)); [done|by rewrite Hs]|].
    rewrite Forall_forall in Hak, Hap', HGl |- *. intros d Hd. specialize (Hak d Hd). specialize (Hap' d Hd).
    destruct (HGl d Hd) as (_ & _ & ? & _). unfold apart, apart_from in *. lia. }
  destruct (Z.eqb_spec (MStart k) (e + 1)) as [He|He].
  { specialize (IH s (MEnd k) Hw'). destruct (absorb t x l s (MEnd k)) as [[r s'] e'].
    apply Absorbed_high; [done..|]. apply IH; [apply (GoodRange_join _ e); [done|by rewrite <- He]|].
    rewrite Forall_forall in Hak, Hap', HGl |- *. intros d Hd. specialize (Hak d Hd). specialize (Hap' d Hd).
    destruct (HGl d Hd) as (_ & _ & ? & _). unfold apart, apart_from in *. lia. }
  destruct (absorb t x l s e) as [[r s'] e']. by apply Hskip.
Qed.
