(* ===== verification/PageOps.v ===== *)
(** * The page allocator: one change of the map

    Adding a range, and taking one out of its descriptor, as changes of what the
    map says about addresses.  [MapWf] also says that the nodes of the
    descriptors are distinct, in the list or free, and that those on the stack
    are below its top. *)
From Stdlib Require Import ZArith Lia.
From stdpp Require Import base option list sorting.
From S2P Require Import Prelude StateMonad Gcd MemoryBin Page PageMap.

(** ** Nodes *)

Definition page_node (d : MEMORY_MAP) : option Z := match Node d with PageNode p => Some p | StackNode _ => None end.

(** The nodes of all descriptors. *)
Definition nodes_of (st : PageState) : list MapNode := (Node <$> gMemoryMap st) ++ (PageNode <$> mFreeMemoryMapEntryList st).

Record MapWf (st : PageState) : Prop := {
  wf_map : WfMap (gMemoryMap st);
  wf_nodes : NoDup (nodes_of st);
  wf_stack : forall i, StackNode i ∈ nodes_of st -> (i < mMapDepth st)%nat;
  wf_depth : (mMapDepth st < MAX_MAP_DEPTH)%nat }.

(** The parts of the state that the map operations do not change. *)
Definition rest_of (st : PageState) : Z * bool * bool * BinState * GcdState :=
  (mFreeMapStack st, gMemoryLock st, gLoadFixedAddressCodeMemoryReady st, Bins st, Gcd_ st).

Definition frame_of (st : PageState) : Z * bool * bool * GcdState :=
  (mFreeMapStack st, gMemoryLock st, gLoadFixedAddressCodeMemoryReady st, Gcd_ st).

(** The arrays of the bins have their sizes. *)
Definition BinsOk (b : BinState) : Prop := length (mMemoryTypeStatistics b) = 17%nat /\ length (gMemoryTypeInformation b) = 17%nat.

Lemma rest_frame st st' : rest_of st' = rest_of st -> frame_of st' = frame_of st /\ Bins st' = Bins st.
Proof. unfold rest_of, frame_of. intros [= -> -> -> -> ->]. done. Qed.

Lemma wf_map_nodes st : MapWf st -> NoDup (Node <$> gMemoryMap st).
Proof. intros [_ H _ _]. unfold nodes_of in H. by apply NoDup_app in H as (? & _ & _). Qed.

Lemma Node_inj_in (l : list MEMORY_MAP) d1 d2 : NoDup (Node <$> l) -> d1 ∈ l -> d2 ∈ l -> Node d1 = Node d2 -> d1 = d2.
Proof.
  induction l as [|d l IH]; [by intros _ ?%elem_of_nil|]. rewrite fmap_cons, NoDup_cons. intros [Hn Hl] H1 H2 E.
  apply elem_of_cons in H1 as [->|H1], H2 as [->|H2]; [done| | |by apply IH].
  - destruct Hn. rewrite E. by apply list_elem_of_fmap_2.
  - destruct Hn. rewrite <- E. by apply list_elem_of_fmap_2.
Qed.

(** Taking out some descriptors, known by their nodes. *)
Lemma take_out_perm (l r : list MEMORY_MAP) :
  NoDup (Node <$> l) -> r `sublist_of` l -> l ≡ₚ r ++ filter (fun d => Node d ∉ Node <$> r) l.
Proof.
  intros Hn Hr. transitivity (filter (fun d => Node d ∈ Node <$> r) l ++ filter (fun d => Node d ∉ Node <$> r) l).
  { symmetry. apply filter_app_complement. }
  apply Permutation_app_tail. assert (forall d, d ∈ r -> d ∈ l) as Hin.
  { intros d Hd. eapply elem_of_submseteq; [done|by apply sublist_submseteq]. }
  apply NoDup_Permutation.
  - apply NoDup_filter. by eapply NoDup_fmap_1.
  - eapply sublist_NoDup; [by eapply NoDup_fmap_1|done].
  - intros d. rewrite list_elem_of_filter. split.
    + intros [(d' & E & Hd')%list_elem_of_fmap Hd]. by rewrite (Node_inj_in l d d' Hn Hd (Hin d' Hd') E).
    + intros Hd. split; [by apply list_elem_of_fmap_2|by apply Hin].
Qed.

Lemma take_out_one (l : list MEMORY_MAP) d :
  NoDup (Node <$> l) -> d ∈ l -> l ≡ₚ d :: filter (fun d' => Node d' ≠ Node d) l.
Proof.
  intros Hn Hd. rewrite (take_out_perm l [d] Hn) at 1.
  - simpl. rewrite (list_filter_iff (fun d' => Node d' ≠ Node d) (fun d' => Node d' ∉ [Node d])); [done|].
    intros d'. by rewrite list_elem_of_singleton.
  - apply list_elem_of_split in Hd as (l1 & l2 & ->). apply sublist_inserts_l, sublist_skip, sublist_nil_l.
Qed.

(** ** Removing descriptors *)

Definition drop_entry (k : MEMORY_MAP) (st : PageState) : PageState :=
  let st := SetMemoryMap (filter (fun e => Node e ≠ Node k) (gMemoryMap st)) st in
  match page_node k with Some p => SetFreeList (mFreeMemoryMapEntryList st ++ [p]) st | None => st end.

Definition drop_all (r : list MEMORY_MAP) (st : PageState) : PageState := foldl (fun st k => drop_entry k st) st r.

Lemma RemoveMemoryMapEntry_run k st : RemoveMemoryMapEntry k st = Done (tt, drop_entry k st).
Proof. unfold RemoveMemoryMapEntry, drop_entry, page_node. by destruct (Node k). Qed.

Lemma AddRangeLoop_run t x l s e st :
  AddRangeLoop t x l s e st = let '(r, s', e') := absorb t x l s e in Done ((s', e'), drop_all r st).
Proof.
  revert s e st. induction l as [|k l IH]; intros s e st; [done|]. cbn [AddRangeLoop absorb].
  destruct (MType k =? t); cbn [negb]; [|apply IH]. destruct (MAttribute k =? x); cbn [negb]; [|apply IH].
  destruct (add64 (MEnd k) 1 =? s).
  { rewrite (SM_bind_run _ _ _ _ _ (RemoveMemoryMapEntry_run k st)), IH. by destruct (absorb t x l (MStart k) e) as [[r s'] e']. }
  destruct (MStart k =? add64 e 1).
  { rewrite (SM_bind_run _ _ _ _ _ (RemoveMemoryMapEntry_run k st)), IH. by destruct (absorb t x l s (MEnd k)) as [[r s'] e']. }
  apply IH.
Qed.

Lemma drop_all_state r : forall st,
  gMemoryMap (drop_all r st) = filter (fun d => Node d ∉ Node <$> r) (gMemoryMap st) /\
  mFreeMemoryMapEntryList (drop_all r st) = mFreeMemoryMapEntryList st ++ omap page_node r /\
  mMapDepth (drop_all r st) = mMapDepth st /\ rest_of (drop_all r st) = rest_of st.
Proof.
  induction r as [|k r IH]; intros st.
  { cbn. split_and!; [|by rewrite app_nil_r|done|done]. induction (gMemoryMap st) as [|d l IHl]; [done|].
    rewrite filter_cons_True; [by f_equal|]. apply not_elem_of_nil. }
  unfold drop_all. cbn [foldl]. fold (drop_all r (drop_entry k st)). destruct (IH (drop_entry k st)) as (-> & -> & -> & ->).
  unfold drop_entry, rest_of. simpl. destruct (page_node k) as [p|]; simpl.
  all: split_and!; [rewrite list_filter_filter; apply list_filter_iff; intros d; rewrite not_elem_of_cons; tauto| |done|done].
  - by rewrite <- app_assoc.
  - done.
Qed.

(** What changes: descriptors leave the list and those in pages become free. *)
Lemma drop_all_nodes r st :
  MapWf st -> r `sublist_of` gMemoryMap st ->
  NoDup (nodes_of (drop_all r st)) /\ (forall n, n ∈ nodes_of (drop_all r st) -> n ∈ nodes_of st) /\
  (forall p, PageNode p ∈ nodes_of (drop_all r st) <-> PageNode p ∈ nodes_of st).
Proof.
  intros Hw Hr. pose proof (wf_map_nodes st Hw) as Hn. destruct (drop_all_state r st) as (Em & Ef & _ & _).
  pose proof (take_out_perm _ _ Hn Hr) as Hp.
  assert (nodes_of st ≡ₚ (Node <$> filter (fun d => page_node d = None) r) ++ nodes_of (drop_all r st)) as HP.
  { unfold nodes_of. rewrite Em, Ef. rewrite Hp at 1. rewrite !fmap_app.
    assert (Node <$> r ≡ₚ (Node <$> filter (fun d => page_node d = None) r) ++ (PageNode <$> omap page_node r)) as ->.
    { clear. induction r as [|k r IH]; [done|]. simpl. destruct (page_node k) as [p|] eqn:E.
      - rewrite filter_cons_False by (by rewrite E). simpl. rewrite IH. assert (Node k = PageNode p) as ->.
        { unfold page_node in E. destruct (Node k); naive_solver. }
        by rewrite Permutation_middle.
      - rewrite filter_cons_True by done. simpl. by rewrite IH. }
    rewrite <- !app_assoc. apply Permutation_app_head. rewrite !(Permutation_app_comm (PageNode <$> omap page_node r)).
    by rewrite <- !app_assoc. }
  pose proof (wf_nodes st Hw) as HN. rewrite HP in HN. apply NoDup_app in HN as (_ & _ & HN). split_and!; [done| |].
  - intros n Hx. rewrite HP. apply elem_of_app. by right.
  - intros p. rewrite HP, elem_of_app. split; [by right|]. intros [(d & Hd & H)%list_elem_of_fmap|?]; [|done].
    apply list_elem_of_filter in H as [H _]. unfold page_node in H. by rewrite <- Hd in H.
Qed.

(** ** A change of the map *)

(** [st'] is [st] with the map [m]; all descriptors in pages are still there. *)
Record Changed (st st' : PageState) (m : Z -> option (Z * Z)) : Prop := {
  changed_wf : MapWf st';
  changed_look : forall a, look (gMemoryMap st') a = m a;
  changed_frame : frame_of st' = frame_of st;
  changed_bins : BinsOk (Bins st) -> BinsOk (Bins st');
  changed_pages : forall p, PageNode p ∈ nodes_of st' <-> PageNode p ∈ nodes_of st;
  changed_free : (length (mFreeMemoryMapEntryList st) <= length (mFreeMemoryMapEntryList st'))%nat }.

Definition within (s e a : Z) : bool := (s <=? a) && (a <=? e).

Lemma within_spec s e a : within s e a = true <-> s <= a <= e.
Proof. unfold within. rewrite andb_true_iff, !Z.leb_le. tauto. Qed.

(** A map in which a range has a value. *)
Definition set_range (s e : Z) (v : option (Z * Z)) (m : Z -> option (Z * Z)) (a : Z) : option (Z * Z) :=
  if within s e a then v else m a.

(** Adding a range to the list with a node of its own. *)
Definition add_node (d : MEMORY_MAP) (st : PageState) : PageState :=
  SetMapDepth (S (mMapDepth st)) (SetMemoryMap (gMemoryMap st ++ [d]) st).

Lemma PushDescriptor_run t s e x st :
  PushDescriptor t s e x st =
    if bool_decide (S (mMapDepth st) < MAX_MAP_DEPTH)%nat
    then Done (tt, add_node (MkMap (StackNode (mMapDepth st)) t s e x) st) else Asserted.
Proof. unfold PushDescriptor, add_node, mbind, SM_bind, Get, Change, Assert. by destruct (bool_decide _). Qed.

Lemma add_node_wf t s e x st st0 :
  MapWf st0 -> (S (mMapDepth st) < MAX_MAP_DEPTH)%nat -> mMapDepth st = mMapDepth st0 ->
  NoDup (nodes_of st) -> (forall n, n ∈ nodes_of st -> n ∈ nodes_of st0) ->
  let st' := add_node (MkMap (StackNode (mMapDepth st)) t s e x) st in
  WfMap (gMemoryMap st') -> MapWf st'.
Proof.
  intros Hw Hd E Hn Hsub st' Hm.
  assert (nodes_of st' ≡ₚ StackNode (mMapDepth st) :: nodes_of st) as HP.
  { unfold nodes_of, st', add_node. simpl. rewrite fmap_app. simpl. rewrite <- app_assoc. simpl. by rewrite <- Permutation_middle. }
  split; [done| | |done].
  - rewrite HP. constructor; [|done]. intros H%Hsub. apply (wf_stack st0 Hw) in H. lia.
  - intros i. rewrite HP, elem_of_cons. unfold st', add_node. simpl. intros [[= ->]|H%Hsub]; [lia|].
    apply (wf_stack st0 Hw) in H. lia.
Qed.

(** Memory without a descriptor is apart from all of them. *)
Lemma unmapped_apart s e l : Forall Good l -> s < e -> (forall a, s <= a <= e -> look l a = None) -> Forall (apart_from s e) l.
Proof.
  intros HG Hse Hnone. rewrite Forall_forall in *. intros d Hdl. destruct (HG d Hdl) as (_ & _ & ? & _).
  assert (~ inside (Z.max s (MStart d)) d \/ e < MStart d) as [Hi|Hi]; [|unfold inside in Hi; unfold apart_from; lia|by left].
  destruct (decide (e < MStart d)); [by right|left]. apply (proj1 (look_None _ _) (Hnone (Z.max s (MStart d)) ltac:(lia)) d Hdl).
Qed.

(** The merged range in place of the descriptors it has absorbed. *)
Lemma Absorbed_wf t x l s e r s' e' rest n :
  WfMap l -> Forall (apart_from s e) l -> l ≡ₚ r ++ rest -> (forall k, k ∈ rest -> k ∉ r) -> Absorbed t x l s e r s' e' ->
  WfMap (MkMap n t s' e' x :: rest).
Proof.
  intros Hm Hap Hp Hrest [H1 H2 H3 H4 H5 H6 H7]. pose proof H3 as ((_ & _ & ? & _) & ? & ?). assert (forall k, k ∈ rest -> k ∈ l) as Hin.
  { intros k Hk. rewrite Hp. apply elem_of_app. by right. }
  assert (WfMap rest) as Hm2 by (rewrite Hp in Hm; by apply WfMap_app_r in Hm). apply WfMap_cons; [apply H3| | |done].
  - rewrite Forall_forall. intros k Hk. destruct Hm as (HG & HS & _). rewrite Hp in HS. apply Separate_app in HS as (_ & _ & HS).
    rewrite Forall_forall in HG, Hap. destruct (HG k (Hin k Hk)) as (_ & _ & ? & _). specialize (Hap k (Hin k Hk)).
    unfold apart, apart_from. simpl. destruct (decide (e' < MStart k)); [by left|]. right. apply Z.nle_gt. intros Hle.
    destruct (proj1 (H4 (Z.max s' (MStart k))) ltac:(lia)) as [Ha|(k' & Hk' & Ha)].
    + unfold apart_from in Hap. lia.
    + specialize (HS k' k Hk' Hk). unfold apart, apart_from, inside in *. lia.
  - intros k Hk Hv. destruct (H7 k (Hin k Hk) Hv) as [Hr|Hr]; [by destruct (Hrest k Hk)|simpl; lia].
Qed.

Lemma Absorbed_look t x l s e r s' e' rest n a :
  Separate l -> l ≡ₚ r ++ rest -> Absorbed t x l s e r s' e' ->
  look (MkMap n t s' e' x :: rest) a = set_range s e (Some (t, x)) (look l) a.
Proof.
  intros HS Hp [H1 H2 H3 H4 H5 H6 H7]. rewrite look_cons. unfold set_range, inside. simpl. rewrite (look_perm l _ a HS Hp), look_app.
  assert (Separate r) as HSr by (rewrite Hp in HS; by apply Separate_app in HS as (? & _ & _)).
  destruct (decide (s' <= a <= e')) as [Ha|Ha].
  - destruct (within s e a) eqn:Ew; [done|]. destruct (proj1 (H4 a) Ha) as [H8%within_spec|(k & Hk & Hi)]; [congruence|].
    rewrite (proj2 (look_Some r a (t, x) HSr)); [done|]. exists k. split_and!; [done|done|]. rewrite Forall_forall in H2. by apply H2.
  - assert (within s e a = false) as -> by (apply not_true_iff_false; rewrite within_spec; lia).
    rewrite (proj2 (look_None r a)); [done|]. intros k Hk Hi. apply Ha, H4. right. by exists k.
Qed.

Lemma CoreAddRange_run t s e x st :
  MapWf st -> gMemoryLock st = true -> GoodRange s e -> (forall a, s <= a <= e -> look (gMemoryMap st) a = None) ->
  CoreAddRange t s e x st = Asserted /\ (MAX_MAP_DEPTH <= S (mMapDepth st))%nat \/
  exists st', CoreAddRange t s e x st = Done (tt, st') /\ mMapDepth st' = S (mMapDepth st) /\
    Changed st st' (set_range s e (Some (t, x)) (look (gMemoryMap st))).
Proof.
  intros Hw Hl Hse Hnone. pose proof (wf_map st Hw) as Hm. pose proof Hse as (Hs & He & ? & ?).
  pose proof (unmapped_apart s e (gMemoryMap st) (proj1 Hm) ltac:(lia) Hnone) as Hap.
  pose proof (absorb_spec t x (gMemoryMap st) s e Hm Hse Hap) as HA. unfold CoreAddRange.
  assert (HasFlag s EFI_PAGE_MASK = false) as ->.
  { unfold EFI_PAGE_MASK. change 4095 with (2 ^ 12 - 1). apply mask_aligned; [done|]. by apply Z.mod_divide. }
  rewrite (proj2 (Z.ltb_lt s e)) by lia. unfold ASSERT_LOCKED. simpl. unfold mbind, SM_bind, Get, Assert, Change. rewrite Hl. simpl.
  rewrite AddRangeLoop_run. destruct (absorb t x (gMemoryMap st) s e) as [[r s'] e'].
  set (st1 := SetMapKey _ _ st). destruct (drop_all_state r st1) as (Em & Ef & Ed & Er).
  assert (MapWf st1) as Hw1 by (by destruct Hw; split).
  pose proof (absorbed_sub _ _ _ _ _ _ _ _ HA) as H1. destruct (drop_all_nodes r st1 Hw1 H1) as (N1 & N2 & N3).
  rewrite PushDescriptor_run. case_bool_decide as Hd; rewrite Ed in Hd; [right|left; split; [done|simpl in Hd; lia]].
  set (st2 := drop_all r st1) in *. eexists. split; [done|]. split; [simpl; by rewrite Ed|].
  pose proof (take_out_perm _ _ (wf_map_nodes st1 Hw1) H1) as Hp. rewrite <- Em in Hp. simpl in Hp.
  set (d := MkMap _ t s' e' x). assert (gMemoryMap st2 ++ [d] ≡ₚ d :: gMemoryMap st2) as Hpd by (by rewrite Permutation_app_comm).
  assert (WfMap (gMemoryMap st2 ++ [d])) as Hm3.
  { rewrite Hpd. eapply Absorbed_wf; [exact Hm|exact Hap|exact Hp| |exact HA]. intros k Hk Hr. rewrite Em in Hk.
    apply list_elem_of_filter in Hk as [Hk _]. by apply Hk, list_elem_of_fmap_2. }
  split.
  - apply (add_node_wf t s' e' x st2 st1); [done|by rewrite Ed|by rewrite Ed|done|done|done].
  - intros a. simpl. rewrite (look_perm _ _ a (proj1 (proj2 Hm3)) Hpd). by apply (Absorbed_look t x (gMemoryMap st) s e r); [apply Hm|..].
  - by apply rest_frame in Er as [Er _].
  - apply rest_frame in Er as [_ Er]. simpl. by rewrite Er.
  - intros p. change (nodes_of st) with (nodes_of st1). rewrite <- N3. unfold nodes_of. simpl. rewrite fmap_app. simpl. rewrite !elem_of_app, list_elem_of_singleton. naive_solver.
  - simpl. rewrite Ef. simpl. rewrite length_app. lia.
Qed.

(** ** Taking a range out of a descriptor *)

(** [pieces] are what is left of [d] without the range. *)
Record Pieces (d : MEMORY_MAP) (s r : Z) (pieces : list MEMORY_MAP) : Prop := {
  pieces_wf : WfMap pieces;
  pieces_value : Forall (fun k => value k = value d /\ MStart d <= MStart k /\ MEnd k <= MEnd d) pieces;
  pieces_inside : forall a, (exists k, k ∈ pieces /\ inside a k) <-> inside a d /\ ~ s <= a <= r }.

Lemma Pieces_wf d s r pieces rest : Pieces d s r pieces -> WfMap (d :: rest) -> WfMap (pieces ++ rest).
Proof.
  intros [(PG & PS & PM) Hv Hi] (HG & HS & HM). rewrite Forall_forall in Hv. inversion_clear HG as [|? ? Gd Gr].
  destruct HS as [Hap HS]. rewrite Forall_forall in Hap. split_and!; [by apply Forall_app| |].
  - apply Separate_app. split_and!; [done|done|]. intros k x Hk Hx. destruct (Hv k Hk) as (_ & ? & ?). specialize (Hap x Hx).
    unfold apart, apart_from in *. lia.
  - assert (forall k x, k ∈ pieces -> x ∈ rest -> value k = value x -> MEnd k + 1 ≠ MStart x /\ MEnd x + 1 ≠ MStart k) as HH.
    { intros k x Hk Hx E. destruct (Hv k Hk) as (Ev & ? & ?). specialize (Hap x Hx). rewrite Forall_forall in PG, Gr.
      destruct (PG k Hk) as (_ & _ & ? & _), (Gr x Hx) as (_ & _ & ? & _), Gd as (_ & _ & ? & _).
      assert (MEnd d + 1 ≠ MStart x) by (apply HM; [by left|by right|congruence]).
      assert (MEnd x + 1 ≠ MStart d) by (apply HM; [by right|by left|congruence]).
      unfold apart, apart_from in Hap. lia. }
    intros d1 d2 [H1|H1]%elem_of_app [H2|H2]%elem_of_app E.
    + by apply PM.
    + by apply (HH d1 d2).
    + by apply (HH d2 d1).
    + apply HM; [by right|by right|done].
Qed.

Lemma Pieces_look d s r pieces rest a :
  Pieces d s r pieces -> MStart d <= s -> r <= MEnd d -> WfMap (d :: rest) ->
  look (pieces ++ rest) a = set_range s r None (look (d :: rest)) a.
Proof.
  intros HP Hs Hr Hw. pose proof (Pieces_wf _ _ _ _ _ HP Hw) as (_ & HS' & _). destruct HP as [(_ & PS & _) Hv Hi].
  destruct Hw as (_ & HS & _). unfold set_range. destruct (within s r a) eqn:E.
  - apply within_spec in E. apply look_None. intros k [Hk|Hk]%elem_of_app Ha.
    + apply (proj1 (Hi a)); [by exists k|done].
    + destruct HS as [Hap _]. rewrite Forall_forall in Hap. specialize (Hap k Hk). unfold apart, apart_from, inside in *. lia.
  - assert (~ s <= a <= r) as Hn by (rewrite <- within_spec; congruence). apply option_ext. intros v. rewrite !look_Some by done.
    rewrite Forall_forall in Hv. split.
    + intros (k & [Hk|Hk]%elem_of_app & Ha & <-); [|exists k; split_and!; [by right|done|done]].
      exists d. split_and!; [by left| |by rewrite (proj1 (Hv k Hk))]. by apply (proj1 (Hi a)); exists k.
    + intros (k & [->|Hk]%elem_of_cons & Ha & <-); [|exists k; split_and!; [apply elem_of_app; by right|done|done]].
      destruct (proj2 (Hi a) (conj Ha Hn)) as (k & Hk & Ha'). exists k. split_and!; [apply elem_of_app; by left|done|].
      by apply Hv.
Qed.

(** The three ways to take a range out. *)
Lemma WfMap_nil : WfMap [].
Proof. split_and!; [constructor|done|by intros ? ? ?%elem_of_nil]. Qed.

Lemma WfMap_singleton d : Good d -> WfMap [d].
Proof. intros HG. apply WfMap_cons; [done|constructor|by intros k ?%elem_of_nil|apply WfMap_nil]. Qed.

Lemma Pieces_all d : Good d -> Pieces d (MStart d) (MEnd d) [].
Proof.
  intros (_ & _ & ? & _). split; [apply WfMap_nil|constructor|]. intros a. split; [by intros (k & ?%elem_of_nil & _)|]. unfold inside. lia.
Qed.

Lemma Pieces_one d s r k :
  Good k -> value k = value d -> MStart d <= MStart k -> MEnd k <= MEnd d ->
  (forall a, inside a k <-> inside a d /\ ~ s <= a <= r) -> Pieces d s r [k].
Proof.
  intros HG Hv H1 H2 Hi. split; [by apply WfMap_singleton|by constructor|]. intros a. rewrite <- Hi. split.
  - by intros (x & ->%list_elem_of_singleton & ?).
  - intros ?. exists k. by rewrite list_elem_of_singleton.
Qed.

Lemma GoodRange_upper s r e : GoodRange s r -> PageAligned (e + 1) -> r < e -> e + 1 < 2 ^ 64 -> GoodRange (r + 1) e.
Proof. intros (Hs & Hr & ? & ?) He ? ?. unfold PageAligned in *. split_and!; [done|done|lia|..]; Z.div_mod_to_equations; lia. Qed.

Lemma GoodRange_lower s r b : GoodRange s r -> PageAligned b -> 0 <= b < s -> GoodRange b (s - 1).
Proof. intros (Hs & Hr & ? & ?) He ?. unfold PageAligned, GoodRange in *. replace (s - 1 + 1) with s by lia. split_and!; [done|done|lia|..]; Z.div_mod_to_equations; lia. Qed.

Definition store (d : MEMORY_MAP) (l : list MEMORY_MAP) : list MEMORY_MAP := (fun e => if decide (Node e = Node d) then d else e) <$> l.

Lemma store_nodes d l : Node <$> store d l = Node <$> l.
Proof. unfold store. rewrite <- list_fmap_compose. apply list_fmap_ext. intros i e _. simpl. by case_decide. Qed.

Lemma store_absent d l : Node d ∉ Node <$> l -> store d l = l.
Proof.
  induction l as [|e l IH]; [done|]. rewrite fmap_cons, not_elem_of_cons. intros [Hn Hl]. unfold store. simpl.
  rewrite decide_False by congruence. f_equal. by apply IH.
Qed.

Lemma filter_absent d (l : list MEMORY_MAP) : Node d ∉ Node <$> l -> filter (fun e => Node e ≠ Node d) l = l.
Proof.
  induction l as [|e l IH]; [done|]. rewrite fmap_cons, not_elem_of_cons. intros [Hn Hl].
  rewrite filter_cons_True by congruence. f_equal. by apply IH.
Qed.

Lemma store_perm d d' l :
  NoDup (Node <$> l) -> d ∈ l -> Node d' = Node d -> store d' l ≡ₚ d' :: filter (fun e => Node e ≠ Node d) l.
Proof.
  intros Hn Hd E. apply list_elem_of_split in Hd as (l1 & l2 & ->). rewrite fmap_app, fmap_cons in Hn.
  apply NoDup_app in Hn as (_ & H1 & [H2 _]%NoDup_cons).
  assert (Node d ∉ Node <$> l1) as H1' by (intros H; by apply (H1 _ H); left).
  unfold store. rewrite fmap_app, fmap_cons, decide_True by done. fold (store d' l1) (store d' l2).
  rewrite !store_absent by (by rewrite E). rewrite filter_app, filter_cons_False by (intros H; by apply H).
  rewrite !filter_absent by done. by rewrite Permutation_middle.
Qed.

Lemma store_filter d l : filter (fun e => Node e ≠ Node d) (store d l) = filter (fun e => Node e ≠ Node d) l.
Proof.
  induction l as [|e l IH]; [done|]. simpl. rewrite !filter_cons. destruct (decide (Node e = Node d)) as [E|E].
  - rewrite decide_False by (intros H; by apply H). rewrite decide_False by (intros H; by apply H). apply IH.
  - rewrite !decide_True by done. by f_equal.
Qed.

(** The state with a new list, in which the nodes are the same. *)
Lemma Changed_map st l m :
  MapWf st -> WfMap l -> Node <$> l = Node <$> gMemoryMap st -> (forall a, look l a = m a) -> Changed st (SetMemoryMap l st) m.
Proof.
  intros Hw Hl Hn Hm. assert (nodes_of (SetMemoryMap l st) = nodes_of st) as E by (unfold nodes_of; simpl; by rewrite Hn).
  split; [|done|done|done|by rewrite E|done]. destruct Hw. split; [done|by rewrite E|intros i; rewrite E; by apply wf_stack0|done].
Qed.

Lemma StoreEntry_run d st : StoreEntry d st = Done (tt, SetMemoryMap (store d (gMemoryMap st)) st).
Proof. done. Qed.

Lemma drop_entry_changed d st :
  MapWf st -> d ∈ gMemoryMap st ->
  mMapDepth (drop_entry d st) = mMapDepth st /\
  Changed st (drop_entry d st) (set_range (MStart d) (MEnd d) None (look (gMemoryMap st))).
Proof.
  intros Hw Hd. pose proof (wf_map st Hw) as Hm. pose proof (take_out_one _ _ (wf_map_nodes st Hw) Hd) as Hp.
  assert ([d] `sublist_of` gMemoryMap st) as Hsub
    by (apply list_elem_of_split in Hd as (l1 & l2 & ->); apply sublist_inserts_l, sublist_skip, sublist_nil_l).
  destruct (drop_all_state [d] st) as (_ & Ef & Ed & Er), (drop_all_nodes [d] st Hw Hsub) as (N1 & N2 & N3).
  change (drop_all [d] st) with (drop_entry d st) in *. assert (Good d) as Gd
    by (destruct Hm as (HG & _); rewrite Forall_forall in HG; by apply HG).
  assert (gMemoryMap (drop_entry d st) = filter (fun e => Node e ≠ Node d) (gMemoryMap st)) as Em
    by (unfold drop_entry; by destruct (page_node d)).
  rewrite Hp in Hm. pose proof (Pieces_all d Gd) as HP. pose proof (Pieces_wf d _ _ [] _ HP Hm) as Hw'.
  apply rest_frame in Er as [Er Eb]. split; [done|]. split; [split| |done|by rewrite Eb|done|rewrite Ef, length_app; lia].
  - by rewrite Em.
  - done.
  - intros i Hi%N2. rewrite Ed. by apply (wf_stack st Hw).
  - rewrite Ed. apply (wf_depth st Hw).
  - intros a. rewrite Em. change (filter ?P ?l) with ([] ++ filter P l) at 1.
    rewrite (Pieces_look d (MStart d) (MEnd d)) by (done || lia). unfold set_range.
    rewrite (look_perm (gMemoryMap st) _ a) by (done || (rewrite Hp; by destruct Hm as (_ & ? & _))). done.
Qed.

Lemma Pieces_two d s r k1 k2 :
  GoodRange s r -> Good d -> MStart d < s -> r < MEnd d -> value k1 = value d -> value k2 = value d ->
  MStart k1 = MStart d -> MEnd k1 = s - 1 -> MStart k2 = r + 1 -> MEnd k2 = MEnd d -> Pieces d s r [k2; k1].
Proof.
  intros Hsr (Ad & Ae & ? & ?) ? ? Hv1 Hv2 E1 E2 E3 E4. pose proof Hsr as (_ & _ & ? & _).
  assert (Good k1) as G1 by (unfold Good; rewrite E1, E2; by apply (GoodRange_lower s r); [..|lia]).
  assert (Good k2) as G2 by (unfold Good; rewrite E3, E4; by apply (GoodRange_upper s r)).
  split.
  - apply WfMap_cons; [done| | |by apply WfMap_singleton].
    + constructor; [|constructor]. unfold apart, apart_from. lia.
    + intros k Hk%list_elem_of_singleton _. subst k. lia.
  - repeat constructor; done || lia.
  - intros a. unfold inside. split.
    + intros (k & [->|Hk%list_elem_of_singleton]%elem_of_cons & ?); [|subst k]; lia.
    + intros [? ?]. destruct (decide (a < s)); [exists k1|exists k2]; rewrite !elem_of_cons; lia || (split; [tauto|lia]).
Qed.

(** [PullOut] and the removal of an empty descriptor after it. *)
Definition TakeOut (Entry : MEMORY_MAP) (s r : Z) : PM MEMORY_MAP :=
  Entry ← PullOut Entry s r;
  (if MStart Entry =? add64 (MEnd Entry) 1 then RemoveMemoryMapEntry Entry else mret tt) ;;
  mret Entry.

(** One piece is left, in the same node. *)
Lemma store_piece d s r k st :
  MapWf st -> d ∈ gMemoryMap st -> MStart d <= s -> r <= MEnd d -> Pieces d s r [k] -> Node k = Node d ->
  Changed st (SetMemoryMap (store k (gMemoryMap st)) st) (set_range s r None (look (gMemoryMap st))).
Proof.
  intros Hw Hd Hs Hr HP E. pose proof (wf_map_nodes st Hw) as Hn. pose proof (wf_map st Hw) as Hm. pose proof (take_out_one _ _ Hn Hd) as Hp.
  pose proof (store_perm d k (gMemoryMap st) Hn Hd E) as Hsp. set (rest := filter _ _) in Hp, Hsp.
  assert (WfMap (d :: rest)) as Hmr by (by rewrite <- Hp).
  pose proof (Pieces_wf _ _ _ _ _ HP Hmr) as Hwk. apply Changed_map; [done|by rewrite Hsp|apply store_nodes|].
  intros a. rewrite (look_perm _ (k :: rest)) by (try rewrite Hsp; by destruct Hwk as (_ & ? & _)).
  change (k :: rest) with ([k] ++ rest). rewrite (Pieces_look d s r [k] rest a) by done. unfold set_range.
  by rewrite (look_perm (gMemoryMap st) _ a (proj1 (proj2 Hm)) Hp).
Qed.

(** Either the stack of descriptors overflows, or the range is taken out. *)
Lemma TakeOut_run d s r st :
  MapWf st -> d ∈ gMemoryMap st -> GoodRange s r -> MStart d <= s -> r <= MEnd d ->
  TakeOut d s r st = Asserted /\ (MAX_MAP_DEPTH <= S (mMapDepth st))%nat \/
  exists d' st', TakeOut d s r st = Done (d', st') /\ value d' = value d /\
    (mMapDepth st <= mMapDepth st' <= S (mMapDepth st))%nat /\ Changed st st' (set_range s r None (look (gMemoryMap st))).
Proof.
  intros Hw Hd Hsr Hs Hr. pose proof (wf_map_nodes st Hw) as Hn. pose proof (wf_map st Hw) as Hm.
  pose proof (take_out_one _ _ Hn Hd) as Hp. set (rest := filter (fun e => Node e ≠ Node d) (gMemoryMap st)) in *.
  assert (Good d) as Gd by (destruct Hm as (HG & _); rewrite Forall_forall in HG; by apply HG).
  assert (WfMap (d :: rest)) as Hmr by (by rewrite <- Hp).
  pose proof Hsr as (As & Ar & ? & ?). pose proof Gd as (Ad & Ae & ? & ?).
  assert (forall a, look (gMemoryMap st) a = look (d :: rest) a) as Hlook by (intros a; apply look_perm; [by destruct Hm as (_ & ? & _)|done]).
  unfold TakeOut, PullOut. destruct (Z.eqb_spec (MStart d) s) as [Es|Es].
  - rewrite add64_small by lia. set (k := SetStart (r + 1) d). right. exists k.
    unfold mbind, SM_bind. rewrite StoreEntry_run. simpl. rewrite add64_small by lia.
    destruct (Z.eqb_spec (r + 1) (MEnd d + 1)) as [Er|Er].
    + rewrite RemoveMemoryMapEntry_run. eexists. split; [done|]. split; [done|].
      assert (drop_entry k (SetMemoryMap (store k (gMemoryMap st)) st) = drop_entry d st) as ->.
      { unfold drop_entry, page_node. simpl. pose proof (store_filter k (gMemoryMap st)) as E. simpl in E. by rewrite E. }
      destruct (drop_entry_changed d st Hw Hd) as [-> HC]. split; [lia|]. assert (MEnd d = r) as <- by lia. by rewrite <- Es.
    + eexists. split; [done|]. split; [done|]. split; [simpl; lia|]. apply (store_piece d); [done..| |done]. apply Pieces_one; [|done|simpl; lia|simpl; lia|].
      * apply (GoodRange_upper s r (MEnd d)); [done|done|lia|done].
      * intros a. unfold inside, k. simpl. lia.
  - destruct (Z.eqb_spec (MEnd d) r) as [Er|Er].
    + rewrite sub64_small by lia. set (k := SetEnd (s - 1) d). right. exists k.
      unfold mbind, SM_bind. rewrite StoreEntry_run. simpl. rewrite add64_small by lia. rewrite (proj2 (Z.eqb_neq (MStart d) (s - 1 + 1))) by lia.
      eexists. split; [done|]. split; [done|]. split; [simpl; lia|]. apply (store_piece d); [done..| |done]. apply Pieces_one; [|done|simpl; lia|simpl; lia|].
      * apply (GoodRange_lower s r (MStart d)); [done|done|lia].
      * intros a. unfold inside, k. simpl. lia.
    + rewrite sub64_small by lia. rewrite !add64_small by lia. set (k1 := SetEnd (s - 1) d). unfold mbind, SM_bind. rewrite StoreEntry_run.
      unfold Get, Assert. pose proof (GoodRange_lower s r (MStart d) Hsr Ad ltac:(lia)) as (_ & _ & ? & _).
      rewrite (proj2 (Z.ltb_lt (MStart k1) (MEnd k1))) by (simpl; lia). simpl. rewrite PushDescriptor_run. simpl.
      case_bool_decide as Hdepth; [right|left; split; [done|lia]].
      unfold mret, SM_ret. simpl. rewrite !add64_small by lia. rewrite (proj2 (Z.eqb_neq (r + 1) (MEnd d + 1))) by lia. eexists _, _. split; [done|]. split; [done|]. split; [simpl; lia|].
      set (st1 := SetMemoryMap _ st). set (k2 := MkMap _ _ (r + 1) _ _).
      assert (Pieces d s r [k2; k1]) as HP by (apply Pieces_two; done || lia).
      assert (gMemoryMap (add_node k2 st1) ≡ₚ [k2; k1] ++ rest) as HP2.
      { simpl. rewrite (store_perm d k1 _ Hn Hd eq_refl). fold rest. rewrite Permutation_app_comm. done. }
      pose proof (Pieces_wf _ _ _ _ _ HP Hmr) as Hwk. rewrite <- HP2 in Hwk.
      assert (nodes_of st1 = nodes_of st) as En by (unfold nodes_of; simpl; by rewrite store_nodes).
      split; [|intros a|done|done|intros p|done].
      * apply (add_node_wf _ _ _ _ st1 st); [done|done|done|rewrite En; apply Hw|by rewrite En|done].
      * rewrite (look_perm _ _ a (proj1 (proj2 Hwk)) HP2), (Pieces_look d s r _ rest a HP) by done.
        unfold set_range. by rewrite Hlook.
      * rewrite <- En. unfold nodes_of. simpl. rewrite fmap_app. simpl. rewrite !elem_of_app, list_elem_of_singleton. naive_solver.
Qed.

(** ** Composition *)

Lemma Changed_trans st st1 st2 m1 m2 : Changed st st1 m1 -> Changed st1 st2 m2 -> Changed st st2 m2.
Proof.
  intros [W1 L1 R1 B1 P1 F1] [W2 L2 R2 B2 P2 F2]. split; [done|done|congruence|auto|intros p; by rewrite P2|lia].
Qed.

Lemma Changed_ext st st' m m' : (forall a, m a = m' a) -> Changed st st' m -> Changed st st' m'.
Proof. intros E [W L R B P F]. split; [done|intros a; by rewrite L|done..]. Qed.

Lemma Changed_refl st : MapWf st -> Changed st st (look (gMemoryMap st)).
Proof. by split. Qed.

(** Fields outside the map. *)
Lemma Changed_bins_only st b : MapWf st -> (BinsOk (Bins st) -> BinsOk b) -> Changed st (SetBins b st) (look (gMemoryMap st)).
Proof. intros [] Hb. by split. Qed.

(** A range moved to another type: taken out and added again. *)
Definition Replace (d : MEMORY_MAP) (s r t x : Z) : PM unit := TakeOut d s r ;; CoreAddRange t s r x.

Lemma Replace_run d s r t x st :
  MapWf st -> gMemoryLock st = true -> d ∈ gMemoryMap st -> GoodRange s r -> MStart d <= s -> r <= MEnd d ->
  Replace d s r t x st = Asserted /\ (MAX_MAP_DEPTH <= mMapDepth st + 2)%nat \/
  exists st', Replace d s r t x st = Done (tt, st') /\ (mMapDepth st < mMapDepth st' <= mMapDepth st + 2)%nat /\
    Changed st st' (set_range s r (Some (t, x)) (look (gMemoryMap st))).
Proof.
  intros Hw Hl Hd Hsr Hs Hr. unfold Replace. destruct (TakeOut_run d s r st Hw Hd Hsr Hs Hr) as [[E Hdep]|(d' & st1 & E & _ & Hdep & HC)].
  { left. unfold mbind, SM_bind. rewrite E. split; [done|lia]. }
  rewrite (SM_bind_run _ _ _ _ _ E). pose proof (changed_wf _ _ _ HC) as Hw1.
  assert (gMemoryLock st1 = true) as Hl1 by (destruct HC as [_ _ HF _ _ _]; unfold frame_of in HF; congruence).
  assert (forall a, s <= a <= r -> look (gMemoryMap st1) a = None) as Hn.
  { intros a Ha. rewrite (changed_look _ _ _ HC). unfold set_range. by rewrite (proj2 (within_spec s r a) Ha). }
  destruct (CoreAddRange_run t s r x st1 Hw1 Hl1 Hsr Hn) as [[E2 H]|(st2 & E2 & D2 & C2)].
  - left. split; [done|lia].
  - right. exists st2. split; [done|]. split; [lia|].
    eapply Changed_trans; [done|]. eapply Changed_ext; [|done]. intros a. unfold set_range. destruct (within s r a) eqn:W; [done|].
    rewrite (changed_look _ _ _ HC). unfold set_range. by rewrite W.
Qed.
