(* ===== verification/PageFind.v ===== *)
(** * The page allocator: the search for free pages

    CoreFindFreePagesI, without the heap guard and with page alignment, returns
    the highest address at which the pages fit into a free descriptor and below
    the limit. *)
From Stdlib Require Import ZArith Lia.
From stdpp Require Import base option list.
From S2P Require Import Prelude StateMonad Gcd MemoryBin Page PageSample PageMap.

(** The pages from [b] are in a free descriptor and within the limits. *)
Definition Fits (l : list MEMORY_MAP) (Max Min n b : Z) : Prop :=
  PageAligned b /\ Min <= b /\ b + 4096 * n - 1 <= Max /\
  exists d, d ∈ l /\ MType d = EfiConventionalMemory /\ HasFlag (MAttribute d) EFI_MEMORY_SP = false /\
    MStart d <= b /\ b + 4096 * n - 1 <= MEnd d.

(** The last address of the last whole page up to [Max]. *)
Definition last_page (Max : Z) : Z := (Max + 1) / 4096 * 4096 - 1.

(** The highest last address of [bytes] bytes in a descriptor. *)
Definition candidate (Max Min bytes : Z) (d : MEMORY_MAP) : option Z :=
  let e := Z.min Max (MEnd d) in
  if (MType d =? EfiConventionalMemory) && negb (HasFlag (MAttribute d) EFI_MEMORY_SP) &&
     (MStart d <? Max) && (Min <=? MEnd d) && (bytes <=? e - MStart d + 1) && (Min <=? e - bytes + 1)
  then Some e else None.

Definition highest (T : Z) (l : list Z) : Z := foldl (fun T e => if T <? e then e else T) T l.

Lemma highest_spec l : forall T, T <= highest T l /\ (forall e, e ∈ l -> e <= highest T l) /\ (highest T l = T \/ highest T l ∈ l).
Proof.
  induction l as [|e l IH]; intros T; [simpl; split_and!; [lia|by intros ? ?%elem_of_nil|by left]|]. unfold highest. simpl.
  destruct (Z.ltb_spec T e) as [Hlt|Hge].
  - destruct (IH e) as (H1 & H2 & H3). fold (highest e l). split_and!; [lia| |].
    + intros x [->|Hx]%elem_of_cons; [done|by apply H2].
    + right. destruct H3 as [->|H3]; [by left|by right].
  - destruct (IH T) as (H1 & H2 & H3). fold (highest T l). split_and!; [lia| |].
    + intros x [->|Hx]%elem_of_cons; [lia|by apply H2].
    + destruct H3 as [->|H3]; [by left|right; by right].
Qed.

Lemma land_page_mask a : Z.land a EFI_PAGE_MASK = a mod 4096.
Proof. unfold EFI_PAGE_MASK. change 4095 with (Z.ones 12). by rewrite Z.land_ones. Qed.

Lemma HasFlag_page a : HasFlag a EFI_PAGE_MASK = negb (a mod 4096 =? 0).
Proof. unfold HasFlag. by rewrite land_page_mask. Qed.

Lemma page_down a : 0 <= a < 2 ^ 64 -> Z.land a (not64 (4096 - 1)) = a / 4096 * 4096.
Proof. intros Ha. change (4096 - 1) with (2 ^ 12 - 1). by apply mask_align_down. Qed.

Lemma lor_page_mask q : Z.lor (q * 4096) 4095 = q * 4096 + 4095.
Proof.
  assert (Z.land (q * 4096) 4095 = 0) as H by (change 4095 with (Z.ones 12); rewrite Z.land_ones by lia; apply Z.mod_mul; lia).
  by rewrite <- Z.lxor_lor, <- Z.add_nocarry_lxor.
Qed.

(** What is behind a candidate. *)
Lemma candidate_Some Max Min n d e :
  Good d -> PageAligned (Max + 1) -> candidate Max Min (4096 * n) d = Some e ->
  MType d = EfiConventionalMemory /\ HasFlag (MAttribute d) EFI_MEMORY_SP = false /\ e <= Max /\ e <= MEnd d /\
  PageAligned (e + 1) /\ MStart d <= e - 4096 * n + 1 /\ Min <= e - 4096 * n + 1.
Proof.
  intros (_ & Ae & _ & _) Am. unfold candidate.
  destruct (_ && _) eqn:E; [|done]. intros [= <-]. bool_to_Z. split_and!; try done; try lia.
  destruct (Z.min_spec Max (MEnd d)) as [[_ ->]|[_ ->]]; done.
Qed.

Lemma candidate_complete Max Min n d b :
  PageAligned (Max + 1) -> 0 < n -> Good d -> MType d = EfiConventionalMemory -> HasFlag (MAttribute d) EFI_MEMORY_SP = false ->
  MStart d <= b -> b + 4096 * n - 1 <= MEnd d -> Min <= b -> b + 4096 * n - 1 <= Max ->
  exists e, candidate Max Min (4096 * n) d = Some e /\ b + 4096 * n - 1 <= e.
Proof.
  intros Am Hn (As & Ae & ? & ?) Ht Hsp ? ? ? ?. exists (Z.min Max (MEnd d)). split; [|lia]. unfold candidate.
  rewrite Ht, Hsp. simpl. rewrite !(proj2 (Z.leb_le _ _)) by lia. by rewrite (proj2 (Z.ltb_lt _ _)) by lia.
Qed.

Section Search.
Context {Env : PageEnvironment}.

Lemma FindFreeLoop_highest Max Min bytes l T :
  Forall Good l -> PageAligned (Max + 1) -> 0 <= Max < 2 ^ 64 -> 0 < bytes < 2 ^ 64 ->
  FindFreeLoop Max Min bytes 4096 false l T = highest T (omap (candidate Max Min bytes) l).
Proof.
  intros HG Hm HM Hb. revert T. induction HG as [|d l Gd _ IH]; intros T; [done|]. cbn [FindFreeLoop omap list_omap].
  pose proof Gd as (As & Ae & ? & ?). unfold candidate at 1.
  destruct (MType d =? EfiConventionalMemory); cbn [negb andb]; [|apply IH].
  destruct (HasFlag (MAttribute d) EFI_MEMORY_SP); cbn [negb andb]; [apply IH|].
  rewrite (Z.leb_antisym (MStart d)), (Z.ltb_antisym Min).
  destruct (Z.ltb_spec (MStart d) Max); cbn [negb andb orb]; [|apply IH].
  destruct (Z.leb_spec Min (MEnd d)); cbn [negb andb orb]; [|apply IH].
  assert ((if Max <=? MEnd d then Max else MEnd d) = Z.min Max (MEnd d)) as -> by (destruct (Z.leb_spec Max (MEnd d)); lia).
  set (e := Z.min Max (MEnd d)). assert (PageAligned (e + 1)) as Ale by (unfold e; destruct (Z.min_spec Max (MEnd d)) as [[_ ->]|[_ ->]]; done).
  assert (0 <= e /\ e + 1 < 2 ^ 64 /\ MStart d < e /\ 4096 <= e + 1) as (? & ? & ? & ?).
  { unfold PageAligned in *. assert (MStart d < e) by lia. split_and!; [lia|lia|lia|]. Z.div_mod_to_equations. lia. }
  rewrite add64_small by lia. rewrite page_down by lia.
  assert ((e + 1) / 4096 * 4096 = e + 1) as -> by (unfold PageAligned in Ale; Z.div_mod_to_equations; lia).
  rewrite sub64_small by lia. replace (e + 1 - 1) with e by lia.
  rewrite (proj2 (Z.ltb_ge e (MStart d))) by lia. rewrite (sub64_small e (MStart d)) by lia. rewrite add64_small by lia.
  rewrite (Z.ltb_antisym bytes). destruct (Z.leb_spec bytes (e - MStart d + 1)); cbn [negb andb]; [|apply IH].
  assert (add64 (sub64 e bytes) 1 = e - bytes + 1) as ->.
  { unfold add64, sub64, u64. rewrite Zplus_mod_idemp_l. apply Z.mod_small. lia. }
  rewrite (Z.ltb_antisym Min). destruct (Z.leb_spec Min (e - bytes + 1)); cbn [negb]; [|apply IH].
  unfold highest. simpl. destruct (T <? e); apply IH.
Qed.

Lemma clip_max Max :
  4095 <= Max < 2 ^ 64 ->
  (if negb (Z.land Max EFI_PAGE_MASK =? EFI_PAGE_MASK)
   then Z.lor (Z.land (sub64 Max (EFI_PAGE_MASK + 1)) (not64 EFI_PAGE_MASK)) EFI_PAGE_MASK else Max) = last_page Max.
Proof.
  intros HM. rewrite land_page_mask. unfold last_page, EFI_PAGE_MASK. destruct (Z.eqb_spec (Max mod 4096) 4095) as [E|E]; cbn [negb].
  { Z.div_mod_to_equations. lia. }
  rewrite sub64_small by (Z.div_mod_to_equations; lia). change 4095 with (4096 - 1) at 2. rewrite page_down by (Z.div_mod_to_equations; lia).
  rewrite lor_page_mask. Z.div_mod_to_equations. lia.
Qed.

(** The highest fit. *)
Lemma CoreFindFreePagesI_spec Max Min n t l :
  Forall Good l -> Max < 2 ^ 64 -> 0 <= n < 2 ^ 52 ->
  let b := CoreFindFreePagesI Max Min n t 4096 false l in
  (b ≠ 0 -> 0 < n /\ Fits l Max Min n b) /\ (forall b', 0 < n -> Fits l Max Min n b' -> b' <= b).
Proof.
  intros HG HM Hn. unfold CoreFindFreePagesI.
  destruct ((Max <? EFI_PAGE_MASK) || (n =? 0)) eqn:E0; cbn [negb].
  { split; [done|]. intros b' Hn0 (Ab & _ & Hb & d & Hd & _ & _ & Hs & He). rewrite Forall_forall in HG.
    destruct (HG d Hd) as (_ & _ & ? & _). apply orb_true_iff in E0 as [Hm0%Z.ltb_lt|E0%Z.eqb_eq]; [unfold EFI_PAGE_MASK in Hm0|]; lia. }
  apply orb_false_iff in E0 as [Hm0%Z.ltb_ge Hn0%Z.eqb_neq]. unfold EFI_PAGE_MASK in Hm0. rewrite clip_max by lia.
  assert (LShiftU64 n EFI_PAGE_SHIFT = 4096 * n) as ->.
  { unfold LShiftU64, EFI_PAGE_SHIFT. rewrite Z.shiftl_mul_pow2 by lia. rewrite u64_small by lia. lia. }
  assert (PageAligned (last_page Max + 1)) as Al by (unfold PageAligned, last_page; Z.div_mod_to_equations; lia).
  assert (4095 <= last_page Max <= Max) as Hlp by (unfold last_page; Z.div_mod_to_equations; lia).
  rewrite FindFreeLoop_highest by (done || lia).
  destruct (highest_spec (omap (candidate (last_page Max) Min (4096 * n)) l) 0) as (H1 & H2 & H3).
  set (T := highest 0 _) in *. rewrite (sub64_small (4096 * n)) by lia. rewrite HasFlag_page.
  assert (T = 0 /\ sub64 T (4096 * n - 1) mod 4096 = 1 \/
          sub64 T (4096 * n - 1) = T - 4096 * n + 1 /\ PageAligned (T - 4096 * n + 1) /\ Fits l Max Min n (T - 4096 * n + 1)) as HT.
  { destruct H3 as [->|H3]; [left; split; [done|]|right].
    - unfold sub64, u64. replace (0 - (4096 * n - 1)) with (1 + - n * 4096) by lia.
      assert ((1 + - n * 4096) mod 2 ^ 64 = 2 ^ 64 + 1 - n * 4096) as -> by (symmetry; apply (Z.mod_unique_pos _ _ (-1)); lia).
      replace (2 ^ 64 + 1 - n * 4096) with (1 + (2 ^ 52 - n) * 4096) by lia. by rewrite Z.mod_add.
    - apply list_elem_of_omap in H3 as (d & Hd & Hc). rewrite Forall_forall in HG. destruct (HG d Hd) as (_ & _ & ? & ?).
      destruct (candidate_Some _ _ _ _ _ (HG d Hd) Al Hc) as (Ht & Hsp & ? & ? & Ae & ? & ?).
      assert (PageAligned (T - 4096 * n + 1)) as Ab.
      { unfold PageAligned in *. replace (T - 4096 * n + 1) with (T + 1 + - n * 4096) by lia. rewrite Z.mod_add; [done|lia]. }
      split_and!; [rewrite sub64_small by lia; lia|done|]. split_and!; [done|done|lia|]. exists d. split_and!; [done..|lia]. }
  assert (forall b', Fits l Max Min n b' -> b' + 4096 * n - 1 <= T) as Hmax.
  { intros b' (Ab & ? & Hb & d & Hd & Ht & Hsp & ? & ?). rewrite Forall_forall in HG.
    destruct (candidate_complete (last_page Max) Min n d b') as (e & Hc & He); [done|lia|by apply HG|done..| |].
    - assert (PageAligned (b' + 4096 * n)) as Ab'.
      { unfold PageAligned in *. replace (b' + 4096 * n) with (b' + n * 4096) by lia. rewrite Z.mod_add; [done|lia]. }
      unfold last_page, PageAligned in *. Z.div_mod_to_equations. lia.
    - transitivity e; [lia|]. apply H2. apply list_elem_of_omap. by exists d. }
  destruct HT as [[HT0 ->]|(-> & Ab & HF)]; cbn [negb Z.eqb].
  - split; [done|]. intros b' _ HF. specialize (Hmax b' HF). destruct HF as (_ & _ & _ & d & Hd & _ & _ & Hs & _).
    rewrite Forall_forall in HG. destruct (HG d Hd) as (_ & _ & ? & _). lia.
  - unfold PageAligned in Ab. rewrite Ab. cbn [negb Z.eqb]. split; [intros _; split; [lia|done]|].
    intros b' _ HF'. specialize (Hmax b' HF'). lia.
Qed.

(** The search for free pages returns the highest address at which the pages
    lie in one free descriptor that is not for specific purposes, between the
    limits, and 0 only if there is no such address above 0. *)
Theorem CoreFindFreePagesI_highest Max Min n t l :
  Forall Good l -> Max < 2 ^ 64 -> 0 < n < 2 ^ 52 ->
  let b := CoreFindFreePagesI Max Min n t 4096 false l in
  (b ≠ 0 -> Fits l Max Min n b) /\ (forall b', Fits l Max Min n b' -> b' <= b).
Proof.
  intros HG HM Hn. destruct (CoreFindFreePagesI_spec Max Min n t l HG HM ltac:(lia)) as [H1 H2]. split; [intros Hb; by apply H1|intros b'; apply H2; lia].
Qed.
End Search.

(** Free memory, data, and free memory again. *)
Definition SampleMap : list MEMORY_MAP :=
  [MkMap (PageNode 0x40) EfiConventionalMemory 0x100000 0x107FFF 0xF; MkMap (PageNode 0x80) EfiBootServicesData 0x108000 0x10BFFF 0xF;
   MkMap (PageNode 0xC0) EfiConventionalMemory 0x10C000 0x10DFFF 0xF].

Lemma CoreFindFreePagesI_highest_witness :
  CoreFindFreePagesI MAX_ALLOC_ADDRESS 0 3 EfiBootServicesData 4096 false SampleMap = 0x105000 /\
  forall b', Fits SampleMap MAX_ALLOC_ADDRESS 0 3 b' -> b' <= 0x105000.
Proof.
  split; [vm_compute; reflexivity|]. refine (proj2 (CoreFindFreePagesI_highest MAX_ALLOC_ADDRESS 0 3 EfiBootServicesData SampleMap _ _ _)); [|reflexivity|lia].
  repeat constructor; unfold Good, GoodRange, PageAligned; simpl; lia.
Defined.
