(* ===== verification/PageInv.v ===== *)
(** * The page allocator: the invariant, and what allocations leave alone

    [PageInv] holds whenever the memory lock is held and between the steps of
    the services.  [Grows] relates the states before and after an operation
    that only takes memory for descriptors: memory in use stays as it is, free
    memory stays free or becomes a page of descriptors, and unmapped memory
    stays so unless untested memory is promoted. *)
From Stdlib Require Import ZArith Lia.
From stdpp Require Import base option list.
From S2P Require Import Prelude StateMonad Gcd MemoryBin Page PageMap PageOps.

Definition gcd_of (st : PageState) : list EFI_GCD_MAP_ENTRY := mGcdMemorySpaceMap (Gcd_ st).

(** What the map says about an address. *)
Definition at_address (st : PageState) (a : Z) : option (Z * Z) := look (gMemoryMap st) a.

(** The descriptors are in memory that the map says is in use for them. *)
Definition DescOk (st : PageState) : Prop :=
  forall p, PageNode p ∈ nodes_of st -> p ≠ 0 /\ exists x, at_address st p = Some (EfiBootServicesData, x).

Definition disjoint_entries (e1 e2 : EFI_GCD_MAP_ENTRY) : Prop :=
  e_EndAddress e1 < e_BaseAddress e2 \/ e_EndAddress e2 < e_BaseAddress e1.

(** Untested memory is made of whole pages that are not mapped yet. *)
Definition UntestedOk (st : PageState) : Prop :=
  forall i e, gcd_of st !! i = Some e -> Promotable e = true ->
    GoodRange (e_BaseAddress e) (e_EndAddress e) /\
    (forall a, e_BaseAddress e <= a <= e_EndAddress e -> at_address st a = None) /\
    (forall j e', gcd_of st !! j = Some e' -> Promotable e' = true -> i ≠ j -> disjoint_entries e e').

Definition Tested (st : PageState) : Prop := Forall (fun e => Promotable e = false) (gcd_of st).

Record PageInv (st : PageState) : Prop := {
  inv_wf : MapWf st;
  inv_bins : BinsOk (Bins st);
  inv_desc : DescOk st;
  inv_untested : UntestedOk st }.

(** The parts that no operation below changes. *)
Definition flags_of (st : PageState) : Z * bool * bool := (mFreeMapStack st, gMemoryLock st, gLoadFixedAddressCodeMemoryReady st).

(** From a state whose map has been changed to [m] on purpose. *)
Record GrowsFrom (m : Z -> option (Z * Z)) (st st' : PageState) : Prop := {
  grows_taken : forall a v, m a = Some v -> v.1 ≠ EfiConventionalMemory -> at_address st' a = Some v;
  grows_free : forall a x, m a = Some (EfiConventionalMemory, x) ->
    at_address st' a = Some (EfiConventionalMemory, x) \/
    at_address st' a = Some (EfiBootServicesData, x) /\ exists p, PageNode p ∈ nodes_of st' /\ p / 4096 = a / 4096;
  grows_nodes : forall p, PageNode p ∈ nodes_of st -> PageNode p ∈ nodes_of st';
  grows_new : forall p v, PageNode p ∈ nodes_of st' -> PageNode p ∉ nodes_of st -> m p = Some v -> v.1 = EfiConventionalMemory;
  grows_flags : flags_of st' = flags_of st;
  grows_gcd : mGcdMemorySpaceLock (Gcd_ st) = true -> Gcd_ st' = Gcd_ st;
  grows_tested : Tested st -> Gcd_ st' = Gcd_ st /\ forall a, m a = None -> at_address st' a = None }.

Definition Grows (st st' : PageState) : Prop := GrowsFrom (at_address st) st st'.

#[export] Instance MapNode_elem_dec (n : MapNode) (l : list MapNode) : Decision (n ∈ l).
Proof. apply _. Defined.

Lemma Tested_gcd st st' : Gcd_ st' = Gcd_ st -> Tested st -> Tested st'.
Proof. intros E. unfold Tested, gcd_of. by rewrite E. Qed.

Lemma GrowsFrom_trans m st st1 st2 : GrowsFrom m st st1 -> Grows st1 st2 -> GrowsFrom m st st2.
Proof.
  intros [T1 F1 N1 W1 L1 K1 U1] [T2 F2 N2 W2 L2 K2 U2]. split.
  - intros a v Ha Hv. apply T2; [|done]. by apply T1.
  - intros a x Ha. destruct (F1 a x Ha) as [Ha1|(Ha1 & p & Hp & E)]; [by apply F2|]. right. split; [by apply T2|].
    exists p. split; [by apply N2|done].
  - intros p Hp. by apply N2, N1.
  - intros p v Hp Hn Hv. destruct (decide (PageNode p ∈ nodes_of st1)) as [H1|H1]; [by apply (W1 p)|].
    destruct (decide (v.1 = EfiConventionalMemory)) as [?|Hc]; [done|]. by apply (W2 p v); [..|apply T1].
  - congruence.
  - intros HK. specialize (K1 HK). rewrite K2; [done|by rewrite K1].
  - intros HT. destruct (U1 HT) as [G1 H1]. destruct (U2 (Tested_gcd _ _ G1 HT)) as [G2 H2]. split; [congruence|auto].
Qed.

#[export] Instance Grows_preorder : PreOrder Grows.
Proof. split; [by intros st; split; auto|intros st1 st2 st3; apply GrowsFrom_trans]. Qed.

Lemma GrowsFrom_ext m m' st st' : (forall a, m a = m' a) -> GrowsFrom m st st' -> GrowsFrom m' st st'.
Proof.
  intros E [T F N W L K U]. split; [intros a v; rewrite <- E; apply T|intros a x; rewrite <- E; apply F|done| |done|done|].
  - intros p v H1 H2. rewrite <- E. by apply W.
  - intros HT. destruct (U HT) as [? H]. split; [done|]. intros a. rewrite <- E. apply H.
Qed.

(** A change of the map. *)
Lemma Changed_grows st st' m : Changed st st' m -> GrowsFrom m st st'.
Proof.
  intros [W L F B P _]. unfold at_address, frame_of in *. split.
  - intros a v Ha _. unfold at_address. by rewrite L.
  - intros a x Ha. left. unfold at_address. by rewrite L.
  - intros p Hp. by apply P.
  - intros p v Hp Hn. by apply P in Hp.
  - unfold flags_of. congruence.
  - intros _. congruence.
  - intros _. split; [congruence|]. intros a Ha. unfold at_address. by rewrite L.
Qed.

Lemma UntestedOk_mono st st' :
  Gcd_ st' = Gcd_ st -> (forall a, at_address st a = None -> at_address st' a = None) -> UntestedOk st -> UntestedOk st'.
Proof.
  intros EG HN HU i e. unfold UntestedOk, gcd_of in *. rewrite EG. intros Hi He. destruct (HU i e Hi He) as (H1 & H2 & H3).
  split_and!; [done|intros a Ha; by apply HN, H2|done].
Qed.

(** [Inv] and [Grows] of a change of a range that stays mapped. *)
Lemma Changed_inv st st' s r v :
  PageInv st -> Changed st st' (set_range s r (Some v) (at_address st)) ->
  (forall a, s <= a <= r -> at_address st a ≠ None) ->
  (forall p, PageNode p ∈ nodes_of st -> s <= p <= r -> v.1 = EfiBootServicesData) -> PageInv st'.
Proof.
  intros [W B D U] [W' L' F' B' P' _] Hm Hd. unfold at_address in *. split; [done|auto| |].
  - intros p Hp. apply P' in Hp. split; [by apply D|]. unfold at_address. rewrite L'. unfold set_range.
    destruct (within s r p) eqn:E; [|by apply D]. apply within_spec in E. exists v.2. rewrite <- (Hd p Hp E). by destruct v.
  - assert (Gcd_ st' = Gcd_ st) as EG by (unfold frame_of in F'; congruence). apply (UntestedOk_mono st); [done| |done].
    intros a Ha. unfold at_address. rewrite L'. unfold set_range. destruct (within s r a) eqn:E; [|done].
    apply within_spec in E. by destruct (Hm a E).
Qed.

(** Memory that is not mapped yet. *)
Lemma Changed_add_inv st st' s r v :
  PageInv st -> Changed st st' (set_range s r (Some v) (at_address st)) ->
  (forall a, s <= a <= r -> at_address st a = None) ->
  (forall i e, gcd_of st !! i = Some e -> Promotable e = true -> e_EndAddress e < s \/ r < e_BaseAddress e) -> PageInv st'.
Proof.
  intros [W B D U] [W' L' F' B' P' _] Hm Hd. unfold at_address in *. split; [done|auto| |].
  - intros p Hp. apply P' in Hp. destruct (D p Hp) as [Hp0 [x Hx]]. split; [done|]. exists x. unfold at_address in *. rewrite L'. unfold set_range.
    destruct (within s r p) eqn:E; [|done]. apply within_spec, Hm in E. congruence.
  - assert (Gcd_ st' = Gcd_ st) as EG by (unfold frame_of in F'; congruence). intros i e. unfold gcd_of. rewrite EG. intros Hi He.
    destruct (U i e Hi He) as (H1 & H2 & H3). split_and!; [done| |done]. intros a Ha. unfold at_address. rewrite L'. unfold set_range.
    destruct (within s r a) eqn:E; [|by apply H2]. apply within_spec in E. destruct (Hd i e Hi He); lia.
Qed.
