(* ===== verification/PageSteps.v ===== *)
(** * The page allocator: conversions and descriptors

    What every function that runs with the memory lock held does to the map,
    if it returns: conversions change their range, and besides only take free
    memory for descriptors ([GrowsFrom]). *)
From Stdlib Require Import ZArith Lia.
From stdpp Require Import base option list.
From S2P Require Import Prelude StateMonad Gcd MemoryBin Page PageMap PageOps PageFind PageInv.

(** The heap guard is not in use. *)
Class GuardOff {Env : PageEnvironment} : Prop := {
  no_freed_guard : FreedMemoryGuard = false;
  no_page_guard : forall t a, IsPageTypeToGuard t a = false;
  no_guarded_pages : forall st, PromoteGuardedFreePages st = Done (None, st) }.
Arguments GuardOff : clear implicits.

(** ** Statistics *)

Lemma BinsOk_store t s b : BinsOk b -> BinsOk (StoreStatistics t s b).
Proof. intros [H1 H2]. split; [|done]. simpl. by rewrite length_insert. Qed.

Lemma StatisticsOf_run t b : BinsOk b -> t <= EfiMaxMemoryType -> exists s, StatisticsOf t b = Done s.
Proof.
  intros [H1 _] Ht. unfold StatisticsOf, EfiMaxMemoryType in *. destruct (lookup_lt_is_Some_2 (mMemoryTypeStatistics b) (Z.to_nat t)) as [s ->]; [lia|].
  by exists s.
Qed.

Lemma UpdateMemoryStatistics_run o t s n b : BinsOk b -> exists b', UpdateMemoryStatistics o t s n b = Done b' /\ BinsOk b'.
Proof.
  intros HB. unfold UpdateMemoryStatistics. destruct (negb _); [by exists b|].
  match goal with |- exists b', (?m ≫= _) = _ /\ _ => assert (exists b1, m = Done b1 /\ BinsOk b1) as (b1 & -> & HB1) end.
  { destruct (Z.ltb_spec o EfiMaxMemoryType); [|by exists b]. destruct (StatisticsOf_run o b HB ltac:(lia)) as [x ->]. simpl.
    destruct (Counted s x b); [|by exists b]. eexists. split; [done|by apply BinsOk_store]. }
  simpl. destruct (Z.ltb_spec t EfiMaxMemoryType); [|by exists b1]. destruct (StatisticsOf_run t b1 HB1 ltac:(lia)) as [x ->]. simpl.
  destruct (Counted s x b1); [|by exists b1]. set (b2 := StoreStatistics t _ b1).
  assert (BinsOk b2) as HB2 by (by apply BinsOk_store). destruct (Z.ltb_spec (InformationIndex x) EfiMaxMemoryType); [|by exists b2].
  destruct (lookup_lt_is_Some_2 (gMemoryTypeInformation b1) (Z.to_nat (InformationIndex x))) as [i Hi].
  { destruct HB1 as [_ ->]. unfold EfiMaxMemoryType in *. lia. }
  rewrite Hi. destruct (_ <? _); [|by exists b2]. eexists. split; [done|]. split; [apply HB2|]. simpl. rewrite length_insert. apply HB1.
Qed.

(** ** Finding the descriptor *)

Lemma FindEntry_Some a l d : FindEntry a l = Some d -> d ∈ l /\ MStart d <= a < MEnd d.
Proof.
  induction l as [|e l IH]; [done|]. simpl. destruct (_ && _) eqn:E.
  - intros [= <-]. bool_to_Z. split; [by left|lia].
  - intros H. destruct (IH H). split; [by right|done].
Qed.

Lemma FindEntry_None a l : FindEntry a l = None -> forall d, d ∈ l -> ~ MStart d <= a < MEnd d.
Proof.
  induction l as [|e l IH]; [by intros _ d ?%elem_of_nil|]. simpl. destruct (_ && _) eqn:E; [done|].
  intros H d [->|Hd]%elem_of_cons; [|by apply IH]. intros Ha. bool_to_Z. lia.
Qed.

Lemma FindEntry_look st a : MapWf st -> PageAligned a -> value <$> FindEntry a (gMemoryMap st) = at_address st a.
Proof.
  intros Hw Ha. destruct (wf_map st Hw) as (HG & HS & _). rewrite Forall_forall in HG. destruct (FindEntry a (gMemoryMap st)) as [d|] eqn:E; simpl; symmetry.
  - apply FindEntry_Some in E as [Hd ?]. apply look_Some; [done|]. exists d. split_and!; [done|unfold inside; lia|done].
  - apply look_None. intros d Hd Hi. apply (FindEntry_None a _ E d Hd). destruct (HG d Hd) as (_ & Ae & _ & _).
    unfold inside, PageAligned in *. Z.div_mod_to_equations. lia.
Qed.

Lemma PullOut_value d s r st d' st' : PullOut d s r st = Done (d', st') -> value d' = value d.
Proof.
  unfold PullOut. destruct (_ =? _); [intros; by sm_inv|]. destruct (_ =? _); [intros; by sm_inv|]. intros. by sm_inv.
Qed.

(** ** One round of a conversion *)

Definition NewValue (ct : bool) (t x : Z) (d : MEMORY_MAP) : Z * Z := if ct then (t, MAttribute d) else (MType d, x).

(** The conversion of a piece is refused. *)
Definition Refused (e : Z) (ct : bool) (t : Z) (d : MEMORY_MAP) : bool :=
  ct && negb (t =? EfiConventionalMemory) && (MEnd d <? e) ||
  ct && Bool.eqb (t =? EfiConventionalMemory) (MType d =? EfiConventionalMemory).

Section Steps.
Context {Env : PageEnvironment} {Off : GuardOff Env}.

Lemma TakeOut_bind {B} d s r (k : MEMORY_MAP -> PM B) st :
  (Entry ← PullOut d s r;
   (if MStart Entry =? add64 (MEnd Entry) 1 then RemoveMemoryMapEntry Entry else mret tt) ;; k Entry) st = (TakeOut d s r ≫= k) st.
Proof.
  unfold TakeOut, mbind, SM_bind. destruct (PullOut d s r st) as [[d' st1]| |]; [|done..].
  destruct (MStart d' =? add64 (MEnd d') 1); [|done]. by rewrite RemoveMemoryMapEntry_run.
Qed.

Lemma TakeOut_value d s r st d' st' : TakeOut d s r st = Done (d', st') -> value d' = value d.
Proof. unfold TakeOut. intros. sm_inv. by eapply PullOut_value. Qed.

Lemma ConvertLoop_round FS fuel s e n ct t ca x st d :
  BinsOk (Bins st) -> s < e -> FindEntry s (gMemoryMap st) = Some d -> Refused e ct t d = false ->
  let r := if MEnd d <? e then MEnd d else e in
  exists b, BinsOk b /\ ConvertLoop FS (S fuel) s e n ct t ca x st =
    (Replace d s r (NewValue ct t x d).1 (NewValue ct t x d).2 ;; FS ;; ConvertLoop FS fuel (add64 r 1) e n ct t ca x) (SetBins b st).
Proof using Off.
  intros HB Hs HF HR r. cbn [ConvertLoop]. rewrite (proj2 (Z.ltb_lt s e)) by done. cbn [negb].
  rewrite (SM_bind_run _ _ st _ st eq_refl), HF. unfold Refused in HR. apply orb_false_iff in HR as [-> ->]. fold r. rewrite no_freed_guard.
  assert (exists b, BinsOk b /\ (if ct then OnBins (UpdateMemoryStatistics (MType d) t s n) else mret tt) st = Done (tt, SetBins b st)) as (b & Hb & E).
  { destruct ct; [|exists (Bins st); split; [done|]; by destruct st].
    destruct (UpdateMemoryStatistics_run (MType d) t s n (Bins st) HB) as (b & E & Hb). exists b. split; [done|]. unfold OnBins, Within. by rewrite E. }
  exists b. split; [done|]. rewrite (SM_bind_run _ _ _ _ _ E), TakeOut_bind. cbn [negb orb].
  unfold Replace, mbind, SM_bind. destruct (TakeOut d s r (SetBins b st)) as [[d' st1]| |] eqn:ET; [|done..].
  apply TakeOut_value in ET. unfold value in ET. injection ET as Et Ex. unfold NewValue. rewrite Et, Ex. destruct ct; done.
Qed.

Lemma ConvertLoop_none FS fuel s e n ct t ca x st :
  s < e -> (FindEntry s (gMemoryMap st) = None \/ exists d, FindEntry s (gMemoryMap st) = Some d /\ Refused e ct t d = true) ->
  ConvertLoop FS (S fuel) s e n ct t ca x st = Done (EFI_NOT_FOUND, st).
Proof using.
  intros Hs HF. cbn [ConvertLoop]. rewrite (proj2 (Z.ltb_lt s e)) by done. cbn [negb]. rewrite (SM_bind_run _ _ st _ st eq_refl).
  destruct HF as [->|(d & -> & HR)]; [done|]. unfold Refused in HR. apply orb_true_iff in HR. destruct (_ && (MEnd d <? e)); [done|].
  destruct HR as [?| ->]; [done|]. done.
Qed.

Lemma ConvertLoop_end FS fuel s e n ct t ca x st : e <= s -> ConvertLoop FS fuel s e n ct t ca x st = Done (EFI_SUCCESS, st).
Proof using. intros H. destruct fuel; cbn [ConvertLoop]; by rewrite (proj2 (Z.ltb_ge s e)) by done. Qed.

(** ** Conversions *)

(** Runs keep the invariant and take memory for descriptors only. *)
Definition Grow {A} (m : PM A) : Prop :=
  forall st a st', PageInv st -> gMemoryLock st = true -> m st = Done (a, st') -> PageInv st' /\ Grows st st'.

Lemma PageInv_bins b st : BinsOk b -> PageInv st -> PageInv (SetBins b st).
Proof using. intros Hb [[] _ ? ?]. by split. Qed.

Lemma Grows_lock m st st' : GrowsFrom m st st' -> gMemoryLock st' = gMemoryLock st.
Proof using. intros [_ _ _ _ H _ _]. unfold flags_of in H. congruence. Qed.

Lemma GrowsFrom_bins b m st st' : GrowsFrom m (SetBins b st) st' -> GrowsFrom m st st'.
Proof using. intros [T F N W L K U]. split; [exact T|exact F|exact N|exact W|exact L|exact K|exact U]. Qed.

(** The range has been given the type [t] that it did not have. *)
Definition Took (s e t : Z) (st st' : PageState) : Prop :=
  exists x, (forall a, s <= a <= e -> at_address st a = Some (EfiConventionalMemory, x)) /\
    GrowsFrom (set_range s e (Some (t, x)) (at_address st)) st st'.

Lemma look_inside st d a : MapWf st -> d ∈ gMemoryMap st -> inside a d -> at_address st a = Some (value d).
Proof using. intros Hw Hd Ha. destruct (wf_map st Hw) as (_ & HS & _). apply look_Some; [done|]. by exists d. Qed.

Lemma Replace_Done d s r t x st u st' :
  MapWf st -> gMemoryLock st = true -> d ∈ gMemoryMap st -> GoodRange s r -> MStart d <= s -> r <= MEnd d ->
  Replace d s r t x st = Done (u, st') -> Changed st st' (set_range s r (Some (t, x)) (at_address st)).
Proof using.
  intros Hw Hl Hd Hsr Hs Hr E. destruct (Replace_run d s r t x st Hw Hl Hd Hsr Hs Hr) as [[E' _]|(st1 & E' & _ & HC)]; [congruence|].
  rewrite E in E'. by injection E' as _ ->.
Qed.

(** The piece of a range in a descriptor. *)
Lemma piece_good st d s e :
  MapWf st -> d ∈ gMemoryMap st -> MStart d <= s < MEnd d -> PageAligned s -> PageAligned (e + 1) -> s < e ->
  let r := if MEnd d <? e then MEnd d else e in GoodRange s r /\ r <= MEnd d /\ r <= e /\ (r < e -> r = MEnd d).
Proof using.
  intros Hw Hd Hs As Ae Hse r. destruct (wf_map st Hw) as (HG & _). rewrite Forall_forall in HG. destruct (HG d Hd) as (? & ? & ? & ?).
  unfold r. destruct (Z.ltb_spec (MEnd d) e); split_and!; try lia; split_and!; done || lia.
Qed.

(** The memory of a range becomes free. *)
Definition freed_range (s e : Z) (m : Z -> option (Z * Z)) (a : Z) : option (Z * Z) :=
  if within s e a then (fun v => (EfiConventionalMemory, v.2)) <$> m a else m a.

(** The range is in use and not for descriptors. *)
Definition Owned (st : PageState) (s e : Z) : Prop :=
  (forall a, s <= a <= e -> exists v, at_address st a = Some v /\ v.1 ≠ EfiConventionalMemory) /\
  forall p, PageNode p ∈ nodes_of st -> ~ s <= p <= e.

Lemma within_false s e a : within s e a = false <-> ~ s <= a <= e.
Proof using. rewrite <- within_spec. by destruct (within s e a). Qed.

Lemma freed_in s e m a v : freed_range s e m a = Some v ->
  s <= a <= e /\ v.1 = EfiConventionalMemory /\ (exists t, m a = Some (t, v.2)) \/ ~ s <= a <= e /\ m a = Some v.
Proof using.
  unfold freed_range. destruct (within s e a) eqn:E.
  - apply within_spec in E. intros ([t x] & -> & Ea)%fmap_Some. left. split; [done|]. split; [by subst v|]. exists t. by subst v.
  - apply within_false in E. by right.
Qed.

Lemma freed_out s e m a : ~ s <= a <= e -> freed_range s e m a = m a.
Proof using. intros H%within_false. unfold freed_range. by rewrite H. Qed.

Lemma freed_at s e m a t x : s <= a <= e -> m a = Some (t, x) -> freed_range s e m a = Some (EfiConventionalMemory, x).
Proof using. intros H%within_spec E. unfold freed_range. by rewrite H, E. Qed.

Lemma freed_compose s r e st st1 st2 :
  Owned st s e -> s <= r < e -> GrowsFrom (freed_range s r (at_address st)) st st1 ->
  GrowsFrom (freed_range (r + 1) e (at_address st1)) st1 st2 -> GrowsFrom (freed_range s e (at_address st)) st st2.
Proof using.
  intros [HO _] Hr [T1 F1 N1 W1 L1 K1 U1] [T2 F2 N2 W2 L2 K2 U2].
  assert (forall a v, ~ s <= a <= e -> at_address st a = Some v -> v.1 ≠ EfiConventionalMemory -> at_address st1 a = Some v) as HT.
  { intros a v Ha E Hv. apply T1; [|done]. rewrite freed_out; [done|lia]. }
  split.
  - intros a v [(_ & ? & _)|[Ha E]]%freed_in Hv; [done|]. apply T2; [|done]. rewrite freed_out by lia. by apply HT.
  - intros a x H. assert (freed_range (r + 1) e (at_address st1) a = Some (EfiConventionalMemory, x) \/
      at_address st1 a = Some (EfiBootServicesData, x) /\ (~ r + 1 <= a <= e) /\ exists p, PageNode p ∈ nodes_of st1 /\ p / 4096 = a / 4096) as HH.
    { destruct (decide (r + 1 <= a <= e)) as [Ha|Ha].
      - left. destruct (HO a ltac:(lia)) as ([t y] & E & Ht). apply freed_in in H as [(_ & _ & t' & E')|[? _]]; [|lia]. simpl in E'.
        apply (freed_at _ _ _ _ t); [done|]. apply T1; [|done]. rewrite freed_out by lia. congruence.
      - rewrite freed_out by done. assert (freed_range s r (at_address st) a = Some (EfiConventionalMemory, x)) as E.
        { apply freed_in in H as [(? & _ & t & E)|[? E]]; [apply (freed_at _ _ _ _ t); [lia|done]|rewrite freed_out; [done|lia]]. }
        destruct (F1 a x E) as [?|[? ?]]; [by left|by right]. }
    destruct HH as [HH|(E & Ha & p & Hp & Hpa)]; [by apply F2|]. right. split; [|exists p; split; [by apply N2|done]].
    apply T2; [by rewrite freed_out|done].
  - intros p Hp. by apply N2, N1.
  - intros p v Hp Hn [(_ & ? & _)|[Ha E]]%freed_in; [done|]. destruct (decide (v.1 = EfiConventionalMemory)) as [?|Hv]; [done|].
    destruct (decide (PageNode p ∈ nodes_of st1)) as [H1|H1].
    + apply (W1 p v H1 Hn). rewrite freed_out by lia. done.
    + apply (W2 p v Hp H1). rewrite freed_out by lia. by apply HT.
  - congruence.
  - intros HK. specialize (K1 HK). rewrite K2; [done|by rewrite K1].
  - intros Ht. destruct (U1 Ht) as [G1 H1]. destruct (U2 (Tested_gcd _ _ G1 Ht)) as [G2 H2]. split; [congruence|].
    assert (forall s e m a, freed_range s e m a = None <-> m a = None) as HN.
    { intros s0 e0 m a. unfold freed_range. destruct (within s0 e0 a); [|done]. by rewrite fmap_None. }
    intros a. rewrite HN. intros E. apply H2, HN, H1, HN, E.
Qed.

(** The stack is emptied, unless that is already being done. *)
Definition Empties (FS : PM unit) : Prop := forall st u st', mFreeMapStack st = 0 -> FS st = Done (u, st') -> mMapDepth st' = 0%nat.

(** The stack stays empty. *)
Definition Rests (FS : PM unit) (st st' : PageState) : Prop :=
  Empties FS -> mFreeMapStack st = 0 -> mMapDepth st = 0%nat -> mMapDepth st' = 0%nat.

Lemma Changed_flags st st' m : Changed st st' m -> mFreeMapStack st' = mFreeMapStack st.
Proof using. intros [_ _ F _ _ _]. unfold frame_of in F. congruence. Qed.

Lemma Grows_flag m st st' : GrowsFrom m st st' -> mFreeMapStack st' = mFreeMapStack st.
Proof using. intros G. pose proof (grows_flags _ _ _ G) as F. unfold flags_of in F. congruence. Qed.

Lemma Rests_refl FS st : Rests FS st st.
Proof using. by intros ? ? ?. Qed.

Lemma Rests_trans FS st st1 st2 : mFreeMapStack st1 = mFreeMapStack st -> Rests FS st st1 -> Rests FS st1 st2 -> Rests FS st st2.
Proof using. intros E H1 H2 HE HZ HD. apply H2; [done|congruence|by apply H1]. Qed.

(** The range is not in one descriptor that can be converted. *)
Definition Unfit (st : PageState) (s e t : Z) : Prop :=
  FindEntry s (gMemoryMap st) = None \/ exists d, FindEntry s (gMemoryMap st) = Some d /\ Refused e true t d = true.

Section Knot.
Context (FS : PM unit) (HFS : Grow FS).

Lemma Convert_take fuel s e n t st Status st' :
  PageInv st -> gMemoryLock st = true -> PageAligned s -> PageAligned (e + 1) -> s < e -> t ≠ EfiConventionalMemory ->
  ConvertLoop FS fuel s e n true t false 0 st = Done (Status, st') ->
  Status = EFI_NOT_FOUND /\ st' = st /\ Unfit st s e t \/ Status = EFI_SUCCESS /\ PageInv st' /\ Took s e t st st' /\ Rests FS st st'.
Proof using Off HFS.
  intros HI Hl As Ae Hs Ht E. destruct fuel as [|fuel].
  { cbn [ConvertLoop] in E. rewrite (proj2 (Z.ltb_lt s e)) in E by done. done. }
  destruct (FindEntry s (gMemoryMap st)) as [d|] eqn:EF.
  2: { rewrite ConvertLoop_none in E by (done || by left). injection E as <- ->. left. split_and!; [done..|by left]. }
  destruct (Refused e true t d) eqn:ER.
  { rewrite ConvertLoop_none in E by (done || right; by exists d). injection E as <- ->. left. split_and!; [done..|right; by exists d]. }
  destruct (ConvertLoop_round FS fuel s e n true t false 0 st d (inv_bins st HI) Hs EF ER) as (b & Hb & Eq). rewrite Eq in E. clear Eq.
  unfold Refused in ER. apply orb_false_iff in ER as [ER1 ER2]. rewrite (proj2 (Z.eqb_neq t _) Ht) in ER1, ER2. simpl in ER1, ER2.
  rewrite ER1 in E. apply Z.ltb_ge in ER1. destruct (Z.eqb_spec (MType d) EfiConventionalMemory) as [Hc|]; [|done].
  apply FindEntry_Some in EF as [Hd Hds]. pose proof (PageInv_bins b st Hb HI) as HIb. pose proof (inv_wf st HI) as Hw.
  destruct (piece_good st d s e Hw Hd Hds As Ae Hs) as (HG & _). rewrite (proj2 (Z.ltb_ge (MEnd d) e)) in HG by done.
  apply SM_bind_Done in E as (u1 & st1 & E1 & E). apply SM_bind_Done in E as (u2 & st2 & E2 & E).
  apply Replace_Done in E1 as HC; [|apply HIb|done..|lia|done].
  assert (forall a, s <= a <= e -> at_address st a = Some (EfiConventionalMemory, MAttribute d)) as Hat.
  { intros a Ha. rewrite (look_inside st d a Hw Hd) by (unfold inside; lia). unfold value. by rewrite Hc. }
  destruct (HFS st1 u2 st2) as [HI2 HG2]; [| |done|].
  - eapply (Changed_inv (SetBins b st)); [done|done| |].
    + intros a Ha. change (at_address st a ≠ None). by rewrite Hat.
    + intros p Hp Ha. destruct (inv_desc st HI p Hp) as [_ [y Hy]]. rewrite Hat in Hy by done. done.
  - rewrite (Grows_lock _ _ _ (Changed_grows _ _ _ HC)). done.
  - destruct HG as (_ & _ & ? & ?).
    rewrite ConvertLoop_end in E by (rewrite add64_small; lia). injection E as <- <-.
    right. split_and!; [done|done| |].
    + exists (MAttribute d). split; [done|]. eapply GrowsFrom_trans; [|done]. apply (GrowsFrom_bins b), (Changed_grows _ _ _ HC).
    + intros HE HZ _. eapply HE; [|exact E2]. by rewrite (Changed_flags _ _ _ HC).
Qed.

(** The next piece of an owned range. *)
Lemma Owned_find st s e : PageInv st -> Owned st s e -> PageAligned s -> s < e ->
  exists d, FindEntry s (gMemoryMap st) = Some d /\ MType d ≠ EfiConventionalMemory.
Proof using.
  intros HI [HO _] As Hs. destruct (HO s ltac:(lia)) as (v & E & Hv). rewrite <- (FindEntry_look st s (inv_wf st HI) As) in E.
  apply fmap_Some in E as (d & E & ->). by exists d.
Qed.

Lemma Owned_grows st st1 s e : Owned st s e -> Grows st st1 -> Owned st1 s e.
Proof using.
  intros [HO HN] [T F N W _ _ _]. split.
  - intros a Ha. destruct (HO a Ha) as (v & E & Hv). exists v. split; [by apply T|done].
  - intros p Hp Ha. destruct (decide (PageNode p ∈ nodes_of st)) as [H|H]; [by apply (HN p H)|].
    destruct (HO p Ha) as (v & E & Hv). by apply Hv, (W p).
Qed.

Lemma Convert_free fuel n : forall s e st Status st',
  PageInv st -> gMemoryLock st = true -> PageAligned s -> PageAligned (e + 1) -> s < e -> Owned st s e ->
  ConvertLoop FS fuel s e n true EfiConventionalMemory false 0 st = Done (Status, st') ->
  Status = EFI_SUCCESS /\ PageInv st' /\ GrowsFrom (freed_range s e (at_address st)) st st' /\ Rests FS st st'.
Proof using Off HFS.
  induction fuel as [|fuel IH]; intros s e st Status st' HI Hl As Ae Hs HO E.
  { cbn [ConvertLoop] in E. rewrite (proj2 (Z.ltb_lt s e)) in E by done. done. }
  destruct (Owned_find st s e HI HO As Hs) as (d & EF & Hc).
  assert (Refused e true EfiConventionalMemory d = false) as ER by (unfold Refused; simpl; by rewrite (proj2 (Z.eqb_neq (MType d) _) Hc)).
  destruct (ConvertLoop_round FS fuel s e n true EfiConventionalMemory false 0 st d (inv_bins st HI) Hs EF ER) as (b & Hb & Eq). rewrite Eq in E. clear Eq.
  apply FindEntry_Some in EF as [Hd Hds]. pose proof (PageInv_bins b st Hb HI) as HIb. pose proof (inv_wf st HI) as Hw.
  destruct (piece_good st d s e Hw Hd Hds As Ae Hs) as (HG & Hrd & Hre & Hr). set (r := if MEnd d <? e then MEnd d else e) in *.
  apply SM_bind_Done in E as (u1 & st1 & E1 & E). apply SM_bind_Done in E as (u2 & st2 & E2 & E).
  apply Replace_Done in E1 as HC; [|apply HIb|done..|lia|done]. cbn [NewValue fst snd] in HC.
  assert (forall a, s <= a <= r -> at_address st a = Some (value d)) as Hat by (intros a Ha; apply look_inside; [done..|unfold inside; lia]).
  assert (GrowsFrom (freed_range s r (at_address st)) st st1) as HG1.
  { eapply GrowsFrom_ext; [|apply (GrowsFrom_bins b), (Changed_grows _ _ _ HC)]. intros a. unfold set_range, freed_range.
    destruct (within s r a) eqn:Ew; [|done]. apply within_spec in Ew. by rewrite Hat. }
  assert (gMemoryLock st1 = true) as Hl1 by (by rewrite (Grows_lock _ _ _ HG1)).
  destruct (HFS st1 u2 st2) as [HI2 HG2]; [|done|done|].
  { eapply (Changed_inv (SetBins b st)); [done|done| |].
    + intros a Ha. change (at_address st a ≠ None). by rewrite Hat.
    + intros p Hp Ha. destruct (proj2 HO p Hp). lia. }
  assert (Rests FS st st2) as HR2 by (intros HE HZ _; eapply HE; [|exact E2]; by rewrite (Grows_flag _ _ _ HG1)).
  pose proof (GrowsFrom_trans _ _ _ _ HG1 HG2) as HG12. assert (gMemoryLock st2 = true) as Hl2 by (by rewrite (Grows_lock _ _ _ HG2)).
  destruct HG as (_ & Ar & ? & ?). destruct (decide (r < e)) as [Hlt|Hge].
  - rewrite add64_small in E by lia.
    assert (Owned st1 (r + 1) e) as HO1.
    { split.
      - intros a Ha. destruct (proj1 HO a ltac:(lia)) as (v & Ea & Hv). exists v. split; [|done]. apply HG1; [|done]. rewrite freed_out by lia. done.
      - intros p Hp Ha. apply (changed_pages _ _ _ HC) in Hp. apply (proj2 HO p Hp). lia. }
    assert (r + 1 < e) by (unfold PageAligned in *; Z.div_mod_to_equations; lia).
    destruct (IH (r + 1) e st2 Status st' HI2 Hl2 Ar Ae ltac:(lia) (Owned_grows _ _ _ _ HO1 HG2) E) as (-> & HI' & HG' & HR').
    split_and!; [done|done|eapply (freed_compose s r e); [done|lia|done|done]|].
    intros HE HZ HD. apply HR'; [done| |by apply HR2]. by rewrite (Grows_flag _ _ _ HG12).
  - assert (r = e) as Er by lia. rewrite ConvertLoop_end in E by (rewrite add64_small; lia). injection E as <- <-. rewrite Er in HG12. by split_and!.
Qed.

(** A change of attributes keeps the invariant. *)
Lemma Convert_attributes fuel n x : forall s e st Status st',
  PageInv st -> gMemoryLock st = true -> PageAligned s -> PageAligned (e + 1) ->
  ConvertLoop FS fuel s e n false 0 true x st = Done (Status, st') -> PageInv st' /\ flags_of st' = flags_of st /\ Rests FS st st'.
Proof using Off HFS.
  induction fuel as [|fuel IH]; intros s e st Status st' HI Hl As Ae E.
  { cbn [ConvertLoop] in E. destruct (negb (s <? e)); [|done]. injection E as _ ->. by split_and!; [..|intros ? ? ?]. }
  destruct (Z.ltb_spec s e) as [Hs|Hs]; [|rewrite ConvertLoop_end in E by done; injection E as _ ->; by split_and!; [..|intros ? ? ?]].
  destruct (FindEntry s (gMemoryMap st)) as [d|] eqn:EF.
  2: { rewrite ConvertLoop_none in E by (done || by left). injection E as _ ->. by split_and!; [..|intros ? ? ?]. }
  destruct (ConvertLoop_round FS fuel s e n false 0 true x st d (inv_bins st HI) Hs EF eq_refl) as (b & Hb & Eq). rewrite Eq in E. clear Eq.
  apply FindEntry_Some in EF as [Hd Hds]. pose proof (PageInv_bins b st Hb HI) as HIb. pose proof (inv_wf st HI) as Hw.
  destruct (piece_good st d s e Hw Hd Hds As Ae Hs) as (HG & Hrd & Hre & Hr). set (r := if MEnd d <? e then MEnd d else e) in *.
  apply SM_bind_Done in E as (u1 & st1 & E1 & E). apply SM_bind_Done in E as (u2 & st2 & E2 & E).
  apply Replace_Done in E1 as HC; [|apply HIb|done..|lia|done]. cbn [NewValue fst snd] in HC.
  assert (forall a, s <= a <= r -> at_address st a = Some (value d)) as Hat by (intros a Ha; apply look_inside; [done..|unfold inside; lia]).
  pose proof (GrowsFrom_bins b _ _ _ (Changed_grows _ _ _ HC)) as HG1.
  destruct (HFS st1 u2 st2) as [HI2 HG2]; [|by rewrite (Grows_lock _ _ _ HG1)|done|].
  { eapply (Changed_inv (SetBins b st)); [done|done| |].
    + intros a Ha. change (at_address st a ≠ None). by rewrite Hat.
    + intros p Hp Ha. destruct (inv_desc st HI p Hp) as [_ [y Hy]]. rewrite Hat in Hy by done. unfold value in Hy. simpl. congruence. }
  destruct HG as (_ & Ar & ? & ?). rewrite add64_small in E by lia.
  destruct (IH (r + 1) e st2 Status st' HI2) as (HI' & HF' & HR'); [by rewrite (Grows_lock _ _ _ HG2), (Grows_lock _ _ _ HG1)|done|done|done|].
  split_and!; [done|by rewrite HF', (grows_flags _ _ _ HG2), (grows_flags _ _ _ HG1)|].
  intros HE HZ _. pose proof (Grows_flag _ _ _ HG1) as F1. pose proof (Grows_flag _ _ _ HG2) as F2.
  apply HR'; [done|congruence|]. eapply HE; [|exact E2]. congruence.
Qed.
End Knot.
End Steps.
