(* ===== verification/PageStack.v ===== *)
(** * The page allocator: descriptors in pages

    The functions that run while the memory lock is held keep the invariant and
    take free memory for descriptors only ([Grow]): promotion of untested
    memory, the search for pages, the supply of descriptors and the emptying of
    the descriptor stack, which calls them again. *)
From Stdlib Require Import ZArith Lia.
From stdpp Require Import base option list.
From S2P Require Import Prelude StateMonad Gcd MemoryBin Page PageMap PageOps PageFind PageInv PageSteps.

(** ** Composing programs *)

Section Compose.
Context {Env : PageEnvironment}.

Lemma Grow_ret {A} (a : A) : Grow (mret a).
Proof. intros st b st' HI _ [_ ->]%SM_ret_Done. by split. Qed.

Lemma Grow_Get {A} (f : PageState -> A) : Grow (Get f).
Proof. intros st b st' HI _ [_ ->]%Get_Done. by split. Qed.

Lemma Grow_Assert b : Grow (Assert b).
Proof. intros st u st' HI _ [_ ->]%Assert_Done. by split. Qed.

Lemma Grow_NoFuel {A} : Grow (A:=A) NoFuel.
Proof. done. Qed.

Lemma Grow_bind {A B} (m : PM A) (f : A -> PM B) : Grow m -> (forall a, Grow (f a)) -> Grow (m ≫= f).
Proof.
  intros Hm Hf st b st' HI Hl (a & st1 & E1 & E2)%SM_bind_Done. destruct (Hm st a st1 HI Hl E1) as [HI1 G1].
  destruct (Hf a st1 b st' HI1) as [HI2 G2]; [by rewrite (Grows_lock _ _ _ G1)|done|]. split; [done|by transitivity st1].
Qed.

(** The same map and descriptors. *)
Lemma Same_grow st st' :
  PageInv st -> MapWf st' -> BinsOk (Bins st') -> (forall a, at_address st' a = at_address st a) ->
  (forall p, PageNode p ∈ nodes_of st' <-> PageNode p ∈ nodes_of st) -> frame_of st' = frame_of st -> PageInv st' /\ Grows st st'.
Proof.
  intros [W B D U] W' B' EA EN EF. unfold frame_of in EF. split.
  - split; [done|done| |].
    + intros p Hp%EN. rewrite EA. by apply D.
    + apply (UntestedOk_mono st); [congruence|intros a; by rewrite EA|done].
  - split; [intros a v; by rewrite EA|intros a x; rewrite EA; by left|intros p; by rewrite EN|intros p v Hp%EN; done| | |].
    + unfold flags_of. congruence.
    + intros _. congruence.
    + intros _. split; [congruence|]. intros a. by rewrite EA.
Qed.

Lemma Grow_bins (f : PageState -> BinState) : (forall st, BinsOk (Bins st) -> BinsOk (f st)) -> Grow (Change (fun st => SetBins (f st) st)).
Proof.
  intros Hf st u st' HI _ ->%Change_Done. apply Same_grow; [done| |apply Hf, HI|done..]. by destruct (inv_wf st HI).
Qed.
End Compose.

#[export] Hint Resolve Grow_ret Grow_Get Grow_Assert Grow_NoFuel : pages.

(** Goes through a program. *)
Ltac grow_step :=
  match goal with
  | |- Grow (_ ≫= _) => apply Grow_bind; [|intros ?]
  | |- Grow (if ?b then _ else _) => destruct b
  | |- Grow (match ?b with _ => _ end) => destruct b
  | |- _ => solve [auto with pages]
  end.
Ltac grow := repeat grow_step.

(** ** Promotion of untested memory *)

(** The memory space lock of the GCD. *)
Definition GcdHeld (st : PageState) : Prop := mGcdMemorySpaceLock (Gcd_ st) = true.
Definition Unlocked (st : PageState) : PageState := SetGcd (SetLock false false (Gcd_ st)) st.

Lemma Unlocked_id st : mGcdMemorySpaceLock (Gcd_ st) = false -> Unlocked st = st.
Proof. destruct st as [? ? ? ? ? ? ? ? ? []]. unfold Unlocked, SetGcd, SetLock. simpl. by intros ->. Qed.

Lemma Grows_unlocked st st' : GcdHeld st -> Grows st st' -> GcdHeld st' /\ Grows (Unlocked st) (Unlocked st').
Proof.
  intros HK [T F N W L K U]. assert (Gcd_ st' = Gcd_ st) as E by (by apply K). split; [unfold GcdHeld; by rewrite E|].
  split; [exact T|exact F|exact N|exact W|exact L|done|]. intros HT. unfold Unlocked. simpl. rewrite E. split; [done|].
  intros a Ha. by apply U.
Qed.

Section Promotion.
Context {Env : PageEnvironment} {Off : GuardOff Env}.

Lemma Promote_tested e : Promotable (Promote e) = false.
Proof using. unfold Promotable, Promote. cbn -[Z.land Z.lor Z.eqb]. destruct (_ =? EFI_MEMORY_MORE_RELIABLE); reflexivity. Qed.

(** The entry [i] of the GCD is marked as tested. *)
Definition Mark (i : nat) (e : EFI_GCD_MAP_ENTRY) (st : PageState) : PageState :=
  SetGcd (SetMap false (<[i := Promote e]> (mGcdMemorySpaceMap (Gcd_ st))) (Gcd_ st)) st.

Lemma Mark_promotable i e st j e' :
  gcd_of (Mark i e st) !! j = Some e' -> Promotable e' = true -> j ≠ i /\ gcd_of st !! j = Some e'.
Proof using.
  change (gcd_of (Mark i e st)) with (<[i := Promote e]> (gcd_of st)). intros [(-> & <- & _)|[? ?]]%list_lookup_insert_Some Hp.
  - by rewrite Promote_tested in Hp.
  - done.
Qed.

Lemma Mark_inv i e st : PageInv st -> PageInv (Mark i e st).
Proof using.
  intros [[] B D U]. split; [by split|done|done|]. intros j e' Hj Hp. destruct (Mark_promotable _ _ _ _ _ Hj Hp) as [? Hj'].
  destruct (U j e' Hj' Hp) as (H1 & H2 & H3). split_and!; [done|done|]. intros k e'' Hk Hp'. destruct (Mark_promotable _ _ _ _ _ Hk Hp'). by apply H3.
Qed.

Lemma Changed_promoted i e st st2 v :
  gcd_of st !! i = Some e -> Promotable e = true -> PageInv st ->
  Changed (Mark i e st) st2 (set_range (e_BaseAddress e) (e_EndAddress e) (Some v) (at_address (Mark i e st))) ->
  PageInv st2 /\ Grows (Unlocked st) (Unlocked st2).
Proof using.
  intros Hi Hp HI HC. destruct (inv_untested st HI i e Hi Hp) as (_ & HN & HD). split.
  - eapply Changed_add_inv; [by apply Mark_inv|done|done|]. intros j e' Hj' Hp'. destruct (Mark_promotable _ _ _ _ _ Hj' Hp') as [Hne Hj].
    destruct (HD j e' Hj Hp' ltac:(congruence)); lia.
  - destruct HC as [_ L F _ P _]. assert (forall a w, at_address st a = Some w -> at_address st2 a = Some w) as HA.
    { intros a w Ha. unfold at_address in *. rewrite L. unfold set_range. destruct (within _ _ a) eqn:E; [|done].
      apply within_spec, HN in E. congruence. }
    split.
    + intros a w Ha _. by apply HA.
    + intros a x Ha. left. by apply HA.
    + intros p H. by apply P.
    + intros p w H Hn. by apply P in H.
    + unfold flags_of, frame_of in *. simpl in *. congruence.
    + done.
    + intros HT. unfold Tested in HT. rewrite Forall_lookup in HT. rewrite (HT i e Hi) in Hp. done.
Qed.

Context (FS : PM unit) (HFS : Grow FS).

Lemma PromoteLoop_grow Links : forall i P st r st',
  PageInv st -> gMemoryLock st = true -> GcdHeld st -> Links = drop i (gcd_of st) ->
  PromoteLoop FS Links i P st = Done (r, st') -> PageInv st' /\ GcdHeld st' /\ Grows (Unlocked st) (Unlocked st') /\ Rests FS st st' /\
    (Forall (fun e => Promotable e = false) (take i (gcd_of st)) -> Tested st').
Proof using HFS.
  induction Links as [|e Links IH]; intros i P st r st' HI Hl HK EL E.
  { apply SM_ret_Done in E as [_ ->]. split_and!; [done..|apply Rests_refl|]. intros HF. unfold Tested. rewrite <- (take_drop i (gcd_of st)), <- EL.
    by rewrite app_nil_r. }
  assert (gcd_of st !! i = Some e) as Hi by (by rewrite <- (Nat.add_0_r i), <- lookup_drop, <- EL).
  assert (Links = drop (S i) (gcd_of st)) as EL'.
  { replace (S i) with (i + 1)%nat by lia. by rewrite <- drop_drop, <- EL. }
  cbn [PromoteLoop] in E. destruct (Promotable e) eqn:Hp.
  2: { destruct (IH (S i) P st r st' HI Hl HK EL' E) as (? & ? & ? & ? & HT). split_and!; [done..|]. intros HF. apply HT.
    rewrite (take_S_r _ _ _ Hi). by apply Forall_app_2; [|apply Forall_singleton]. }
  apply SM_bind_Done in E as (u1 & st1 & ->%Change_Done & E). fold (Mark i e st) in E.
  apply SM_bind_Done in E as (u2 & st2 & E2 & E). apply SM_bind_Done in E as (u3 & st3 & E3 & E).
  destruct (inv_untested st HI i e Hi Hp) as (HG & HN & _).
  change (e_BaseAddress (Promote e)) with (e_BaseAddress e) in E2. change (e_EndAddress (Promote e)) with (e_EndAddress e) in E2.
  destruct (CoreAddRange_run EfiConventionalMemory (e_BaseAddress e) (e_EndAddress e) (DescriptorAttributes (e_Capabilities (Promote e)))
    (Mark i e st) (inv_wf _ (Mark_inv i e st HI)) Hl HG HN) as [[E2' _]|(st2' & E2' & _ & HC)]; [congruence|].
  rewrite E2 in E2'. injection E2' as _ <-.
  destruct (Changed_promoted i e st st2 _ Hi Hp HI HC) as [HI2 G2].
  pose proof (changed_frame _ _ _ HC) as F2. unfold frame_of in F2. simpl in F2.
  destruct (HFS st2 u3 st3 HI2 ltac:(congruence) E3) as [HI3 G3].
  assert (GcdHeld st2) as K2 by (unfold GcdHeld; replace (Gcd_ st2) with (Gcd_ (Mark i e st)) by (simpl; congruence); done).
  destruct (Grows_unlocked _ _ K2 G3) as [K3 G3'].
  assert (gcd_of st3 = <[i := Promote e]> (gcd_of st)) as EG.
  { unfold gcd_of. rewrite (grows_gcd _ _ _ G3 K2). by replace (Gcd_ st2) with (Gcd_ (Mark i e st)) by (simpl; congruence). }
  destruct (IH (S i) true st3 r st' HI3) as (HI' & K' & G' & R' & T').
  - rewrite (Grows_lock _ _ _ G3). congruence.
  - done.
  - rewrite EG, drop_insert_lt by lia. done.
  - done.
  - split_and!; [done|done|transitivity (Unlocked st2); [done|]; by transitivity (Unlocked st3)| |].
    2: { intros HF. apply T'. rewrite EG. assert (i < length (gcd_of st))%nat by (by eapply lookup_lt_Some).
      rewrite (take_S_r _ _ (Promote e)) by (by apply list_lookup_insert_eq). rewrite take_insert_ge by lia.
      apply Forall_app_2; [done|]. apply Forall_singleton, Promote_tested. }
    intros HE HZ _. apply R'; [done|rewrite (Grows_flag _ _ _ G3); congruence|]. eapply HE; [|exact E3]. congruence.
Qed.

Lemma PromoteMemoryResource_spec st r st' :
  PageInv st -> gMemoryLock st = true -> PromoteMemoryResource FS st = Done (r, st') ->
  PageInv st' /\ Grows st st' /\ Rests FS st st' /\ Tested st' /\ mGcdMemorySpaceLock (Gcd_ st') = false.
Proof using Off HFS.
  intros HI Hl E. unfold PromoteMemoryResource in E. apply SM_bind_Done in E as (u1 & st1 & E1 & E).
  unfold OnGcd, Within in E1. destruct (mGcdMemorySpaceLock (Gcd_ st)) eqn:HK.
  { unfold CoreAcquireGcdLock in E1. simpl in E1. by rewrite HK in E1. }
  assert (st1 = SetGcd (SetLock false true (Gcd_ st)) st) as ->.
  { unfold CoreAcquireGcdLock in E1. simpl in E1. rewrite HK in E1. by injection E1. }
  clear E1. apply SM_bind_Done in E as (Links & st2 & [-> ->]%Get_Done & E). apply SM_bind_Done in E as (P & st3 & E3 & E).
  assert (PageInv (SetGcd (SetLock false true (Gcd_ st)) st)) as HI1.
  { destruct HI as [[] B D U]. split; [by split|done|done|exact U]. }
  destruct (PromoteLoop_grow _ 0 false _ P st3 HI1 Hl eq_refl eq_refl E3) as (HI3 & K3 & G3 & R3 & T3).
  apply SM_bind_Done in E as (u4 & st4 & E4 & E). unfold OnGcd, Within, CoreReleaseGcdLock in E4. unfold GcdHeld in K3. simpl in E4.
  rewrite K3 in E4. simpl in E4. injection E4 as _ E4. fold (Unlocked st3) in E4. subst st4.
  assert (PageInv (Unlocked st3) /\ Grows st (Unlocked st3) /\ Rests FS st (Unlocked st3) /\ Tested (Unlocked st3) /\
    mGcdMemorySpaceLock (Gcd_ (Unlocked st3)) = false) as HH.
  { split; [destruct HI3 as [[] B D U]; split; [by split|done|done|exact U]|]. rewrite <- (Unlocked_id st HK).
    split_and!; [exact G3|exact R3|apply T3; constructor|done]. }
  destruct P; cbn [negb] in E; [by apply SM_ret_Done in E as [_ ->]|].
  rewrite (SM_bind_run _ _ _ _ _ (no_guarded_pages _)) in E. by apply SM_ret_Done in E as [_ ->].
Qed.
End Promotion.

(** ** The search for pages *)

Section Search.
Context {Env : PageEnvironment} {Off : GuardOff Env}.

Lemma Fits_mono l Max Max' Min Min' n b : Max <= Max' -> Min' <= Min -> Fits l Max Min n b -> Fits l Max' Min' n b.
Proof using. intros ? ? (? & ? & ? & ?). split_and!; [done|lia|lia|done]. Qed.

Lemma Fits_low l Max Min n b : Forall Good l -> Fits l Max Min n b -> Fits l Max 0 n b.
Proof using.
  intros HG (? & ? & ? & d & Hd & ? & ? & ? & ?). rewrite Forall_forall in HG. destruct (HG d Hd) as (_ & _ & ? & _).
  split_and!; [done|lia|done|]. by exists d.
Qed.

(** What one search finds. *)
Lemma CoreFindFreePagesI_fits st Max Max' Min n t :
  PageInv st -> Max <= Max' -> Max' < 2 ^ 64 -> 0 <= n < 2 ^ 52 ->
  CoreFindFreePagesI Max Min n t 4096 false (gMemoryMap st) ≠ 0 ->
  0 < n /\ Fits (gMemoryMap st) Max' 0 n (CoreFindFreePagesI Max Min n t 4096 false (gMemoryMap st)).
Proof using.
  intros HI ? ? Hn Hb. destruct (wf_map _ (inv_wf _ HI)) as (HG & _).
  destruct (CoreFindFreePagesI_spec Max Min n t (gMemoryMap st) HG ltac:(lia) Hn) as [HF _]. destruct (HF Hb) as [? HF'].
  split; [done|]. apply (Fits_low _ _ Min); [done|]. by eapply Fits_mono; [..|apply HF'].
Qed.

Lemma BinsOk_default v b : BinsOk b -> BinsOk (SetDefaultBase v b).
Proof using. done. Qed.

Section Knot.
Context (FS : PM unit) (HFS : Grow FS).

Lemma FindFreePagesLoop_spec Max n t : Max < 2 ^ 64 -> 0 <= n < 2 ^ 52 -> forall fuel st b st',
  PageInv st -> gMemoryLock st = true -> FindFreePagesLoop FS fuel Max n t 4096 false st = Done (b, st') ->
  PageInv st' /\ Grows st st' /\ (b ≠ 0 -> 0 < n /\ Fits (gMemoryMap st') Max 0 n b) /\ Rests FS st st'.
Proof using Off HFS.
  intros HM Hn. induction fuel as [|fuel IH]; intros st b st' HI Hl E; [done|]. cbn [FindFreePagesLoop] in E.
  apply SM_bind_Done in E as (Map & st1 & [-> ->]%Get_Done & E). apply SM_bind_Done in E as (B & st1 & [-> ->]%Get_Done & E).
  apply SM_bind_Done in E as (Preferred & st1 & E1 & E).
  assert (st1 = st /\ (Preferred ≠ 0 -> 0 < n /\ Fits (gMemoryMap st) Max 0 n Preferred)) as [-> HP].
  { destruct (t <? EfiMaxMemoryType); [|by apply SM_ret_Done in E1 as [-> ->]]. destruct (_ !! _) as [s|]; [|by sm_inv].
    apply SM_ret_Done in E1 as [-> ->]. split; [done|]. destruct (Z.leb_spec (MaximumAddress s) Max); [|done]. by apply CoreFindFreePagesI_fits. }
  clear E1. destruct (Z.eqb_spec Preferred 0) as [_|H0]; cbn [negb] in E.
  2: { apply SM_ret_Done in E as [-> ->]. split_and!; [done|done|auto|apply Rests_refl]. }
  clear HP. match type of E with (if negb (?x =? 0) then _ else _) _ = _ => set (Default := x) in E end.
  destruct (Z.eqb_spec Default 0) as [_|H0]; cbn [negb] in E.
  2: { apply SM_bind_Done in E as (u & st1 & E1 & [-> ->]%SM_ret_Done).
    assert (PageInv st1 /\ Grows st st1 /\ gMemoryMap st1 = gMemoryMap st /\ mMapDepth st1 = mMapDepth st) as (HI1 & G1 & -> & ED).
    { destruct (_ <? _); [|by apply SM_ret_Done in E1 as [_ ->]]. destruct (Grow_bins _ (fun st => BinsOk_default Default (Bins st)) _ _ _ HI Hl E1).
      apply Change_Done in E1. by subst st1. }
    split_and!; [done|done| |intros ? ? ?; congruence]. intros _. unfold Default in *. destruct (Z.leb_spec (mDefaultMaximumAddress (Bins st)) Max); [|done].
    by apply CoreFindFreePagesI_fits. }
  match type of E with (if negb (?x =? 0) then _ else _) _ = _ => destruct (Z.eqb_spec x 0) as [_|H0]; cbn [negb] in E end.
  2: { apply SM_ret_Done in E as [-> ->]. split_and!; [done|done| |apply Rests_refl]. intros _. by apply CoreFindFreePagesI_fits. }
  apply SM_bind_Done in E as (Promoted & st1 & E1 & E). destruct (PromoteMemoryResource_spec FS HFS _ _ _ HI Hl E1) as (HI1 & G1 & R1 & _).
  destruct Promoted; cbn [negb] in E; [|by apply SM_ret_Done in E as [-> ->]].
  destruct (IH st1 b st' HI1) as (HI' & G' & HF & R'); [by rewrite (Grows_lock _ _ _ G1)|done|].
  split_and!; [done|by transitivity st1|done|]. by apply (Rests_trans _ _ st1); [apply (Grows_flag _ _ _ G1)|..].
Qed.

Lemma FindFreePages_spec Max n t st b st' :
  Max < 2 ^ 64 -> 0 <= n < 2 ^ 52 -> PageInv st -> gMemoryLock st = true -> FindFreePages FS Max n t 4096 false st = Done (b, st') ->
  PageInv st' /\ Grows st st' /\ (b ≠ 0 -> 0 < n /\ Fits (gMemoryMap st') Max 0 n b) /\ Rests FS st st'.
Proof using Off HFS.
  intros HM Hn HI Hl E. apply SM_bind_Done in E as (u & st1 & [_ ->]%Get_Done & E). by apply FindFreePagesLoop_spec in E.
Qed.

Lemma memory_locked_run st : gMemoryLock st = true -> ASSERT_LOCKED st = Done (tt, st).
Proof using. intros Hl. unfold ASSERT_LOCKED. rewrite (SM_bind_run _ _ _ _ _ eq_refl). by rewrite Hl. Qed.

(** The conversion of pages. *)
Lemma LShift_pages n : 0 <= n < 2 ^ 52 -> LShiftU64 n EFI_PAGE_SHIFT = 4096 * n.
Proof using. intros. unfold LShiftU64, EFI_PAGE_SHIFT. rewrite Z.shiftl_mul_pow2 by lia. rewrite u64_small by lia. lia. Qed.

Lemma pages_end s n : PageAligned s -> PageAligned (s + 4096 * n - 1 + 1).
Proof using. unfold PageAligned. intros H. replace (s + 4096 * n - 1 + 1) with (s + n * 4096) by lia. by rewrite Z.mod_add. Qed.

Lemma last_address s n : 0 <= s -> 0 < n -> s + 4096 * n <= 2 ^ 64 -> sub64 (add64 s (4096 * n)) 1 = s + 4096 * n - 1.
Proof using. intros. unfold sub64, add64, u64. rewrite Zminus_mod_idemp_l. apply Z.mod_small. lia. Qed.

Lemma CoreConvertPagesEx_loop s n ct t ca x st :
  0 <= s -> 0 < n < 2 ^ 52 -> s + 4096 * n <= 2 ^ 64 -> PageAligned s -> gMemoryLock st = true -> negb ct || negb ca = true ->
  CoreConvertPagesEx FS s n ct t ca x st = ConvertLoop FS (Z.to_nat n) s (s + 4096 * n - 1) n ct t ca x st.
Proof using.
  intros ? ? ? As Hl Hc. unfold CoreConvertPagesEx. rewrite LShift_pages, last_address by lia.
  rewrite HasFlag_page. unfold PageAligned in As. rewrite As. rewrite (proj2 (Z.eqb_neq n 0)) by lia.
  rewrite (proj2 (Z.ltb_lt s (s + 4096 * n - 1))) by lia. rewrite (proj2 (Z.leb_gt (s + 4096 * n - 1) s)) by lia.
  cbn [negb orb Z.eqb].
  rewrite !(SM_bind_run _ _ st tt st) by (done || by apply memory_locked_run). rewrite (SM_bind_run _ _ st tt st) by (by rewrite Hc). f_equal.
  rewrite sub64_small by lia. unfold RShiftU64, EFI_PAGE_SHIFT. rewrite Z.shiftr_div_pow2 by lia. f_equal. change (2 ^ 12) with 4096.
  Z.div_mod_to_equations. lia.
Qed.
End Knot.
End Search.

(** ** The supply of descriptors *)

Section Supply.
Context {Env : PageEnvironment} {Off : GuardOff Env}.

Lemma Fits_bounds st Max n b : PageInv st -> Fits (gMemoryMap st) Max 0 n b -> 0 <= b /\ b + 4096 * n < 2 ^ 64 /\ PageAligned b.
Proof using.
  intros HI (Ab & ? & ? & d & Hd & _ & _ & ? & ?). destruct (wf_map _ (inv_wf _ HI)) as (HG & _). rewrite Forall_forall in HG.
  destruct (HG d Hd) as (_ & _ & ? & ?). split_and!; [lia|lia|done].
Qed.

Lemma Fits_find st Max n b : PageInv st -> 0 < n -> Fits (gMemoryMap st) Max 0 n b ->
  exists d, FindEntry b (gMemoryMap st) = Some d /\ MType d = EfiConventionalMemory /\ b + 4096 * n - 1 <= MEnd d.
Proof using.
  intros HI Hn (Ab & ? & ? & d & Hd & Ht & _ & ? & ?). destruct (wf_map _ (inv_wf _ HI)) as (_ & HS & _).
  destruct (FindEntry b (gMemoryMap st)) as [d'|] eqn:E.
  - exists d'. apply FindEntry_Some in E as [Hd' ?]. destruct (Separate_inv _ d d' HS Hd Hd') as [->|Hap]; [done|].
    unfold apart, apart_from in Hap. lia.
  - destruct (FindEntry_None _ _ E d Hd). lia.
Qed.

Lemma Fits_fit st Max n b t : PageInv st -> 0 < n -> t ≠ EfiConventionalMemory -> Fits (gMemoryMap st) Max 0 n b ->
  ~ Unfit st b (b + 4096 * n - 1) t.
Proof using.
  intros HI Hn Ht (d & E & Hc & He)%Fits_find; [|done..]. intros [HU|(d' & HU & HR)]; [congruence|]. rewrite E in HU. injection HU as <-.
  unfold Refused in HR. rewrite Hc, (proj2 (Z.eqb_neq t _) Ht), (proj2 (Z.ltb_ge _ _) He) in HR. done.
Qed.

Section Knot.
Context (FS : PM unit) (HFS : Grow FS).

Lemma CoreConvertPages_take s n t st Status st' :
  PageInv st -> gMemoryLock st = true -> 0 <= s -> 0 < n < 2 ^ 52 -> s + 4096 * n <= 2 ^ 64 -> PageAligned s -> t ≠ EfiConventionalMemory ->
  CoreConvertPages FS s n t st = Done (Status, st') ->
  Status = EFI_NOT_FOUND /\ st' = st /\ Unfit st s (s + 4096 * n - 1) t \/
  Status = EFI_SUCCESS /\ PageInv st' /\ Took s (s + 4096 * n - 1) t st st' /\ Rests FS st st'.
Proof using Off HFS.
  intros HI Hl ? ? ? As Ht E. unfold CoreConvertPages in E. rewrite CoreConvertPagesEx_loop in E by done.
  by apply (Convert_take FS HFS) in E; [|done..|by apply pages_end|lia|done].
Qed.

Lemma CoreAllocatePoolPages_spec t n st b st' :
  PageInv st -> gMemoryLock st = true -> 0 <= n < 2 ^ 52 -> t ≠ EfiConventionalMemory ->
  CoreAllocatePoolPages FS t n 4096 false st = Done (b, st') ->
  PageInv st' /\ (b = 0 /\ Grows st st' \/ exists st1, PageInv st1 /\ Grows st st1 /\ 0 < n /\ Fits (gMemoryMap st1) MAX_ALLOC_ADDRESS 0 n b /\
    Took b (b + 4096 * n - 1) t st1 st').
Proof using Off HFS.
  intros HI Hl Hn Ht E. unfold CoreAllocatePoolPages in E. apply SM_bind_Done in E as (b1 & st1 & E1 & E).
  destruct (FindFreePages_spec FS HFS MAX_ALLOC_ADDRESS n t st b1 st1 eq_refl Hn HI Hl E1) as (HI1 & G1 & HF & _).
  apply SM_bind_Done in E as (Status & st2 & E2 & [-> ->]%SM_ret_Done). destruct (Z.eqb_spec b1 0) as [->|H0].
  { apply SM_ret_Done in E2 as [_ ->]. split; [done|by left]. }
  destruct (HF H0) as [Hn0 HFit]. destruct (Fits_bounds _ _ _ _ HI1 HFit) as (? & ? & Ab).
  destruct (CoreConvertPages_take b1 n t st1 Status st2) as [(_ & _ & HU)|(_ & HI2 & HT & _)];
    [done|by rewrite (Grows_lock _ _ _ G1)|lia..|done|done|done|by eapply Fits_fit in HFit|]. split; [done|]. right. exists st1. by split_and!.
Qed.

(** The descriptors in a page. *)
Definition descriptors_in (b : Z) : list Z :=
  (fun i => b + SizeOfMemoryMap * Z.of_nat i) <$> seq 0 (Z.to_nat (DEFAULT_PAGE_ALLOCATION_GRANULARITY / SizeOfMemoryMap)).

Lemma descriptors_bounds b p : p ∈ descriptors_in b -> b <= p <= b + 4095.
Proof using.
  unfold descriptors_in. intros (i & -> & Hi)%list_elem_of_fmap. change (Z.to_nat _) with 64%nat in Hi. apply elem_of_seq in Hi.
  unfold SizeOfMemoryMap. lia.
Qed.

Lemma descriptors_NoDup b : NoDup (descriptors_in b).
Proof using. apply NoDup_fmap_2; [|apply NoDup_seq]. intros i j. unfold SizeOfMemoryMap. lia. Qed.

Lemma descriptors_first b : b ∈ descriptors_in b.
Proof using. apply list_elem_of_fmap. exists 0%nat. split; [lia|]. apply elem_of_seq. split; [lia|]. change (Z.to_nat _) with 64%nat. lia. Qed.

Definition AddDescriptors (l : list Z) (st : PageState) : PageState := SetFreeList (mFreeMemoryMapEntryList st ++ l) st.

Lemma AddDescriptors_nodes l st n : n ∈ nodes_of (AddDescriptors l st) <-> n ∈ nodes_of st \/ n ∈ PageNode <$> l.
Proof using. unfold nodes_of. simpl. rewrite fmap_app, !elem_of_app. tauto. Qed.

(** A page taken for descriptors. *)
Lemma AddDescriptors_grow b st st' :
  PageInv st -> PageInv st' -> 0 < b -> PageAligned b -> Took b (b + 4095) EfiBootServicesData st st' ->
  PageInv (AddDescriptors (descriptors_in b) st') /\ Grows st (AddDescriptors (descriptors_in b) st').
Proof using.
  intros HI HI' Hb Ab (x & Hfree & [T F N W L K U]).
  assert (forall a, b <= a <= b + 4095 -> at_address st' a = Some (EfiBootServicesData, x)) as Hat.
  { intros a Ha. apply T; [|done]. unfold set_range. by rewrite (proj2 (within_spec _ _ _) Ha). }
  assert (forall p, PageNode p ∈ nodes_of st' -> ~ b <= p <= b + 4095) as Hold.
  { intros p Hp Ha. destruct (decide (PageNode p ∈ nodes_of st)) as [H|H].
    - destruct (inv_desc _ HI p H) as [_ [y Hy]]. rewrite Hfree in Hy by done. done.
    - specialize (W p (EfiBootServicesData, x) Hp H). unfold set_range in W. rewrite (proj2 (within_spec _ _ _) Ha) in W. by specialize (W eq_refl). }
  split.
  - destruct HI' as [[HM HN HS HD] B D Un]. split; [split; [done| | |done]|done| |done].
    + unfold nodes_of. simpl. rewrite fmap_app, app_assoc. apply NoDup_app. split_and!; [done| |].
      * intros n Hn (p & -> & Hp)%list_elem_of_fmap. by apply (Hold p Hn), descriptors_bounds.
      * apply NoDup_fmap_2; [by intros ? ? [= ->]|]. apply descriptors_NoDup.
    + intros i [H|(p & ? & _)%list_elem_of_fmap]%AddDescriptors_nodes; [by apply HS|done].
    + intros p [H|(q & [= ->] & Hq)%list_elem_of_fmap]%AddDescriptors_nodes; [by apply D|].
      apply descriptors_bounds in Hq. split; [lia|]. exists x. by apply Hat.
  - split.
    + intros a v Ha Hv. apply T; [|done]. unfold set_range. destruct (within _ _ a) eqn:E; [|done]. apply within_spec, Hfree in E. naive_solver.
    + intros a y Ha. destruct (decide (b <= a <= b + 4095)) as [Hi|Hi].
      * right. rewrite Hfree in Ha by done. injection Ha as <-. split; [by apply Hat|]. exists b. split.
        -- apply AddDescriptors_nodes. right. apply list_elem_of_fmap_2, descriptors_first.
        -- unfold PageAligned in Ab. Z.div_mod_to_equations. lia.
      * destruct (F a y) as [?|(? & p & Hp & ?)]; [unfold set_range; by rewrite (proj2 (within_false _ _ _) Hi)|by left|right].
        split; [done|]. exists p. split; [|done]. apply AddDescriptors_nodes. by left.
    + intros p Hp. apply AddDescriptors_nodes. left. by apply N.
    + intros p v [Hp|(q & [= ->] & Hq)%list_elem_of_fmap]%AddDescriptors_nodes Hn Hv.
      * apply (W p v Hp Hn). unfold set_range. by rewrite (proj2 (within_false _ _ _) (Hold p Hp)).
      * apply descriptors_bounds in Hq. rewrite Hfree in Hv by done. by injection Hv as <-.
    + done.
    + done.
    + intros HT. destruct (U HT) as [? HN]. split; [done|]. intros a Ha. apply HN. unfold set_range.
      destruct (within _ _ a) eqn:E; [|done]. apply within_spec in E. rewrite Hfree in Ha by done. done.
Qed.

(** A descriptor back on the free list. *)
Definition Putback (p : Z) (st : PageState) : PageState := SetFreeList (p :: mFreeMemoryMapEntryList st) st.

Lemma Took_lock s e t st st' : Took s e t st st' -> gMemoryLock st' = gMemoryLock st.
Proof using. intros (x & _ & G). by apply Grows_lock in G. Qed.

Lemma AllocateMemoryMapEntry_spec st p st' :
  PageInv st -> gMemoryLock st = true -> AllocateMemoryMapEntry FS st = Done (p, st') -> p ≠ 0 ->
  PageInv (Putback p st') /\ Grows st (Putback p st').
Proof using Off HFS.
  intros HI Hl E Hp. unfold AllocateMemoryMapEntry in E. apply SM_bind_Done in E as (Free & st1 & [-> ->]%Get_Done & E).
  apply SM_bind_Done in E as (Refueled & st1 & E1 & E).
  assert (Refueled = true -> PageInv st1 /\ Grows st st1) as HR.
  { case_bool_decide; [|by apply SM_ret_Done in E1 as [-> ->]]. apply SM_bind_Done in E1 as (b & st2 & E2 & E1).
    change (EFI_SIZE_TO_PAGES _) with 1 in E2. change DEFAULT_PAGE_ALLOCATION_GRANULARITY with 4096 in E2.
    destruct (CoreAllocatePoolPages_spec EfiBootServicesData 1 st b st2 HI Hl ltac:(lia) ltac:(done) E2) as [HI2 HC].
    destruct (Z.eqb_spec b 0) as [->|Hb]; cbn [negb] in E1; [by apply SM_ret_Done in E1 as [-> _]|].
    apply SM_bind_Done in E1 as (u & st3 & ->%Change_Done & [-> ->]%SM_ret_Done). intros _.
    destruct HC as [[? _]|(st3 & HI3 & G3 & _ & HF & HT)]; [done|]. destruct (Fits_bounds _ _ _ _ HI3 HF) as (? & _ & Ab).
    replace (b + 4096 * 1 - 1) with (b + 4095) in HT by lia. destruct (AddDescriptors_grow b st3 st2 HI3 HI2 ltac:(lia) Ab HT) as [HI' G'].
    split; [exact HI'|]. transitivity st3; [done|exact G']. }
  destruct Refueled; cbn [negb] in E; [|by apply SM_ret_Done in E as [-> _]]. destruct (HR eq_refl) as [HI1 G1].
  apply SM_bind_Done in E as (Free & st2 & [-> ->]%Get_Done & E). destruct (mFreeMemoryMapEntryList st1) as [|q Free] eqn:EF; [by sm_inv|].
  apply SM_bind_Done in E as (u & st2 & ->%Change_Done & [-> ->]%SM_ret_Done).
  assert (Putback q (SetFreeList Free st1) = st1) as -> by (unfold Putback; simpl; rewrite <- EF; by destruct st1). done.
Qed.

(** ** The stack *)

Lemma InsertSorted_perm d l : InsertSorted d l ≡ₚ d :: l.
Proof using.
  induction l as [|d' l IH]; [done|]. simpl. destruct (_ && _); [done|]. rewrite IH. apply perm_swap.
Qed.

Lemma WfMap_node n d l : WfMap (d :: l) -> WfMap (SetNode n d :: l).
Proof using.
  intros (HG & HS & HM). inversion HG as [|? ? Gd Gl]; subst. destruct HS as [Hd Hs]. split_and!; [by constructor| |].
  - split; [exact Hd|done].
  - intros d1 d2 H1 H2. assert (forall d', d' ∈ SetNode n d :: l -> exists d0, d0 ∈ d :: l /\ MStart d0 = MStart d' /\ MEnd d0 = MEnd d' /\ value d0 = value d') as HH.
    { intros d' [->|H]%elem_of_cons; [exists d; by split; [left|]|exists d'; by split; [right|]]. }
    destruct (HH d1 H1) as (d1' & H1' & E1 & E1' & V1), (HH d2 H2) as (d2' & H2' & E2 & E2' & V2).
    rewrite <- V1, <- V2, <- E1', <- E2. by apply HM.
Qed.

(** The top of the stack moves into a page. *)
Lemma pop_found p d st k :
  PageInv (Putback p st) -> k = Nat.pred (mMapDepth st) -> d ∈ gMemoryMap st -> Node d = StackNode k ->
  let st' := SetMemoryMap (InsertSorted (SetNode (PageNode p) d) (filter (fun e => Node e ≠ StackNode k) (gMemoryMap st))) (SetMapDepth k st) in
  PageInv st' /\ Grows (Putback p st) st' /\ forall a, at_address st' a = at_address st a.
Proof using.
  intros HI -> Hd En st'. pose proof (inv_wf _ HI) as Hw. pose proof (wf_map_nodes _ Hw) as Hnd. simpl in Hnd.
  pose proof (take_out_one _ _ Hnd Hd) as HP. rewrite En in HP. set (l := filter _ _) in HP, st'.
  assert (gMemoryMap st' ≡ₚ SetNode (PageNode p) d :: l) as HP' by apply InsertSorted_perm.
  pose proof (wf_map _ Hw) as HM. simpl in HM. rewrite HP in HM. pose proof (WfMap_node (PageNode p) d l HM) as HM'.
  assert (nodes_of st' ≡ₚ PageNode p :: (Node <$> l) ++ (PageNode <$> mFreeMemoryMapEntryList st)) as EN' by (unfold nodes_of; by rewrite HP').
  assert (nodes_of (Putback p st) ≡ₚ StackNode (Nat.pred (mMapDepth st)) :: PageNode p :: (Node <$> l) ++ (PageNode <$> mFreeMemoryMapEntryList st)) as EN.
  { unfold nodes_of. simpl. rewrite HP at 1. simpl. rewrite En. by rewrite <- Permutation_middle. }
  pose proof (wf_nodes _ Hw) as HN. rewrite EN in HN. apply NoDup_cons in HN as [Hk HN].
  assert (forall a, at_address st' a = at_address st a) as EA.
  { intros a. unfold at_address. assert (Separate (gMemoryMap st')) as HS by (rewrite <- HP' in HM'; apply HM').
    rewrite (look_perm _ _ a HS HP').
    rewrite (look_perm (gMemoryMap st) _ a (proj1 (proj2 (wf_map _ Hw))) HP). by rewrite !look_cons. }
  cut (PageInv st' /\ Grows (Putback p st) st'); [tauto|]. apply Same_grow; [done| |apply HI|done| |done].
  - split; [by rewrite HP'|by rewrite EN'| |].
    + intros i. rewrite EN'. intros Hi. assert (i < mMapDepth st)%nat.
      { apply (wf_stack _ Hw). rewrite EN. by right. }
      assert (i ≠ Nat.pred (mMapDepth st)) by (by intros ->). simpl. lia.
    + pose proof (wf_depth _ Hw). simpl in *. lia.
  - intros q. rewrite EN', EN. rewrite (elem_of_cons _ _ (StackNode _)). naive_solver.
Qed.

Lemma pop_free p st k :
  PageInv (Putback p st) -> k = Nat.pred (mMapDepth st) -> (forall d, d ∈ gMemoryMap st -> Node d ≠ StackNode k) ->
  let st' := SetFreeList (mFreeMemoryMapEntryList st ++ [p]) (SetMapDepth k st) in
  PageInv st' /\ Grows (Putback p st) st'.
Proof using.
  intros HI -> Hd st'. pose proof (inv_wf _ HI) as Hw. assert (nodes_of st' ≡ₚ nodes_of (Putback p st)) as EN.
  { unfold nodes_of. simpl. rewrite fmap_app. simpl. by rewrite <- Permutation_cons_append. }
  apply Same_grow; [done| |apply HI|done| |done].
  - destruct Hw as [HM HN HS HD]. split; [done|by rewrite EN| |].
    + intros i. rewrite EN. intros Hi. pose proof (HS i Hi). simpl in *. assert (i ≠ Nat.pred (mMapDepth st)); [|lia]. intros ->.
      unfold nodes_of in Hi. apply elem_of_app in Hi as [(d & E & Hx)%list_elem_of_fmap|(q & ? & _)%list_elem_of_fmap]; [|done].
      by apply (Hd d Hx).
    + simpl in *. lia.
  - intros q. by rewrite EN.
Qed.

(** One round of the loop that empties the stack. *)
Lemma FreeStackLoop_pop fuel st p st1 :
  mMapDepth st ≠ 0%nat -> AllocateMemoryMapEntry FS st = Done (p, st1) -> p ≠ 0 -> PageInv (Putback p st1) ->
  exists st2, FreeStackLoop FS (S fuel) st = FreeStackLoop FS fuel st2 /\ PageInv st2 /\ Grows (Putback p st1) st2 /\
    (forall a, at_address st2 a = at_address st1 a) /\ mMapDepth st2 = Nat.pred (mMapDepth st1) /\
    (length (mFreeMemoryMapEntryList st1) <= length (mFreeMemoryMapEntryList st2))%nat.
Proof using.
  intros Hd E Hp HI. cbn [FreeStackLoop]. rewrite (Get_run (S:=PageState)). destruct (mMapDepth st); [done|].
  rewrite (SM_bind_run _ _ _ _ _ E). rewrite (Assert_run (S:=PageState)) by (by apply negb_true_iff, Z.eqb_neq).
  rewrite (Get_run (S:=PageState)), (Change_run (S:=PageState)), (Get_run (S:=PageState)). simpl.
  set (k := Nat.pred (mMapDepth st1)). destruct (list_find _ _) as [[i d]|] eqn:EL; eexists; (split; [done|]).
  - apply list_find_Some in EL as (Hi & En & _).
    destruct (pop_found p d st1 k) as (HI2 & G2 & EA); [done..|by eapply list_elem_of_lookup_2|done|]. by split_and!.
  - apply list_find_None in EL. rewrite Forall_forall in EL. destruct (pop_free p st1 k) as [HI2 G2]; [done..|].
    split_and!; try done. simpl. rewrite length_app. lia.
Qed.

Lemma FreeStackLoop_grow fuel : Grow (FreeStackLoop FS fuel).
Proof using Off HFS.
  induction fuel as [|fuel IH]; intros st u st' HI Hl E.
  { cbn [FreeStackLoop] in E. apply SM_bind_Done in E as (D & st1 & [-> ->]%Get_Done & E).
    destruct (mMapDepth st); [by apply SM_ret_Done in E as [_ ->]|done]. }
  destruct (decide (mMapDepth st = 0%nat)) as [H0|H0].
  { cbn [FreeStackLoop] in E. apply SM_bind_Done in E as (D & st1 & [-> ->]%Get_Done & E). rewrite H0 in E. by apply SM_ret_Done in E as [_ ->]. }
  assert (exists p st1, AllocateMemoryMapEntry FS st = Done (p, st1) /\ p ≠ 0) as (p & st1 & E1 & Hp).
  { cbn [FreeStackLoop] in E. apply SM_bind_Done in E as (D & st1 & [-> ->]%Get_Done & E). destruct (mMapDepth st); [done|].
    apply SM_bind_Done in E as (p & st1 & E1 & E). apply SM_bind_Done in E as (u1 & st2 & [Hp ->]%Assert_Done & _).
    exists p, st1. split; [done|]. by apply Z.eqb_neq, negb_true_iff. }
  destruct (AllocateMemoryMapEntry_spec st p st1 HI Hl E1 Hp) as [HI1 G1].
  destruct (FreeStackLoop_pop fuel st p st1 H0 E1 Hp HI1) as (st2 & Eq & HI2 & G2 & _). rewrite Eq in E.
  destruct (IH st2 u st' HI2) as [HI' G']; [by rewrite (Grows_lock _ _ _ G2), <- Hl, <- (Grows_lock _ _ _ G1)|done|].
  split; [done|]. transitivity (Putback p st1); [done|by transitivity st2].
Qed.
End Knot.

Lemma PageInv_stack v st : PageInv st -> PageInv (SetFreeMapStack v st).
Proof using. intros [[] B D U]. by split. Qed.

Lemma FreeMemoryMapStack_grow fuel : Grow (FreeMemoryMapStack fuel).
Proof using Off.
  induction fuel as [|fuel IH]; intros st u st' HI Hl E; [done|]. cbn [FreeMemoryMapStack] in E.
  apply SM_bind_Done in E as (u1 & st1 & E1 & E). rewrite memory_locked_run in E1 by done. injection E1 as _ <-.
  apply SM_bind_Done in E as (Busy & st1 & [-> ->]%Get_Done & E).
  destruct (Z.eqb_spec (mFreeMapStack st) 0) as [H0|_]; cbn [negb] in E; [|by apply SM_ret_Done in E as [_ ->]].
  apply SM_bind_Done in E as (u2 & st1 & ->%Change_Done & E). apply SM_bind_Done in E as (u3 & st1 & E1 & E).
  destruct (FreeStackLoop_grow _ IH _ _ _ _ (PageInv_stack _ st HI) Hl E1) as [HI1 [T F N W L K U]].
  apply SM_bind_Done in E as (Busy & st2 & [-> ->]%Get_Done & ->%Change_Done). split; [by apply PageInv_stack|].
  split; [exact T|exact F|exact N|exact W| |exact K|exact U]. unfold flags_of in *. simpl in *. injection L as L1 L2 L3.
  rewrite L1, L2, L3. repeat f_equal. lia.
Qed.

Lemma CoreFreeMemoryMapStack_grow : Grow CoreFreeMemoryMapStack.
Proof using Off. apply FreeMemoryMapStack_grow. Qed.

Lemma FreeStackLoop_empties FS fuel : forall st u st', FreeStackLoop FS fuel st = Done (u, st') -> mMapDepth st' = 0%nat.
Proof using.
  induction fuel as [|fuel IH]; intros st u st' E; cbn [FreeStackLoop] in E; apply SM_bind_Done in E as (D & st1 & [-> ->]%Get_Done & E);
    (destruct (mMapDepth st) eqn:ED; [by apply SM_ret_Done in E as [_ ->]|]); [done|].
  repeat (apply SM_bind_Done in E as (? & ? & _ & E)). by eapply IH.
Qed.

Lemma CoreFreeMemoryMapStack_empties : Empties CoreFreeMemoryMapStack.
Proof using.
  intros st u st' HZ E. unfold CoreFreeMemoryMapStack in E. cbn [FreeMemoryMapStack] in E.
  apply SM_bind_Done in E as (? & st1 & E1 & E). assert (st1 = st) as -> by (unfold ASSERT_LOCKED in E1; by sm_inv).
  apply SM_bind_Done in E as (? & st1 & [-> ->]%Get_Done & E). rewrite HZ in E. cbn [negb Z.eqb] in E.
  apply SM_bind_Done in E as (? & st1 & _ & E). apply SM_bind_Done in E as (? & st2 & E2 & E). apply FreeStackLoop_empties in E2. by sm_inv.
Qed.
End Supply.
