(* ===== verification/PageTotal.v ===== *)
(** * The page allocator: runs that return

    Without untested memory, and with a free page or enough free descriptors,
    the functions that run while the memory lock is held return: no assertion
    fails, the descriptor stack does not overflow and the fuel is enough. *)
From Stdlib Require Import ZArith Lia.
From stdpp Require Import base option list.
From S2P Require Import Prelude StateMonad Gcd MemoryBin Page PageSample PageMap PageOps PageFind PageInv PageSteps PageStack.

(** No memory is left to promote, and the GCD is not being changed. *)
Definition Settled (st : PageState) : Prop := Tested st /\ mGcdMemorySpaceLock (Gcd_ st) = false.

Lemma Settled_grows st st' : Grows st st' -> Settled st -> Settled st'.
Proof.
  intros G [HT HK]. destruct (grows_tested _ _ _ G HT) as [E _]. split; [by apply (Tested_gcd st)|by rewrite E].
Qed.

(** ** The choice of pages *)

(** The highest place for [n] pages, 0 if there is none. *)
Definition Best (l : list MEMORY_MAP) (Max Min n b : Z) : Prop :=
  (b ≠ 0 -> Fits l Max Min n b) /\ forall b', Fits l Max Min n b' -> b' <= b.

(** A search below [Limit], which is made only if it is within [Max]. *)
Definition SearchBelow (l : list MEMORY_MAP) (Limit Max Min n b : Z) : Prop :=
  if Limit <=? Max then Best l Limit Min n b else b = 0.

(** First the bin of the type, then below the bins, then everywhere. *)
Definition Choice (st : PageState) (t Max n b : Z) : Prop :=
  exists p d,
    (if t <? EfiMaxMemoryType
     then exists s, mMemoryTypeStatistics (Bins st) !! Z.to_nat t = Some s /\
            SearchBelow (gMemoryMap st) (MaximumAddress s) Max (BaseAddress s) n p
     else p = 0) /\
    SearchBelow (gMemoryMap st) (mDefaultMaximumAddress (Bins st)) Max 0 n d /\
    (p ≠ 0 /\ b = p \/ p = 0 /\ d ≠ 0 /\ b = d \/ p = 0 /\ d = 0 /\ Best (gMemoryMap st) Max 0 n b).

Section Total.
Context {Env : PageEnvironment} {Off : GuardOff Env}.

Lemma PromoteLoop_tested FS Links : forall i P st,
  Forall (fun e => Promotable e = false) Links -> PromoteLoop FS Links i P st = Done (P, st).
Proof using.
  induction Links as [|e Links IH]; intros i P st H; [done|]. inversion H as [|? ? He HL]; subst. cbn [PromoteLoop]. rewrite He. by apply IH.
Qed.

Lemma PromoteMemoryResource_tested FS st : Settled st -> PromoteMemoryResource FS st = Done (false, st).
Proof using Off.
  intros [HT HK]. unfold PromoteMemoryResource.
  assert (OnGcd (fun g => g ← CoreAcquireGcdLock false g; Done (tt, g)) st = Done (tt, SetGcd (SetLock false true (Gcd_ st)) st)) as E1.
  { unfold OnGcd, Within, CoreAcquireGcdLock. simpl. by rewrite HK. }
  rewrite (SM_bind_run _ _ _ _ _ E1).
  rewrite (Get_run (S:=PageState)).
  rewrite (SM_bind_run _ _ _ _ _ (PromoteLoop_tested FS _ 0 false _ HT)).
  set (st1 := SetGcd _ st). assert (OnGcd (fun g => g ← CoreReleaseGcdLock false g; Done (tt, g)) st1 = Done (tt, st)) as E2.
  { transitivity (Done (tt, Unlocked st1)); [done|]. do 2 f_equal. transitivity (Unlocked st); [done|]. by apply Unlocked_id. }
  rewrite (SM_bind_run _ _ _ _ _ E2). cbn [negb]. by rewrite (SM_bind_run _ _ _ _ _ (no_guarded_pages _)).
Qed.

Lemma Best_found st Max Min n t :
  PageInv st -> Max < 2 ^ 64 -> 0 < n < 2 ^ 52 -> Best (gMemoryMap st) Max Min n (CoreFindFreePagesI Max Min n t 4096 false (gMemoryMap st)).
Proof using.
  intros HI HM Hn. destruct (wf_map _ (inv_wf _ HI)) as (HG & _).
  destruct (CoreFindFreePagesI_spec Max Min n t (gMemoryMap st) HG HM ltac:(lia)) as [H1 H2]. split; [intros H; by apply H1|intros b'; apply H2; lia].
Qed.

Lemma SearchBelow_found st Limit Max Min n t :
  PageInv st -> Max < 2 ^ 64 -> 0 < n < 2 ^ 52 ->
  SearchBelow (gMemoryMap st) Limit Max Min n
    (if Limit <=? Max then CoreFindFreePagesI Limit Min n t 4096 false (gMemoryMap st) else 0).
Proof using. intros HI HM Hn. unfold SearchBelow. destruct (Z.leb_spec Limit Max); [|done]. apply Best_found; [done|lia|done]. Qed.

(** One round of the search: it ends with the choice, if there is one, and
    changes the default base only, or it goes on with a promotion. *)
Lemma FindFreePages_round FS fuel Max n t st :
  PageInv st -> Max < 2 ^ 64 -> 0 < n < 2 ^ 52 ->
  exists b B, BinsOk B /\ Choice st t Max n b /\ (b = 0 -> B = Bins st) /\
    FindFreePagesLoop FS (S fuel) Max n t 4096 false st =
    if b =? 0 then (Promoted ← PromoteMemoryResource FS; if negb Promoted then mret 0 else FindFreePagesLoop FS fuel Max n t 4096 false) st
    else Done (b, SetBins B st).
Proof using.
  intros HI HM Hn. cbn [FindFreePagesLoop]. rewrite !(Get_run (S:=PageState)). pose proof (inv_bins _ HI) as HB.
  assert (SetBins (Bins st) st = st) as Eid by (by destruct st).
  match goal with |- context [(?m ≫= _) st] => assert (exists p, m st = Done (p, st) /\
    (if t <? EfiMaxMemoryType then exists s, mMemoryTypeStatistics (Bins st) !! Z.to_nat t = Some s /\
       SearchBelow (gMemoryMap st) (MaximumAddress s) Max (BaseAddress s) n p else p = 0)) as (p & Ep & HP) end.
  { destruct (Z.ltb_spec t EfiMaxMemoryType); [|by exists 0].
    destruct (lookup_lt_is_Some_2 (mMemoryTypeStatistics (Bins st)) (Z.to_nat t)) as [s Hs]; [unfold EfiMaxMemoryType in *; destruct HB; lia|].
    rewrite Hs. eexists. split; [done|]. exists s. split; [done|]. by apply SearchBelow_found. }
  rewrite (SM_bind_run _ _ _ _ _ Ep). destruct (Z.eqb_spec p 0) as [Hp|Hp]; cbn [negb].
  2: { exists p, (Bins st). rewrite (proj2 (Z.eqb_neq p 0) Hp), Eid. split_and!; [done| |done|done].
    eexists p, _. split_and!; [done|by apply (SearchBelow_found _ _ _ _ _ t)|by left]. }
  pose proof (SearchBelow_found st (mDefaultMaximumAddress (Bins st)) Max 0 n t HI HM Hn) as HD.
  set (d := if _ <=? _ then _ else _) in HD |- *. destruct (Z.eqb_spec d 0) as [Hd|Hd]; cbn [negb].
  2: { assert (Choice st t Max n d) as HC by (exists p, d; split_and!; [done|done|right; by left]).
    exists d. rewrite (proj2 (Z.eqb_neq d 0) Hd). destruct (d <? _); [|exists (Bins st); rewrite Eid; by split_and!].
    exists (SetDefaultBase d (Bins st)). split_and!; [exact HB|done|done|by rewrite (Change_run (S:=PageState))]. }
  pose proof (Best_found st Max 0 n t HI HM Hn) as HA. set (a := CoreFindFreePagesI _ _ _ _ _ _ _) in HA |- *.
  assert (Choice st t Max n a) as HC by (exists p, d; split_and!; [done|done|right; by right]).
  exists a, (Bins st). rewrite Eid. split_and!; [done|done|done|]. by destruct (Z.eqb_spec a 0).
Qed.

(** The search returns the choice; if there is none and untested memory is
    promoted, it returns the choice among the memory that there is then. *)
Lemma FindFreePages_search FS Max n t st :
  PageInv st -> Max < 2 ^ 64 -> 0 < n < 2 ^ 52 ->
  exists b B, BinsOk B /\ Choice st t Max n b /\ (b = 0 -> B = Bins st) /\
    (b ≠ 0 \/ Settled st -> FindFreePages FS Max n t 4096 false st = Done (b, SetBins B st)) /\
    (b = 0 -> forall st1, PromoteMemoryResource FS st = Done (true, st1) -> PageInv st1 -> Settled st1 ->
       exists b1 B1, BinsOk B1 /\ Choice st1 t Max n b1 /\ (b1 = 0 -> B1 = Bins st1) /\
         FindFreePages FS Max n t 4096 false st = Done (b1, SetBins B1 st1)).
Proof using Off.
  intros HI HM Hn. unfold FindFreePages. rewrite (Get_run (S:=PageState)). generalize (length (filter (fun e => Promotable e = true) (mGcdMemorySpaceMap (Gcd_ st)))).
  assert (Last : forall fuel st, PageInv st -> exists b B, BinsOk B /\ Choice st t Max n b /\ (b = 0 -> B = Bins st) /\
    (b ≠ 0 \/ Settled st -> FindFreePagesLoop FS (S fuel) Max n t 4096 false st = Done (b, SetBins B st)) /\
    (b = 0 -> FindFreePagesLoop FS (S fuel) Max n t 4096 false st =
       (Promoted ← PromoteMemoryResource FS; if negb Promoted then mret 0 else FindFreePagesLoop FS fuel Max n t 4096 false) st)).
  { clear st HI. intros fuel st HI. destruct (FindFreePages_round FS fuel Max n t st HI HM Hn) as (b & B & HB & HC & H0 & E). exists b, B.
    rewrite E. split_and!; [done|done|done| |by intros ->]. intros HS. destruct (Z.eqb_spec b 0) as [->|Hb]; [|done]. destruct HS as [?|HS]; [done|].
    rewrite (SM_bind_run _ _ _ _ _ (PromoteMemoryResource_tested _ st HS)), (H0 eq_refl). by destruct st. }
  intros fuel. destruct (Last (S fuel) st HI) as (b & B & HB & HC & H0 & H1 & H2). exists b, B. split_and!; [done|done|done|exact H1|].
  intros Hb st1 EP HI1 HS1. destruct (Last fuel st1 HI1) as (b1 & B1 & HB1 & HC1 & H01 & H11 & _). exists b1, B1. split_and!; [done|done|done|].
  rewrite (H2 Hb), (SM_bind_run _ _ _ _ _ EP). cbn [negb]. apply H11. by right.
Qed.

Lemma FindFreePages_total FS Max n t st :
  PageInv st -> Settled st -> Max < 2 ^ 64 -> 0 < n < 2 ^ 52 ->
  exists b B, FindFreePages FS Max n t 4096 false st = Done (b, SetBins B st) /\ BinsOk B /\ Choice st t Max n b.
Proof using Off.
  intros HI HS HM Hn. destruct (FindFreePages_search FS Max n t st HI HM Hn) as (b & B & HB & HC & _ & E & _). exists b, B.
  split_and!; [apply E; by right|done|done].
Qed.

Lemma Choice_fits st t Max n b : PageInv st -> Choice st t Max n b -> b ≠ 0 -> Fits (gMemoryMap st) Max 0 n b.
Proof using.
  intros HI (p & d & HP & HD & HC) Hb. destruct (wf_map _ (inv_wf _ HI)) as (HG & _).
  assert (forall Limit Min c, SearchBelow (gMemoryMap st) Limit Max Min n c -> c ≠ 0 -> Fits (gMemoryMap st) Max 0 n c) as HH.
  { intros Limit Min c. unfold SearchBelow. destruct (Z.leb_spec Limit Max); [|done]. intros [H1 _] Hc.
    apply (Fits_low _ _ Min); [done|]. by eapply Fits_mono; [..|apply H1]. }
  destruct HC as [[? ->]|[(_ & ? & ->)|(_ & _ & [H _])]]; [|by eapply HH|auto].
  destruct (t <? _); [|done]. destruct HP as (s & _ & HP). by eapply HH.
Qed.

(** Nothing is found only if there is nothing above page 0. *)
Lemma Choice_none st t Max n b' : PageInv st -> Choice st t Max n 0 -> Fits (gMemoryMap st) Max 0 n b' -> b' = 0.
Proof using.
  intros HI (p & d & _ & _ & HC) HF. destruct (Fits_bounds _ _ _ _ HI HF) as (Hb & _).
  destruct HC as [[? ?]|[(_ & ? & ?)|(_ & _ & [_ H])]]; [congruence..|]. specialize (H b' HF). lia.
Qed.

(** ** A free page *)

Definition FreePage (st : PageState) (b : Z) : Prop :=
  b ≠ 0 /\ PageAligned b /\ exists x, at_address st b = Some (EfiConventionalMemory, x) /\ HasFlag x EFI_MEMORY_SP = false.

Lemma FreePage_fits st b : PageInv st -> FreePage st b -> Fits (gMemoryMap st) MAX_ALLOC_ADDRESS 0 1 b.
Proof using.
  intros HI (_ & Ab & x & E & Hx). destruct (wf_map _ (inv_wf _ HI)) as (HG & HS & _). apply look_Some in E as (d & Hd & Hi & Hv); [|done].
  rewrite Forall_forall in HG. destruct (HG d Hd) as (As & Ae & ? & ?). unfold inside in Hi.
  assert (b + 4095 <= MEnd d) by (unfold PageAligned in *; Z.div_mod_to_equations; lia). injection Hv as Ht Hxx.
  split_and!; [done|lia|unfold MAX_ALLOC_ADDRESS; lia|]. exists d. split_and!; [done|done|by rewrite Hxx|lia|lia].
Qed.

(** ** Taking a range *)

(** Everything before the stack is emptied. *)
Lemma Convert_take_run FS fuel s e n t st :
  PageInv st -> gMemoryLock st = true -> PageAligned s -> PageAligned (e + 1) -> s < e -> t ≠ EfiConventionalMemory ->
  ~ Unfit st s e t -> (mMapDepth st + 2 < MAX_MAP_DEPTH)%nat ->
  exists b x st1, BinsOk b /\ (mMapDepth st < mMapDepth st1 <= mMapDepth st + 2)%nat /\
    (forall a, s <= a <= e -> at_address st a = Some (EfiConventionalMemory, x)) /\
    Changed (SetBins b st) st1 (set_range s e (Some (t, x)) (at_address st)) /\
    ConvertLoop FS (S fuel) s e n true t false 0 st = (FS ;; mret EFI_SUCCESS) st1.
Proof using Off.
  intros HI Hl As Ae Hs Ht HU Hd. destruct (FindEntry s (gMemoryMap st)) as [d|] eqn:EF; [|by destruct HU; left].
  destruct (Refused e true t d) eqn:ER; [destruct HU; right; by exists d|].
  destruct (ConvertLoop_round FS fuel s e n true t false 0 st d (inv_bins st HI) Hs EF ER) as (b & Hb & ->).
  unfold Refused in ER. apply orb_false_iff in ER as [ER1 ER2]. rewrite (proj2 (Z.eqb_neq t _) Ht) in ER1, ER2. simpl in ER1, ER2.
  rewrite ER1. apply Z.ltb_ge in ER1. destruct (Z.eqb_spec (MType d) EfiConventionalMemory) as [Hc|]; [|done].
  apply FindEntry_Some in EF as [Hdl Hds]. pose proof (inv_wf st HI) as Hw.
  destruct (piece_good st d s e Hw Hdl Hds As Ae Hs) as (HG & _). rewrite (proj2 (Z.ltb_ge (MEnd d) e)) in HG by done.
  destruct (Replace_run d s e t (MAttribute d) (SetBins b st)) as [[_ ?]|(st1 & E1 & D1 & HC)];
    [apply (PageInv_bins b st Hb HI)|done|done|done|lia|done|simpl in *; lia|].
  exists b, (MAttribute d), st1. split_and!; [done|apply D1|apply D1| |done|].
  - intros a Ha. rewrite (look_inside st d a Hw Hdl) by (unfold inside; lia). unfold value. by rewrite Hc.
  - cbn [NewValue fst snd]. rewrite (SM_bind_run _ _ _ _ _ E1). unfold mbind, SM_bind. destruct (FS st1) as [[u st2]| |]; [|done..].
    destruct HG as (_ & _ & ? & ?). by rewrite ConvertLoop_end by (rewrite add64_small; lia).
Qed.

(** ** A descriptor *)

Lemma AllocateMemoryMapEntry_spare FS st p l :
  mFreeMemoryMapEntryList st = p :: l -> AllocateMemoryMapEntry FS st = Done (p, SetFreeList l st).
Proof using.
  intros E. unfold AllocateMemoryMapEntry. rewrite (Get_run (S:=PageState)), E. rewrite bool_decide_eq_false_2 by done.
  rewrite (ret_run (S:=PageState)). cbn [negb]. rewrite (Get_run (S:=PageState)), E. done.
Qed.

Lemma FreeMemoryMapStack_busy fuel st : gMemoryLock st = true -> mFreeMapStack st ≠ 0 -> FreeMemoryMapStack (S fuel) st = Done (tt, st).
Proof using.
  intros Hl Hb. cbn [FreeMemoryMapStack]. rewrite (SM_bind_run _ _ _ _ _ (memory_locked_run st Hl)), (Get_run (S:=PageState)).
  by rewrite (proj2 (Z.eqb_neq _ _) Hb).
Qed.

Lemma AllocateMemoryMapEntry_refill fuel st b :
  PageInv st -> gMemoryLock st = true -> mFreeMapStack st ≠ 0 -> Settled st -> (mMapDepth st + 2 < MAX_MAP_DEPTH)%nat ->
  mFreeMemoryMapEntryList st = [] -> FreePage st b ->
  exists p st1, AllocateMemoryMapEntry (FreeMemoryMapStack (S fuel)) st = Done (p, st1) /\ p ≠ 0 /\
    (mMapDepth st < mMapDepth st1 <= mMapDepth st + 2)%nat /\ (63 <= length (mFreeMemoryMapEntryList st1))%nat.
Proof using Off.
  intros HI Hl Hbusy HS Hd EF HFP. unfold AllocateMemoryMapEntry. rewrite (Get_run (S:=PageState)), bool_decide_eq_true_2 by done.
  change (EFI_SIZE_TO_PAGES DEFAULT_PAGE_ALLOCATION_GRANULARITY) with 1. change DEFAULT_PAGE_ALLOCATION_GRANULARITY with 4096 at 1.
  destruct (FindFreePages_total (FreeMemoryMapStack (S fuel)) MAX_ALLOC_ADDRESS 1 EfiBootServicesData st HI HS eq_refl ltac:(lia))
    as (b1 & B & E1 & HB & HC).
  assert (b1 ≠ 0) as Hb1 by (intros ->; by apply (proj1 HFP), (Choice_none _ _ _ _ _ HI HC), FreePage_fits).
  pose proof (Choice_fits _ _ _ _ _ HI HC Hb1) as HF. destruct (Fits_bounds _ _ _ _ HI HF) as (? & ? & Ab).
  pose proof (PageInv_bins B st HB HI) as HI1.
  destruct (Convert_take_run (FreeMemoryMapStack (S fuel)) 0 b1 (b1 + 4096 * 1 - 1) 1 EfiBootServicesData (SetBins B st))
    as (b2 & x & st2 & _ & D2 & _ & C2 & E2); [done|done|done|by apply pages_end|lia|done|by apply (Fits_fit _ MAX_ALLOC_ADDRESS)|exact Hd|].
  pose proof (changed_frame _ _ _ C2) as FR. unfold frame_of in FR. simpl in FR. injection FR as F1 F2 F3 F4.
  assert (CoreAllocatePoolPages (FreeMemoryMapStack (S fuel)) EfiBootServicesData 1 4096 false st = Done (b1, st2)) as E3.
  { unfold CoreAllocatePoolPages. rewrite (SM_bind_run _ _ _ _ _ E1), (proj2 (Z.eqb_neq _ _) Hb1). unfold CoreConvertPages.
    assert (CoreConvertPagesEx (FreeMemoryMapStack (S fuel)) b1 1 true EfiBootServicesData false 0 (SetBins B st) = Done (EFI_SUCCESS, st2)) as E3; [|by rewrite (SM_bind_run _ _ _ _ _ E3)].
    rewrite CoreConvertPagesEx_loop by (done || lia). change (Z.to_nat 1) with 1%nat. rewrite E2.
    by rewrite (SM_bind_run _ _ _ _ _ (FreeMemoryMapStack_busy fuel st2 ltac:(congruence) ltac:(congruence))). }
  unfold mbind at 1. unfold SM_bind at 1. rewrite (SM_bind_run _ _ _ _ _ E3), (proj2 (Z.eqb_neq _ _) Hb1). cbn [negb].
  rewrite (Change_run (S:=PageState)). unfold mret at 1, SM_ret at 1. cbn [negb]. rewrite (Get_run (S:=PageState)).
  match goal with |- context [SetFreeList (mFreeMemoryMapEntryList st2 ++ ?l) st2] =>
    change (SetFreeList (mFreeMemoryMapEntryList st2 ++ l) st2) with (AddDescriptors (descriptors_in b1) st2) end.
  assert (length (mFreeMemoryMapEntryList (AddDescriptors (descriptors_in b1) st2)) = (length (mFreeMemoryMapEntryList st2) + 64)%nat) as EL.
  { simpl. by rewrite length_app. }
  destruct (mFreeMemoryMapEntryList (AddDescriptors (descriptors_in b1) st2)) as [|p l] eqn:El; [simpl in EL; lia|].
  exists p, (SetFreeList l (AddDescriptors (descriptors_in b1) st2)). split_and!; [done| |apply D2|apply D2|simpl in *; lia].
  assert (p ∈ mFreeMemoryMapEntryList (AddDescriptors (descriptors_in b1) st2)) as Hp by (rewrite El; by left).
  simpl in Hp. apply elem_of_app in Hp as [Hp|Hp%descriptors_bounds]; [|lia].
  apply (inv_desc _ HI1), (changed_pages _ _ _ C2). unfold nodes_of. apply elem_of_app. right. by apply list_elem_of_fmap_2.
Qed.

(** ** Emptying the stack *)

Lemma Putback_spare st p l : mFreeMemoryMapEntryList st = p :: l -> Putback p (SetFreeList l st) = st.
Proof using. intros E. unfold Putback. simpl. rewrite <- E. by destruct st. Qed.

Lemma FreeStackLoop_done FS fuel st : mMapDepth st = 0%nat -> FreeStackLoop FS fuel st = Done (tt, st).
Proof using. intros E. destruct fuel; cbn [FreeStackLoop]; by rewrite (Get_run (S:=PageState)), E. Qed.

(** With a free descriptor for each one on the stack. *)
Lemma FreeStackLoop_spare FS d : forall fuel st,
  PageInv st -> mMapDepth st = d -> (d <= fuel)%nat -> (d <= length (mFreeMemoryMapEntryList st))%nat ->
  exists st', FreeStackLoop FS fuel st = Done (tt, st') /\ mMapDepth st' = 0%nat /\ (forall a, at_address st' a = at_address st a) /\
    (length (mFreeMemoryMapEntryList st) <= length (mFreeMemoryMapEntryList st') + d)%nat.
Proof using.
  induction d as [|d IH]; intros fuel st HI Ed Hf Hl.
  { exists st. rewrite FreeStackLoop_done by done. split_and!; [done..|lia]. }
  destruct fuel as [|fuel]; [lia|]. destruct (mFreeMemoryMapEntryList st) as [|p l] eqn:EF; [simpl in Hl; lia|].
  pose proof (Putback_spare _ _ _ EF) as EP.
  destruct (FreeStackLoop_pop FS fuel st p (SetFreeList l st)) as (st2 & -> & HI2 & _ & EA & E2 & L2).
  - congruence.
  - by apply AllocateMemoryMapEntry_spare.
  - apply (inv_desc _ HI). unfold nodes_of. rewrite EF. apply elem_of_app. right. by left.
  - by rewrite EP.
  - simpl in *. destruct (IH fuel st2 HI2) as (st' & -> & D' & EA' & L'); [simpl in *; lia..|].
    exists st'. split_and!; [done|done| |lia]. intros a. by rewrite EA', EA.
Qed.

Lemma FreePage_ext st st' b : (forall a, at_address st' a = at_address st a) -> FreePage st b -> FreePage st' b.
Proof using. intros E (? & ? & x & Hx). split_and!; [done|done|]. exists x. by rewrite E. Qed.

(** With a page for descriptors, which adds at most two to the stack. *)
Lemma FreeStackLoop_page f d : forall fuel st b,
  PageInv st -> gMemoryLock st = true -> mFreeMapStack st ≠ 0 -> Settled st -> mMapDepth st = d -> (d + 2 < MAX_MAP_DEPTH)%nat ->
  (d + 2 <= fuel)%nat -> FreePage st b -> exists st', FreeStackLoop (FreeMemoryMapStack (S f)) fuel st = Done (tt, st') /\ mMapDepth st' = 0%nat.
Proof using Off.
  induction d as [|d IH]; intros fuel st b HI Hl Hb HS Ed Hd Hf HFP.
  { exists st. by rewrite FreeStackLoop_done. }
  destruct fuel as [|fuel]; [lia|]. pose proof (FreeMemoryMapStack_grow (S f)) as HFS. destruct (mFreeMemoryMapEntryList st) as [|p l] eqn:EF.
  - destruct (AllocateMemoryMapEntry_refill f st b) as (p & st1 & E1 & Hp & D1 & L1); [by rewrite ?Ed..|].
    destruct (AllocateMemoryMapEntry_spec _ HFS st p st1 HI Hl E1 Hp) as [HI1 G1].
    destruct (FreeStackLoop_pop (FreeMemoryMapStack (S f)) fuel st p st1) as (st2 & -> & HI2 & _ & _ & E2 & L2); [congruence|done..|].
    destruct (FreeStackLoop_spare (FreeMemoryMapStack (S f)) (mMapDepth st2) fuel st2) as (st' & -> & D' & _);
      [done|done|unfold MAX_MAP_DEPTH in *; lia..|]. by exists st'.
  - pose proof (Putback_spare _ _ _ EF) as EP.
    destruct (FreeStackLoop_pop (FreeMemoryMapStack (S f)) fuel st p (SetFreeList l st)) as (st2 & -> & HI2 & G2 & EA & E2 & L2).
    + congruence.
    + by apply AllocateMemoryMapEntry_spare.
    + apply (inv_desc _ HI). unfold nodes_of. rewrite EF. apply elem_of_app. right. by left.
    + by rewrite EP.
    + rewrite EP in G2. pose proof (grows_flags _ _ _ G2) as FL. unfold flags_of in FL. injection FL as F1 F2 F3. simpl in E2.
      apply (IH fuel st2 b); [done|congruence|congruence|by apply (Settled_grows st)|lia|lia|lia|by apply (FreePage_ext st)].
Qed.

(** There is a free descriptor for each one on the stack, or a page for them. *)
Definition Room (st : PageState) : Prop :=
  (mMapDepth st <= length (mFreeMemoryMapEntryList st))%nat \/ Settled st /\ exists b, FreePage st b.

Lemma empty_stack_total st :
  PageInv st -> gMemoryLock st = true -> mFreeMapStack st = 0 -> (mMapDepth st + 2 < MAX_MAP_DEPTH)%nat -> Room st ->
  exists st', CoreFreeMemoryMapStack st = Done (tt, st') /\ mMapDepth st' = 0%nat /\
    ((mMapDepth st <= length (mFreeMemoryMapEntryList st))%nat -> (forall a, at_address st' a = at_address st a) /\
       (length (mFreeMemoryMapEntryList st) <= length (mFreeMemoryMapEntryList st') + mMapDepth st)%nat).
Proof using Off.
  intros HI Hl Hb Hd HR. unfold CoreFreeMemoryMapStack. cbn [FreeMemoryMapStack].
  rewrite (SM_bind_run _ _ _ _ _ (memory_locked_run st Hl)), (Get_run (S:=PageState)), Hb. cbn [negb Z.eqb].
  rewrite (Change_run (S:=PageState)). set (st1 := SetFreeMapStack _ st). pose proof (PageInv_stack (0 + 1) st HI) as HI1. fold st1 in HI1.
  destruct (decide (mMapDepth st <= length (mFreeMemoryMapEntryList st))%nat) as [Hsp|Hsp].
  - destruct (FreeStackLoop_spare (FreeMemoryMapStack 1) (mMapDepth st) (2 * MAX_MAP_DEPTH) st1 HI1 eq_refl) as (st2 & E2 & D2 & EA & L2);
      [unfold MAX_MAP_DEPTH in *; lia|done|].
    eexists. split; [by rewrite (SM_bind_run _ _ _ _ _ E2)|]. by split_and!.
  - destruct HR as [?|[HS [b HFP]]]; [done|].
    destruct (FreeStackLoop_page 0 (mMapDepth st) (2 * MAX_MAP_DEPTH) st1 b) as (st2 & E2 & D2);
      [done..|unfold MAX_MAP_DEPTH in *; lia|done|].
    eexists. split; [by rewrite (SM_bind_run _ _ _ _ _ E2)|]. split; [done|]. intros ?. done.
Qed.

(** ** Ranges in one descriptor *)

(** The range has one value. *)
Definition Uniform (st : PageState) (s e : Z) (v : Z * Z) : Prop := forall a, s <= a <= e -> at_address st a = Some v.

Lemma Uniform_find st s e v : PageInv st -> PageAligned s -> s < e -> Uniform st s e v ->
  exists d, FindEntry s (gMemoryMap st) = Some d /\ value d = v /\ e <= MEnd d.
Proof using.
  intros HI As Hs HU. pose proof (inv_wf st HI) as Hw. destruct (wf_map st Hw) as (HG & HS & HM).
  pose proof (FindEntry_look st s Hw As) as EF. rewrite (HU s ltac:(lia)) in EF. apply fmap_Some in EF as (d & EF & Ev).
  exists d. split_and!; [done|done|]. apply FindEntry_Some in EF as [Hd Hds]. apply Z.nlt_ge. intros Hlt.
  pose proof (HU (MEnd d + 1) ltac:(lia)) as Hn. apply look_Some in Hn as (d2 & Hd2 & Hi2 & Hv2); [|done].
  destruct (Separate_inv _ d d2 HS Hd Hd2) as [->|Hap]; [unfold inside in Hi2; lia|].
  apply (HM d d2 Hd Hd2); [congruence|]. unfold apart, apart_from, inside in *. lia.
Qed.

Lemma Unfit_iff st s e t : PageInv st -> PageAligned s -> s < e -> t ≠ EfiConventionalMemory ->
  Unfit st s e t <-> ~ exists x, Uniform st s e (EfiConventionalMemory, x).
Proof using.
  intros HI As Hs Ht. pose proof (inv_wf st HI) as Hw. split.
  - intros HU [x HX]. destruct (Uniform_find _ _ _ _ HI As Hs HX) as (d & E & Hv & He). injection Hv as Hc _.
    destruct HU as [HU|(d' & HU & HR)]; [congruence|]. rewrite E in HU. injection HU as <-. unfold Refused in HR.
    rewrite Hc, (proj2 (Z.eqb_neq t _) Ht), (proj2 (Z.ltb_ge _ _) He) in HR. done.
  - intros HX. destruct (FindEntry s (gMemoryMap st)) as [d|] eqn:E; [|by left]. right. exists d. split; [done|].
    destruct (Refused e true t d) eqn:HR; [done|]. destruct HX. exists (MAttribute d). intros a Ha. apply FindEntry_Some in E as [Hd Hds].
    unfold Refused in HR. apply orb_false_iff in HR as [HR1 HR2]. rewrite (proj2 (Z.eqb_neq t _) Ht) in HR1, HR2. simpl in HR1, HR2.
    apply Z.ltb_ge in HR1. destruct (Z.eqb_spec (MType d) EfiConventionalMemory) as [Hc|]; [|done].
    rewrite (look_inside st d a Hw Hd) by (unfold inside; lia). unfold value. by rewrite Hc.
Qed.

(** ** Freeing a range *)

Lemma Convert_free_run FS fuel s e n st :
  PageInv st -> gMemoryLock st = true -> PageAligned s -> PageAligned (e + 1) -> s < e -> Owned st s e ->
  (mMapDepth st + 2 < MAX_MAP_DEPTH)%nat ->
  exists b r st1, BinsOk b /\ s < r <= e /\ PageAligned (r + 1) /\ (mMapDepth st < mMapDepth st1 <= mMapDepth st + 2)%nat /\
    (forall v, Uniform st s e v -> r = e) /\ Changed (SetBins b st) st1 (freed_range s r (at_address st)) /\
    ConvertLoop FS (S fuel) s e n true EfiConventionalMemory false 0 st =
      (FS ;; ConvertLoop FS fuel (r + 1) e n true EfiConventionalMemory false 0) st1.
Proof using Off.
  intros HI Hl As Ae Hs HO Hdep. pose proof (inv_wf st HI) as Hw. destruct (Owned_find st s e HI HO As Hs) as (d & EF & Hc).
  assert (Refused e true EfiConventionalMemory d = false) as ER by (unfold Refused; simpl; by rewrite (proj2 (Z.eqb_neq (MType d) _) Hc)).
  destruct (ConvertLoop_round FS fuel s e n true EfiConventionalMemory false 0 st d (inv_bins st HI) Hs EF ER) as (b & Hb & ->).
  pose proof (FindEntry_Some _ _ _ EF) as [Hd Hds].
  destruct (piece_good st d s e Hw Hd Hds As Ae Hs) as (HG & Hrd & Hre & Hr). set (r := if MEnd d <? e then MEnd d else e) in *.
  destruct (Replace_run d s r EfiConventionalMemory (MAttribute d) (SetBins b st)) as [[_ ?]|(st1 & E1 & D1 & HC)];
    [apply (PageInv_bins b st Hb HI)|done|done|done|lia|done|simpl in *; lia|].
  pose proof HG as (_ & Ar & ? & ?). exists b, r, st1. split_and!; [done|lia|done|done|apply D1|apply D1| | |].
  - intros v HU. destruct (Uniform_find st s e v HI As Hs HU) as (d' & E' & _ & He). rewrite EF in E'. injection E' as <-.
    unfold r. destruct (Z.ltb_spec (MEnd d) e); lia.
  - eapply Changed_ext; [|exact HC]. intros a. unfold set_range, freed_range. destruct (within s r a) eqn:Ew; [|done].
    apply within_spec in Ew. change (gMemoryMap (SetBins b st)) with (gMemoryMap st) in *.
    by rewrite (look_inside st d a Hw Hd) by (unfold inside; lia).
  - cbn [NewValue fst snd]. rewrite (SM_bind_run _ _ _ _ _ E1). by rewrite add64_small by lia.
Qed.

(** Nothing in the range is for a specific purpose. *)
Definition NoSpecific (st : PageState) (s e : Z) : Prop :=
  forall a v, s <= a <= e -> at_address st a = Some v -> HasFlag v.2 EFI_MEMORY_SP = false.

Lemma Owned_rest s r e st st1 :
  Owned st s e -> s <= r -> Changed st st1 (freed_range s r (at_address st)) -> Owned st1 (r + 1) e.
Proof using.
  intros [HO HN] Hr HC. split.
  - intros a Ha. destruct (HO a ltac:(lia)) as (v & Ea & Hv). exists v. split; [|done]. unfold at_address. rewrite (changed_look _ _ _ HC), freed_out by lia. done.
  - intros p Hp%(changed_pages _ _ _ HC) Ha. apply (HN p Hp). lia.
Qed.

Lemma Freed_inv s r e st st1 : PageInv st -> Owned st s e -> r <= e -> Changed st st1 (freed_range s r (at_address st)) -> PageInv st1.
Proof using.
  intros [W B D U] [HO HN] Hr [W' L' F' B' P' _]. unfold frame_of in F'. split; [done|auto| |].
  - intros p Hp%P'. destruct (D p Hp) as [H0 [x Hx]]. split; [done|]. exists x. unfold at_address. rewrite L', freed_out; [done|].
    intros Ha. apply (HN p Hp). lia.
  - apply (UntestedOk_mono st); [congruence| |done]. intros a Ha. unfold at_address. rewrite L'. unfold freed_range. rewrite Ha.
    by destruct (within s r a).
Qed.

(** Emptying the descriptor stack ends: with at most three descriptors on
    the stack, and a free descriptor for each of them or a free page, no
    assertion fails, although the page that may be allocated for descriptors
    pushes more of them; afterwards the stack is empty and the invariant holds.
    With enough free descriptors the map does not change. *)
Theorem CoreFreeMemoryMapStack_total st :
  PageInv st -> gMemoryLock st = true -> mFreeMapStack st = 0 -> (mMapDepth st <= 3)%nat -> Room st ->
  exists st', CoreFreeMemoryMapStack st = Done (tt, st') /\ mMapDepth st' = 0%nat /\ PageInv st' /\ Grows st st' /\
    ((mMapDepth st <= length (mFreeMemoryMapEntryList st))%nat -> forall a, at_address st' a = at_address st a).
Proof using Off.
  intros HI Hl Hb Hd HR. destruct (empty_stack_total st HI Hl Hb ltac:(unfold MAX_MAP_DEPTH; lia) HR) as (st' & E & D & HX).
  destruct (CoreFreeMemoryMapStack_grow st tt st' HI Hl E) as [HI' G]. exists st'. split_and!; [done..|]. intros Hsp. by apply HX.
Qed.
End Total.

(** ** The first memory of the small machine *)

#[export] Instance SampleOff : GuardOff SampleEnv.
Proof. by split. Qed.

Definition SampleLocked : PageState := SetMemoryLock true SampleEmpty.
Definition SampleStack : PageState := after (CoreAddRange EfiConventionalMemory 0x100000 0x10FFFF 0xF) SampleLocked.

Lemma SampleLocked_inv : PageInv SampleLocked.
Proof.
  split; [split; [| | |unfold MAX_MAP_DEPTH; simpl; lia]|by split| |].
  - split_and!; [constructor|done|by intros ? ? ?%elem_of_nil].
  - constructor.
  - by intros i ?%elem_of_nil.
  - by intros p ?%elem_of_nil.
  - intros i e Hi. destruct i; discriminate Hi.
Qed.

Lemma SampleStack_changed : Changed SampleLocked SampleStack (set_range 0x100000 0x10FFFF (Some (EfiConventionalMemory, 0xF)) (at_address SampleLocked)).
Proof.
  destruct (CoreAddRange_run EfiConventionalMemory 0x100000 0x10FFFF 0xF SampleLocked (inv_wf _ SampleLocked_inv) eq_refl)
    as [[_ H]|(st & E & _ & HC)]; [by split_and!|done|unfold MAX_MAP_DEPTH in H; simpl in H; lia|].
  assert (SampleStack = st) as -> by (unfold SampleStack, after; by rewrite E). exact HC.
Qed.

Lemma SampleStack_inv : PageInv SampleStack.
Proof. eapply Changed_add_inv; [apply SampleLocked_inv|apply SampleStack_changed|done|]. intros i e Hi. destruct i; discriminate Hi. Qed.

Lemma CoreFreeMemoryMapStack_total_witness : exists st', CoreFreeMemoryMapStack SampleStack = Done (tt, st') /\ mMapDepth st' = 0%nat.
Proof.
  destruct (CoreFreeMemoryMapStack_total (Env:=SampleEnv) SampleStack SampleStack_inv eq_refl eq_refl) as (st' & E & D & _).
  - apply Nat.leb_le. vm_compute. reflexivity.
  - right. split; [split; [constructor|reflexivity]|]. exists 0x100000. split_and!; [lia|reflexivity|]. exists 0xF. split; [|reflexivity].
    unfold at_address. by rewrite (changed_look _ _ _ SampleStack_changed).
  - by exists st'.
Defined.
