(* ===== verification/PageServices.v ===== *)
(** * The page allocator: the services

    Conversions, requests and freeing with the memory lock held, from an empty
    descriptor stack to an empty one, and what is left of the services once
    their arguments are checked.  [Idle] holds between the services. *)
From Stdlib Require Import ZArith Lia.
From stdpp Require Import base option list.
From S2P Require Import Prelude StateMonad Gcd MemoryBin Page PageMap PageOps PageFind PageInv PageSteps PageStack PageTotal.

(** What runs when the lock is released, the profile and the protection policy
    leave the allocator alone. *)
Class Quiet {Env : PageEnvironment} : Prop := {
  quiet_drop : forall st, DropMemoryLock st = Done (tt, st);
  quiet_freed : forall a n st, GuardFreedPagesChecked a n st = Done (tt, st);
  quiet_policy : forall t t' a n st, ApplyMemoryProtectionPolicy t t' a n st = Done (tt, st);
  quiet_profile : forall t n a st, CoreUpdateProfile t n a st = Done (tt, st);
  quiet_table : forall t st, InstallMemoryAttributesTableOnMemoryAllocation t st = Done (tt, st) }.
Arguments Quiet : clear implicits.

(** Between the steps of a service the stack is empty. *)
Record Calm (st : PageState) : Prop := {
  calm_inv : PageInv st;
  calm_depth : mMapDepth st = 0%nat;
  calm_stack : mFreeMapStack st = 0 }.

Definition Idle (st : PageState) : Prop := Calm st /\ gMemoryLock st = false.
Definition Busy (st : PageState) : Prop := Calm st /\ gMemoryLock st = true.

Lemma PageInv_lock v st : PageInv st -> PageInv (SetMemoryLock v st).
Proof. intros [[] B D U]. by split. Qed.

Lemma Calm_lock v st : Calm st -> Calm (SetMemoryLock v st).
Proof. intros [HI ? ?]. split; [by apply PageInv_lock|done..]. Qed.

Lemma Calm_bins b st : BinsOk b -> Calm st -> Calm (SetBins b st).
Proof. intros Hb [HI ? ?]. split; [by apply PageInv_bins|done..]. Qed.

Section Services.
Context {Env : PageEnvironment} {Off : GuardOff Env}.

(** ** Conversions *)

(** There are two free descriptors, or a free page outside the range. *)
Definition RoomOutside (st : PageState) (s e : Z) : Prop :=
  (2 <= length (mFreeMemoryMapEntryList st))%nat \/ Settled st /\ exists b, FreePage st b /\ ~ s <= b <= e.

(** The map is exactly [m], with at most [k] descriptors fewer. *)
Definition Exact (m : Z -> option (Z * Z)) (k : nat) (st st' : PageState) : Prop :=
  (forall a, at_address st' a = m a) /\ (length (mFreeMemoryMapEntryList st) <= length (mFreeMemoryMapEntryList st') + k)%nat.

Lemma Busy_bins b st : BinsOk b -> Busy st -> Busy (SetBins b st).
Proof using. intros Hb [HC Hl]. split; [by apply Calm_bins|done]. Qed.

(** From a change of the map to the empty stack. *)
Lemma finish_total st st1 m :
  Busy st -> PageInv st1 -> Changed st st1 m -> (mMapDepth st < mMapDepth st1 <= mMapDepth st + 2)%nat ->
  (2 <= length (mFreeMemoryMapEntryList st))%nat \/ Settled st /\ (exists b, FreePage st1 b) ->
  exists st', CoreFreeMemoryMapStack st1 = Done (tt, st') /\ Busy st' /\ GrowsFrom m st st' /\
    ((2 <= length (mFreeMemoryMapEntryList st))%nat -> Exact m 2 st st').
Proof using Off.
  intros [[HI D0 S0] Hl] HI1 HC HD HR. pose proof (changed_frame _ _ _ HC) as FR. unfold frame_of in FR. injection FR as F1 F2 F3 F4.
  pose proof (changed_free _ _ _ HC) as HL. rewrite D0 in HD.
  destruct (empty_stack_total st1) as (st' & E & D' & HX); [done|congruence|congruence|unfold MAX_MAP_DEPTH; lia| |].
  { destruct HR as [?|[[HT HK] ?]]; [left; lia|right]. split; [|done]. split; [by apply (Tested_gcd st)|by rewrite F4]. }
  destruct (CoreFreeMemoryMapStack_grow st1 tt st' HI1 ltac:(congruence) E) as [HI' G'].
  pose proof (grows_flags _ _ _ G') as FL. unfold flags_of in FL. injection FL as L1 L2 L3.
  exists st'. split_and!; [done| |eapply GrowsFrom_trans; [by apply Changed_grows|done]|].
  - split; [split; [done|done|congruence]|congruence].
  - intros H2. destruct HX as [EA EL]; [lia|]. split; [|lia]. intros a. by rewrite EA, <- (changed_look _ _ _ HC).
Qed.

Lemma Took_page s n t st st' : Took s (s + 4096 * n - 1) t st st' -> 0 < n -> exists x, Uniform st s (s + 4096 * n - 1) (EfiConventionalMemory, x).
Proof using. intros (x & H & _) _. by exists x. Qed.

Lemma FreePage_stays st st1 s e v b :
  Changed st st1 (set_range s e v (at_address st)) -> FreePage st b -> ~ s <= b <= e -> FreePage st1 b.
Proof using.
  intros HC (H0 & Ab & x & Hx & Hs) Hn. split_and!; [done|done|]. exists x. split; [|done]. unfold at_address.
  rewrite (changed_look _ _ _ HC). unfold set_range. by rewrite (proj2 (within_false _ _ _) Hn).
Qed.

(** Taking free pages. *)
Lemma take_total s n t st x :
  Busy st -> 0 <= s -> 0 < n < 2 ^ 52 -> s + 4096 * n < 2 ^ 64 -> PageAligned s -> t ≠ EfiConventionalMemory ->
  Uniform st s (s + 4096 * n - 1) (EfiConventionalMemory, x) -> RoomOutside st s (s + 4096 * n - 1) ->
  let m := set_range s (s + 4096 * n - 1) (Some (t, x)) (at_address st) in
  exists st', CoreConvertPages CoreFreeMemoryMapStack s n t st = Done (EFI_SUCCESS, st') /\ Busy st' /\ GrowsFrom m st st' /\
    ((2 <= length (mFreeMemoryMapEntryList st))%nat -> Exact m 2 st st').
Proof using Off.
  intros HB Hs Hn He As Ht HU HR m. pose proof HB as [[HI D0 S0] Hl]. unfold CoreConvertPages. rewrite CoreConvertPagesEx_loop by (done || lia).
  destruct (Z.to_nat n) as [|fuel] eqn:Ef; [lia|]. set (e := s + 4096 * n - 1) in *.
  destruct (Convert_take_run CoreFreeMemoryMapStack fuel s e n t st) as (b & x' & st1 & Hb & HD & Hx' & HC & ->);
    [done|done|done|by apply pages_end|lia|done|rewrite Unfit_iff; [intros HX; apply HX; by exists x|done|done|lia|done]|rewrite D0; unfold MAX_MAP_DEPTH; lia|].
  assert (x' = x) as -> by (pose proof (HU s ltac:(lia)); pose proof (Hx' s ltac:(lia)); congruence).
  destruct (finish_total (SetBins b st) st1 m) as (st' & E & HB' & G & HX); [by apply Busy_bins| |done|done| |].
  - eapply Changed_inv; [by apply PageInv_bins|exact HC| |].
    + intros a Ha. change (at_address st a ≠ None). by rewrite HU.
    + intros p Hp Ha. destruct (inv_desc st HI p Hp) as [_ [y Hy]]. rewrite HU in Hy by done. done.
  - destruct HR as [?|[HS (p & HP & Hn')]]; [by left|right]. split; [done|]. exists p. by eapply (FreePage_stays (SetBins b st)).
  - exists st'. split_and!; [by rewrite (SM_bind_run _ _ _ _ _ E)|done|by apply (GrowsFrom_bins b)|done].
Qed.

(** What cannot be taken is refused. *)
Lemma take_refused FS s n t st :
  PageInv st -> gMemoryLock st = true -> 0 <= s -> 0 < n < 2 ^ 52 -> s + 4096 * n < 2 ^ 64 -> PageAligned s -> t ≠ EfiConventionalMemory ->
  ~ (exists x, Uniform st s (s + 4096 * n - 1) (EfiConventionalMemory, x)) -> CoreConvertPages FS s n t st = Done (EFI_NOT_FOUND, st).
Proof using.
  intros HI Hl Hs Hn He As Ht HU. unfold CoreConvertPages. rewrite CoreConvertPagesEx_loop by (done || lia).
  destruct (Z.to_nat n) as [|fuel] eqn:Ef; [lia|]. apply ConvertLoop_none; [lia|]. by apply Unfit_iff; [..|lia|done|].
Qed.

Lemma Owned_freed s r e st st2 : Owned st s e -> s <= r -> GrowsFrom (freed_range s r (at_address st)) st st2 -> Owned st2 (r + 1) e.
Proof using.
  intros [HO HN] Hr [T _ _ W _ _ _]. split.
  - intros a Ha. destruct (HO a ltac:(lia)) as (v & Ea & Hv). exists v. split; [|done]. apply T; [|done]. by rewrite freed_out by lia.
  - intros p Hp Ha. destruct (decide (PageNode p ∈ nodes_of st)) as [H|H]; [apply (HN p H); lia|].
    destruct (HO p ltac:(lia)) as (v & Ea & Hv). apply Hv, (W p v Hp H). by rewrite freed_out by lia.
Qed.

Lemma aligned_step a b : PageAligned a -> PageAligned b -> a < b -> a + 4096 <= b.
Proof using. unfold PageAligned. intros. Z.div_mod_to_equations. lia. Qed.

Lemma Settled_from m st st' : GrowsFrom m st st' -> Settled st -> Settled st'.
Proof using. intros G [HT HK]. destruct (grows_tested _ _ _ G HT) as [E _]. split; [by apply (Tested_gcd st)|by rewrite E]. Qed.

Lemma NoSpecific_freed s r e st st2 :
  Owned st s e -> s <= r -> GrowsFrom (freed_range s r (at_address st)) st st2 -> NoSpecific st s e -> NoSpecific st2 (r + 1) e.
Proof using.
  intros [HO _] Hr [T _ _ _ _ _ _] HP a v Ha Ea. destruct (HO a ltac:(lia)) as (w & Ew & Hw).
  rewrite (T a w) in Ea; [injection Ea as <-; by apply (HP a); [lia|]| |done]. by rewrite freed_out by lia.
Qed.

(** One piece of a range that is freed. *)
Lemma free_piece fuel s e n st :
  Busy st -> PageAligned s -> PageAligned (e + 1) -> 0 < s < e -> Owned st s e ->
  (2 <= length (mFreeMemoryMapEntryList st))%nat \/ Settled st /\ NoSpecific st s e ->
  exists r st2, s < r <= e /\ PageAligned (r + 1) /\ (forall v, Uniform st s e v -> r = e) /\ Busy st2 /\
    GrowsFrom (freed_range s r (at_address st)) st st2 /\
    ((2 <= length (mFreeMemoryMapEntryList st))%nat -> Exact (freed_range s r (at_address st)) 2 st st2) /\
    ConvertLoop CoreFreeMemoryMapStack (S fuel) s e n true EfiConventionalMemory false 0 st =
      ConvertLoop CoreFreeMemoryMapStack fuel (r + 1) e n true EfiConventionalMemory false 0 st2.
Proof using Off.
  intros HB As Ae Hs HO HR. pose proof HB as [[HI D0 S0] Hl].
  destruct (Convert_free_run CoreFreeMemoryMapStack fuel s e n st) as (b & r & st1 & Hb & Hr & Ar & HD & HU & HC & ->);
    [done|done|done|done|lia|done|rewrite D0; unfold MAX_MAP_DEPTH; lia|].
  destruct (finish_total (SetBins b st) st1 (freed_range s r (at_address st))) as (st2 & E2 & HB2 & G2 & HX2); [by apply Busy_bins| |done|done| |].
  - eapply (Freed_inv s r e (SetBins b st)); [by apply PageInv_bins|exact HO|lia|exact HC].
  - destruct HR as [?|[HS HP]]; [by left|right]. split; [done|]. exists s. split_and!; [lia|done|].
    destruct (proj1 HO s ltac:(lia)) as ([t x] & Es & _). exists x. split; [|by apply (HP s (t, x)); [lia|]].
    unfold at_address. rewrite (changed_look _ _ _ HC). by apply (freed_at _ _ _ _ t); [lia|].
  - exists r, st2. split_and!; try done; try lia.
    + by apply (GrowsFrom_bins b).
    + by rewrite (SM_bind_run _ _ _ _ _ E2).
Qed.

Lemma free_loop n e : PageAligned (e + 1) -> e + 1 < 2 ^ 64 -> forall fuel s st,
  Busy st -> Settled st -> PageAligned s -> 0 < s < e -> e + 1 - s <= 4096 * Z.of_nat fuel -> Owned st s e -> NoSpecific st s e ->
  exists st', ConvertLoop CoreFreeMemoryMapStack fuel s e n true EfiConventionalMemory false 0 st = Done (EFI_SUCCESS, st') /\ Busy st'.
Proof using Off.
  intros Ae He. induction fuel as [|fuel IH]; intros s st HB HS As Hs Hf HO HP; [lia|].
  destruct (free_piece fuel s e n st HB As Ae Hs HO (or_intror (conj HS HP))) as (r & st2 & Hr & Ar & _ & HB2 & G2 & _ & ->).
  destruct (decide (r = e)) as [->|Hne]; [exists st2; split; [apply ConvertLoop_end; lia|done]|].
  assert (r + 1 < e /\ s + 4096 <= r + 1) as [? ?] by (pose proof (aligned_step s (r + 1) As Ar); pose proof (aligned_step (r + 1) (e + 1) Ar Ae); lia).
  apply IH; [done|by eapply Settled_from|done|lia|lia|apply (Owned_freed s r e st); [done|lia|done]|apply (NoSpecific_freed s r e st); [done|lia|done|done]].
Qed.

(** Freeing pages. *)
Lemma free_total s n st :
  Busy st -> Settled st -> 0 < s -> 0 < n < 2 ^ 52 -> s + 4096 * n < 2 ^ 64 -> PageAligned s ->
  Owned st s (s + 4096 * n - 1) -> NoSpecific st s (s + 4096 * n - 1) ->
  exists st', CoreConvertPages CoreFreeMemoryMapStack s n EfiConventionalMemory st = Done (EFI_SUCCESS, st') /\ Busy st' /\
    GrowsFrom (freed_range s (s + 4096 * n - 1) (at_address st)) st st'.
Proof using Off.
  intros HB HS Hs Hn He As HO HP. pose proof HB as [[HI D0 S0] Hl]. unfold CoreConvertPages. rewrite CoreConvertPagesEx_loop by (done || lia).
  destruct (free_loop n (s + 4096 * n - 1) (pages_end s n As) ltac:(lia) (Z.to_nat n) s st) as (st' & E & HB'); [done|done|done|lia|lia|done|done|].
  exists st'. split_and!; [done|done|].
  by apply (Convert_free _ CoreFreeMemoryMapStack_grow) in E as (_ & _ & ? & _); [|done..|by apply pages_end|lia|done].
Qed.

(** Freeing pages of one kind with two free descriptors. *)
Lemma free_exact s n st v :
  Busy st -> 0 < s -> 0 < n < 2 ^ 52 -> s + 4096 * n < 2 ^ 64 -> PageAligned s ->
  Owned st s (s + 4096 * n - 1) -> Uniform st s (s + 4096 * n - 1) v -> (2 <= length (mFreeMemoryMapEntryList st))%nat ->
  exists st', CoreConvertPages CoreFreeMemoryMapStack s n EfiConventionalMemory st = Done (EFI_SUCCESS, st') /\ Busy st' /\
    Exact (freed_range s (s + 4096 * n - 1) (at_address st)) 2 st st'.
Proof using Off.
  intros HB Hs Hn He As HO HU HL. pose proof HB as [[HI D0 S0] Hl]. unfold CoreConvertPages. rewrite CoreConvertPagesEx_loop by (done || lia).
  destruct (Z.to_nat n) as [|fuel] eqn:Ef; [lia|].
  destruct (free_piece fuel s (s + 4096 * n - 1) n st HB As (pages_end s n As) ltac:(lia) HO (or_introl HL)) as (r & st2 & Hr & Ar & HE & HB2 & G2 & HX & ->).
  rewrite (HE v HU) in *. rewrite ConvertLoop_end by lia. exists st2. split_and!; [done..|auto].
Qed.

(** ** Allocation *)

Lemma GranularityOf_page t : GranularityOf t = 4096.
Proof using. unfold GranularityOf. by destruct (_ || _). Qed.

Lemma RoundPages_page n : 0 <= n < 2 ^ 64 -> RoundPages n 4096 = n.
Proof using.
  intros Hn. unfold RoundPages. change (EFI_SIZE_TO_PAGES 4096 - 1) with 0. rewrite add64_small by lia. rewrite Z.add_0_r.
  change (not64 0) with (Z.ones 64). rewrite Z.land_ones by lia. apply Z.mod_small. lia.
Qed.

Lemma CoreAcquireMemoryLock_run st : gMemoryLock st = false -> CoreAcquireMemoryLock st = Done (tt, SetMemoryLock true st).
Proof using. intros Hl. unfold CoreAcquireMemoryLock. rewrite (Get_run (S:=PageState)), Hl. done. Qed.

(** The limit of a request. *)
Definition MaxAddressOf (Type_ m : Z) : Z := if Type_ =? AllocateMaxAddress then m else MAX_ALLOC_ADDRESS.

Definition AddressOk (Type_ t n m : Z) (st : PageState) : Prop :=
  Type_ = AllocateAddress -> PageAligned m /\ EFI_ERROR (CheckAddress t m n MAX_ALLOC_ADDRESS (Bins st)) = false.

Context {Q : Quiet Env}.

Lemma CoreReleaseMemoryLock_run st : gMemoryLock st = true -> CoreReleaseMemoryLock st = Done (tt, SetMemoryLock false st).
Proof using Q.
  intros Hl. unfold CoreReleaseMemoryLock. rewrite (Get_run (S:=PageState)), Hl. rewrite (Assert_run (S:=PageState)) by done.
  rewrite (Change_run (S:=PageState)). apply quiet_drop.
Qed.

(** A request without errors in its arguments. *)
Lemma CoreAllocatePages_locked Type_ t n m st :
  gMemoryLock st = false -> Type_ < MaxAllocateType -> InvalidAllocationType t = false -> 0 <= n < 2 ^ 64 -> AddressOk Type_ t n m st ->
  CoreAllocatePages Type_ t n (Some m) st =
    ('(Status, Start) ← AllocateLocked Type_ t n m (MaxAddressOf Type_ m) 4096 false;
     CoreReleaseMemoryLock ;;
     mret (Status, Some (if EFI_ERROR Status then m else Start))) (SetMemoryLock true st).
Proof using Off Q.
  intros Hl HT Ht Hn HA. unfold CoreAllocatePages. rewrite no_page_guard. cbn [andb]. unfold CoreInternalAllocatePages.
  rewrite (proj2 (Z.leb_gt _ _) HT), Ht, GranularityOf_page. cbn [andb]. rewrite RoundPages_page by done.
  assert ((Type_ =? AllocateAddress) && HasFlag m (4096 - 1) = false) as ->.
  { destruct (Z.eqb_spec Type_ AllocateAddress) as [E|]; [|done]. destruct (HA E) as [Am _]. change (4096 - 1) with EFI_PAGE_MASK.
    rewrite HasFlag_page. unfold PageAligned in Am. by rewrite Am. }
  assert ((Type_ =? AllocateAddress) && EFI_ERROR (CheckAddress t m n MAX_ALLOC_ADDRESS (Bins st)) = false) as HC.
  { destruct (Z.eqb_spec Type_ AllocateAddress) as [E|]; [|done]. by destruct (HA E). }
  unfold mbind at 1, SM_bind at 1. rewrite (Get_run (S:=PageState)), HC. rewrite (SM_bind_run _ _ _ _ _ (CoreAcquireMemoryLock_run st Hl)).
  fold (MaxAddressOf Type_ m). unfold mbind, SM_bind.
  destruct (AllocateLocked _ _ _ _ _ _ _ _) as [[[Status Start] st1]| |]; [|done..].
  destruct (CoreReleaseMemoryLock st1) as [[u st2]| |]; [|done..]. destruct (EFI_ERROR Status) eqn:EE; cbn [negb]; unfold mret, SM_ret; cbn [negb]; rewrite EE; cbn [negb]; [done|].
  by rewrite quiet_profile, quiet_table, quiet_policy.
Qed.

Lemma GrowsFrom_relock m st st' : gMemoryLock st = false -> GrowsFrom m (SetMemoryLock true st) st' -> GrowsFrom m st (SetMemoryLock false st').
Proof using.
  intros Hl [T F N W L K U]. split; [exact T|exact F|exact N|exact W| |exact K|exact U]. unfold flags_of in *. simpl in *. congruence.
Qed.

(** After a search: the pages that it has found are taken. *)
Lemma AllocateLocked_found Type_ t n m Max st st1 b B :
  FindFreePages CoreFreeMemoryMapStack Max n t 4096 false st = Done (b, SetBins B st1) ->
  Busy st1 -> BinsOk B -> Choice st1 t Max n b -> Type_ ≠ AllocateAddress -> t ≠ EfiConventionalMemory -> 0 < n < 2 ^ 52 ->
  (b = 0 -> AllocateLocked Type_ t n m Max 4096 false st = Done ((EFI_OUT_OF_RESOURCES, 0), SetBins B st1)) /\
  (b ≠ 0 -> RoomOutside st1 b (b + 4096 * n - 1) -> exists x st', Uniform st1 b (b + 4096 * n - 1) (EfiConventionalMemory, x) /\
     AllocateLocked Type_ t n m Max 4096 false st = Done ((EFI_SUCCESS, b), st') /\ Busy st' /\
     GrowsFrom (set_range b (b + 4096 * n - 1) (Some (t, x)) (at_address st1)) st1 st' /\
     ((2 <= length (mFreeMemoryMapEntryList st1))%nat -> Exact (set_range b (b + 4096 * n - 1) (Some (t, x)) (at_address st1)) 2 st1 st')).
Proof using Off.
  intros EF HB HBk HC HT Ht Hn. pose proof HB as [[HI D0 S0] Hl].
  unfold AllocateLocked. rewrite (proj2 (Z.eqb_neq _ _) HT). cbn [negb andb]. rewrite (SM_bind_run _ _ _ _ _ EF). split; [by intros ->|].
  intros Hb HR. pose proof (Choice_fits _ _ _ _ _ HI HC Hb) as HF. destruct (Fits_bounds _ _ _ _ HI HF) as (? & ? & Ab).
  rewrite (proj2 (Z.eqb_neq _ _) Hb). assert (exists x, Uniform st1 b (b + 4096 * n - 1) (EfiConventionalMemory, x)) as [x HU].
  { destruct HF as (_ & _ & _ & d & Hd & Hc & _ & ? & ?). exists (MAttribute d). intros a Ha.
    rewrite (look_inside st1 d a (inv_wf _ HI) Hd) by (unfold inside; lia). unfold value. by rewrite Hc. }
  destruct (take_total b n t (SetBins B st1) x) as (st' & E & HB' & G & HX); [by apply Busy_bins|done..|].
  exists x, st'. split_and!; [done|by rewrite (SM_bind_run _ _ _ _ _ E)|done|by apply (GrowsFrom_bins B)|done].
Qed.

(** A promotion that returns leaves no untested memory. *)
Lemma Promoted_busy st r st1 : Busy st -> PromoteMemoryResource CoreFreeMemoryMapStack st = Done (r, st1) -> Busy st1 /\ Settled st1 /\ Grows st st1.
Proof using Off.
  intros [[HI D0 S0] Hl] E. destruct (PromoteMemoryResource_spec _ CoreFreeMemoryMapStack_grow _ _ _ HI Hl E) as (HI1 & G & HR & HT).
  pose proof (Grows_flag _ _ _ G). pose proof (Grows_lock _ _ _ G). split; [|done].
  split; [split; [done|apply HR; [|done..]|congruence]|congruence]. apply CoreFreeMemoryMapStack_empties.
Qed.

Lemma valid_type t : InvalidAllocationType t = false -> t ≠ EfiConventionalMemory.
Proof using. intros H ->. done. Qed.

Lemma Idle_acquire st : Idle st -> Busy (SetMemoryLock true st).
Proof using. intros [HC _]. split; [by apply Calm_lock|done]. Qed.

Lemma Busy_release st : Busy st -> Idle (SetMemoryLock false st).
Proof using. intros [HC _]. split; [by apply Calm_lock|done]. Qed.

(** ** Freeing *)

Lemma CoreFreePages_locked m n d st :
  gMemoryLock st = false -> Returnable m n = true -> PageAligned m -> 0 <= n < 2 ^ 64 -> FindEntry m (gMemoryMap st) = Some d ->
  CoreFreePages m n st =
    (Status ← CoreConvertPages CoreFreeMemoryMapStack m n EfiConventionalMemory; CoreReleaseMemoryLock ;; mret Status) (SetMemoryLock true st).
Proof using Off Q.
  intros Hl HR Am Hn EF. unfold CoreFreePages. rewrite HR. cbn [negb]. unfold CoreInternalFreePages. unfold mbind at 1, SM_bind at 1.
  rewrite (SM_bind_run _ _ _ _ _ (CoreAcquireMemoryLock_run st Hl)). unfold FreeLocked. unfold mbind at 1, SM_bind at 1.
  rewrite (Get_run (S:=PageState)). simpl. rewrite EF, GranularityOf_page, no_page_guard. change (4096 - 1) with EFI_PAGE_MASK.
  rewrite HasFlag_page. unfold PageAligned in Am. rewrite Am, RoundPages_page by done. cbn [negb Z.eqb].
  unfold mbind, SM_bind, mret, SM_ret. destruct (CoreConvertPages _ _ _ _ _) as [[Status st1]| |]; [|done..].
  destruct (CoreReleaseMemoryLock st1) as [[u st2]| |]; [|done..]. destruct (EFI_ERROR Status); cbn [negb]; [done|].
  by rewrite quiet_freed, quiet_profile, quiet_table, quiet_policy.
Qed.

(** Allocated pages belong to the caller. *)
Lemma Took_Owned s e t st st' : PageInv st -> Took s e t st st' -> t ≠ EfiConventionalMemory ->
  Owned st' s e /\ exists x, Uniform st' s e (t, x).
Proof using.
  intros HI (x & HU & [T _ _ W _ _ _]) Ht. assert (Uniform st' s e (t, x)) as HU'.
  { intros a Ha. apply T; [|done]. unfold set_range. by rewrite (proj2 (within_spec _ _ _) Ha). }
  split; [|by exists x]. split; [intros a Ha; exists (t, x); split; [by apply HU'|done]|].
  intros p Hp Ha. destruct (decide (PageNode p ∈ nodes_of st)) as [H|H].
  - destruct (inv_desc _ HI p H) as [_ [y Hy]]. rewrite HU in Hy by done. done.
  - apply Ht, (W p (t, x) Hp H). unfold set_range. by rewrite (proj2 (within_spec _ _ _) Ha).
Qed.
End Services.
