(* ===== verification/PageReach.v ===== *)
(** * The page allocator: what the services keep

    Every service, with promotion of untested memory included, takes an idle
    state to an idle one, if it returns, and leaves memory in use alone. *)
From Stdlib Require Import ZArith Lia.
From stdpp Require Import base option list.
From S2P Require Import Prelude StateMonad Gcd MemoryBin Page PageMap PageOps PageFind PageInv PageSteps PageStack PageTotal PageServices.

(** ** The bins *)

Lemma PagesToSize_mod n : EFI_PAGES_TO_SIZE n mod 4096 = 0.
Proof.
  unfold EFI_PAGES_TO_SIZE, u64, EFI_PAGE_SHIFT. rewrite Z.shiftl_mul_pow2 by lia. change (2 ^ 12) with 4096.
  change (2 ^ 64) with (2 ^ 52 * 4096). rewrite Z.mul_mod_distr_r by lia. apply Z.mod_mul. lia.
Qed.

Lemma BinSizeLoop_pages Info : forall T r o, 0 <= T < 2 ^ 64 -> T mod 4096 = 0 -> BinSizeLoop Info None T = Done (r, o) -> 0 <= r < 2 ^ 64 /\ r mod 4096 = 0.
Proof.
  induction Info as [|i Info IH]; intros T r o HT HM E; [done|]. cbn [BinSizeLoop] in E. destruct (_ =? _); [by injection E as <- <-|].
  apply IH in E; [done|apply Z.mod_pos_bound; lia|]. pose proof (PagesToSize_mod (InfoPages i)) as HP. unfold add64, u64.
  Z.div_mod_to_equations. lia.
Qed.

Lemma SizeToPages_small T : 0 <= T < 2 ^ 64 -> T mod 4096 = 0 -> 0 <= EFI_SIZE_TO_PAGES T < 2 ^ 52.
Proof.
  intros HT HM. unfold EFI_SIZE_TO_PAGES. rewrite HasFlag_page, HM. simpl. rewrite Z.shiftr_div_pow2 by (unfold EFI_PAGE_SHIFT; lia).
  change (2 ^ EFI_PAGE_SHIFT) with 4096. Z.div_mod_to_equations. lia.
Qed.

Lemma CarveLoop_ok Info : forall Last b b', BinsOk b -> CarveLoop Info Last b = Done b' -> BinsOk b'.
Proof.
  induction Info as [|i Info IH]; intros Last b b' HB E; [done|]. cbn [CarveLoop] in E. destruct (_ =? _); [by injection E as <-|].
  destruct (_ || _); [by eapply IH|]. destruct (StatisticsOf _ b) as [s| |]; [|done..]. simpl in E.
  eapply IH; [|exact E]. by apply BinsOk_store.
Qed.

Lemma MovePagesLoop_ok Rest : forall Info b b', BinsOk b -> (length Info + length Rest = 17)%nat -> MovePagesLoop Info Rest b = Done b' -> BinsOk b'.
Proof.
  induction Rest as [|i Rest IH]; intros Info b b' HB HL E; [done|]. cbn [MovePagesLoop] in E. destruct (_ =? _).
  { injection E as <-. split; [apply HB|]. simpl. rewrite length_app. simpl in *. lia. }
  destruct (_ || _); [eapply IH; [done| |exact E]; rewrite length_app; simpl in *; lia|].
  destruct (StatisticsOf _ b) as [s| |]; [|done..]. simpl in E.
  eapply IH; [by apply BinsOk_store| |exact E]. rewrite length_app. simpl in *. lia.
Qed.

Lemma InitializeLoop_ok Types : forall b b', BinsOk b -> InitializeLoop Types b = Done b' -> BinsOk b'.
Proof.
  induction Types as [|t Types IH]; intros b b' HB E; [by injection E as <-|]. cbn [InitializeLoop] in E.
  destruct (StatisticsOf t b) as [s| |]; [|done..]. simpl in E. destruct (InformationIndexLoop _ _ _ _) as [j| |]; [|done..].
  eapply IH; [|exact E]. by apply BinsOk_store.
Qed.

Section Reach.
Context {Env : PageEnvironment} {Off : GuardOff Env} {Q : Quiet Env}.

(** A program on the bins that keeps their sizes. *)
Lemma OnBins_idle (m : BinState -> Outcome BinState) st u st' :
  (forall b b', BinsOk b -> m b = Done b' -> BinsOk b') -> Idle st -> OnBins m st = Done (u, st') -> Idle st' /\ Grows st st'.
Proof using.
  intros Hm [HC Hl] E. unfold OnBins, Within in E. destruct (m (Bins st)) as [b| |] eqn:Em; [|done..]. simpl in E. injection E as _ <-.
  assert (BinsOk b) as Hb by (eapply Hm; [apply (inv_bins _ (calm_inv _ HC))|done]).
  split; [split; [by apply Calm_bins|done]|]. apply (GrowsFrom_bins b). exact (reflexivity (R:=Grows) (SetBins b st)).
Qed.

(** ** Allocation *)

Lemma CheckAddress_ok t m n b :
  0 <= m < 2 ^ 64 -> 0 <= n -> EFI_ERROR (CheckAddress t m n MAX_ALLOC_ADDRESS b) = false -> 0 < n < 2 ^ 52 /\ m + 4096 * n <= 2 ^ 64.
Proof using.
  intros Hm Hn. unfold CheckAddress. destruct (m =? 0); [done|]. change (RShiftU64 MAX_ALLOC_ADDRESS EFI_PAGE_SHIFT) with (2 ^ 52 - 1).
  destruct (_ || _) eqn:E1; [done|]. bool_to_Z. rewrite LShift_pages by lia.
  destruct (_ || _) eqn:E2; [done|]. intros _. split; [lia|]. apply Z.nlt_ge. intros Hlt.
  apply orb_false_iff in E2 as [E2 _]. apply orb_false_iff in E2 as [E2 _]. apply Z.leb_gt in E2.
  unfold sub64, add64, u64 in E2. rewrite Zminus_mod_idemp_l in E2.
  rewrite <- (Z.mod_unique_pos (m + 4096 * n - 1) (2 ^ 64) 1 (m + 4096 * n - 1 - 2 ^ 64)) in E2 by lia. lia.
Qed.

(** The result of a request for pages. *)
Definition Granted (b n t : Z) (st st' : PageState) : Prop :=
  0 < n < 2 ^ 52 /\ PageAligned b /\ exists st1, PageInv st1 /\ Grows st st1 /\ Took b (b + 4096 * n - 1) t st1 st'.

Lemma AllocateLocked_spec Type_ t n m Max st Status b st' :
  Busy st -> t ≠ EfiConventionalMemory -> 0 <= n < 2 ^ 52 -> Max < 2 ^ 64 ->
  (Type_ = AllocateAddress -> 0 <= m /\ 0 < n /\ m + 4096 * n <= 2 ^ 64 /\ PageAligned m) ->
  AllocateLocked Type_ t n m Max 4096 false st = Done ((Status, b), st') ->
  Busy st' /\ (EFI_ERROR Status = true /\ Grows st st' \/ Status = EFI_SUCCESS /\ Granted b n t st st').
Proof using Off.
  intros HB Ht Hn HM HA E. unfold AllocateLocked in E. apply SM_bind_Done in E as (s & st1 & E1 & E).
  pose proof CoreFreeMemoryMapStack_grow as HFS. pose proof CoreFreeMemoryMapStack_empties as HE.
  assert (Busy st1 /\ Grows st st1 /\ (Type_ = AllocateAddress \/ s ≠ 0 -> 0 <= s /\ 0 < n /\ s + 4096 * n <= 2 ^ 64 /\ PageAligned s)) as (HB1 & G1 & HS).
  { destruct HB as [[HI D0 S0] Hl]. destruct (Z.eqb_spec Type_ AllocateAddress) as [HT|HT]; cbn [negb] in E1.
    - apply SM_ret_Done in E1 as [-> ->]. split_and!; [by split|done|auto].
    - destruct (FindFreePages_spec _ HFS Max n t st s st1 HM Hn HI Hl E1) as (HI1 & G1 & HF & HR).
      pose proof (Grows_flag _ _ _ G1). pose proof (Grows_lock _ _ _ G1). split_and!; [split; [split; [done|by apply HR|congruence]|congruence]|done|].
      intros [?|Hs]; [done|]. destruct (HF Hs) as [Hn0 HFit]. destruct (Fits_bounds _ _ _ _ HI1 HFit) as (? & ? & ?). split_and!; [done|done|lia|done]. }
  destruct (negb (Type_ =? AllocateAddress) && (s =? 0)) eqn:E0.
  { apply SM_ret_Done in E as [[= -> ->] ->]. split; [done|]. by left. }
  assert (Type_ = AllocateAddress \/ s ≠ 0) as Hcase.
  { destruct (Z.eqb_spec Type_ AllocateAddress); [by left|]. destruct (Z.eqb_spec s 0); [done|by right]. }
  destruct (HS Hcase) as (? & ? & ? & As).
  assert (forall st2 Status2 st3, Busy st2 -> CoreConvertPages CoreFreeMemoryMapStack s n t st2 = Done (Status2, st3) -> Busy st3 /\
    (EFI_ERROR Status2 = true /\ st3 = st2 \/ Status2 = EFI_SUCCESS /\ Took s (s + 4096 * n - 1) t st2 st3)) as HConv.
  { intros st2 Status2 st3 [[HI2 D2 S2] Hl2] E2. destruct (CoreConvertPages_take _ HFS s n t st2 Status2 st3) as [(-> & -> & _)|(-> & HI3 & HT3 & HR3)]; try done; try lia.
    - split; [by split|by left].
    - pose proof HT3 as (x & _ & G3). pose proof (Grows_flag _ _ _ G3). pose proof (Grows_lock _ _ _ G3).
      split; [split; [split; [done|by apply HR3|congruence]|congruence]|by right]. }
  apply SM_bind_Done in E as (Status1 & st2 & E2 & E). destruct (HConv _ _ _ HB1 E2) as [HB2 HC2]. destruct (EFI_ERROR Status1) eqn:EE.
  - destruct HC2 as [[_ ->]|[-> _]]; [|done]. apply SM_bind_Done in E as (P & st3 & E3 & E). pose proof HB2 as [[HI2 D2 S2] Hl2].
    destruct (PromoteMemoryResource_spec _ HFS _ _ _ HI2 Hl2 E3) as (HI3 & G3 & HR3 & _).
    assert (Busy st3) as HB3.
    { pose proof (Grows_flag _ _ _ G3). pose proof (Grows_lock _ _ _ G3). split; [split; [done|by apply HR3|congruence]|congruence]. }
    assert (Grows st st3) as G03 by (by transitivity st1). destruct P.
    + apply SM_bind_Done in E as (Status2 & st4 & E4 & [[= -> ->] ->]%SM_ret_Done). destruct (HConv _ _ _ HB3 E4) as [HB4 [[HE4 ->]|[-> HT4]]].
      * split; [done|]. by left.
      * split; [done|]. right. split; [done|]. split_and!; [lia|lia|done|]. exists st3. by split_and!.
    + apply SM_ret_Done in E as [[= -> ->] ->]. split; [done|]. by left.
  - apply SM_ret_Done in E as [[= -> ->] ->]. destruct HC2 as [[? _]|[-> HT2]]; [congruence|]. split; [done|]. right. split; [done|].
    split_and!; [lia|lia|done|]. exists st1. split_and!; [apply HB1|done|done].
Qed.

Lemma CoreAllocatePages_inv Type_ t n Memory st r st' :
  CoreAllocatePages Type_ t n Memory st = Done (r, st') -> 0 <= n < 2 ^ 64 ->
  EFI_ERROR r.1 = true /\ st' = st \/
  Type_ < MaxAllocateType /\ InvalidAllocationType t = false /\ exists m, Memory = Some m /\ AddressOk Type_ t n m st.
Proof using Off.
  intros E Hn. destruct (Z.leb_spec MaxAllocateType Type_) as [HT|HT].
  { unfold CoreAllocatePages, CoreInternalAllocatePages in E. rewrite (proj2 (Z.leb_le _ _) HT) in E. left. by injection E as <- <-. }
  destruct (InvalidAllocationType t) eqn:Ht.
  { unfold CoreAllocatePages, CoreInternalAllocatePages in E. rewrite (proj2 (Z.leb_gt _ _) HT), Ht in E. left. by injection E as <- <-. }
  destruct Memory as [m|].
  2: { unfold CoreAllocatePages, CoreInternalAllocatePages in E. rewrite (proj2 (Z.leb_gt _ _) HT), Ht in E. left. by injection E as <- <-. }
  unfold CoreAllocatePages, CoreInternalAllocatePages in E. rewrite (proj2 (Z.leb_gt _ _) HT), Ht, GranularityOf_page in E.
  rewrite no_page_guard, RoundPages_page in E by done. cbn [andb] in E. change (4096 - 1) with EFI_PAGE_MASK in E. rewrite HasFlag_page in E.
  destruct ((Type_ =? AllocateAddress) && negb (m mod 4096 =? 0)) eqn:E1; [left; by injection E as <- <-|].
  apply SM_bind_Done in E as ([Status Mem] & st1 & E2 & E). apply SM_bind_Done in E2 as (B & st2 & [-> ->]%Get_Done & E2).
  destruct ((Type_ =? AllocateAddress) && EFI_ERROR _) eqn:E3.
  { apply SM_ret_Done in E2 as [[= -> ->] ->]. left. by injection E as <- <-. }
  right. split_and!; [done|done|]. exists m. split; [done|]. intros ->. rewrite Z.eqb_refl in E1, E3. cbn [andb] in E1, E3.
  split; [|done]. apply negb_false_iff, Z.eqb_eq in E1. done.
Qed.

Lemma Granted_relock b n t st st' : gMemoryLock st = false -> Granted b n t (SetMemoryLock true st) st' -> Granted b n t st (SetMemoryLock false st').
Proof using.
  intros Hl (Hn & Ab & st1 & HI1 & G1 & x & HU & G2). split_and!; [lia|lia|done|]. exists (SetMemoryLock false st1). split_and!.
  - by apply PageInv_lock.
  - exact (GrowsFrom_relock _ _ _ Hl G1).
  - exists x. split; [exact HU|]. destruct G2 as [T F N W L K U]. split; [exact T|exact F|exact N|exact W| |exact K|exact U].
    unfold flags_of in *. simpl. congruence.
Qed.

(** What a request does, if it returns. *)
Lemma CoreAllocatePages_spec Type_ t n Memory st Status Memory' st' :
  Idle st -> 0 <= n < 2 ^ 52 -> (forall m, Memory = Some m -> 0 <= m < 2 ^ 64) ->
  CoreAllocatePages Type_ t n Memory st = Done ((Status, Memory'), st') ->
  Idle st' /\ (EFI_ERROR Status = true /\ Grows st st' \/
    Status = EFI_SUCCESS /\ t ≠ EfiConventionalMemory /\ exists b, Memory' = Some b /\ Granted b n t st st').
Proof using Off Q.
  intros HI Hn HM E. destruct (CoreAllocatePages_inv _ _ _ _ _ _ _ E ltac:(lia)) as [[HE ->]|(HT & Ht & m & -> & HA)]; [split; [done|by left]|].
  specialize (HM m eq_refl). pose proof HI as [HC Hl]. rewrite CoreAllocatePages_locked in E by (done || lia).
  apply SM_bind_Done in E as ([Status1 b] & st1 & E1 & E). apply SM_bind_Done in E as (u & st2 & E2 & [[= -> ->] ->]%SM_ret_Done).
  destruct (AllocateLocked_spec Type_ t n m (MaxAddressOf Type_ m) (SetMemoryLock true st) Status1 b st1) as [HB HD];
    [by apply Idle_acquire|by apply valid_type|done|unfold MaxAddressOf, MAX_ALLOC_ADDRESS; destruct (_ =? _); lia| |done|].
  { intros HTA. destruct (HA HTA) as [Am HCk]. destruct (CheckAddress_ok t m n _ HM ltac:(lia) HCk). split_and!; [lia|lia|lia|done]. }
  rewrite (CoreReleaseMemoryLock_run st1 (proj2 HB)) in E2. injection E2 as _ <-. split; [by apply Busy_release|].
  destruct HD as [[HE G]|[-> HG]]; [left; split; [done|exact (GrowsFrom_relock _ _ _ Hl G)]|].
  right. split_and!; [done|by apply valid_type|]. exists b. split; [done|]. by apply Granted_relock.
Qed.

(** Pages that were granted belong to the caller. *)
Lemma Granted_Owned b n t st st' : Granted b n t st st' -> t ≠ EfiConventionalMemory -> Owned st' b (b + 4096 * n - 1).
Proof using. intros (_ & _ & st1 & HI & _ & HT) Ht. by destruct (Took_Owned _ _ _ _ _ HI HT Ht). Qed.

(** ** Freeing *)

Lemma Owned_range st s e : PageInv st -> Owned st s e -> s < e -> 0 <= s /\ e + 1 < 2 ^ 64.
Proof using.
  intros HI [HO _] Hs. destruct (wf_map _ (inv_wf _ HI)) as (HG & HS & _). rewrite Forall_forall in HG.
  assert (forall a, s <= a <= e -> 0 <= a /\ a + 1 < 2 ^ 64) as HH; [|split; apply HH; lia]. intros a Ha.
  destruct (HO a Ha) as (v & E & _). apply look_Some in E as (d & Hd & Hi & _); [|done]. destruct (HG d Hd) as (_ & _ & ? & ?).
  unfold inside in Hi. lia.
Qed.

Lemma CoreFreePages_spec m n st Status st' :
  Idle st -> 0 < n < 2 ^ 52 -> PageAligned m -> Owned st m (m + 4096 * n - 1) -> CoreFreePages m n st = Done (Status, st') ->
  Idle st' /\ Status = EFI_SUCCESS /\ (Returnable m n = false /\ st' = st \/ GrowsFrom (freed_range m (m + 4096 * n - 1) (at_address st)) st st').
Proof using Off Q.
  intros HI Hn Am HO E. destruct (Returnable m n) eqn:HR.
  2: { unfold CoreFreePages in E. rewrite HR in E. injection E as <- <-. split_and!; [apply HI..|done|by left]. }
  pose proof HI as [HC Hl]. destruct (Owned_range st _ _ (calm_inv _ HC) HO ltac:(lia)) as [? ?].
  destruct (Owned_find st m (m + 4096 * n - 1) (calm_inv _ HC) HO Am ltac:(lia)) as (d & EF & _).
  rewrite (CoreFreePages_locked m n d st Hl HR Am ltac:(lia) EF) in E. apply SM_bind_Done in E as (Status1 & st1 & E1 & E).
  apply SM_bind_Done in E as (u & st2 & E2 & [-> ->]%SM_ret_Done). unfold CoreConvertPages in E1.
  pose proof (Idle_acquire st HI) as HB. rewrite CoreConvertPagesEx_loop in E1 by (done || lia).
  apply (Convert_free _ CoreFreeMemoryMapStack_grow) in E1 as (-> & HI1 & G1 & R1); [|apply HB|done|done|by apply pages_end|lia|exact HO].
  pose proof (Grows_flag _ _ _ G1) as HF1. pose proof (Grows_lock _ _ _ G1) as Hl1. simpl in Hl1.
  rewrite (CoreReleaseMemoryLock_run st1 Hl1) in E2. injection E2 as _ <-. split_and!; [|done|right; by apply GrowsFrom_relock].
  apply Busy_release. split; [split; [done|apply R1; [apply CoreFreeMemoryMapStack_empties|apply HB|apply HB]|]|done].
  rewrite HF1. apply HB.
Qed.

(** ** Attributes *)

Lemma CoreUpdateMemoryAttributes_spec s n x st u st' :
  Idle st -> 0 <= s < 2 ^ 64 -> 0 <= n < 2 ^ 52 -> CoreUpdateMemoryAttributes s n x st = Done (u, st') -> Idle st'.
Proof using Off Q.
  intros HI Hs Hn E. pose proof HI as [HC Hl]. pose proof (Idle_acquire st HI) as HB. unfold CoreUpdateMemoryAttributes in E.
  rewrite (SM_bind_run _ _ _ _ _ (CoreAcquireMemoryLock_run st Hl)) in E. apply SM_bind_Done in E as (Status & st1 & E1 & E2).
  assert (PageAligned s /\ 0 < n /\ s + 4096 * n <= 2 ^ 64) as (As & Hn0 & He).
  { unfold CoreConvertPagesEx in E1. rewrite LShift_pages in E1 by lia. rewrite HasFlag_page in E1.
    apply SM_bind_Done in E1 as (? & ? & [H1 _]%Assert_Done & E1). apply SM_bind_Done in E1 as (? & ? & [H2 _]%Assert_Done & E1).
    apply SM_bind_Done in E1 as (? & ? & [H3 _]%Assert_Done & _). rewrite !negb_true_iff in H1. rewrite negb_involutive in H2. bool_to_Z.
    split_and!; [done|lia|]. apply Z.nlt_ge. intros Hlt. unfold sub64, add64, u64 in H3. rewrite Zminus_mod_idemp_l in H3.
    rewrite <- (Z.mod_unique_pos (s + 4096 * n - 1) (2 ^ 64) 1 (s + 4096 * n - 1 - 2 ^ 64)) in H3 by lia. lia. }
  rewrite CoreConvertPagesEx_loop in E1 by (done || lia).
  apply (Convert_attributes _ CoreFreeMemoryMapStack_grow) in E1 as (HI1 & F1 & R1); [|apply HB|done|done|by apply pages_end].
  unfold flags_of in F1. injection F1 as F1 F2 F3. simpl in F1, F2. rewrite (CoreReleaseMemoryLock_run st1 F2) in E2. injection E2 as _ <-.
  apply Busy_release. split; [split; [done|apply R1; [apply CoreFreeMemoryMapStack_empties|apply HB|apply HB]|rewrite F1; apply HB]|done].
Qed.

(** ** New memory *)

Lemma any_address m : Some 0 = Some m -> 0 <= m < 2 ^ 64.
Proof using. intros [= <-]. lia. Qed.

Lemma CoreAllocateAny_owned t n st Status Memory' st' :
  Idle st -> 0 <= n < 2 ^ 52 -> CoreAllocatePages AllocateAnyPages t n (Some 0) st = Done ((Status, Memory'), st') -> EFI_ERROR Status = false ->
  Idle st' /\ exists b, Memory' = Some b /\ 0 < n /\ PageAligned b /\ Owned st' b (b + 4096 * n - 1).
Proof using Off Q.
  intros HI Hn E HE. destruct (CoreAllocatePages_spec _ _ _ _ _ _ _ _ HI Hn any_address E) as [HI' [[? _]|(_ & Ht & b & -> & HG)]]; [congruence|].
  split; [done|]. exists b. pose proof HG as (? & ? & _). split_and!; [done|lia|done|by eapply Granted_Owned].
Qed.

Lemma InternalAllocate_idle t n st r st' :
  Idle st -> 0 <= n < 2 ^ 52 -> InternalAllocateAlignedPages t n 4096 st = Done (r, st') ->
  Idle st' /\ (r ≠ 0 -> 0 < n /\ PageAligned r /\ Owned st' r (r + 4096 * n - 1)).
Proof using Off Q.
  intros HI Hn E. unfold InternalAllocateAlignedPages in E. rewrite (Assert_run (S:=PageState)) in E by done.
  destruct (n =? 0); [by apply SM_ret_Done in E as [-> ->]|]. change (EFI_PAGE_SIZE <? 4096) with false in E.
  apply SM_bind_Done in E as ([Status Mem] & st1 & E1 & E). destruct (EFI_ERROR Status) eqn:HE.
  - apply SM_ret_Done in E as [-> ->]. split; [|done]. by destruct (CoreAllocatePages_spec _ _ _ _ _ _ _ _ HI Hn any_address E1).
  - destruct (CoreAllocateAny_owned _ _ _ _ _ _ HI Hn E1 HE) as [HI1 (b & -> & ? & ? & ?)]. apply SM_ret_Done in E as [-> ->]. done.
Qed.

Lemma OnBins_owned (m : BinState -> Outcome BinState) s e st u st' : OnBins m st = Done (u, st') -> Owned st s e -> Owned st' s e.
Proof using. intros E HO. unfold OnBins, Within in E. destruct (m (Bins st)); [|done..]. simpl in E. by injection E as _ <-. Qed.

Lemma AllocateMemoryTypeInformationBins_idle st u st' : Idle st -> AllocateMemoryTypeInformationBins st = Done (u, st') -> Idle st'.
Proof using Off Q.
  intros HI E. unfold AllocateMemoryTypeInformationBins in E. apply SM_bind_Done in E as (B & st1 & [-> ->]%Get_Done & E).
  destruct (mMemoryTypeInformationInitialized (Bins st)); [by apply SM_ret_Done in E as [_ ->]|].
  apply SM_bind_Done in E as ([Size o] & st1 & E1 & E). unfold Within in E1.
  assert (st1 = st /\ 0 <= Size < 2 ^ 64 /\ Size mod 4096 = 0) as (-> & HS & HM).
  { destruct (CalculateTotalMemoryBinSizeNeeded None _) as [[T o']| |] eqn:EC; [|done..]. simpl in E1. injection E1 as <- _ <-.
    unfold CalculateTotalMemoryBinSizeNeeded in EC. destruct (BinSizeLoop _ _ _) as [[T' o'']| |] eqn:EB; [|done..]. injection EC as <- _.
    destruct (BinSizeLoop_pages _ 0 _ _ ltac:(lia) eq_refl EB). by destruct st. }
  destruct (Size =? 0); [by eapply (OnBins_idle (fun b => Done (SetInitialized true b))) in E; [destruct E|intros b b' ? [= <-]|]|].
  apply SM_bind_Done in E as (Base & st1 & E2 & E).
  destruct (InternalAllocate_idle _ _ _ _ _ HI (SizeToPages_small Size HS HM) E2) as [HI1 HO1].
  destruct (Z.eqb_spec Base 0) as [|H0]; [by apply SM_ret_Done in E as [_ ->]|]. destruct (HO1 H0) as (Hn & Ab & HO).
  apply SM_bind_Done in E as (? & st2 & E3 & E). pose proof (OnBins_owned _ _ _ _ _ _ E3 HO) as HO2.
  eapply OnBins_idle in E3 as [HI2 _]; [|by intros b b' ? [= <-]|done].
  apply SM_bind_Done in E as (? & st3 & E4 & E). pose proof (OnBins_owned _ _ _ _ _ _ E4 HO2) as HO3.
  eapply OnBins_idle in E4 as [HI3 _]; [|intros b b'; apply CarveLoop_ok|done].
  apply SM_bind_Done in E as (? & st4 & E5 & E). unfold FreeAlignedPages in E5. apply SM_bind_Done in E5 as (? & st5 & [_ ->]%Assert_Done & E5).
  apply SM_bind_Done in E5 as (Status & st5 & E6 & [_ ->]%Assert_Done).
  destruct (CoreFreePages_spec _ _ _ _ _ HI3 (conj Hn (proj2 (SizeToPages_small Size HS HM))) Ab HO3 E6) as [HI4 _].
  apply SM_bind_Done in E as (? & st6 & E7 & E).
  eapply OnBins_idle in E7 as [HI6 _]; [|intros b b' Hb; apply MovePagesLoop_ok; [done|apply Hb]|done].
  apply SM_bind_Done in E as (? & st7 & E8 & E). eapply OnBins_idle in E8 as [HI7 _]; [|intros b b'; apply InitializeLoop_ok|done].
  by eapply (OnBins_idle (fun b => Done (SetInitialized true b))) in E as [? _]; [|intros b b' ? [= <-]|].
Qed.

(** Memory that is not known yet. *)
Definition NewMemory (st : PageState) (s e : Z) : Prop :=
  GoodRange s e /\ (forall a, s <= a <= e -> at_address st a = None) /\
  forall i g, gcd_of st !! i = Some g -> Promotable g = true -> e_EndAddress g < s \/ e < e_BaseAddress g.

Lemma CoreAddMemoryDescriptor_spec t s n x st u st' :
  PcdLoadModuleAtFixAddressEnable = 0 -> Idle st -> 0 < n < 2 ^ 52 -> NewMemory st s (s + 4096 * n - 1) ->
  CoreAddMemoryDescriptor t s n x st = Done (u, st') -> Idle st'.
Proof using Off Q.
  intros HPcd HI Hn (HG & HN & HU) E. pose proof HI as [HC Hl]. pose proof (Idle_acquire st HI) as [[HI0 D0 S0] _].
  unfold CoreAddMemoryDescriptor in E. destruct (HasFlag _ _); [by apply SM_ret_Done in E as [_ ->]|].
  destruct (_ && _); [by apply SM_ret_Done in E as [_ ->]|]. rewrite (SM_bind_run _ _ _ _ _ (CoreAcquireMemoryLock_run st Hl)) in E.
  pose proof HG as (_ & _ & ? & ?). rewrite LShift_pages, last_address in E by lia.
  apply SM_bind_Done in E as (u1 & st1 & E1 & E).
  destruct (CoreAddRange_run t s (s + 4096 * n - 1) x (SetMemoryLock true st) (inv_wf _ HI0) eq_refl HG HN) as [[E1' _]|(st1' & E1' & _ & HCh)]; [congruence|].
  rewrite E1 in E1'. injection E1' as _ <-. assert (PageInv st1) as HI1 by (eapply Changed_add_inv; [exact HI0|exact HCh|exact HN|exact HU]).
  pose proof (changed_frame _ _ _ HCh) as FR. unfold frame_of in FR. simpl in FR. injection FR as F1 F2 F3 F4.
  apply SM_bind_Done in E as (u2 & st2 & E2 & E). destruct (CoreFreeMemoryMapStack_grow st1 u2 st2 HI1 F2 E2) as [HI2 G2].
  pose proof (Grows_flag _ _ _ G2) as F5. pose proof (Grows_lock _ _ _ G2) as F6.
  assert (Busy st2) as HB2.
  { split; [split; [done| |rewrite F5, F1; exact S0]|congruence]. eapply CoreFreeMemoryMapStack_empties; [|exact E2]. by rewrite F1. }
  rewrite (SM_bind_run _ _ _ _ _ (CoreReleaseMemoryLock_run st2 (proj2 HB2))), (SM_bind_run _ _ _ _ _ (quiet_policy _ _ _ _ _)) in E.
  rewrite HPcd in E. cbn [Z.eqb negb] in E. apply SM_bind_Done in E as (u3 & st3 & [_ ->]%SM_ret_Done & E).
  apply AllocateMemoryTypeInformationBins_idle in E; [done|]. by apply Busy_release.
Qed.

(** ** Termination of the boot services *)

Lemma CoreTerminateMemoryMap_spec k st Status st' :
  gMemoryLock st = false -> CoreTerminateMemoryMap k st = Done (Status, st') -> st' = st /\ (Status = EFI_SUCCESS -> k = mMemoryMapKey st).
Proof using Q.
  intros Hl E. unfold CoreTerminateMemoryMap in E. rewrite (SM_bind_run _ _ _ _ _ (CoreAcquireMemoryLock_run st Hl)) in E.
  rewrite (Get_run (S:=PageState)) in E. apply SM_bind_Done in E as (S1 & st1 & E1 & E).
  assert (st1 = SetMemoryLock true st /\ (S1 = EFI_SUCCESS -> k = mMemoryMapKey st)) as [-> HK].
  { simpl in E1. destruct (Z.eqb_spec k (mMemoryMapKey st)) as [Hk|]; [|by apply SM_ret_Done in E1 as [-> ->]].
    destruct (TerminateLoop _ _); [|done..]. injection E1 as _ <-. done. }
  rewrite (SM_bind_run _ _ _ _ _ (CoreReleaseMemoryLock_run (SetMemoryLock true st) eq_refl)) in E. apply SM_ret_Done in E as [-> ->].
  split; [|done]. destruct st. simpl in *. by subst.
Qed.

(** ** The empty map *)

(** Before any memory is known. *)
Record InitialPages (st : PageState) : Prop := {
  initial_map : gMemoryMap st = [];
  initial_free : mFreeMemoryMapEntryList st = [];
  initial_depth : mMapDepth st = 0%nat;
  initial_stack : mFreeMapStack st = 0;
  initial_lock : gMemoryLock st = false;
  initial_bins : BinsOk (Bins st);
  initial_gcd : UntestedOk st }.

Lemma Initial_idle st : InitialPages st -> Idle st.
Proof using.
  intros [HM HF HD HS HL HB HG]. split; [|done]. split; [|done|done]. split; [|done| |done].
  - split; [rewrite HM; split_and!; [done|done|by intros ? ? ?%elem_of_nil]| | |rewrite HD; unfold MAX_MAP_DEPTH; lia].
    + unfold nodes_of. rewrite HM, HF. constructor.
    + unfold nodes_of. rewrite HM, HF. by intros i ?%elem_of_nil.
  - intros p. unfold nodes_of. rewrite HM, HF. by intros ?%elem_of_nil.
Qed.

(** ** Owned memory *)

(** Owned memory is apart from what is granted, and stays owned. *)
Lemma Granted_apart b n t st st' s e :
  Owned st s e -> Granted b n t st st' -> forall a, s <= a <= e -> ~ b <= a <= b + 4096 * n - 1.
Proof using.
  intros HO (_ & _ & st1 & _ & G1 & x & HU & _) a Ha Hb. destruct (proj1 (Owned_grows _ _ _ _ HO G1) a Ha) as (v & E & Hv).
  rewrite HU in E by done. by injection E as <-.
Qed.

Lemma GrowsFrom_owned m st st' s e :
  Owned st s e -> (forall a, s <= a <= e -> m a = at_address st a) -> GrowsFrom m st st' ->
  Owned st' s e /\ forall a, s <= a <= e -> at_address st' a = at_address st a.
Proof using.
  intros [HO HN] Em [T _ _ W _ _ _]. assert (forall a, s <= a <= e -> at_address st' a = at_address st a) as EA.
  { intros a Ha. destruct (HO a Ha) as (v & E & Hv). rewrite E. apply T; [|done]. by rewrite Em. }
  split; [|done]. split; [intros a Ha; rewrite EA by done; by apply HO|].
  intros p Hp Ha. destruct (decide (PageNode p ∈ nodes_of st)) as [H|H]; [by apply (HN p)|].
  destruct (HO p Ha) as (v & E & Hv). apply Hv, (W p v Hp H). by rewrite Em.
Qed.

Lemma Granted_keeps b n t st st' s e :
  Owned st s e -> Granted b n t st st' -> Owned st' s e /\ forall a, s <= a <= e -> at_address st' a = at_address st a.
Proof using.
  intros HO HG. pose proof (Granted_apart _ _ _ _ _ _ _ HO HG) as Hap. destruct HG as (_ & _ & st1 & _ & G1 & x & _ & G2).
  destruct (GrowsFrom_owned _ _ _ s e HO ltac:(done) G1) as [HO1 E1].
  destruct (GrowsFrom_owned (set_range b (b + 4096 * n - 1) (Some (t, x)) (at_address st1)) st1 st' s e HO1) as [HO2 E2];
    [intros a Ha; unfold set_range; by rewrite (proj2 (within_false _ _ _) (Hap a Ha))|done|].
  split; [done|]. intros a Ha. by rewrite E2, E1.
Qed.
End Reach.
