(* ===== verification/PageTheorems.v ===== *)
(** * The page allocator: theorems

    What CoreAllocatePages and CoreFreePages do and that they return, that
    allocating pages and freeing them again restores the map, the invariant of
    all states that calls of the services reach, and that memory in use is not
    handed out again; with the theorems at work on a small machine. *)
From Stdlib Require Import ZArith Lia.
From stdpp Require Import base option list relations.
From S2P Require Import Prelude StateMonad Gcd MemoryBin Page PageSample PageMap PageOps PageFind PageInv PageSteps PageStack PageTotal PageServices PageReach.

Section Services.
Context {Env : PageEnvironment} {Off : GuardOff Env} {Q : Quiet Env}.

(** The outcome of a request for pages at [b]. *)
Record Allocated (b n t : Z) (st st' : PageState) : Prop := {
  allocated_idle : Idle st';
  allocated_took : Took b (b + 4096 * n - 1) t st st';
  allocated_exact : (2 <= length (mFreeMemoryMapEntryList st))%nat ->
    exists x, Uniform st b (b + 4096 * n - 1) (EfiConventionalMemory, x) /\ Exact (set_range b (b + 4096 * n - 1) (Some (t, x)) (at_address st)) 2 st st' }.

Lemma Allocated_release b n t x st st' :
  Idle st -> Uniform st b (b + 4096 * n - 1) (EfiConventionalMemory, x) -> Busy st' ->
  GrowsFrom (set_range b (b + 4096 * n - 1) (Some (t, x)) (at_address st)) (SetMemoryLock true st) st' ->
  ((2 <= length (mFreeMemoryMapEntryList st))%nat -> Exact (set_range b (b + 4096 * n - 1) (Some (t, x)) (at_address st)) 2 (SetMemoryLock true st) st') ->
  Allocated b n t st (SetMemoryLock false st').
Proof using.
  intros [HC Hl] HU HB G HX. split; [by apply Busy_release| |].
  - exists x. split; [done|]. by apply GrowsFrom_relock.
  - intros H2. exists x. split; [done|]. exact (HX H2).
Qed.

Lemma relock st : gMemoryLock st = true -> SetMemoryLock true (SetMemoryLock false st) = st.
Proof using. destruct st. simpl. by intros ->. Qed.
Lemma unlock st : gMemoryLock st = false -> SetMemoryLock false (SetMemoryLock true st) = st.
Proof using. destruct st. simpl. by intros ->. Qed.

(** The end of a request after the search for pages. *)
Lemma Allocate_finish Type_ t n m st st1 b B :
  gMemoryLock st = false -> Type_ = AllocateAnyPages \/ Type_ = AllocateMaxAddress -> InvalidAllocationType t = false -> 0 < n < 2 ^ 52 ->
  FindFreePages CoreFreeMemoryMapStack (MaxAddressOf Type_ m) n t 4096 false (SetMemoryLock true st) = Done (b, SetBins B st1) ->
  Busy st1 -> BinsOk B -> Choice st1 t (MaxAddressOf Type_ m) n b ->
  (b = 0 -> B = Bins st1 -> CoreAllocatePages Type_ t n (Some m) st = Done ((EFI_OUT_OF_RESOURCES, Some m), SetMemoryLock false st1)) /\
  (b ≠ 0 -> RoomOutside st1 b (b + 4096 * n - 1) ->
     exists st', CoreAllocatePages Type_ t n (Some m) st = Done ((EFI_SUCCESS, Some b), st') /\ Allocated b n t (SetMemoryLock false st1) st').
Proof using Off Q.
  intros Hl HT Ht Hn EF HB HBk HC.
  destruct (AllocateLocked_found Type_ t n m (MaxAddressOf Type_ m) (SetMemoryLock true st) st1 b B) as [H0 H1];
    [done|done|done|done|destruct HT as [-> | ->]; done|by apply valid_type|done|].
  rewrite CoreAllocatePages_locked; [|done|destruct HT as [-> | ->]; done|done|lia|intros ->; by destruct HT]. split.
  - intros Hb ->. rewrite (SM_bind_run _ _ _ _ _ (H0 Hb)). rewrite (SM_bind_run _ _ _ _ _ (CoreReleaseMemoryLock_run (SetBins (Bins st1) st1) (proj2 HB))).
    unfold mret, SM_ret. by destruct st1.
  - intros Hb HR. destruct (H1 Hb HR) as (x & st' & HU & E & HB' & G & HX). exists (SetMemoryLock false st').
    rewrite (SM_bind_run _ _ _ _ _ E), (SM_bind_run _ _ _ _ _ (CoreReleaseMemoryLock_run st' (proj2 HB'))). split; [done|].
    apply (Allocated_release b n t x); [by apply Busy_release|done|done|by rewrite relock by apply HB|]. intros H2. rewrite relock by apply HB. by apply HX.
Qed.

(** C18: AllocateAnyPages and AllocateMaxAddress, for 0 < n < 2^52 pages (the code
    does not check the number: see CoreAllocatePages_wraps), an accepted type and an
    idle allocator with whole-page granularity, without the heap guard and with hooks
    that leave the map alone.  The search order prescribes a place [b] ([Choice]): the
    highest one in the bin of the type, else below the bins, else below the limit.  If
    there is one and two free descriptors, or, when no untested memory is left, a free
    page besides ([RoomOutside]), the service returns EFI_SUCCESS and [b], exactly
    these pages have the new type, and besides only pages for descriptors are taken.
    If there is none and no untested memory is left, it returns EFI_OUT_OF_RESOURCES
    and nothing changes.  If there is none and the promotion of untested memory
    returns, the result is the same, for the memory that there is then. *)
Theorem CoreAllocatePages_any Type_ t n m st :
  Idle st -> Type_ = AllocateAnyPages \/ Type_ = AllocateMaxAddress -> InvalidAllocationType t = false ->
  0 < n < 2 ^ 52 -> 0 <= m < 2 ^ 64 ->
  exists b, Choice st t (MaxAddressOf Type_ m) n b /\
    (b ≠ 0 -> RoomOutside st b (b + 4096 * n - 1) ->
       exists st', CoreAllocatePages Type_ t n (Some m) st = Done ((EFI_SUCCESS, Some b), st') /\ Allocated b n t st st') /\
    (b = 0 -> Settled st -> CoreAllocatePages Type_ t n (Some m) st = Done ((EFI_OUT_OF_RESOURCES, Some m), st)) /\
    (b = 0 -> forall st1, PromoteMemoryResource CoreFreeMemoryMapStack (SetMemoryLock true st) = Done (true, st1) ->
       Settled st1 /\ exists b1, Choice st1 t (MaxAddressOf Type_ m) n b1 /\
         (b1 ≠ 0 -> RoomOutside st1 b1 (b1 + 4096 * n - 1) ->
            exists st', CoreAllocatePages Type_ t n (Some m) st = Done ((EFI_SUCCESS, Some b1), st') /\ Allocated b1 n t (SetMemoryLock false st1) st') /\
         (b1 = 0 -> CoreAllocatePages Type_ t n (Some m) st = Done ((EFI_OUT_OF_RESOURCES, Some m), SetMemoryLock false st1))).
Proof using Off Q.
  intros HI HT Ht Hn Hm. pose proof HI as [HC Hl]. pose proof (Idle_acquire st HI) as HB. set (Max := MaxAddressOf Type_ m).
  assert (Max < 2 ^ 64) as HM by (unfold Max, MaxAddressOf, MAX_ALLOC_ADDRESS; destruct (_ =? _); lia).
  destruct (FindFreePages_search CoreFreeMemoryMapStack Max n t (SetMemoryLock true st)) as (b & B & HBk & HCh & H0 & H1 & H2);
    [by apply HB|done|done|]. exists b. split; [exact HCh|].
  assert (forall st1 b B, FindFreePages CoreFreeMemoryMapStack Max n t 4096 false (SetMemoryLock true st) = Done (b, SetBins B st1) -> Busy st1 ->
    BinsOk B -> Choice st1 t Max n b -> _) as HFin by exact (fun st1 b B => Allocate_finish Type_ t n m st st1 b B Hl HT Ht Hn).
  split_and!.
  - intros Hb HR. destruct (HFin _ _ _ (H1 (or_introl Hb)) HB HBk HCh) as [_ HS]. rewrite (unlock st Hl) in HS. by apply HS.
  - intros Hb HS. destruct (HFin _ _ _ (H1 (or_intror HS)) HB HBk HCh) as [HN _]. rewrite (unlock st Hl) in HN. by apply HN; [|apply H0].
  - intros Hb st1 EP. destruct (Promoted_busy _ _ _ HB EP) as (HB1 & HS1 & _). split; [done|].
    destruct (H2 Hb st1 EP) as (b1 & B1 & HBk1 & HCh1 & H01 & EF1); [apply HB1|done|]. exists b1. split; [done|].
    destruct (HFin _ _ _ EF1 HB1 HBk1 HCh1) as [HN HS]. split; [exact HS|]. intros Hb1. by apply HN; [|apply H01].
Qed.

(** All pages of the range are free memory of one kind. *)
Definition FreeRange (m n : Z) (st : PageState) : Prop := exists x, Uniform st m (m + 4096 * n - 1) (EfiConventionalMemory, x).

(** An attempt to take the pages. *)
Lemma Convert_at t n m st :
  Busy st -> InvalidAllocationType t = false -> 0 < n < 2 ^ 52 -> 0 <= m -> m + 4096 * n < 2 ^ 64 -> PageAligned m ->
  (FreeRange m n st -> RoomOutside st m (m + 4096 * n - 1) ->
     exists st', CoreConvertPages CoreFreeMemoryMapStack m n t st = Done (EFI_SUCCESS, st') /\ Busy st' /\
       Allocated m n t (SetMemoryLock false st) (SetMemoryLock false st')) /\
  (~ FreeRange m n st -> CoreConvertPages CoreFreeMemoryMapStack m n t st = Done (EFI_NOT_FOUND, st)).
Proof using Off.
  intros HB Ht Hn Hm He Am. pose proof HB as [[HI _ _] Hl]. split.
  - intros [x HU] HR. destruct (take_total m n t st x) as (st' & E & HB' & G & HX); [done..|by apply valid_type|done|exact HR|].
    exists st'. split_and!; [done|done|].
    apply (Allocated_release m n t x); [by apply Busy_release|done|done|by rewrite relock|]. intros H2. rewrite relock by done. by apply HX.
  - intros HU. apply take_refused; [done..|by apply valid_type|exact HU].
Qed.

(** C20: AllocateAddress, for 0 < n < 2^52 pages of an accepted type at an address
    that is aligned and passes the checks of the code ([AddressOk]), with an idle
    allocator of whole-page granularity, without the heap guard and with hooks that
    leave the map alone.  If all the pages are free memory of one kind, and there are
    two free descriptors or, when no untested memory is left, a free page besides
    ([RoomOutside]), they are allocated.  If they are not and no untested memory is
    left, the result is EFI_NOT_FOUND and nothing changes.  If they are not and the
    promotion of untested memory returns, the request is tried once more, with the
    memory that there is then: it succeeds if the pages are free then, else the result
    is EFI_NOT_FOUND and nothing but the promotion has happened. *)
Theorem CoreAllocatePages_address t n m st :
  Idle st -> InvalidAllocationType t = false -> 0 < n < 2 ^ 52 -> 0 <= m -> m + 4096 * n < 2 ^ 64 -> AddressOk AllocateAddress t n m st ->
  (FreeRange m n st -> RoomOutside st m (m + 4096 * n - 1) ->
     exists st', CoreAllocatePages AllocateAddress t n (Some m) st = Done ((EFI_SUCCESS, Some m), st') /\ Allocated m n t st st') /\
  (~ FreeRange m n st -> Settled st -> CoreAllocatePages AllocateAddress t n (Some m) st = Done ((EFI_NOT_FOUND, Some m), st)) /\
  (~ FreeRange m n st -> forall st1, PromoteMemoryResource CoreFreeMemoryMapStack (SetMemoryLock true st) = Done (true, st1) ->
     Settled st1 /\
     (FreeRange m n st1 -> RoomOutside st1 m (m + 4096 * n - 1) ->
        exists st', CoreAllocatePages AllocateAddress t n (Some m) st = Done ((EFI_SUCCESS, Some m), st') /\ Allocated m n t (SetMemoryLock false st1) st') /\
     (~ FreeRange m n st1 -> CoreAllocatePages AllocateAddress t n (Some m) st = Done ((EFI_NOT_FOUND, Some m), SetMemoryLock false st1))).
Proof using Off Q.
  intros HI Ht Hn Hm He HA. pose proof HI as [HC Hl]. pose proof (Idle_acquire st HI) as HB. destruct (HA eq_refl) as [Am _].
  rewrite CoreAllocatePages_locked by (done || lia). unfold AllocateLocked. cbn [Z.eqb AllocateAddress Pos.eqb negb andb].
  destruct (Convert_at t n m _ HB Ht Hn Hm He Am) as [HY HN]. split_and!.
  - intros HF HR. destruct (HY HF HR) as (st' & E & HB' & HAl). exists (SetMemoryLock false st'). rewrite (unlock st Hl) in HAl. split; [|done].
    unfold mbind, SM_bind, mret, SM_ret. rewrite E. simpl. by rewrite (CoreReleaseMemoryLock_run st' (proj2 HB')).
  - intros HF HS. unfold mbind, SM_bind, mret, SM_ret. rewrite (HN HF). simpl. rewrite PromoteMemoryResource_tested by done. simpl.
    rewrite CoreReleaseMemoryLock_run by done. by rewrite (unlock st Hl).
  - intros HF st1 EP. destruct (Promoted_busy _ _ _ HB EP) as (HB1 & HS1 & _). split; [done|].
    destruct (Convert_at t n m _ HB1 Ht Hn Hm He Am) as [HY1 HN1]. unfold mbind, SM_bind, mret, SM_ret. rewrite (HN HF). simpl. rewrite EP. split.
    + intros HF1 HR1. destruct (HY1 HF1 HR1) as (st' & E & HB' & HAl). exists (SetMemoryLock false st'). split; [|done].
      rewrite E. simpl. by rewrite (CoreReleaseMemoryLock_run st' (proj2 HB')).
    + intros HF1. rewrite (HN1 HF1). simpl. by rewrite (CoreReleaseMemoryLock_run st1 (proj2 HB1)).
Qed.

(** ** Freeing *)

(** The outcome of freeing pages. *)
Definition Freed (m n : Z) (st st' : PageState) : Prop := Idle st' /\ GrowsFrom (freed_range m (m + 4096 * n - 1) (at_address st)) st st'.

(** C19: Freeing 0 < n < 2^52 whole pages that are in use, not for descriptors
    ([Owned]) and without the attribute EFI_MEMORY_SP, when no untested memory is left,
    with an idle allocator, without the heap guard and with hooks that leave the map
    alone: CoreFreePages returns EFI_SUCCESS.  If the memory attribute protocol, where
    there is one, reports the pages as neither read-only nor read-protected
    ([Returnable]), even if they are of several kinds and without a free descriptor,
    exactly these pages are free afterwards, except for pages taken for descriptors; if
    it reports them as such, or an error, nothing is freed and nothing changes. *)
Theorem CoreFreePages_frees m n st :
  Idle st -> Settled st -> 0 < m -> 0 < n < 2 ^ 52 -> m + 4096 * n < 2 ^ 64 -> PageAligned m ->
  Owned st m (m + 4096 * n - 1) -> NoSpecific st m (m + 4096 * n - 1) ->
  exists st', CoreFreePages m n st = Done (EFI_SUCCESS, st') /\ if Returnable m n then Freed m n st st' else st' = st.
Proof using Off Q.
  intros HI HS Hm Hn He Am HO HP. pose proof HI as [HC Hl]. destruct (Returnable m n) eqn:HR.
  2: { exists st. split; [|done]. unfold CoreFreePages. by rewrite HR. }
  destruct (Owned_find st m (m + 4096 * n - 1) (calm_inv st HC) HO Am ltac:(lia)) as (d & EF & _).
  rewrite (CoreFreePages_locked m n d st Hl HR Am ltac:(lia) EF).
  destruct (free_total m n (SetMemoryLock true st)) as (st' & E & HB & G); [by apply Idle_acquire|done..|].
  exists (SetMemoryLock false st'). split; [|split; [by apply Busy_release|by apply GrowsFrom_relock]].
  by rewrite (SM_bind_run _ _ _ _ _ E), (SM_bind_run _ _ _ _ _ (CoreReleaseMemoryLock_run st' (proj2 HB))).
Qed.

Definition SameMap (st st' : PageState) : Prop := forall a, at_address st' a = at_address st a.

(** Pages that are allocated and freed again: with four free descriptors
    both calls succeed and the map is as before at every address. *)
Theorem pages_roundtrip Type_ t n m st :
  Idle st -> Settled st -> Type_ = AllocateAnyPages \/ Type_ = AllocateMaxAddress -> InvalidAllocationType t = false ->
  0 < n < 2 ^ 52 -> 0 <= m < 2 ^ 64 -> (4 <= length (mFreeMemoryMapEntryList st))%nat -> (forall b, Returnable b n = true) ->
  (exists b, b ≠ 0 /\ Fits (gMemoryMap st) (MaxAddressOf Type_ m) 0 n b) ->
  exists b st1 st2, CoreAllocatePages Type_ t n (Some m) st = Done ((EFI_SUCCESS, Some b), st1) /\
    CoreFreePages b n st1 = Done (EFI_SUCCESS, st2) /\ Idle st2 /\ SameMap st st2.
Proof using Off Q.
  intros HI HS HT Ht Hn Hm H4 HR (c & Hc & HF). pose proof HI as [HC Hl]. pose proof (calm_inv _ HC) as HP.
  assert (MaxAddressOf Type_ m < 2 ^ 64) as HM by (unfold MaxAddressOf, MAX_ALLOC_ADDRESS; destruct (_ =? _); lia).
  destruct (FindFreePages_total CoreFreeMemoryMapStack (MaxAddressOf Type_ m) n t (SetMemoryLock true st)) as (b & B & EFind & HBk & HCh);
    [by apply PageInv_lock|done|done|done|].
  destruct (AllocateLocked_found Type_ t n m (MaxAddressOf Type_ m) (SetMemoryLock true st) (SetMemoryLock true st) b B) as [_ H1];
    [done|by apply Idle_acquire|done|done|destruct HT as [-> | ->]; done|by apply valid_type|done|].
  assert (b ≠ 0) as Hb by (intros ->; by apply Hc, (Choice_none (SetMemoryLock true st) t (MaxAddressOf Type_ m) n c (PageInv_lock _ _ HP))).
  destruct (Fits_bounds (SetMemoryLock true st) _ _ _ (PageInv_lock _ _ HP) (Choice_fits _ _ _ _ _ (PageInv_lock _ _ HP) HCh Hb)) as (? & ? & Ab).
  destruct (H1 Hb ltac:(left; simpl; lia)) as (x & st1 & HU & E1 & HB1 & G1 & HX1). destruct (HX1 ltac:(simpl; lia)) as [EA1 L1]. simpl in L1.
  pose proof (Allocated_release b n t x st st1 HI HU HB1 G1 (fun _ => HX1 ltac:(simpl; lia))) as [HI1 HT1 _].
  destruct (Took_Owned _ _ _ _ _ HP HT1 (valid_type t Ht)) as [HO [y HU1]]. set (s1 := SetMemoryLock false st1) in *.
  destruct (free_exact b n (SetMemoryLock true s1) (t, y)) as (st2 & E2 & HB2 & EA2 & _); [by apply Idle_acquire|lia|done..|simpl; lia|].
  exists b, s1, (SetMemoryLock false st2). split_and!; [| |by apply Busy_release|].
  - rewrite CoreAllocatePages_locked; [|done|destruct HT as [-> | ->]; done|done|lia|intros ->; by destruct HT].
    by rewrite (SM_bind_run _ _ _ _ _ E1), (SM_bind_run _ _ _ _ _ (CoreReleaseMemoryLock_run st1 (proj2 HB1))).
  - destruct (Owned_find s1 b (b + 4096 * n - 1) (calm_inv _ (proj1 HI1)) HO Ab ltac:(lia)) as (d & EF & _).
    rewrite (CoreFreePages_locked b n d s1 eq_refl (HR b) Ab ltac:(lia) EF).
    by rewrite (SM_bind_run _ _ _ _ _ E2), (SM_bind_run _ _ _ _ _ (CoreReleaseMemoryLock_run st2 (proj2 HB2))).
  - intros a. transitivity (at_address st2 a); [done|]. rewrite EA2. destruct (decide (b <= a <= b + 4096 * n - 1)) as [Ha|Ha].
    + rewrite (freed_at _ _ _ _ t y Ha) by (by apply HU1). pose proof (HU1 a Ha) as H3. change (at_address s1 a) with (at_address st1 a) in H3.
      rewrite EA1 in H3. unfold set_range in H3. rewrite (proj2 (within_spec _ _ _) Ha) in H3. injection H3 as <-. symmetry. by apply HU.
    + rewrite freed_out by done. change (at_address (SetMemoryLock true s1) a) with (at_address st1 a). rewrite EA1. unfold set_range.
      by rewrite (proj2 (within_false _ _ _) Ha).
Qed.
(** ** Reachable states *)

(** The calls of the services; pages that are freed belong to the caller. *)
Inductive PageStep : PageState -> PageState -> Prop :=
| StepAdd t s n x st u st' :
    0 < n < 2 ^ 52 -> NewMemory st s (s + 4096 * n - 1) -> CoreAddMemoryDescriptor t s n x st = Done (u, st') -> PageStep st st'
| StepAllocate Type_ t n Memory st r st' :
    0 <= n < 2 ^ 52 -> (forall m, Memory = Some m -> 0 <= m < 2 ^ 64) -> CoreAllocatePages Type_ t n Memory st = Done (r, st') -> PageStep st st'
| StepFree m n st Status st' :
    0 < n < 2 ^ 52 -> PageAligned m -> Owned st m (m + 4096 * n - 1) -> CoreFreePages m n st = Done (Status, st') -> PageStep st st'
| StepAttributes s n x st u st' :
    0 <= s < 2 ^ 64 -> 0 <= n < 2 ^ 52 -> CoreUpdateMemoryAttributes s n x st = Done (u, st') -> PageStep st st'
| StepTerminate k st Status st' : CoreTerminateMemoryMap k st = Done (Status, st') -> PageStep st st'.

Lemma PageStep_idle st st' : PcdLoadModuleAtFixAddressEnable = 0 -> Idle st -> PageStep st st' -> Idle st'.
Proof using Off Q.
  intros HP HI H. destruct H as [t s n x st u st' Hn HM E|Type_ t n Memory st [Status Mem] st' Hn HM E|m n st Status st' Hn Am HO E|s n x st u st' Hs Hn E|k st Status st' E].
  - by eapply CoreAddMemoryDescriptor_spec.
  - by destruct (CoreAllocatePages_spec _ _ _ _ _ _ _ _ HI Hn HM E).
  - by destruct (CoreFreePages_spec _ _ _ _ _ HI Hn Am HO E).
  - by eapply CoreUpdateMemoryAttributes_spec.
  - destruct (CoreTerminateMemoryMap_spec k st Status st' (proj2 HI) E) as [-> _]. done.
Qed.

(** C16: In every state that calls of the services reach from an empty map, with
    untested memory promoted on the way or not, the services are idle: the lock
    is free, the descriptor stack is empty, the descriptors are whole pages that
    do not overlap and are merged as far as possible, and each descriptor is kept
    in memory that the map itself says is in use for it. *)
Theorem reachable_idle st0 st :
  PcdLoadModuleAtFixAddressEnable = 0 -> InitialPages st0 -> rtc PageStep st0 st -> Idle st.
Proof using Off Q.
  intros HP H0 H. apply Initial_idle in H0. induction H as [st|st1 st2 st3 H12 _ IH]; [done|]. apply IH. by eapply PageStep_idle.
Qed.

(** ** Allocated pages stay with their owner *)

(** Requests, and freeing of other pages. *)
Inductive OtherStep (s e : Z) : PageState -> PageState -> Prop :=
| OtherAllocate Type_ t n Memory st r st' :
    0 <= n < 2 ^ 52 -> (forall m, Memory = Some m -> 0 <= m < 2 ^ 64) -> CoreAllocatePages Type_ t n Memory st = Done (r, st') -> OtherStep s e st st'
| OtherFree m n st Status st' :
    0 < n < 2 ^ 52 -> PageAligned m -> Owned st m (m + 4096 * n - 1) -> m + 4096 * n - 1 < s \/ e < m ->
    CoreFreePages m n st = Done (Status, st') -> OtherStep s e st st'.

Lemma OtherStep_keeps s e st st' :
  Idle st -> Owned st s e -> OtherStep s e st st' -> Idle st' /\ Owned st' s e /\ forall a, s <= a <= e -> at_address st' a = at_address st a.
Proof using Off Q.
  intros HI HO H. destruct H as [Type_ t n Memory st [Status Mem] st' Hn HM E|m n st Status st' Hn Am HOm Hap E].
  - destruct (CoreAllocatePages_spec _ _ _ _ _ _ _ _ HI Hn HM E) as [HI' [[_ G]|(_ & _ & b & _ & HG)]]; (split; [done|]).
    + by apply (GrowsFrom_owned (at_address st)).
    + by eapply Granted_keeps.
  - destruct (CoreFreePages_spec _ _ _ _ _ HI Hn Am HOm E) as (HI' & _ & [[_ ->]|G]); (split; [done|]); [done|].
    apply (GrowsFrom_owned _ _ _ _ _ HO) in G; [done|]. intros a Ha. apply freed_out. lia.
Qed.

(** C17: Pages that were allocated keep their type and attributes, and no later
    request is given any of them, through any sequence of requests and of
    freeing of other pages, descriptor pages and promotions included. *)
Theorem allocations_disjoint Type1 t1 n1 Memory1 st b1 st1 st2 Type2 t2 n2 Memory2 b2 st3 :
  Idle st -> 0 <= n1 < 2 ^ 52 -> (forall m, Memory1 = Some m -> 0 <= m < 2 ^ 64) ->
  0 <= n2 < 2 ^ 52 -> (forall m, Memory2 = Some m -> 0 <= m < 2 ^ 64) ->
  CoreAllocatePages Type1 t1 n1 Memory1 st = Done ((EFI_SUCCESS, Some b1), st1) ->
  rtc (OtherStep b1 (b1 + 4096 * n1 - 1)) st1 st2 ->
  CoreAllocatePages Type2 t2 n2 Memory2 st2 = Done ((EFI_SUCCESS, Some b2), st3) ->
  (b1 + 4096 * n1 <= b2 \/ b2 + 4096 * n2 <= b1) /\
  forall a, b1 <= a <= b1 + 4096 * n1 - 1 -> at_address st3 a = at_address st1 a.
Proof using Off Q.
  intros HI Hn1 HM1 Hn2 HM2 E1 H E2.
  destruct (CoreAllocatePages_spec _ _ _ _ _ _ _ _ HI Hn1 HM1 E1) as [HI1 [[? _]|(_ & Ht1 & b & [= <-] & HG1)]]; [done|].
  pose proof (Granted_Owned _ _ _ _ _ HG1 Ht1) as HO1. destruct HG1 as (Hn & _).
  assert (Idle st2 /\ Owned st2 b1 (b1 + 4096 * n1 - 1) /\ forall a, b1 <= a <= b1 + 4096 * n1 - 1 -> at_address st2 a = at_address st1 a) as (HI2 & HO2 & EA).
  { clear E1 E2. induction H as [st1|st1 st1' st2 Hstep _ IH]; [done|]. destruct (OtherStep_keeps _ _ _ _ HI1 HO1 Hstep) as (HI' & HO' & EA').
    destruct (IH HI' HO') as (? & ? & EA). split_and!; [done..|]. intros a Ha. by rewrite EA, EA'. }
  destruct (CoreAllocatePages_spec _ _ _ _ _ _ _ _ HI2 Hn2 HM2 E2) as [_ [[? _]|(_ & _ & b & [= <-] & HG2)]]; [done|].
  pose proof (Granted_apart _ _ _ _ _ _ _ HO2 HG2) as Hap. destruct (Granted_keeps _ _ _ _ _ _ _ HO2 HG2) as [_ EA3]. destruct HG2 as (Hn' & _).
  split; [|intros a Ha; by rewrite EA3, EA]. pose proof (Hap (Z.max b1 b2)). lia.
Qed.
End Services.

(** ** The small machine *)

#[export] Instance SampleQuiet : Quiet SampleEnv.
Proof. by split. Qed.

Lemma SampleEmpty_initial : InitialPages SampleEmpty.
Proof. split; [done..| |]. { by split. } intros i e Hi. destruct i; discriminate Hi. Qed.

Lemma SampleEmpty_new : NewMemory SampleEmpty 0x100000 (0x100000 + 4096 * 16 - 1).
Proof. split_and!; [by split_and!|done|]. intros i e Hi. destruct i; discriminate Hi. Qed.

Lemma SampleReady_idle : Idle SampleReady.
Proof.
  apply (CoreAddMemoryDescriptor_spec (Env:=SampleEnv) EfiConventionalMemory 0x100000 16 0xF SampleEmpty tt SampleReady eq_refl
    (Initial_idle SampleEmpty SampleEmpty_initial) ltac:(lia) SampleEmpty_new SampleAdd_run).
Qed.

Lemma SampleReady_settled : Settled SampleReady.
Proof. split; [|reflexivity]. unfold Tested. change (gcd_of SampleReady) with (@nil EFI_GCD_MAP_ENTRY). constructor. Qed.

Lemma Sample_room b : RoomOutside SampleReady b (b + 4096 * 3 - 1).
Proof. left. apply Nat.leb_le. vm_compute. reflexivity. Qed.

Lemma CoreAllocatePages_any_witness : exists b, Choice SampleReady EfiBootServicesData MAX_ALLOC_ADDRESS 3 b /\
    (b ≠ 0 -> exists st', CoreAllocatePages AllocateAnyPages EfiBootServicesData 3 (Some 0) SampleReady = Done ((EFI_SUCCESS, Some b), st') /\
       Allocated b 3 EfiBootServicesData SampleReady st') /\
    (b = 0 -> CoreAllocatePages AllocateAnyPages EfiBootServicesData 3 (Some 0) SampleReady = Done ((EFI_OUT_OF_RESOURCES, Some 0), SampleReady)).
Proof.
  destruct (CoreAllocatePages_any (Env:=SampleEnv) AllocateAnyPages EfiBootServicesData 3 0 SampleReady SampleReady_idle
    (or_introl eq_refl) eq_refl ltac:(lia) ltac:(lia)) as (b & HC & H1 & H0 & _).
  exists b. split; [exact HC|]. split; [intros Hb; exact (H1 Hb (Sample_room b))|intros Hb; exact (H0 Hb SampleReady_settled)].
Defined.

(** The descriptor of the free memory. *)
Definition SampleFree : MEMORY_MAP := MkMap (PageNode 0x10F040) EfiConventionalMemory 0x100000 0x10EFFF 0xF.

Lemma SampleFree_in : SampleFree ∈ gMemoryMap SampleReady.
Proof. assert (gMemoryMap SampleReady !! 0%nat = Some SampleFree) as H by (vm_compute; reflexivity). by eapply list_elem_of_lookup_2. Qed.

Lemma SampleFree_uniform s e : 0x100000 <= s -> e <= 0x10EFFF -> Uniform SampleReady s e (EfiConventionalMemory, 0xF).
Proof.
  intros Hs He a Ha. rewrite (look_inside SampleReady SampleFree a (inv_wf _ (calm_inv _ (proj1 SampleReady_idle))) SampleFree_in); [done|].
  unfold inside. simpl. lia.
Qed.

(** The machine with 16 more pages that are not tested. *)
Definition SampleEntry : EFI_GCD_MAP_ENTRY := MkEntry 0x200000 0x20FFFF (Z.lor EFI_MEMORY_PRESENT EFI_MEMORY_INITIALIZED) 0 EfiGcdMemoryTypeReserved 0 0 0.
Definition SampleUntested : PageState := SetGcd (MkGcd [SampleEntry] [] false false 0 []) SampleReady.
Definition SamplePromoted : PageState := after (PromoteMemoryResource CoreFreeMemoryMapStack) (SetMemoryLock true SampleUntested).

Lemma SampleReady_map : gMemoryMap SampleReady = [SampleFree; MkMap (PageNode 0x10F000) EfiBootServicesData 0x10F000 0x10FFFF 0xF].
Proof. vm_compute. reflexivity. Qed.

Lemma SampleUntested_idle : Idle SampleUntested.
Proof.
  destruct SampleReady_idle as [[[W B D U] H1 H2] H3]. split; [|exact H3]. split; [|exact H1|exact H2].
  split; [destruct W; by split|exact B|exact D|].
  intros i e Hi Hp. destruct i; [|discriminate Hi]. injection Hi as <-. split_and!.
  - split_and!; [reflexivity|reflexivity|simpl; lia..].
  - intros a Ha. apply look_None. intros d Hd.
    change (gMemoryMap SampleUntested) with (gMemoryMap SampleReady) in Hd. rewrite SampleReady_map in Hd.
    simpl in Ha. unfold inside. apply elem_of_cons in Hd as [->|Hd]; [simpl; lia|]. apply list_elem_of_singleton in Hd as ->. simpl. lia.
  - intros j e' Hj _ Hne. destruct j; [destruct (Hne eq_refl)|discriminate Hj].
Qed.

Lemma SamplePromoted_run : PromoteMemoryResource CoreFreeMemoryMapStack (SetMemoryLock true SampleUntested) = Done (true, SamplePromoted).
Proof. vm_compute. reflexivity. Qed.

Lemma SampleUntested_taken : ~ FreeRange 0x203000 2 SampleUntested.
Proof.
  intros [x HU]. destruct (inv_untested _ (calm_inv _ (proj1 SampleUntested_idle)) 0%nat SampleEntry eq_refl eq_refl) as (_ & HN & _).
  specialize (HU 0x203000 ltac:(lia)). rewrite HN in HU by (simpl; lia). discriminate HU.
Qed.

Lemma SamplePromoted_free : FreeRange 0x203000 2 SamplePromoted.
Proof.
  destruct (Promoted_busy _ _ _ (Idle_acquire _ SampleUntested_idle) SamplePromoted_run) as (HB & _).
  assert (exists d, d ∈ gMemoryMap SamplePromoted /\ MStart d = 0x200000 /\ MEnd d = 0x20FFFF /\ MType d = EfiConventionalMemory) as (d & Hd & Hs & He & Ht).
  { pose (l := filter (fun d => MStart d = 0x200000) (gMemoryMap SamplePromoted)).
    assert (exists d, head l = Some d /\ MStart d = 0x200000 /\ MEnd d = 0x20FFFF /\ MType d = EfiConventionalMemory) as (d & Hd & Hrest)
      by (eexists; split_and!; vm_compute; reflexivity). exists d. split; [|done].
    assert (d ∈ l) as Hl by (destruct l; [done|]; injection Hd as ->; by left). by apply list_elem_of_filter in Hl as [_ Hl]. }
  exists (MAttribute d). intros a Ha. rewrite (look_inside SamplePromoted d a (inv_wf _ (calm_inv _ (proj1 HB))) Hd) by (unfold inside; lia).
  unfold value. by rewrite Ht.
Qed.

(** Tested memory, and memory that has to be promoted first. *)
Lemma CoreAllocatePages_address_witness :
  (exists st', CoreAllocatePages AllocateAddress EfiRuntimeServicesData 2 (Some 0x103000) SampleReady = Done ((EFI_SUCCESS, Some 0x103000), st') /\
    Allocated 0x103000 2 EfiRuntimeServicesData SampleReady st') /\
  (exists st', CoreAllocatePages AllocateAddress EfiRuntimeServicesData 2 (Some 0x203000) SampleUntested = Done ((EFI_SUCCESS, Some 0x203000), st') /\
    Allocated 0x203000 2 EfiRuntimeServicesData (SetMemoryLock false SamplePromoted) st').
Proof.
  split.
  - apply (CoreAllocatePages_address (Env:=SampleEnv) EfiRuntimeServicesData 2 0x103000 SampleReady SampleReady_idle
      eq_refl ltac:(lia) ltac:(lia) ltac:(lia)).
    + intros _. split; [reflexivity|vm_compute; reflexivity].
    + exists 0xF. apply SampleFree_uniform; lia.
    + left. apply Nat.leb_le. vm_compute. reflexivity.
  - destruct (CoreAllocatePages_address (Env:=SampleEnv) EfiRuntimeServicesData 2 0x203000 SampleUntested SampleUntested_idle
      eq_refl ltac:(lia) ltac:(lia) ltac:(lia)) as (_ & _ & HP).
    { intros _. split; [reflexivity|vm_compute; reflexivity]. }
    destruct (HP SampleUntested_taken SamplePromoted SamplePromoted_run) as (_ & HS & _). apply HS.
    + exact SamplePromoted_free.
    + left. apply Nat.leb_le. vm_compute. reflexivity.
Defined.

Lemma SampleUsed_granted : Idle SampleUsed /\ Granted 0x10C000 3 EfiBootServicesData SampleReady SampleUsed.
Proof.
  destruct (CoreAllocatePages_spec (Env:=SampleEnv) AllocateAnyPages EfiBootServicesData 3 (Some 0) SampleReady EFI_SUCCESS (Some 0x10C000) SampleUsed
    SampleReady_idle ltac:(lia) any_address SampleData_run) as [HI [[? _]|(_ & _ & b & [= <-] & HG)]]; done.
Qed.

Lemma SampleUsed_owned : Owned SampleUsed 0x10C000 (0x10C000 + 4096 * 3 - 1).
Proof. by eapply Granted_Owned; [apply SampleUsed_granted|]. Qed.

Definition SampleTaken : MEMORY_MAP := MkMap (PageNode 0x10F080) EfiBootServicesData 0x10C000 0x10FFFF 0xF.

Lemma SampleUsed_ordinary : NoSpecific SampleUsed 0x10C000 (0x10C000 + 4096 * 3 - 1).
Proof.
  assert (SampleTaken ∈ gMemoryMap SampleUsed) as Hin.
  { assert (gMemoryMap SampleUsed !! 1%nat = Some SampleTaken) as H by (vm_compute; reflexivity). by eapply list_elem_of_lookup_2. }
  intros a v Ha E. rewrite (look_inside SampleUsed SampleTaken a (inv_wf _ (calm_inv _ (proj1 (proj1 SampleUsed_granted)))) Hin) in E.
  - by injection E as <-.
  - unfold inside. simpl. lia.
Qed.

Lemma SampleUsed_settled : Settled SampleUsed.
Proof. split; [|reflexivity]. unfold Tested. change (gcd_of SampleUsed) with (@nil EFI_GCD_MAP_ENTRY). constructor. Qed.

Lemma CoreFreePages_frees_witness : exists st', CoreFreePages 0x10C000 3 SampleUsed = Done (EFI_SUCCESS, st') /\ Freed 0x10C000 3 SampleUsed st'.
Proof.
  apply (CoreFreePages_frees (Env:=SampleEnv) 0x10C000 3 SampleUsed (proj1 SampleUsed_granted) SampleUsed_settled ltac:(lia) ltac:(lia)
    ltac:(lia) eq_refl SampleUsed_owned SampleUsed_ordinary).
Defined.

Lemma pages_roundtrip_witness :
  exists b st1 st2, CoreAllocatePages AllocateAnyPages EfiRuntimeServicesData 5 (Some 0) SampleReady = Done ((EFI_SUCCESS, Some b), st1) /\
    CoreFreePages b 5 st1 = Done (EFI_SUCCESS, st2) /\ Idle st2 /\ SameMap SampleReady st2.
Proof.
  apply (pages_roundtrip (Env:=SampleEnv) AllocateAnyPages EfiRuntimeServicesData 5 0 SampleReady SampleReady_idle SampleReady_settled
    (or_introl eq_refl) eq_refl ltac:(lia) ltac:(lia)).
  - apply Nat.leb_le. vm_compute. reflexivity.
  - reflexivity.
  - exists 0x100000. split; [lia|]. split_and!; [reflexivity|lia|vm_compute; discriminate|]. exists SampleFree.
    split_and!; [apply SampleFree_in|reflexivity|reflexivity|simpl; lia|simpl; lia].
Defined.

Lemma reachable_idle_witness : Idle SampleUsed.
Proof.
  apply (reachable_idle (Env:=SampleEnv) SampleEmpty SampleUsed eq_refl SampleEmpty_initial). eapply rtc_l; [|apply rtc_once].
  - exact (StepAdd EfiConventionalMemory 0x100000 16 0xF SampleEmpty tt SampleReady ltac:(lia) SampleEmpty_new SampleAdd_run).
  - exact (StepAllocate AllocateAnyPages EfiBootServicesData 3 (Some 0) SampleReady _ SampleUsed ltac:(lia) any_address SampleData_run).
Defined.

Definition SampleMore : PageState := after (CoreAllocatePages AllocateAnyPages EfiRuntimeServicesData 2 (Some 0)) SampleUsed.
Definition SampleLast : PageState := after (CoreAllocatePages AllocateAnyPages EfiBootServicesCode 4 (Some 0)) SampleMore.

Lemma allocations_disjoint_witness :
  (0x10C000 + 4096 * 3 <= 0x106000 \/ 0x106000 + 4096 * 4 <= 0x10C000) /\
  forall a, 0x10C000 <= a <= 0x10C000 + 4096 * 3 - 1 -> at_address SampleLast a = at_address SampleUsed a.
Proof.
  apply (allocations_disjoint (Env:=SampleEnv) AllocateAnyPages EfiBootServicesData 3 (Some 0) SampleReady 0x10C000 SampleUsed SampleMore
    AllocateAnyPages EfiBootServicesCode 4 (Some 0) 0x106000 SampleLast SampleReady_idle ltac:(lia) any_address ltac:(lia) any_address SampleData_run).
  - apply rtc_once, (OtherAllocate _ _ AllocateAnyPages EfiRuntimeServicesData 2 (Some 0) SampleUsed (EFI_SUCCESS, Some 0x10A000) SampleMore);
      [lia|apply any_address|vm_compute; reflexivity].
  - vm_compute. reflexivity.
Defined.

(** ** Limits of the code *)

(** The number of bytes is computed modulo 2^64: a request for 2^52 + 1 pages
    succeeds and takes one page. *)
Example CoreAllocatePages_wraps :
  exists st', CoreAllocatePages AllocateAnyPages EfiBootServicesData (2 ^ 52 + 1) (Some 0) SampleReady = Done ((EFI_SUCCESS, Some 0x10E000), st') /\
    (MStart <$> gMemoryMap st') = [0x100000; 0x10E000].
Proof. eexists. split; [vm_compute; reflexivity|reflexivity]. Qed.

(** Freeing a range of two kinds counts all its pages for each of them: three
    pages of data are in use, and the statistics say two. *)
Example UpdateMemoryStatistics_counts_twice :
  let m := CoreAllocatePages AllocateAddress EfiBootServicesData 1 (Some 0x103000) ;;
           CoreAllocatePages AllocateAddress EfiBootServicesCode 1 (Some 0x104000) ;;
           CoreFreePages 0x103000 2 in
  exists st', m SampleUsed = Done (EFI_SUCCESS, st') /\
    CurrentNumberOfPages <$> mMemoryTypeStatistics (Bins SampleUsed) !! Z.to_nat EfiBootServicesData = Some 3 /\
    CurrentNumberOfPages <$> mMemoryTypeStatistics (Bins st') !! Z.to_nat EfiBootServicesData = Some 2 /\
    (MStart <$> gMemoryMap st') = (MStart <$> gMemoryMap SampleUsed).
Proof. eexists. split; [vm_compute; reflexivity|]. split_and!; vm_compute; reflexivity. Qed.

(** The sizes of the bins are computed with 32 bits: a bin of 4 GiB gets an empty
    range. *)
Example CarveLoop_truncates :
  exists b s, CarveLoop [MkInformation EfiBootServicesData (2 ^ 20); MkInformation EfiMaxMemoryType 0] (2 ^ 40) SampleBins = Done b /\
    mMemoryTypeStatistics b !! Z.to_nat EfiBootServicesData = Some s /\ BaseAddress s = 2 ^ 40 /\ MaximumAddress s = 2 ^ 40 - 1.
Proof. eexists _, _. split_and!; vm_compute; reflexivity. Qed.
