(* ===== verification/PageGetMap.v ===== *)
(** * The memory map for the caller: the model

    CoreGetMemoryMap of [src/MdeModulePkg/Core/Dxe/Mem/Page.c] and MergeMemoryMap of
    [src/MdeModulePkg/Core/Dxe/Misc/MemoryAttributesTable.c].  The map of the page
    allocator is copied to the caller's buffer, free memory in the bins of special
    types is reported with the type of its bin, and the reserved, persistent,
    unaccepted and runtime I/O ranges of the GCD map are added.

    The buffer is the list of the descriptors between [MemoryMapStart] and
    [MemoryMapEnd], each of them [Size] bytes apart; all fields of a descriptor are
    written before it is used, so that what the buffer held before is left out.
    Writing past the size that the caller gives is [Asserted].  A parameter is the
    bitmap of the heap guard, which is read only when freed memory is guarded. *)
From Stdlib Require Import ZArith Lia.
From stdpp Require Import base option list.
From S2P Require Import Prelude StateMonad Gcd MemoryBin Page.

(** ** Data *)

Definition EfiMemoryMappedIO : Z := 11.
Definition EfiMemoryMappedIOPortSpace : Z := 12.
Definition EFI_MEMORY_CPU_CRYPTO : Z := 0x80000.
Definition EFI_MEMORY_ATTRIBUTE_MASK : Z := Z.lor EFI_MEMORY_ACCESS_MASK (Z.lor EFI_MEMORY_SP EFI_MEMORY_CPU_CRYPTO).
Definition EFI_MEMORY_DESCRIPTOR_VERSION : Z := 1.

Record EFI_MEMORY_DESCRIPTOR := MkDescriptor {
  DType : Z;
  PhysicalStart : Z;
  VirtualStart : Z;
  DPages : Z;
  DAttribute : Z }.

Definition SetPages (v : Z) (d : EFI_MEMORY_DESCRIPTOR) : EFI_MEMORY_DESCRIPTOR :=
  MkDescriptor (DType d) (PhysicalStart d) (VirtualStart d) v (DAttribute d).
Definition SetPhysicalStart (v : Z) (d : EFI_MEMORY_DESCRIPTOR) : EFI_MEMORY_DESCRIPTOR :=
  MkDescriptor (DType d) v (VirtualStart d) (DPages d) (DAttribute d).
Definition SetVirtualStart (v : Z) (d : EFI_MEMORY_DESCRIPTOR) : EFI_MEMORY_DESCRIPTOR :=
  MkDescriptor (DType d) (PhysicalStart d) v (DPages d) (DAttribute d).
Definition SetAttribute (v : Z) (d : EFI_MEMORY_DESCRIPTOR) : EFI_MEMORY_DESCRIPTOR :=
  MkDescriptor (DType d) (PhysicalStart d) (VirtualStart d) (DPages d) v.
Definition SetType (v : Z) (d : EFI_MEMORY_DESCRIPTOR) : EFI_MEMORY_DESCRIPTOR :=
  MkDescriptor v (PhysicalStart d) (VirtualStart d) (DPages d) (DAttribute d).

(** [sizeof (EFI_MEMORY_DESCRIPTOR)], and the distance of two descriptors. *)
Definition sizeof_EFI_MEMORY_DESCRIPTOR : Z := 40.
Definition Size : Z := sizeof_EFI_MEMORY_DESCRIPTOR + (8 - sizeof_EFI_MEMORY_DESCRIPTOR mod 8).

(** The bytes that [n] descriptors take. *)
Definition Bytes (l : list EFI_MEMORY_DESCRIPTOR) : Z := Size * Z.of_nat (length l).

(** What a step of the build leaves, or [TooSmall] for the jump to Done with
    EFI_BUFFER_TOO_SMALL, with [BufferSize] and the contents of the buffer. *)
Inductive Build (A : Type) :=
| Built (a : A)
| TooSmall (BufferSize : Z) (l : list EFI_MEMORY_DESCRIPTOR).
Arguments Built {A} a.
Arguments TooSmall {A} BufferSize l.

Definition BuildBind {A B} (m : Outcome (Build A)) (f : A -> Outcome (Build B)) : Outcome (Build B) :=
  r ← m;
  match r with Built a => f a | TooSmall BufferSize l => Done (TooSmall BufferSize l) end.

(** ** Merging *)

Fixpoint MergeMemoryMapDescriptor (MemoryMap : list EFI_MEMORY_DESCRIPTOR) (New : EFI_MEMORY_DESCRIPTOR)
  : list EFI_MEMORY_DESCRIPTOR :=
  match MemoryMap with
  | [] => [New]
  | d :: MemoryMap =>
    if negb (DType d =? DType New) then d :: MergeMemoryMapDescriptor MemoryMap New
    else if negb (DAttribute d =? DAttribute New) then d :: MergeMemoryMapDescriptor MemoryMap New
    else if add64 (PhysicalStart d) (EFI_PAGES_TO_SIZE (DPages d)) =? PhysicalStart New then
      SetPages (add64 (DPages d) (DPages New)) d :: MemoryMap
    else if sub64 (PhysicalStart d) (EFI_PAGES_TO_SIZE (DPages New)) =? PhysicalStart New then
      SetPages (add64 (DPages d) (DPages New))
        (SetVirtualStart (VirtualStart New) (SetPhysicalStart (PhysicalStart New) d)) :: MemoryMap
    else d :: MergeMemoryMapDescriptor MemoryMap New
  end.

Section GetMap.
Context {Env : PageEnvironment}.
(** [GetGuardedMemoryBits (Address, GUARDED_HEAP_MAP_ENTRY_BITS)] *)
Context (GetGuardedMemoryBits : Z -> Z).

(** The cast of a UINT64 to INTN. *)
Definition INTN (x : Z) : Z := if x <? 2 ^ 63 then x else x - 2 ^ 64.

Fixpoint GuardPagesLoop (Pages : nat) (Bitmap : Z) (d : EFI_MEMORY_DESCRIPTOR) : EFI_MEMORY_DESCRIPTOR :=
  match Pages with
  | O => d
  | S Pages =>
    let Bitmap :=
      if Bitmap =? 0 then GetGuardedMemoryBits (add64 (PhysicalStart d) (EFI_PAGES_TO_SIZE (DPages d))) else Bitmap in
    if Z.land Bitmap 1 =? 0 then d
    else GuardPagesLoop Pages (RShiftU64 Bitmap 1) (SetPages (add64 (DPages d) 1) d)
  end.

Definition MergeGuardPages (d : EFI_MEMORY_DESCRIPTOR) (MaxAddress : Z) : EFI_MEMORY_DESCRIPTOR :=
  if negb FreedMemoryGuard || (EfiMemoryMappedIO <=? DType d) then d
  else GuardPagesLoop (Z.to_nat (EFI_SIZE_TO_PAGES (sub64 MaxAddress (PhysicalStart d)) - INTN (DPages d))) 0 d.

(** The rest of the map from [New], the descriptor that is being extended. *)
Fixpoint MergeFrom (New : EFI_MEMORY_DESCRIPTOR) (Rest : list EFI_MEMORY_DESCRIPTOR) : list EFI_MEMORY_DESCRIPTOR :=
  match Rest with
  | [] => [New]
  | Next :: Rest =>
    let New := MergeGuardPages New (PhysicalStart Next) in
    let MemoryBlockLength := LShiftU64 (DPages New) EFI_PAGE_SHIFT in
    if (DType New =? DType Next) && (DAttribute New =? DAttribute Next) &&
       (add64 (PhysicalStart New) MemoryBlockLength =? PhysicalStart Next)
    then MergeFrom (SetPages (add64 (DPages New) (DPages Next)) New) Rest
    else New :: MergeFrom Next Rest
  end.

Definition MergeMemoryMap (MemoryMap : list EFI_MEMORY_DESCRIPTOR) : list EFI_MEMORY_DESCRIPTOR :=
  match MemoryMap with [] => [] | d :: MemoryMap => MergeFrom d MemoryMap end.

(** ** Building the map *)

Section Build.
(** [*MemoryMapSize] and [mMemoryTypeStatistics] *)
Context (MemoryMapSize : Z) (b : BinState).

Definition SetEfiMemoryDescriptorType (Type_ : Z) (d : EFI_MEMORY_DESCRIPTOR) : Outcome EFI_MEMORY_DESCRIPTOR :=
  let d := SetType Type_ d in
  if EfiMaxMemoryType <=? Type_ then Done d else
  s ← StatisticsOf Type_ b;
  Done (SetAttribute (if Runtime s then Z.lor (DAttribute d) EFI_MEMORY_RUNTIME
                      else Z.land (DAttribute d) (not64 EFI_MEMORY_RUNTIME)) d).

(** Writes a descriptor in the slot after the last, merges it, and checks the
    size. *)
Definition Append (BufferSize : Z) (New : EFI_MEMORY_DESCRIPTOR) (l : list EFI_MEMORY_DESCRIPTOR)
  : Outcome (Build (list EFI_MEMORY_DESCRIPTOR)) :=
  ASSERT (Bytes l + sizeof_EFI_MEMORY_DESCRIPTOR <=? MemoryMapSize) ;;
  let l := MergeMemoryMapDescriptor l New in
  if MemoryMapSize <? Bytes l then Done (TooSmall BufferSize l) else Done (Built l).

Fixpoint CopyLoop (BufferSize : Z) (Links : list MEMORY_MAP) (l : list EFI_MEMORY_DESCRIPTOR)
  : Outcome (Build (list EFI_MEMORY_DESCRIPTOR)) :=
  match Links with
  | [] => Done (Built l)
  | Entry :: Links =>
    d ← SetEfiMemoryDescriptorType (MType Entry)
          (MkDescriptor 0 (MStart Entry) 0 (EFI_SIZE_TO_PAGES (add64 (sub64 (MEnd Entry) (MStart Entry)) 1)) (MAttribute Entry));
    BuildBind (Append BufferSize d l) (CopyLoop BufferSize Links)
  end.

(** CopyMem of the descriptors from [d] on to the next slot, after which [d] is
    there twice, and the check of the size. *)
Definition Duplicate (BufferSize : Z) (Before : list EFI_MEMORY_DESCRIPTOR) (d : EFI_MEMORY_DESCRIPTOR)
  (Rest : list EFI_MEMORY_DESCRIPTOR) : Outcome (Build unit) :=
  let l := Before ++ d :: d :: Rest in
  ASSERT (Bytes l <=? MemoryMapSize) ;;
  if MemoryMapSize <? Bytes l then Done (TooSmall BufferSize l) else Done (Built tt).

(** The loop over the descriptors for one bin: whether one was modified. *)
Fixpoint BinPass (BufferSize Type_ BinStart BinEnd : Z) (Before Rest : list EFI_MEMORY_DESCRIPTOR)
  : Outcome (Build (bool * list EFI_MEMORY_DESCRIPTOR)) :=
  match Rest with
  | [] => Done (Built (false, Before))
  | d :: Rest =>
    let Continue := BinPass BufferSize Type_ BinStart BinEnd (Before ++ [d]) Rest in
    if negb (DType d =? EfiConventionalMemory) then Continue else
    let EntryStart := PhysicalStart d in
    let EntryEnd := sub64 (add64 EntryStart (EFI_PAGES_TO_SIZE (DPages d))) 1 in
    if (EntryEnd <? BinStart) || (BinEnd <? EntryStart) then Continue else
    if (BinStart <=? EntryStart) && (EntryEnd <=? BinEnd) then
      d ← SetEfiMemoryDescriptorType Type_ d;
      Done (Built (true, Before ++ d :: Rest))
    else if EntryStart <? BinStart then
      let Low := SetPages (EFI_SIZE_TO_PAGES (sub64 BinStart EntryStart)) d in
      BuildBind (Duplicate BufferSize Before Low Rest) (fun _ =>
      d ← SetEfiMemoryDescriptorType Type_
            (SetPages (EFI_SIZE_TO_PAGES (add64 (sub64 EntryEnd BinStart) 1)) (SetPhysicalStart BinStart Low));
      if BinEnd <? EntryEnd then
        let Middle := SetPages (EFI_SIZE_TO_PAGES (add64 (sub64 BinEnd BinStart) 1)) d in
        BuildBind (Duplicate BufferSize (Before ++ [Low]) Middle Rest) (fun _ =>
        High ← SetEfiMemoryDescriptorType EfiConventionalMemory
                 (SetPages (EFI_SIZE_TO_PAGES (sub64 EntryEnd BinEnd)) (SetPhysicalStart (add64 BinEnd 1) Middle));
        Done (Built (true, Before ++ Low :: Middle :: High :: Rest)))
      else Done (Built (true, Before ++ Low :: d :: Rest)))
    else if BinEnd <? EntryEnd then
      Middle ← SetEfiMemoryDescriptorType Type_
                 (SetPages (EFI_SIZE_TO_PAGES (add64 (sub64 BinEnd EntryStart) 1)) (SetPhysicalStart EntryStart d));
      BuildBind (Duplicate BufferSize Before Middle Rest) (fun _ =>
      High ← SetEfiMemoryDescriptorType EfiConventionalMemory
               (SetPages (EFI_SIZE_TO_PAGES (sub64 EntryEnd BinEnd)) (SetPhysicalStart (add64 BinEnd 1) Middle));
      Done (Built (true, Before ++ Middle :: High :: Rest)))
    else Continue
  end.

(** [while (Modified)]; each round leaves fewer free descriptors in the bin. *)
Fixpoint BinLoop (fuel : nat) (Type_ BinStart BinEnd : Z) (l : list EFI_MEMORY_DESCRIPTOR)
  : Outcome (Build (Z * list EFI_MEMORY_DESCRIPTOR)) :=
  match fuel with
  | O => OutOfFuel
  | S fuel =>
    let l := MergeMemoryMap l in
    let BufferSize := Bytes l in
    BuildBind (BinPass BufferSize Type_ BinStart BinEnd [] l) (fun '(Modified, l) =>
    if Modified then BinLoop fuel Type_ BinStart BinEnd l else Done (Built (BufferSize, l)))
  end.

Fixpoint BinsLoop (Types : list Z) (BufferSize : Z) (l : list EFI_MEMORY_DESCRIPTOR)
  : Outcome (Build (Z * list EFI_MEMORY_DESCRIPTOR)) :=
  match Types with
  | [] => Done (Built (BufferSize, l))
  | Type_ :: Types =>
    s ← StatisticsOf Type_ b;
    if NumberOfPages s =? 0 then BinsLoop Types BufferSize l
    else if negb (Special s) then BinsLoop Types BufferSize l
    else
      BuildBind (BinLoop (S (length l)) Type_ (BaseAddress s) (MaximumAddress s) l) (fun '(BufferSize, l) =>
      BinsLoop Types BufferSize l)
  end.

(** ** The GCD map *)

Definition RuntimeIo (m : EFI_GCD_MAP_ENTRY) : bool :=
  (e_GcdMemoryType m =? EfiGcdMemoryTypeMemoryMappedIo) && (Z.land (e_Attributes m) EFI_MEMORY_RUNTIME =? EFI_MEMORY_RUNTIME).

(** A descriptor for the range of a GCD entry, which must consist of whole pages. *)
Definition AppendGcd (BufferSize Type_ Attribute : Z) (m : EFI_GCD_MAP_ENTRY) (l : list EFI_MEMORY_DESCRIPTOR)
  : Outcome (Build (list EFI_MEMORY_DESCRIPTOR)) :=
  let Length := add64 (sub64 (e_EndAddress m) (e_BaseAddress m)) 1 in
  ASSERT (Z.land (e_BaseAddress m) EFI_PAGE_MASK =? 0) ;;
  ASSERT (Z.land Length EFI_PAGE_MASK =? 0) ;;
  Append BufferSize (MkDescriptor Type_ (e_BaseAddress m) 0 (RShiftU64 Length EFI_PAGE_SHIFT) Attribute) l.

(** The descriptors for a merged GCD entry. *)
Definition EmitGcd (BufferSize : Z) (m : EFI_GCD_MAP_ENTRY) (l : list EFI_MEMORY_DESCRIPTOR)
  : Outcome (Build (list EFI_MEMORY_DESCRIPTOR)) :=
  let Type_ := e_GcdMemoryType m in
  BuildBind
    (if (Type_ =? EfiGcdMemoryTypeReserved) || RuntimeIo m then
       AppendGcd BufferSize
         (if Type_ =? EfiGcdMemoryTypeReserved then EfiReservedMemoryType
          else if Z.land (e_Attributes m) EFI_MEMORY_PORT_IO =? EFI_MEMORY_PORT_IO then EfiMemoryMappedIOPortSpace
          else EfiMemoryMappedIO)
         (Z.lor (Z.land (e_Attributes m) (not64 EFI_MEMORY_PORT_IO))
            (Z.land (e_Capabilities m) (Z.lor EFI_CACHE_ATTRIBUTE_MASK EFI_MEMORY_ATTRIBUTE_MASK))) m l
     else Done (Built l)) (fun l =>
  BuildBind
    (if Type_ =? EfiGcdMemoryTypePersistent then
       AppendGcd BufferSize EfiPersistentMemory
         (Z.lor (Z.lor (e_Attributes m) EFI_MEMORY_NV)
            (Z.land (e_Capabilities m) (Z.lor EFI_CACHE_ATTRIBUTE_MASK EFI_MEMORY_ATTRIBUTE_MASK))) m l
     else Done (Built l)) (fun l =>
  if Type_ =? EfiGcdMemoryTypeUnaccepted then
    AppendGcd BufferSize EfiUnacceptedMemoryType
      (Z.lor (e_Attributes m)
         (Z.land (e_Capabilities m)
            (Z.lor (Z.lor (Z.lor EFI_MEMORY_RP EFI_MEMORY_WP) (Z.lor EFI_MEMORY_XP EFI_MEMORY_RO))
               (Z.lor (Z.lor EFI_MEMORY_UC EFI_MEMORY_UCE) (Z.lor EFI_MEMORY_WC (Z.lor EFI_MEMORY_WT EFI_MEMORY_WB)))))) m l
  else Done (Built l))).

Definition SameGcd (m e : EFI_GCD_MAP_ENTRY) : bool :=
  (e_Capabilities m =? e_Capabilities e) && (e_Attributes m =? e_Attributes e) &&
  (e_GcdMemoryType m =? e_GcdMemoryType e) && (e_GcdIoType m =? e_GcdIoType e).

(** [m] is [MergeGcdMapEntry]. *)
Fixpoint GcdLoop (BufferSize : Z) (Links : list EFI_GCD_MAP_ENTRY) (m : EFI_GCD_MAP_ENTRY) (l : list EFI_MEMORY_DESCRIPTOR)
  : Outcome (Build (list EFI_MEMORY_DESCRIPTOR)) :=
  match Links with
  | [] => EmitGcd BufferSize m l
  | e :: Links =>
    if SameGcd m e then GcdLoop BufferSize Links (set_EndAddress m (e_EndAddress e)) l
    else BuildBind (EmitGcd BufferSize m l) (GcdLoop BufferSize Links e)
  end.

Definition ZeroGcdEntry : EFI_GCD_MAP_ENTRY := MkEntry 0 0 0 0 0 0 0 0.

(** ** The whole map *)

Definition ClearAccess (d : EFI_MEMORY_DESCRIPTOR) : EFI_MEMORY_DESCRIPTOR :=
  SetAttribute (Z.land (DAttribute d) (not64 EFI_MEMORY_ACCESS_MASK)) d.

Definition MemoryTypes : list Z := Z.of_nat <$> seq 0 (Z.to_nat EfiMaxMemoryType).

(** From ZeroMem to EFI_SUCCESS. *)
Definition BuildMap (BufferSize : Z) (Map : list MEMORY_MAP) (GcdMap : list EFI_GCD_MAP_ENTRY)
  : Outcome (Build (list EFI_MEMORY_DESCRIPTOR)) :=
  BuildBind (CopyLoop BufferSize Map []) (fun l =>
  BuildBind (BinsLoop MemoryTypes BufferSize l) (fun '(BufferSize, l) =>
  BuildBind (GcdLoop BufferSize GcdMap ZeroGcdEntry l) (fun l =>
  Done (Built (MergeMemoryMap (ClearAccess <$> l)))))).

End Build.

Definition ReportedGcd (e : EFI_GCD_MAP_ENTRY) : bool :=
  (e_GcdMemoryType e =? EfiGcdMemoryTypePersistent) || (e_GcdMemoryType e =? EfiGcdMemoryTypeReserved) ||
  (e_GcdMemoryType e =? EfiGcdMemoryTypeUnaccepted) || RuntimeIo e.

Fixpoint ExtraLoop (b : BinState) (Types : list Z) (BufferSize : Z) : Outcome Z :=
  match Types with
  | [] => Done BufferSize
  | Type_ :: Types =>
    s ← StatisticsOf Type_ b;
    ExtraLoop b Types (if Special s && (0 <? NumberOfPages s) then add64 BufferSize (2 * Size) else BufferSize)
  end.

(** The size of the buffer that is asked for. *)
Definition NeededSize (st : PageState) : Outcome Z :=
  let NumberOfEntries := Z.of_nat (length (filter (fun e => ReportedGcd e = true) (mGcdMemorySpaceMap (Gcd_ st)))) in
  let BufferSize := foldl (fun BufferSize _ => add64 BufferSize Size) (u64 (Size * NumberOfEntries)) (gMemoryMap st) in
  ExtraLoop (Bins st) MemoryTypes BufferSize.

(** What the caller finds in the locations it passes; [None] for NULL. *)
Record MapResult := MkResult {
  r_Status : EFI_STATUS;
  r_MemoryMapSize : option Z;
  r_MemoryMap : list EFI_MEMORY_DESCRIPTOR;
  r_MapKey : option Z;
  r_DescriptorSize : option Z;
  r_DescriptorVersion : option Z }.

(** A computation that reads the state. *)
Definition ReadState {A} (f : PageState -> Outcome A) : PM A :=
  Within (fun st => st) (fun _ st => st) (fun st => a ← f st; Done (a, st)).

(** [MemoryMap] tells whether the pointer to the buffer is not NULL. *)
Definition CoreGetMemoryMap (MemoryMapSize : option Z) (MemoryMap : bool) (MapKey DescriptorSize DescriptorVersion : option Z)
  : PM MapResult :=
  match MemoryMapSize with
  | None => mret (MkResult EFI_INVALID_PARAMETER None [] MapKey DescriptorSize DescriptorVersion)
  | Some Given =>
    OnGcd (fun g => g ← CoreAcquireGcdLock false g; Done (tt, g)) ;;
    CoreAcquireMemoryLock ;;
    BufferSize ← ReadState NeededSize;
    '(Status, BufferSize, l) ←
      (if Given <? BufferSize then mret (EFI_BUFFER_TOO_SMALL, BufferSize, [])
       else if negb MemoryMap then mret (EFI_INVALID_PARAMETER, BufferSize, [])
       else
         Result ← ReadState (fun st => BuildMap Given (Bins st) BufferSize (gMemoryMap st) (mGcdMemorySpaceMap (Gcd_ st)));
         mret (match Result with
               | TooSmall BufferSize l => (EFI_BUFFER_TOO_SMALL, BufferSize, l)
               | Built l => (EFI_SUCCESS, Bytes l, l)
               end));
    Key ← Get mMemoryMapKey;
    CoreReleaseMemoryLock ;;
    OnGcd (fun g => g ← CoreReleaseGcdLock false g; Done (tt, g)) ;;
    mret (MkResult Status (Some BufferSize) l (option_map (fun _ => Key) MapKey) (option_map (fun _ => Size) DescriptorSize)
            (option_map (fun _ => EFI_MEMORY_DESCRIPTOR_VERSION) DescriptorVersion))
  end.

End GetMap.
