(* ===== verification/PageDescriptors.v ===== *)
(** * The memory map for the caller: descriptors and merging

    [vals a l] lists the types and attributes that the descriptors [l] give an
    address.  Merging keeps it, up to the order, and never makes a weight of the
    list larger that adjoining descriptors do not lose by being joined. *)
From Stdlib Require Import ZArith Lia.
From stdpp Require Import base option list.
From S2P Require Import Prelude StateMonad Gcd MemoryBin Page PageMap PageFind PageStack PageSteps PageGetMap.

(** ** Sizes in pages *)

Lemma PagesToSize_small n : 0 <= n < 2 ^ 52 -> EFI_PAGES_TO_SIZE n = 4096 * n.
Proof. apply LShift_pages. Qed.

Lemma SizeToPages_exact n : EFI_SIZE_TO_PAGES (4096 * n) = n.
Proof.
  unfold EFI_SIZE_TO_PAGES. rewrite HasFlag_page, Z.mul_comm, Z.mod_mul by lia. simpl.
  rewrite Z.shiftr_div_pow2 by (unfold EFI_PAGE_SHIFT; lia). change (2 ^ EFI_PAGE_SHIFT) with 4096. rewrite Z.div_mul by lia. lia.
Qed.

Lemma aligned_pages x : PageAligned x -> exists n, x = 4096 * n.
Proof. intros H. exists (x / 4096). unfold PageAligned in H. Z.div_mod_to_equations. lia. Qed.

(** The next step of a build. *)
Lemma BuildBind_run {A B} (m : Outcome (Build A)) (f : A -> Outcome (Build B)) a : m = Done (Built a) -> BuildBind m f = f a.
Proof. by intros ->. Qed.

(** ** Descriptors *)

Definition last_of (d : EFI_MEMORY_DESCRIPTOR) : Z := PhysicalStart d + 4096 * DPages d - 1.

Record GoodD (d : EFI_MEMORY_DESCRIPTOR) : Prop := {
  good_aligned : PageAligned (PhysicalStart d);
  good_start : 0 <= PhysicalStart d;
  good_pages : 0 < DPages d;
  good_last : last_of d + 1 < 2 ^ 64 }.

Definition describes (a : Z) (d : EFI_MEMORY_DESCRIPTOR) : Prop := PhysicalStart d <= a <= last_of d.
#[export] Instance describes_dec a d : Decision (describes a d).
Proof. unfold describes. apply _. Defined.

Definition dvalue (d : EFI_MEMORY_DESCRIPTOR) : Z * Z := (DType d, DAttribute d).

Definition vals (a : Z) (l : list EFI_MEMORY_DESCRIPTOR) : list (Z * Z) := dvalue <$> filter (describes a) l.

Lemma vals_app a l1 l2 : vals a (l1 ++ l2) = vals a l1 ++ vals a l2.
Proof. unfold vals. by rewrite filter_app, fmap_app. Qed.

Lemma vals_cons a d l : vals a (d :: l) = (if decide (describes a d) then [dvalue d] else []) ++ vals a l.
Proof. unfold vals. rewrite filter_cons. by destruct (decide _). Qed.

Lemma vals_nil a : vals a [] = [].
Proof. done. Qed.

#[export] Instance vals_proper a : Proper ((≡ₚ) ==> (≡ₚ)) (vals a).
Proof. intros l l' Hp. unfold vals. by rewrite Hp. Qed.

Lemma GoodD_describes d : GoodD d -> describes (PhysicalStart d) d.
Proof. intros [_ ? ? _]. unfold describes, last_of. lia. Qed.

Lemma vals_elem d l : GoodD d -> d ∈ l -> dvalue d ∈ vals (PhysicalStart d) l.
Proof. intros Hg Hd. unfold vals. apply list_elem_of_fmap. exists d. split; [done|]. apply list_elem_of_filter. split; [by apply GoodD_describes|done]. Qed.

Lemma elem_vals a v l : v ∈ vals a l -> exists d, d ∈ l /\ describes a d /\ v = dvalue d.
Proof. unfold vals. intros (d & -> & [? ?]%list_elem_of_filter)%list_elem_of_fmap. eauto. Qed.

Lemma size_of d : GoodD d -> EFI_PAGES_TO_SIZE (DPages d) = 4096 * DPages d.
Proof. intros [_ ? ? ?]. unfold last_of in *. apply PagesToSize_small. lia. Qed.

Lemma next_of d : GoodD d -> add64 (PhysicalStart d) (4096 * DPages d) = last_of d + 1.
Proof. intros [_ ? ? ?]. unfold last_of in *. rewrite add64_small; lia. Qed.

Lemma end_of d : GoodD d -> sub64 (add64 (PhysicalStart d) (EFI_PAGES_TO_SIZE (DPages d))) 1 = last_of d.
Proof. intros Hg. rewrite size_of, next_of by done. destruct Hg. unfold last_of in *. rewrite sub64_small; lia. Qed.

(** ** Joining two descriptors *)

Definition Adjoin (d1 d2 : EFI_MEMORY_DESCRIPTOR) : Prop := dvalue d1 = dvalue d2 /\ last_of d1 + 1 = PhysicalStart d2.

(** [d] is one descriptor for the memory of two. *)
Definition Joins (d1 d2 d : EFI_MEMORY_DESCRIPTOR) : Prop :=
  dvalue d = dvalue d1 /\ PhysicalStart d = PhysicalStart d1 /\ DPages d = DPages d1 + DPages d2.

Lemma Joins_last d1 d2 d : Adjoin d1 d2 -> Joins d1 d2 d -> last_of d = last_of d2.
Proof. intros [_ H] (_ & E1 & E2). unfold last_of in *. lia. Qed.

Lemma Joins_good d1 d2 d : GoodD d1 -> GoodD d2 -> Adjoin d1 d2 -> Joins d1 d2 d -> GoodD d.
Proof.
  intros [? ? ? ?] [? ? ? ?] HA HJ. pose proof (Joins_last _ _ _ HA HJ) as E. destruct HJ as (_ & E1 & E2).
  split; [by rewrite E1|lia..].
Qed.

Lemma Joins_vals a d1 d2 d l : GoodD d1 -> GoodD d2 -> Adjoin d1 d2 -> Joins d1 d2 d -> vals a (d :: l) = vals a (d1 :: d2 :: l).
Proof.
  intros G1 G2 HA HJ. pose proof (Joins_last _ _ _ HA HJ) as E. destruct HA as [EV HA], HJ as (EV1 & E1 & E2).
  rewrite !vals_cons, EV1, <- EV, app_assoc. f_equal. destruct G1, G2.
  repeat case_decide; unfold describes, last_of in *; try done; lia.
Qed.

(** ** MergeMemoryMapDescriptor *)

Record Added (New : EFI_MEMORY_DESCRIPTOR) (l l' : list EFI_MEMORY_DESCRIPTOR) : Prop := {
  added_good : Forall GoodD l';
  added_vals : forall a, vals a l' ≡ₚ vals a (New :: l);
  added_length : (length l' <= S (length l))%nat }.

Lemma Added_skip New d l l' : GoodD d -> Added New l l' -> Added New (d :: l) (d :: l').
Proof.
  intros Hd [G V L]. split; [by constructor| |simpl; lia].
  intros a. rewrite vals_cons, V, <- vals_cons. apply vals_proper. constructor.
Qed.

Lemma MergeMemoryMapDescriptor_added New l : GoodD New -> Forall GoodD l -> Added New l (MergeMemoryMapDescriptor l New).
Proof.
  intros GN. induction 1 as [|d l Gd Gl IH]; [split; [by apply Forall_singleton|done|simpl; lia]|]. simpl.
  destruct (Z.eqb_spec (DType d) (DType New)) as [ET|]; simpl; [|by apply Added_skip].
  destruct (Z.eqb_spec (DAttribute d) (DAttribute New)) as [EA|]; simpl; [|by apply Added_skip].
  rewrite !size_of, next_of by done. assert (dvalue d = dvalue New) as EV by (unfold dvalue; congruence).
  pose proof Gd as [_ ? ? ?]; pose proof GN as [_ ? ? ?]. unfold last_of in *.
  assert (add64 (DPages d) (DPages New) = DPages d + DPages New) as EP by (apply add64_small; lia). rewrite EP.
  destruct (Z.eqb_spec (PhysicalStart d + 4096 * DPages d - 1 + 1) (PhysicalStart New)) as [ES|].
  { assert (Adjoin d New) as HA by (split; [done|unfold last_of; lia]).
    assert (Joins d New (SetPages (DPages d + DPages New) d)) as HJ by done.
    split; [constructor; [by apply (Joins_good d New)|done]| |simpl; lia].
    intros a. rewrite (Joins_vals a d New) by done. apply vals_proper. constructor. }
  destruct (Z.eqb_spec (sub64 (PhysicalStart d) (4096 * DPages New)) (PhysicalStart New)) as [ES|]; [|by apply Added_skip].
  assert (Adjoin New d) as HA.
  { split; [done|]. unfold last_of. unfold sub64, u64 in ES. Z.div_mod_to_equations. lia. }
  assert (Joins New d (SetPages (DPages d + DPages New) (SetVirtualStart (VirtualStart New) (SetPhysicalStart (PhysicalStart New) d)))) as HJ
    by (split_and!; simpl; [done|done|lia]).
  split; [constructor; [by apply (Joins_good New d)|done]| |simpl; lia].
  intros a. by rewrite (Joins_vals a New d).
Qed.

(** ** MergeMemoryMap *)

Definition total (w : EFI_MEMORY_DESCRIPTOR -> nat) (l : list EFI_MEMORY_DESCRIPTOR) : nat := sum_list_with w l.

Lemma total_app w l1 l2 : total w (l1 ++ l2) = (total w l1 + total w l2)%nat.
Proof. apply sum_list_with_app. Qed.

Lemma total_length w l : (forall d, 1 <= w d)%nat -> (length l <= total w l)%nat.
Proof. intros H. induction l as [|d l IH]; simpl; [lia|]. specialize (H d). unfold total in *. lia. Qed.

(** Joining does not increase the weight. *)
Definition Light (w : EFI_MEMORY_DESCRIPTOR -> nat) : Prop :=
  forall d1 d2 d, GoodD d1 -> GoodD d2 -> Adjoin d1 d2 -> Joins d1 d2 d -> (w d <= w d1 + w d2)%nat.

Record Condensed (l l' : list EFI_MEMORY_DESCRIPTOR) : Prop := {
  condensed_good : Forall GoodD l';
  condensed_vals : forall a, vals a l' = vals a l;
  condensed_light : forall w, Light w -> (total w l' <= total w l)%nat }.

Section Merge.
Context {Env : PageEnvironment} {Off : GuardOff Env} (Bits : Z -> Z).

Lemma MergeGuardPages_off d m : MergeGuardPages Bits d m = d.
Proof. unfold MergeGuardPages. by rewrite no_freed_guard. Qed.

Lemma MergeFrom_condensed l : forall New, GoodD New -> Forall GoodD l -> Condensed (New :: l) (MergeFrom Bits New l).
Proof.
  induction l as [|d l IH]; intros New GN Gl; [split; [by constructor|done|done]|]. apply Forall_cons in Gl as [Gd Gl].
  cbn [MergeFrom]. rewrite MergeGuardPages_off. pose proof GN as [_ ? ? ?]; pose proof Gd as [_ ? ? ?].
  destruct (_ && _) eqn:E.
  - bool_to_Z. rewrite LShift_pages, next_of in * by (unfold last_of in *; try done; lia).
    assert (add64 (DPages New) (DPages d) = DPages New + DPages d) as EP by (apply add64_small; unfold last_of in *; lia). rewrite EP.
    assert (Adjoin New d) as HA by (split; [unfold dvalue; congruence|done]).
    assert (Joins New d (SetPages (DPages New + DPages d) New)) as HJ by done.
    destruct (IH _ (Joins_good _ _ _ GN Gd HA HJ) Gl) as [G V W]. split; [done| |].
    + intros a. rewrite V. by apply Joins_vals.
    + intros w HW. specialize (W w HW). pose proof (HW _ _ _ GN Gd HA HJ). simpl in *. unfold total in *. simpl in *. lia.
  - destruct (IH d Gd Gl) as [G V W]. split; [by constructor| |].
    + intros a. by rewrite vals_cons, V, <- vals_cons.
    + intros w HW. specialize (W w HW). unfold total in *. simpl in *. lia.
Qed.

Lemma MergeMemoryMap_condensed l : Forall GoodD l -> Condensed l (MergeMemoryMap Bits l).
Proof. intros Hl. destruct l as [|d l]; [by split|]. apply Forall_cons in Hl as [? ?]. by apply MergeFrom_condensed. Qed.

Lemma MergeMemoryMap_length l : Forall GoodD l -> (length (MergeMemoryMap Bits l) <= length l)%nat.
Proof.
  intros Hl. destruct (MergeMemoryMap_condensed l Hl) as [_ _ W].
  assert (forall l, total (fun _ => 1%nat) l = length l) as E by (intros m; induction m as [|d m IH]; [done|unfold total in *; simpl; by rewrite IH]).
  rewrite <- !E. apply W. intros d1 d2 d _ _ _ _. lia.
Qed.

End Merge.
