(* ===== verification/PageSplit.v ===== *)
(** * The memory map for the caller: copying the map and splitting at the bins

    The first two parts of CoreGetMemoryMap.  Free memory in a bin gets the type
    of the bin.  A bin adds at most two descriptors, one at each of its ends
    ([cost]), and every round of the loop over a bin leaves one free descriptor
    less in it ([pending]), which makes the loop end. *)
From Stdlib Require Import ZArith Lia.
From stdpp Require Import base option list.
From S2P Require Import Prelude StateMonad Gcd MemoryBin Page PageMap PageOps PageFind PageStack PageSteps PageGetMap PageDescriptors.

(** ** The runtime attribute *)

(** What SetEfiMemoryDescriptorType makes of the attributes. *)
Definition runtime_attribute (b : BinState) (t x : Z) : Z :=
  if EfiMaxMemoryType <=? t then x else
  match mMemoryTypeStatistics b !! Z.to_nat t with
  | Some s => if Runtime s then Z.lor x EFI_MEMORY_RUNTIME else Z.land x (not64 EFI_MEMORY_RUNTIME)
  | None => x
  end.

Definition normal (b : BinState) (v : Z * Z) : Z * Z := (v.1, runtime_attribute b v.1 v.2).

Lemma runtime_attribute_idem b t x : runtime_attribute b t (runtime_attribute b t x) = runtime_attribute b t x.
Proof.
  unfold runtime_attribute. destruct (_ <=? _); [done|]. destruct (_ !! _) as [s|]; [|done]. destruct (Runtime s).
  - by rewrite <- Z.lor_assoc, Z.lor_diag.
  - by rewrite <- Z.land_assoc, Z.land_diag.
Qed.

Lemma normal_idem b v : normal b (normal b v) = normal b v.
Proof. unfold normal. simpl. by rewrite runtime_attribute_idem. Qed.

Lemma SetEfiMemoryDescriptorType_run b t d :
  BinsOk b -> SetEfiMemoryDescriptorType b t d = Done (SetAttribute (runtime_attribute b t (DAttribute d)) (SetType t d)).
Proof.
  intros HB. unfold SetEfiMemoryDescriptorType, runtime_attribute. destruct (Z.leb_spec EfiMaxMemoryType t) as [H|H]; [by destruct d|].
  destruct (StatisticsOf_run t b HB) as [s Hs]; [lia|]. rewrite Hs. simpl. unfold StatisticsOf in Hs. by destruct (_ !! _); [injection Hs as ->|].
Qed.

(** Descriptors whose attributes agree with their types. *)
Definition Normal (b : BinState) (d : EFI_MEMORY_DESCRIPTOR) : Prop := normal b (dvalue d) = dvalue d.

Lemma Normal_set b t d : Normal b (SetAttribute (runtime_attribute b t (DAttribute d)) (SetType t d)).
Proof. apply (normal_idem b (t, DAttribute d)). Qed.

(** A property of types and attributes that holds at every address. *)
Lemma vals_Forall (P : Z * Z -> Prop) l : Forall GoodD l -> (forall a, Forall P (vals a l)) -> Forall (fun d => P (dvalue d)) l.
Proof.
  intros HG HP. apply Forall_forall. intros d Hd. rewrite Forall_forall in HG. specialize (HP (PhysicalStart d)).
  rewrite Forall_forall in HP. apply HP, vals_elem; auto.
Qed.

Lemma Forall_vals (P : Z * Z -> Prop) a l : Forall (fun d => P (dvalue d)) l -> Forall P (vals a l).
Proof. rewrite !Forall_forall. intros HP v (d & Hd & _ & ->)%elem_vals. auto. Qed.

(** ** Copying the map *)

Definition map_vals (a : Z) (l : list MEMORY_MAP) : list (Z * Z) := value <$> filter (inside a) l.

Lemma map_vals_cons a e l : map_vals a (e :: l) = (if decide (inside a e) then [value e] else []) ++ map_vals a l.
Proof. unfold map_vals. rewrite filter_cons. by destruct (decide _). Qed.

Section Build.
Context (Given : Z) (b : BinState) (HB : BinsOk b).

Lemma Append_run B New l :
  GoodD New -> Forall GoodD l -> Size * (Z.of_nat (length l) + 1) <= Given ->
  exists l', Append Given B New l = Done (Built l') /\ Added New l l'.
Proof.
  intros GN Gl HR. pose proof (MergeMemoryMapDescriptor_added New l GN Gl) as HA. exists (MergeMemoryMapDescriptor l New). split; [|done].
  destruct HA as [_ _ HL]. unfold Append, Bytes. assert (Size = 48) as ES by done. rewrite ES in *.
  rewrite (proj2 (Z.leb_le _ _)) by (unfold sizeof_EFI_MEMORY_DESCRIPTOR; lia). simpl.
  by rewrite (proj2 (Z.ltb_ge _ _)) by lia.
Qed.

(** The descriptor of an entry. *)
Definition copy_of (e : MEMORY_MAP) : EFI_MEMORY_DESCRIPTOR :=
  MkDescriptor (MType e) (MStart e) 0 ((MEnd e - MStart e + 1) / 4096) (runtime_attribute b (MType e) (MAttribute e)).

Lemma copy_of_last e : Good e -> last_of (copy_of e) = MEnd e.
Proof. intros (H1 & H2 & ? & ?). unfold last_of, PageAligned in *. simpl. Z.div_mod_to_equations. lia. Qed.

Lemma copy_of_good e : Good e -> GoodD (copy_of e).
Proof.
  intros HG. pose proof (copy_of_last e HG) as E. destruct HG as (H1 & H2 & ? & ?). split; simpl; [done|lia| |rewrite E; lia].
  unfold last_of in E. simpl in E. lia.
Qed.

Lemma copy_of_vals a e l : Good e -> vals a (copy_of e :: l) = (normal b <$> map_vals a [e]) ++ vals a l.
Proof.
  intros HG. rewrite vals_cons, map_vals_cons. f_equal. pose proof (copy_of_last e HG) as E.
  assert (describes a (copy_of e) <-> inside a e) as EC by (unfold describes, inside; by rewrite E).
  repeat case_decide; try done; tauto.
Qed.

Lemma copy_of_run e : Good e ->
  SetEfiMemoryDescriptorType b (MType e)
    (MkDescriptor 0 (MStart e) 0 (EFI_SIZE_TO_PAGES (add64 (sub64 (MEnd e) (MStart e)) 1)) (MAttribute e)) = Done (copy_of e).
Proof.
  intros HG. pose proof (copy_of_last e HG) as E. rewrite SetEfiMemoryDescriptorType_run by done. f_equal. unfold SetType, copy_of. simpl.
  destruct HG as (_ & _ & ? & ?). unfold last_of in E. simpl in E. rewrite sub64_small, add64_small by lia.
  replace (MEnd e - MStart e + 1) with (4096 * ((MEnd e - MStart e + 1) / 4096)) at 1 by lia. by rewrite SizeToPages_exact.
Qed.

Lemma CopyLoop_run B Map : forall l,
  Forall Good Map -> Forall GoodD l -> Size * (Z.of_nat (length l) + Z.of_nat (length Map)) <= Given ->
  exists l', CopyLoop Given b B Map l = Done (Built l') /\ Forall GoodD l' /\ (length l' <= length l + length Map)%nat /\
    forall a, vals a l' ≡ₚ (normal b <$> map_vals a Map) ++ vals a l.
Proof.
  assert (Size = 48) as ES by done. rewrite ES.
  induction Map as [|e Map IH]; intros l GM Gl HR; [exists l; split_and!; [done|done|simpl; lia|done]|].
  apply Forall_cons in GM as [Ge GM]. cbn [CopyLoop]. rewrite copy_of_run by done. simpl.
  destruct (Append_run B (copy_of e) l) as (l1 & E1 & [G1 V1 L1]); [by apply copy_of_good|done|simpl in HR; lia|].
  destruct (IH l1) as (l2 & E2 & G2 & L2 & V2); [done|done|simpl in HR; lia|]. exists l2. rewrite (BuildBind_run _ _ _ E1).
  split_and!; [done|done|lia|]. intros a. rewrite V2, V1, copy_of_vals by done.
  change (e :: Map) with ([e] ++ Map). unfold map_vals. rewrite filter_app, !fmap_app, !app_assoc.
  apply Permutation_app_tail, Permutation_app_comm.
Qed.

(** ** One bin *)

Section Bin.
Context (t s e : Z) (Hc : forall x, runtime_attribute b EfiConventionalMemory x = Z.land x (not64 EFI_MEMORY_RUNTIME)).
Context (Ht : t <> EfiConventionalMemory) (Hs : PageAligned s) (He : PageAligned (e + 1)) (Hse : 0 <= s <= e) (Hmax : e + 1 < 2 ^ 64).

(** What becomes of the type and attributes of an address. *)
Definition bin_value (a : Z) (v : Z * Z) : Z * Z :=
  if (v.1 =? EfiConventionalMemory) && (s <=? a) && (a <=? e) then normal b (t, v.2) else v.

Lemma bin_value_idem a v : bin_value a (bin_value a v) = bin_value a v.
Proof.
  unfold bin_value at 2 3. destruct (_ && _) eqn:E; [|unfold bin_value; by rewrite E].
  unfold bin_value. simpl. by rewrite (proj2 (Z.eqb_neq _ _) Ht).
Qed.

(** Free memory at the lower and at the upper end of the bin, and in it. *)
Definition at_low (d : EFI_MEMORY_DESCRIPTOR) : bool := (DType d =? EfiConventionalMemory) && (PhysicalStart d <? s) && (s <=? last_of d).
Definition at_high (d : EFI_MEMORY_DESCRIPTOR) : bool := (DType d =? EfiConventionalMemory) && (PhysicalStart d <=? e) && (e <? last_of d).
Definition in_bin (d : EFI_MEMORY_DESCRIPTOR) : bool := (DType d =? EfiConventionalMemory) && (PhysicalStart d <=? e) && (s <=? last_of d).

Definition cost (d : EFI_MEMORY_DESCRIPTOR) : nat := 1 + Nat.b2n (at_low d) + Nat.b2n (at_high d).
Definition pending (d : EFI_MEMORY_DESCRIPTOR) : nat := Nat.b2n (in_bin d).

(** Decides the comparisons of a goal. *)
Ltac decide_bins :=
  repeat match goal with
  | |- context [?x =? ?y] => destruct (Z.eqb_spec x y)
  | |- context [?x <? ?y] => destruct (Z.ltb_spec x y); try (exfalso; lia)
  | |- context [?x <=? ?y] => destruct (Z.leb_spec x y); try (exfalso; lia)
  end; simpl; try lia.

Lemma cost_light : Light cost.
Proof.
  intros d1 d2 d G1 G2 HA HJ. pose proof (Joins_last _ _ _ HA HJ) as EL. destruct HA as [EV HA], HJ as (EV1 & E1 & E2).
  assert (DType d = DType d1 /\ DType d2 = DType d1) as [T1 T2] by (unfold dvalue in *; split; congruence).
  destruct G1, G2. unfold cost, at_low, at_high. rewrite T1, T2, EL, E1, <- HA. assert (last_of d1 < last_of d2) by (unfold last_of in *; lia).
  assert (PhysicalStart d1 <= last_of d1) by (unfold last_of in *; lia). decide_bins.
Qed.

Lemma pending_light : Light pending.
Proof.
  intros d1 d2 d G1 G2 HA HJ. pose proof (Joins_last _ _ _ HA HJ) as EL. destruct HA as [EV HA], HJ as (EV1 & E1 & E2).
  assert (DType d = DType d1 /\ DType d2 = DType d1) as [T1 T2] by (unfold dvalue in *; split; congruence).
  destruct G1, G2. unfold pending, in_bin. rewrite T1, T2, EL, E1, <- HA. decide_bins.
Qed.

(** What replaces a free descriptor of the bin. *)
Record Splits (d : EFI_MEMORY_DESCRIPTOR) (ds : list EFI_MEMORY_DESCRIPTOR) : Prop := {
  splits_good : Forall GoodD ds;
  splits_normal : Forall (Normal b) ds;
  splits_vals : forall a, bin_value a <$> vals a ds = bin_value a <$> vals a [d];
  splits_cost : (total cost ds <= cost d)%nat;
  splits_pending : pending d = 1%nat /\ total pending ds = 0%nat }.

(** The part of a descriptor between two addresses, with a type. *)
Definition part (d : EFI_MEMORY_DESCRIPTOR) (u lo hi : Z) : EFI_MEMORY_DESCRIPTOR :=
  MkDescriptor u lo (VirtualStart d) ((hi - lo + 1) / 4096) (runtime_attribute b u (DAttribute d)).

Lemma part_last d u lo hi : PageAligned lo -> PageAligned (hi + 1) -> last_of (part d u lo hi) = hi.
Proof. intros. unfold last_of, PageAligned in *. simpl. Z.div_mod_to_equations. lia. Qed.

Lemma part_good d u lo hi : PageAligned lo -> PageAligned (hi + 1) -> 0 <= lo <= hi -> hi + 1 < 2 ^ 64 -> GoodD (part d u lo hi).
Proof.
  intros H1 H2 H3 H4. pose proof (part_last d u lo hi H1 H2) as E. split; [done|simpl; lia| |lia].
  unfold last_of in E. simpl in *. lia.
Qed.

Lemma part_normal d u lo hi : Normal b (part d u lo hi).
Proof. apply (normal_idem b (u, DAttribute d)). Qed.

Lemma conventional_attribute u x : runtime_attribute b EfiConventionalMemory (runtime_attribute b u x) = runtime_attribute b EfiConventionalMemory x.
Proof.
  rewrite !Hc. unfold runtime_attribute. destruct (_ <=? _); [done|]. destruct (_ !! _) as [r|]; [|done]. destruct (Runtime r).
  - rewrite Z.land_lor_distr_l. change (Z.land EFI_MEMORY_RUNTIME (not64 EFI_MEMORY_RUNTIME)) with 0. by rewrite Z.lor_0_r.
  - by rewrite <- Z.land_assoc, Z.land_diag.
Qed.

Lemma describes_vals a d l : vals a (d :: l) = (if (PhysicalStart d <=? a) && (a <=? last_of d) then [dvalue d] else []) ++ vals a l.
Proof. rewrite vals_cons. f_equal. case_decide as E; unfold describes in E; decide_bins; done. Qed.

Lemma part_vals a d u lo hi l : PageAligned lo -> PageAligned (hi + 1) ->
  vals a (part d u lo hi :: l) = (if (lo <=? a) && (a <=? hi) then [normal b (u, DAttribute d)] else []) ++ vals a l.
Proof. intros. rewrite describes_vals, part_last by done. done. Qed.

Lemma aligned_pred x : PageAligned x -> PageAligned (x - 1 + 1).
Proof. by rewrite Z.sub_add. Qed.

Lemma Duplicate_run B Before d Rest :
  Size * (Z.of_nat (length Before) + Z.of_nat (length Rest) + 2) <= Given -> Duplicate Given B Before d Rest = Done (Built tt).
Proof.
  intros H. unfold Duplicate, Bytes. rewrite length_app. cbn [length]. rewrite (proj2 (Z.leb_le _ _)) by lia. simpl.
  by rewrite (proj2 (Z.ltb_ge _ _)) by lia.
Qed.

(** The four ways to split a free descriptor. *)
Section Cases.
Context (d : EFI_MEMORY_DESCRIPTOR) (Gd : GoodD d) (Nd : Normal b d) (Td : DType d = EfiConventionalMemory).

Lemma good_end : PageAligned (last_of d + 1).
Proof. destruct Gd. unfold last_of, PageAligned in *. Z.div_mod_to_equations. lia. Qed.

Lemma free_normal : dvalue d = normal b (EfiConventionalMemory, DAttribute d).
Proof. unfold Normal in Nd. by rewrite <- Nd, <- Td. Qed.

Lemma bin_free a x : bin_value a (normal b (EfiConventionalMemory, x)) = if (s <=? a) && (a <=? e) then normal b (t, runtime_attribute b EfiConventionalMemory x) else normal b (EfiConventionalMemory, x).
Proof. done. Qed.

Lemma bin_taken a x : bin_value a (normal b (t, x)) = normal b (t, x).
Proof. unfold bin_value. simpl. by rewrite (proj2 (Z.eqb_neq _ _) Ht). Qed.

Lemma free_attribute : runtime_attribute b EfiConventionalMemory (DAttribute d) = DAttribute d.
Proof. pose proof free_normal as E. unfold dvalue, normal in E. simpl in E. congruence. Qed.

Ltac split_case :=
  pose proof good_end; pose proof (aligned_pred s Hs); pose proof Gd as [? ? ? ?];
  assert (PhysicalStart d <= last_of d) by (unfold last_of; lia);
  split;
  [ repeat (apply Forall_cons; split); try apply Forall_nil; try apply part_good; first [done|lia]
  | repeat (apply Forall_cons; split); try apply Forall_nil; try apply part_normal; done
  | intros a; rewrite !part_vals by done; rewrite describes_vals, free_normal, !vals_nil, !app_nil_r, ?fmap_app;
    decide_bins; rewrite ?bin_free, ?bin_taken, ?free_attribute; decide_bins; done
  | unfold total, cost, at_low, at_high; cbn [sum_list_with]; rewrite !part_last by done; simpl; rewrite Td; decide_bins
  | unfold total, pending, in_bin; cbn [sum_list_with]; rewrite !part_last by done; simpl; rewrite Td; split; decide_bins ].

Lemma split_inside : s <= PhysicalStart d -> last_of d <= e -> Splits d [part d t (PhysicalStart d) (last_of d)].
Proof. intros H1 H2. split_case. Qed.

Lemma split_low : PhysicalStart d < s -> s <= last_of d <= e ->
  Splits d [part d EfiConventionalMemory (PhysicalStart d) (s - 1); part d t s (last_of d)].
Proof. intros H1 H2. split_case. Qed.

Lemma split_both : PhysicalStart d < s -> e < last_of d ->
  Splits d [part d EfiConventionalMemory (PhysicalStart d) (s - 1); part d t s e; part d EfiConventionalMemory (e + 1) (last_of d)].
Proof. intros H1 H2. split_case. Qed.

Lemma split_high : s <= PhysicalStart d <= e -> e < last_of d ->
  Splits d [part d t (PhysicalStart d) e; part d EfiConventionalMemory (e + 1) (last_of d)].
Proof. intros H1 H2. split_case. Qed.

(** ** The parts as the code computes them *)

Lemma pages_between lo hi : PageAligned lo -> PageAligned (hi + 1) -> EFI_SIZE_TO_PAGES (hi - lo + 1) = (hi - lo + 1) / 4096.
Proof.
  intros H1 H2. replace (hi - lo + 1) with (4096 * ((hi - lo + 1) / 4096)) at 1; [apply SizeToPages_exact|].
  unfold PageAligned in *. Z.div_mod_to_equations. lia.
Qed.

Lemma low_part : PhysicalStart d < s -> SetPages (EFI_SIZE_TO_PAGES (sub64 s (PhysicalStart d))) d = part d EfiConventionalMemory (PhysicalStart d) (s - 1).
Proof.
  intros H. unfold part. rewrite free_attribute, <- Td. destruct Gd. unfold SetPages. f_equal. rewrite sub64_small by lia.
  replace (s - PhysicalStart d) with (s - 1 - PhysicalStart d + 1) by lia. apply pages_between; [done|by apply aligned_pred].
Qed.

(** A part is made of any descriptor with the attributes of [d]. *)
Lemma typed_part u d' lo hi n :
  VirtualStart d' = VirtualStart d -> runtime_attribute b u (DAttribute d') = runtime_attribute b u (DAttribute d) -> n = hi - lo + 1 ->
  PageAligned lo -> PageAligned (hi + 1) ->
  SetEfiMemoryDescriptorType b u (SetPages (EFI_SIZE_TO_PAGES n) (SetPhysicalStart lo d')) = Done (part d u lo hi).
Proof.
  intros EV EA -> H1 H2. rewrite SetEfiMemoryDescriptorType_run, pages_between by done. unfold part. by rewrite <- EV, <- EA.
Qed.

Lemma whole_part : SetEfiMemoryDescriptorType b t d = Done (part d t (PhysicalStart d) (last_of d)).
Proof.
  rewrite SetEfiMemoryDescriptorType_run by done. unfold part, last_of. do 2 f_equal.
  replace (PhysicalStart d + 4096 * DPages d - 1 - PhysicalStart d + 1) with (DPages d * 4096) by lia. rewrite Z.div_mul by lia. by destruct d.
Qed.

Lemma BinPass_skip B Before Rest : in_bin d = false -> BinPass Given b B t s e Before (d :: Rest) = BinPass Given b B t s e (Before ++ [d]) Rest.
Proof.
  intros Hd. cbn [BinPass]. rewrite end_of by done. unfold in_bin in Hd.
  destruct (DType d =? EfiConventionalMemory); [|done]. simpl in *. apply andb_false_iff in Hd. rewrite !Z.leb_antisym, !negb_false_iff in Hd.
  by destruct Hd as [-> | ->]; [rewrite orb_true_r|].
Qed.

(** The way that the pass over the descriptors takes. *)
Lemma BinPass_high B Before Rest :
  s <= PhysicalStart d <= e -> e < last_of d -> Size * (Z.of_nat (length Before) + Z.of_nat (length Rest) + 2) <= Given ->
  BinPass Given b B t s e Before (d :: Rest) =
    Done (Built (true, Before ++ [part d t (PhysicalStart d) e; part d EfiConventionalMemory (e + 1) (last_of d)] ++ Rest)).
Proof.
  intros H1 H2 HR. cbn [BinPass]. rewrite end_of, Td by done. pose proof Gd as [? ? ? ?]. pose proof good_end. decide_bins.
  rewrite (typed_part t d _ e) by (try done; rewrite sub64_small, add64_small; lia). simpl.
  rewrite (BuildBind_run _ _ tt) by (by apply Duplicate_run).
  rewrite (add64_small e 1) by lia. rewrite (typed_part EfiConventionalMemory (part d t (PhysicalStart d) e) _ (last_of d)); [done|done| |..].
  - apply conventional_attribute.
  - rewrite sub64_small; lia.
  - done.
  - done.
Qed.

Lemma BinPass_low B Before Rest :
  PhysicalStart d < s -> s <= last_of d -> Size * Z.of_nat (length Before + cost d + length Rest) <= Given ->
  exists ds, BinPass Given b B t s e Before (d :: Rest) = Done (Built (true, Before ++ ds ++ Rest)) /\ Splits d ds.
Proof.
  intros H1 H2 HR. cbn [BinPass]. rewrite end_of, Td, low_part by done. pose proof Gd as [? ? ? ?]. pose proof good_end. set (Low := part _ _ _ _) in *.
  assert (2 <= cost d)%nat by (unfold cost, at_low; rewrite Td; decide_bins). simpl.
  rewrite (proj2 (Z.ltb_ge (last_of d) s)), (proj2 (Z.ltb_ge e (PhysicalStart d))) by lia. simpl.
  rewrite (proj2 (Z.leb_gt s (PhysicalStart d))), (proj2 (Z.ltb_lt (PhysicalStart d) s)) by lia. simpl.
  rewrite (BuildBind_run _ _ tt) by (apply Duplicate_run; change Size with 48 in *; lia).
  assert (runtime_attribute b t (DAttribute Low) = runtime_attribute b t (DAttribute d)) as EA by (simpl; by rewrite free_attribute).
  rewrite (typed_part t Low s (last_of d)) by (try done; rewrite sub64_small, add64_small; lia). simpl.
  destruct (Z.ltb_spec e (last_of d)) as [Hh|Hh]; [|eexists; split; [|by apply split_low]; done].
  assert (3 <= cost d)%nat by (unfold cost, at_low, at_high; rewrite Td; decide_bins).
  rewrite (BuildBind_run _ _ tt) by (apply Duplicate_run; change Size with 48 in *; rewrite length_app; simpl; lia).
  rewrite (add64_small e 1) by lia.
  rewrite (typed_part EfiConventionalMemory _ (e + 1) (last_of d)); [| |apply conventional_attribute|rewrite sub64_small; lia|done|done]; [|done].
  eexists. split; [|by apply split_both]. simpl. rewrite sub64_small, add64_small, pages_between by (try done; lia). done.
Qed.

Lemma BinPass_split B Before Rest :
  in_bin d = true -> Size * Z.of_nat (total cost (Before ++ d :: Rest)) <= Given ->
  exists ds, BinPass Given b B t s e Before (d :: Rest) = Done (Built (true, Before ++ ds ++ Rest)) /\ Splits d ds.
Proof.
  intros Hd HR. pose proof (total_length cost Before ltac:(unfold cost; lia)). pose proof (total_length cost Rest ltac:(unfold cost; lia)).
  rewrite total_app in HR. unfold total at 2 in HR. cbn [sum_list_with] in HR. fold (total cost Rest) in HR.
  change Size with 48 in *. unfold in_bin in Hd. bool_to_Z. destruct (Z.lt_ge_cases (PhysicalStart d) s).
  { apply BinPass_low; [done|done|change Size with 48; lia]. }
  destruct (Z.lt_ge_cases e (last_of d)).
  - assert (2 <= cost d)%nat by (unfold cost, at_high; rewrite Td; decide_bins).
    eexists. split; [apply BinPass_high; [done|done|change Size with 48; lia]|by apply split_high].
  - exists [part d t (PhysicalStart d) (last_of d)]. split; [|by apply split_inside].
    cbn [BinPass]. rewrite end_of, Td by done. decide_bins. by rewrite whole_part.
Qed.

End Cases.

(** ** The loop over the descriptors *)

Inductive PassResult (l : list EFI_MEMORY_DESCRIPTOR) : bool * list EFI_MEMORY_DESCRIPTOR -> Prop :=
| pass_end : Forall (fun d => in_bin d = false) l -> PassResult l (false, l)
| pass_split l1 d l2 ds : l = l1 ++ d :: l2 -> Splits d ds -> PassResult l (true, l1 ++ ds ++ l2).

Lemma BinPass_run B Rest : forall Before,
  Forall GoodD Rest -> Forall (Normal b) Rest -> Forall (fun d => in_bin d = false) Before ->
  Size * Z.of_nat (total cost (Before ++ Rest)) <= Given ->
  exists r, BinPass Given b B t s e Before Rest = Done (Built r) /\ PassResult (Before ++ Rest) r.
Proof.
  induction Rest as [|d Rest IH]; intros Before HG HN HF HR.
  { exists (false, Before). rewrite app_nil_r. split; [done|by constructor]. }
  apply Forall_cons in HG as [Gd HG]. apply Forall_cons in HN as [Nd HN]. destruct (in_bin d) eqn:Ed.
  - destruct (BinPass_split d) with (B := B) (Before := Before) (Rest := Rest) as (ds & E & HS); [done|done| |done|done|].
    { unfold in_bin in Ed. by bool_to_Z. }
    eexists. split; [exact E|]. by econstructor.
  - rewrite BinPass_skip by done. assert (Before ++ d :: Rest = (Before ++ [d]) ++ Rest) as EE by (by rewrite <- app_assoc). rewrite EE in *. apply IH; [done|done| |done].
    apply Forall_app. split; [done|by apply Forall_singleton].
Qed.

(** ** The rounds *)

Context {Env : PageEnvironment} {Off : GuardOff Env} (Bits : Z -> Z).

Lemma Normal_vals l l' : Forall GoodD l' -> (forall a, vals a l' = vals a l) -> Forall (Normal b) l -> Forall (Normal b) l'.
Proof.
  intros HG HV HN. apply (vals_Forall (fun v => normal b v = v)); [done|]. intros a. rewrite HV. by apply Forall_vals.
Qed.

Lemma out_of_bin a l : Forall (fun d => in_bin d = false) l -> bin_value a <$> vals a l = vals a l.
Proof.
  intros HF. rewrite <- (list_fmap_id (vals a l)) at 2. apply list_fmap_ext. intros i v Hv%list_elem_of_lookup_2.
  apply elem_vals in Hv as (d & Hd & Hc' & ->). rewrite Forall_forall in HF. specialize (HF d Hd). unfold bin_value, in_bin, describes in *.
  simpl in *. destruct (DType d =? EfiConventionalMemory); [|done]. simpl in *. destruct (Z.leb_spec s a), (Z.leb_spec a e); simpl; try done.
  rewrite (proj2 (Z.leb_le _ _)), (proj2 (Z.leb_le _ _)) in HF by lia. done.
Qed.

Lemma BinLoop_run fuel : forall l,
  (total pending l < fuel)%nat -> Forall GoodD l -> Forall (Normal b) l -> Size * Z.of_nat (total cost l) <= Given ->
  exists l', BinLoop Bits Given b fuel t s e l = Done (Built (Bytes l', l')) /\ Forall GoodD l' /\ Forall (Normal b) l' /\
    (length l' <= total cost l)%nat /\ forall a, vals a l' = bin_value a <$> vals a l.
Proof.
  induction fuel as [|fuel IH]; intros l HF HG HN HR; [lia|]. cbn [BinLoop].
  destruct (MergeMemoryMap_condensed Bits l HG) as [G1 V1 W1]. set (l1 := MergeMemoryMap Bits l) in *.
  pose proof (W1 _ pending_light) as P1. pose proof (W1 _ cost_light) as C1. pose proof (Normal_vals l l1 G1 V1 HN) as N1.
  assert (0 < Size) by done.
  destruct (BinPass_run (Bytes l1) l1 []) as (r & E & HP); [done|done|done|simpl; nia|]. rewrite (BuildBind_run _ _ _ E).
  destruct HP as [HE|la d lb ds EL [SG SN SV SC [SP1 SP2]]]; simpl in *.
  - exists l1. pose proof (total_length cost l1 ltac:(unfold cost; lia)). split_and!; [done|done|done|lia|]. intros a. rewrite <- V1. by rewrite out_of_bin.
  - rewrite EL in *. apply Forall_app in G1 as [Ga [Gd Gb]%Forall_cons]. apply Forall_app in N1 as [Na [Nd Nb]%Forall_cons].
    rewrite !total_app in *. unfold total in P1, C1. cbn [sum_list_with] in P1, C1. fold (total pending lb) in *. fold (total cost lb) in *.
    fold (total pending la) in *. fold (total cost la) in *. fold (total pending l) in *. fold (total cost l) in *.
    destruct (IH (la ++ ds ++ lb)) as (l2 & E2 & G2 & N2 & L2 & V2).
    + rewrite !total_app. lia.
    + rewrite !Forall_app. done.
    + rewrite !Forall_app. done.
    + rewrite !total_app. nia.
    + exists l2. rewrite !total_app in L2. split_and!; [done|done|done|lia|]. intros a. rewrite V2, <- V1, cons_middle, !vals_app, !fmap_app. by rewrite SV.
Qed.

(** Disjoint descriptors: at most one is cut at each end of the bin. *)
Lemma total_cost l : (forall a, length (vals a l) <= 1)%nat -> (total cost l <= length l + 2)%nat.
Proof.
  intros HD. assert (total cost l <= length l + length (vals s l) + length (vals e l))%nat; [|pose proof (HD s); pose proof (HD e); lia].
  clear HD. induction l as [|d l IH]; [done|]. rewrite !describes_vals, !length_app. unfold total in *. cbn [sum_list_with length].
  assert (cost d <= 1 + length (if ((PhysicalStart d <=? s) && (s <=? last_of d))%Z then [dvalue d] else [])
    + length (if ((PhysicalStart d <=? e) && (e <=? last_of d))%Z then [dvalue d] else []))%nat; [|lia].
  unfold cost, at_low, at_high. destruct (DType d =? EfiConventionalMemory); [|simpl; lia]. decide_bins.
Qed.

Lemma total_pending l : (total pending l <= length l)%nat.
Proof. induction l as [|d l IH]; [done|]. unfold total, pending in *. simpl in *. destruct (in_bin d); simpl; lia. Qed.

End Bin.

(** ** All bins *)

Definition active (t : Z) : bool :=
  match mMemoryTypeStatistics b !! Z.to_nat t with Some r => Special r && (0 <? NumberOfPages r) | None => false end.
Definition bin_holds (a t : Z) : bool :=
  active t && match mMemoryTypeStatistics b !! Z.to_nat t with Some r => (BaseAddress r <=? a) && (a <=? MaximumAddress r) | None => false end.

(** The first of the types whose bin an address is in gives free memory its type. *)
Definition reported_in (Types : list Z) (a : Z) (v : Z * Z) : Z * Z :=
  if v.1 =? EfiConventionalMemory then
    match head (filter (fun t => bin_holds a t = true) Types) with Some t => normal b (t, v.2) | None => v end
  else v.

Definition active_count (Types : list Z) : nat := length (filter (fun t => active t = true) Types).

Record MapBinsOk : Prop := {
  bins_conventional : exists r, mMemoryTypeStatistics b !! Z.to_nat EfiConventionalMemory = Some r /\ Special r = false /\ Runtime r = false;
  bins_ranges : forall t r, 0 <= t < EfiMaxMemoryType -> mMemoryTypeStatistics b !! Z.to_nat t = Some r -> Special r = true -> NumberOfPages r <> 0 ->
    0 < NumberOfPages r /\ PageAligned (BaseAddress r) /\ PageAligned (MaximumAddress r + 1) /\
    0 <= BaseAddress r <= MaximumAddress r /\ MaximumAddress r + 1 < 2 ^ 64 }.

Context (Ok : MapBinsOk).

Lemma reported_skip t Types a v : active t = false -> reported_in (t :: Types) a v = reported_in Types a v.
Proof. intros Ht. unfold reported_in. rewrite filter_cons_False; [done|]. unfold bin_holds. by rewrite Ht. Qed.

Lemma reported_step t r Types a v :
  active t = true -> mMemoryTypeStatistics b !! Z.to_nat t = Some r -> t <> EfiConventionalMemory ->
  reported_in (t :: Types) a v = reported_in Types a (bin_value t (BaseAddress r) (MaximumAddress r) a v).
Proof.
  intros Ha Hr Ht. unfold reported_in, bin_value. rewrite filter_cons.
  assert (bin_holds a t = (BaseAddress r <=? a) && (a <=? MaximumAddress r)) as EH by (unfold bin_holds; by rewrite Ha, Hr).
  rewrite decide_bool_decide, EH.
  destruct v as [u x]. simpl. destruct (u =? EfiConventionalMemory) eqn:EU; simpl; [|by rewrite EU].
  destruct ((BaseAddress r <=? a) && (a <=? MaximumAddress r)) eqn:ER; simpl; [|by rewrite EU].
  by rewrite (proj2 (Z.eqb_neq _ _) Ht).
Qed.

Lemma active_Some t : 0 <= t < EfiMaxMemoryType ->
  exists r, mMemoryTypeStatistics b !! Z.to_nat t = Some r /\ StatisticsOf t b = Done r /\ active t = negb (NumberOfPages r =? 0) && Special r.
Proof.
  intros Ht. destruct (StatisticsOf_run t b HB) as [r Hr]; [lia|]. exists r.
  assert (mMemoryTypeStatistics b !! Z.to_nat t = Some r) as Hl by (unfold StatisticsOf in Hr; by destruct (_ !! _); [injection Hr as ->|]).
  split_and!; [done|done|]. unfold active. rewrite Hl. destruct (Special r) eqn:ES; [|by rewrite andb_false_r]. rewrite andb_true_r. simpl.
  destruct (Z.eqb_spec (NumberOfPages r) 0) as [E|E]; [by rewrite E|]. destruct (bins_ranges Ok t r Ht Hl ES E) as [HP _]. simpl. by apply Z.ltb_lt.
Qed.

Lemma active_not_conventional t : active t = true -> t <> EfiConventionalMemory.
Proof. intros Ha ->. unfold active in Ha. destruct (bins_conventional Ok) as (r & Hr & HS & _). by rewrite Hr, HS in Ha. Qed.

Lemma conventional_runtime x : runtime_attribute b EfiConventionalMemory x = Z.land x (not64 EFI_MEMORY_RUNTIME).
Proof. destruct (bins_conventional Ok) as (r & Hr & _ & HR). unfold runtime_attribute. simpl in *. by rewrite Hr, HR. Qed.

Context {Env : PageEnvironment} {Off : GuardOff Env} (Bits : Z -> Z).

(** One type: the whole loop over its bin. *)
Lemma bin_run t r l :
  0 <= t < EfiMaxMemoryType -> active t = true -> mMemoryTypeStatistics b !! Z.to_nat t = Some r ->
  Forall GoodD l -> Forall (Normal b) l -> (forall a, length (vals a l) <= 1)%nat -> Size * Z.of_nat (length l + 2) <= Given ->
  exists l', BinLoop Bits Given b (S (length l)) t (BaseAddress r) (MaximumAddress r) l = Done (Built (Bytes l', l')) /\
    Forall GoodD l' /\ Forall (Normal b) l' /\ (length l' <= length l + 2)%nat /\
    forall a, vals a l' = bin_value t (BaseAddress r) (MaximumAddress r) a <$> vals a l.
Proof.
  intros Ht Ha Hr HG HN HD HR. destruct (active_Some t Ht) as (r' & Hr' & _ & EA). simplify_eq. rewrite Ha in EA. symmetry in EA. bool_to_Z.
  destruct (bins_ranges Ok t r) as (_ & Hs & He & Hse & Hmax); [done..|].
  pose proof (total_cost _ _ Hse l HD) as HC. change Size with 48 in *.
  destruct (BinLoop_run t _ _ conventional_runtime (active_not_conventional t Ha) Hs He Hse Hmax Bits (S (length l)) l) as (l' & E & G & N & L & V).
  - pose proof (total_pending (BaseAddress r) (MaximumAddress r) l). lia.
  - done.
  - done.
  - change Size with 48. lia.
  - exists l'. split_and!; [done|done|done|lia|done].
Qed.

Lemma BinsLoop_run Types : forall B l,
  Forall (fun t => 0 <= t < EfiMaxMemoryType) Types -> Forall GoodD l -> Forall (Normal b) l -> (forall a, length (vals a l) <= 1)%nat ->
  Size * Z.of_nat (length l + 2 * active_count Types) <= Given ->
  exists B' l', BinsLoop Bits Given b Types B l = Done (Built (B', l')) /\ Forall GoodD l' /\
    (length l' <= length l + 2 * active_count Types)%nat /\ forall a, vals a l' = reported_in Types a <$> vals a l.
Proof.
  induction Types as [|t Types IH]; intros B l HT HG HN HD HR.
  { exists B, l. split_and!; [done|done|lia|]. intros a. symmetry. rewrite <- (list_fmap_id (vals a l)) at 2. apply list_fmap_ext.
    intros i v _. unfold reported_in. simpl. by destruct (_ =? _). }
  apply Forall_cons in HT as [Ht HT]. cbn [BinsLoop]. destruct (active_Some t Ht) as (r & Hl & Hr & EA). rewrite Hr. cbn [mbind Outcome_bind].
  destruct (active t) eqn:Ha.
  - symmetry in EA. bool_to_Z. rewrite (proj2 (Z.eqb_neq _ _)) by done. assert (Special r = true) as ES by done. rewrite ES. cbn [negb].
    assert (active_count (t :: Types) = S (active_count Types)) as EC by (unfold active_count; by rewrite filter_cons_True). rewrite EC in *. change Size with 48 in *.
    destruct (bin_run t r l) as (l1 & E1 & G1 & N1 & L1 & V1); [done..|change Size with 48; lia|]. rewrite (BuildBind_run _ _ _ E1).
    destruct (IH (Bytes l1) l1) as (B' & l' & E & G & L & V); [done|done|done| |change Size with 48; lia|].
    { intros a. rewrite V1, length_fmap. apply HD. }
    exists B', l'. split_and!; [done|done|lia|]. intros a. rewrite V, V1, <- list_fmap_compose. apply list_fmap_ext. intros i v _. simpl.
    symmetry. apply reported_step; [done|done|by apply active_not_conventional].
  - assert (active_count (t :: Types) = active_count Types) as EC by (unfold active_count; rewrite filter_cons_False; [done|by rewrite Ha]).
    rewrite EC in *. destruct (IH B l) as (B' & l' & E & G & L & V); [done..|]. exists B', l'.
    split_and!; [|done|done|intros a; rewrite V; apply list_fmap_ext; intros i v _; by rewrite reported_skip].
    rewrite E. destruct (_ =? _); [done|]. simpl in EA. by rewrite <- EA.
Qed.

End Build.
