(* ===== verification/PageReport.v ===== *)
(** * The memory map for the caller: what it says

    CoreGetMemoryMap returns what the page allocator's map and the GCD map say
    about every address ([Reported]), never needs more room than it asks for, and
    leaves the state as it was. *)
From Stdlib Require Import ZArith Lia.
From stdpp Require Import base option list.
From S2P Require Import Prelude StateMonad Gcd GcdMap MemoryBin Page PageSample PageMap PageOps PageFind PageInv PageStack PageSteps PageTotal PageServices PageReach PageTheorems PageGetMap PageDescriptors PageSplit.

(** ** The GCD map *)

(** The type and attributes that are reported for memory with the properties. *)
Definition gcd_report (p : Props) : option (Z * Z) :=
  let '(Capabilities, Attributes, Type_, _, _, _) := p in
  let All := Z.land Capabilities (Z.lor EFI_CACHE_ATTRIBUTE_MASK EFI_MEMORY_ATTRIBUTE_MASK) in
  let Io := Z.lor (Z.land Attributes (not64 EFI_MEMORY_PORT_IO)) All in
  if Type_ =? EfiGcdMemoryTypeReserved then Some (EfiReservedMemoryType, Io)
  else if (Type_ =? EfiGcdMemoryTypeMemoryMappedIo) && (Z.land Attributes EFI_MEMORY_RUNTIME =? EFI_MEMORY_RUNTIME) then
    Some (if Z.land Attributes EFI_MEMORY_PORT_IO =? EFI_MEMORY_PORT_IO then EfiMemoryMappedIOPortSpace else EfiMemoryMappedIO, Io)
  else if Type_ =? EfiGcdMemoryTypePersistent then Some (EfiPersistentMemory, Z.lor (Z.lor Attributes EFI_MEMORY_NV) All)
  else if Type_ =? EfiGcdMemoryTypeUnaccepted then
    Some (EfiUnacceptedMemoryType, Z.lor Attributes (Z.land Capabilities (Z.lor EFI_CACHE_ATTRIBUTE_MASK EFI_MEMORY_ACCESS_MASK)))
  else None.

Definition gcd_value (e : EFI_GCD_MAP_ENTRY) : option (Z * Z) := gcd_report (props e).

Lemma ReportedGcd_value e : ReportedGcd e = bool_decide (is_Some (gcd_value e)).
Proof.
  unfold ReportedGcd, RuntimeIo, gcd_value, gcd_report, props.
  destruct (Z.eqb_spec (e_GcdMemoryType e) EfiGcdMemoryTypeReserved) as [->|]; [done|].
  destruct (Z.eqb_spec (e_GcdMemoryType e) EfiGcdMemoryTypePersistent) as [->|]; [done|].
  destruct (Z.eqb_spec (e_GcdMemoryType e) EfiGcdMemoryTypeUnaccepted) as [->|]; [done|]. simpl. by destruct (_ && _).
Qed.

Definition gcd_vals (a : Z) (l : list EFI_GCD_MAP_ENTRY) : list (Z * Z) :=
  omap (fun e => if covers a e then gcd_value e else None) l.

Lemma gcd_vals_cons a e l : gcd_vals a (e :: l) = option_list (if covers a e then gcd_value e else None) ++ gcd_vals a l.
Proof. unfold gcd_vals. simpl. by destruct (if covers a e then gcd_value e else None). Qed.

Lemma gcd_vals_below a l : forall lo hi, Chain lo l hi -> a < lo -> gcd_vals a l = [].
Proof.
  induction l as [|e l IH]; intros lo hi H Ha; [done|]. simpl in H. destruct H as (H1 & H2 & H3). rewrite gcd_vals_cons.
  rewrite (proj2 (covers_false a e)) by lia. apply (IH _ _ H3). lia.
Qed.

Lemma gcd_vals_chain a l : forall lo hi, Chain lo l hi -> gcd_vals a l = option_list (PropsAt l a ≫= gcd_report).
Proof.
  induction l as [|e l IH]; intros lo hi H; [done|]. simpl in H. destruct H as (H1 & H2 & H3). rewrite gcd_vals_cons. simpl.
  destruct (covers a e) eqn:Ec; [|by apply (IH _ _ H3)]. apply covers_spec in Ec. rewrite (gcd_vals_below _ _ _ _ H3) by lia. by rewrite app_nil_r.
Qed.

Arguments gcd_vals : simpl never.

(** The ranges that are reported consist of whole pages. *)
Definition GcdPages (e : EFI_GCD_MAP_ENTRY) : Prop := ReportedGcd e = true -> GoodRange (e_BaseAddress e) (e_EndAddress e).

Definition reported_count (l : list EFI_GCD_MAP_ENTRY) : nat := length (filter (fun e => ReportedGcd e = true) l).

Lemma reported_count_cons e l : reported_count (e :: l) = (Nat.b2n (ReportedGcd e) + reported_count l)%nat.
Proof. unfold reported_count. rewrite filter_cons. destruct (ReportedGcd e); by case_decide. Qed.

(** A reported entry adjoins the next. *)
Fixpoint Adjoining (m : EFI_GCD_MAP_ENTRY) (l : list EFI_GCD_MAP_ENTRY) : Prop :=
  match l with [] => True | e :: l => (ReportedGcd m = true -> e_EndAddress m + 1 = e_BaseAddress e) /\ Adjoining e l end.

Lemma Chain_adjoining l : forall m hi, Chain (e_EndAddress m + 1) l hi -> Adjoining m l.
Proof. induction l as [|e l IH]; intros m hi H; [done|]. simpl in *. destruct H as (H1 & H2 & H3). split; [done|by apply (IH e hi)]. Qed.

Section Gcd.
Context (Given : Z).

Lemma AppendGcd_run B t x m l :
  GoodRange (e_BaseAddress m) (e_EndAddress m) -> Forall GoodD l -> Size * (Z.of_nat (length l) + 1) <= Given ->
  exists l', AppendGcd Given B t x m l = Done (Built l') /\ Forall GoodD l' /\ (length l' <= length l + 1)%nat /\
    forall a, vals a l' ≡ₚ (if covers a m then [(t, x)] else []) ++ vals a l.
Proof.
  intros (H1 & H2 & H3 & H4) Gl HR. unfold AppendGcd. rewrite sub64_small, add64_small by lia. rewrite !land_page_mask.
  unfold PageAligned in *. set (n := e_EndAddress m - e_BaseAddress m + 1).
  assert (n mod 4096 = 0) as Hn by (unfold n; Z.div_mod_to_equations; lia). rewrite H1, Hn. simpl.
  set (New := MkDescriptor t (e_BaseAddress m) 0 (RShiftU64 n EFI_PAGE_SHIFT) x).
  assert (last_of New = e_EndAddress m) as EL.
  { unfold last_of, New, RShiftU64. simpl. rewrite Z.shiftr_div_pow2 by (unfold EFI_PAGE_SHIFT; lia). change (2 ^ EFI_PAGE_SHIFT) with 4096.
    unfold n in *. Z.div_mod_to_equations. lia. }
  assert (GoodD New) as GN by (split; [done|simpl; lia| |rewrite EL; lia]; unfold last_of in EL; simpl in *; lia).
  destruct (Append_run Given B New l GN Gl HR) as (l' & E & [G V L]). exists l'. split_and!; [done|done|lia|]. intros a. rewrite V, describes_vals.
  simpl. by rewrite EL.
Qed.

(** Memory of the GCD map is reported once, or not at all. *)
Lemma EmitGcd_cases B m l :
  EmitGcd Given B m l = match gcd_value m with Some (t, x) => AppendGcd Given B t x m l | None => Done (Built l) end.
Proof.
  unfold EmitGcd, RuntimeIo, gcd_value, gcd_report, props. unfold BuildBind.
  destruct (Z.eqb_spec (e_GcdMemoryType m) EfiGcdMemoryTypeReserved) as [->|]; simpl.
  { by destruct (AppendGcd _ _ _ _ _ _) as [[|]| |]. }
  destruct (Z.eqb_spec (e_GcdMemoryType m) EfiGcdMemoryTypeMemoryMappedIo) as [->|]; simpl.
  { destruct (_ =? _); simpl; [|done]. by destruct (AppendGcd _ _ _ _ _ _) as [[|]| |]. }
  destruct (Z.eqb_spec (e_GcdMemoryType m) EfiGcdMemoryTypePersistent) as [->|]; simpl.
  { by destruct (AppendGcd _ _ _ _ _ _) as [[|]| |]. }
  by destruct (_ =? _).
Qed.

Lemma EmitGcd_run B m l :
  GcdPages m -> Forall GoodD l -> Size * Z.of_nat (length l + reported_count [m]) <= Given ->
  exists l', EmitGcd Given B m l = Done (Built l') /\ Forall GoodD l' /\ (length l' <= length l + reported_count [m])%nat /\
    forall a, vals a l' ≡ₚ gcd_vals a [m] ++ vals a l.
Proof.
  intros HP HG HR. unfold GcdPages in HP. rewrite reported_count_cons in *. pose proof (ReportedGcd_value m) as ER. rewrite EmitGcd_cases.
  setoid_rewrite gcd_vals_cons. change Size with 48 in *. destruct (gcd_value m) as [[t x]|]; rewrite ER in *; simpl in *.
  - destruct (AppendGcd_run B t x m l) as (l' & E & G & L & V); [by apply HP|done|change Size with 48; lia|].
    exists l'. split_and!; [done|done|lia|]. intros a. rewrite V. by destruct (covers a m).
  - exists l. split_and!; [done|done|lia|]. intros a. by destruct (covers a m).
Qed.

Lemma SameGcd_value m e : SameGcd m e = true -> gcd_value m = gcd_value e.
Proof.
  unfold SameGcd. destruct m, e. simpl. intros H. bool_to_Z. by subst.
Qed.

Lemma extend_vals a m e :
  GcdPages m -> GcdPages e -> (ReportedGcd m = true -> e_EndAddress m + 1 = e_BaseAddress e) -> gcd_value m = gcd_value e ->
  option_list (if covers a (set_EndAddress m (e_EndAddress e)) then gcd_value (set_EndAddress m (e_EndAddress e)) else None) =
    option_list (if covers a m then gcd_value m else None) ++ option_list (if covers a e then gcd_value e else None).
Proof.
  intros Hm He HA EV. change (gcd_value (set_EndAddress m (e_EndAddress e))) with (gcd_value m).
  unfold GcdPages in *. rewrite !ReportedGcd_value, <- EV in *. destruct (gcd_value m) as [v|]; simpl in *; [|by destruct (covers a _), (covers a m), (covers a e)].
  specialize (HA eq_refl). destruct (Hm eq_refl) as (_ & _ & ? & _), (He eq_refl) as (_ & _ & ? & _). unfold covers. simpl.
  destruct (Z.leb_spec (e_BaseAddress m) a), (Z.leb_spec a (e_EndAddress e)), (Z.leb_spec a (e_EndAddress m)), (Z.leb_spec (e_BaseAddress e) a); simpl; first [done|lia].
Qed.

Lemma GcdLoop_run B Links : forall m l,
  Adjoining m Links -> Forall GcdPages (m :: Links) -> Forall GoodD l -> Size * Z.of_nat (length l + reported_count (m :: Links)) <= Given ->
  exists l', GcdLoop Given B Links m l = Done (Built l') /\ Forall GoodD l' /\ (length l' <= length l + reported_count (m :: Links))%nat /\
    forall a, vals a l' ≡ₚ gcd_vals a (m :: Links) ++ vals a l.
Proof.
  induction Links as [|e Links IH]; intros m l HA HP HG HR.
  { apply Forall_cons in HP as [Hm _]. cbn [GcdLoop]. by apply EmitGcd_run. }
  change Size with 48 in *.
  apply Forall_cons in HP as [Hm HP]. pose proof HP as [He HL]%Forall_cons. cbn [GcdLoop]. destruct HA as [HA1 HA2].
  destruct (SameGcd m e) eqn:ES.
  - pose proof (SameGcd_value m e ES) as EV. set (m' := set_EndAddress m (e_EndAddress e)).
    assert (ReportedGcd m = ReportedGcd e) as ER by (by rewrite !ReportedGcd_value, EV).
    rewrite 2!reported_count_cons in HR. rewrite 2!reported_count_cons.
    destruct (IH m' l) as (l' & E & G & L & V).
    + destruct Links as [|e' Links]; [done|]. destruct HA2 as [HA2 HA3]. split; [|done]. intros Hr. change (ReportedGcd m = true) in Hr. simpl. apply HA2. congruence.
    + apply Forall_cons. split; [|done]. intros Hr. change (ReportedGcd m = true) in Hr. simpl. apply (GoodRange_join _ (e_EndAddress m)); [by apply Hm|].
      rewrite HA1 by done. apply He. congruence.
    + done.
    + rewrite reported_count_cons. change (ReportedGcd m') with (ReportedGcd m). lia.
    + rewrite reported_count_cons in L. change (ReportedGcd m') with (ReportedGcd m) in L. exists l'. split_and!; [done|done|lia|]. intros a.
      rewrite V. apply Permutation_app_tail. rewrite !gcd_vals_cons, app_assoc. apply Permutation_app_tail.
      unfold m'. by rewrite (extend_vals a m e).
  - rewrite reported_count_cons in HR. rewrite reported_count_cons.
    destruct (EmitGcd_run B m l) as (l1 & E1 & G1 & L1 & V1); [done|done|rewrite reported_count_cons; change (reported_count []) with 0%nat; change Size with 48; lia|].
    rewrite reported_count_cons in L1. change (reported_count []) with 0%nat in L1. rewrite (BuildBind_run _ _ _ E1).
    destruct (IH e l1) as (l2 & E2 & G2 & L2 & V2); [done|done|done|lia|]. exists l2. split_and!; [done|done|lia|].
    intros a. rewrite V2, V1, (gcd_vals_cons a m []), (gcd_vals_cons a m (e :: Links)). change (gcd_vals a []) with (@nil (Z * Z)). rewrite app_nil_r, !app_assoc.
    apply Permutation_app_tail, Permutation_app_comm.
Qed.
End Gcd.

(** ** The whole map *)

(** At most one descriptor of the allocator covers an address. *)
Lemma map_vals_look a l : Separate l -> map_vals a l = option_list (look l a).
Proof.
  intros HS. unfold map_vals, look. assert (forall d d' k, filter (inside a) l <> d :: d' :: k) as H.
  { intros d d' k E. clear -HS E. induction l as [|x l IH]; [done|]. destruct HS as [Hx HS]. rewrite filter_cons in E. case_decide as Hi; [|by apply IH].
    injection E as -> E. assert (d' ∈ filter (inside a) l) as Hd by (rewrite E; by left). apply list_elem_of_filter in Hd as [Hi' Hd].
    rewrite Forall_forall in Hx. specialize (Hx d' Hd). unfold apart, apart_from, inside in *. lia. }
  destruct (filter (inside a) l) as [|d [|d' k]]; [done|done|by destruct (H d d' k)].
Qed.

Definition clear_access (v : Z * Z) : Z * Z := (v.1, Z.land v.2 (not64 EFI_MEMORY_ACCESS_MASK)).

(** What the map for the caller says about an address: free memory in the bin of
    a special type has that type, and the permission bits are cleared. *)
Definition Reported (st : PageState) (a : Z) : list (Z * Z) :=
  clear_access <$> option_list (reported_in (Bins st) MemoryTypes a ∘ normal (Bins st) <$> at_address st a) ++
    option_list (PropsAt (gcd_of st) a ≫= gcd_report).

(** The size of the buffer that the caller must have. *)
Definition needed (st : PageState) : Z :=
  Size * Z.of_nat (reported_count (gcd_of st) + length (gMemoryMap st) + 2 * active_count (Bins st) MemoryTypes).

Lemma ClearAccess_vals a l : vals a (ClearAccess <$> l) = clear_access <$> vals a l.
Proof.
  induction l as [|d l IH]; [done|]. rewrite fmap_cons, !describes_vals, fmap_app, IH. f_equal. unfold last_of. simpl. by destruct (_ && _).
Qed.

Lemma ClearAccess_good l : Forall GoodD l -> Forall GoodD (ClearAccess <$> l).
Proof. intros H. apply Forall_fmap. eapply Forall_impl; [exact H|]. intros d [? ? ? ?]. by split. Qed.

Lemma MemoryTypes_range : Forall (fun t => 0 <= t < EfiMaxMemoryType) MemoryTypes.
Proof. unfold MemoryTypes, EfiMaxMemoryType. simpl. repeat constructor; lia. Qed.

Section Report.
Context {Env : PageEnvironment} {Off : GuardOff Env} (Bits : Z -> Z).

Lemma BuildMap_run Given B st hi :
  PageInv st -> MapBinsOk (Bins st) -> Chain 0 (gcd_of st) hi -> Forall GcdPages (gcd_of st) -> needed st <= Given ->
  exists l, BuildMap Bits Given (Bins st) B (gMemoryMap st) (gcd_of st) = Done (Built l) /\ Bytes l <= needed st /\
    forall a, vals a l ≡ₚ Reported st a.
Proof.
  intros [HW HB _ _] HO HC HP HN. destruct HW as [(HG & HS & _) _ _ _]. unfold needed in *. change Size with 48 in *. unfold BuildMap.
  destruct (CopyLoop_run Given (Bins st) HB B (gMemoryMap st) []) as (l1 & E1 & G1 & L1 & V1); [done|done|change Size with 48; simpl; lia|].
  rewrite (BuildBind_run _ _ _ E1). simpl in L1.
  assert (forall a, vals a l1 = option_list (normal (Bins st) <$> at_address st a)) as W1.
  { intros a. specialize (V1 a). rewrite vals_nil, app_nil_r, map_vals_look in V1 by done. unfold at_address.
    destruct (look _ a); simpl in *; [by apply Permutation_singleton_r in V1|by apply Permutation_nil_r in V1]. }
  destruct (BinsLoop_run Given (Bins st) HB HO Bits MemoryTypes B l1) as (B2 & l2 & E2 & G2 & L2 & V2).
  - apply MemoryTypes_range.
  - done.
  - apply (vals_Forall (fun v => normal (Bins st) v = v)); [done|]. intros a. rewrite W1. destruct (at_address st a); simpl; [|done].
    apply Forall_singleton, normal_idem.
  - intros a. rewrite W1. destruct (at_address st a); simpl; lia.
  - change Size with 48. lia.
  - rewrite (BuildBind_run _ _ _ E2).
    destruct (GcdLoop_run Given B2 (gcd_of st) ZeroGcdEntry l2) as (l3 & E3 & G3 & L3 & V3).
    + destruct (gcd_of st) as [|e k]; [done|]. simpl in HC. destruct HC as (_ & _ & HC). split; [done|by apply (Chain_adjoining _ _ hi)].
    + by constructor.
    + done.
    + rewrite reported_count_cons. change Size with 48. simpl. lia.
    + rewrite reported_count_cons in L3. simpl in L3. rewrite (BuildBind_run _ _ _ E3). pose proof (ClearAccess_good l3 G3) as G4.
      eexists. split; [done|]. pose proof (MergeMemoryMap_length Bits _ G4) as L4. rewrite length_fmap in L4. split; [unfold Bytes; change Size with 48; lia|].
      intros a. rewrite (condensed_vals _ _ (MergeMemoryMap_condensed Bits _ G4)), ClearAccess_vals, V3, V2, W1. unfold Reported.
      rewrite <- (gcd_vals_chain a (gcd_of st) 0 hi HC), gcd_vals_cons. simpl. rewrite fmap_app, Permutation_app_comm, <- fmap_app.
      destruct (covers a ZeroGcdEntry); simpl; by destruct (at_address st a).
Qed.

(** ** The size *)

Lemma sum_sizes {A} (l : list A) : forall B, 0 <= B -> B + Size * Z.of_nat (length l) < 2 ^ 64 ->
  foldl (fun B _ => add64 B Size) B l = B + Size * Z.of_nat (length l).
Proof.
  change Size with 48. induction l as [|x l IH]; intros B HB HL; cbn [foldl length] in *; [lia|]. rewrite add64_small by lia. rewrite IH; lia.
Qed.

Lemma active_count_cons b t Types : active_count b (t :: Types) = (Nat.b2n (active b t) + active_count b Types)%nat.
Proof. unfold active_count. rewrite filter_cons. destruct (active b t); by case_decide. Qed.

Lemma ExtraLoop_run b Types : BinsOk b -> Forall (fun t => 0 <= t < EfiMaxMemoryType) Types -> forall B,
  0 <= B -> B + Size * Z.of_nat (2 * active_count b Types) < 2 ^ 64 -> ExtraLoop b Types B = Done (B + Size * Z.of_nat (2 * active_count b Types)).
Proof.
  intros HB. change Size with 48. induction 1 as [|t Types Ht HT IH]; intros B HB0 HL; cbn [ExtraLoop]; [f_equal; simpl; lia|].
  destruct (StatisticsOf_run t b HB) as [r Hr]; [lia|]. rewrite Hr. cbn [mbind Outcome_bind].
  assert (active b t = Special r && (0 <? NumberOfPages r)) as EA by (unfold active; unfold StatisticsOf in Hr; by destruct (_ !! _); [injection Hr as ->|]).
  rewrite active_count_cons in *. rewrite <- EA. destruct (active b t); cbn [Nat.b2n] in *.
  - change Size with 48 in *. rewrite add64_small by lia. rewrite IH by lia. f_equal. lia.
  - by apply IH.
Qed.

Lemma NeededSize_run st : BinsOk (Bins st) -> needed st < 2 ^ 64 -> NeededSize st = Done (needed st).
Proof.
  intros HB HN. unfold NeededSize, needed, reported_count, gcd_of in *. set (n := length (filter _ _)) in *.
  change Size with 48 in *. rewrite u64_small, sum_sizes, ExtraLoop_run by first [done|apply MemoryTypes_range|change Size with 48; lia].
  f_equal. change Size with 48. lia.
Qed.

End Report.

(** ** The service *)

(** What the bins, the GCD map and the locks are when the service is called. *)
Record MapReady (st : PageState) : Prop := {
  ready_idle : Idle st;
  ready_bins : MapBinsOk (Bins st);
  ready_gcd : exists hi, Chain 0 (gcd_of st) hi;
  ready_pages : Forall GcdPages (gcd_of st);
  ready_lock : mGcdMemorySpaceLock (Gcd_ st) = false;
  ready_size : needed st < 2 ^ 64 }.

(** At most one position for an address that one descriptor describes. *)
Lemma vals_unique a l i j d d' :
  (length (vals a l) <= 1)%nat -> l !! i = Some d -> l !! j = Some d' -> describes a d -> describes a d' -> i = j.
Proof.
  revert i j. induction l as [|x l IH]; intros i j HL Hi Hj Hd Hd'; [done|]. rewrite vals_cons, length_app in HL.
  assert (forall k y, l !! k = Some y -> describes a y -> 1 <= length (vals a l))%nat as Some_.
  { intros k y Hk Hy. assert (dvalue y ∈ vals a l) as Hv.
    { apply list_elem_of_fmap. exists y. split; [done|]. apply list_elem_of_filter. split; [done|by eapply list_elem_of_lookup_2]. }
    destruct (vals a l); [by apply elem_of_nil in Hv|simpl; lia]. }
  destruct i as [|i], j as [|j]; simpl in *; [done| | |f_equal; apply IH; [lia|done..]]; simplify_eq.
  - specialize (Some_ _ _ Hj Hd'). case_decide; [simpl in HL; lia|done].
  - specialize (Some_ _ _ Hi Hd). case_decide; [simpl in HL; lia|done].
Qed.

Section Service.
Context {Env : PageEnvironment} {Off : GuardOff Env} {Q : Quiet Env} (Bits : Z -> Z).

(** What the caller finds. *)
Definition answer (st : PageState) (Status : EFI_STATUS) (Size_ : Z) (l : list EFI_MEMORY_DESCRIPTOR) (k ds dv : option Z) : MapResult :=
  MkResult Status (Some Size_) l (option_map (fun _ => mMemoryMapKey st) k) (option_map (fun _ => Size) ds)
    (option_map (fun _ => EFI_MEMORY_DESCRIPTOR_VERSION) dv).

Lemma ReadState_run {A B} (f : PageState -> Outcome A) (g : A -> PM B) v st : f st = Done v -> (ReadState f ≫= g) st = g v st.
Proof. intros E. apply SM_bind_run. unfold ReadState, Within. by rewrite E. Qed.

(** The state while the service runs. *)
Definition held (st : PageState) : PageState := SetMemoryLock true (SetGcd (SetLock false true (Gcd_ st)) st).

Lemma held_end st : gMemoryLock st = false -> mGcdMemorySpaceLock (Gcd_ st) = false ->
  SetGcd (SetLock false false (Gcd_ (held st))) (SetMemoryLock false (held st)) = st.
Proof. destruct st as [? ? ? ? ? ? ? ? ? g], g. simpl. by intros -> ->. Qed.

Lemma acquire_run {A} (m : PM A) st : gMemoryLock st = false -> mGcdMemorySpaceLock (Gcd_ st) = false ->
  (OnGcd (fun g => g ← CoreAcquireGcdLock false g; Done (tt, g)) ;; CoreAcquireMemoryLock ;; m) st = m (held st).
Proof.
  intros HL HG.
  rewrite (SM_bind_run _ _ st tt (SetGcd (SetLock false true (Gcd_ st)) st)) by (unfold OnGcd, Within, CoreAcquireGcdLock, GetLock; by rewrite HG).
  by rewrite (SM_bind_run _ _ _ tt (held st)) by (by apply CoreAcquireMemoryLock_run).
Qed.

Lemma release_run {A} (a : A) st : gMemoryLock st = false -> mGcdMemorySpaceLock (Gcd_ st) = false ->
  (CoreReleaseMemoryLock ;; OnGcd (fun g => g ← CoreReleaseGcdLock false g; Done (tt, g)) ;; mret a) (held st) = Done (a, st).
Proof.
  intros HL HG. rewrite (SM_bind_run _ _ _ tt (SetMemoryLock false (held st))) by (by apply CoreReleaseMemoryLock_run).
  rewrite (SM_bind_run _ _ _ tt st); [done|]. unfold OnGcd, Within, CoreReleaseGcdLock. simpl. do 2 f_equal. by apply held_end.
Qed.

(** What is left of the service once the locks are taken and the size is known. *)
Lemma CoreGetMemoryMap_locked st Given m k ds dv :
  MapReady st ->
  exists r, CoreGetMemoryMap Bits (Some Given) m k ds dv st = Done (r, st) /\
    if Given <? needed st then r = answer st EFI_BUFFER_TOO_SMALL (needed st) [] k ds dv
    else if m then exists l, r = answer st EFI_SUCCESS (Bytes l) l k ds dv /\ Bytes l <= needed st /\ forall a, vals a l ≡ₚ Reported st a
    else r = answer st EFI_INVALID_PARAMETER (needed st) [] k ds dv.
Proof.
  intros [[[HI HD HM] HL] HB [hi HC] HP HG HN].
  unfold CoreGetMemoryMap. rewrite acquire_run, (ReadState_run _ _ (needed st)) by first [done|by apply (NeededSize_run (held st)); [apply HI|]].
  destruct (Given <? needed st) eqn:EG.
  { rewrite (ret_run (S:=PageState)), (Get_run (S:=PageState)), release_run by done. eexists. split; [done|]. done. }
  destruct m; cbn [negb].
  - destruct (BuildMap_run Bits Given (needed st) st hi) as (l & E & L & V); [done..|by apply Z.ltb_ge|].
    rewrite (SM_bind_run _ _ (held st) (EFI_SUCCESS, Bytes l, l) (held st)) by (by rewrite (ReadState_run _ _ (Built l))).
    rewrite (Get_run (S:=PageState)), release_run by done. eexists. split; [done|]. by exists l.
  - rewrite (ret_run (S:=PageState)), (Get_run (S:=PageState)), release_run by done. eexists. split; [done|]. done.
Qed.

(** C21: GetMemoryMap with a buffer of the size that it asks for, or larger,
    succeeds, leaves the state as it was, and returns the key of the current map
    and descriptors that take at most that size.  For every address, they give
    exactly the types and attributes that the maps of the page allocator and of
    the GCD give it: free memory in the bin of a special type is reported with
    that type, reserved, persistent, unaccepted and runtime I/O memory of the GCD
    is included, and the permission bits are cleared.  In particular the loops
    over the bins end, and the buffer is never overrun. *)
Theorem CoreGetMemoryMap_reports st Given k ds dv :
  MapReady st -> needed st <= Given ->
  exists l, CoreGetMemoryMap Bits (Some Given) true k ds dv st = Done (answer st EFI_SUCCESS (Bytes l) l k ds dv, st) /\
    Bytes l <= needed st /\ forall a, vals a l ≡ₚ Reported st a.
Proof.
  intros HR HN. destruct (CoreGetMemoryMap_locked st Given true k ds dv HR) as (r & E & H). rewrite (proj2 (Z.ltb_ge _ _)) in H by done.
  destruct H as (l & -> & ? & ?). by exists l.
Qed.

(** The protocol to size the buffer: a call with a smaller buffer fails with
    EFI_BUFFER_TOO_SMALL, stores the size that is needed and writes no
    descriptor, and the same call with a buffer of that size then succeeds, with
    the same key. *)
Theorem CoreGetMemoryMap_retry st Given m k ds dv :
  MapReady st -> Given < needed st ->
  exists n, CoreGetMemoryMap Bits (Some Given) m k ds dv st = Done (answer st EFI_BUFFER_TOO_SMALL n [] k ds dv, st) /\
    exists l, CoreGetMemoryMap Bits (Some n) true k ds dv st = Done (answer st EFI_SUCCESS (Bytes l) l k ds dv, st) /\ Bytes l <= n.
Proof.
  intros HR HN. destruct (CoreGetMemoryMap_locked st Given m k ds dv HR) as (r & E & H). rewrite (proj2 (Z.ltb_lt _ _)) in H by done. subst r.
  exists (needed st). split; [done|]. destruct (CoreGetMemoryMap_locked st (needed st) true k ds dv HR) as (r & E' & H').
  rewrite Z.ltb_irrefl in H'. destruct H' as (l & -> & ? & _). by exists l.
Qed.

(** C22: The descriptors that GetMemoryMap returns do not overlap, if the memory
    that the GCD map adds is not in the map of the page allocator. *)
Theorem CoreGetMemoryMap_disjoint st Given k ds dv :
  MapReady st -> needed st <= Given -> (forall a, at_address st a <> None -> PropsAt (gcd_of st) a ≫= gcd_report = None) ->
  exists l, CoreGetMemoryMap Bits (Some Given) true k ds dv st = Done (answer st EFI_SUCCESS (Bytes l) l k ds dv, st) /\
    forall i j d d' a, l !! i = Some d -> l !! j = Some d' -> describes a d -> describes a d' -> i = j.
Proof.
  intros HR HN HD. destruct (CoreGetMemoryMap_locked st Given true k ds dv HR) as (r & E & H). rewrite (proj2 (Z.ltb_ge _ _)) in H by done.
  destruct H as (l & -> & _ & V). exists l. split; [done|]. intros i j d d' a Hi Hj Hd Hd'. apply (vals_unique a l i j d d'); [|done..].
  rewrite (V a). unfold Reported. rewrite length_fmap, length_app. destruct (at_address st a) eqn:Ea; simpl.
  - rewrite HD by (by rewrite Ea). simpl. lia.
  - by destruct (_ ≫= _); simpl; lia.
Qed.

End Service.

(** ** A small machine *)

(** The machine with a bin of three pages in its free memory, and with reserved
    and runtime I/O memory in the GCD map. *)
Definition ReportBins : BinState :=
  MkBins true (<[6%nat := MkStatistics 0x102000 0x104FFF 0 3 16 true true]> (mMemoryTypeStatistics SampleBins))
    (gMemoryTypeInformation SampleBins) MAX_ALLOC_ADDRESS MAX_ALLOC_ADDRESS.
Definition ReportGcd : GcdState :=
  MkGcd [MkEntry 0 0xFFFFF 0 0 0 0 0 0; MkEntry 0x100000 0x10FFFF 0xF 0 2 0 0 0; MkEntry 0x110000 0x1FFFFF 0xF 0 1 0 0 0;
         MkEntry 0x200000 0x2FFFFF 0xF 0 1 0 1 0; MkEntry 0x300000 0xFFFFFF 0xF EFI_MEMORY_RUNTIME 3 0 0 0] [] false false 0 [].
Definition ReportState : PageState := SetGcd ReportGcd (SetBins ReportBins SampleUsed).

Lemma Idle_gcd {Env : PageEnvironment} g st : Forall (fun e => Promotable e = false) (mGcdMemorySpaceMap g) -> Idle st -> Idle (SetGcd g st).
Proof.
  intros HF [[[[] ? ? ?] ? ?] ?]. split; [|done]. split; [|done|done]. split; [done|done|done|].
  intros i e Hi He. rewrite Forall_forall in HF. rewrite (HF e) in He; [done|]. by eapply list_elem_of_lookup_2.
Qed.

Lemma ReportState_idle : Idle ReportState.
Proof.
  apply Idle_gcd; [cbn [mGcdMemorySpaceMap ReportGcd]; repeat (apply Forall_cons; split; [vm_compute; reflexivity|]); apply Forall_nil; exact I|].
  destruct SampleUsed_granted as [[HC HL] _]. split; [apply Calm_bins; [split; vm_compute; reflexivity|exact HC]|exact HL].
Qed.

Lemma ReportState_bins : MapBinsOk ReportBins.
Proof.
  split; [by eexists|]. intros t r _ Hr HS _. unfold ReportBins, SampleBins in Hr. cbn [mMemoryTypeStatistics] in Hr.
  apply list_lookup_insert_Some in Hr as [(_ & <- & _)|[_ [-> _]%lookup_replicate]]; [|done].
  vm_compute. repeat split; discriminate.
Qed.

Lemma ReportState_ready : MapReady ReportState.
Proof.
  split.
  - apply ReportState_idle.
  - apply ReportState_bins.
  - exists 0x1000000. vm_compute. repeat split; discriminate.
  - repeat constructor; intros Hr; try discriminate Hr; vm_compute; repeat split; discriminate.
  - reflexivity.
  - vm_compute. reflexivity.
Qed.

(** Free memory outside and in the bin, memory in use, reserved and I/O memory. *)
Lemma ReportState_sample :
  needed ReportState = 336 /\
  (Reported ReportState <$> [0x101000; 0x103000; 0x10C000; 0x120000; 0x300000; 0x1000]) =
    [[(EfiConventionalMemory, 0xF)]; [(EfiRuntimeServicesData, Z.lor EFI_MEMORY_RUNTIME 0xF)]; [(EfiBootServicesData, 0xF)];
     [(EfiReservedMemoryType, 0xF)]; [(EfiMemoryMappedIO, Z.lor EFI_MEMORY_RUNTIME 0xF)]; []].
Proof. split; vm_compute; reflexivity. Qed.

Lemma CoreGetMemoryMap_reports_witness :
  exists l, CoreGetMemoryMap (fun _ => 0) (Some 336) true (Some 0) None None ReportState =
      Done (answer ReportState EFI_SUCCESS (Bytes l) l (Some 0) None None, ReportState) /\
    Bytes l <= needed ReportState /\ forall a, vals a l ≡ₚ Reported ReportState a.
Proof. apply (CoreGetMemoryMap_reports (fun _ => 0)); [exact ReportState_ready|vm_compute; discriminate]. Defined.

Lemma CoreGetMemoryMap_retry_witness :
  exists n, CoreGetMemoryMap (fun _ => 0) (Some 0) false (Some 0) None None ReportState =
      Done (answer ReportState EFI_BUFFER_TOO_SMALL n [] (Some 0) None None, ReportState) /\
    exists l, CoreGetMemoryMap (fun _ => 0) (Some n) true (Some 0) None None ReportState =
      Done (answer ReportState EFI_SUCCESS (Bytes l) l (Some 0) None None, ReportState) /\ Bytes l <= n.
Proof. apply (CoreGetMemoryMap_retry (fun _ => 0)); [exact ReportState_ready|vm_compute; reflexivity]. Defined.

Lemma at_address_within st lo hi a : Forall (fun d => lo <= MStart d /\ MEnd d <= hi) (gMemoryMap st) -> at_address st a <> None -> lo <= a <= hi.
Proof.
  intros HF Ha. destruct (decide (lo <= a <= hi)) as [?|Hn]; [done|]. destruct Ha. apply look_None. intros d Hd Hi.
  rewrite Forall_forall in HF. specialize (HF d Hd). unfold inside in Hi. lia.
Qed.

(** The memory of the allocator is system memory of the GCD map. *)
Lemma ReportState_unshared a : at_address ReportState a <> None -> PropsAt (gcd_of ReportState) a ≫= gcd_report = None.
Proof.
  intros Ha. apply (at_address_within _ 0x100000 0x10FFFF) in Ha.
  2: { assert (gMemoryMap ReportState = gMemoryMap SampleUsed) as -> by reflexivity.
       vm_compute (gMemoryMap SampleUsed). repeat (apply Forall_cons; split; [simpl; lia|]). apply Forall_nil. exact I. }
  change (gcd_of ReportState) with (mGcdMemorySpaceMap ReportGcd).
  cbn [PropsAt mGcdMemorySpaceMap ReportGcd]. unfold covers. cbn [e_BaseAddress e_EndAddress].
  destruct (Z.leb_spec 0 a), (Z.leb_spec a 0xFFFFF); try lia; simpl. destruct (Z.leb_spec 0x100000 a), (Z.leb_spec a 0x10FFFF); try lia. done.
Qed.

Lemma CoreGetMemoryMap_disjoint_witness :
  exists l, CoreGetMemoryMap (fun _ => 0) (Some 1000) true (Some 0) None None ReportState =
      Done (answer ReportState EFI_SUCCESS (Bytes l) l (Some 0) None None, ReportState) /\
    forall i j d d' a, l !! i = Some d -> l !! j = Some d' -> describes a d -> describes a d' -> i = j.
Proof. apply (CoreGetMemoryMap_disjoint (fun _ => 0)); [exact ReportState_ready|vm_compute; discriminate|exact ReportState_unshared]. Defined.
