(* ===== verification/Pool.v ===== *)
(** * The pool: the model

    [src/MdeModulePkg/Core/Dxe/Mem/Pool.c]: memory in small pieces, which are cut
    out of pages of the page allocator and kept in lists by size when free.

    [Memory] gives the words of memory that the pool reads, one for each field at
    its address.  The links of the free lists and of the list of pools are
    sequences of addresses; removing a node takes it out of the list that it is
    in.  A POOL for a type of an OEM or OS is a pool buffer itself; its address is
    kept with its fields, and its signature is not looked at.  NULL is 0.
    DEBUG_CLEAR_MEMORY, which only writes memory that is not read before it is
    written again, is left out.

    CoreAllocatePoolI calls itself in LookupPoolHead for a buffer of type
    EfiBootServicesData, for which LookupPoolHead calls nothing, and CoreFreePoolI
    calls itself for such a buffer, so that the recursion is unrolled once. *)
From Stdlib Require Import ZArith Lia.
From stdpp Require Import base option list.
From S2P Require Import Prelude StateMonad Gcd MemoryBin Page.

(** ** Data *)

(** SIGNATURE_32 ('p','f','r','0') and so on *)
Definition POOL_FREE_SIGNATURE : Z := 0x30726670.
Definition POOL_HEAD_SIGNATURE : Z := 0x30646870.
Definition POOLPAGE_HEAD_SIGNATURE : Z := 0x31646870.
Definition POOL_TAIL_SIGNATURE : Z := 0x6C617470.

(** The offsets of the fields of POOL_FREE, POOL_HEAD and POOL_TAIL; the index of
    a free block is where the head of one in use has a reserved field. *)
Definition OFFSET_Signature : Z := 0.
Definition OFFSET_Index : Z := 4.
Definition OFFSET_Type : Z := 8.
Definition OFFSET_Size : Z := 16.
Definition SIZE_OF_POOL_HEAD : Z := 24.
Definition OFFSET_TailSignature : Z := 0.
Definition OFFSET_TailSize : Z := 8.
Definition sizeof_POOL_TAIL : Z := 16.
Definition POOL_OVERHEAD : Z := SIZE_OF_POOL_HEAD + sizeof_POOL_TAIL.
Definition sizeof_POOL : Z := 232.

Definition MAX_ADDRESS : Z := 0xFFFFFFFFFFFFFFFF.
Definition MAX_POOL_SIZE : Z := MAX_ADDRESS - POOL_OVERHEAD.

Definition mPoolSizeTable : list Z := [128; 256; 384; 640; 1024; 1664; 2688; 4352; 7040; 11392; 18432; 29824].
Definition MAX_POOL_LIST : nat := 12.

(** [ALIGN_VARIABLE] of a UINTN *)
Definition ALIGN_VARIABLE (Value : Z) : Z := add64 Value (Z.land (sub64 8 Value) 7).

Fixpoint PoolIndexLoop (Table : list Z) (Size : Z) (Index : nat) : nat :=
  match Table with
  | [] => Index
  | s :: Table => if Size <=? s then Index else PoolIndexLoop Table Size (S Index)
  end.

Definition GetPoolIndexFromSize (Size : Z) : nat := PoolIndexLoop mPoolSizeTable Size 0.

Record POOL := MkPool {
  PoolUsed : Z;
  PoolMemoryType : Z;
  FreeList : list (list Z) }.

Record PoolState := MkPoolState {
  Pages : PageState;
  mPoolMemoryLock : bool;
  mPoolHead : list POOL;
  mPoolHeadList : list (Z * POOL);
  Memory : Z -> Z }.

Definition QM : Type -> Type := SM PoolState.

Definition SetPagesState (v : PageState) (st : PoolState) : PoolState :=
  MkPoolState v (mPoolMemoryLock st) (mPoolHead st) (mPoolHeadList st) (Memory st).
Definition SetPoolLock (v : bool) (st : PoolState) : PoolState :=
  MkPoolState (Pages st) v (mPoolHead st) (mPoolHeadList st) (Memory st).
Definition SetPoolHead (v : list POOL) (st : PoolState) : PoolState :=
  MkPoolState (Pages st) (mPoolMemoryLock st) v (mPoolHeadList st) (Memory st).
Definition SetPoolHeadList (v : list (Z * POOL)) (st : PoolState) : PoolState :=
  MkPoolState (Pages st) (mPoolMemoryLock st) (mPoolHead st) v (Memory st).
Definition SetMemory (v : Z -> Z) (st : PoolState) : PoolState :=
  MkPoolState (Pages st) (mPoolMemoryLock st) (mPoolHead st) (mPoolHeadList st) v.

Definition SetUsed (v : Z) (p : POOL) : POOL := MkPool v (PoolMemoryType p) (FreeList p).
Definition SetFreeLists (v : list (list Z)) (p : POOL) : POOL := MkPool (PoolUsed p) (PoolMemoryType p) v.

Definition OnPages {A} (m : PM A) : QM A := Within Pages SetPagesState m.

(** ** Memory *)

(** What the code does is not defined, or an assertion fails. *)
Definition Stop {A} : QM A := fun _ => Asserted.

Definition Load (a : Z) : QM Z := Get (fun st => Memory st a).
Definition Store (a v : Z) : QM unit := Change (fun st => SetMemory (fun x => if x =? a then v else Memory st x) st).

(** [mPoolSizeTable[Index]]; beyond the table it is not known what is read. *)
Definition LIST_TO_SIZE (Index : nat) : QM Z :=
  match mPoolSizeTable !! Index with Some s => mret s | None => Stop end.

(** ** Pools *)

(** [&mPoolHead[Type]], or a POOL at an address. *)
Inductive PoolRef :=
| StaticPool (t : nat)
| OemPool (p : Z).

Definition FindPool (r : PoolRef) (st : PoolState) : option POOL :=
  match r with
  | StaticPool t => mPoolHead st !! t
  | OemPool p => snd <$> head (filter (fun x => x.1 = p) (mPoolHeadList st))
  end.

Definition ReadPool (r : PoolRef) : QM POOL :=
  fun st => match FindPool r st with Some p => Done (p, st) | None => Asserted end.

Definition ChangePool (r : PoolRef) (f : POOL -> POOL) : QM unit :=
  match r with
  | StaticPool t => Change (fun st => SetPoolHead (alter f t (mPoolHead st)) st)
  | OemPool p => Change (fun st => SetPoolHeadList ((fun x => if x.1 =? p then (x.1, f x.2) else x) <$> mPoolHeadList st) st)
  end.

(** [Pool->FreeList[Index]] *)
Definition ReadFreeList (r : PoolRef) (Index : nat) : QM (list Z) :=
  p ← ReadPool r;
  match FreeList p !! Index with Some l => mret (M:=QM) l | None => Stop end.

Definition InsertFree (r : PoolRef) (Index : nat) (Free : Z) : QM unit :=
  ChangePool r (fun p => SetFreeLists (alter (fun l : list Z => Free :: l) Index (FreeList p)) p).

(** RemoveEntryList (&Free->Link) *)
Definition Without (a : Z) (l : list Z) : list Z := filter (fun x => x ≠ a) l.

Definition RemoveFree (Free : Z) : QM unit :=
  let f p := SetFreeLists (Without Free <$> FreeList p) p in
  Change (fun st => SetPoolHeadList ((fun x => (x.1, f x.2)) <$> mPoolHeadList st) (SetPoolHead (f <$> mPoolHead st) st)).

Definition EmptyLists : list (list Z) := replicate MAX_POOL_LIST [].

Definition CoreInitializePool : QM unit :=
  Change (SetPoolHead ((fun t => MkPool 0 (Z.of_nat t) EmptyLists) <$> seq 0 (Z.to_nat EfiMaxMemoryType))).

(** What the pool uses and does not own besides [PageEnvironment]: the heap guard
    for pools, and the notifications that run when releasing the pool lock lowers
    the task priority level. *)
Class PoolEnvironment := MkPoolEnvironment {
  DropPoolLock : QM unit;
  IsPoolTypeToGuard : Z -> bool;
  (** [gDxeMps.HeapGuardPolicy.Fields.Direction == HEAP_GUARD_ALIGNED_TO_TAIL] *)
  GuardAlignedToTail : bool;
  AdjustPoolHeadA : Z -> Z -> Z -> Z;
  AdjustPoolHeadF : Z -> Z -> Z -> Z;
  AdjustMemoryF : Z -> Z -> PM (Z * Z);
  UnsetGuardForMemory : Z -> Z -> PM unit }.

Section Pool.
Context {Env : PageEnvironment} {PEnv : PoolEnvironment}.

(** ** Locking *)

Definition CoreAcquirePoolLock : QM unit :=
  Held ← Get mPoolMemoryLock;
  Assert (negb Held) ;;
  Change (SetPoolLock true).

Definition CoreReleasePoolLock : QM unit :=
  Held ← Get mPoolMemoryLock;
  Assert Held ;;
  Change (SetPoolLock false) ;;
  DropPoolLock.

Definition ASSERT_POOL_LOCKED : QM unit :=
  Held ← Get mPoolMemoryLock;
  Assert Held.

(** ** Pages *)

Definition CoreAllocatePoolPagesI (PoolType NoPages Granularity : Z) (NeedGuard : bool) : PM Z :=
  Held ← Get gMemoryLock;
  if (Held : bool) then mret 0 else
  Change (SetMemoryLock true) ;;
  Buffer ← CoreAllocatePoolPages CoreFreeMemoryMapStack PoolType NoPages Granularity NeedGuard;
  CoreReleaseMemoryLock ;;
  (if negb (Buffer =? 0) then
     (if NeedGuard then SetGuardForMemory Buffer NoPages else mret tt) ;;
     ApplyMemoryProtectionPolicy EfiConventionalMemory PoolType Buffer (EFI_PAGES_TO_SIZE NoPages)
   else mret tt) ;;
  mret Buffer.

Definition CoreFreePoolPagesI (PoolType Memory_ NoPages : Z) : PM unit :=
  CoreAcquireMemoryLock ;;
  CoreFreePoolPages Memory_ NoPages ;;
  CoreReleaseMemoryLock ;;
  GuardFreedPagesChecked Memory_ NoPages ;;
  ApplyMemoryProtectionPolicy PoolType EfiConventionalMemory Memory_ (EFI_PAGES_TO_SIZE NoPages).

Definition CoreFreePoolPagesWithGuard (PoolType Memory_ NoPages : Z) : PM unit :=
  '(Adjusted, Pages_) ← AdjustMemoryF Memory_ NoPages;
  UnsetGuardForMemory Memory_ NoPages ;;
  if 0 <? Pages_ then CoreFreePoolPagesI PoolType Adjusted Pages_ else mret tt.

(** The number of pages for a size. *)
Definition PoolPages (Size Granularity : Z) : Z :=
  Z.land (sub64 (add64 (EFI_SIZE_TO_PAGES Size) (EFI_SIZE_TO_PAGES Granularity)) 1) (not64 (EFI_SIZE_TO_PAGES Granularity - 1)).

(** ** Allocation *)

(** [AllocateI] is CoreAllocatePoolI. *)
Definition LookupPoolHead (AllocateI : Z -> Z -> bool -> QM Z) (MemoryType : Z) : QM (option PoolRef) :=
  if MemoryType <? EfiMaxMemoryType then mret (Some (StaticPool (Z.to_nat MemoryType)))
  else if MEMORY_TYPE_OEM_RESERVED_MIN <=? MemoryType then
    Pools ← Get mPoolHeadList;
    match head (filter (fun x => PoolMemoryType x.2 = MemoryType) Pools) with
    | Some x => mret (Some (OemPool x.1))
    | None =>
      Pool ← AllocateI EfiBootServicesData sizeof_POOL false;
      if Pool =? 0 then mret None else
      Change (fun st => SetPoolHeadList ((Pool, MkPool 0 MemoryType EmptyLists) :: mPoolHeadList st) st) ;;
      mret (Some (OemPool Pool))
    end
  else mret None.

(** Fills in head and tail and returns the buffer. *)
Definition FinishBlock (Pool : PoolRef) (PoolType Size Head : Z) (HasPoolTail PageAsPool : bool) : QM Z :=
  ChangePool Pool (fun p => SetUsed (add64 (PoolUsed p) Size) p) ;;
  Store (Head + OFFSET_Signature) (if PageAsPool then POOLPAGE_HEAD_SIGNATURE else POOL_HEAD_SIGNATURE) ;;
  Store (Head + OFFSET_Size) Size ;;
  Store (Head + OFFSET_Type) PoolType ;;
  (if HasPoolTail then
     let Tail := sub64 (add64 Head Size) sizeof_POOL_TAIL in
     Store (Tail + OFFSET_TailSignature) POOL_TAIL_SIGNATURE ;;
     Store (Tail + OFFSET_TailSize) Size
   else mret tt) ;;
  mret (Head + SIZE_OF_POOL_HEAD).

(** The first list with a block among those with the given indices. *)
Fixpoint LargerLoop (Pool : PoolRef) (Indices : list nat) : QM (option (nat * Z)) :=
  match Indices with
  | [] => mret None
  | Index :: Indices =>
    l ← ReadFreeList Pool Index;
    match l with
    | [] => LargerLoop Pool Indices
    | Free :: _ =>
      Signature ← Load (Free + OFFSET_Signature);
      Assert (Signature =? POOL_FREE_SIGNATURE) ;;
      RemoveFree Free ;;
      mret (Some (Index, Free))
    end
  end.

(** As many free blocks of a size as fit; [fuel] is the number that fits. *)
Fixpoint SameSizeLoop (fuel : nat) (Pool : PoolRef) (NewPage FSize MaxOffset : Z) (Index : nat) (Offset : Z) : QM Z :=
  if Offset + FSize <=? MaxOffset then
    match fuel with
    | O => NoFuel
    | S fuel =>
      let Free := NewPage + Offset in
      Store (Free + OFFSET_Signature) POOL_FREE_SIGNATURE ;;
      Store (Free + OFFSET_Index) (Z.of_nat Index) ;;
      InsertFree Pool Index Free ;;
      SameSizeLoop fuel Pool NewPage FSize MaxOffset Index (Offset + FSize)
    end
  else mret Offset.

(** Carves up the rest of a block, with the sizes of [Index] and below. *)
Fixpoint CarveBlocks (Pool : PoolRef) (NewPage MaxOffset : Z) (Index : nat) (Offset : Z) : QM Z :=
  if Offset <? MaxOffset then
    Assert (bool_decide (Index < MAX_POOL_LIST)%nat) ;;
    FSize ← LIST_TO_SIZE Index;
    Offset ← SameSizeLoop (Z.to_nat ((MaxOffset - Offset) / FSize)) Pool NewPage FSize MaxOffset Index Offset;
    match Index with
    | O => Assert (negb (Offset <? MaxOffset)) ;; mret Offset
    | S Index => CarveBlocks Pool NewPage MaxOffset Index Offset
    end
  else mret Offset.

(** A block from the free lists, or from a new page; 0 if there is none. *)
Definition TakeBlock (Pool : PoolRef) (PoolType Granularity : Z) (NeedGuard : bool) (Index : nat) : QM Z :=
  l ← ReadFreeList Pool Index;
  match l with
  | Free :: _ =>
    Signature ← Load (Free + OFFSET_Signature);
    Assert (Signature =? POOL_FREE_SIGNATURE) ;;
    RemoveFree Free ;;
    mret Free
  | [] =>
    Offset ← LIST_TO_SIZE Index;
    let Last := GetPoolIndexFromSize Granularity in
    Found ← LargerLoop Pool (seq (S Index) (Last - S Index));
    '(NewPage, MaxOffset, Index) ←
      match Found with
      | Some (Index, Free) => MaxOffset ← LIST_TO_SIZE Index; mret (Free, MaxOffset, Index)
      | None =>
        NewPage ← OnPages (CoreAllocatePoolPagesI PoolType (EFI_SIZE_TO_PAGES Granularity) Granularity NeedGuard);
        mret (NewPage, Granularity, Last)
      end;
    if NewPage =? 0 then mret 0 else
    Offset ← CarveBlocks Pool NewPage MaxOffset (pred Index) Offset;
    Assert (Offset =? MaxOffset) ;;
    mret NewPage
  end.

(** The allocation once the pool is known. *)
Definition AllocateFrom (Pool : PoolRef) (PoolType Size Granularity : Z) (NeedGuard HasPoolTail PageAsPool : bool) : QM Z :=
  let Index := GetPoolIndexFromSize Size in
  if bool_decide (GetPoolIndexFromSize Granularity <= Index)%nat || NeedGuard || PageAsPool then
    let Size := if negb HasPoolTail then sub64 Size sizeof_POOL_TAIL else Size in
    let NoPages := PoolPages Size Granularity in
    Head ← OnPages (CoreAllocatePoolPagesI PoolType NoPages Granularity NeedGuard);
    if Head =? 0 then mret 0 else
    let Head := if NeedGuard then AdjustPoolHeadA Head NoPages Size else Head in
    FinishBlock Pool PoolType Size Head HasPoolTail PageAsPool
  else
    Head ← TakeBlock Pool PoolType Granularity NeedGuard Index;
    if Head =? 0 then mret 0 else
    FinishBlock Pool PoolType Size Head HasPoolTail PageAsPool.

Definition AllocatePoolBody (AllocateI : Z -> Z -> bool -> QM Z) (PoolType Size : Z) (NeedGuard : bool) : QM Z :=
  ASSERT_POOL_LOCKED ;;
  let Granularity := GranularityOf PoolType in
  let NeedGuard := if negb (Granularity =? EFI_PAGE_SIZE) then false else NeedGuard in
  let HasPoolTail := negb (NeedGuard && GuardAlignedToTail) in
  let PageAsPool := FreedMemoryGuard && negb mOnGuarding in
  let Size := add64 (ALIGN_VARIABLE Size) POOL_OVERHEAD in
  Found ← LookupPoolHead AllocateI PoolType;
  match Found with
  | None => mret 0
  | Some Pool => AllocateFrom Pool PoolType Size Granularity NeedGuard HasPoolTail PageAsPool
  end.

Definition CoreAllocatePoolI : Z -> Z -> bool -> QM Z := AllocatePoolBody (AllocatePoolBody (fun _ _ _ => NoFuel)).

Definition CoreInternalAllocatePool (PoolType Size : Z) (Buffer : option Z) : QM (EFI_STATUS * option Z) :=
  if InvalidAllocationType PoolType then mret (EFI_INVALID_PARAMETER, Buffer) else
  match Buffer with
  | None => mret (EFI_INVALID_PARAMETER, None)
  | Some _ =>
    if MAX_POOL_SIZE <? Size then mret (EFI_OUT_OF_RESOURCES, Some 0) else
    let NeedGuard := IsPoolTypeToGuard PoolType && negb mOnGuarding in
    Held ← Get mPoolMemoryLock;
    if (Held : bool) then mret (EFI_OUT_OF_RESOURCES, Some 0) else
    Change (SetPoolLock true) ;;
    Allocated ← CoreAllocatePoolI PoolType Size NeedGuard;
    CoreReleasePoolLock ;;
    mret (if negb (Allocated =? 0) then EFI_SUCCESS else EFI_OUT_OF_RESOURCES, Some Allocated)
  end.

Definition CoreAllocatePool (PoolType Size : Z) (Buffer : option Z) : QM (EFI_STATUS * option Z) :=
  '(Status, Buffer) ← CoreInternalAllocatePool PoolType Size Buffer;
  (if negb (EFI_ERROR Status) then
     OnPages (CoreUpdateProfile PoolType Size (default 0 Buffer)) ;;
     OnPages (InstallMemoryAttributesTableOnMemoryAllocation PoolType)
   else mret tt) ;;
  mret (Status, Buffer).

(** ** Freeing *)

(** Whether all blocks of a page are free, from an offset on. *)
Fixpoint AllFreeLoop (fuel : nat) (NewPage Granularity Offset : Z) : QM bool :=
  if Offset <? Granularity then
    match fuel with
    | O => NoFuel
    | S fuel =>
      Signature ← Load (NewPage + Offset + OFFSET_Signature);
      Index ← Load (NewPage + Offset + OFFSET_Index);
      FSize ← LIST_TO_SIZE (Z.to_nat Index);
      if negb (Signature =? POOL_FREE_SIGNATURE) then mret false
      else AllFreeLoop fuel NewPage Granularity (Offset + FSize)
    end
  else mret true.

Fixpoint RemoveLoop (fuel : nat) (NewPage Granularity Offset : Z) : QM unit :=
  if Offset <? Granularity then
    match fuel with
    | O => NoFuel
    | S fuel =>
      RemoveFree (NewPage + Offset) ;;
      Index ← Load (NewPage + Offset + OFFSET_Index);
      FSize ← LIST_TO_SIZE (Z.to_nat Index);
      RemoveLoop fuel NewPage Granularity (Offset + FSize)
    end
  else mret tt.

(** The smallest block has 128 bytes. *)
Definition WalkFuel (Granularity : Z) : nat := Z.to_nat (Granularity / 128).

(** Puts a block on its free list, and returns its page if all of it is free. *)
Definition ReturnBlock (Pool : PoolRef) (Granularity Head : Z) (Index : nat) : QM unit :=
  Store (Head + OFFSET_Signature) POOL_FREE_SIGNATURE ;;
  Store (Head + OFFSET_Index) (Z.of_nat Index) ;;
  InsertFree Pool Index Head ;;
  let NewPage := Z.land Head (not64 (Granularity - 1)) in
  Signature ← Load (NewPage + OFFSET_Signature);
  if Signature =? POOL_FREE_SIGNATURE then
    AllFree ← AllFreeLoop (WalkFuel Granularity) NewPage Granularity 0;
    if (AllFree : bool) then
      RemoveLoop (WalkFuel Granularity) NewPage Granularity 0 ;;
      p ← ReadPool Pool;
      OnPages (CoreFreePoolPagesI (PoolMemoryType p) NewPage (EFI_SIZE_TO_PAGES Granularity))
    else mret tt
  else mret tt.

(** Gives a block with its size back to the pool, or its pages. *)
Definition FreeTo (Pool : PoolRef) (Type_ Size Head : Z) (IsGuarded PageAsPool : bool) : QM unit :=
  ChangePool Pool (fun p => SetUsed (sub64 (PoolUsed p) Size) p) ;;
  let Granularity := GranularityOf Type_ in
  let Index := GetPoolIndexFromSize Size in
  p ← ReadPool Pool;
  if bool_decide (GetPoolIndexFromSize Granularity <= Index)%nat || IsGuarded || PageAsPool then
    let NoPages := PoolPages Size Granularity in
    if IsGuarded
    then OnPages (CoreFreePoolPagesWithGuard (PoolMemoryType p) (AdjustPoolHeadF Head NoPages Size) NoPages)
    else OnPages (CoreFreePoolPagesI (PoolMemoryType p) Head NoPages)
  else ReturnBlock Pool Granularity Head Index.

(** Frees the POOL of an OEM or OS type when nothing of the type is in use. *)
Definition ReleasePool (FreeI : Z -> QM (EFI_STATUS * Z)) (Pool : PoolRef) : QM unit :=
  p ← ReadPool Pool;
  if (MEMORY_TYPE_OEM_RESERVED_MIN <=? PoolMemoryType p) && (PoolUsed p =? 0) then
    match Pool with
    | StaticPool _ => Stop
    | OemPool a =>
      Change (fun st => SetPoolHeadList (filter (fun x => x.1 ≠ a) (mPoolHeadList st)) st) ;;
      FreeI a ;;
      mret tt
    end
  else mret tt.

(** [FreeI] is CoreFreePoolI; the result is the status and [*PoolType]. *)
Definition FreePoolBody (FreeI : Z -> QM (EFI_STATUS * Z)) (Buffer : Z) : QM (EFI_STATUS * Z) :=
  Assert (negb (Buffer =? 0)) ;;
  let Head := sub64 Buffer SIZE_OF_POOL_HEAD in
  Assert (negb (Head =? 0)) ;;
  Signature ← Load (Head + OFFSET_Signature);
  Assert ((Signature =? POOL_HEAD_SIGNATURE) || (Signature =? POOLPAGE_HEAD_SIGNATURE)) ;;
  Type_ ← Load (Head + OFFSET_Type);
  IsGuarded ← (if IsPoolTypeToGuard Type_ then OnPages (IsMemoryGuarded Head) else mret false);
  let HasPoolTail := negb (IsGuarded && GuardAlignedToTail) in
  let PageAsPool := Signature =? POOLPAGE_HEAD_SIGNATURE in
  Size ← Load (Head + OFFSET_Size);
  (if HasPoolTail then
     let Tail := sub64 (add64 Head Size) sizeof_POOL_TAIL in
     TailSignature ← Load (Tail + OFFSET_TailSignature);
     Assert (TailSignature =? POOL_TAIL_SIGNATURE) ;;
     TailSize ← Load (Tail + OFFSET_TailSize);
     Assert (Size =? TailSize)
   else mret tt) ;;
  ASSERT_POOL_LOCKED ;;
  Found ← LookupPoolHead CoreAllocatePoolI Type_;
  match Found with
  | None => mret (EFI_INVALID_PARAMETER, 0)
  | Some Pool =>
    FreeTo Pool Type_ Size Head IsGuarded PageAsPool ;;
    ReleasePool FreeI Pool ;;
    mret (EFI_SUCCESS, Type_)
  end.

Definition CoreFreePoolI : Z -> QM (EFI_STATUS * Z) := FreePoolBody (FreePoolBody (fun _ => NoFuel)).

Definition CoreInternalFreePool (Buffer : Z) : QM (EFI_STATUS * Z) :=
  if Buffer =? 0 then mret (EFI_INVALID_PARAMETER, 0) else
  CoreAcquirePoolLock ;;
  Result ← CoreFreePoolI Buffer;
  CoreReleasePoolLock ;;
  mret Result.

Definition CoreFreePool (Buffer : Z) : QM EFI_STATUS :=
  '(Status, PoolType) ← CoreInternalFreePool Buffer;
  (if negb (EFI_ERROR Status) then
     OnPages (CoreUpdateProfile PoolType 0 Buffer) ;;
     OnPages (InstallMemoryAttributesTableOnMemoryAllocation PoolType)
   else mret tt) ;;
  mret Status.

End Pool.
