(* ===== verification/PoolLayout.v ===== *)
(** * The pool: layouts

    A layout lists the chunks of memory that the pool has taken from the page
    allocator, each with its type and with the blocks that it is cut into, in
    order.  [PoolInv] relates the state of the pool to a layout: the free lists,
    the counts, and the words of memory at the ends of each block. *)
From Stdlib Require Import ZArith Lia.
From stdpp Require Import base option list.
From S2P Require Import Prelude StateMonad Gcd MemoryBin Page PageMap PageOps PageInv PageSteps PageServices Pool.

(** ** Sizes *)

(** The number of lists for parts of a page. *)
Definition SmallLists : nat := 7.

Definition tsize (i : nat) : Z := nth i mPoolSizeTable 0.

Lemma page_index : GetPoolIndexFromSize 4096 = SmallLists.
Proof. done. Qed.

Lemma tsize_small i : (i < SmallLists)%nat -> 128 <= tsize i <= 2688 /\ tsize i mod 128 = 0.
Proof. intros Hi. unfold SmallLists in Hi. do 7 (destruct i as [|i]; [unfold tsize; simpl; split; [lia|done]|]). lia. Qed.

Lemma tsize_lookup i : (i < MAX_POOL_LIST)%nat -> mPoolSizeTable !! i = Some (tsize i).
Proof. intros Hi. unfold MAX_POOL_LIST in Hi. do 12 (destruct i as [|i]; [done|]). lia. Qed.

Lemma tsize_mono i j : (i < j < SmallLists)%nat -> tsize i < tsize j.
Proof.
  intros Hj. unfold SmallLists in Hj. do 7 (destruct j as [|j]; [do 6 (destruct i as [|i]; [unfold tsize; simpl; lia|]); lia|]). lia.
Qed.

(** The list of a size holds blocks that are large enough. *)
Lemma index_size s i : GetPoolIndexFromSize s = i -> (i < SmallLists)%nat -> s <= tsize i.
Proof.
  unfold GetPoolIndexFromSize, SmallLists. simpl.
  repeat match goal with |- context [s <=? ?x] => destruct (Z.leb_spec s x) end; intros <- ?; unfold tsize; simpl; lia.
Qed.

Lemma index_large s : (SmallLists <= GetPoolIndexFromSize s)%nat -> 2688 < s.
Proof.
  intros H. destruct (Z.lt_ge_cases 2688 s) as [?|Hs]; [done|]. exfalso. revert H. unfold GetPoolIndexFromSize, SmallLists. simpl.
  repeat match goal with |- context [s <=? ?x] => destruct (Z.leb_spec s x) end; lia.
Qed.

(** ** Blocks and chunks *)

(** A block with the index of its list and its size including head and tail if
    it is in use. *)
Record Block := MkBlock {
  bIndex : nat;
  bUse : option Z }.

Definition small (b : Block) : bool := bool_decide (bIndex b < SmallLists)%nat.

(** Memory for which there is no list consists of whole pages. *)
Definition span (b : Block) : Z :=
  if small b then tsize (bIndex b) else match bUse b with Some s => 4096 * ((s + 4095) / 4096) | None => 0 end.

Definition BlockOk (b : Block) : Prop :=
  match bUse b with
  | Some s => 40 <= s <= span b /\ s mod 8 = 0 /\ GetPoolIndexFromSize s = bIndex b
  | None => small b = true
  end.

Record Chunk := MkChunk {
  cBase : Z;
  cType : Z;
  cBlocks : list Block }.

Fixpoint spans (l : list Block) : Z := match l with [] => 0 | b :: l => span b + spans l end.
Definition cEnd (c : Chunk) : Z := cBase c + spans (cBlocks c).

(** A page in parts, or pages as a whole. *)
Record ChunkOk (c : Chunk) : Prop := {
  chunk_base : PageAligned (cBase c) /\ 0 < cBase c;
  chunk_blocks : Forall BlockOk (cBlocks c);
  chunk_kind : spans (cBlocks c) = 4096 /\ Forall (fun b => small b = true) (cBlocks c) \/
    exists b, cBlocks c = [b] /\ small b = false }.

(** Not all of it is free. *)
Definition InUse (c : Chunk) : Prop := Exists (fun b => is_Some (bUse b)) (cBlocks c).

Fixpoint place (a : Z) (l : list Block) : list (Z * Block) :=
  match l with [] => [] | b :: l => (a, b) :: place (a + span b) l end.

Definition placed (c : Chunk) : list (Z * Block) := place (cBase c) (cBlocks c).

Lemma spans_app l1 l2 : spans (l1 ++ l2) = spans l1 + spans l2.
Proof. induction l1 as [|b l1 IH]; simpl; lia. Qed.

Lemma place_app a l1 l2 : place a (l1 ++ l2) = place a l1 ++ place (a + spans l1) l2.
Proof. revert a. induction l1 as [|b l1 IH]; intros a; simpl; [by rewrite Z.add_0_r|]. by rewrite IH, Z.add_assoc. Qed.

Lemma BlockOk_span b : BlockOk b -> 40 <= span b.
Proof.
  unfold BlockOk. destruct (bUse b) as [s|]; [lia|]. intros Hs. unfold span. rewrite Hs. apply bool_decide_eq_true in Hs.
  pose proof (tsize_small _ Hs). lia.
Qed.

Lemma spans_nonneg l : Forall BlockOk l -> 0 <= spans l.
Proof. induction 1 as [|b l Hb _ IH]; simpl; [done|]. pose proof (BlockOk_span b Hb). lia. Qed.

(** Where a block lies, and that other blocks of the chunk are elsewhere. *)
Lemma place_split a l x b : (x, b) ∈ place a l -> exists l1 l2, l = l1 ++ b :: l2 /\ x = a + spans l1.
Proof.
  revert a. induction l as [|c l IH]; intros a; simpl; [by intros ?%elem_of_nil|]. intros [[= -> ->]|H]%elem_of_cons.
  - exists [], l. split; [done|simpl; lia].
  - destruct (IH _ H) as (l1 & l2 & -> & ->). exists (c :: l1), l2. split; [done|simpl; lia].
Qed.

Lemma place_bounds a l x b : Forall BlockOk l -> (x, b) ∈ place a l -> BlockOk b /\ a <= x /\ x + span b <= a + spans l.
Proof.
  intros HF (l1 & l2 & -> & ->)%place_split. apply Forall_app in HF as [H1 [Hb H2]%Forall_cons]. rewrite spans_app. simpl.
  pose proof (spans_nonneg _ H1). pose proof (spans_nonneg _ H2). split; [done|lia].
Qed.

(** ** Layouts *)

Definition entry : Type := Z * Z * Block.
Definition entries_of (c : Chunk) : list entry := (fun x => (cType c, x.1, x.2)) <$> placed c.
Definition entries (G : list Chunk) : list entry := G ≫= entries_of.

#[export] Instance entries_proper : Proper ((≡ₚ) ==> (≡ₚ)) entries.
Proof. intros G G' HG. unfold entries. by rewrite HG. Qed.

Lemma entries_cons c G : entries (c :: G) = entries_of c ++ entries G.
Proof. done. Qed.

Lemma elem_entries t a b G : (t, a, b) ∈ entries G <-> exists c, c ∈ G /\ cType c = t /\ (a, b) ∈ placed c.
Proof.
  unfold entries, entries_of. rewrite list_elem_of_bind. setoid_rewrite list_elem_of_fmap. split.
  - intros (c & ([a' b'] & E & Hp) & Hc). simplify_eq/=. eauto.
  - intros (c & Hc & <- & Hp). exists c. split; [|done]. by exists (a, b).
Qed.

Definition in_chunk (a : Z) (c : Chunk) : Prop := cBase c <= a < cEnd c.
#[export] Instance in_chunk_dec a c : Decision (in_chunk a c).
Proof. unfold in_chunk. apply _. Defined.

(** No two chunks overlap. *)
Definition Disjoint (G : list Chunk) : Prop := forall a, (length (filter (in_chunk a) G) <= 1)%nat.

#[export] Instance Disjoint_proper : Proper ((≡ₚ) ==> iff) Disjoint.
Proof. intros G G' HG. unfold Disjoint. by setoid_rewrite HG. Qed.

Lemma Disjoint_cons c G : Disjoint (c :: G) <-> Disjoint G /\ forall c' a, c' ∈ G -> in_chunk a c -> ~ in_chunk a c'.
Proof.
  unfold Disjoint. split.
  - intros H. split.
    + intros a. specialize (H a). rewrite filter_cons in H. case_decide; simpl in H; lia.
    + intros c' a Hc Ha Ha'. specialize (H a). rewrite filter_cons_True in H by done. simpl in H.
      assert (c' ∈ filter (in_chunk a) G) as Hf by (by apply list_elem_of_filter). destruct (filter _ G); [by apply elem_of_nil in Hf|simpl in H; lia].
  - intros [H1 H2] a. rewrite filter_cons. case_decide as Ha; [|apply H1]. rewrite filter_none; [done|]. intros c' Hc'. by apply H2.
Qed.

(** The addresses of the free blocks of a type and an index, and the bytes in use. *)
Definition free_entry (t : Z) (i : nat) (e : entry) : option Z :=
  if bool_decide (e.1.1 = t /\ bIndex e.2 = i /\ bUse e.2 = None) then Some e.1.2 else None.
Definition frees (t : Z) (i : nat) (l : list entry) : list Z := omap (free_entry t i) l.
Arguments frees : simpl never.

Definition used_entry (t : Z) (e : entry) : Z := if e.1.1 =? t then default 0 (bUse e.2) else 0.
Fixpoint used (t : Z) (l : list entry) : Z := match l with [] => 0 | e :: l => used_entry t e + used t l end.

#[export] Instance frees_proper t i : Proper ((≡ₚ) ==> (≡ₚ)) (frees t i).
Proof. intros l l' Hl. unfold frees. by rewrite Hl. Qed.

#[export] Instance used_proper t : Proper ((≡ₚ) ==> eq) (used t).
Proof. induction 1; simpl; lia. Qed.

Lemma frees_app t i l1 l2 : frees t i (l1 ++ l2) = frees t i l1 ++ frees t i l2.
Proof. apply omap_app. Qed.

Lemma used_app t l1 l2 : used t (l1 ++ l2) = used t l1 + used t l2.
Proof. induction l1 as [|e l1 IH]; simpl; lia. Qed.

Lemma elem_frees t i a l : a ∈ frees t i l <-> exists b, (t, a, b) ∈ l /\ bIndex b = i /\ bUse b = None.
Proof.
  unfold frees. rewrite list_elem_of_omap. unfold free_entry. split.
  - intros ([[t' a'] b] & Hl & E). case_bool_decide as Hb; simpl in *; [|done]. destruct Hb as (-> & ? & ?). simplify_eq. eauto.
  - intros (b & Hl & ? & ?). exists (t, a, b). split; [done|]. by rewrite bool_decide_true.
Qed.

(** ** Memory *)

(** The words that belong to a block; those of the first block of a chunk need
    not have a meaningful index. *)
Definition Cells (M : Z -> Z) (first : bool) (t a : Z) (b : Block) : Prop :=
  match bUse b with
  | None => M (a + OFFSET_Signature) = POOL_FREE_SIGNATURE /\ M (a + OFFSET_Index) = Z.of_nat (bIndex b)
  | Some s =>
    M (a + OFFSET_Signature) = POOL_HEAD_SIGNATURE /\ M (a + OFFSET_Type) = t /\ M (a + OFFSET_Size) = s /\
    M (a + s - sizeof_POOL_TAIL + OFFSET_TailSignature) = POOL_TAIL_SIGNATURE /\ M (a + s - sizeof_POOL_TAIL + OFFSET_TailSize) = s /\
    (first = false -> 0 <= M (a + OFFSET_Index) < Z.of_nat MAX_POOL_LIST)
  end.

(** Only memory of the block matters. *)
Lemma Cells_local M M' f t a b : BlockOk b -> (forall x, a <= x < a + span b -> M' x = M x) -> Cells M f t a b -> Cells M' f t a b.
Proof.
  intros HB HM. pose proof (BlockOk_span b HB) as Hs. unfold BlockOk in HB. unfold Cells, OFFSET_Signature, OFFSET_Index, OFFSET_Type, OFFSET_Size,
    sizeof_POOL_TAIL, OFFSET_TailSignature, OFFSET_TailSize. destruct (bUse b) as [s|]; rewrite !HM by lia; done.
Qed.

Definition ChunkCells (M : Z -> Z) (c : Chunk) : Prop :=
  forall a b, (a, b) ∈ placed c -> Cells M (a =? cBase c) (cType c) a b.

Lemma ChunkCells_local M M' c : ChunkOk c -> (forall x, in_chunk x c -> M' x = M x) -> ChunkCells M c -> ChunkCells M' c.
Proof.
  intros HC HM H a b Hp. destruct (place_bounds _ _ _ _ (chunk_blocks _ HC) Hp) as (HB & ? & ?).
  apply (Cells_local M); [done| |by apply H]. intros x Hx. apply HM. unfold in_chunk, cEnd. lia.
Qed.
