(* ===== verification/PoolRules.v ===== *)
(** * The pool: the invariant, and the steps that change lists

    [PoolInv] relates a state to a layout.  The changes of free lists and counts
    are described by what [FindPool] finds; everything else that the pool keeps
    ([frame]) stays the same.  [wp] is the logic for programs with calls of the
    page allocator. *)
From Stdlib Require Import ZArith Lia.
From stdpp Require Import base option list.
From S2P Require Import Prelude StateMonad Gcd MemoryBin Page PageMap PageOps PageInv PageFind PageStack PageSteps PageTotal PageServices Pool PoolLayout.

(** ** Weakest preconditions *)

(** [Stop] is what is known if a run does not return. *)
Definition wp {S A} (Stopped : Prop) (m : SM S A) (st : S) (Q : A -> S -> Prop) : Prop :=
  match m st with Done (a, st') => Q a st' | _ => Stopped end.

Lemma wp_bind {S A B} P (m : SM S A) (f : A -> SM S B) st Q : wp P m st (fun a st' => wp P (f a) st' Q) -> wp P (m ≫= f) st Q.
Proof. unfold wp, mbind, SM_bind. by destruct (m st) as [[a st']| |]. Qed.

Lemma wp_run {S A B} P (m : SM S A) (f : A -> SM S B) st a st' Q : m st = Done (a, st') -> wp P (f a) st' Q -> wp P (m ≫= f) st Q.
Proof. intros E H. unfold wp. by rewrite (SM_bind_run _ _ _ _ _ E). Qed.

Lemma wp_ret {S A} P (a : A) (st : S) (Q : A -> S -> Prop) : Q a st -> wp P (mret a) st Q.
Proof. done. Qed.

Lemma wp_mono {S A} P (m : SM S A) st (Q Q' : A -> S -> Prop) : (forall a st', Q a st' -> Q' a st') -> wp P m st Q -> wp P m st Q'.
Proof. intros HQ. unfold wp. destruct (m st) as [[a st']| |]; [apply HQ|done|done]. Qed.

Lemma wp_Done {S A} P (m : SM S A) st a st' (Q : A -> S -> Prop) : m st = Done (a, st') -> Q a st' -> wp P m st Q.
Proof. unfold wp. by intros ->. Qed.

Lemma wp_elim {S A} P (m : SM S A) st a st' (Q : A -> S -> Prop) : wp P m st Q -> m st = Done (a, st') -> Q a st'.
Proof. unfold wp. intros H E. by rewrite E in H. Qed.

Lemma wp_OnPages {A} P (m : PM A) st (Q : A -> PoolState -> Prop) :
  wp P m (Pages st) (fun a pst => Q a (SetPagesState pst st)) -> wp P (OnPages m) st Q.
Proof. unfold wp, OnPages, Within. by destruct (m (Pages st)) as [[a pst]| |]. Qed.

(** ** Pools *)

(** What no change of a free list or a count touches. *)
Definition oem_ids (st : PoolState) : list (Z * Z) := (fun x => (x.1, PoolMemoryType x.2)) <$> mPoolHeadList st.
Definition frame (st : PoolState) : PageState * bool * list Z * list (Z * Z) :=
  (Pages st, mPoolMemoryLock st, PoolMemoryType <$> mPoolHead st, oem_ids st).

Definition KeepsType (f : POOL -> POOL) : Prop := forall p, PoolMemoryType (f p) = PoolMemoryType p.

#[export] Instance PoolRef_eq_dec : EqDecision PoolRef.
Proof. solve_decision. Defined.

Definition changed (r : PoolRef) (f : POOL -> POOL) (st : PoolState) : PoolState :=
  match r with
  | StaticPool t => SetPoolHead (alter f t (mPoolHead st)) st
  | OemPool p => SetPoolHeadList ((fun x => if x.1 =? p then (x.1, f x.2) else x) <$> mPoolHeadList st) st
  end.

Lemma ChangePool_run r f st : ChangePool r f st = Done (tt, changed r f st).
Proof. by destruct r. Qed.

Lemma changed_find_eq r f st : FindPool r (changed r f st) = f <$> FindPool r st.
Proof.
  destruct r as [t|p]; simpl; [by rewrite list_lookup_alter_eq|].
  induction (mPoolHeadList st) as [|[q v] L IH]; [done|]. rewrite fmap_cons. cbn [fst snd].
  destruct (Z.eqb_spec q p) as [->|Hq]; [by rewrite !filter_cons_True|]. by rewrite !filter_cons_False.
Qed.

Lemma changed_find_ne r f st r' : r' <> r -> FindPool r' (changed r f st) = FindPool r' st.
Proof.
  intros Hn. destruct r as [t|p], r' as [t'|p']; simpl; [rewrite list_lookup_alter_ne by congruence; done|done|done|].
  induction (mPoolHeadList st) as [|[q v] L IH]; [done|]. rewrite fmap_cons. cbn [fst snd].
  destruct (decide (q = p')) as [->|Hq]; [|destruct (q =? p); rewrite !filter_cons_False by done; apply IH].
  destruct (Z.eqb_spec p' p) as [->|_]; [done|]. by rewrite !filter_cons_True.
Qed.

Lemma changed_frame r f st : KeepsType f -> frame (changed r f st) = frame st /\ Memory (changed r f st) = Memory st.
Proof.
  intros Hf. destruct r as [t|p]; (split; [|done]).
  - unfold frame. simpl. assert (PoolMemoryType <$> alter f t (mPoolHead st) = PoolMemoryType <$> mPoolHead st) as ->; [|done].
    apply list_eq. intros i. rewrite !list_lookup_fmap. destruct (decide (i = t)) as [->|Hi]; [|by rewrite list_lookup_alter_ne].
    rewrite list_lookup_alter_eq. destruct (mPoolHead st !! t); simpl; [by rewrite Hf|done].
  - unfold frame. f_equal. unfold oem_ids. simpl. rewrite <- list_fmap_compose. apply list_fmap_ext. intros i [q v] _. simpl.
    destruct (_ =? _); simpl; [by rewrite Hf|done].
Qed.

(** The state after RemoveFree. *)
Definition unlisted (a : Z) (p : POOL) : POOL := SetFreeLists (Without a <$> FreeList p) p.
Definition removed (a : Z) (st : PoolState) : PoolState :=
  SetPoolHeadList ((fun x => (x.1, unlisted a x.2)) <$> mPoolHeadList st) (SetPoolHead (unlisted a <$> mPoolHead st) st).

Lemma RemoveFree_run a st : RemoveFree a st = Done (tt, removed a st).
Proof. done. Qed.

Lemma removed_find a st r : FindPool r (removed a st) = unlisted a <$> FindPool r st.
Proof.
  destruct r as [t|p]; simpl; [by rewrite list_lookup_fmap|]. induction (mPoolHeadList st) as [|[q v] L IH]; [done|].
  rewrite fmap_cons, !filter_cons. simpl. case_decide; [done|apply IH].
Qed.

Lemma removed_frame a st : frame (removed a st) = frame st /\ Memory (removed a st) = Memory st.
Proof. split; [|done]. unfold frame, oem_ids. simpl. by rewrite <- !list_fmap_compose. Qed.

(** The state after Store. *)
Definition stored (a v : Z) (st : PoolState) : PoolState := SetMemory (fun x => if x =? a then v else Memory st x) st.

Lemma Store_run a v st : Store a v st = Done (tt, stored a v st).
Proof. done. Qed.

Lemma ReadPool_run r st p : FindPool r st = Some p -> ReadPool r st = Done (p, st).
Proof. unfold ReadPool. by intros ->. Qed.

Lemma ReadFreeList_run r i st p l : FindPool r st = Some p -> FreeList p !! i = Some l -> ReadFreeList r i st = Done (l, st).
Proof. intros Hp Hl. unfold ReadFreeList. rewrite (SM_bind_run _ _ _ _ _ (ReadPool_run _ _ _ Hp)). by rewrite Hl. Qed.

Lemma LIST_TO_SIZE_run i st : (i < MAX_POOL_LIST)%nat -> LIST_TO_SIZE i st = Done (tsize i, st).
Proof. intros Hi. unfold LIST_TO_SIZE. by rewrite tsize_lookup. Qed.

(** ** The invariant *)

(** The free lists and the count of a pool agree with a list of entries. *)
Record PoolOk (E : list entry) (p : POOL) : Prop := {
  pool_lists : length (FreeList p) = MAX_POOL_LIST;
  pool_free : forall i l, FreeList p !! i = Some l -> l ≡ₚ frees (PoolMemoryType p) i E;
  pool_used : PoolUsed p = u64 (used (PoolMemoryType p) E) }.

#[export] Instance PoolOk_proper : Proper ((≡ₚ) ==> eq ==> iff) PoolOk.
Proof.
  assert (forall E E' p, E ≡ₚ E' -> PoolOk E p -> PoolOk E' p) as H.
  { intros E E' p HE [H1 H2 H3]. split; [done|intros i l Hl; rewrite <- HE; by apply H2|by rewrite <- HE]. }
  intros E E' HE p ? <-. split; apply H; [done|by symmetry].
Qed.

Definition PoolsOk (E : list entry) (st : PoolState) : Prop := forall r p, FindPool r st = Some p -> PoolOk E p.

#[export] Instance PoolsOk_proper : Proper ((≡ₚ) ==> eq ==> iff) PoolsOk.
Proof. intros E E' HE st ? <-. unfold PoolsOk. split; intros H r p Hr; [rewrite <- HE|rewrite HE]; by apply (H r). Qed.

(** The words of memory of all entries but those that are left out. *)
Definition CellsOk (out : Z -> Prop) (G : list Chunk) (M : Z -> Z) : Prop :=
  forall c a b, c ∈ G -> (a, b) ∈ placed c -> ~ out a -> Cells M (a =? cBase c) (cType c) a b.

(** What holds of a layout and the parts of the state in [frame]. *)
Record Shape (G : list Chunk) (st : PoolState) : Prop := {
  shape_chunks : Forall ChunkOk G;
  shape_disjoint : Disjoint G;
  shape_owned : forall c, c ∈ G -> Owned (Pages st) (cBase c) (cEnd c - 1) /\ exists x, Uniform (Pages st) (cBase c) (cEnd c - 1) (cType c, x);
  shape_idle : PageInv (Pages st);
  shape_static : PoolMemoryType <$> mPoolHead st = Z.of_nat <$> seq 0 16;
  shape_oem : NoDup (oem_ids st).*1 /\ NoDup (oem_ids st).*2 /\ Forall (fun t => MEMORY_TYPE_OEM_RESERVED_MIN <= t) (oem_ids st).*2;
  shape_types : forall c, c ∈ G -> 0 <= cType c < EfiMaxMemoryType \/ cType c ∈ (oem_ids st).*2;
  shape_structs : forall a, a ∈ (oem_ids st).*1 -> exists b, (EfiBootServicesData, a - SIZE_OF_POOL_HEAD, b) ∈ entries G /\ bUse b = Some 272 }.

Record PoolInv (G : list Chunk) (st : PoolState) : Prop := {
  inv_shape : Shape G st;
  inv_use : Forall InUse G;
  inv_cells : CellsOk (fun _ => False) G (Memory st);
  inv_pools : PoolsOk (entries G) st }.

Lemma Shape_frame G st st' : frame st' = frame st -> Shape G st -> Shape G st'.
Proof.
  unfold frame. intros E [H1 H2 H3 H4 H5 H6 H7 H8]. assert (Pages st' = Pages st) as EP by congruence.
  assert (oem_ids st' = oem_ids st) as EO by congruence. assert (PoolMemoryType <$> mPoolHead st' = PoolMemoryType <$> mPoolHead st) as ES by congruence.
  split; [done|done|by rewrite EP|by rewrite EP|by rewrite ES|by rewrite EO|by rewrite EO|by rewrite EO].
Qed.

#[export] Instance Shape_proper : Proper ((≡ₚ) ==> eq ==> iff) Shape.
Proof.
  assert (forall G G' st, G ≡ₚ G' -> Shape G st -> Shape G' st) as H.
  { intros G G' st HG [? ? ? ? ? ? ? ?].
    split; [by rewrite <- HG|by rewrite <- HG|by setoid_rewrite <- HG|done|done|done|by setoid_rewrite <- HG|by setoid_rewrite <- HG]. }
  intros G G' HG st ? <-. split; apply H; [done|by symmetry].
Qed.

#[export] Instance CellsOk_proper out : Proper ((≡ₚ) ==> eq ==> iff) (CellsOk out).
Proof. intros G G' HG M ? <-. unfold CellsOk. split; intros H c a b Hc; apply H; [by rewrite HG|by rewrite <- HG]. Qed.

#[export] Instance PoolInv_proper : Proper ((≡ₚ) ==> eq ==> iff) PoolInv.
Proof.
  assert (forall G G' st, G ≡ₚ G' -> PoolInv G st -> PoolInv G' st) as H by (intros G G' st HG [? ? ? ?]; split; by rewrite <- HG).
  intros G G' HG st ? <-. split; apply H; [done|by symmetry].
Qed.

(** ** Blocks do not overlap *)

Lemma placed_in c a b : ChunkOk c -> (a, b) ∈ placed c -> BlockOk b /\ cBase c <= a /\ a + span b <= cEnd c.
Proof. intros HC Hp. by destruct (place_bounds _ _ _ _ (chunk_blocks _ HC) Hp). Qed.

Lemma place_apart l : forall a x b y b', Forall BlockOk l -> (x, b) ∈ place a l -> (y, b') ∈ place a l -> x = y /\ b = b' \/ x + span b <= y \/ y + span b' <= x.
Proof.
  induction l as [|k l IH]; intros a x b y b' HF Hx Hy; [by apply elem_of_nil in Hx|]. apply Forall_cons in HF as [Hk HF]. simpl in Hx, Hy.
  apply elem_of_cons in Hx as [[= -> ->]|Hx]; apply elem_of_cons in Hy as [[= -> ->]|Hy].
  - by left.
  - destruct (place_bounds _ _ _ _ HF Hy) as (_ & ? & _). right. left. lia.
  - destruct (place_bounds _ _ _ _ HF Hx) as (_ & ? & _). right. right. lia.
  - by apply (IH (a + span k)).
Qed.

(** Two blocks of a layout are the same or apart. *)
Lemma blocks_apart G st c c' a b a' b' : Shape G st -> c ∈ G -> c' ∈ G -> (a, b) ∈ placed c -> (a', b') ∈ placed c' ->
  c = c' /\ a = a' /\ b = b' \/ a + span b <= a' \/ a' + span b' <= a.
Proof.
  intros HS Hc Hc' Ha Ha'. pose proof (shape_chunks _ _ HS) as HF. rewrite Forall_forall in HF.
  destruct (placed_in c a b (HF c Hc) Ha) as (HB & ? & ?). destruct (placed_in c' a' b' (HF c' Hc') Ha') as (HB' & ? & ?).
  pose proof (BlockOk_span _ HB). pose proof (BlockOk_span _ HB').
  destruct (decide (a + span b <= a')) as [?|Hn1]; [by right; left|]. destruct (decide (a' + span b' <= a)) as [?|Hn2]; [by right; right|]. left.
  assert (c = c') as <-.
  { apply list_elem_of_lookup in Hc as [i Hi]. apply list_elem_of_lookup in Hc' as [j Hj].
    destruct (decide (i = j)) as [->|Hij]; [congruence|]. exfalso.
    assert (G ≡ₚ c :: delete i G) as HG by (by apply delete_Permutation). pose proof (shape_disjoint _ _ HS) as HD. rewrite HG, Disjoint_cons in HD.
    destruct HD as [_ HD]. apply (HD c' (Z.max a a')); [|unfold in_chunk; lia|unfold in_chunk; lia].
    assert (exists k, delete i G !! k = Some c') as [k Hk]; [|by apply list_elem_of_lookup_2 in Hk].
    destruct (decide (j < i)%nat); [exists j; by rewrite list_lookup_delete_lt|]. exists (pred j).
    rewrite list_lookup_delete_ge by lia. by replace (S (pred j)) with j by lia. }
  destruct (place_apart (cBlocks c) (cBase c) a b a' b') as [[-> ->]|[?|?]]; try done. by apply chunk_blocks, HF.
Qed.
