(* ===== verification/PoolCarve.v ===== *)
(** * The pool: carving up a block

    What is left of a page or of a larger block is cut into free blocks; the
    sizes of the lists are such that nothing remains. *)
From Stdlib Require Import ZArith Lia.
From stdpp Require Import base option list.
From S2P Require Import Prelude StateMonad Gcd MemoryBin Page PageMap Pool PoolLayout PoolRules.

(** The entries of blocks that follow one another. *)
Definition ents (t a : Z) (l : list Block) : list entry := (fun x => (t, x.1, x.2)) <$> place a l.

Lemma ents_app t a l1 l2 : ents t a (l1 ++ l2) = ents t a l1 ++ ents t (a + spans l1) l2.
Proof. unfold ents. by rewrite place_app, fmap_app. Qed.

Lemma ents_cons t a b l : ents t a (b :: l) = (t, a, b) :: ents t (a + span b) l.
Proof. done. Qed.

Definition FreeBlock (b : Block) : Prop := small b = true /\ bUse b = None.

Lemma FreeBlock_ok b : FreeBlock b -> BlockOk b.
Proof. intros [H1 H2]. unfold BlockOk. by rewrite H2. Qed.

(** The list of a pool gets the free blocks among the entries. *)
Record Listed (E : list entry) (p p' : POOL) : Prop := {
  listed_type : PoolMemoryType p' = PoolMemoryType p;
  listed_used : PoolUsed p' = PoolUsed p;
  listed_length : length (FreeList p') = length (FreeList p);
  listed_free : forall i l', FreeList p' !! i = Some l' -> exists l, FreeList p !! i = Some l /\ l' ≡ₚ frees (PoolMemoryType p) i E ++ l }.

Lemma Listed_nil p : Listed [] p p.
Proof. split; [done..|]. intros i l' Hl. by exists l'. Qed.

Lemma Listed_app E1 E2 p p1 p2 : Listed E1 p p1 -> Listed E2 p1 p2 -> Listed (E1 ++ E2) p p2.
Proof.
  intros [T1 U1 L1 F1] [T2 U2 L2 F2]. split; [congruence..|]. intros i l2 H2. destruct (F2 i l2 H2) as (l1 & H1 & E). destruct (F1 i l1 H1) as (l & H & E').
  exists l. split; [done|]. rewrite E, E', frees_app, T1, app_assoc. apply Permutation_app_tail, Permutation_app_comm.
Qed.

(** Free blocks have been made of the memory from [a] on. *)
Record Carved (r : PoolRef) (a : Z) (l : list Block) (st st' : PoolState) : Prop := {
  carved_frame : frame st' = frame st;
  carved_memory : forall x, ~ a <= x < a + spans l -> Memory st' x = Memory st x;
  carved_cells : forall x b, (x, b) ∈ place a l -> Cells (Memory st') false 0 x b;
  carved_pool : forall p, FindPool r st = Some p -> exists p', FindPool r st' = Some p' /\ Listed (ents (PoolMemoryType p) a l) p p';
  carved_others : forall r', r' <> r -> FindPool r' st' = FindPool r' st }.

Lemma Carved_nil r a st : Carved r a [] st st.
Proof. split; [done|done|by intros x b ?%elem_of_nil|intros p Hp; exists p; split; [done|apply Listed_nil]|done]. Qed.

Lemma Carved_app r a l1 l2 st st1 st2 :
  Forall FreeBlock l1 -> Forall FreeBlock l2 -> Carved r a l1 st st1 -> Carved r (a + spans l1) l2 st1 st2 -> Carved r a (l1 ++ l2) st st2.
Proof.
  intros HF1 HF2 [F1 M1 C1 P1 O1] [F2 M2 C2 P2 O2].
  assert (Forall BlockOk l1) as HB1 by (eapply Forall_impl; [exact HF1|apply FreeBlock_ok]).
  assert (Forall BlockOk l2) as HB2 by (eapply Forall_impl; [exact HF2|apply FreeBlock_ok]).
  pose proof (spans_nonneg _ HB1). pose proof (spans_nonneg _ HB2). split.
  - congruence.
  - intros x Hx. rewrite spans_app in Hx. rewrite M2 by lia. apply M1. lia.
  - intros x b. rewrite place_app. intros [Hx|Hx]%elem_of_app; [|by apply C2]. destruct (place_bounds _ _ _ _ HB1 Hx) as (HB & ? & ?).
    apply (Cells_local (Memory st1)); [done| |by apply C1]. intros y Hy. apply M2. lia.
  - intros p Hp. destruct (P1 p Hp) as (p1 & Hp1 & L1). destruct (P2 p1 Hp1) as (p2 & Hp2 & L2). exists p2. split; [done|].
    rewrite ents_app. apply (Listed_app _ _ _ p1); [done|]. by rewrite (listed_type _ _ _ L1) in L2.
  - intros r' Hr. by rewrite O2, O1.
Qed.

(** One free block. *)
Definition freed_state (r : PoolRef) (i : nat) (a : Z) (st : PoolState) : PoolState :=
  changed r (fun p => SetFreeLists (alter (fun l : list Z => a :: l) i (FreeList p)) p)
    (stored (a + OFFSET_Index) (Z.of_nat i) (stored (a + OFFSET_Signature) POOL_FREE_SIGNATURE st)).

Lemma Listed_one t a i p : PoolMemoryType p = t ->
  Listed (ents t a [MkBlock i None]) p (SetFreeLists (alter (fun l : list Z => a :: l) i (FreeList p)) p).
Proof.
  intros <-. split; [done|done|simpl; by rewrite length_alter|]. intros j l'. simpl. destruct (decide (j = i)) as [->|Hj].
  - rewrite list_lookup_alter_eq. intros (l & Hl & ->)%fmap_Some_1. exists l. split; [done|]. unfold frees, ents, free_entry. simpl.
    by rewrite bool_decide_true.
  - rewrite list_lookup_alter_ne by done. intros Hl. exists l'. split; [done|]. unfold frees, ents, free_entry. simpl.
    rewrite bool_decide_false; [done|]. intros (_ & ? & _). congruence.
Qed.

Lemma freed_carved r i a st : (i < SmallLists)%nat -> Carved r a [MkBlock i None] st (freed_state r i a st).
Proof.
  intros Hi. unfold freed_state. set (f := fun p => SetFreeLists _ p). set (st1 := stored _ _ _).
  destruct (changed_frame r f st1) as [E1 E2]; [by intros p|]. assert (small (MkBlock i None) = true) as Hs by (by apply bool_decide_true).
  pose proof (tsize_small i Hi). simpl. assert (span (MkBlock i None) = tsize i) as ESp by (unfold span; by rewrite Hs).
  split.
  - by rewrite E1.
  - intros x Hx. rewrite E2. simpl in *. rewrite ESp in Hx. unfold OFFSET_Index, OFFSET_Signature.
    by rewrite !(proj2 (Z.eqb_neq _ _)) by lia.
  - intros x b [[= -> ->]|[]%elem_of_nil]%elem_of_cons. rewrite E2. unfold Cells. simpl. unfold OFFSET_Index, OFFSET_Signature.
    rewrite Z.eqb_refl. rewrite (proj2 (Z.eqb_neq _ _)), Z.eqb_refl by lia. done.
  - intros p Hp. exists (f p). rewrite changed_find_eq. split; [|by apply Listed_one].
    assert (FindPool r st1 = FindPool r st) as -> by (by destruct r). by rewrite Hp.
  - intros r' Hr. rewrite changed_find_ne by done. by destruct r'.
Qed.

Lemma SameSizeLoop_run fuel r NewPage Max i : (i < SmallLists)%nat -> forall Offset st,
  Max < Offset + tsize i * (Z.of_nat fuel + 1) -> Offset <= Max ->
  exists n st', SameSizeLoop fuel r NewPage (tsize i) Max i Offset st = Done (Offset + tsize i * Z.of_nat n, st') /\
    Offset + tsize i * Z.of_nat n <= Max < Offset + tsize i * (Z.of_nat n + 1) /\ Carved r (NewPage + Offset) (replicate n (MkBlock i None)) st st'.
Proof.
  intros Hi. destruct (tsize_small i Hi) as [Hs _]. assert (small (MkBlock i None) = true) as Hsm by (by apply bool_decide_true).
  assert (span (MkBlock i None) = tsize i) as ESp by (unfold span; by rewrite Hsm).
  induction fuel as [|fuel IH]; intros Offset st HM HO; cbn [SameSizeLoop].
  - rewrite (proj2 (Z.leb_gt _ _)) by lia. exists 0%nat, st. split_and!; [by rewrite Z.mul_0_r, Z.add_0_r|lia|lia|apply Carved_nil].
  - destruct (Z.leb_spec (Offset + tsize i) Max) as [Hle|Hgt].
    + destruct (IH (Offset + tsize i) (freed_state r i (NewPage + Offset) st)) as (n & st' & E & Hn & HC); [nia|lia|].
      exists (S n), st'. split_and!; [|nia|nia|].
      * rewrite (SM_bind_run _ _ _ _ _ (Store_run _ _ _)), (SM_bind_run _ _ _ _ _ (Store_run _ _ _)).
        unfold InsertFree. rewrite (SM_bind_run _ _ _ _ _ (ChangePool_run _ _ _)). fold (freed_state r i (NewPage + Offset) st).
        rewrite E. do 2 f_equal. nia.
      * apply (Carved_app r _ [MkBlock i None] _ st (freed_state r i (NewPage + Offset) st)).
        -- by apply Forall_singleton.
        -- by apply Forall_replicate.
        -- by apply freed_carved.
        -- simpl. rewrite ESp, Z.add_0_r, <- Z.add_assoc. done.
    + exists 0%nat, st. split_and!; [by rewrite Z.mul_0_r, Z.add_0_r|lia|lia|apply Carved_nil].
Qed.

Lemma spans_replicate i n : (i < SmallLists)%nat -> spans (replicate n (MkBlock i None)) = tsize i * Z.of_nat n.
Proof.
  intros Hi. assert (span (MkBlock i None) = tsize i) as E by (unfold span; by rewrite (bool_decide_true _ Hi : small (MkBlock i None) = true)).
  induction n as [|n IH]; [simpl; lia|]. cbn [replicate spans]. rewrite E, IH. lia.
Qed.

Lemma small_index i : (i < SmallLists)%nat -> (i < MAX_POOL_LIST)%nat.
Proof. unfold SmallLists, MAX_POOL_LIST. lia. Qed.

(** Carving leaves nothing. *)
Lemma CarveBlocks_run r NewPage Max i : (i < SmallLists)%nat -> forall Offset st,
  Offset <= Max -> (Max - Offset) mod 128 = 0 ->
  exists l st', CarveBlocks r NewPage Max i Offset st = Done (Max, st') /\ Forall FreeBlock l /\ spans l = Max - Offset /\
    Carved r (NewPage + Offset) l st st'.
Proof.
  induction i as [|i IH]; intros Hi Offset st HO Hm; cbn [CarveBlocks].
  all: destruct (Z.ltb_spec Offset Max) as [Hlt|Hge]; [|exists [], st; split_and!; [by replace Offset with Max by lia|done|simpl; lia|apply Carved_nil]].
  all: rewrite (Assert_run (S:=PoolState)) by (by apply bool_decide_true, small_index).
  all: rewrite (SM_bind_run _ _ _ _ _ (LIST_TO_SIZE_run _ _ (small_index _ Hi))).
  all: destruct (tsize_small _ Hi) as [Hs Hd].
  all: match goal with |- context [SameSizeLoop ?fuel _ _ (tsize ?k) _ _ _] =>
    destruct (SameSizeLoop_run fuel r NewPage Max k Hi Offset st) as (n & st1 & E1 & Hn & HC1);
      [rewrite Z2Nat.id by (apply Z.div_pos; lia); rewrite Z.add_1_r; pose proof (Z.mul_succ_div_gt (Max - Offset) (tsize k) ltac:(lia)); lia|done|] end.
  all: rewrite (SM_bind_run _ _ _ _ _ E1).
  - assert (tsize 0 = 128) as E0 by done. rewrite E0 in *. exists (replicate n (MkBlock 0 None)), st1.
    assert (Offset + 128 * Z.of_nat n = Max) as EM by (Z.div_mod_to_equations; lia). rewrite EM.
    rewrite (Assert_run (S:=PoolState)) by (rewrite Z.ltb_irrefl; done). split_and!; [done|by apply Forall_replicate|rewrite spans_replicate, E0 by done; lia|done].
  - destruct (IH ltac:(lia) (Offset + tsize (S i) * Z.of_nat n) st1) as (l & st2 & E2 & HF & HS & HC2); [lia| |].
    { Z.div_mod_to_equations. nia. }
    exists (replicate n (MkBlock (S i) None) ++ l), st2. split_and!; [done| |rewrite spans_app, spans_replicate by done; lia|].
    + apply Forall_app. split; [|done]. apply Forall_replicate. split; [by apply bool_decide_true|done].
    + apply (Carved_app r _ _ _ st st1); [|done|done|by rewrite spans_replicate, <- Z.add_assoc by done].
      apply Forall_replicate. split; [by apply bool_decide_true|done].
Qed.
