(* ===== verification/PoolTake.v ===== *)
(** * The pool: blocks change hands

    Taking a free block out of its list, cutting it, and filling in its head and
    tail; and the reverse.  In between the block is in no list and counts for
    nothing ([Pending]). *)
From Stdlib Require Import ZArith Lia.
From stdpp Require Import base option list.
From S2P Require Import Prelude StateMonad Gcd MemoryBin Page PageMap PageOps PageInv PageSteps PageServices PageReach Pool PoolLayout PoolRules PoolCarve.

(** ** Entries *)

(** The blocks in use: type, address of the head, size with head and tail. *)
Definition use_entry (e : entry) : option (Z * Z * Z) := (fun s => (e.1.1, e.1.2, s)) <$> bUse e.2.
Definition uses (E : list entry) : list (Z * Z * Z) := omap use_entry E.

#[export] Instance uses_proper : Proper ((≡ₚ) ==> (≡ₚ)) uses.
Proof. intros E E' HE. unfold uses. by rewrite HE. Qed.

Lemma uses_app E1 E2 : uses (E1 ++ E2) = uses E1 ++ uses E2.
Proof. apply omap_app. Qed.

Lemma uses_cons e E : uses (e :: E) = option_list (use_entry e) ++ uses E.
Proof. unfold uses. simpl. by destruct (use_entry e). Qed.

Lemma elem_uses t a s E : (t, a, s) ∈ uses E <-> exists b, (t, a, b) ∈ E /\ bUse b = Some s.
Proof.
  unfold uses. rewrite list_elem_of_omap. unfold use_entry. split.
  - intros ([[t' a'] b] & He & E'). apply fmap_Some_1 in E' as (s' & Eb & [= -> -> ->]). eauto.
  - intros (b & He & Eb). exists (t, a, b). split; [done|]. simpl. by rewrite Eb.
Qed.

Definition addr (e : entry) : Z := e.1.2.

Lemma entries_of_ents c : entries_of c = ents (cType c) (cBase c) (cBlocks c).
Proof. done. Qed.

Lemma elem_ents t a l e : e ∈ ents t a l <-> e.1.1 = t /\ (addr e, e.2) ∈ place a l.
Proof.
  unfold ents. rewrite list_elem_of_fmap. split.
  - intros ([x b] & -> & Hp). done.
  - destruct e as [[t' x] b]. unfold addr. simpl. intros [-> Hp]. by exists (x, b).
Qed.

Lemma ents_NoDup t l : forall a, Forall BlockOk l -> NoDup (addr <$> ents t a l).
Proof.
  induction l as [|b l IH]; intros a HF; [constructor|]. apply Forall_cons in HF as [Hb HF]. simpl. apply NoDup_cons. split; [|by apply IH].
  unfold addr at 1. simpl. intros (e & E & [_ He]%elem_ents)%list_elem_of_fmap. destruct (place_bounds _ _ _ _ HF He) as (_ & ? & _).
  pose proof (BlockOk_span _ Hb). lia.
Qed.

Lemma layout_NoDup G : Forall ChunkOk G -> Disjoint G -> NoDup (addr <$> entries G).
Proof.
  induction G as [|c G IH]; intros HF HD; [constructor|]. apply Forall_cons in HF as [Hc HF]. rewrite Disjoint_cons in HD. destruct HD as [HD HA].
  rewrite entries_cons, fmap_app. apply NoDup_app. split_and!; [by apply ents_NoDup, chunk_blocks| |by apply IH].
  intros x (e & -> & [_ He]%elem_ents)%list_elem_of_fmap (e' & Ex & He')%list_elem_of_fmap. destruct e' as [[t' x'] b']. apply elem_entries in He' as (c' & Hc' & _ & Hp').
  rewrite Forall_forall in HF. destruct (placed_in c _ _ Hc He) as (HB & ? & ?). destruct (placed_in c' _ _ (HF c' Hc') Hp') as (HB' & ? & ?).
  pose proof (BlockOk_span _ HB). pose proof (BlockOk_span _ HB'). unfold addr in *. simpl in *. apply (HA c' x'); [done|unfold in_chunk; lia..].
Qed.

(** An entry and the others. *)
Lemma entries_pick G st t a b E : Shape G st -> entries G ≡ₚ (t, a, b) :: E -> forall t' b', (t', a, b') ∉ E.
Proof.
  intros HS HE t' b' Hin. pose proof (layout_NoDup G (shape_chunks _ _ HS) (shape_disjoint _ _ HS)) as HN.
  rewrite HE in HN. simpl in HN. apply NoDup_cons in HN as [HN _]. apply HN. apply list_elem_of_fmap. by exists (t', a, b').
Qed.

(** ** Replacing a block *)

Section Replace.
Context (G G' : list Chunk) (c : Chunk) (l1 l2 : list Block) (b : Block) (bs : list Block).
Context (HG : G ≡ₚ c :: G') (Hc : cBlocks c = l1 ++ b :: l2) (Hs : spans bs = span b).

Definition replaced : Chunk := MkChunk (cBase c) (cType c) (l1 ++ bs ++ l2).
Definition hole : Z := cBase c + spans l1.
Definition rest : list entry := ents (cType c) (cBase c) l1 ++ ents (cType c) (hole + span b) l2 ++ entries G'.

Lemma replaced_end : cEnd replaced = cEnd c.
Proof. unfold cEnd. simpl. rewrite Hc, !spans_app. simpl. lia. Qed.

Lemma replaced_before : entries G ≡ₚ (cType c, hole, b) :: rest.
Proof.
  rewrite HG, entries_cons, entries_of_ents, Hc, ents_app, ents_cons. unfold rest, hole. rewrite <- app_assoc. simpl. by rewrite <- Permutation_middle.
Qed.

Lemma replaced_after : entries (replaced :: G') ≡ₚ ents (cType c) hole bs ++ rest.
Proof.
  rewrite entries_cons, entries_of_ents. simpl. rewrite !ents_app, Hs. unfold rest, hole. rewrite <- !app_assoc, !app_assoc.
  do 2 apply Permutation_app_tail. apply Permutation_app_comm.
Qed.

Lemma replaced_placed x y : ChunkOk c -> (x, y) ∈ placed replaced -> (x, y) ∈ place hole bs \/ (x, y) ∈ placed c /\ x <> hole.
Proof.
  intros HC. pose proof (chunk_blocks _ HC) as HF. rewrite Hc in HF. apply Forall_app in HF as [H1 [Hb H2]%Forall_cons].
  pose proof (BlockOk_span _ Hb). unfold placed. simpl. rewrite Hc, !place_app. unfold hole. rewrite !elem_of_app. intros [Hx|[Hx|Hx]].
  - right. split; [by left|]. destruct (place_bounds _ _ _ _ H1 Hx) as (HB & ? & ?). pose proof (BlockOk_span _ HB). lia.
  - by left.
  - right. rewrite Hs in Hx. split; [by right; right|]. destruct (place_bounds _ _ _ _ H2 Hx) as (_ & ? & _). lia.
Qed.

Lemma replaced_shape st :
  Shape G st -> Forall BlockOk bs -> Forall (fun k => small k = true) bs -> small b = true ->
  (bUse b = None \/ hole + SIZE_OF_POOL_HEAD ∉ (oem_ids st).*1) -> Shape (replaced :: G') st.
Proof.
  intros HSh HB Hsm Hb Hst. pose proof HSh as [H1 H2 H3 H4 H5 H6 H7 H8]. rewrite HG in H1, H2. apply Forall_cons in H1 as [HC H1].
  apply Disjoint_cons in H2 as [H2 H2']. assert (c ∈ G) as HcG by (rewrite HG; by left).
  pose proof HC as [C1 C2 C3]. rewrite Hc in C2, C3. apply Forall_app in C2 as [C21 [C22 C23]%Forall_cons].
  split; [| | |done|done|done| |].
  - apply Forall_cons. split; [|done]. split; simpl; [done|by rewrite !Forall_app|]. left.
    destruct C3 as [(S1 & S2)|(k & Ek & Hk)].
    + rewrite spans_app in S1. simpl in S1. rewrite !spans_app, Hs. rewrite !Forall_app in *. rewrite Forall_cons in S2. split_and!; [lia|tauto..].
    + exfalso. assert (b = k) as <- by (destruct l1 as [|? [|]]; simpl in Ek; congruence). congruence.
  - apply Disjoint_cons. split; [done|]. intros c' a Hc' Ha. apply H2'; [done|]. unfold in_chunk in *. by rewrite replaced_end in Ha.
  - intros c' [->|Hc']%elem_of_cons; [|apply H3; rewrite HG; by right]. rewrite replaced_end. exact (H3 c HcG).
  - intros c' [->|Hc']%elem_of_cons; [exact (H7 c HcG)|apply H7; rewrite HG; by right].
  - intros x Hx. destruct (H8 x Hx) as (k & Hk & Uk). exists k. split; [|done]. rewrite replaced_after. rewrite replaced_before in Hk.
    apply elem_of_app. right. apply elem_of_cons in Hk as [[= E1 E2 E3]|Hk]; [|done]. exfalso. destruct Hst as [Hn|Hn]; [congruence|].
    apply Hn. rewrite <- E2. by replace (x - SIZE_OF_POOL_HEAD + SIZE_OF_POOL_HEAD) with x by lia.
Qed.

End Replace.

(** ** Free lists *)

Lemma frees_cons t i e E : frees t i (e :: E) = option_list (free_entry t i e) ++ frees t i E.
Proof. unfold frees. simpl. by destruct (free_entry t i e). Qed.

Lemma Without_notin a l : a ∉ l -> Without a l = l.
Proof.
  unfold Without. induction l as [|x l IH]; intros Ha; [done|]. apply not_elem_of_cons in Ha as [Hx Ha]. rewrite filter_cons_True by congruence.
  by rewrite IH.
Qed.

#[export] Instance Without_proper a : Proper ((≡ₚ) ==> (≡ₚ)) (Without a).
Proof. intros l l' Hl. unfold Without. by rewrite Hl. Qed.

(** An entry leaves the lists. *)
Lemma removed_pools t a b E st : bUse b = None -> (forall t' b', (t', a, b') ∉ E) -> PoolsOk ((t, a, b) :: E) st -> PoolsOk E (removed a st).
Proof.
  intros Hb Ha HP r p. rewrite removed_find. intros (q & Hq & ->)%fmap_Some_1. destruct (HP r q Hq) as [L F U]. split; simpl.
  - by rewrite length_fmap.
  - intros i l. rewrite list_lookup_fmap. intros (k & Hk & ->)%fmap_Some_1. rewrite (F i k Hk), frees_cons.
    assert (a ∉ frees (PoolMemoryType q) i E) as Hn by (intros (b' & Hin & _)%elem_frees; by apply (Ha (PoolMemoryType q) b')).
    unfold free_entry. case_bool_decide as Hc; simpl; [|by rewrite Without_notin]. unfold Without. rewrite filter_cons_False by (intros H; by apply H).
    fold (Without a (frees (PoolMemoryType q) i E)). by rewrite Without_notin.
  - rewrite U. simpl. unfold used_entry. simpl. rewrite Hb. by destruct (_ =? _).
Qed.

(** The pool of a type is unique. *)
Lemma FindPool_type st G r p : Shape G st -> FindPool r st = Some p ->
  match r with StaticPool t => PoolMemoryType p = Z.of_nat t /\ (t < 16)%nat | OemPool a => (a, PoolMemoryType p) ∈ oem_ids st end.
Proof.
  intros HS Hp. destruct r as [t|a]; simpl in Hp.
  - pose proof (shape_static _ _ HS) as E. assert ((PoolMemoryType <$> mPoolHead st) !! t = Some (PoolMemoryType p)) as H by (by rewrite list_lookup_fmap, Hp).
    rewrite E, list_lookup_fmap in H. apply fmap_Some_1 in H as (k & Hk & ->). apply lookup_seq in Hk as [-> ?]. done.
  - apply fmap_Some_1 in Hp as ([q v] & Hh & ->). apply head_Some_elem_of, list_elem_of_filter in Hh as [Eq Hin]. simpl in *. subst q.
    apply list_elem_of_fmap. by exists (a, v).
Qed.

Lemma oem_type_large G st t : Shape G st -> t ∈ (oem_ids st).*2 -> MEMORY_TYPE_OEM_RESERVED_MIN <= t.
Proof. intros HS Ht. destruct (shape_oem _ _ HS) as (_ & _ & HF). rewrite Forall_forall in HF. by apply HF. Qed.

Lemma pool_unique G st r r' p p' :
  Shape G st -> FindPool r st = Some p -> FindPool r' st = Some p' -> PoolMemoryType p = PoolMemoryType p' -> r = r'.
Proof.
  intros HS Hp Hp' ET. pose proof (FindPool_type _ _ _ _ HS Hp) as H. pose proof (FindPool_type _ _ _ _ HS Hp') as H'.
  assert (forall x u, (x, u) ∈ oem_ids st -> MEMORY_TYPE_OEM_RESERVED_MIN <= u) as Hoem.
  { intros x u Hu. apply (oem_type_large G st); [done|]. apply list_elem_of_fmap. by exists (x, u). }
  unfold MEMORY_TYPE_OEM_RESERVED_MIN in Hoem. destruct r as [u|x], r' as [u'|x'].
  - f_equal. destruct H, H'. lia.
  - destruct H as [H ?]. apply Hoem in H'. lia.
  - destruct H' as [H' ?]. apply Hoem in H. lia.
  - rewrite ET in H. destruct (shape_oem _ _ HS) as (_ & HN & _). apply list_elem_of_lookup in H as [i Hi]. apply list_elem_of_lookup in H' as [j Hj].
    assert (i = j) as <-; [|congruence]. eapply (NoDup_lookup _ i j (PoolMemoryType p') HN); rewrite list_lookup_fmap; [by rewrite Hi|by rewrite Hj].
Qed.

Lemma used_free t t' a l : Forall FreeBlock l -> used t (ents t' a l) = 0.
Proof.
  intros HF. revert a. induction HF as [|b l [_ Hb] _ IH]; intros a; [done|]. rewrite ents_cons. simpl. rewrite IH. unfold used_entry. simpl. rewrite Hb.
  by destruct (_ =? _).
Qed.

Lemma uses_free t a l : Forall FreeBlock l -> uses (ents t a l) = [].
Proof.
  intros HF. revert a. induction HF as [|b l [_ Hb] _ IH]; intros a; [done|]. rewrite ents_cons, uses_cons, IH. unfold use_entry. simpl. by rewrite Hb.
Qed.

Lemma frees_other t t' i a l : t <> t' -> frees t i (ents t' a l) = [].
Proof.
  intros Ht. revert a. induction l as [|b l IH]; intros a; [done|]. rewrite ents_cons, frees_cons, IH. unfold free_entry. simpl.
  rewrite bool_decide_false; [done|]. intros (? & _). congruence.
Qed.

(** New free blocks get into the lists. *)
Lemma carved_pools G E r p t a l st st' : Shape G st -> FindPool r st = Some p -> PoolMemoryType p = t -> Forall FreeBlock l ->
  PoolsOk E st -> Carved r a l st st' -> PoolsOk (ents t a l ++ E) st'.
Proof.
  intros HS Hr <- HF HP [_ _ _ C O] r' p' Hr'. destruct (decide (r' = r)) as [->|Hn].
  - destruct (C p Hr) as (q & Hq & [LT LU LL LF]). simplify_eq. destruct (HP r p Hr) as [L F U]. split; [congruence| |].
    + intros i k Hk. destruct (LF i k Hk) as (k0 & Hk0 & E'). rewrite E', (F i k0 Hk0), frees_app, LT. done.
    + by rewrite LU, U, used_app, used_free, LT.
  - rewrite O in Hr' by done. destruct (HP r' p' Hr') as [L F U].
    assert (PoolMemoryType p' <> PoolMemoryType p) as Ht by (intros Et; by apply Hn, (pool_unique G st r' r p' p)).
    split; [done| |].
    + intros i k Hk. by rewrite (F i k Hk), frees_app, frees_other.
    + by rewrite U, used_app, used_free.
Qed.

(** ** A block that has been taken *)

Record Pending (G : list Chunk) (t a : Z) (b : Block) (st : PoolState) : Prop := {
  pend_shape : Shape G st;
  pend_use : Forall InUse G;
  pend_cells : CellsOk (eq a) G (Memory st);
  pend_block : exists c, c ∈ G /\ cType c = t /\ (a, b) ∈ placed c /\ (a <> cBase c -> 0 <= Memory st (a + OFFSET_Index) < Z.of_nat MAX_POOL_LIST);
  pend_pools : exists E, entries G ≡ₚ (t, a, b) :: E /\ PoolsOk E st }.

Lemma Cells_free M f t f' t' a b : bUse b = None -> Cells M f t a b -> Cells M f' t' a b.
Proof. unfold Cells. by intros ->. Qed.

Lemma FreeBlock_place a l x b : Forall FreeBlock l -> (x, b) ∈ place a l -> FreeBlock b.
Proof. intros HF (l1 & l2 & -> & _)%place_split. apply Forall_app in HF as [_ [? _]%Forall_cons]. done. Qed.

Lemma small_span i u : (i < SmallLists)%nat -> span (MkBlock i u) = tsize i.
Proof. intros Hi. unfold span, small. simpl. by rewrite bool_decide_true. Qed.

(** A free block of the layout is taken out of its list and cut into one for use
    and free ones. *)
Lemma take_block G r p t i j s a ps st st2 :
  PoolInv G st -> FindPool r st = Some p -> PoolMemoryType p = t -> (t, a, MkBlock j None) ∈ entries G -> (i <= j < SmallLists)%nat ->
  BlockOk (MkBlock i (Some s)) -> Forall FreeBlock ps -> spans ps = tsize j - tsize i -> Carved r (a + tsize i) ps (removed a st) st2 ->
  exists G2, Pending G2 t a (MkBlock i (Some s)) st2 /\ uses (entries G2) ≡ₚ (t, a, s) :: uses (entries G).
Proof.
  intros [HS HI HC HP] Hr Ht Hin Hij HB HF Hsp HCv. apply elem_entries in Hin as (c & HcG & Hct & Hpl).
  pose proof Hpl as (l1 & l2 & Hcb & Ea)%place_split. destruct (elem_of_Permutation G c) as [Hex _]. destruct (Hex HcG) as [G' HG].
  pose proof (shape_chunks _ _ HS) as HOk. rewrite Forall_forall in HOk. pose proof (HOk c HcG) as Cok.
  destruct (tsize_small j ltac:(lia)) as [Sj _]. destruct (tsize_small i ltac:(lia)) as [Si _].
  assert (spans (MkBlock i (Some s) :: ps) = span (MkBlock j None)) as Hspan by (simpl; rewrite !small_span by lia; lia).
  assert (hole c l1 = a) as Eh by done. assert (Forall BlockOk ps) as HBp by (eapply Forall_impl; [exact HF|apply FreeBlock_ok]).
  set (bs := MkBlock i (Some s) :: ps). set (c' := replaced c l1 l2 bs).
  assert (frame st2 = frame st) as EF by (rewrite (carved_frame _ _ _ _ _ HCv); apply removed_frame).
  assert (forall x, ~ a + tsize i <= x < a + tsize j -> Memory st2 x = Memory st x) as EM
    by (intros x Hx; rewrite (carved_memory _ _ _ _ _ HCv); [done|rewrite Hsp; lia]).
  assert (Shape (c' :: G') st2) as HS2.
  { apply (Shape_frame _ st); [done|]. apply (replaced_shape G G' c l1 l2 (MkBlock j None) bs HG Hcb Hspan st HS).
    - by apply Forall_cons.
    - apply Forall_cons. split; [apply bool_decide_true; simpl; lia|]. eapply Forall_impl; [exact HF|by intros ? []].
    - apply bool_decide_true. simpl. lia.
    - by left. }
  pose proof (replaced_before G G' c l1 l2 (MkBlock j None) HG Hcb) as EB. pose proof (replaced_after G' c l1 l2 (MkBlock j None) bs Hspan) as EA.
  rewrite Eh, Hct in EB, EA. unfold bs in EA. rewrite ents_cons, small_span in EA by lia. set (E := rest _ _ _ _ _) in *.
  exists (c' :: G'). split; [split|].
  - done.
  - rewrite HG in HI. apply Forall_cons in HI as [_ HI]. apply Forall_cons. split; [|done]. apply Exists_app. right. by left.
  - intros d x y Hd Hp Hx. assert (forall d', d' ∈ G -> (x, y) ∈ placed d' -> x <> a -> Cells (Memory st2) (x =? cBase d') (cType d') x y) as Old.
    { intros d' Hd' Hp' Hxa. destruct (placed_in d' x y (HOk d' Hd') Hp') as (HBy & _ & _). apply (Cells_local (Memory st)); [done| |apply HC; [done|done|intros []]].
      intros z Hz. apply EM. pose proof (BlockOk_span _ HBy).
      destruct (blocks_apart G st d' c x y a (MkBlock j None) HS Hd' HcG Hp' Hpl) as [(_ & ? & _)|[Hap|Hap]]; [done| |rewrite small_span in Hap by lia]; lia. }
    apply elem_of_cons in Hd as [->|Hd]; [|apply Old; [rewrite HG; by right|done|congruence]].
    destruct (replaced_placed c l1 l2 (MkBlock j None) bs Hcb Hspan x y Cok Hp) as [Hn|[Ho Hne]]; [|by apply (Old c)].
    rewrite Eh in Hn. apply elem_of_cons in Hn as [[= -> ->]|Hn]; [done|]. rewrite small_span in Hn by lia.
    destruct (FreeBlock_place _ _ _ _ HF Hn) as [_ Hy]. apply (Cells_free _ false 0); [done|]. by apply (carved_cells _ _ _ _ _ HCv).
  - exists c'. split_and!; [by left|done| |].
    + unfold placed. simpl. rewrite place_app. apply elem_of_app. right. rewrite <- Ea. simpl. by left.
    + intros Hne. rewrite EM by (unfold OFFSET_Index; lia). pose proof (HC c a _ HcG Hpl (fun H => H)) as [_ ->]. simpl. unfold SmallLists, MAX_POOL_LIST in *. lia.
  - exists (ents t (a + tsize i) ps ++ E). split; [done|]. rewrite EB in HP.
    apply (carved_pools G _ r (unlisted a p) t _ _ (removed a st)); [apply (Shape_frame _ st); [apply removed_frame|done]|by rewrite removed_find, Hr|done|done| |done].
    apply (removed_pools t a (MkBlock j None)); [done| |done]. by apply (entries_pick G st t a (MkBlock j None)).
  - etransitivity; [apply uses_proper; exact EA|]. rewrite EB, uses_app, !uses_cons, uses_free by done. done.
Qed.

(** ** Head and tail *)

Lemma block_range G st c a b : Shape G st -> c ∈ G -> (a, b) ∈ placed c -> BlockOk b /\ 0 < a /\ a + span b < 2 ^ 64.
Proof.
  intros HS Hc Hp. pose proof (shape_chunks _ _ HS) as HF. rewrite Forall_forall in HF. destruct (placed_in c a b (HF c Hc) Hp) as (HB & ? & ?).
  destruct (shape_owned _ _ HS c Hc) as [HO _]. pose proof (BlockOk_span _ HB).
  destruct (Owned_range _ _ _ (shape_idle _ _ HS) HO ltac:(lia)). destruct (chunk_base _ (HF c Hc)). split; [done|lia].
Qed.

(** The state after FinishBlock. *)
Definition add_used (s : Z) (p : POOL) : POOL := SetUsed (add64 (PoolUsed p) s) p.
Definition finished (r : PoolRef) (t s a : Z) (st : PoolState) : PoolState :=
  stored (a + s - 16 + 8) s (stored (a + s - 16 + 0) POOL_TAIL_SIGNATURE
    (stored (a + 8) t (stored (a + 16) s (stored (a + 0) POOL_HEAD_SIGNATURE (changed r (add_used s) st))))).

Lemma FinishBlock_run r t s a st : 0 <= a -> 16 <= s -> a + s < 2 ^ 64 -> FinishBlock r t s a true false st = Done (a + 24, finished r t s a st).
Proof.
  intros Ha Hs Hb. unfold FinishBlock. rewrite (SM_bind_run _ _ _ _ _ (ChangePool_run _ _ _)). unfold sizeof_POOL_TAIL.
  rewrite add64_small, sub64_small by lia. done.
Qed.

Lemma used_add x s : add64 (u64 x) s = u64 (s + x).
Proof. unfold add64, u64. rewrite Zplus_mod_idemp_l. f_equal. lia. Qed.

(** Filling in head and tail makes the layout true. *)
Lemma finish_block G r p t i s a st :
  Pending G t a (MkBlock i (Some s)) st -> FindPool r st = Some p -> PoolMemoryType p = t ->
  FinishBlock r t s a true false st = Done (a + 24, finished r t s a st) /\ PoolInv G (finished r t s a st) /\ frame (finished r t s a st) = frame st.
Proof.
  intros [HS HI HC (c & HcG & Hct & Hpl & Hidx) (E & HE & HP)] Hr Ht. destruct (block_range _ _ _ _ _ HS HcG Hpl) as (HB & Ha & Hb).
  pose proof HB as Hsz. unfold BlockOk in Hsz. simpl in Hsz. destruct Hsz as (Hsz & Hal & _).
  destruct (changed_frame r (add_used s) st ltac:(done)) as [EF EM].
  assert (frame (finished r t s a st) = frame st) as EF' by (rewrite <- EF; done).
  assert (forall x, ~ a <= x < a + span (MkBlock i (Some s)) -> Memory (finished r t s a st) x = Memory st x) as EMo.
  { intros x Hx. unfold finished, stored. cbn [Memory SetMemory]. rewrite EM. rewrite !(proj2 (Z.eqb_neq _ _)) by lia. done. }
  split; [apply FinishBlock_run; lia|]. split; [|done]. split; [by apply (Shape_frame _ st)|done| |].
  - intros d x y Hd Hp _. destruct (blocks_apart G st d c x y a _ HS Hd HcG Hp Hpl) as [(-> & -> & ->)|Hap].
    + rewrite Hct. unfold Cells. cbn [bUse]. unfold OFFSET_Signature, OFFSET_Type, OFFSET_Size, OFFSET_TailSignature, OFFSET_TailSize, sizeof_POOL_TAIL, OFFSET_Index.
      unfold finished, stored. cbn [Memory SetMemory]. rewrite EM.
      repeat match goal with |- context [?u =? ?v] => first [rewrite (proj2 (Z.eqb_neq u v)) by lia | rewrite (proj2 (Z.eqb_eq u v)) by lia] end.
      split_and!; try done. intros Hfst. apply Hidx. intros ->. by rewrite Z.eqb_refl in Hfst.
    + destruct (block_range _ _ _ _ _ HS Hd Hp) as (HBy & _ & _). pose proof (BlockOk_span _ HBy). pose proof (BlockOk_span _ HB).
      apply (Cells_local (Memory st)); [done|intros z Hz; apply EMo; lia|]. apply HC; [done|done|]. intros ->. lia.
  - rewrite HE. intros r' p' Hr'. assert (FindPool r' (finished r t s a st) = FindPool r' (changed r (add_used s) st)) as EFind by (by destruct r'). rewrite EFind in Hr'.
    destruct (decide (r' = r)) as [->|Hn].
    + rewrite changed_find_eq, Hr in Hr'. simpl in Hr'. injection Hr' as <-. destruct (HP r p Hr) as [L F U]. split; simpl; [done| |].
      * intros k l Hl. rewrite (F k l Hl), frees_cons. unfold free_entry. simpl. by rewrite bool_decide_false by (by intros (_ & _ & ?)).
      * rewrite U, used_add. unfold used_entry. simpl. by rewrite Ht, Z.eqb_refl.
    + rewrite changed_find_ne in Hr' by done. destruct (HP r' p' Hr') as [L F U]. split; simpl; [done| |].
      * intros k l Hl. rewrite (F k l Hl), frees_cons. unfold free_entry. simpl. by rewrite bool_decide_false by (by intros (_ & _ & ?)).
      * rewrite U. unfold used_entry. simpl. rewrite (proj2 (Z.eqb_neq _ _)); [done|]. intros Et. apply Hn. apply (pool_unique G st r' r p' p); congruence.
Qed.
