(* ===== verification/PoolPages.v ===== *)
(** * The pool: what it needs of the page allocator

    [PageServer] is the interface between the pool and the page allocator: what
    [CoreAllocatePoolPagesI] and [CoreFreePoolPagesI] promise to states that are
    [Good].  The page allocator keeps the promise in two ways: whenever it returns
    ([idle_server]), and without fail as long as there are descriptors for the
    changes of the map ([room_server]). *)
From Stdlib Require Import ZArith Lia.
From stdpp Require Import base option list.
From S2P Require Import Prelude StateMonad Gcd MemoryBin Page PageMap PageOps PageFind PageInv PageSteps PageStack PageTotal PageServices PageReach Pool PoolLayout PoolRules.

(** The heap guard is off for the pool too, and nothing runs when the pool lock is
    released. *)
Class PoolQuiet {PEnv : PoolEnvironment} : Prop := {
  no_pool_guard : forall t, IsPoolTypeToGuard t = false;
  quiet_pool : forall st, DropPoolLock st = Done (tt, st) }.
Arguments PoolQuiet : clear implicits.

(** What belongs to callers stays as it is, but for some addresses. *)
Definition Spares (out : Z -> Prop) (st st' : PageState) : Prop :=
  forall s e, Owned st s e -> (forall a, s <= a <= e -> ~ out a) -> Owned st' s e /\ forall a, s <= a <= e -> at_address st' a = at_address st a.

(** Pages that have been given out: they belonged to nobody. *)
Definition Provided (b n t : Z) (st st' : PageState) : Prop :=
  PageAligned b /\ Owned st' b (b + 4096 * n - 1) /\ (exists x, Uniform st' b (b + 4096 * n - 1) (t, x)) /\
  forall s e, Owned st s e -> forall a, s <= a <= e -> ~ b <= a <= b + 4096 * n - 1.

Section Server.
Context {Env : PageEnvironment}.

(** [Good k] is enough for [k] calls; [Stopped] is what is known if a call does not
    return. *)
Class PageServer (Stopped : Prop) (Good : nat -> PageState -> Prop) : Prop := {
  good_inv : forall k st, Good k st -> PageInv st;
  good_less : forall k st, Good (S k) st -> Good k st;
  serve_alloc : forall k t n st, Good (S k) st -> 0 < n < 2 ^ 52 -> t ≠ EfiConventionalMemory ->
    wp Stopped (CoreAllocatePoolPagesI t n 4096 false) st (fun b st' =>
      Good k st' /\ Spares (fun _ => False) st st' /\ (b = 0 \/ 0 < b /\ Provided b n t st st'));
  serve_free : forall k t m n st v, Good (S k) st -> 0 < n < 2 ^ 52 -> PageAligned m -> 0 < m ->
    Owned st m (m + 4096 * n - 1) -> Uniform st m (m + 4096 * n - 1) v ->
    wp Stopped (CoreFreePoolPagesI t m n) st (fun _ st' =>
      Good k st' /\ Spares (fun a => m <= a <= m + 4096 * n - 1) st st') }.

Lemma Spares_refl out st : Spares out st st.
Proof using. by intros s e HO _. Qed.

Lemma Grows_spares st st' : Grows st st' -> Spares (fun _ => False) st st'.
Proof using. intros G s e HO _. by apply (GrowsFrom_owned (at_address st)). Qed.

Lemma Granted_spares b n t st st' : Granted b n t st st' -> Spares (fun _ => False) st st'.
Proof using. intros G s e HO _. by apply (Granted_keeps b n t). Qed.

Lemma Granted_provided b n t st st' : Granted b n t st st' -> t ≠ EfiConventionalMemory -> Provided b n t st st'.
Proof using.
  intros HG Ht. pose proof HG as (_ & Ab & st1 & HI & _ & HT). destruct (Took_Owned _ _ _ _ _ HI HT Ht) as [HO HU].
  split_and!; [done..|]. intros s e HO'. exact (Granted_apart _ _ _ _ _ _ _ HO' HG).
Qed.

Lemma freed_spares m n st st' :
  GrowsFrom (freed_range m (m + 4096 * n - 1) (at_address st)) st st' -> Spares (fun a => m <= a <= m + 4096 * n - 1) st st'.
Proof using. intros G s e HO Hout. eapply GrowsFrom_owned; [done| |exact G]. intros a Ha. apply freed_out. by apply Hout. Qed.

Context {Off : GuardOff Env} {Q : Quiet Env}.

(** ** The locked part and what is around it *)

Lemma CoreAllocatePoolPagesI_run t n st b st1 :
  gMemoryLock st = false -> CoreAllocatePoolPages CoreFreeMemoryMapStack t n 4096 false (SetMemoryLock true st) = Done (b, st1) ->
  gMemoryLock st1 = true -> CoreAllocatePoolPagesI t n 4096 false st = Done (b, SetMemoryLock false st1).
Proof using Q.
  intros Hl E1 Hl1. unfold CoreAllocatePoolPagesI. rewrite (Get_run (S:=PageState)), Hl, (Change_run (S:=PageState)).
  rewrite (SM_bind_run _ _ _ _ _ E1), (SM_bind_run _ _ _ _ _ (CoreReleaseMemoryLock_run st1 Hl1)).
  destruct (b =? 0); cbn [negb]; [done|]. unfold mbind, SM_bind, mret, SM_ret. by rewrite quiet_policy.
Qed.

Lemma CoreFreePoolPagesI_run t m n st Status st1 :
  gMemoryLock st = false -> CoreConvertPages CoreFreeMemoryMapStack m n EfiConventionalMemory (SetMemoryLock true st) = Done (Status, st1) ->
  gMemoryLock st1 = true -> CoreFreePoolPagesI t m n st = Done (tt, SetMemoryLock false st1).
Proof using Q.
  intros Hl E1 Hl1. unfold CoreFreePoolPagesI. rewrite (SM_bind_run _ _ _ _ _ (CoreAcquireMemoryLock_run st Hl)).
  assert (CoreFreePoolPages m n (SetMemoryLock true st) = Done (tt, st1)) as E2 by (unfold CoreFreePoolPages; by rewrite (SM_bind_run _ _ _ _ _ E1)).
  rewrite (SM_bind_run _ _ _ _ _ E2), (SM_bind_run _ _ _ _ _ (CoreReleaseMemoryLock_run st1 Hl1)).
  rewrite (SM_bind_run _ _ _ _ _ (quiet_freed m n _)). apply quiet_policy.
Qed.

(** ** Whenever the allocator returns *)

Lemma locked_alloc t n st b st1 : Busy st -> 0 < n < 2 ^ 52 -> t ≠ EfiConventionalMemory ->
  CoreAllocatePoolPages CoreFreeMemoryMapStack t n 4096 false st = Done (b, st1) ->
  Busy st1 /\ (b = 0 /\ Grows st st1 \/ 0 < b /\ Granted b n t st st1).
Proof using Off.
  intros [[HI D0 S0] Hl] Hn Ht E. pose proof CoreFreeMemoryMapStack_grow as HFS. pose proof CoreFreeMemoryMapStack_empties as HE.
  unfold CoreAllocatePoolPages in E. apply SM_bind_Done in E as (b1 & st2 & E1 & E).
  destruct (FindFreePages_spec _ HFS MAX_ALLOC_ADDRESS n t st b1 st2 eq_refl ltac:(lia) HI Hl E1) as (HI2 & G2 & HF & R2).
  pose proof (Grows_flag _ _ _ G2) as F2. pose proof (Grows_lock _ _ _ G2) as L2. pose proof (R2 HE S0 D0) as D2.
  apply SM_bind_Done in E as (Status & st3 & E2 & [-> ->]%SM_ret_Done). destruct (Z.eqb_spec b1 0) as [->|H0].
  { apply SM_ret_Done in E2 as [_ ->]. split; [split; [split|]; congruence|by left]. }
  destruct (HF H0) as [Hn0 HFit]. destruct (Fits_bounds _ _ _ _ HI2 HFit) as (? & ? & Ab).
  destruct (CoreConvertPages_take _ HFS b1 n t st2 Status st3) as [(_ & _ & HU)|(_ & HI3 & HT3 & HR3)];
    [done|congruence|lia..|done|done|done|by eapply Fits_fit in HFit|].
  pose proof HT3 as (x & _ & G3). pose proof (Grows_flag _ _ _ G3). pose proof (Grows_lock _ _ _ G3).
  split; [split; [split; [done|apply HR3; [done|congruence|done]|congruence]|congruence]|]. right. split; [lia|]. split_and!; [lia|lia|done|].
  exists st2. by split_and!.
Qed.

Lemma locked_free m n st Status st1 : Busy st -> 0 < n < 2 ^ 52 -> PageAligned m -> Owned st m (m + 4096 * n - 1) ->
  CoreConvertPages CoreFreeMemoryMapStack m n EfiConventionalMemory st = Done (Status, st1) ->
  Busy st1 /\ GrowsFrom (freed_range m (m + 4096 * n - 1) (at_address st)) st st1.
Proof using Off.
  intros [[HI D0 S0] Hl] Hn Am HO E. destruct (Owned_range st _ _ HI HO ltac:(lia)) as [? ?]. unfold CoreConvertPages in E.
  rewrite CoreConvertPagesEx_loop in E by (done || lia).
  destruct (Convert_free _ CoreFreeMemoryMapStack_grow (Z.to_nat n) n m (m + 4096 * n - 1) st Status st1) as (_ & HI1 & G1 & R1); [done..|by apply pages_end|lia|done|done|].
  pose proof (Grows_flag _ _ _ G1). pose proof (Grows_lock _ _ _ G1). split; [|done].
  split; [split; [done|apply R1; [apply CoreFreeMemoryMapStack_empties|done|done]|congruence]|congruence].
Qed.

#[export] Instance idle_server : PageServer True (fun _ => Idle).
Proof using Off Q.
  split; [by intros _ st [[] _]|done| |].
  - intros _ t n st HI Hn Ht. unfold wp. destruct (CoreAllocatePoolPagesI t n 4096 false st) as [[b st']| |] eqn:E; [|done..].
    pose proof HI as [_ Hl]. pose proof (Idle_acquire st HI) as HB. unfold CoreAllocatePoolPagesI in E.
    rewrite (Get_run (S:=PageState)), Hl, (Change_run (S:=PageState)) in E. apply SM_bind_Done in E as (b1 & st1 & E1 & E).
    destruct (locked_alloc _ _ _ _ _ HB Hn Ht E1) as [HB1 HD].
    assert (b1 = b /\ st' = SetMemoryLock false st1) as [-> ->].
    { pose proof (CoreAllocatePoolPagesI_run t n st b1 st1 Hl E1 (proj2 HB1)) as ER. unfold CoreAllocatePoolPagesI in ER.
      rewrite (Get_run (S:=PageState)), Hl, (Change_run (S:=PageState)), (SM_bind_run _ _ _ _ _ E1) in ER. split; congruence. }
    split; [by apply Busy_release|]. destruct HD as [[-> G]|[Hb G]].
    + split; [|by left]. exact (Grows_spares st _ (GrowsFrom_relock _ _ _ Hl G)).
    + apply (Granted_relock _ _ _ _ _ Hl) in G. split; [by apply (Granted_spares b n t)|]. right. split; [done|by apply Granted_provided].
  - intros _ t m n st v HI Hn Am Hm HO HU. unfold wp. destruct (CoreFreePoolPagesI t m n st) as [[b st']| |] eqn:E; [|done..].
    pose proof HI as [_ Hl]. pose proof (Idle_acquire st HI) as HB. unfold CoreFreePoolPagesI in E.
    rewrite (SM_bind_run _ _ _ _ _ (CoreAcquireMemoryLock_run st Hl)) in E. apply SM_bind_Done in E as (u & st1 & E1 & E).
    unfold CoreFreePoolPages in E1. apply SM_bind_Done in E1 as (Status & st2 & E1 & [_ ->]%SM_ret_Done).
    destruct (locked_free m n _ Status st2 HB Hn Am HO E1) as [HB1 G].
    rewrite (SM_bind_run _ _ _ _ _ (CoreReleaseMemoryLock_run st2 (proj2 HB1))), (SM_bind_run _ _ _ _ _ (quiet_freed m n _)), quiet_policy in E.
    injection E as _ <-. split; [by apply Busy_release|]. apply freed_spares. by apply GrowsFrom_relock.
Qed.

(** ** With descriptors to spare *)

(** All memory is known, and there are two free descriptors for each call. *)
Definition Roomy (k : nat) (st : PageState) : Prop := Idle st /\ Settled st /\ (2 * k <= length (mFreeMemoryMapEntryList st))%nat.

Lemma Exact_length m st st' k : Exact m 2 st st' -> (2 * S k <= length (mFreeMemoryMapEntryList st))%nat -> (2 * k <= length (mFreeMemoryMapEntryList st'))%nat.
Proof using. intros [_ H] Hk. lia. Qed.

#[export] Instance room_server : PageServer False Roomy.
Proof using Off Q.
  split; [by intros k st [[[] _] _]|intros k st (? & ? & ?); split_and!; [done|done|lia]| |].
  - intros k t n st (HI & HS & HL) Hn Ht. pose proof HI as [HC Hl]. pose proof (Idle_acquire st HI) as HB.
    set (st0 := SetMemoryLock true st) in *. assert (Settled st0) as HS0 by done. pose proof HB as [[HI0 D0 S0] _].
    destruct (FindFreePages_total CoreFreeMemoryMapStack MAX_ALLOC_ADDRESS n t st0 HI0 HS0 eq_refl Hn) as (b & B & EF & HBk & HCh).
    destruct (decide (b = 0)) as [->|Hb].
    + assert (CoreAllocatePoolPages CoreFreeMemoryMapStack t n 4096 false st0 = Done (0, SetBins B st0)) as E1
        by (unfold CoreAllocatePoolPages; by rewrite (SM_bind_run _ _ _ _ _ EF)).
      apply (wp_Done _ _ _ _ _ _ (CoreAllocatePoolPagesI_run t n st 0 _ Hl E1 eq_refl)). destruct (locked_alloc t n st0 0 (SetBins B st0)) as [HB1 [[_ G]|[? _]]]; try done.
      split; [split_and!; [by apply Busy_release|done|simpl; lia]|]. split; [|by left]. exact (Grows_spares st _ (GrowsFrom_relock _ _ _ Hl G)).
    + pose proof (Choice_fits _ _ _ _ _ HI0 HCh Hb) as HF. destruct (Fits_bounds _ _ _ _ HI0 HF) as (? & ? & Ab).
      assert (exists x, Uniform st0 b (b + 4096 * n - 1) (EfiConventionalMemory, x)) as [x HU].
      { destruct HF as (_ & _ & _ & d & Hd & Hc & _ & ? & ?). exists (MAttribute d). intros a Ha.
        rewrite (look_inside st0 d a (inv_wf _ HI0) Hd) by (unfold inside; lia). unfold value. by rewrite Hc. }
      destruct (take_total b n t (SetBins B st0) x) as (st1 & E2 & HB1 & G & HX); [by apply Busy_bins|done..|left; simpl; lia|].
      assert (CoreAllocatePoolPages CoreFreeMemoryMapStack t n 4096 false st0 = Done (b, st1)) as E1.
      { unfold CoreAllocatePoolPages. rewrite (SM_bind_run _ _ _ _ _ EF), (proj2 (Z.eqb_neq _ _) Hb). by rewrite (SM_bind_run _ _ _ _ _ E2). }
      apply (wp_Done _ _ _ _ _ _ (CoreAllocatePoolPagesI_run t n st b _ Hl E1 (proj2 HB1))). destruct (locked_alloc t n st0 b st1) as [_ [[? _]|[Hb' G']]]; try done.
      apply (Granted_relock _ _ _ _ _ Hl) in G'. split; [split_and!|split].
      * by apply Busy_release.
      * exact (Settled_from _ _ _ G HS0).
      * eapply (Exact_length _ (SetBins B st0)); [apply HX; simpl; lia|done].
      * by apply (Granted_spares b n t).
      * right. split; [done|by apply Granted_provided].
  - intros k t m n st v (HI & HS & HL) Hn Am Hm HO HU. pose proof HI as [HC Hl]. pose proof (Idle_acquire st HI) as HB.
    set (st0 := SetMemoryLock true st) in *. pose proof HB as [[HI0 _ _] _]. destruct (Owned_range st0 _ _ HI0 HO ltac:(lia)) as [? ?].
    destruct (free_exact m n st0 v) as (st1 & E1 & HB1 & HX); [done..|lia|done|done|done|simpl; lia|].
    apply (wp_Done _ _ _ _ _ _ (CoreFreePoolPagesI_run t m n st _ _ Hl E1 (proj2 HB1))). destruct (locked_free m n st0 _ st1 HB Hn Am HO E1) as [_ G].
    split; [split_and!|].
    + by apply Busy_release.
    + exact (Settled_from _ _ _ G HS).
    + by apply (Exact_length _ st0 st1 k HX).
    + apply freed_spares. by apply GrowsFrom_relock.
Qed.

End Server.
