(* ===== verification/PoolFresh.v ===== *)
(** * The pool: taking a block

    A block comes from the list of its size, from a larger block that is cut up, or
    from new pages.  Whichever it is, no block in use is touched. *)
From Stdlib Require Import ZArith Lia.
From stdpp Require Import base option list.
From S2P Require Import Prelude StateMonad Gcd MemoryBin Page PageMap PageOps PageFind PageInv PageSteps PageStack PageTotal PageServices PageReach Pool PoolLayout PoolRules PoolCarve PoolTake PoolPages.

(** ** Sizes *)

Lemma align_mod Size : 0 <= Size -> Size + 15 < 2 ^ 64 -> ALIGN_VARIABLE Size = 8 * ((Size + 7) / 8).
Proof.
  intros H0 H1. unfold ALIGN_VARIABLE. change 7 with (Z.ones 3) at 1. rewrite Z.land_ones by lia. unfold sub64, add64, u64. change (2 ^ 3) with 8.
  rewrite <- (Znumtheory.Zmod_div_mod 8 (2 ^ 64) (8 - Size)) by (try lia; by exists (2 ^ 61)).
  rewrite Z.mod_small; Z.div_mod_to_equations; lia.
Qed.

(** The size of a block for a request. *)
Definition BlockSize (Size : Z) : Z := 8 * ((Size + 7) / 8) + POOL_OVERHEAD.

(** The requests that do not overflow. *)
Definition ModestSize (Size : Z) : Prop := 0 <= Size < 2 ^ 64 - 8192.

Lemma request_size Size : ModestSize Size -> add64 (ALIGN_VARIABLE Size) POOL_OVERHEAD = BlockSize Size.
Proof.
  intros [H0 H1]. rewrite align_mod by lia. unfold BlockSize, POOL_OVERHEAD, SIZE_OF_POOL_HEAD, sizeof_POOL_TAIL. apply add64_small.
  Z.div_mod_to_equations. lia.
Qed.

Lemma BlockSize_bounds Size : ModestSize Size ->
  Size + 40 <= BlockSize Size < Size + 48 /\ BlockSize Size mod 8 = 0 /\ 40 <= BlockSize Size < 2 ^ 64 - 4096.
Proof. intros [H0 H1]. unfold BlockSize, POOL_OVERHEAD, SIZE_OF_POOL_HEAD, sizeof_POOL_TAIL. Z.div_mod_to_equations. lia. Qed.

Lemma size_pages s : 0 <= s -> EFI_SIZE_TO_PAGES s = (s + 4095) / 4096.
Proof.
  intros Hs. unfold EFI_SIZE_TO_PAGES. rewrite HasFlag_page. rewrite Z.shiftr_div_pow2 by (unfold EFI_PAGE_SHIFT; lia). change (2 ^ EFI_PAGE_SHIFT) with 4096.
  destruct (Z.eqb_spec (s mod 4096) 0) as [E|E]; cbn [negb]; Z.div_mod_to_equations; lia.
Qed.

Lemma PoolPages_page s : 0 < s < 2 ^ 64 - 4096 -> PoolPages s 4096 = (s + 4095) / 4096 /\ 0 < (s + 4095) / 4096 < 2 ^ 52.
Proof.
  intros Hs. assert (0 < (s + 4095) / 4096 < 2 ^ 52) as Hp by (Z.div_mod_to_equations; lia). split; [|done].
  unfold PoolPages. rewrite size_pages by lia. change (EFI_SIZE_TO_PAGES 4096) with 1. change (not64 (1 - 1)) with (Z.ones 64).
  rewrite add64_small, sub64_small by lia. rewrite Z.land_ones by lia. rewrite Z.mod_small by lia. lia.
Qed.

(** The block for a size. *)
Definition NewBlock (s : Z) : Block := MkBlock (GetPoolIndexFromSize s) (Some s).

Lemma NewBlock_ok s : 40 <= s -> s mod 8 = 0 -> BlockOk (NewBlock s).
Proof.
  intros Hs Hm. unfold BlockOk. cbn [NewBlock bUse bIndex]. split_and!; [done| |done|done]. unfold span. destruct (small (NewBlock s)) eqn:E; simpl.
  - apply index_size; [done|]. by apply bool_decide_eq_true in E.
  - Z.div_mod_to_equations. lia.
Qed.

(** ** Blocks in use stay as they are *)

Definition Untouched (U : list (Z * Z * Z)) (st st' : PoolState) : Prop :=
  forall t a s x, (t, a, s) ∈ U -> a <= x < a + s -> Memory st' x = Memory st x.

Lemma Untouched_trans U st st1 st2 : Untouched U st st1 -> Untouched U st1 st2 -> Untouched U st st2.
Proof. intros H1 H2 t a s x Hu Hx. by rewrite (H2 t a s x), (H1 t a s x). Qed.

Lemma Untouched_sub U U' st st' : U ⊆ U' -> Untouched U' st st' -> Untouched U st st'.
Proof. intros HU H t a s x Hin. apply (H t a s x). by apply HU. Qed.

Lemma Untouched_same U st st' : Memory st' = Memory st -> Untouched U st st'.
Proof. intros E t a s x _ _. by rewrite E. Qed.

(** A change of a block that is not in use, or of memory outside the layout. *)
Lemma Untouched_block G st st' t a b :
  Shape G st -> (t, a, b) ∈ entries G -> bUse b = None -> (forall x, ~ a <= x < a + span b -> Memory st' x = Memory st x) -> Untouched (uses (entries G)) st st'.
Proof.
  intros HS Hin Hb HM t' a' s x (b' & Hin' & Hb')%elem_uses Hx. apply HM. apply elem_entries in Hin as (c & Hc & _ & Hp).
  apply elem_entries in Hin' as (c' & Hc' & _ & Hp'). destruct (block_range _ _ _ _ _ HS Hc' Hp') as (HB & _ & _). unfold BlockOk in HB. rewrite Hb' in HB.
  destruct (blocks_apart G st c c' a b a' b' HS Hc Hc' Hp Hp') as [(_ & _ & ->)|Hap]; [congruence|lia].
Qed.

Lemma use_in_chunk G st t a s x : Shape G st -> (t, a, s) ∈ uses (entries G) -> a <= x < a + s -> exists c, c ∈ G /\ in_chunk x c.
Proof.
  intros HS (b & Hin & Hb)%elem_uses Hx. apply elem_entries in Hin as (c & Hc & _ & Hp). exists c. split; [done|].
  pose proof (shape_chunks _ _ HS) as HF. rewrite Forall_forall in HF. destruct (placed_in c a b (HF c Hc) Hp) as (HB & ? & ?).
  unfold BlockOk in HB. rewrite Hb in HB. unfold in_chunk. lia.
Qed.

(** ** New pages *)

(** The locks, the types and the structures of pools stay. *)
Definition ids (st : PoolState) : bool * list Z * list (Z * Z) := (mPoolMemoryLock st, PoolMemoryType <$> mPoolHead st, oem_ids st).

Lemma frame_ids st st' : frame st' = frame st -> ids st' = ids st /\ Pages st' = Pages st.
Proof. unfold frame, ids. intros E. split; congruence. Qed.

Lemma find_ids st st' r p : ids st' = ids st -> FindPool r st = Some p -> exists p', FindPool r st' = Some p' /\ PoolMemoryType p' = PoolMemoryType p.
Proof.
  unfold ids. intros E Hp. assert (oem_ids st' = oem_ids st) as EO by congruence.
  assert (PoolMemoryType <$> mPoolHead st' = PoolMemoryType <$> mPoolHead st) as ES by congruence. destruct r as [t|a]; simpl in *.
  - assert ((PoolMemoryType <$> mPoolHead st') !! t = Some (PoolMemoryType p)) as H by (by rewrite ES, list_lookup_fmap, Hp).
    rewrite list_lookup_fmap in H. apply fmap_Some_1 in H as (p' & Hp' & ET). by exists p'.
  - unfold oem_ids in EO. revert EO Hp. generalize (mPoolHeadList st). induction (mPoolHeadList st') as [|[x v] L IH]; intros [|[y w] L'] EO; try done.
    injection EO as E1 E2 EO. subst y. rewrite !filter_cons. simpl. case_decide; [|by apply IH]. intros [= <-]. by exists v.
Qed.

(** Pages change, but not those of the layout. *)
Lemma Shape_pages G st pst out :
  Shape G st -> PageInv pst -> Spares out (Pages st) pst -> (forall c a, c ∈ G -> in_chunk a c -> ~ out a) -> Shape G (SetPagesState pst st).
Proof.
  intros [H1 H2 H3 H4 H5 H6 H7 H8] HI HK Hout. split; try done. intros c Hc. destruct (H3 c Hc) as [HO [x HU]]. destruct (HK _ _ HO) as [HO' E].
  { intros a Ha. apply (Hout c); [done|]. unfold in_chunk. lia. }
  split; [done|]. exists x. intros a Ha. cbn [Pages SetPagesState]. rewrite E by done. by apply HU.
Qed.

Lemma PoolInv_pages G st pst : PoolInv G st -> PageInv pst -> Spares (fun _ => False) (Pages st) pst -> PoolInv G (SetPagesState pst st).
Proof. intros [HS HI HC HP] HPI HK. split; [|done..]. apply (Shape_pages _ _ _ (fun _ => False)); [done..|tauto]. Qed.

(** A chunk with a new block and free ones in new pages. *)
Lemma fresh_block G r p t s b n ps st pst st2 :
  PoolInv G st -> FindPool r st = Some p -> PoolMemoryType p = t -> PageInv pst -> Spares (fun _ => False) (Pages st) pst -> 0 < b ->
  Provided b n t (Pages st) pst -> 40 <= s -> s mod 8 = 0 -> Forall FreeBlock ps -> span (NewBlock s) + spans ps = 4096 * n ->
  (if small (NewBlock s) then n = 1 else ps = []) -> Carved r (b + span (NewBlock s)) ps (SetPagesState pst st) st2 ->
  exists G2, Pending G2 t b (NewBlock s) st2 /\ uses (entries G2) ≡ₚ (t, b, s) :: uses (entries G) /\ Untouched (uses (entries G)) st st2.
Proof.
  intros HInv Hr Ht HPI HK Hb (Ab & HO & [x HU] & Hap) Hs Hm HF Hsp Hn HCv. pose proof (NewBlock_ok s Hs Hm) as HB. pose proof (BlockOk_span _ HB).
  assert (Forall BlockOk ps) as HBp by (eapply Forall_impl; [exact HF|apply FreeBlock_ok]). pose proof (spans_nonneg _ HBp).
  pose proof (PoolInv_pages G st pst HInv HPI HK) as [HS HIu HC HP]. set (st1 := SetPagesState pst st) in *.
  set (c := MkChunk b t (NewBlock s :: ps)). assert (cEnd c = b + 4096 * n) as Ec by (unfold cEnd; simpl; lia).
  assert (ChunkOk c) as HCk.
  { split; [done|by apply Forall_cons|]. simpl. destruct (small (NewBlock s)) eqn:E; [left|right].
    - split; [lia|]. apply Forall_cons. split; [done|]. eapply Forall_impl; [exact HF|by intros ? []].
    - subst ps. by eexists. }
  assert (forall c' a, c' ∈ G -> in_chunk a c' -> ~ in_chunk a c) as Hapc.
  { intros c' a Hc' Ha Hac. destruct (shape_owned _ _ (inv_shape _ _ HInv) c' Hc') as [HO' _]. apply (Hap _ _ HO' a); [unfold in_chunk in Ha; lia|].
    unfold in_chunk in Hac. simpl in Hac. lia. }
  assert (Shape (c :: G) st1) as HS1.
  { pose proof HS as [H1 H2 H3 H4 H5 H6 H7 H8]. split; try done.
    - by apply Forall_cons.
    - apply Disjoint_cons. split; [done|]. intros c' a Hc' Ha Ha'. by apply (Hapc c' a).
    - intros c' [->|Hc']%elem_of_cons; [|by apply H3]. rewrite Ec. split; [exact HO|by exists x].
    - intros c' [->|Hc']%elem_of_cons; [|by apply H7]. simpl. subst t. pose proof (FindPool_type _ _ r p HS Hr) as HT. destruct r as [u|a].
      + destruct HT as [-> Hu]. left. unfold EfiMaxMemoryType. lia.
      + right. apply list_elem_of_fmap. by exists (a, PoolMemoryType p).
    - intros a Ha. destruct (H8 a Ha) as (k & Hk & Uk). exists k. split; [|done]. rewrite entries_cons. apply elem_of_app. by right. }
  destruct (frame_ids _ _ (carved_frame _ _ _ _ _ HCv)) as [_ EP].
  assert (forall y, ~ b <= y < b + 4096 * n -> Memory st2 y = Memory st y) as EM by (intros y Hy; rewrite (carved_memory _ _ _ _ _ HCv); [done|lia]).
  assert (entries_of c = (t, b, NewBlock s) :: ents t (b + span (NewBlock s)) ps) as Een by done.
  exists (c :: G). split; [split|split].
  - apply (Shape_frame _ st1); [apply HCv|done].
  - apply Forall_cons. split; [|done]. by left.
  - intros d y k Hd Hp Hy. apply elem_of_cons in Hd as [->|Hd].
    + apply elem_of_cons in Hp as [[= -> ->]|Hp]; [done|]. simpl in Hp. destruct (FreeBlock_place _ _ _ _ HF Hp) as [_ Hk].
      apply (Cells_free _ false 0); [done|]. by apply (carved_cells _ _ _ _ _ HCv).
    + pose proof (shape_chunks _ _ HS) as HFo. rewrite Forall_forall in HFo. destruct (placed_in d y k (HFo d Hd) Hp) as (HBk & ? & ?).
      apply (Cells_local (Memory st)); [done| |apply HC; [done|done|by intros []]]. intros z Hz. apply EM. intros Hz'. apply (Hapc d z Hd); unfold in_chunk; simpl; lia.
  - exists c. split_and!; [by left|done|by left|done].
  - exists (ents t (b + span (NewBlock s)) ps ++ entries G). split; [by rewrite entries_cons, Een|].
    by apply (carved_pools G _ r p t _ _ st1).
  - rewrite entries_cons, Een, <- app_comm_cons, uses_cons, uses_app, uses_free by done. done.
  - intros t' a' s' y Hu Hy. apply EM. intros Hy'. destruct (use_in_chunk _ _ _ _ _ _ (inv_shape _ _ HInv) Hu Hy) as (c' & Hc' & Hin).
    apply (Hapc c' y Hc' Hin). unfold in_chunk. simpl. lia.
Qed.
