(* ===== verification/PoolAllocate.v ===== *)
(** * The pool: allocation

    From the block to [CoreAllocatePool].  [PoolLive] hides the layout: the state
    holds the given buffers, besides the structures for the pools of OEM types. *)
From Stdlib Require Import ZArith Lia.
From stdpp Require Import base option list.
From S2P Require Import Prelude StateMonad Gcd MemoryBin Page PageMap PageOps PageFind PageInv PageSteps PageStack PageTotal PageServices PageReach Pool PoolLayout PoolRules PoolCarve PoolTake PoolPages PoolFresh.

(** ** Free lists *)

Lemma free_list G st r p i : PoolInv G st -> FindPool r st = Some p -> (i < SmallLists)%nat ->
  exists l, ReadFreeList r i st = Done (l, st) /\
    forall a, a ∈ l -> (PoolMemoryType p, a, MkBlock i None) ∈ entries G /\ Memory st (a + OFFSET_Signature) = POOL_FREE_SIGNATURE.
Proof.
  intros [HS _ HC HP] Hr Hi. destruct (HP r p Hr) as [HL HF _]. destruct (lookup_lt_is_Some_2 (FreeList p) i) as [l Hl]; [rewrite HL; by apply small_index|].
  exists l. split; [by apply (ReadFreeList_run _ _ _ p)|]. intros a Ha. rewrite (HF i l Hl) in Ha. apply elem_frees in Ha as ([j u] & Hin & <- & Eu).
  simpl in *. subst u. split; [done|]. apply elem_entries in Hin as (c & Hc & _ & Hp). by destruct (HC c a _ Hc Hp (fun H => H)).
Qed.

(** The first block of a list is taken out of it. *)
Lemma take_first {A} G st r p i l a (k : unit -> QM A) : PoolInv G st -> FindPool r st = Some p -> (i < SmallLists)%nat ->
  ReadFreeList r i st = Done (a :: l, st) -> (PoolMemoryType p, a, MkBlock i None) ∈ entries G /\
  (Signature ← Load (a + OFFSET_Signature); Assert (Signature =? POOL_FREE_SIGNATURE) ;; RemoveFree a ≫= k) st = k tt (removed a st).
Proof.
  intros HI Hr Hi HR. destruct (free_list G st r p i HI Hr Hi) as (l' & HR' & Hin). rewrite HR in HR'. injection HR' as <-.
  destruct (Hin a ltac:(by left)) as [He Hsig]. split; [done|]. unfold Load. rewrite (Get_run (S:=PoolState)), Hsig.
  by rewrite (Assert_run (S:=PoolState)) by done.
Qed.

Lemma LargerLoop_run G st r p js : PoolInv G st -> FindPool r st = Some p -> Forall (fun i => i < SmallLists)%nat js ->
  LargerLoop r js st = Done (None, st) \/
  exists j a, j ∈ js /\ (PoolMemoryType p, a, MkBlock j None) ∈ entries G /\ LargerLoop r js st = Done (Some (j, a), removed a st).
Proof.
  intros HI Hr HF. induction HF as [|i js Hi _ IH]; [by left|]. cbn [LargerLoop]. destruct (free_list G st r p i HI Hr Hi) as (l & HR & Hl).
  rewrite (SM_bind_run _ _ _ _ _ HR). destruct l as [|a l].
  - destruct IH as [IH|(j & a & Hj & IH)]; [by left|right]. exists j, a. split; [by right|done].
  - destruct (take_first G st r p i l a (fun _ => mret (Some (i, a))) HI Hr Hi HR) as [He HE]. right. exists i, a. split; [by left|]. split; [done|exact HE].
Qed.

Section Allocate.
Context {Env : PageEnvironment} {Stopped : Prop} {Good : nat -> PageState -> Prop} {Srv : PageServer Stopped Good}.

(** What is known of a block that has been taken for [s] bytes, or 0. *)
Definition TakePost (k : nat) (G : list Chunk) (t s : Z) (st : PoolState) (b : Z) (st' : PoolState) : Prop :=
  Good k (Pages st') /\ ids st' = ids st /\ Untouched (uses (entries G)) st st' /\
  (b = 0 /\ PoolInv G st' \/ b <> 0 /\ exists G', Pending G' t b (NewBlock s) st' /\ uses (entries G') ≡ₚ (t, b, s) :: uses (entries G)).

(** A free block of the layout. *)
Lemma take_free k G st r p t i j s a ps st2 :
  Good k (Pages st) -> PoolInv G st -> FindPool r st = Some p -> PoolMemoryType p = t -> (t, a, MkBlock j None) ∈ entries G -> (i <= j < SmallLists)%nat ->
  GetPoolIndexFromSize s = i -> 40 <= s -> s mod 8 = 0 -> Forall FreeBlock ps -> spans ps = tsize j - tsize i ->
  Carved r (a + tsize i) ps (removed a st) st2 -> TakePost k G t s st a st2.
Proof using.
  intros HGd HI Hr Ht Hin Hij Ei Hs Hm HF Hsp HCv. assert (NewBlock s = MkBlock i (Some s)) as EN by (unfold NewBlock; by rewrite Ei).
  assert (BlockOk (MkBlock i (Some s))) as HB by (rewrite <- EN; by apply NewBlock_ok).
  destruct (frame_ids (removed a st) st2 (carved_frame _ _ _ _ _ HCv)) as [E1 E2]. destruct (frame_ids _ _ (proj1 (removed_frame a st))) as [E3 E4].
  destruct (take_block G r p t i j s a ps st st2) as (G2 & HP & HU); try done. split_and!; [by rewrite E2, E4|by rewrite E1| |].
  - apply (Untouched_block G st st2 t a (MkBlock j None)); [apply HI|done|done|]. intros x Hx. rewrite small_span in Hx by lia.
    destruct (tsize_small i ltac:(lia)). rewrite (carved_memory _ _ _ _ _ HCv) by lia. done.
  - right. split.
    + apply elem_entries in Hin as (c & Hc & _ & Hp). destruct (block_range _ _ _ _ _ (inv_shape _ _ HI) Hc Hp). lia.
    + exists G2. rewrite EN. done.
Qed.

Lemma TakeBlock_wp k G st r p t s :
  Good (S k) (Pages st) -> PoolInv G st -> FindPool r st = Some p -> PoolMemoryType p = t -> t ≠ EfiConventionalMemory ->
  40 <= s -> s mod 8 = 0 -> (GetPoolIndexFromSize s < SmallLists)%nat ->
  wp Stopped (TakeBlock r t 4096 false (GetPoolIndexFromSize s)) st (TakePost k G t s st).
Proof using Srv.
  intros HGd HI Hr Ht Htc Hs Hm Hi. set (i := GetPoolIndexFromSize s) in *. unfold TakeBlock. pose proof (good_less k _ HGd) as HGd'.
  destruct (free_list G st r p i HI Hr Hi) as (l & HR & Hl). apply (wp_run _ _ _ _ _ _ _ HR). destruct l as [|a l].
  2: { destruct (take_first G st r p i l a (fun _ => mret a) HI Hr Hi HR) as [He HE]. rewrite Ht in He. apply (wp_Done _ _ _ _ _ _ HE).
    apply (take_free k G st r p t i i s a []); try done; [simpl; lia|apply Carved_nil]. }
  apply (wp_run _ _ _ _ _ _ _ (LIST_TO_SIZE_run i st (small_index i Hi))). rewrite page_index. destruct (tsize_small i Hi) as [Hti Hmi].
  destruct (LargerLoop_run G st r p (seq (S i) (SmallLists - S i)) HI Hr) as [HLp|(j & a & Hj & He & HLp)].
  { apply Forall_forall. intros j Hj%elem_of_seq. unfold SmallLists in *. lia. }
  - apply (wp_run _ _ _ _ _ _ _ HLp). cbn beta iota. apply wp_bind, wp_bind, wp_OnPages. change (EFI_SIZE_TO_PAGES 4096) with 1.
    eapply wp_mono; [|apply (serve_alloc k t 1 (Pages st) HGd); [lia|done]]. intros b pst (HG1 & HK & HB). apply wp_ret. cbn beta iota.
    pose proof (good_inv _ _ HG1) as HPI. destruct HB as [->|[Hb HPr]].
    + apply wp_ret. split_and!; [done|done|by apply Untouched_same|]. left. split; [done|by apply PoolInv_pages].
    + rewrite (proj2 (Z.eqb_neq b 0)) by lia. assert (span (NewBlock s) = tsize i) as Esp by (by apply small_span).
      destruct (CarveBlocks_run r b 4096 (pred SmallLists) ltac:(unfold SmallLists; lia) (tsize i) (SetPagesState pst st)) as (ps & st2 & EC & HF & Hsp & HCv);
        [lia|Z.div_mod_to_equations; lia|].
      apply (wp_run _ _ _ _ _ _ _ EC). apply (wp_run _ _ _ _ tt st2); [by rewrite Z.eqb_refl|]. apply wp_ret.
      destruct (frame_ids _ _ (carved_frame _ _ _ _ _ HCv)) as [E1 E2]. rewrite <- Esp in HCv.
      destruct (fresh_block G r p t s b 1 ps st pst st2) as (G2 & HPd & HU & HUn); try done; [lia|by rewrite (bool_decide_true _ Hi : small (NewBlock s) = true)|].
      split_and!; [by rewrite E2|by rewrite E1|done|]. right. split; [lia|]. by exists G2.
  - apply elem_of_seq in Hj. assert (i <= j < SmallLists)%nat as Hij by (unfold SmallLists in *; lia). rewrite Ht in He.
    apply (wp_run _ _ _ _ _ _ _ HLp). cbn beta iota. apply (wp_run _ _ _ _ (a, tsize j, j) (removed a st)).
    { rewrite (SM_bind_run _ _ _ _ _ (LIST_TO_SIZE_run j (removed a st) (small_index j ltac:(lia)))). done. }
    cbn beta iota. pose proof (tsize_mono i j ltac:(lia)). destruct (tsize_small j ltac:(lia)) as [Htj Hmj].
    assert (a <> 0) as Ha. { apply elem_entries in He as (c & Hc & _ & Hp). destruct (block_range _ _ _ _ _ (inv_shape _ _ HI) Hc Hp). lia. }
    rewrite (proj2 (Z.eqb_neq a 0) Ha).
    destruct (CarveBlocks_run r a (tsize j) (pred j) ltac:(lia) (tsize i) (removed a st)) as (ps & st2 & EC & HF & Hsp & HCv); [lia|Z.div_mod_to_equations; lia|].
    apply (wp_run _ _ _ _ _ _ _ EC). apply (wp_run _ _ _ _ tt st2); [by rewrite Z.eqb_refl|]. apply wp_ret.
    by apply (take_free k G st r p t i j s a ps).
Qed.

(** A block with head and tail, or 0. *)
Definition AllocPost (k : nat) (G : list Chunk) (t s : Z) (st : PoolState) (b : Z) (st' : PoolState) : Prop :=
  Good k (Pages st') /\ ids st' = ids st /\ Untouched (uses (entries G)) st st' /\
  (b = 0 /\ PoolInv G st' \/ exists G' a, b = a + SIZE_OF_POOL_HEAD /\ PoolInv G' st' /\ uses (entries G') ≡ₚ (t, a, s) :: uses (entries G)).

Lemma finish_wp k G st st1 r p t s b :
  FindPool r st = Some p -> PoolMemoryType p = t -> TakePost k G t s st b st1 ->
  wp Stopped (if b =? 0 then mret 0 else FinishBlock r t s b true false) st1 (AllocPost k G t s st).
Proof using.
  intros Hr Ht (HG & HId & HUn & HB). destruct HB as [[-> HI]|(Hb & G' & HP & HU)].
  - apply wp_ret. split_and!; [done..|by left].
  - rewrite (proj2 (Z.eqb_neq b 0) Hb). destruct (find_ids _ _ _ _ HId Hr) as (p' & Hr' & Ht').
    destruct (finish_block G' r p' t _ s b st1 HP Hr') as (E & HI' & EF); [congruence|]. apply (wp_Done _ _ _ _ _ _ E).
    destruct (frame_ids _ _ EF) as [E1 E2]. split_and!; [by rewrite E2|congruence| |].
    + apply (Untouched_trans _ _ st1); [done|]. pose proof HP as [HS _ _ (c & Hc & _ & Hp & _) (E0 & HE & _)].
      intros t' a' s' x Hu Hx. assert ((t', a', s') ∈ uses E0) as Hu'.
      { assert (uses ((t, b, NewBlock s) :: E0) ≡ₚ (t, b, s) :: uses (entries G)) as HUU by (by rewrite <- HU, HE).
        rewrite uses_cons in HUU. simpl in HUU. apply (inj (cons (t, b, s))) in HUU. by rewrite HUU. }
      apply elem_uses in Hu' as (b' & Hin & Hb'). assert ((t', a', b') ∈ entries G') as Hin' by (rewrite HE; by right).
      apply elem_entries in Hin' as (c' & Hc' & _ & Hp'). destruct (block_range _ _ _ _ _ HS Hc' Hp') as (HB' & _ & _).
      destruct (block_range _ _ _ _ _ HS Hc Hp) as (HB & _ & _). unfold BlockOk in HB, HB'. rewrite Hb' in HB'. cbn [NewBlock bUse] in HB.
      assert (~ b <= x < b + span (NewBlock s)) as Hout.
      { destruct (blocks_apart G' st1 c c' b _ a' b' HS Hc Hc' Hp Hp') as [(_ & <- & <-)|Hap]; [|lia]. exfalso. by apply (entries_pick G' st1 _ _ _ _ HS HE t' (NewBlock s)). }
      unfold finished, stored. cbn [Memory SetMemory]. destruct (changed_frame r (add_used s) st1 ltac:(done)) as [_ EM]. rewrite EM.
      by rewrite !(proj2 (Z.eqb_neq _ _)) by lia.
    + right. exists G', b. done.
Qed.

Context {PEnv : PoolEnvironment}.

Lemma AllocateFrom_wp k G st r p t s :
  Good (S k) (Pages st) -> PoolInv G st -> FindPool r st = Some p -> PoolMemoryType p = t -> t ≠ EfiConventionalMemory ->
  40 <= s < 2 ^ 64 - 4096 -> s mod 8 = 0 -> wp Stopped (AllocateFrom r t s 4096 false true false) st (AllocPost k G t s st).
Proof using Srv.
  intros HGd HI Hr Ht Htc Hs Hm. unfold AllocateFrom. rewrite page_index, !orb_false_r. destruct (PoolPages_page s ltac:(lia)) as [EP Hn]. case_bool_decide as Hi.
  - cbn [negb]. rewrite EP. apply wp_bind, wp_OnPages. eapply wp_mono; [|by apply (serve_alloc k t _ (Pages st) HGd)].
    intros b pst (HG1 & HK & HB). pose proof (good_inv _ _ HG1) as HPI. apply (finish_wp k G st _ r p); [done|done|].
    split_and!; [done|done|by apply Untouched_same|]. destruct HB as [->|[Hb HPr]]; [left; split; [done|by apply PoolInv_pages]|right]. split; [lia|].
    assert (small (NewBlock s) = false) as Hsm by (apply bool_decide_false; simpl; lia).
    assert (span (NewBlock s) = 4096 * ((s + 4095) / 4096)) as Esp by (unfold span; by rewrite Hsm).
    destruct (fresh_block G r p t s b _ [] st pst (SetPagesState pst st) HI Hr Ht HPI HK Hb HPr) as (G2 & HPd & HU & _); try done; [lia|simpl; lia|by rewrite Hsm|apply Carved_nil|].
    by exists G2.
  - apply wp_bind. eapply wp_mono; [|apply (TakeBlock_wp k G st r p t s); try done; lia]. intros b st1 HT. by apply (finish_wp k G st st1 r p).
Qed.

(** ** Finding the pool *)

(** The buffers for structures of OEM pools. *)
Definition structs (st : PoolState) : list (Z * Z * Z) := (fun x => (EfiBootServicesData, x.1 - SIZE_OF_POOL_HEAD, 272)) <$> oem_ids st.

(** The pool has the buffers [L] in use (type, head, size) for its callers. *)
Definition PoolLive (L : list (Z * Z * Z)) (st : PoolState) : Prop := exists G, PoolInv G st /\ uses (entries G) ≡ₚ structs st ++ L.

Definition LookupPost (k : nat) (L : list (Z * Z * Z)) (t : Z) (st : PoolState) (o : option PoolRef) (st' : PoolState) : Prop :=
  Good k (Pages st') /\ mPoolMemoryLock st' = mPoolMemoryLock st /\ Untouched L st st' /\ PoolLive L st' /\ match o with Some r => exists p, FindPool r st' = Some p /\ PoolMemoryType p = t | None => True end.

Lemma static_pool G st t : Shape G st -> 0 <= t < EfiMaxMemoryType -> exists p, FindPool (StaticPool (Z.to_nat t)) st = Some p /\ PoolMemoryType p = t.
Proof using.
  intros HS Ht. unfold EfiMaxMemoryType in Ht. assert ((PoolMemoryType <$> mPoolHead st) !! Z.to_nat t = Some t) as H.
  { rewrite (shape_static _ _ HS), list_lookup_fmap, lookup_seq_lt by lia. simpl. f_equal. lia. }
  rewrite list_lookup_fmap in H. apply fmap_Some_1 in H as (p & Hp & ET). by exists p.
Qed.

Lemma find_key (P : list (Z * POOL)) x : NoDup P.*1 -> x ∈ P -> head (filter (fun y => y.1 = x.1) P) = Some x.
Proof using.
  induction P as [|y P IH]; intros HN Hx; [by apply elem_of_nil in Hx|]. apply NoDup_cons in HN as [Hy HN]. rewrite filter_cons.
  apply elem_of_cons in Hx as [->|Hx]; [by rewrite decide_True|]. rewrite decide_False; [by apply IH|]. intros E. apply Hy. rewrite E. apply list_elem_of_fmap. by exists x.
Qed.

Lemma oem_keys st : (oem_ids st).*1 = (mPoolHeadList st).*1 /\ (oem_ids st).*2 = (fun x => PoolMemoryType x.2) <$> mPoolHeadList st.
Proof using. unfold oem_ids. by rewrite <- !list_fmap_compose. Qed.

Lemma oem_pool G st x : Shape G st -> x ∈ mPoolHeadList st -> FindPool (OemPool x.1) st = Some x.2.
Proof using. intros HS Hx. destruct (shape_oem _ _ HS) as (HN & _). rewrite (proj1 (oem_keys st)) in HN. simpl. by rewrite find_key. Qed.

(** A type without memory. *)
Lemma absent_type t G : (forall c, c ∈ G -> cType c <> t) -> (forall i, frees t i (entries G) = []) /\ used t (entries G) = 0.
Proof using.
  induction G as [|c G IH]; intros HG; [done|]. destruct IH as [IH1 IH2]; [intros c' Hc'; apply HG; by right|]. rewrite entries_cons, entries_of_ents.
  assert (cType c <> t) as Hc by (apply HG; by left). split; [intros i; rewrite frees_app, frees_other, IH1 by done; done|]. rewrite used_app, IH2.
  generalize (cBase c). induction (cBlocks c) as [|b l IHl]; intros a; [done|]. rewrite ents_cons. simpl. unfold used_entry at 1. simpl.
  rewrite (proj2 (Z.eqb_neq _ _) Hc). apply IHl.
Qed.

Lemma uses_NoDup G : Forall ChunkOk G -> Disjoint G -> NoDup ((fun u => u.1.2) <$> uses (entries G)).
Proof using.
  intros H1 H2. pose proof (layout_NoDup G H1 H2) as HN. revert HN. generalize (entries G). intros E. induction E as [|e E IH]; [constructor|].
  intros [Hn HN]%NoDup_cons. rewrite uses_cons, fmap_app. unfold use_entry. destruct (bUse e.2) as [s|]; [|by apply IH]. simpl. apply NoDup_cons. split; [|by apply IH].
  intros ([[t a] s'] & E' & Hin)%list_elem_of_fmap. apply Hn. apply elem_uses in Hin as (b & Hin & _). apply list_elem_of_fmap. exists (t, a, b). done.
Qed.

(** The pool for a new type. *)
Definition new_pool (a t : Z) (st : PoolState) : PoolState := SetPoolHeadList ((a, MkPool 0 t EmptyLists) :: mPoolHeadList st) st.

Lemma new_pool_inv G G1 a t st st1 :
  Shape G st -> PoolInv G1 st1 -> ids st1 = ids st -> uses (entries G1) ≡ₚ (EfiBootServicesData, a, 272) :: uses (entries G) ->
  MEMORY_TYPE_OEM_RESERVED_MIN <= t -> t ∉ (oem_ids st).*2 -> PoolInv G1 (new_pool (a + SIZE_OF_POOL_HEAD) t st1).
Proof using.
  intros HS [HS1 HI1 HC1 HP1] HId HU Ht Hnew. assert (oem_ids st1 = oem_ids st) as EO by (unfold ids in HId; congruence).
  set (a' := a + SIZE_OF_POOL_HEAD). assert (oem_ids (new_pool a' t st1) = (a', t) :: oem_ids st1) as EN by done.
  assert (forall c, c ∈ G1 -> cType c <> t) as Habs.
  { intros c Hc Et. destruct (shape_types _ _ HS1 c Hc) as [H|H]; [unfold EfiMaxMemoryType, MEMORY_TYPE_OEM_RESERVED_MIN in *; lia|]. apply Hnew. by rewrite <- EO, <- Et. }
  split; [|done|done|].
  - pose proof HS1 as [H1 H2 H3 H4 H5 (H61 & H62 & H63) H7 H8]. split; try done; rewrite ?EN; cbn [fmap list_fmap fst snd].
    + split_and!; [|apply NoDup_cons; split; [by rewrite EO|done]|by apply Forall_cons]. apply NoDup_cons. split; [|done]. rewrite EO. intros Hin.
      destruct (shape_structs _ _ HS a' Hin) as (b & Hb & Ub). replace (a' - SIZE_OF_POOL_HEAD) with a in Hb by (unfold a'; lia).
      pose proof (uses_NoDup G1 H1 H2) as HN. rewrite HU in HN. cbn [fmap list_fmap fst snd] in HN. apply NoDup_cons in HN as [HN _]. apply HN.
      apply list_elem_of_fmap. exists (EfiBootServicesData, a, 272). split; [done|]. apply elem_uses. by exists b.
    + intros c Hc. destruct (H7 c Hc) as [?|?]; [by left|right; by right].
    + intros x [->|Hx]%elem_of_cons; [|by apply H8]. unfold a'. rewrite Z.add_simpl_r. apply elem_uses. rewrite HU. by left.
  - intros r p Hp. destruct r as [u|x]; simpl in Hp; [by apply (HP1 (StaticPool u))|]. rewrite filter_cons in Hp. simpl in Hp. case_decide; [|by apply (HP1 (OemPool x))].
    injection Hp as <-. destruct (absent_type t G1 Habs) as [F U]. split; simpl; [done| |by rewrite U]. intros i l Hl. rewrite F. apply lookup_replicate in Hl as [-> _]. done.
Qed.

Definition Serves (AllocateI : Z -> Z -> bool -> QM Z) (k : nat) : Prop := forall G st,
  Good (S k) (Pages st) -> mPoolMemoryLock st = true -> PoolInv G st ->
  wp Stopped (AllocateI EfiBootServicesData sizeof_POOL false) st (AllocPost k G EfiBootServicesData 272 st).

Lemma LookupPoolHead_wp AllocateI k L t st :
  Serves AllocateI k -> Good (S k) (Pages st) -> mPoolMemoryLock st = true -> PoolLive L st -> 0 <= t ->
  wp Stopped (LookupPoolHead AllocateI t) st (LookupPost k L t st).
Proof using Srv.
  intros HA HGd Hl HL Ht. pose proof (good_less k _ HGd) as HGd'. pose proof HL as (G & HI & HU). pose proof (inv_shape _ _ HI) as HS. unfold LookupPoolHead.
  destruct (Z.ltb_spec t EfiMaxMemoryType) as [Hs|Hs].
  { apply wp_ret. split_and!; [done..| |done|]; [by apply Untouched_same|]. by apply (static_pool G). }
  destruct (Z.leb_spec MEMORY_TYPE_OEM_RESERVED_MIN t) as [Ho|Ho]; [|apply wp_ret; split_and!; [done..|by apply Untouched_same|done|done]].
  apply (wp_run _ _ _ _ (mPoolHeadList st) st); [done|]. destruct (head _) as [x|] eqn:Eh.
  - apply head_Some_elem_of, list_elem_of_filter in Eh as [Et Hx]. apply wp_ret. split_and!; [done..|by apply Untouched_same|done|].
    exists x.2. split; [by apply (oem_pool G)|done].
  - apply wp_bind. eapply wp_mono; [|by apply (HA G)]. intros b st1 (HG1 & HId & HUn & HB).
    assert (Untouched L st st1) as HUn' by (eapply Untouched_sub; [|exact HUn]; intros u Hu; rewrite HU; apply elem_of_app; by right).
    assert (mPoolMemoryLock st1 = mPoolMemoryLock st) as El by (unfold ids in HId; congruence).
    assert (structs st1 = structs st) as ES by (unfold structs; unfold ids in HId; congruence). destruct HB as [[-> HI1]|(G1 & a & -> & HI1 & HU1)].
    + apply wp_ret. split_and!; [done..| |done]. exists G. split; [done|]. by rewrite ES.
    + assert (t ∉ (oem_ids st).*2) as Hn.
      { rewrite (proj2 (oem_keys st)). intros (x & -> & Hx)%list_elem_of_fmap. apply head_None in Eh.
        assert (x ∈ filter (fun x' => PoolMemoryType x'.2 = PoolMemoryType x.2) (mPoolHeadList st)) as Hf by (by apply list_elem_of_filter).
        rewrite Eh in Hf. by apply elem_of_nil in Hf. }
      pose proof (new_pool_inv G G1 a t st st1 HS HI1 HId HU1 Ho Hn) as HI2.
      assert (0 < a) as Ha.
      { assert ((EfiBootServicesData, a, 272) ∈ uses (entries G1)) as Hu by (rewrite HU1; by left). apply elem_uses in Hu as (b & Hb & _).
        apply elem_entries in Hb as (c & Hc & _ & Hp). by destruct (block_range _ _ _ _ _ (inv_shape _ _ HI1) Hc Hp) as (_ & ? & _). }
      rewrite (proj2 (Z.eqb_neq _ _)) by (unfold SIZE_OF_POOL_HEAD; lia). apply (wp_run _ _ _ _ tt (new_pool (a + SIZE_OF_POOL_HEAD) t st1)); [done|]. apply wp_ret.
      split_and!; [done..| |].
      * exists G1. split; [done|]. rewrite HU1, HU. assert (structs (new_pool (a + SIZE_OF_POOL_HEAD) t st1) = (EfiBootServicesData, a, 272) :: structs st) as ->; [|done].
        rewrite <- ES. unfold structs. simpl. by rewrite Z.add_simpl_r.
      * exists (MkPool 0 t EmptyLists). split; [|done]. simpl. rewrite filter_cons_True by done. done.
Qed.

(** ** The service *)

Context {Off : GuardOff Env} {Q : Quiet Env} {PQ : PoolQuiet PEnv}.

Lemma body_run AllocateI t Size st : mPoolMemoryLock st = true -> ModestSize Size ->
  AllocatePoolBody AllocateI t Size false st =
    (Found ← LookupPoolHead AllocateI t;
     match Found with None => mret 0 | Some r => AllocateFrom r t (BlockSize Size) 4096 false true false end) st.
Proof using Off.
  intros Hl HM. unfold AllocatePoolBody, ASSERT_POOL_LOCKED. unfold mbind at 1, SM_bind at 1. rewrite (Get_run (S:=PoolState)), Hl. simpl (Assert _ _).
  cbv iota beta. rewrite GranularityOf_page, request_size, no_freed_guard by done. done.
Qed.

Lemma body_serves AllocateI k : Serves (AllocatePoolBody AllocateI) k.
Proof using Srv Off.
  intros G st HGd Hl HI. destruct (static_pool G st EfiBootServicesData (inv_shape _ _ HI) ltac:(done)) as (p & Hp & Et).
  unfold wp. rewrite body_run by (done || (unfold ModestSize, sizeof_POOL; lia)). change (BlockSize sizeof_POOL) with 272.
  exact (AllocateFrom_wp k G st (StaticPool 4) p EfiBootServicesData 272 HGd HI Hp Et ltac:(done) ltac:(lia) ltac:(done)).
Qed.

(** What an allocation leaves. *)
Definition BufferPost (k : nat) (L : list (Z * Z * Z)) (t Size : Z) (st : PoolState) (b : Z) (st' : PoolState) : Prop :=
  Good k (Pages st') /\ mPoolMemoryLock st' = mPoolMemoryLock st /\ Untouched L st st' /\
  (b = 0 /\ PoolLive L st' \/ exists a, b = a + SIZE_OF_POOL_HEAD /\ PoolLive ((t, a, BlockSize Size) :: L) st').

Lemma CoreAllocatePoolI_wp k L t Size st :
  Good (S (S k)) (Pages st) -> mPoolMemoryLock st = true -> PoolLive L st -> 0 <= t -> t ≠ EfiConventionalMemory -> ModestSize Size ->
  wp Stopped (CoreAllocatePoolI t Size false) st (BufferPost k L t Size st).
Proof using Srv Off.
  intros HGd Hl HL Ht Htc HM. unfold CoreAllocatePoolI, wp. rewrite body_run by done.
  apply (wp_bind Stopped). eapply wp_mono; [|apply (LookupPoolHead_wp _ (S k) L); [apply body_serves|done..]].
  intros o st1 (HG1 & El & HUn & HL1 & Ho). destruct o as [r|].
  2: { apply wp_ret. split_and!; [by apply good_less|done|done|by left]. }
  destruct Ho as (p & Hp & Et). destruct HL1 as (G & HI & HU). destruct (BlockSize_bounds Size HM) as (_ & Hm & Hs).
  eapply wp_mono; [|by apply (AllocateFrom_wp k G st1 r p t (BlockSize Size))]. intros b st2 (HG2 & HId & HUn2 & HB).
  assert (structs st2 = structs st1) as ES by (unfold structs; unfold ids in HId; congruence).
  split_and!; [done|unfold ids in HId; congruence| |].
  - apply (Untouched_trans _ _ st1); [done|]. eapply Untouched_sub; [|exact HUn2]. intros u Hu. rewrite HU. apply elem_of_app. by right.
  - destruct HB as [[-> HI2]|(G2 & a & -> & HI2 & HU2)]; [left|right].
    + split; [done|]. exists G. by rewrite ES.
    + exists a. split; [done|]. exists G2. split; [done|]. rewrite HU2, HU, ES. apply Permutation_middle.
Qed.

Lemma SetPagesState_id st : SetPagesState (Pages st) st = st.
Proof using. by destruct st. Qed.

Lemma SetPoolLock_live v L st : PoolLive L st -> PoolLive L (SetPoolLock v st).
Proof using.
  intros (G & [[H1 H2 H3 H4 H5 H6 H7 H8] HU HC HP] & E). exists G. split; [|exact E]. split; [by split|done|exact HC|]. intros r p Hp. apply (HP r). by destruct r.
Qed.

(** The pages of a request are few enough for their size to be a UINTN; the other
    requests are refused or not defined. *)
Lemma CoreAllocatePool_wp k L t Size m st :
  Good (S (S k)) (Pages st) -> mPoolMemoryLock st = false -> PoolLive L st -> 0 <= t -> InvalidAllocationType t = false -> ModestSize Size ->
  wp Stopped (CoreAllocatePool t Size (Some m)) st (fun r st' =>
    Good k (Pages st') /\ mPoolMemoryLock st' = false /\ Untouched L st st' /\
    (r = (EFI_OUT_OF_RESOURCES, Some 0) /\ PoolLive L st' \/
     exists a, r = (EFI_SUCCESS, Some (a + SIZE_OF_POOL_HEAD)) /\ PoolLive ((t, a, BlockSize Size) :: L) st')).
Proof using Srv Off Q PQ.
  intros HGd Hl HL Ht Hv HM. assert (t ≠ EfiConventionalMemory) as Htc by (by apply valid_type).
  unfold CoreAllocatePool. apply wp_bind. unfold CoreInternalAllocatePool. rewrite Hv.
  rewrite (proj2 (Z.ltb_ge MAX_POOL_SIZE Size)) by (unfold ModestSize, MAX_POOL_SIZE, MAX_ADDRESS, POOL_OVERHEAD, SIZE_OF_POOL_HEAD, sizeof_POOL_TAIL in *; lia).
  apply (wp_run _ _ _ _ false st); [unfold Get; by rewrite Hl|]. cbv iota. apply (wp_run _ _ _ _ tt (SetPoolLock true st)); [done|]. rewrite no_pool_guard. cbn [andb].
  apply wp_bind. eapply wp_mono; [|apply (CoreAllocatePoolI_wp k L t Size (SetPoolLock true st)); [done|done|by apply SetPoolLock_live|done..]].
  intros b st1 (HG1 & El & HUn & HB). apply (wp_run _ _ _ _ tt (SetPoolLock false st1)).
  { unfold CoreReleasePoolLock. rewrite (Get_run (S:=PoolState)), El. rewrite (Assert_run (S:=PoolState)) by done. rewrite (Change_run (S:=PoolState)). apply quiet_pool. }
  apply wp_ret. cbn beta iota. destruct HB as [[-> HL1]|(a & -> & HL1)].
  - apply wp_ret. split_and!; [done..|]. left. split; [done|by apply SetPoolLock_live].
  - assert (0 < a) as Ha.
    { pose proof HL1 as (G & HI & HU). assert ((t, a, BlockSize Size) ∈ uses (entries G)) as Hu by (rewrite HU; apply elem_of_app; right; by left).
      apply elem_uses in Hu as (b & Hb & _). apply elem_entries in Hb as (c & Hc & _ & Hp). by destruct (block_range _ _ _ _ _ (inv_shape _ _ HI) Hc Hp) as (_ & ? & _). }
    rewrite (proj2 (Z.eqb_neq _ _)) by (unfold SIZE_OF_POOL_HEAD; lia). cbn [negb EFI_ERROR]. set (st2 := SetPoolLock false st1).
    apply (wp_run _ _ _ _ tt st2).
    { change (EFI_ERROR EFI_SUCCESS) with false. cbn [negb]. unfold OnPages, Within, mbind, SM_bind. rewrite quiet_profile, SetPagesState_id, quiet_table.
      by rewrite SetPagesState_id. }
    apply wp_ret. split_and!; [done..|]. right. exists a. split; [done|by apply SetPoolLock_live].
Qed.

End Allocate.
