(* ===== verification/PoolReturn.v ===== *)
(** * The pool: returning a block

    A small block goes back to its list, and the page that it is in goes back to
    the page allocator when all its blocks are free; a large one goes back at
    once. *)
From Stdlib Require Import ZArith Lia.
From stdpp Require Import base option list.
From S2P Require Import Prelude StateMonad Gcd MemoryBin Page PageMap PageOps PageFind PageInv PageSteps PageStack PageTotal PageServices PageReach Pool PoolLayout PoolRules PoolCarve PoolTake PoolPages PoolFresh PoolAllocate.

(** ** The count *)

Definition sub_used (s : Z) (p : POOL) : POOL := SetUsed (sub64 (PoolUsed p) s) p.

Lemma used_sub x s : sub64 (u64 (s + x)) s = u64 x.
Proof. unfold sub64, u64. rewrite Zminus_mod_idemp_l. f_equal. lia. Qed.

(** A block no longer counts. *)
Lemma uncounted_pools G E r p t a b s st :
  Shape G st -> FindPool r st = Some p -> PoolMemoryType p = t -> bUse b = Some s -> PoolsOk ((t, a, b) :: E) st -> PoolsOk E (changed r (sub_used s) st).
Proof.
  intros HS Hr Ht Hb HP r' p' Hr'. assert (forall u i, frees u i ((t, a, b) :: E) = frees u i E) as EF.
  { intros u i. rewrite frees_cons. unfold free_entry. simpl. rewrite bool_decide_false; [done|]. intros (_ & _ & ?). congruence. }
  destruct (decide (r' = r)) as [->|Hn].
  - rewrite changed_find_eq, Hr in Hr'. simpl in Hr'. injection Hr' as <-. destruct (HP r p Hr) as [L F U]. split; simpl; [done| |].
    + intros i l Hl. by rewrite <- EF, (F i l Hl).
    + rewrite U. simpl. unfold used_entry. simpl. rewrite Ht, Z.eqb_refl, Hb. simpl. apply used_sub.
  - rewrite changed_find_ne in Hr' by done. destruct (HP r' p' Hr') as [L F U]. split; simpl; [done| |].
    + intros i l Hl. by rewrite <- EF, (F i l Hl).
    + rewrite U. simpl. unfold used_entry. simpl. rewrite (proj2 (Z.eqb_neq _ _)); [done|]. intros Et. apply Hn. apply (pool_unique G st r' r p' p); congruence.
Qed.

(** ** A block of a list *)

Definition isfree (b : Block) : bool := match bUse b with None => true | Some _ => false end.

(** The page of a block. *)
Lemma block_page c a b : ChunkOk c -> (a, b) ∈ placed c -> small b = true ->
  spans (cBlocks c) = 4096 /\ 0 <= a - cBase c < 4096 /\ Forall (fun k => small k = true) (cBlocks c).
Proof.
  intros HC Hp Hs. destruct (placed_in c a b HC Hp) as (HB & ? & ?). pose proof (BlockOk_span _ HB). unfold cEnd in *. destruct (chunk_kind _ HC) as [[E HS]|(k & Ek & Hk)].
  - split_and!; [lia|lia|lia|done].
  - exfalso. unfold placed in Hp. rewrite Ek in Hp. apply elem_of_cons in Hp as [[= -> ->]|Hp]; [congruence|by apply elem_of_nil in Hp].
Qed.

Lemma page_of c a : ChunkOk c -> 0 <= a - cBase c < 4096 -> a < 2 ^ 64 -> Z.land a (not64 (4096 - 1)) = cBase c.
Proof.
  intros HC Ha Hb. destruct (chunk_base _ HC) as [Hal H0]. unfold PageAligned in Hal. rewrite page_down by lia. Z.div_mod_to_equations. lia.
Qed.

(** The layout after a block of a list has become free. *)
Record Released (G : list Chunk) (t a s : Z) (c : Chunk) (G' : list Chunk) (st : PoolState) : Prop := {
  released_shape : Shape (c :: G') st;
  released_use : Forall InUse G';
  released_cells : CellsOk (fun _ => False) (c :: G') (Memory st);
  released_pools : PoolsOk (entries (c :: G')) st;
  released_uses : uses (entries G) ≡ₚ (t, a, s) :: uses (entries (c :: G'));
  released_type : cType c = t;
  released_small : Forall (fun k => small k = true) (cBlocks c);
  released_page : spans (cBlocks c) = 4096 /\ 0 <= a - cBase c < 4096 /\ a < 2 ^ 64 }.

Lemma release_block G r p t i s a st :
  PoolInv G st -> FindPool r st = Some p -> PoolMemoryType p = t -> (t, a, MkBlock i (Some s)) ∈ entries G -> (i < SmallLists)%nat ->
  a + SIZE_OF_POOL_HEAD ∉ (oem_ids st).*1 ->
  let st1 := freed_state r i a (changed r (sub_used s) st) in
  ids st1 = ids st /\ Pages st1 = Pages st /\ exists c G', Released G t a s c G' st1 /\ Untouched (uses (entries (c :: G'))) st st1.
Proof.
  intros [HS HI HC HP] Hr Ht Hin Hi Hst st1. apply elem_entries in Hin as (c & HcG & Hct & Hpl). pose proof Hpl as (l1 & l2 & Hcb & Ea)%place_split.
  destruct (elem_of_Permutation G c) as [Hex _]. destruct (Hex HcG) as [G' HG]. pose proof (shape_chunks _ _ HS) as HOk. rewrite Forall_forall in HOk. pose proof (HOk c HcG) as Cok.
  set (b0 := MkBlock i None). set (b1 := MkBlock i (Some s)) in *. assert (FreeBlock b0) as Hfb by (split; [by apply bool_decide_true|done]).
  assert (span b1 = tsize i /\ span b0 = tsize i) as [S1 S0] by (split; by apply small_span). assert (spans [b0] = span b1) as Hspan by (simpl; lia).
  assert (small b1 = true) as Hsm by (by apply bool_decide_true). destruct (block_page c a b1 Cok Hpl Hsm) as (P1 & P2 & P3).
  destruct (block_range _ _ _ _ _ HS HcG Hpl) as (_ & Ha & Hb). pose proof (tsize_small i Hi) as [Hts _].
  destruct (changed_frame r (sub_used s) st ltac:(done)) as [EF0 EM0]. pose proof (freed_carved r i a (changed r (sub_used s) st) Hi) as HCv. fold st1 in HCv.
  assert (frame st1 = frame st) as EF by (by rewrite (carved_frame _ _ _ _ _ HCv)). destruct (frame_ids _ _ EF) as [EI EPg].
  assert (forall x, ~ a <= x < a + tsize i -> Memory st1 x = Memory st x) as EM.
  { intros x Hx. rewrite (carved_memory _ _ _ _ _ HCv) by (simpl; fold b0; lia). by rewrite EM0. }
  pose proof (replaced_before G G' c l1 l2 b1 HG Hcb) as EB. pose proof (replaced_after G' c l1 l2 b1 [b0] Hspan) as EA.
  assert (hole c l1 = a) as Eh by done. rewrite Eh, Hct in EB, EA. set (c' := replaced c l1 l2 [b0]) in *.
  assert (Shape (c' :: G') st1) as HS1.
  { apply (Shape_frame _ st); [done|]. apply (replaced_shape G G' c l1 l2 b1 [b0] HG Hcb Hspan st HS); [by apply Forall_singleton, FreeBlock_ok|by apply Forall_singleton; destruct Hfb|done|].
    right. by rewrite Eh. }
  split_and!; [done|done|]. exists c', G'.
  assert (uses (entries G) ≡ₚ (t, a, s) :: uses (entries (c' :: G'))) as EU.
  { rewrite EB, uses_cons. etransitivity; [|apply Permutation_skip, uses_proper; symmetry; exact EA]. rewrite uses_app, uses_free by (by apply Forall_singleton). done. }
  split; [split; try done|].
  - rewrite HG in HI. by apply Forall_cons in HI as [_ HI].
  - intros d x y Hd Hp _. assert (forall d', d' ∈ G -> (x, y) ∈ placed d' -> x <> a -> Cells (Memory st1) (x =? cBase d') (cType d') x y) as Old.
    { intros d' Hd' Hp' Hxa. destruct (placed_in d' x y (HOk d' Hd') Hp') as (HBy & _ & _). apply (Cells_local (Memory st)); [done| |apply HC; [done|done|intros []]].
      intros z Hz. apply EM. pose proof (BlockOk_span _ HBy). destruct (blocks_apart G st d' c x y a b1 HS Hd' HcG Hp' Hpl) as [(_ & ? & _)|Hap]; [done|lia]. }
    apply elem_of_cons in Hd as [->|Hd].
    + destruct (replaced_placed c l1 l2 b1 [b0] Hcb Hspan x y Cok Hp) as [Hn|[Ho Hne]]; [|rewrite Eh in Hne; by apply (Old c)]. rewrite Eh in Hn.
      destruct (FreeBlock_place a [b0] x y ltac:(by apply Forall_singleton) Hn) as [_ Hy]. apply (Cells_free _ false 0); [done|]. by apply (carved_cells _ _ _ _ _ HCv).
    + apply Old; [rewrite HG; by right|done|]. intros ->. destruct (placed_in d a y) as (HBy & ? & ?); [apply HOk; rewrite HG; by right|done|].
      pose proof (BlockOk_span _ HBy). destruct (blocks_apart G st d c a y a b1 HS ltac:(rewrite HG; by right) HcG Hp Hpl) as [(-> & _ & ->)|Hap]; [|lia].
      pose proof (shape_disjoint _ _ HS) as HD. rewrite HG, Disjoint_cons in HD. apply (proj2 HD c a Hd); unfold in_chunk; lia.
  - rewrite EA. apply (carved_pools G _ r (sub_used s p) t _ _ (changed r (sub_used s) st)); try done; [by apply (Shape_frame _ st)|by rewrite changed_find_eq, Hr|by apply Forall_singleton|].
    rewrite EB in HP. by apply (uncounted_pools G _ r p t a b1).
  - simpl. rewrite Hcb in P3. rewrite !Forall_app in *. rewrite Forall_cons in P3. split; [tauto|]. apply Forall_cons. split; [by destruct Hfb|tauto].
  - simpl. rewrite !spans_app. rewrite Hcb, spans_app in P1. simpl in *. lia.
  - intros t' a' s' x Hu Hx. apply EM. intros Hx'. apply elem_uses in Hu as (y & Hy & Uy). apply elem_entries in Hy as (d & Hd & _ & Hp).
    destruct (block_range _ _ _ _ _ HS1 Hd Hp) as (HBy & _ & _). unfold BlockOk in HBy. rewrite Uy in HBy.
    assert ((a, b0) ∈ placed c') as Hp0. { unfold placed. simpl. rewrite place_app. apply elem_of_app. right. rewrite <- Ea. by left. }
    destruct (blocks_apart _ st1 d c' a' y a b0 HS1 Hd ltac:(by left) Hp Hp0) as [(_ & _ & ->)|Hap]; [done|lia].
Qed.
