(* ===== verification/PoolWalk.v ===== *)
(** * The pool: the page of a block

    The walk over the blocks of a page, which decides whether the page goes back to
    the page allocator, and freeing up to there. *)
From Stdlib Require Import ZArith Lia.
From stdpp Require Import base option list.
From S2P Require Import Prelude StateMonad Gcd MemoryBin Page PageMap PageOps PageFind PageInv PageSteps PageStack PageTotal PageServices PageReach Pool PoolLayout PoolRules PoolCarve PoolTake PoolPages PoolFresh PoolAllocate PoolReturn.

Lemma spans_length l : Forall BlockOk l -> Forall (fun b => small b = true) l -> 128 * Z.of_nat (length l) <= spans l.
Proof.
  induction l as [|b l IH]; intros HB HS; [done|]. apply Forall_cons in HB as [_ HB]. apply Forall_cons in HS as [Hs HS]. specialize (IH HB HS).
  cbn [spans length]. assert (128 <= span b); [|lia]. unfold span. rewrite Hs. apply bool_decide_eq_true in Hs. by apply tsize_small.
Qed.

(** The index that a block shows. *)
Definition Shows (st : PoolState) (a : Z) (i : nat) : Prop := (i < MAX_POOL_LIST)%nat /\ Memory st (a + OFFSET_Index) = Z.of_nat i.

Lemma shown_size st a i : Shows st a i -> LIST_TO_SIZE (Z.to_nat (Memory st (a + OFFSET_Index))) st = Done (tsize i, st).
Proof. intros [Hi ->]. rewrite Nat2Z.id. by apply LIST_TO_SIZE_run. Qed.

Lemma AllFreeLoop_run st t base l : forall fuel o,
  Forall BlockOk l -> Forall (fun b => small b = true) l -> (forall x b, (x, b) ∈ place (base + o) l -> Cells (Memory st) (x =? base) t x b) ->
  (o = 0 -> match l with b :: _ => isfree b = true | [] => True end) -> 0 <= o -> spans l = 4096 - o -> (length l <= fuel)%nat ->
  AllFreeLoop fuel base 4096 o st = Done (forallb isfree l, st).
Proof.
  induction l as [|b l IH]; intros fuel o HB HS HC H0 Ho Hsp Hf.
  { simpl in Hsp. destruct fuel; cbn [AllFreeLoop]; by rewrite (proj2 (Z.ltb_ge _ _)) by lia. }
  apply Forall_cons in HB as [Hb HB]. apply Forall_cons in HS as [Hs HS]. pose proof (BlockOk_span _ Hb). pose proof (spans_nonneg _ HB). cbn [spans] in Hsp.
  destruct fuel as [|fuel]; [simpl in Hf; lia|]. cbn [AllFreeLoop]. rewrite (proj2 (Z.ltb_lt _ _)) by lia. unfold Load. rewrite !(Get_run (S:=PoolState)).
  pose proof (HC (base + o) b ltac:(by left)) as HCb. unfold Cells in HCb. cbn [forallb]. unfold isfree at 1. unfold isfree in H0. pose proof Hs as Hi. apply bool_decide_eq_true in Hi.
  destruct (bUse b) as [s|] eqn:Eb.
  - destruct (Z.eqb_spec (base + o) base) as [E|_]; [by specialize (H0 ltac:(lia))|]. destruct HCb as (HSig & _ & _ & _ & _ & HIx). specialize (HIx eq_refl).
    rewrite (SM_bind_run _ _ _ _ _ (shown_size st (base + o) (Z.to_nat (Memory st (base + o + OFFSET_Index))) ltac:(split; lia))). by rewrite HSig.
  - destruct HCb as [HSig HIx]. rewrite (SM_bind_run _ _ _ _ _ (shown_size st (base + o) (bIndex b) ltac:(split; [by apply small_index|done]))).
    rewrite HSig. cbn [negb Z.eqb]. assert (span b = tsize (bIndex b)) as Esp by (unfold span; by rewrite Hs). rewrite Z.eqb_refl. cbn [negb andb].
    apply IH; [done|done| |lia|lia|lia|simpl in Hf; lia]. intros x k Hk. apply HC. right. by rewrite Esp, <- Z.add_assoc.
Qed.

Lemma RemoveLoop_run t base l : forall fuel o E st,
  Forall FreeBlock l -> (forall x b, (x, b) ∈ place (base + o) l -> Cells (Memory st) (x =? base) t x b) -> spans l = 4096 - o -> (length l <= fuel)%nat ->
  NoDup (addr <$> ents t (base + o) l ++ E) -> PoolsOk (ents t (base + o) l ++ E) st ->
  exists st', RemoveLoop fuel base 4096 o st = Done (tt, st') /\ frame st' = frame st /\ Memory st' = Memory st /\ PoolsOk E st'.
Proof.
  induction l as [|b l IH]; intros fuel o E st HF HC Hsp Hf HN HP.
  { simpl in Hsp. exists st. split; [|done]. destruct fuel; cbn [RemoveLoop]; by rewrite (proj2 (Z.ltb_ge _ _)) by lia. }
  apply Forall_cons in HF as [[Hs Hb] HF]. assert (Forall BlockOk l) as HB by (eapply Forall_impl; [exact HF|apply FreeBlock_ok]). pose proof (spans_nonneg _ HB).
  pose proof Hs as Hi. apply bool_decide_eq_true in Hi. pose proof (tsize_small _ Hi). assert (span b = tsize (bIndex b)) as Esp by (unfold span; by rewrite Hs). cbn [spans] in Hsp.
  destruct fuel as [|fuel]; [simpl in Hf; lia|]. cbn [RemoveLoop]. rewrite (proj2 (Z.ltb_lt _ _)) by lia. rewrite (SM_bind_run _ _ _ _ _ (RemoveFree_run _ _)).
  set (st1 := removed (base + o) st). pose proof (HC (base + o) b ltac:(by left)) as HCb. unfold Cells in HCb. rewrite Hb in HCb. destruct HCb as [_ HIx].
  unfold Load. rewrite (Get_run (S:=PoolState)). rewrite (SM_bind_run _ _ _ _ _ (shown_size st1 (base + o) (bIndex b) ltac:(split; [by apply small_index|exact HIx]))).
  rewrite ents_cons, <- app_comm_cons in HN, HP. cbn [fmap list_fmap] in HN. apply NoDup_cons in HN as [Hn HN]. rewrite Esp, <- Z.add_assoc in HN, HP, Hn.
  destruct (removed_frame (base + o) st) as [EF EM]. fold st1 in EF, EM.
  destruct (IH fuel (o + tsize (bIndex b)) E st1) as (st' & E' & EF' & EM' & HP'); [done| |lia|simpl in Hf; lia|done| |].
  - intros x k Hk. rewrite EM. apply HC. right. by rewrite Esp, <- Z.add_assoc.
  - apply (removed_pools t (base + o) b); [done| |done]. intros t' b' Hin. apply Hn. apply list_elem_of_fmap. by exists (t', base + o, b').
  - exists st'. split_and!; [done|congruence|congruence|done].
Qed.

(** A chunk leaves the layout. *)
Lemma Shape_drop c G st : (forall a s, (EfiBootServicesData, a, s) ∈ uses (entries_of c) -> a + SIZE_OF_POOL_HEAD ∉ (oem_ids st).*1) -> Shape (c :: G) st -> Shape G st.
Proof.
  intros Hc [H1 H2 H3 H4 H5 H6 H7 H8]. apply Forall_cons in H1 as [_ H1]. apply Disjoint_cons in H2 as [H2 _]. split; try done.
  - intros c' Hc'. apply H3. by right.
  - intros c' Hc'. apply H7. by right.
  - intros a Ha. destruct (H8 a Ha) as (b & Hb & Ub). exists b. split; [|done]. rewrite entries_cons in Hb. apply elem_of_app in Hb as [Hb|Hb]; [|done]. exfalso.
    apply (Hc (a - SIZE_OF_POOL_HEAD) 272); [apply elem_uses; by exists b|]. by rewrite Z.sub_add.
Qed.

Lemma all_free l : Forall (fun b => small b = true) l -> forallb isfree l = true -> Forall FreeBlock l.
Proof.
  induction 1 as [|b l Hs _ IH]; intros Hf; [constructor|]. cbn [forallb] in Hf. apply andb_true_iff in Hf as [Hb Hf]. apply Forall_cons. split; [|by apply IH].
  split; [done|]. unfold isfree in Hb. by destruct (bUse b).
Qed.

Lemma not_all_free l : forallb isfree l = false -> Exists (fun b => is_Some (bUse b)) l.
Proof.
  induction l as [|b l IH]; intros Hf; [done|]. cbn [forallb] in Hf. apply andb_false_iff in Hf as [Hb|Hf]; [left|right; by apply IH].
  unfold isfree in Hb. destruct (bUse b); [by eexists|done].
Qed.

Section Walk.
Context {Env : PageEnvironment} {Stopped : Prop} {Good : nat -> PageState -> Prop} {Srv : PageServer Stopped Good}.

(** A block is no longer in use. *)
Definition FreePost {A} (k : nat) (G : list Chunk) (t a s : Z) (st : PoolState) (_ : A) (st' : PoolState) : Prop :=
  Good k (Pages st') /\ ids st' = ids st /\ exists G', PoolInv G' st' /\ uses (entries G) ≡ₚ (t, a, s) :: uses (entries G') /\ Untouched (uses (entries G')) st st'.

(** The pages of a chunk go back. *)
Lemma return_pages k c G n t st :
  Good (S k) (Pages st) -> Shape (c :: G) st -> Forall InUse G -> CellsOk (fun _ => False) (c :: G) (Memory st) -> PoolsOk (entries G) st ->
  spans (cBlocks c) = 4096 * n -> 0 < n < 2 ^ 52 -> (forall a s, (EfiBootServicesData, a, s) ∈ uses (entries_of c) -> a + SIZE_OF_POOL_HEAD ∉ (oem_ids st).*1) ->
  wp Stopped (OnPages (CoreFreePoolPagesI t (cBase c) n)) st (fun _ st' => Good k (Pages st') /\ ids st' = ids st /\ Memory st' = Memory st /\ PoolInv G st').
Proof using Srv.
  intros HGd HS HI HC HP Hsp Hn Hst. apply wp_OnPages. pose proof (shape_chunks _ _ HS) as HF. apply Forall_cons in HF as [[[Hal Hb0] _ _] _].
  destruct (shape_owned _ _ HS c ltac:(by left)) as [HO [x HU]]. unfold cEnd in HO, HU. rewrite Hsp in HO, HU.
  eapply wp_mono; [|by apply (serve_free k t (cBase c) n (Pages st) (cType c, x))]. intros u pst (HG1 & HK). split_and!; [done..|].
  pose proof (shape_disjoint _ _ HS) as HD. apply Disjoint_cons in HD as [_ HD]. split; [|done| |exact HP].
  - apply (Shape_pages G st pst (fun a => cBase c <= a <= cBase c + 4096 * n - 1)); [by apply (Shape_drop c)|by apply (good_inv k)|done|].
    intros c' a Hc' Ha Ha'. apply (HD c' a Hc'); [|done]. unfold in_chunk, cEnd. lia.
  - intros c' a b Hc'. apply HC. by right.
Qed.

Lemma ReturnBlock_wp k G r p t i s a st :
  Good (S k) (Pages st) -> PoolInv G st -> FindPool r st = Some p -> PoolMemoryType p = t -> (t, a, MkBlock i (Some s)) ∈ entries G -> (i < SmallLists)%nat ->
  a + SIZE_OF_POOL_HEAD ∉ (oem_ids st).*1 -> wp Stopped (ReturnBlock r 4096 a i) (changed r (sub_used s) st) (FreePost k G t a s st).
Proof using Srv.
  intros HGd HInv Hr Ht Hin Hi Hst. destruct (release_block G r p t i s a st HInv Hr Ht Hin Hi Hst) as (EI & EP & c & G' & [HS HI HC HP HU Hct Hsm (Hsp & Ha & Hlt)] & HUn).
  unfold ReturnBlock. set (st1 := freed_state r i a (changed r (sub_used s) st)) in *. pose proof (good_less k _ HGd) as HGd'.
  apply (wp_run _ _ _ _ _ _ _ (Store_run _ _ _)), (wp_run _ _ _ _ _ _ _ (Store_run _ _ _)), (wp_run _ _ _ _ _ _ _ (ChangePool_run _ _ _)).
  fold (freed_state r i a (changed r (sub_used s) st)). fold st1. pose proof (shape_chunks _ _ HS) as HF. apply Forall_cons in HF as [Hc HF].
  rewrite (page_of c a Hc Ha Hlt). apply (wp_run _ _ _ _ (Memory st1 (cBase c + OFFSET_Signature)) st1); [done|].
  assert (InUse c -> FreePost k G t a s st tt st1) as Keep.
  { intros HcU. split_and!; [by rewrite EP|done|]. exists (c :: G'). split_and!; [|done|done]. split; [done|by apply Forall_cons|done|done]. }
  assert (forall x b, (x, b) ∈ place (cBase c + 0) (cBlocks c) -> Cells (Memory st1) (x =? cBase c) t x b) as HCc.
  { intros x b. rewrite Z.add_0_r. intros Hx. rewrite <- Hct. apply HC; [by left|done|by intros []]. }
  pose proof (chunk_blocks _ Hc) as HB. pose proof (spans_length _ HB Hsm) as Hlen. assert (length (cBlocks c) <= WalkFuel 4096)%nat as Hfuel by (change (WalkFuel 4096) with 32%nat; lia).
  assert (exists b0 l0, cBlocks c = b0 :: l0) as (b0 & l0 & E0) by (destruct (cBlocks c); [simpl in Hsp; lia|eauto]).
  pose proof (HCc (cBase c) b0 ltac:(rewrite E0, Z.add_0_r; by left)) as HC0. destruct (Z.eqb_spec (Memory st1 (cBase c + OFFSET_Signature)) POOL_FREE_SIGNATURE) as [Esig|Esig].
  2: { apply wp_ret, Keep. unfold InUse. rewrite E0. left. unfold Cells in HC0. destruct (bUse b0); [by eexists|]. by destruct HC0. }
  assert (isfree b0 = true) as Hb0. { unfold isfree. unfold Cells in HC0. destruct (bUse b0); [|done]. destruct HC0 as [HC0 _]. rewrite HC0 in Esig. done. }
  apply (wp_run _ _ _ _ _ _ _ (AllFreeLoop_run st1 t (cBase c) (cBlocks c) (WalkFuel 4096) 0 HB Hsm HCc ltac:(by rewrite E0) ltac:(lia) ltac:(lia) Hfuel)).
  destruct (forallb isfree (cBlocks c)) eqn:Eall; [|apply wp_ret, Keep; by apply not_all_free]. pose proof (all_free _ Hsm Eall) as HFr.
  assert (ents t (cBase c + 0) (cBlocks c) ++ entries G' = entries (c :: G')) as EE by (by rewrite entries_cons, entries_of_ents, Hct, Z.add_0_r).
  destruct (RemoveLoop_run t (cBase c) (cBlocks c) (WalkFuel 4096) 0 (entries G') st1 HFr HCc ltac:(lia) Hfuel) as (st2 & ER & EF2 & EM2 & HP2); [rewrite EE; by apply layout_NoDup; [apply HS|apply HS]|by rewrite EE|].
  apply (wp_run _ _ _ _ _ _ _ ER). destruct (frame_ids _ _ EF2) as [EI2 EP2]. destruct (find_ids st st2 r p ltac:(congruence) Hr) as (p2 & Hr2 & Et2).
  apply (wp_run _ _ _ _ _ _ _ (ReadPool_run _ _ _ Hr2)). change (EFI_SIZE_TO_PAGES 4096) with 1.
  assert (uses (entries_of c) = []) as Eu by (rewrite entries_of_ents; by apply uses_free).
  eapply wp_mono; [|apply (return_pages k c G' 1 (PoolMemoryType p2) st2); [by rewrite EP2, EP|by apply (Shape_frame _ st1)|done|by rewrite EM2|done|lia|lia|]].
  - intros u st' (HG' & EI' & EM' & HI'). split_and!; [done|congruence|]. exists G'. split_and!; [done| |].
    + rewrite HU, entries_cons, uses_app, Eu. done.
    + intros t' a' s' x Hu Hx. rewrite EM', EM2. apply (HUn t' a' s'); [|done]. by rewrite entries_cons, uses_app, Eu.
  - intros a' s' Hu. rewrite Eu in Hu. by apply elem_of_nil in Hu.
Qed.

Context {PEnv : PoolEnvironment}.

Lemma FreeTo_wp k G r p t a s st :
  Good (S k) (Pages st) -> PoolInv G st -> FindPool r st = Some p -> PoolMemoryType p = t -> (t, a, s) ∈ uses (entries G) ->
  a + SIZE_OF_POOL_HEAD ∉ (oem_ids st).*1 -> wp Stopped (FreeTo r t s a false false) st (FreePost k G t a s st).
Proof using Srv.
  intros HGd HInv Hr Ht Hu Hst. unfold FreeTo. apply (wp_run _ _ _ _ _ _ _ (ChangePool_run _ _ _)). fold (sub_used s).
  apply elem_uses in Hu as ([i u] & Hin & Eu). simpl in Eu. subst u. pose proof Hin as (c & Hc & Hct & Hp)%elem_entries. pose proof HInv as [HS HI HC HP].
  destruct (block_range _ _ _ _ _ HS Hc Hp) as (HB & Ha & Hlt). unfold BlockOk in HB. cbn [bUse bIndex] in HB. destruct HB as (Hs & Hm & Ei).
  assert (FindPool r (changed r (sub_used s) st) = Some (sub_used s p)) as Hr1 by (by rewrite changed_find_eq, Hr).
  apply (wp_run _ _ _ _ _ _ _ (ReadPool_run _ _ _ Hr1)). rewrite GranularityOf_page, page_index, Ei, !orb_false_r. case_bool_decide as Hi; [|by apply (ReturnBlock_wp k G r p); [..|lia|]].
  cbn [PoolMemoryType sub_used SetUsed]. assert (small (MkBlock i (Some s)) = false) as Hsm by (apply bool_decide_false; simpl; lia).
  pose proof (shape_chunks _ _ HS) as HOk. rewrite Forall_forall in HOk. pose proof (HOk c Hc) as Cok.
  assert (cBlocks c = [MkBlock i (Some s)] /\ a = cBase c) as [Ecb ->].
  { destruct (chunk_kind _ Cok) as [[_ H]|(b & Eb & Hb)].
    - exfalso. apply place_split in Hp as (l1 & l2 & El & _). rewrite El, Forall_app, Forall_cons in H. destruct H as (_ & H & _). congruence.
    - unfold placed in Hp. rewrite Eb in *. apply elem_of_cons in Hp as [[= -> <-]|Hp]; [done|by apply elem_of_nil in Hp]. }
  assert (spans (cBlocks c) = 4096 * ((s + 4095) / 4096)) as Esp by (rewrite Ecb; cbn [spans]; unfold span; rewrite Hsm; cbn [bUse]; lia).
  assert (span (MkBlock i (Some s)) = 4096 * ((s + 4095) / 4096)) as Esp1 by (unfold span; by rewrite Hsm).
  destruct (PoolPages_page s) as [EPp Hn]; [destruct (chunk_base _ Cok) as [Hal _]; unfold PageAligned in Hal; Z.div_mod_to_equations; lia|]. rewrite EPp. destruct (elem_of_Permutation G c) as [Hex _]. destruct (Hex Hc) as [G' HG].
  destruct (changed_frame r (sub_used s) st ltac:(done)) as [EF EM]. destruct (frame_ids _ _ EF) as [EI EPg].
  assert (entries_of c = [(t, cBase c, MkBlock i (Some s))]) as Eent by (rewrite entries_of_ents, Ecb, Hct; done).
  assert (entries G ≡ₚ (t, cBase c, MkBlock i (Some s)) :: entries G') as EE by (by rewrite HG, entries_cons, Eent).
  assert (uses (entries G) ≡ₚ (t, cBase c, s) :: uses (entries G')) as EU by (by rewrite EE, uses_cons).
  rewrite HG in HS, HI, HC. eapply wp_mono; [|apply (return_pages k c G' _ (PoolMemoryType p) (changed r (sub_used s) st)); [by rewrite EPg|by apply (Shape_frame _ st)|by apply Forall_cons in HI as [_ HI]|by rewrite EM| |done|done|]].
  - intros u st' (HG' & EI' & EM' & HI'). split_and!; [done|congruence|]. exists G'. split_and!; [done|done|]. apply Untouched_same. congruence.
  - rewrite EE in HP. apply (uncounted_pools (c :: G') _ r p t (cBase c) (MkBlock i (Some s))); try done.
  - intros a' s' Hu. rewrite Eent in Hu. apply elem_uses in Hu as (b & Hb & _). apply list_elem_of_singleton in Hb. injection Hb as _ -> _.
    assert (oem_ids (changed r (sub_used s) st) = oem_ids st) as -> by (unfold ids in EI; congruence). done.
Qed.

End Walk.
