(* ===== verification/PoolFree.v ===== *)
(** * The pool: freeing

    A pool of an OEM type whose count is 0 has no memory, since its chunks do not
    overlap and fit into the address space, so that the count did not wrap around;
    its structure is freed. *)
From Stdlib Require Import ZArith Lia.
From stdpp Require Import base numbers option list.
From S2P Require Import Prelude StateMonad Gcd MemoryBin Page PageMap PageOps PageFind PageInv PageSteps PageStack PageTotal PageServices PageReach Pool PoolLayout PoolRules PoolCarve PoolTake PoolPages PoolFresh PoolAllocate PoolReturn PoolWalk.

(** ** The count of a pool *)

Definition points (pts : list Z) (c : Chunk) : nat := length (filter (fun a => in_chunk a c) pts).
Fixpoint total (pts : list Z) (G : list Chunk) : nat := match G with [] => 0 | c :: G => points pts c + total pts G end.

Lemma total_cons x pts G : total (x :: pts) G = (length (filter (in_chunk x) G) + total pts G)%nat.
Proof. induction G as [|c G IH]; [done|]. cbn [total]. rewrite IH. unfold points. rewrite !filter_cons. repeat case_decide; simpl; try done; lia. Qed.

Lemma total_bound pts G : Disjoint G -> (total pts G <= length pts)%nat.
Proof.
  intros HD. induction pts as [|x pts IH].
  - clear HD. induction G as [|c G IH]; [done|]. cbn [total]. unfold points. rewrite filter_nil. simpl in *. lia.
  - rewrite total_cons. specialize (HD x). simpl. lia.
Qed.

Lemma points_length c M : 0 <= cBase c -> cEnd c <= M -> spans (cBlocks c) <= Z.of_nat (points (seqZ 0 M) c).
Proof.
  intros H0 HM. destruct (Z.le_gt_cases (spans (cBlocks c)) 0) as [?|Hp]; [lia|].
  assert (seqZ (cBase c) (spans (cBlocks c)) ⊆+ filter (fun a => in_chunk a c) (seqZ 0 M)) as HS.
  { apply NoDup_submseteq; [apply NoDup_seqZ|]. intros x Hx%elem_of_seqZ. apply list_elem_of_filter. unfold in_chunk, cEnd in *. split; [lia|]. apply elem_of_seqZ. lia. }
  apply submseteq_length in HS. rewrite length_seqZ in HS. unfold points. lia.
Qed.

Lemma total_spans M G : (forall c, c ∈ G -> 0 <= cBase c /\ cEnd c <= M) ->
  foldr (fun c n => spans (cBlocks c) + n) 0 G <= Z.of_nat (total (seqZ 0 M) G).
Proof.
  induction G as [|c G IH]; intros HG; [done|]. cbn [foldr total]. destruct (HG c ltac:(by left)) as [? ?]. pose proof (points_length c M ltac:(done) ltac:(done)).
  specialize (IH ltac:(intros c' Hc'; apply HG; by right)). lia.
Qed.

Lemma used_ents t t' l : forall a, Forall BlockOk l -> 0 <= used t (ents t' a l) <= spans l.
Proof.
  induction l as [|b l IH]; intros a HF; [simpl; lia|]. apply Forall_cons in HF as [Hb HF]. rewrite ents_cons. cbn [used spans]. specialize (IH (a + span b) HF).
  pose proof (BlockOk_span _ Hb). unfold used_entry. cbn [fst snd]. unfold BlockOk in Hb. destruct (_ =? _); [|lia]. destruct (bUse b) as [s|]; simpl in *; lia.
Qed.

Lemma used_entries t G : Forall ChunkOk G -> 0 <= used t (entries G) <= foldr (fun c n => spans (cBlocks c) + n) 0 G.
Proof.
  induction 1 as [|c G Hc _ IH]; [done|]. rewrite entries_cons, used_app, entries_of_ents. cbn [foldr].
  pose proof (used_ents t (cType c) (cBlocks c) (cBase c) (chunk_blocks _ Hc)). lia.
Qed.

Lemma used_positive t l : forall a, Forall BlockOk l -> Exists (fun b => is_Some (bUse b)) l -> 0 < used t (ents t a l).
Proof.
  induction l as [|b l IH]; intros a HF HE; [by apply Exists_nil in HE|]. apply Forall_cons in HF as [Hb HF]. rewrite ents_cons. cbn [used].
  pose proof (used_ents t t l (a + span b) HF). unfold used_entry. cbn [fst snd]. rewrite Z.eqb_refl. unfold BlockOk in Hb.
  apply Exists_cons in HE as [[s Hs]|HE]; [rewrite Hs in *; simpl; lia|]. specialize (IH (a + span b) HF HE). destruct (bUse b); simpl in *; lia.
Qed.

(** The count of a type is 0 only if the type has no memory. *)
Lemma used_small G st t : Shape G st -> 0 <= used t (entries G) < 2 ^ 64.
Proof.
  intros HS. pose proof (shape_chunks _ _ HS) as HF. pose proof (used_entries t G HF). rewrite Forall_forall in HF.
  assert (forall c, c ∈ G -> 0 <= cBase c /\ cEnd c <= 2 ^ 64 - 1) as HG.
  { intros c Hc. destruct (chunk_base _ (HF c Hc)) as [_ H0]. split; [lia|]. destruct (shape_owned _ _ HS c Hc) as [HO _].
    destruct (Z.le_gt_cases (cEnd c) (cBase c + 1)) as [Hle|Hgt]; [|destruct (Owned_range _ _ _ (shape_idle _ _ HS) HO ltac:(lia)); lia].
    destruct (chunk_kind _ (HF c Hc)) as [[E _]|(b & E & _)]; unfold cEnd in *; [lia|].
    pose proof (chunk_blocks _ (HF c Hc)) as HB. rewrite E in HB, Hle. apply Forall_singleton, BlockOk_span in HB. cbn [spans] in Hle. lia. }
  pose proof (total_spans (2 ^ 64 - 1) G HG) as H1. pose proof (total_bound (seqZ 0 (2 ^ 64 - 1)) G (shape_disjoint _ _ HS)) as H2. rewrite length_seqZ in H2. lia.
Qed.

Lemma used_zero G st t : Shape G st -> Forall InUse G -> u64 (used t (entries G)) = 0 -> forall c, c ∈ G -> cType c <> t.
Proof.
  intros HS HI HU c Hc Et. pose proof (used_small G st t HS). unfold u64 in HU. rewrite Z.mod_small in HU by done.
  destruct (elem_of_Permutation G c) as [Hex _]. destruct (Hex Hc) as [G' HG]. pose proof (shape_chunks _ _ HS) as HF. rewrite HG in HF, HI, HU.
  apply Forall_cons in HF as [Hcok HF]. apply Forall_cons in HI as [Hcu _]. rewrite entries_cons, used_app, entries_of_ents, Et in HU.
  pose proof (used_positive t (cBlocks c) (cBase c) (chunk_blocks _ Hcok) Hcu). pose proof (used_entries t G' HF). lia.
Qed.

(** ** The structure of a pool *)

Definition dropped (a : Z) (st : PoolState) : PoolState := SetPoolHeadList (filter (fun x => x.1 ≠ a) (mPoolHeadList st)) st.

Lemma filter_all {A} (P : A -> Prop) `{forall x, Decision (P x)} (l : list A) : (forall x, x ∈ l -> P x) -> filter P l = l.
Proof. induction l as [|x l IH]; intros Hl; [done|]. rewrite filter_cons_True by (apply Hl; by left). rewrite IH; [done|]. intros y Hy. apply Hl. by right. Qed.

Lemma key_split {A} (P : list (Z * A)) x : NoDup P.*1 -> x ∈ P -> P ≡ₚ x :: filter (fun y => y.1 ≠ x.1) P.
Proof.
  induction P as [|y P IH]; intros HN Hx; [by apply elem_of_nil in Hx|]. apply NoDup_cons in HN as [Hy HN]. rewrite filter_cons.
  apply elem_of_cons in Hx as [->|Hx].
  - rewrite decide_False by (intros H; by apply H). apply Permutation_skip. rewrite filter_all; [done|]. intros z Hz E. apply Hy. rewrite <- E. apply list_elem_of_fmap. by exists z.
  - rewrite decide_True; [|intros E; apply Hy; rewrite E; apply list_elem_of_fmap; by exists x]. rewrite Permutation_swap. by apply Permutation_skip, IH.
Qed.

Lemma dropped_ids a st : oem_ids (dropped a st) = filter (fun y => y.1 ≠ a) (oem_ids st).
Proof. unfold oem_ids. simpl. induction (mPoolHeadList st) as [|x P IH]; [done|]. rewrite fmap_cons, !filter_cons. simpl. case_decide; [|done]. by rewrite fmap_cons, IH. Qed.

Lemma dropped_find a r st p : FindPool r (dropped a st) = Some p -> FindPool r st = Some p.
Proof.
  destruct r as [t|x]; [done|]. simpl. induction (mPoolHeadList st) as [|y P IH]; [done|]. rewrite filter_cons. case_decide as Hy.
  - rewrite !filter_cons. case_decide; [done|apply IH].
  - rewrite filter_cons. case_decide as Hx; [|apply IH]. intros Hp. apply fmap_Some_1 in Hp as (z & Hz & _). apply head_Some_elem_of in Hz.
    apply list_elem_of_filter in Hz as [Ez Hz]. apply list_elem_of_filter in Hz as [Nz _]. destruct Hy. congruence.
Qed.

Lemma drop_pool L a p st :
  PoolLive L st -> FindPool (OemPool a) st = Some p -> PoolUsed p = 0 -> PoolLive ((EfiBootServicesData, a - SIZE_OF_POOL_HEAD, 272) :: L) (dropped a st).
Proof.
  intros (G & [HS HI HC HP] & HU) Hp H0. pose proof (FindPool_type _ _ _ _ HS Hp) as Hin. simpl in Hin. pose proof HS as [H1 H2 H3 H4 H5 (H61 & H62 & H63) H7 H8].
  pose proof (pool_used _ _ (HP _ _ Hp)) as EU. rewrite H0 in EU. pose proof (used_zero G st (PoolMemoryType p) HS HI (eq_sym EU)) as Habs.
  pose proof (key_split (oem_ids st) (a, PoolMemoryType p) H61 Hin) as ES. cbn [fst] in ES. rewrite <- dropped_ids in ES. set (st' := dropped a st) in *.
  assert ((oem_ids st).*1 ≡ₚ a :: (oem_ids st').*1) as ES1 by (by rewrite ES). assert ((oem_ids st).*2 ≡ₚ PoolMemoryType p :: (oem_ids st').*2) as ES2 by (by rewrite ES).
  exists G. split; [split; [split; try done|done|done|]|].
  - rewrite ES1 in H61. rewrite ES2 in H62, H63. apply NoDup_cons in H61 as [_ ?]. apply NoDup_cons in H62 as [_ ?]. apply Forall_cons in H63 as [_ ?]. done.
  - intros c Hc. destruct (H7 c Hc) as [?|Ht]; [by left|right]. rewrite ES2 in Ht. apply elem_of_cons in Ht as [Ht|?]; [|done]. by destruct (Habs c Hc).
  - intros x Hx. apply H8. rewrite ES1. by right.
  - intros r q Hq. apply (HP r). by apply dropped_find in Hq.
  - rewrite HU. unfold structs. rewrite ES. simpl. apply Permutation_middle.
Qed.

Section Free.
Context {Env : PageEnvironment} {Stopped : Prop} {Good : nat -> PageState -> Prop} {Srv : PageServer Stopped Good}.
Context {PEnv : PoolEnvironment} {Off : GuardOff Env} {Q : Quiet Env} {PQ : PoolQuiet PEnv}.

Definition LivePost {A} (k : nat) (L : list (Z * Z * Z)) (R : A -> Prop) (st : PoolState) (r : A) (st' : PoolState) : Prop :=
  R r /\ Good k (Pages st') /\ mPoolMemoryLock st' = mPoolMemoryLock st /\ Untouched L st st' /\ PoolLive L st'.

Definition FreesStruct (FreeI : Z -> QM (EFI_STATUS * Z)) (k : nat) : Prop := forall L a st,
  Good (S k) (Pages st) -> mPoolMemoryLock st = true -> PoolLive ((EfiBootServicesData, a, 272) :: L) st ->
  wp Stopped (FreeI (a + SIZE_OF_POOL_HEAD)) st (LivePost k L (fun _ => True) st).

Lemma ReleasePool_wp FreeI k L r p st :
  FreesStruct FreeI k /\ Good (S k) (Pages st) \/ PoolMemoryType p < EfiMaxMemoryType /\ Good k (Pages st) ->
  mPoolMemoryLock st = true -> PoolLive L st -> FindPool r st = Some p ->
  wp Stopped (ReleasePool FreeI r) st (LivePost k L (fun _ => True) st).
Proof using Srv.
  intros HFr Hl HL Hr. unfold ReleasePool. apply (wp_run _ _ _ _ _ _ _ (ReadPool_run _ _ _ Hr)).
  destruct ((MEMORY_TYPE_OEM_RESERVED_MIN <=? PoolMemoryType p) && (PoolUsed p =? 0)) eqn:EC.
  2: { apply wp_ret. split_and!; [done|by destruct HFr as [[_ ?%good_less]|[_ ?]]|done|by apply Untouched_same|done]. }
  bool_to_Z. destruct HFr as [[HFr HGd]|[? _]]; [|unfold MEMORY_TYPE_OEM_RESERVED_MIN, EfiMaxMemoryType in *; lia]. destruct r as [t|a].
  { destruct HL as (G & HI & _). destruct (FindPool_type _ _ _ _ (inv_shape _ _ HI) Hr) as [Et Ht]. unfold MEMORY_TYPE_OEM_RESERVED_MIN in *. lia. }
  apply (wp_run _ _ _ _ tt (dropped a st)); [done|]. apply wp_bind.
  replace a with (a - SIZE_OF_POOL_HEAD + SIZE_OF_POOL_HEAD) at 1 by lia.
  eapply wp_mono; [|apply (HFr L); [done|done|by apply (drop_pool L a p)]]. intros u st' (_ & HG' & El & HUn & HL'). apply wp_ret. split_and!; [done..|exact HUn|done].
Qed.

(** The pool of a type in use is found. *)
Lemma Lookup_found AllocateI G c st : PoolInv G st -> c ∈ G ->
  exists r p, LookupPoolHead AllocateI (cType c) st = Done (Some r, st) /\ FindPool r st = Some p /\ PoolMemoryType p = cType c.
Proof using.
  intros HI Hc. pose proof (inv_shape _ _ HI) as HS. unfold LookupPoolHead. destruct (shape_types _ _ HS c Hc) as [Ht|Ht].
  - destruct (static_pool G st (cType c) HS Ht) as (p & Hp & Et). exists (StaticPool (Z.to_nat (cType c))), p. by rewrite (proj2 (Z.ltb_lt _ _)) by lia.
  - pose proof (oem_type_large G st _ HS Ht) as Hb. rewrite (proj2 (Z.ltb_ge _ _)) by (unfold EfiMaxMemoryType, MEMORY_TYPE_OEM_RESERVED_MIN in *; lia).
    rewrite (proj2 (Z.leb_le _ _)) by lia. rewrite (Get_run (S:=PoolState)). rewrite (proj2 (oem_keys st)) in Ht. apply list_elem_of_fmap in Ht as (x & Ex & Hx).
    destruct (head _) as [y|] eqn:Eh.
    + apply head_Some_elem_of, list_elem_of_filter in Eh as [Ey Hy]. exists (OemPool y.1), y.2. split_and!; [done|by apply (oem_pool G)|done].
    + apply head_None in Eh. assert (x ∈ filter (fun z => PoolMemoryType z.2 = cType c) (mPoolHeadList st)) as Hf by (by apply list_elem_of_filter). rewrite Eh in Hf.
      by apply elem_of_nil in Hf.
Qed.

Lemma live_uses L st t a s : PoolLive ((t, a, s) :: L) st -> a + SIZE_OF_POOL_HEAD ∉ (oem_ids st).*1.
Proof using.
  intros (G & [HS _ _ _] & HU) Hin. pose proof (uses_NoDup G (shape_chunks _ _ HS) (shape_disjoint _ _ HS)) as HN. rewrite HU, fmap_app in HN.
  apply NoDup_app in HN as (_ & HN & _). apply (HN a); [|by left]. apply list_elem_of_fmap in Hin as (x & Ex & Hx). apply list_elem_of_fmap.
  exists (EfiBootServicesData, x.1 - SIZE_OF_POOL_HEAD, 272). split; [simpl; lia|]. apply list_elem_of_fmap. by exists x.
Qed.

Lemma FreePoolBody_wp FreeI j k L t a s st :
  FreesStruct FreeI k /\ j = S k \/ t < EfiMaxMemoryType /\ j = k -> Good (S j) (Pages st) -> mPoolMemoryLock st = true -> PoolLive ((t, a, s) :: L) st ->
  wp Stopped (FreePoolBody FreeI (a + SIZE_OF_POOL_HEAD)) st (LivePost k L (fun r => r = (EFI_SUCCESS, t)) st).
Proof using Srv PQ.
  intros HFr HGd Hl HL. pose proof (live_uses _ _ _ _ _ HL) as Hst. pose proof HL as (G & HI & HU).
  assert ((t, a, s) ∈ uses (entries G)) as Hin by (rewrite HU; apply elem_of_app; right; by left). pose proof Hin as (b & Hb & Eb)%elem_uses.
  apply elem_entries in Hb as (c & Hc & Hct & Hp). destruct (block_range _ _ _ _ _ (inv_shape _ _ HI) Hc Hp) as (HB & Ha & Hlt).
  pose proof (inv_cells _ _ HI c a b Hc Hp (fun H => H)) as HC. unfold Cells in HC. unfold BlockOk in HB. rewrite Eb in HB, HC. destruct HC as (C1 & C2 & C3 & C4 & C5 & _).
  unfold FreePoolBody, SIZE_OF_POOL_HEAD. rewrite sub64_small, Z.add_simpl_r by lia. unfold Load.
  apply (wp_run _ _ _ _ tt st); [by rewrite (proj2 (Z.eqb_neq _ _)) by lia|]. apply (wp_run _ _ _ _ tt st); [by rewrite (proj2 (Z.eqb_neq _ _)) by lia|].
  apply (wp_run _ _ _ _ POOL_HEAD_SIGNATURE st); [unfold Get; by rewrite C1|]. apply (wp_run _ _ _ _ tt st); [done|]. apply (wp_run _ _ _ _ t st); [unfold Get; by rewrite C2, Hct|].
  apply (wp_run _ _ _ _ false st); [by rewrite no_pool_guard|]. cbn [andb negb]. apply (wp_run _ _ _ _ s st); [unfold Get; by rewrite C3|].
  rewrite add64_small, sub64_small by (unfold sizeof_POOL_TAIL; lia). apply (wp_run _ _ _ _ tt st).
  { rewrite (Get_run (S:=PoolState)), C4. rewrite (Assert_run (S:=PoolState)) by done. rewrite (Get_run (S:=PoolState)), C5. unfold Assert. by rewrite Z.eqb_refl. }
  apply (wp_run _ _ _ _ tt st); [unfold ASSERT_POOL_LOCKED; rewrite (Get_run (S:=PoolState)), Hl; done|].
  destruct (Lookup_found CoreAllocatePoolI G c st HI Hc) as (r & p & EL & Hr & Et). rewrite Hct in EL, Et. apply (wp_run _ _ _ _ _ _ _ EL).
  change (POOL_HEAD_SIGNATURE =? POOLPAGE_HEAD_SIGNATURE) with false. apply wp_bind.
  eapply wp_mono; [|by apply (FreeTo_wp j G r p t a s st)]. intros u st1 (HG1 & EI & G1 & HI1 & HU1 & HUn1).
  assert (mPoolMemoryLock st1 = true /\ structs st1 = structs st) as [El1 ES1] by (unfold structs; unfold ids in EI; split; congruence).
  assert (uses (entries G1) ≡ₚ structs st1 ++ L) as HU2.
  { rewrite ES1. apply (inj (cons (t, a, s))). rewrite <- HU1, HU. symmetry. apply Permutation_middle. }
  destruct (find_ids _ _ _ _ EI Hr) as (p1 & Hr1 & Et1). apply wp_bind.
  eapply wp_mono; [|apply (ReleasePool_wp FreeI k L r p1 st1); [rewrite Et1, Et; destruct HFr as [[? ->]|[? ->]]; auto|done|by exists G1|done]].
  intros u2 st2 (_ & HG2 & El2 & HUn2 & HL2). apply wp_ret. split_and!; [done|done|congruence| |done]. apply (Untouched_trans _ _ st1); [|done].
  eapply Untouched_sub; [|exact HUn1]. intros x Hx. rewrite HU2. apply elem_of_app. by right.
Qed.

Lemma body_frees FreeI k : FreesStruct (FreePoolBody FreeI) k.
Proof using Srv PQ.
  intros L a st HGd Hl HL. eapply wp_mono; [|apply (FreePoolBody_wp FreeI k k L EfiBootServicesData a 272 st); [right; split; [done|done]|done..]].
  intros r st' (_ & H). by split.
Qed.

(** ** The service *)

Lemma CoreFreePool_wp k L t a s st :
  Good (S (S k)) (Pages st) -> mPoolMemoryLock st = false -> PoolLive ((t, a, s) :: L) st ->
  wp Stopped (CoreFreePool (a + SIZE_OF_POOL_HEAD)) st (LivePost k L (fun Status => Status = EFI_SUCCESS) st).
Proof using Srv Q PQ.
  intros HGd Hl HL. assert (0 < a) as Ha.
  { pose proof HL as (G & HI & HU). assert ((t, a, s) ∈ uses (entries G)) as Hu by (rewrite HU; apply elem_of_app; right; by left).
    apply elem_uses in Hu as (b & Hb & _). apply elem_entries in Hb as (c & Hc & _ & Hp). by destruct (block_range _ _ _ _ _ (inv_shape _ _ HI) Hc Hp) as (_ & ? & _). }
  unfold CoreFreePool. apply wp_bind. unfold CoreInternalFreePool. rewrite (proj2 (Z.eqb_neq _ _)) by (unfold SIZE_OF_POOL_HEAD; lia).
  apply (wp_run _ _ _ _ tt (SetPoolLock true st)); [unfold CoreAcquirePoolLock; rewrite (Get_run (S:=PoolState)), Hl; done|]. apply wp_bind.
  eapply wp_mono; [|apply (FreePoolBody_wp _ (S k) k L t a s (SetPoolLock true st)); [left; split; [apply body_frees|done]|done|done|by apply SetPoolLock_live]].
  intros r st1 (-> & HG1 & El & HUn & HL1). apply (wp_run _ _ _ _ tt (SetPoolLock false st1)).
  { unfold CoreReleasePoolLock. rewrite (Get_run (S:=PoolState)), El. rewrite (Assert_run (S:=PoolState)) by done. rewrite (Change_run (S:=PoolState)). apply quiet_pool. }
  apply wp_ret. cbn beta iota. change (EFI_ERROR EFI_SUCCESS) with false. cbn [negb]. apply (wp_run _ _ _ _ tt (SetPoolLock false st1)).
  { unfold OnPages, Within, mbind, SM_bind. rewrite quiet_profile, SetPagesState_id, quiet_table. by rewrite SetPagesState_id. }
  apply wp_ret. split_and!; [done|done|by rewrite Hl|exact HUn|by apply SetPoolLock_live].
Qed.

End Free.
