(* ===== verification/PoolTheorems.v ===== *)
(** * The pool: the services

    What callers can rely on.  The abstract state is the list of live buffers, each
    with its type, the address of its head and its size with head and tail;
    [PoolLive] relates it to the pool and the pages under it. *)
From Stdlib Require Import ZArith Lia.
From stdpp Require Import base numbers option list.
From S2P Require Import Prelude StateMonad Gcd MemoryBin Page PageSample PageMap PageOps PageFind PageInv PageSteps PageStack PageTotal PageServices PageReach PageTheorems Pool PoolLayout PoolRules PoolCarve PoolTake PoolPages PoolFresh PoolAllocate PoolReturn PoolWalk PoolFree.

(** ** Live buffers *)

Definition buffer : Type := Z * Z * Z.
Definition apart_buffers (u v : buffer) : Prop := u.1.2 + u.2 <= v.1.2 \/ v.1.2 + v.2 <= u.1.2.

(** Memory of the type of the buffer, which the page allocator will not give to
    anybody else. *)
Definition Backed (st : PoolState) (u : buffer) : Prop :=
  0 < u.1.2 /\ u.1.2 mod 8 = 0 /\ 40 <= u.2 /\ Owned (Pages st) u.1.2 (u.1.2 + u.2 - 1) /\ exists x, Uniform (Pages st) u.1.2 (u.1.2 + u.2 - 1) (u.1.1, x).

(** Buffers do not overlap. *)
Definition Apart (L : list buffer) : Prop := forall u v L', L ≡ₚ u :: v :: L' -> apart_buffers u v.

Lemma placed_aligned c a b : ChunkOk c -> (a, b) ∈ placed c -> a mod 8 = 0.
Proof.
  intros HC Hp. destruct (chunk_base _ HC) as [Hal _]. unfold PageAligned in Hal. unfold placed in Hp.
  destruct (chunk_kind _ HC) as [[_ Hs]|(k & Ek & _)].
  - apply place_split in Hp as (l1 & l2 & El & ->). rewrite El in Hs. apply Forall_app in Hs as [Hs _].
    assert (spans l1 mod 128 = 0) as Hm; [|Z.div_mod_to_equations; lia]. clear El. induction Hs as [|k l Hk _ IH]; [done|]. cbn [spans].
    unfold span. rewrite Hk. apply bool_decide_eq_true, tsize_small in Hk as [_ Hk]. Z.div_mod_to_equations. lia.
  - rewrite Ek in Hp. apply elem_of_cons in Hp as [[= -> _]|Hp]; [|by apply elem_of_nil in Hp]. Z.div_mod_to_equations. lia.
Qed.

Lemma live_backed L st : PoolLive L st -> Forall (Backed st) L.
Proof.
  intros (G & HI & HU). apply Forall_forall. intros [[t a] s] Hu. assert ((t, a, s) ∈ uses (entries G)) as Hin by (rewrite HU; apply elem_of_app; by right).
  apply elem_uses in Hin as (b & Hb & Eb). apply elem_entries in Hb as (c & Hc & Hct & Hp). pose proof (inv_shape _ _ HI) as HS.
  destruct (block_range _ _ _ _ _ HS Hc Hp) as (HB & Ha & Hlt). unfold BlockOk in HB. rewrite Eb in HB. pose proof (shape_chunks _ _ HS) as HF. rewrite Forall_forall in HF.
  destruct (placed_in c a b (HF c Hc) Hp) as (_ & ? & ?). destruct (shape_owned _ _ HS c Hc) as [[HO1 HO2] [x HX]]. unfold Backed. cbn [fst snd].
  split_and!; [done|by apply (placed_aligned c a b (HF c Hc))|lia| |].
  - split; [intros y Hy; apply HO1; lia|intros y Hy Hy'; apply (HO2 y Hy); lia].
  - exists x. rewrite <- Hct. intros y Hy. apply HX. lia.
Qed.

Lemma live_apart L st : PoolLive L st -> Apart L.
Proof.
  intros (G & HI & HU) [[t a] s] [[t' a'] s'] L' HL. pose proof (inv_shape _ _ HI) as HS.
  assert ((t, a, s) ∈ uses (entries G) /\ (t', a', s') ∈ uses (entries G)) as [H1 H2] by (split; rewrite HU, HL; apply elem_of_app; right; [by left|by right; left]).
  apply elem_uses in H1 as (b & Hb & Eb). apply elem_uses in H2 as (b' & Hb' & Eb'). apply elem_entries in Hb as (c & Hc & _ & Hp).
  apply elem_entries in Hb' as (c' & Hc' & _ & Hp'). destruct (block_range _ _ _ _ _ HS Hc Hp) as (HB & _ & _). destruct (block_range _ _ _ _ _ HS Hc' Hp') as (HB' & _ & _).
  unfold BlockOk in HB, HB'. rewrite Eb in HB. rewrite Eb' in HB'. unfold apart_buffers. cbn [fst snd].
  destruct (blocks_apart G st c c' a b a' b' HS Hc Hc' Hp Hp') as [(_ & -> & _)|?]; [exfalso|lia].
  pose proof (uses_NoDup G (shape_chunks _ _ HS) (shape_disjoint _ _ HS)) as HN. rewrite HU, HL, fmap_app in HN. apply NoDup_app in HN as (_ & _ & HN).
  apply NoDup_cons in HN as [HN _]. apply HN. by left.
Qed.

(** ** Reachable states *)

Section Services.
Context {Env : PageEnvironment} {PEnv : PoolEnvironment} {Off : GuardOff Env} {Q : Quiet Env} {PQ : PoolQuiet PEnv}.

(** The live buffers after a request. *)
Definition Granting (t Size : Z) (r : EFI_STATUS * option Z) (L : list buffer) : list buffer :=
  if EFI_ERROR r.1 then L else (t, default 0 r.2 - SIZE_OF_POOL_HEAD, BlockSize Size) :: L.

(** From the initialisation, callers allocate buffers, write to their own, and
    free them; pages are allocated meanwhile.  Left out are requests of
    [2 ^ 64 - 8192 <= Size <= MAX_POOL_SIZE] bytes, which the code accepts although
    the size of the block wraps around ([CoreAllocatePool_wraps]), and calls of the
    page services for 2^52 pages or more.  The section also assumes that the heap
    guard is off and that nothing that the allocators call back changes their
    state ([GuardOff], [Quiet], [PoolQuiet]). *)
Inductive PoolReaches : list buffer -> PoolState -> Prop :=
| ReachInitial st st' : Idle (Pages st) -> mPoolMemoryLock st = false -> mPoolHeadList st = [] -> CoreInitializePool st = Done (tt, st') -> PoolReaches [] st'
| ReachAllocate t Size Buffer L st r st' :
    PoolReaches L st -> 0 <= t -> ModestSize Size \/ MAX_POOL_SIZE < Size -> CoreAllocatePool t Size Buffer st = Done (r, st') ->
    PoolReaches (Granting t Size r L) st'
| ReachFree t a s L L' st Status st' :
    PoolReaches L st -> L ≡ₚ (t, a, s) :: L' -> CoreFreePool (a + SIZE_OF_POOL_HEAD) st = Done (Status, st') -> PoolReaches L' st'
| ReachWrite t a s x v L st :
    PoolReaches L st -> (t, a, s) ∈ L -> a + SIZE_OF_POOL_HEAD <= x < a + s - sizeof_POOL_TAIL -> PoolReaches L (stored x v st)
| ReachPages Type_ t n m L st r pst :
    PoolReaches L st -> 0 <= n < 2 ^ 52 -> 0 <= m < 2 ^ 64 -> CoreAllocatePages Type_ t n (Some m) (Pages st) = Done (r, pst) ->
    PoolReaches L (SetPagesState pst st).

#[export] Instance PoolLive_proper : Proper ((≡ₚ) ==> eq ==> iff) PoolLive.
Proof using. intros L L' HL st ? <-. unfold PoolLive. by setoid_rewrite HL. Qed.

Lemma initial_live st : PageInv (Pages st) -> mPoolHeadList st = [] -> PoolLive [] (SetPoolHead ((fun t => MkPool 0 (Z.of_nat t) EmptyLists) <$> seq 0 16) st).
Proof using.
  intros HI H0. exists []. assert (oem_ids st = []) as EO by (unfold oem_ids; by rewrite H0). split; [split; [split|..]|].
  - done.
  - intros a. simpl. lia.
  - by intros c ?%elem_of_nil.
  - done.
  - cbn [mPoolHead SetPoolHead]. by rewrite <- list_fmap_compose.
  - change (oem_ids (SetPoolHead _ st)) with (oem_ids st). rewrite EO. split_and!; constructor.
  - by intros c ?%elem_of_nil.
  - intros a. change (oem_ids (SetPoolHead _ st)) with (oem_ids st). rewrite EO. by intros ?%elem_of_nil.
  - done.
  - by intros c a b ?%elem_of_nil.
  - intros r p Hp. destruct r as [t|a]; cbn [FindPool mPoolHead mPoolHeadList SetPoolHead] in Hp; [|rewrite H0 in Hp; done].
    rewrite list_lookup_fmap in Hp. apply fmap_Some_1 in Hp as (k & _ & ->). split; simpl; [done| |done]. intros i l Hl. by apply lookup_replicate in Hl as [-> _].
  - unfold structs. change (oem_ids (SetPoolHead _ st)) with (oem_ids st). by rewrite EO.
Qed.

(** A caller writes to its buffer. *)
Lemma write_live t a s x v L st : PoolLive L st -> (t, a, s) ∈ L -> a + SIZE_OF_POOL_HEAD <= x < a + s - sizeof_POOL_TAIL -> PoolLive L (stored x v st).
Proof using.
  intros (G & [HS HU HC HP] & E) Hin Hx. exists G. split; [|exact E]. assert (Shape G (stored x v st)) as HS' by (by apply (Shape_frame _ st)).
  split; [done|done| |intros r p Hp; apply (HP r); by destruct r]. assert ((t, a, s) ∈ uses (entries G)) as Hu by (rewrite E; apply elem_of_app; by right).
  apply elem_uses in Hu as (b & Hb & Eb). apply elem_entries in Hb as (c & Hc & _ & Hp). destruct (block_range _ _ _ _ _ HS Hc Hp) as (HB & _ & _).
  pose proof HB as HB0. unfold BlockOk in HB0. rewrite Eb in HB0. unfold SIZE_OF_POOL_HEAD, sizeof_POOL_TAIL in Hx.
  intros d y k Hd Hpy _. specialize (HC d y k Hd Hpy (fun H => H)). destruct (block_range _ _ _ _ _ HS Hd Hpy) as (HBk & _ & _).
  destruct (blocks_apart G st d c y k a b HS Hd Hc Hpy Hp) as [(-> & -> & ->)|Hap].
  - revert HC. unfold Cells. rewrite Eb. unfold OFFSET_Signature, OFFSET_Type, OFFSET_Size, OFFSET_TailSignature, OFFSET_TailSize, sizeof_POOL_TAIL, OFFSET_Index.
    unfold stored. cbn [Memory SetMemory]. rewrite !(proj2 (Z.eqb_neq _ x)) by lia. done.
  - apply (Cells_local (Memory st)); [done| |done]. intros z Hz. unfold stored. cbn [Memory SetMemory]. by rewrite (proj2 (Z.eqb_neq _ _)) by lia.
Qed.

(** What holds between the services. *)
Definition PoolIdle (L : list buffer) (st : PoolState) : Prop := PoolLive L st /\ Idle (Pages st) /\ mPoolMemoryLock st = false.

Lemma allocate_idle t Size Buffer L st r st' :
  PoolIdle L st -> 0 <= t -> ModestSize Size \/ MAX_POOL_SIZE < Size -> CoreAllocatePool t Size Buffer st = Done (r, st') -> PoolIdle (Granting t Size r L) st'.
Proof using Off Q PQ.
  intros (HL & HId & Hl) Ht HM E. destruct (InvalidAllocationType t) eqn:Hv.
  { unfold CoreAllocatePool, CoreInternalAllocatePool in E. rewrite Hv in E. by injection E as <- <-. }
  destruct Buffer as [m|]; [|unfold CoreAllocatePool, CoreInternalAllocatePool in E; rewrite Hv in E; by injection E as <- <-].
  destruct HM as [HM|HM].
  2: { unfold CoreAllocatePool, CoreInternalAllocatePool in E. rewrite Hv, (proj2 (Z.ltb_lt _ _) HM) in E. by injection E as <- <-. }
  pose proof (CoreAllocatePool_wp (Good := fun _ => Idle) (Stopped := True) 0 L t Size m st HId Hl HL Ht Hv HM) as HW. unfold wp in HW. rewrite E in HW.
  destruct HW as (HId' & Hl' & _ & [[-> HL']|(a & -> & HL')]); [by split_and!|]. split_and!; [|done|done]. unfold Granting. cbn [fst snd].
  change (EFI_ERROR EFI_SUCCESS) with false. cbv iota. assert (default 0 (Some (a + SIZE_OF_POOL_HEAD)) - SIZE_OF_POOL_HEAD = a) as -> by (simpl; lia). done.
Qed.

Lemma free_idle t a s L st Status st' :
  PoolIdle ((t, a, s) :: L) st -> CoreFreePool (a + SIZE_OF_POOL_HEAD) st = Done (Status, st') -> PoolIdle L st' /\ Status = EFI_SUCCESS.
Proof using Off Q PQ.
  intros (HL & HId & Hl) E. pose proof (CoreFreePool_wp (Good := fun _ => Idle) (Stopped := True) 0 L t a s st HId Hl HL) as HW. unfold wp in HW. rewrite E in HW.
  destruct HW as (-> & HId' & Hl' & _ & HL'). split; [split_and!; [done|done|congruence]|done].
Qed.

Lemma pages_idle Type_ t n m L st r pst :
  PoolIdle L st -> 0 <= n < 2 ^ 52 -> 0 <= m < 2 ^ 64 -> CoreAllocatePages Type_ t n (Some m) (Pages st) = Done (r, pst) -> PoolIdle L (SetPagesState pst st).
Proof using Off Q.
  intros ((G & HI & HU) & HId & Hl) Hn Hm E. destruct r as [Status Memory'].
  destruct (CoreAllocatePages_spec Type_ t n (Some m) (Pages st) Status Memory' pst HId Hn ltac:(by intros ? [= <-]) E) as [HId' HC]. split_and!; [|done|done].
  exists G. split; [|exact HU]. apply PoolInv_pages; [done|apply (calm_inv _ (proj1 HId'))|].
  destruct HC as [[_ HG]|(_ & _ & b & _ & HG)]; [by apply Grows_spares|by eapply Granted_spares].
Qed.

Lemma reaches_idle L st : PoolReaches L st -> PoolIdle L st.
Proof using Off Q PQ.
  induction 1 as [st st' HI Hl H0 E|t Size Buffer L st r st' _ IH Ht HM E|t a s L L' st Status st' _ IH HL E|t a s x v L st _ IH Hin Hx|Type_ t n m L st r pst _ IH Hn Hm E].
  - injection E as <-. split_and!; [|done|done]. apply initial_live; [apply (calm_inv _ (proj1 HI))|done].
  - by apply (allocate_idle t Size Buffer L st).
  - destruct IH as (H1 & H2 & H3). rewrite HL in H1. by destruct (free_idle t a s L' st Status st').
  - destruct IH as (H1 & H2 & H3). split_and!; [by apply (write_live t a s)|done|done].
  - by apply (pages_idle Type_ t n m L st r).
Qed.

(** C23: In every state that the pool services reach with requests that do not wrap
    around (below 2^64 - 8192 bytes, or above [MAX_POOL_SIZE], which are refused; the
    sizes between are excluded, and [CoreAllocatePool_wraps] shows what the code does
    with them), with page allocations below 2^52 pages, without the heap guard and
    with callbacks that leave the allocators alone, the live buffers do not overlap,
    each starts at a multiple of 8 and lies in memory of its own type that belongs to
    the pool, and the pool lock is free.  Freeing a live buffer succeeds if it
    returns. *)
Theorem pool_buffers L st :
  PoolReaches L st -> Apart L /\ Forall (Backed st) L /\ mPoolMemoryLock st = false /\
  forall t a s Status st', (t, a, s) ∈ L -> CoreFreePool (a + SIZE_OF_POOL_HEAD) st = Done (Status, st') -> Status = EFI_SUCCESS.
Proof using Off Q PQ.
  intros HR. pose proof (reaches_idle L st HR) as (HL & HI & Hl). split_and!; [by apply (live_apart _ st)|by apply live_backed|done|].
  intros t a s Status st' Hin E. destruct (elem_of_Permutation L (t, a, s)) as [Hex _]. destruct (Hex Hin) as [L' HL']. rewrite HL' in HL.
  by destruct (free_idle t a s L' st Status st').
Qed.

(** C26: No page is kept longer than needed: in every state that the pool services
    reach, the page of a block in a free list also has a block of the same type
    that is in use, for a caller or for the structure of an OEM pool. *)
Theorem free_blocks_share L st r p i l a :
  PoolReaches L st -> FindPool r st = Some p -> FreeList p !! i = Some l -> a ∈ l ->
  exists a' s, (PoolMemoryType p, a', s) ∈ structs st ++ L /\ a' / 4096 = a / 4096.
Proof using Off Q PQ.
  intros HR Hr Hl Ha. destruct (reaches_idle L st HR) as ((G & [HS HI HC HP] & HU) & _ & _). rewrite (pool_free _ _ (HP r p Hr) i l Hl) in Ha.
  apply elem_frees in Ha as (b & Hb & _ & Eb). apply elem_entries in Hb as (c & Hc & Hct & Hp). pose proof (shape_chunks _ _ HS) as HF. rewrite Forall_forall in HF, HI.
  pose proof (HF c Hc) as Cok. destruct (placed_in c a b Cok Hp) as (HB & _ & _). unfold BlockOk in HB. rewrite Eb in HB.
  destruct (block_page c a b Cok Hp HB) as (_ & Ho & Hsm). destruct (proj1 (Exists_exists _ _) (HI c Hc)) as (b' & Hb' & [s Es]).
  apply list_elem_of_split in Hb' as (l1 & l2 & El). assert ((cBase c + spans l1, b') ∈ placed c) as Hp'.
  { unfold placed. rewrite El, place_app. apply elem_of_app. right. by left. }
  rewrite Forall_forall in Hsm. destruct (block_page c _ b' Cok Hp') as (_ & Ho' & _); [apply Hsm; rewrite El; apply elem_of_app; right; by left|].
  exists (cBase c + spans l1), s. split.
  - rewrite <- HU. apply elem_uses. exists b'. split; [|done]. apply elem_entries. by exists c.
  - destruct (chunk_base _ Cok) as [Hal _]. unfold PageAligned in Hal. Z.div_mod_to_equations. lia.
Qed.

(** C24: A request for a buffer returns if the page allocator is idle with four
    descriptors to spare and no untested memory ([Roomy 2]), the pool lock is free, the
    heap guard is off, callbacks leave the allocators alone, and the size is below
    2^64 - 8192 or above [MAX_POOL_SIZE]; for the sizes between the block size wraps
    around ([CoreAllocatePool_wraps]).  A type that is not valid is refused with
    EFI_INVALID_PARAMETER and nothing changes.  For a valid type the request
    succeeds, with a buffer for the bytes asked for that is separate from all live ones
    and backed by memory of the type, or it reports EFI_OUT_OF_RESOURCES, as it does for
    all sizes above [MAX_POOL_SIZE].  The contents of the live buffers stay. *)
Theorem CoreAllocatePool_allocates L t Size m st :
  Roomy 2 (Pages st) -> mPoolMemoryLock st = false -> PoolLive L st -> 0 <= t -> ModestSize Size \/ MAX_POOL_SIZE < Size ->
  exists r st', CoreAllocatePool t Size (Some m) st = Done (r, st') /\ Untouched L st st' /\
    PoolIdle (Granting t Size r L) st' /\ Apart (Granting t Size r L) /\ Forall (Backed st') (Granting t Size r L) /\
    if InvalidAllocationType t then r = (EFI_INVALID_PARAMETER, Some m) /\ st' = st
    else r = (EFI_OUT_OF_RESOURCES, Some 0) \/
         exists b, r = (EFI_SUCCESS, Some b) /\ b <> 0 /\ Size <= MAX_POOL_SIZE /\ Size <= BlockSize Size - POOL_OVERHEAD.
Proof using Off Q PQ.
  intros HG Hl HL Ht HM. assert (PoolIdle L st) as HId by (split_and!; [done|apply HG|done]).
  assert (exists r st', CoreAllocatePool t Size (Some m) st = Done (r, st') /\ Untouched L st st' /\
    if InvalidAllocationType t then r = (EFI_INVALID_PARAMETER, Some m) /\ st' = st
    else r = (EFI_OUT_OF_RESOURCES, Some 0) \/
         exists b, r = (EFI_SUCCESS, Some b) /\ b <> 0 /\ Size <= MAX_POOL_SIZE /\ Size <= BlockSize Size - POOL_OVERHEAD) as (r & st' & E & HUn & HD).
  2: { exists r, st'. pose proof (allocate_idle t Size (Some m) L st r st' HId Ht HM E) as HI.
    split_and!; [done|done|done|by apply (live_apart _ st'), HI|by apply live_backed, HI|done]. }
  destruct (InvalidAllocationType t) eqn:Hv.
  { exists (EFI_INVALID_PARAMETER, Some m), st. unfold CoreAllocatePool, CoreInternalAllocatePool. rewrite Hv. split; [done|]. by split. }
  destruct HM as [HM|HM].
  2: { exists (EFI_OUT_OF_RESOURCES, Some 0), st. unfold CoreAllocatePool, CoreInternalAllocatePool. rewrite Hv, (proj2 (Z.ltb_lt _ _) HM).
    split; [done|]. split; [done|by left]. }
  pose proof (CoreAllocatePool_wp (Good := Roomy) (Stopped := False) 0 L t Size m st HG Hl HL Ht Hv HM) as HW. unfold wp in HW.
  destruct (CoreAllocatePool t Size (Some m) st) as [[r st']| |] eqn:E; [|done..]. exists r, st'. destruct HW as (_ & _ & HUn & HD).
  split; [done|]. split; [done|]. destruct HD as [[-> _]|(a & -> & HL')]; [by left|right].
  exists (a + SIZE_OF_POOL_HEAD). split; [done|]. destruct (BlockSize_bounds Size HM) as (? & _ & _). unfold ModestSize in HM.
  unfold MAX_POOL_SIZE, MAX_ADDRESS, POOL_OVERHEAD, SIZE_OF_POOL_HEAD, sizeof_POOL_TAIL.
  apply live_backed, Forall_cons in HL' as [[Ha _] _]. cbn [fst snd] in Ha. split; lia.
Qed.

(** C25: Freeing a live buffer returns with success if there are four descriptors
    to spare.  The other live buffers stay live with their contents. *)
Theorem CoreFreePool_frees L t a s st :
  Roomy 2 (Pages st) -> mPoolMemoryLock st = false -> PoolLive ((t, a, s) :: L) st ->
  exists st', CoreFreePool (a + SIZE_OF_POOL_HEAD) st = Done (EFI_SUCCESS, st') /\ Untouched L st st' /\ PoolIdle L st' /\ Apart L /\ Forall (Backed st') L.
Proof using Off Q PQ.
  intros HG Hl HL. pose proof (CoreFreePool_wp (Good := Roomy) (Stopped := False) 0 L t a s st HG Hl HL) as HW. unfold wp in HW.
  destruct (CoreFreePool (a + SIZE_OF_POOL_HEAD) st) as [[r st']| |] eqn:E; [|done..]. exists st'. destruct HW as (-> & HG' & Hl' & HUn & HL').
  split_and!; [done|done|split_and!; [done|apply HG'|congruence]|by apply (live_apart _ st')|by apply live_backed].
Qed.

End Services.

(** ** A small machine *)

#[export] Instance SamplePoolEnv : PoolEnvironment :=
  MkPoolEnvironment (mret tt) (fun _ => false) false (fun a _ _ => a) (fun a _ _ => a) (fun a n => mret (a, n)) (fun _ _ => mret tt).

#[export] Instance SamplePoolQuiet : PoolQuiet SamplePoolEnv.
Proof. by split. Qed.

Definition poolAfter {A} (m : QM A) (st : PoolState) : PoolState := match m st with Done (_, st') => st' | _ => st end.

Definition SamplePool : PoolState := poolAfter CoreInitializePool (MkPoolState SampleReady false [] [] (fun _ => 0)).

(** The check against [MAX_POOL_SIZE] lets sizes pass that wrap around once
    they are rounded up and head and tail are added: a request for 2^64 - 41 bytes
    succeeds with a block of 128 bytes, after which there is a free block, and its
    size is recorded as 0. *)
Theorem CoreAllocatePool_wraps :
  (forall Size, 2 ^ 64 - 47 <= Size <= 2 ^ 64 - 41 -> (MAX_POOL_SIZE <? Size) = false /\ add64 (ALIGN_VARIABLE Size) POOL_OVERHEAD = 0) /\
  exists b st', CoreAllocatePool EfiBootServicesData (2 ^ 64 - 41) (Some 0) SamplePool = Done ((EFI_SUCCESS, Some b), st') /\
    Memory st' (b - SIZE_OF_POOL_HEAD + OFFSET_Size) = 0 /\
    exists p, FindPool (StaticPool 4) st' = Some p /\ exists i l, FreeList p !! i = Some l /\ b - SIZE_OF_POOL_HEAD + 128 ∈ l.
Proof.
  split.
  - intros Size HS. split; [apply Z.ltb_ge; unfold MAX_POOL_SIZE, MAX_ADDRESS, POOL_OVERHEAD, SIZE_OF_POOL_HEAD, sizeof_POOL_TAIL; lia|].
    assert (forall k, k ∈ seqZ 41 7 -> add64 (ALIGN_VARIABLE (2 ^ 64 - k)) POOL_OVERHEAD = 0) as HA.
    { apply Forall_forall. repeat (apply Forall_cons; split; [vm_compute; reflexivity|]). constructor. }
    replace Size with (2 ^ 64 - (2 ^ 64 - Size)) by lia. apply HA, elem_of_seqZ. lia.
  - exists 0x10E018, (poolAfter (CoreAllocatePool EfiBootServicesData (2 ^ 64 - 41) (Some 0)) SamplePool). split; [vm_compute; reflexivity|]. split; [vm_compute; reflexivity|].
    eexists. split; [vm_compute; reflexivity|]. exists 6%nat. eexists. split; [reflexivity|]. apply list_elem_of_In. vm_compute. tauto.
Qed.

Lemma SamplePool_live : PoolLive [] SamplePool.
Proof. exact (initial_live (MkPoolState SampleReady false [] [] (fun _ => 0)) (calm_inv _ (proj1 SampleReady_idle)) eq_refl). Qed.

Lemma SamplePool_roomy : Roomy 4 (Pages SamplePool).
Proof. split; [exact SampleReady_idle|]. split; [exact SampleReady_settled|]. apply Nat.leb_le. vm_compute. reflexivity. Qed.

Lemma SamplePool_reaches : PoolReaches [] SamplePool.
Proof. exact (ReachInitial (MkPoolState SampleReady false [] [] (fun _ => 0)) SamplePool SampleReady_idle eq_refl eq_refl eq_refl). Qed.

(** A buffer of 100 bytes. *)
Definition SampleBuffer : Z := 0x10E018.
Definition SamplePoolUsed : PoolState := poolAfter (CoreAllocatePool EfiBootServicesData 100 (Some 0)) SamplePool.

Lemma SamplePoolUsed_run : CoreAllocatePool EfiBootServicesData 100 (Some 0) SamplePool = Done ((EFI_SUCCESS, Some SampleBuffer), SamplePoolUsed).
Proof. vm_compute. reflexivity. Qed.

Definition SampleLive : list buffer := [(EfiBootServicesData, 0x10E000, 144)].

Lemma sample_size : ModestSize 100.
Proof. unfold ModestSize. lia. Qed.

Lemma SamplePoolUsed_live : Roomy 2 (Pages SamplePoolUsed) /\ mPoolMemoryLock SamplePoolUsed = false /\ PoolLive SampleLive SamplePoolUsed.
Proof.
  pose proof (CoreAllocatePool_wp (Good := Roomy) (Stopped := False) 2 [] EfiBootServicesData 100 0 SamplePool SamplePool_roomy eq_refl SamplePool_live) as HW.
  specialize (HW ltac:(discriminate) ltac:(reflexivity) sample_size).
  destruct (wp_elim _ _ _ _ _ _ HW SamplePoolUsed_run) as (HG & Hl & _ & [[HE _]|(a & HE & HL)]); [discriminate HE|].
  split; [exact HG|]. split; [exact Hl|]. injection HE as HE. assert (a = 0x10E000) as -> by (unfold SampleBuffer, SIZE_OF_POOL_HEAD in HE; lia). exact HL.
Qed.

Lemma SamplePoolUsed_reaches : PoolReaches SampleLive SamplePoolUsed.
Proof.
  exact (ReachAllocate EfiBootServicesData 100 (Some 0) [] SamplePool _ SamplePoolUsed SamplePool_reaches ltac:(discriminate) (or_introl sample_size) SamplePoolUsed_run).
Qed.

Lemma pool_buffers_witness : Apart SampleLive /\ Forall (Backed SamplePoolUsed) SampleLive.
Proof. destruct (pool_buffers SampleLive SamplePoolUsed SamplePoolUsed_reaches) as (H1 & H2 & _). split; [exact H1|exact H2]. Defined.

Lemma free_blocks_share_witness :
  exists a' s, (EfiBootServicesData, a', s) ∈ structs SamplePoolUsed ++ SampleLive /\ a' / 4096 = 0x10EF80 / 4096.
Proof.
  exact (free_blocks_share SampleLive SamplePoolUsed (StaticPool 4) (MkPool 144 4 [[0x10EF80]; []; []; []; [0x10EB80]; []; [0x10E100]; []; []; []; []; []]) 0 [0x10EF80] 0x10EF80
    SamplePoolUsed_reaches ltac:(vm_compute; reflexivity) eq_refl ltac:(by left)).
Defined.

Lemma CoreAllocatePool_allocates_witness :
  exists r st', CoreAllocatePool 0x70000001 5000 (Some 0) SamplePool = Done (r, st') /\ Untouched [] SamplePool st' /\
    PoolIdle (Granting 0x70000001 5000 r []) st' /\ Apart (Granting 0x70000001 5000 r []) /\ Forall (Backed st') (Granting 0x70000001 5000 r []) /\
    (r = (EFI_OUT_OF_RESOURCES, Some 0) \/
     exists b, r = (EFI_SUCCESS, Some b) /\ b <> 0 /\ 5000 <= MAX_POOL_SIZE /\ 5000 <= BlockSize 5000 - POOL_OVERHEAD).
Proof.
  apply (CoreAllocatePool_allocates [] 0x70000001 5000 0 SamplePool).
  - exact (good_less 2 _ (good_less 3 _ SamplePool_roomy)).
  - reflexivity.
  - exact SamplePool_live.
  - lia.
  - left. unfold ModestSize. lia.
Defined.

Lemma CoreFreePool_frees_witness : exists st', CoreFreePool SampleBuffer SamplePoolUsed = Done (EFI_SUCCESS, st') /\ PoolIdle [] st'.
Proof.
  destruct (CoreFreePool_frees [] EfiBootServicesData 0x10E000 144 SamplePoolUsed (proj1 SamplePoolUsed_live) (proj1 (proj2 SamplePoolUsed_live)) (proj2 (proj2 SamplePoolUsed_live)))
    as (st' & HE & _ & HI & _). exists st'. split; [exact HE|exact HI].
Defined.
