(* ===== verification/Dispatcher.v ===== *)
(** * The DXE dispatcher: the model

    [src/MdeModulePkg/Core/Dxe/Dispatcher/Dispatcher.c]: the list of drivers that
    were discovered in firmware volumes, the queue of those that may run, and the
    loop that loads and starts them.

    Entries of mDiscoveredList are never removed and are added at the end, so that
    an entry is named by its place in the list; mScheduledQueue is the sequence of
    these numbers.  Adding an entry to the queue that is linked there already, or
    removing one that is not, would destroy the links of the queue ([Broken]).  The fields that concern the
    dependency expression are those of [Depex.EFI_CORE_DRIVER_ENTRY].

    Images, firmware volumes and everything that runs when a lock is released are
    programs of the class [DispatchEnvironment]; they may call the services of the
    dispatcher again.  [World] is what they keep.  PERF and status code reports
    are left out. *)
From Stdlib Require Import ZArith Lia.
From stdpp Require Import base option list.
From S2P Require Import Prelude StateMonad Depex.

(** ** Data *)

Definition EFI_FV_FILETYPE_DXE_CORE : Z := 0x05.
Definition EFI_FV_FILETYPE_DRIVER : Z := 0x07.
Definition EFI_FV_FILETYPE_COMBINED_PEIM_DRIVER : Z := 0x08.
Definition EFI_FV_FILETYPE_FIRMWARE_VOLUME_IMAGE : Z := 0x0B.
Definition EFI_FV_FILETYPE_COMBINED_SMM_DXE : Z := 0x0C.

Definition mDxeFileTypes : list Z :=
  [EFI_FV_FILETYPE_DRIVER; EFI_FV_FILETYPE_COMBINED_SMM_DXE; EFI_FV_FILETYPE_COMBINED_PEIM_DRIVER;
   EFI_FV_FILETYPE_DXE_CORE; EFI_FV_FILETYPE_FIRMWARE_VOLUME_IMAGE].

(** EFI_CORE_DRIVER_ENTRY; handles and pointers are numbers, NULL is 0. *)
Record DRIVER := MkDriver {
  FvHandle : Z;
  FileName : GUID;
  FvFileDevicePath : Z;
  Fv : Z;
  Expression : EFI_CORE_DRIVER_ENTRY;
  Scheduled : bool;
  Untrusted : bool;
  Initialized : bool;
  DepexProtocolError : bool;
  ImageHandle : Z;
  IsFvImage : bool }.

Definition SetExpression v d := MkDriver (FvHandle d) (FileName d) (FvFileDevicePath d) (Fv d) v (Scheduled d) (Untrusted d) (Initialized d) (DepexProtocolError d) (ImageHandle d) (IsFvImage d).
Definition SetScheduled v d := MkDriver (FvHandle d) (FileName d) (FvFileDevicePath d) (Fv d) (Expression d) v (Untrusted d) (Initialized d) (DepexProtocolError d) (ImageHandle d) (IsFvImage d).
Definition SetUntrusted v d := MkDriver (FvHandle d) (FileName d) (FvFileDevicePath d) (Fv d) (Expression d) (Scheduled d) v (Initialized d) (DepexProtocolError d) (ImageHandle d) (IsFvImage d).
Definition SetInitialized v d := MkDriver (FvHandle d) (FileName d) (FvFileDevicePath d) (Fv d) (Expression d) (Scheduled d) (Untrusted d) v (DepexProtocolError d) (ImageHandle d) (IsFvImage d).
Definition SetProtocolError v d := MkDriver (FvHandle d) (FileName d) (FvFileDevicePath d) (Fv d) (Expression d) (Scheduled d) (Untrusted d) (Initialized d) v (ImageHandle d) (IsFvImage d).
Definition SetImageHandle v d := MkDriver (FvHandle d) (FileName d) (FvFileDevicePath d) (Fv d) (Expression d) (Scheduled d) (Untrusted d) (Initialized d) (DepexProtocolError d) v (IsFvImage d).

Definition WithDependent v e := MkDriverEntry (Depex e) v (Unrequested e) (Before e) (After e) (BeforeAfterGuid e).
Definition WithUnrequested v e := MkDriverEntry (Depex e) (Dependent e) v (Before e) (After e) (BeforeAfterGuid e).
Definition WithDepex v e := MkDriverEntry v (Dependent e) (Unrequested e) (Before e) (After e) (BeforeAfterGuid e).

Definition OnExpression (f : EFI_CORE_DRIVER_ENTRY -> EFI_CORE_DRIVER_ENTRY) (d : DRIVER) : DRIVER := SetExpression (f (Expression d)) d.

Definition IsDependent (d : DRIVER) : bool := Dependent (Expression d).
Definition IsUnrequested (d : DRIVER) : bool := Unrequested (Expression d).

Definition ZeroGuid : GUID := replicate 16 0.

Record KNOWN_HANDLE := MkKnown {
  Handle : Z;
  FvNameGuid : GUID }.

Section State.
Context {W : Type}.

Record DispatchState := MkDispatch {
  mDiscoveredList : list DRIVER;
  mScheduledQueue : list nat;
  mFvHandleList : list KNOWN_HANDLE;
  mDispatcherLock : bool;
  gDispatcherRunning : bool;
  Stack : DepexStack;
  DxeCoreFile : option Z;
  World : W }.

Definition SetDiscovered v st := MkDispatch v (mScheduledQueue st) (mFvHandleList st) (mDispatcherLock st) (gDispatcherRunning st) (Stack st) (DxeCoreFile st) (World st).
Definition SetQueue v st := MkDispatch (mDiscoveredList st) v (mFvHandleList st) (mDispatcherLock st) (gDispatcherRunning st) (Stack st) (DxeCoreFile st) (World st).
Definition SetFvHandles v st := MkDispatch (mDiscoveredList st) (mScheduledQueue st) v (mDispatcherLock st) (gDispatcherRunning st) (Stack st) (DxeCoreFile st) (World st).
Definition SetLock v st := MkDispatch (mDiscoveredList st) (mScheduledQueue st) (mFvHandleList st) v (gDispatcherRunning st) (Stack st) (DxeCoreFile st) (World st).
Definition SetRunning v st := MkDispatch (mDiscoveredList st) (mScheduledQueue st) (mFvHandleList st) (mDispatcherLock st) v (Stack st) (DxeCoreFile st) (World st).
Definition SetStack v st := MkDispatch (mDiscoveredList st) (mScheduledQueue st) (mFvHandleList st) (mDispatcherLock st) (gDispatcherRunning st) v (DxeCoreFile st) (World st).
Definition SetCoreFile v st := MkDispatch (mDiscoveredList st) (mScheduledQueue st) (mFvHandleList st) (mDispatcherLock st) (gDispatcherRunning st) (Stack st) v (World st).
Definition SetWorld v st := MkDispatch (mDiscoveredList st) (mScheduledQueue st) (mFvHandleList st) (mDispatcherLock st) (gDispatcherRunning st) (Stack st) (DxeCoreFile st) v.

End State.
Arguments DispatchState : clear implicits.

Definition DM (W : Type) : Type -> Type := SM (DispatchState W).

(** The header of a firmware volume: whether its checksum is right, the offset of
    the extension header and the block map (number and length of blocks). *)
Record FV_HEADER := MkFvHeader {
  ChecksumOk : bool;
  ExtHeaderOffset : Z;
  BlockMap : list (Z * Z) }.

Class DispatchEnvironment (W : Type) := MkDispatchEnvironment {
  (** For the evaluator of dependency expressions. *)
  StackAvailable : nat -> bool;
  StackGarbage : nat -> bool;
  PastDepex : nat -> Z;
  AllEfiServicesAvailable : W -> bool;
  Located : W -> GUID -> bool;
  (** What runs when releasing the dispatcher lock lowers the TPL. *)
  DropDispatcherLock : DM W unit;
  CreateDispatchEvent : DM W EFI_STATUS;
  SignalDispatchEvent : DM W unit;
  CloseDispatchEvent : DM W unit;
  (** Images: [CoreLoadImage] of a device path, [CoreStartImage]. *)
  LoadImage : Z -> DM W (EFI_STATUS * Z);
  StartImage : Z -> DM W unit;
  ProcessFvImageFile : Z -> Z -> GUID -> DM W EFI_STATUS;
  (** The protocols of a firmware volume. *)
  LocateFv : DM W (option Z);
  GetFwVolHeader : Z -> DM W (option FV_HEADER);
  ReadFvbGuid : Z -> Z -> Z -> DM W (option GUID);
  FvProtocol : Z -> DM W (option Z);
  FvDevicePath : Z -> DM W (option Z);
  FvToDevicePath : Z -> GUID -> DM W Z;
  GetNextFile : Z -> Z -> Z -> DM W (EFI_STATUS * (Z * Z * GUID));
  ReadDepexSection : Z -> GUID -> DM W (EFI_STATUS * list Z);
  ReadSmmDepexSection : Z -> GUID -> DM W EFI_STATUS;
  ReadAprioriFile : Z -> DM W (EFI_STATUS * list GUID);
  EntryMemory : DM W bool;
  HobFv2 : list (GUID * GUID);
  gDxeCoreFileName : GUID;
  (** The bound for loops during which the list of drivers may grow. *)
  LoopFuel : nat }.

Section Dispatcher.
Context {W : Type} {Env : DispatchEnvironment W}.

Definition Broken {A} : DM W A := fun _ => Asserted.

Definition GetDriver (i : nat) : DM W DRIVER := fun st => match mDiscoveredList st !! i with Some d => Done (d, st) | None => Asserted end.
Definition ChangeDriver (i : nat) (f : DRIVER -> DRIVER) : DM W unit := Change (fun st => SetDiscovered (alter f i (mDiscoveredList st)) st).

(** InsertTailList (&mScheduledQueue, &DriverEntry->ScheduledLink) *)
Definition Enqueue (i : nat) : DM W unit :=
  Queue ← Get mScheduledQueue;
  if bool_decide (i ∈ Queue) then Broken else Change (SetQueue (Queue ++ [i])).

(** RemoveEntryList (&DriverEntry->ScheduledLink) *)
Definition Dequeue (i : nat) : DM W unit :=
  Queue ← Get mScheduledQueue;
  if bool_decide (i ∈ Queue) then Change (SetQueue (filter (fun j => j ≠ i) Queue)) else Broken.

Definition CoreAcquireDispatcherLock : DM W unit :=
  Held ← Get mDispatcherLock;
  Assert (negb Held) ;;
  Change (SetLock true).

Definition CoreReleaseDispatcherLock : DM W unit :=
  Held ← Get mDispatcherLock;
  Assert Held ;;
  Change (SetLock false) ;;
  DropDispatcherLock.

(** A loop over mDiscoveredList from an entry on. *)
Fixpoint ForDrivers (fuel : nat) (i : nat) (body : nat -> DM W unit) : DM W unit :=
  List ← Get mDiscoveredList;
  if bool_decide (i < length List)%nat then
    match fuel with
    | O => NoFuel
    | S fuel => body i ;; ForDrivers fuel (S i) body
    end
  else mret tt.

(** The first entry that a search over mDiscoveredList accepts. *)
Fixpoint FindDriver (p : DRIVER -> bool) (i : nat) (List : list DRIVER) : option nat :=
  match List with
  | [] => None
  | d :: List => if p d then Some i else FindDriver p (S i) List
  end.

(** ** Dependency expressions *)

(** The status, and the change of the entry. *)
Definition CoreGetDepexSectionAndPreProccess (Fv_ : Z) (Name : GUID) : DM W (EFI_STATUS * (DRIVER -> DRIVER)) :=
  '(Status, Bytes) ← ReadDepexSection Fv_ Name;
  mret (Status,
    if EFI_ERROR Status then
      if bool_decide (Status = EFI_PROTOCOL_ERROR) then SetProtocolError true
      else fun d => SetProtocolError false (OnExpression (fun e => WithDependent true (WithDepex None e)) d)
    else fun d => SetProtocolError false (OnExpression (fun e => snd (CorePreProcessDepex PastDepex (WithDepex (Some Bytes) e) Bytes)) d)).

(** CoreIsSchedulable for an entry, with the evaluation stack of the dispatcher. *)
Definition IsSchedulable (i : nat) : DM W bool :=
  d ← GetDriver i;
  ((fun st =>
    match CoreIsSchedulable StackAvailable StackGarbage (AllEfiServicesAvailable (World st)) (Located (World st)) PastDepex (Expression d) (Stack st) with
    | Done (Result, e, s) => Done (Result, SetStack s (SetDiscovered (alter (SetExpression e) i (mDiscoveredList st)) st))
    | Asserted => Asserted
    | OutOfFuel => OutOfFuel
    end) : DM W bool).

(** ** Services *)

Definition CoreSchedule (FirmwareVolumeHandle : Z) (DriverName : GUID) : DM W EFI_STATUS :=
  List ← Get mDiscoveredList;
  match FindDriver (fun d => (FvHandle d =? FirmwareVolumeHandle) && IsUnrequested d && bool_decide (DriverName = FileName d)) 0 List with
  | None => mret EFI_NOT_FOUND
  | Some i =>
    CoreAcquireDispatcherLock ;;
    ChangeDriver i (OnExpression (fun e => WithDependent true (WithUnrequested false e))) ;;
    CoreReleaseDispatcherLock ;;
    mret EFI_SUCCESS
  end.

Definition CoreTrust (FirmwareVolumeHandle : Z) (DriverName : GUID) : DM W EFI_STATUS :=
  List ← Get mDiscoveredList;
  match FindDriver (fun d => (FvHandle d =? FirmwareVolumeHandle) && Untrusted d && bool_decide (DriverName = FileName d)) 0 List with
  | None => mret EFI_NOT_FOUND
  | Some i =>
    CoreAcquireDispatcherLock ;;
    ChangeDriver i (fun d => SetScheduled true (SetUntrusted false d)) ;;
    Enqueue i ;;
    CoreReleaseDispatcherLock ;;
    mret EFI_SUCCESS
  end.

(** ** Scheduling *)

(** From the Dependent to the Scheduled state. *)
Definition ScheduleDriver (i : nat) : DM W unit :=
  CoreAcquireDispatcherLock ;;
  ChangeDriver i (fun d => SetScheduled true (OnExpression (WithDependent false) d)) ;;
  Enqueue i ;;
  CoreReleaseDispatcherLock.

(** The loop over entries with a Before or After dependency on an entry. *)
Definition ProcessDependents (Insert : nat -> DM W unit) (Kind : EFI_CORE_DRIVER_ENTRY -> bool) (i : nat) : DM W unit :=
  ForDrivers LoopFuel 0 (fun j =>
    d ← GetDriver j;
    if Kind (Expression d) && IsDependent d && negb (bool_decide (j = i)) then
      Inserted ← GetDriver i;
      if bool_decide (FileName Inserted = BeforeAfterGuid (Expression d)) then Insert j else mret tt
    else mret tt).

(** The recursion may not end, see DispatchTheorems.v. *)
Fixpoint CoreInsertOnScheduledQueueWhileProcessingBeforeAndAfter (fuel : nat) (i : nat) : DM W unit :=
  match fuel with
  | O => NoFuel
  | S fuel =>
    ProcessDependents (CoreInsertOnScheduledQueueWhileProcessingBeforeAndAfter fuel) Before i ;;
    ScheduleDriver i ;;
    ProcessDependents (CoreInsertOnScheduledQueueWhileProcessingBeforeAndAfter fuel) After i
  end.

(** ** The dispatcher *)

(** Loads the image of an entry if that has not been done. *)
Definition LoadDriver (i : nat) : DM W EFI_STATUS :=
  d ← GetDriver i;
  if (ImageHandle d =? 0) && negb (IsFvImage d) then
    '(Status, Image) ← LoadImage (FvFileDevicePath d);
    ChangeDriver i (SetImageHandle Image) ;;
    mret Status
  else mret EFI_SUCCESS.

(** One entry of the queue: whether it was dispatched. *)
Definition DispatchDriver (i : nat) : DM W bool :=
  Status ← LoadDriver i;
  CoreAcquireDispatcherLock ;;
  ChangeDriver i (fun d =>
    SetScheduled false (if bool_decide (Status = EFI_SECURITY_VIOLATION) then SetUntrusted true d else SetInitialized true d)) ;;
  Dequeue i ;;
  CoreReleaseDispatcherLock ;;
  if EFI_ERROR Status then mret false else
  d ← GetDriver i;
  if IsFvImage d then
    ProcessFvImageFile (Fv d) (FvHandle d) (FileName d) ;;
    mret true
  else
    Assert (negb (ImageHandle d =? 0)) ;;
    StartImage (ImageHandle d) ;;
    mret true.

(** Drains the queue. *)
Fixpoint DrainLoop (fuel : nat) (ReturnStatus : EFI_STATUS) : DM W EFI_STATUS :=
  Queue ← Get mScheduledQueue;
  match Queue with
  | [] => mret ReturnStatus
  | i :: _ =>
    match fuel with
    | O => NoFuel
    | S fuel =>
      Dispatched ← DispatchDriver i;
      DrainLoop fuel (if Dispatched : bool then EFI_SUCCESS else ReturnStatus)
    end
  end.

(** Entries whose dependency expression is TRUE get on the queue: whether there is
    one. *)
Fixpoint SearchRound (fuel : nat) (i : nat) (ReadyToRun : bool) : DM W bool :=
  List ← Get mDiscoveredList;
  if bool_decide (i < length List)%nat then
    match fuel with
    | O => NoFuel
    | S fuel =>
      d ← GetDriver i;
      (if DepexProtocolError d then
         '(_, f) ← CoreGetDepexSectionAndPreProccess (Fv d) (FileName d);
         ChangeDriver i f
       else mret tt) ;;
      d ← GetDriver i;
      if IsDependent d then
        Schedulable ← IsSchedulable i;
        if (Schedulable : bool) then
          CoreInsertOnScheduledQueueWhileProcessingBeforeAndAfter LoopFuel i ;;
          SearchRound fuel (S i) true
        else SearchRound fuel (S i) ReadyToRun
      else SearchRound fuel (S i) ReadyToRun
    end
  else mret ReadyToRun.

Fixpoint DispatchRounds (fuel : nat) (ReturnStatus : EFI_STATUS) : DM W EFI_STATUS :=
  match fuel with
  | O => NoFuel
  | S fuel =>
    ReturnStatus ← DrainLoop LoopFuel ReturnStatus;
    (if negb (EFI_ERROR ReturnStatus) then SignalDispatchEvent else mret tt) ;;
    ReadyToRun ← SearchRound LoopFuel 0 false;
    if (ReadyToRun : bool) then DispatchRounds fuel ReturnStatus else mret ReturnStatus
  end.

Definition CoreDispatcher : DM W EFI_STATUS :=
  Running ← Get gDispatcherRunning;
  if (Running : bool) then mret EFI_ALREADY_STARTED else
  Change (SetRunning true) ;;
  Status ← CreateDispatchEvent;
  if EFI_ERROR Status then mret Status else
  ReturnStatus ← DispatchRounds LoopFuel EFI_NOT_FOUND;
  CloseDispatchEvent ;;
  Change (SetRunning false) ;;
  mret ReturnStatus.

(** ** Firmware volumes *)

Definition FvHasBeenProcessed (FvHandle_ : Z) : DM W bool :=
  Get (fun st => existsb (fun k => Handle k =? FvHandle_) (mFvHandleList st)).

(** The blocks of one entry of the block map before an offset: how many entries of
    it are left, the rest of the offset and the block. *)
Fixpoint BlocksLoop (n : nat) (Offset Length Lba : Z) : nat * Z * Z :=
  match n with
  | O => (O, Offset, Lba)
  | S n => if Length <=? Offset then BlocksLoop n (Offset - Length) Length (Lba + 1) else (S n, Offset, Lba)
  end.

(** LbaIndex and LbaOffset of an offset; [None] if the map does not end. *)
Fixpoint ExtHeaderLoop (Map : list (Z * Z)) (Offset Lba : Z) : option (Z * Z) :=
  match Map with
  | [] => None
  | (NumBlocks, Length) :: Map =>
    if negb (NumBlocks =? 0) || negb (Length =? 0) then
      let '(Left, Offset, Lba) := BlocksLoop (Z.to_nat NumBlocks) Offset Length Lba in
      if (0 <? Left)%nat then Some (Lba, Offset) else ExtHeaderLoop Map Offset Lba
    else Some (Lba, 0)
  end.

(** The name in the extension header. *)
Definition ReadFvName (FvHandle_ : Z) : DM W (option GUID) :=
  Header ← GetFwVolHeader FvHandle_;
  match Header with
  | Some h =>
    if ChecksumOk h && negb (ExtHeaderOffset h =? 0) then
      match ExtHeaderLoop (BlockMap h) (ExtHeaderOffset h) 0 with
      | Some (LbaIndex, LbaOffset) => ReadFvbGuid FvHandle_ LbaIndex LbaOffset
      | None => Broken
      end
    else mret None
  | None => mret None
  end.

Definition FvIsBeingProcessed (FvHandle_ : Z) : DM W (option KNOWN_HANDLE) :=
  Name ← ReadFvName FvHandle_;
  Known ← Get mFvHandleList;
  if match Name with Some n => existsb (fun k => bool_decide (n = FvNameGuid k)) Known | None => false end then mret None else
  Available ← EntryMemory;
  Assert Available ;;
  let New := MkKnown FvHandle_ (default ZeroGuid Name) in
  Change (fun st => SetFvHandles (mFvHandleList st ++ [New]) st) ;;
  mret (Some New).

Definition CoreAddToDriverList (Fv_ FvHandle_ : Z) (DriverName : GUID) (Type_ : Z) : DM W EFI_STATUS :=
  Available ← EntryMemory;
  Assert Available ;;
  Path ← FvToDevicePath FvHandle_ DriverName;
  let Entry := MkDriver FvHandle_ DriverName Path Fv_ (MkDriverEntry None false false false false ZeroGuid)
                 false false false false 0 (Type_ =? EFI_FV_FILETYPE_FIRMWARE_VOLUME_IMAGE) in
  '(_, f) ← CoreGetDepexSectionAndPreProccess Fv_ DriverName;
  CoreAcquireDispatcherLock ;;
  Change (fun st => SetDiscovered (mDiscoveredList st ++ [f Entry]) st) ;;
  CoreReleaseDispatcherLock ;;
  mret EFI_SUCCESS.

Definition FvFoundInHobFv2 (FvNameGuid_ DriverName : GUID) : bool :=
  existsb (fun h => bool_decide (DriverName = h.2) && bool_decide (FvNameGuid_ = h.1)) HobFv2.

(** A file that GetNextFile has found. *)
Definition ProcessFile (Known : KNOWN_HANDLE) (Fv_ FvHandle_ : Z) (Type_ : Z) (NameGuid : GUID) : DM W unit :=
  if Type_ =? EFI_FV_FILETYPE_DXE_CORE then
    File ← Get DxeCoreFile;
    if bool_decide (File = None) && bool_decide (NameGuid = gDxeCoreFileName) then Change (SetCoreFile (Some FvHandle_)) else mret tt
  else if Type_ =? EFI_FV_FILETYPE_FIRMWARE_VOLUME_IMAGE then
    if FvFoundInHobFv2 (FvNameGuid Known) NameGuid then mret tt else
    Status ← ReadSmmDepexSection Fv_ NameGuid;
    Assert (EFI_ERROR Status) ;;
    '(Status, _) ← ReadDepexSection Fv_ NameGuid;
    if EFI_ERROR Status then ProcessFvImageFile Fv_ FvHandle_ NameGuid ;; mret tt
    else CoreAddToDriverList Fv_ FvHandle_ NameGuid Type_ ;; mret tt
  else CoreAddToDriverList Fv_ FvHandle_ NameGuid Type_ ;; mret tt.

(** All files of a type. *)
Fixpoint FilesLoop (fuel : nat) (Known : KNOWN_HANDLE) (Fv_ FvHandle_ Type_ Key : Z) : DM W unit :=
  match fuel with
  | O => NoFuel
  | S fuel =>
    '(Status, (Key, Type', NameGuid)) ← GetNextFile Fv_ Key Type_;
    if EFI_ERROR Status then mret tt else
    ProcessFile Known Fv_ FvHandle_ Type' NameGuid ;;
    FilesLoop fuel Known Fv_ FvHandle_ Type_ Key
  end.

Fixpoint TypesLoop (Types : list Z) (Known : KNOWN_HANDLE) (Fv_ FvHandle_ : Z) : DM W unit :=
  match Types with
  | [] => mret tt
  | Type_ :: Types => FilesLoop LoopFuel Known Fv_ FvHandle_ Type_ 0 ;; TypesLoop Types Known Fv_ FvHandle_
  end.

(** The a priori file. *)
Fixpoint AprioriLoop (AprioriFile : list GUID) (FvHandle_ : Z) : DM W unit :=
  match AprioriFile with
  | [] => mret tt
  | Name :: AprioriFile =>
    List ← Get mDiscoveredList;
    (match FindDriver (fun d => bool_decide (FileName d = Name) && (FvHandle_ =? FvHandle d)) 0 List with
     | Some i => ScheduleDriver i
     | None => mret tt
     end) ;;
    AprioriLoop AprioriFile FvHandle_
  end.

(** A firmware volume that has been found. *)
Definition ProcessFv (FvHandle_ : Z) : DM W unit :=
  Processed ← FvHasBeenProcessed FvHandle_;
  if (Processed : bool) then mret tt else
  KnownHandle ← FvIsBeingProcessed FvHandle_;
  match KnownHandle with
  | None => mret tt
  | Some Known =>
    Protocol ← FvProtocol FvHandle_;
    match Protocol with
    | None => Assert false
    | Some Fv_ =>
      Path ← FvDevicePath FvHandle_;
      if bool_decide (Path = None) then mret tt else
      TypesLoop mDxeFileTypes Known Fv_ FvHandle_ ;;
      '(Status, AprioriFile) ← ReadAprioriFile Fv_;
      AprioriLoop (if EFI_ERROR Status then [] else AprioriFile) FvHandle_
    end
  end.

Fixpoint FwVolLoop (fuel : nat) : DM W unit :=
  match fuel with
  | O => NoFuel
  | S fuel =>
    Found ← LocateFv;
    match Found with
    | None => mret tt
    | Some FvHandle_ => ProcessFv FvHandle_ ;; FwVolLoop fuel
    end
  end.

Definition CoreFwVolEventProtocolNotify : DM W unit := FwVolLoop LoopFuel.

(** The names that it prints. *)
Definition CoreDisplayDiscoveredNotDispatched (st : DispatchState W) : list GUID := FileName <$> filter IsDependent (mDiscoveredList st).

End Dispatcher.
