(* ===== verification/DispatchInv.v ===== *)
(** * The DXE dispatcher: the states of a driver

    A driver that has been discovered is in one of six states, the flags of its
    entry say in which.  [DispatchInv] says so, and that the queue consists of the
    drivers that are Scheduled, each once; [Evolves] and [Quiet] say how the state
    may change.  [DispatchLaws] is what is expected of the programs that run
    between the steps of the dispatcher: they may call every service of it. *)
From Stdlib Require Import ZArith Lia.
From stdpp Require Import base option list relations.
From S2P Require Import Prelude StateMonad Depex Dispatcher.

(** ** Programs that do not stop *)

(** No failed assertion and no broken list; the result satisfies [Q].  [Endless]
    says whether the program may go on for ever. *)
Definition SafeRun (Endless : Prop) {S A} (m : SM S A) (st : S) (Q : A -> S -> Prop) : Prop :=
  match m st with Done (a, st') => Q a st' | Asserted => False | OutOfFuel => Endless end.

Section SafeRules.
Context {S : Type} {Endless : Prop}.
Abbreviation Safe := (SafeRun Endless).

Lemma Safe_step {A B} (m : SM S A) (f : A -> SM S B) st Q : Safe m st (fun a st' => Safe (f a) st' Q) -> Safe (m ≫= f) st Q.
Proof. unfold SafeRun, mbind, SM_bind. by destruct (m st) as [[a st']| |]. Qed.

Lemma Safe_run {A B} (m : SM S A) (f : A -> SM S B) st a st' Q : m st = Done (a, st') -> Safe (f a) st' Q -> Safe (m ≫= f) st Q.
Proof. intros E H. unfold SafeRun. by rewrite (SM_bind_run _ _ _ _ _ E). Qed.

Lemma Safe_mono {A} (m : SM S A) st (Q Q' : A -> S -> Prop) : Safe m st Q -> (forall a st', Q a st' -> Q' a st') -> Safe m st Q'.
Proof. unfold SafeRun. intros H HQ. destruct (m st) as [[a st']| |]; [by apply HQ|done|done]. Qed.

Lemma Safe_then {A B} (m : SM S A) (f : A -> SM S B) st R Q :
  Safe m st R -> (forall a st', R a st' -> Safe (f a) st' Q) -> Safe (m ≫= f) st Q.
Proof. intros H Hf. apply Safe_step. by eapply Safe_mono. Qed.

Lemma Safe_eq {A} (m m' : SM S A) st st' Q : m st = m' st' -> Safe m' st' Q -> Safe m st Q.
Proof. unfold SafeRun. by intros ->. Qed.

Lemma Safe_done {A} (m : SM S A) st a st' (Q : A -> S -> Prop) : m st = Done (a, st') -> Q a st' -> Safe m st Q.
Proof. unfold SafeRun. by intros ->. Qed.

Lemma Safe_and {A} (m : SM S A) st (Q R : A -> S -> Prop) : Safe m st Q -> Safe m st R -> Safe m st (fun a st' => Q a st' /\ R a st').
Proof. unfold SafeRun. by destruct (m st) as [[a st']| |]. Qed.

Definition Result {A} (m : SM S A) (st : S) : S := match m st with Done (_, st') => st' | _ => st end.

Lemma Safe_result {A} (m : SM S A) st (P : S -> Prop) : Safe m st (fun _ => P) -> P st -> P (Result m st).
Proof. unfold SafeRun, Result. by destruct (m st) as [[a st']| |]. Qed.

Lemma Safe_elim {A} (m : SM S A) st Q a st' : Safe m st Q -> m st = Done (a, st') -> Q a st'.
Proof. unfold SafeRun. intros H E. by rewrite E in H. Qed.
End SafeRules.

(** ** The states of a driver *)

Inductive PHASE := Unread | Unasked | Waiting | Queued | Distrusted | Dispatched.

#[export] Instance PHASE_eq_dec : EqDecision PHASE.
Proof. solve_decision. Defined.

(** Not read, Unrequested, Dependent, Scheduled, Untrusted, Initialized. *)
Definition Flags (d : DRIVER) : list bool := [DepexProtocolError d; IsUnrequested d; IsDependent d; Scheduled d; Untrusted d; Initialized d].
Definition PhaseFlags (p : PHASE) : list bool := (fun q => bool_decide (p = q)) <$> [Unread; Unasked; Waiting; Queued; Distrusted; Dispatched].
Definition InPhase (d : DRIVER) (p : PHASE) : Prop := Flags d = PhaseFlags p.

Lemma InPhase_unique d p q : InPhase d p -> InPhase d q -> p = q.
Proof. unfold InPhase. intros ->. by destruct p, q. Qed.

Lemma InPhase_flags d p : InPhase d p ->
  DepexProtocolError d = bool_decide (p = Unread) /\ IsUnrequested d = bool_decide (p = Unasked) /\ IsDependent d = bool_decide (p = Waiting) /\
  Scheduled d = bool_decide (p = Queued) /\ Untrusted d = bool_decide (p = Distrusted) /\ Initialized d = bool_decide (p = Dispatched).
Proof. intros H. unfold InPhase, Flags, PhaseFlags in H. cbn [fmap list_fmap] in H. by injection H. Qed.

(** The transitions of the driver states. *)
Inductive PhaseStep : PHASE -> PHASE -> Prop :=
| StepReadAsked : PhaseStep Unread Waiting
| StepReadUnasked : PhaseStep Unread Unasked
| StepSchedule : PhaseStep Unasked Waiting
| StepEnqueue : PhaseStep Waiting Queued
| StepReject : PhaseStep Queued Distrusted
| StepTrust : PhaseStep Distrusted Queued
| StepStart : PhaseStep Queued Dispatched.

Lemma PhaseStep_read p q : rtc PhaseStep p q -> p <> Unread -> q <> Unread.
Proof. induction 1 as [|p q r S _ IH]; [done|]. intros _. apply IH. by destruct S. Qed.

(** The transitions by the services Schedule and Trust. *)
Inductive QuietStep : PHASE -> PHASE -> Prop :=
| QuietSame p : QuietStep p p
| QuietSchedule : QuietStep Unasked Waiting
| QuietTrust : QuietStep Distrusted Queued.

Lemma QuietStep_trans p q r : QuietStep p q -> QuietStep q r -> QuietStep p r.
Proof. intros [] H; inversion H; subst; constructor. Qed.

Lemma QuietStep_path p q : QuietStep p q -> rtc PhaseStep p q.
Proof. intros []; [constructor|apply rtc_once; constructor..]. Qed.

(** What an entry keeps for ever, and what its dependency expression says about the order. *)
Definition File (d : DRIVER) : Z * GUID * Z * Z * bool := (FvHandle d, FileName d, FvFileDevicePath d, Fv d, IsFvImage d).
Definition OrderOf (d : DRIVER) : bool * bool * GUID := (Before (Expression d), After (Expression d), BeforeAfterGuid (Expression d)).

Lemma File_fields d d' : File d = File d' ->
  FvHandle d = FvHandle d' /\ FileName d = FileName d' /\ FvFileDevicePath d = FvFileDevicePath d' /\ Fv d = Fv d' /\ IsFvImage d = IsFvImage d'.
Proof. intros H. by injection H. Qed.

(** Two names for one entry. *)
Ltac same_driver :=
  repeat match goal with
  | H1 : ?l !! ?i = Some ?a, H2 : ?l !! ?i = Some ?b |- _ => rewrite H1 in H2; injection H2 as H2; (subst b || subst a)
  end.

(** How many steps a driver can still take at most. *)
Definition Rank (d : DRIVER) : nat :=
  if DepexProtocolError d then 6 else if IsUnrequested d then 5 else if IsDependent d then 4
  else if Scheduled d then (if ImageHandle d =? 0 then 3 else 1) else if Untrusted d then 2 else 0.

Definition PhaseRank (p : PHASE) (Image : Z) : nat :=
  match p with Unread => 6 | Unasked => 5 | Waiting => 4 | Queued => if Image =? 0 then 3 else 1 | Distrusted => 2 | Dispatched => 0 end.

Lemma Rank_phase d p : InPhase d p -> Rank d = PhaseRank p (ImageHandle d).
Proof. intros H. destruct (InPhase_flags _ _ H) as (E1 & E2 & E3 & E4 & E5 & E6). unfold Rank. rewrite E1, E2, E3, E4, E5. by destruct p. Qed.

(** What the theorems are about: [Owner] is the firmware volume that a file is in,
    [FvOwner] the handle that a firmware volume protocol is from, [Limit] the
    number of drivers there can be, and [Endless] whether programs may go on for
    ever. *)
Record Setting := MkSetting {
  Owner : GUID -> Z;
  FvOwner : Z -> Z;
  Limit : option nat;
  Endless : Prop }.

Section Invariant.
Context {W : Type} {Env : DispatchEnvironment W} (X : Setting).
Abbreviation Safe := (SafeRun (Endless X)).

(** No number of evaluations of the expression comes upon a BEFORE or AFTER. *)
Fixpoint EvaluatesFor (n : nat) (e : EFI_CORE_DRIVER_ENTRY) : Prop :=
  match n with
  | O => True
  | S n => forall Available Installed s,
    match CoreIsSchedulable StackAvailable StackGarbage Available Installed PastDepex e s with
    | Done (_, e', _) => EvaluatesFor n e'
    | Asserted => False
    | OutOfFuel => True
    end
  end.
Definition Evaluates (e : EFI_CORE_DRIVER_ENTRY) : Prop := forall n, EvaluatesFor n e.

Definition Known (st : DispatchState W) : list Z := Handle <$> mFvHandleList st.

Record DriverOk (Handles : list Z) (d : DRIVER) : Prop := {
  ok_phase : exists p, InPhase d p;
  ok_known : FvHandle d ∈ Handles;
  ok_owner : Owner X (FileName d) = FvHandle d;
  ok_depex : Evaluates (Expression d);
  ok_image : Untrusted d = true -> ImageHandle d <> 0 }.

Record DispatchInv (st : DispatchState W) : Prop := {
  inv_lock : mDispatcherLock st = false;
  inv_nodup : NoDup (mScheduledQueue st);
  inv_queue : forall i, i ∈ mScheduledQueue st <-> exists d, mDiscoveredList st !! i = Some d /\ Scheduled d = true;
  inv_driver : forall i d, mDiscoveredList st !! i = Some d -> DriverOk (Known st) d;
  inv_names : forall i j d1 d2, mDiscoveredList st !! i = Some d1 -> mDiscoveredList st !! j = Some d2 -> FileName d1 = FileName d2 -> i = j;
  inv_limit : match Limit X with Some n => (length (mDiscoveredList st) <= n)%nat | None => True end }.

(** ** Changes *)

Record Evolves (st st' : DispatchState W) : Prop := {
  ev_driver : forall i d p, mDiscoveredList st !! i = Some d -> InPhase d p ->
    exists d' p', mDiscoveredList st' !! i = Some d' /\ File d' = File d /\ InPhase d' p' /\ rtc PhaseStep p p' /\ (p <> Unread -> OrderOf d' = OrderOf d) /\
      (Rank d' <= Rank d)%nat;
  ev_known : Known st ⊆ Known st';
  ev_running : gDispatcherRunning st = true -> gDispatcherRunning st' = true }.

(** The queue only grows, new drivers are from new firmware volumes, and the
    drivers in [H] do not move except by the services Schedule and Trust. *)
Record Quiet (H : nat -> Prop) (st st' : DispatchState W) : Prop := {
  qu_evolves : Evolves st st';
  qu_running : gDispatcherRunning st' = gDispatcherRunning st;
  qu_queue : mScheduledQueue st `prefix_of` mScheduledQueue st';
  qu_new : forall i d', mDiscoveredList st' !! i = Some d' -> mDiscoveredList st !! i = None -> FvHandle d' ∉ Known st;
  qu_still : forall i d p, H i -> mDiscoveredList st !! i = Some d -> InPhase d p ->
    exists d' p', mDiscoveredList st' !! i = Some d' /\ File d' = File d /\ OrderOf d' = OrderOf d /\ ImageHandle d' = ImageHandle d /\
      InPhase d' p' /\ QuietStep p p' }.

Definition All (i : nat) : Prop := True.

(** ** What the dispatcher expects of other programs *)

Definition Behaves {A} (m : DM W A) (Q : A -> DispatchState W -> Prop) : Prop :=
  forall st, DispatchInv st -> Safe m st (fun a st' => DispatchInv st' /\ Quiet All st st' /\ Q a st').

(** The same for a program that only runs while the dispatcher is running, where
    CoreDispatcher returns at once. *)
Definition BehavesRunning {A} (m : DM W A) (Q : A -> DispatchState W -> Prop) : Prop :=
  forall st, DispatchInv st -> gDispatcherRunning st = true -> Safe m st (fun a st' => DispatchInv st' /\ Quiet All st st' /\ Q a st').

(** The programs that the dispatcher calls change its state only through the
    services: Schedule, Trust, the notification for firmware volumes (where the number
    of drivers is not limited), and, while the dispatcher is running, CoreDispatcher.
    The other laws say under which circumstances the assertions of Dispatcher.c hold
    and its queue is not damaged:
    - a firmware volume is on one handle ([protocol_behaves], which also says that
      the protocol is there), and a file is in one volume and is found once
      ([next_behaves]; so that the names of the drivers are distinct, without which
      [insertion_endless]);
    - dependency expressions have BEFORE and AFTER only at their beginning
      ([depex_behaves]), and files that are volumes have no SMM one ([smm_behaves]);
    - the a priori file names each driver once, and none whose expression begins
      with SOR or could not be read yet ([apriori_behaves]; without which
      [apriori_twice] and [apriori_sor_twice]);
    - the block map of a volume with an extension header has an end
      ([header_behaves]), and no other volume becomes known while the name of one is
      read ([header_list], [guid_list], [memory_list]);
    - there is memory for entries ([memory_behaves]), and an image that has been
      loaded has a handle ([load_behaves]);
    - programs may go on for ever, or the number of drivers is limited and the fuel is
      more than six times that ([fuel_enough]). *)
Class DispatchLaws : Prop := {
  fuel_enough : Endless X \/ exists n, Limit X = Some n /\ (6 * n < LoopFuel)%nat;
  drop_behaves : Behaves DropDispatcherLock (fun _ _ => True);
  create_behaves : Behaves CreateDispatchEvent (fun _ _ => True);
  signal_behaves : BehavesRunning SignalDispatchEvent (fun _ _ => True);
  close_behaves : Behaves CloseDispatchEvent (fun _ _ => True);
  load_behaves Path : BehavesRunning (LoadImage Path) (fun r _ => EFI_ERROR r.1 = false \/ r.1 = EFI_SECURITY_VIOLATION -> r.2 <> 0);
  start_behaves Image : BehavesRunning (StartImage Image) (fun _ _ => True);
  image_behaves Fv_ h n : Behaves (ProcessFvImageFile Fv_ h n) (fun _ _ => True);
  locate_behaves : Behaves LocateFv (fun _ _ => True);
  header_behaves h : Behaves (GetFwVolHeader h) (fun r _ =>
    match r with Some x => ExtHeaderLoop (BlockMap x) (ExtHeaderOffset x) 0 <> None | None => True end);
  guid_behaves h b o : Behaves (ReadFvbGuid h b o) (fun _ _ => True);
  protocol_behaves h : Behaves (FvProtocol h) (fun r _ => match r with Some Fv_ => FvOwner X Fv_ = h | None => False end);
  path_behaves h : Behaves (FvDevicePath h) (fun _ _ => True);
  topath_behaves h n : Behaves (FvToDevicePath h n) (fun _ _ => True);
  (* a file that the volume has given before is not given again *)
  next_behaves Fv_ k t : Behaves (GetNextFile Fv_ k t) (fun '(Status, (_, _, Name)) st =>
    EFI_ERROR Status = false -> Owner X Name = FvOwner X Fv_ /\ forall i d, mDiscoveredList st !! i = Some d -> FileName d <> Name);
  depex_behaves Fv_ n : Behaves (ReadDepexSection Fv_ n) (fun '(Status, Bytes) _ =>
    EFI_ERROR Status = false -> forall e, Evaluates (snd (CorePreProcessDepex PastDepex (WithDepex (Some Bytes) e) Bytes)));
  smm_behaves Fv_ n : Behaves (ReadSmmDepexSection Fv_ n) (fun Status _ => EFI_ERROR Status = true);
  (* the a priori file has drivers without SOR whose expression could be read, each once *)
  apriori_behaves Fv_ : Behaves (ReadAprioriFile Fv_) (fun '(Status, Names) st =>
    EFI_ERROR Status = false -> NoDup Names /\
      forall i d, mDiscoveredList st !! i = Some d -> FvHandle d = FvOwner X Fv_ -> FileName d ∈ Names -> InPhase d Waiting);
  memory_behaves : Behaves EntryMemory (fun r _ => r = true);
  (* no other firmware volume is processed while the name of one is read *)
  header_list h st : DispatchInv st -> Safe (GetFwVolHeader h) st (fun _ st' => mFvHandleList st' = mFvHandleList st);
  guid_list h b o st : DispatchInv st -> Safe (ReadFvbGuid h b o) st (fun _ st' => mFvHandleList st' = mFvHandleList st);
  memory_list st : DispatchInv st -> Safe EntryMemory st (fun _ st' => mFvHandleList st' = mFvHandleList st) }.

(** ** Lemmas on changes *)

Lemma Evolves_refl st : DispatchInv st -> Evolves st st.
Proof. intros I. split; [|done|done]. intros i d p Hd Hp. exists d, p. by repeat split; try constructor. Qed.

Lemma Evolves_trans st1 st2 st3 : Evolves st1 st2 -> Evolves st2 st3 -> Evolves st1 st3.
Proof.
  intros [D1 K1 R1'] [D2 K2 R2']. split; [|set_solver|auto]. intros i d p Hd Hp.
  destruct (D1 i d p Hd Hp) as (d' & p' & Hd' & F1 & Hp' & S1 & O1 & R1).
  destruct (D2 i d' p' Hd' Hp') as (d2 & p2 & Hd2 & F2 & Hp2 & S2 & O2 & R2).
  exists d2, p2. split_and!; [done|congruence|done|by etrans| |lia].
  intros N. rewrite O2; [by apply O1|]. by eapply PhaseStep_read.
Qed.

Lemma Quiet_refl H st : DispatchInv st -> Quiet H st st.
Proof.
  intros I. split; [by eapply Evolves_refl|done|done|by intros i d' -> |]. intros i d p _ Hd Hp. exists d, p. split_and!; try done. constructor.
Qed.

Lemma Quiet_trans H st1 st2 st3 : DispatchInv st2 -> Quiet H st1 st2 -> Quiet H st2 st3 -> Quiet H st1 st3.
Proof.
  intros I [E1 R1 Q1 N1 S1] [E2 R2 Q2 N2 S2]. split; [by eapply Evolves_trans|congruence|by etrans| |].
  - intros i d3 H3 H1. destruct (mDiscoveredList st2 !! i) as [d2|] eqn:D2.
    + destruct (ok_phase _ _ (inv_driver _ I _ _ D2)) as [p Hp].
      destruct (ev_driver _ _ E2 i d2 p D2 Hp) as (d' & _ & D' & F & _). rewrite H3 in D'. injection D' as <-.
      apply File_fields in F as [-> _]. by apply (N1 i d2).
    + intros Hin. apply (N2 i d3 H3 D2). by apply (ev_known _ _ E1).
  - intros i d p Hi Hd Hp. destruct (S1 i d p Hi Hd Hp) as (d' & p' & Hd' & F1 & O1 & I1 & Hp' & T1).
    destruct (S2 i d' p' Hi Hd' Hp') as (d2 & p2 & Hd2 & F2 & O2 & I2 & Hp2 & T2). exists d2, p2.
    split_and!; try congruence. by eapply QuietStep_trans.
Qed.

Lemma Quiet_weaken (H H' : nat -> Prop) st st' : (forall i, H' i -> H i) -> Quiet H st st' -> Quiet H' st st'.
Proof. intros HH [E R Q N S]. split; [done..|]. intros i d p Hi. apply S. by apply HH. Qed.

Lemma Quiet_except i st st' : Quiet (fun j => j <> i) st st' -> mDiscoveredList st !! i = None -> Quiet All st st'.
Proof.
  intros [E R Q N S] Hi. split; [done..|]. intros j d p _ Hj. destruct (decide (j = i)) as [->|Hne]; [by rewrite Hi in Hj|]. by apply S.
Qed.

(** ** One driver moves *)

Definition Moved (i : nat) (d : DRIVER) (Queue : list nat) (st : DispatchState W) : DispatchState W :=
  SetQueue Queue (SetDiscovered (<[i := d]> (mDiscoveredList st)) st).

Section Move.
Context (st : DispatchState W) (i : nat) (d d' : DRIVER) (p p' : PHASE) (Queue : list nat).
Context (I : DispatchInv st) (Hd : mDiscoveredList st !! i = Some d) (Hp : InPhase d p).
Context (HF : File d' = File d) (Hp' : InPhase d' p').

Lemma Moved_lookup j : mDiscoveredList (Moved i d' Queue st) !! j = if decide (j = i) then Some d' else mDiscoveredList st !! j.
Proof.
  simpl. case_decide as E; [subst; apply list_lookup_insert_eq; by eapply lookup_lt_Some|by rewrite list_lookup_insert_ne].
Qed.

Lemma Moved_inv : (p' = Distrusted -> ImageHandle d' <> 0) -> Evaluates (Expression d') -> NoDup Queue ->
  (forall j, j ∈ Queue <-> if decide (j = i) then p' = Queued else j ∈ mScheduledQueue st) -> DispatchInv (Moved i d' Queue st).
Proof.
  intros HM HE HN HQ. apply File_fields in HF as (F1 & F2 & _). split; [apply I|done| | | |simpl; rewrite length_insert; apply I].
  - intros j. rewrite HQ, Moved_lookup. case_decide as E; [|apply I].
    destruct (InPhase_flags _ _ Hp') as (_ & _ & _ & Hs & _). split.
    + intros ->. by exists d'.
    + intros (d2 & [= <-] & H). rewrite Hs in H. by apply bool_decide_eq_true in H.
  - intros j d2. rewrite Moved_lookup. case_decide as E; [|intros; by apply (inv_driver _ I j)].
    intros [= <-]. destruct (inv_driver _ I i d Hd) as [_ K O _ _].
    split; [by exists p'|by rewrite F1|by rewrite F1, F2|done|]. destruct (InPhase_flags _ _ Hp') as (_ & _ & _ & _ & Hu & _).
    rewrite Hu. intros Hb%bool_decide_eq_true. by apply HM.
  - intros j k d1 d2. rewrite !Moved_lookup. do 2 case_decide; subst; [done| | |apply I]; intros; simplify_eq.
    + eapply (inv_names _ I); [done..|congruence].
    + eapply (inv_names _ I); [done..|congruence].
Qed.

Lemma Moved_evolves : rtc PhaseStep p p' -> (p <> Unread -> OrderOf d' = OrderOf d) -> (Rank d' <= Rank d)%nat -> Evolves st (Moved i d' Queue st).
Proof.
  intros HS HO HR. split; [|done|done]. intros j d2 q Hj Hq. rewrite Moved_lookup. case_decide as E.
  - subst j. same_driver. rewrite (InPhase_unique _ _ _ Hq Hp). by exists d', p'.
  - exists d2, q. split_and!; try done.
Qed.

Lemma Moved_quiet (H : nat -> Prop) : mScheduledQueue st `prefix_of` Queue -> rtc PhaseStep p p' -> OrderOf d' = OrderOf d -> (Rank d' <= Rank d)%nat ->
  (H i -> QuietStep p p' /\ ImageHandle d' = ImageHandle d) -> Quiet H st (Moved i d' Queue st).
Proof.
  intros HQ HS HO HR HH. split; [by apply Moved_evolves|done|done| |].
  - intros j d2. rewrite Moved_lookup. case_decide; [by subst; rewrite Hd|by intros ->].
  - intros j d2 q Hj Hj2 Hq. rewrite Moved_lookup. case_decide as E.
    + subst j. same_driver. rewrite (InPhase_unique _ _ _ Hq Hp). destruct (HH Hj) as [? ?]. by exists d', p'.
    + exists d2, q. split_and!; try done. constructor.
Qed.

(** The same, with the conditions on the queue for a driver that is not queued after or before. *)
Lemma Moved_queue_same : p <> Queued -> p' <> Queued -> forall j, j ∈ mScheduledQueue st <-> if decide (j = i) then p' = Queued else j ∈ mScheduledQueue st.
Proof.
  intros N N' j. case_decide as E; [|done]. subst j. split; [|done]. intros (d2 & E2 & Hs)%(inv_queue _ I). same_driver.
  destruct (InPhase_flags _ _ Hp) as (_ & _ & _ & Hs' & _). rewrite Hs in Hs'. by apply eq_sym, bool_decide_eq_true in Hs'.
Qed.

Lemma not_queued : p <> Queued -> i ∉ mScheduledQueue st.
Proof.
  intros N (d2 & E2 & Hs)%(inv_queue _ I). same_driver.
  destruct (InPhase_flags _ _ Hp) as (_ & _ & _ & Hs' & _). rewrite Hs in Hs'. by apply eq_sym, bool_decide_eq_true in Hs'.
Qed.

Lemma Moved_enqueue : p <> Queued -> p' = Queued ->
  NoDup (mScheduledQueue st ++ [i]) /\ forall j, j ∈ mScheduledQueue st ++ [i] <-> if decide (j = i) then p' = Queued else j ∈ mScheduledQueue st.
Proof.
  clear HF Hp' d'. intros N N'. split.
  - apply NoDup_app. split_and!; [apply I| |apply NoDup_singleton]. intros j Hj ->%list_elem_of_singleton. by apply not_queued in N.
  - intros j. rewrite elem_of_app, list_elem_of_singleton. case_decide; naive_solver.
Qed.

Lemma Moved_dequeue : p' <> Queued ->
  NoDup (filter (fun j => j <> i) (mScheduledQueue st)) /\
  forall j, j ∈ filter (fun j => j <> i) (mScheduledQueue st) <-> if decide (j = i) then p' = Queued else j ∈ mScheduledQueue st.
Proof.
  clear HF Hp' d' Hd Hp d. intros N'. split; [apply NoDup_filter, I|]. intros j. rewrite list_elem_of_filter. case_decide; naive_solver.
Qed.
End Move.

(** ** Programs *)

Lemma GetDriver_run (st : DispatchState W) i d : mDiscoveredList st !! i = Some d -> GetDriver i st = Done (d, st).
Proof. unfold GetDriver. by intros ->. Qed.

Lemma alter_insert (f : DRIVER -> DRIVER) (i : nat) d (l : list DRIVER) : l !! i = Some d -> alter f i l = <[i := f d]> l.
Proof.
  intros H. apply list_eq. intros j. destruct (decide (j = i)) as [->|Hj].
  - rewrite list_lookup_alter_eq, H, list_lookup_insert_eq; [done|by eapply lookup_lt_Some].
  - by rewrite list_lookup_alter_ne, list_lookup_insert_ne by done.
Qed.

Lemma ChangeDriver_run (st : DispatchState W) i d f : mDiscoveredList st !! i = Some d ->
  ChangeDriver i f st = Done (tt, Moved i (f d) (mScheduledQueue st) st).
Proof. intros H. unfold ChangeDriver, Change. rewrite (alter_insert f i d) by done. by destruct st. Qed.

Lemma LockAcquire_run (st : DispatchState W) : mDispatcherLock st = false -> CoreAcquireDispatcherLock st = Done (tt, SetLock true st).
Proof. intros H. unfold CoreAcquireDispatcherLock. rewrite (Get_run (S:=DispatchState W)), H. done. Qed.

Lemma LockRelease_run (st : DispatchState W) : mDispatcherLock st = false -> CoreReleaseDispatcherLock (SetLock true st) = DropDispatcherLock st.
Proof. intros H. destruct st. simpl in H. subst. done. Qed.

Lemma Enqueue_run (st : DispatchState W) i : i ∉ mScheduledQueue st -> Enqueue i st = Done (tt, SetQueue (mScheduledQueue st ++ [i]) st).
Proof. intros H. unfold Enqueue. rewrite (Get_run (S:=DispatchState W)). by rewrite bool_decide_eq_false_2. Qed.

Lemma Dequeue_run (st : DispatchState W) i : i ∈ mScheduledQueue st -> Dequeue i st = Done (tt, SetQueue (filter (fun j => j <> i) (mScheduledQueue st)) st).
Proof. intros H. unfold Dequeue. rewrite (Get_run (S:=DispatchState W)). by rewrite bool_decide_eq_true_2. Qed.

Lemma FindDriver_Some p L : forall k i, FindDriver p k L = Some i -> exists j d, i = (k + j)%nat /\ L !! j = Some d /\ p d = true.
Proof.
  induction L as [|d L IH]; intros k i; simpl; [done|]. destruct (p d) eqn:E.
  - intros [= <-]. exists 0%nat, d. split_and!; [lia|done|done].
  - intros (j & d2 & -> & H & H2)%IH. exists (S j), d2. split_and!; [lia|done|done].
Qed.

Lemma FindDriver_first p L i : FindDriver p 0 L = Some i -> exists d, L !! i = Some d /\ p d = true.
Proof. intros (j & d & -> & H)%FindDriver_Some. by exists d. Qed.

End Invariant.
