(* ===== verification/DispatchQueue.v ===== *)
(** * The DXE dispatcher: the queue

    The services Schedule and Trust, the insertion of a driver with the drivers
    that are to run before or after it, and the loops of the dispatcher keep the
    invariant and never stop, whatever runs in between. *)
From Stdlib Require Import ZArith Lia.
From stdpp Require Import base option list relations.
From S2P Require Import Prelude StateMonad Depex Dispatcher DispatchInv.

Section Queue.
Context {W : Type} {Env : DispatchEnvironment W} (X : Setting) {Laws : DispatchLaws X}.
Abbreviation Safe := (SafeRun (Endless X)).
Abbreviation Inv := (DispatchInv X).

(** A program of the environment as the next step. *)
Lemma Behaves_then {A B} (m : DM W A) (f : A -> DM W B) R st Q :
  Behaves X m R -> Inv st -> (forall a st', Inv st' -> Quiet All st st' -> R a st' -> Safe (f a) st' Q) -> Safe (m ≫= f) st Q.
Proof. intros Hm I Hf. eapply Safe_then; [by apply Hm|]. intros a st' (I' & Q' & R'). by apply Hf. Qed.

Lemma Running_then {A B} (m : DM W A) (f : A -> DM W B) R st Q :
  BehavesRunning X m R -> Inv st -> gDispatcherRunning st = true ->
  (forall a st', Inv st' -> Quiet All st st' -> R a st' -> Safe (f a) st' Q) -> Safe (m ≫= f) st Q.
Proof. intros Hm I HR Hf. eapply Safe_then; [by apply Hm|]. intros a st' (I' & Q' & R'). by apply Hf. Qed.

(** Where a driver is after steps that are quiet. *)
Lemma Quiet_still (H : nat -> Prop) (st st' : DispatchState W) i d p : Quiet H st st' -> H i -> mDiscoveredList st !! i = Some d -> InPhase d p ->
  exists d' p', mDiscoveredList st' !! i = Some d' /\ File d' = File d /\ OrderOf d' = OrderOf d /\ ImageHandle d' = ImageHandle d /\
    InPhase d' p' /\ QuietStep p p'.
Proof. intros Q Hi. by apply (qu_still _ _ _ Q). Qed.

Lemma Quiet_same (H : nat -> Prop) (st st' : DispatchState W) i d p : Quiet H st st' -> H i -> p <> Unasked -> p <> Distrusted ->
  mDiscoveredList st !! i = Some d -> InPhase d p ->
  exists d', mDiscoveredList st' !! i = Some d' /\ File d' = File d /\ OrderOf d' = OrderOf d /\ ImageHandle d' = ImageHandle d /\ InPhase d' p.
Proof.
  intros Q Hi N1 N2 Hd Hp. destruct (Quiet_still H st st' i d p Q Hi Hd Hp) as (d' & p' & ? & ? & ? & ? & ? & S). exists d'.
  inversion S; subst; done.
Qed.

Lemma driver_phase st i d : Inv st -> mDiscoveredList st !! i = Some d -> exists p, InPhase d p.
Proof. intros I H. apply (ok_phase _ _ _ (inv_driver _ _ I i d H)). Qed.

Lemma Evolves_rank st st' i d : Inv st -> Evolves st st' -> mDiscoveredList st !! i = Some d ->
  exists d', mDiscoveredList st' !! i = Some d' /\ (Rank d' <= Rank d)%nat.
Proof.
  intros I E Hd. destruct (driver_phase st i d I Hd) as [p Hp].
  destruct (ev_driver _ _ E i d p Hd Hp) as (d' & _ & Hd' & _ & _ & _ & _ & HR). by exists d'.
Qed.

(** A flag tells the state. *)
Lemma waiting_phase st i d : Inv st -> mDiscoveredList st !! i = Some d -> IsDependent d = true -> InPhase d Waiting.
Proof.
  intros I H Hf. destruct (driver_phase st i d I H) as [p Hp]. destruct (InPhase_flags _ _ Hp) as (_ & _ & E & _).
  rewrite Hf in E. by apply eq_sym, bool_decide_eq_true in E as ->.
Qed.

Lemma unasked_phase st i d : Inv st -> mDiscoveredList st !! i = Some d -> IsUnrequested d = true -> InPhase d Unasked.
Proof.
  intros I H Hf. destruct (driver_phase st i d I H) as [p Hp]. destruct (InPhase_flags _ _ Hp) as (_ & E & _).
  rewrite Hf in E. by apply eq_sym, bool_decide_eq_true in E as ->.
Qed.

Lemma distrusted_phase st i d : Inv st -> mDiscoveredList st !! i = Some d -> Untrusted d = true -> InPhase d Distrusted.
Proof.
  intros I H Hf. destruct (driver_phase st i d I H) as [p Hp]. destruct (InPhase_flags _ _ Hp) as (_ & _ & _ & _ & E & _).
  rewrite Hf in E. by apply eq_sym, bool_decide_eq_true in E as ->.
Qed.

Lemma unread_phase st i d : Inv st -> mDiscoveredList st !! i = Some d -> DepexProtocolError d = true -> InPhase d Unread.
Proof.
  intros I H Hf. destruct (driver_phase st i d I H) as [p Hp]. destruct (InPhase_flags _ _ Hp) as (E & _).
  rewrite Hf in E. by apply eq_sym, bool_decide_eq_true in E as ->.
Qed.

Lemma queued_phase st i d : Inv st -> mDiscoveredList st !! i = Some d -> i ∈ mScheduledQueue st -> InPhase d Queued.
Proof.
  intros I H (d' & H' & Hf)%(inv_queue _ _ I). same_driver. destruct (driver_phase st i _ I H) as [p Hp].
  destruct (InPhase_flags _ _ Hp) as (_ & _ & _ & E & _). rewrite Hf in E. by apply eq_sym, bool_decide_eq_true in E as ->.
Qed.

Lemma driver_depex st i d : Inv st -> mDiscoveredList st !! i = Some d -> Evaluates (Expression d).
Proof. intros I H. apply (inv_driver _ _ I i d H). Qed.

(** Evaluation does not depend on the flags of the state. *)
Lemma Evaluates_flags e e' : Depex e = Depex e' -> Before e = Before e' -> After e = After e' -> Evaluates e -> Evaluates e'.
Proof.
  intros HD HB HA H n. specialize (H n). revert e e' HD HB HA H. induction n as [|n IH]; [done|].
  intros e e' HD HB HA. cbn [EvaluatesFor]. intros H Av Ins s. specialize (H Av Ins s). revert H. unfold CoreIsSchedulable. rewrite <- HD, <- HB, <- HA.
  destruct (After e || Before e); cbv beta iota; [by apply IH|]. destruct (Depex e) as [b|] eqn:ED; cbv beta iota; [|apply IH; congruence].
  unfold mbind, Outcome_bind. destruct (EvaluateLoop _ _ _ _ _ _ _ _) as [[[r b'] s']| |]; [|done|done]. by apply IH.
Qed.

Lemma Evaluates_None e : Depex e = None -> Evaluates e.
Proof.
  intros HD n. revert e HD. induction n as [|n IH]; [done|]. intros e HD Av Ins s. unfold CoreIsSchedulable. rewrite HD.
  destruct (After e || Before e); by apply IH.
Qed.

(** ** Schedule and Trust *)

Lemma Release_safe st st1 : Inv st1 -> Quiet All st st1 ->
  Safe DropDispatcherLock st1 (fun _ st' => Inv st' /\ Quiet All st st').
Proof.
  intros I Q. eapply Safe_mono; [by apply (drop_behaves X)|]. intros [] st' (I' & Q' & _). split; [done|]. by apply (Quiet_trans X All st st1).
Qed.

Lemma CoreSchedule_safe h n : Behaves X (CoreSchedule h n) (fun _ _ => True).
Proof.
  intros st I. unfold CoreSchedule. eapply Safe_run; [done|].
  destruct (FindDriver _ _ _) as [i|] eqn:EF; [|split; [done|split; [by eapply Quiet_refl|done]]].
  apply FindDriver_first in EF as (d & Hd & Hf). apply andb_true_iff in Hf as [[_ Hf]%andb_true_iff _].
  assert (Hp : InPhase d Unasked) by by eapply unasked_phase.
  set (d' := OnExpression (fun e => WithDependent true (WithUnrequested false e)) d).
  assert (Hp' : InPhase d' Waiting).
  { destruct (InPhase_flags _ _ Hp) as (E1 & E2 & E3 & E4 & E5 & E6). unfold InPhase, Flags, d', IsUnrequested, IsDependent. simpl.
    by rewrite E1, E4, E5, E6. }
  eapply Safe_run; [apply LockAcquire_run, I|]. eapply Safe_run; [apply (ChangeDriver_run _ _ d); done|].
  apply Safe_step. eapply Safe_eq; [apply (LockRelease_run (Moved i d' (mScheduledQueue st) st)), I|].
  eapply Safe_mono; [apply (Release_safe st)|].
  - eapply (Moved_inv X st i d d' Waiting); try done; [|apply I|by apply (Moved_queue_same X st i d Unasked Waiting)].
    eapply Evaluates_flags; [..|by eapply driver_depex]; done.
  - eapply (Moved_quiet st i d d' Unasked Waiting); try done; [apply rtc_once; constructor| |by split; [constructor|]].
    rewrite (Rank_phase _ _ Hp), (Rank_phase _ _ Hp'). simpl. lia.
  - intros [] st' [I' Q]. by split.
Qed.

Lemma CoreTrust_safe h n : Behaves X (CoreTrust h n) (fun _ _ => True).
Proof.
  intros st I. unfold CoreTrust. eapply Safe_run; [done|].
  destruct (FindDriver _ _ _) as [i|] eqn:EF; [|split; [done|split; [by eapply Quiet_refl|done]]].
  apply FindDriver_first in EF as (d & Hd & Hf). apply andb_true_iff in Hf as [[_ Hf]%andb_true_iff _].
  assert (Hp : InPhase d Distrusted) by by eapply distrusted_phase.
  set (d' := SetScheduled true (SetUntrusted false d)).
  assert (Hp' : InPhase d' Queued).
  { destruct (InPhase_flags _ _ Hp) as (E1 & E2 & E3 & E4 & E5 & E6). unfold InPhase, Flags, d'.
    change (IsUnrequested _) with (IsUnrequested d). change (IsDependent _) with (IsDependent d). simpl. by rewrite E1, E2, E3, E6. }
  assert (Hq : i ∉ mScheduledQueue st) by by eapply not_queued.
  destruct (Moved_enqueue X st i d Distrusted Queued I Hd Hp) as [ND HQ]; [done|done|].
  eapply Safe_run; [apply LockAcquire_run, I|]. eapply Safe_run; [apply (ChangeDriver_run _ _ d); done|].
  eapply Safe_run; [by apply Enqueue_run|].
  apply Safe_step. eapply Safe_eq; [apply (LockRelease_run (Moved i d' (mScheduledQueue st ++ [i]) st)), I|].
  eapply Safe_mono; [apply (Release_safe st)|].
  - eapply (Moved_inv X st i d d' Queued); try done. eapply Evaluates_flags; [..|by eapply driver_depex]; done.
  - eapply (Moved_quiet st i d d' Distrusted Queued); try done; [by apply prefix_app_r|apply rtc_once; constructor| |by split; [constructor|]].
    rewrite (Rank_phase _ _ Hp), (Rank_phase _ _ Hp'). simpl.
    rewrite (proj2 (Z.eqb_neq _ _)) by by apply (ok_image _ _ _ (inv_driver _ _ I i d Hd)). simpl. lia.
  - intros [] st' [I' Q]. by split.
Qed.

(** ** Scheduling one driver *)

Definition Readied (d : DRIVER) : DRIVER := SetScheduled true (OnExpression (WithDependent false) d).

Lemma Ready_phase d : InPhase d Waiting -> InPhase (Readied d) Queued.
Proof.
  intros Hp. destruct (InPhase_flags _ _ Hp) as (E1 & E2 & E3 & E4 & E5 & E6). unfold InPhase, Flags, Readied, IsUnrequested, IsDependent in *.
  simpl. by rewrite E1, E2, E5, E6.
Qed.

Lemma Ready_rank d : InPhase d Waiting -> (Rank (Readied d) < Rank d)%nat.
Proof. intros Hp. rewrite (Rank_phase _ _ Hp), (Rank_phase _ _ (Ready_phase d Hp)). simpl. destruct (_ =? 0); lia. Qed.

Lemma ScheduleDriver_run st i d : mDispatcherLock st = false -> mDiscoveredList st !! i = Some d -> i ∉ mScheduledQueue st ->
  ScheduleDriver i st = DropDispatcherLock (Moved i (Readied d) (mScheduledQueue st ++ [i]) st).
Proof.
  intros HL Hd Hq. unfold ScheduleDriver. etrans; [by eapply SM_bind_run, LockAcquire_run|].
  etrans; [by eapply SM_bind_run, (ChangeDriver_run _ _ d)|]. etrans; [by eapply SM_bind_run, Enqueue_run|].
  by apply (LockRelease_run (Moved i (Readied d) (mScheduledQueue st ++ [i]) st)).
Qed.

Lemma ScheduleDriver_moved st i d : Inv st -> mDiscoveredList st !! i = Some d -> InPhase d Waiting ->
  Inv (Moved i (Readied d) (mScheduledQueue st ++ [i]) st).
Proof.
  intros I Hd Hp. destruct (Moved_enqueue X st i d Waiting Queued I Hd Hp) as [ND HQ]; [done|done|].
  eapply (Moved_inv X st i d (Readied d) Queued); try done; [by apply Ready_phase|].
  eapply Evaluates_flags; [..|by eapply driver_depex]; done.
Qed.

Lemma ScheduleDriver_quiet (H : nat -> Prop) (st : DispatchState W) i d : mDiscoveredList st !! i = Some d -> InPhase d Waiting -> ~ H i ->
  Quiet H st (Moved i (Readied d) (mScheduledQueue st ++ [i]) st).
Proof.
  intros Hd Hp HH. eapply (Moved_quiet st i d _ Waiting Queued); try done;
    [by apply Ready_phase|by apply prefix_app_r|apply rtc_once; constructor|].
  pose proof (Ready_rank d Hp). lia.
Qed.

Lemma ScheduleDriver_safe (H : nat -> Prop) st i d : Inv st -> mDiscoveredList st !! i = Some d -> InPhase d Waiting -> ~ H i ->
  Safe (ScheduleDriver i) st (fun _ st' => Inv st' /\ Quiet H st st' /\ exists d', mDiscoveredList st' !! i = Some d' /\ (Rank d' < Rank d)%nat).
Proof.
  intros I Hd Hp HH. assert (Hq : i ∉ mScheduledQueue st) by by eapply not_queued.
  pose proof (ScheduleDriver_moved st i d I Hd Hp) as I1. pose proof (ScheduleDriver_quiet H st i d Hd Hp HH) as Q1.
  eapply Safe_eq; [apply (ScheduleDriver_run st i d); [apply I|done..]|].
  eapply Safe_mono; [by apply (drop_behaves X)|]. intros [] st' (I' & Q & _). split; [done|].
  split; [by eapply Quiet_trans; [exact I1|exact Q1|by eapply Quiet_weaken; [|exact Q]]|].
  destruct (Evolves_rank _ st' i (Readied d) I1 (qu_evolves _ _ _ Q)) as (d' & Hd' & HR).
  - simpl. apply list_lookup_insert_eq. by eapply lookup_lt_Some.
  - exists d'. split; [done|]. pose proof (Ready_rank d Hp). lia.
Qed.

(** ** Drivers before and after *)

(** The drivers whose insertion is under way, the innermost first: each but the
    last one is to run before or after the next. *)
Inductive PendingChain (st : DispatchState W) : list nat -> Prop :=
| ChainRoot i d p : mDiscoveredList st !! i = Some d -> InPhase d p -> p <> Unread -> Before (Expression d) = false -> After (Expression d) = false ->
    PendingChain st [i]
| ChainPush j dj p i di S : mDiscoveredList st !! j = Some dj -> InPhase dj p -> p <> Unread ->
    mDiscoveredList st !! i = Some di -> (exists q, InPhase di q) -> BeforeAfterGuid (Expression dj) = FileName di -> j ∉ i :: S -> PendingChain st (i :: S) -> PendingChain st (j :: i :: S).

Lemma Chain_nodup st L : PendingChain st L -> NoDup L.
Proof. induction 1; [apply NoDup_singleton|]. by apply NoDup_cons. Qed.

Lemma Chain_evolves st st' L : Evolves st st' -> PendingChain st L -> PendingChain st' L.
Proof.
  intros E. induction 1 as [i d p Hd Hp N HB HA|j dj p i di S Hj Hp N Hi Hq HG HN _ IH].
  - destruct (ev_driver _ _ E i d p Hd Hp) as (d' & p' & Hd' & F & Hp' & HS & HO & _). specialize (HO N). injection HO as O1 O2 O3.
    eapply ChainRoot; [done|exact Hp'|by eapply PhaseStep_read|congruence..].
  - destruct (ev_driver _ _ E j dj p Hj Hp) as (d' & p' & Hd' & F & Hp' & HS & HO & _). specialize (HO N). injection HO as O1 O2 O3.
    destruct Hq as [q Hq]. destruct (ev_driver _ _ E i di q Hi Hq) as (di' & q' & Hi' & Fi & Hq' & _). apply File_fields in Fi as (_ & Fi & _).
    eapply ChainPush; [done|exact Hp'|by eapply PhaseStep_read|done|by exists q'|congruence|done|done].
Qed.

(** A driver of the chain with such a dependency is above the driver it depends on. *)
Lemma Chain_above st L j dj : PendingChain st L -> j ∈ L -> mDiscoveredList st !! j = Some dj -> Before (Expression dj) || After (Expression dj) = true ->
  exists L1 i di L2, L = L1 ++ j :: i :: L2 /\ mDiscoveredList st !! i = Some di /\ BeforeAfterGuid (Expression dj) = FileName di.
Proof.
  intros C Hj Hd HK. induction C as [i d p Hi _ _ HB HA|k dk p i di S Hk _ _ Hi _ HG _ C IH].
  - apply list_elem_of_singleton in Hj as ->. same_driver. by rewrite HB, HA in HK.
  - apply elem_of_cons in Hj as [->|Hj].
    + same_driver. by exists [], i, di, S.
    + destruct (IH Hj) as (L1 & x & dx & L2 & E & Hx). exists (k :: L1), x, dx, L2. by rewrite E.
Qed.

(** A driver that is to be inserted next is not one of the chain. *)
Lemma Chain_fresh st j dj i di S : Inv st -> PendingChain st (i :: S) -> mDiscoveredList st !! i = Some di -> mDiscoveredList st !! j = Some dj ->
  Before (Expression dj) || After (Expression dj) = true -> BeforeAfterGuid (Expression dj) = FileName di -> j <> i -> j ∉ i :: S.
Proof.
  intros I C Hi Hj HK HG Hne Hin. destruct (Chain_above _ _ j dj C Hin Hj HK) as (L1 & x & dx & L2 & E & Hx & HGx).
  assert (x = i) as -> by (eapply (inv_names _ _ I); [done..|congruence]). apply Chain_nodup in C. rewrite E in C.
  destruct L1 as [|y L1]; [by injection E as -> _|]. injection E as -> E. apply NoDup_cons in C as [C _]. apply C. set_solver.
Qed.

(** The number of steps that are left, where that matters. *)
Definition FuelFor (k : nat -> nat) (fuel : nat) : Prop := Endless X \/ exists n, Limit X = Some n /\ (k n <= fuel)%nat.

Lemma Within_loop : FuelFor (fun n => n) LoopFuel.
Proof. destruct (fuel_enough X) as [?|(n & E & H)]; [by left|]. right. exists n. split; [done|lia]. Qed.

Lemma Within_less (k k' : nat -> nat) fuel fuel' : FuelFor k fuel -> (forall n, Limit X = Some n -> k n <= fuel -> k' n <= fuel')%nat -> FuelFor k' fuel'.
Proof. intros [?|(n & E & H)] HK; [by left|]. right. exists n. split; [done|]. by apply HK. Qed.

Lemma Within_none (k : nat -> nat) {A} st (Q : A -> DispatchState W -> Prop) :
  FuelFor k 0 -> (forall n, Limit X = Some n -> 0 < k n)%nat -> Safe NoFuel st Q.
Proof. intros [?|(n & E & H)] HK; [done|]. specialize (HK n E). lia. Qed.

Lemma length_limit st n : Inv st -> Limit X = Some n -> (length (mDiscoveredList st) <= n)%nat.
Proof. intros I E. pose proof (inv_limit _ _ I) as H. by rewrite E in H. Qed.

Lemma ForDrivers_safe (R : DispatchState W -> Prop) (body : nat -> DM W unit) :
  (forall st, R st -> Inv st) ->
  (forall st i, R st -> (i < length (mDiscoveredList st))%nat -> Safe (body i) st (fun _ => R)) ->
  forall fuel i st, FuelFor (fun n => n - i)%nat fuel -> R st -> Safe (ForDrivers fuel i body) st (fun _ => R).
Proof.
  intros HI HB. induction fuel as [|fuel IH]; intros i st HF HR; cbn [ForDrivers]; (eapply Safe_run; [done|]); case_bool_decide as E; try done.
  - eapply Within_none; [done|]. intros n Hn. pose proof (length_limit st n (HI st HR) Hn). simpl. lia.
  - eapply Safe_then; [by apply HB|]. intros [] st' HR'. apply IH; [|done]. eapply Within_less; [done|]. intros ? _. simpl. lia.
Qed.

Definition Members (S : list nat) (i : nat) : Prop := i ∈ S.

Section Dependents.
Context (Insert : nat -> DM W unit).
Context (Depth : list nat -> Prop).
Hypothesis Insert_safe : forall st x S d, Inv st -> Depth S -> PendingChain st (x :: S) -> mDiscoveredList st !! x = Some d -> InPhase d Waiting ->
  Safe (Insert x) st (fun _ st' => Inv st' /\ Quiet (Members S) st st').

Lemma ProcessDependents_safe Kind st x S : (forall e, Kind e = true -> Before e || After e = true) -> Inv st -> Depth (x :: S) -> PendingChain st (x :: S) ->
  Safe (ProcessDependents Insert Kind x) st (fun _ st' => Inv st' /\ Quiet (Members (x :: S)) st st').
Proof.
  intros HK I HS C. unfold ProcessDependents.
  apply (ForDrivers_safe (fun st' => Inv st' /\ Quiet (Members (x :: S)) st st'));
    [by intros ? [? _]| |eapply Within_less; [apply Within_loop|intros ? _; simpl; lia]|by split; [|eapply Quiet_refl]].
  intros st' j [I' Q] Hj. apply lookup_lt_is_Some in Hj as [dj Hj].
  assert (C' : PendingChain st' (x :: S)) by by eapply Chain_evolves, C; apply Q.
  eapply Safe_run; [by apply GetDriver_run|]. destruct (_ && _) eqn:E; [|done].
  apply andb_true_iff in E as [[EK ED]%andb_true_iff EN]. apply negb_true_iff, bool_decide_eq_false in EN.
  assert (exists dx, mDiscoveredList st' !! x = Some dx) as [dx Hx] by (inversion C'; subst; eauto).
  eapply Safe_run; [by apply GetDriver_run|]. case_bool_decide as EG; [|done].
  assert (Hp : InPhase dj Waiting) by by eapply waiting_phase.
  eapply Safe_mono; [apply (Insert_safe st' j (x :: S) dj); [done|done| |done|done]|].
  - eapply ChainPush; [done|exact Hp|done|exact Hx|by eapply driver_phase|done| |done].
    eapply (Chain_fresh st' j dj x dx); try done. by apply HK.
  - intros [] st2 [I2 Q2]. split; [done|]. by apply (Quiet_trans X _ st st').
Qed.
End Dependents.

Lemma Chain_length st L n : Inv st -> PendingChain st L -> Limit X = Some n -> (length L <= n)%nat.
Proof.
  intros I C E. etrans; [|by apply (length_limit st)]. rewrite <- (length_seq (length (mDiscoveredList st)) 0). apply submseteq_length, NoDup_submseteq.
  - by eapply Chain_nodup.
  - intros i Hi. apply elem_of_seq. split; [lia|]. simpl.
    induction C as [j d p Hd|j dj p k dk S Hd _ _ _ _ _ _ _ IH]; apply elem_of_cons in Hi as [->|Hi]; try (by eapply lookup_lt_Some); [|by apply IH].
    by apply not_elem_of_nil in Hi.
Qed.

Lemma Insert_safe fuel : forall st x S d, Inv st -> FuelFor (fun n => n - length S)%nat fuel -> PendingChain st (x :: S) -> mDiscoveredList st !! x = Some d ->
  InPhase d Waiting ->
  Safe (CoreInsertOnScheduledQueueWhileProcessingBeforeAndAfter fuel x) st (fun _ st' => Inv st' /\ Quiet (Members S) st st' /\
    exists d', mDiscoveredList st' !! x = Some d' /\ (Rank d' < Rank d)%nat).
Proof.
  induction fuel as [|fuel IH]; intros st x S d I HF C Hd Hp; cbn [CoreInsertOnScheduledQueueWhileProcessingBeforeAndAfter].
  { eapply Within_none; [done|]. intros n Hn. pose proof (Chain_length st _ n I C Hn). simpl in *. lia. }
  assert (Hx : x ∉ S) by by apply Chain_nodup, NoDup_cons in C as [? _].
  assert (HW : forall i, Members S i -> Members (x :: S) i) by (unfold Members; set_solver).
  assert (HF' : FuelFor (fun n => n - length (x :: S))%nat fuel) by (eapply Within_less; [done|intros ? _; simpl; lia]).
  assert (IH' : forall st x S d, Inv st -> FuelFor (fun n => n - length S)%nat fuel -> PendingChain st (x :: S) -> mDiscoveredList st !! x = Some d ->
    InPhase d Waiting -> Safe (CoreInsertOnScheduledQueueWhileProcessingBeforeAndAfter fuel x) st (fun _ st' => Inv st' /\ Quiet (Members S) st st')).
  { intros. eapply Safe_mono; [by eapply IH|]. by intros ? ? (? & ? & _). }
  eapply Safe_then; [apply (ProcessDependents_safe _ _ IH' Before st x S); [by intros e ->|done..]|]. intros [] st1 [I1 Q1].
  destruct (Quiet_same _ st st1 x d Waiting Q1) as (d1 & Hd1 & _ & _ & _ & Hp1); [by left|done..|].
  eapply Safe_then; [by apply (ScheduleDriver_safe (Members S) st1 x d1)|]. intros [] st2 (I2 & Q2 & d2 & Hd2 & HR2).
  assert (Q12 : Quiet (Members S) st st2).
  { apply (Quiet_trans X _ st st1); [done| |done]. by eapply Quiet_weaken, Q1. }
  eapply Safe_mono; [apply (ProcessDependents_safe _ _ IH' After st2 x S); [|done|done|eapply Chain_evolves, C; apply Q12]|].
  - intros e ->. by rewrite orb_true_r.
  - intros [] st3 [I3 Q3]. split; [done|]. split; [apply (Quiet_trans X _ st st2); [done..|]; by eapply Quiet_weaken, Q3|].
    destruct (Evolves_rank st2 st3 x d2 I2 (qu_evolves _ _ _ Q3) Hd2) as (d3 & Hd3 & HR3). exists d3. split; [done|].
    rewrite (Rank_phase d _ Hp). rewrite (Rank_phase d1 _ Hp1) in HR2. simpl in *. lia.
Qed.

(** ** Dependency expressions *)

(** The state of a driver whose expression is going to be read. *)
Definition Fresh (d : DRIVER) : Prop :=
  IsUnrequested d = false /\ IsDependent d = false /\ Scheduled d = false /\ Untrusted d = false /\ Initialized d = false.

Definition ReadPhases : list PHASE := [Unread; Unasked; Waiting].

Lemma CoreGetDepex_behaves Fv_ n : Behaves X (CoreGetDepexSectionAndPreProccess Fv_ n) (fun '(_, f) _ =>
  forall d, Fresh d -> Evaluates (Expression d) -> File (f d) = File d /\ Evaluates (Expression (f d)) /\ exists p, InPhase (f d) p /\ p ∈ ReadPhases).
Proof.
  intros st I. unfold CoreGetDepexSectionAndPreProccess. eapply Behaves_then; [apply (depex_behaves X)|done|].
  intros [Status Bytes] st' I' Q H. split; [done|]. split; [done|]. intros d (E1 & E2 & E3 & E4 & E5) He. destruct (EFI_ERROR Status).
  - case_bool_decide.
    + split; [done|]. split; [done|]. exists Unread. unfold InPhase, Flags.
      change (IsUnrequested _) with (IsUnrequested d). change (IsDependent _) with (IsDependent d). simpl. rewrite E1, E2, E3, E4, E5.
      split; [done|]. by left.
    + split; [done|]. split; [by apply Evaluates_None|]. exists Waiting. unfold InPhase, Flags.
      change (IsUnrequested _) with (IsUnrequested d). simpl. rewrite E1, E3, E4, E5. split; [done|]. right. right. by left.
  - split; [done|]. split; [by apply H|]. unfold InPhase, Flags, IsUnrequested, IsDependent in *. simpl. rewrite E1, E2, E3, E4, E5.
    destruct (_ =? EFI_DEP_SOR); [exists Unasked|exists Waiting]; (split; [done|]); right; [by left|right; by left].
Qed.

Lemma ReadPhases_steps p : p ∈ ReadPhases -> rtc PhaseStep Unread p.
Proof.
  clear. unfold ReadPhases. intros H. repeat (apply elem_of_cons in H as [->|H]); [constructor|apply rtc_once; constructor..|]. by apply not_elem_of_nil in H.
Qed.

Lemma ReadPhases_queued p : p ∈ ReadPhases -> p <> Queued.
Proof. clear. unfold ReadPhases. set_solver. Qed.

Lemma ReadPhases_distrusted : Distrusted ∉ ReadPhases.
Proof. clear. unfold ReadPhases. set_solver. Qed.

Lemma CoreIsSchedulable_entry Available Installed e s r e' s' :
  CoreIsSchedulable StackAvailable StackGarbage Available Installed PastDepex e s = Done (r, e', s') ->
  (Dependent e', Unrequested e', Before e', After e', BeforeAfterGuid e') = (Dependent e, Unrequested e, Before e, After e, BeforeAfterGuid e) /\
  (r = true -> Before e = false /\ After e = false).
Proof.
  unfold CoreIsSchedulable. destruct (After e) eqn:EA, (Before e) eqn:EB; simpl; try (intros [= <- <- <-]; rewrite EA, EB; by split).
  destruct (Depex e); [|intros [= <- <- <-]; by rewrite EA, EB].
  unfold mbind, Outcome_bind. destruct (EvaluateLoop _ _ _ _ _ _ _ _) as [[[r1 b1] s1]| |]; [|done|done].
  intros [= <- <- <-]. simpl. by rewrite EA, EB.
Qed.

Lemma CoreIsSchedulable_ends Available Installed e s :
  CoreIsSchedulable StackAvailable StackGarbage Available Installed PastDepex e s <> OutOfFuel.
Proof.
  unfold CoreIsSchedulable. destruct (After e || Before e); [done|]. destruct (Depex e) as [b|]; [|done].
  pose proof (same_result_loop StackAvailable StackGarbage Installed PastDepex PastDepex (length b) (length b) 0 b
    (MkStack (mDepexEvaluationStack s) 0) eq_refl) as H.
  unfold mbind, Outcome_bind. destruct (EvaluateLoop _ _ _ _ _ _ _ _) as [[[r b'] s']| |]; [done|done|]. destruct H. lia.
Qed.

Lemma SetStack_inv s st : Inv st -> Inv (SetStack s st).
Proof. by intros [? ? ? ? ?]; split. Qed.

Lemma SetStack_evolves s (st st' : DispatchState W) : Evolves st st' -> Evolves st (SetStack s st').
Proof. by intros [? ? ?]; split. Qed.

Lemma IsSchedulable_safe st i d : Inv st -> mDiscoveredList st !! i = Some d -> InPhase d Waiting ->
  Safe (IsSchedulable i) st (fun r st' => Inv st' /\ Evolves st st' /\ exists d', mDiscoveredList st' !! i = Some d' /\ InPhase d' Waiting /\
    (r = true -> Before (Expression d') = false /\ After (Expression d') = false)).
Proof.
  intros I Hd Hp. unfold IsSchedulable. eapply Safe_run; [by apply GetDriver_run|]. unfold SafeRun.
  pose proof (driver_depex st i d I Hd) as HE.
  destruct (CoreIsSchedulable _ _ _ _ _ _ _) as [[[r e'] s']| |] eqn:EC; [|by specialize (HE 1%nat (AllEfiServicesAvailable (World st)) (Located (World st)) (Stack st)); rewrite EC in HE|by apply CoreIsSchedulable_ends in EC].
  destruct (CoreIsSchedulable_entry _ _ _ _ _ _ _ EC) as [[= H1 H2 H3 H4 H5] Hr].
  assert (HE' : Evaluates e').
  { intros n. specialize (HE (S n) (AllEfiServicesAvailable (World st)) (Located (World st)) (Stack st)). by rewrite EC in HE. }
  rewrite (alter_insert _ i d) by done.
  assert (Hp' : InPhase (SetExpression e' d) Waiting).
  { unfold InPhase in *. rewrite <- Hp. unfold Flags, IsUnrequested, IsDependent. simpl. by rewrite H1, H2. }
  change (SetDiscovered _ st) with (Moved i (SetExpression e' d) (mScheduledQueue st) st).
  split; [|split].
  - apply SetStack_inv. eapply (Moved_inv X st i d _ Waiting); try done; [apply I|]. by apply (Moved_queue_same X st i d Waiting Waiting).
  - apply SetStack_evolves. eapply (Moved_evolves st i d _ Waiting Waiting); try done; [intros _; unfold OrderOf; simpl; congruence|].
    by rewrite (Rank_phase _ _ Hp), (Rank_phase _ _ Hp').
  - exists (SetExpression e' d). split_and!; [|done|simpl; rewrite H3, H4; done]. simpl. apply list_lookup_insert_eq. by eapply lookup_lt_Some.
Qed.
End Queue.
