(* ===== verification/DispatchRun.v ===== *)
(** * The DXE dispatcher: the loops

    The loop that empties the queue, the loop that searches for drivers to queue,
    and CoreDispatcher itself keep the invariant. *)
From Stdlib Require Import ZArith Lia.
From stdpp Require Import base option list relations.
From S2P Require Import Prelude StateMonad Depex Dispatcher DispatchInv DispatchQueue.

Section Run.
Context {W : Type} {Env : DispatchEnvironment W} (X : Setting) {Laws : DispatchLaws X}.
Abbreviation Safe := (SafeRun (Endless X)).
Abbreviation Inv := (DispatchInv X).

(** ** The steps that are left *)

Definition RankAt (st : DispatchState W) (i : nat) : nat := match mDiscoveredList st !! i with Some d => Rank d | None => 6 end.
Definition Total (n : nat) (st : DispatchState W) : nat := sum_list (RankAt st <$> seq 0 n).

Lemma sum_le {A} (f g : A -> nat) l : (forall x, x ∈ l -> f x <= g x)%nat -> (sum_list (f <$> l) <= sum_list (g <$> l))%nat.
Proof.
  induction l as [|x l IH]; intros H; [done|]. rewrite !fmap_cons. cbn [sum_list sum_list_with id].
  assert (f x <= g x)%nat by (apply H; by left). assert (sum_list (f <$> l) <= sum_list (g <$> l))%nat by (apply IH; intros; apply H; by right).
  unfold id in *. lia.
Qed.

Lemma sum_less {A} (f g : A -> nat) l y : (forall x, x ∈ l -> f x <= g x)%nat -> y ∈ l -> (f y < g y)%nat -> (sum_list (f <$> l) < sum_list (g <$> l))%nat.
Proof.
  intros H (l1 & l2 & ->)%list_elem_of_split Hy. rewrite !fmap_app, !fmap_cons, !sum_list_with_app. cbn [sum_list sum_list_with id]. unfold id.
  assert (sum_list (f <$> l1) <= sum_list (g <$> l1))%nat by (apply sum_le; set_solver).
  assert (sum_list (f <$> l2) <= sum_list (g <$> l2))%nat by (apply sum_le; set_solver). unfold id in *. lia.
Qed.

Lemma Rank_bound d : (Rank d <= 6)%nat.
Proof. unfold Rank. repeat case_match; lia. Qed.

Lemma Evolves_rankat st st' i : Inv st -> Evolves st st' -> (RankAt st' i <= RankAt st i)%nat.
Proof.
  intros I E. unfold RankAt. destruct (mDiscoveredList st !! i) as [d|] eqn:Hd.
  - destruct (Evolves_rank X st st' i d I E Hd) as (d' & -> & HR). done.
  - case_match; [apply Rank_bound|done].
Qed.

Lemma Evolves_total st st' n : Inv st -> Evolves st st' -> (Total n st' <= Total n st)%nat.
Proof. intros I E. apply sum_le. intros i _. by apply Evolves_rankat. Qed.

Lemma Total_less st st' n i d d' : Inv st -> Evolves st st' -> Limit X = Some n -> mDiscoveredList st !! i = Some d -> mDiscoveredList st' !! i = Some d' ->
  (Rank d' < Rank d)%nat -> (Total n st' < Total n st)%nat.
Proof.
  intros I E Hn Hd Hd' HR. apply (sum_less _ _ _ i).
  - intros j _. by apply Evolves_rankat.
  - apply elem_of_seq. apply lookup_lt_Some in Hd. pose proof (length_limit X st n I Hn). lia.
  - unfold RankAt. by rewrite Hd, Hd'.
Qed.

Lemma Total_bound n st : (Total n st <= 6 * n)%nat.
Proof.
  unfold Total. rewrite <- (length_seq n 0) at 2. induction (seq 0 n) as [|i l IH]; [done|]. rewrite fmap_cons. cbn [sum_list sum_list_with length].
  assert (RankAt st i <= 6)%nat by (unfold RankAt; case_match; [apply Rank_bound|done]). unfold id in *. lia.
Qed.

(** ** One driver *)

(** The entry of the queue, after its image has been loaded: [d1] instead of [d0]. *)
Lemma LoadDriver_safe st i d : Inv st -> gDispatcherRunning st = true -> mDiscoveredList st !! i = Some d -> i ∈ mScheduledQueue st ->
  Safe (LoadDriver i) st (fun Status st' => exists st0 d0 d1, st' = Moved i d1 (mScheduledQueue st0) st0 /\ Inv st0 /\ Evolves st st0 /\
    i ∈ mScheduledQueue st0 /\ mDiscoveredList st0 !! i = Some d0 /\ InPhase d1 Queued /\ File d1 = File d0 /\ Expression d1 = Expression d0 /\
    (EFI_ERROR Status = false -> IsFvImage d1 = true \/ ImageHandle d1 <> 0) /\
    (Status = EFI_SECURITY_VIOLATION -> ImageHandle d1 <> 0 /\ ImageHandle d0 = 0)).
Proof.
  intros I HR Hd Hq. assert (Hp : InPhase d Queued) by by eapply queued_phase. unfold LoadDriver.
  eapply Safe_run; [by apply GetDriver_run|]. destruct (_ && _) eqn:E.
  - apply andb_true_iff in E as [E%Z.eqb_eq _].
    eapply Running_then; [apply (load_behaves X)|done|done|]. intros [Status Image] st1 I1 Q1 HI. simpl in HI.
    destruct (Quiet_same _ st st1 i d Queued Q1) as (d1 & Hd1 & HF & HO & HM & Hp1); [done..|].
    eapply Safe_run; [by apply (ChangeDriver_run _ _ d1)|]. exists st1, d1, (SetImageHandle Image d1).
    split_and!; try done; [apply Q1|eapply elem_of_prefix; [exact Hq|apply Q1]|intros HS; right; apply HI; by left|].
    intros HS. split; [apply HI; by right|congruence].
  - exists st, d, d. split_and!; try done; [|by eapply Evolves_refl|].
    + unfold Moved. rewrite list_insert_id by done. by destruct st.
    + intros _. apply andb_false_iff in E as [E|E]; [right; by apply Z.eqb_neq|left; by apply negb_false_iff].
Qed.

Definition AfterLoad (Status : EFI_STATUS) (d : DRIVER) : DRIVER :=
  SetScheduled false (if bool_decide (Status = EFI_SECURITY_VIOLATION) then SetUntrusted true d else SetInitialized true d).

Lemma AfterLoad_phase Status d : InPhase d Queued ->
  InPhase (AfterLoad Status d) (if bool_decide (Status = EFI_SECURITY_VIOLATION) then Distrusted else Dispatched).
Proof.
  intros Hp. destruct (InPhase_flags _ _ Hp) as (E1 & E2 & E3 & E4 & E5 & E6).
  unfold InPhase, Flags, AfterLoad, IsUnrequested, IsDependent in *. destruct (bool_decide (Status = _)); simpl; by rewrite ?E1, ?E2, ?E3, ?E5, ?E6.
Qed.

Lemma AfterLoad_rank Status d0 d1 : InPhase d0 Queued -> InPhase d1 Queued -> (Status = EFI_SECURITY_VIOLATION -> ImageHandle d1 <> 0 /\ ImageHandle d0 = 0) ->
  (Rank (AfterLoad Status d1) < Rank d0)%nat.
Proof.
  intros Hp0 Hp1 HS. rewrite (Rank_phase _ _ (AfterLoad_phase Status d1 Hp1)), (Rank_phase _ _ Hp0).
  case_bool_decide as E; cbn [PhaseRank]; [destruct (HS E) as [_ ->]; simpl; lia|destruct (_ =? 0); lia].
Qed.

Lemma AfterLoad_fields Status d : File (AfterLoad Status d) = File d /\ Expression (AfterLoad Status d) = Expression d /\
  ImageHandle (AfterLoad Status d) = ImageHandle d.
Proof. unfold AfterLoad. by case_bool_decide. Qed.

(** The driver leaves the queue. *)
Definition Left (Status : EFI_STATUS) (i : nat) (d1 : DRIVER) (st : DispatchState W) : DispatchState W :=
  Moved i (AfterLoad Status d1) (filter (fun j => j <> i) (mScheduledQueue st)) st.

Lemma Left_inv Status i d0 d1 st : Inv st -> mDiscoveredList st !! i = Some d0 -> i ∈ mScheduledQueue st -> InPhase d1 Queued -> File d1 = File d0 ->
  Expression d1 = Expression d0 -> (Status = EFI_SECURITY_VIOLATION -> ImageHandle d1 <> 0 /\ ImageHandle d0 = 0) ->
  Inv (Left Status i d1 st) /\ Evolves st (Left Status i d1 st).
Proof.
  intros I Hd Hq Hp1 HF HO HS. assert (Hp0 : InPhase d0 Queued) by by eapply queued_phase.
  destruct (AfterLoad_fields Status d1) as (HF2 & HO2 & HM2). pose proof (AfterLoad_phase Status d1 Hp1) as Hp2.
  pose proof (AfterLoad_rank Status d0 d1 Hp0 Hp1 HS) as HR. destruct (bool_decide (Status = _)) eqn:EB.
  - apply bool_decide_eq_true in EB. destruct (Moved_dequeue X st i Distrusted I) as [ND HQ]; [done|]. split.
    + eapply (Moved_inv X st i d0 _ Distrusted); try done; [congruence|rewrite HM2; intros _; by apply HS|rewrite HO2, HO; by eapply driver_depex].
    + eapply (Moved_evolves st i d0 _ Queued Distrusted); try done; [congruence|apply rtc_once; constructor|unfold OrderOf; congruence|lia].
  - destruct (Moved_dequeue X st i Dispatched I) as [ND HQ]; [done|]. split.
    + eapply (Moved_inv X st i d0 _ Dispatched); try done; [congruence|rewrite HO2, HO; by eapply driver_depex].
    + eapply (Moved_evolves st i d0 _ Queued Dispatched); try done; [congruence|apply rtc_once; constructor|unfold OrderOf; congruence|lia].
Qed.

Lemma DispatchDriver_safe st i : Inv st -> gDispatcherRunning st = true -> i ∈ mScheduledQueue st ->
  Safe (DispatchDriver i) st (fun _ st' => Inv st' /\ Evolves st st' /\
    exists d d', mDiscoveredList st !! i = Some d /\ mDiscoveredList st' !! i = Some d' /\ (Rank d' < Rank d)%nat).
Proof.
  intros I HRun Hq. destruct (proj1 (inv_queue _ _ I i) Hq) as (d & Hd & _). unfold DispatchDriver.
  eapply Safe_then; [by apply (LoadDriver_safe st i d)|].
  intros Status st1 (st0 & d0 & d1 & -> & I0 & E0 & Hq0 & Hd0 & Hp1 & HF & HO & HL & HS).
  set (st1 := Moved i d1 _ st0). set (st2 := Left Status i d1 st0).
  assert (Hd1 : mDiscoveredList st1 !! i = Some d1) by (simpl; apply list_lookup_insert_eq; by eapply lookup_lt_Some).
  assert (Hd2 : mDiscoveredList st2 !! i = Some (AfterLoad Status d1)) by (simpl; apply list_lookup_insert_eq; by eapply lookup_lt_Some).
  destruct (Left_inv Status i d0 d1 st0) as [I2 E02]; [done..|]. assert (E2 : Evolves st st2) by by eapply Evolves_trans.
  destruct (AfterLoad_fields Status d1) as (HF2 & HO2 & HM2).
  assert (HR : (Rank (AfterLoad Status d1) < Rank d)%nat).
  { destruct (Evolves_rank X st st0 i d I E0 Hd) as (d' & Hd' & HR). same_driver.
    pose proof (AfterLoad_rank Status d0 d1 (queued_phase X st0 i d0 I0 Hd0 Hq0) Hp1 HS). lia. }
  assert (HX : SetLock true st2 = Moved i (AfterLoad Status d1) (filter (fun j => j <> i) (mScheduledQueue st0)) (SetLock true st1)).
  { unfold st1, st2, Left, Moved. simpl. by rewrite list_insert_insert_eq. }
  eapply Safe_run; [apply (LockAcquire_run st1), I0|]. eapply Safe_run; [by apply (ChangeDriver_run _ _ d1)|].
  eapply Safe_run; [by apply Dequeue_run|]. apply Safe_step.
  eapply Safe_eq; [etrans; [|apply (LockRelease_run st2), I0]; by rewrite HX|].
  eapply Safe_mono; [by apply (drop_behaves X)|]. intros [] st3 (I3 & Q3 & _). assert (E3 : Evolves st st3) by (eapply Evolves_trans; [done|apply Q3]).
  assert (Finish : forall st', Inv st' -> Evolves st2 st' -> Inv st' /\ Evolves st st' /\
    exists d d', mDiscoveredList st !! i = Some d /\ mDiscoveredList st' !! i = Some d' /\ (Rank d' < Rank d)%nat).
  { intros st' I' E'. split; [done|]. split; [by apply (Evolves_trans st st2)|].
    destruct (Evolves_rank X st2 st' i _ I2 E' Hd2) as (d' & Hd' & HR'). exists d, d'. split_and!; [done|done|lia]. }
  destruct (EFI_ERROR Status) eqn:ES; [apply Finish; [done|apply Q3]|].
  destruct (driver_phase X st2 i _ I2 Hd2) as [p2 Hp2].
  destruct (Quiet_still _ st2 st3 i (AfterLoad Status d1) p2 Q3) as (d3 & p3 & Hd3 & HF3 & _ & HM3 & _); [done..|].
  eapply Safe_run; [by apply GetDriver_run|]. destruct (IsFvImage d3) eqn:EI.
  - eapply Behaves_then; [apply (image_behaves X)|done|]. intros Status' st4 I4 Q4 _. apply Finish; [done|].
    eapply Evolves_trans; [apply Q3|apply Q4].
  - assert (ImageHandle d3 <> 0).
    { destruct HL as [HL|HL]; [done| |congruence]. rewrite HF2 in HF3. apply File_fields in HF3 as (_ & _ & _ & _ & HF3). congruence. }
    eapply Safe_run; [unfold Assert; by rewrite (proj2 (Z.eqb_neq _ _))|].
    eapply Running_then; [apply (start_behaves X)|done|by apply (ev_running _ _ E3)|]. intros Status' st4 I4 Q4 _. apply Finish; [done|].
    eapply Evolves_trans; [apply Q3|apply Q4].
Qed.

Lemma DrainLoop_safe fuel : forall st r, Inv st -> gDispatcherRunning st = true -> FuelFor X (fun n => Total n st) fuel ->
  Safe (DrainLoop fuel r) st (fun _ st' => Inv st' /\ Evolves st st' /\ mScheduledQueue st' = []).
Proof.
  induction fuel as [|fuel IH]; intros st r I HRun HF; cbn [DrainLoop]; (eapply Safe_run; [done|]); destruct (mScheduledQueue st) as [|i q] eqn:EQ;
    try (split_and!; [done|by eapply Evolves_refl|done]).
  - eapply Within_none; [done|]. intros n Hn. assert (Hi : i ∈ mScheduledQueue st) by (rewrite EQ; by left).
    destruct (proj1 (inv_queue _ _ I i) Hi) as (d & Hd & _). pose proof (queued_phase X st i d I Hd Hi) as Hp.
    assert (HR : (0 < RankAt st i)%nat) by (unfold RankAt; rewrite Hd, (Rank_phase _ _ Hp); simpl; destruct (_ =? 0); lia).
    assert (Hs : i ∈ seq 0 n) by (apply elem_of_seq; apply lookup_lt_Some in Hd; pose proof (length_limit X st n I Hn); lia).
    pose proof (sum_less (fun _ => 0%nat) (RankAt st) (seq 0 n) i) as H. unfold Total. enough (0 <= sum_list ((fun _ => 0%nat) <$> seq 0 n))%nat; [|lia].
    assert (sum_list ((fun _ : nat => 0%nat) <$> seq 0 n) < sum_list (RankAt st <$> seq 0 n))%nat; [apply H; [lia|done|done]|lia].
  - eapply Safe_then; [apply (DispatchDriver_safe st i); [done|done|rewrite EQ; by left]|]. intros b st1 (I1 & E1 & d & d' & Hd & Hd' & HR).
    eapply Safe_mono; [apply IH; [done|by apply (ev_running _ _ E1)|]|].
    + eapply Within_less; [done|]. intros n Hn. simpl. pose proof (Total_less st st1 n i d d' I E1 Hn Hd Hd' HR). lia.
    + intros r' st2 (I2 & E2 & HQ). split_and!; [done|by eapply Evolves_trans|done].
Qed.

(** ** The search *)

Lemma Retry_safe st i d : Inv st -> mDiscoveredList st !! i = Some d ->
  Safe (if DepexProtocolError d then '(_, f) ← CoreGetDepexSectionAndPreProccess (Fv d) (FileName d); ChangeDriver i f else mret tt : DM W unit) st
    (fun _ st' => Inv st' /\ Evolves st st').
Proof.
  intros I Hd. destruct (DepexProtocolError d) eqn:EP; [|by split; [|eapply Evolves_refl]].
  assert (Hp : InPhase d Unread) by by eapply unread_phase.
  eapply Behaves_then; [apply (CoreGetDepex_behaves X)|done|]. intros [Status f] st1 I1 Q1 Hf.
  destruct (Quiet_same _ st st1 i d Unread Q1) as (d1 & Hd1 & HF & _ & _ & Hp1); [done..|].
  destruct (Hf d1) as (HF1 & HE1 & p & Hp2 & Hr).
  { destruct (InPhase_flags _ _ Hp1) as (E1 & E2 & E3 & E4 & E5 & E6). by unfold Fresh. }
  { by eapply driver_depex. }
  assert (Hr' : p <> Queued) by by apply ReadPhases_queued.
  eapply Safe_done; [by apply (ChangeDriver_run _ _ d1)|]. split.
  - eapply (Moved_inv X st1 i d1 _ p); try done; [|apply I1|]; [by intros ->; apply ReadPhases_distrusted in Hr|]. by apply (Moved_queue_same X st1 i d1 Unread p).
  - eapply Evolves_trans; [apply Q1|]. eapply (Moved_evolves st1 i d1 _ Unread p); try done; [by apply ReadPhases_steps|].
    rewrite (Rank_phase _ _ Hp1). apply Rank_bound.
Qed.

Lemma SearchRound_safe fuel : forall st i r, Inv st -> FuelFor X (fun n => n - i)%nat fuel ->
  Safe (SearchRound fuel i r) st (fun b st' => Inv st' /\ Evolves st st' /\
    (b = true -> r = true \/ forall n, Limit X = Some n -> (Total n st' < Total n st)%nat)).
Proof.
  induction fuel as [|fuel IH]; intros st i r I HF; cbn [SearchRound]; (eapply Safe_run; [done|]); case_bool_decide as Hi;
    try (split_and!; [done|by eapply Evolves_refl|by left]).
  { eapply Within_none; [done|]. intros n Hn. pose proof (length_limit X st n I Hn). simpl. lia. }
  apply lookup_lt_is_Some in Hi as [d Hd]. eapply Safe_run; [by apply GetDriver_run|].
  eapply Safe_then; [by apply Retry_safe|]. intros [] st1 [I1 E1].
  destruct (Evolves_rank X st st1 i d I E1 Hd) as (d1 & Hd1 & _). eapply Safe_run; [by apply GetDriver_run|].
  assert (Rest : forall st2 r2, Inv st2 -> Evolves st st2 -> (r2 = true -> r = true \/ forall n, Limit X = Some n -> (Total n st2 < Total n st)%nat) ->
    Safe (SearchRound fuel (S i) r2) st2 (fun b st' => Inv st' /\ Evolves st st' /\
      (b = true -> r = true \/ forall n, Limit X = Some n -> (Total n st' < Total n st)%nat))).
  { intros st2 r2 I2 E2 HR. eapply Safe_mono; [apply IH; [done|eapply Within_less; [done|intros ? _; simpl; lia]]|]. intros b st3 (I3 & E3 & HB).
    split; [done|]. split; [by eapply Evolves_trans|]. intros Hb. destruct (HB Hb) as [HB'|HB'].
    - destruct (HR HB') as [?|HR']; [by left|]. right. intros n Hn. specialize (HR' n Hn). pose proof (Evolves_total st2 st3 n I2 E3). lia.
    - right. intros n Hn. specialize (HB' n Hn). pose proof (Evolves_total st st2 n I E2). lia. }
  destruct (IsDependent d1) eqn:ED; [|by apply Rest; [..|left]].
  eapply Safe_then; [apply (IsSchedulable_safe X st1 i d1); [done..|by eapply waiting_phase]|].
  intros b st2 (I2 & E2 & d2 & Hd2 & Hp2 & Hr). assert (E2' : Evolves st st2) by by eapply Evolves_trans.
  destruct b; [|by apply Rest; [..|left]]. destruct (Hr eq_refl) as [HB HA].
  eapply Safe_then; [apply (Insert_safe X LoopFuel st2 i [] d2); try done; [|by eapply ChainRoot]|].
  { eapply Within_less; [apply Within_loop|]; [done|]. intros ? _. simpl. lia. }
  intros [] st3 (I3 & Q3 & d3 & Hd3 & HR3). apply Rest; [done|eapply Evolves_trans; [done|apply Q3]|].
  intros _. right. intros n Hn. pose proof (Total_less st2 st3 n i d2 d3 I2 (qu_evolves _ _ _ Q3) Hn Hd2 Hd3 HR3).
  pose proof (Evolves_total st st2 n I E2'). lia.
Qed.

Lemma DispatchRounds_safe fuel : forall st r, Inv st -> gDispatcherRunning st = true -> FuelFor X (fun n => S (Total n st)) fuel ->
  Safe (DispatchRounds fuel r) st (fun _ st' => Inv st' /\ Evolves st st').
Proof.
  induction fuel as [|fuel IH]; intros st r I HRun HF; cbn [DispatchRounds]; [eapply Within_none; [done|intros ? _; simpl; lia]|].
  eapply Safe_then; [apply DrainLoop_safe; [done|done|]|].
  { destruct (fuel_enough X) as [?|(n & E & H)]; [by left|]. right. exists n. split; [done|]. pose proof (Total_bound n st). lia. }
  intros r1 st1 (I1 & E1 & _).
  eapply (Safe_then _ _ _ (fun _ st2 => Inv st2 /\ Evolves st st2)).
  { destruct (negb _); [|by split]. eapply Safe_mono; [apply (signal_behaves X); [done|by apply (ev_running _ _ E1)]|]. intros [] st2 (I2 & Q2 & _). split; [done|].
    eapply Evolves_trans; [done|apply Q2]. }
  intros [] st2 [I2 E2]. eapply Safe_then; [apply SearchRound_safe; [done|eapply Within_less; [by apply Within_loop|intros ? _; simpl; lia]]|].
  intros b st3 (I3 & E3 & HB). assert (E03 : Evolves st st3) by by eapply Evolves_trans. destruct b; [|by split].
  eapply Safe_mono; [apply IH; [done|by apply (ev_running _ _ E03)|]|].
  - eapply Within_less; [done|]. intros n Hn. simpl. destruct (HB eq_refl) as [?|HB']; [done|]. specialize (HB' n Hn).
    pose proof (Evolves_total st st2 n I E2). lia.
  - intros ? st4 [I4 E4]. split; [done|]. by eapply Evolves_trans.
Qed.

Lemma SetRunning_inv b st : Inv st -> Inv (SetRunning b st).
Proof. by intros [? ? ? ? ?]; split. Qed.

Lemma SetRunning_evolves b (st st' : DispatchState W) : (gDispatcherRunning st = true -> b = true) -> Evolves st st' -> Evolves st (SetRunning b st').
Proof. by intros H [? ? ?]; split. Qed.

(** While the dispatcher runs, a call returns at once. *)
Lemma CoreDispatcher_running st : gDispatcherRunning st = true -> CoreDispatcher st = Done (EFI_ALREADY_STARTED, st).
Proof. intros H. unfold CoreDispatcher. rewrite (Get_run (S:=DispatchState W)), H. done. Qed.

Lemma CoreDispatcher_safe st : Inv st -> Safe CoreDispatcher st (fun _ st' => Inv st' /\ Evolves st st').
Proof.
  intros I. unfold CoreDispatcher. eapply Safe_run; [done|]. destruct (gDispatcherRunning st) eqn:ER; [by split; [|eapply Evolves_refl]|].
  eapply Safe_run; [done|]. assert (I0 : Inv (SetRunning true st)) by by apply SetRunning_inv.
  eapply Behaves_then; [apply (create_behaves X)|done|]. intros Status st1 I1 Q1 _.
  assert (E1 : Evolves st st1) by (eapply Evolves_trans, Q1; eapply SetRunning_evolves; [done|by eapply Evolves_refl]).
  destruct (EFI_ERROR Status); [by split|].
  eapply Safe_then; [apply DispatchRounds_safe; [done|by rewrite (qu_running _ _ _ Q1)|]|].
  { destruct (fuel_enough X) as [?|(n & E & H)]; [by left|]. right. exists n. split; [done|]. pose proof (Total_bound n st1). lia. }
  intros r st2 [I2 E2].
  eapply Behaves_then; [apply (close_behaves X)|done|]. intros [] st3 I3 Q3 _.
  eapply Safe_run; [done|]. split; [by apply SetRunning_inv|]. apply SetRunning_evolves; [by rewrite ER|]. eapply Evolves_trans; [done|].
  eapply Evolves_trans; [done|apply Q3].
Qed.
End Run.
