(* ===== verification/DispatchFv.v ===== *)
(** * The DXE dispatcher: firmware volumes

    Reading the drivers of a new firmware volume, and the a priori file. *)
From Stdlib Require Import ZArith Lia.
From stdpp Require Import base option list relations.
From S2P Require Import Prelude StateMonad Depex Dispatcher DispatchInv DispatchQueue.

Section FirmwareVolumes.
Context {W : Type} {Env : DispatchEnvironment W} (X : Setting) {Laws : DispatchLaws X}.
Abbreviation Safe := (SafeRun (Endless X)).
Abbreviation Inv := (DispatchInv X).
Hypothesis Unlimited : Limit X = None.

Lemma Unlimited_endless : Endless X.
Proof. destruct (fuel_enough X) as [?|(n & E & _)]; [done|congruence]. Qed.

(** ** Changes of other parts of the state *)

Lemma SetCoreFile_inv f st : Inv st -> Inv (SetCoreFile f st).
Proof. by intros [? ? ? ? ?]; split. Qed.

Lemma SetCoreFile_quiet f H (st st' : DispatchState W) : Quiet H st st' -> Quiet H st (SetCoreFile f st').
Proof. intros [[? ? ?] ? ? ? ?]. by split; [split|..]. Qed.

(** A firmware volume becomes known. *)
Definition Noted (k : KNOWN_HANDLE) (st : DispatchState W) : DispatchState W := SetFvHandles (mFvHandleList st ++ [k]) st.

Lemma Noted_known k st : Known (Noted k st) = Known st ++ [Handle k].
Proof. unfold Known, Noted. simpl. by rewrite fmap_app. Qed.

Lemma Noted_inv k st : Inv st -> Inv (Noted k st).
Proof.
  intros [L N Q D U M]. split; [done..| |done|done]. intros i d Hd. destruct (D i d Hd) as [P K O E G]. split; [done| |done..].
  rewrite Noted_known. apply elem_of_app. by left.
Qed.

Lemma Noted_quiet k H (st st' : DispatchState W) : Quiet H st st' -> Quiet H st (Noted k st').
Proof.
  intros [[D K R] ? ? ? ?]. split; [split; [done| |done]|done..]. rewrite Noted_known. intros x Hx. apply elem_of_app. left. by apply K.
Qed.

(** A new entry at the end of the list. *)
Definition Appended (e : DRIVER) (st : DispatchState W) : DispatchState W := SetDiscovered (mDiscoveredList st ++ [e]) st.

Lemma Appended_lookup e st i d : mDiscoveredList (Appended e st) !! i = Some d -> mDiscoveredList st !! i = Some d \/ (mDiscoveredList st !! i = None /\ d = e).
Proof.
  simpl. intros H. destruct (mDiscoveredList st !! i) as [d'|] eqn:E.
  - rewrite (lookup_app_l_Some _ _ _ _ E) in H. left. congruence.
  - right. split; [done|]. rewrite lookup_app, E in H. apply list_lookup_singleton_Some in H as [_ ?]. congruence.
Qed.

Lemma Appended_old e (st : DispatchState W) i d : mDiscoveredList st !! i = Some d -> mDiscoveredList (Appended e st) !! i = Some d.
Proof. apply lookup_app_l_Some. Qed.

Lemma Appended_new e (st : DispatchState W) i d : mDiscoveredList (Appended e st) !! i = Some d -> mDiscoveredList st !! i = None ->
  i = length (mDiscoveredList st).
Proof. simpl. intros H N%lookup_ge_None. apply lookup_lt_Some in H. rewrite length_app in H. simpl in H. lia. Qed.

Lemma Appended_inv e p st : Inv st -> InPhase e p -> p ∈ ReadPhases -> FvHandle e ∈ Known st -> Owner X (FileName e) = FvHandle e -> Evaluates (Expression e) ->
  (forall i d, mDiscoveredList st !! i = Some d -> FileName d <> FileName e) -> Inv (Appended e st).
Proof.
  intros I Hp Hr HK HO HE HN. split; [apply I|apply I| | | |by rewrite Unlimited].
  - intros i. etrans; [apply I|]. split.
    + intros (d & Hd & Hs). exists d. split; [by apply Appended_old|done].
    + intros (d & [Hd|[_ ->]]%Appended_lookup & Hs); [by exists d|]. exfalso. apply (ReadPhases_queued p Hr).
      destruct (InPhase_flags _ _ Hp) as (_ & _ & _ & E & _). rewrite Hs in E. by apply eq_sym, bool_decide_eq_true in E.
  - intros i d [Hd|[_ ->]]%Appended_lookup; [by apply (inv_driver _ _ I i)|].
    split; [by exists p|done..|]. destruct (InPhase_flags _ _ Hp) as (_ & _ & _ & _ & -> & _).
    intros ->%bool_decide_eq_true. by apply ReadPhases_distrusted in Hr.
  - intros i j d1 d2 H1 H2. pose proof H1 as H1'. pose proof H2 as H2'.
    apply Appended_lookup in H1' as [H1'|[N1 ->]]; apply Appended_lookup in H2' as [H2'|[N2 ->]]; intros EN.
    + by eapply (inv_names _ _ I).
    + exfalso. by eapply HN.
    + exfalso. by eapply HN.
    + by rewrite (Appended_new _ _ _ _ H1 N1), (Appended_new _ _ _ _ H2 N2).
Qed.

Lemma Appended_quiet e st st' : Quiet All st st' -> FvHandle e ∉ Known st -> Quiet All st (Appended e st').
Proof.
  intros [[D K R'] R Q N S] HK. split; [split; [|done|done]|done|done| |].
  - intros i d p Hd Hp. destruct (D i d p Hd Hp) as (d' & p' & Hd' & H). exists d', p'. split; [by apply Appended_old|done].
  - intros i d' [Hd|[_ ->]]%Appended_lookup; [by apply N|done].
  - intros i d p Hi Hd Hp. destruct (S i d p Hi Hd Hp) as (d' & p' & Hd' & H). exists d', p'. split; [by apply Appended_old|done].
Qed.

(** ** The list of firmware volumes *)

Lemma ReadFvName_behaves h : Behaves X (ReadFvName h) (fun _ _ => True).
Proof.
  intros st I. unfold ReadFvName. eapply Behaves_then; [apply (header_behaves X)|done|]. intros [x|] st1 I1 Q1 HX; [|done].
  destruct (_ && _); [|done]. destruct (ExtHeaderLoop _ _ _) as [[b o]|]; [|done].
  eapply Safe_mono; [by apply (guid_behaves X)|]. intros r st2 (I2 & Q2 & _). split; [done|]. split; [|done]. by apply (Quiet_trans X _ st st1).
Qed.

Lemma ReadFvName_list h st : Inv st -> Safe (ReadFvName h) st (fun _ st' => mFvHandleList st' = mFvHandleList st).
Proof.
  intros I. unfold ReadFvName. eapply Safe_then; [apply Safe_and; [by apply (header_behaves X)|by apply (header_list X)]|].
  intros [x|] st1 [(I1 & Q1 & HX) E]; [|done]. destruct (_ && _); [|done]. destruct (ExtHeaderLoop _ _ _) as [[b o]|]; [|done].
  eapply Safe_mono; [by apply (guid_list X)|]. intros r st2 E2. by rewrite E2.
Qed.

(** The state while the drivers of a firmware volume are read: the volume is
    known, and was not when this began. *)
Definition Absent (h : Z) (st : DispatchState W) : Prop := Inv st /\ h ∉ Known st.
Definition Filling (h : Z) (st0 st : DispatchState W) : Prop := Inv st /\ Quiet All st0 st /\ Absent h st0 /\ h ∈ Known st.

Lemma Filling_then {A B} (m : DM W A) (f : A -> DM W B) R h st0 st Q : Behaves X m R -> Filling h st0 st ->
  (forall a st', Filling h st0 st' -> Quiet All st st' -> R a st' -> Safe (f a) st' Q) -> Safe (m ≫= f) st Q.
Proof.
  intros Hm (I & Q0 & N & K) Hf. eapply Behaves_then; [done|done|]. intros a st' I' Q' R'. apply Hf; [|done|done].
  split_and!; [done|by apply (Quiet_trans X _ st0 st)|done|]. by apply (ev_known _ _ (qu_evolves _ _ _ Q')).
Qed.

Lemma FvIsBeingProcessed_safe h st : Inv st -> h ∉ Known st ->
  Safe (FvIsBeingProcessed h) st (fun r st' => match r with Some _ => Filling h st st' | None => Inv st' /\ Quiet All st st' end).
Proof.
  intros I N. unfold FvIsBeingProcessed.
  eapply Safe_then; [apply Safe_and; [by apply (ReadFvName_behaves h)|by apply ReadFvName_list]|]. intros Name st1 [(I1 & Q1 & _) L1].
  eapply Safe_run; [done|]. destruct (match Name with Some _ => _ | None => _ end); [done|].
  eapply Safe_then; [apply Safe_and; [by apply (memory_behaves X)|by apply (memory_list X)]|]. intros b st2 [(I2 & Q2 & ->) L2].
  eapply Safe_run; [done|]. eapply Safe_run; [done|]. set (k := MkKnown h _). change (Filling h st (Noted k st2)).
  split_and!; [by apply Noted_inv|apply Noted_quiet; by apply (Quiet_trans X _ st st1)|done|]. rewrite Noted_known. apply elem_of_app. right. by left.
Qed.

(** ** Files *)

(** No entry has the name yet. *)
Definition NewName (n : GUID) (st : DispatchState W) : Prop := forall i d, mDiscoveredList st !! i = Some d -> FileName d <> n.

(** An entry was there before, or is from another volume. *)
Lemma Quiet_before st st' i d' h : Inv st -> Quiet All st st' -> h ∈ Known st -> mDiscoveredList st' !! i = Some d' -> FvHandle d' = h ->
  exists d p d2, mDiscoveredList st !! i = Some d /\ InPhase d p /\ d' = d2 /\ File d2 = File d.
Proof.
  intros I Q K Hd' Hh. destruct (mDiscoveredList st !! i) as [d|] eqn:Hd; [|by destruct (qu_new _ _ _ Q i d' Hd' Hd); rewrite Hh].
  destruct (driver_phase X st i d I Hd) as [p Hp]. destruct (ev_driver _ _ (qu_evolves _ _ _ Q) i d p Hd Hp) as (d2 & p2 & Hd2 & HF & _).
  exists d, p, d2. split_and!; [done|done|congruence|done].
Qed.

Lemma NewName_quiet n st st' : Inv st -> Inv st' -> Quiet All st st' -> Owner X n ∈ Known st -> NewName n st -> NewName n st'.
Proof.
  intros I I' Q K HN i d' Hd' HE. destruct (Quiet_before st st' i d' (Owner X n)) as (d & p & d2 & Hd & _ & -> & HF); try done.
  { rewrite <- HE. symmetry. apply (inv_driver _ _ I' i d' Hd'). }
  apply File_fields in HF as (_ & HF & _). apply (HN i d Hd). congruence.
Qed.

Lemma Filling_new h st0 st st' n : Filling h st0 st -> Filling h st0 st' -> Quiet All st st' -> Owner X n = h -> NewName n st -> NewName n st'.
Proof. intros (I & _ & _ & K) (I' & _) Q HO. apply NewName_quiet; [done..|]. by rewrite HO. Qed.

Lemma CoreAddToDriverList_safe h st0 st Fv_ n t : Filling h st0 st -> Owner X n = h -> NewName n st ->
  Safe (CoreAddToDriverList Fv_ h n t) st (fun _ st' => Filling h st0 st').
Proof.
  intros F HO HN. unfold CoreAddToDriverList.
  eapply Filling_then; [apply (memory_behaves X)|done|]. intros b st1 F1 Q1 ->. eapply Safe_run; [done|].
  eapply Filling_then; [apply (topath_behaves X)|done|]. intros Path st2 F2 Q2 _.
  eapply Filling_then; [apply (CoreGetDepex_behaves X)|done|]. intros [Status f] st3 F3 Q3 Hf.
  assert (HN3 : NewName n st3).
  { eapply (Filling_new h st0 st2); try done. eapply (Filling_new h st0 st1); try done. by eapply (Filling_new h st0 st). }
  set (e0 := MkDriver h n Path Fv_ _ false false false false 0 _) in *.
  destruct (Hf e0) as (HF & HE & p & Hp & Hr); [done|by apply Evaluates_None|]. apply File_fields in HF as (HF1 & HF2 & _).
  simpl in HF1, HF2. destruct F3 as (I3 & Q03 & N & K).
  assert (F4 : Filling h st0 (Appended (f e0) st3)).
  { split_and!; [|apply Appended_quiet; [done|rewrite HF1; apply N]|done|done]. eapply Appended_inv; try done.
    - by rewrite HF1.
    - by rewrite HF1, HF2.
    - intros i d Hd. rewrite HF2. by eapply HN3. }
  eapply Safe_run; [apply LockAcquire_run, I3|]. eapply Safe_run; [done|].
  apply Safe_step. eapply Safe_eq; [apply (LockRelease_run (Appended (f e0) st3)), I3|].
  destruct F4 as (I4 & Q4 & _ & K4). eapply Safe_mono; [by apply (drop_behaves X)|]. intros [] st5 (I5 & Q5 & _).
  split_and!; [done|by apply (Quiet_trans X _ st0 (Appended (f e0) st3))|done|]. by apply (ev_known _ _ (qu_evolves _ _ _ Q5)).
Qed.

Lemma ProcessFile_safe k h st0 st Fv_ t n : Filling h st0 st -> Owner X n = h -> NewName n st ->
  Safe (ProcessFile k Fv_ h t n) st (fun _ st' => Filling h st0 st').
Proof.
  intros F HO HN. unfold ProcessFile.
  assert (Add : forall st1 A (a : A), Filling h st0 st1 -> Quiet All st st1 -> Safe (CoreAddToDriverList Fv_ h n t ;; mret a) st1 (fun _ st' => Filling h st0 st')).
  { intros st1 A a F1 Q1. eapply Safe_then; [apply CoreAddToDriverList_safe; [done|done|]|]; [|by intros]. by eapply (Filling_new h st0 st). }
  assert (Q : Quiet All st st) by (eapply Quiet_refl, F).
  destruct (_ =? EFI_FV_FILETYPE_DXE_CORE).
  { eapply Safe_run; [done|]. destruct (_ && _); [|done]. destruct F as (I & Q0 & N & K).
    eapply Safe_done; [done|]. split_and!; [by apply SetCoreFile_inv|by apply SetCoreFile_quiet|done|done]. }
  destruct (_ =? EFI_FV_FILETYPE_FIRMWARE_VOLUME_IMAGE); [|by apply Add]. destruct (FvFoundInHobFv2 _ _); [done|].
  eapply Filling_then; [apply (smm_behaves X)|done|]. intros Status st1 F1 Q1 ->. eapply Safe_run; [done|].
  eapply Filling_then; [apply (depex_behaves X)|done|]. intros [Status' Bytes] st2 F2 Q2 _.
  destruct (EFI_ERROR Status').
  - eapply Filling_then; [apply (image_behaves X)|done|]. by intros r st3 F3 _ _.
  - apply Add; [done|]. apply (Quiet_trans X _ st st1); [apply F1|done|done].
Qed.

Lemma FilesLoop_safe k h Fv_ t st0 : FvOwner X Fv_ = h -> forall fuel Key st, Filling h st0 st ->
  Safe (FilesLoop fuel k Fv_ h t Key) st (fun _ st' => Filling h st0 st').
Proof.
  intros HO. induction fuel as [|fuel IH]; intros Key st F; cbn [FilesLoop]; [apply Unlimited_endless|].
  eapply Filling_then; [apply (next_behaves X)|done|]. intros [Status [[Key' t'] n]] st1 F1 Q1 HN.
  destruct (EFI_ERROR Status); [done|]. destruct (HN eq_refl) as [Hn HN']. rewrite HO in Hn.
  eapply Safe_then; [by apply ProcessFile_safe|]. intros [] st2 F2. by apply IH.
Qed.

Lemma TypesLoop_safe k h Fv_ st0 : FvOwner X Fv_ = h -> forall Types st, Filling h st0 st ->
  Safe (TypesLoop Types k Fv_ h) st (fun _ st' => Filling h st0 st').
Proof.
  intros HO. induction Types as [|t Types IH]; intros st F; cbn [TypesLoop]; [done|].
  eapply Safe_then; [by apply FilesLoop_safe|]. intros [] st1 F1. by apply IH.
Qed.

(** ** The a priori file *)

(** The drivers that are named in a list may be scheduled. *)
Definition Named (h : Z) (Names : list GUID) (st : DispatchState W) : Prop :=
  forall i d, mDiscoveredList st !! i = Some d -> FvHandle d = h -> FileName d ∈ Names -> InPhase d Waiting.

Lemma Filling_schedule h st0 st i d : Filling h st0 st -> mDiscoveredList st !! i = Some d -> FvHandle d = h -> InPhase d Waiting ->
  Safe (ScheduleDriver i) st (fun _ st' => Filling h st0 st' /\ Quiet (fun j => j <> i) st st').
Proof.
  intros (I & Q0 & N & K) Hd Hh Hp. eapply Safe_mono; [apply (ScheduleDriver_safe X (fun j => j <> i) st i d); try done; by intros []|].
  intros [] st' (I' & Q' & _). split; [|done]. split_and!; [done| |done|by apply (ev_known _ _ (qu_evolves _ _ _ Q'))].
  assert (H0 : mDiscoveredList st0 !! i = None).
  { destruct (mDiscoveredList st0 !! i) as [d0|] eqn:Hd0; [|done]. destruct N as [I0 N]. exfalso. apply N. rewrite <- Hh.
    destruct (driver_phase X st0 i d0 I0 Hd0) as [p Hp0].
    destruct (ev_driver _ _ (qu_evolves _ _ _ Q0) i d0 p Hd0 Hp0) as (d1 & _ & Hd1 & HF & _). same_driver.
    apply File_fields in HF as [-> _]. apply (inv_driver _ _ I0 i d0 Hd0). }
  apply (Quiet_except i); [|done]. apply (Quiet_trans X _ st0 st); [done| |done]. by eapply Quiet_weaken, Q0.
Qed.

Lemma Named_schedule h Names n st st' i d : Inv st -> h ∈ Known st -> Quiet (fun j => j <> i) st st' -> mDiscoveredList st !! i = Some d -> FileName d = n ->
  n ∉ Names -> Named h (n :: Names) st -> Named h Names st'.
Proof.
  intros I K Q Hd Hn HN HW j d' Hj Hh Hin. destruct (mDiscoveredList st !! j) as [dj|] eqn:Ej; [|by destruct (qu_new _ _ _ Q j d' Hj Ej); rewrite Hh].
  destruct (driver_phase X st j dj I Ej) as [p Hp]. destruct (ev_driver _ _ (qu_evolves _ _ _ Q) j dj p Ej Hp) as (d2 & _ & Hd2 & HF & _).
  same_driver. apply File_fields in HF as (F1 & F2 & _).
  assert (j <> i) as Hne by (intros ->; same_driver; congruence).
  assert (Hw : InPhase dj Waiting) by (apply (HW j dj Ej); [congruence|right; by rewrite <- F2]).
  destruct (Quiet_same _ st st' j dj Waiting Q Hne) as (d3 & Hd3 & _ & _ & _ & Hp3); [done..|]. by same_driver.
Qed.

Lemma AprioriLoop_safe h st0 Names : NoDup Names -> forall st, Filling h st0 st -> Named h Names st ->
  Safe (AprioriLoop Names h) st (fun _ st' => Filling h st0 st').
Proof.
  induction 1 as [|n Names Hn _ IH]; intros st F HW; cbn [AprioriLoop]; [done|]. eapply Safe_run; [done|].
  destruct (FindDriver _ _ _) as [i|] eqn:EF.
  - apply FindDriver_first in EF as (d & Hd & [Hf1 Hf2]%andb_true_iff). apply bool_decide_eq_true in Hf1. apply Z.eqb_eq in Hf2.
    assert (Hp : InPhase d Waiting) by (apply (HW i d Hd); [done|rewrite Hf1; by left]).
    eapply Safe_then; [by apply (Filling_schedule h st0 st i d)|]. intros [] st1 [F1 Q1]. apply IH; [done|].
    by eapply (Named_schedule h Names n st st1 i d); try done; apply F.
  - eapply Safe_run; [done|]. apply IH; [done|]. intros i d Hd Hh Hin. apply (HW i d Hd Hh). by right.
Qed.

(** ** A firmware volume, and all of them *)

Lemma ProcessFv_behaves h : Behaves X (ProcessFv h) (fun _ _ => True).
Proof.
  intros st I. unfold ProcessFv. eapply Safe_run; [done|]. destruct (existsb _ _) eqn:EX; [by split; [|split; [eapply Quiet_refl|]]|].
  assert (N : h ∉ Known st).
  { intros (k & Hk & Hin)%list_elem_of_fmap. assert (existsb (fun k => Handle k =? h) (mFvHandleList st) = true); [|congruence].
    apply existsb_exists. exists k. split; [by apply list_elem_of_In|]. by apply Z.eqb_eq. }
  eapply Safe_then; [by apply FvIsBeingProcessed_safe|]. intros [k|] st1; [|by intros [I1 Q1]]. intros F1.
  eapply Filling_then; [apply (protocol_behaves X)|done|]. intros [Fv_|] st2 F2 _; [|done]. intros HO.
  assert (Finish : forall st', Filling h st st' -> Inv st' /\ Quiet All st st' /\ True) by (intros st' (? & ? & _); done).
  eapply Filling_then; [apply (path_behaves X)|done|]. intros Path st3 F3 _ _. case_bool_decide; [by apply Finish|].
  eapply Safe_then; [by apply TypesLoop_safe|]. intros [] st4 F4.
  eapply Filling_then; [apply (apriori_behaves X)|done|]. intros [Status Names] st5 F5 _ HA.
  eapply Safe_mono; [apply (AprioriLoop_safe h st); [|done|]|intros [] st6; by apply Finish].
  - destruct (EFI_ERROR Status); [constructor|]. by apply HA.
  - destruct (EFI_ERROR Status); [intros ? ? _ _ []%not_elem_of_nil|]. intros i d Hd Hh Hin. apply (proj2 (HA eq_refl) i d Hd); [congruence|done].
Qed.

Lemma FwVolLoop_behaves fuel : Behaves X (FwVolLoop fuel) (fun _ _ => True).
Proof.
  induction fuel as [|fuel IH]; intros st I; cbn [FwVolLoop]; [apply Unlimited_endless|].
  eapply Behaves_then; [apply (locate_behaves X)|done|]. intros [h|] st1 I1 Q1 _; [|done].
  eapply Behaves_then; [apply ProcessFv_behaves|done|]. intros [] st2 I2 Q2 _.
  eapply Safe_mono; [by apply IH|]. intros [] st3 (I3 & Q3 & _). split; [done|]. split; [|done].
  apply (Quiet_trans X _ st st2); [done| |done]. by apply (Quiet_trans X _ st st1).
Qed.

Lemma CoreFwVolEventProtocolNotify_behaves : Behaves X CoreFwVolEventProtocolNotify (fun _ _ => True).
Proof. apply FwVolLoop_behaves. Qed.
End FirmwareVolumes.
