(* ===== verification/DispatchOrder.v ===== *)
(** * The DXE dispatcher: the order of the queue

    A driver with a BEFORE or AFTER dependency is queued together with the driver
    it names, in the order that it asks for. *)
From Stdlib Require Import ZArith Lia.
From stdpp Require Import base option list relations.
From S2P Require Import Prelude StateMonad Depex Dispatcher DispatchInv DispatchQueue.

(** [j] comes before [y] in a queue. *)
Definition Precedes (Queue : list nat) (j y : nat) : Prop := exists q1 q2, Queue = q1 ++ y :: q2 /\ j ∈ q1.

Lemma Precedes_app q l j y : Precedes q j y -> Precedes (q ++ l) j y.
Proof. intros (q1 & q2 & -> & H). exists q1, (q2 ++ l). by rewrite <- app_assoc. Qed.

Lemma Precedes_last q j y : j ∈ q -> Precedes (q ++ [y]) j y.
Proof. intros H. by exists q, []. Qed.

Lemma Precedes_in q j y : Precedes q j y -> j ∈ q /\ y ∈ q.
Proof. intros (q1 & q2 & -> & H). set_solver. Qed.

Section OrderOf.
Context {W : Type} {Env : DispatchEnvironment W} (X : Setting) {Laws : DispatchLaws X}.
Abbreviation Safe := (SafeRun (Endless X)).
Abbreviation Inv := (DispatchInv X).

(** [j] is to run directly before or after [y]; both are Dependent in the state. *)
Definition Aims (Kind : EFI_CORE_DRIVER_ENTRY -> bool) (st : DispatchState W) (j y : nat) : Prop :=
  exists dj dy, mDiscoveredList st !! j = Some dj /\ InPhase dj Waiting /\ mDiscoveredList st !! y = Some dy /\ InPhase dy Waiting /\
    Kind (Expression dj) = true /\ BeforeAfterGuid (Expression dj) = FileName dy /\ j <> y.

(** The state at the beginning. *)
Context (st0 : DispatchState W) (I0 : Inv st0).
Hypothesis Exclusive : forall j d, mDiscoveredList st0 !! j = Some d -> Before (Expression d) && After (Expression d) = false.

Record OrderInv (S : list nat) (st : DispatchState W) : Prop := {
  or_inv : Inv st;
  or_evolves : Evolves st0 st;
  or_settled : forall j d, mDiscoveredList st0 !! j = Some d -> InPhase d Waiting -> j ∉ mScheduledQueue st ->
    exists d', mDiscoveredList st !! j = Some d' /\ InPhase d' Waiting;
  or_before : forall j y, Aims Before st0 j y -> y ∈ mScheduledQueue st -> Precedes (mScheduledQueue st) j y;
  or_after : forall j y, Aims After st0 j y -> j ∈ mScheduledQueue st -> Precedes (mScheduledQueue st) y j;
  or_all : forall j y, Aims After st0 j y -> y ∈ mScheduledQueue st -> y ∉ S -> j ∈ mScheduledQueue st }.

(** Other programs do not queue drivers that were Dependent. *)
Lemma OrderInv_queue S st st' j d : OrderInv S st -> Inv st' -> Quiet All st st' -> mDiscoveredList st0 !! j = Some d -> InPhase d Waiting ->
  j ∈ mScheduledQueue st' -> j ∈ mScheduledQueue st.
Proof.
  intros O I' Q Hd Hp Hj. destruct (decide (j ∈ mScheduledQueue st)) as [|Hn]; [done|].
  destruct (or_settled _ _ O j d Hd Hp Hn) as (d1 & Hd1 & Hp1).
  destruct (Quiet_same All st st' j d1 Waiting Q) as (d2 & Hd2 & _ & _ & _ & Hp2); [done..|].
  by destruct (not_queued X st' j d2 Waiting I' Hd2 Hp2).
Qed.

Lemma OrderInv_quiet S st st' : OrderInv S st -> Inv st' -> Quiet All st st' -> OrderInv S st'.
Proof.
  intros O I' Q. destruct (qu_queue _ _ _ Q) as [l Hl].
  assert (HQ : forall K j y, Aims K st0 j y -> (j ∈ mScheduledQueue st' -> j ∈ mScheduledQueue st) /\ (y ∈ mScheduledQueue st' -> y ∈ mScheduledQueue st)).
  { intros K j y (dj & dy & Hj & Hpj & Hy & Hpy & _). split; intros H; by eapply OrderInv_queue. }
  split; [done|eapply Evolves_trans; [apply O|apply Q]| | | |].
  - intros j d Hd Hp Hn. destruct (or_settled _ _ O j d Hd Hp) as (d1 & Hd1 & Hp1).
    { intros H. apply Hn. rewrite Hl. apply elem_of_app. by left. }
    destruct (Quiet_same All st st' j d1 Waiting Q) as (d2 & Hd2 & _ & _ & _ & Hp2); [done..|]. by exists d2.
  - intros j y A Hy. rewrite Hl. apply Precedes_app, (or_before _ _ O); [done|]. by apply (HQ _ _ _ A).
  - intros j y A Hy. rewrite Hl. apply Precedes_app, (or_after _ _ O); [done|]. by apply (HQ _ _ _ A).
  - intros j y A Hy HS. rewrite Hl. apply elem_of_app. left. eapply (or_all _ _ O); [done| |done]. by apply (HQ _ _ _ A).
Qed.

Lemma OrderInv_push S x st : OrderInv S st -> OrderInv (x :: S) st.
Proof. intros [I E D B A L]. split; try done. intros j y HA Hy Hn. eapply L; [done..|]. set_solver. Qed.

Lemma OrderInv_pop S x st : OrderInv (x :: S) st -> (forall j, Aims After st0 j x -> j ∈ mScheduledQueue st) -> OrderInv S st.
Proof.
  intros [I E D B A L] HX. split; try done. intros j y HA Hy Hn. destruct (decide (y = x)) as [->|Hne]; [by apply HX|]. eapply L; [done..|]. set_solver.
Qed.

(** ** Scheduling a driver *)

Lemma OrderInv_move S x d st : OrderInv (x :: S) st -> mDiscoveredList st !! x = Some d -> InPhase d Waiting ->
  (forall j, Aims Before st0 j x -> j ∈ mScheduledQueue st) -> (forall y, Aims After st0 x y -> y ∈ mScheduledQueue st) ->
  OrderInv (x :: S) (Moved x (Readied d) (mScheduledQueue st ++ [x]) st).
Proof.
  intros O Hd Hp HB HA. pose proof (or_inv _ _ O) as I. assert (Hq : x ∉ mScheduledQueue st) by by eapply not_queued.
  assert (HI : forall j, j ∈ mScheduledQueue st ++ [x] -> j <> x -> j ∈ mScheduledQueue st) by set_solver.
  assert (HN : forall K j y, Aims K st0 j y -> j <> y) by by intros K j y (? & ? & _ & _ & _ & _ & _ & _ & H).
  split.
  - by apply ScheduleDriver_moved.
  - eapply Evolves_trans; [apply O|]. by eapply (qu_evolves (fun j => j <> x)), ScheduleDriver_quiet; try done; intros [].
  - intros j dj Hj Hpj Hn. simpl in Hn. destruct (or_settled _ _ O j dj Hj Hpj) as (d' & Hd' & Hp'); [set_solver|].
    exists d'. split; [|done]. simpl. rewrite list_lookup_insert_ne; [done|]. set_solver.
  - intros j y A Hy. simpl in *. destruct (decide (y = x)) as [->|Hne].
    + apply Precedes_last. by apply HB.
    + apply Precedes_app, (or_before _ _ O); [done|]. by apply HI.
  - intros j y A Hj. simpl in *. destruct (decide (j = x)) as [->|Hne].
    + apply Precedes_last. by apply HA.
    + apply Precedes_app, (or_after _ _ O); [done|]. by apply HI.
  - intros j y A Hy HS. simpl in *. apply elem_of_app. left. eapply (or_all _ _ O); [done| |done]. apply HI; [done|]. set_solver.
Qed.

Lemma OrderInv_schedule S x d st : OrderInv (x :: S) st -> mDiscoveredList st !! x = Some d -> InPhase d Waiting -> x ∉ S ->
  (forall j, Aims Before st0 j x -> j ∈ mScheduledQueue st) -> (forall y, Aims After st0 x y -> y ∈ mScheduledQueue st) ->
  Safe (ScheduleDriver x) st (fun _ st' => OrderInv (x :: S) st' /\ Quiet (Members S) st st' /\ x ∈ mScheduledQueue st').
Proof.
  intros O Hd Hp HS HB HA. pose proof (or_inv _ _ O) as I. pose proof (OrderInv_move S x d st O Hd Hp HB HA) as O1.
  pose proof (ScheduleDriver_quiet (Members S) st x d Hd Hp HS) as Q1.
  eapply Safe_eq; [apply (ScheduleDriver_run st x d); [apply I|done|by eapply not_queued]|].
  eapply Safe_mono; [apply (drop_behaves X), O1|]. intros [] st' (I' & Q & _). split; [by eapply OrderInv_quiet|]. split.
  - eapply Quiet_trans; [apply O1|exact Q1|]. by eapply Quiet_weaken, Q.
  - eapply elem_of_prefix; [|apply Q]. simpl. apply elem_of_app. right. by left.
Qed.

(** ** The loops *)

(** A driver is the same file as at the beginning. *)
Lemma Aims_now K S st j y : OrderInv S st -> Aims K st0 j y ->
  exists dj dy d0, mDiscoveredList st !! j = Some dj /\ mDiscoveredList st !! y = Some dy /\ mDiscoveredList st0 !! j = Some d0 /\ InPhase d0 Waiting /\
    OrderOf dj = OrderOf d0 /\ K (Expression d0) = true /\ BeforeAfterGuid (Expression dj) = FileName dy.
Proof.
  intros O (dj & dy & Hj & Hpj & Hy & Hpy & HK & HG & _).
  destruct (ev_driver _ _ (or_evolves _ _ O) j dj Waiting Hj Hpj) as (dj' & _ & Hj' & _ & _ & _ & HO & _).
  destruct (ev_driver _ _ (or_evolves _ _ O) y dy Waiting Hy Hpy) as (dy' & _ & Hy' & HF & _). specialize (HO ltac:(done)).
  apply File_fields in HF as (_ & HF & _). exists dj', dy', dj. split_and!; try done. injection HO as _ _ ->. congruence.
Qed.

(** The driver that a dependency names is unique. *)
Lemma Aims_target K S st j y x dj dx : OrderInv S st -> Aims K st0 j y -> mDiscoveredList st !! j = Some dj -> mDiscoveredList st !! x = Some dx ->
  BeforeAfterGuid (Expression dj) = FileName dx -> y = x.
Proof.
  intros O A Hj Hx HG. destruct (Aims_now K S st j y O A) as (dj' & dy & d0 & Hj' & Hy & _ & _ & _ & _ & HG'). same_driver.
  eapply (inv_names _ _ (or_inv _ _ O)); [done..|]. congruence.
Qed.

Lemma ForDrivers_index (R : nat -> DispatchState W -> Prop) (body : nat -> DM W unit) :
  (forall i st, R i st -> Inv st) ->
  (forall i st, R i st -> (i < length (mDiscoveredList st))%nat -> Safe (body i) st (fun _ => R (S i))) ->
  forall fuel i st, FuelFor X (fun n => n - i)%nat fuel -> R i st ->
  Safe (ForDrivers fuel i body) st (fun _ st' => exists k, R k st' /\ (length (mDiscoveredList st') <= k)%nat).
Proof.
  intros HI HB. induction fuel as [|fuel IH]; intros i st HF HR; cbn [ForDrivers]; (eapply Safe_run; [done|]); case_bool_decide as E;
    try (exists i; split; [done|lia]).
  - eapply Within_none; [done|]. intros n Hn. pose proof (length_limit X st n (HI i st HR) Hn). simpl. lia.
  - eapply Safe_then; [by apply HB|]. intros [] st' HR'. apply IH; [|done]. eapply Within_less; [done|]. intros ? _. simpl. lia.
Qed.

Definition InsertSpec (Depth : list nat -> Prop) (Insert : nat -> DM W unit) : Prop :=
  forall st x S d, OrderInv S st -> Depth S -> PendingChain st (x :: S) -> mDiscoveredList st !! x = Some d -> InPhase d Waiting ->
  (forall y, Aims After st0 x y -> y ∈ mScheduledQueue st) ->
  Safe (Insert x) st (fun _ st' => OrderInv S st' /\ Quiet (Members S) st st' /\ x ∈ mScheduledQueue st').

Section Dependents.
Context (Depth : list nat -> Prop) (Insert : nat -> DM W unit) (HIns : InsertSpec Depth Insert).

(** The kinds of loops: for Before, and for After once the driver is queued. *)
Definition KindOk (Kind : EFI_CORE_DRIVER_ENTRY -> bool) (x : nat) (st : DispatchState W) : Prop :=
  Kind = Before \/ (Kind = After /\ x ∈ mScheduledQueue st).

Lemma ProcessDependents_order Kind st x S : KindOk Kind x st -> OrderInv (x :: S) st -> Depth (x :: S) -> PendingChain st (x :: S) ->
  Safe (ProcessDependents Insert Kind x) st (fun _ st' => OrderInv (x :: S) st' /\ Quiet (Members (x :: S)) st st' /\
    forall j, Aims Kind st0 j x -> j ∈ mScheduledQueue st').
Proof.
  intros HK O HS C. unfold ProcessDependents.
  eapply Safe_mono; [apply (ForDrivers_index (fun i st' => OrderInv (x :: S) st' /\ Quiet (Members (x :: S)) st st' /\
    forall j, (j < i)%nat -> Aims Kind st0 j x -> j ∈ mScheduledQueue st'))|].
  - by intros i st' [O' _]; apply O'.
  - intros i st' (O' & Q & HD) Hi. pose proof (or_inv _ _ O') as I'. apply lookup_lt_is_Some in Hi as [d Hd].
    assert (C' : PendingChain st' (x :: S)) by by eapply Chain_evolves, C; apply Q.
    assert (exists dx, mDiscoveredList st' !! x = Some dx) as [dx Hx] by (inversion C'; subst; eauto).
    assert (Skip : ~ (Aims Kind st0 i x /\ i ∉ mScheduledQueue st') -> OrderInv (x :: S) st' /\ Quiet (Members (x :: S)) st st' /\
      forall j, (j < Datatypes.S i)%nat -> Aims Kind st0 j x -> j ∈ mScheduledQueue st').
    { intros HN. split; [done|]. split; [done|]. intros j Hj A. destruct (decide (j = i)) as [->|Hne]; [|apply HD; [lia|done]].
      destruct (decide (i ∈ mScheduledQueue st')); [done|]. by destruct HN. }
    eapply Safe_run; [by apply GetDriver_run|]. destruct (_ && _) eqn:E; cycle 1.
    { apply Skip. intros [A Hn]. destruct (Aims_now _ _ _ _ _ O' A) as (d' & dy & d0 & Hd' & Hy & Hd0 & Hp0 & HO & Hk & HG). same_driver.
      destruct (or_settled _ _ O' i d0 Hd0 Hp0 Hn) as (d1 & Hd1 & Hp1). same_driver.
      destruct (InPhase_flags _ _ Hp1) as (_ & _ & HW & _). rewrite HW, bool_decide_eq_true_2, andb_true_r in E by done.
      destruct A as (? & ? & _ & _ & _ & _ & _ & _ & Hne). rewrite bool_decide_eq_false_2 in E by done. rewrite andb_true_r in E.
      injection HO as HO1 HO2 _. destruct HK as [->|[-> _]]; congruence. }
    apply andb_true_iff in E as [[EK ED]%andb_true_iff EN]. apply negb_true_iff, bool_decide_eq_false in EN.
    eapply Safe_run; [by apply GetDriver_run|]. case_bool_decide as EG; cycle 1.
    { apply Skip. intros [A _]. destruct (Aims_now _ _ _ _ _ O' A) as (d' & dy & d0 & Hd' & Hy & _ & _ & _ & _ & HG). same_driver. by apply EG. }
    assert (Hp : InPhase d Waiting) by by eapply waiting_phase.
    assert (HBA : Before (Expression d) || After (Expression d) = true) by (destruct HK as [->|[-> _]]; rewrite EK; [done|apply orb_true_r]).
    eapply Safe_mono; [apply (HIns st' i (x :: S) d); [done|done| |done|done|]|].
    + eapply ChainPush; [done|exact Hp|done|exact Hx|by eapply driver_phase|done| |done]. by eapply (Chain_fresh X st' i d x dx).
    + intros y A. destruct HK as [->|[-> Hq]].
      * destruct (Aims_now _ _ _ _ _ O' A) as (d' & dy & d0 & Hd' & _ & Hd0 & _ & HO & Hk & _). same_driver.
        injection HO as HO _ _. pose proof (Exclusive i d0 Hd0) as HE. by rewrite Hk, <- HO, EK in HE.
      * rewrite (Aims_target _ _ st' i y x d dx O' A) by done. eapply elem_of_prefix; [exact Hq|apply Q].
    + intros [] st2 (O2 & Q2 & Hi2). split; [done|]. split; [by apply (Quiet_trans X _ st st')|]. intros j Hj A.
      destruct (decide (j = i)) as [->|Hne]; [done|]. eapply elem_of_prefix; [apply HD; [lia|done]|apply Q2].
  - eapply Within_less; [by apply Within_loop|]. intros ? _. simpl. lia.
  - split; [done|]. split; [by eapply Quiet_refl, O|]. lia.
  - intros [] st' (k & (O' & Q & HD) & Hk). split; [done|]. split; [done|]. intros j A. apply HD; [|done].
    destruct (Aims_now _ _ _ _ _ O' A) as (d' & _ & _ & Hd' & _). apply lookup_lt_Some in Hd'. lia.
Qed.
End Dependents.

Lemma Insert_ordered fuel : InsertSpec (fun S => FuelFor X (fun n => n - length S)%nat fuel) (CoreInsertOnScheduledQueueWhileProcessingBeforeAndAfter fuel).
Proof.
  induction fuel as [|fuel IH]; intros st x S d O HF C Hd Hp HA; cbn [CoreInsertOnScheduledQueueWhileProcessingBeforeAndAfter].
  { eapply Within_none; [done|]. intros n Hn. pose proof (Chain_length X st _ n (or_inv _ _ O) C Hn). simpl in *. lia. }
  assert (Hx : x ∉ S) by by apply Chain_nodup, NoDup_cons in C as [? _].
  assert (HW : forall i, Members S i -> Members (x :: S) i) by (unfold Members; set_solver).
  assert (HF' : FuelFor X (fun n => n - length (x :: S))%nat fuel) by (eapply Within_less; [done|intros ? _; simpl; lia]).
  eapply Safe_then; [apply (ProcessDependents_order _ _ IH Before st x S); [by left|by apply OrderInv_push|done|done]|].
  intros [] st1 (O1 & Q1 & HB1). destruct (Quiet_same _ st st1 x d Waiting Q1) as (d1 & Hd1 & _ & _ & _ & Hp1); [by left|done..|].
  eapply Safe_then; [apply (OrderInv_schedule S x d1 st1 O1 Hd1 Hp1 Hx HB1)|].
  { intros y A. eapply elem_of_prefix; [by apply HA|apply Q1]. }
  intros [] st2 (O2 & Q2 & Hq2). assert (Q12 : Quiet (Members S) st st2).
  { apply (Quiet_trans X _ st st1); [apply O1| |done]. by eapply Quiet_weaken, Q1. }
  eapply Safe_mono; [apply (ProcessDependents_order _ _ IH After st2 x S); [by right|done|done|eapply Chain_evolves, C; apply Q12]|].
  intros [] st3 (O3 & Q3 & HA3). split; [by eapply OrderInv_pop|]. split.
  - apply (Quiet_trans X _ st st2); [apply O2|done|]. by eapply Quiet_weaken, Q3.
  - eapply elem_of_prefix; [exact Hq2|apply Q3].
Qed.
End OrderOf.
