(* ===== verification/DispatchSample.v ===== *)
(** * The DXE dispatcher: a sample environment

    Every firmware volume has five drivers: the first has no dependency
    expression, the second is to run before it, the third after it, the fourth is
    to be requested by Schedule, and the fifth is in the a priori file.  In
    [SilentEnvironment] no program calls a service.  In [SampleEnvironment] the
    image of the first driver requests the fourth and calls CoreDispatcher, the image
    of the third is not trusted when it is loaded, and a notification at the end of
    a round trusts it; in [VolumeEnvironment] the image of the first driver also
    installs the firmware volume 8, which is read at once. *)
From Stdlib Require Import ZArith Lia.
From stdpp Require Import base option list relations.
From S2P Require Import Prelude StateMonad Depex Dispatcher DispatchInv DispatchQueue DispatchRun DispatchFv.

Record SampleWorld := MkSample {
  Started : list Z;
  NewVolumes : list Z;
  EventStatus : EFI_STATUS }.

Definition SampleName (h k : Z) : GUID := h :: k :: replicate 14 0.

Definition SampleDepexOf (n : GUID) : EFI_STATUS * list Z :=
  let First := SampleName (nth 0 n 0) 1 in
  let k := nth 1 n 0 in
  if k =? 2 then (EFI_SUCCESS, EFI_DEP_BEFORE :: First ++ [EFI_DEP_END])
  else if k =? 3 then (EFI_SUCCESS, EFI_DEP_AFTER :: First ++ [EFI_DEP_END])
  else if k =? 4 then (EFI_SUCCESS, [EFI_DEP_SOR; EFI_DEP_END])
  else (EFI_NOT_FOUND, []).

Definition HasName (n : GUID) (d : DRIVER) : bool := bool_decide (FileName d = n).
Definition MayRun (h : Z) (n : GUID) (d : DRIVER) : bool := negb ((FvHandle d =? h) && HasName n d) || bool_decide (Flags d = PhaseFlags Waiting).

Definition NoteStart (Image : Z) : DM SampleWorld unit :=
  Change (fun st => SetWorld (MkSample (Started (World st) ++ [Image]) (NewVolumes (World st)) (EventStatus (World st))) st).

Definition SilentEnvironment : DispatchEnvironment SampleWorld := {|
  StackAvailable _ := true;
  StackGarbage _ := false;
  PastDepex _ := 0;
  AllEfiServicesAvailable _ := true;
  Located _ _ := false;
  DropDispatcherLock := mret tt;
  CreateDispatchEvent := Get (fun st => EventStatus (World st));
  SignalDispatchEvent := mret tt;
  CloseDispatchEvent := mret tt;
  LoadImage Path := mret (EFI_SUCCESS, 1 + Z.abs Path);
  StartImage := NoteStart;
  ProcessFvImageFile _ _ _ := mret EFI_SUCCESS;
  LocateFv := fun st =>
    match NewVolumes (World st) with
    | [] => Done (None, st)
    | h :: l => Done (Some h, SetWorld (MkSample (Started (World st)) l (EventStatus (World st))) st)
    end;
  GetFwVolHeader _ := mret None;
  ReadFvbGuid _ _ _ := mret None;
  FvProtocol h := mret (Some h);
  FvDevicePath h := mret (Some h);
  FvToDevicePath h n := mret (nth 1 n 0);
  GetNextFile Fv_ Key Type_ := fun st =>
    let n := SampleName Fv_ (Key + 1) in
    Done (if (Type_ =? EFI_FV_FILETYPE_DRIVER) && (Key <? 5) && negb (existsb (HasName n) (mDiscoveredList st))
          then (EFI_SUCCESS, (Key + 1, Type_, n)) else (EFI_NOT_FOUND, (Key, Type_, n)), st);
  ReadDepexSection _ n := mret (SampleDepexOf n);
  ReadSmmDepexSection _ _ := mret EFI_NOT_FOUND;
  ReadAprioriFile Fv_ := fun st =>
    let n := SampleName Fv_ 5 in
    Done (if forallb (MayRun Fv_ n) (mDiscoveredList st) then (EFI_SUCCESS, [n]) else (EFI_NOT_FOUND, []), st);
  EntryMemory := mret true;
  HobFv2 := [];
  gDxeCoreFileName := ZeroGuid;
  LoopFuel := 100 |}.

Section Silent.
#[local] Existing Instance SilentEnvironment.
Context (L : option nat) (E : Prop).
Hypothesis Enough : E \/ exists n, L = Some n /\ (6 * n < 100)%nat.

Definition SampleSetting : Setting := MkSetting (fun n => nth 0 n 0) (fun Fv_ => Fv_) L E.

Lemma SetWorld_inv w (st : DispatchState SampleWorld) : DispatchInv SampleSetting st -> DispatchInv SampleSetting (SetWorld w st).
Proof. by intros [? ? ? ? ? ?]; split. Qed.

Lemma SetWorld_quiet w (st : DispatchState SampleWorld) : DispatchInv SampleSetting st -> Quiet All st (SetWorld w st).
Proof. intros I. destruct (Quiet_refl SampleSetting All st I) as [[? ? ?] ? ? ? ?]. by split; [split|..]. Qed.

Lemma world_behaves {A} (m : DM SampleWorld A) Q :
  (forall st, exists a w, m st = Done (a, SetWorld w st) /\ Q a (SetWorld w st)) -> Behaves SampleSetting m Q.
Proof.
  intros H st I. destruct (H st) as (a & w & E1 & HQ). eapply Safe_done; [done|]. split; [by apply SetWorld_inv|]. split; [by apply SetWorld_quiet|done].
Qed.

Lemma pure_behaves {A} (m : DM SampleWorld A) Q : (forall st, exists a, m st = Done (a, st) /\ Q a st) -> Behaves SampleSetting m Q.
Proof. intros H st I. destruct (H st) as (a & E1 & HQ). eapply Safe_done; [done|]. split; [done|]. split; [by eapply Quiet_refl|done]. Qed.

Lemma Sample_evaluates n e : EFI_ERROR (SampleDepexOf n).1 = false ->
  Evaluates (snd (CorePreProcessDepex PastDepex (WithDepex (Some (SampleDepexOf n).2) e) (SampleDepexOf n).2)).
Proof.
  assert (HBA : forall x, Before x || After x = true -> Evaluates x).
  { intros x Hx k. revert x Hx. induction k as [|k IH]; [done|]. cbn [EvaluatesFor]. intros x Hx Av Ins s. unfold CoreIsSchedulable.
    rewrite orb_comm, Hx. by apply IH. }
  assert (HSor : forall x, Depex x = Some [EFI_DEP_SOR; EFI_DEP_END] -> Evaluates x).
  { intros x Hx k. revert x Hx. induction k as [|k IH]; [done|]. cbn [EvaluatesFor]. intros x Hx Av Ins s. unfold CoreIsSchedulable.
    destruct (After x || Before x); [by apply IH|]. rewrite Hx. by apply IH. }
  unfold SampleDepexOf. destruct (_ =? 2); [intros _; apply HBA; reflexivity|].
  destruct (_ =? 3); [intros _; apply HBA; apply orb_true_r|]. destruct (_ =? 4); [intros _; apply HSor; reflexivity|done].
Qed.

Lemma behaves_running {A} (m : DM SampleWorld A) Q : Behaves SampleSetting m Q -> BehavesRunning SampleSetting m Q.
Proof. intros H st I _. by apply H. Qed.

Lemma NoteStart_behaves Image : Behaves SampleSetting (NoteStart Image) (fun _ _ => True).
Proof. apply world_behaves. intros st. by eexists _, _. Qed.

Lemma SilentLaws : DispatchLaws (Env := SilentEnvironment) SampleSetting.
Proof.
  split; try (intros; apply pure_behaves; intros; eexists; split; [reflexivity|done]);
    try (intros; apply behaves_running, pure_behaves; intros; eexists; split; [reflexivity|done]); try done.
  - intros Path. apply behaves_running, pure_behaves. intros st. eexists. split; [reflexivity|]. simpl. lia.
  - intros Image. apply behaves_running, NoteStart_behaves.
  - apply world_behaves. intros st. simpl. destruct (NewVolumes (World st)) as [|h l]; [|by eexists _, _].
    exists None, (World st). split; [by destruct st|done].
  - intros Fv_ k t. apply pure_behaves. intros st. eexists. split; [reflexivity|]. simpl. destruct (_ && _) eqn:EG; [|done]. intros _.
    split; [done|]. intros i d Hd Hn. apply andb_true_iff in EG as [_ EG]. apply negb_true_iff in EG.
    assert (existsb (HasName (SampleName Fv_ (k + 1))) (mDiscoveredList st) = true); [|congruence].
    apply existsb_exists. exists d. split; [by apply list_elem_of_In, list_elem_of_lookup; exists i|]. by apply bool_decide_eq_true.
  - intros Fv_ n. apply pure_behaves. intros st. eexists. split; [reflexivity|]. destruct (SampleDepexOf n) as [Status Bytes] eqn:ES.
    intros HE e. pose proof (Sample_evaluates n e) as H. rewrite ES in H. by apply H.
  - intros Fv_. apply pure_behaves. intros st. eexists. split; [reflexivity|]. simpl. destruct (forallb _ _) eqn:EA; [|done]. intros _.
    split; [apply NoDup_singleton|]. intros i d Hd Hh Hn%list_elem_of_singleton.
    rewrite forallb_forall in EA. assert (HM : MayRun Fv_ (SampleName Fv_ 5) d = true).
    { apply EA. apply list_elem_of_In, list_elem_of_lookup. by exists i. }
    unfold MayRun, HasName in HM. rewrite Hh, Z.eqb_refl, (bool_decide_eq_true_2 (FileName d = _)) in HM by done. by apply bool_decide_eq_true in HM.
Qed.
End Silent.

(** The image of the first driver: it requests the fourth driver of the volume 7,
    tries to have it dispatched at once, and does what else it is given to do. *)
Definition FirstImage (More : DM SampleWorld unit) : DM SampleWorld unit :=
  CoreSchedule (Env := SilentEnvironment) 7 (SampleName 7 4) ;;
  CoreDispatcher (Env := SilentEnvironment) ;;
  More.

Definition ServiceEnvironment (More : DM SampleWorld unit) : DispatchEnvironment SampleWorld :=
  match SilentEnvironment with
  | MkDispatchEnvironment _ a b c d e f g _ i _ _ l m n o p q r s t u v w x y z =>
    MkDispatchEnvironment _ a b c d e f g
      (CoreTrust (Env := SilentEnvironment) 7 (SampleName 7 3) ;; mret tt) i
      (fun Path => mret (if Path =? 3 then EFI_SECURITY_VIOLATION else EFI_SUCCESS, 1 + Z.abs Path))
      (fun Image => NoteStart Image ;; if Image =? 2 then FirstImage More else mret tt)
      l m n o p q r s t u v w x y z
  end.

Section Services.
#[local] Existing Instance SilentEnvironment.
Context (L : option nat) (E : Prop) (More : DM SampleWorld unit).
Hypothesis Enough : E \/ exists n, L = Some n /\ (6 * n < 100)%nat.
Hypothesis More_behaves : Behaves (Env := SilentEnvironment) (SampleSetting L E) More (fun _ _ => True).

(** While the dispatcher runs, its services may be called. *)
Lemma FirstImage_behaves : BehavesRunning (Env := SilentEnvironment) (SampleSetting L E) (FirstImage More) (fun _ _ => True).
Proof.
  intros st I HR. unfold FirstImage. pose proof (SilentLaws L E Enough) as Laws.
  eapply Behaves_then; [by apply (CoreSchedule_safe (SampleSetting L E))|done|]. intros Status st1 I1 Q1 _.
  eapply Safe_run; [apply CoreDispatcher_running; by rewrite (qu_running _ _ _ Q1)|].
  eapply Safe_mono; [by apply More_behaves|]. intros [] st2 (I2 & Q2 & _). split; [done|]. split; [|done].
  by apply (Quiet_trans (Env := SilentEnvironment) (SampleSetting L E) All st st1).
Qed.

(** Both environments evaluate expressions alike, so that the invariant is the same. *)
Lemma inv_same st : DispatchInv (Env := SilentEnvironment) (SampleSetting L E) st <-> DispatchInv (Env := ServiceEnvironment More) (SampleSetting L E) st.
Proof.
  split; intros [IL IN IQ ID IU IM]; (split; [done..| |done|done]); intros i d Hd; destruct (ID i d Hd) as [? ? ? ? ?]; by split.
Qed.

Lemma same_behaves {A} (m : DM SampleWorld A) Q :
  Behaves (Env := SilentEnvironment) (SampleSetting L E) m Q -> Behaves (Env := ServiceEnvironment More) (SampleSetting L E) m Q.
Proof. intros H st I%inv_same. eapply Safe_mono; [by apply H|]. intros a st' (I' & Q' & R'). split; [by apply inv_same|by split]. Qed.

Lemma same_running {A} (m : DM SampleWorld A) Q :
  BehavesRunning (Env := SilentEnvironment) (SampleSetting L E) m Q -> BehavesRunning (Env := ServiceEnvironment More) (SampleSetting L E) m Q.
Proof. intros H st I%inv_same HR. eapply Safe_mono; [by apply H|]. intros a st' (I' & Q' & R'). split; [by apply inv_same|by split]. Qed.

Lemma ServiceLaws : DispatchLaws (Env := ServiceEnvironment More) (SampleSetting L E).
Proof.
  pose proof (SilentLaws L E Enough) as Laws.
  split; try (intros; by apply same_behaves, Laws); try (intros h st I%inv_same; by apply Laws); try (intros h b o st I%inv_same; by apply Laws).
  - apply Laws.
  - apply same_running. intros st I HR.
    eapply (Behaves_then (Env := SilentEnvironment) (SampleSetting L E)); [by apply (CoreTrust_safe (SampleSetting L E))|done|].
    intros Status st1 I1 Q1 _. by split.
  - intros Path. apply same_running. intros st I HR. eapply Safe_done; [reflexivity|]. split; [done|]. split; [by eapply Quiet_refl|]. simpl. lia.
  - intros Image. apply same_running. intros st I HR.
    eapply (Behaves_then (Env := SilentEnvironment) (SampleSetting L E)); [by apply NoteStart_behaves|done|].
    intros [] st1 I1 Q1 _. destruct (Image =? 2); [|by split].
    eapply Safe_mono; [apply FirstImage_behaves; [done|by rewrite (qu_running _ _ _ Q1)]|]. intros [] st2 (I2 & Q2 & _).
    split; [done|]. split; [|done]. by apply (Quiet_trans (Env := SilentEnvironment) (SampleSetting L E) All st st1).
  - intros st I%inv_same. by apply (memory_list (Env := SilentEnvironment) (SampleSetting L E)).
Qed.
End Services.

#[export] Instance SampleEnvironment : DispatchEnvironment SampleWorld := ServiceEnvironment (mret tt).
Definition NoteVolume (h : Z) : DM SampleWorld unit :=
  Change (fun st => SetWorld (MkSample (Started (World st)) (NewVolumes (World st) ++ [h]) (EventStatus (World st))) st).
Definition VolumeEnvironment : DispatchEnvironment SampleWorld :=
  ServiceEnvironment (NoteVolume 8 ;; CoreFwVolEventProtocolNotify (Env := SilentEnvironment)).

Lemma nothing_behaves L E : Behaves (Env := SilentEnvironment) (SampleSetting L E) (mret tt) (fun _ _ => True).
Proof. apply pure_behaves. intros st. by exists tt. Qed.

#[export] Instance SampleLaws L E (Enough : E \/ exists n, L = Some n /\ (6 * n < 100)%nat) : DispatchLaws (SampleSetting L E).
Proof. apply (ServiceLaws L E (mret tt) Enough), nothing_behaves. Qed.

Lemma VolumeLaws : DispatchLaws (Env := VolumeEnvironment) (SampleSetting None True).
Proof.
  apply (ServiceLaws None True _ (or_introl I)). intros st HI. pose proof (SilentLaws None True (or_introl I)) as Laws.
  eapply (Behaves_then (Env := SilentEnvironment) (SampleSetting None True)); [|done|].
  - apply (world_behaves None True (NoteVolume 8) (fun _ _ => True)). intros st'. by eexists _, _.
  - intros [] st1 I1 Q1 _.
    eapply Safe_mono; [by apply (CoreFwVolEventProtocolNotify_behaves (Env := SilentEnvironment) (SampleSetting None True))|].
    intros [] st2 (I2 & Q2 & _). split; [done|]. split; [|done].
    by apply (Quiet_trans (Env := SilentEnvironment) (SampleSetting None True) All st st1).
Qed.

(** ** States *)

Definition SampleWorld0 : SampleWorld := MkSample [] [7] EFI_SUCCESS.

Definition SampleNone : DispatchState SampleWorld := MkDispatch [] [] [] false false (MkStack [] 0) None SampleWorld0.

(** The drivers of a firmware volume have been discovered. *)
Definition SampleStart : DispatchState SampleWorld := Result CoreFwVolEventProtocolNotify SampleNone.

Lemma SampleNone_inv X : DispatchInv X SampleNone.
Proof.
  split; [done|constructor| | | |].
  - intros i. split; [by intros ?%not_elem_of_nil|]. by intros (d & ? & _).
  - by intros i d H.
  - by intros i j d1 d2 H.
  - destruct (Limit X); [simpl; lia|done].
Qed.

Lemma SampleStart_inv : DispatchInv (SampleSetting None True) SampleStart.
Proof.
  apply (Safe_result (Endless:=True) _ _ (DispatchInv (SampleSetting None True))); [|apply SampleNone_inv].
  eapply Safe_mono; [apply (CoreFwVolEventProtocolNotify_behaves (SampleSetting None True) (Laws:=SampleLaws None True (or_introl I)) eq_refl); apply SampleNone_inv|].
  by intros a st' [H _].
Qed.

Lemma Sample_limited n E st : DispatchInv (SampleSetting None True) st -> (length (mDiscoveredList st) <= n)%nat -> DispatchInv (SampleSetting (Some n) E) st.
Proof.
  intros [IL IN IQ ID IU _] HL. split; [done..| |done|done]. intros i d Hd. destruct (ID i d Hd) as [? ? ? ? ?]. by split.
Qed.
