(* ===== verification/DispatchTheorems.v ===== *)
(** * The DXE dispatcher: theorems

    The services in any order, the end of CoreDispatcher, what it has done when it
    returns, and the order of the drivers; a sample environment; and runs that
    show what happens outside the conditions of the theorems. *)
From Stdlib Require Import ZArith Lia.
From stdpp Require Import base option list relations.
From S2P Require Import Prelude StateMonad Depex Dispatcher DispatchInv DispatchQueue DispatchRun DispatchFv DispatchOrder DispatchSample.

(** ** The services *)

Inductive SERVICE :=
| ScheduleCall (FirmwareVolumeHandle : Z) (DriverName : GUID)
| TrustCall (FirmwareVolumeHandle : Z) (DriverName : GUID)
| DispatchCall
| NotifyCall.

Section Services.
Context {W : Type} {Env : DispatchEnvironment W}.

Definition RunService (s : SERVICE) : DM W unit :=
  match s with
  | ScheduleCall h n => CoreSchedule h n ;; mret tt
  | TrustCall h n => CoreTrust h n ;; mret tt
  | DispatchCall => CoreDispatcher ;; mret tt
  | NotifyCall => CoreFwVolEventProtocolNotify
  end.

Fixpoint RunServices (Services : list SERVICE) : DM W unit :=
  match Services with
  | [] => mret tt
  | s :: Services => RunService s ;; RunServices Services
  end.

(** The state after start-up. *)
Definition Initial (w : W) : DispatchState W := MkDispatch [] [] [] false false (MkStack [] 0) None w.

Lemma Initial_dispatch_inv X w : DispatchInv X (Initial w).
Proof.
  split; [done|constructor| | | |].
  - intros i. split; [by intros ?%not_elem_of_nil|]. by intros (d & ? & _).
  - by intros i d H.
  - by intros i j d1 d2 H.
  - destruct (Limit X); [simpl; lia|done].
Qed.

(** An expression that has just been evaluated to FALSE. *)
Definition NotReady (w : W) (e : EFI_CORE_DRIVER_ENTRY) : Prop := exists e0 s s',
  CoreIsSchedulable StackAvailable StackGarbage (AllEfiServicesAvailable w) (Located w) PastDepex e0 s = Done (false, e, s').

(** CoreDispatcher returns, in a state that is in order. *)
Definition DispatcherReturns (X : Setting) (st : DispatchState W) : Prop :=
  exists Status st', CoreDispatcher st = Done (Status, st') /\ DispatchInv X st' /\ Evolves st st'.

(** Every call returns at once. *)
Definition DispatcherBlocked (st : DispatchState W) : Prop := CoreDispatcher st = Done (EFI_ALREADY_STARTED, st).

(** The queue is as the drivers that were Dependent in a state ask for: one that is to run
    before [y] is in front of [y] if [y] is queued, and one that is to run after
    [y] is queued exactly if [y] is, behind it. *)
Definition InOrder (st : DispatchState W) (Queue : list nat) : Prop :=
  NoDup Queue /\
  (forall j y, Aims Before st j y -> y ∈ Queue -> Precedes Queue j y) /\
  (forall j y, Aims After st j y -> (j ∈ Queue <-> y ∈ Queue) /\ (j ∈ Queue -> Precedes Queue y j)).
End Services.

Section Theorems.
Context {W : Type} {Env : DispatchEnvironment W} (X : Setting) {Laws : DispatchLaws X}.

Lemma RunService_safe s st : Limit X = None -> DispatchInv X st -> SafeRun (Endless X) (RunService s) st (fun _ st' => DispatchInv X st' /\ Evolves st st').
Proof.
  intros HL I. destruct s as [h n|h n| |]; simpl.
  - eapply Behaves_then; [by apply (CoreSchedule_safe X)|done|]. intros r st' I' Q _. split; [done|apply Q].
  - eapply Behaves_then; [by apply (CoreTrust_safe X)|done|]. intros r st' I' Q _. split; [done|apply Q].
  - eapply Safe_then; [by apply (CoreDispatcher_safe X)|]. by intros r st' [I' E].
  - eapply Safe_mono; [by apply (CoreFwVolEventProtocolNotify_behaves X)|]. intros [] st' (I' & Q & _). split; [done|apply Q].
Qed.

(** C29: the services of the dispatcher in any order, in an environment that keeps
    [DispatchLaws] and may itself call them, keep the dispatcher in order as long as
    they run: each driver is in exactly one state, the queue has the Scheduled drivers,
    each once, and drivers change their state only along the transitions of [PhaseStep];
    no assertion fails and the queue is not damaged.  The environment may call
    Schedule, Trust and the notification for firmware volumes at any time, and
    CoreDispatcher from images, from loading one and from the event of a round, where
    it returns EFI_ALREADY_STARTED; nothing is said of programs that do not return.
    The laws exclude the conditions that Dispatcher.c asserts or relies on without a
    check: the names of all drivers are distinct and a file is in one volume
    (otherwise [insertion_endless]); the a priori file of a volume has each name once
    and none of a driver with SOR or with an unread expression (otherwise
    [apriori_twice], where the queue breaks, and [apriori_sor_twice], where a driver is
    started twice); expressions have BEFORE and AFTER only at their beginning; a volume
    image has no SMM expression; a volume has its protocol and a block map with an
    end, and no other becomes known while its name is read; there is memory for
    entries; a loaded image has a handle. *)
Theorem dispatch_services_invariant Services st : Limit X = None -> DispatchInv X st ->
  SafeRun (Endless X) (RunServices Services) st (fun _ st' => DispatchInv X st' /\ Evolves st st').
Proof.
  intros HL. revert st. induction Services as [|s Services IH]; intros st I; simpl; [split; [done|by eapply Evolves_refl]|].
  eapply Safe_then; [by apply RunService_safe|]. intros [] st1 [I1 E1].
  eapply Safe_mono; [by apply IH|]. intros [] st2 [I2 E2]. split; [done|]. by eapply Evolves_trans.
Qed.

(** C31: if there are at most [n] drivers, whose file names are distinct
    ([DispatchInv]), and the programs that run meanwhile keep [DispatchLaws] and return
    themselves ([~ Endless X]), CoreDispatcher returns: no endless loop and no endless
    recursion, whatever these programs schedule or trust.  The laws include
    [6 * n < LoopFuel], so that more than six steps for each driver are never needed,
    and the conditions listed at [DispatchLaws]; three drivers of one name make the
    insertion endless ([insertion_endless]). *)
Theorem CoreDispatcher_returns n st : Limit X = Some n -> ~ Endless X -> DispatchInv X st -> DispatcherReturns X st.
Proof.
  unfold DispatcherReturns. intros _ HE I. pose proof (CoreDispatcher_safe X st I) as H. unfold SafeRun in H.
  destruct (CoreDispatcher st) as [[Status st']| |]; [|done|done]. destruct H; by exists Status, st'.
Qed.

(** C30: a driver is queued together with the drivers that are to run before or
    after it.  When the insertion of a driver returns, the driver is in the queue,
    behind what was there, and with it the drivers that ask to run before or after
    it or one of these, in the order that they ask for ([InOrder]). *)
Theorem insertion_order st x d : DispatchInv X st -> mDiscoveredList st !! x = Some d -> InPhase d Waiting ->
  Before (Expression d) = false -> After (Expression d) = false ->
  (forall j e, mDiscoveredList st !! j = Some e -> Before (Expression e) && After (Expression e) = false) ->
  SafeRun (Endless X) (CoreInsertOnScheduledQueueWhileProcessingBeforeAndAfter LoopFuel x) st (fun _ st' =>
    mScheduledQueue st `prefix_of` mScheduledQueue st' /\ x ∈ mScheduledQueue st' /\ InOrder st (mScheduledQueue st')).
Proof.
  intros I Hd Hp HB HA HX.
  assert (HQ : forall j e, mDiscoveredList st !! j = Some e -> InPhase e Waiting -> j ∉ mScheduledQueue st) by (intros; by eapply not_queued).
  eapply Safe_mono; [apply (Insert_ordered X st I HX LoopFuel st x [] d)|].
  - split; [done|by eapply Evolves_refl| | | |].
    + intros j e He Hw _. by exists e.
    + intros j y (? & ? & _ & _ & ? & ? & _) Hy. by exfalso; eapply HQ.
    + intros j y (? & ? & ? & ? & _) Hj. by exfalso; eapply HQ.
    + intros j y (? & ? & _ & _ & ? & ? & _) Hy. by exfalso; eapply HQ.
  - eapply Within_less; [by apply Within_loop|]. intros ? _. simpl. lia.
  - by eapply ChainRoot.
  - done.
  - done.
  - intros y (dx & ? & Hdx & _ & _ & _ & HK & _). exfalso. same_driver. congruence.
  - intros [] st' (O & Q & Hx). split; [apply Q|]. split; [done|]. split; [apply (or_inv _ _ _ _ O)|]. split; [apply O|].
    intros j y A. split; [|by apply (or_after _ _ _ _ O)]. split; intros H.
    + by apply (Precedes_in _ y j), (or_after _ _ _ _ O).
    + eapply (or_all _ _ _ _ O); [done..|]. by apply not_elem_of_nil.
Qed.
End Theorems.

(** ** What has been done when the dispatcher returns *)

Section Progress.
Context {W : Type} {Env : DispatchEnvironment W}.
(** Reading a dependency expression and closing the event change nothing else. *)
Hypothesis ReadDepex_pure : forall Fv_ n st, exists r, ReadDepexSection Fv_ n st = Done (r, st).
Hypothesis Close_pure : forall st, CloseDispatchEvent st = Done (tt, st).

Lemma SearchRound_true fuel : forall i st b (st' : DispatchState W), SearchRound fuel i true st = Done (b, st') -> b = true.
Proof.
  induction fuel as [|fuel IH]; intros i st b st' H; cbn [SearchRound] in H; apply SM_bind_Done in H as (L & st1 & [-> ->]%Get_Done & H);
    case_bool_decide; [done|by apply SM_ret_Done in H as [-> _]| |by apply SM_ret_Done in H as [-> _]].
  apply SM_bind_Done in H as (d & st2 & _ & H). apply SM_bind_Done in H as (u & st3 & _ & H). apply SM_bind_Done in H as (d' & st4 & _ & H).
  destruct (IsDependent d'); [|by eapply IH]. apply SM_bind_Done in H as (r & st5 & _ & H). destruct r; [|by eapply IH].
  apply SM_bind_Done in H as (? & st6 & _ & H). by eapply IH.
Qed.

(** What a step of the search leaves alone. *)
Definition OnlyAt (i : nat) (st st' : DispatchState W) : Prop :=
  World st' = World st /\ forall k, k <> i -> mDiscoveredList st' !! k = mDiscoveredList st !! k.

Lemma GetDriver_Done (st : DispatchState W) i d st' : GetDriver i st = Done (d, st') -> st' = st /\ mDiscoveredList st !! i = Some d.
Proof. unfold GetDriver. destruct (mDiscoveredList st !! i); [|done]. by intros [= -> ->]. Qed.

Lemma Retry_at i d st u (st' : DispatchState W) :
  (if DepexProtocolError d then '(_, f) ← CoreGetDepexSectionAndPreProccess (Fv d) (FileName d); ChangeDriver i f else mret tt : DM W unit) st = Done (u, st') ->
  OnlyAt i st st'.
Proof.
  destruct (DepexProtocolError d); [|by intros [_ ->]%SM_ret_Done]. intros H. unfold CoreGetDepexSectionAndPreProccess in H.
  apply SM_bind_Done in H as ([Status f] & st1 & H1 & H). apply SM_bind_Done in H1 as ([S B] & st2 & H2 & [_ ->]%SM_ret_Done).
  destruct (ReadDepex_pure (Fv d) (FileName d) st) as [r Hr]. rewrite Hr in H2. injection H2 as _ <-.
  apply Change_Done in H as ->. split; [done|]. intros k Hk. simpl. by rewrite list_lookup_alter_ne.
Qed.

Lemma IsSchedulable_at i st r (st' : DispatchState W) : IsSchedulable i st = Done (r, st') ->
  OnlyAt i st st' /\ (r = false -> forall d, mDiscoveredList st' !! i = Some d -> NotReady (World st) (Expression d)).
Proof.
  intros H. apply SM_bind_Done in H as (d & st1 & [-> Hd]%GetDriver_Done & H). simpl in H.
  destruct (CoreIsSchedulable _ _ _ _ _ _ _) as [[[b e] s]| |] eqn:EC; [|done|done]. injection H as <- <-.
  split; [split; [done|]; intros k Hk; simpl; by rewrite list_lookup_alter_ne|].
  intros -> d' Hd'. simpl in Hd'. rewrite list_lookup_alter_eq, Hd in Hd'. injection Hd' as <-. by exists (Expression d), (Stack st), s.
Qed.

Lemma SearchRound_false fuel : forall i r st (st' : DispatchState W), SearchRound fuel i r st = Done (false, st') ->
  World st' = World st /\ (forall k, (k < i)%nat -> mDiscoveredList st' !! k = mDiscoveredList st !! k) /\
  forall k d, (i <= k)%nat -> mDiscoveredList st' !! k = Some d -> IsDependent d = true -> NotReady (World st') (Expression d).
Proof.
  induction fuel as [|fuel IH]; intros i r st st' H; cbn [SearchRound] in H; apply SM_bind_Done in H as (L & st1 & [-> ->]%Get_Done & H);
    case_bool_decide as Hi; try done; try (apply SM_ret_Done in H as [_ ->]; split_and!; [done|done|];
      intros k d Hk Hd; apply lookup_lt_Some in Hd; lia).
  apply SM_bind_Done in H as (d & st2 & [-> Hd]%GetDriver_Done & H). apply SM_bind_Done in H as (u & st3 & [W3 K3]%Retry_at & H).
  apply SM_bind_Done in H as (d' & st4 & [-> Hd']%GetDriver_Done & H).
  assert (Rest : forall st5 r, OnlyAt i st st5 -> SearchRound fuel (S i) r st5 = Done (false, st') ->
    (forall d, mDiscoveredList st5 !! i = Some d -> IsDependent d = true -> NotReady (World st) (Expression d)) ->
    World st' = World st /\ (forall k, (k < i)%nat -> mDiscoveredList st' !! k = mDiscoveredList st !! k) /\
    forall k d, (i <= k)%nat -> mDiscoveredList st' !! k = Some d -> IsDependent d = true -> NotReady (World st') (Expression d)).
  { intros st5 r5 [W5 K5] H5 HN. destruct (IH _ _ _ _ H5) as (W' & K' & N'). split; [congruence|]. split.
    - intros k Hk. rewrite K' by lia. apply K5. lia.
    - intros k e Hk He HD. destruct (decide (k = i)) as [->|Hne]; [|apply (N' k); [lia|done|done]].
      rewrite K' in He by lia. rewrite W', W5. by apply HN. }
  destruct (IsDependent d') eqn:ED.
  - apply SM_bind_Done in H as (b & st5 & [[W5 K5] HN]%IsSchedulable_at & H). destruct b.
    + apply SM_bind_Done in H as (? & st6 & _ & H). by apply SearchRound_true in H.
    + eapply Rest; [|done|]; [split; [congruence|]; intros k Hk; by rewrite K5, K3|]. rewrite <- W3. intros e He _. by apply HN.
  - eapply Rest; [by split|done|]. intros e He HD. same_driver. congruence.
Qed.

Lemma DispatchRounds_false fuel : forall r st r' (st' : DispatchState W), DispatchRounds fuel r st = Done (r', st') ->
  forall k d, mDiscoveredList st' !! k = Some d -> IsDependent d = true -> NotReady (World st') (Expression d).
Proof.
  induction fuel as [|fuel IH]; intros r st r' st' H; cbn [DispatchRounds] in H; [done|].
  apply SM_bind_Done in H as (r1 & st1 & _ & H). apply SM_bind_Done in H as (? & st2 & _ & H). apply SM_bind_Done in H as (b & st3 & HS & H).
  destruct b; [by eapply IH|]. apply SM_ret_Done in H as [_ ->]. intros k d. apply (SearchRound_false _ _ _ _ _ HS). lia.
Qed.

(** C32: when CoreDispatcher has run, no driver is left that could run: the last
    evaluation of the dependency expression of every driver that is still
    Dependent was FALSE, with the protocols that are installed now.  That it has run
    means that it was not running when it was called (otherwise it returns
    EFI_ALREADY_STARTED) and is not marked as running when it returns (it stays so
    when the event for the rounds cannot be created, [CoreDispatcher_event_failure]).
    The environment keeps [DispatchLaws], reading a dependency expression and
    closing the event change nothing ([ReadDepex_pure], [Close_pure]), and the state
    before was in order. *)
Theorem CoreDispatcher_progress X (Laws : DispatchLaws X) st Status st' : DispatchInv X st -> gDispatcherRunning st = false ->
  CoreDispatcher st = Done (Status, st') -> gDispatcherRunning st' = false ->
  forall i d, mDiscoveredList st' !! i = Some d -> IsDependent d = true -> NotReady (World st') (Expression d).
Proof.
  intros I HR H HR'. unfold CoreDispatcher in H. apply SM_bind_Done in H as (b & st1 & [-> ->]%Get_Done & H). rewrite HR in H.
  apply SM_bind_Done in H as (? & st2 & ->%Change_Done & H). apply SM_bind_Done in H as (S & st3 & HC & H).
  assert (gDispatcherRunning st3 = true) as HR3.
  { pose proof (create_behaves X (SetRunning true st) (SetRunning_inv X true st I)) as HS.
    apply (Safe_elim _ _ _ _ _ HS) in HC as (_ & Q & _). by rewrite (qu_running _ _ _ Q). }
  destruct (EFI_ERROR S); [apply SM_ret_Done in H as [_ ->]; congruence|].
  apply SM_bind_Done in H as (r & st4 & HD & H). apply SM_bind_Done in H as (? & st5 & HX & H).
  rewrite Close_pure in HX. injection HX as _ <-.
  apply SM_bind_Done in H as (? & st6 & ->%Change_Done & [_ ->]%SM_ret_Done). simpl. by apply (DispatchRounds_false _ _ _ _ _ HD).
Qed.
End Progress.

(** When the event for a round of the dispatcher cannot be created,
    CoreDispatcher leaves with gDispatcherRunning set: no later call dispatches
    anything any more. *)
Theorem CoreDispatcher_event_failure {W} {Env : DispatchEnvironment W} st Status :
  gDispatcherRunning st = false -> CreateDispatchEvent (SetRunning true st) = Done (Status, SetRunning true st) -> EFI_ERROR Status = true ->
  CoreDispatcher st = Done (Status, SetRunning true st) /\
  DispatcherBlocked (SetRunning true st).
Proof.
  intros HR HC HE. split; [|by apply CoreDispatcher_running]. unfold CoreDispatcher. rewrite (Get_run (S:=DispatchState W)), HR.
  rewrite (Change_run (S:=DispatchState W)). rewrite (SM_bind_run (S:=DispatchState W) _ _ _ _ _ HC). by rewrite HE.
Qed.

(** ** Runs of the sample *)

(** A volume is found and its drivers are dispatched.  The image of the first one
    requests the fourth, calls CoreDispatcher and has a second volume read; the third
    is rejected, and trusted by the notification at the end of the round. *)
Definition SampleServices : list SERVICE := [NotifyCall; DispatchCall; ScheduleCall 8 (SampleName 8 4); DispatchCall].

Lemma dispatch_services_invariant_witness :
  exists st', RunServices (Env := VolumeEnvironment) SampleServices (Initial SampleWorld0) = Done (tt, st') /\
    DispatchInv (Env := VolumeEnvironment) (SampleSetting None True) st' /\ Evolves (Initial SampleWorld0) st' /\
    Started (World st') = [6; 3; 2; 6; 4; 3; 2] /\ length (mDiscoveredList st') = 10%nat.
Proof.
  assert (exists st', RunServices (Env := VolumeEnvironment) SampleServices (Initial SampleWorld0) = Done (tt, st') /\
    Started (World st') = [6; 3; 2; 6; 4; 3; 2] /\ length (mDiscoveredList st') = 10%nat) as (st' & E & HS) by (eexists; split_and!; vm_compute; reflexivity).
  exists st'. split; [exact E|].
  pose proof (Safe_elim _ _ _ _ _ (dispatch_services_invariant (Env:=VolumeEnvironment) (Laws:=VolumeLaws) (SampleSetting None True) SampleServices
    (Initial SampleWorld0) eq_refl (Initial_dispatch_inv (Env:=VolumeEnvironment) _ SampleWorld0)) E) as [HI HE].
  split; [exact HI|]. split; [exact HE|exact HS].
Defined.

Lemma CoreDispatcher_returns_witness : DispatcherReturns (SampleSetting (Some 10%nat) False) SampleStart.
Proof.
  assert (HF : False \/ exists n, Some 10%nat = Some n /\ (6 * n < 100)%nat) by (right; exists 10%nat; split; [reflexivity|lia]).
  apply (CoreDispatcher_returns (Laws:=SampleLaws (Some 10%nat) False HF) (SampleSetting (Some 10%nat) False) 10 SampleStart).
  - reflexivity.
  - intros [].
  - apply Sample_limited; [apply SampleStart_inv|vm_compute; lia].
Defined.

Lemma insertion_order_witness : exists st', CoreInsertOnScheduledQueueWhileProcessingBeforeAndAfter 100 0 SampleStart = Done (tt, st') /\
  mScheduledQueue st' = [4; 1; 0; 2]%nat /\ InOrder SampleStart (mScheduledQueue st').
Proof.
  assert (exists st', CoreInsertOnScheduledQueueWhileProcessingBeforeAndAfter 100 0 SampleStart = Done (tt, st') /\ mScheduledQueue st' = [4; 1; 0; 2]%nat)
    as (st' & E & HQ) by (eexists; split; vm_compute; reflexivity).
  assert (exists d, mDiscoveredList SampleStart !! 0%nat = Some d /\ InPhase d Waiting /\ Before (Expression d) = false /\ After (Expression d) = false)
    as (d & Hd & Hp & HB & HA) by (eexists; split_and!; vm_compute; reflexivity).
  assert (HX : forall j e, mDiscoveredList SampleStart !! j = Some e -> Before (Expression e) && After (Expression e) = false).
  { intros j e He. do 5 (destruct j as [|j]; [vm_compute in He; injection He as <-; reflexivity|]). vm_compute in He. discriminate He. }
  exists st'. split; [exact E|]. split; [exact HQ|].
  exact (proj2 (proj2 (Safe_elim _ _ _ _ _ (insertion_order (Laws:=SampleLaws None True (or_introl I)) (SampleSetting None True) SampleStart 0 d SampleStart_inv Hd Hp HB HA HX) E))).
Defined.

(** The fourth driver has been requested, its expression is FALSE. *)
Definition SampleRequested : DispatchState SampleWorld := Result (CoreSchedule 7 (SampleName 7 4)) SampleStart.

Lemma SampleRequested_inv : DispatchInv (SampleSetting None True) SampleRequested.
Proof.
  apply (Safe_result (Endless:=True) _ _ (DispatchInv (SampleSetting None True))); [|apply SampleStart_inv].
  eapply Safe_mono; [apply (CoreSchedule_safe (SampleSetting None True) (Laws:=SampleLaws None True (or_introl I))); apply SampleStart_inv|].
  by intros a st' [H _].
Qed.

Lemma CoreDispatcher_progress_witness : exists Status st' d, CoreDispatcher SampleRequested = Done (Status, st') /\
  mDiscoveredList st' !! 3%nat = Some d /\ IsDependent d = true /\ NotReady (World st') (Expression d).
Proof.
  assert (exists Status st' d, CoreDispatcher SampleRequested = Done (Status, st') /\ gDispatcherRunning st' = false /\
    mDiscoveredList st' !! 3%nat = Some d /\ IsDependent d = true) as (Status & st' & d & E & HR & Hd & HD) by (eexists _, _, _; split_and!; vm_compute; reflexivity).
  exists Status, st', d. split; [exact E|]. split; [exact Hd|]. split; [exact HD|].
  assert (HP : forall Fv_ n (st : DispatchState SampleWorld), exists r, ReadDepexSection Fv_ n st = Done (r, st))
    by (intros Fv_ n st; exists (SampleDepexOf n); reflexivity).
  apply (CoreDispatcher_progress HP (fun st => eq_refl) (SampleSetting None True) (SampleLaws None True (or_introl I)) SampleRequested Status st' SampleRequested_inv) with (i := 3%nat); [vm_compute; reflexivity|exact E|exact HR|exact Hd|exact HD].
Defined.

Lemma CoreDispatcher_event_failure_witness :
  CoreDispatcher (Initial (MkSample [] [] EFI_OUT_OF_RESOURCES)) = Done (EFI_OUT_OF_RESOURCES, SetRunning true (Initial (MkSample [] [] EFI_OUT_OF_RESOURCES))) /\
  DispatcherBlocked (SetRunning true (Initial (MkSample [] [] EFI_OUT_OF_RESOURCES))).
Proof. apply CoreDispatcher_event_failure; reflexivity. Defined.

(** ** Outside the conditions *)

(** Two drivers of one file name that both ask to run before that name: the
    insertion of a third one of this name does not end. *)
Definition TwinDriver (b : bool) : DRIVER :=
  MkDriver 7 (SampleName 7 1) 1 7 (MkDriverEntry None true false b false (SampleName 7 1)) false false false false 0 false.
Definition TwinState : DispatchState SampleWorld :=
  MkDispatch [TwinDriver false; TwinDriver true; TwinDriver true] [] [] false false (MkStack [] 0) None SampleWorld0.

Lemma bind_endless {A B} (m : DM SampleWorld A) (f : A -> DM SampleWorld B) st : m st = OutOfFuel -> (m ≫= f) st = OutOfFuel.
Proof. unfold mbind, SM_bind. by intros ->. Qed.

Lemma ForDrivers_skip fuel i (body : nat -> DM SampleWorld unit) st : (i < length (mDiscoveredList st))%nat -> body i st = Done (tt, st) ->
  ForDrivers (S fuel) i body st = ForDrivers fuel (S i) body st.
Proof.
  intros Hi HB. cbn [ForDrivers]. etrans; [by apply SM_bind_run|]. rewrite bool_decide_eq_true_2 by done.
  exact (SM_bind_run (body i) (fun _ => ForDrivers fuel (S i) body) st tt st HB).
Qed.

Lemma ForDrivers_endless fuel i (body : nat -> DM SampleWorld unit) st : (i < length (mDiscoveredList st))%nat -> body i st = OutOfFuel ->
  ForDrivers (S fuel) i body st = OutOfFuel.
Proof.
  intros Hi HB. cbn [ForDrivers]. etrans; [by apply SM_bind_run|]. rewrite bool_decide_eq_true_2 by done. by apply bind_endless.
Qed.

Lemma Twin_step (Insert : nat -> DM SampleWorld unit) i : (forall j, (j < 3)%nat -> Insert j TwinState = OutOfFuel) -> (i < 3)%nat ->
  ProcessDependents Insert Before i TwinState = OutOfFuel.
Proof.
  intros H Hi. pose proof (H 1%nat ltac:(lia)) as H1. pose proof (H 2%nat ltac:(lia)) as H2. vm_compute in H1, H2. unfold ProcessDependents.
  destruct i as [|[|[|i]]]; [| | |lia]; (etrans; [apply ForDrivers_skip; [vm_compute; lia|vm_compute; reflexivity]|]).
  - apply ForDrivers_endless; [vm_compute; lia|vm_compute; exact H1].
  - etrans; [apply ForDrivers_skip; [vm_compute; lia|vm_compute; reflexivity]|]. apply ForDrivers_endless; [vm_compute; lia|vm_compute; exact H2].
  - apply ForDrivers_endless; [vm_compute; lia|vm_compute; exact H1].
Qed.

Lemma insertion_endless fuel : forall i, (i < 3)%nat -> CoreInsertOnScheduledQueueWhileProcessingBeforeAndAfter fuel i TwinState = OutOfFuel.
Proof.
  induction fuel as [|fuel IH]; intros i Hi; cbn [CoreInsertOnScheduledQueueWhileProcessingBeforeAndAfter]; [done|].
  unfold mbind, SM_bind. by rewrite (Twin_step _ i IH Hi).
Qed.

(** A name that is twice in the a priori file breaks the queue. *)
Lemma apriori_twice : AprioriLoop [SampleName 7 1; SampleName 7 1] 7 SampleStart = Asserted.
Proof. vm_compute. reflexivity. Qed.

(** An a priori driver whose expression begins with SOR can be requested after it
    has been started, and is started again. *)
Definition SorState : DispatchState SampleWorld :=
  MkDispatch [MkDriver 7 (SampleName 7 1) 1 7 (MkDriverEntry (Some [EFI_DEP_SOR; EFI_DEP_TRUE; EFI_DEP_END]) false true false false ZeroGuid)
    false false false false 0 false] [] [MkKnown 7 ZeroGuid] false false (MkStack [] 0) None SampleWorld0.

Lemma apriori_sor_twice : exists st', (AprioriLoop [SampleName 7 1] 7 ;; RunServices [DispatchCall; ScheduleCall 7 (SampleName 7 1); DispatchCall]) SorState = Done (tt, st') /\
  Started (World st') = [2; 2].
Proof. eexists. split; vm_compute; reflexivity. Qed.

(** A driver that is trusted when the event at the end of a round is signalled stays
    in the queue when the dispatcher returns. *)
Definition SignalEnvironment : DispatchEnvironment SampleWorld :=
  match SampleEnvironment with
  | MkDispatchEnvironment _ a b c d e f g _ i j k l m n o p q r s t u v w x y z => MkDispatchEnvironment _ a b c d e f g (RunService (TrustCall 7 (SampleName 7 2))) i j k l m n o p q r s t u v w x y z
  end.

Definition TrustState : DispatchState SampleWorld :=
  MkDispatch [MkDriver 7 (SampleName 7 1) 1 7 (MkDriverEntry None false false false false ZeroGuid) true false false false 0 false;
    MkDriver 7 (SampleName 7 2) 2 7 (MkDriverEntry None false false false false ZeroGuid) false true false false 9 false]
    [0%nat] [MkKnown 7 ZeroGuid] false false (MkStack [] 0) None SampleWorld0.

Lemma dispatcher_leaves_queue : exists st', CoreDispatcher (Env:=SignalEnvironment) TrustState = Done (EFI_SUCCESS, st') /\ mScheduledQueue st' = [1%nat].
Proof. eexists. split; vm_compute; reflexivity. Qed.
