(* ===== verification/FvImage.v ===== *)
(** * Firmware volumes in files

    [GetFvUsedSize] and [CoreProcessFvImageFile] of
    [src/MdeModulePkg/Core/Dxe/Dispatcher/Dispatcher.c]: the firmware volumes that
    are sections of a file are moved to an address with the alignment that their
    header asks for, and get a firmware volume block protocol.

    Memory is a function from addresses to bytes.  The state also has the pool
    buffers and aligned pages that are allocated and the volumes with a protocol,
    each with its contents at that time; a pool buffer is an address with a size.
    The firmware volume protocol, the security protocol and the allocators are
    functions of the class [FvImageEnvironment].  A write behind the end of a buffer
    is a stop.  [EFI_STATUS] has no warnings, so that the test for EFI_SUCCESS after
    the security check is [EFI_ERROR] here. *)
From Stdlib Require Import ZArith Lia.
From stdpp Require Import base option list.
From S2P Require Import Prelude StateMonad Depex Gcd MemoryBin.

(** ** Headers *)

Definition EFI_FVB2_ERASE_POLARITY : Z := 0x800.
Definition EFI_FVB2_ALIGNMENT : Z := 0x1F0000.
Definition EFI_FVB2_WEAK_ALIGNMENT : Z := 0x80000000.
Definition EFI_FV_EXT_TYPE_USED_SIZE_TYPE : Z := 0x03.

(** Offsets in EFI_FIRMWARE_VOLUME_HEADER, EFI_FIRMWARE_VOLUME_EXT_HEADER and
    EFI_FIRMWARE_VOLUME_EXT_ENTRY(_USED_SIZE_TYPE). *)
Definition OFFSET_Attributes : Z := 44.
Definition OFFSET_ExtHeaderOffset : Z := 52.
Definition OFFSET_ExtHeaderSize : Z := 16.
Definition sizeof_EXT_HEADER : Z := 20.
Definition OFFSET_ExtEntryType : Z := 2.
Definition OFFSET_UsedSize : Z := 4.

Definition ReadUnaligned16 (M : Z -> Z) (a : Z) : Z := M a + 0x100 * M (a + 1).
Definition ReadUnaligned32 (M : Z -> Z) (a : Z) : Z := ReadUnaligned16 M a + 0x10000 * ReadUnaligned16 M (a + 2).

(** The loop over the entries of the extension header: the entry of type USED_SIZE. *)
Fixpoint ExtEntryLoop (fuel : nat) (M : Z -> Z) (End Entry : Z) : Outcome (option Z) :=
  if Entry <? End then
    match fuel with
    | O => OutOfFuel
    | S fuel =>
      if ReadUnaligned16 M (Entry + OFFSET_ExtEntryType) =? EFI_FV_EXT_TYPE_USED_SIZE_TYPE then Done (Some Entry)
      else ExtEntryLoop fuel M End (add64 Entry (ReadUnaligned16 M Entry))
    end
  else Done None.

(** FvUsedSize and EraseByte, if there is the entry. *)
Definition GetFvUsedSize (fuel : nat) (M : Z -> Z) (FvHeader : Z) : Outcome (option (Z * Z)) :=
  let ExtHeaderOffset := ReadUnaligned16 M (FvHeader + OFFSET_ExtHeaderOffset) in
  if negb (ExtHeaderOffset =? 0) then
    let ExtHeader := FvHeader + ExtHeaderOffset in
    Entry ← ExtEntryLoop fuel M (add64 ExtHeader (ReadUnaligned32 M (ExtHeader + OFFSET_ExtHeaderSize))) (ExtHeader + sizeof_EXT_HEADER);
    match Entry with
    | Some e => Done (Some (ReadUnaligned32 M (e + OFFSET_UsedSize),
        if negb (Z.land (ReadUnaligned32 M (FvHeader + OFFSET_Attributes)) EFI_FVB2_ERASE_POLARITY =? 0) then 0xFF else 0))
    | None => Done None
    end
  else Done None.

(** ** State *)

Record VOLUME := MkVolume {
  Address : Z;
  Contents : list Z;
  ParentHandle : Z;
  AuthenticationStatus : Z }.

Section State.
Context {W : Type}.

Record ImageState := MkImage {
  Bytes : Z -> Z;
  PoolBuffers : list (Z * Z);
  AlignedPages : list Z;
  Volumes : list VOLUME;
  ImageWorld : W }.

Definition SetBytes v st := MkImage v (PoolBuffers st) (AlignedPages st) (Volumes st) (ImageWorld st).
Definition SetPoolBuffers v st := MkImage (Bytes st) v (AlignedPages st) (Volumes st) (ImageWorld st).
Definition SetAlignedPages v st := MkImage (Bytes st) (PoolBuffers st) v (Volumes st) (ImageWorld st).
Definition SetVolumes v st := MkImage (Bytes st) (PoolBuffers st) (AlignedPages st) v (ImageWorld st).
Definition SetImageWorld v st := MkImage (Bytes st) (PoolBuffers st) (AlignedPages st) (Volumes st) v.
End State.
Arguments ImageState : clear implicits.

Definition IM (W : Type) : Type -> Type := SM (ImageState W).

Class FvImageEnvironment (W : Type) := {
  (** A section: the status, the pool buffer (0 after an error), its bytes and AuthenticationStatus. *)
  ReadImageSection : Z -> GUID -> Z -> ImageState W -> EFI_STATUS * (Z * list Z * Z) * W;
  (** gSecurity->FileAuthenticationState, unless gSecurity is NULL. *)
  gSecurity : option (Z -> Z -> W -> EFI_STATUS * W);
  (** CoreFvToDevicePath, 0 for NULL. *)
  ImageDevicePath : Z -> GUID -> W -> Z;
  (** AllocateAlignedPages, 0 for NULL. *)
  AllocateAlignedPages : Z -> Z -> ImageState W -> Z * W;
  ProduceFVBProtocolOnBuffer : Z -> Z -> W -> EFI_STATUS * W;
  EntryFuel : nat }.

Section FvImage.
Context {W : Type} {Env : FvImageEnvironment W}.

Definition InWorld {A} (f : W -> A * W) : IM W A := fun st => let '(a, w) := f (ImageWorld st) in Done (a, SetImageWorld w st).

Definition BytesAt (M : Z -> Z) (a n : Z) : list Z := (fun k => M (a + Z.of_nat k)) <$> seq 0 (Z.to_nat n).
Definition WriteBytes (a : Z) (l : list Z) (M : Z -> Z) (x : Z) : Z :=
  if (a <=? x) && (x <? a + Z.of_nat (length l)) then nth (Z.to_nat (x - a)) l 0 else M x.

Definition FreePool (a : Z) : IM W unit := Change (fun st => SetPoolBuffers (filter (fun b => b.1 <> a) (PoolBuffers st)) st).
(** FreeAlignedPages. *)
Definition FreeAlignedBuffer (a : Z) : IM W unit := Change (fun st => SetAlignedPages (filter (fun b => b <> a) (AlignedPages st)) st).
Definition CopyMem (Destination Source Length : Z) : IM W unit :=
  Change (fun st => SetBytes (WriteBytes Destination (BytesAt (Bytes st) Source Length) (Bytes st)) st).
Definition SetMem (Buffer Length Value : Z) : IM W unit :=
  Change (fun st => SetBytes (WriteBytes Buffer (replicate (Z.to_nat Length) Value) (Bytes st)) st).

(** Fv->ReadSection: Status, Buffer, BufferSize and AuthenticationStatus. *)
Definition ReadSection (Fv_ : Z) (Name : GUID) (Index : Z) : IM W (EFI_STATUS * (Z * Z * Z)) := fun st =>
  let '(Status, (Buffer, Data, Auth), w) := ReadImageSection Fv_ Name Index st in
  let st1 := SetImageWorld w st in
  Done ((Status, (Buffer, Z.of_nat (length Data), Auth)),
    if EFI_ERROR Status then st1 else SetBytes (WriteBytes Buffer Data (Bytes st)) (SetPoolBuffers (PoolBuffers st ++ [(Buffer, Z.of_nat (length Data))]) st1)).

(** ** The file *)

(** The Security Architectural Protocol, if there is one. *)
Definition CheckSecurity (FvHandle_ : Z) (Name : GUID) (Auth : Z) : IM W EFI_STATUS :=
  match gSecurity with
  | Some Check_ =>
    w ← Get ImageWorld;
    let FvFileDevicePath := ImageDevicePath FvHandle_ Name w in
    if FvFileDevicePath =? 0 then mret EFI_OUT_OF_RESOURCES else InWorld (Check_ Auth FvFileDevicePath)
  | None => mret EFI_SUCCESS
  end.

Definition FvAlignmentOf (Attributes : Z) : Z := Z.max 8 (Z.shiftl 1 (Z.shiftr (Z.land Attributes EFI_FVB2_ALIGNMENT) 16)).

(** Moves the volume into the aligned buffer. *)
Definition MoveImage (Buffer BufferSize AlignedBuffer : Z) : IM W unit :=
  Used ← (fun st => match GetFvUsedSize EntryFuel (Bytes st) Buffer with Done r => Done (r, st) | Asserted => Asserted | OutOfFuel => OutOfFuel end);
  (match Used with
   | Some (FvUsedSize, EraseByte) =>
     Assert (FvUsedSize <=? BufferSize) ;;
     CopyMem AlignedBuffer Buffer FvUsedSize ;;
     SetMem (AlignedBuffer + FvUsedSize) (BufferSize - FvUsedSize) EraseByte
   | None => CopyMem AlignedBuffer Buffer BufferSize
   end) ;;
  FreePool Buffer.

(** FvHeader, and Buffer and AlignedBuffer afterwards; [None] if there is no memory. *)
Definition AlignImage (Buffer BufferSize : Z) : IM W (option (Z * Z * Z)) :=
  Attributes ← Get (fun st => ReadUnaligned32 (Bytes st) (Buffer + OFFSET_Attributes));
  if negb (Z.land Attributes EFI_FVB2_WEAK_ALIGNMENT =? EFI_FVB2_WEAK_ALIGNMENT) then
    let FvAlignment := FvAlignmentOf Attributes in
    if negb (Buffer mod FvAlignment =? 0) then
      AlignedBuffer ← (fun st =>
        let '(a, w) := AllocateAlignedPages (EFI_SIZE_TO_PAGES BufferSize) FvAlignment st in
        Done (a, if a =? 0 then SetImageWorld w st else SetAlignedPages (AlignedPages st ++ [a]) (SetImageWorld w st)));
      if AlignedBuffer =? 0 then FreePool Buffer ;; mret None
      else MoveImage Buffer BufferSize AlignedBuffer ;; mret (Some (AlignedBuffer, 0, AlignedBuffer))
    else mret (Some (Buffer, Buffer, 0))
  else mret (Some (Buffer, Buffer, 0)).

Definition ProduceFvb (FvHandle_ FvHeader BufferSize Auth : Z) : IM W EFI_STATUS :=
  Status ← InWorld (ProduceFVBProtocolOnBuffer FvHeader BufferSize);
  (if EFI_ERROR Status then mret tt
   else Change (fun st => SetVolumes (Volumes st ++ [MkVolume FvHeader (BytesAt (Bytes st) FvHeader BufferSize) FvHandle_ Auth]) st)) ;;
  mret Status.

(** One section: the Status with which the loop goes on or ends. *)
Definition ProcessSection (Fv_ FvHandle_ : Z) (Name : GUID) (Index : Z) : IM W EFI_STATUS :=
  '(Status, (Buffer, BufferSize, Auth)) ← ReadSection Fv_ Name Index;
  if EFI_ERROR Status then
    (if Buffer =? 0 then mret tt else FreePool Buffer) ;;
    mret Status
  else
    Status ← CheckSecurity FvHandle_ Name Auth;
    if EFI_ERROR Status then
      (if Buffer =? 0 then mret tt else FreePool Buffer) ;;
      mret Status
    else
    Aligned ← AlignImage Buffer BufferSize;
    match Aligned with
    | None => mret EFI_OUT_OF_RESOURCES
    | Some (FvHeader, Buffer, AlignedBuffer) =>
      Status ← ProduceFvb FvHandle_ FvHeader BufferSize Auth;
      (if EFI_ERROR Status then
         (if Buffer =? 0 then mret tt else FreePool Buffer) ;;
         (if AlignedBuffer =? 0 then mret tt else FreeAlignedBuffer AlignedBuffer)
       else mret tt) ;;
      mret Status
    end.

Fixpoint SectionsLoop (fuel : nat) (Fv_ FvHandle_ : Z) (Name : GUID) (Index : Z) : IM W EFI_STATUS :=
  match fuel with
  | O => NoFuel
  | S fuel =>
    Status ← ProcessSection Fv_ FvHandle_ Name Index;
    if EFI_ERROR Status then mret (if 0 <? Index then EFI_SUCCESS else Status)
    else SectionsLoop fuel Fv_ FvHandle_ Name (Index + 1)
  end.

Definition CoreProcessFvImageFile (fuel : nat) (Fv_ FvHandle_ : Z) (Name : GUID) : IM W EFI_STATUS := SectionsLoop fuel Fv_ FvHandle_ Name 0.
End FvImage.

(** ** The extension header *)

(** The entries from an address to the end of the extension header. *)
Inductive ExtEntries (M : Z -> Z) (End : Z) : Z -> list Z -> Prop :=
| EntriesEnd e : End <= e -> ExtEntries M End e []
| EntriesNext e l : e < End -> 4 <= ReadUnaligned16 M e -> 0 <= e -> e + ReadUnaligned16 M e < 2 ^ 64 ->
    ExtEntries M End (e + ReadUnaligned16 M e) l -> ExtEntries M End e (e :: l).

Definition IsUsedSize (M : Z -> Z) (e : Z) : bool := ReadUnaligned16 M (e + OFFSET_ExtEntryType) =? EFI_FV_EXT_TYPE_USED_SIZE_TYPE.

(** In a well-formed extension header the loop ends and finds the first entry of
    the type. *)
Theorem ExtEntryLoop_finds M End e l fuel : ExtEntries M End e l -> (length l <= fuel)%nat ->
  ExtEntryLoop fuel M End e = Done (List.find (IsUsedSize M) l).
Proof.
  intros H. revert fuel. induction H as [e He|e l He Hs H0 Hw _ IH]; intros fuel Hf.
  - destruct fuel; simpl; by rewrite (proj2 (Z.ltb_ge _ _)).
  - destruct fuel as [|fuel]; [simpl in Hf; lia|]. cbn [ExtEntryLoop List.find]. rewrite (proj2 (Z.ltb_lt _ _)) by done.
    unfold IsUsedSize at 1. destruct (_ =? EFI_FV_EXT_TYPE_USED_SIZE_TYPE); [done|].
    unfold add64, u64. rewrite Z.mod_small by lia. apply IH. simpl in Hf. lia.
Qed.

(** An entry of size 0 of another type keeps the loop going for ever. *)
Theorem ExtEntryLoop_endless M End e fuel : 0 <= e < 2 ^ 64 -> e < End -> IsUsedSize M e = false -> ReadUnaligned16 M e = 0 ->
  ExtEntryLoop fuel M End e = OutOfFuel.
Proof.
  intros H0 He HU HS. induction fuel as [|fuel IH]; cbn [ExtEntryLoop]; rewrite (proj2 (Z.ltb_lt _ _)) by done; [done|].
  unfold IsUsedSize in HU. rewrite HU, HS. unfold add64, u64. rewrite Z.add_0_r, Z.mod_small by lia. exact IH.
Qed.

(** ** Memory *)

Lemma BytesAt_lookup M a n k : 0 <= n -> (k < Z.to_nat n)%nat -> BytesAt M a n !! k = Some (M (a + Z.of_nat k)).
Proof. intros Hn Hk. unfold BytesAt. by rewrite list_lookup_fmap, lookup_seq_lt. Qed.

Lemma BytesAt_length M a n : length (BytesAt M a n) = Z.to_nat n.
Proof. unfold BytesAt. by rewrite length_fmap, length_seq. Qed.

Lemma WriteBytes_in a l M k x : l !! k = Some x -> WriteBytes a l M (a + Z.of_nat k) = x.
Proof.
  intros H. pose proof (lookup_lt_Some _ _ _ H). unfold WriteBytes. rewrite (proj2 (Z.leb_le _ _)), (proj2 (Z.ltb_lt _ _)) by lia. simpl.
  replace (Z.to_nat (a + Z.of_nat k - a)) with k by lia. by apply nth_lookup_Some.
Qed.

Lemma WriteBytes_out a l M x : x < a \/ a + Z.of_nat (length l) <= x -> WriteBytes a l M x = M x.
Proof.
  intros H. unfold WriteBytes. destruct (Z.leb_spec a x), (Z.ltb_spec x (a + Z.of_nat (length l))); simpl; try done. lia.
Qed.

Lemma BytesAt_write a l M : BytesAt (WriteBytes a l M) a (Z.of_nat (length l)) = l.
Proof.
  apply list_eq. intros k. destruct (l !! k) as [x|] eqn:E.
  - pose proof (lookup_lt_Some _ _ _ E). rewrite BytesAt_lookup by lia. by rewrite (WriteBytes_in a l M k x E).
  - apply lookup_ge_None in E. apply lookup_ge_None. rewrite BytesAt_length. lia.
Qed.

Lemma BytesAt_ext M M' a b n : (forall k, 0 <= k < n -> M (a + k) = M' (b + k)) -> BytesAt M a n = BytesAt M' b n.
Proof. intros H. unfold BytesAt. apply list_fmap_ext. intros i k Hk. apply lookup_seq in Hk as [-> Hk]. apply H. lia. Qed.

(** The used part of a volume, and erased bytes after it. *)
Lemma move_used M Buffer Size Aligned Used Erase : 0 <= Used <= Size -> (Aligned + Size <= Buffer \/ Buffer + Size <= Aligned) ->
  (forall k, Used <= k < Size -> M (Buffer + k) = Erase) ->
  let M1 := WriteBytes Aligned (BytesAt M Buffer Used) M in
  BytesAt (WriteBytes (Aligned + Used) (replicate (Z.to_nat (Size - Used)) Erase) M1) Aligned Size = BytesAt M Buffer Size.
Proof.
  intros HU HD HE M1. apply BytesAt_ext. intros k Hk. destruct (Z.lt_ge_cases k Used) as [Hl|Hg].
  - rewrite WriteBytes_out by lia. unfold M1. replace k with (Z.of_nat (Z.to_nat k)) by lia.
    apply WriteBytes_in. by rewrite BytesAt_lookup by lia.
  - replace (Aligned + k) with (Aligned + Used + Z.of_nat (Z.to_nat (k - Used))) by lia.
    rewrite (WriteBytes_in _ _ _ _ Erase); [rewrite HE by lia; done|]. apply lookup_replicate. split; [done|lia].
Qed.

Lemma move_all M Buffer Size Aligned : 0 <= Size ->
  BytesAt (WriteBytes Aligned (BytesAt M Buffer Size) M) Aligned Size = BytesAt M Buffer Size.
Proof.
  intros HS. pose proof (BytesAt_write Aligned (BytesAt M Buffer Size) M) as H. by rewrite BytesAt_length, Z2Nat.id in H.
Qed.

(** ** Volumes *)

Section Volumes.
Context {W : Type} {Env : FvImageEnvironment W}.

(** ** Well-formed volumes *)

(** The bytes of a section as memory from address 0 on. *)
Definition ImageOf (Data : list Z) (x : Z) : Z := nth (Z.to_nat x) Data 0.

(** The entries of the extension header lie in the section: [l] are their offsets. *)
Inductive EntriesIn (Data : list Z) (End : Z) : Z -> list Z -> Prop :=
| EntriesInEnd e : End <= e -> EntriesIn Data End e []
| EntriesInNext e l : 0 <= e -> e + 4 <= Z.of_nat (length Data) -> e < End -> 4 <= ReadUnaligned16 (ImageOf Data) e ->
    e + ReadUnaligned16 (ImageOf Data) e <= Z.of_nat (length Data) ->
    EntriesIn Data End (e + ReadUnaligned16 (ImageOf Data) e) l -> EntriesIn Data End e (e :: l).

(** The byte with which the rest of a volume is filled. *)
Definition EraseByteOf (Data : list Z) : Z :=
  if negb (Z.land (ReadUnaligned32 (ImageOf Data) OFFSET_Attributes) EFI_FVB2_ERASE_POLARITY =? 0) then 0xFF else 0.

(** A section with a whole header whose extension header, if it has one, lies in the
    section; the entries have a size of at least 4 bytes, there are not more of them
    than the fuel, and the first entry of type USED_SIZE, if there is one, gives a size
    that is not larger than the section and behind which the section is erased. *)
Definition WellFormedVolume (Data : list Z) : Prop :=
  let Offset := ReadUnaligned16 (ImageOf Data) OFFSET_ExtHeaderOffset in
  let End := Offset + ReadUnaligned32 (ImageOf Data) (Offset + OFFSET_ExtHeaderSize) in
  56 <= Z.of_nat (length Data) /\
  (Offset = 0 \/
   0 < Offset /\ Offset + sizeof_EXT_HEADER <= End <= Z.of_nat (length Data) /\
   exists l, EntriesIn Data End (Offset + sizeof_EXT_HEADER) l /\ (length l <= EntryFuel)%nat /\
     match List.find (IsUsedSize (ImageOf Data)) l with
     | Some e => e + 8 <= Z.of_nat (length Data) /\
         let Used := ReadUnaligned32 (ImageOf Data) (e + OFFSET_UsedSize) in
         0 <= Used <= Z.of_nat (length Data) /\
         forall k, Used <= k < Z.of_nat (length Data) -> ImageOf Data k = EraseByteOf Data
     | None => True
     end).

(** What the code reads in the buffer: the extension header can be read, and what it
    says about the used bytes is true. *)
Definition Truthful (M : Z -> Z) (Buffer Size : Z) : Prop := exists r, GetFvUsedSize EntryFuel M Buffer = Done r /\
  match r with Some (Used, Erase) => 0 <= Used <= Size /\ forall k, Used <= k < Size -> M (Buffer + k) = Erase | None => True end.

(** An address as the header of a volume asks for. *)
Definition AlignedFor (Attributes Address_ : Z) : Prop :=
  Z.land Attributes EFI_FVB2_WEAK_ALIGNMENT = EFI_FVB2_WEAK_ALIGNMENT \/ Address_ mod FvAlignmentOf Attributes = 0.

Definition AttributesOf (Contents_ : list Z) : Z := ReadUnaligned32 (fun x => nth (Z.to_nat x) Contents_ 0) OFFSET_Attributes.

(** What is expected of Fv->ReadSection and of the allocator: a section is in a new
    pool buffer, there is none after an error, and aligned pages are aligned, new and
    apart from the pool buffers. *)
Class FvImageLaws : Prop := {
  read_section Fv_ n k st Status Buffer Data Auth w : ReadImageSection Fv_ n k st = (Status, (Buffer, Data, Auth), w) ->
    if EFI_ERROR Status then Buffer = 0
    else 0 < Buffer /\ Buffer + Z.of_nat (length Data) < 2 ^ 64 /\ (forall s, (Buffer, s) ∉ PoolBuffers st);
  allocate_aligned n Alignment st a w : AllocateAlignedPages n Alignment st = (a, w) -> a <> 0 ->
    a mod Alignment = 0 /\ a ∉ AlignedPages st /\ forall b s, (b, s) ∈ PoolBuffers st -> a + 4096 * n <= b \/ b + s <= a }.

Context {Laws : FvImageLaws}.

Lemma entries_pos Data End e l x : EntriesIn Data End e l -> x ∈ l -> 0 <= x.
Proof. induction 1 as [|e l H0 _ _ _ _ _ IH]; [by intros ?%not_elem_of_nil|]. intros [->|Hin]%elem_of_cons; [done|by apply IH]. Qed.

(** A section in its buffer. *)
Section InBuffer.
Context (M : Z -> Z) (b : Z) (Data : list Z).
Abbreviation Size := (Z.of_nat (length Data)).
Hypothesis Position : 0 < b /\ b + Size < 2 ^ 64.
Hypothesis InMemory : BytesAt M b Size = Data.

Lemma in_byte k : 0 <= k < Size -> M (b + k) = ImageOf Data k.
Proof using InMemory. intros Hk. unfold ImageOf. symmetry. apply nth_lookup_Some. rewrite <- InMemory at 1. rewrite BytesAt_lookup by lia. do 2 f_equal. lia. Qed.

Lemma in_read16 k : 0 <= k -> k + 2 <= Size -> ReadUnaligned16 M (b + k) = ReadUnaligned16 (ImageOf Data) k.
Proof using InMemory. intros H0 Hk. unfold ReadUnaligned16. by rewrite <- Z.add_assoc, !in_byte by lia. Qed.

Lemma in_read32 k : 0 <= k -> k + 4 <= Size -> ReadUnaligned32 M (b + k) = ReadUnaligned32 (ImageOf Data) k.
Proof using InMemory. intros H0 Hk. unfold ReadUnaligned32. by rewrite <- Z.add_assoc, !in_read16 by lia. Qed.

Lemma in_entries End e l : EntriesIn Data End e l -> End <= Size ->
  ExtEntries M (b + End) (b + e) ((fun x => b + x) <$> l) /\
  List.find (IsUsedSize M) ((fun x => b + x) <$> l) = (fun x => b + x) <$> List.find (IsUsedSize (ImageOf Data)) l.
Proof using Position InMemory.
  intros H HE. induction H as [e He|e l H0 H4 He Hs Hl _ [IH1 IH2]]; [split; [constructor; lia|done]|].
  rewrite fmap_cons. cbn [List.find]. split.
  - constructor; [lia|by rewrite in_read16 by lia|lia|rewrite in_read16 by lia; lia|].
    rewrite in_read16 by lia. by rewrite <- Z.add_assoc.
  - assert (IsUsedSize M (b + e) = IsUsedSize (ImageOf Data) e) as ->.
    { unfold IsUsedSize, OFFSET_ExtEntryType. by rewrite <- Z.add_assoc, in_read16 by lia. }
    by destruct (IsUsedSize (ImageOf Data) e).
Qed.

(** In a well-formed volume the search for the used size ends, and what it finds is
    true. *)
Lemma well_formed_truthful : WellFormedVolume Data -> Truthful M b Size.
Proof using Position InMemory.
  unfold WellFormedVolume. intros (H56 & H). unfold Truthful, GetFvUsedSize.
  rewrite in_read16 by (unfold OFFSET_ExtHeaderOffset; lia).
  set (Offset := ReadUnaligned16 (ImageOf Data) OFFSET_ExtHeaderOffset) in *. destruct H as [->|(H0 & HE & l & HL & HF & HU)]; [by exists None|].
  rewrite (proj2 (Z.eqb_neq Offset 0)) by lia. cbn [negb]. unfold sizeof_EXT_HEADER, OFFSET_ExtHeaderSize in *.
  rewrite <- !Z.add_assoc, (in_read32 (Offset + 16)) by lia. set (Length := ReadUnaligned32 (ImageOf Data) (Offset + 16)) in *.
  assert (add64 (b + Offset) Length = b + (Offset + Length)) as -> by (unfold add64, u64; rewrite Z.mod_small; lia).
  destruct (in_entries _ _ _ HL) as [HX HFind]; [lia|].
  rewrite (ExtEntryLoop_finds M _ _ _ EntryFuel HX) by (by rewrite length_fmap). rewrite HFind. cbn [mbind Outcome_bind].
  destruct (List.find (IsUsedSize (ImageOf Data)) l) as [e|] eqn:EF; [|by exists None]. destruct HU as (H8 & HU & HErase).
  assert (He : 0 <= e) by (apply List.find_some in EF as [Hin _]; by apply (entries_pos _ _ _ _ _ HL), list_elem_of_In).
  eexists. split; [reflexivity|]. cbn [fmap option_fmap option_map]. unfold OFFSET_UsedSize, OFFSET_Attributes in *. rewrite <- Z.add_assoc, !in_read32 by lia.
  split; [exact HU|]. intros k Hk. rewrite in_byte by lia. by apply HErase.
Qed.
End InBuffer.

Lemma pages_cover Size : 0 <= Size -> Size <= 4096 * EFI_SIZE_TO_PAGES Size.
Proof.
  intros H. unfold EFI_SIZE_TO_PAGES, HasFlag. rewrite Z.shiftr_div_pow2 by done. change (2 ^ EFI_PAGE_SHIFT) with 4096.
  replace (Z.land Size EFI_PAGE_MASK) with (Size mod 4096) by (symmetry; apply (Z.land_ones Size 12); lia).
  pose proof (Z.div_mod Size 4096). pose proof (Z.mod_pos_bound Size 4096). destruct (Z.eqb_spec (Size mod 4096) 0); simpl; lia.
Qed.

Lemma filter_keeps {A} (P : A -> Prop) `{!forall x, Decision (P x)} l : Forall P l -> filter P l = l.
Proof. induction 1 as [|x l Hx _ IH]; [done|]. by rewrite filter_cons_True, IH. Qed.

Lemma free_last (P : list (Z * Z)) b s : (forall t, (b, t) ∉ P) -> filter (fun x => x.1 <> b) (P ++ [(b, s)]) = P.
Proof.
  intros H. rewrite filter_app, filter_cons_False by (simpl; tauto). rewrite app_nil_r. apply filter_keeps.
  apply Forall_forall. intros [c t] Hin Hc. simpl in Hc. subst. by apply (H t).
Qed.

Lemma free_page_last (P : list Z) a : a ∉ P -> filter (fun x => x <> a) (P ++ [a]) = P.
Proof.
  intros H. rewrite filter_app, filter_cons_False by tauto. rewrite app_nil_r. apply filter_keeps. apply Forall_forall. by intros x Hin ->.
Qed.

(** What a program that only touches the outside world leaves alone. *)
Definition Resources (st : ImageState W) : list (Z * Z) * list Z * list VOLUME := (PoolBuffers st, AlignedPages st, Volumes st).

Lemma CheckSecurity_returns h n Auth st : Returns (CheckSecurity h n Auth) st (fun _ st' => exists w, st' = SetImageWorld w st).
Proof.
  unfold CheckSecurity. assert (HW : exists w, st = SetImageWorld w st) by (exists (ImageWorld st); by destruct st).
  destruct gSecurity as [Check_|]; [|by apply Returns_ret]. eapply Returns_step; [done|].
  destruct (_ =? 0); [by apply Returns_ret|]. unfold Returns, InWorld. destruct (Check_ _ _ _) as [r w]. by exists r, (SetImageWorld w st); split; [|exists w].
Qed.

Lemma MoveImage_returns Buffer Size Aligned st : 0 <= Size -> Truthful (Bytes st) Buffer Size -> (Aligned + Size <= Buffer \/ Buffer + Size <= Aligned) ->
  Returns (MoveImage Buffer Size Aligned) st (fun _ st' => BytesAt (Bytes st') Aligned Size = BytesAt (Bytes st) Buffer Size /\
    Resources st' = (filter (fun b => b.1 <> Buffer) (PoolBuffers st), AlignedPages st, Volumes st)).
Proof.
  intros HS (r & Hr & HT) HD. unfold MoveImage. eapply (Returns_step _ _ _ r st); [by rewrite Hr|]. destruct r as [[Used Erase]|].
  - destruct HT as [HU HE].
    eapply (Returns_bind _ _ _ (fun _ st' => BytesAt (Bytes st') Aligned Size = BytesAt (Bytes st) Buffer Size /\ Resources st' = Resources st)).
    + eapply Returns_step; [unfold Assert; by rewrite (proj2 (Z.leb_le _ _)) by lia|]. eapply Returns_step; [done|].
      eexists tt, _. split; [done|]. split; [by apply (move_used (Bytes st) Buffer Size Aligned Used Erase)|done].
    + intros [] st1 [HB [= H1 H2 H3]]. eexists tt, _. split; [done|]. split; [done|]. unfold Resources. simpl. by rewrite H1, H2, H3.
  - eapply Returns_step; [done|]. eexists tt, _. split; [done|]. split; [|done]. simpl. by apply move_all.
Qed.

(** The volume in its buffer [b], or moved to aligned pages. *)
Definition AlignedImage (P : list (Z * Z)) (b Size : Z) (st : ImageState W) (r : option (Z * Z * Z)) (st' : ImageState W) : Prop :=
  match r with
  | None => Resources st' = (P, AlignedPages st, Volumes st)
  | Some (F, b', a) =>
    BytesAt (Bytes st') F Size = BytesAt (Bytes st) b Size /\ AlignedFor (ReadUnaligned32 (Bytes st) (b + OFFSET_Attributes)) F /\
    ((F = b /\ b' = b /\ a = 0 /\ Resources st' = Resources st) \/
     (F = a /\ b' = 0 /\ a <> 0 /\ a ∉ AlignedPages st /\ Resources st' = (P, AlignedPages st ++ [a], Volumes st)))
  end.

Lemma AlignImage_returns P b Size st : 0 <= Size -> Truthful (Bytes st) b Size -> PoolBuffers st = P ++ [(b, Size)] -> (forall s, (b, s) ∉ P) ->
  Returns (AlignImage b Size) st (AlignedImage P b Size st).
Proof.
  intros HS HT HP HN. unfold AlignImage. eapply Returns_step; [done|]. set (A := ReadUnaligned32 (Bytes st) (b + OFFSET_Attributes)).
  destruct (Z.eqb_spec (Z.land A EFI_FVB2_WEAK_ALIGNMENT) EFI_FVB2_WEAK_ALIGNMENT) as [EW|EW]; cbn [negb].
  { apply Returns_ret. split; [done|]. split; [by left|]. by left. }
  destruct (Z.eqb_spec (b mod FvAlignmentOf A) 0) as [EA|EA]; cbn [negb].
  { apply Returns_ret. split; [done|]. split; [by right|]. by left. }
  destruct (AllocateAlignedPages (EFI_SIZE_TO_PAGES Size) (FvAlignmentOf A) st) as [a w] eqn:EP.
  eapply Returns_step; [by rewrite EP|]. destruct (Z.eqb_spec a 0) as [->|Ha].
  - eapply Returns_step; [done|]. apply Returns_ret. unfold AlignedImage, Resources. simpl. by rewrite HP, free_last.
  - destruct (allocate_aligned _ _ _ _ _ EP Ha) as (H1 & H2 & H3).
    destruct (H3 b Size) as [H4|H4]; [rewrite HP; apply elem_of_app; right; by left| |].
    all: pose proof (pages_cover Size HS) as HC.
    all: eapply Returns_bind; [apply (MoveImage_returns b Size a); [done|exact HT|lia]|].
    all: intros [] st2 [HB HR]; apply Returns_ret; split; [exact HB|]; split; [by right|]; right; split_and!; try done.
    all: rewrite HR; simpl; by rewrite HP, free_last.
Qed.

(** ** One section *)

(** A volume of the file: the contents of a section, at an address as it asks for. *)
Definition VolumeOf (Fv_ h : Z) (n : GUID) (v : VOLUME) : Prop := exists k st b w,
  ReadImageSection Fv_ n k st = (EFI_SUCCESS, (b, Contents v, AuthenticationStatus v), w) /\ ParentHandle v = h /\
  AlignedFor (AttributesOf (Contents v)) (Address v).

(** The memory of a volume is allocated, once. *)
Definition Holds (v : VOLUME) (p : list (Z * Z)) (a : list Z) : Prop :=
  (p = [(Address v, Z.of_nat (length (Contents v)))] /\ a = []) \/ (p = [] /\ a = [Address v]).

Lemma attributes_contents M b Data : 48 <= Z.of_nat (length Data) -> BytesAt M b (Z.of_nat (length Data)) = Data ->
  ReadUnaligned32 M (b + OFFSET_Attributes) = AttributesOf Data.
Proof.
  intros HL HB. assert (H : forall k, 0 <= k < 48 -> M (b + k) = nth (Z.to_nat k) Data 0).
  { intros k Hk. symmetry. apply nth_lookup_Some. rewrite <- HB, BytesAt_lookup by lia. do 2 f_equal. lia. }
  unfold AttributesOf, ReadUnaligned32, ReadUnaligned16, OFFSET_Attributes. rewrite <- !Z.add_assoc. by rewrite !H by lia.
Qed.

(** The sections of a file are well-formed volumes. *)
Definition WellFormedFile (Fv_ : Z) (n : GUID) : Prop := forall k st Buffer Data Auth w,
  ReadImageSection Fv_ n k st = (EFI_SUCCESS, (Buffer, Data, Auth), w) -> WellFormedVolume Data.

Lemma ProcessSection_returns Fv_ h n k st : WellFormedFile Fv_ n -> Returns (ProcessSection Fv_ h n k) st (fun Status st' =>
  if EFI_ERROR Status then Resources st' = Resources st
  else exists v p a, VolumeOf Fv_ h n v /\ Holds v p a /\ Resources st' = (PoolBuffers st ++ p, AlignedPages st ++ a, Volumes st ++ [v])).
Proof.
  intros HWF. unfold ProcessSection. destruct (ReadImageSection Fv_ n k st) as [[Status [[b Data] Auth]] w] eqn:ER.
  pose proof (read_section _ _ _ _ _ _ _ _ _ ER) as HL. eapply Returns_step; [unfold ReadSection; by rewrite ER|]. cbv beta iota.
  destruct (EFI_ERROR Status) eqn:ES.
  { subst b. eapply Returns_step; [done|]. apply Returns_ret. by rewrite ES. }
  destruct HL as (Hb0 & Hb1 & HN). assert (Hb : b <> 0) by lia. apply EFI_ERROR_false in ES as ->. pose proof (HWF _ _ _ _ _ _ ER) as HV.
  pose proof (well_formed_truthful (WriteBytes b Data (Bytes st)) b Data (conj Hb0 Hb1) (BytesAt_write b Data (Bytes st)) HV) as HT.
  assert (H48 : 48 <= Z.of_nat (length Data)) by (destruct HV as [? _]; lia). clear HV. set (Size := Z.of_nat (length Data)) in *.
  set (st1 := SetBytes _ _). eapply Returns_bind; [apply CheckSecurity_returns|]. intros Status st2 [w2 ->].
  destruct (EFI_ERROR Status) eqn:ES.
  { rewrite (proj2 (Z.eqb_neq b 0)) by done. eapply Returns_step; [done|]. apply Returns_ret. rewrite ES. unfold Resources. simpl. by rewrite free_last. }
  eapply Returns_bind; [apply (AlignImage_returns (PoolBuffers st) b Size); [lia|exact HT|done|exact HN]|].
  intros [[[F b'] a]|] st3 HA; [|by apply Returns_ret]. destruct HA as (HB & HAl & HC). simpl in HB, HAl.
  assert (HD : BytesAt (Bytes st3) F Size = Data) by (rewrite HB; apply BytesAt_write).
  assert (HAt : AlignedFor (AttributesOf Data) F).
  { rewrite <- (attributes_contents (WriteBytes b Data (Bytes st)) b Data H48); [exact HAl|apply BytesAt_write]. }
  unfold ProduceFvb at 1. destruct (ProduceFVBProtocolOnBuffer F Size (ImageWorld st3)) as [Status3 w3] eqn:EF.
  eapply (Returns_bind _ _ _ (fun r st' => r = Status3 /\ Bytes st' = Bytes st3 /\
    Resources st' = (PoolBuffers st3, AlignedPages st3, if EFI_ERROR Status3 then Volumes st3 else Volumes st3 ++ [MkVolume F Data h Auth]))).
  { eapply Returns_step; [unfold InWorld; by rewrite EF|]. destruct (EFI_ERROR Status3); (eapply Returns_step; [done|]); apply Returns_ret; [done|].
    split_and!; [done|done|]. unfold Resources. simpl. by rewrite HD. }
  intros r st4 (-> & HB4 & [= R1 R2 R3]). destruct (EFI_ERROR Status3) eqn:E3.
  - destruct HC as [(-> & -> & -> & [= C1 C2 C3])|(-> & -> & Ha & Hn & [= C1 C2 C3])].
    + rewrite (proj2 (Z.eqb_neq b 0)) by done. eapply Returns_step; [done|]. apply Returns_ret. rewrite E3. unfold Resources. simpl.
      by rewrite R1, R2, R3, C1, C2, C3, free_last.
    + rewrite (proj2 (Z.eqb_neq a 0)) by done. eapply Returns_step; [done|]. apply Returns_ret. rewrite E3. unfold Resources. simpl.
      by rewrite R1, R2, R3, C1, C2, C3, free_page_last.
  - eapply Returns_step; [done|]. apply Returns_ret. rewrite E3. set (v := MkVolume F Data h Auth) in *.
    assert (HV : VolumeOf Fv_ h n v) by by exists k, st, b, w. unfold Resources. rewrite R1, R2, R3.
    destruct HC as [(-> & -> & -> & [= C1 C2 C3])|(-> & -> & Ha & Hn & [= C1 C2 C3])].
    + exists v, [(b, Size)], []. split; [done|]. split; [by left|]. by rewrite C1, C2, C3, app_nil_r.
    + exists v, [], [a]. split; [done|]. split; [by right|]. by rewrite C1, C2, C3, app_nil_r.
Qed.

(** ** The file *)

(** The memory of a list of volumes. *)
Inductive HoldAll : list VOLUME -> list (Z * Z) -> list Z -> Prop :=
| HoldNone : HoldAll [] [] []
| HoldOne v vs p ps a aa : Holds v p a -> HoldAll vs ps aa -> HoldAll (v :: vs) (p ++ ps) (a ++ aa).

(** C33: for a file with finitely many sections that are well-formed volumes
    ([WellFormedVolume]: a whole header; the extension header lies in the section, its
    entries have at least 4 bytes and end; a USED_SIZE entry gives a size not larger
    than the section, and the section is erased behind it), and with the fuel for the
    sections and entries, CoreProcessFvImageFile returns.  Every volume that it has
    produced had the bytes of its section at that time, at an address with the
    alignment that its header asks for, the memory that is kept is exactly that of
    these volumes, on every error path, and the result is EFI_SUCCESS exactly if there
    is one.  Fv->ReadSection and the allocators keep [FvImageLaws].  The code checks
    none of the conditions on the extension header: without them the search for the
    used size need not end ([ExtEntryLoop_endless]) and the copy runs over the end of
    its buffer ([MoveImage_overruns]). *)
Theorem CoreProcessFvImageFile_volumes Count Fv_ h n fuel st :
  WellFormedFile Fv_ n ->
  (forall k st, Count <= k -> EFI_ERROR (ReadImageSection Fv_ n k st).1.1 = true) -> 0 <= Count -> (Z.to_nat Count < fuel)%nat ->
  Returns (CoreProcessFvImageFile fuel Fv_ h n) st (fun Status st' => exists vs p a, Forall (VolumeOf Fv_ h n) vs /\ HoldAll vs p a /\
    Resources st' = (PoolBuffers st ++ p, AlignedPages st ++ a, Volumes st ++ vs) /\ (Status = EFI_SUCCESS <-> vs <> [])).
Proof.
  intros HWF HC H0. assert (Gen : forall fuel k st, 0 <= k <= Count -> (Z.to_nat (Count - k) < fuel)%nat ->
    Returns (SectionsLoop fuel Fv_ h n k) st (fun Status st' => exists vs p a, Forall (VolumeOf Fv_ h n) vs /\ HoldAll vs p a /\
      Resources st' = (PoolBuffers st ++ p, AlignedPages st ++ a, Volumes st ++ vs) /\ (Status = EFI_SUCCESS <-> vs <> [] \/ 0 < k))).
  { clear fuel st. induction fuel as [|fuel IH]; intros k st Hk Hf; [lia|]. cbn [SectionsLoop].
    destruct (ProcessSection_returns Fv_ h n k st HWF) as (Status & st1 & ER & HR). eapply Returns_step; [exact ER|].
    destruct (EFI_ERROR Status) eqn:ES.
    - apply Returns_ret. injection HR as R1 R2 R3. exists [], [], []. split; [constructor|]. split; [constructor|]. unfold Resources.
      rewrite R1, R2, R3, !app_nil_r. split; [done|]. destruct (Z.ltb_spec 0 k); [naive_solver|]. split; [by intros ->|]. intros [?|?]; [done|lia].
    - destruct HR as (v & p & a & HV & HH & [= R1 R2 R3]).
      assert (k < Count) as Hlt.
      { destruct (Z.lt_ge_cases k Count); [done|]. exfalso. pose proof (HC k st H) as HE. revert ER. unfold ProcessSection.
        destruct (ReadImageSection Fv_ n k st) as [[S2 [[b D] A]] w] eqn:EQ. simpl in HE.
        rewrite (SM_bind_run (S:=ImageState W) _ _ _ (S2, (b, Z.of_nat (length D), A)) (SetImageWorld w st)).
        2: { unfold ReadSection. by rewrite EQ, HE. }
        rewrite HE. destruct (b =? 0); intros [= -> _]; congruence. }
      eapply Returns_mono; [|apply (IH (k + 1) st1); lia]. intros Status' st2 (vs & p2 & a2 & HV2 & HH2 & HR2 & HS2).
      exists (v :: vs), (p ++ p2), (a ++ a2). split; [by constructor|]. split; [by constructor|].
      rewrite HR2, R1, R2, R3, <- !app_assoc. split; [done|]. rewrite HS2. split; [intros _; by left|]. intros _. right. lia. }
  intros Hf. eapply Returns_mono; [|apply (Gen fuel 0 st); lia]. intros Status st' (vs & p & a & ? & ? & ? & HS).
  exists vs, p, a. split_and!; try done. rewrite HS. split; [intros [?|?]; [done|lia]|by left].
Qed.
End Volumes.

(** ** A sample *)

Definition Highest (l : list Z) : Z := foldr Z.max 0 l.

Lemma Highest_le l x : x ∈ l -> x <= Highest l.
Proof. unfold Highest. induction 1 as [x l|x y l _ IH]; simpl in *; lia. Qed.

Lemma Highest_pos l : 0 <= Highest l.
Proof. unfold Highest. induction l; simpl; lia. Qed.

(** A volume of 96 bytes that is to be aligned to 16 bytes, with an extension header
    of two entries at offset 56: the second says that 88 bytes are used. *)
Definition SampleVolume : list Z :=
  replicate 45 0 ++ [8; 4] ++ replicate 5 0 ++ [56; 0; 0; 0] ++
  replicate 16 0 ++ [32; 0; 0; 0] ++ [4; 0; 1; 0] ++ [8; 0; 3; 0; 88; 0; 0; 0] ++ replicate 8 0xFF.

(** A file with one such section; buffers are allocated above all others. *)
#[export] Instance SampleFile : FvImageEnvironment unit := {
  ReadImageSection _ _ k st :=
    if (k =? 0) && (Highest (PoolBuffers st).*1 <? 2 ^ 63) then (EFI_SUCCESS, (1 + Highest (PoolBuffers st).*1, SampleVolume, 0), tt)
    else (EFI_NOT_FOUND, (0, [], 0), tt);
  gSecurity := None;
  ImageDevicePath _ _ _ := 1;
  AllocateAlignedPages _ Alignment st :=
    (if 0 <? Alignment then Alignment * (1 + Z.max (Highest ((fun x => x.1 + x.2) <$> PoolBuffers st)) (Highest (AlignedPages st))) else 0, tt);
  ProduceFVBProtocolOnBuffer _ _ w := (EFI_SUCCESS, w);
  EntryFuel := 10 }.

Lemma SampleVolume_well_formed : WellFormedVolume SampleVolume.
Proof.
  split; [vm_compute; discriminate|]. right. split; [vm_compute; reflexivity|]. split; [vm_compute; split; discriminate|].
  exists [76; 80]. split; [|split; [vm_compute; lia|]].
  - change (EntriesIn SampleVolume 88 76 [76; 80]).
    apply (EntriesInNext SampleVolume 88 76 [80]); [lia|vm_compute; discriminate|lia|vm_compute; discriminate|vm_compute; discriminate|].
    change (76 + ReadUnaligned16 (ImageOf SampleVolume) 76) with 80.
    apply (EntriesInNext SampleVolume 88 80 []); [lia|vm_compute; discriminate|lia|vm_compute; discriminate|vm_compute; discriminate|].
    change (80 + ReadUnaligned16 (ImageOf SampleVolume) 80) with 88. apply EntriesInEnd. lia.
  - change (List.find _ _) with (Some 80). split; [vm_compute; discriminate|]. change (ReadUnaligned32 _ _) with 88. change (Z.of_nat _) with 96.
    split; [lia|]. intros k Hk. assert (Hin : k ∈ seqZ 88 8) by (apply elem_of_seqZ; lia). clear Hk. revert k Hin. apply Forall_forall.
    vm_compute. by repeat constructor.
Qed.

Lemma SampleFile_well_formed Fv_ n : WellFormedFile Fv_ n.
Proof.
  intros k st b Data Auth w. cbn [ReadImageSection SampleFile]. destruct (_ && _); [|done]. intros [= <- <- <- <-]. apply SampleVolume_well_formed.
Qed.

#[export] Instance SampleFileLaws : FvImageLaws.
Proof.
  split.
  - intros Fv_ n k st Status b Data Auth w. cbn [ReadImageSection SampleFile]. destruct (k =? 0); [|by intros [= <- <- <- <- <-]].
    cbn [andb]. destruct (Z.ltb_spec (Highest (PoolBuffers st).*1) (2 ^ 63)); intros [= <- <- <- <- <-]; [|done].
    pose proof (Highest_pos (PoolBuffers st).*1). change (Z.of_nat (length SampleVolume)) with 96. simpl EFI_ERROR. cbv iota.
    split_and!; [lia|lia|]. intros s Hin.
    pose proof (Highest_le (PoolBuffers st).*1 _ (list_elem_of_fmap_2 fst _ _ Hin)) as H1. simpl in H1. lia.
  - intros n Alignment st a w. cbn [AllocateAlignedPages SampleFile]. destruct (Z.ltb_spec 0 Alignment) as [HA|HA]; intros [= <- <-] Ha; [|done].
    set (K := 1 + _) in *. assert (HK : K <= Alignment * K) by (pose proof (Highest_pos (AlignedPages st)); unfold K in *; nia).
    split_and!; [rewrite Z.mul_comm; by apply Z.mod_mul; lia| |].
    + intros H1%Highest_le. unfold K in *. lia.
    + intros b s Hin. right. pose proof (Highest_le ((fun x => x.1 + x.2) <$> PoolBuffers st) _ (list_elem_of_fmap_2 (fun x : Z * Z => x.1 + x.2) _ _ Hin)) as H1.
      simpl in H1. unfold K in *. lia.
Qed.

Definition SampleImages : ImageState unit := MkImage (fun _ => 0) [] [] [] tt.

Lemma CoreProcessFvImageFile_volumes_witness : exists Status st', CoreProcessFvImageFile 3 0 7 [] SampleImages = Done (Status, st') /\
  Status = EFI_SUCCESS /\ AlignedPages st' = [1568] /\ exists vs p a, Forall (VolumeOf 0 7 []) vs /\ HoldAll vs p a /\ Resources st' = (p, a, vs).
Proof.
  assert (exists Status st', CoreProcessFvImageFile 3 0 7 [] SampleImages = Done (Status, st') /\ Status = EFI_SUCCESS /\ AlignedPages st' = [1568])
    as (Status & st' & E & HS & HP) by (eexists _, _; split_and!; vm_compute; reflexivity).
  exists Status, st'. split; [exact E|]. split; [exact HS|]. split; [exact HP|].
  destruct (CoreProcessFvImageFile_volumes 1 0 7 [] 3 SampleImages) as (Status2 & st2 & E2 & vs & p & a & HV & HH & HR & _).
  - apply SampleFile_well_formed.
  - intros k st Hk. cbn [ReadImageSection SampleFile]. rewrite (proj2 (Z.eqb_neq k 0)) by lia. reflexivity.
  - lia.
  - vm_compute. lia.
  - rewrite E in E2. injection E2 as _ <-. exists vs, p, a. split; [exact HV|]. split; [exact HH|exact HR].
Defined.

(** What the extension header says about the used size is not compared with the
    size of the section: the copy runs over the end of the aligned pages. *)
Lemma MoveImage_overruns {W} {Env : FvImageEnvironment W} Buffer Size Aligned Used Erase (st : ImageState W) :
  GetFvUsedSize EntryFuel (Bytes st) Buffer = Done (Some (Used, Erase)) -> Size < Used -> MoveImage Buffer Size Aligned st = Asserted.
Proof.
  intros HU HS. unfold MoveImage, mbind, SM_bind. rewrite HU. unfold Assert. by rewrite (proj2 (Z.leb_gt _ _)).
Qed.
