(* ===== verification/Connect.v ===== *)
(** * Driver connection services: the model

    [src/MdeModulePkg/Core/Dxe/Hand/DriverSupport.c]: connecting drivers to a
    controller in the order of precedence, and disconnecting them.

    The services are programs over the state of the handle database (Handle.v).
    The class [Drivers] has what drivers provide: the EFI_DRIVER_BINDING_PROTOCOL
    structures (their fields as functions of the state and the address), the
    override protocols, and the Security2 protocol.  Their functions are programs that may use the database
    again.  An array is the list of its elements; an access behind its end is a
    stop. *)
From Stdlib Require Import ZArith Lia.
From stdpp Require Import base option gmap list.
From S2P Require Import Prelude Handle.

Class Drivers (HS : Type) := MkDrivers {
  gEfiDriverBindingProtocolGuid : Z;
  gEfiPlatformDriverOverrideProtocolGuid : Z;
  gEfiDriverFamilyOverrideProtocolGuid : Z;
  gEfiBusSpecificDriverOverrideProtocolGuid : Z;
  (** EFI_DRIVER_BINDING_PROTOCOL: This, ControllerHandle and RemainingDevicePath,
      for Stop the children.  The fields are read from the driver's memory, which
      it may change. *)
  Version : HandleState HS -> Z -> Z;
  ImageHandle : HandleState HS -> Z -> Z;
  Supported : Z -> Z -> Z -> HM HS EFI_STATUS;
  Start : Z -> Z -> Z -> HM HS EFI_STATUS;
  Stop : Z -> Z -> list Z -> HM HS EFI_STATUS;
  (** The override protocols: GetDriver takes and returns DriverImageHandle. *)
  PlatformGetDriver : Z -> Z -> Z -> HM HS (EFI_STATUS * Z);
  BusGetDriver : Z -> Z -> HM HS (EFI_STATUS * Z);
  GetVersion : Z -> HM HS Z;
  (** gSecurity2->FileAuthentication of a device path, continued by another one if
      that is not 0. *)
  gSecurity2 : option (Z -> Z -> HM HS EFI_STATUS);
  (** The copy of a device path, 0 without memory. *)
  DuplicateDevicePath : HandleState HS -> Z -> Z }.

(** ** Ordering the drivers *)

(** DriverBindingHandleBuffer, and SortedDriverBindingProtocols as far as it is
    written, with NumberOfSortedDriverBindingProtocols. *)
Record SORTING := MkSorting {
  HandleBuffer : list Z;
  SortedProtocols : list Z;
  NumberOfSorted : nat }.

Section Connect.
Context {HS : Type} {Ops : HandleSetOps HS} {Env : Environment HS} {Drv : Drivers HS}.

Definition ValidateHandle (UserHandle : Z) : HM HS EFI_STATUS :=
  CoreAcquireProtocolLock ;;
  Status ← CoreValidateHandle UserHandle;
  CoreReleaseProtocolLock ;;
  mret Status.

(** The Driver Binding Protocol on a handle, 0 if there is none. *)
Definition DriverBindingOf (Handle : Z) : HM HS Z :=
  '(Status, DriverBinding) ← CoreHandleProtocol Handle (Some gEfiDriverBindingProtocolGuid) true;
  mret (if EFI_ERROR Status then 0 else default 0 DriverBinding).

(** AddSortedDriverBindingProtocol for a handle that is not an image handle. *)
Definition AddBinding (DriverBindingHandle : Z) (Sg : SORTING) : HM HS SORTING :=
  Status ← ValidateHandle DriverBindingHandle;
  if EFI_ERROR Status then mret Sg else
  DriverBinding ← DriverBindingOf DriverBindingHandle;
  if DriverBinding =? 0 then mret Sg else
  if existsb (Z.eqb DriverBinding) (SortedProtocols Sg) then mret Sg else
  mret (MkSorting ((fun h => if h =? DriverBindingHandle then 0 else h) <$> HandleBuffer Sg)
    (if (NumberOfSorted Sg <? length (HandleBuffer Sg))%nat then SortedProtocols Sg ++ [DriverBinding] else SortedProtocols Sg)
    (NumberOfSorted Sg + 1)).

(** A loop over DriverBindingHandleBuffer, which changes on the way. *)
Fixpoint ForHandles (Body : Z -> SORTING -> HM HS SORTING) (Indices : list nat) (Sg : SORTING) : HM HS SORTING :=
  match Indices with
  | [] => mret Sg
  | Index :: Indices =>
    match HandleBuffer Sg !! Index with
    | None => fun _ => Asserted
    | Some Handle => Sg ← Body Handle Sg; ForHandles Body Indices Sg
    end
  end.
Definition AllIndices (Sg : SORTING) : list nat := seq 0 (length (HandleBuffer Sg)).

Definition AddIfImage (Image Handle : Z) (Sg : SORTING) : HM HS SORTING :=
  DriverBinding ← DriverBindingOf Handle;
  if DriverBinding =? 0 then mret Sg else
  Image_ ← gets (fun st => ImageHandle st DriverBinding);
  if Image_ =? Image then AddBinding Handle Sg else mret Sg.

Definition AddSortedDriverBindingProtocol (DriverBindingHandle : Z) (IsImageHandle : bool) (Sg : SORTING) : HM HS SORTING :=
  if IsImageHandle then
    Status ← ValidateHandle DriverBindingHandle;
    if EFI_ERROR Status then mret Sg else ForHandles (AddIfImage DriverBindingHandle) (AllIndices Sg) Sg
  else AddBinding DriverBindingHandle Sg.

Fixpoint AddContext (Handles_ : list Z) (Sg : SORTING) : HM HS SORTING :=
  match Handles_ with
  | [] => mret Sg
  | Handle :: Handles_ => Sg ← AddSortedDriverBindingProtocol Handle false Sg; AddContext Handles_ Sg
  end.

(** The drivers that GetDriver of an override protocol reports. *)
Fixpoint OverrideLoop (fuel : nat) (GetDriver : Z -> HM HS (EFI_STATUS * Z)) (DriverImageHandle : Z) (Sg : SORTING) : HM HS SORTING :=
  match fuel with
  | O => fun _ => OutOfFuel
  | S fuel =>
    '(Status, DriverImageHandle) ← GetDriver DriverImageHandle;
    if EFI_ERROR Status then mret Sg else
    Sg ← AddSortedDriverBindingProtocol DriverImageHandle true Sg;
    OverrideLoop fuel GetDriver DriverImageHandle Sg
  end.

Definition AddPlatform (Controller : Z) (Sg : SORTING) : HM HS SORTING :=
  '(Status, PlatformDriverOverride) ← CoreLocateProtocol (Some gEfiPlatformDriverOverrideProtocolGuid) 0 true;
  if negb (EFI_ERROR Status) && negb (PlatformDriverOverride =? 0)
  then OverrideLoop Fuel (PlatformGetDriver PlatformDriverOverride Controller) 0 Sg else mret Sg.

(** The handle with the highest version of the Driver Family Override Protocol:
    the last Status and DriverFamilyOverride, and the version and index. *)
Fixpoint HighestFamily (Handles_ : list (nat * Z)) (Status : EFI_STATUS) (DriverFamilyOverride : Z) (Highest : option (nat * Z))
  : HM HS (EFI_STATUS * Z * option (nat * Z)) :=
  match Handles_ with
  | [] => mret (Status, DriverFamilyOverride, Highest)
  | (Index, Handle) :: Handles_ =>
    '(Status, Out) ← CoreHandleProtocol Handle (Some gEfiDriverFamilyOverrideProtocolGuid) true;
    let DriverFamilyOverride := default DriverFamilyOverride Out in
    if negb (EFI_ERROR Status) && negb (DriverFamilyOverride =? 0) then
      FamilyVersion ← GetVersion DriverFamilyOverride;
      HighestFamily Handles_ Status DriverFamilyOverride
        (match Highest with
         | Some (_, HighestVersion) => if HighestVersion <? FamilyVersion then Some (Index, FamilyVersion) else Highest
         | None => Some (Index, FamilyVersion)
         end)
    else HighestFamily Handles_ Status DriverFamilyOverride Highest
  end.

Fixpoint FamilyLoop (fuel : nat) (Status : EFI_STATUS) (DriverFamilyOverride : Z) (Sg : SORTING) : HM HS SORTING :=
  if negb (EFI_ERROR Status) && negb (DriverFamilyOverride =? 0) then
    match fuel with
    | O => fun _ => OutOfFuel
    | S fuel =>
      '(Status, DriverFamilyOverride, Highest) ←
        HighestFamily (zip (AllIndices Sg) (HandleBuffer Sg)) Status DriverFamilyOverride None;
      match Highest with
      | None => mret Sg
      | Some (HighestIndex, _) =>
        match HandleBuffer Sg !! HighestIndex with
        | None => fun _ => Asserted
        | Some Handle => Sg ← AddSortedDriverBindingProtocol Handle false Sg; FamilyLoop fuel Status DriverFamilyOverride Sg
        end
      end
    end
  else mret Sg.

Definition AddFamily (Sg : SORTING) : HM HS SORTING :=
  '(Status, DriverFamilyOverride) ← CoreLocateProtocol (Some gEfiDriverFamilyOverrideProtocolGuid) 0 true;
  FamilyLoop Fuel Status DriverFamilyOverride Sg.

Definition AddBus (Controller : Z) (Sg : SORTING) : HM HS SORTING :=
  '(Status, Out) ← CoreHandleProtocol Controller (Some gEfiBusSpecificDriverOverrideProtocolGuid) true;
  let BusSpecificDriverOverride := default 0 Out in
  if negb (EFI_ERROR Status) && negb (BusSpecificDriverOverride =? 0)
  then OverrideLoop Fuel (BusGetDriver BusSpecificDriverOverride) 0 Sg else mret Sg.

(** The rest of the array is sorted by selection, by the versions [Version_] that
    the drivers have at that time. *)
Fixpoint HighestVersionLoop (Version_ : Z -> Z) (Sorted_ : list Z) (Indices : list nat) (HighestVersion : Z) (HighestIndex : nat) : Outcome nat :=
  match Indices with
  | [] => Done HighestIndex
  | Index :: Indices =>
    match Sorted_ !! Index with
    | None => Asserted
    | Some DriverBinding =>
      if HighestVersion <? Version_ DriverBinding then HighestVersionLoop Version_ Sorted_ Indices (Version_ DriverBinding) Index
      else HighestVersionLoop Version_ Sorted_ Indices HighestVersion HighestIndex
    end
  end.

Fixpoint SortLoop (Version_ : Z -> Z) (Rounds : nat) (Number SortIndex : nat) (Sorted_ : list Z) : Outcome (list Z) :=
  match Rounds with
  | O => Done Sorted_
  | S Rounds =>
    match Sorted_ !! SortIndex with
    | None => Asserted
    | Some DriverBinding =>
      HighestIndex ← HighestVersionLoop Version_ Sorted_ (seq (SortIndex + 1) (Number - (SortIndex + 1))) (Version_ DriverBinding) SortIndex;
      match Sorted_ !! HighestIndex with
      | None => Asserted
      | Some Highest =>
        SortLoop Version_ Rounds Number (SortIndex + 1)
          (if (SortIndex =? HighestIndex)%nat then Sorted_ else <[HighestIndex := DriverBinding]> (<[SortIndex := Highest]> Sorted_))
      end
    end
  end.

(** ** Connecting *)

(** One pass over the array: the first driver that supports the controller is
    started and its element becomes NULL.  The results are the array, DriverFound
    and OneStarted. *)
Fixpoint SupportLoop (Indices : list nat) (Controller RemainingDevicePath : Z) (Sorted_ : list Z) (OneStarted : bool) : HM HS (list Z * bool * bool) :=
  match Indices with
  | [] => mret (Sorted_, false, OneStarted)
  | Index :: Indices =>
    match Sorted_ !! Index with
    | None => fun _ => Asserted
    | Some DriverBinding =>
      if DriverBinding =? 0 then SupportLoop Indices Controller RemainingDevicePath Sorted_ OneStarted else
      Status ← Supported DriverBinding Controller RemainingDevicePath;
      if EFI_ERROR Status then SupportLoop Indices Controller RemainingDevicePath Sorted_ OneStarted else
      Status ← Start DriverBinding Controller RemainingDevicePath;
      mret (<[Index := 0]> Sorted_, true, OneStarted || negb (EFI_ERROR Status))
    end
  end.

Fixpoint StartLoop (fuel : nat) (Number : nat) (Controller RemainingDevicePath : Z) (Sorted_ : list Z) (OneStarted : bool) : HM HS bool :=
  match fuel with
  | O => fun _ => OutOfFuel
  | S fuel =>
    '(Sorted_, DriverFound, OneStarted) ← SupportLoop (seq 0 Number) Controller RemainingDevicePath Sorted_ OneStarted;
    if DriverFound : bool then StartLoop fuel Number Controller RemainingDevicePath Sorted_ OneStarted else mret OneStarted
  end.

(** All the drivers in the array, and the number of those that come first. *)
Definition CollectDrivers (Controller : Z) (ContextDriverImageHandles : list Z) (Buffer : list Z) : HM HS (SORTING * nat) :=
  Sg ← AddContext ContextDriverImageHandles (MkSorting Buffer [] 0);
  Sg ← AddPlatform Controller Sg;
  Sg ← AddFamily Sg;
  Sg ← AddBus Controller Sg;
  let SortIndex := NumberOfSorted Sg in
  Sg ← ForHandles (fun Handle => AddSortedDriverBindingProtocol Handle false) (AllIndices Sg) Sg;
  mret (Sg, SortIndex).

Definition CoreConnectSingleController (Controller : Z) (ContextDriverImageHandles : option (list Z)) (RemainingDevicePath : Z) : HM HS EFI_STATUS :=
  '(Status, DriverBindingHandleCount, Buffer) ← CoreLocateHandleBuffer ByProtocol (Some gEfiDriverBindingProtocolGuid) 0 true true;
  if EFI_ERROR Status || (DriverBindingHandleCount =? 0) then mret EFI_NOT_FOUND else
  Available ← gets (fun st => BufferAvailable st (8 * DriverBindingHandleCount));
  if negb Available then mret EFI_OUT_OF_RESOURCES else
  '(Sg, SortIndex) ← CollectDrivers Controller (default [] ContextDriverImageHandles) Buffer;
  '(_, NewDriverBindingHandleCount, _) ← CoreLocateHandleBuffer ByProtocol (Some gEfiDriverBindingProtocolGuid) 0 true true;
  if DriverBindingHandleCount <? NewDriverBindingHandleCount then mret EFI_NOT_READY else
  let Number := NumberOfSorted Sg in
  Versions ← gets Version;
  Sorted_ ← lift (SortLoop Versions (Number - SortIndex) Number SortIndex (SortedProtocols Sg));
  OneStarted ← StartLoop (Number + 1) Number Controller RemainingDevicePath Sorted_ false;
  if OneStarted : bool then mret EFI_SUCCESS else
  if negb (RemainingDevicePath =? 0) && IsDevicePathEnd RemainingDevicePath then mret EFI_SUCCESS else
  mret EFI_NOT_FOUND.

Fixpoint ConnectLoop (fuel : nat) (Controller : Z) (Context_ : option (list Z)) (Path : Z) : HM HS EFI_STATUS :=
  match fuel with
  | O => fun _ => OutOfFuel
  | S fuel =>
    ReturnStatus ← CoreConnectSingleController Controller Context_ Path;
    if bool_decide (ReturnStatus = EFI_NOT_READY) then ConnectLoop fuel Controller Context_ Path else mret ReturnStatus
  end.

(** The open lists of all protocols of a handle. *)
Fixpoint OpensLoop (Links : list Z) : HM HS (list OPEN_PROTOCOL_DATA) :=
  match Links with
  | [] => mret []
  | Prot :: Links => prot ← deref Interfaces Prot; Rest ← OpensLoop Links; mret (OpenList prot ++ Rest)
  end.
Definition OpensOf (Handle : Z) : HM HS (list OPEN_PROTOCOL_DATA) :=
  handle ← deref Handles Handle;
  OpensLoop (Protocols handle).

Definition IsChild (D : OPEN_PROTOCOL_DATA) : bool := HasFlag (Attributes D) EFI_OPEN_PROTOCOL_BY_CHILD_CONTROLLER.
Definition IsManaged (D : OPEN_PROTOCOL_DATA) : bool := HasFlag (Attributes D) EFI_OPEN_PROTOCOL_BY_DRIVER.

(** The permission to start drivers on the device. *)
Definition CheckPermission (Controller RemainingDevicePath : Z) (Recursive : bool) : HM HS EFI_STATUS :=
  match gSecurity2 with
  | None => mret EFI_SUCCESS
  | Some FileAuthentication =>
    '(Status, Out) ← CoreHandleProtocol Controller (Some gEfiDevicePathProtocolGuid) true;
    if EFI_ERROR Status then mret EFI_SUCCESS else
    let HandleFilePath := default 0 Out in
    assert (negb (HandleFilePath =? 0)) ;;
    if negb (RemainingDevicePath =? 0) && negb Recursive then
      Available ← gets (fun st => BufferAvailable st (GetDevicePathSize HandleFilePath - 4 + GetDevicePathSize RemainingDevicePath));
      assert Available ;;
      FileAuthentication HandleFilePath RemainingDevicePath
    else FileAuthentication HandleFilePath 0
  end.

Fixpoint ForChildren (Connect : Z -> HM HS EFI_STATUS) (Children : list Z) : HM HS unit :=
  match Children with
  | [] => mret tt
  | Child :: Children => _ ← Connect Child; ForChildren Connect Children
  end.

(** [fuel] bounds the depth of the tree of controllers. *)
Fixpoint CoreConnectController (fuel : nat) (Controller : Z) (DriverImageHandle : option (list Z)) (RemainingDevicePath : Z) (Recursive : bool)
  : HM HS EFI_STATUS :=
  match fuel with
  | O => fun _ => OutOfFuel
  | S fuel =>
    Status ← ValidateHandle Controller;
    if EFI_ERROR Status then mret Status else
    Status ← CheckPermission Controller RemainingDevicePath Recursive;
    if EFI_ERROR Status then mret Status else
    Path ← gets (fun st => if RemainingDevicePath =? 0 then 0 else DuplicateDevicePath st RemainingDevicePath);
    if negb (RemainingDevicePath =? 0) && (Path =? 0) then mret EFI_OUT_OF_RESOURCES else
    ReturnStatus ← ConnectLoop Fuel Controller DriverImageHandle Path;
    if Recursive then
      CoreAcquireProtocolLock ;;
      Status ← CoreValidateHandle Controller;
      if EFI_ERROR Status then CoreReleaseProtocolLock ;; mret ReturnStatus else
      Opens ← OpensOf Controller;
      let Children := ControllerHandle <$> filter IsChild Opens in
      Available ← gets (fun st => BufferAvailable st (8 * Z.of_nat (length Children)));
      if negb Available then CoreReleaseProtocolLock ;; mret EFI_OUT_OF_RESOURCES else
      CoreReleaseProtocolLock ;;
      ForChildren (fun Child => CoreConnectController fuel Child None 0 true) Children ;;
      mret ReturnStatus
    else mret ReturnStatus
  end.

(** ** Disconnecting *)

(** Stores the values that are not in the array of [Count] elements yet. *)
Fixpoint StoreDistinct (Count : nat) (Values Buffer : list Z) : HM HS (list Z) :=
  match Values with
  | [] => mret Buffer
  | Value :: Values =>
    if existsb (Z.eqb Value) Buffer then StoreDistinct Count Values Buffer
    else assert (length Buffer <? Count)%nat ;; StoreDistinct Count Values (Buffer ++ [Value])
  end.

(** The open lists under the lock. *)
Definition LockedOpens (Handle : Z) : HM HS (list OPEN_PROTOCOL_DATA) :=
  CoreAcquireProtocolLock ;;
  Opens ← OpensOf Handle;
  CoreReleaseProtocolLock ;;
  mret Opens.

(** The same for the loops that store handles. *)
Definition LockedStore (Handle : Z) (Count : nat) (Values : list OPEN_PROTOCOL_DATA -> list Z) : HM HS (list Z) :=
  CoreAcquireProtocolLock ;;
  Opens ← OpensOf Handle;
  Buffer ← StoreDistinct Count (Values Opens) [];
  CoreReleaseProtocolLock ;;
  mret Buffer.

(** DriverImageHandleBuffer: the drivers that manage a controller, or a jump to the
    end with a status. *)
Definition ManagingDrivers (Controller : Z) : HM HS (EFI_STATUS + list Z) :=
  Opens ← LockedOpens Controller;
  let DriverImageHandleCount := length (filter IsManaged Opens) in
  if (DriverImageHandleCount =? 0)%nat then mret (inl EFI_SUCCESS) else
  Available ← gets (fun st => BufferAvailable st (8 * Z.of_nat DriverImageHandleCount));
  if negb Available then mret (inl EFI_OUT_OF_RESOURCES) else
  Drivers_ ← LockedStore Controller DriverImageHandleCount (fun Opens => AgentHandle <$> filter IsManaged Opens);
  mret (inr Drivers_).

(** ChildBuffer: the children of a driver, [None] without memory. *)
Definition ChildrenOf (Controller Driver : Z) (ChildBufferCount : nat) : HM HS (option (list Z)) :=
  if (ChildBufferCount =? 0)%nat then mret (Some []) else
  Available ← gets (fun st => BufferAvailable st (8 * Z.of_nat ChildBufferCount));
  if negb Available then mret None else
  Children ← LockedStore Controller ChildBufferCount (fun Opens => ControllerHandle <$> filter (fun D => (AgentHandle D =? Driver) && IsChild D) Opens);
  mret (Some Children).

(** The calls of Stop. *)
Definition StopDriver (DriverBinding Controller ChildHandle : Z) (Children : list Z) : HM HS EFI_STATUS :=
  let ToStop := if ChildHandle =? 0 then Children else [ChildHandle] in
  '(Status, ChildrenToStop) ←
    (if (0 <? length Children)%nat then Status ← Stop DriverBinding Controller ToStop; mret (Status, length ToStop)
     else mret (EFI_SUCCESS, 0%nat));
  if negb (EFI_ERROR Status) && ((ChildHandle =? 0) || (length Children =? ChildrenToStop)%nat)
  then Stop DriverBinding Controller [] else mret Status.

(** The loop over the drivers: [inl] is a jump to the end with a status, [inr] has
    StopCount. *)
Fixpoint DriversLoop (Drivers_ : list Z) (Controller ChildHandle : Z) (StopCount : Z) : HM HS (EFI_STATUS + Z) :=
  match Drivers_ with
  | [] => mret (inr StopCount)
  | DriverImageHandle :: Drivers_ =>
    DriverBinding ← DriverBindingOf DriverImageHandle;
    if DriverBinding =? 0 then mret (inl EFI_INVALID_PARAMETER) else
    Opens ← LockedOpens Controller;
    let Mine := filter (fun D => AgentHandle D =? DriverImageHandle) Opens in
    if existsb IsManaged Mine then
      ChildBuffer ← ChildrenOf Controller DriverImageHandle (length (filter IsChild Mine));
      match ChildBuffer with
      | None => mret (inl EFI_OUT_OF_RESOURCES)
      | Some Children =>
        if (ChildHandle =? 0) || existsb (Z.eqb ChildHandle) Children then
          Status ← StopDriver DriverBinding Controller ChildHandle Children;
          DriversLoop Drivers_ Controller ChildHandle (if EFI_ERROR Status then StopCount else StopCount + 1)
        else DriversLoop Drivers_ Controller ChildHandle StopCount
      end
    else DriversLoop Drivers_ Controller ChildHandle StopCount
  end.

Definition CoreDisconnectController (Controller DriverImageHandle ChildHandle : Z) : HM HS EFI_STATUS :=
  CoreAcquireProtocolLock ;;
  Status ← CoreValidateHandle Controller;
  Status ← (if EFI_ERROR Status then mret Status else if negb (ChildHandle =? 0) then CoreValidateHandle ChildHandle else mret Status);
  CoreReleaseProtocolLock ;;
  if EFI_ERROR Status then mret Status else
  Managing ← (if DriverImageHandle =? 0 then ManagingDrivers Controller else mret (inr [DriverImageHandle]));
  match Managing with
  | inl Status => mret Status
  | inr Drivers_ =>
    Result ← DriversLoop Drivers_ Controller ChildHandle 0;
    match Result with
    | inl Status => mret Status
    | inr StopCount => mret (if 0 <? StopCount then EFI_SUCCESS else EFI_NOT_FOUND)
    end
  end.
End Connect.
