(* ===== verification/ConnectReach.v ===== *)
(** * Driver connection services: all reachable states

    The connection services keep the handle database in order, whatever drivers do
    with it.  [World] is the environment in which the drivers' functions, the
    override protocols and the notifications use the services of the database and the
    connection services again: here the connection services that the database calls
    are those of Connect.v. *)
From Stdlib Require Import ZArith Lia.
From stdpp Require Import base option gmap list sets fin_maps.
From S2P Require Import Prelude RbTree RbValid RbTheorems Handle HandleSet HandleInv HandleRules HandleInstall HandleOpen.
From S2P Require Import HandleUninstall HandleSafe HandleReach Connect.

(** ** Safety *)

(** Drivers get the database in order and without the lock and leave it so. *)
Class DriversOk (HS : Type) {Ops : HandleSetOps HS} {SetOk : HandleSetOk HS} {Drv : Drivers HS} : Prop := {
  Supported_safe b c p : Safe (Supported b c p);
  Start_safe b c p : Safe (Start b c p);
  Stop_safe b c l : Safe (Stop b c l);
  PlatformGetDriver_safe i c h : Safe (PlatformGetDriver i c h);
  BusGetDriver_safe i h : Safe (BusGetDriver i h);
  GetVersion_safe i : Safe (GetVersion i);
  FileAuthentication_safe f p q : gSecurity2 = Some f -> Safe (f p q) }.
#[export] Hint Resolve Supported_safe Start_safe Stop_safe PlatformGetDriver_safe BusGetDriver_safe GetVersion_safe : handle.

Section Safety.
Context {HS : Type} {Ops : HandleSetOps HS} {SetOk : HandleSetOk HS} {Env : Environment HS} {EnvOk : EnvironmentOk HS}.
Context {Drv : Drivers HS} {DrvOk : DriversOk HS}.

Lemma Safe_stopped {A} : Safe (fun _ : HandleState HS => @Asserted (A * HandleState HS)).
Proof using. by intros High st a st' _ [=]. Qed.
Lemma Safe_lift {A} (m : Outcome A) : Safe (lift (HS:=HS) m).
Proof using. by intros High st a st' Hst [_ ->]%lift_Done. Qed.
#[local] Hint Resolve Safe_stopped Safe_lift : handle.

Lemma ValidateHandle_safe h : Safe (ValidateHandle h).
Proof using EnvOk. unfold ValidateHandle. safe. Qed.
Lemma DriverBindingOf_safe h : Safe (DriverBindingOf h).
Proof using EnvOk. unfold DriverBindingOf. safe. Qed.
#[local] Hint Resolve ValidateHandle_safe DriverBindingOf_safe : handle.

Lemma AddBinding_safe h Sg : Safe (AddBinding h Sg).
Proof using EnvOk. unfold AddBinding. safe. Qed.
#[local] Hint Resolve AddBinding_safe : handle.

Lemma ForHandles_safe Body l : (forall h Sg, Safe (Body h Sg)) -> forall Sg, Safe (ForHandles Body l Sg).
Proof using. intros HB. induction l as [|i l IH]; intros Sg; cbn [ForHandles]; safe. Qed.

Lemma AddSorted_safe h b Sg : Safe (AddSortedDriverBindingProtocol h b Sg).
Proof using EnvOk.
  assert (forall i Sg', Safe (AddIfImage h i Sg')) by (intros; unfold AddIfImage; safe). pose proof ForHandles_safe.
  unfold AddSortedDriverBindingProtocol. safe.
Qed.
#[local] Hint Resolve AddSorted_safe : handle.

Lemma AddContext_safe l : forall Sg, Safe (AddContext l Sg).
Proof using EnvOk. induction l; intros Sg; cbn [AddContext]; safe. Qed.

Lemma OverrideLoop_safe GetDriver : (forall h, Safe (GetDriver h)) -> forall fuel h Sg, Safe (OverrideLoop fuel GetDriver h Sg).
Proof using EnvOk. intros HG. induction fuel; intros h Sg; cbn [OverrideLoop]; safe. Qed.

Lemma HighestFamily_safe l : forall s f m, Safe (HighestFamily l s f m).
Proof using EnvOk DrvOk. induction l as [|[i h] l IH]; intros s f m; cbn [HighestFamily]; safe. Qed.
#[local] Hint Resolve AddContext_safe OverrideLoop_safe HighestFamily_safe : handle.

Lemma FamilyLoop_safe fuel : forall s f Sg, Safe (FamilyLoop fuel s f Sg).
Proof using EnvOk DrvOk. induction fuel; intros s f Sg; cbn [FamilyLoop]; safe. Qed.
#[local] Hint Resolve FamilyLoop_safe : handle.

Lemma CollectDrivers_safe c l b : Safe (CollectDrivers c l b).
Proof using EnvOk DrvOk.
  pose proof ForHandles_safe. assert (forall i h, Safe (PlatformGetDriver i c h)) by (intros; safe).
  assert (forall i h, Safe (BusGetDriver i h)) by (intros; safe).
  unfold CollectDrivers, AddPlatform, AddFamily, AddBus. safe.
Qed.

Lemma SupportLoop_safe c p l : forall a o, Safe (SupportLoop l c p a o).
Proof using DrvOk. induction l; intros a' o; cbn [SupportLoop]; safe. Qed.
#[local] Hint Resolve SupportLoop_safe CollectDrivers_safe : handle.

Lemma StartLoop_safe n c p fuel : forall l o, Safe (StartLoop fuel n c p l o).
Proof using DrvOk. induction fuel; intros l o; cbn [StartLoop]; safe. Qed.
#[local] Hint Resolve StartLoop_safe : handle.

Lemma CoreConnectSingleController_safe c x p : Safe (CoreConnectSingleController c x p).
Proof using EnvOk DrvOk. unfold CoreConnectSingleController. safe. Qed.
#[local] Hint Resolve CoreConnectSingleController_safe : handle.

Lemma ConnectLoop_safe c x p fuel : Safe (ConnectLoop fuel c x p).
Proof using EnvOk DrvOk. induction fuel; cbn [ConnectLoop]; safe. Qed.

Lemma CheckPermission_safe c p r : Safe (CheckPermission c p r).
Proof using EnvOk DrvOk.
  unfold CheckPermission. destruct gSecurity2 as [f|] eqn:E; [|safe]. pose proof (fun a b => FileAuthentication_safe f a b E). safe.
Qed.

Lemma OpensOf_safe h : LockSafe (OpensOf (HS:=HS) h).
Proof using. unfold OpensOf. apply LockSafe_bind; [safe|]. intros hd. induction (Protocols hd); cbn [OpensLoop]; safe. Qed.

Lemma ForChildren_safe Connect l : (forall h, Safe (Connect h)) -> Safe (ForChildren (HS:=HS) Connect l).
Proof using. intros HC. induction l; cbn [ForChildren]; safe. Qed.
#[local] Hint Resolve ConnectLoop_safe CheckPermission_safe OpensOf_safe ForChildren_safe : handle.

Lemma Connect_safe fuel : forall c x p r, Safe (Connect.CoreConnectController fuel c x p r).
Proof using EnvOk DrvOk. induction fuel; intros c x p r; cbn [Connect.CoreConnectController]; safe. Qed.

Lemma StoreDistinct_safe n l : forall b, LockSafe (StoreDistinct (HS:=HS) n l b).
Proof using. induction l; intros b; cbn [StoreDistinct]; safe. Qed.
#[local] Hint Resolve StoreDistinct_safe : handle.

Lemma LockedOpens_safe h : Safe (LockedOpens h).
Proof using EnvOk. unfold LockedOpens. safe. Qed.
Lemma LockedStore_safe h n f : Safe (LockedStore h n f).
Proof using EnvOk. unfold LockedStore. safe. Qed.
#[local] Hint Resolve LockedOpens_safe LockedStore_safe : handle.

Lemma DriversLoop_safe c ch l : forall n, Safe (DriversLoop l c ch n).
Proof using EnvOk DrvOk. induction l; intros n; cbn [DriversLoop]; unfold ChildrenOf, StopDriver; safe. Qed.
#[local] Hint Resolve DriversLoop_safe : handle.

Lemma Disconnect_safe c d ch : Safe (Connect.CoreDisconnectController c d ch).
Proof using EnvOk DrvOk. unfold Connect.CoreDisconnectController, ManagingDrivers. safe. Qed.
End Safety.
#[export] Hint Resolve Connect_safe Disconnect_safe : handle.

(** ** The world of drivers *)

(** A use of a service by a driver or a notification. *)
Inductive DriverCall :=
| Use (c : Call)
| UseConnect (Controller : Z) (Context_ : option (list Z)) (Path : Z) (Recursive : bool)
| UseDisconnect (Controller Driver Child : Z).

Section World.
Context {HS : Type} {Ops : HandleSetOps HS} {SetOk : HandleSetOk HS}.
Implicit Types st : HandleState HS.

(** What the functions of drivers do, and their results. *)
Record Behaviour := MkBehaviour {
  WhenDispatched : HandleState HS -> list DriverCall * unit;
  WhenAsked : Z -> Z -> Z -> HandleState HS -> list DriverCall * EFI_STATUS;
  WhenStarted : Z -> Z -> Z -> HandleState HS -> list DriverCall * EFI_STATUS;
  WhenStopped : Z -> Z -> list Z -> HandleState HS -> list DriverCall * EFI_STATUS;
  WhenPlatform : Z -> Z -> Z -> HandleState HS -> list DriverCall * (EFI_STATUS * Z);
  WhenBus : Z -> Z -> HandleState HS -> list DriverCall * (EFI_STATUS * Z);
  WhenFamily : Z -> HandleState HS -> list DriverCall * Z;
  WhenChecked : Z -> Z -> HandleState HS -> list DriverCall * EFI_STATUS;
  TreeDepth : nat }.

Definition UseService {Env : Environment HS} {Drv : Drivers HS} (Depth : nat) (c : DriverCall) : HM HS unit :=
  match c with
  | Use c => Perform c
  | UseConnect c x p r => ignore (Connect.CoreConnectController Depth c x p r)
  | UseDisconnect c d ch => ignore (Connect.CoreDisconnectController c d ch)
  end.

Fixpoint UseServices {Env : Environment HS} {Drv : Drivers HS} (Depth : nat) (cs : list DriverCall) : HM HS unit :=
  match cs with
  | [] => mret tt
  | c :: cs => UseService Depth c ;; UseServices Depth cs
  end.

(** A driver's function, which runs [Uses] for the calls it makes. *)
Definition Scripted (Uses : list DriverCall -> HM HS unit) {A} (f : HandleState HS -> list DriverCall * A) : HM HS A :=
  '(cs, a) ← gets f;
  Uses cs ;;
  mret a.

Definition WithConnections (Base : Environment HS) (B : Behaviour) (Uses : list DriverCall -> HM HS unit)
  (Disconnect : Z -> Z -> HM HS EFI_STATUS) (Connect_ : Z -> HM HS EFI_STATUS) : Environment HS :=
  MkEnvironment HS (Scripted Uses (WhenDispatched B)) Disconnect Connect_
    (@AllocatePool _ Base) (@BufferAvailable _ Base) (@gDxeCoreImageHandle _ Base) (@gEfiDevicePathProtocolGuid _ Base)
    (@IsDevicePathEnd _ Base) (@IsDevicePathEndInstance _ Base) (@NextDevicePathNode _ Base) (@GetDevicePathSize _ Base)
    (@SameBytes _ Base) (@Fuel _ Base).

Definition WithScripts (D : Drivers HS) (B : Behaviour) (Uses : list DriverCall -> HM HS unit) : Drivers HS :=
  MkDrivers HS (@gEfiDriverBindingProtocolGuid _ D) (@gEfiPlatformDriverOverrideProtocolGuid _ D)
    (@gEfiDriverFamilyOverrideProtocolGuid _ D) (@gEfiBusSpecificDriverOverrideProtocolGuid _ D) (@Version _ D) (@ImageHandle _ D)
    (fun b c p => Scripted Uses (WhenAsked B b c p)) (fun b c p => Scripted Uses (WhenStarted B b c p))
    (fun b c l => Scripted Uses (WhenStopped B b c l)) (fun i c h => Scripted Uses (WhenPlatform B i c h))
    (fun i h => Scripted Uses (WhenBus B i h)) (fun i => Scripted Uses (WhenFamily B i))
    ((fun _ p q => Scripted Uses (WhenChecked B p q)) <$> @gSecurity2 _ D) (@DuplicateDevicePath _ D).

(** The world up to a depth of nesting; at the depth 0 drivers only answer. *)
Fixpoint World (Base : Environment HS) (D : Drivers HS) (B : Behaviour) (depth : nat) : Environment HS * Drivers HS :=
  match depth with
  | O => (WithConnections Base B (fun _ => mret tt) (fun _ _ => mret EFI_NOT_FOUND) (fun _ => mret EFI_NOT_FOUND),
          WithScripts D B (fun _ => mret tt))
  | S depth =>
    let '(Env, Drv) := World Base D B depth in
    let Uses := UseServices (TreeDepth B) in
    (WithConnections Base B Uses (fun c d => Connect.CoreDisconnectController c d 0)
       (fun c => Connect.CoreConnectController (TreeDepth B) c None 0 true),
     WithScripts D B Uses)
  end.

Inductive ConnectReach (Base : Environment HS) (D : Drivers HS) : HandleState HS -> Prop :=
| ConnectReach_start s : SetOf s ∅ -> ConnectReach Base D (InitialState s)
| ConnectReach_call st B depth c st' : ConnectReach Base D st ->
    (let '(Env, Drv) := World Base D B depth in UseService (TreeDepth B) c st) = Done (tt, st') -> ConnectReach Base D st'.

Lemma UseService_safe {Env : Environment HS} {EnvOk : EnvironmentOk HS} {Drv : Drivers HS} {DrvOk : DriversOk HS} n c : Safe (UseService n c).
Proof using. pose proof Perform_safe. destruct c; cbn [UseService]; unfold ignore; safe. Qed.

Lemma UseServices_safe {Env : Environment HS} {EnvOk : EnvironmentOk HS} {Drv : Drivers HS} {DrvOk : DriversOk HS} n cs : Safe (UseServices n cs).
Proof using. pose proof UseService_safe. induction cs; cbn [UseServices]; safe. Qed.

Lemma Scripted_safe Uses {A} (f : HandleState HS -> list DriverCall * A) : (forall cs, Safe (Uses cs)) -> Safe (Scripted Uses f).
Proof using. intros HU. unfold Scripted. safe. Qed.

Lemma WithScripts_ok D B Uses : (forall cs, Safe (Uses cs)) -> DriversOk HS (Drv := WithScripts D B Uses).
Proof using.
  intros HU. split; intros; try (by apply Scripted_safe). cbn in H. apply fmap_Some in H as (g & _ & ->). by apply Scripted_safe.
Qed.

Lemma World_ok Base D B depth : (forall st Blocks p, @AllocatePool _ Base st Blocks = Some p -> Unused p Blocks st) ->
  EnvironmentOk HS (Env := (World Base D B depth).1) /\ DriversOk HS (Drv := (World Base D B depth).2).
Proof using.
  intros HB. induction depth as [|depth [IHe IHd]]; cbn [World].
  - split; [|apply WithScripts_ok; intros; apply Safe_ret]. split; [done|..]; intros; [|apply Safe_ret..]. apply Scripted_safe. intros. apply Safe_ret.
  - destruct (World Base D B depth) as [Env Drv]. simpl in IHe, IHd. pose proof (UseServices_safe (TreeDepth B)) as HU.
    split; [|by apply WithScripts_ok]. split; [done|by apply Scripted_safe|..]; intros; [apply Disconnect_safe|apply Connect_safe].
Qed.

(** C10: the handle database stays in order with the driver connection services.
    After any sequence of uses of the database and of ConnectController and
    DisconnectController, in which the functions of drivers (Supported, Start and
    Stop), of the override protocols and of the security protocol, and notifications,
    use all of these services again to any depth and depending on the state in any
    way, the invariant of the database holds and its lock is free. *)
Theorem ConnectReach_inv Base D st :
  (forall st Blocks p, @AllocatePool _ Base st Blocks = Some p -> Unused p Blocks st) ->
  ConnectReach Base D st -> Inv st /\ Locked st = false.
Proof using.
  intros HB HR. assert (Ready false st) as (? & ? & _); [|done]. induction HR as [s Hs|st B depth c st' _ IH E]; [by apply Initial_inv|].
  destruct (World_ok Base D B depth HB) as [HE HD]. destruct (World Base D B depth) as [Env Drv]. simpl in HE, HD.
  by apply (UseService_safe (TreeDepth B) c false st tt st').
Qed.
End World.

(** ** A concrete world *)

(** Drivers by what they do in a script. *)
Definition SampleDrivers : Drivers RbSet :=
  MkDrivers RbSet 10 11 12 13 (fun _ b => b) (fun _ _ => 0) (fun _ _ _ => mret EFI_UNSUPPORTED) (fun _ _ _ => mret EFI_UNSUPPORTED)
    (fun _ _ _ => mret EFI_UNSUPPORTED) (fun _ _ _ => mret (EFI_NOT_FOUND, 0)) (fun _ _ => mret (EFI_NOT_FOUND, 0)) (fun i => mret i) None (fun _ p => p).

(** The driver on the handle 3 manages devices with the protocol 77; what runs when
    the lock is dropped is a parameter. *)
Definition SampleBehaviour (Dispatch : HandleState RbSet -> list DriverCall) : Behaviour (HS := RbSet) :=
  MkBehaviour (fun st => (Dispatch st, tt))
    (fun b c p st => ([], if bool_decide ((default [] (offers st !! c)).*1 = [77]) then EFI_SUCCESS else EFI_UNSUPPORTED))
    (fun b c p st => ([Use (CallOpen c (Some 77) true 3 c EFI_OPEN_PROTOCOL_BY_DRIVER)], EFI_SUCCESS))
    (fun b c l st => ([Use (CallClose c (Some 77) 3 c)], EFI_SUCCESS))
    (fun _ _ _ _ => ([], (EFI_NOT_FOUND, 0))) (fun _ _ _ => ([], (EFI_NOT_FOUND, 0))) (fun _ _ => ([], 0)) (fun _ _ _ => ([], EFI_SUCCESS)) 3.

Definition SampleUse (Dispatch : HandleState RbSet -> list DriverCall) (c : DriverCall) (st : HandleState RbSet) : Outcome (unit * HandleState RbSet) :=
  let '(Env, Drv) := World SampleBase SampleDrivers (SampleBehaviour Dispatch) 1 in UseService 3 c st.
Definition SampleAfter (c : DriverCall) (st : HandleState RbSet) : HandleState RbSet :=
  match SampleUse (fun _ => []) c st with Done (_, st) => st | _ => st end.

(** A driver on the handle 3, and a device on the handle 6. *)
Definition SampleDevice : HandleState RbSet :=
  SampleAfter (Use (CallInstall (Some 0) (Some 77) 0 2000 true)) (SampleAfter (Use (CallInstall (Some 0) (Some 10) 0 1000 true)) (InitialState SampleSet)).

Lemma SampleAfter_reach c st : ConnectReach SampleBase SampleDrivers st -> ConnectReach SampleBase SampleDrivers (SampleAfter c st).
Proof.
  intros HR. unfold SampleAfter. destruct (SampleUse _ c st) as [[[] st']| |] eqn:E; [|done..].
  by apply (ConnectReach_call _ _ st (SampleBehaviour (fun _ => [])) 1 c).
Qed.

Lemma SampleDevice_reach : ConnectReach SampleBase SampleDrivers SampleDevice.
Proof. do 2 apply SampleAfter_reach. apply ConnectReach_start, SampleSet_empty. Qed.

Lemma ConnectReach_inv_witness : exists st : HandleState RbSet,
  OpenList <$> Interfaces st !! 5 = Some [MkOpen 3 6 EFI_OPEN_PROTOCOL_BY_DRIVER 1] /\ Inv st /\ Locked st = false.
Proof.
  exists (SampleAfter (UseConnect 6 None 0 true) SampleDevice). split; [by vm_compute|].
  apply (ConnectReach_inv SampleBase SampleDrivers _ SamplePool_unused). apply SampleAfter_reach, SampleDevice_reach.
Defined.

(** ** Uses in between *)

(** CoreDisconnectController does not look whether the controller is still there
    after it has dropped the lock: if its last interface is removed meanwhile, it
    walks the lists of a handle that is freed. *)
Theorem Disconnect_freed_controller :
  SampleUse (fun st => [Use (CallUninstall 6 (Some 77) 2000)]) (UseDisconnect 6 0 0) SampleDevice = Asserted.
Proof. by vm_compute. Qed.

(** The device with a second interface, the first one managed by the driver. *)
Definition SampleManaged : HandleState RbSet :=
  SampleAfter (Use (CallInstall (Some 6) (Some 78) 0 2001 true)) (SampleAfter (UseConnect 6 None 0 true) SampleDevice).

(** Opens the second interface for the device 6 as a driver, the second time that the
    lock is dropped. *)
Definition OpenLater (st : HandleState RbSet) : list DriverCall :=
  if mEfiLocateHandleRequest st =? mEfiLocateHandleRequest SampleManaged then [Use (CallLocateProtocol (Some 77) 0 true)]
  else [Use (CallOpen 6 (Some 78) true 6 6 EFI_OPEN_PROTOCOL_BY_DRIVER)].

(** The lock is dropped between counting the drivers and storing them: a driver that
    has opened the device meanwhile is stored behind the end of the buffer. *)
Theorem Disconnect_overruns : SampleUse OpenLater (UseDisconnect 6 0 0) SampleManaged = Asserted.
Proof. by vm_compute. Qed.

(** Replaces the driver 1000 on the handle 3 by the driver 1001 on the handle 8, after
    the driver on the handle 3 was looked up. *)
Definition ReplaceDriver (st : HandleState RbSet) : list DriverCall :=
  let Next := Use (CallLocateProtocol (Some 77) 0 true) in
  match mEfiLocateHandleRequest st - mEfiLocateHandleRequest SampleDevice with
  | 0 | 3 | 4 => [Next]
  | 5 => [Use (CallInstall (Some 0) (Some 10) 0 1001 true); Use (CallUninstall 3 (Some 10) 1000); Next]
  | _ => []
  end.

(** AddSortedDriverBindingProtocol counts a driver also if the array is full: with a
    driver that is replaced by another one in between, both of which the caller asks
    for, the number of drivers is 2 and the array has one element. *)
Theorem Connect_overruns : SampleUse ReplaceDriver (UseConnect 6 (Some [3; 8]) 0 false) SampleDevice = Asserted.
Proof. by vm_compute. Qed.
