(* ===== verification/ConnectOrder.v ===== *)
(** * Driver connection services: searches and the order of the drivers

    What the connection services look up while nothing else uses the database:
    [At D k st] says that the database offers [D] and that [k] more searches have
    numbers of their own.  Lookups and searches keep that and are functions of [D].

    Then the array that CoreConnectSingleController builds in such a database: the
    drivers of the override protocols come first, in their order of precedence, then
    all others from the highest to the lowest version, and every driver of the
    database is there once. *)
From Stdlib Require Import ZArith Lia Sorting.Sorted.
From stdpp Require Import base option gmap list sets fin_maps.
From S2P Require Import Prelude Handle HandleSet HandleInv HandleRules HandleInstall HandleOpen HandleUninstall HandleSafe.
From S2P Require Import HandleReach HandleSpec HandleLocate Connect ConnectReach.

(** What a handle offers of a protocol. *)
Definition InterfaceOn (D : gmap Z (list (Z * Z))) (h Protocol : Z) : option Z :=
  snd <$> head (filter (fun o => o.1 = Protocol) (default [] (D !! h))).

Section Search.
Context {HS : Type} {Ops : HandleSetOps HS} {SetOk : HandleSetOk HS} {Env : Environment HS} {Q : QuietEnvironment HS}.
Implicit Types st : HandleState HS.

(** The numbers on the handles are those of past searches. *)
Definition Numbered (k : Z) st : Prop :=
  map_Forall (fun _ hd => LocateRequest hd <= mEfiLocateHandleRequest st) (Handles st) /\
  0 <= mEfiLocateHandleRequest st /\ mEfiLocateHandleRequest st + k < 2 ^ 64.

Lemma Numbered_fresh k st : 1 <= k -> Numbered k st -> FreshRequest st.
Proof using.
  intros Hk (Hn & H0 & Hb) h hd Hh. specialize (Hn h hd Hh). simpl in Hn. unfold add64. rewrite u64_small by lia. lia.
Qed.

Lemma Numbered_less k k' st : k' <= k -> Numbered k st -> Numbered k' st.
Proof using. intros Hk (? & ? & ?). split_and!; [done|done|lia]. Qed.

Lemma Numbered_next k st : 0 <= k -> Numbered (k + 1) st -> Numbered k (SetLocateRequest (add64 (mEfiLocateHandleRequest st) 1) st).
Proof using.
  intros Hk (Hn & H0 & Hb). unfold add64. rewrite u64_small by lia. split_and!; simpl; [|lia|lia].
  intros h hd Hh. specialize (Hn h hd Hh). simpl in Hn. lia.
Qed.

Lemma FindEntryLoop_state Protocol l : forall st e st', FindEntryLoop Protocol l st = Done (e, st') -> st' = st.
Proof using. induction l as [|x l IH]; intros st e st' E; cbn [FindEntryLoop] in E; hm_inv; [done..|]. by eapply IH. Qed.

Lemma CoreFindProtocolEntry_state Protocol st e st' : CoreFindProtocolEntry Protocol false st = Done (e, st') -> st' = st.
Proof using.
  intros E. unfold CoreFindProtocolEntry, ASSERT_LOCKED in E. rewrite ?andb_false_r in E. hm_inv; rewrite ?andb_false_r in *; try done.
  all: by eapply FindEntryLoop_state.
Qed.

Lemma ByProtocolLoop_numbered k l : forall Key_ i st r st', Numbered k st -> ByProtocolLoop Key_ i l st = Done (r, st') -> Numbered k st'.
Proof using.
  induction l as [|p l IH]; intros Key_ i st r st' HN E; cbn [ByProtocolLoop] in E; unfold UpdateHandle in E; hm_inv; [done| |by eapply IH].
  destruct HN as (Hn & Hz & Hb). split_and!; simpl; [|done|done]. apply map_Forall_insert_2; [simpl; lia|done].
Qed.

Lemma LocateLoop_numbered k fuel : forall Pos st r st', Numbered k st -> LocateLoop fuel CoreGetNextLocateByProtocol Pos st = Done (r, st') -> Numbered k st'.
Proof using.
  induction fuel as [|fuel IH]; intros Pos st r st' HN E; [done|]. cbn [LocateLoop] in E. unfold CoreGetNextLocateByProtocol at 1 in E.
  apply HM_bind_Done in E as ([[h i] Pos'] & st1 & E1 & E2). apply (ByProtocolLoop_numbered k) in E1; [|done]. hm_inv; [done|]. by eapply IH.
Qed.

Lemma InternalCoreLocateHandle_numbered k Protocol Key_ Size given st r st' : 0 <= k ->
  Numbered (k + 1) st -> InternalCoreLocateHandle ByProtocol (Some Protocol) Key_ (Some Size) given st = Done (r, st') -> Numbered k st'.
Proof using.
  intros Hk HN E. assert (HL : Numbered k st) by (by apply (Numbered_less (k + 1)); [lia|]).
  unfold InternalCoreLocateHandle, LocateStart in E.
  change (ByProtocol =? AllHandles) with false in E. change (ByProtocol =? ByRegisterNotify) with false in E. change (ByProtocol =? ByProtocol) with true in E.
  cbn [andb] in E. cbv iota in E.
  destruct (_ && negb given); [by hm_inv|]. hm_inv.
  all: try match goal with H : CoreFindProtocolEntry _ _ _ = Done _ |- _ => apply CoreFindProtocolEntry_state in H; subst end.
  all: try done.
  all: eapply LocateLoop_numbered; [|eassumption]; by apply Numbered_next.
Qed.

(** ** Lookups *)

(** The database offers [D], outside of the lock. *)
Definition At (D : gmap Z (list (Z * Z))) (High : bool) (k : Z) st : Prop := Ready High st /\ offers st = D /\ Numbered k st.

(** A program that returns [a] and keeps what the database offers. *)
Definition Looks {A} D High k k' (m : HM HS A) (P : A -> Prop) : Prop :=
  forall st, At D High k st -> exists a st', m st = Done (a, st') /\ At D High k' st' /\ P a.

Lemma Looks_ret {A} D High k (a : A) (P : A -> Prop) : P a -> Looks D High k k (mret a) P.
Proof using. intros HP st HA. by exists a, st. Qed.

Lemma Looks_bind {A B} D High k k1 k2 (m : HM HS A) (f : A -> HM HS B) (P : A -> Prop) (R : B -> Prop) :
  Looks D High k k1 m P -> (forall a, P a -> Looks D High k1 k2 (f a) R) -> Looks D High k k2 (m ≫= f) R.
Proof using.
  intros Hm Hf st HA. destruct (Hm st HA) as (a & st1 & E & HA1 & HP). destruct (Hf a HP st1 HA1) as (b & st2 & E2 & HA2 & HR).
  exists b, st2. split; [|done]. by rewrite (HM_bind_run _ _ _ _ _ E).
Qed.

Lemma Looks_mono {A} D High k k' (m : HM HS A) (P P' : A -> Prop) : (forall a, P a -> P' a) -> Looks D High k k' m P -> Looks D High k k' m P'.
Proof using. intros HP Hm st HA. destruct (Hm st HA) as (a & st' & E & HA' & H). exists a, st'. split_and!; [done|done|by apply HP]. Qed.

Lemma Looks_less {A} D High k k' (m : HM HS A) (P : A -> Prop) : k' <= k -> Looks D High k k m P -> Looks D High k k' m P.
Proof using.
  intros Hk Hm st HA. destruct (Hm st HA) as (a & st' & E & (HR & HO & HN) & HP). exists a, st'. split_and!; [done| |done].
  split_and!; [done|done|by apply (Numbered_less k)].
Qed.

Lemma Looks_gets {A} D High k (f : HandleState HS -> A) (P : A -> Prop) : (forall st, P (f st)) -> Looks D High k k (gets f) P.
Proof using. intros HP st HA. by exists (f st), st. Qed.

Lemma Looks_pure {A} D High k (m : HM HS A) (a : A) (P : A -> Prop) : (forall st, m st = Done (a, st)) -> P a -> Looks D High k k m P.
Proof using. intros Hm HP st HA. by exists a, st. Qed.

Lemma ValidateHandle_looks D High k h :
  Looks D High k k (ValidateHandle h) (fun s => s = if decide (is_Some (D !! h)) then EFI_SUCCESS else EFI_INVALID_PARAMETER).
Proof using Q.
  intros st ((I & Hl & Ha) & <- & HN). pose proof I as [L _]. unfold ValidateHandle. rewrite Acquire_run by done.
  rewrite (HM_bind_run _ _ _ _ _ (CoreValidateHandle_run (SetLocked true st) h L eq_refl)). rewrite Release_run by done.
  eexists _, _. split; [done|]. rewrite SetLocked_back by done. split; [done|]. simpl.
  assert (is_Some (Handles st !! h) <-> is_Some (offers st !! h)) as Hiff by (unfold offers; by rewrite lookup_fmap, fmap_is_Some).
  destruct (decide (is_Some (offers st !! h))); [by rewrite bool_decide_eq_true_2 by tauto|by rewrite bool_decide_eq_false_2 by tauto].
Qed.

Lemma head_offer st Protocol l : (forall q, q ∈ l -> is_Some (offer st q)) ->
  head (filter (fun o => o.1 = Protocol) (omap (offer st) l)) = head (filter (fun q => fst <$> offer st q = Some Protocol) l) ≫= offer st.
Proof using.
  induction l as [|q l IH]; intros Hl; [done|]. destruct (Hl q) as [[P i] Ho]; [by left|]. csimpl. rewrite Ho. csimpl. rewrite !filter_cons, Ho.
  simpl. destruct (decide (P = Protocol)) as [->|Hn].
  - rewrite decide_True by done. simpl. by rewrite Ho.
  - rewrite decide_False by congruence. apply IH. intros x Hx. apply Hl. by right.
Qed.

Lemma provider_interface st h hd Protocol : Linked st -> Handles st !! h = Some hd ->
  Interface ∘ snd <$> provider st hd Protocol = InterfaceOn (offers st) h Protocol.
Proof using.
  intros L Hh. unfold InterfaceOn. rewrite (offers_Some st h hd Hh). simpl.
  rewrite (head_offer st Protocol (Protocols hd) (Linked_offers st h hd L Hh)). unfold provider.
  destruct (head _) as [p|] eqn:Ep; [|done]. destruct (head_filter_elem _ _ _ Ep) as [Hin _].
  destruct (Linked_interface st h hd p L Hh Hin) as (_ & prot & en & Hp & _ & He & _). simpl. rewrite Hp. simpl. unfold offer. rewrite Hp. simpl. by rewrite He.
Qed.

(** Memory never runs out. *)
Class EnoughMemory : Prop := {
  enough_pool st Blocks : is_Some (AllocatePool st Blocks);
  enough_buffers st n : BufferAvailable st n = true }.
Context {Memory : EnoughMemory}.

(** The open lists of a handle, and the drivers that manage it. *)
Definition Opens st (h : Z) : list OPEN_PROTOCOL_DATA :=
  match Handles st !! h with
  | Some hd => Protocols hd ≫= (fun p => from_option OpenList [] (Interfaces st !! p))
  | None => []
  end.
Definition Agents (l : list OPEN_PROTOCOL_DATA) : list Z := AgentHandle <$> filter IsManaged l.
Definition Managers st (h : Z) : list Z := Agents (Opens st h).

Lemma Agents_app l k : Agents (l ++ k) = Agents l ++ Agents k.
Proof using. unfold Agents. by rewrite filter_app, fmap_app. Qed.

Lemma Agents_bind {A} (f g : A -> list OPEN_PROTOCOL_DATA) l : (forall x, x ∈ l -> Agents (f x) = Agents (g x)) -> Agents (l ≫= f) = Agents (l ≫= g).
Proof using.
  induction l as [|x l IH]; intros Hl; [done|]. csimpl. rewrite !Agents_app, (Hl x) by (by left). f_equal. apply IH. intros y Hy. apply Hl. by right.
Qed.

Lemma Agents_count P l : Agents (count_first P l) = Agents l.
Proof using.
  unfold Agents. induction l as [|x l IH]; [done|]. simpl. destruct (P x); rewrite !filter_cons; change (IsManaged (SetOpenCount _ x)) with (IsManaged x);
    destruct (decide (IsManaged x)); csimpl; by rewrite ?IH.
Qed.

Lemma Agents_rule Image_ Controller l Room :
  Agents (OpenRule Room Image_ Controller EFI_OPEN_PROTOCOL_BY_HANDLE_PROTOCOL l).2 = Agents l.
Proof using.
  unfold OpenRule. ground_bools. rewrite andb_false_r. cbn [orb andb negb]. cbv iota. destruct (existsb _ l); [apply Agents_count|].
  destruct (Image_ =? 0); [done|]. destruct Room; [|done]. cbn [andb snd]. rewrite Agents_app. by rewrite app_nil_r.
Qed.

Lemma CoreHandleProtocol_run High st h Protocol : Ready High st ->
  exists r st', CoreHandleProtocol h (Some Protocol) true st = Done (r, st') /\ Ready High st' /\ offers st' = offers st /\
    Handles st' = Handles st /\ mEfiLocateHandleRequest st' = mEfiLocateHandleRequest st /\ (forall c, Managers st' c = Managers st c) /\
    match InterfaceOn (offers st) h Protocol with
    | Some i => r = (EFI_SUCCESS, Some i)
    | None => EFI_ERROR r.1 = true
    end.
Proof using Q Memory.
  intros HR. pose proof HR as ([L N] & Hl & Ha).
  pose proof (CoreOpenProtocol_run High st h Protocol true gDxeCoreImageHandle 0 EFI_OPEN_PROTOCOL_BY_HANDLE_PROTOCOL HR eq_refl) as E.
  fold (CoreHandleProtocol h (Some Protocol) true) in E.
  pose proof (offers_OpenReference High st h Protocol gDxeCoreImageHandle 0 EFI_OPEN_PROTOCOL_BY_HANDLE_PROTOCOL HR) as Ho.
  destruct (OpenReference st h Protocol gDxeCoreImageHandle 0 EFI_OPEN_PROTOCOL_BY_HANDLE_PROTOCOL) as [r st'] eqn:ER.
  exists r, st'. split; [done|].
  split; [by apply (CoreOpenProtocol_safe h (Some Protocol) true gDxeCoreImageHandle 0 EFI_OPEN_PROTOCOL_BY_HANDLE_PROTOCOL High st r st')|]. split; [exact Ho|]. clear E Ho.
  unfold OpenReference in ER. destruct (Handles st !! h) as [hd|] eqn:Hh.
  2:{ injection ER as <- <-. split_and!; [done..|]. apply offers_None in Hh. unfold InterfaceOn. by rewrite Hh. }
  change (EFI_ERROR (AttributesStatus st h gDxeCoreImageHandle 0 EFI_OPEN_PROTOCOL_BY_HANDLE_PROTOCOL)) with false in ER. cbv iota in ER.
  rewrite <- (provider_interface st h hd Protocol L Hh). destruct (provider st hd Protocol) as [[p prot]|] eqn:Ep; [|by injection ER as <- <-].
  apply provider_Some in Ep as [_ Hp]. rewrite Prepared_by_handle, Hp in ER. cbv zeta in ER. cbn [from_option id] in ER.
  pose proof (OpenRule_by_handle (bool_decide (is_Some (AllocatePool (SetLocked true st) []))) gDxeCoreImageHandle 0 (OpenList prot)) as Hr.
  pose proof (Agents_rule gDxeCoreImageHandle 0 (OpenList prot) (bool_decide (is_Some (AllocatePool (SetLocked true st) [])))) as HA.
  destruct (OpenRule _ _ _ _ _) as [s l]. simpl in Hr, HA. change (EFI_OPEN_PROTOCOL_BY_HANDLE_PROTOCOL =? _) with false in ER.
  destruct Hr as [->|[Hm _]]; [|apply bool_decide_eq_false_1 in Hm; by destruct Hm; apply enough_pool].
  injection ER as <- <-. split_and!; [done|done| |done]. intros c. unfold Managers, Opens. simpl. destruct (Handles st !! c) as [hc|]; [|done].
  apply Agents_bind. intros x _. destruct (decide (p = x)) as [<-|Hne]; [by rewrite lookup_insert_eq, Hp|by rewrite lookup_insert_ne].
Qed.

Lemma CoreHandleProtocol_looks D High k h Protocol :
  Looks D High k k (CoreHandleProtocol h (Some Protocol) true) (fun r => match InterfaceOn D h Protocol with
    | Some i => r = (EFI_SUCCESS, Some i)
    | None => EFI_ERROR r.1 = true
    end).
Proof using Q Memory.
  intros st (HR & <- & HN). destruct (CoreHandleProtocol_run High st h Protocol HR) as (r & st' & E & HR' & HO & HH & HE & _ & Hr).
  exists r, st'. split; [done|]. split; [|done]. split_and!; [done|done|]. unfold Numbered. by rewrite HH, HE.
Qed.

Lemma CoreLocateHandleBuffer_looks D High k Protocol : 0 <= k ->
  Looks D High (k + 2) k (CoreLocateHandleBuffer ByProtocol (Some Protocol) 0 true true) (fun r => exists Found,
    r = (if decide (Found = []) then EFI_NOT_FOUND else EFI_SUCCESS, Z.of_nat (length Found), Found) /\ NoDup Found /\
    forall h, h ∈ Found <-> Protocol ∈ (default [] (D !! h)).*1).
Proof using Q Memory.
  intros Hk st ((I & Hl & Ha) & <- & HN). pose proof I as [L _]. unfold CoreLocateHandleBuffer. cbn [negb]. cbv iota. rewrite Acquire_run by done.
  set (st1 := SetLocked true st). assert (H1 : Held High st1) by (split_and!; done). assert (HN1 : Numbered (k + 1 + 1) st1) by (by rewrite <- Z.add_assoc).
  destruct (InternalCoreLocateHandle_run High st1 Protocol 0 0 false H1) as (st2 & E2 & H2 & V2); [by apply (Numbered_fresh (k + 1 + 1)); [lia|]|done|done|].
  assert (HN2 : Numbered (k + 1) st2) by (eapply InternalCoreLocateHandle_numbered; [lia|exact HN1|exact E2]).
  set (Found := supporting st1 Protocol) in *. rewrite (HM_bind_run _ _ _ _ _ E2).
  assert (HF : NoDup Found /\ forall h, h ∈ Found <-> Protocol ∈ (default [] (offers st !! h)).*1).
  { split; [apply NoDup_first_seen|]. intros h. unfold Found, supporting. rewrite elem_of_first_seen, (handles_of_protocol st1 Protocol h L), elem_of_nil. unfold protocols_on.
    change (offers st1) with (offers st). tauto. }
  assert (HO : forall st', Held High st' -> view st' = view st2 -> Numbered k st' -> At (offers st) High k (SetLocked false st')).
  { intros st' (I' & L' & A') HV HN'. split; [split_and!; [by apply (Inv_view st')|done|done]|]. split; [|done].
    change (offers (SetLocked false st')) with (offers st'). rewrite (offers_view st2 st' HV). by apply (offers_view st1). }
  unfold LocateResult. destruct Found as [|h l] eqn:EF.
  - cbn [EFI_ERROR andb]. rewrite bool_decide_eq_false_2 by done. cbn [negb]. rewrite Release_run by apply H2.
    eexists _, _. split; [done|]. split; [apply HO; [done|done|by apply (Numbered_less (k + 1)); [lia|]]|]. exists []. split; [done|exact HF].
  - rewrite (proj2 (Z.ltb_lt 0 _)) by (simpl; lia). cbn [EFI_ERROR andb]. rewrite bool_decide_eq_true_2 by done. cbn [negb]. hm_run.
    rewrite enough_buffers. cbn [negb]. cbv iota.
    destruct (InternalCoreLocateHandle_run High st2 Protocol 0 (8 * Z.of_nat (length (h :: l))) true H2) as (st3 & E3 & H3 & V3);
      [by apply (Numbered_fresh (k + 1)); [lia|]|done|lia|].
    assert (HN3 : Numbered k st3) by (eapply InternalCoreLocateHandle_numbered; [lia|exact HN2|exact E3]).
    assert (supporting st2 Protocol = h :: l) as ES.
    { rewrite <- EF. unfold supporting, handles_of, interfaces_of. unfold view in V2. injection V2 as _ _ _ V3' V4 V5 _. by rewrite V3', V4, V5. }
    rewrite (HM_bind_run _ _ _ _ _ E3), ES. unfold LocateResult. rewrite Release_run by apply H3. rewrite Z.ltb_irrefl. cbn [EFI_ERROR].
    eexists _, _. split; [done|]. split; [by apply HO|]. exists (h :: l). split; [|exact HF]. rewrite decide_False by done.
    replace (8 * Z.of_nat (length (h :: l)) / 8) with (Z.of_nat (length (h :: l))) by (rewrite Z.mul_comm, Z.div_mul; lia).
    by rewrite Nat2Z.id, take_ge.
Qed.

(** The interface that the search for a protocol finds first. *)
Definition Located (D : gmap Z (list (Z * Z))) (Protocol : Z) (r : EFI_STATUS * Z) : Prop :=
  (EFI_ERROR r.1 = true /\ forall h, Protocol ∉ (default [] (D !! h)).*1) \/
  (r.1 = EFI_SUCCESS /\ exists h, (Protocol, r.2) ∈ default [] (D !! h)).

Lemma entry_interface st e en p : Linked st -> Entries st !! e = Some en -> p ∈ EntryProtocols en ->
  exists prot hd, Interfaces st !! p = Some prot /\ ProtProtocol prot = e /\ ProtHandle prot ≠ 0 /\ Handles st !! ProtHandle prot = Some hd /\ p ∈ Protocols hd.
Proof using.
  intros L He Hp. destruct (linked_by_entry _ _ _ _ _ _ _ L e) as [_ Hbe]. rewrite (entry_links_Some _ _ _ He) in Hbe.
  apply Hbe, fmap_Some in Hp as (prot & Hp & Hpe). destruct (linked_by_handle _ _ _ _ _ _ _ L (ProtHandle prot)) as [_ Hbh].
  assert (p ∈ links (Protocols <$> Handles st) (ProtHandle prot)) as Hl by (apply Hbh; by rewrite Hp). unfold links in Hl.
  rewrite lookup_fmap in Hl. destruct (Handles st !! ProtHandle prot) as [hd|] eqn:Hh; [|by apply elem_of_nil in Hl].
  exists prot, hd. split_and!; [done|done|destruct (Linked_nonzero st L) as (H0 & _); congruence|done|exact Hl].
Qed.

Lemma CoreLocateProtocol_looks D High k Protocol : 0 <= k ->
  Looks D High (k + 1) k (CoreLocateProtocol (Some Protocol) 0 true) (Located D Protocol).
Proof using Q.
  intros Hk st ((I & Hl & Ha) & <- & HN). pose proof I as [L _]. unfold CoreLocateProtocol. cbn [negb]. cbv iota. hm_run. rewrite Hl.
  rewrite Acquire_run by done. hm_run. set (st1 := SetLocateRequest _ _). change (0 =? 0) with true. cbv iota.
  assert (HN1 : Numbered k st1) by (apply (Numbered_next k (SetLocked true st)); [done|exact HN]).
  destruct (CoreFindProtocolEntry_run st1 Protocol L eq_refl) as (e & Ee & He). rewrite bind_run, (HM_bind_run _ _ _ _ _ Ee).
  pose proof (fun h => handles_of_protocol st1 Protocol h L) as Hon. rewrite (interfaces_of_entry st1 Protocol e L He) in Hon.
  unfold protocols_on in Hon. change (offers st1) with (offers st) in Hon.
  assert (HO : forall st', view st' = view st -> Locked st' = true -> AtNotify st' = High -> Numbered k st' -> At (offers st) High k (SetLocked false st')).
  { intros st' HV _ HA HN'. split; [split_and!; [by apply (Inv_view st)|done|done]|]. split; [by apply (offers_view st)|done]. }
  assert (HNone : entry_links (Entries st1) e = [] -> forall h, Protocol ∉ (default [] (offers st !! h)).*1).
  { intros E0 h. rewrite <- Hon, E0. apply not_elem_of_nil. }
  destruct (Z.eqb_spec e 0) as [->|He0].
  { hm_run. rewrite Release_run by done. eexists _, _. split; [done|]. split; [by apply HO|]. left. split; [done|]. apply HNone.
    unfold entry_links. destruct (Linked_nonzero st L) as (_ & H0 & _). change (Entries st1) with (Entries st). by rewrite H0. }
  destruct He as [[? _]|[_ He]]; [done|]. apply fmap_Some in He as (en & Hen & Hid). rewrite (entry_links_Some _ _ _ Hen) in HNone. hm_run.
  unfold CoreGetNextLocateByProtocol. cbn [SearchKey Remaining]. destruct (EntryProtocols en) as [|p l] eqn:Ep; cbn [ByProtocolLoop].
  { hm_run. cbn [Z.eqb]. rewrite Release_run by done. eexists _, _. split; [done|]. split; [by apply HO|]. left. split; [done|]. by apply HNone. }
  destruct (entry_interface st1 e en p L Hen) as (prot & hd & Hp & Hpe & Hh0 & Hh & Hin); [rewrite Ep; by left|]. hm_run.
  rewrite (proj2 (Z.eqb_neq (LocateRequest hd) _)).
  2:{ assert (FreshRequest st) as HF by (apply (Numbered_fresh (k + 1)); [lia|done]). exact (HF _ _ Hh). }
  cbn [negb]. cbv iota. unfold UpdateHandle. hm_run. rewrite (proj2 (Z.eqb_neq (ProtHandle prot) 0)) by done. rewrite Release_run by done.
  eexists _, _. split; [done|]. split.
  - apply HO; [|done|done|].
    + unfold view. simpl. by rewrite (Protocols_same _ (ProtHandle prot) hd).
    + destruct HN1 as (Hn & H0 & Hb). split_and!; [|done|done]. simpl. apply map_Forall_insert_2; [simpl in *; lia|exact Hn].
  - right. split; [done|]. exists (ProtHandle prot). simpl. rewrite (offers_Some st (ProtHandle prot) hd Hh). simpl. apply list_elem_of_omap. exists p.
    split; [done|]. unfold offer. change (Interfaces st) with (Interfaces st1). rewrite Hp. simpl. rewrite Hpe. change (Entries st) with (Entries st1). rewrite Hen. simpl.
    by rewrite Hid.
Qed.

(** ** Driver bindings *)

Context {Drv : Drivers HS}.

Definition BindingOn (D : gmap Z (list (Z * Z))) (h : Z) : Z := default 0 (InterfaceOn D h gEfiDriverBindingProtocolGuid).

Lemma DriverBindingOf_looks D High k h : Looks D High k k (DriverBindingOf h) (fun b => b = BindingOn D h).
Proof using Q Memory.
  unfold DriverBindingOf. eapply Looks_bind; [apply CoreHandleProtocol_looks|]. intros [s o] Hr. apply Looks_ret. unfold BindingOn.
  destruct (InterfaceOn _ _ _); [by injection Hr as -> ->|]. simpl in Hr. by rewrite Hr.
Qed.

Lemma DriverBindingOf_run High st h : Ready High st -> exists st', DriverBindingOf h st = Done (BindingOn (offers st) h, st') /\ Ready High st' /\
  offers st' = offers st /\ forall c, Managers st' c = Managers st c.
Proof using Q Memory.
  intros HR. destruct (CoreHandleProtocol_run High st h gEfiDriverBindingProtocolGuid HR) as ([s o] & st' & E & HR' & HO & _ & _ & HM & Hr).
  exists st'. split; [|done]. unfold DriverBindingOf. rewrite (HM_bind_run _ _ _ _ _ E). unfold BindingOn.
  destruct (InterfaceOn _ _ _); [by injection Hr as -> ->|]. simpl in Hr. by rewrite Hr.
Qed.
End Search.

(** ** Lists without repetition *)

(** Adds a driver unless it is NULL or there. *)
Definition push (b : Z) (l : list Z) : list Z := if decide (b = 0 \/ b ∈ l) then l else l ++ [b].
Fixpoint pushes (bs l : list Z) : list Z :=
  match bs with
  | [] => l
  | b :: bs => pushes bs (push b l)
  end.

Lemma pushes_app bs bs' l : pushes (bs ++ bs') l = pushes bs' (pushes bs l).
Proof. revert l. induction bs as [|b bs IH]; intros l; simpl; [done|apply IH]. Qed.

Lemma push_mono b l x : x ∈ l -> x ∈ push b l.
Proof. intros Hx. unfold push. destruct (decide _); [done|]. apply elem_of_app. by left. Qed.

Lemma elem_of_push b l x : x ∈ push b l <-> x ∈ l \/ (x = b /\ b ≠ 0).
Proof. unfold push. destruct (decide _) as [[->|H]|H]; [|naive_solver|rewrite elem_of_app, list_elem_of_singleton; naive_solver]. naive_solver. Qed.

Lemma elem_of_pushes bs l x : x ∈ pushes bs l <-> x ∈ l \/ (x ∈ bs /\ x ≠ 0).
Proof.
  revert l. induction bs as [|b bs IH]; intros l; simpl; [rewrite elem_of_nil; tauto|]. rewrite IH, elem_of_push, elem_of_cons.
  destruct (decide (x = b)) as [->|]; [destruct (decide (b = 0)); tauto|naive_solver].
Qed.

Lemma push_prefix b l : l `prefix_of` push b l.
Proof. unfold push. destruct (decide _); [done|]. by exists [b]. Qed.
Lemma pushes_prefix bs l : l `prefix_of` pushes bs l.
Proof. revert l. induction bs as [|b bs IH]; intros l; simpl; [done|]. etrans; [apply push_prefix|apply IH]. Qed.

Section Order.
Context {HS : Type} {Ops : HandleSetOps HS} {SetOk : HandleSetOk HS} {Env : Environment HS} {Q : QuietEnvironment HS}.
Context {Memory : EnoughMemory (HS := HS)} {Drv : Drivers HS}.
Context (D : gmap Z (list (Z * Z))) (High : bool).

(** ** The array *)

(** The handles with a Driver Binding Protocol. *)
Definition DriverHandles (Buffer : list Z) : Prop :=
  NoDup Buffer /\ forall h, h ∈ Buffer <-> gEfiDriverBindingProtocolGuid ∈ (default [] (D !! h)).*1.

(** Every driver has a structure of its own. *)
Definition OwnBindings (Buffer : list Z) : Prop :=
  forall h, h ∈ Buffer -> BindingOn D h ≠ 0 /\ forall h', h' ∈ Buffer -> BindingOn D h' = BindingOn D h -> h' = h.

Record SortingOk (Buffer : list Z) (Sg : SORTING) : Prop := {
  sorting_length : length (HandleBuffer Sg) = length Buffer;
  sorting_handles i h : Buffer !! i = Some h ->
    HandleBuffer Sg !! i = Some h \/ (HandleBuffer Sg !! i = Some 0 /\ BindingOn D h ∈ SortedProtocols Sg);
  sorting_distinct : NoDup (SortedProtocols Sg);
  sorting_drivers b : b ∈ SortedProtocols Sg -> b ≠ 0 /\ b ∈ BindingOn D <$> Buffer;
  sorting_number : NumberOfSorted Sg = length (SortedProtocols Sg);
  sorting_live h : OwnBindings Buffer -> h ∈ HandleBuffer Sg -> h ≠ 0 -> BindingOn D h ∉ SortedProtocols Sg }.

Lemma BindingOn_handle Buffer h : DriverHandles Buffer -> BindingOn D h ≠ 0 -> h ∈ Buffer.
Proof using.
  intros [_ HB] Hb. apply HB. unfold BindingOn, InterfaceOn in Hb.
  destruct (head (filter _ _)) as [o|] eqn:Eo; [|done]. apply list_elem_of_fmap. exists o.
  assert (o ∈ filter (fun o : Z * Z => o.1 = gEfiDriverBindingProtocolGuid) (default [] (D !! h))) as Hin.
  { destruct (filter _ _); [done|]. injection Eo as ->. by left. }
  apply list_elem_of_filter in Hin as [-> Hin]. done.
Qed.

Lemma sorting_capacity Buffer l : NoDup l -> (forall b, b ∈ l -> b ∈ BindingOn D <$> Buffer) -> (length l <= length Buffer)%nat.
Proof using.
  intros HN Hl. rewrite <- (length_fmap (BindingOn D) Buffer). apply submseteq_length, NoDup_submseteq; [done|exact Hl].
Qed.

Lemma sorting_elem Buffer Sg h : SortingOk Buffer Sg -> h ∈ HandleBuffer Sg -> h ≠ 0 -> h ∈ Buffer.
Proof using.
  intros Ok Hh H0. apply list_elem_of_lookup in Hh as [i Hi].
  assert (i < length Buffer)%nat as Hlt by (rewrite <- (sorting_length _ _ Ok); by eapply lookup_lt_Some).
  apply lookup_lt_is_Some in Hlt as [h0 H1]. destruct (sorting_handles _ _ Ok i h0 H1) as [H2|[H2 _]]; rewrite Hi in H2; injection H2 as ->; [|done].
  by eapply list_elem_of_lookup_2.
Qed.

Lemma BindingOn_0 : D !! 0 = None -> BindingOn D 0 = 0.
Proof using. intros H0. unfold BindingOn, InterfaceOn. by rewrite H0. Qed.

(** Adds the driver of a handle. *)
Definition Pushes (Buffer : list Z) (bs : list Z) (Sg Sg' : SORTING) : Prop :=
  SortingOk Buffer Sg' /\ SortedProtocols Sg' = pushes bs (SortedProtocols Sg).

Lemma push_sorting Buffer Sg h : DriverHandles Buffer -> SortingOk Buffer Sg -> BindingOn D h ≠ 0 -> BindingOn D h ∉ SortedProtocols Sg ->
  Pushes Buffer [BindingOn D h] Sg (MkSorting ((fun x => if x =? h then 0 else x) <$> HandleBuffer Sg)
    (if (NumberOfSorted Sg <? length (HandleBuffer Sg))%nat then SortedProtocols Sg ++ [BindingOn D h] else SortedProtocols Sg)
    (NumberOfSorted Sg + 1)).
Proof using.
  intros HB Ok H0 Hn. pose proof (BindingOn_handle Buffer h HB H0) as Hin.
  assert (NoDup (SortedProtocols Sg ++ [BindingOn D h])) as HN.
  { apply NoDup_app. split_and!; [apply (sorting_distinct _ _ Ok)| |apply NoDup_singleton]. intros x Hx ->%list_elem_of_singleton. done. }
  assert (forall b, b ∈ SortedProtocols Sg ++ [BindingOn D h] -> b ≠ 0 /\ b ∈ BindingOn D <$> Buffer) as HD.
  { intros b [Hb| ->%list_elem_of_singleton]%elem_of_app; [by apply (sorting_drivers _ _ Ok)|]. split; [done|]. apply list_elem_of_fmap. by exists h. }
  pose proof (sorting_capacity Buffer _ HN (fun b Hb => proj2 (HD b Hb))) as HC. rewrite length_app in HC. simpl in HC.
  rewrite (proj2 (Nat.ltb_lt _ _)) by (rewrite (sorting_number _ _ Ok), (sorting_length _ _ Ok); lia).
  split; [|simpl; unfold push; rewrite decide_False by tauto; done]. split; simpl.
  - rewrite length_fmap. apply (sorting_length _ _ Ok).
  - intros i x Hx. rewrite list_lookup_fmap. destruct (sorting_handles _ _ Ok i x Hx) as [->|[-> Hs]]; simpl.
    + destruct (Z.eqb_spec x h) as [->|]; [right|by left]. split; [done|]. apply elem_of_app. right. by left.
    + right. split; [by destruct h|]. apply elem_of_app. by left.
  - done.
  - exact HD.
  - rewrite length_app, (sorting_number _ _ Ok). done.
  - intros x HO (y & -> & Hy)%list_elem_of_fmap Hne. destruct (Z.eqb_spec y h) as [->|Hyh]; [done|]. intros [Hs|Hs%list_elem_of_singleton]%elem_of_app.
    + by apply (sorting_live _ _ Ok y HO Hy Hne).
    + apply Hyh. apply (HO h Hin); [by apply (sorting_elem Buffer Sg)|done].
Qed.

Lemma AddBinding_looks k Buffer h Sg : DriverHandles Buffer -> SortingOk Buffer Sg ->
  Looks D High k k (AddBinding h Sg) (Pushes Buffer [BindingOn D h] Sg).
Proof using Q Memory.
  intros HB Ok. unfold AddBinding. eapply Looks_bind; [apply ValidateHandle_looks|]. intros s ->.
  assert (Same : BindingOn D h = 0 \/ BindingOn D h ∈ SortedProtocols Sg -> Pushes Buffer [BindingOn D h] Sg Sg).
  { intros Hs. split; [done|]. simpl. unfold push. by rewrite decide_True. }
  destruct (decide (is_Some (D !! h))) as [_|Hd]; cbn [EFI_ERROR].
  2:{ apply Looks_ret, Same. left. unfold BindingOn, InterfaceOn. by destruct (D !! h); [destruct Hd|]. }
  eapply Looks_bind; [apply DriverBindingOf_looks|]. intros b ->. destruct (Z.eqb_spec (BindingOn D h) 0) as [E|E]; [apply Looks_ret, Same; by left|].
  destruct (existsb (Z.eqb (BindingOn D h)) (SortedProtocols Sg)) eqn:EX.
  - apply Looks_ret, Same. right. apply existsb_exists in EX as (x & Hx & ->%Z.eqb_eq). by apply list_elem_of_In.
  - apply Looks_ret, push_sorting; [done..|]. intros Hin. apply list_elem_of_In in Hin.
    assert (existsb (Z.eqb (BindingOn D h)) (SortedProtocols Sg) = true) as Ht by (apply existsb_exists; eexists; split; [done|apply Z.eqb_refl]). congruence.
Qed.

Lemma Pushes_trans Buffer bs bs' Sg Sg1 Sg2 : Pushes Buffer bs Sg Sg1 -> Pushes Buffer bs' Sg1 Sg2 -> Pushes Buffer (bs ++ bs') Sg Sg2.
Proof using. intros [_ H1] [O2 H2]. split; [done|]. by rewrite pushes_app, H2, H1. Qed.

Lemma Pushes_nil Buffer Sg : SortingOk Buffer Sg -> Pushes Buffer [] Sg Sg.
Proof using. done. Qed.

(** ** The loops over the handles *)

Definition pick (P : Z -> bool) (b : Z) : list Z := if P b then [b] else [].

Lemma pushes_pick P b l : b = 0 \/ b ∈ l -> pushes (pick P b) l = l.
Proof using. intros Hb. unfold pick. destruct (P b); [|done]. simpl. unfold push. by rewrite decide_True. Qed.

Lemma ForHandles_looks k Buffer (P : Z -> bool) Body l : D !! 0 = None ->
  (forall h Sg, SortingOk Buffer Sg -> Looks D High k k (Body h Sg) (Pushes Buffer (pick P (BindingOn D h)) Sg)) ->
  forall Sg, SortingOk Buffer Sg -> Forall (fun i => i < length Buffer)%nat l ->
  Looks D High k k (ForHandles Body l Sg) (Pushes Buffer (omap (Buffer !!.) l ≫= (fun h => pick P (BindingOn D h))) Sg).
Proof using.
  intros H0 HB. induction l as [|i l IH]; intros Sg Ok Hl; cbn [ForHandles]; [by apply Looks_ret, Pushes_nil|].
  apply Forall_cons in Hl as [[h Hh]%lookup_lt_is_Some Hl]. csimpl. rewrite Hh. csimpl.
  destruct (sorting_handles _ _ Ok i h Hh) as [->|[-> Hs]].
  - eapply Looks_bind; [by apply HB|]. intros Sg1 H1. eapply Looks_mono; [|apply IH; [apply H1|done]]. intros Sg2 H2. by eapply Pushes_trans.
  - eapply Looks_bind; [by apply HB|]. intros Sg1 [O1 H1]. eapply Looks_mono; [|by apply IH]. intros Sg2 H2. eapply Pushes_trans; [|exact H2].
    split; [done|]. rewrite H1, !pushes_pick; [done|by right|left; by apply BindingOn_0].
Qed.

Lemma all_handles (pre l : list Z) : omap ((pre ++ l) !!.) (seq (length pre) (length l)) = l.
Proof using.
  revert pre. induction l as [|h l IH]; intros pre; [done|]. csimpl. rewrite list_lookup_middle by done. f_equal.
  specialize (IH (pre ++ [h])). rewrite <- app_assoc, length_app in IH. simpl in IH. by rewrite Nat.add_1_r in IH.
Qed.

Lemma all_indices Buffer Sg : SortingOk Buffer Sg -> AllIndices Sg = seq 0 (length Buffer) /\ Forall (fun i => i < length Buffer)%nat (AllIndices Sg).
Proof using.
  intros Ok. unfold AllIndices. rewrite (sorting_length _ _ Ok). split; [done|]. apply Forall_forall. intros i Hi. apply elem_of_seq in Hi. lia.
Qed.

Lemma ForAll_looks k Buffer (P : Z -> bool) Body Sg : D !! 0 = None ->
  (forall h Sg, SortingOk Buffer Sg -> Looks D High k k (Body h Sg) (Pushes Buffer (pick P (BindingOn D h)) Sg)) -> SortingOk Buffer Sg ->
  Looks D High k k (ForHandles Body (AllIndices Sg) Sg) (Pushes Buffer (filter P (BindingOn D <$> Buffer)) Sg).
Proof using.
  intros H0 HB Ok. destruct (all_indices Buffer Sg Ok) as [EI HF].
  replace (filter P (BindingOn D <$> Buffer)) with (omap (Buffer !!.) (AllIndices Sg) ≫= (fun h => pick P (BindingOn D h))); [by apply ForHandles_looks|].
  pose proof (all_handles [] Buffer) as EA. simpl in EA. rewrite EI, EA. clear. induction Buffer as [|h l IH]; [done|]. csimpl. rewrite IH, filter_cons. unfold pick.
  destruct (P (BindingOn D h)); [by rewrite decide_True|by rewrite decide_False by (intros [])].
Qed.

(** ** The override protocols *)

(** The field ImageHandle of the drivers does not change. *)
Context (DriverImage : Z -> Z) (HImage : forall st b, ImageHandle st b = DriverImage b).

(** The bindings of an image handle. *)
Definition ImageBindings (Buffer : list Z) (Image : Z) : list Z :=
  if decide (is_Some (D !! Image)) then filter (fun b => DriverImage b =? Image) (BindingOn D <$> Buffer) else [].

(** A GetDriver function reports these images. *)
Inductive Reports (GetDriver : Z -> HM HS (EFI_STATUS * Z)) : Z -> list Z -> Prop :=
| ReportsEnd h s h' : EFI_ERROR s = true -> (forall st, GetDriver h st = Done ((s, h'), st)) -> Reports GetDriver h []
| ReportsNext h i l : (forall st, GetDriver h st = Done ((EFI_SUCCESS, i), st)) -> Reports GetDriver i l -> Reports GetDriver h (i :: l).

Lemma AddImage_looks k Buffer Image Sg : D !! 0 = None -> DriverHandles Buffer -> SortingOk Buffer Sg ->
  Looks D High k k (AddSortedDriverBindingProtocol Image true Sg) (Pushes Buffer (ImageBindings Buffer Image) Sg).
Proof using Q Memory HImage.
  intros H0 HB Ok. cbn [AddSortedDriverBindingProtocol]. eapply Looks_bind; [apply ValidateHandle_looks|]. intros s ->. unfold ImageBindings.
  destruct (decide (is_Some (D !! Image))); cbn [EFI_ERROR]; [|by apply Looks_ret, Pushes_nil].
  apply (ForAll_looks k Buffer (fun b => DriverImage b =? Image)); [done| |done]. intros h Sg1 Ok1. unfold AddIfImage.
  eapply Looks_bind; [apply DriverBindingOf_looks|]. intros b ->. destruct (Z.eqb_spec (BindingOn D h) 0) as [E|E].
  { apply Looks_ret. split; [done|]. by rewrite pushes_pick by (by left). }
  eapply Looks_bind; [apply (Looks_gets D High k _ (eq (DriverImage (BindingOn D h)))); by intros st|]. intros img <-.
  unfold pick. destruct (_ =? Image); [by apply AddBinding_looks|by apply Looks_ret, Pushes_nil].
Qed.

Lemma OverrideLoop_looks k Buffer GetDriver h l : D !! 0 = None -> DriverHandles Buffer -> Reports GetDriver h l ->
  forall fuel Sg, (length l < fuel)%nat -> SortingOk Buffer Sg ->
  Looks D High k k (OverrideLoop fuel GetDriver h Sg) (Pushes Buffer (l ≫= ImageBindings Buffer) Sg).
Proof using Q Memory HImage.
  intros H0 HB HR. induction HR as [h s h' Hs Hg|h i l Hg _ IH]; intros fuel Sg Hf Ok; (destruct fuel as [|fuel]; [simpl in Hf; lia|]);
    cbn [OverrideLoop]; (eapply Looks_bind; [apply (Looks_pure _ _ _ _ _ (eq _) Hg eq_refl)|]); intros r <-.
  - rewrite Hs. by apply Looks_ret, Pushes_nil.
  - cbn [EFI_ERROR]. eapply Looks_bind; [by apply AddImage_looks|]. intros Sg1 H1. csimpl.
    eapply Looks_mono; [|apply IH; [simpl in Hf; lia|apply H1]]. intros Sg2 H2. by eapply Pushes_trans.
Qed.

Lemma AddContext_looks k Buffer l : DriverHandles Buffer -> forall Sg, SortingOk Buffer Sg ->
  Looks D High k k (AddContext l Sg) (Pushes Buffer (BindingOn D <$> l) Sg).
Proof using Q Memory.
  intros HB. induction l as [|h l IH]; intros Sg Ok; cbn [AddContext]; [by apply Looks_ret, Pushes_nil|].
  eapply Looks_bind; [by apply AddBinding_looks|]. intros Sg1 H1. csimpl. eapply Looks_mono; [|apply IH, H1]. intros Sg2 H2.
  by apply (Pushes_trans Buffer [_] _ Sg Sg1).
Qed.

(** ** Driver family override *)

Definition FamilyOn (h : Z) : Z := default 0 (InterfaceOn D h gEfiDriverFamilyOverrideProtocolGuid).

Context (FamilyVersion : Z -> Z) (HV : forall i st, GetVersion i st = Done (FamilyVersion i, st)).

(** The best of these handles. *)
Definition FamilyBest (l : list (nat * Z)) (m : option (nat * Z)) : Prop :=
  match m with
  | None => forall i h, (i, h) ∈ l -> FamilyOn h = 0
  | Some (i, v) => exists h, (i, h) ∈ l /\ FamilyOn h ≠ 0 /\ v = FamilyVersion (FamilyOn h) /\
      forall j h', (j, h') ∈ l -> FamilyOn h' ≠ 0 -> FamilyVersion (FamilyOn h') <= v
  end.

Lemma FamilyBest_step l m i h : FamilyBest l m -> FamilyOn h ≠ 0 ->
  FamilyBest (l ++ [(i, h)]) (match m with
    | Some (_, v) => if v <? FamilyVersion (FamilyOn h) then Some (i, FamilyVersion (FamilyOn h)) else m
    | None => Some (i, FamilyVersion (FamilyOn h)) end).
Proof using.
  intros HM Hh. assert ((i, h) ∈ l ++ [(i, h)]) as Hin by (apply elem_of_app; right; by left).
  destruct m as [[j v]|].
  - destruct HM as (x & Hx & Hx0 & -> & Hmax). destruct (Z.ltb_spec (FamilyVersion (FamilyOn x)) (FamilyVersion (FamilyOn h))).
    + exists h. split_and!; [done..|]. intros j' y [Hy|[= -> ->]%list_elem_of_singleton]%elem_of_app Hy0; [|lia]. specialize (Hmax _ _ Hy Hy0). lia.
    + exists x. split_and!; [apply elem_of_app; by left|done..|]. intros j' y [Hy|[= -> ->]%list_elem_of_singleton]%elem_of_app Hy0; [by eapply Hmax|done].
  - exists h. split_and!; [done..|]. intros j' y [Hy|[= -> ->]%list_elem_of_singleton]%elem_of_app Hy0; [|lia]. by rewrite (HM _ _ Hy) in Hy0.
Qed.

Lemma FamilyBest_skip l m i h : FamilyBest l m -> FamilyOn h = 0 -> FamilyBest (l ++ [(i, h)]) m.
Proof using.
  intros HM Hh. destruct m as [[j v]|].
  - destruct HM as (x & Hx & Hx0 & -> & Hmax). exists x. split_and!; [apply elem_of_app; by left|done..|].
    intros j' y [Hy|[= -> ->]%list_elem_of_singleton]%elem_of_app Hy0; [by eapply Hmax|done].
  - intros j' y [Hy|[= -> ->]%list_elem_of_singleton]%elem_of_app; [by eapply HM|done].
Qed.

Lemma HighestFamily_looks k l : forall s f m pre, FamilyBest pre m ->
  Looks D High k k (HighestFamily l s f m) (fun r => FamilyBest (pre ++ l) r.2).
Proof using Q Memory HV.
  induction l as [|[i h] l IH]; intros s f m pre HM; cbn [HighestFamily]; [apply Looks_ret; by rewrite app_nil_r|].
  eapply Looks_bind; [apply CoreHandleProtocol_looks|]. intros [s1 o] Hr. change ((i, h) :: l) with ([(i, h)] ++ l). rewrite app_assoc.
  destruct (InterfaceOn D h gEfiDriverFamilyOverrideProtocolGuid) as [x|] eqn:EX.
  - injection Hr as -> ->. cbn [EFI_ERROR negb andb default from_option id]. assert (FamilyOn h = x) as <- by (unfold FamilyOn; by rewrite EX).
    destruct (Z.eqb_spec (FamilyOn h) 0) as [E|E]; cbn [negb].
    + by apply IH, FamilyBest_skip.
    + eapply Looks_bind; [apply (Looks_pure _ _ _ _ _ (eq _) (HV (FamilyOn h)) eq_refl)|]. intros v <-. by apply IH, FamilyBest_step.
  - simpl in Hr. rewrite Hr. cbn [negb andb]. apply IH, FamilyBest_skip; [done|]. unfold FamilyOn. by rewrite EX.
Qed.

(** A driver of the family that is not in a list. *)
Definition InFamily (Buffer l : list Z) (h : Z) : Prop := h ∈ Buffer /\ FamilyOn h ≠ 0 /\ BindingOn D h ∉ l.

(** What the loop adds: drivers of the family, first one with the highest version. *)
Definition FamilyList (Buffer l : list Z) (F : list Z) : Prop :=
  (forall b, b ∈ F -> exists h, InFamily Buffer l h /\ b = BindingOn D h) /\
  match F with
  | [] => forall h, ~ InFamily Buffer l h
  | b :: _ => exists h, InFamily Buffer l h /\ b = BindingOn D h /\
      forall h', InFamily Buffer l h' -> FamilyVersion (FamilyOn h') <= FamilyVersion (FamilyOn h)
  end.

Lemma live_family Buffer Sg i h : D !! 0 = None -> OwnBindings Buffer -> SortingOk Buffer Sg -> FamilyOn h ≠ 0 ->
  (i, h) ∈ zip (AllIndices Sg) (HandleBuffer Sg) -> HandleBuffer Sg !! i = Some h /\ InFamily Buffer (SortedProtocols Sg) h.
Proof using.
  intros H0 HO Ok Hf [j Hj]%list_elem_of_lookup. apply lookup_zip_with_Some in Hj as (x & y & [= <- <-] & Hx & Hy). unfold AllIndices in Hx.
  apply lookup_seq in Hx as [-> _]. split; [done|].
  assert (h ≠ 0) as Hn by (intros ->; apply Hf; unfold FamilyOn, InterfaceOn; by rewrite H0). assert (h ∈ HandleBuffer Sg) as Hin by (by eapply list_elem_of_lookup_2).
  split_and!; [by apply (sorting_elem Buffer Sg)|done|by apply (sorting_live _ _ Ok)].
Qed.

Lemma family_live Buffer Sg h : SortingOk Buffer Sg -> InFamily Buffer (SortedProtocols Sg) h -> exists i, (i, h) ∈ zip (AllIndices Sg) (HandleBuffer Sg).
Proof using.
  intros Ok ([i Hi]%list_elem_of_lookup & _ & Hn). destruct (sorting_handles _ _ Ok i h Hi) as [H1|[_ ?]]; [|done]. exists i.
  apply list_elem_of_lookup. exists i. apply lookup_zip_with_Some. exists i, h. split_and!; [done| |done]. unfold AllIndices. apply lookup_seq.
  split; [done|]. by eapply lookup_lt_Some.
Qed.

Lemma InFamily_push Buffer l h b : InFamily Buffer (push b l) h -> InFamily Buffer l h.
Proof using. intros (? & ? & Hn). split_and!; [done..|]. intros Hin. by apply Hn, push_mono. Qed.

Lemma FamilyLoop_looks k Buffer : D !! 0 = None -> DriverHandles Buffer -> OwnBindings Buffer ->
  forall fuel s f Sg, (length Buffer < fuel + length (SortedProtocols Sg))%nat -> SortingOk Buffer Sg ->
  Looks D High k k (FamilyLoop fuel s f Sg) (fun Sg' => exists F, Pushes Buffer F Sg Sg' /\
    (forall b, b ∈ F -> exists h, InFamily Buffer (SortedProtocols Sg) h /\ b = BindingOn D h) /\
    (EFI_ERROR s = false -> f ≠ 0 -> FamilyList Buffer (SortedProtocols Sg) F)).
Proof using Q Memory HV.
  intros H0 HB HO. induction fuel as [|fuel IH]; intros s f Sg Hf Ok.
  { pose proof (sorting_capacity Buffer _ (sorting_distinct _ _ Ok) (fun b Hb => proj2 (sorting_drivers _ _ Ok b Hb))). simpl in Hf. lia. }
  cbn [FamilyLoop]. destruct (EFI_ERROR s) eqn:Es; cbn [negb andb].
  { apply Looks_ret. exists []. split_and!; [by apply Pushes_nil|by intros b ?%elem_of_nil|done]. }
  destruct (Z.eqb_spec f 0) as [Ef|Ef]; cbn [negb].
  { apply Looks_ret. exists []. split_and!; [by apply Pushes_nil|by intros b ?%elem_of_nil|done]. }
  eapply Looks_bind; [apply (HighestFamily_looks k _ _ _ None []); by intros i h ?%elem_of_nil|]. intros [[s1 f1] m] HM. simpl in HM.
  destruct m as [[i v]|].
  2:{ apply Looks_ret. exists []. split_and!; [by apply Pushes_nil|by intros b ?%elem_of_nil|]. intros _ _. split; [by intros b ?%elem_of_nil|].
      intros h Hh. destruct (family_live Buffer Sg h Ok Hh) as [i Hi]. destruct Hh as (_ & Hh & _). by apply Hh, (HM i). }
  destruct HM as (h & Hin & Hh & -> & Hmax). destruct (live_family Buffer Sg i h H0 HO Ok Hh Hin) as [Hi HF]. rewrite Hi. cbn [AddSortedDriverBindingProtocol].
  eapply Looks_bind; [by apply AddBinding_looks|]. intros Sg1 [O1 S1]. destruct HF as (HF1 & HF2 & HF3).
  assert (SortedProtocols Sg1 = SortedProtocols Sg ++ [BindingOn D h]) as E1.
  { rewrite S1. simpl. unfold push. rewrite decide_False; [done|]. intros [?|?]; [by apply (HO h)|done]. }
  eapply Looks_mono; [|apply (IH s1 f1 Sg1); [rewrite E1, length_app; simpl; lia|done]]. intros Sg2 (F & HP & HF & _).
  assert (forall b, b ∈ BindingOn D h :: F -> exists x, InFamily Buffer (SortedProtocols Sg) x /\ b = BindingOn D x) as HA.
  { intros b [->|Hb]%elem_of_cons; [by exists h|]. destruct (HF b Hb) as (x & Hx & ->). exists x. split; [|done]. rewrite S1 in Hx. by apply InFamily_push in Hx. }
  exists (BindingOn D h :: F). split_and!; [by apply (Pushes_trans Buffer [_] F Sg Sg1)|done|]. intros _ _. split; [exact HA|].
  exists h. split_and!; [done..|]. intros x Hx. destruct (family_live Buffer Sg x Ok Hx) as [j Hj]. apply (Hmax j x Hj). apply Hx.
Qed.

(** ** Sorting by version *)

Context (V : Z -> Z).

Lemma HighestVersion_run (l : list Z) n : forall j HighestIndex b, (j + n <= length l)%nat -> l !! HighestIndex = Some b ->
  exists i m, HighestVersionLoop V l (seq j n) (V b) HighestIndex = Done i /\ l !! i = Some m /\ (i = HighestIndex \/ j <= i)%nat /\
    V b <= V m /\ forall x y, (j <= x < j + n)%nat -> l !! x = Some y -> V y <= V m.
Proof using.
  induction n as [|n IH]; intros j HI b Hl Hb; cbn [seq HighestVersionLoop].
  { exists HI, b. split_and!; [done|done|by left|done|]. intros x y Hx. lia. }
  destruct (lookup_lt_is_Some_2 l j) as [c Hc]; [lia|]. rewrite Hc.
  destruct (Z.ltb_spec (V b) (V c)) as [Hlt|Hge].
  - destruct (IH (S j) j c) as (i & m & E & Hi & Hor & Hle & Hall); [lia|done|]. exists i, m. split_and!; [done|done|right; lia|lia|].
    intros x y Hx Hy. destruct (decide (x = j)) as [->|]; [simplify_eq; lia|]. apply (Hall x y); [lia|done].
  - destruct (IH (S j) HI b) as (i & m & E & Hi & Hor & Hle & Hall); [lia|done|]. exists i, m. split_and!; [done|done|lia|lia|].
    intros x y Hx Hy. destruct (decide (x = j)) as [->|]; [simplify_eq; lia|]. apply (Hall x y); [lia|done].
Qed.

Lemma swap_permutation (x m : Z) (r : list Z) k : r !! k = Some m -> m :: <[k := x]> r ≡ₚ x :: r.
Proof using.
  intros Hk. rewrite <- (take_drop_middle r k m Hk) at 2. rewrite insert_take_drop by (by eapply lookup_lt_Some).
  rewrite <- !Permutation_middle. apply perm_swap.
Qed.

Lemma SortLoop_run (rest : list Z) : forall pre, exists rest',
  SortLoop V (length rest) (length (pre ++ rest)) (length pre) (pre ++ rest) = Done (pre ++ rest') /\ rest' ≡ₚ rest /\
  StronglySorted (fun a b => V b <= V a) rest'.
Proof using.
  remember (length rest) as n eqn:En. revert rest En. induction n as [|n IH]; intros rest En pre.
  { destruct rest; [|done]. exists []. split_and!; [done|done|constructor]. }
  destruct rest as [|x r]; [done|]. injection En as En. cbn [SortLoop]. rewrite list_lookup_middle by done.
  replace (length (pre ++ x :: r) - (length pre + 1))%nat with (length r) by (rewrite length_app; simpl; lia).
  destruct (HighestVersion_run (pre ++ x :: r) (length r) (length pre + 1) (length pre) x) as (i & m & E & Hi & Hor & Hle & Hall);
    [rewrite length_app; simpl; lia|by apply list_lookup_middle|]. unfold mbind at 1, Outcome_bind. rewrite E, Hi.
  assert (exists r', (if (length pre =? i)%nat then pre ++ x :: r else <[i:=x]> (<[length pre:=m]> (pre ++ x :: r))) = (pre ++ [m]) ++ r' /\ m :: r' ≡ₚ x :: r)
    as (r' & Er & Hp).
  { destruct (Nat.eqb_spec (length pre) i) as [<-|Hne].
    - rewrite list_lookup_middle in Hi by done. injection Hi as ->. exists r. split; [by rewrite <- app_assoc|done].
    - assert (exists k, i = length pre + S k)%nat as [k ->] by (exists (i - length pre - 1)%nat; lia).
      rewrite lookup_app_r in Hi by lia. replace (length pre + S k - length pre)%nat with (S k) in Hi by lia. simpl in Hi.
      exists (<[k := x]> r). split; [|by apply swap_permutation]. rewrite <- (Nat.add_0_r (length pre)) at 2.
      rewrite !insert_app_r. simpl. by rewrite <- app_assoc. }
  rewrite Er. assert (length r' = length r) as Hlen by (apply Permutation_length in Hp; simpl in Hp; lia).
  destruct (IH r' ltac:(lia) (pre ++ [m])) as (rest' & E2 & Hp2 & HS2).
  replace (length (pre ++ x :: r)) with (length ((pre ++ [m]) ++ r')) by (rewrite !length_app; simpl; lia).
  replace (length (pre ++ [m])) with (length pre + 1)%nat in E2 by (by rewrite length_app). rewrite E2. exists (m :: rest'). split_and!.
  - by rewrite <- app_assoc.
  - by rewrite Hp2.
  - constructor; [done|]. apply List.Forall_forall. intros y Hy%list_elem_of_In. rewrite Hp2 in Hy.
    assert (y ∈ x :: r) as Hxr by (rewrite <- Hp; by right). apply elem_of_cons in Hxr as [->|Hr]; [done|].
    apply list_elem_of_lookup in Hr as [j Hj]. apply (Hall (length pre + 1 + j)%nat y).
    + apply lookup_lt_Some in Hj. lia.
    + rewrite lookup_app_r by lia. by replace (length pre + 1 + j - length pre)%nat with (S j) by lia.
Qed.
End Order.
