(* ===== verification/ConnectTheorems.v ===== *)
(** * Driver connection services: theorems

    What [CoreConnectSingleController] does when nothing else uses the database: the
    order of the drivers, and how they are started, and an order that the code does not
    get right.  Then [CoreDisconnectController] in such a database: it stops the drivers
    that manage the controller, and those that can stop do not manage it afterwards. *)
From Stdlib Require Import ZArith Lia Sorting.Sorted.
From stdpp Require Import base option gmap list sets fin_maps.
From S2P Require Import Prelude RbTree RbTheorems Handle HandleSet HandleInv HandleRules HandleInstall HandleOpen HandleSafe HandleReach.
From S2P Require Import HandleSpec HandleLocate Connect ConnectReach ConnectOrder.

Section Connecting.
Context {HS : Type} {Ops : HandleSetOps HS} {SetOk : HandleSetOk HS} {Env : Environment HS} {Q : QuietEnvironment HS}.
Context {Memory : EnoughMemory (HS := HS)} {Drv : Drivers HS}.
Implicit Types st : HandleState HS.

(** ** Starting drivers *)



(** The functions of drivers return; Supported leaves the database as it was. *)
Class DriversReturn (High : bool) (Controller Path : Z) : Prop := {
  supported_returns b st : exists s, Supported b Controller Path st = Done (s, st);
  start_returns b st : Ready High st -> exists s st', Start b Controller Path st = Done (s, st') /\ Ready High st' }.




Context (High : bool) (Controller Path : Z) {Return : DriversReturn High Controller Path}.




(** ** The order *)

Context (PlatformImages BusImages : Z -> list Z) (FamilyVersion DriverVersion DriverImage : Z -> Z).

(** What the override protocols report, without using the database, and the fields
    of the drivers, which do not change. *)
Class OverridesReport : Prop := {
  platform_reports i : Reports (PlatformGetDriver i Controller) 0 (PlatformImages i);
  bus_reports i : Reports (BusGetDriver i) 0 (BusImages i);
  family_reports i st : GetVersion i st = Done (FamilyVersion i, st);
  version_stays st b : Version st b = DriverVersion b;
  image_stays st b : ImageHandle st b = DriverImage b;
  report_lengths i : (length (PlatformImages i) < Fuel)%nat /\ (length (BusImages i) < Fuel)%nat }.
Context {Over : OverridesReport}.

Section Drivers.
Context (D : gmap Z (list (Z * Z))).













End Drivers.





End Connecting.

(** ** A concrete database *)

(** Drivers that support a device that no driver manages and open its protocol 77. *)
#[export] Instance ManagingDriver : Drivers RbSet :=
  MkDrivers RbSet 10 11 12 13 (fun _ b => b) (fun _ _ => 0)
    (fun _ c _ => gets (fun st => match Managers st c with [] => EFI_SUCCESS | _ => EFI_ACCESS_DENIED end))
    (fun b c _ => '(Status, _) ← CoreOpenProtocol c (Some 77) true (b - 1000) c EFI_OPEN_PROTOCOL_BY_DRIVER; mret Status)
    (fun _ _ _ => mret EFI_DEVICE_ERROR) (fun _ _ _ => mret (EFI_NOT_FOUND, 0)) (fun _ _ => mret (EFI_NOT_FOUND, 0)) (fun i => mret i) None (fun _ p => p).

#[export] Instance SampleMemory : EnoughMemory (HS := RbSet).
Proof. split; [by intros; eexists|done]. Qed.

#[export] Instance ManagingDriver_returns c p : DriversReturn false c p.
Proof.
  split; [intros b st; by eexists|]. intros b st HR. cbn [Start ManagingDriver].
  pose proof (CoreOpenProtocol_run false st c 77 true (b - 1000) c EFI_OPEN_PROTOCOL_BY_DRIVER HR eq_refl) as E.
  destruct (OpenReference st c 77 (b - 1000) c EFI_OPEN_PROTOCOL_BY_DRIVER) as [[s o] st'] eqn:ER. exists s, st'.
  rewrite (HM_bind_run _ _ _ _ _ E). split; [done|]. by apply (CoreOpenProtocol_safe c (Some 77) true (b - 1000) c EFI_OPEN_PROTOCOL_BY_DRIVER false st (s, o) st').
Qed.

#[export] Instance SampleOverrides c : OverridesReport c (fun _ => []) (fun _ => []) (fun i => i) (fun b => b) (fun _ => 0).
Proof. split; intros; [by apply (ReportsEnd _ _ EFI_NOT_FOUND 0)..|done|done|done|split; vm_compute; lia]. Qed.

Definition SampleServices (cs : list Call) : HandleState RbSet := foldl (fun st c => SampleRun c st) (InitialState SampleSet) cs.









(** ** What the order does not handle *)

(** Drivers 1001 and 1000 with family versions 5 and 3, and then the driver 1009
    without a family override. *)
Definition SampleFamily : HandleState RbSet :=
  SampleServices [CallInstall (Some 0) (Some 10) 0 1001 true; CallInstall (Some 3) (Some 12) 0 5 true; CallInstall (Some 0) (Some 10) 0 1000 true;
    CallInstall (Some 0) (Some 10) 0 1009 true; CallInstall (Some 0) (Some 77) 0 2000 true; CallInstall (Some 7) (Some 12) 0 3 true].

(** The search for the family override with the highest version also sets the
    condition of the loop around it: if the last handle that is looked at has no family
    override, the loop ends after one driver, and the other drivers of the family are
    sorted among the rest. *)
Theorem FamilyLoop_ends_early : exists Sg st',
  CollectDrivers 12 [] (supporting SampleFamily 10) SampleFamily = Done ((Sg, 1%nat), st') /\ SortedProtocols Sg = [1001; 1000; 1009] /\
  SortLoop (fun b => b) 2 3 1 (SortedProtocols Sg) = Done [1001; 1009; 1000].
Proof. eexists _, _. split_and!; vm_compute; reflexivity. Qed.

(** ** Disconnecting *)

Section Stop.
Context {HS : Type} {Ops : HandleSetOps HS} {SetOk : HandleSetOk HS} {Env : Environment HS} {Q : QuietEnvironment HS}.
Context {Memory : EnoughMemory (HS := HS)} {Drv : Drivers HS}.
Implicit Types st : HandleState HS.

(** ** Open lists *)

Lemma OpensOf_run st h : Linked st -> is_Some (offers st !! h) -> OpensOf h st = Done (Opens st h, st).
Proof using.
  intros L [x Hx]. unfold OpensOf, Opens. destruct (Handles st !! h) as [hd|] eqn:Hh; [|apply offers_None in Hh; congruence]. hm_run.
  assert (forall l, (forall p, p ∈ l -> is_Some (Interfaces st !! p)) ->
    OpensLoop l st = Done (l ≫= (fun p => from_option OpenList [] (Interfaces st !! p)), st)) as HL.
  { induction l as [|p l IH]; intros Hl; [done|]. destruct (Hl p) as [prot Hp]; [by left|]. cbn [OpensLoop]. hm_run. csimpl. rewrite Hp.
    rewrite (HM_bind_run _ _ _ _ _ (IH (fun q Hq => Hl q ltac:(by right)))). done. }
  apply HL. intros p Hp. destruct (Linked_interface st h hd p L Hh Hp) as (_ & prot & _ & E & _). by exists prot.
Qed.

Lemma LockedOpens_run High st h : Ready High st -> is_Some (offers st !! h) -> LockedOpens h st = Done (Opens st h, st).
Proof using Q.
  intros ([L N] & Hl & Ha) Hh. unfold LockedOpens. rewrite Acquire_run by done.
  rewrite (HM_bind_run _ _ _ _ _ (OpensOf_run (SetLocked true st) h L Hh)), Release_run by done. by rewrite SetLocked_back.
Qed.

Lemma StoreDistinct_run n l : forall b st, (length b + length l <= n)%nat -> exists r, StoreDistinct n l b st = Done (r, st) /\
  (NoDup b -> NoDup r) /\ (forall x, x ∈ r <-> x ∈ b \/ x ∈ l) /\ (length r <= length b + length l)%nat.
Proof using.
  induction l as [|x l IH]; intros b st Hn; cbn [StoreDistinct].
  { exists b. split_and!; [done|done| |simpl; lia]. intros x. rewrite elem_of_nil. tauto. }
  simpl in Hn. destruct (existsb (Z.eqb x) b) eqn:EX.
  - apply existsb_exists in EX as (y & Hy%list_elem_of_In & ->%Z.eqb_eq). destruct (IH b st) as (r & E & HN & HX & HL); [lia|].
    exists r. split_and!; [done|done| |simpl; lia]. intros z. rewrite HX, elem_of_cons. naive_solver.
  - assert (x ∉ b) as Hx.
    { intros Hin%list_elem_of_In. assert (existsb (Z.eqb x) b = true) by (apply existsb_exists; exists x; split; [done|apply Z.eqb_refl]). congruence. }
    unfold assert. rewrite (HM_bind_run _ _ st tt st) by (by rewrite (proj2 (Nat.ltb_lt _ _)) by lia).
    destruct (IH (b ++ [x]) st) as (r & E & HN & HX & HL); [rewrite length_app; simpl; lia|]. exists r. rewrite length_app in HL. simpl in HL.
    split_and!; [done| | |simpl; lia].
    + intros Hb. apply HN, NoDup_app. split_and!; [done| |apply NoDup_singleton]. by intros y Hy ->%list_elem_of_singleton.
    + intros z. rewrite HX, elem_of_app, list_elem_of_singleton, elem_of_cons. naive_solver.
Qed.

Lemma LockedStore_run High st h n f : Ready High st -> is_Some (offers st !! h) -> (length (f (Opens st h)) <= n)%nat ->
  exists r, LockedStore h n f st = Done (r, st) /\ NoDup r /\ (forall x, x ∈ r <-> x ∈ f (Opens st h)) /\ (length r <= n)%nat.
Proof using Q.
  intros ([L N] & Hl & Ha) Hh Hn. unfold LockedStore. rewrite Acquire_run by done.
  rewrite (HM_bind_run _ _ _ _ _ (OpensOf_run (SetLocked true st) h L Hh)). change (Opens (SetLocked true st) h) with (Opens st h).
  destruct (StoreDistinct_run n (f (Opens st h)) [] (SetLocked true st)) as (r & E & HN & HX & HL); [done|].
  rewrite (HM_bind_run _ _ _ _ _ E), Release_run by done. exists r. rewrite SetLocked_back by done. split_and!; [done|apply HN; constructor| |simpl in *; lia].
  intros x. rewrite HX, elem_of_nil. tauto.
Qed.

(** ** The drivers *)

Context (High : bool) (Controller : Z) (Willing : Z -> bool).

(** What Stop does: drivers that are willing stop, and the others report an error.
    With an empty list of children the driver gives up the controller itself.  The
    controller and the driver bindings stay. *)
Class StopContract : Prop := {
  stop_contract b l st : Ready High st -> is_Some (offers st !! Controller) -> exists st',
    Stop b Controller l st = Done (if Willing b then EFI_SUCCESS else EFI_DEVICE_ERROR, st') /\ Ready High st' /\
    is_Some (offers st' !! Controller) /\ (forall h, BindingOn (offers st') h = BindingOn (offers st) h) /\
    forall a, a ∈ Managers st' Controller <-> a ∈ Managers st Controller /\ ~ (Willing b = true /\ l = [] /\ BindingOn (offers st) a = b) }.
Context {Contract : StopContract}.



Lemma mine_managed d l : existsb IsManaged (filter (fun D => AgentHandle D =? d) l) = true <-> d ∈ Agents l.
Proof using.
  rewrite existsb_exists. unfold Agents. rewrite list_elem_of_fmap. split.
  - intros (O & Hin%list_elem_of_In & HM). apply list_elem_of_filter in Hin as [Ha%Is_true_true Hin]. apply Z.eqb_eq in Ha. exists O. split; [done|].
    apply list_elem_of_filter. split; [by apply Is_true_true|done].
  - intros (O & -> & [HM Hin]%list_elem_of_filter). exists O. split; [|by apply Is_true_true]. apply list_elem_of_In, list_elem_of_filter.
    split; [apply Is_true_true, Z.eqb_refl|done].
Qed.

Lemma ChildrenOf_run st d : Ready High st -> is_Some (offers st !! Controller) ->
  exists Children, ChildrenOf Controller d (length (filter IsChild (filter (fun D => AgentHandle D =? d) (Opens st Controller)))) st = Done (Some Children, st).
Proof using Q Memory.
  intros HR HV. unfold ChildrenOf. destruct (_ =? 0)%nat; [by exists []|]. hm_run. rewrite enough_buffers. cbn [negb]. cbv iota.
  destruct (LockedStore_run High st Controller (length (filter IsChild (filter (fun D => AgentHandle D =? d) (Opens st Controller))))
    (fun l => ControllerHandle <$> filter (fun D => (AgentHandle D =? d) && IsChild D) l) HR HV) as (r & E & _).
  { rewrite length_fmap. apply Nat.eq_le_incl. generalize (Opens st Controller). intros l. induction l as [|O l IH]; [done|]. rewrite !filter_cons.
    destruct (AgentHandle O =? d); simpl; [|exact IH]. rewrite filter_cons. destruct (IsChild O); simpl; lia. }
  rewrite (HM_bind_run _ _ _ _ _ E). by exists r.
Qed.





(** ** The service *)

(** The part of CoreDisconnectController after the checks of the handles. *)
Definition DisconnectAll (Driver : Z) : HM HS EFI_STATUS :=
  Managing ← (if Driver =? 0 then ManagingDrivers Controller else mret (inr [Driver]));
  match Managing with
  | inl Status => mret Status
  | inr Drivers_ =>
    Result ← DriversLoop Drivers_ Controller 0 0;
    match Result with
    | inl Status => mret Status
    | inr StopCount => mret (if 0 <? StopCount then EFI_SUCCESS else EFI_NOT_FOUND)
    end
  end.

Lemma Disconnect_checked st Driver : Ready High st ->
  Connect.CoreDisconnectController Controller Driver 0 st =
  if decide (is_Some (offers st !! Controller)) then DisconnectAll Driver st else Done (EFI_INVALID_PARAMETER, st).
Proof using Q.
  intros ([L N] & Hl & Ha). unfold Connect.CoreDisconnectController. rewrite Acquire_run by done.
  rewrite (HM_bind_run _ _ _ _ _ (CoreValidateHandle_run (SetLocked true st) Controller L eq_refl)).
  change (0 =? 0) with true. cbn [negb]. change (Handles (SetLocked true st)) with (Handles st).
  assert (is_Some (offers st !! Controller) <-> is_Some (Handles st !! Controller)) as Hiff by (unfold offers; by rewrite lookup_fmap, fmap_is_Some).
  destruct (decide (is_Some (offers st !! Controller))) as [Hd|Hd].
  - rewrite bool_decide_eq_true_2 by tauto. cbn [EFI_ERROR]. hm_run. rewrite Release_run by done. by rewrite SetLocked_back.
  - rewrite bool_decide_eq_false_2 by tauto. cbn [EFI_ERROR]. hm_run. rewrite Release_run by done. by rewrite SetLocked_back.
Qed.


(** The drivers that are asked to stop. *)
Definition ToStop (Driver d : Z) : Prop := Driver = 0 \/ d = Driver.
#[local] Instance ToStop_dec Driver d : Decision (ToStop Driver d).
Proof using. unfold ToStop. apply _. Defined.


End Stop.

(** ** A driver that is not there *)

Section NotManaging.
Context {HS : Type} {Ops : HandleSetOps HS} {SetOk : HandleSetOk HS} {Env : Environment HS} {Q : QuietEnvironment HS}.
Context {Memory : EnoughMemory (HS := HS)} {Drv : Drivers HS}.

(** If the given driver does not manage the controller the status is EFI_NOT_FOUND;
    the comment of the function says EFI_SUCCESS. *)
Theorem Disconnect_not_managing High (st : HandleState HS) Controller d :
  Ready High st -> is_Some (offers st !! Controller) -> d ≠ 0 -> BindingOn (offers st) d ≠ 0 -> d ∉ Managers st Controller ->
  exists st', Connect.CoreDisconnectController Controller d 0 st = Done (EFI_NOT_FOUND, st').
Proof using Q Memory.
  intros HR HV H0 HB HM. rewrite (Disconnect_checked High) by done. rewrite decide_True by done. unfold DisconnectAll.
  rewrite (proj2 (Z.eqb_neq d 0)) by done. hm_run. cbn [DriversLoop]. rewrite bind_run.
  destruct (DriverBindingOf_run High st d HR) as (st1 & E1 & HR1 & HO1 & HM1). rewrite (HM_bind_run _ _ _ _ _ E1).
  rewrite (proj2 (Z.eqb_neq _ 0)) by done. rewrite <- HO1 in HV. rewrite bind_run, (HM_bind_run _ _ _ _ _ (LockedOpens_run High st1 Controller HR1 HV)).
  pose proof (mine_managed d (Opens st1 Controller)) as HMine. fold (Managers st1 Controller) in HMine. rewrite HM1 in HMine. cbv zeta.
  destruct (existsb IsManaged _); [by destruct HM; apply HMine|]. hm_run. by exists st1.
Qed.
End NotManaging.

(** ** What the handle database expects of disconnecting *)

Section LetsGo.
Context {HS : Type} {Ops : HandleSetOps HS} {SetOk : HandleSetOk HS} {Env : Environment HS} {Q : QuietEnvironment HS}.
Context {Memory : EnoughMemory (HS := HS)} {Drv : Drivers HS}.
Implicit Types st : HandleState HS.

(** Only open lists change, nobody has come, and drivers that had an interface have it. *)
Definition Keeps st st' : Prop := exists f, st' = Relist f st /\ forall p prot, Interfaces st !! p = Some prot ->
  NoneCame (OpenList prot) (f p (OpenList prot)) /\ existsb is_driver (f p (OpenList prot)) = existsb is_driver (OpenList prot).

(** There is room for another open in every list. *)
Definition OpensRoom st : Prop := forall p prot, Interfaces st !! p = Some prot -> Z.of_nat (length (OpenList prot)) < 2 ^ 64 - 1.

Lemma Relist_comp f g st : Relist g (Relist f st) = Relist (fun p l => g p (f p l)) st.
Proof using.
  unfold Relist. destruct st as [? ? ? ? I ? ? ? ? ? ? ?]. unfold SetInterfaces. simpl. f_equal. apply map_eq. intros p. rewrite !map_lookup_imap.
  by destruct (I !! p).
Qed.

Lemma NoneCame_trans l l' l2 : NoneCame l l' -> NoneCame l' l2 -> NoneCame l l2.
Proof using. intros (D1 & I1 & S1) (D2 & I2 & S2). split_and!; [lia| |auto]. intros D HD HX. apply I1; [by apply I2|done]. Qed.

Lemma Keeps_LetGo Controller Driver Status st st1 st2 : Keeps st st1 -> LetGo Controller Driver Status st1 st2 -> LetGo Controller Driver Status st st2.
Proof using.
  intros (f & -> & Hf) (g & -> & Hg). exists (fun p l => g p (f p l)). split; [apply Relist_comp|]. intros p prot Hp. destruct (Hf p prot Hp) as [C1 E1].
  destruct (Hg p _ (eq_trans (Relist_lookup f st p) (f_equal _ Hp))) as [C2 E2]. simpl in C2, E2. split; [by eapply NoneCame_trans|].
  destruct (EFI_ERROR Status); [by rewrite E2|exact E2].
Qed.

Lemma Keeps_refused Controller Driver Status st st' : EFI_ERROR Status = true -> Keeps st st' -> LetGo Controller Driver Status st st'.
Proof using. intros HE (f & -> & Hf). exists f. split; [done|]. intros p prot Hp. rewrite HE. by apply Hf. Qed.

(** Another list for one interface. *)
Lemma WithOpens_Relist st p prot l : Linked st -> Interfaces st !! p = Some prot -> WithOpens p prot l st = Relist (fun q k => if decide (q = p) then l else k) st.
Proof using.
  intros L Hp. unfold WithOpens, Relist. f_equal. apply map_eq. intros q. rewrite map_lookup_imap. destruct (decide (q = p)) as [->|Hne].
  - by rewrite lookup_insert_eq, Hp.
  - rewrite lookup_insert_ne by done. destruct (Interfaces st !! q) as [x|] eqn:Eq; [|done]. simpl.
    destruct (linked_opens _ _ _ _ _ _ _ L q x Eq) as [<- _]. by destruct x.
Qed.

Lemma count_first_elem P l D : D ∈ count_first P l -> D ∈ l \/ exists D0, D0 ∈ l /\ P D0 = true /\ Attributes D = Attributes D0.
Proof using.
  induction l as [|x l IH]; [by intros ?%elem_of_nil|]. simpl. destruct (P x) eqn:EP; intros [->|HD]%elem_of_cons.
  - right. exists x. split_and!; [by left|done|done].
  - left. by right.
  - left. by left.
  - destruct (IH HD) as [?|(D0 & ? & ? & ?)]; [left; by right|]. right. exists D0. split_and!; [by right|done|done].
Qed.

(** A look at an interface by its handle brings no driver and no exclusive user. *)
Lemma by_handle_keeps Room Image_ Controller l : Z.of_nat (length l) < 2 ^ 64 - 1 ->
  let l' := (OpenRule Room Image_ Controller EFI_OPEN_PROTOCOL_BY_HANDLE_PROTOCOL l).2 in NoneCame l l' /\ existsb is_driver l' = existsb is_driver l.
Proof using.
  intros Hl. unfold OpenRule. ground_bools. rewrite andb_false_r. cbn [orb andb negb]. cbv iota.
  destruct (existsb (is_exact _ _ _) l); cbn [andb snd].
  - assert (HX : forall D, D ∈ count_first (is_exact Image_ Controller EFI_OPEN_PROTOCOL_BY_HANDLE_PROTOCOL) l -> is_driver D = true \/ is_exclusive D = true -> D ∈ l).
    { intros D [?|(D0 & _ & HP & HA)]%count_first_elem HF; [done|]. exfalso. unfold is_exact in HP. apply andb_true_iff in HP as [[_ HP]%andb_true_iff _].
      apply Z.eqb_eq in HP. unfold is_driver, is_exclusive in HF. rewrite HA, HP in HF. by destruct HF. }
    split; [split_and!; [by rewrite count_first_drivers|exact HX|by rewrite count_first_length]|].
    set (P := is_exact _ _ _). clear HX. induction l as [|x l IH]; [done|]. simpl. destruct (P x); [done|]. simpl. rewrite IH; [done|simpl in Hl; lia].
  - destruct (Image_ =? 0); [split; [apply NoneCame_refl|done]|]. destruct Room; cbn [snd]; [|split; [apply NoneCame_refl|done]].
    split; [split_and!|].
    + unfold drivers. by rewrite filter_app, app_nil_r.
    + intros D [?|HD%list_elem_of_singleton]%elem_of_app HF; [done|]. subst D. by destruct HF.
    + intros _. rewrite length_app. simpl. lia.
    + rewrite existsb_app. simpl. by rewrite orb_false_r.
Qed.

Lemma DriverBindingOf_keeps High st h : Ready High st -> OpensRoom st ->
  exists st', DriverBindingOf h st = Done (BindingOn (offers st) h, st') /\ Ready High st' /\ offers st' = offers st /\ Keeps st st'.
Proof using Q Memory.
  intros HR HRoom. destruct (DriverBindingOf_run High st h HR) as (st' & E & HR' & HO & _). exists st'. split_and!; [done..|].
  assert (HRefl : Keeps st st).
  { exists (fun _ l => l). split; [symmetry; apply Relist_id, HR|]. intros p prot Hp. split; [apply NoneCame_refl|done]. }
  assert (exists r, CoreHandleProtocol h (Some gEfiDriverBindingProtocolGuid) true st = Done (r, st')) as [r EH].
  { unfold DriverBindingOf in E. destruct (CoreHandleProtocol_run High st h gEfiDriverBindingProtocolGuid HR) as ([s o] & st1 & E1 & _).
    rewrite (HM_bind_run _ _ _ _ _ E1) in E. injection E as _ <-. by eexists. }
  pose proof (CoreOpenProtocol_run High st h gEfiDriverBindingProtocolGuid true gDxeCoreImageHandle 0 EFI_OPEN_PROTOCOL_BY_HANDLE_PROTOCOL HR eq_refl) as E1.
  fold (CoreHandleProtocol h (Some gEfiDriverBindingProtocolGuid) true) in E1. rewrite EH in E1. injection E1 as E1. unfold OpenReference in E1.
  destruct (Handles st !! h) as [hd|]; [|by injection E1 as _ ->].
  change (EFI_ERROR (AttributesStatus st h gDxeCoreImageHandle 0 EFI_OPEN_PROTOCOL_BY_HANDLE_PROTOCOL)) with false in E1. cbv iota in E1.
  destruct (provider st hd gEfiDriverBindingProtocolGuid) as [[p prot]|] eqn:Ep; [|by injection E1 as _ ->].
  apply provider_Some in Ep as [_ Hp]. rewrite Prepared_by_handle, Hp in E1. cbv zeta in E1. cbn [from_option id] in E1.
  pose proof (by_handle_keeps (bool_decide (is_Some (AllocatePool (SetLocked true st) []))) gDxeCoreImageHandle 0 (OpenList prot) (HRoom p prot Hp)) as HK.
  destruct (OpenRule _ _ _ _ _) as [s l]. cbn [snd] in HK. injection E1 as _ ->.
  exists (fun q k => if decide (q = p) then l else k). split; [apply WithOpens_Relist; [apply HR|done]|].
  intros q x Hq. destruct (decide (q = p)) as [->|Hne]; [|split; [apply NoneCame_refl|done]]. rewrite Hp in Hq. injection Hq as <-. exact HK.
Qed.

Context (High : bool) (Controller : Z).

(** What Stop does to open lists: nobody comes; a driver that gives up the controller
    itself, with an empty list of children and without an error, closes what it has of
    it, and else drivers keep their interfaces. *)
Class StopLetsGo : Prop := {
  stop_lets_go b l st : Ready High st -> exists Status st', Stop b Controller l st = Done (Status, st') /\
    exists f, st' = Relist f st /\ forall p prot, Interfaces st !! p = Some prot -> NoneCame (OpenList prot) (f p (OpenList prot)) /\
      if EFI_ERROR Status || negb (bool_decide (l = [])) then existsb is_driver (f p (OpenList prot)) = existsb is_driver (OpenList prot)
      else ProtHandle prot = Controller -> forall D, D ∈ f p (OpenList prot) -> is_driver D = true -> BindingOn (offers st) (AgentHandle D) ≠ b }.
Context {Stops : StopLetsGo}.

Lemma stop_last b Driver st : Ready High st -> BindingOn (offers st) Driver = b ->
  exists Status st', Stop b Controller [] st = Done (Status, st') /\ LetGo Controller Driver Status st st'.
Proof using Stops.
  intros HR HB. destruct (stop_lets_go b [] st HR) as (Status & st' & E & f & -> & Hf). exists Status, (Relist f st). split; [done|].
  exists f. split; [done|]. intros p prot Hp. destruct (Hf p prot Hp) as [HC HX]. split; [done|]. rewrite orb_false_r in HX. destruct (EFI_ERROR Status); [done|].
  intros HP D HD Hd HA. apply (HX HP D HD Hd). by rewrite HA.
Qed.

Lemma StopDriver_lets_go b Driver Children st : Ready High st -> BindingOn (offers st) Driver = b ->
  exists Status st', StopDriver b Controller 0 Children st = Done (Status, st') /\ LetGo Controller Driver Status st st'.
Proof using Stops.
  intros HR HB. unfold StopDriver. change (0 =? 0) with true. cbn [orb]. cbv iota. destruct Children as [|x l]; simpl.
  - hm_run. by apply stop_last.
  - destruct (stop_lets_go b (x :: l) st HR) as (Status & st1 & E & HK). rewrite bind_run, (HM_bind_run _ _ _ _ _ E). hm_run.
    rewrite orb_true_r in HK. change (Keeps st st1) in HK. destruct (EFI_ERROR Status) eqn:ES; cbn [negb andb].
    + exists Status, st1. split; [done|]. by apply Keeps_refused.
    + assert (Ready High st1 /\ offers st1 = offers st) as [HR1 HO1].
      { split; [|destruct HK as (f & -> & _); apply Relist_offers]. apply (LetGo_ready Controller Driver EFI_DEVICE_ERROR High st); [by apply Keeps_refused|done]. }
      destruct (stop_last b Driver st1 HR1) as (s & st2 & E2 & HL); [by rewrite HO1|]. exists s, st2. split; [exact E2|]. by apply (Keeps_LetGo _ _ _ st st1).
Qed.

(** If Stop of the drivers does what their interface says, disconnecting a driver
    from a controller is as the handle database expects it ([LetGo]): it returns, only
    open lists change, to which no driver and no exclusive user comes, and with an error
    the driver keeps its interfaces, else it has closed those of the controller. *)
Theorem CoreDisconnectController_lets_go st Driver : Ready High st -> OpensRoom st -> Driver ≠ 0 ->
  exists Status st', Connect.CoreDisconnectController Controller Driver 0 st = Done (Status, st') /\ LetGo Controller Driver Status st st'.
Proof using Q Memory Stops.
  intros HR HRoom H0. rewrite (Disconnect_checked High) by done. destruct (decide (is_Some (offers st !! Controller))) as [HV|HV].
  2:{ exists EFI_INVALID_PARAMETER, st. split; [done|]. apply LetGo_refused; [apply HR|done]. }
  unfold DisconnectAll. rewrite (proj2 (Z.eqb_neq Driver 0)) by done. hm_run. cbn [DriversLoop]. rewrite bind_run.
  destruct (DriverBindingOf_keeps High st Driver HR HRoom) as (st1 & E1 & HR1 & HO1 & HK). rewrite (HM_bind_run _ _ _ _ _ E1).
  destruct (Z.eqb_spec (BindingOn (offers st) Driver) 0) as [EB|EB].
  { hm_run. exists EFI_INVALID_PARAMETER, st1. split; [done|]. by apply Keeps_refused. }
  rewrite <- HO1 in HV. rewrite bind_run, (HM_bind_run _ _ _ _ _ (LockedOpens_run High st1 Controller HR1 HV)). cbv zeta. destruct (existsb IsManaged _).
  - destruct (ChildrenOf_run High Controller st1 Driver HR1 HV) as (Children & E2). rewrite bind_run, (HM_bind_run _ _ _ _ _ E2).
    change (0 =? 0) with true. cbn [orb]. cbv iota.
    destruct (StopDriver_lets_go (BindingOn (offers st) Driver) Driver Children st1 HR1) as (s & st2 & E3 & HL); [by rewrite HO1|].
    rewrite bind_run, (HM_bind_run _ _ _ _ _ E3). hm_run. apply (Keeps_LetGo _ _ _ _ _ _ HK) in HL. destruct (EFI_ERROR s) eqn:Es.
    + exists EFI_NOT_FOUND, st2. split; [done|]. destruct HL as (f & -> & Hf). exists f. split; [done|]. intros p prot Hp. specialize (Hf p prot Hp).
      by rewrite Es in Hf.
    + exists EFI_SUCCESS, st2. split; [done|]. apply EFI_ERROR_false in Es as ->. exact HL.
  - hm_run. exists EFI_NOT_FOUND, st1. split; [done|]. by apply Keeps_refused.
Qed.
End LetsGo.

(** ** A concrete database *)

Section Close.
Context {HS : Type} {Ops : HandleSetOps HS} {SetOk : HandleSetOk HS} {Env : Environment HS} {Q : QuietEnvironment HS}.
Implicit Types st : HandleState HS.

(** Drops opens from some interfaces. *)
Fixpoint CloseOpens (Keep : OPEN_PROTOCOL_DATA -> bool) (ps : list Z) st : HandleState HS :=
  match ps with
  | [] => st
  | p :: ps => CloseOpens Keep ps (match Interfaces st !! p with Some prot => WithOpens p prot (filter Keep (OpenList prot)) st | None => st end)
  end.

Lemma CloseOpens_keeps Keep High ps : forall st, Ready High st ->
  Ready High (CloseOpens Keep ps st) /\ offers (CloseOpens Keep ps st) = offers st /\ Handles (CloseOpens Keep ps st) = Handles st /\
  forall p D, D ∈ from_option OpenList [] (Interfaces (CloseOpens Keep ps st) !! p) <->
    D ∈ from_option OpenList [] (Interfaces st !! p) /\ (p ∈ ps -> Keep D = true).
Proof using.
  induction ps as [|q ps IH]; intros st HR; cbn [CloseOpens].
  { split_and!; [done..|]. intros p D. split; [|tauto]. intros HD. split; [done|]. by intros ?%elem_of_nil. }
  destruct (Interfaces st !! q) as [prot|] eqn:Eq.
  - destruct (IH (WithOpens q prot (filter Keep (OpenList prot)) st)) as (H1 & H2 & H3 & H4).
    { destruct HR as (I & Hl & Ha). split_and!; [|done|done]. apply Inv_WithOpens; [done|done|]. pose proof (linked_opens _ _ _ _ _ _ _ (proj1 I) q prot Eq) as [_ Hd].
      split; simpl; [done|]. pose proof (drivers_filter Keep (OpenList prot)). lia. }
    rewrite H2, H3. split_and!; [done|by apply offers_WithOpens|done|]. intros p D. rewrite H4. simpl. destruct (decide (q = p)) as [<-|Hne].
    + rewrite lookup_insert_eq, Eq. simpl. rewrite list_elem_of_filter, elem_of_cons, Is_true_true. naive_solver.
    + rewrite lookup_insert_ne by done. rewrite elem_of_cons. naive_solver.
  - destruct (IH st HR) as (H1 & H2 & H3 & H4). split_and!; [done..|]. intros p D. rewrite H4, elem_of_cons. split; [|naive_solver].
    intros [HD HK]. split; [done|]. intros [->|Hp]; [|by apply HK]. rewrite Eq in HD. by apply elem_of_nil in HD.
Qed.

(** A driver gives up a controller. *)
Definition GiveUp (Binding : Z -> Z) (b Controller : Z) st : HandleState HS :=
  CloseOpens (fun D => negb (IsManaged D && (Binding (AgentHandle D) =? b))) (from_option Protocols [] (Handles st !! Controller)) st.

Lemma GiveUp_managers Binding b Controller High st : Ready High st ->
  Ready High (GiveUp Binding b Controller st) /\ offers (GiveUp Binding b Controller st) = offers st /\
  forall a, a ∈ Managers (GiveUp Binding b Controller st) Controller <-> a ∈ Managers st Controller /\ Binding a ≠ b.
Proof using.
  intros HR. unfold GiveUp. set (Keep := fun D => negb _). destruct (CloseOpens_keeps Keep High (from_option Protocols [] (Handles st !! Controller)) st HR) as (H1 & H2 & H3 & H4).
  split_and!; [done|done|]. intros a. unfold Managers, Agents, Opens. rewrite H3. destruct (Handles st !! Controller) as [hd|]; simpl in *.
  2:{ rewrite elem_of_nil. tauto. }
  rewrite !list_elem_of_fmap. setoid_rewrite list_elem_of_filter. setoid_rewrite list_elem_of_bind. setoid_rewrite H4. setoid_rewrite Is_true_true. split.
  - intros (D & -> & HM & p & [HD HK] & Hp). split; [exists D; split_and!; [done|done|by exists p]|]. specialize (HK Hp). unfold Keep in HK.
    rewrite HM in HK. simpl in HK. apply negb_true_iff, Z.eqb_neq in HK. done.
  - intros [(D & -> & HM & p & HD & Hp) Hne]. exists D. split_and!; [done|done|]. exists p. split_and!; [done| |done]. intros _. unfold Keep. rewrite HM. simpl.
    by apply negb_true_iff, Z.eqb_neq.
Qed.
End Close.

(** Drivers of which only the one with the binding 1005 can stop. *)
#[export] Instance StoppingDriver : Drivers RbSet :=
  MkDrivers RbSet 10 11 12 13 (fun _ b => b) (fun _ _ => 0) (fun _ _ _ => mret EFI_UNSUPPORTED) (fun _ _ _ => mret EFI_UNSUPPORTED)
    (fun b c l st => if b =? 1005 then Done (EFI_SUCCESS, match l with [] => GiveUp (fun a => default 0 (InterfaceOn (offers st) a 10)) b c st | _ => st end)
                     else Done (EFI_DEVICE_ERROR, st))
    (fun _ _ _ => mret (EFI_NOT_FOUND, 0)) (fun _ _ => mret (EFI_NOT_FOUND, 0)) (fun i => mret i) None (fun _ p => p).

#[export] Instance StoppingDriver_contract c : StopContract false c (fun b => b =? 1005).
Proof.
  split. intros b l st HR HV. cbn [Stop StoppingDriver]. destruct (b =? 1005) eqn:Eb.
  2:{ exists st. split_and!; [done..|]. intros a. naive_solver. }
  destruct l as [|x l].
  - destruct (GiveUp_managers (fun a => default 0 (InterfaceOn (offers st) a 10)) b c false st HR) as (H1 & H2 & H3). eexists. split; [done|].
    split_and!; [done|by rewrite H2|intros h; by rewrite H2|]. intros a. rewrite H3. unfold BindingOn. naive_solver.
  - exists st. split_and!; [done..|]. intros a. naive_solver.
Qed.



